(* ===== verification/_CoqProject ===== *)
-Q . S2P
Prelude.v
RlcPdu.v
RlcEntity.v
RlcUm.v
RlcUmTx.v
RlcUmRx.v
RlcUmProps.v
RlcUmLink.v
RlcUmTransfer.v
RlcTm.v
RlcRxManager.v
RlcAm.v
RlcAmControl.v
RlcAmPool.v
RlcAmStatus.v
RlcAmTx.v
RlcAmRx.v
RlcAmProps.v
RlcAmTxInv.v
RlcAmCtrlInv.v
RlcAmRxInv.v
RlcAmStatusOk.v
RlcAmRun.v
Fapi.v
FapiCodec.v
FapiDl.v
FapiDlCodec.v
FapiUl.v
FapiUlCodec.v
FapiInd.v
FapiIndCodec.v
FapiP7.v
FapiProps.v
Gf2.v
Crc.v
CrcFacts.v
CrcFold.v
CrcProps.v
NrSegmentation.v
NrSegProps.v
NrSegTransfer.v
NrSegTheorems.v
Snow3g.v
Snow3gRef.v
Snow3gMac.v
PdcpSecurity.v
PdcpEntity.v
PdcpRx.v
PdcpTransfer.v
PdcpTheorems.v
Sdap.v
SdapFacts.v
SdapProps.v
SdapRun.v
NrList.v
MacHarq.v
MacHarqInv.v
MacHarqSim.v
MacHarqUlSim.v
MacHarqRun.v
MacHarqProps.v
RlcApi.v
RlcApiLaws.v
MacPdu.v
MacDl.v
MacUeRx.v
MacDlGnb.v
MacUmTransfer.v
MacDlProps.v
MacBsr.v
MacUlRx.v
MacUlLcp.v
MacUlGnb.v
MacUlFill.v
MacUlRounds.v
MacUlBlock.v
MacUmUplink.v
MacUlReport.v
MacUlProps.v
