(* ===== verification/Prelude.v ===== *)
(** * Verification of the OpenAirInterface NR user plane

    OpenAirInterface is a software 5G (and 4G) radio access network: a base station (gNB), its
    central and distributed units, and a terminal (UE).  This library models the part of the
    user plane that carries user data between the core network and the PHY: SDAP, PDCP and RLC,
    which both ends of the radio link run, the SNOW 3G functions that PDCP uses; of MAC the
    transport blocks, how one end builds them from what RLC has and how the other takes them apart,
    in both directions, and the HARQ processes of the gNB that repeat what was not received; and
    below MAC the transport blocks of the PHY (their size, CRC, segmentation and reassembly) and the
    nFAPI P7 messages by which a MAC and a PHY on different machines talk to each other.

    ** How the parts interact

    Downlink at a gNB (uplink at a UE is the same, mirrored):

      GTP-U or TUN socket  --SDU, QFI-->  SDAP  --SDU, DRB-->  PDCP  --PDU-->  RLC  --PDU--> MAC
      MAC  --transport block-->  CRC  -->  segments with CRC  -->  LDPC
      MAC (VNF)  --DL_TTI, UL_TTI, UL_DCI, TX_DATA-->  PHY (PNF)
      MAC (VNF)  <--SLOT, RX_DATA, CRC, UCI, SRS, RACH--  PHY (PNF)

    SDAP ([nr_sdap_tx_entity]) chooses the DRB of a QoS flow and may add a one-byte header; PDCP
    ([nr_pdcp_entity_process_sdu]) numbers, ciphers and authenticates; RLC ([recv_sdu]) queues,
    and cuts when the MAC asks for a PDU of some size ([generate_pdu]).  On the other side RLC
    ([recv_pdu]) reassembles, PDCP ([nr_pdcp_entity_recv_pdu]) deciphers, checks, reorders and
    removes duplicates, SDAP ([nr_sdap_rx_entity]) removes its header and gives the SDU to the
    upper layer.  MAC asks for a transport block of the size [nr_compute_tbs] gives and fills it:
    at the gNB [generate_dl_mac_pdu] writes control elements, the PDUs of RLC behind a subheader
    each, and padding, and the UE reads them with [nr_ue_process_mac_pdu]; at the UE [nr_ue_get_sdu]
    divides the block between the logical channels by priority and bit rate and reports what is left
    to send, and the gNB reads it with [nr_process_mac_pdu].  Between MAC and RLC is nr_rlc_oai_api.c,
    which finds the entity of a logical channel and calls it through its table of functions; here
    that table is a class, [RlcEntity], with the laws [RlcEntityLaws] and [RlcTickLaws] that MAC
    relies on and instances for the three modes and for an entity of any mode.  The PHY
    appends a CRC ([dlsch_attach], [ulsch_attach]), cuts the block into segments with a CRC each
    ([nr_segmentation]), and on the other side puts them together again and checks
    ([dlsch_post_decode], [ulsch_post_decode]).  Each entity is a C structure with function
    pointers and callbacks.  Here an entity is a record, each function of its table a definition
    that returns the new record, and a callback an event appended to a list.

    ** Conventions

    - The outcome of a call is [res] (below): normal return, exit of the process (the assertion
      macros and [exit(1)]), undefined behaviour (NULL, freed memory, out of bounds), or not
      enough fuel.  A theorem that a call is [Ok] is thus also a theorem of memory safety and
      termination.
    - A C integer is a [Z]; where it can wrap the definitions apply [u8], [u32] or [u64] (below).
      SN arithmetic is written with the modulus operations of the source.
    - Memory that is shared (the SDUs that several RLC segments point to, the security contexts
      of PDCP) is a heap with explicit allocation and release; data that has one owner is a value.
    - Loops that follow a list are structural; the others have fuel, with a theorem that the fuel
      is enough where one is needed: the loops over SNs get the size of the SN space or of the
      window ([RlcUm.skip_delivered], [RlcAm.skip_delivered], [RlcAmStatus.find_rx_pdu]), the
      walk over stored segments their number ([RlcAmStatus.next_pdu_loop]), the generation of a
      STATUS PDU the size of its buffer ([RlcAmStatus.generate_status_loop]), those over a received STATUS PDU its length in bytes ([RlcAmControl.validate_nacks]), the jumps
      between labels the number of segments in the lists ([RlcAmControl.process_nack]),
      the folding of a CRC the message length ([Crc.folding_loop], [CrcFold.folding_loop_ok]),
      the parsers of MAC PDUs the length of the PDU ([ue_parse], [ul_parse]), the rounds of logical
      channel prioritisation the length of the block and the 32 channels ([lcp_rounds]: every round
      but the last adds an SDU or finds a channel empty), the bisection in the BSR tables nine.
    - An octet array in which a MAC PDU lies goes on after the PDU: reading there is modelled (it is
      what the code does), reading after the end of the array is undefined behaviour.
    - LOG macros and out-of-memory exits are left out.  Time is an argument.

    ** Files and the code they model (under src/)

    - [Prelude]: results, record update, C integers, byte arrays, tactics, hints.
    - [RlcPdu]: openair2/LAYER2/nr_rlc/nr_rlc_pdu.c (bit decoder and encoder, sorted insertion),
      with the proof that fields written are the fields read.
    - [RlcEntity]: nr_rlc_sdu.c, the reference-counted SDUs as a heap, its safety invariant;
      nr_rlc_entity.h, what the three modes share.
    - [RlcUm]: nr_rlc_entity_um.c.  [RlcUmTx], [RlcUmRx]: invariants and lemmas of its two sides;
      [RlcUmProps]: its operations as steps, reachability, theorems.  [RlcUmLink] (a receiver
      fed in order), [RlcUmTransfer] (two entities and the channel between them): the transfer
      of SDUs from end to end.
    - [RlcTm]: nr_rlc_entity_tm.c and its refinement of a bounded FIFO.
    - [RlcRxManager]: nr_rlc_rx_manager.c and its refinement of a window of lists.
    - [RlcAm] (reception), [RlcAmControl] (received STATUS PDUs), [RlcAmStatus] (STATUS PDUs
      sent), [RlcAmTx] (transmission, timers, discard): nr_rlc_entity_am.c.  [RlcAmRx],
      [RlcAmProps]: theorems.  [RlcAmPool] (segments in the transmission
      window), [RlcAmTxInv] (invariant of transmission), [RlcAmCtrlInv] (a received STATUS PDU
      keeps it), [RlcAmRxInv] (invariant of reception), [RlcAmStatusOk] (the announced size is
      exact, a STATUS PDU can always be generated): lemmas;
      [RlcAmRun]: sequences of operations.
    - [Snow3g]: openair3/SECU/snow3g.c.  [Snow3gRef]: the specification of SNOW 3G and the
      proof that the keystream is its keystream.  [Snow3gMac]: the table-driven MAC.
    - [PdcpSecurity]: openair2/LAYER2/nr_pdcp/nr_pdcp_security_nea1.c, _nea2.c,
      nr_pdcp_integrity_nia1.c, _nia2.c and the NAS stream functions below them.  The class
      [StreamSecurity] is the interface between PDCP and its algorithms, with the laws
      [StreamSecurityLaws]; [OpenSSL] stands for the AES functions of that library.
    - [PdcpEntity]: nr_pdcp_entity.c and nr_pdcp_sdu.c.  [PdcpRx] (reception window,
      contexts), [PdcpTransfer] (COUNT, safety of reception, from an entity to its peer): lemmas;
      [PdcpTheorems]: sequences of operations, theorems.
    - [Sdap]: openair2/SDAP/nr_sdap/nr_sdap_entity.c and the entry points of nr_sdap.c.
      [SdapFacts], [SdapProps], [SdapRun]: invariant, theorems, sequences of operations.
    - [Gf2]: polynomials over GF(2) as integers: carry-less product, degree, congruence modulo a
      generator.
    - [Crc]: the carry-less multiplication CRC of openair1/PHY/CODING/crc.h, crcext.h and
      types.h, over a class [Simd] of the intrinsics it calls with their laws [SimdLaws];
      crc_byte.c, the eight table-driven CRCs, the tables, [check_crc].
      [CrcFacts] (tables, shuffles and reductions), [CrcFold] (folding of a message
      of any length): lemmas; [CrcProps]: theorems.
    - [NrSegmentation]: nr_compute_tbs_common.c (size of a transport block), get_BG of
      nr_mac_common.c, nr_segmentation.c, CRC attachment of nr_dlsch_coding.c and
      nr_ulsch_coding.c, reassembly and check of nr_dlsch_decoding.c and
      phy_procedures_nr_gNB.c, shares of the coded bits of nr_tbs_tools.c.  [NrSegProps]
      (parameters, contents of the segments), [NrSegTransfer] (reassembly through
      a channel that returns the encoded segments): lemmas; [NrSegTheorems]: theorems.
    - [Fapi]: the push and pull routines of nfapi/open-nFAPI/common/src/nfapi.c, as writers (into
      the room left) and readers (of the octets left).  [FapiDl] (DL_TTI, UL_DCI, TX_DATA),
      [FapiUl] (UL_TTI), [FapiInd] (indications), [FapiP7] (header and dispatch):
      fapi/src/nr_fapi_p7.c, a Module per structure of nfapi_nr_interface_scf.h with its two
      functions and its well-formedness.  [FapiCodec]: how round trips and ranges compose; [FapiDlCodec], [FapiUlCodec], [FapiIndCodec]: the structures one by one;
      [FapiProps]: theorems.
    - [NrList]: the index lists of openair2/LAYER2/NR_MAC_gNB/gNB_scheduler_primitives.c.
      [MacHarq]: the HARQ processes of a UE in the gNB scheduler, from that file,
      gNB_scheduler_dlsch.c, gNB_scheduler_ulsch.c and gNB_scheduler_uci.c.  [MacHarqInv]: where
      a process is.  [MacHarqSim] (the queues they implement, as an abstract machine; downlink),
      [MacHarqUlSim] (uplink), [MacHarqRun] (configuration, answers, sequences): the simulation; [MacHarqProps]: theorems.
    - [RlcApi]: nr_rlc_oai_api.c between RLC and MAC, the table of functions of nr_rlc_entity.h and
      the lookup of nr_rlc_ue_manager.c.  [RlcApiLaws]: what the three modes promise.
    - [MacPdu]: subheaders and logical channel identities (NR_MAC_COMMON/nr_mac.h).
      [MacDl]: the downlink transport block, nr_write_ce_dlsch_pdu and generate_dl_mac_pdu of
      NR_MAC_gNB/gNB_scheduler_dlsch.c.  [MacUeRx]: its reception, nr_ue_process_mac_pdu of
      NR_MAC_UE/nr_ue_procedures.c, with the lemmas on subPDUs.  [MacDlGnb] (the block that the gNB builds), [MacUmTransfer] (a UM bearer): lemmas;
      [MacDlProps]: theorems.
    - [MacBsr]: the BSR tables of nr_mac_common.c, their use by the UE and by the gNB.
      [MacUlLcp] (buffer status, reports, token buckets, timers, the rounds of prioritisation):
      nr_ue_get_sdu and what it calls in NR_MAC_UE/nr_ue_scheduler.c.  [MacUlRx]:
      nr_process_mac_pdu and what it calls in NR_MAC_gNB/gNB_scheduler_ulsch.c.  [MacUlGnb]
      (the gNB on well-formed and on arbitrary octets), [MacUlFill] (one request to RLC, one SDU,
      invariant of the loops), [MacUlRounds] (the rounds end), [MacUlBlock] (the reports, the whole
      block), [MacUmUplink] (a UM bearer), [MacUlReport] (what the gNB learns): lemmas; [MacUlProps]: theorems.

    ** What the theorems show

    - Safety of any sequence of operations, from the construction of the entity on: UM
      ([um_run_safe], [um_delete_releases]), AM ([am_run_safe]), PDCP ([pdcp_run_safe]), SDAP
      ([sdap_run_safe]).
    - Transfer from end to end: two UM entities over a lossless channel are a FIFO of SDUs
      ([um_transfer]), but for SDUs lost with 12-bit SNs, that a bounded number of grants empties
      ([um_transfer_completes]); so are they with 6-bit SNs and the MAC of both ends between them, in the downlink ([mac_um_transfer]) and in the uplink
      ([mac_um_uplink]).
    - What one side builds the other side reads: [um_pdu_roundtrip], [am_data_pdu_roundtrip],
      [pdcp_transfer], [sdap_transfer], [fapi_p7_roundtrip].
    - Ordering: [pdcp_delivers_in_order], [pdcp_reordering_timeout], [pdcp_count_reconstruction],
      [um_reception_window].
    - Segmentation and reassembly: [um_generate_next_bytes], [um_reassembly_delivers],
      [am_resegment_splits], [am_reassembly_delivers], [am_duplicate_sound].
    - Abstract specifications implemented: [tm_refines_fifo], [rx_manager_refines_window],
      [sdap_list_refines_map], [sdap_update_qos_flows_exact].
    - Equivalence with a reference: [snow3g_keystream_spec], [snow3g_integrity_spec], and between
      two computations of the code, [am_status_size_exact].
    - Loops: [um_next_reassembly_terminates], [am_skip_delivered_terminates].
    - Transport blocks: CRCs against polynomial division and against the bitwise reference
      ([crc_is_remainder], [crc_equals_crcbit]), detection ([check_crc_accepts_iff],
      [check_crc_detects_bursts]), sizes and segments ([tbs_is_cut_exactly],
      [segmentation_parameters], [segments_pass_check], [rate_matching_partition]), and the whole
      chain in both directions ([dlsch_transfer], [ulsch_transfer]).
    - nFAPI: round trip of the ten messages, what a message is that unpacking accepts
      ([fapi_p7_unpack_typed]), messages that are safe to unpack ([fapi_indications_safe]), and
      where the codec fails ([fapi_beamforming_overflow], [fapi_dl_groups_corrupted],
      [fapi_vendor_success_aborts]).
    - HARQ: the scheduler's linked lists are lists ([nr_list_refines_list]), all it does to the
      processes of a UE is what the abstract queues do ([harq_refines_queues]), no process is lost
      or in two places ([harq_processes_conserved]), a transport block ends within the configured
      rounds ([dl_block_rounds]); what goes wrong outside of the assumptions
      ([harq_reconfiguration_aborts], [uci_high_bits_are_nacks], [harq_rounds_overflow]).
    - MAC PDU: what RLC generated at one end is what RLC gets at the other, over a transport
      block, in the downlink ([dl_mac_transfer]) and in the uplink, where the rounds of
      prioritisation are shown to end ([ul_mac_transfer]); the buffer status and the power headroom
      that the gNB learns ([ul_bsr_complete], [ul_power_headroom]); the gNB on any octets
      ([ul_gnb_safe]).  What goes wrong: [dl_five_octets_lose_sdu], [dl_lcid_budget_ignored],
      [ue_sdu_past_end], [dl_csi_im_misparsed], [successrar_wrong_timing_advance],
      [ul_big_padding_loses_sdus], [bj_debt_forgiven], [lcgid_out_of_bounds], [bsr_254_negative].
    - Defects of the code, as theorems: [am_reception_hangs], [am_poll_timer_null_deref],
      [am_nack_drops_retransmit_list], [am_nack_order_not_checked], [am_status_window_alias],
      [pdcp_first_hfn_underflow],
      [sdap_dl_header_only_aborts], [um_generate_loses_sdu], [um_timer_leaks_rx_size],
      [um_discard_keeps_tx_size].

    ** Not modelled

    - Of nr_rlc_oai_api.c and the UE manager of RLC the set-up, reconfiguration and release of
      bearers (from ASN.1 structures that the build generates) and the delivery callbacks, which pass
      messages between threads; nr_pdcp_oai_api.c and its UE manager (threads and queues); locks;
      the copies of statistics.
    - The rest of MAC: the choice of who is scheduled where (global state of the RAN and ASN.1
      structures), random access but for its outcome at the UE, power control, link adaptation, the
      triggers of BSR, PHR and SR by timers.  [prepare_initial_ul_rrc_message], which configures a
      new UE through RRC code, is a parameter of the gNB's parser, as are the LCID policy (a function
      pointer), the random octets of test modes and the logarithms of the power headroom.
    - AES and the rest of OpenSSL: parameters with their laws.
    - The rest of the PHY (signal processing), RRC and the F1, E1, NG application protocols (the
      last ones work on types that the build generates from ASN.1), NAS, GTP-U (C++), the P5 and LTE messages of nFAPI,
      radio drivers, the LTE stack, start-up and configuration.
    - LDPC and polar coding, rate matching, interleaving and modulation: between segmentation and
      reassembly the theorems take any decoder that returns the encoded segments ([carries]).
    - The [ENABLE_AERIAL] variant of the P7 codec, and vendor callbacks, which are parameters.
    - The lookup-table CRC variants of crc.h that crc_byte.c does not call.
*)

From Stdlib Require Export ZArith Lia List Bool Sorted.
From stdpp Require Export base list gmap numbers option sorting.

#[global] Open Scope Z_scope.

(** ** Outcome of a C computation

    [Ok a] a normal return; [Exit] an [exit(1)], [AssertFatal] or [DevAssert] failure;
    [UB] undefined behaviour (NULL dereference, use after free, access out of the bounds of
    an object); [NoFuel] a loop that did not finish within the fuel given to it. *)
Inductive res (A : Type) : Type :=
| Ok (a : A)
| Exit
| UB
| NoFuel.
Arguments Ok {A} a.
Arguments Exit {A}.
Arguments UB {A}.
Arguments NoFuel {A}.

#[export] Instance res_ret : MRet res := λ A a, Ok a.
#[export] Instance res_bind : MBind res := λ A B f m,
  match m with
  | Ok a => f a
  | Exit => Exit
  | UB => UB
  | NoFuel => NoFuel
  end.

(** Reading through a pointer: a missing object is undefined behaviour. *)
Definition deref {A} (o : option A) : res A :=
  match o with Some a => Ok a | None => UB end.

(** [assert_that b] is the C assertion macros' behaviour: the process exits unless [b]. *)
Definition assert_that (b : bool) : res unit := if b then Ok tt else Exit.

(** ** Record updates: [r <| f := v |>] and [r <| f ::= g |>]

    [Settable R] holds the eta expansion of the record [R]; a field's setter is found by
    abstracting that field's projection in it. *)
Class Settable (R : Type) := eta_of : R → R.
Class Setter {R E : Type} (proj : R → E) := modify_field : (E → E) → R → R.
Arguments modify_field {R E} proj {Setter} f r : simpl nomatch.

Ltac find_setter R proj :=
  let inst := constr:(_ : Settable R) in
  let e := eval hnf in inst in
  lazymatch eval pattern proj in e with
  | ?body _ => let s := eval cbv beta in (λ f, body (λ r, f (proj r))) in exact s
  end.
#[export] Hint Extern 1 (Setter (R := ?R) ?proj) => find_setter R proj : typeclass_instances.

Declare Scope oai_scope.
Delimit Scope oai_scope with oai.
#[global] Open Scope oai_scope.
Notation "r <| proj := v |>" := (modify_field proj (λ _, v) r)
  (at level 1, proj constr at level 1, v constr at level 200, left associativity,
   format "r  <| proj  :=  v |>") : oai_scope.
Notation "r <| proj ::= f |>" := (modify_field proj f r)
  (at level 1, proj constr at level 1, f constr at level 200, left associativity,
   format "r  <| proj  ::=  f |>") : oai_scope.

(** ** Machine integers *)
Definition u8 (x : Z) : Z := x mod 256.
Definition u32 (x : Z) : Z := x mod 2^32.
Definition u64 (x : Z) : Z := x mod 2^64.

(** C truth values. *)
Definition b2z (b : bool) : Z := if b then 1 else 0.

(** ** Byte arrays: [list Z], indexed by [Z] *)
Abbreviation bytes := (list Z).
Definition zlen {A} (l : list A) : Z := Z.of_nat (length l).
Definition znth {A} (l : list A) (i : Z) : option A :=
  if i <? 0 then None else l !! Z.to_nat i.
Definition zset {A} (l : list A) (i : Z) (x : A) : res (list A) :=
  if (0 <=? i) && (i <? zlen l) then Ok (<[Z.to_nat i := x]> l) else UB.

(** [slice l off n]: the [n] bytes at [l + off]; [None] if they are not all in [l]. *)
Definition slice {A} (l : list A) (off n : Z) : option (list A) :=
  if (0 <=? off) && (0 <=? n) && (off + n <=? zlen l)
  then Some (take (Z.to_nat n) (drop (Z.to_nat off) l)) else None.

(** [memcpy(dst + doff, src + soff, n)]. *)
Definition memcpy (dst : bytes) (doff : Z) (src : bytes) (soff n : Z) : res bytes :=
  s ← deref (slice src soff n);
  if (0 <=? doff) && (doff + n <=? zlen dst)
  then Ok (take (Z.to_nat doff) dst ++ s ++ drop (Z.to_nat (doff + n)) dst)
  else UB.

(** ** Tactics *)

(** Turn the boolean comparisons of the code into propositions. *)
Ltac bool_prop :=
  repeat match goal with
  | H : context [Z.ltb ?a ?b] |- _ => destruct (Z.ltb_spec a b); simpl in H
  | H : context [Z.leb ?a ?b] |- _ => destruct (Z.leb_spec a b); simpl in H
  | H : context [Z.eqb ?a ?b] |- _ => destruct (Z.eqb_spec a b); simpl in H
  | |- context [Z.ltb ?a ?b] => destruct (Z.ltb_spec a b); simpl
  | |- context [Z.leb ?a ?b] => destruct (Z.leb_spec a b); simpl
  | |- context [Z.eqb ?a ?b] => destruct (Z.eqb_spec a b); simpl
  end.

(** Decide the comparison [b] with [lia] and rewrite it. *)
Ltac bool_lia :=
  first [ lia | apply Z.eqb_eq; lia | apply Z.eqb_neq; lia | apply Z.ltb_lt; lia
        | apply Z.ltb_ge; lia | apply Z.leb_le; lia | apply Z.leb_gt; lia ].
Tactic Notation "decide_true" constr(b) :=
  let H := fresh in assert (H : b = true) by bool_lia; rewrite H; clear H.
Tactic Notation "decide_false" constr(b) :=
  let H := fresh in assert (H : b = false) by bool_lia; rewrite H; clear H.

(** Invert a successful bind. *)
Lemma bind_Ok {A B} (m : res A) (f : A → res B) (b : B) :
  m ≫= f = Ok b → ∃ a, m = Ok a ∧ f a = Ok b.
Proof. destruct m; simpl; try discriminate. eauto. Qed.

Ltac inv_bind H :=
  let a := fresh "a" in let E := fresh "E" in
  apply bind_Ok in H as [a [E H]].

(** Replace arithmetic by division and modulus facts before [lia]. *)
Ltac zdiv_lia := Z.div_mod_to_equations; lia.

(** ** Generic lemmas *)

Section lists.
Context {A : Type}.
Implicit Types l : list A.

Lemma zlen_nonneg l : 0 <= zlen l.
Proof. unfold zlen. lia. Qed.

Lemma zlen_app l k : zlen (l ++ k) = zlen l + zlen k.
Proof. unfold zlen. rewrite length_app. lia. Qed.

Lemma zlen_nil : zlen (A:=A) [] = 0.
Proof. done. Qed.

Lemma zlen_cons (x : A) l : zlen (x :: l) = 1 + zlen l.
Proof. unfold zlen. simpl. lia. Qed.

Lemma take_zlen l : take (Z.to_nat (zlen l)) l = l.
Proof. unfold zlen. by rewrite Nat2Z.id, firstn_all. Qed.

Lemma znth_Some l i x : znth l i = Some x → 0 <= i < zlen l.
Proof.
  unfold znth, zlen. destruct (Z.ltb_spec i 0); [done |].
  intros Hx%lookup_lt_Some. lia.
Qed.

Lemma znth_lookup l i : 0 <= i → znth l i = l !! Z.to_nat i.
Proof. intros. unfold znth. by decide_false (i <? 0). Qed.

Lemma znth_is_Some l i : 0 <= i < zlen l → ∃ x, znth l i = Some x.
Proof.
  intros Hi. rewrite znth_lookup by lia.
  apply lookup_lt_is_Some_2. unfold zlen in *. lia.
Qed.

Lemma zset_Ok l i x : 0 <= i < zlen l → zset l i x = Ok (<[Z.to_nat i := x]> l).
Proof. intros. unfold zset. by decide_true ((0 <=? i) && (i <? zlen l)). Qed.

Lemma zlen_insert l (i : nat) x : zlen (<[i := x]> l) = zlen l.
Proof. unfold zlen. by rewrite length_insert. Qed.

Lemma znth_insert l i j x : 0 <= i < zlen l → 0 <= j →
  znth (<[Z.to_nat i := x]> l) j = if j =? i then Some x else znth l j.
Proof.
  intros Hi Hj. rewrite !znth_lookup by done. destruct (Z.eqb_spec j i) as [-> | Hne].
  - apply list_lookup_insert_eq. unfold zlen in *. lia.
  - apply list_lookup_insert_ne. lia.
Qed.

Lemma slice_Some l off n :
  0 <= off → 0 <= n → off + n <= zlen l →
  slice l off n = Some (take (Z.to_nat n) (drop (Z.to_nat off) l)).
Proof.
  intros. unfold slice.
  by decide_true ((0 <=? off) && (0 <=? n) && (off + n <=? zlen l)).
Qed.

Lemma slice_inv l off n s :
  slice l off n = Some s →
  0 <= off ∧ 0 <= n ∧ off + n <= zlen l ∧ zlen s = n ∧
  s = take (Z.to_nat n) (drop (Z.to_nat off) l).
Proof.
  unfold slice. intros H. destruct (_ && _) eqn:E in H; [| done].
  simplify_eq. unfold zlen in *. rewrite length_take, length_drop.
  split_and!; [lia.. | done].
Qed.

Lemma drop_insert_lt l (i k : nat) x : (i < k)%nat → drop k (<[i := x]> l) = drop k l.
Proof.
  intros. apply list_eq. intros j. rewrite !lookup_drop.
  by rewrite list_lookup_insert_ne by lia.
Qed.

Lemma take_insert_ge l (i k : nat) x : (k <= i)%nat → take k (<[i := x]> l) = take k l.
Proof. intros. by rewrite take_insert_ge. Qed.
End lists.

(** Extending a prefix of [d] by the bytes of a segment that overlaps its end. *)
Lemma take_extend {A} (d s : list A) so size k :
  slice d so size = Some s → so <= k → 0 < size - (k - so) →
  slice s (k - so) (size - (k - so)) = Some (take (Z.to_nat (size - (k - so))) (drop (Z.to_nat k) d)) ∧
  take (Z.to_nat k) d ++ take (Z.to_nat (size - (k - so))) (drop (Z.to_nat k) d) =
    take (Z.to_nat (so + size)) d.
Proof.
  intros Hs Hk Hlen. apply slice_inv in Hs as (H1 & H2 & H3 & H4 & ->). split.
  - rewrite slice_Some; [| lia | lia | rewrite H4; lia]. f_equal.
    rewrite skipn_firstn_comm, take_take, drop_drop. f_equal; [lia | f_equal; lia].
  - replace (Z.to_nat (so + size)) with (Z.to_nat k + Z.to_nat (size - (k - so)))%nat by lia.
    apply take_take_drop.
Qed.

Lemma memcpy_Ok dst doff src soff n :
  0 <= doff → doff + n <= zlen dst → 0 <= soff → 0 <= n → soff + n <= zlen src →
  memcpy dst doff src soff n =
    Ok (take (Z.to_nat doff) dst ++ take (Z.to_nat n) (drop (Z.to_nat soff) src)
        ++ drop (Z.to_nat (doff + n)) dst).
Proof.
  intros. unfold memcpy. rewrite slice_Some by lia. simpl.
  by decide_true ((0 <=? doff) && (doff + n <=? zlen dst)).
Qed.

(** One turn around the circle. *)
Lemma mod_wrap x n : 0 <= x < 2 * n → x mod n = if x <? n then x else x - n.
Proof.
  intros Hx. destruct (Z.ltb_spec x n).
  - apply Z.mod_small. lia.
  - symmetry. apply Z.mod_unique_pos with 1; lia.
Qed.

Lemma rem_wrap x n : 0 <= x < 2 * n → Z.rem x n = if x <? n then x else x - n.
Proof. intros Hx. rewrite Z.rem_mod_nonneg by lia. by apply mod_wrap. Qed.

Lemma u8_range x : 0 <= u8 x < 256.
Proof. unfold u8. apply Z.mod_pos_bound. lia. Qed.

Lemma u8_small x : 0 <= x < 256 → u8 x = x.
Proof. apply Z.mod_small. Qed.

(** ** Bits *)

Lemma bits_high x m n : 0 <= x < 2 ^ m → 0 <= m <= n → Z.testbit x n = false.
Proof. intros Hx Hn. rewrite <- (Z.mod_small x (2 ^ m)) by done. by apply Z.mod_pow2_bits_high. Qed.

(** The bitwise operations stay within [m] bits. *)
Lemma bits_bound x m : 0 <= x → 0 <= m → (∀ n, m <= n → Z.testbit x n = false) → x < 2 ^ m.
Proof.
  intros Hx Hm H. destruct (Z.eq_dec x 0) as [-> | H0]; [lia |].
  apply Z.log2_lt_pow2; [lia |]. destruct (Z.lt_ge_cases (Z.log2 x) m) as [| Hge]; [done | exfalso].
  pose proof (Z.bit_log2 x ltac:(lia)) as Hb. by rewrite H in Hb.
Qed.

Lemma lxor_bound x y m : 0 <= m → 0 <= x < 2 ^ m → 0 <= y < 2 ^ m → 0 <= Z.lxor x y < 2 ^ m.
Proof.
  intros Hm Hx Hy. assert (0 <= Z.lxor x y) by (apply Z.lxor_nonneg; lia). split; [done |].
  apply bits_bound; [done.. |]. intros n Hn. by rewrite Z.lxor_spec, !(bits_high _ m) by lia.
Qed.

Lemma lor_bound x y m : 0 <= m → 0 <= x < 2 ^ m → 0 <= y < 2 ^ m → 0 <= Z.lor x y < 2 ^ m.
Proof.
  intros Hm Hx Hy. assert (0 <= Z.lor x y) by (apply Z.lor_nonneg; lia). split; [done |].
  apply bits_bound; [done.. |]. intros n Hn. by rewrite Z.lor_spec, !(bits_high _ m) by lia.
Qed.

(** ** Hints

    [zlen] computes lengths ([autorewrite with zlen]); [oai] has the ranges and the facts on
    lists that side conditions ask for. *)
Create Rewrite HintDb zlen.
#[export] Hint Rewrite @zlen_nil @zlen_cons @zlen_app @zlen_insert : zlen.
Create HintDb oai.
#[export] Hint Resolve zlen_nonneg u8_range : oai.

(** A goal on lengths. *)
Ltac zlen_lia :=
  autorewrite with zlen in *;
  repeat match goal with
  | |- context [zlen ?l] =>
      lazymatch goal with
      | _ : 0 <= zlen l |- _ => fail
      | _ => pose proof (zlen_nonneg l)
      end
  end; lia.

(** ** Counters that wrap at their C width *)
Definition incr32 {R} (proj : R → Z) `{!Setter proj} (n : Z) (r : R) : R :=
  r <| proj ::= λ x, u32 (x + n) |>.
Definition incr64 {R} (proj : R → Z) `{!Setter proj} (n : Z) (r : R) : R :=
  r <| proj ::= λ x, u64 (x + n) |>.
