(* ===== verification/RlcPdu.v ===== *)
(** * NR RLC PDUs: received-PDU lists and the bit-level header codec

    Models [openair2/LAYER2/nr_rlc/nr_rlc_pdu.c] and [nr_rlc_pdu.h]: the received PDU
    [nr_rlc_pdu_t] with its ordered insertion, the bit decoder and the bit encoder.  The codec
    is related to a specification on lists of bits ([dec_bits], [enc_bits]). *)

From S2P Require Import Prelude.

(** ** Received PDUs *)

(** [pdu_data] is [None] once the SDU has been delivered and [free(pdu->data)] was called. *)
Record nr_rlc_pdu_t := mk_pdu {
  pdu_sn : Z;
  pdu_data : option bytes;
  pdu_size : Z;
  pdu_so : Z;
  pdu_is_first : bool;
  pdu_is_last : bool
}.
#[export] Instance eta_pdu : Settable nr_rlc_pdu_t :=
  λ p, mk_pdu (pdu_sn p) (pdu_data p) (pdu_size p) (pdu_so p) (pdu_is_first p) (pdu_is_last p).

(** [memcpy(ret->data, data, size)]: [data] points into a PDU buffer, at offset [off]. *)
Definition nr_rlc_new_pdu (sn so : Z) (is_first is_last : bool)
    (buffer : bytes) (off size : Z) : res nr_rlc_pdu_t :=
  d ← deref (slice buffer off size);
  Ok (mk_pdu sn (Some d) size so is_first is_last).

(** The list is walked from its head; [cmp] is the [sn_compare] callback. *)
Fixpoint nr_rlc_pdu_list_add (cmp : Z → Z → Z) (l : list nr_rlc_pdu_t)
    (pdu : nr_rlc_pdu_t) : list nr_rlc_pdu_t :=
  match l with
  | [] => [pdu]
  | cur :: l' =>
      if (0 <? cmp (pdu_sn cur) (pdu_sn pdu)) ||
         ((pdu_sn cur =? pdu_sn pdu) && (pdu_so pdu <? pdu_so cur))
      then pdu :: l
      else cur :: nr_rlc_pdu_list_add cmp l' pdu
  end.

(** ** PDU decoder *)

Record nr_rlc_pdu_decoder_t := mk_decoder {
  d_error : bool;
  d_byte : Z;
  d_bit : Z;
  d_buffer : bytes;
  d_size : Z
}.
#[export] Instance eta_decoder : Settable nr_rlc_pdu_decoder_t :=
  λ d, mk_decoder (d_error d) (d_byte d) (d_bit d) (d_buffer d) (d_size d).

Definition nr_rlc_pdu_decoder_init (buffer : bytes) (size : Z) : nr_rlc_pdu_decoder_t :=
  mk_decoder false 0 0 buffer size.

Definition get_bit (d : nr_rlc_pdu_decoder_t) : res (Z * nr_rlc_pdu_decoder_t) :=
  if d_size d <=? d_byte d then Ok (0, d <| d_error := true |>)
  else
    b ← deref (znth (d_buffer d) (d_byte d));
    let ret := Z.land (Z.shiftr b (7 - d_bit d)) 1 in
    let d := d <| d_bit ::= Z.succ |> in
    Ok (ret, if d_bit d =? 8 then d <| d_bit := 0 |> <| d_byte ::= Z.succ |> else d).

Fixpoint get_bits_loop (count : nat) (ret : Z) (d : nr_rlc_pdu_decoder_t)
    : res (Z * nr_rlc_pdu_decoder_t) :=
  match count with
  | O => Ok (ret, d)
  | S count' =>
      '(b, d) ← get_bit d;
      let ret := Z.lor (Z.shiftl ret 1) b in
      if d_error d then Ok (-1, d) else get_bits_loop count' ret d
  end.

Definition nr_rlc_pdu_decoder_get_bits (d : nr_rlc_pdu_decoder_t) (count : Z)
    : res (Z * nr_rlc_pdu_decoder_t) :=
  if 31 <? count then Exit else get_bits_loop (Z.to_nat count) 0 d.

(** [nr_rlc_pdu_decoder_get_bits(&decoder, n); R(decoder);] with [err] the [goto err]. *)
Definition read_bits {A} (err : res A) (d : nr_rlc_pdu_decoder_t) (n : Z)
    (k : Z → nr_rlc_pdu_decoder_t → res A) : res A :=
  '(v, d) ← nr_rlc_pdu_decoder_get_bits d n;
  if d_error d then err else k v d.

(** ** PDU encoder *)

Record nr_rlc_pdu_encoder_t := mk_encoder {
  e_byte : Z;
  e_bit : Z;
  e_buffer : bytes;
  e_size : Z
}.
#[export] Instance eta_encoder : Settable nr_rlc_pdu_encoder_t :=
  λ e, mk_encoder (e_byte e) (e_bit e) (e_buffer e) (e_size e).

Definition nr_rlc_pdu_encoder_init (buffer : bytes) (size : Z) : nr_rlc_pdu_encoder_t :=
  mk_encoder 0 0 buffer size.

Definition put_bit (e : nr_rlc_pdu_encoder_t) (bit : bool) : res nr_rlc_pdu_encoder_t :=
  if e_byte e =? e_size e then Exit
  else
    old ← deref (znth (e_buffer e) (e_byte e));
    let shifted := u8 (Z.shiftl old 1) in
    let new := if bit then Z.lor shifted 1 else shifted in
    buf ← zset (e_buffer e) (e_byte e) new;
    let e := e <| e_buffer := buf |> <| e_bit ::= Z.succ |> in
    Ok (if e_bit e =? 8 then e <| e_bit := 0 |> <| e_byte ::= Z.succ |> else e).

Fixpoint put_bits_loop (count : nat) (value x : Z) (e : nr_rlc_pdu_encoder_t)
    : res nr_rlc_pdu_encoder_t :=
  match count with
  | O => Ok e
  | S count' =>
      e ← put_bit e (negb (Z.land value x =? 0));
      put_bits_loop count' value (Z.shiftr x 1) e
  end.

(** [1 << (count - 1)] is undefined for [count <= 0]; no caller passes such a count. *)
Definition nr_rlc_pdu_encoder_put_bits (e : nr_rlc_pdu_encoder_t) (value count : Z)
    : res nr_rlc_pdu_encoder_t :=
  if 31 <? count then Exit
  else if count <=? 0 then UB
  else put_bits_loop (Z.to_nat count) value (Z.shiftl 1 (count - 1)) e.

(** ** Specification on lists of bits *)

(** The [n] low bits of [v], most significant first. *)
Fixpoint bits_of (v : Z) (n : nat) : list bool :=
  match n with O => [] | S n' => Z.testbit v (Z.of_nat n') :: bits_of v n' end.

Definition value_of (l : list bool) : Z :=
  fold_left (λ acc b, 2 * acc + b2z b) l 0.

Definition buf_bits (l : bytes) : list bool := l ≫= λ b, bits_of b 8.

(** What is left to decode, and where the decoder is. *)
Definition dec_pos (d : nr_rlc_pdu_decoder_t) : Z := 8 * d_byte d + d_bit d.
Definition dec_bits (d : nr_rlc_pdu_decoder_t) : list bool :=
  drop (Z.to_nat (dec_pos d)) (buf_bits (d_buffer d)).

Definition dec_wf (d : nr_rlc_pdu_decoder_t) : Prop :=
  d_error d = false ∧ 0 <= d_bit d < 8 ∧ 0 <= d_byte d <= d_size d ∧
  (d_byte d = d_size d → d_bit d = 0) ∧ d_size d = zlen (d_buffer d).

(** What has been encoded: the finished bytes, then the low bits of the current one. *)
Definition enc_pos (e : nr_rlc_pdu_encoder_t) : Z := 8 * e_byte e + e_bit e.
Definition enc_bits (e : nr_rlc_pdu_encoder_t) : list bool :=
  buf_bits (take (Z.to_nat (e_byte e)) (e_buffer e)) ++
  bits_of (default 0 (znth (e_buffer e) (e_byte e))) (Z.to_nat (e_bit e)).

Definition enc_wf (e : nr_rlc_pdu_encoder_t) : Prop :=
  0 <= e_bit e < 8 ∧ 0 <= e_byte e <= e_size e ∧
  (e_byte e = e_size e → e_bit e = 0) ∧ e_size e <= zlen (e_buffer e).

(** A header as a sequence of fields [(value, width)]. *)
Fixpoint put_fields (e : nr_rlc_pdu_encoder_t) (fs : list (Z * Z)) : res nr_rlc_pdu_encoder_t :=
  match fs with
  | [] => Ok e
  | (v, n) :: fs' => e ← nr_rlc_pdu_encoder_put_bits e v n; put_fields e fs'
  end.

Fixpoint get_fields (d : nr_rlc_pdu_decoder_t) (ns : list Z)
    : res (list Z * nr_rlc_pdu_decoder_t) :=
  match ns with
  | [] => Ok ([], d)
  | n :: ns' =>
      '(v, d) ← nr_rlc_pdu_decoder_get_bits d n;
      if d_error d then Ok ([], d)
      else '(vs, d) ← get_fields d ns'; Ok (v :: vs, d)
  end.

Definition fields_bits (fs : list (Z * Z)) : list bool :=
  fs ≫= λ f, bits_of f.1 (Z.to_nat f.2).

Definition field_ok (f : Z * Z) : Prop := 0 < f.2 <= 31 ∧ 0 <= f.1 < 2 ^ f.2.

(** ** Lemmas on bit lists *)

Lemma length_bits_of v n : length (bits_of v n) = n.
Proof. induction n; simpl; congruence. Qed.

Lemma lookup_bits_of v n j :
  (j < n)%nat → bits_of v n !! j = Some (Z.testbit v (Z.of_nat (n - 1 - j))).
Proof.
  revert j; induction n as [| n IH]; intros j Hj; [lia |].
  destruct j as [| j]; simpl; [do 2 f_equal; lia |].
  rewrite IH by lia. do 3 f_equal. lia.
Qed.

Lemma value_of_acc l acc :
  fold_left (λ acc b, 2 * acc + b2z b) l acc = acc * 2 ^ zlen l + value_of l.
Proof.
  unfold value_of. revert acc; induction l as [| b l IH]; intros acc.
  - simpl. change (zlen []) with 0. lia.
  - simpl fold_left. rewrite (IH (2 * acc + b2z b)), (IH (2 * 0 + b2z b)).
    change (b :: l) with ([b] ++ l). rewrite zlen_app, Z.pow_add_r by apply zlen_nonneg.
    change (zlen [b]) with 1. nia.
Qed.

Lemma value_of_cons b l : value_of (b :: l) = b2z b * 2 ^ zlen l + value_of l.
Proof. unfold value_of at 1. simpl. rewrite value_of_acc. destruct b; simpl; lia. Qed.

Lemma zlen_bits_of v n : zlen (bits_of v n) = Z.of_nat n.
Proof. unfold zlen. by rewrite length_bits_of. Qed.

Lemma value_of_bits_of v n : value_of (bits_of v n) = v mod 2 ^ Z.of_nat n.
Proof.
  induction n as [| n IH]; [by rewrite Z.mod_1_r |].
  simpl bits_of. rewrite value_of_cons, IH, zlen_bits_of.
  replace (Z.of_nat (S n)) with (Z.of_nat n + 1) by lia.
  rewrite Z.pow_add_r, Z.pow_1_r, Z.rem_mul_r by lia.
  rewrite <- Z.testbit_spec' by lia.
  destruct (Z.testbit v (Z.of_nat n)); simpl; lia.
Qed.

Lemma length_buf_bits l : length (buf_bits l) = (8 * length l)%nat.
Proof.
  unfold buf_bits. induction l as [| b l IH]; [done |].
  rewrite bind_cons, length_app, IH, length_bits_of. simpl; lia.
Qed.

Lemma buf_bits_app l k : buf_bits (l ++ k) = buf_bits l ++ buf_bits k.
Proof. apply bind_app. Qed.

Lemma lookup_buf_bits l i j b :
  l !! i = Some b → (j < 8)%nat →
  buf_bits l !! (8 * i + j)%nat = Some (Z.testbit b (Z.of_nat (7 - j))).
Proof.
  intros Hi Hj. rewrite <- (take_drop_middle l i b) by done.
  rewrite buf_bits_app, lookup_app_r; rewrite length_buf_bits, length_take_le;
    try (apply lookup_lt_Some in Hi; lia).
  replace (8 * i + j - 8 * i)%nat with j by lia.
  change (b :: drop (S i) l) with ([b] ++ drop (S i) l).
  rewrite buf_bits_app, lookup_app_l.
  - unfold buf_bits. rewrite bind_cons. simpl (mbind _ []). rewrite app_nil_r.
    by rewrite lookup_bits_of by lia.
  - rewrite length_buf_bits. simpl. lia.
Qed.

Lemma drop_buf_bits l i j b :
  l !! i = Some b → (j < 8)%nat →
  drop (8 * i + j) (buf_bits l) =
    Z.testbit b (Z.of_nat (7 - j)) :: drop (S (8 * i + j)) (buf_bits l).
Proof. intros. apply drop_S. by apply lookup_buf_bits. Qed.

(** ** The decoder reads the next bits *)

Lemma shiftr_land_1 b n : 0 <= n → Z.land (Z.shiftr b n) 1 = b2z (Z.testbit b n).
Proof.
  intros. change 1 with (Z.ones 1). rewrite Z.land_ones, Z.shiftr_div_pow2 by lia.
  rewrite Z.pow_1_r, <- Z.testbit_spec' by lia. by destruct (Z.testbit b n).
Qed.

Lemma testbit_1_pos i : 0 < i → Z.testbit 1 i = false.
Proof. intros. apply Z.bits_above_log2; simpl; lia. Qed.

Lemma shiftl_1_lor r b : 0 <= r → Z.lor (Z.shiftl r 1) (b2z b) = 2 * r + b2z b.
Proof.
  intros. rewrite Z.shiftl_mul_pow2, Z.pow_1_r, Z.mul_comm by lia.
  destruct b; simpl; [| rewrite Z.lor_0_r; lia].
  apply Z.bits_inj'. intros n Hn. rewrite Z.lor_spec.
  destruct (Z.eq_dec n 0) as [-> | Hne].
  - by rewrite Z.testbit_odd_0, Z.testbit_even_0.
  - rewrite testbit_1_pos, orb_false_r by lia. replace n with (Z.succ (n - 1)) by lia.
    by rewrite Z.testbit_odd_succ, Z.testbit_even_succ by lia.
Qed.

Lemma get_bit_spec d :
  dec_wf d →
  match dec_bits d with
  | [] => ∃ d', get_bit d = Ok (0, d') ∧ d_error d' = true
  | b :: rest => ∃ d', get_bit d = Ok (b2z b, d') ∧ dec_wf d' ∧ dec_bits d' = rest ∧
      dec_pos d' = dec_pos d + 1 ∧ d_buffer d' = d_buffer d ∧ d_size d' = d_size d
  end.
Proof.
  destruct d as [err byte bit buf sz]; unfold dec_wf, dec_bits, get_bit, dec_pos; simpl.
  intros (-> & Hbit & Hbyte & Hend & ->).
  destruct (Z.leb_spec (zlen buf) byte) as [Hge | Hlt].
  - rewrite drop_ge; [eauto |]. rewrite length_buf_bits. unfold zlen in *. lia.
  - destruct (znth_is_Some buf byte) as [b Hb]; [lia |]. rewrite Hb.
    rewrite znth_lookup in Hb by lia.
    replace (Z.to_nat (8 * byte + bit)) with (8 * Z.to_nat byte + Z.to_nat bit)%nat by lia.
    rewrite (drop_buf_bits _ _ _ b Hb) by lia.
    replace (Z.of_nat (7 - Z.to_nat bit)) with (7 - bit) by lia.
    simpl. rewrite shiftr_land_1 by lia.
    destruct (Z.eqb_spec (Z.succ bit) 8); simpl; eexists; split_and!; try done;
      simpl; try lia; f_equal; lia.
Qed.

Lemma get_bits_loop_spec count ret d :
  dec_wf d → 0 <= ret →
  let bs := dec_bits d in
  if (count <=? length bs)%nat then
    ∃ d', get_bits_loop count ret d = Ok (ret * 2 ^ Z.of_nat count + value_of (take count bs), d') ∧
      dec_wf d' ∧ dec_bits d' = drop count bs ∧ dec_pos d' = dec_pos d + Z.of_nat count ∧
      d_buffer d' = d_buffer d ∧ d_size d' = d_size d
  else ∃ d', get_bits_loop count ret d = Ok (-1, d') ∧ d_error d' = true.
Proof.
  intros Hwf Hret bs. subst bs. revert ret d Hwf Hret.
  induction count as [| count IH]; intros ret d Hwf Hret.
  - simpl. exists d. split_and!; try done; [| lia].
    rewrite take_0, Z.pow_0_r. change (value_of []) with 0. do 2 f_equal. lia.
  - pose proof (get_bit_spec d Hwf) as Hb. simpl get_bits_loop.
    destruct (dec_bits d) as [| b rest] eqn:Hbits.
    + destruct Hb as (d' & -> & He). simpl. rewrite He. eauto.
    + destruct Hb as (d' & -> & Hwf' & Hrest & Hpos & Hbuf & Hsz). simpl.
      destruct (Hwf') as [He _]. rewrite He.
      specialize (IH (Z.lor (Z.shiftl ret 1) (b2z b)) d' Hwf').
      rewrite Hrest in IH. simpl Nat.leb.
      rewrite shiftl_1_lor in * by lia.
      destruct (count <=? length rest)%nat eqn:Hc.
      * destruct IH as (d'' & Heq & Hwf'' & Hr & Hp & Hb1 & Hs1);
          [destruct b; simpl; lia |].
        exists d''. rewrite Heq. split_and!; try congruence; try done; [| lia].
        do 2 f_equal. rewrite value_of_cons. unfold zlen.
        rewrite length_take_le by (apply Nat.leb_le in Hc; lia).
        rewrite Nat2Z.inj_succ, Z.pow_succ_r by lia. lia.
      * apply IH. destruct b; simpl; lia.
Qed.

Lemma get_bits_spec d count :
  dec_wf d → 0 <= count <= 31 →
  if (Z.to_nat count <=? length (dec_bits d))%nat then
    ∃ d', nr_rlc_pdu_decoder_get_bits d count =
            Ok (value_of (take (Z.to_nat count) (dec_bits d)), d') ∧
      dec_wf d' ∧ dec_bits d' = drop (Z.to_nat count) (dec_bits d) ∧
      dec_pos d' = dec_pos d + count ∧ d_buffer d' = d_buffer d ∧ d_size d' = d_size d
  else ∃ d', nr_rlc_pdu_decoder_get_bits d count = Ok (-1, d') ∧ d_error d' = true.
Proof.
  intros Hwf Hc. unfold nr_rlc_pdu_decoder_get_bits. decide_false (31 <? count).
  pose proof (get_bits_loop_spec (Z.to_nat count) 0 d Hwf ltac:(lia)) as H.
  simpl in H. destruct (_ <=? _)%nat; [| done].
  destruct H as (d' & H & Hrest). exists d'. rewrite H.
  split; [done |]. by rewrite Z2Nat.id in Hrest by lia.
Qed.

Lemma dec_wf_init buf : dec_wf (nr_rlc_pdu_decoder_init buf (zlen buf)).
Proof.
  pose proof (zlen_nonneg buf). unfold dec_wf; simpl. split_and!; try done; lia.
Qed.

Lemma dec_bits_init buf sz : dec_bits (nr_rlc_pdu_decoder_init buf sz) = buf_bits buf.
Proof. done. Qed.

(** Reading one field of a PDU header. *)
Lemma read_bits_step {A} (err : res A) d v n rest k :
  dec_wf d → 0 <= n <= 31 → 0 <= v < 2 ^ n → dec_bits d = bits_of v (Z.to_nat n) ++ rest →
  ∃ d', read_bits err d n k = k v d' ∧ dec_wf d' ∧ dec_bits d' = rest ∧
    dec_pos d' = dec_pos d + n.
Proof.
  intros Hwf Hn Hv Hb. unfold read_bits.
  pose proof (get_bits_spec d n Hwf Hn) as Hg. rewrite Hb, length_app, length_bits_of in Hg.
  rewrite (proj2 (Nat.leb_le _ _)) in Hg by lia.
  rewrite take_app_length', drop_app_length' in Hg by by rewrite length_bits_of.
  rewrite value_of_bits_of, Z2Nat.id, Z.mod_small in Hg by lia.
  destruct Hg as (d' & -> & Hwf' & Hb' & Hp & _). simpl.
  destruct (Hwf') as [-> _]. eauto.
Qed.

Lemma value_of_bound l : 0 <= value_of l < 2 ^ zlen l.
Proof.
  induction l as [| b l IH]; [done |]. rewrite value_of_cons.
  unfold zlen in *. simpl length. rewrite Nat2Z.inj_succ, Z.pow_succ_r by lia.
  destruct b; unfold b2z; lia.
Qed.

(** Reading a field of an arbitrary PDU: the error branch, or a value of that width. *)
Lemma read_bits_cases {A} (err : res A) d n k :
  dec_wf d → 0 <= n <= 31 →
  read_bits err d n k = err ∨
  ∃ v d', read_bits err d n k = k v d' ∧ 0 <= v < 2 ^ n ∧ dec_wf d' ∧
    d_buffer d' = d_buffer d ∧ d_size d' = d_size d ∧ dec_pos d' = dec_pos d + n.
Proof.
  intros Hwf Hn. unfold read_bits. pose proof (get_bits_spec d n Hwf Hn) as Hg.
  destruct (Nat.leb_spec (Z.to_nat n) (length (dec_bits d))) as [Hle |].
  - destruct Hg as (d' & -> & Hwf' & _ & Hp & Hb & Hs). right. simpl.
    destruct (Hwf') as [He _]. rewrite He. eexists _, d'. split; [done |].
    pose proof (value_of_bound (take (Z.to_nat n) (dec_bits d))) as Hv.
    unfold zlen in Hv. rewrite length_take_le, Z2Nat.id in Hv by lia. done.
  - destruct Hg as (d' & -> & He). left. simpl. by rewrite He.
Qed.

(** Reading the SN and, unless the segment is the first of its SDU, the non-null SO: the tail
    of the data PDU headers of both UM and AM. *)
Lemma read_sn_so {A} (err : res A) (first : bool) snlen n so d rest
    (k : Z → Z → nr_rlc_pdu_decoder_t → res A) :
  dec_wf d → 0 <= snlen <= 31 → 0 <= n < 2 ^ snlen → 0 <= so < 2 ^ 16 → first = (so =? 0) →
  dec_bits d = bits_of n (Z.to_nat snlen) ++ (if first then [] else bits_of so 16) ++ rest →
  ∃ d', dec_wf d' ∧ dec_bits d' = rest ∧
    dec_pos d' = dec_pos d + snlen + (if first then 0 else 16) ∧
    read_bits err d snlen (λ n d,
      if first then k n 0 d
      else read_bits err d 16 (λ so d, if so =? 0 then err else k n so d)) = k n so d'.
Proof.
  intros Hwf Hlen Hn Hso Hf Hb.
  match goal with |- context [read_bits err d snlen ?k] =>
    destruct (read_bits_step err d n snlen _ k Hwf Hlen Hn Hb) as (d2 & -> & Hwf2 & Hb2 & Hp2)
  end.
  destruct first.
  - exists d2. split_and!; [done | done | lia |]. f_equal. lia.
  - match goal with |- context [read_bits err d2 16 ?k] =>
      destruct (read_bits_step err d2 so 16 _ k Hwf2 ltac:(lia) Hso Hb2)
        as (d3 & -> & Hwf3 & Hb3 & Hp3)
    end.
    exists d3. decide_false (so =? 0). split_and!; [done | done | lia | done].
Qed.

(** The two SI bits. *)
Lemma si_bits (is_first is_last : bool) :
  let si := 2 * (1 - b2z is_first) + (1 - b2z is_last) in
  0 <= si < 2 ^ 2 ∧ (Z.land si 2 =? 0) = is_first ∧ (Z.land si 1 =? 0) = is_last.
Proof. destruct is_first, is_last; split_and!; vm_compute; congruence. Qed.

(** ** The encoder appends bits *)

Definition put_byte (old : Z) (bit : bool) : Z :=
  let shifted := u8 (Z.shiftl old 1) in if bit then Z.lor shifted 1 else shifted.

#[local] Arguments put_byte : simpl never.

Lemma put_byte_testbit old bit i :
  0 <= i < 8 →
  Z.testbit (put_byte old bit) i = if i =? 0 then bit else Z.testbit old (i - 1).
Proof.
  intros Hi. unfold put_byte, u8. change 256 with (2 ^ 8).
  assert (H : Z.testbit (Z.shiftl old 1 mod 2 ^ 8) i =
              if i =? 0 then false else Z.testbit old (i - 1)).
  { rewrite Z.mod_pow2_bits_low, Z.shiftl_spec by lia.
    destruct (Z.eqb_spec i 0) as [-> | ?]; [by rewrite Z.testbit_neg_r by lia | done]. }
  destruct bit; [rewrite Z.lor_spec |]; rewrite H; destruct (Z.eqb_spec i 0) as [-> | ?]; try done.
  by rewrite testbit_1_pos, orb_false_r by lia.
Qed.

Lemma bits_of_put_byte old bit k :
  (k < 8)%nat → bits_of (put_byte old bit) (S k) = bits_of old k ++ [bit].
Proof.
  induction k as [| k IH]; intros Hk.
  - cbn [bits_of]. by rewrite put_byte_testbit by lia.
  - change (bits_of ?v (S (S k))) with (Z.testbit v (Z.of_nat (S k)) :: bits_of v (S k)).
    rewrite IH, put_byte_testbit by lia.
    decide_false (Z.of_nat (S k) =? 0). simpl. do 2 f_equal. lia.
Qed.

Lemma put_bit_spec e bit :
  enc_wf e → e_byte e < e_size e →
  ∃ e', put_bit e bit = Ok e' ∧ enc_wf e' ∧ enc_bits e' = enc_bits e ++ [bit] ∧
    enc_pos e' = enc_pos e + 1 ∧ e_size e' = e_size e ∧
    zlen (e_buffer e') = zlen (e_buffer e) ∧
    (∀ k, (Z.to_nat (e_byte e) < k)%nat → drop k (e_buffer e') = drop k (e_buffer e)).
Proof.
  destruct e as [byte bt buf sz]; unfold enc_wf, enc_bits, enc_pos, put_bit; simpl.
  intros (Hbit & Hbyte & Hend & Hsz) Hlt. decide_false (byte =? sz).
  destruct (znth_is_Some buf byte) as [b Hb]; [lia |]. rewrite Hb. simpl.
  change (if bit then _ else _) with (put_byte b bit).
  rewrite zset_Ok by lia. simpl. rewrite znth_lookup in Hb by lia.
  assert (Hlen : (Z.to_nat byte < length buf)%nat) by (unfold zlen in *; lia).
  destruct (Z.eqb_spec (Z.succ bt) 8) as [H8 | H8]; simpl; eexists; split_and!; try done;
    simpl; rewrite ?zlen_insert; try lia; try (intros; by rewrite drop_insert_lt by lia).
  - assert (bt = 7) as -> by lia. rewrite app_nil_r.
    replace (Z.to_nat (Z.succ byte)) with (S (Z.to_nat byte)) by lia.
    rewrite (take_S_r _ _ (put_byte b bit)) by (apply list_lookup_insert_eq; lia).
    rewrite take_insert_ge, buf_bits_app by lia. rewrite <- app_assoc. f_equal.
    unfold buf_bits. rewrite bind_cons. simpl (mbind _ []). rewrite app_nil_r.
    by rewrite (bits_of_put_byte b bit 7) by lia.
  - rewrite take_insert_ge, <- app_assoc by lia. f_equal.
    rewrite znth_lookup, list_lookup_insert_eq by lia. simpl.
    replace (Z.to_nat (Z.succ bt)) with (S (Z.to_nat bt)) by lia.
    by rewrite bits_of_put_byte by lia.
Qed.

Lemma land_pow2_testbit v n : 0 <= n → negb (Z.land v (Z.shiftl 1 n) =? 0) = Z.testbit v n.
Proof.
  intros Hn. rewrite Z.shiftl_1_l.
  destruct (Z.testbit v n) eqn:E.
  - destruct (Z.eqb_spec (Z.land v (2 ^ n)) 0) as [H | ?]; [| done].
    apply (f_equal (λ x, Z.testbit x n)) in H.
    by rewrite Z.land_spec, E, Z.pow2_bits_true, Z.testbit_0_l in H by lia.
  - replace (Z.land v (2 ^ n)) with 0; [done |].
    apply Z.bits_inj'. intros m Hm. rewrite Z.testbit_0_l, Z.land_spec.
    destruct (Z.eq_dec m n) as [-> | ?]; [by rewrite E |].
    by rewrite Z.pow2_bits_false, andb_false_r by lia.
Qed.

Lemma put_bits_loop_spec count v e :
  enc_wf e → enc_pos e + Z.of_nat count <= 8 * e_size e → (0 < count)%nat →
  ∃ e', put_bits_loop count v (Z.shiftl 1 (Z.of_nat count - 1)) e = Ok e' ∧
    enc_wf e' ∧ enc_bits e' = enc_bits e ++ bits_of v count ∧
    enc_pos e' = enc_pos e + Z.of_nat count ∧ e_size e' = e_size e ∧
    zlen (e_buffer e') = zlen (e_buffer e).
Proof.
  revert e; induction count as [| count IH]; intros e Hwf Hroom Hpos; [lia |].
  assert (Hlt : e_byte e < e_size e).
  { unfold enc_pos, enc_wf in *. lia. }
  replace (Z.of_nat (S count) - 1) with (Z.of_nat count) by lia.
  simpl put_bits_loop. rewrite land_pow2_testbit by lia.
  destruct (put_bit_spec e (Z.testbit v (Z.of_nat count)) Hwf Hlt)
    as (e1 & -> & Hwf1 & Hb1 & Hp1 & Hs1 & Hl1 & _). simpl.
  destruct count as [| count].
  - exists e1. simpl. split_and!; try done; lia.
  - replace (Z.shiftr (Z.shiftl 1 (Z.of_nat (S count))) 1)
      with (Z.shiftl 1 (Z.of_nat (S count) - 1)).
    2:{ rewrite Z.shiftr_shiftl_l by lia. done. }
    destruct (IH e1 Hwf1) as (e2 & -> & Hwf2 & Hb2 & Hp2 & Hs2 & Hl2); [lia.. |].
    exists e2. split_and!; try done; try lia.
    rewrite Hb2, Hb1, <- app_assoc. done.
Qed.

Lemma put_bits_spec e v n :
  enc_wf e → 0 < n <= 31 → enc_pos e + n <= 8 * e_size e →
  ∃ e', nr_rlc_pdu_encoder_put_bits e v n = Ok e' ∧ enc_wf e' ∧
    enc_bits e' = enc_bits e ++ bits_of v (Z.to_nat n) ∧
    enc_pos e' = enc_pos e + n ∧ e_size e' = e_size e ∧
    zlen (e_buffer e') = zlen (e_buffer e).
Proof.
  intros Hwf Hn Hroom. unfold nr_rlc_pdu_encoder_put_bits.
  decide_false (31 <? n). decide_false (n <=? 0).
  replace (n - 1) with (Z.of_nat (Z.to_nat n) - 1) by lia.
  destruct (put_bits_loop_spec (Z.to_nat n) v e Hwf) as (e' & -> & Hrest); [lia.. |].
  exists e'. rewrite Z2Nat.id in Hrest by lia. done.
Qed.

Lemma enc_wf_init buf sz : 0 <= sz <= zlen buf → enc_wf (nr_rlc_pdu_encoder_init buf sz).
Proof. intros. unfold enc_wf; simpl. split_and!; try done; lia. Qed.

Lemma enc_bits_init buf sz : enc_bits (nr_rlc_pdu_encoder_init buf sz) = [].
Proof. done. Qed.

(** ** Headers as sequences of fields *)

Definition fields_width (fs : list (Z * Z)) : Z := foldr (λ f acc, f.2 + acc) 0 fs.

Lemma fields_width_nonneg fs : Forall field_ok fs → 0 <= fields_width fs.
Proof. induction 1 as [| f fs [Hf _]]; simpl; lia. Qed.

Lemma fields_bits_cons v n fs :
  fields_bits ((v, n) :: fs) = bits_of v (Z.to_nat n) ++ fields_bits fs.
Proof. done. Qed.
#[local] Arguments fields_bits : simpl never.

Lemma put_fields_spec fs e :
  enc_wf e → Forall field_ok fs → enc_pos e + fields_width fs <= 8 * e_size e →
  ∃ e', put_fields e fs = Ok e' ∧ enc_wf e' ∧ enc_bits e' = enc_bits e ++ fields_bits fs ∧
    enc_pos e' = enc_pos e + fields_width fs ∧ e_size e' = e_size e ∧
    zlen (e_buffer e') = zlen (e_buffer e).
Proof.
  revert e; induction fs as [| [v n] fs IH]; intros e Hwf Hok Hroom; simpl in *.
  - exists e. rewrite app_nil_r. split_and!; try done; lia.
  - inversion_clear Hok as [| ? ? [Hn Hv] Hfs]. simpl in *.
    pose proof (fields_width_nonneg fs Hfs).
    destruct (put_bits_spec e v n Hwf) as (e1 & -> & Hwf1 & Hb1 & Hp1 & Hs1 & Hl1); [lia.. |].
    simpl. destruct (IH e1 Hwf1 Hfs) as (e2 & -> & Hwf2 & Hb2 & Hp2 & Hs2 & Hl2); [lia |].
    exists e2. split_and!; try done; try lia.
    by rewrite Hb2, Hb1, <- app_assoc, fields_bits_cons.
Qed.

Lemma get_fields_spec fs d rest :
  dec_wf d → Forall field_ok fs → dec_bits d = fields_bits fs ++ rest →
  ∃ d', get_fields d (map snd fs) = Ok (map fst fs, d') ∧ dec_wf d' ∧ dec_bits d' = rest ∧
    dec_pos d' = dec_pos d + fields_width fs ∧ d_buffer d' = d_buffer d ∧
    d_size d' = d_size d.
Proof.
  revert d; induction fs as [| [v n] fs IH]; intros d Hwf Hok Hbits; simpl in *.
  - exists d. split_and!; try done; lia.
  - inversion_clear Hok as [| ? ? [Hn Hv] Hfs]. simpl in *.
    rewrite fields_bits_cons, <- app_assoc in Hbits.
    pose proof (get_bits_spec d n Hwf ltac:(lia)) as Hg. rewrite Hbits in Hg.
    rewrite length_app, length_bits_of in Hg.
    replace (Z.to_nat n <=? _)%nat with true in Hg by (symmetry; apply Nat.leb_le; lia).
    destruct Hg as (d1 & -> & Hwf1 & Hb1 & Hp1 & Hbuf1 & Hs1). simpl.
    destruct (Hwf1) as [He1 _]. rewrite He1.
    rewrite drop_app_length' in Hb1 by by rewrite length_bits_of.
    rewrite take_app_length' by by rewrite length_bits_of.
    rewrite value_of_bits_of, Z2Nat.id, Z.mod_small by lia.
    destruct (IH d1 Hwf1 Hfs Hb1) as (d2 & -> & Hwf2 & Hb2 & Hp2 & Hbuf2 & Hs2).
    simpl. exists d2. split_and!; try done; try congruence; lia.
Qed.

Lemma enc_aligned e n :
  enc_wf e → enc_pos e = 8 * n → e_byte e = n ∧ e_bit e = 0 ∧
  enc_bits e = buf_bits (take (Z.to_nat n) (e_buffer e)).
Proof.
  unfold enc_wf, enc_pos, enc_bits. intros Hwf Hp.
  assert (e_bit e = 0 ∧ e_byte e = n) as [-> ->] by lia. simpl.
  by rewrite app_nil_r.
Qed.

(** A byte-aligned header written into any buffer: it succeeds, fills [n] bytes whose bits
    are the fields, and leaves the length of the buffer alone. *)
Lemma put_fields_aligned fs buf sz n :
  Forall field_ok fs → fields_width fs = 8 * n → n <= sz <= zlen buf →
  ∃ e, put_fields (nr_rlc_pdu_encoder_init buf sz) fs = Ok e ∧ e_byte e = n ∧ e_bit e = 0 ∧
    buf_bits (take (Z.to_nat n) (e_buffer e)) = fields_bits fs ∧
    zlen (e_buffer e) = zlen buf ∧ e_size e = sz.
Proof.
  intros Hok Hw Hsz. pose proof (fields_width_nonneg fs Hok).
  destruct (put_fields_spec fs (nr_rlc_pdu_encoder_init buf sz))
    as (e & -> & Hwf & Hb & Hp & Hs & Hl); try done.
  { apply enc_wf_init. lia. }
  { unfold enc_pos. simpl. lia. }
  unfold enc_pos at 2 in Hp; simpl in Hp.
  destruct (enc_aligned e n Hwf) as (? & ? & Heq); [lia |].
  exists e. split_and!; try done. by rewrite <- Heq, Hb.
Qed.

(** Decoding a header that begins a PDU whose first bytes carry exactly those bits. *)
Lemma get_fields_aligned fs hdr payload n :
  Forall field_ok fs → fields_width fs = 8 * n → buf_bits hdr = fields_bits fs →
  ∃ d, get_fields (nr_rlc_pdu_decoder_init (hdr ++ payload) (zlen (hdr ++ payload)))
         (map snd fs) = Ok (map fst fs, d) ∧
    d_error d = false ∧ d_byte d = n ∧ d_bit d = 0 ∧ d_buffer d = hdr ++ payload ∧
    d_size d = zlen (hdr ++ payload) ∧ dec_wf d.
Proof.
  intros Hok Hw Hbits.
  destruct (get_fields_spec fs (nr_rlc_pdu_decoder_init (hdr ++ payload) (zlen (hdr ++ payload)))
              (buf_bits payload)) as (d & -> & Hwf & Hb & Hp & Hbuf & Hs); try done.
  { apply dec_wf_init. }
  { by rewrite dec_bits_init, buf_bits_app, Hbits. }
  exists d. unfold dec_pos in Hp. simpl in Hp. destruct (Hwf) as (? & ? & ? & ? & ?).
  split_and!; try done; lia.
Qed.

(** ** Ordered insertion *)

(** [key] is the position of an SN in the window; the comparison callback is a difference of
    two keys ([sn_compare_rx], [sn_compare_tx]). *)
Definition pdu_before (key : Z → Z) (a b : nr_rlc_pdu_t) : Prop :=
  key (pdu_sn a) < key (pdu_sn b) ∨ (pdu_sn a = pdu_sn b ∧ pdu_so a <= pdu_so b).

Section list_add.
Context (key : Z → Z).
Let cmp (a b : Z) : Z := key a - key b.

Lemma pdu_list_add_perm l p : nr_rlc_pdu_list_add cmp l p ≡ₚ p :: l.
Proof.
  induction l as [| c l IH]; [done |]. simpl.
  destruct (_ || _); [done |]. rewrite IH. apply Permutation_swap.
Qed.

Lemma pdu_list_add_sorted l p :
  (∀ q, q ∈ l → key (pdu_sn q) = key (pdu_sn p) → pdu_sn q = pdu_sn p) →
  StronglySorted (pdu_before key) l →
  StronglySorted (pdu_before key) (nr_rlc_pdu_list_add cmp l p).
Proof.
  intros Hinj Hs. induction Hs as [| c l Hs IH Hall]; simpl; [repeat constructor |].
  assert (Hc : key (pdu_sn c) = key (pdu_sn p) → pdu_sn c = pdu_sn p).
  { apply Hinj. left. }
  unfold cmp at 1.
  destruct (Z.ltb_spec 0 (key (pdu_sn c) - key (pdu_sn p)));
    [| destruct (Z.eqb_spec (pdu_sn c) (pdu_sn p)) as [Heq |];
       [destruct (Z.ltb_spec (pdu_so p) (pdu_so c)) |]]; simpl.
  - constructor; [by constructor |]. constructor; [left; lia |].
    eapply Forall_impl; [exact Hall |]. unfold pdu_before. intros q Hq.
    destruct Hq as [|[<- ?]]; left; lia.
  - constructor; [by constructor |]. constructor; [right; split; [done | lia] |].
    eapply Forall_impl; [exact Hall |]. unfold pdu_before. intros q Hq.
    rewrite Heq in *. destruct Hq as [|[? ?]]; [by left | right; split; [done | lia]].
  - constructor; [apply IH; intros; apply Hinj; [by right | done] |].
    rewrite pdu_list_add_perm. constructor; [right; split; [done | lia] | done].
  - constructor; [apply IH; intros; apply Hinj; [by right | done] |].
    rewrite pdu_list_add_perm. constructor; [| done]. left.
    destruct (Z.eq_dec (key (pdu_sn c)) (key (pdu_sn p))); [naive_solver | lia].
Qed.
End list_add.
