(* ===== verification/RlcEntity.v ===== *)
(** * NR RLC SDUs and SDU segments

    Models [openair2/LAYER2/nr_rlc/nr_rlc_sdu.c] and [nr_rlc_sdu.h].  Several segments point
    to one [nr_rlc_sdu_t], whose [sn], [retx_count] and reference counters are updated through
    any of them, so the SDUs live in a store indexed by address.  A segment node carries its
    own address, which is what the [tx_end]/[wait_end] pointers designate; linked lists of
    segments are lists of nodes.

    Then: state common to the NR RLC entities.
    Models the data of [openair2/LAYER2/nr_rlc/nr_rlc_entity.h]: buffer status, statistics and
    the [common] part of an entity.  The callbacks given to the RLC ([deliver_sdu],
    [sdu_successful_delivery], [max_retx_reached]) and the latency recorder
    [time_average_add] are observed through the log [out]; the segments' SDUs are in [mem]. *)

From S2P Require Import Prelude.

Record nr_rlc_sdu_t := mk_sdu {
  sdu_sn : Z;
  upper_layer_id : Z;
  sdu_data : bytes;
  sdu_size : Z;
  retx_count : Z;
  ref_count : Z;
  free_count : Z;
  time_of_arrival : Z
}.
#[export] Instance eta_sdu : Settable nr_rlc_sdu_t :=
  λ u, mk_sdu (sdu_sn u) (upper_layer_id u) (sdu_data u) (sdu_size u) (retx_count u)
              (ref_count u) (free_count u) (time_of_arrival u).

Record nr_rlc_sdu_segment_t := mk_segment {
  seg_addr : nat;
  seg_sdu : nat;
  seg_size : Z;
  seg_so : Z;
  seg_is_first : bool;
  seg_is_last : bool
}.
#[export] Instance eta_segment : Settable nr_rlc_sdu_segment_t :=
  λ s, mk_segment (seg_addr s) (seg_sdu s) (seg_size s) (seg_so s) (seg_is_first s)
                  (seg_is_last s).

(** The memory of one entity's SDUs: live SDUs by address, and the next fresh address. *)
Record sdu_heap := mk_heap {
  sdus : gmap nat nr_rlc_sdu_t;
  next_addr : nat
}.
#[export] Instance eta_heap : Settable sdu_heap := λ h, mk_heap (sdus h) (next_addr h).

Definition empty_heap : sdu_heap := mk_heap ∅ 0.

(** [s->sdu->f = ...]: undefined if the SDU was freed. *)
Definition get_sdu (h : sdu_heap) (a : nat) : res nr_rlc_sdu_t := deref (sdus h !! a).
Definition upd_sdu (h : sdu_heap) (a : nat) (f : nr_rlc_sdu_t → nr_rlc_sdu_t) : res sdu_heap :=
  u ← get_sdu h a; Ok (h <| sdus := <[a := f u]> (sdus h) |>).

Definition nr_rlc_new_sdu (h : sdu_heap) (buffer : bytes) (size upper_layer_id : Z)
    : res (nr_rlc_sdu_segment_t * sdu_heap) :=
  d ← deref (slice buffer 0 size);
  let a := next_addr h in
  let sdu := mk_sdu (-1) upper_layer_id d size (-1) 1 0 0 in
  let ret := mk_segment (S a) a size 0 true true in
  Ok (ret, mk_heap (<[a := sdu]> (sdus h)) (S (S a))).

(** Returns [true] when the SDU itself was freed too. *)
Definition nr_rlc_free_sdu_segment (h : sdu_heap) (s : nr_rlc_sdu_segment_t)
    : res (bool * sdu_heap) :=
  u ← get_sdu h (seg_sdu s);
  let u := u <| free_count ::= Z.succ |> in
  if free_count u =? ref_count u
  then Ok (true, h <| sdus := delete (seg_sdu s) (sdus h) |>)
  else Ok (false, h <| sdus := <[seg_sdu s := u]> (sdus h) |>).

(** [node->next = s] for the node at address [a] of the list: what followed it is cut off. *)
Fixpoint link_after (a : nat) (s : nr_rlc_sdu_segment_t) (l : list nr_rlc_sdu_segment_t)
    : option (list nr_rlc_sdu_segment_t) :=
  match l with
  | [] => None
  | x :: l' => if Nat.eqb (seg_addr x) a then Some [x; s]
               else l'' ← link_after a s l'; Some (x :: l'')
  end.

Definition nr_rlc_sdu_segment_list_append (l : list nr_rlc_sdu_segment_t) (end_ : option nat)
    (s : nr_rlc_sdu_segment_t) : res (list nr_rlc_sdu_segment_t * option nat) :=
  match l with
  | [] => Ok ([s], Some (seg_addr s))
  | _ =>
      a ← deref end_;
      l' ← deref (link_after a s l);
      Ok (l', Some (seg_addr s))
  end.

Fixpoint nr_rlc_free_sdu_segment_list (h : sdu_heap) (l : list nr_rlc_sdu_segment_t)
    : res sdu_heap :=
  match l with
  | [] => Ok h
  | cur :: l' => '(_, h) ← nr_rlc_free_sdu_segment h cur; nr_rlc_free_sdu_segment_list h l'
  end.

(** ** Reference counting *)

(** The segments of [l] that point to SDU [a]. *)
Fixpoint refs (a : nat) (l : list nr_rlc_sdu_segment_t) : Z :=
  match l with
  | [] => 0
  | s :: l' => (if Nat.eqb (seg_sdu s) a then 1 else 0) + refs a l'
  end.

(** No segment of [segs] (all the live segments) points to a freed SDU, and every SDU still
    has at least as many unreleased references as live segments. *)
Record heap_safe (h : sdu_heap) (segs : list nr_rlc_sdu_segment_t) : Prop := {
  hs_live s : s ∈ segs → is_Some (sdus h !! seg_sdu s);
  hs_refs a u : sdus h !! a = Some u →
    0 < ref_count u - free_count u ∧ refs a segs <= ref_count u - free_count u;
  hs_fresh a : is_Some (sdus h !! a) → (a < next_addr h)%nat;
  hs_addr s : s ∈ segs → (seg_addr s < next_addr h)%nat;
  hs_nodup : NoDup (map seg_addr segs)
}.

(** Moreover nothing is leaked: each SDU has exactly as many unreleased references as live
    segments. *)
Definition heap_exact (h : sdu_heap) (segs : list nr_rlc_sdu_segment_t) : Prop :=
  heap_safe h segs ∧
  ∀ a u, sdus h !! a = Some u → refs a segs = ref_count u - free_count u.

(** The end pointer designates the last node. *)
Definition end_ok (l : list nr_rlc_sdu_segment_t) (e : option nat) : Prop :=
  e = seg_addr <$> last l.

(** ** Lemmas *)

Lemma refs_nonneg a l : 0 <= refs a l.
Proof. induction l; simpl; [lia |]. destruct (Nat.eqb _ _); lia. Qed.

Lemma refs_app a l k : refs a (l ++ k) = refs a l + refs a k.
Proof. induction l; simpl; lia. Qed.

Lemma refs_pos a l s : s ∈ l → seg_sdu s = a → 0 < refs a l.
Proof.
  induction 1 as [s l | s x l Hin IH]; intros Ha; simpl.
  - pose proof (refs_nonneg a l). rewrite Ha, Nat.eqb_refl. lia.
  - specialize (IH Ha). destruct (Nat.eqb _ _); lia.
Qed.

Lemma heap_safe_perm h l k : l ≡ₚ k → heap_safe h l → heap_safe h k.
Proof.
  intros Hp [H1 H2 H3 H4 H5].
  assert (Hr : ∀ a, refs a l = refs a k).
  { intros a. clear -Hp. induction Hp; simpl; lia. }
  constructor; try done.
  - intros s Hs. apply H1. by rewrite Hp.
  - intros a u Hu. rewrite <- Hr. eauto.
  - intros s Hs. apply H4. by rewrite Hp.
  - by rewrite <- Hp.
Qed.

Lemma heap_exact_perm h l k : l ≡ₚ k → heap_exact h l → heap_exact h k.
Proof.
  intros Hp [Hs He]. split; [by eapply heap_safe_perm |].
  intros a u Hu. rewrite <- (He a u Hu). clear -Hp. induction Hp; simpl; lia.
Qed.

Lemma heap_safe_sub h s l : heap_safe h (s :: l) → heap_safe h l.
Proof.
  intros [H1 H2 H3 H4 H5]. constructor; try done.
  - intros x Hx. apply H1. by right.
  - intros a u Hu. destruct (H2 a u Hu). simpl in *. destruct (Nat.eqb _ _); lia.
  - intros x Hx. apply H4. by right.
  - by inversion H5.
Qed.

Lemma heap_empty_exact : heap_exact empty_heap [].
Proof.
  split; [constructor |]; simpl.
  - intros s Hs. inversion Hs.
  - intros a u Hu. by rewrite lookup_empty in Hu.
  - intros a [u Hu]. by rewrite lookup_empty in Hu.
  - intros s Hs. inversion Hs.
  - constructor.
  - intros a u Hu. by rewrite lookup_empty in Hu.
Qed.

(** Changing an SDU's contents but not its counters. *)
Lemma heap_safe_upd h segs a f h' :
  (∀ u, ref_count (f u) - free_count (f u) = ref_count u - free_count u) →
  upd_sdu h a f = Ok h' → heap_safe h segs →
  heap_safe h' segs ∧ (heap_exact h segs → heap_exact h' segs) ∧ next_addr h' = next_addr h.
Proof.
  intros Hf Hu Hs. unfold upd_sdu, get_sdu in Hu. inv_bind Hu.
  destruct (sdus h !! a) as [u |] eqn:Ha; simplify_eq/=.
  assert (Hsafe : heap_safe (mk_heap (<[a := f a0]> (sdus h)) (next_addr h)) segs).
  { destruct Hs as [H1 H2 H3 H4 H5]. constructor; simpl; try done.
    - intros s Hin. rewrite lookup_insert. case_decide; eauto.
    - intros b v. destruct (decide (a = b)) as [<- | ?]; intros Hv; simplify_map_eq; eauto.
      rewrite Hf. eauto.
    - intros b Hb. destruct (decide (a = b)) as [<- | ?]; simplify_map_eq; eauto. }
  split_and!; [done | | done].
  intros [_ He]. split; [done |]. simpl. intros b v Hv.
  destruct (decide (a = b)) as [<- | ?]; simplify_map_eq; eauto. rewrite Hf. eauto.
Qed.

Lemma upd_sdu_Ok h a f u : sdus h !! a = Some u →
  upd_sdu h a f = Ok (mk_heap (<[a := f u]> (sdus h)) (next_addr h)).
Proof. intros Hu. unfold upd_sdu, get_sdu. by rewrite Hu. Qed.

(** Freeing a live segment: defined, safe for the others, and the SDU goes with the last one. *)
Lemma free_segment_safe h s l :
  heap_safe h (s :: l) →
  ∃ b h', nr_rlc_free_sdu_segment h s = Ok (b, h') ∧ heap_safe h' l ∧
    next_addr h' = next_addr h ∧
    (heap_exact h (s :: l) → heap_exact h' l ∧ b = (refs (seg_sdu s) l =? 0)).
Proof.
  intros Hs. destruct (hs_live _ _ Hs s) as [u Hu]; [left |].
  destruct (hs_refs _ _ Hs _ _ Hu) as [Hpos Hle]. simpl in Hle. rewrite Nat.eqb_refl in Hle.
  pose proof (refs_nonneg (seg_sdu s) l) as Hnn.
  unfold nr_rlc_free_sdu_segment, get_sdu. rewrite Hu. simpl.
  pose proof (heap_safe_sub _ _ _ Hs) as Hsub.
  destruct (Z.eqb_spec (Z.succ (free_count u)) (ref_count u)) as [Heq | Hne];
    eexists _, _; (split; [done |]).
  - assert (Hz : refs (seg_sdu s) l = 0) by lia.
    assert (Hsafe : heap_safe (mk_heap (delete (seg_sdu s) (sdus h)) (next_addr h)) l).
    { destruct Hsub as [H1 H2 H3 H4 H5]. constructor; simpl; try done.
      - intros x Hx. rewrite lookup_delete_ne; [eauto |].
        intros E. pose proof (refs_pos _ _ _ Hx (eq_sym E)). lia.
      - intros a v Hv. apply lookup_delete_Some in Hv as [? ?]. eauto.
      - intros a [v Hv]. apply lookup_delete_Some in Hv as [? ?]. eauto. }
    split_and!; [done | done |]. intros [_ He].
    split; [| by rewrite Hz]. split; [done |]. simpl.
    intros a v Hv. apply lookup_delete_Some in Hv as [Hne Hv].
    specialize (He a v Hv). simpl in He. by rewrite (proj2 (Nat.eqb_neq _ _) Hne) in He.
  - assert (Hsafe : heap_safe (mk_heap (<[seg_sdu s := u <| free_count ::= Z.succ |>]> (sdus h))
                                (next_addr h)) l).
    { destruct Hsub as [H1 H2 H3 H4 H5]. constructor; simpl; try done.
      - intros x Hx. rewrite lookup_insert. case_decide; eauto.
      - intros a v Hv. destruct (decide (seg_sdu s = a)) as [<- | ?]; simplify_map_eq; eauto.
        simpl. lia.
      - intros a Ha. destruct (decide (seg_sdu s = a)) as [<- | ?]; simplify_map_eq; eauto. }
    split_and!; [done | done |]. intros [_ He].
    pose proof (He _ _ Hu) as Heu. simpl in Heu. rewrite Nat.eqb_refl in Heu.
    split; [| symmetry; apply Z.eqb_neq; lia]. split; [done |]. simpl. intros a v Hv.
    destruct (decide (seg_sdu s = a)) as [<- | Hne']; simplify_map_eq; simpl; [lia |].
    specialize (He a v Hv). simpl in He. by rewrite (proj2 (Nat.eqb_neq _ _) Hne') in He.
Qed.

Lemma free_segment_list_safe h l k :
  heap_safe h (l ++ k) →
  ∃ h', nr_rlc_free_sdu_segment_list h l = Ok h' ∧ heap_safe h' k ∧
    (heap_exact h (l ++ k) → heap_exact h' k).
Proof.
  revert h; induction l as [| s l IH]; intros h Hs; simpl in *; [eauto |].
  destruct (free_segment_safe _ _ _ Hs) as (b & h1 & -> & Hs1 & _ & He1). simpl.
  destruct (IH h1 Hs1) as (h2 & -> & Hs2 & He2). exists h2. split_and!; try done. intros He. apply He2, He1, He.
Qed.

Lemma heap_exact_nil h : heap_exact h [] → sdus h = ∅.
Proof.
  intros [Hs He]. apply map_empty. intros a.
  destruct (sdus h !! a) as [u |] eqn:Hu; [| done].
  destruct (hs_refs _ _ Hs a u Hu). specialize (He a u Hu). simpl in He. lia.
Qed.

Lemma link_after_last l a s :
  end_ok l (Some a) → NoDup (map seg_addr l) → link_after a s l = Some (l ++ [s]).
Proof.
  unfold end_ok. induction l as [| x l IH]; intros He Hnd; [done |]. simpl.
  inversion_clear Hnd as [| ? ? Hx Hl].
  destruct l as [| y l]; [simpl in *; simplify_eq; by rewrite Nat.eqb_refl |].
  destruct (Nat.eqb_spec (seg_addr x) a) as [Heq | Hne].
  - exfalso. apply Hx. rewrite Heq.
    change (last (x :: y :: l)) with (last (y :: l)) in He.
    destruct (last (y :: l)) as [z |] eqn:Hz; simplify_eq/=.
    apply last_Some_elem_of in Hz. apply (list_elem_of_fmap_2 seg_addr) in Hz. by rewrite He.
  - rewrite IH; [done | done | done].
Qed.

Lemma list_append_ok l e s :
  end_ok l e → NoDup (map seg_addr l) →
  nr_rlc_sdu_segment_list_append l e s = Ok (l ++ [s], Some (seg_addr s)).
Proof.
  intros He Hnd. destruct l as [| x l]; [done |]. unfold nr_rlc_sdu_segment_list_append.
  destruct e as [a |].
  - cbn -[link_after]. by rewrite (link_after_last (x :: l) a s).
  - unfold end_ok in He. destruct (last (x :: l)) eqn:E; [done |].
    by apply last_None in E.
Qed.

Lemma end_ok_snoc l s : end_ok (l ++ [s]) (Some (seg_addr s)).
Proof. unfold end_ok. by rewrite last_snoc. Qed.

Lemma end_ok_tail s l end_ :
  end_ok (s :: l) end_ → end_ok l (match l with [] => None | _ => end_ end).
Proof. unfold end_ok. by destruct l. Qed.

Lemma end_ok_replace s t l end_ :
  end_ok (s :: l) end_ →
  end_ok (t :: l) (match l with [] => Some (seg_addr t) | _ => end_ end).
Proof. unfold end_ok. by destruct l. Qed.

Lemma end_ok_remove pre cur rest end_ :
  end_ok (pre ++ cur :: rest) end_ → NoDup (map seg_addr (pre ++ cur :: rest)) →
  end_ok (pre ++ rest)
    (if bool_decide (end_ = Some (seg_addr cur)) then seg_addr <$> last pre else end_).
Proof.
  unfold end_ok. intros -> Hnd. destruct rest as [| y rest] using rev_ind.
  - rewrite last_snoc, app_nil_r. simpl. by rewrite bool_decide_true.
  - clear IHrest. rewrite app_comm_cons, !app_assoc, !last_snoc. simpl.
    rewrite bool_decide_false; [done |]. intros [= E].
    rewrite map_app in Hnd. apply NoDup_app in Hnd as (_ & _ & Hnd). simpl in Hnd.
    apply NoDup_cons in Hnd as [Hnd _]. apply Hnd. rewrite <- E, map_app. set_solver.
Qed.

Lemma new_sdu_ok h buffer id :
  nr_rlc_new_sdu h buffer (zlen buffer) id =
    Ok (mk_segment (S (next_addr h)) (next_addr h) (zlen buffer) 0 true true,
        mk_heap (<[next_addr h := mk_sdu (-1) id buffer (zlen buffer) (-1) 1 0 0]> (sdus h))
                (S (S (next_addr h)))).
Proof.
  unfold nr_rlc_new_sdu. rewrite slice_Some by (pose proof (zlen_nonneg buffer); lia).
  simpl. by rewrite drop_0, take_zlen.
Qed.

Lemma new_sdu_safe h l u :
  ref_count u = 1 → free_count u = 0 → heap_safe h l → ∀ s,
  seg_sdu s = next_addr h → seg_addr s = S (next_addr h) →
  let h' := mk_heap (<[next_addr h := u]> (sdus h)) (S (S (next_addr h))) in
  heap_safe h' (s :: l) ∧ (heap_exact h l → heap_exact h' (s :: l)).
Proof.
  intros Hr Hf Hs s Hsdu Haddr h'. pose proof Hs as [H1 H2 H3 H4 H5].
  assert (Hfresh : sdus h !! next_addr h = None).
  { destruct (sdus h !! next_addr h) eqn:E; [| done].
    specialize (H3 (next_addr h)). rewrite E in H3. specialize (H3 ltac:(eauto)). lia. }
  assert (Hr0 : refs (next_addr h) l = 0).
  { destruct (Z.eq_dec (refs (next_addr h) l) 0); [done |].
    exfalso. clear -H1 Hfresh n. induction l as [| x l IH]; [done |]. simpl in n.
    destruct (Nat.eqb_spec (seg_sdu x) (next_addr h)) as [E |].
    - destruct (H1 x ltac:(left)) as [? ?]. congruence.
    - apply IH; [intros; apply H1; by right | lia]. }
  assert (Hsafe : heap_safe h' (s :: l)).
  { constructor; simpl.
    - intros x Hx. rewrite lookup_insert. case_decide as Hd; [eauto |].
      apply elem_of_cons in Hx as [-> | Hx]; [congruence | eauto].
    - intros a v. destruct (decide (next_addr h = a)) as [<- | Hne]; intros Hv; simplify_map_eq.
      + rewrite Hsdu, Nat.eqb_refl. lia.
      + rewrite Hsdu, (proj2 (Nat.eqb_neq _ _) Hne). eauto.
    - intros a Ha. destruct (decide (next_addr h = a)) as [<- | ?]; [lia |].
      simplify_map_eq. specialize (H3 a Ha). lia.
    - intros x Hx. apply elem_of_cons in Hx as [-> | Hx]; [lia |]. specialize (H4 x Hx). lia.
    - constructor; [| done]. intros (y & Hy & Hin)%list_elem_of_fmap. specialize (H4 y Hin). lia. }
  split; [done |]. intros [_ He]. split; [done |]. simpl. intros a v Hv.
  destruct (decide (next_addr h = a)) as [<- | Hne]; simplify_map_eq.
  - rewrite Hsdu, Nat.eqb_refl. lia.
  - rewrite Hsdu, (proj2 (Nat.eqb_neq _ _) Hne), (He a v Hv). lia.
Qed.

(** ** Segment contents *)

(** A segment is a range of its SDU; [is_first]/[is_last] say whether it touches the ends. *)
Definition seg_in (u : nr_rlc_sdu_t) (s : nr_rlc_sdu_segment_t) : Prop :=
  sdu_size u = zlen (sdu_data u) ∧ 0 <= seg_so s ∧ 0 <= seg_size s ∧
  seg_so s + seg_size s <= sdu_size u ∧
  seg_is_first s = (seg_so s =? 0) ∧ seg_is_last s = (seg_so s + seg_size s =? sdu_size u).

Definition seg_wf (max : Z) (h : sdu_heap) (s : nr_rlc_sdu_segment_t) : Prop :=
  ∃ u, sdus h !! seg_sdu s = Some u ∧ seg_in u s ∧ sdu_size u <= max.

(** The SDU bytes a segment stands for. *)
Definition seg_bytes (h : sdu_heap) (s : nr_rlc_sdu_segment_t) : bytes :=
  match sdus h !! seg_sdu s with
  | Some u => take (Z.to_nat (seg_size s)) (drop (Z.to_nat (seg_so s)) (sdu_data u))
  | None => []
  end.

(** The SDU bytes of a list of segments, in order. *)
Definition pending (h : sdu_heap) (l : list nr_rlc_sdu_segment_t) : bytes :=
  l ≫= seg_bytes h.

Definition sum_size (l : list nr_rlc_sdu_segment_t) : Z := foldr (λ s acc, seg_size s + acc) 0 l.

(** [h'] has no SDU that [h] has not, and the same data for those it has. *)
Definition data_sub (h' h : sdu_heap) : Prop :=
  ∀ a u', sdus h' !! a = Some u' →
    ∃ u, sdus h !! a = Some u ∧ sdu_data u' = sdu_data u ∧ sdu_size u' = sdu_size u.

#[export] Instance data_sub_preorder : PreOrder data_sub.
Proof.
  split.
  - intros h a u Hu. eauto.
  - intros h1 h2 h3 H12 H23 a u Hu.
    destruct (H12 a u Hu) as (u2 & H2 & ? & ?). destruct (H23 a u2 H2) as (u3 & ? & ? & ?).
    exists u3. split_and!; congruence.
Qed.

Lemma data_sub_upd h a f h' :
  (∀ u, sdu_data (f u) = sdu_data u ∧ sdu_size (f u) = sdu_size u) →
  upd_sdu h a f = Ok h' → data_sub h' h.
Proof.
  intros Hf Hu b v Hv. unfold upd_sdu, get_sdu in Hu. inv_bind Hu.
  destruct (sdus h !! a) as [u |] eqn:Ha; simplify_eq/=.
  destruct (Hf a0) as [Hd Hz].
  destruct (decide (a = b)) as [<- | ?]; simplify_map_eq; eauto.
Qed.

Lemma data_sub_free h s b h' :
  nr_rlc_free_sdu_segment h s = Ok (b, h') → data_sub h' h.
Proof.
  unfold nr_rlc_free_sdu_segment, get_sdu. intros Hf. inv_bind Hf.
  destruct (sdus h !! seg_sdu s) as [u |] eqn:Ha; simplify_eq/=.
  intros x v Hv. destruct (_ =? _); simplify_eq/=.
  - apply lookup_delete_Some in Hv as [? ?]. eauto.
  - rewrite lookup_insert in Hv. case_decide; simplify_eq; eauto.
Qed.

Lemma seg_wf_sub max h h' s :
  data_sub h' h → is_Some (sdus h' !! seg_sdu s) → seg_wf max h s →
  seg_wf max h' s ∧ seg_bytes h' s = seg_bytes h s.
Proof.
  intros Hsub [u' Hu'] (u & Hu & Hin & Hmax).
  destruct (Hsub _ _ Hu') as (u2 & Hu2 & Hd & Hz). rewrite Hu in Hu2. simplify_eq.
  unfold seg_wf, seg_bytes, seg_in in *. rewrite Hu, Hu', Hd. split; [| done].
  exists u'. rewrite Hd, Hz. done.
Qed.

Lemma segs_wf_sub max h h' l :
  data_sub h' h → (∀ s, s ∈ l → is_Some (sdus h' !! seg_sdu s)) →
  Forall (seg_wf max h) l → Forall (seg_wf max h') l ∧ pending h' l = pending h l.
Proof.
  intros Hsub Hlive Hwf. induction Hwf as [| s l Hs Hl IH]; [done |].
  destruct IH as [IH1 IH2]; [intros; apply Hlive; by right |].
  destruct (seg_wf_sub max h h' s Hsub) as [Hs1 Hs2]; [apply Hlive; left | done |].
  split; [by constructor |]. unfold pending in *. rewrite !bind_cons, Hs2, IH2. done.
Qed.

Lemma zlen_seg_bytes max h s : seg_wf max h s → zlen (seg_bytes h s) = seg_size s.
Proof.
  intros (u & Hu & (Hz & H1 & H2 & H3 & _) & _). unfold seg_bytes. rewrite Hu.
  unfold zlen in *. rewrite length_take, length_drop. lia.
Qed.

(** ** Segmentation *)

(** The two halves of a cut segment: the first keeps [k] bytes. *)
Definition cut_head (s : nr_rlc_sdu_segment_t) (k : Z) : nr_rlc_sdu_segment_t :=
  s <| seg_size := k |> <| seg_is_last := false |>.
Definition cut_tail (s : nr_rlc_sdu_segment_t) (k : Z) (a : nat) : nr_rlc_sdu_segment_t :=
  s <| seg_addr := a |> <| seg_size := seg_size s - k |> <| seg_so := seg_so s + k |>
    <| seg_is_first := false |>.

Lemma cut_wf max h s k a :
  0 < k < seg_size s → seg_wf max h s →
  seg_wf max h (cut_head s k) ∧ seg_wf max h (cut_tail s k a) ∧
  seg_bytes h s = seg_bytes h (cut_head s k) ++ seg_bytes h (cut_tail s k a).
Proof.
  intros Hk (u & Hu & (Hz & H1 & H2 & H3 & Hf & Hl) & Hmax). unfold seg_wf, seg_bytes; simpl.
  rewrite Hu. split_and!.
  - exists u. unfold seg_in; simpl. split_and!; try done; lia.
  - exists u. unfold seg_in; simpl. split_and!; try done; try lia. rewrite Hl. f_equal. lia.
  - replace (Z.to_nat (seg_so s + k)) with (Z.to_nat (seg_so s) + Z.to_nat k)%nat by lia.
    rewrite <- drop_drop.
    replace (Z.to_nat (seg_size s)) with (Z.to_nat k + Z.to_nat (seg_size s - k))%nat by lia.
    rewrite <- (take_drop (Z.to_nat k) (drop (Z.to_nat (seg_so s)) (sdu_data u))) at 1.
    rewrite take_app_ge; rewrite length_take_le; unfold zlen in *; rewrite ?length_drop; try lia.
    do 2 f_equal. lia.
Qed.

(** Splitting a segment in the store: one more reference, one more live segment. *)
Lemma heap_safe_split h s l h' k :
  heap_safe h (s :: l) →
  upd_sdu h (seg_sdu s) (λ u, u <| ref_count ::= Z.succ |>) = Ok h' →
  let t := cut_tail s k (next_addr h) in
  let h2 := h' <| next_addr ::= S |> in
  heap_safe h2 (cut_head s k :: t :: l) ∧
  (heap_exact h (s :: l) → heap_exact h2 (cut_head s k :: t :: l)).
Proof.
  intros Hs Hu t h2. unfold upd_sdu, get_sdu in Hu. inv_bind Hu.
  destruct (sdus h !! seg_sdu s) as [u |] eqn:Ha; simplify_eq/=.
  pose proof Hs as [H1 H2 H3 H4 H5].
  assert (Hsafe : heap_safe h2 (cut_head s k :: t :: l)).
  { constructor; simpl.
    - intros x Hx. rewrite lookup_insert. case_decide as Hd; [eauto |].
      apply H1. apply elem_of_cons in Hx as [-> | Hx]; [done |].
      apply elem_of_cons in Hx as [-> | Hx]; [done | by right].
    - intros b v. rewrite lookup_insert. case_decide as Hd; intros Hv; simplify_eq.
      + destruct (H2 _ _ Ha) as [? Hr]. simpl in *. rewrite Nat.eqb_refl in *. lia.
      + destruct (H2 _ _ Hv) as [? Hr]. simpl in Hr.
        rewrite (proj2 (Nat.eqb_neq _ _) Hd) in *. lia.
    - intros b Hb. rewrite lookup_insert in Hb. case_decide as Hd; simplify_eq.
      + specialize (H3 (seg_sdu s)). rewrite Ha in H3. specialize (H3 ltac:(eauto)). lia.
      + specialize (H3 b Hb). lia.
    - intros x Hx. apply elem_of_cons in Hx as [-> | Hx].
      { specialize (H4 s ltac:(left)). simpl. lia. }
      apply elem_of_cons in Hx as [-> | Hx]; [simpl; lia |].
      specialize (H4 x ltac:(by right)). lia.
    - inversion_clear H5 as [| ? ? Hs5 Hl5]. constructor; [| constructor; [| done]].
      + rewrite elem_of_cons. intros [E | E]; [| done].
        specialize (H4 s ltac:(left)). lia.
      + intros (y & Hy & Hin)%list_elem_of_fmap. specialize (H4 y ltac:(by right)). lia. }
  split; [done |]. intros [_ He]. split; [done |]. simpl. intros b v.
  rewrite lookup_insert. case_decide as Hd; intros Hv; simplify_eq.
  - specialize (He _ _ Ha). simpl in *. rewrite Nat.eqb_refl in *. lia.
  - specialize (He _ _ Hv). simpl in *. by rewrite (proj2 (Nat.eqb_neq _ _) Hd) in *.
Qed.

(** ** State common to the NR RLC entities *)

Definition NR_SDU_MAX : Z := 16000.

Inductive nr_rlc_mode_t := NR_RLC_AM | NR_RLC_UM | NR_RLC_TM.

(** Counters of [nr_rlc_statistics_t] that the entities update. *)
Record nr_rlc_statistics_t := mk_stats {
  mode : nr_rlc_mode_t;
  txpdu_pkts : Z; txpdu_bytes : Z; txpdu_dd_pkts : Z; txpdu_dd_bytes : Z;
  txpdu_retx_pkts : Z; txpdu_retx_bytes : Z; txpdu_segmented : Z;
  txpdu_status_pkts : Z; txpdu_status_bytes : Z;
  rxpdu_pkts : Z; rxpdu_bytes : Z; rxpdu_dup_pkts : Z; rxpdu_dup_bytes : Z;
  rxpdu_dd_pkts : Z; rxpdu_dd_bytes : Z; rxpdu_ow_pkts : Z; rxpdu_ow_bytes : Z;
  txsdu_pkts : Z; txsdu_bytes : Z;
  rxsdu_pkts : Z; rxsdu_bytes : Z; rxsdu_dd_pkts : Z; rxsdu_dd_bytes : Z
}.
#[export] Instance eta_stats : Settable nr_rlc_statistics_t :=
  λ s, mk_stats (mode s) (txpdu_pkts s) (txpdu_bytes s) (txpdu_dd_pkts s) (txpdu_dd_bytes s)
    (txpdu_retx_pkts s) (txpdu_retx_bytes s) (txpdu_segmented s) (txpdu_status_pkts s)
    (txpdu_status_bytes s) (rxpdu_pkts s) (rxpdu_bytes s) (rxpdu_dup_pkts s)
    (rxpdu_dup_bytes s) (rxpdu_dd_pkts s) (rxpdu_dd_bytes s) (rxpdu_ow_pkts s)
    (rxpdu_ow_bytes s) (txsdu_pkts s) (txsdu_bytes s) (rxsdu_pkts s) (rxsdu_bytes s)
    (rxsdu_dd_pkts s) (rxsdu_dd_bytes s).

Definition init_stats (m : nr_rlc_mode_t) : nr_rlc_statistics_t :=
  mk_stats m 0 0 0 0 0 0 0 0 0 0 0 0 0 0 0 0 0 0 0 0 0 0 0.

Record nr_rlc_entity_buffer_status_t := mk_bstatus {
  status_size : Z;
  bs_tx_size : Z;
  bs_retx_size : Z
}.
#[export] Instance eta_bstatus : Settable nr_rlc_entity_buffer_status_t :=
  λ b, mk_bstatus (status_size b) (bs_tx_size b) (bs_retx_size b).

(** Calls made by an entity to its environment. *)
Inductive rlc_event :=
| deliver_sdu (buf : bytes) (size : Z)
| sdu_successful_delivery (sdu_id : Z)
| max_retx_reached
| time_average_add (now waited : Z).

Record nr_rlc_entity_t := mk_common {
  bstatus : nr_rlc_entity_buffer_status_t;
  stats : nr_rlc_statistics_t;
  avg_time_is_on : bool;
  out : list rlc_event;
  mem : sdu_heap
}.
#[export] Instance eta_common : Settable nr_rlc_entity_t :=
  λ c, mk_common (bstatus c) (stats c) (avg_time_is_on c) (out c) (mem c).

Definition init_common (m : nr_rlc_mode_t) : nr_rlc_entity_t :=
  mk_common (mk_bstatus 0 0 0) (init_stats m) false [] empty_heap.

(** [entity->common.stats.<proj> += n], 32 and 64-bit counters. *)
Definition stat (proj : nr_rlc_statistics_t → Z) `{!Setter proj} (n : Z)
    (c : nr_rlc_entity_t) : nr_rlc_entity_t := c <| stats ::= incr32 proj n |>.
Definition stat64 (proj : nr_rlc_statistics_t → Z) `{!Setter proj} (n : Z)
    (c : nr_rlc_entity_t) : nr_rlc_entity_t := c <| stats ::= incr64 proj n |>.

(** [entity->common.bstatus.tx_size += n] and the same for [retx_size]. *)
Definition add_bs_tx (n : Z) (c : nr_rlc_entity_t) : nr_rlc_entity_t :=
  c <| bstatus ::= λ b, b <| bs_tx_size ::= Z.add n |> |>.
Definition add_bs_retx (n : Z) (c : nr_rlc_entity_t) : nr_rlc_entity_t :=
  c <| bstatus ::= λ b, b <| bs_retx_size ::= Z.add n |> |>.

Definition emit (ev : rlc_event) (c : nr_rlc_entity_t) : nr_rlc_entity_t :=
  c <| out ::= λ o, o ++ [ev] |>.

(** [time_average_add(entity->common.txsdu_avg_time_to_tx, time_now, time_now - arrival)]. *)
Definition record_wait (now_us arrival : Z) (c : nr_rlc_entity_t) : nr_rlc_entity_t :=
  if avg_time_is_on c then emit (time_average_add now_us (u64 (now_us - arrival))) c else c.
