(* ===== verification/RlcUm.v ===== *)
(** * NR RLC unacknowledged mode

    Models [openair2/LAYER2/nr_rlc/nr_rlc_entity_um.c] and [nr_rlc_entity_um.h], and the
    UM constructor and reconfiguration of [nr_rlc_entity.c].  One definition per function; a
    function that writes through [entity] returns the new entity, and a function that fills a
    MAC buffer takes the buffer's old contents and returns its new contents. *)

From S2P Require Import Prelude RlcPdu RlcEntity.

Record nr_rlc_entity_um_t := mk_um {
  common : nr_rlc_entity_t;
  t_reassembly : Z;
  sn_field_length : Z;
  sn_modulus : Z;
  window_size : Z;
  rx_next_highest : Z;
  rx_next_reassembly : Z;
  rx_timer_trigger : Z;
  tx_next : Z;
  t_current : Z;
  t_log_buffer_full : Z;
  sdu_rejected : Z;
  t_reassembly_start : Z;
  rx_list : list nr_rlc_pdu_t;
  rx_size : Z;
  rx_maxsize : Z;
  tx_list : list nr_rlc_sdu_segment_t;
  tx_end : option nat;
  tx_size : Z;
  tx_maxsize : Z
}.
#[export] Instance eta_um : Settable nr_rlc_entity_um_t :=
  λ e, mk_um (common e) (t_reassembly e) (sn_field_length e) (sn_modulus e) (window_size e)
    (rx_next_highest e) (rx_next_reassembly e) (rx_timer_trigger e) (tx_next e) (t_current e)
    (t_log_buffer_full e) (sdu_rejected e) (t_reassembly_start e) (rx_list e) (rx_size e)
    (rx_maxsize e) (tx_list e) (tx_end e) (tx_size e) (tx_maxsize e).

Definition new_nr_rlc_entity_um (rx_maxsize tx_maxsize t_reassembly sn_field_length : Z)
    : res nr_rlc_entity_um_t :=
  _ ← assert_that ((sn_field_length =? 6) || (sn_field_length =? 12));
  let sn_modulus := Z.shiftl 1 sn_field_length in
  Ok (mk_um (init_common NR_RLC_UM) t_reassembly sn_field_length sn_modulus
        (Z.quot sn_modulus 2) 0 0 0 0 0 0 0 0 [] 0 rx_maxsize [] None 0 tx_maxsize).

Definition nr_rlc_entity_um_reconfigure (e : nr_rlc_entity_um_t) (t : Z) (snlen : option Z)
    : nr_rlc_entity_um_t :=
  let e := e <| t_reassembly := t |> in
  match snlen with Some n => e <| sn_field_length := n |> | None => e end.

Definition compute_pdu_header_size (e : nr_rlc_entity_um_t) (s : nr_rlc_sdu_segment_t) : Z :=
  1 + (if negb (seg_is_first s && seg_is_last s) && (sn_field_length e =? 12) then 1 else 0)
    + (if negb (seg_is_first s) then 2 else 0).

(** ** PDU reception *)

Definition modulus_rx (e : nr_rlc_entity_um_t) (a : Z) : Z :=
  let r := a - (rx_next_highest e - window_size e) in
  let r := if r <? 0 then r + sn_modulus e else r in
  Z.rem r (sn_modulus e).

Definition sn_compare_rx (e : nr_rlc_entity_um_t) (a b : Z) : Z :=
  modulus_rx e a - modulus_rx e b.

(** The list from the first PDU of SDU [n] on. *)
Fixpoint from_sn (n : Z) (l : list nr_rlc_pdu_t) : list nr_rlc_pdu_t :=
  match l with
  | [] => []
  | p :: l' => if pdu_sn p =? n then l else from_sn n l'
  end.

Definition processed (l : list nr_rlc_pdu_t) : bool :=
  match l with p :: _ => negb (bool_decide (is_Some (pdu_data p))) | [] => false end.

Fixpoint sdu_full_loop (n last_byte : Z) (l : list nr_rlc_pdu_t) : bool :=
  match l with
  | [] => false
  | p :: l' =>
      if negb (pdu_sn p =? n) then false
      else if last_byte + 1 <? pdu_so p then false
      else if pdu_is_last p then true
      else
        let new_last_byte := pdu_so p + pdu_size p - 1 in
        sdu_full_loop n (if last_byte <? new_last_byte then new_last_byte else last_byte) l'
  end.

Definition sdu_full (e : nr_rlc_entity_um_t) (n : Z) : bool :=
  let l := from_sn n (rx_list e) in
  if processed l then false else sdu_full_loop n (-1) l.

Definition sdu_delivered (l : list nr_rlc_pdu_t) (n : Z) : bool := processed (from_sn n l).

Fixpoint missing_loop (n last_byte : Z) (l : list nr_rlc_pdu_t) : bool :=
  match l with
  | [] => false
  | p :: l' =>
      if negb (pdu_sn p =? n) then false
      else if last_byte + 1 <? pdu_so p then true
      else
        let new_last_byte := pdu_so p + pdu_size p - 1 in
        missing_loop n (if last_byte <? new_last_byte then new_last_byte else last_byte) l'
  end.

Definition sdu_has_missing_bytes (e : nr_rlc_entity_um_t) (n : Z) : bool :=
  let l := from_sn n (rx_list e) in
  if processed l then false else missing_loop n (-1) l.

(** The loop over the segments of SDU [n]: [acc] is [sdu[0 .. so-1]], the local buffer. *)
Fixpoint reassemble_loop (n : Z) (l : list nr_rlc_pdu_t) (so : Z) (bad_sdu : bool)
    (acc : bytes) (rxsize : Z) : res (list nr_rlc_pdu_t * Z * bool * bytes * Z) :=
  match l with
  | [] => Ok ([], so, bad_sdu, acc, rxsize)
  | p :: l' =>
      if negb (pdu_sn p =? n) then Ok (l, so, bad_sdu, acc, rxsize)
      else
        let bad_sdu := if (so <? pdu_so p) && negb bad_sdu then true else bad_sdu in
        let len := pdu_size p - (so - pdu_so p) in
        let bad_sdu := if (NR_SDU_MAX <? so + len) && negb bad_sdu then true else bad_sdu in
        '(so, acc) ← (if negb bad_sdu && (0 <? len) then
                        d ← deref (pdu_data p);
                        s ← deref (slice d (so - pdu_so p) len);
                        Ok (so + len, acc ++ s)
                      else Ok (so, acc));
        let p' := p <| pdu_data := None |> <| pdu_size := 0 |> in
        '(l', so, bad_sdu, acc, rxsize) ←
          reassemble_loop n l' so bad_sdu acc (rxsize - pdu_size p);
        Ok (p' :: l', so, bad_sdu, acc, rxsize)
  end.

(** Skipping to the first segment of SDU [n] ([while (pdu->sn != sn)], no NULL check), then
    the loop above in place. *)
Fixpoint reassemble_from (n : Z) (l : list nr_rlc_pdu_t) (rxsize : Z)
    : res (list nr_rlc_pdu_t * Z * bool * bytes * Z) :=
  match l with
  | [] => UB
  | p :: l' =>
      if pdu_sn p =? n then reassemble_loop n l 0 false [] rxsize
      else
        '(l', so, bad_sdu, acc, rxsize) ← reassemble_from n l' rxsize;
        Ok (p :: l', so, bad_sdu, acc, rxsize)
  end.

Definition reassemble_and_deliver (e : nr_rlc_entity_um_t) (n : Z) : res nr_rlc_entity_um_t :=
  '(l, so, bad_sdu, acc, rxsize) ← reassemble_from n (rx_list e) (rx_size e);
  let e := e <| rx_list := l |> <| rx_size := rxsize |> in
  if (bad_sdu : bool) then Ok e
  else Ok (e <| common ::= λ c, stat64 txsdu_bytes so (stat txsdu_pkts 1
                                   (emit (deliver_sdu acc so) c)) |>).

(** [while (sdu_delivered(entity, n)) n = (n + 1) % entity->sn_modulus].  The fuel is one
    turn over the sequence numbers. *)
Fixpoint skip_delivered (fuel : nat) (l : list nr_rlc_pdu_t) (modulus n : Z) : res Z :=
  match fuel with
  | O => NoFuel
  | S fuel' => if sdu_delivered l n
               then skip_delivered fuel' l modulus (Z.rem (n + 1) modulus) else Ok n
  end.

Definition first_not_delivered (e : nr_rlc_entity_um_t) (n : Z) : res Z :=
  skip_delivered (Z.to_nat (sn_modulus e)) (rx_list e) (sn_modulus e) n.

(** [discard PDUs not in reassembly window]: pops the head while it is past [rx_next_highest]. *)
Fixpoint discard_out_of_window (e : nr_rlc_entity_um_t) (l : list nr_rlc_pdu_t)
    : nr_rlc_entity_um_t :=
  match l with
  | [] => e <| rx_list := [] |>
  | p :: l' =>
      if 0 <=? sn_compare_rx e (pdu_sn p) (rx_next_highest e) then
        let e := e <| rx_size ::= λ x, x - pdu_size p |> <| rx_list := l' |>
                   <| common ::= λ c, stat rxpdu_ow_bytes (pdu_size p) (stat rxpdu_ow_pkts 1
                       (stat rxpdu_dd_bytes (pdu_size p) (stat rxpdu_dd_pkts 1 c))) |> in
        discard_out_of_window e l'
      else e <| rx_list := l |>
  end.

(** First part of [reception_actions]: deliver, or move the reassembly window. *)
Definition reception_window (e : nr_rlc_entity_um_t) (x : Z) : res nr_rlc_entity_um_t :=
  if sdu_full e x then
    e ← reassemble_and_deliver e x;
    if x =? rx_next_reassembly e then
      n ← first_not_delivered e (rx_next_reassembly e);
      Ok (e <| rx_next_reassembly := n |>)
    else Ok e
  else if 0 <=? sn_compare_rx e x (rx_next_highest e) then
    let e := e <| rx_next_highest := Z.rem (x + 1) (sn_modulus e) |> in
    let e := discard_out_of_window e (rx_list e) in
    if 0 <=? sn_compare_rx e (rx_next_reassembly e) (rx_next_highest e) then
      n ← first_not_delivered e
            (Z.rem (rx_next_highest e - window_size e + sn_modulus e) (sn_modulus e));
      Ok (e <| rx_next_reassembly := n |>)
    else Ok e
  else Ok e.

(** Second part of [reception_actions]: stop, then possibly start, [t_reassembly]. *)
Definition reception_timer (e : nr_rlc_entity_um_t) : nr_rlc_entity_um_t :=
  let next := Z.rem (rx_next_reassembly e + 1) (sn_modulus e) in
  let e :=
    if negb (t_reassembly_start e =? 0) &&
       ((sn_compare_rx e (rx_timer_trigger e) (rx_next_reassembly e) <=? 0)
        || (0 <? sn_compare_rx e (rx_timer_trigger e) (rx_next_highest e))
        || ((rx_next_highest e =? next) &&
            negb (sdu_has_missing_bytes e (rx_next_reassembly e))))
    then e <| t_reassembly_start := 0 |> else e in
  if (t_reassembly_start e =? 0) &&
     ((0 <? sn_compare_rx e (rx_next_highest e) next)
      || ((rx_next_highest e =? next) && sdu_has_missing_bytes e (rx_next_reassembly e)))
  then e <| t_reassembly_start := t_current e |> <| rx_timer_trigger := rx_next_highest e |>
  else e.

Definition reception_actions (e : nr_rlc_entity_um_t) (x : Z) : res nr_rlc_entity_um_t :=
  e ← reception_window e x; Ok (reception_timer e).

Definition discard_pdu (e : nr_rlc_entity_um_t) (size : Z) : nr_rlc_entity_um_t :=
  e <| common ::= λ c, stat rxpdu_dd_bytes size (stat rxpdu_dd_pkts 1 c) |>.

(** From [data_size = size - decoder.byte] on: checks and insertion in the reception list. *)
Definition recv_segment (e : nr_rlc_entity_um_t) (buffer : bytes) (size : Z)
    (n so : Z) (is_first is_last : bool) (d : nr_rlc_pdu_decoder_t) : res nr_rlc_entity_um_t :=
  let data_size := size - d_byte d in
  if data_size <=? 0 then Ok (discard_pdu e size)
  else if rx_maxsize e <? rx_size e + data_size then Ok (discard_pdu e size)
  else if sn_compare_rx e n (rx_next_reassembly e) <? 0 then Ok (discard_pdu e size)
  else
    let e := e <| rx_size ::= Z.add data_size |> in
    pdu ← nr_rlc_new_pdu n so is_first is_last buffer (size - data_size) data_size;
    let e := e <| rx_list ::= λ l, nr_rlc_pdu_list_add (sn_compare_rx e) l pdu |> in
    reception_actions e n.

Definition nr_rlc_entity_um_recv_pdu (e : nr_rlc_entity_um_t) (buffer : bytes)
    : res nr_rlc_entity_um_t :=
  let size := zlen buffer in
  let e := e <| common ::= λ c, stat rxpdu_bytes size (stat rxpdu_pkts 1 c) |> in
  let discard := Ok (discard_pdu e size) in
  let d := nr_rlc_pdu_decoder_init buffer size in
  read_bits discard d 2 (λ si d,
  let is_first := Z.land si 2 =? 0 in
  let is_last := Z.land si 1 =? 0 in
  if is_first && is_last then
    if size <? 2 then discard
    else
      s ← deref (slice buffer 1 (size - 1));
      Ok (e <| common ::= λ c, stat64 txsdu_bytes (size - 1) (stat txsdu_pkts 1
                                 (emit (deliver_sdu s (size - 1)) c)) |>)
  else
  let k d :=
    read_bits discard d (sn_field_length e) (λ n d,
    if is_first then recv_segment e buffer size n 0 is_first is_last d
    else read_bits discard d 16 (λ so d,
      if so =? 0 then discard
      else recv_segment e buffer size n so is_first is_last d)) in
  if sn_field_length e =? 12 then read_bits discard d 2 (λ _ d, k d) else k d).

(** ** PDU generation *)

(** Returns the number of bytes written and the buffer. *)
Definition serialize_sdu (e : nr_rlc_entity_um_t) (s : nr_rlc_sdu_segment_t) (buffer : bytes)
    (bufsize : Z) : res (Z * bytes) :=
  u ← get_sdu (mem (common e)) (seg_sdu s);
  let enc := nr_rlc_pdu_encoder_init buffer bufsize in
  enc ← nr_rlc_pdu_encoder_put_bits enc (1 - b2z (seg_is_first s)) 1;
  enc ← nr_rlc_pdu_encoder_put_bits enc (1 - b2z (seg_is_last s)) 1;
  enc ← (if seg_is_first s && seg_is_last s then nr_rlc_pdu_encoder_put_bits enc 0 6
         else
           enc ← (if sn_field_length e =? 12 then nr_rlc_pdu_encoder_put_bits enc 0 2
                  else Ok enc);
           nr_rlc_pdu_encoder_put_bits enc (sdu_sn u) (sn_field_length e));
  enc ← (if seg_is_first s then Ok enc else nr_rlc_pdu_encoder_put_bits enc (seg_so s) 16);
  buf ← memcpy (e_buffer enc) (e_byte enc) (sdu_data u) (seg_so s) (seg_size s);
  Ok (e_byte enc + seg_size s, buf).

(** Cuts [s] so that its PDU fits in [pdu_size] bytes.  Returns the entity, the shortened
    segment and the segment with the remaining bytes ([None] is the NULL result). *)
Definition resegment (s : nr_rlc_sdu_segment_t) (e : nr_rlc_entity_um_t) (pdu_size : Z)
    : res (nr_rlc_entity_um_t * nr_rlc_sdu_segment_t * option nr_rlc_sdu_segment_t) :=
  h ← upd_sdu (mem (common e)) (seg_sdu s) (λ u, u <| ref_count ::= Z.succ |>);
  let e := e <| common ::= λ c, c <| mem := h |> |> in
  let pdu_header_size := compute_pdu_header_size e (s <| seg_is_last := false |>) in
  if pdu_size <? pdu_header_size + 1 then Ok (e, s, None)
  else
    let over_size := pdu_header_size + seg_size s - pdu_size in
    let s' := s <| seg_size ::= λ x, x - over_size |> <| seg_is_last := false |> in
    let next := s <| seg_addr := next_addr h |> <| seg_size := over_size |>
                  <| seg_so := seg_so s' + seg_size s' |> <| seg_is_first := false |> in
    let e := e <| common ::= λ c, stat txpdu_segmented 1
                 (c <| mem := h <| next_addr ::= S |> |>) |> in
    Ok (e, s', Some next).

(** The part of [generate_tx_pdu] after segmentation. *)
Definition emit_tx_pdu (e : nr_rlc_entity_um_t) (s : nr_rlc_sdu_segment_t) (buffer : bytes)
    (size now_us : Z) : res (Z * bytes * nr_rlc_entity_um_t) :=
  let e := if negb (seg_is_first s) && seg_is_last s
           then e <| tx_next := Z.rem (tx_next e + 1) (sn_modulus e) |> else e in
  '(ret, buf) ← serialize_sdu e s buffer size;
  u ← get_sdu (mem (common e)) (seg_sdu s);
  let e := e <| tx_size ::= λ x, x - seg_size s |>
             <| common ::= λ c, record_wait now_us (time_of_arrival u)
                  (stat txpdu_bytes size (stat txpdu_pkts 1 c)) |> in
  '(_, h) ← nr_rlc_free_sdu_segment (mem (common e)) s;
  Ok (ret, buf, e <| common ::= λ c, c <| mem := h |> |>).

Definition generate_tx_pdu (e : nr_rlc_entity_um_t) (buffer : bytes) (size now_us : Z)
    : res (Z * bytes * nr_rlc_entity_um_t) :=
  match tx_list e with
  | [] => Ok (0, buffer, e)
  | s :: l =>
      let pdu_header_size := compute_pdu_header_size e s in
      if size <? pdu_header_size + 1 then Ok (0, buffer, e)
      else
        let e := e <| tx_list := l |> in
        let e := match l with [] => e <| tx_end := None |> | _ => e end in
        h ← upd_sdu (mem (common e)) (seg_sdu s) (λ u, u <| sdu_sn := tx_next e |>);
        let e := e <| common ::= λ c, c <| mem := h |> |> in
        let pdu_size := pdu_header_size + seg_size s in
        let e := e <| common ::= add_bs_tx (- pdu_size) |> in
        if size <? pdu_size then
          '(e, s, next) ← resegment s e size;
          match next with
          | None => Ok (0, buffer, e)
          | Some next =>
              let e := e <| tx_list ::= cons next |> in
              let e := match tx_end e with None => e <| tx_end := Some (seg_addr next) |>
                                         | Some _ => e end in
              let e := e <| common ::= λ c,
                         add_bs_tx (compute_pdu_header_size e next + seg_size next)
                           (stat txpdu_segmented 1 c) |> in
              emit_tx_pdu e s buffer size now_us
          end
        else emit_tx_pdu e s buffer size now_us
  end.

Definition nr_rlc_entity_um_buffer_status (e : nr_rlc_entity_um_t)
    : nr_rlc_entity_buffer_status_t := mk_bstatus 0 (bs_tx_size (bstatus (common e))) 0.

Definition nr_rlc_entity_um_generate_pdu (e : nr_rlc_entity_um_t) (buffer : bytes)
    (size now_us : Z) : res (Z * bytes * nr_rlc_entity_um_t) :=
  generate_tx_pdu e buffer size now_us.

(** ** SDU reception *)

(** The SDU-rejected log, at most once per second. *)
Definition log_rejected (e : nr_rlc_entity_um_t) : nr_rlc_entity_um_t :=
  if negb (sdu_rejected e =? 0) && (u64 (t_log_buffer_full e + 1000) <? t_current e)
  then e <| sdu_rejected := 0 |> <| t_log_buffer_full := t_current e |> else e.

Definition nr_rlc_entity_um_recv_sdu (e : nr_rlc_entity_um_t) (buffer : bytes)
    (sdu_id now_us : Z) : res nr_rlc_entity_um_t :=
  let size := zlen buffer in
  let e := e <| common ::= λ c, stat64 rxsdu_bytes size (stat rxsdu_pkts 1 c) |> in
  if NR_SDU_MAX <? size then Exit
  else
    let e := log_rejected e in
    if tx_maxsize e <? tx_size e + size then
      Ok (e <| sdu_rejected ::= Z.succ |>
            <| common ::= λ c, stat rxsdu_dd_bytes size (stat rxsdu_dd_pkts 1 c) |>)
    else
      let e := e <| tx_size ::= Z.add size |> in
      '(s, h) ← nr_rlc_new_sdu (mem (common e)) buffer size sdu_id;
      '(l, end_) ← nr_rlc_sdu_segment_list_append (tx_list e) (tx_end e) s;
      let e := e <| tx_list := l |> <| tx_end := end_ |> <| common ::= λ c, c <| mem := h |> |> in
      let e := e <| common ::= add_bs_tx (compute_pdu_header_size e s + seg_size s) |> in
      if avg_time_is_on (common e) then
        h ← upd_sdu (mem (common e)) (seg_sdu s) (λ u, u <| time_of_arrival := now_us |>);
        Ok (e <| common ::= λ c, c <| mem := h |> |>)
      else Ok e.

(** ** Timers *)

(** [discard all segments < entity->rx_next_reassembly]. *)
Fixpoint discard_before_reassembly (e : nr_rlc_entity_um_t) (l : list nr_rlc_pdu_t)
    : nr_rlc_entity_um_t :=
  match l with
  | [] => e
  | p :: l' =>
      if sn_compare_rx e (pdu_sn p) (rx_next_reassembly e) <? 0 then
        let e := e <| rx_list := l' |>
                   <| common ::= λ c, stat rxpdu_dd_bytes (pdu_size p) (stat rxpdu_dd_pkts 1 c) |> in
        discard_before_reassembly e l'
      else e
  end.

Definition check_t_reassembly (e : nr_rlc_entity_um_t) : res nr_rlc_entity_um_t :=
  if (t_reassembly_start e =? 0)
     || (t_current e <=? u64 (t_reassembly_start e + t_reassembly e))
  then Ok e
  else
    let e := e <| t_reassembly_start := 0 |> in
    n ← first_not_delivered e (rx_timer_trigger e);
    let e := e <| rx_next_reassembly := n |> in
    let e := discard_before_reassembly e (rx_list e) in
    if (0 <? sn_compare_rx e (rx_next_highest e)
               (Z.rem (rx_next_reassembly e + 1) (sn_modulus e)))
       || ((rx_next_highest e =? rx_next_reassembly e + 1) &&
           sdu_has_missing_bytes e (rx_next_reassembly e))
    then Ok (e <| t_reassembly_start := t_current e |>
               <| rx_timer_trigger := rx_next_highest e |>)
    else Ok e.

Definition nr_rlc_entity_um_set_time (e : nr_rlc_entity_um_t) (now : Z)
    : res nr_rlc_entity_um_t := check_t_reassembly (e <| t_current := now |>).

(** ** Discard, re-establishment, deletion *)

(** Splits [tx_list] at the first segment of SDU [sdu_id]: the nodes before it, then it. *)
Fixpoint find_sdu (h : sdu_heap) (l : list nr_rlc_sdu_segment_t) (sdu_id : Z)
    : res (list nr_rlc_sdu_segment_t * list nr_rlc_sdu_segment_t) :=
  match l with
  | [] => Ok ([], [])
  | s :: l' =>
      u ← get_sdu h (seg_sdu s);
      if upper_layer_id u =? sdu_id then Ok ([], l)
      else '(pre, post) ← find_sdu h l' sdu_id; Ok (s :: pre, post)
  end.

Definition nr_rlc_entity_um_discard_sdu (e : nr_rlc_entity_um_t) (sdu_id : Z)
    : res nr_rlc_entity_um_t :=
  '(pre, post) ← find_sdu (mem (common e)) (tx_list e) sdu_id;
  match post with
  | [] => Ok e
  | cur :: rest =>
      if negb (seg_is_first cur) || negb (seg_is_last cur) then Ok e
      else
        let e := e <| tx_list := pre ++ rest |> in
        let e := if bool_decide (tx_end e = Some (seg_addr cur))
                 then e <| tx_end := seg_addr <$> last pre |> else e in
        let e := e <| common ::= add_bs_tx (- (compute_pdu_header_size e cur + seg_size cur)) |> in
        '(_, h) ← nr_rlc_free_sdu_segment (mem (common e)) cur;
        Ok (e <| common ::= λ c, c <| mem := h |> |>)
  end.

Definition clear_entity (e : nr_rlc_entity_um_t) : res nr_rlc_entity_um_t :=
  let e := e <| rx_next_highest := 0 |> <| rx_next_reassembly := 0 |>
             <| rx_timer_trigger := 0 |> <| tx_next := 0 |> <| t_current := 0 |>
             <| t_log_buffer_full := 0 |> <| sdu_rejected := 0 |> <| t_reassembly_start := 0 |>
             <| rx_list := [] |> <| rx_size := 0 |> in
  h ← nr_rlc_free_sdu_segment_list (mem (common e)) (tx_list e);
  Ok (e <| tx_list := [] |> <| tx_end := None |> <| tx_size := 0 |>
        <| common ::= λ c, c <| mem := h |> <| bstatus ::= λ b, b <| bs_tx_size := 0 |> |> |>).

Definition nr_rlc_entity_um_reestablishment (e : nr_rlc_entity_um_t) : res nr_rlc_entity_um_t :=
  clear_entity e.

(** The entity and its latency recorder are freed; what is left is the SDU memory. *)
Definition nr_rlc_entity_um_delete (e : nr_rlc_entity_um_t) : res sdu_heap :=
  e ← clear_entity e; Ok (mem (common e)).

Definition nr_rlc_entity_um_available_tx_space (e : nr_rlc_entity_um_t) : Z :=
  tx_maxsize e - tx_size e.

Definition nr_rlc_entity_um_tx_list_occupancy (e : nr_rlc_entity_um_t) : Z := tx_size e.
