(* ===== verification/RlcUmTx.v ===== *)
(** * Transmission side of NR RLC UM: headers, segmentation, buffer accounting

    Theorems on [RlcUm]: the PDU header round trip between [serialize_sdu] and
    [nr_rlc_entity_um_recv_pdu], segmentation, the transmission-buffer invariant and its
    preservation by the operations that touch the transmission buffer. *)

From S2P Require Import Prelude RlcPdu RlcEntity RlcUm.

(** ** Header round trip *)

(** The header of a segment as bit fields: SI, then reserved bits or SN, then SO. *)
Definition um_header (snlen : Z) (n : Z) (s : nr_rlc_sdu_segment_t) : list (Z * Z) :=
  [(1 - b2z (seg_is_first s), 1); (1 - b2z (seg_is_last s), 1)] ++
  (if seg_is_first s && seg_is_last s then [(0, 6)]
   else (if snlen =? 12 then [(0, 2)] else []) ++ [(n, snlen)]) ++
  (if seg_is_first s then [] else [(seg_so s, 16)]).

Definition um_config (e : nr_rlc_entity_um_t) : Prop :=
  (sn_field_length e = 6 ∨ sn_field_length e = 12) ∧ sn_modulus e = 2 ^ sn_field_length e ∧
  window_size e = sn_modulus e / 2.

Lemma um_config_modulus e : um_config e →
  (sn_field_length e = 6 ∧ sn_modulus e = 64 ∧ window_size e = 32) ∨
  (sn_field_length e = 12 ∧ sn_modulus e = 4096 ∧ window_size e = 2048).
Proof. intros ([-> | ->] & -> & ->); [left | right]; done. Qed.

Lemma serialize_fields e s u buffer bufsize :
  sdus (mem (common e)) !! seg_sdu s = Some u →
  serialize_sdu e s buffer bufsize =
    (enc ← put_fields (nr_rlc_pdu_encoder_init buffer bufsize)
             (um_header (sn_field_length e) (sdu_sn u) s);
     buf ← memcpy (e_buffer enc) (e_byte enc) (sdu_data u) (seg_so s) (seg_size s);
     Ok (e_byte enc + seg_size s, buf)).
Proof.
  intros Hu. unfold serialize_sdu, get_sdu, um_header. rewrite Hu. simpl.
  destruct (seg_is_first s), (seg_is_last s), (sn_field_length e =? 12); simpl;
    repeat (match goal with
            | |- context [nr_rlc_pdu_encoder_put_bits ?x ?v ?n] =>
                destruct (nr_rlc_pdu_encoder_put_bits x v n); simpl; try done
            end).
Qed.

Section header.
Context (e : nr_rlc_entity_um_t) (u : nr_rlc_sdu_t) (s : nr_rlc_sdu_segment_t).
Context (Hcfg : um_config e) (Hseg : seg_in u s) (Hmax : sdu_size u <= NR_SDU_MAX).
Context (Hsn : 0 <= sdu_sn u < sn_modulus e).

Lemma um_header_ok : Forall field_ok (um_header (sn_field_length e) (sdu_sn u) s).
Proof.
  destruct Hseg as (Hz & H1 & H2 & H3 & _). unfold NR_SDU_MAX in *.
  destruct (um_config_modulus e Hcfg) as [(-> & Hm & _) | (-> & Hm & _)]; rewrite Hm in Hsn;
    unfold um_header; destruct (seg_is_first s), (seg_is_last s); simpl;
    repeat constructor; simpl; lia.
Qed.

Lemma um_header_width :
  fields_width (um_header (sn_field_length e) (sdu_sn u) s) =
    8 * compute_pdu_header_size e s.
Proof using Hcfg.
  unfold um_header, compute_pdu_header_size.
  destruct (um_config_modulus e Hcfg) as [(-> & _) | (-> & _)];
    destruct (seg_is_first s), (seg_is_last s); reflexivity.
Qed.

Lemma serialize_spec buffer bufsize :
  sdus (mem (common e)) !! seg_sdu s = Some u →
  compute_pdu_header_size e s + seg_size s <= bufsize <= zlen buffer →
  ∃ hdr buf,
    serialize_sdu e s buffer bufsize = Ok (compute_pdu_header_size e s + seg_size s, buf) ∧
    zlen buf = zlen buffer ∧ zlen hdr = compute_pdu_header_size e s ∧
    buf_bits hdr = fields_bits (um_header (sn_field_length e) (sdu_sn u) s) ∧
    take (Z.to_nat (compute_pdu_header_size e s + seg_size s)) buf =
      hdr ++ seg_bytes (mem (common e)) s.
Proof.
  intros Hu Hroom. rewrite (serialize_fields e s u) by done.
  assert (Hh : 0 < compute_pdu_header_size e s).
  { unfold compute_pdu_header_size. destruct (_ && _), (negb _); lia. }
  destruct Hseg as (Hz & H1 & H2 & H3 & _).
  destruct (put_fields_aligned _ buffer bufsize (compute_pdu_header_size e s) um_header_ok)
    as (enc & -> & Hb & _ & Hbits & Hlen & _); [apply um_header_width | lia |].
  simpl. rewrite Hb, memcpy_Ok by lia. simpl.
  set (hs := compute_pdu_header_size e s) in *.
  exists (take (Z.to_nat hs) (e_buffer enc)). eexists. split; [done |].
  unfold seg_bytes. rewrite Hu.
  assert (L1 : length (take (Z.to_nat hs) (e_buffer enc)) = Z.to_nat hs).
  { rewrite length_take_le; unfold zlen in *; lia. }
  assert (L2 : length (take (Z.to_nat (seg_size s)) (drop (Z.to_nat (seg_so s)) (sdu_data u)))
               = Z.to_nat (seg_size s)).
  { rewrite length_take, length_drop. unfold zlen in *. lia. }
  split_and!.
  - rewrite !zlen_app. unfold zlen in *. rewrite L1, L2, length_drop. lia.
  - unfold zlen. rewrite L1. lia.
  - done.
  - rewrite app_assoc, take_app_length'; [done |]. rewrite length_app, L1, L2. lia.
Qed.
End header.

Definition count_rx (size : Z) (r : nr_rlc_entity_um_t) : nr_rlc_entity_um_t :=
  r <| common ::= λ c, stat rxpdu_bytes size (stat rxpdu_pkts 1 c) |>.

Definition deliver_full (sdu : bytes) (r : nr_rlc_entity_um_t) : nr_rlc_entity_um_t :=
  r <| common ::= λ c, stat64 txsdu_bytes (zlen sdu) (stat txsdu_pkts 1
                         (emit (deliver_sdu sdu (zlen sdu)) c)) |>.

Definition si_value (s : nr_rlc_sdu_segment_t) : Z :=
  2 * (1 - b2z (seg_is_first s)) + (1 - b2z (seg_is_last s)).

Lemma si_value_spec s :
  0 <= si_value s < 2 ^ 2 ∧ (Z.land (si_value s) 2 =? 0) = seg_is_first s ∧
  (Z.land (si_value s) 1 =? 0) = seg_is_last s.
Proof. apply si_bits. Qed.

Lemma um_header_bits snlen n s :
  fields_bits (um_header snlen n s) = bits_of (si_value s) 2 ++
    (if seg_is_first s && seg_is_last s then bits_of 0 6
     else (if snlen =? 12 then bits_of 0 2 else []) ++ bits_of n (Z.to_nat snlen) ++
          (if seg_is_first s then [] else bits_of (seg_so s) 16)).
Proof.
  unfold um_header, si_value.
  destruct (seg_is_first s), (seg_is_last s), (snlen =? 12); simpl;
    rewrite ?fields_bits_cons; unfold fields_bits; simpl; rewrite ?app_nil_r; reflexivity.
Qed.

(** What the receiver does with a PDU [hdr ++ payload] whose header encodes segment [s]. *)
Lemma recv_header e r u s hdr payload :
  um_config e → seg_in u s → sdu_size u <= NR_SDU_MAX → 0 <= sdu_sn u < sn_modulus e →
  sn_field_length r = sn_field_length e → zlen hdr = compute_pdu_header_size e s →
  buf_bits hdr = fields_bits (um_header (sn_field_length e) (sdu_sn u) s) →
  0 < zlen payload →
  let pdu := hdr ++ payload in
  ∃ d, d_byte d = zlen hdr ∧
  nr_rlc_entity_um_recv_pdu r pdu =
    if seg_is_first s && seg_is_last s then Ok (deliver_full payload (count_rx (zlen pdu) r))
    else recv_segment (count_rx (zlen pdu) r) pdu (zlen pdu) (sdu_sn u) (seg_so s)
           (seg_is_first s) (seg_is_last s) d.
Proof.
  intros Hcfg (Hz & H1 & H2 & H3 & Hf & Hl) Hmax Hsn Hlen Hhdr Hbits Hpay pdu.
  assert (Hpdu : zlen pdu = zlen hdr + zlen payload) by apply zlen_app.
  unfold nr_rlc_entity_um_recv_pdu. fold (count_rx (zlen pdu) r).
  set (d0 := nr_rlc_pdu_decoder_init pdu (zlen pdu)).
  assert (Hb0 := dec_bits_init pdu (zlen pdu)). fold d0 in Hb0.
  unfold pdu at 1 in Hb0. rewrite buf_bits_app, Hbits, um_header_bits, <- !app_assoc in Hb0.
  destruct (si_value_spec s) as (Hsi & Hsf & Hsl).
  match goal with |- context [read_bits ?err d0 2 ?k] =>
    destruct (read_bits_step err d0 _ 2 _ k (dec_wf_init pdu) ltac:(lia) Hsi Hb0)
      as (d1 & -> & Hwf1 & Hb1 & Hp1) end.
  rewrite Hsf, Hsl. change (dec_pos d0) with 0 in Hp1.
  change (sn_field_length (count_rx (zlen pdu) r)) with (sn_field_length r). rewrite Hlen.
  unfold compute_pdu_header_size in Hhdr.
  destruct (seg_is_first s && seg_is_last s) eqn:Hfl.
  - exists (mk_decoder false (zlen hdr) 0 pdu 0). split; [done |].
    destruct (seg_is_first s), (seg_is_last s); try done. simpl in Hhdr.
    decide_false (zlen pdu <? 2). rewrite slice_Some by lia. simpl.
    replace (zlen pdu - 1) with (zlen payload) by lia. unfold deliver_full, pdu.
    rewrite Hhdr in *. rewrite drop_app_length' by (unfold zlen in *; lia).
    by rewrite take_zlen.
  - assert (Hsn2 : 0 <= sdu_sn u < 2 ^ sn_field_length e) by (destruct Hcfg as (_ & <- & _); done).
    assert (Hso : 0 <= seg_so s < 2 ^ 16) by (unfold NR_SDU_MAX in *; lia).
    pose proof (um_config_modulus e Hcfg) as Hm. simpl in Hhdr.
    set (K := λ n so d, recv_segment (count_rx (zlen pdu) r) pdu (zlen pdu) n so
                          (seg_is_first s) (seg_is_last s) d).
    assert (Hend : ∀ d', dec_wf d' → dec_pos d' = 8 * zlen hdr → d_byte d' = zlen hdr).
    { unfold dec_wf, dec_pos. intros. lia. }
    destruct (sn_field_length e =? 12) eqn:H12; rewrite <- !app_assoc in Hb1.
    + match goal with |- context [read_bits ?err d1 2 ?k] =>
        destruct (read_bits_step err d1 0 2 _ k Hwf1 ltac:(lia) ltac:(lia) Hb1)
          as (d2 & -> & Hwf2 & Hb2 & Hp2);
        destruct (read_sn_so err _ (sn_field_length e) _ _ d2 _ K Hwf2 ltac:(lia) Hsn2 Hso Hf Hb2)
          as (d & Hwd & _ & Hpd & Heq) end.
      exists d. split; [| exact Heq]. apply Hend; [done |].
      rewrite Hhdr. destruct (seg_is_first s); simpl in *; lia.
    + match goal with |- context [read_bits ?err d1 _ ?k] =>
        destruct (read_sn_so err _ (sn_field_length e) _ _ d1 _ K Hwf1 ltac:(lia) Hsn2 Hso Hf Hb1)
          as (d & Hwd & _ & Hpd & Heq) end.
      exists d. split; [| exact Heq]. apply Hend; [done |].
      rewrite Hhdr. destruct (seg_is_first s); simpl in *; lia.
Qed.

(** ** Transmission-buffer invariant *)

Definition sum_bs (e : nr_rlc_entity_um_t) (l : list nr_rlc_sdu_segment_t) : Z :=
  foldr (λ s acc, compute_pdu_header_size e s + seg_size s + acc) 0 l.

(** The SDUs of the transmission buffer are live and each segment is a range of its SDU; the
    end pointer is right; the buffer status reported to the MAC is the size of the PDUs to
    send; the bytes waiting are covered by [tx_size]. *)
Record um_tx_inv (e : nr_rlc_entity_um_t) : Prop := {
  ti_cfg : um_config e;
  ti_next : 0 <= tx_next e < sn_modulus e;
  ti_heap : heap_safe (mem (common e)) (tx_list e);
  ti_segs : Forall (seg_wf NR_SDU_MAX (mem (common e))) (tx_list e);
  ti_end : end_ok (tx_list e) (tx_end e);
  ti_bs : bs_tx_size (bstatus (common e)) = sum_bs e (tx_list e);
  ti_acc : sum_size (tx_list e) <= tx_size e
}.

(** Exact accounting: no SDU is leaked; [tx_size] is the number of bytes waiting. *)
Definition um_no_leak (e : nr_rlc_entity_um_t) : Prop :=
  heap_exact (mem (common e)) (tx_list e).
Definition um_tx_size_exact (e : nr_rlc_entity_um_t) : Prop :=
  sum_size (tx_list e) = tx_size e.

(** The reception side, for frame conditions. *)
Definition um_rx_state (e : nr_rlc_entity_um_t) :=
  (t_reassembly e, rx_next_highest e, rx_next_reassembly e, rx_timer_trigger e, t_current e,
   t_reassembly_start e, rx_list e, rx_size e, rx_maxsize e).

Definition um_params (e : nr_rlc_entity_um_t) :=
  (sn_field_length e, sn_modulus e, window_size e).

Lemma um_config_params e e' : um_params e' = um_params e → um_config e → um_config e'.
Proof. unfold um_params, um_config. by intros [= -> -> ->]. Qed.

Lemma header_params e e' s : um_params e' = um_params e →
  compute_pdu_header_size e' s = compute_pdu_header_size e s.
Proof. unfold um_params, compute_pdu_header_size. by intros [= -> _ _]. Qed.

Lemma sum_bs_params e e' l : um_params e' = um_params e → sum_bs e' l = sum_bs e l.
Proof.
  intros H. unfold sum_bs. induction l as [| s l IH]; simpl; [done |].
  rewrite IH, (header_params e e') by done. done.
Qed.

(** [pdu] is the PDU of segment [s] (with SDU sequence number [n]). *)
Definition um_pdu_of (e : nr_rlc_entity_um_t) (n : Z) (s : nr_rlc_sdu_segment_t)
    (pdu payload : bytes) : Prop :=
  ∃ hdr, pdu = hdr ++ payload ∧ zlen hdr = compute_pdu_header_size e s ∧
    buf_bits hdr = fields_bits (um_header (sn_field_length e) n s).

Lemma record_wait_frame now a c :
  mem (record_wait now a c) = mem c ∧ bstatus (record_wait now a c) = bstatus c ∧
  avg_time_is_on (record_wait now a c) = avg_time_is_on c.
Proof. unfold record_wait. by destruct (avg_time_is_on c) eqn:E. Qed.

(** The SN of the SDU that follows, once the PDU of segment [s] is sent. *)
Definition next_after (e : nr_rlc_entity_um_t) (s : nr_rlc_sdu_segment_t) : Z :=
  if negb (seg_is_first s) && seg_is_last s
  then Z.rem (tx_next e + 1) (sn_modulus e) else tx_next e.

Lemma emit_tx_pdu_spec e s l u buffer size now_us :
  um_config e → 0 <= tx_next e < sn_modulus e →
  heap_safe (mem (common e)) (s :: l) → sdus (mem (common e)) !! seg_sdu s = Some u →
  seg_in u s → sdu_size u <= NR_SDU_MAX → 0 <= sdu_sn u < sn_modulus e →
  compute_pdu_header_size e s + seg_size s <= size <= zlen buffer →
  ∃ buf e', emit_tx_pdu e s buffer size now_us =
      Ok (compute_pdu_header_size e s + seg_size s, buf, e') ∧
    zlen buf = zlen buffer ∧
    um_pdu_of e (sdu_sn u) s
      (take (Z.to_nat (compute_pdu_header_size e s + seg_size s)) buf)
      (seg_bytes (mem (common e)) s) ∧
    tx_list e' = tx_list e ∧ tx_end e' = tx_end e ∧ tx_size e' = tx_size e - seg_size s ∧
    bstatus (common e') = bstatus (common e) ∧ um_params e' = um_params e ∧
    um_rx_state e' = um_rx_state e ∧ 0 <= tx_next e' < sn_modulus e' ∧
    data_sub (mem (common e')) (mem (common e)) ∧ heap_safe (mem (common e')) l ∧
    (heap_exact (mem (common e)) (s :: l) → heap_exact (mem (common e')) l) ∧
    tx_next e' = next_after e s ∧ tx_maxsize e' = tx_maxsize e.
Proof.
  intros Hcfg Hnext Hsafe Hu Hin Hmax Hsn Hroom. unfold emit_tx_pdu.
  set (e1 := if negb (seg_is_first s) && seg_is_last s then _ else e).
  assert (Hfr : common e1 = common e ∧ um_params e1 = um_params e ∧ tx_list e1 = tx_list e ∧
                tx_end e1 = tx_end e ∧ tx_size e1 = tx_size e ∧
                um_rx_state e1 = um_rx_state e ∧ 0 <= tx_next e1 < sn_modulus e1 ∧
                tx_next e1 = next_after e s ∧ tx_maxsize e1 = tx_maxsize e).
  { subst e1. unfold next_after. destruct (_ && _); [| split_and!; try done; lia].
    split_and!; try done; simpl; apply Z.rem_bound_pos; lia. }
  destruct Hfr as (Hc1 & Hp1 & Hl1 & He1 & Hs1 & Hr1 & Hn1 & Hx1 & Hmx1).
  assert (Hcfg1 := um_config_params _ _ Hp1 Hcfg).
  destruct (serialize_spec e1 u s Hcfg1 Hin Hmax) with (buffer := buffer) (bufsize := size)
    as (hdr & buf & Heq & Hlb & Hlh & Hbits & Htake).
  { unfold um_params in Hp1. congruence. }
  { by rewrite Hc1. }
  { by rewrite (header_params e e1). }
  rewrite (header_params e e1 s Hp1) in *. rewrite Heq. simpl.
  rewrite Hc1. unfold get_sdu. rewrite Hu. simpl.
  destruct (record_wait_frame now_us (time_of_arrival u)
              (stat txpdu_bytes size (stat txpdu_pkts 1 (common e)))) as (Hm & Hb & _).
  rewrite Hm. simpl (mem _).
  destruct (free_segment_safe _ _ _ Hsafe) as (b & h' & Hfree & Hs' & _ & He').
  rewrite Hfree. simpl. eexists _, _. split; [done |]. simpl.
  clearbody e1. split_and!; try done; try lia.
  - exists hdr. rewrite Htake, Hc1. unfold um_params in Hp1.
    split_and!; [done | done |]. congruence.
  - rewrite Hc1, Hb. done.
  - by eapply data_sub_free.
  - intros He. by apply He'.
Qed.

(** Cutting a segment to fit a PDU of [pdu_size] bytes. *)
Lemma resegment_spec s e pdu_size h' :
  upd_sdu (mem (common e)) (seg_sdu s) (λ u, u <| ref_count ::= Z.succ |>) = Ok h' →
  let hs := compute_pdu_header_size e (s <| seg_is_last := false |>) in
  let k := pdu_size - hs in
  resegment s e pdu_size =
    if pdu_size <? hs + 1 then Ok (e <| common ::= λ c, c <| mem := h' |> |>, s, None)
    else Ok (e <| common ::= λ c, stat txpdu_segmented 1
                     (c <| mem := h' <| next_addr ::= S |> |>) |>,
             cut_head s k, Some (cut_tail s k (next_addr h'))).
Proof.
  intros Hu hs k. unfold resegment. rewrite Hu. simpl.
  change (compute_pdu_header_size (e <| common ::= _ |>) ?x) with (compute_pdu_header_size e x).
  fold hs. destruct (pdu_size <? hs + 1); [done |].
  unfold cut_head, cut_tail, modify_field. simpl.
  replace (seg_size s - (hs + seg_size s - pdu_size)) with k by (subst k; lia).
  replace (hs + seg_size s - pdu_size) with (seg_size s - k) by (subst k; lia). done.
Qed.

(** The only case where [generate_tx_pdu] drops its SDU: a 12-bit SN, an SDU not yet segmented
    of at least two bytes, and room for exactly two bytes.  The header of the whole SDU (one
    byte) fits with one data byte, but not the two-byte header of a first segment. *)
Definition um_lossy (e : nr_rlc_entity_um_t) (size : Z) : bool :=
  match tx_list e with
  | s :: _ => seg_is_first s && seg_is_last s && (sn_field_length e =? 12) && (size =? 2)
              && (2 <=? seg_size s)
  | [] => false
  end.

Lemma header_cases e s : um_config e →
  compute_pdu_header_size e s =
    if seg_is_first s then
      if seg_is_last s then 1 else (if sn_field_length e =? 12 then 2 else 1)
    else (if sn_field_length e =? 12 then 4 else 3).
Proof.
  intros Hc. unfold compute_pdu_header_size.
  destruct (seg_is_first s), (seg_is_last s); simpl;
    destruct (sn_field_length e =? 12); done.
Qed.

Lemma pending_cons h s l : pending h (s :: l) = seg_bytes h s ++ pending h l.
Proof. done. Qed.

(** The state in which the PDU of the head segment is built: head removed, SN assigned,
    buffer status decreased. *)
Definition um_popped (e : nr_rlc_entity_um_t) (s : nr_rlc_sdu_segment_t)
    (l : list nr_rlc_sdu_segment_t) (h : sdu_heap) : nr_rlc_entity_um_t :=
  let e1 := e <| tx_list := l |> in
  let e1 := match l with [] => e1 <| tx_end := None |> | _ => e1 end in
  e1 <| common ::= λ c, c <| mem := h |> |>
     <| common ::= add_bs_tx (- (compute_pdu_header_size e s + seg_size s)) |>.

Lemma um_popped_frame e s l h :
  let e1 := um_popped e s l h in
  tx_list e1 = l ∧ tx_end e1 = (match l with [] => None | _ => tx_end e end) ∧
  tx_size e1 = tx_size e ∧ tx_next e1 = tx_next e ∧ mem (common e1) = h ∧
  um_params e1 = um_params e ∧ um_rx_state e1 = um_rx_state e ∧
  bs_tx_size (bstatus (common e1)) =
    bs_tx_size (bstatus (common e)) - (compute_pdu_header_size e s + seg_size s) ∧
  tx_maxsize e1 = tx_maxsize e.
Proof. unfold um_popped. destruct l; simpl; split_and!; try done; lia. Qed.

(** The tail of a cut segment goes back to the head of the transmission list. *)
Definition put_back (e : nr_rlc_entity_um_t) (next : nr_rlc_sdu_segment_t)
    : nr_rlc_entity_um_t :=
  let e := e <| tx_list ::= cons next |> in
  let e := match tx_end e with None => e <| tx_end := Some (seg_addr next) |>
                             | Some _ => e end in
  e <| common ::= λ c, add_bs_tx (compute_pdu_header_size e next + seg_size next)
                         (stat txpdu_segmented 1 c) |>.

Lemma put_back_frame e next :
  let e1 := put_back e next in
  tx_list e1 = next :: tx_list e ∧
  tx_end e1 = (match tx_end e with None => Some (seg_addr next) | x => x end) ∧
  tx_size e1 = tx_size e ∧ tx_next e1 = tx_next e ∧ mem (common e1) = mem (common e) ∧
  um_params e1 = um_params e ∧ um_rx_state e1 = um_rx_state e ∧
  bs_tx_size (bstatus (common e1)) =
    compute_pdu_header_size e next + seg_size next + bs_tx_size (bstatus (common e)) ∧
  tx_maxsize e1 = tx_maxsize e.
Proof. unfold put_back; simpl. by destruct (tx_end e) eqn:E; simpl; rewrite ?E. Qed.

Lemma generate_head e s l buffer size now_us u :
  tx_list e = s :: l → sdus (mem (common e)) !! seg_sdu s = Some u →
  compute_pdu_header_size e s + 1 <= size →
  let h := mk_heap (<[seg_sdu s := u <| sdu_sn := tx_next e |>]> (sdus (mem (common e))))
                   (next_addr (mem (common e))) in
  let e1 := um_popped e s l h in
  generate_tx_pdu e buffer size now_us =
    if size <? compute_pdu_header_size e s + seg_size s then
      '(e, s, next) ← resegment s e1 size;
      match next with
      | None => Ok (0, buffer, e)
      | Some next => emit_tx_pdu (put_back e next) s buffer size now_us
      end
    else emit_tx_pdu e1 s buffer size now_us.
Proof.
  intros Hl Hu Hroom h e1. unfold generate_tx_pdu. rewrite Hl.
  decide_false (size <? compute_pdu_header_size e s + 1).
  subst e1 h. unfold um_popped, upd_sdu, get_sdu. destruct l; simpl; rewrite Hu; done.
Qed.

(** How the transmission list [e_list] changes when segment [x] is sent: its head [s] is sent
    whole, or its first bytes are and the rest stays at the head of the list. *)
Definition sent_head (h : sdu_heap) (e_list : list nr_rlc_sdu_segment_t)
    (x : nr_rlc_sdu_segment_t) (ux : nr_rlc_sdu_t) (rest : list nr_rlc_sdu_segment_t) : Prop :=
  ∃ s u l, e_list = s :: l ∧ sdus h !! seg_sdu s = Some u ∧ sdu_data ux = sdu_data u ∧
    seg_so x = seg_so s ∧
    ((seg_size x = seg_size s ∧ rest = l) ∨
     (0 < seg_size x < seg_size s ∧ ∃ a, rest = cut_tail s (seg_size x) a :: l)).

(** What a successful call returns; [payload] are the SDU bytes carried by the PDU. *)
Definition tx_result (e : nr_rlc_entity_um_t) (buffer : bytes) (size : Z)
    (ret : Z) (buf : bytes) (e' : nr_rlc_entity_um_t) (payload : bytes) : Prop :=
  um_tx_inv e' ∧ (um_no_leak e → um_no_leak e') ∧
  (um_tx_size_exact e → um_tx_size_exact e') ∧
  um_rx_state e' = um_rx_state e ∧ um_params e' = um_params e ∧
  pending (mem (common e)) (tx_list e) = payload ++ pending (mem (common e')) (tx_list e') ∧
  0 < ret <= size ∧ zlen buf = zlen buffer ∧
  ∃ s u, um_pdu_of e (sdu_sn u) s (take (Z.to_nat ret) buf) payload ∧
    seg_in u s ∧ sdu_size u <= NR_SDU_MAX ∧ sdu_sn u = tx_next e ∧
    ret = compute_pdu_header_size e s + zlen payload ∧ 0 <= zlen payload ∧
    payload = take (Z.to_nat (seg_size s)) (drop (Z.to_nat (seg_so s)) (sdu_data u)) ∧
    seg_size s = zlen payload ∧ tx_next e' = next_after e s ∧ tx_maxsize e' = tx_maxsize e ∧
    tx_size e' = tx_size e - zlen payload ∧
    data_sub (mem (common e')) (mem (common e)) ∧
    sent_head (mem (common e)) (tx_list e) s u (tx_list e').

Section generate.
Context (e : nr_rlc_entity_um_t) (s : nr_rlc_sdu_segment_t) (l : list nr_rlc_sdu_segment_t).
Context (u : nr_rlc_sdu_t) (buffer : bytes) (size now_us : Z).
Context (Hinv : um_tx_inv e) (Hl : tx_list e = s :: l) (Hsize : size <= zlen buffer).
Context (Hu : sdus (mem (common e)) !! seg_sdu s = Some u) (Hin : seg_in u s).
Context (Hmax : sdu_size u <= NR_SDU_MAX) (Hwf : Forall (seg_wf NR_SDU_MAX (mem (common e))) l).

Let h := mk_heap (<[seg_sdu s := u <| sdu_sn := tx_next e |>]> (sdus (mem (common e))))
                 (next_addr (mem (common e))).
Let e1 := um_popped e s l h.

Lemma set_sn_heap :
  heap_safe h (s :: l) ∧ (heap_exact (mem (common e)) (s :: l) → heap_exact h (s :: l)) ∧
  data_sub h (mem (common e)) ∧ (∀ x, x ∈ s :: l → is_Some (sdus h !! seg_sdu x)).
Proof.
  destruct Hinv as [_ _ Hheap _ _ _ _]. rewrite Hl in Hheap.
  pose (f := λ u : nr_rlc_sdu_t, u <| sdu_sn := tx_next e |>).
  assert (Hupd : upd_sdu (mem (common e)) (seg_sdu s) f = Ok h) by by apply upd_sdu_Ok.
  destruct (heap_safe_upd (mem (common e)) (s :: l) (seg_sdu s) f h) as (Hs & He & _);
    [done.. |].
  split_and!; try done; [| apply (hs_live _ _ Hs)].
  by apply (data_sub_upd (mem (common e)) (seg_sdu s) f h).
Qed.

Lemma emit_head (e2 : nr_rlc_entity_um_t) (x : nr_rlc_sdu_segment_t) ux rest :
  um_params e2 = um_params e → um_rx_state e2 = um_rx_state e → tx_next e2 = tx_next e →
  tx_list e2 = rest → heap_safe (mem (common e2)) (x :: rest) →
  end_ok rest (tx_end e2) → Forall (seg_wf NR_SDU_MAX (mem (common e2))) rest →
  bs_tx_size (bstatus (common e2)) = sum_bs e rest →
  sum_size (x :: rest) <= tx_size e2 →
  sdus (mem (common e2)) !! seg_sdu x = Some ux → seg_in ux x → sdu_size ux <= NR_SDU_MAX →
  sdu_sn ux = tx_next e → compute_pdu_header_size e x + seg_size x <= size →
  pending (mem (common e)) (s :: l) = seg_bytes (mem (common e2)) x ++
    pending (mem (common e2)) rest →
  (um_no_leak e → heap_exact (mem (common e2)) (x :: rest)) →
  (um_tx_size_exact e → sum_size (x :: rest) = tx_size e2) →
  tx_size e2 = tx_size e → tx_maxsize e2 = tx_maxsize e →
  data_sub (mem (common e2)) (mem (common e)) →
  sent_head (mem (common e)) (tx_list e) x ux rest →
  ∃ ret buf e' payload, emit_tx_pdu e2 x buffer size now_us = Ok (ret, buf, e') ∧
    tx_result e buffer size ret buf e' payload.
Proof.
  intros Hp Hr Hn Hl2 Hs2 Hend Hwf2 Hbs Hacc Hux Hinx Hmx Hsn Hroom Hpend Hex Hsz'
    Hszx Hmxs Hsubx Hhead.
  destruct Hinv as [Hcfg Hnext _ _ _ _ _].
  assert (Hpm : sn_modulus e2 = sn_modulus e ∧ sn_field_length e2 = sn_field_length e)
    by (unfold um_params in Hp; split; congruence).
  destruct Hpm as [Hm Hsnl].
  destruct (emit_tx_pdu_spec e2 x rest ux buffer size now_us)
    as (buf & e' & Heq & Hlb & Hpdu & Htl & Hte & Hts & Hbst & Hpar & Hrx & Hnx & Hsub & Hsafe & Hexact & Hna & Hmxa);
    try done; try (rewrite ?Hm, ?Hn, ?Hsn, ?(header_params e e2); done || lia).
  { by eapply um_config_params. }
  rewrite (header_params e e2 x Hp) in *.
  pose proof Hinx as (_ & _ & Hsz & _ & _ & _).
  assert (Hzl : zlen (seg_bytes (mem (common e2)) x) = seg_size x).
  { eapply (zlen_seg_bytes NR_SDU_MAX). exists ux. done. }
  exists (compute_pdu_header_size e x + seg_size x), buf, e', (seg_bytes (mem (common e2)) x).
  split; [done |].
  destruct (segs_wf_sub NR_SDU_MAX (mem (common e2)) (mem (common e')) rest Hsub) as [Hwf' Hp'];
    [intros; by eapply hs_live | done |].
  assert (Hhp : 0 < compute_pdu_header_size e x).
  { rewrite header_cases by done. repeat case_match; lia. }
  assert (Hp'' : um_params e' = um_params e) by congruence.
  split_and!; try done; try lia; try congruence.
  - constructor; rewrite ?Htl, ?Hl2, ?Hte, ?Hts, ?Hbst, ?(sum_bs_params e e') by done; try done.
    + by eapply um_config_params.
    + simpl in Hacc. lia.
  - intros Hex0. unfold um_no_leak. rewrite Htl, Hl2. by apply Hexact, Hex.
  - intros Hex0. unfold um_tx_size_exact. rewrite Htl, Hl2, Hts. specialize (Hsz' Hex0).
    simpl in Hsz'. lia.
  - exists x, ux. split_and!; try done; try lia.
    destruct Hpdu as (hdr & Ha & Hb & Hc). exists hdr.
    rewrite (header_params e e2 x Hp), Hsnl in *. done.
    all: try (unfold seg_bytes; by rewrite Hux). all: try congruence.
    + rewrite Hna. unfold next_after. by rewrite Hn, Hm.
    + by etrans.
Qed.

Lemma um_inv_head :
  end_ok (s :: l) (tx_end e) ∧ sum_size (s :: l) <= tx_size e ∧
  bs_tx_size (bstatus (common e)) = compute_pdu_header_size e s + seg_size s + sum_bs e l ∧
  (um_no_leak e → heap_exact (mem (common e)) (s :: l)) ∧
  (um_tx_size_exact e → sum_size (s :: l) = tx_size e).
Proof.
  destruct Hinv as [_ _ _ _ He Hb Ha]. unfold um_no_leak, um_tx_size_exact. rewrite Hl in *.
  split_and!; try done; simpl in Hb; lia.
Qed.

(** The head fits: its PDU is sent and it leaves the list. *)
Lemma generate_whole :
  compute_pdu_header_size e s + 1 <= size →
  compute_pdu_header_size e s + seg_size s <= size →
  ∃ ret buf e' payload, generate_tx_pdu e buffer size now_us = Ok (ret, buf, e') ∧
    tx_result e buffer size ret buf e' payload.
Proof.
  intros Hr Hfit. rewrite (generate_head e s l buffer size now_us u Hl Hu Hr).
  decide_false (size <? compute_pdu_header_size e s + seg_size s). fold h. fold e1.
  destruct (um_popped_frame e s l h) as (F1 & F2 & F3 & F4 & F5 & F6 & F7 & F8 & F9).
  fold e1 in F1, F2, F3, F4, F5, F6, F7, F8, F9.
  destruct set_sn_heap as (Hs & Hex & Hsub & Hlive).
  destruct um_inv_head as (Hend & Hacc & Hbs & Hleak & Hexact).
  destruct (segs_wf_sub NR_SDU_MAX (mem (common e)) h l Hsub) as [Hwf' Hp'];
    [intros; apply Hlive; by right | done |].
  assert (Hux : sdus h !! seg_sdu s = Some (u <| sdu_sn := tx_next e |>)) by apply lookup_insert_eq.
  apply (emit_head e1 s (u <| sdu_sn := tx_next e |>) l); rewrite ?F1, ?F2, ?F3, ?F4, ?F5, ?F6, ?F7, ?F8; try done.
  - by eapply end_ok_tail.
  - lia.
  - rewrite pending_cons, Hp'. f_equal. unfold seg_bytes. by rewrite Hu, Hux.
  - intros Hx. by apply Hex, Hleak.
  - exists s, u, l. split_and!; try done. left; done.
Qed.

(** The head does not fit: it is cut and its tail put back at the head of the list. *)
Lemma generate_cut :
  let hs := compute_pdu_header_size e (s <| seg_is_last := false |>) in
  compute_pdu_header_size e s + 1 <= size → hs + 1 <= size →
  size < compute_pdu_header_size e s + seg_size s →
  ∃ ret buf e' payload, generate_tx_pdu e buffer size now_us = Ok (ret, buf, e') ∧
    tx_result e buffer size ret buf e' payload.
Proof.
  intros hs Hr Hr2 Hfit. rewrite (generate_head e s l buffer size now_us u Hl Hu Hr).
  decide_true (size <? compute_pdu_header_size e s + seg_size s). fold h. fold e1.
  destruct (um_popped_frame e s l h) as (F1 & F2 & F3 & F4 & F5 & F6 & F7 & F8 & F9).
  fold e1 in F1, F2, F3, F4, F5, F6, F7, F8, F9.
  destruct set_sn_heap as (Hs & Hex & Hsub & Hlive).
  destruct um_inv_head as (Hend & Hacc & Hbs & Hleak & Hexact).
  pose (u1 := u <| sdu_sn := tx_next e |>).
  assert (Hux : sdus h !! seg_sdu s = Some u1) by apply lookup_insert_eq.
  pose (f := λ u : nr_rlc_sdu_t, u <| ref_count ::= Z.succ |>).
  pose (h2 := mk_heap (<[seg_sdu s := f u1]> (sdus h)) (next_addr h)).
  assert (Hupd : upd_sdu (mem (common e1)) (seg_sdu s) f = Ok h2)
    by (rewrite F5; by apply upd_sdu_Ok).
  rewrite (resegment_spec s e1 size h2 Hupd).
  rewrite (header_params e e1) by done. fold hs. decide_false (size <? hs + 1). simpl.
  set (k := size - hs).
  assert (Hk : 0 < k < seg_size s).
  { subst k hs. destruct Hinv as [Hcfg _ _ _ _ _ _]. rewrite !header_cases in * by done.
    simpl in *. destruct (seg_is_first s), (seg_is_last s), (sn_field_length e =? 12); lia. }
  rewrite F5 in Hupd. destruct (heap_safe_split h s l h2 k Hs Hupd) as [Hs3 Hex3].
  assert (Hsub2 : data_sub (h2 <| next_addr ::= S |>) h).
  { assert (H0 : data_sub h2 h) by by apply (data_sub_upd h (seg_sdu s) f h2). exact H0. }
  assert (Hw : seg_wf NR_SDU_MAX (mem (common e)) s) by (exists u; done).
  destruct (cut_wf NR_SDU_MAX (mem (common e)) s k (next_addr h2) Hk Hw) as (Wh & Wt & Hcat).
  set (tl := cut_tail s k (next_addr h2)) in *. set (hd := cut_head s k) in *.
  assert (Hsub3 : data_sub (h2 <| next_addr ::= S |>) (mem (common e))) by (by etrans).
  pose proof (hs_live _ _ Hs3) as Hlive3.
  destruct (seg_wf_sub NR_SDU_MAX _ _ hd Hsub3) as [(ux & Hu3 & Hin3 & Hm3) Hbh];
    [apply Hlive3; left | done |].
  destruct (segs_wf_sub NR_SDU_MAX _ _ (tl :: l) Hsub3) as [Hwf3 Hp3];
    [intros; apply Hlive3; by right | by constructor |].
  assert (Hhs : compute_pdu_header_size e hd = hs) by done.
  assert (Hsnx : sdu_sn ux = tx_next e ∧ sdu_data ux = sdu_data u).
  { change (sdus (h2 <| next_addr ::= S |>)) with (sdus h2) in Hu3. simpl in Hu3.
    rewrite lookup_insert_eq in Hu3. by simplify_eq. }
  destruct Hsnx as [Hsnx Hdx].
  match goal with |- context [put_back ?x ?t] => set (e2 := x); change t with tl end.
  destruct (put_back_frame e2 tl) as (G1 & G2 & G3 & G4 & G5 & G6 & G7 & G8 & G9).
  change (tx_list e2) with (tx_list e1) in G1. change (tx_end e2) with (tx_end e1) in G2.
  change (tx_size e2) with (tx_size e1) in G3. change (tx_next e2) with (tx_next e1) in G4.
  change (mem (common e2)) with (h2 <| next_addr ::= S |>) in G5.
  change (bstatus (common e2)) with (bstatus (common e1)) in G8.
  change (um_params e2) with (um_params e1) in G6.
  change (um_rx_state e2) with (um_rx_state e1) in G7.
  change (tx_maxsize e2) with (tx_maxsize e1) in G9.
  rewrite F1 in G1. rewrite F2 in G2.
  assert (Hend' : end_ok (tl :: l) (tx_end (put_back e2 tl))).
  { rewrite G2. apply (end_ok_replace s tl) in Hend. destruct l as [| y l']; [done |].
    destruct (tx_end e); [done |]. unfold end_ok in Hend.
    destruct (last (tl :: y :: l')) eqn:E; [done | by apply last_None in E]. }
  apply (emit_head _ hd ux (tl :: l)); rewrite ?G3, ?G4, ?G5, ?G6, ?G7, ?G8; try done; try congruence.
  - rewrite (header_params e e2), F8 by done. simpl. lia.
  - rewrite F3. subst hd tl. simpl in *. lia.
  - rewrite Hhs. subst hd k. simpl. lia.
  - rewrite Hbh, Hp3, !pending_cons, Hcat. by rewrite <- app_assoc.
  - intros Hx. by apply Hex3, Hex, Hleak.
  - intros Hx. specialize (Hexact Hx). rewrite F3. subst hd tl. simpl in *. lia.
  - exists s, u, l. split_and!; try done. right. split; [exact Hk | by eexists].
Qed.
End generate.

Lemma generate_spec e buffer size now_us :
  um_tx_inv e → size <= zlen buffer → um_lossy e size = false →
  (generate_tx_pdu e buffer size now_us = Ok (0, buffer, e) ∧
   match tx_list e with [] => True | s :: _ => size < compute_pdu_header_size e s + 1 end) ∨
  (∃ ret buf e' payload, generate_tx_pdu e buffer size now_us = Ok (ret, buf, e') ∧
     tx_result e buffer size ret buf e' payload).
Proof.
  intros Hinv Hsize Hloss. destruct (tx_list e) as [| s l] eqn:Hl.
  { left. unfold generate_tx_pdu. by rewrite Hl. }
  destruct (Z.ltb_spec size (compute_pdu_header_size e s + 1)) as [Hlt | Hge].
  { left. split; [| done]. unfold generate_tx_pdu. rewrite Hl.
    by decide_true (size <? compute_pdu_header_size e s + 1). }
  right. pose proof (ti_segs e Hinv) as Hwf. rewrite Hl in Hwf.
  inversion_clear Hwf as [| ? ? (u & Hu & Hin & Hmax) Hwf'].
  destruct (Z.leb_spec (compute_pdu_header_size e s + seg_size s) size) as [Hfit | Hcut].
  - by eapply generate_whole.
  - eapply generate_cut; try done. unfold um_lossy in Hloss. rewrite Hl in Hloss.
    pose proof (ti_cfg e Hinv) as Hcfg. rewrite !header_cases in * by done. simpl in *.
    destruct (seg_is_first s), (seg_is_last s), (sn_field_length e =? 12); simpl in *; lia.
Qed.

(** ** SDU reception *)

Lemma sum_bs_app e l k : sum_bs e (l ++ k) = sum_bs e l + sum_bs e k.
Proof. unfold sum_bs. induction l; simpl; lia. Qed.

Lemma sum_size_app l k : sum_size (l ++ k) = sum_size l + sum_size k.
Proof. unfold sum_size. induction l; simpl; lia. Qed.

Lemma sum_size_nonneg max h l : Forall (seg_wf max h) l → 0 <= sum_size l.
Proof.
  induction 1 as [| s l (u & _ & (_ & _ & H & _) & _) _ IH]; simpl; [done | lia].
Qed.

Lemma pending_app h l k : pending h (l ++ k) = pending h l ++ pending h k.
Proof. unfold pending. by rewrite bind_app. Qed.

(** What [recv_sdu] changes besides the transmission buffer: counters and the log throttle. *)
Definition um_same_tx (e e' : nr_rlc_entity_um_t) : Prop :=
  um_params e' = um_params e ∧ um_rx_state e' = um_rx_state e ∧ tx_list e' = tx_list e ∧
  tx_end e' = tx_end e ∧ tx_size e' = tx_size e ∧ tx_next e' = tx_next e ∧
  tx_maxsize e' = tx_maxsize e ∧ mem (common e') = mem (common e) ∧
  bstatus (common e') = bstatus (common e) ∧ out (common e') = out (common e).

Lemma um_same_tx_inv e e' : um_same_tx e e' → um_tx_inv e →
  um_tx_inv e' ∧ (um_no_leak e → um_no_leak e') ∧ (um_tx_size_exact e → um_tx_size_exact e').
Proof.
  intros (Hp & _ & Hl & He & Hs & Hn & _ & Hm & Hb & _) [H1 H2 H3 H4 H5 H6 H7].
  assert (Hmod : sn_modulus e' = sn_modulus e) by (unfold um_params in Hp; congruence).
  split; [| unfold um_no_leak, um_tx_size_exact; by rewrite Hl, Hs, Hm].
  constructor; rewrite ?Hl, ?He, ?Hs, ?Hn, ?Hm, ?Hb, ?Hmod, ?(sum_bs_params e e') by done; try done.
  by eapply um_config_params.
Qed.

Lemma log_rejected_same e : um_same_tx e (log_rejected e).
Proof. unfold log_rejected. destruct (_ && _); done. Qed.

(** Appending one whole SDU to the transmission buffer. *)
Section append.
Context (e e' : nr_rlc_entity_um_t) (buffer : bytes) (id : Z) (u : nr_rlc_sdu_t).
Let h := mem (common e).
Let s := mk_segment (S (next_addr h)) (next_addr h) (zlen buffer) 0 true true.
Context (Hinv : um_tx_inv e) (Hsize : zlen buffer <= NR_SDU_MAX).
Context (Hu : ref_count u = 1 ∧ free_count u = 0 ∧ sdu_data u = buffer ∧ sdu_size u = zlen buffer).
Context (Hp : um_params e' = um_params e) (Hn : tx_next e' = tx_next e).
Context (Hl : tx_list e' = tx_list e ++ [s]) (He : tx_end e' = Some (seg_addr s)).
Context (Hs : tx_size e' = zlen buffer + tx_size e).
Context (Hm : mem (common e') = mk_heap (<[next_addr h := u]> (sdus h)) (S (S (next_addr h)))).
Context (Hb : bs_tx_size (bstatus (common e')) =
              compute_pdu_header_size e s + zlen buffer + bs_tx_size (bstatus (common e))).

Lemma append_seg_wf : seg_wf NR_SDU_MAX (mem (common e')) s.
Proof using Hsize Hu Hm.
  exists u. rewrite Hm. simpl. rewrite lookup_insert_eq. destruct Hu as (_ & _ & Hd & Hz).
  unfold seg_in. rewrite Hd, Hz. simpl. pose proof (zlen_nonneg buffer).
  split_and!; try done; try lia; symmetry; apply Z.eqb_refl.
Qed.

Lemma append_data l : Forall (seg_wf NR_SDU_MAX h) l →
  Forall (seg_wf NR_SDU_MAX (mem (common e'))) l ∧ pending (mem (common e')) l = pending h l.
Proof using Hinv Hm.
  rewrite Hm. induction 1 as [| x l (v & Hv & Hin & Hmax) Hl' IH]; [done |].
  destruct IH as [IH1 IH2].
  assert (Hv' : sdus (mk_heap (<[next_addr h := u]> (sdus h)) (S (S (next_addr h)))) !! seg_sdu x
                = Some v).
  { simpl. rewrite lookup_insert_ne; [done |]. intros E.
    pose proof (hs_fresh _ _ (ti_heap e Hinv) (seg_sdu x)) as Hf. fold h in Hf.
    rewrite Hv in Hf. specialize (Hf ltac:(eauto)). lia. }
  split; [constructor; [exists v; done | done] |].
  rewrite !pending_cons, IH2. unfold seg_bytes. by rewrite Hv', Hv.
Qed.

Lemma append_inv :
  um_tx_inv e' ∧ (um_no_leak e → um_no_leak e') ∧
  (um_tx_size_exact e → um_tx_size_exact e') ∧
  pending (mem (common e')) (tx_list e') = pending h (tx_list e) ++ buffer.
Proof.
  destruct Hinv as [H1 H2 H3 H4 H5 H6 H7]. fold h in H3, H4.
  destruct Hu as (Hr & Hf & Hd & Hz). destruct (append_data _ H4) as [Hwf Hpend].
  destruct (new_sdu_safe h (tx_list e) u Hr Hf H3 s eq_refl eq_refl) as [Hsafe Hexact].
  assert (Hperm : s :: tx_list e ≡ₚ tx_list e ++ [s]) by apply Permutation_cons_append.
  pose proof append_seg_wf as Hws. rewrite <- Hm in Hsafe, Hexact.
  split_and!.
  - constructor; rewrite ?Hl, ?He, ?Hs, ?Hn, ?(sum_bs_params e e') by done.
    + by eapply um_config_params.
    + unfold um_params in Hp. assert (sn_modulus e' = sn_modulus e) as -> by congruence. done.
    + by eapply heap_safe_perm.
    + apply Forall_app; split; [done | by constructor].
    + apply end_ok_snoc.
    + rewrite sum_bs_app, Hb, H6. simpl. lia.
    + rewrite sum_size_app. simpl. lia.
  - intros Hx. unfold um_no_leak. rewrite Hl.
    eapply heap_exact_perm; [done |]. by apply Hexact.
  - unfold um_tx_size_exact. intros Hx. rewrite Hl, Hs, sum_size_app. simpl. lia.
  - rewrite Hl, pending_app, Hpend. f_equal. rewrite pending_cons. unfold seg_bytes.
    rewrite Hm. simpl. rewrite lookup_insert_eq, Hd, drop_0, take_zlen. by rewrite app_nil_r.
Qed.
End append.

(** [e'] is [e] with the whole SDU [buffer] appended to the transmission list. *)
Definition appended (e e' : nr_rlc_entity_um_t) (buffer : bytes) : Prop :=
  tx_next e' = tx_next e ∧ tx_maxsize e' = tx_maxsize e ∧ ∃ s u,
    tx_list e' = tx_list e ++ [s] ∧ seg_so s = 0 ∧ seg_size s = zlen buffer ∧
    sdu_data u = buffer ∧ sdus (mem (common e)) !! seg_sdu s = None ∧
    sdus (mem (common e')) = <[seg_sdu s := u]> (sdus (mem (common e))).

Lemma recv_sdu_accept e buffer id now_us :
  um_tx_inv e → zlen buffer <= NR_SDU_MAX → tx_size e + zlen buffer <= tx_maxsize e →
  ∃ e', nr_rlc_entity_um_recv_sdu e buffer id now_us = Ok e' ∧ um_tx_inv e' ∧
    (um_no_leak e → um_no_leak e') ∧ (um_tx_size_exact e → um_tx_size_exact e') ∧
    um_rx_state e' = um_rx_state e ∧ um_params e' = um_params e ∧ tx_size e' = zlen buffer + tx_size e ∧
    pending (mem (common e')) (tx_list e') = pending (mem (common e)) (tx_list e) ++ buffer ∧
    appended e e' buffer.
Proof.
  intros Hinv Hsize Hroom. unfold nr_rlc_entity_um_recv_sdu.
  decide_false (NR_SDU_MAX <? zlen buffer).
  set (e0 := e <| common ::= _ |>).
  pose proof (log_rejected_same e0) as (Hp & Hr & Hl & He & Hs & Hn & Hmx & Hm & Hb & _).
  rewrite Hs, Hmx. change (tx_size e0) with (tx_size e). change (tx_maxsize e0) with (tx_maxsize e).
  decide_false (tx_maxsize e <? tx_size e + zlen buffer).
  simpl (mem _). rewrite Hm. change (mem (common e0)) with (mem (common e)). rewrite new_sdu_ok. simpl.
  rewrite Hl, He, list_append_ok; [| exact (ti_end e Hinv) | exact (hs_nodup _ _ (ti_heap e Hinv))].
  simpl. change (bstatus (common e0)) with (bstatus (common e)) in Hb.
  change (um_params e0) with (um_params e) in Hp. change (um_rx_state e0) with (um_rx_state e) in Hr.
  change (tx_size e0) with (tx_size e) in Hs. change (tx_next e0) with (tx_next e) in Hn.
  set (s := mk_segment _ _ _ _ _ _).
  assert (Hhdr : ∀ x, compute_pdu_header_size (log_rejected e0) x = compute_pdu_header_size e x)
    by (intros; by apply header_params).
  assert (Hfree : sdus (mem (common e)) !! seg_sdu s = None).
  { apply eq_None_not_Some. intros Hx. pose proof (hs_fresh _ _ (ti_heap e Hinv) _ Hx) as Hf.
    simpl in Hf. lia. }
  destruct (avg_time_is_on _).
  - unfold upd_sdu, get_sdu. simpl. rewrite lookup_insert_eq. simpl.
    rewrite insert_insert_eq. eexists. split; [done |].
    match goal with |- um_tx_inv ?x ∧ _ =>
      destruct (append_inv e x buffer (mk_sdu (-1) id buffer (zlen buffer) (-1) 1 0 now_us)) as (I1 & I2 & I3 & I4) end;
      simpl; rewrite ?Hs, ?Hl, ?Hb; try done.
    split_and!; try done. split; [done | split; [done |]]. by exists s, (mk_sdu (-1) id buffer (zlen buffer) (-1) 1 0 now_us).
  - eexists. split; [done |].
    match goal with |- um_tx_inv ?x ∧ _ =>
      destruct (append_inv e x buffer (mk_sdu (-1) id buffer (zlen buffer) (-1) 1 0 0)) as (I1 & I2 & I3 & I4) end;
      simpl; rewrite ?Hs, ?Hl, ?Hb; try done.
    split_and!; try done. split; [done | split; [done |]]. by exists s, (mk_sdu (-1) id buffer (zlen buffer) (-1) 1 0 0).
Qed.


Lemma recv_sdu_reject e buffer id now_us :
  zlen buffer <= NR_SDU_MAX → tx_maxsize e < tx_size e + zlen buffer →
  ∃ e', nr_rlc_entity_um_recv_sdu e buffer id now_us = Ok e' ∧ um_same_tx e e'.
Proof.
  intros Hsize Hroom. unfold nr_rlc_entity_um_recv_sdu.
  decide_false (NR_SDU_MAX <? zlen buffer).
  set (e0 := e <| common ::= _ |>).
  pose proof (log_rejected_same e0) as Hsame.
  pose proof Hsame as (_ & _ & _ & _ & Hs & _ & Hmx & _).
  rewrite Hs, Hmx. change (tx_size e0) with (tx_size e). change (tx_maxsize e0) with (tx_maxsize e).
  decide_true (tx_maxsize e <? tx_size e + zlen buffer). eexists. split; [done |]. exact Hsame.
Qed.

(** ** Discarding an SDU *)

Lemma find_sdu_spec h l id : (∀ s, s ∈ l → is_Some (sdus h !! seg_sdu s)) →
  ∃ pre post, find_sdu h l id = Ok (pre, post) ∧ l = pre ++ post ∧
    match post with
    | [] => True
    | s :: _ => ∃ u, sdus h !! seg_sdu s = Some u ∧ upper_layer_id u = id
    end ∧
    Forall (λ s, ∀ u, sdus h !! seg_sdu s = Some u → upper_layer_id u ≠ id) pre.
Proof.
  induction l as [| s l IH]; intros Hlive; simpl; [by exists [], [] |].
  destruct (Hlive s) as [u Hu]; [left |]. unfold get_sdu. rewrite Hu. simpl.
  destruct (Z.eqb_spec (upper_layer_id u) id) as [Hid | Hid].
  { exists [], (s :: l). split_and!; eauto. }
  destruct IH as (pre & post & -> & -> & Hpost & Hpre); [intros; apply Hlive; by right |].
  exists (s :: pre), post. split_and!; try done. constructor; [| done]. intros v Hv. congruence.
Qed.

(** What a discard leaves: the buffer without one unsegmented SDU; [tx_size] is not updated. *)
Definition discarded (e e' : nr_rlc_entity_um_t) (id : Z) : Prop :=
  ∃ pre cur rest u, tx_list e = pre ++ cur :: rest ∧ tx_list e' = pre ++ rest ∧
    sdus (mem (common e)) !! seg_sdu cur = Some u ∧ upper_layer_id u = id ∧
    seg_is_first cur = true ∧ seg_is_last cur = true ∧
    pending (mem (common e')) (tx_list e') =
      pending (mem (common e)) pre ++ pending (mem (common e)) rest.

Lemma discard_sdu_spec e id :
  um_tx_inv e →
  ∃ e', nr_rlc_entity_um_discard_sdu e id = Ok e' ∧ um_tx_inv e' ∧
    (um_no_leak e → um_no_leak e') ∧
    tx_size e' = tx_size e ∧ um_rx_state e' = um_rx_state e ∧ um_params e' = um_params e ∧
    (e' = e ∨ discarded e e' id).
Proof.
  intros Hinv. pose proof Hinv as [H1 H2 H3 H4 H5 H6 H7]. unfold nr_rlc_entity_um_discard_sdu.
  destruct (find_sdu_spec (mem (common e)) (tx_list e) id) as (pre & post & -> & Hl & Hpost & _);
    [apply (hs_live _ _ H3) |]. simpl.
  destruct post as [| cur rest]; [exists e; split_and!; auto |].
  destruct (negb (seg_is_first cur) || negb (seg_is_last cur)) eqn:Hfl;
    [exists e; split_and!; auto |].
  set (e0 := if bool_decide _ then _ else _).
  assert (H0 : common e0 = common e ∧ tx_list e0 = pre ++ rest ∧ tx_size e0 = tx_size e ∧
    tx_next e0 = tx_next e ∧ um_params e0 = um_params e ∧ um_rx_state e0 = um_rx_state e ∧
    end_ok (pre ++ rest) (tx_end e0)).
  { rewrite Hl in H3, H5. pose proof (end_ok_remove pre cur rest _ H5 (hs_nodup _ _ H3)) as He.
    subst e0. simpl. by destruct (bool_decide _). }
  clearbody e0. destruct H0 as (G1 & G2 & G3 & G4 & G5 & G6 & G7).
  rewrite Hl in H3, H4. simpl (mem _). rewrite G1.
  assert (Hperm : pre ++ cur :: rest ≡ₚ cur :: pre ++ rest)
    by (symmetry; apply Permutation_middle).
  destruct (free_segment_safe (mem (common e)) cur (pre ++ rest))
    as (b & h' & Hf & Hs' & _ & He'); [by eapply heap_safe_perm |].
  rewrite Hf. simpl. eexists. split; [done |].
  apply Forall_app in H4 as [W1 W2]. inversion_clear W2 as [| ? ? Wc W3].
  destruct (segs_wf_sub NR_SDU_MAX (mem (common e)) h' (pre ++ rest)) as [Wf Hp'];
    [by eapply data_sub_free | apply (hs_live _ _ Hs') | by apply Forall_app |].
  split_and!; try exact G3; try exact G5; try exact G6.
  - constructor; simpl; rewrite ?G2, ?G3, ?G4; try done.
    + by eapply um_config_params.
    + unfold um_params in G5. assert (sn_modulus e0 = sn_modulus e) as -> by congruence. done.
    + rewrite (sum_bs_params e) by done. rewrite (header_params e e0), G1, H6, Hl by done.
      rewrite !sum_bs_app. simpl. lia.
    + rewrite Hl in H7. rewrite !sum_size_app in *. simpl in H7.
      destruct Wc as (? & _ & (_ & _ & Hsz & _) & _). lia.
  - unfold um_no_leak. intros Hx. simpl. rewrite G2. apply He'. rewrite Hl in Hx.
    by eapply heap_exact_perm.
  - right. destruct Hpost as (u & Hu & Hid). exists pre, cur, rest, u. simpl.
    rewrite G2, Hp', pending_app. destruct (seg_is_first cur), (seg_is_last cur); done.
Qed.

(** ** Clearing *)

Lemma clear_entity_spec e :
  um_tx_inv e →
  ∃ e', clear_entity e = Ok e' ∧ um_tx_inv e' ∧ tx_list e' = [] ∧ tx_size e' = 0 ∧
    rx_list e' = [] ∧ rx_size e' = 0 ∧ um_params e' = um_params e ∧
    out (common e') = out (common e) ∧
    rx_next_highest e' = 0 ∧ rx_next_reassembly e' = 0 ∧
    rx_timer_trigger e' = 0 ∧ t_reassembly_start e' = 0 ∧
    um_tx_size_exact e' ∧ (um_no_leak e → um_no_leak e' ∧ sdus (mem (common e')) = ∅).
Proof.
  intros [H1 H2 H3 H4 H5 H6 H7]. unfold clear_entity.
  destruct (free_segment_list_safe (mem (common e)) (tx_list e) []) as (h & Hf & Hs & He);
    [by rewrite app_nil_r |].
  simpl. rewrite Hf. simpl. eexists. split; [done |]. simpl.
  split_and!; try done.
  - constructor; try done. simpl. destruct (um_config_modulus e H1) as [(_ & -> & _) | (_ & -> & _)]; lia.
  - intros Hx. rewrite app_nil_r in He. specialize (He Hx).
    split; [done | by apply heap_exact_nil].
Qed.

(** ** The lost SDU *)

(** The SDU leaves the list but no PDU is built: it is not in the buffer any more, its memory
    is not released ([um_no_leak] is lost) and [tx_size] still counts it. *)
Lemma generate_lost e buffer size now_us :
  um_tx_inv e → um_lossy e size = true →
  ∃ s l e', tx_list e = s :: l ∧ 2 <= seg_size s ∧
    generate_tx_pdu e buffer size now_us = Ok (0, buffer, e') ∧ um_tx_inv e' ∧
    tx_list e' = l ∧ tx_size e' = tx_size e ∧ is_Some (sdus (mem (common e')) !! seg_sdu s) ∧
    um_rx_state e' = um_rx_state e ∧ um_params e' = um_params e ∧
    tx_next e' = tx_next e ∧ data_sub (mem (common e')) (mem (common e)) ∧ seg_so s = 0.
Proof.
  intros Hinv Hloss. unfold um_lossy in Hloss. destruct (tx_list e) as [| s l] eqn:Hl; [done |].
  pose proof (ti_segs e Hinv) as Hwf. rewrite Hl in Hwf.
  inversion_clear Hwf as [| ? ? (u & Hu & Hin & Hmax) Hwf'].
  assert (Hc : seg_is_first s = true ∧ seg_is_last s = true ∧ sn_field_length e = 12 ∧
               size = 2 ∧ 2 <= seg_size s) by (destruct (seg_is_first s), (seg_is_last s); lia).
  destruct Hc as (Hf & Hla & H12 & -> & Hsz).
  pose proof (ti_cfg e Hinv) as Hcfg.
  assert (Hh1 : compute_pdu_header_size e s = 1) by (rewrite header_cases, Hf, Hla; done).
  assert (Hh2 : compute_pdu_header_size e (s <| seg_is_last := false |>) = 2)
    by (rewrite header_cases by done; simpl; by rewrite Hf, H12).
  rewrite (generate_head e s l buffer 2 now_us u Hl Hu) by lia.
  rewrite Hh1. decide_true (2 <? 1 + seg_size s).
  set (h := mk_heap _ _). set (e1 := um_popped e s l h).
  destruct (um_popped_frame e s l h) as (F1 & F2 & F3 & F4 & F5 & F6 & F7 & F8 & _).
  fold e1 in F1, F2, F3, F4, F5, F6, F7, F8. clearbody e1.
  destruct (set_sn_heap e s l u Hinv Hl Hu) as (Hs & _ & Hsub & Hlive).
  destruct (um_inv_head e s l Hinv Hl) as (Hend & Hacc & Hbs & _ & _). fold h in Hs, Hsub, Hlive.
  pose (f := λ u : nr_rlc_sdu_t, u <| ref_count ::= Z.succ |>).
  assert (Hux : sdus h !! seg_sdu s = Some (u <| sdu_sn := tx_next e |>)) by apply lookup_insert_eq.
  pose (h2 := mk_heap (<[seg_sdu s := f (u <| sdu_sn := tx_next e |>)]> (sdus h)) (next_addr h)).
  assert (Hupd : upd_sdu h (seg_sdu s) f = Ok h2) by by apply upd_sdu_Ok.
  rewrite (resegment_spec s e1 2 h2) by (by rewrite F5).
  rewrite (header_params e e1), Hh2 by done. decide_true (2 <? 2 + 1). cbn [mbind res_bind].
  destruct (heap_safe_split h s l h2 1 Hs Hupd) as [Hs3 _].
  pose proof (data_sub_upd h (seg_sdu s) f h2 ltac:(done) Hupd) as Hsub2.
  assert (Hs2 : heap_safe h2 l).
  { apply heap_safe_sub, heap_safe_sub in Hs3 as [G1 G2 _ _ G5].
    pose proof (heap_safe_sub _ _ _ Hs) as [_ _ G3 G4 _]. constructor; try done. simpl.
    intros a Ha. rewrite lookup_insert in Ha. case_decide as Hd; [| by apply G3].
    apply G3. rewrite <- Hd. eauto. }
  destruct (segs_wf_sub NR_SDU_MAX (mem (common e)) h2 l) as [Hwf2 _];
    [by etrans | apply (hs_live _ _ Hs2) | done |].
  exists s, l. eexists. split; [done |]. split; [done |]. split; [done |].
  destruct Hin as (_ & _ & _ & _ & Hfirst & _).
  split_and!; try done; [| simpl; rewrite lookup_insert_eq; eauto | by etrans | rewrite Hf in Hfirst; lia].
  pose proof Hinv as [_ H2 _ _ _ _ _].
  constructor; simpl; rewrite ?F1, ?F3, ?F4, ?F8; try done.
  - by eapply um_config_params.
  - unfold um_params in F6. assert (sn_modulus e1 = sn_modulus e) as -> by congruence. done.
  - rewrite F2. by eapply end_ok_tail.
  - rewrite (sum_bs_params e) by done. lia.
  - simpl in Hacc. lia.
Qed.
