(* ===== verification/RlcUmRx.v ===== *)
(** * Reception side of NR RLC UM: window, reassembly, timers

    Theorems on [RlcUm]: the reception-list and window invariant, its preservation by PDU
    reception and by the reassembly timer (with termination of the window loops and absence
    of undefined behaviour), and the correctness of reassembly. *)

From S2P Require Import Prelude RlcPdu RlcEntity RlcUm RlcUmTx.

(** ** Window arithmetic *)

(** [modulus_rx] is the distance from the start of the window, on the circle of SNs. *)
Definition win_pos (e : nr_rlc_entity_um_t) (a : Z) : Z :=
  let d := a - rx_next_highest e + window_size e in
  if d <? 0 then d + sn_modulus e else if d <? sn_modulus e then d else d - sn_modulus e.

Record um_window (e : nr_rlc_entity_um_t) : Prop := {
  uw_size : window_size e = 32 ∧ sn_modulus e = 64 ∨ window_size e = 2048 ∧ sn_modulus e = 4096;
  uw_high : 0 <= rx_next_highest e < sn_modulus e
}.

Lemma modulus_rx_pos e a :
  um_window e → 0 <= a < sn_modulus e → modulus_rx e a = win_pos e a.
Proof.
  intros [Hs Hh] Ha. unfold modulus_rx, win_pos.
  replace (a - (rx_next_highest e - window_size e)) with (a - rx_next_highest e + window_size e)
    by lia.
  destruct (Z.ltb_spec (a - rx_next_highest e + window_size e) 0).
  - rewrite Z.rem_small by lia. lia.
  - destruct (Z.ltb_spec (a - rx_next_highest e + window_size e) (sn_modulus e)).
    + rewrite Z.rem_small by lia. lia.
    + rewrite Z.rem_mod_nonneg by lia.
      symmetry. apply Z.mod_unique_pos with 1; lia.
Qed.

Lemma win_pos_bound e a :
  um_window e → 0 <= a < sn_modulus e → 0 <= win_pos e a < sn_modulus e.
Proof. intros [Hs Hh] Ha. unfold win_pos. bool_prop; lia. Qed.

Lemma win_pos_inj e a b :
  um_window e → 0 <= a < sn_modulus e → 0 <= b < sn_modulus e →
  win_pos e a = win_pos e b → a = b.
Proof. intros [Hs Hh] Ha Hb. unfold win_pos. bool_prop; lia. Qed.

Lemma win_pos_high e : um_window e → win_pos e (rx_next_highest e) = window_size e.
Proof. intros [Hs Hh]. unfold win_pos. bool_prop; lia. Qed.

(** The next SN, modulo. *)
Lemma next_sn e a : um_window e → 0 <= a < sn_modulus e →
  0 <= Z.rem (a + 1) (sn_modulus e) < sn_modulus e ∧
  (win_pos e a < sn_modulus e - 1 → win_pos e (Z.rem (a + 1) (sn_modulus e)) = win_pos e a + 1).
Proof.
  intros [Hs Hh] Ha. destruct (Z.eq_dec (a + 1) (sn_modulus e)) as [E |].
  - rewrite E, Z.rem_same by lia. unfold win_pos. split; [lia |]. bool_prop; lia.
  - rewrite Z.rem_small by lia. unfold win_pos. split; [lia |]. bool_prop; lia.
Qed.

(** The first SN of the window, as the code computes it. *)
Lemma win_start e : um_window e →
  let n := Z.rem (rx_next_highest e - window_size e + sn_modulus e) (sn_modulus e) in
  0 <= n < sn_modulus e ∧ win_pos e n = 0.
Proof.
  intros [Hs Hh] n. subst n. unfold win_pos.
  destruct (Z.leb_spec (window_size e) (rx_next_highest e)).
  - replace (rx_next_highest e - window_size e + sn_modulus e)
      with (rx_next_highest e - window_size e + 1 * sn_modulus e) by lia.
    rewrite Z.rem_add by lia. rewrite Z.rem_small by lia. split; [lia | bool_prop; lia].
  - rewrite Z.rem_small by lia. split; [lia | bool_prop; lia].
Qed.

(** ** Reception invariant *)

(** A stored segment holds its [size] bytes, or was delivered and holds none. *)
Definition pdu_ok (modulus : Z) (p : nr_rlc_pdu_t) : Prop :=
  0 <= pdu_sn p < modulus ∧ 0 <= pdu_so p ∧
  match pdu_data p with
  | Some d => zlen d = pdu_size p ∧ 0 < pdu_size p
  | None => pdu_size p = 0
  end.

Definition sum_pdus (l : list nr_rlc_pdu_t) : Z := foldr (λ p acc, pdu_size p + acc) 0 l.

Definition in_window (e : nr_rlc_entity_um_t) (p : nr_rlc_pdu_t) : Prop :=
  win_pos e (pdu_sn p) < window_size e.

(** The stored segments are in the window [rx_next_highest - window_size, rx_next_highest),
    ordered by SN in the window then by offset; [rx_next_reassembly] and, while the timer
    runs, [rx_timer_trigger] are in the window or just after it; stored bytes are covered by
    [rx_size]. *)
Record um_rx_core (e : nr_rlc_entity_um_t) : Prop := {
  ri_window : um_window e;
  ri_reass : 0 <= rx_next_reassembly e < sn_modulus e;
  ri_reass_pos : win_pos e (rx_next_reassembly e) <= window_size e;
  ri_trigger : 0 <= rx_timer_trigger e < sn_modulus e;
  ri_pdus : Forall (pdu_ok (sn_modulus e)) (rx_list e);
  ri_in : Forall (in_window e) (rx_list e);
  ri_sorted : StronglySorted (pdu_before (win_pos e)) (rx_list e);
  ri_size : sum_pdus (rx_list e) <= rx_size e
}.

Definition um_rx_inv (e : nr_rlc_entity_um_t) : Prop :=
  um_rx_core e ∧
  (t_reassembly_start e ≠ 0 → win_pos e (rx_timer_trigger e) <= window_size e).

(** The transmission side, for frame conditions. *)
Definition um_tx_state (e : nr_rlc_entity_um_t) :=
  (tx_next e, tx_list e, tx_end e, tx_size e, tx_maxsize e, mem (common e), bstatus (common e),
   um_params e, avg_time_is_on (common e)).

Lemma um_tx_state_inv e e' : um_tx_state e' = um_tx_state e →
  (um_tx_inv e → um_tx_inv e') ∧ (um_no_leak e → um_no_leak e') ∧
  (um_tx_size_exact e → um_tx_size_exact e').
Proof.
  unfold um_tx_state. intros [= Hn Hl He Hs _ Hm Hb H1 H2 H3 _].
  assert (Hp : um_params e' = um_params e) by (unfold um_params; congruence).
  split; [| unfold um_no_leak, um_tx_size_exact; by rewrite Hl, Hs, Hm].
  intros [I1 I2 I3 I4 I5 I6 I7]. constructor;
    rewrite ?Hl, ?He, ?Hs, ?Hn, ?Hm, ?Hb, ?H2, ?(sum_bs_params e e') by done; try done.
  by eapply um_config_params.
Qed.

Lemma sum_pdus_nonneg m l : Forall (pdu_ok m) l → 0 <= sum_pdus l.
Proof.
  induction 1 as [| p l (_ & _ & Hd) _ IH]; simpl; [done |].
  destruct (pdu_data p); lia.
Qed.

Lemma sum_pdus_perm l k : l ≡ₚ k → sum_pdus l = sum_pdus k.
Proof. induction 1; simpl; lia. Qed.

(** ** Loops of the window *)

Lemma from_sn_in n l p l' : from_sn n l = p :: l' → p ∈ l ∧ pdu_sn p = n.
Proof.
  induction l as [| q l IH]; simpl; [done |].
  destruct (Z.eqb_spec (pdu_sn q) n) as [Hq |]; intros H.
  - simplify_eq. split; [left | done].
  - destruct (IH H). split; [by right | done].
Qed.

Lemma delivered_in l n : sdu_delivered l n = true → ∃ p, p ∈ l ∧ pdu_sn p = n.
Proof.
  unfold sdu_delivered. intros H. destruct (from_sn n l) as [| p l'] eqn:E; [done |].
  apply from_sn_in in E. eauto.
Qed.

(** The loop on delivered SNs ends before the end of the window, at the first SN that is not
    delivered. *)
Lemma skip_delivered_ok e l fuel n :
  um_window e → Forall (in_window e) l → 0 <= n < sn_modulus e →
  win_pos e n <= window_size e → window_size e - win_pos e n < Z.of_nat fuel →
  ∃ m, skip_delivered fuel l (sn_modulus e) n = Ok m ∧ 0 <= m < sn_modulus e ∧
    win_pos e n <= win_pos e m <= window_size e ∧ sdu_delivered l m = false ∧
    (∀ k, 0 <= k < sn_modulus e → win_pos e n <= win_pos e k < win_pos e m →
       sdu_delivered l k = true).
Proof.
  intros Hw Hin. revert n. induction fuel as [| fuel IH]; intros n Hn Hp Hf; [lia |]. simpl.
  destruct (sdu_delivered l n) eqn:Hd; [| by exists n; split_and!; try done; lia].
  apply delivered_in in Hd as Hex. destruct Hex as (p & Hpin & <-).
  rewrite Forall_forall in Hin. specialize (Hin p Hpin). unfold in_window in Hin.
  destruct (next_sn e (pdu_sn p) Hw Hn) as [Hb Hnext].
  destruct (IH (Z.rem (pdu_sn p + 1) (sn_modulus e))) as (m & -> & Hm & Hpos & Hnd & Hall);
    [done | rewrite Hnext by (destruct Hw; lia); lia.. |].
  assert (Hn' := Hnext ltac:(destruct Hw; lia)).
  exists m. split_and!; try done; try lia. intros k Hk Hkp.
  destruct (Z.eq_dec (win_pos e k) (win_pos e (pdu_sn p))) as [E |].
  - apply win_pos_inj in E; [by subst | done..].
  - apply Hall; [done | lia].
Qed.

(** ** Reassembly *)

(** What identifies a stored segment; reassembly only clears [data] and [size]. *)
Definition pdu_id (p : nr_rlc_pdu_t) := (pdu_sn p, pdu_so p, pdu_is_first p, pdu_is_last p).

Lemma sorted_ids key l l' : map pdu_id l' = map pdu_id l →
  StronglySorted (pdu_before key) l → StronglySorted (pdu_before key) l'.
Proof.
  intros Hid Hs. revert l' Hid. induction Hs as [| p l Hs IH Hall]; intros [| p' l'] Hid; try done.
  { constructor. }
  simpl in Hid. injection Hid as H1 H2 H3 H4 Hid. constructor; [by apply IH |].
  clear IH Hs. revert l' Hid. induction Hall as [| q l Hq Hall IH]; intros [| q' l'] Hid; try done.
  simpl in Hid. injection Hid as G1 G2 G3 G4 Hid. constructor; [| by apply IH].
  unfold pdu_before in *. by rewrite H1, H2, G1, G2.
Qed.

Lemma in_window_ids e l l' : map pdu_id l' = map pdu_id l →
  Forall (in_window e) l → Forall (in_window e) l'.
Proof.
  intros Hid Hs. revert l' Hid. induction Hs as [| p l Hp Hall IH]; intros [| p' l'] Hid; try done.
  simpl in Hid. injection Hid as H1 H2 H3 H4 Hid. constructor; [| by apply IH].
  unfold in_window in *. by rewrite H1.
Qed.

(** Reassembly is defined on any reception list: no NULL dereference, no read outside of a
    segment, whatever the segments are. *)
Lemma reassemble_loop_ok m n l so bad acc rs :
  Forall (pdu_ok m) l → 0 <= so →
  ∃ l' so' bad' acc' rs', reassemble_loop n l so bad acc rs = Ok (l', so', bad', acc', rs') ∧
    map pdu_id l' = map pdu_id l ∧ Forall (pdu_ok m) l' ∧
    rs' - sum_pdus l' = rs - sum_pdus l.
Proof.
  intros Hok. revert so bad acc rs. induction Hok as [| p l Hp Hok IH]; intros so bad acc rs Hso.
  { simpl. eexists _, _, _, _, _. split; [done |]. split_and!; try done; lia. }
  simpl. destruct (Z.eqb_spec (pdu_sn p) n) as [Hn |]; simpl.
  2:{ eexists _, _, _, _, _. split; [done |]. split_and!; try done; by constructor. }
  set (bad1 := if (so <? pdu_so p) && negb bad then true else bad).
  set (len := pdu_size p - (so - pdu_so p)).
  set (bad2 := if (NR_SDU_MAX <? so + len) && negb bad1 then true else bad1).
  destruct Hp as (Hsn & Hpso & Hd).
  assert (Hstep : ∃ so1 acc1, 0 <= so1 ∧
    (if negb bad2 && (0 <? len) then
       d ← deref (pdu_data p); s ← deref (slice d (so - pdu_so p) len); Ok (so + len, acc ++ s)
     else Ok (so, acc)) = Ok (so1, acc1)).
  { destruct (negb bad2 && (0 <? len)) eqn:Hc; [| eauto].
    assert (pdu_so p <= so).
    { destruct (Z.leb_spec (pdu_so p) so); [done |].
      subst bad2 bad1. replace (so <? pdu_so p) with true in Hc by (symmetry; apply Z.ltb_lt; lia).
      destruct bad, (NR_SDU_MAX <? so + len); done. }
    destruct (pdu_data p) as [d |]; [| subst len; lia]. destruct Hd as [Hz Hpos]. simpl.
    rewrite slice_Some by (subst len; lia). simpl. eexists _, _. split; [| done]. subst len. lia. }
  destruct Hstep as (so1 & acc1 & Hso1 & ->). simpl.
  destruct (IH so1 bad2 acc1 (rs - pdu_size p) Hso1) as (l' & so' & bad' & acc' & rs' & -> & Hid & Hok' & Hrs).
  simpl. eexists _, _, _, _, _. split; [done |]. simpl. split_and!.
  - by rewrite Hid.
  - constructor; [| done]. unfold pdu_ok; simpl. split; [done | split; done].
  - lia.
Qed.

Lemma reassemble_from_ok m n l rs :
  Forall (pdu_ok m) l → from_sn n l ≠ [] →
  ∃ l' so' bad' acc' rs', reassemble_from n l rs = Ok (l', so', bad', acc', rs') ∧
    map pdu_id l' = map pdu_id l ∧ Forall (pdu_ok m) l' ∧
    rs' - sum_pdus l' = rs - sum_pdus l.
Proof.
  induction 1 as [| p l Hp Hok IH]; intros Hf; [done |].
  cbn [from_sn reassemble_from] in *. destruct (pdu_sn p =? n).
  - apply reassemble_loop_ok; [by constructor | lia].
  - destruct (IH Hf) as (l' & so' & bad' & acc' & rs' & -> & Hid & Hok' & Hrs). simpl.
    eexists _, _, _, _, _. split; [done |]. simpl. rewrite Hid. split_and!; [done | by constructor | lia].
Qed.

(** The segments of SDU [n] are ranges of the SDU [d]. *)
Definition segment_of (d : bytes) (p : nr_rlc_pdu_t) : Prop :=
  ∃ s, pdu_data p = Some s ∧ slice d (pdu_so p) (pdu_size p) = Some s ∧ 0 < pdu_size p ∧
    pdu_is_last p = (pdu_so p + pdu_size p =? zlen d).

(** Once the whole SDU is there, the remaining segments add nothing. *)
Lemma reassemble_rest n d l rs :
  Forall (λ p, pdu_sn p = n → segment_of d p) l → zlen d <= NR_SDU_MAX →
  ∃ l' rs', reassemble_loop n l (zlen d) false d rs = Ok (l', zlen d, false, d, rs').
Proof.
  intros Hseg Hmax. revert rs. induction Hseg as [| p l Hp Hseg IH]; intros rs; simpl; [eauto |].
  destruct (Z.eqb_spec (pdu_sn p) n) as [Hn |]; simpl; [| eauto].
  destruct (Hp Hn) as (s & Hd & Hs & Hpos & Hlast).
  apply slice_inv in Hs as (H1 & H2 & H3 & _ & _).
  decide_false (zlen d <? pdu_so p). simpl.
  decide_false (NR_SDU_MAX <? zlen d + (pdu_size p - (zlen d - pdu_so p))). simpl.
  decide_false (0 <? pdu_size p - (zlen d - pdu_so p)). simpl.
  destruct (IH (rs - pdu_size p)) as (l' & rs' & ->). simpl. eauto.
Qed.

(** If the segments cover the SDU, the loop rebuilds it. *)
Lemma reassemble_full n d l so rs :
  Forall (λ p, pdu_sn p = n → segment_of d p) l → zlen d <= NR_SDU_MAX →
  0 <= so <= zlen d → sdu_full_loop n (so - 1) l = true →
  ∃ l' rs', reassemble_loop n l so false (take (Z.to_nat so) d) rs =
    Ok (l', zlen d, false, d, rs').
Proof.
  intros Hseg Hmax. revert so rs.
  induction Hseg as [| p l Hp Hseg IH]; intros so rs Hso Hfull; simpl in *; [done |].
  destruct (Z.eqb_spec (pdu_sn p) n) as [Hn |]; simpl in *; [| done].
  destruct (Hp Hn) as (s & Hd & Hs & Hpos & Hlast).
  pose proof Hs as (H1 & H2 & H3 & _ & _)%slice_inv.
  destruct (Z.ltb_spec (so - 1 + 1) (pdu_so p)); [done |].
  decide_false (so <? pdu_so p). simpl.
  decide_false (NR_SDU_MAX <? so + (pdu_size p - (so - pdu_so p))). simpl.
  rewrite Hlast in Hfull.
  destruct (Z.ltb_spec 0 (pdu_size p - (so - pdu_so p))) as [Hlen | Hlen].
  - destruct (take_extend d s (pdu_so p) (pdu_size p) so Hs) as [Hsl Hcat]; [lia | lia |].
    rewrite Hd. simpl. rewrite Hsl. simpl. rewrite Hcat.
    replace (so + (pdu_size p - (so - pdu_so p))) with (pdu_so p + pdu_size p) by lia.
    destruct (Z.eqb_spec (pdu_so p + pdu_size p) (zlen d)) as [-> |].
    + rewrite take_zlen.
      destruct (reassemble_rest n d l (rs - pdu_size p) Hseg Hmax) as (l' & rs' & ->). simpl. eauto.
    + replace (if so - 1 <? pdu_so p + pdu_size p - 1 then _ else so - 1)
        with (pdu_so p + pdu_size p - 1) in Hfull by (case_match; lia).
      destruct (IH (pdu_so p + pdu_size p) (rs - pdu_size p)) as (l' & rs' & ->); [lia | done |].
      simpl. eauto.
  - destruct (Z.eqb_spec (pdu_so p + pdu_size p) (zlen d)) as [E |].
    + assert (so = zlen d) as -> by lia. rewrite take_zlen. simpl.
      destruct (reassemble_rest n d l (rs - pdu_size p) Hseg Hmax) as (l' & rs' & ->). simpl. eauto.
    + replace (if so - 1 <? pdu_so p + pdu_size p - 1 then _ else so - 1)
        with (so - 1) in Hfull by (case_match; lia).
      simpl. destruct (IH so (rs - pdu_size p)) as (l' & rs' & ->); [lia | done |]. simpl. eauto.
Qed.

(** [sdu_full] and reassembly walk the same segments. *)
Lemma reassemble_from_full n d l rs :
  Forall (λ p, pdu_sn p = n → segment_of d p) l → zlen d <= NR_SDU_MAX →
  sdu_full_loop n (-1) (from_sn n l) = true →
  ∃ l' rs', reassemble_from n l rs = Ok (l', zlen d, false, d, rs').
Proof.
  intros Hseg Hmax Hfull. induction l as [| p l IH]; [done |].
  cbn [from_sn reassemble_from] in *. destruct (pdu_sn p =? n) eqn:Hn.
  - apply (reassemble_full n d (p :: l) 0 rs Hseg Hmax); [| exact Hfull].
    pose proof (zlen_nonneg d). lia.
  - inversion_clear Hseg as [| ? ? Hp Hl]. destruct (IH Hl Hfull) as (l' & rs' & ->). simpl. eauto.
Qed.

(** ** Preservation *)

Definition set_rx (e : nr_rlc_entity_um_t) (l : list nr_rlc_pdu_t) (rs : Z)
    (c : nr_rlc_entity_t) : nr_rlc_entity_um_t :=
  e <| rx_list := l |> <| rx_size := rs |> <| common := c |>.

(** Only statistics and the event log differ. *)
Definition same_env (c c' : nr_rlc_entity_t) : Prop :=
  mem c' = mem c ∧ bstatus c' = bstatus c ∧ avg_time_is_on c' = avg_time_is_on c.

Lemma set_rx_tx e l rs c : same_env (common e) c → um_tx_state (set_rx e l rs c) = um_tx_state e.
Proof. intros (Hm & Hb & Ha). unfold um_tx_state, um_params. simpl. congruence. Qed.

Lemma set_rx_core e l rs c :
  um_rx_core e → Forall (pdu_ok (sn_modulus e)) l → Forall (in_window e) l →
  StronglySorted (pdu_before (win_pos e)) l → sum_pdus l <= rs → um_rx_core (set_rx e l rs c).
Proof. intros [H1 H2 H3 H4 _ _ _ _] ????. destruct H1. by constructor. Qed.

Lemma set_reassembly_core e n :
  um_rx_core e → 0 <= n < sn_modulus e → win_pos e n <= window_size e →
  um_rx_core (e <| rx_next_reassembly := n |>).
Proof. intros [H1 _ _ H4 H5 H6 H7 H8] ??. destruct H1. by constructor. Qed.

Lemma sdu_full_in e n : sdu_full e n = true → from_sn n (rx_list e) ≠ [].
Proof. unfold sdu_full. by destruct (from_sn n (rx_list e)). Qed.

Lemma deliver_ok e n :
  um_rx_core e → sdu_full e n = true →
  ∃ l rs c, reassemble_and_deliver e n = Ok (set_rx e l rs c) ∧
    um_rx_core (set_rx e l rs c) ∧ same_env (common e) c.
Proof.
  intros He Hf. pose proof He as [H1 H2 H3 H4 H5 H6 H7 H8]. unfold reassemble_and_deliver.
  destruct (reassemble_from_ok _ n (rx_list e) (rx_size e) H5 (sdu_full_in e n Hf))
    as (l' & so & bad & acc & rs & -> & Hid & Hok & Hrs). simpl.
  assert (Hcore : ∀ c, um_rx_core (set_rx e l' rs c)).
  { intros c. apply set_rx_core; try done; [by eapply in_window_ids | by eapply sorted_ids | lia]. }
  destruct bad; eexists l', rs, _; (split; [reflexivity |]); by split.
Qed.

Lemma first_not_delivered_ok e n :
  um_rx_core e → 0 <= n < sn_modulus e → win_pos e n <= window_size e →
  ∃ m, first_not_delivered e n = Ok m ∧ 0 <= m < sn_modulus e ∧
    win_pos e n <= win_pos e m <= window_size e ∧ sdu_delivered (rx_list e) m = false ∧
    (∀ k, 0 <= k < sn_modulus e → win_pos e n <= win_pos e k < win_pos e m →
       sdu_delivered (rx_list e) k = true).
Proof.
  intros [Hw _ _ _ _ Hin _ _] Hn Hp. apply skip_delivered_ok; try done.
  pose proof (win_pos_bound e n Hw Hn). destruct Hw. lia.
Qed.

(** Moving [rx_next_highest] to [x + 1] slides all window positions by the same amount. *)
Definition move_high (e : nr_rlc_entity_um_t) (x : Z) : nr_rlc_entity_um_t :=
  e <| rx_next_highest := Z.rem (x + 1) (sn_modulus e) |>.

Lemma move_high_pos e x a :
  um_window e → 0 <= x < sn_modulus e → 0 <= a < sn_modulus e →
  window_size e <= win_pos e x →
  let sh := win_pos e x + 1 - window_size e in
  1 <= sh <= window_size e ∧
  win_pos (move_high e x) a =
    if win_pos e a <? sh then win_pos e a - sh + sn_modulus e else win_pos e a - sh.
Proof.
  intros Hw Hx Ha Hp sh. pose proof (win_pos_bound e x Hw Hx). destruct Hw as [Hs Hh].
  split; [subst sh; lia |].
  assert (Hr : Z.rem (x + 1) (sn_modulus e) =
               if x + 1 =? sn_modulus e then 0 else x + 1).
  { destruct (Z.eqb_spec (x + 1) (sn_modulus e)) as [-> |];
      [by apply Z.rem_same; lia | by apply Z.rem_small; lia]. }
  subst sh. unfold win_pos, move_high in *. simpl. rewrite Hr.
  bool_prop; lia.
Qed.

Lemma move_high_window e x : um_window e → 0 <= x < sn_modulus e → um_window (move_high e x).
Proof.
  intros [Hs Hh] Hx. constructor; [done |]. simpl. apply Z.rem_bound_pos; lia.
Qed.

(** The segments that stay when the window moves. *)
Fixpoint drop_out (e : nr_rlc_entity_um_t) (l : list nr_rlc_pdu_t) : list nr_rlc_pdu_t :=
  match l with
  | [] => []
  | p :: l' => if window_size e <=? win_pos e (pdu_sn p) then drop_out e l' else l
  end.

Lemma drop_out_frame e e1 l :
  um_params e1 = um_params e → rx_next_highest e1 = rx_next_highest e →
  drop_out e1 l = drop_out e l.
Proof.
  unfold um_params. intros [= _ Hm Hw] Hh. induction l as [| p l IH]; simpl; [done |].
  unfold win_pos. by rewrite Hm, Hw, Hh, IH.
Qed.

Lemma discard_ok e l :
  um_window e → Forall (pdu_ok (sn_modulus e)) l → sum_pdus l <= rx_size e →
  ∃ rs c, discard_out_of_window e l = set_rx e (drop_out e l) rs c ∧
    sum_pdus (drop_out e l) <= rs ∧ same_env (common e) c.
Proof.
  intros Hw Hok. revert e Hw Hok. induction l as [| p l IH]; intros e Hw Hok Hsum; simpl.
  { exists (rx_size e), (common e). split; [reflexivity | split; [exact Hsum | done]]. }
  inversion_clear Hok as [| ? ? Hp Hl]. destruct (Hw) as [Hs Hh].
  unfold sn_compare_rx. rewrite !modulus_rx_pos by (done || apply Hp).
  rewrite win_pos_high by done.
  destruct (Z.leb_spec (window_size e) (win_pos e (pdu_sn p))).
  - decide_true (0 <=? win_pos e (pdu_sn p) - window_size e).
    match goal with |- context [discard_out_of_window ?x l] => set (e1 := x) end.
    destruct (IH e1) as (rs & c & -> & Hs1 & Hc); [by destruct Hw | done | simpl in *; lia |].
    rewrite (drop_out_frame e e1) in * by done. exists rs, c. by split_and!.
  - decide_false (0 <=? win_pos e (pdu_sn p) - window_size e).
    exists (rx_size e), (common e). split; [reflexivity | split; [exact Hsum | done]].
Qed.

Lemma drop_out_sub e l p : p ∈ drop_out e l → p ∈ l.
Proof.
  induction l as [| q l IH]; simpl; [done |]. case_match; [| done]. intros H0. right. auto.
Qed.

(** Sliding an ordered list: what is left is in the new window, in order. *)
Lemma slide e e1 sh l :
  (∀ a, 0 <= a < sn_modulus e → win_pos e1 a =
     if win_pos e a <? sh then win_pos e a - sh + sn_modulus e else win_pos e a - sh) →
  um_window e → window_size e1 = window_size e → 1 <= sh <= window_size e →
  Forall (pdu_ok (sn_modulus e)) l → Forall (λ p, win_pos e (pdu_sn p) < window_size e + sh) l →
  StronglySorted (pdu_before (win_pos e)) l →
  Forall (in_window e1) (drop_out e1 l) ∧
  StronglySorted (pdu_before (win_pos e1)) (drop_out e1 l).
Proof.
  intros Hpos Hw Hsz Hsh Hok Hlt Hs.
  induction Hs as [| p l Hs IH Hall]; simpl; [split; constructor |].
  inversion_clear Hok as [| ? ? Hp Hl]. inversion_clear Hlt as [| ? ? Hp1 Hl1].
  destruct (Z.leb_spec (window_size e1) (win_pos e1 (pdu_sn p))) as [| Hin]; [by apply IH |].
  assert (Hge : ∀ q, pdu_ok (sn_modulus e) q → sh <= win_pos e (pdu_sn q) →
                win_pos e1 (pdu_sn q) = win_pos e (pdu_sn q) - sh).
  { intros q [Hq _] Hshq. rewrite Hpos by done. bool_prop; lia. }
  assert (Hshp : sh <= win_pos e (pdu_sn p)).
  { rewrite Hpos, Hsz in Hin by apply Hp. pose proof (win_pos_bound e (pdu_sn p) Hw (proj1 Hp)).
    destruct Hw. bool_prop; lia. }
  assert (Hq : Forall (λ q, pdu_ok (sn_modulus e) q ∧ sh <= win_pos e (pdu_sn q) ∧
                            win_pos e (pdu_sn q) < window_size e + sh) (p :: l)).
  { constructor; [done |]. rewrite Forall_forall in *. intros q Hqin.
    split_and!; [auto | | auto]. destruct (Hall q Hqin) as [| [<- _]]; [lia | done]. }
  clear IH Hp Hl Hp1 Hl1 Hin Hshp. split.
  - eapply Forall_impl; [exact Hq |]. intros q (Hok & Hlo & Hhi). unfold in_window.
    rewrite Hge by done. lia.
  - assert (HS : StronglySorted (pdu_before (win_pos e)) (p :: l)) by by constructor.
    clear Hs Hall. induction HS as [| a k Hk IH Hall]; constructor.
    + apply IH. by inversion Hq.
    + inversion_clear Hq as [| ? ? (Ha & Hla & _) Hk']. rewrite Forall_forall in *.
      intros b Hb. destruct (Hk' b Hb) as (Hob & Hlb & _).
      unfold pdu_before. rewrite !Hge by done.
      destruct (Hall b Hb) as [|]; [left; lia | by right].
Qed.

Lemma list_add_last key l p :
  Forall (λ q, key (pdu_sn q) < key (pdu_sn p)) l →
  nr_rlc_pdu_list_add (λ a b, key a - key b) l p = l ++ [p].
Proof.
  induction 1 as [| q l Hq Hl IH]; simpl; [done |].
  decide_false (0 <? key (pdu_sn q) - key (pdu_sn p)).
  destruct (Z.eqb_spec (pdu_sn q) (pdu_sn p)) as [E |]; [rewrite E in Hq; lia |].
  simpl. by rewrite IH.
Qed.

Lemma list_add_ext e l p :
  um_window e → Forall (pdu_ok (sn_modulus e)) l → pdu_ok (sn_modulus e) p →
  nr_rlc_pdu_list_add (sn_compare_rx e) l p =
  nr_rlc_pdu_list_add (λ a b, win_pos e a - win_pos e b) l p.
Proof.
  intros Hw Hl [Hp _]. induction Hl as [| q l [Hq _] Hl IH]; simpl; [done |].
  unfold sn_compare_rx at 1. rewrite !modulus_rx_pos by done. by rewrite IH.
Qed.

(** Every window operation leaves the transmission side alone; a result also satisfies [P]. *)
Definition rx_step (e : nr_rlc_entity_um_t) (P : nr_rlc_entity_um_t → Prop)
    (r : res nr_rlc_entity_um_t) : Prop :=
  ∃ e', r = Ok e' ∧ P e' ∧ um_tx_state e' = um_tx_state e.

Lemma reception_window_in e x :
  um_rx_core e → 0 <= x < sn_modulus e → win_pos e x < window_size e →
  rx_step e um_rx_core (reception_window e x).
Proof.
  intros He Hx Hp. pose proof (ri_window e He) as Hw. unfold reception_window, rx_step.
  destruct (sdu_full e x) eqn:Hf.
  - destruct (deliver_ok e x He Hf) as (l & rs & c & -> & Hc & Henv). simpl.
    pose proof (set_rx_tx e l rs c Henv) as Htx.
    change (rx_next_reassembly (set_rx e l rs c)) with (rx_next_reassembly e).
    destruct (x =? rx_next_reassembly e); [| eauto].
    destruct (first_not_delivered_ok (set_rx e l rs c) (rx_next_reassembly e))
      as (m & -> & Hm & Hpos & _); [done | apply He | apply He |].
    simpl. eexists. split; [done |]. split; [| exact Htx].
    apply set_reassembly_core; [done | done | apply Hpos].
  - unfold sn_compare_rx. destruct (Hw) as [Hs Hh].
    rewrite !modulus_rx_pos, win_pos_high by done.
    decide_false (0 <=? win_pos e x - window_size e). eauto.
Qed.

(** Reception of a segment beyond the window. *)
Section beyond.
Context (e : nr_rlc_entity_um_t) (p : nr_rlc_pdu_t).
Context (Hcore : um_rx_core e) (Hp : pdu_ok (sn_modulus e) p).
Context (Hfirst : pdu_so p = 0 → pdu_is_last p = false).
Context (Hbeyond : window_size e <= win_pos e (pdu_sn p)).
Context (Hdata : is_Some (pdu_data p)).
Let e1 := e <| rx_size ::= Z.add (pdu_size p) |> <| rx_list := rx_list e ++ [p] |>.

Lemma beyond_not_full : sdu_full e1 (pdu_sn p) = false.
Proof.
  unfold sdu_full. simpl.
  assert (Hfrom : from_sn (pdu_sn p) (rx_list e ++ [p]) = [p]).
  { pose proof (ri_in e Hcore) as Hin. induction Hin as [| q l Hq Hin IH]; simpl.
    - by rewrite Z.eqb_refl.
    - destruct (Z.eqb_spec (pdu_sn q) (pdu_sn p)) as [E |]; [| done].
      unfold in_window in Hq. rewrite E in Hq. lia. }
  rewrite Hfrom. simpl. rewrite bool_decide_true by done. simpl. rewrite Z.eqb_refl. simpl.
  destruct (Z.ltb_spec (-1 + 1) (pdu_so p)); [done |].
  destruct Hp as (_ & Hso & _). rewrite Hfirst by lia. done.
Qed.

Lemma beyond_slide :
  let e2 := move_high e1 (pdu_sn p) in
  um_window e2 ∧ Forall (in_window e2) (drop_out e2 (rx_list e1)) ∧
  StronglySorted (pdu_before (win_pos e2)) (drop_out e2 (rx_list e1)) ∧
  Forall (pdu_ok (sn_modulus e)) (rx_list e1) ∧ sum_pdus (rx_list e1) <= rx_size e1.
Proof.
  intros e2. destruct Hcore as [Hw _ _ _ Hpd Hin Hs Hsum].
  assert (Hpos := λ a, move_high_pos e (pdu_sn p) a Hw (proj1 Hp)).
  assert (Hall : Forall (pdu_ok (sn_modulus e)) (rx_list e1)) by (apply Forall_app; auto).
  destruct (Hpos (pdu_sn p) (proj1 Hp) Hbeyond) as [Hsh _].
  destruct (slide e e2 (win_pos e (pdu_sn p) + 1 - window_size e) (rx_list e1)) as [S1 S2]; try done.
  - intros a Ha. by destruct (Hpos a Ha Hbeyond) as [_ <-].
  - apply Forall_app; split; [| constructor; [lia | done]].
    eapply Forall_impl; [exact Hin |]. unfold in_window. intros; lia.
  - simpl. clear -Hs Hin Hbeyond. induction Hs as [| q l Hs IH Hall]; simpl; [repeat constructor |].
    inversion_clear Hin as [| ? ? Hq Hl]. constructor; [by apply IH |].
    apply Forall_app; split; [done |]. constructor; [| done]. left. unfold in_window in Hq. lia.
  - split_and!; try done.
    + apply (move_high_window e1); [by destruct Hw | apply Hp].
    + simpl. rewrite (sum_pdus_perm _ (p :: rx_list e)) by (by rewrite Permutation_app_comm).
      simpl. lia.
Qed.

Lemma reception_window_beyond : rx_step e um_rx_core (reception_window e1 (pdu_sn p)).
Proof.
  destruct beyond_slide as (Hw2 & Hin2 & Hs2 & Hall & Hsum).
  pose proof Hcore as [Hw Hr Hrp Ht _ _ _ _]. unfold reception_window.
  rewrite beyond_not_full. unfold sn_compare_rx.
  assert (Hw1 : um_window e1) by by destruct Hw.
  rewrite !modulus_rx_pos, win_pos_high by (done || apply Hp || apply Hw).
  change (win_pos e1 (pdu_sn p)) with (win_pos e (pdu_sn p)).
  change (window_size e1) with (window_size e).
  decide_true (0 <=? win_pos e (pdu_sn p) - window_size e).
  fold (move_high e1 (pdu_sn p)). set (e2 := move_high e1 (pdu_sn p)) in *.
  change (rx_list e2) with (rx_list e1).
  destruct (discard_ok e2 (rx_list e1) Hw2 Hall Hsum) as (rs & c & -> & Hsum3 & Henv).
  set (l3 := drop_out e2 (rx_list e1)) in *.
  assert (Hok3 : Forall (pdu_ok (sn_modulus e)) l3).
  { rewrite Forall_forall in *. intros q Hq. by apply Hall, (drop_out_sub e2). }
  assert (Hcore3 : ∀ n, 0 <= n < sn_modulus e → win_pos e2 n <= window_size e →
            um_rx_core ((set_rx e2 l3 rs c) <| rx_next_reassembly := n |>)).
  { intros n Hn Hnp. destruct Hw2. by constructor. }
  set (e3 := set_rx e2 l3 rs c) in *.
  assert (Hw3 : um_window e3) by by destruct Hw2.
  rewrite !modulus_rx_pos, win_pos_high by (done || apply Hw3 || apply Hcore).
  change (rx_next_reassembly e3) with (rx_next_reassembly e).
  change (win_pos e3) with (win_pos e2). change (window_size e3) with (window_size e).
  destruct (Z.leb_spec 0 (win_pos e2 (rx_next_reassembly e) - window_size e)).
  - destruct (win_start e3 Hw3) as [Hn Hn0].
    set (n := Z.rem (rx_next_highest e3 - window_size e3 + sn_modulus e3) (sn_modulus e3)) in *.
    assert (Hfuel : window_size e3 - win_pos e3 n < Z.of_nat (Z.to_nat (sn_modulus e3)))
      by (rewrite Hn0; destruct Hw3; lia).
    destruct (skip_delivered_ok e3 l3 (Z.to_nat (sn_modulus e3)) n) as (m & Hm & Hmb & Hmp & _);
      try done; [rewrite Hn0; destruct Hw3; lia |].
    change (first_not_delivered e3 _) with (skip_delivered (Z.to_nat (sn_modulus e3)) l3 (sn_modulus e3) n).
    rewrite Hm. simpl. eexists. split; [done |]. split; [apply Hcore3; [done | apply Hmp] |].
    by apply (set_rx_tx e2 l3 rs c).
  - eexists. split; [done |]. split; [| by apply (set_rx_tx e2 l3 rs c)].
    apply (Hcore3 (rx_next_reassembly e)); [done | lia].
Qed.
End beyond.

(** [t_reassembly] is stopped when its trigger leaves the window. *)
Lemma reception_timer_ok e :
  um_rx_core e → um_rx_inv (reception_timer e) ∧ um_tx_state (reception_timer e) = um_tx_state e.
Proof.
  intros He. pose proof He as [Hw Hr Hrp Ht H5 H6 H7 H8]. unfold reception_timer.
  set (next := Z.rem _ _).
  set (e1 := if negb (t_reassembly_start e =? 0) && _ then _ else e).
  assert (He1 : um_rx_core e1 ∧ um_tx_state e1 = um_tx_state e ∧
    (t_reassembly_start e1 ≠ 0 → win_pos e1 (rx_timer_trigger e1) <= window_size e1)).
  { subst e1. destruct (negb (t_reassembly_start e =? 0) && _) eqn:Hc.
    - split_and!; [destruct Hw; by constructor | done | done].
    - split_and!; [done | done |]. intros Hne.
      unfold sn_compare_rx in Hc. rewrite (modulus_rx_pos e (rx_timer_trigger e)) in Hc by done.
      rewrite (modulus_rx_pos e (rx_next_highest e)), win_pos_high in Hc by (done || apply Hw).
      lia. }
  clearbody e1. destruct He1 as (Hc1 & Htx & Htrig).
  destruct (_ && _); [| by split].
  split; [| exact Htx]. split; [pose proof Hc1 as [Hw1 ? ? ? ? ? ? ?]; destruct Hw1; by constructor |].
  intros _. apply Z.eq_le_incl. exact (win_pos_high e1 (ri_window e1 Hc1)).
Qed.

(** Insertion of one segment and the actions on it. *)
Lemma insert_segment_ok e p :
  um_rx_inv e → pdu_ok (sn_modulus e) p → (pdu_so p = 0 → pdu_is_last p = false) →
  is_Some (pdu_data p) →
  let e1 := e <| rx_size ::= Z.add (pdu_size p) |> in
  rx_step e um_rx_inv (reception_actions
     (e1 <| rx_list ::= λ l, nr_rlc_pdu_list_add (sn_compare_rx e1) l p |>) (pdu_sn p)).
Proof.
  intros [He _] Hp Hfirst Hdata e1. pose proof He as [Hw Hr Hrp Ht Hpd Hin Hs Hsum].
  set (e2 := e1 <| rx_list ::= _ |>).
  assert (Hl : rx_list e2 = nr_rlc_pdu_list_add (λ a b, win_pos e a - win_pos e b) (rx_list e) p)
    by exact (list_add_ext e (rx_list e) p Hw Hpd Hp).
  assert (Hwin : rx_step e um_rx_core (reception_window e2 (pdu_sn p))).
  { destruct (Z.ltb_spec (win_pos e (pdu_sn p)) (window_size e)) as [Hlt | Hge].
    - assert (Hperm := pdu_list_add_perm (win_pos e) (rx_list e) p). rewrite <- Hl in Hperm.
      destruct (reception_window_in e2 (pdu_sn p)) as (e3 & H3 & Hc3 & Htx3);
        [| apply Hp | exact Hlt | exists e3; split; [done | split; [done | exact Htx3]]].
      destruct Hw. constructor; try done; rewrite ?Hl.
      + rewrite pdu_list_add_perm. by constructor.
      + rewrite pdu_list_add_perm. by constructor.
      + apply pdu_list_add_sorted; [| done]. intros q Hq. rewrite Forall_forall in Hpd.
        apply win_pos_inj; [by constructor | apply (Hpd q Hq) | apply Hp].
      + rewrite <- Hl, (sum_pdus_perm _ _ Hperm). simpl. lia.
    - assert (Hlast : rx_list e2 = rx_list e ++ [p]).
      { rewrite Hl. apply list_add_last. eapply Forall_impl; [exact Hin |].
        unfold in_window. intros; lia. }
      destruct (reception_window_beyond e p He Hp Hfirst Hge Hdata) as (e3 & H3 & Hc3 & Htx3).
      exists e3. split; [| by split]. rewrite <- H3. f_equal.
      change e2 with (e1 <| rx_list := rx_list e2 |>). by rewrite Hlast. }
  destruct Hwin as (e3 & H3 & Hc3 & Htx3). unfold reception_actions. rewrite H3. simpl.
  destruct (reception_timer_ok e3 Hc3) as [Hi Htx]. eexists. split; [done |]. split; [done |].
  by rewrite Htx.
Qed.

Lemma um_rx_state_inv e e' :
  um_rx_state e' = um_rx_state e → um_params e' = um_params e → um_rx_inv e → um_rx_inv e'.
Proof.
  unfold um_rx_state, um_params. intros [= _ Hh Hr Ht _ Hst Hl Hs _] [= _ Hm Hw].
  assert (Hpos : ∀ a, win_pos e' a = win_pos e a) by (intros; unfold win_pos; by rewrite Hh, Hm, Hw).
  assert (Hb : ∀ a b, pdu_before (win_pos e) a b → pdu_before (win_pos e') a b)
    by (unfold pdu_before; intros; by rewrite !Hpos).
  intros [[[H1 H1'] H2 H3 H4 H5 H6 H7 H8] H9].
  split; [constructor; [constructor | ..] |];
    rewrite ?Hl, ?Hs, ?Hr, ?Ht, ?Hpos, ?Hst, ?Hh, ?Hm, ?Hw; try done.
  - eapply Forall_impl; [exact H6 |]. unfold in_window. intros. by rewrite Hpos, Hw.
  - clear -H7 Hb. induction H7; constructor; [done |]. eapply Forall_impl; eauto.
Qed.

(** ** Whole operations *)

Lemma recv_segment_ok e buffer n so is_first is_last d :
  um_rx_inv e → 0 <= n < sn_modulus e → 0 <= so → (so = 0 → is_last = false) →
  0 <= d_byte d →
  rx_step e um_rx_inv (recv_segment e buffer (zlen buffer) n so is_first is_last d).
Proof.
  intros He Hn Hso Hlast Hd. unfold recv_segment.
  assert (Hdisc : rx_step e um_rx_inv (Ok (discard_pdu e (zlen buffer)))).
  { eexists. split; [done |]. split; [by apply (um_rx_state_inv e) | done]. }
  destruct (Z.leb_spec (zlen buffer - d_byte d) 0); [done |].
  destruct (rx_maxsize e <? _); [done |].
  destruct (sn_compare_rx e n (rx_next_reassembly e) <? 0); [done |].
  unfold nr_rlc_new_pdu. rewrite slice_Some by lia. simpl.
  set (data := take _ _).
  pose (p := mk_pdu n (Some data) (zlen buffer - d_byte d) so is_first is_last).
  apply (insert_segment_ok e p); try done.
  unfold pdu_ok, p. simpl. split_and!; try lia. subst data. unfold zlen in *.
  rewrite length_take, length_drop. lia.
Qed.

Lemma recv_pdu_ok e buffer :
  um_config e → um_rx_inv e → rx_step e um_rx_inv (nr_rlc_entity_um_recv_pdu e buffer).
Proof.
  intros Hcfg He. unfold nr_rlc_entity_um_recv_pdu.
  set (e0 := e <| common ::= _ |>).
  assert (He0 : um_rx_inv e0) by by apply (um_rx_state_inv e).
  assert (Hdisc : rx_step e um_rx_inv (Ok (discard_pdu e0 (zlen buffer)))).
  { eexists. split; [done |]. split; [by apply (um_rx_state_inv e) | done]. }
  set (disc := Ok (discard_pdu e0 (zlen buffer))) in *.
  assert (Hlen : 0 <= sn_field_length e <= 31 ∧ sn_modulus e = 2 ^ sn_field_length e).
  { destruct Hcfg as ([E | E] & -> & _); rewrite E; lia. }
  destruct Hlen as [Hlen Hmod].
  assert (Hseg : ∀ n so f l d, 0 <= n < sn_modulus e → 0 <= so → (so = 0 → l = false) → dec_wf d →
    rx_step e um_rx_inv (recv_segment e0 buffer (zlen buffer) n so f l d)).
  { intros n so f l d Hn Hso Hl Hd. apply (recv_segment_ok e0); try done. apply Hd. }
  match goal with |- rx_step _ _ (read_bits _ ?d _ ?k) =>
    destruct (read_bits_cases disc d 2 k (dec_wf_init buffer) ltac:(lia))
      as [-> | (si & d1 & -> & Hsi & Hd1 & _)] end; [done |].
  destruct (Z.land si 2 =? 0) eqn:Hf; destruct (Z.land si 1 =? 0) eqn:Hl; simpl.
  { destruct (Z.ltb_spec (zlen buffer) 2); [done |]. rewrite slice_Some by lia. simpl.
    eexists. split; [done |]. split; [by apply (um_rx_state_inv e) | done]. }
  all: match goal with |- rx_step _ _ (if _ then read_bits _ _ _ (λ _, ?k) else _) =>
         assert (Hk : ∀ d, dec_wf d → rx_step e um_rx_inv (k d)) end;
    [intros d Hd | destruct (sn_field_length e =? 12); [| by apply Hk];
      match goal with |- rx_step _ _ (read_bits _ ?d _ ?k) =>
        destruct (read_bits_cases disc d 2 k Hd1 ltac:(lia))
          as [-> | (v & d2 & -> & _ & Hd2 & _)]; [done | by apply Hk] end].
  all: match goal with |- rx_step _ _ (read_bits _ ?d _ ?k) =>
         destruct (read_bits_cases disc d (sn_field_length e) k Hd Hlen)
           as [-> | (n & d2 & -> & Hn & Hd2 & _)]; [done |] end;
    rewrite <- Hmod in Hn; try (by apply Hseg).
  all: match goal with |- rx_step _ _ (read_bits _ ?d _ ?k) =>
         destruct (read_bits_cases disc d 16 k Hd2 ltac:(lia))
           as [-> | (so & d3 & -> & Hso & Hd3 & _)]; [done |] end;
    destruct (Z.eqb_spec so 0); [done |]; apply Hseg; (done || lia).
Qed.

Lemma discard_before_ok e l :
  rx_list e = l →
  ∃ k c, discard_before_reassembly e l = e <| rx_list := drop k l |> <| common := c |> ∧
    same_env (common e) c.
Proof.
  revert e. induction l as [| p l IH]; intros e Hl; simpl.
  { exists 0%nat, (common e). split; [| done]. simpl. rewrite <- Hl. by destruct e. }
  destruct (_ <? 0).
  - match goal with |- context [discard_before_reassembly ?x l] =>
      destruct (IH x eq_refl) as (k & c & -> & Hc) end.
    exists (S k), c. split; [done | exact Hc].
  - exists 0%nat, (common e). split; [| done]. simpl. rewrite <- Hl. by destruct e.
Qed.

Lemma sum_pdus_drop m k l : Forall (pdu_ok m) l → sum_pdus (drop k l) <= sum_pdus l.
Proof.
  intros Hok. revert k. induction Hok as [| p l (_ & _ & Hp) Hl IH]; intros [| k]; simpl; try lia.
  specialize (IH k). destruct (pdu_data p); lia.
Qed.

Lemma sorted_drop key k l :
  StronglySorted (pdu_before key) l → StronglySorted (pdu_before key) (drop k l).
Proof.
  intros Hs. revert k. induction Hs; intros [| k]; simpl; try constructor; auto.
Qed.

Lemma check_t_reassembly_ok e :
  um_rx_inv e → rx_step e um_rx_inv (check_t_reassembly e).
Proof.
  intros [He Htrig]. pose proof He as [Hw Hr Hrp Ht Hpd Hin Hs Hsum].
  unfold check_t_reassembly, rx_step.
  destruct (Z.eqb_spec (t_reassembly_start e) 0) as [| Hne]; simpl; [exists e; by split_and! |].
  destruct (_ <=? _); [exists e; by split_and! |].
  specialize (Htrig Hne). set (e1 := e <| t_reassembly_start := 0 |>).
  assert (He1 : um_rx_core e1) by (destruct Hw; by constructor).
  destruct (first_not_delivered_ok e1 (rx_timer_trigger e) He1 Ht Htrig)
    as (m & -> & Hm & Hpos & _). simpl.
  set (e2 := e1 <| rx_next_reassembly := m |>).
  assert (He2 : um_rx_core e2) by (apply set_reassembly_core; [done | done | apply Hpos]).
  destruct (discard_before_ok e2 (rx_list e)) as (k & c & -> & Hc); [done |].
  set (e3 := e2 <| rx_list := _ |> <| common := c |>).
  assert (He3 : um_rx_core e3).
  { apply (set_rx_core e2 (drop k (rx_list e)) (rx_size e) c He2).
    - by apply Forall_drop.
    - by apply Forall_drop.
    - by apply sorted_drop.
    - pose proof (sum_pdus_drop _ k _ Hpd). lia. }
  assert (Htx3 : um_tx_state e3 = um_tx_state e) by exact (set_rx_tx e2 (drop k (rx_list e)) (rx_size e) c Hc).
  destruct (_ || _); eexists; (split; [done |]); (split; [| exact Htx3]); split; try done.
  - destruct He3 as [[] ? ? ? ? ? ? ?]. by constructor.
  - intros _. apply Z.eq_le_incl. exact (win_pos_high e3 (ri_window e3 He3)).
Qed.
