(* ===== verification/RlcUmProps.v ===== *)
(** * NR RLC UM: properties of the entity

    The operations of the entity's interface as steps ([um_op], [um_exec], [um_run]), the
    reachable states, and the properties of transmission, reception and memory. *)

From S2P Require Import Prelude RlcPdu RlcEntity RlcUm RlcUmTx RlcUmRx.

(** ** Operations as steps *)

(** The entries of the entity's function table, with their arguments. *)
Inductive um_op :=
| UmRecvPdu (buffer : bytes)
| UmRecvSdu (buffer : bytes) (sdu_id now_us : Z)
| UmGeneratePdu (buffer : bytes) (size now_us : Z)
| UmSetTime (now : Z)
| UmDiscardSdu (sdu_id : Z)
| UmReestablishment.

Definition um_exec (e : nr_rlc_entity_um_t) (op : um_op) : res nr_rlc_entity_um_t :=
  match op with
  | UmRecvPdu buffer => nr_rlc_entity_um_recv_pdu e buffer
  | UmRecvSdu buffer sdu_id now_us => nr_rlc_entity_um_recv_sdu e buffer sdu_id now_us
  | UmGeneratePdu buffer size now_us =>
      '(_, _, e) ← nr_rlc_entity_um_generate_pdu e buffer size now_us; Ok e
  | UmSetTime now => nr_rlc_entity_um_set_time e now
  | UmDiscardSdu sdu_id => nr_rlc_entity_um_discard_sdu e sdu_id
  | UmReestablishment => nr_rlc_entity_um_reestablishment e
  end.

(** What the callers guarantee: SDUs of at most [NR_SDU_MAX] bytes, and a MAC buffer of at
    least the announced size. *)
Definition um_op_ok (op : um_op) : Prop :=
  match op with
  | UmRecvSdu buffer _ _ => zlen buffer <= NR_SDU_MAX
  | UmGeneratePdu buffer size _ => size <= zlen buffer
  | _ => True
  end.

Definition um_inv (e : nr_rlc_entity_um_t) : Prop := um_tx_inv e ∧ um_rx_inv e.

(** Steps of the entity, and the states it can reach. *)
Inductive um_step : nr_rlc_entity_um_t → nr_rlc_entity_um_t → Prop :=
| um_step_op e op e' : um_op_ok op → um_exec e op = Ok e' → um_step e e'.

Inductive um_reachable : nr_rlc_entity_um_t → Prop :=
| um_reach_new rxmax txmax t snlen e :
    new_nr_rlc_entity_um rxmax txmax t snlen = Ok e → um_reachable e
| um_reach_step e e' : um_reachable e → um_step e e' → um_reachable e'.

Lemma um_new_inv rxmax txmax t snlen e :
  new_nr_rlc_entity_um rxmax txmax t snlen = Ok e →
  um_inv e ∧ um_no_leak e ∧ um_tx_size_exact e.
Proof.
  unfold new_nr_rlc_entity_um, assert_that. intros H.
  destruct (Z.eqb_spec snlen 6) as [-> |]; [| destruct (Z.eqb_spec snlen 12) as [-> |]; [| done]];
    simpl in H; simplify_eq; (split; [split | split; [exact heap_empty_exact | done]]).
  all: try (constructor; try done; [unfold um_config; simpl; auto | apply heap_empty_exact]).
  all: (split; [| done]); (constructor; [| done | by vm_compute | done | constructor.. | done]).
  all: constructor; [by vm_compute; auto | done].
Qed.

Lemma generate_inv e buffer size now_us :
  um_inv e → size <= zlen buffer →
  ∃ ret buf e', nr_rlc_entity_um_generate_pdu e buffer size now_us = Ok (ret, buf, e') ∧ um_inv e' ∧
    (um_lossy e size = false → um_no_leak e → um_no_leak e').
Proof.
  intros [Ht Hr] Hsize. unfold nr_rlc_entity_um_generate_pdu.
  destruct (um_lossy e size) eqn:Hloss.
  - destruct (generate_lost e buffer size now_us Ht Hloss)
      as (s & l & e' & _ & _ & -> & Hi & _ & _ & _ & Hrx & Hp & _).
    exists 0, buffer, e'. split; [done |]. split; [| done]. split; [done |].
    by eapply um_rx_state_inv.
  - destruct (generate_spec e buffer size now_us Ht Hsize Hloss)
      as [[-> _] | (ret & buf & e' & pl & -> & Hi & Hleak & _ & Hrx & Hp & _)].
    + exists 0, buffer, e. by split_and!.
    + exists ret, buf, e'. split; [done |]. split; [| done]. split; [done |].
      by eapply um_rx_state_inv.
Qed.

Lemma rx_step_inv e r : um_tx_inv e → rx_step e um_rx_inv r →
  ∃ e', r = Ok e' ∧ um_inv e' ∧ (um_no_leak e → um_no_leak e').
Proof.
  intros Ht (e' & -> & Hr & Htx). destruct (um_tx_state_inv e e' Htx) as (H1 & H2 & _).
  exists e'. split; [done |]. split; [| done]. split; [by apply H1 | done].
Qed.

Lemma set_time_inv e now : um_inv e →
  ∃ e', nr_rlc_entity_um_set_time e now = Ok e' ∧ um_inv e' ∧ (um_no_leak e → um_no_leak e').
Proof.
  intros [Ht Hr]. unfold nr_rlc_entity_um_set_time.
  assert (Hr0 : um_rx_inv (e <| t_current := now |>)).
  { destruct Hr as [[[] ? ? ? ? ? ? ?] ?]. split; [by constructor | done]. }
  destruct (um_tx_state_inv e (e <| t_current := now |>) eq_refl) as (Ht0 & Hl0 & _).
  destruct (rx_step_inv _ _ (Ht0 Ht) (check_t_reassembly_ok _ Hr0)) as (e' & -> & Hi & Hl).
  exists e'. split; [done |]. split; [done |]. intros H. by apply Hl, Hl0.
Qed.

(** An empty reception side with its window at 0. *)
Lemma um_rx_zero e :
  um_config e → rx_next_highest e = 0 → rx_next_reassembly e = 0 → rx_timer_trigger e = 0 →
  t_reassembly_start e = 0 → rx_list e = [] → rx_size e = 0 → um_rx_inv e.
Proof.
  intros Hcfg Hh Hn Htt Hs Hrl Hrs.
  assert (Hw : um_window e).
  { constructor; [| rewrite Hh];
      destruct (um_config_modulus e Hcfg) as [(_ & ? & ?) | (_ & ? & ?)]; lia. }
  assert (Hpos : win_pos e 0 <= window_size e).
  { pose proof (win_pos_high e Hw) as E. rewrite Hh in E. lia. }
  split; [| done]. destruct (Hw) as [? Hhi]. rewrite Hh in Hhi.
  constructor; rewrite ?Hrl, ?Hrs, ?Hn, ?Htt; try done; constructor.
Qed.

Lemma reestablishment_inv e : um_inv e →
  ∃ e', nr_rlc_entity_um_reestablishment e = Ok e' ∧ um_inv e' ∧ (um_no_leak e → um_no_leak e').
Proof.
  intros [Ht _]. unfold nr_rlc_entity_um_reestablishment.
  destruct (clear_entity_spec e Ht)
    as (e' & -> & Hi & _ & _ & Hrl & Hrs & Hp & _ & Hh & Hn & Htt & Hs & _ & Hl).
  exists e'. split; [done |]. split; [| intros Hx; by apply Hl]. split; [done |].
  apply um_rx_zero; try done. apply Hi.
Qed.

(** Every operation returns and keeps the invariant; nothing is leaked unless it loses an SDU. *)
Definition um_loses (e : nr_rlc_entity_um_t) (op : um_op) : bool :=
  match op with UmGeneratePdu _ size _ => um_lossy e size | _ => false end.

Lemma um_exec_inv e op :
  um_inv e → um_op_ok op →
  ∃ e', um_exec e op = Ok e' ∧ um_inv e' ∧ (um_loses e op = false → um_no_leak e → um_no_leak e').
Proof.
  intros [Ht Hr] Hop. destruct op as [buf | buf id now | buf size now | now | id |]; simpl in *.
  - destruct (rx_step_inv e _ Ht (recv_pdu_ok e buf (ti_cfg e Ht) Hr)) as (e' & -> & Hi & Hl). eauto.
  - destruct (Z.leb_spec (tx_size e + zlen buf) (tx_maxsize e)) as [Hle | Hgt].
    + destruct (recv_sdu_accept e buf id now Ht Hop Hle) as (e' & -> & Hi & Hl & _ & Hrx & Hp & _).
      exists e'. split; [done |]. split; [| done]. split; [done |]. by eapply um_rx_state_inv.
    + destruct (recv_sdu_reject e buf id now Hop Hgt) as (e' & -> & Hsame).
      destruct (um_same_tx_inv e e' Hsame Ht) as (Hi & Hl & _). destruct Hsame as (Hp & Hrx & _).
      exists e'. split; [done |]. split; [| done]. split; [done |]. by eapply um_rx_state_inv.
  - destruct (generate_inv e buf size now (conj Ht Hr) Hop) as (ret & b & e' & -> & Hi & Hl).
    simpl. eauto.
  - destruct (set_time_inv e now (conj Ht Hr)) as (e' & -> & Hi & Hl). eauto.
  - destruct (discard_sdu_spec e id Ht) as (e' & -> & Hi & Hl & _ & Hrx & Hp & _).
    exists e'. split; [done |]. split; [| done]. split; [done |]. by eapply um_rx_state_inv.
  - destruct (reestablishment_inv e (conj Ht Hr)) as (e' & -> & Hi & Hl). eauto.
Qed.

Lemma um_reachable_inv e : um_reachable e → um_inv e.
Proof.
  induction 1 as [????? H | e e' _ IH Hst].
  - by apply um_new_inv in H as [? _].
  - inversion_clear Hst as [? op ? Hop H].
    destruct (um_exec_inv e op IH Hop) as (e3 & H3 & Hi & _). congruence.
Qed.

(** Runs of operations; [um_run_lossless] says that none of them loses an SDU. *)
Fixpoint um_run (e : nr_rlc_entity_um_t) (ops : list um_op) : res nr_rlc_entity_um_t :=
  match ops with
  | [] => Ok e
  | op :: ops => e ← um_exec e op; um_run e ops
  end.

Fixpoint um_run_lossless (e : nr_rlc_entity_um_t) (ops : list um_op) : bool :=
  match ops with
  | [] => true
  | op :: ops => negb (um_loses e op) &&
      match um_exec e op with Ok e => um_run_lossless e ops | _ => true end
  end.

Lemma um_run_inv e ops :
  um_inv e → Forall um_op_ok ops →
  ∃ e', um_run e ops = Ok e' ∧ um_inv e' ∧
    (um_run_lossless e ops = true → um_no_leak e → um_no_leak e').
Proof.
  intros Hi Hops. revert e Hi. induction Hops as [| op ops Hop Hops IH]; intros e Hi; simpl; [eauto |].
  destruct (um_exec_inv e op Hi Hop) as (e1 & -> & Hi1 & Hl1). simpl.
  destruct (IH e1 Hi1) as (e2 & -> & Hi2 & Hl2). exists e2. split; [done |]. split; [done |].
  intros [Hn Hr]%andb_prop Hl. apply Hl2; [done |]. apply Hl1; [| done].
  by destruct (um_loses e op).
Qed.

(** ** Properties *)

(** C8: (safety) whatever the peer, the MAC and the upper layer do, an entity created with a
    valid SN length never runs into undefined behaviour (NULL or freed pointer, access out of
    a buffer), never loops forever and never exits: every sequence of operations returns, and
    the transmission and reception invariants hold after it. *)
Theorem um_run_safe rxmax txmax t snlen e ops :
  new_nr_rlc_entity_um rxmax txmax t snlen = Ok e → Forall um_op_ok ops →
  ∃ e', um_run e ops = Ok e' ∧ um_tx_inv e' ∧ um_rx_inv e'.
Proof.
  intros Hnew Hops. destruct (um_new_inv _ _ _ _ _ Hnew) as [Hi _].
  destruct (um_run_inv e ops Hi Hops) as (e' & Hr & [Ht Hx] & _). eauto.
Qed.

(** A 12-bit entity, an SDU sent in two PDUs, a received segment. *)
Definition um12 : nr_rlc_entity_um_t :=
  mk_um (init_common NR_RLC_UM) 35 12 4096 2048 0 0 0 0 0 0 0 0 [] 0 100000 [] None 0 100000.
Definition um_demo_ops : list um_op :=
  [UmRecvSdu [1; 2; 3; 4; 5] 7 0; UmGeneratePdu [0; 0; 0; 0; 0] 5 0;
   UmRecvPdu [64; 0; 9; 9]; UmSetTime 100; UmDiscardSdu 3].

Lemma um_run_safe_witness : ∃ e', um_run um12 um_demo_ops = Ok e' ∧ um_tx_inv e' ∧ um_rx_inv e'.
Proof.
  apply (um_run_safe 100000 100000 35 12); [reflexivity |].
  repeat constructor; vm_compute; congruence.
Defined.

(** (safety) memory: after any run that loses no SDU, deleting the entity releases every
    SDU: no use after free, no double free, and nothing is left in the store. *)
Theorem um_delete_releases rxmax txmax t snlen e ops :
  new_nr_rlc_entity_um rxmax txmax t snlen = Ok e → Forall um_op_ok ops →
  um_run_lossless e ops = true →
  ∃ e' h, um_run e ops = Ok e' ∧ nr_rlc_entity_um_delete e' = Ok h ∧ sdus h = ∅.
Proof.
  intros Hnew Hops Hloss. destruct (um_new_inv _ _ _ _ _ Hnew) as (Hi & Hl & _).
  destruct (um_run_inv e ops Hi Hops) as (e' & Hr & [Ht _] & Hl').
  destruct (clear_entity_spec e' Ht) as (e2 & H2 & Hrest). exists e', (mem (common e2)).
  split; [done |]. unfold nr_rlc_entity_um_delete. rewrite H2. split; [done |].
  apply Hrest. by apply Hl'.
Qed.

Lemma um_delete_releases_witness :
  ∃ e' h, um_run um12 um_demo_ops = Ok e' ∧ nr_rlc_entity_um_delete e' = Ok h ∧ sdus h = ∅.
Proof.
  apply (um_delete_releases 100000 100000 35 12); [reflexivity | | reflexivity].
  repeat constructor; vm_compute; congruence.
Defined.

(** (functional) SDU reception, every branch: an SDU over [NR_SDU_MAX] bytes stops the
    process; an SDU that does not fit in [tx_maxsize] is rejected and the buffers are as they
    were; any other SDU is appended, whole and last, to the bytes waiting. *)
Theorem um_recv_sdu_cases e buffer id now_us :
  um_reachable e →
  (NR_SDU_MAX < zlen buffer → nr_rlc_entity_um_recv_sdu e buffer id now_us = Exit) ∧
  (zlen buffer <= NR_SDU_MAX → tx_maxsize e < tx_size e + zlen buffer →
     ∃ e', nr_rlc_entity_um_recv_sdu e buffer id now_us = Ok e' ∧ um_same_tx e e') ∧
  (zlen buffer <= NR_SDU_MAX → tx_size e + zlen buffer <= tx_maxsize e →
     ∃ e', nr_rlc_entity_um_recv_sdu e buffer id now_us = Ok e' ∧
       tx_size e' = zlen buffer + tx_size e ∧
       pending (mem (common e')) (tx_list e') = pending (mem (common e)) (tx_list e) ++ buffer).
Proof.
  intros [Ht _]%um_reachable_inv. split_and!.
  - intros H. unfold nr_rlc_entity_um_recv_sdu. by decide_true (NR_SDU_MAX <? zlen buffer).
  - apply recv_sdu_reject.
  - intros H1 H2. destruct (recv_sdu_accept e buffer id now_us Ht H1 H2)
      as (e' & ? & _ & _ & _ & _ & _ & ? & ? & _). eauto.
Qed.

Lemma um12_reachable : um_reachable um12.
Proof. by eapply (um_reach_new 100000 100000 35 12). Qed.

Lemma um_recv_sdu_cases_witness :
  ∃ e', nr_rlc_entity_um_recv_sdu um12 [1; 2; 3] 7 0 = Ok e' ∧
    tx_size e' = 3 ∧ pending (mem (common e')) (tx_list e') = [1; 2; 3].
Proof. apply (um_recv_sdu_cases um12 [1; 2; 3] 7 0 um12_reachable); vm_compute; congruence. Defined.

(** (functional) segmentation: when there is room for the header of the first waiting
    segment and one byte, a PDU of at most [size] bytes is built inside the MAC buffer; it
    carries the next bytes of the waiting SDUs, none skipped, duplicated or reordered. *)
Theorem um_generate_next_bytes e s l buffer size now_us :
  um_reachable e → size <= zlen buffer → um_lossy e size = false →
  tx_list e = s :: l → compute_pdu_header_size e s + 1 <= size →
  ∃ ret buf e' payload,
    nr_rlc_entity_um_generate_pdu e buffer size now_us = Ok (ret, buf, e') ∧
    0 < ret <= size ∧ zlen buf = zlen buffer ∧
    (∃ hdr, take (Z.to_nat ret) buf = hdr ++ payload) ∧
    pending (mem (common e)) (tx_list e) = payload ++ pending (mem (common e')) (tx_list e') ∧
    (um_tx_size_exact e → um_tx_size_exact e').
Proof.
  intros [Ht _]%um_reachable_inv Hsize Hloss Hl Hroom. unfold nr_rlc_entity_um_generate_pdu.
  destruct (generate_spec e buffer size now_us Ht Hsize Hloss)
    as [[_ Hno] | (ret & buf & e' & pl & -> & _ & _ & Hex & _ & _ & Hp & Hret & Hlen & Hpdu)].
  { rewrite Hl in Hno. lia. }
  destruct Hpdu as (x & u & (hdr & Htk & _) & _).
  exists ret, buf, e', pl. split; [done |]. split_and!; try lia; eauto.
Qed.

(** The demo entity with one SDU of five bytes waiting. *)
Definition um12_sdu : nr_rlc_entity_um_t :=
  match nr_rlc_entity_um_recv_sdu um12 [1; 2; 3; 4; 5] 7 0 with Ok e => e | _ => um12 end.

Lemma um12_sdu_reachable : um_reachable um12_sdu.
Proof.
  apply (um_reach_step um12 um12_sdu um12_reachable).
  apply (um_step_op um12 (UmRecvSdu [1; 2; 3; 4; 5] 7 0) um12_sdu);
    [vm_compute; congruence | vm_compute; reflexivity].
Qed.

Lemma um_generate_next_bytes_witness :
  ∃ ret buf e' payload,
    nr_rlc_entity_um_generate_pdu um12_sdu [0; 0; 0; 0; 0] 5 0 = Ok (ret, buf, e') ∧
    0 < ret <= 5 ∧ zlen buf = 5 ∧ (∃ hdr, take (Z.to_nat ret) buf = hdr ++ payload) ∧
    [1; 2; 3; 4; 5] = payload ++ pending (mem (common e')) (tx_list e') ∧
    (um_tx_size_exact um12_sdu → um_tx_size_exact e').
Proof.
  apply (um_generate_next_bytes um12_sdu (mk_segment 1 0 5 0 true true) [] [0; 0; 0; 0; 0] 5 0);
    [apply um12_sdu_reachable | vm_compute; congruence | reflexivity | reflexivity |
     vm_compute; congruence].
Defined.

(** (roundtrip) a PDU built by [generate_pdu] and given to a receiver with the same SN
    length is parsed as the segment it was built from: an unsegmented SDU is delivered, a
    segment goes to reassembly with its SN, offset, first/last flags and its bytes. *)
Theorem um_pdu_roundtrip e r buffer size now_us ret buf e' :
  um_reachable e → size <= zlen buffer → um_lossy e size = false →
  sn_field_length r = sn_field_length e →
  nr_rlc_entity_um_generate_pdu e buffer size now_us = Ok (ret, buf, e') → 0 < ret →
  ∃ payload s d,
    pending (mem (common e)) (tx_list e) = payload ++ pending (mem (common e')) (tx_list e') ∧
    (payload ≠ [] → let pdu := take (Z.to_nat ret) buf in
     d_byte d = ret - zlen payload ∧
     nr_rlc_entity_um_recv_pdu r pdu =
       if seg_is_first s && seg_is_last s then Ok (deliver_full payload (count_rx ret r))
       else recv_segment (count_rx ret r) pdu ret (tx_next e) (seg_so s) (seg_is_first s)
              (seg_is_last s) d).
Proof.
  intros [Ht _]%um_reachable_inv Hsize Hloss Hlen Hgen Hret.
  destruct (generate_spec e buffer size now_us Ht Hsize Hloss)
    as [[H _] | (ret2 & buf2 & e2 & pl & H & _ & _ & _ & _ & _ & Hp & Hr & Hzb & Hpdu)];
    unfold nr_rlc_entity_um_generate_pdu in Hgen; rewrite H in Hgen.
  { injection Hgen as <- _ _. lia. }
  injection Hgen as <- <- <-.
  destruct Hpdu as (s & u & (hdr & Htk & Hh & Hbits) & Hin & Hmax & Hsn & Hre & _).
  destruct (decide (pl = [])) as [-> | Hne].
  { exists [], s, (mk_decoder false 0 0 [] 0). split; [done |]. done. }
  assert (Hpos : 0 < zlen pl) by (destruct pl; [done | unfold zlen; simpl; lia]).
  destruct (recv_header e r u s hdr pl (ti_cfg e Ht) Hin Hmax) as (d & Hd & Hrecv); try done.
  { rewrite Hsn. apply Ht. }
  exists pl, s, d. split; [done |]. intros _. simpl. rewrite Htk, Hd.
  rewrite Hrecv, <- Hsn, zlen_app, Hh, <- Hre. split; [lia | done].
Qed.

Lemma um_pdu_roundtrip_witness :
  ∃ payload s d,
    [1; 2; 3; 4; 5] = payload ++ [4; 5] ∧
    (payload ≠ [] → d_byte d = 5 - zlen payload ∧
     nr_rlc_entity_um_recv_pdu um12 [64; 0; 1; 2; 3] =
       if seg_is_first s && seg_is_last s then Ok (deliver_full payload (count_rx 5 um12))
       else recv_segment (count_rx 5 um12) [64; 0; 1; 2; 3] 5 0 (seg_so s) (seg_is_first s)
              (seg_is_last s) d).
Proof.
  pose (g := nr_rlc_entity_um_generate_pdu um12_sdu [0; 0; 0; 0; 0] 5 0).
  apply (um_pdu_roundtrip um12_sdu um12 [0; 0; 0; 0; 0] 5 0 5 [64; 0; 1; 2; 3]
           (match g with Ok (_, _, e) => e | _ => um12 end));
    [apply um12_sdu_reachable | vm_compute; congruence | reflexivity | reflexivity |
     vm_compute; reflexivity | lia].
Defined.

(** What the entity reports to the MAC is exactly the total size of the PDUs it
    has to send (headers included), and it reports nothing only when nothing is waiting. *)
Theorem um_buffer_status_exact e :
  um_reachable e →
  nr_rlc_entity_um_buffer_status e = mk_bstatus 0 (sum_bs e (tx_list e)) 0 ∧
  (sum_bs e (tx_list e) = 0 ↔ tx_list e = []).
Proof.
  intros [Ht _]%um_reachable_inv. pose proof Ht as [Hcfg _ _ Hwf _ Hb _].
  unfold nr_rlc_entity_um_buffer_status. rewrite Hb. split; [done |].
  destruct Hwf as [| s l (u & _ & (_ & _ & Hs & _) & _) Hl]; [done |].
  split; [| done]. simpl. intros H0. exfalso. revert H0.
  assert (0 <= sum_bs e l).
  { clear -Hl Hcfg. induction Hl as [| s l (u & _ & (_ & _ & Hs & _) & _) Hl IH]; simpl; [done |].
    rewrite header_cases by done. repeat case_match; lia. }
  rewrite header_cases by done. repeat case_match; lia.
Qed.

Lemma um_buffer_status_exact_witness :
  nr_rlc_entity_um_buffer_status um12_sdu = mk_bstatus 0 6 0 ∧ (6 = 0 ↔ tx_list um12_sdu = []).
Proof. apply (um_buffer_status_exact um12_sdu um12_sdu_reachable). Defined.

(** (invariant) the reception list only holds segments of the reassembly window
    [rx_next_highest - window_size, rx_next_highest), ordered by position in the window and,
    within an SDU, by offset; [rx_next_reassembly] stays in the window or at its end. *)
Theorem um_reception_window e :
  um_reachable e →
  StronglySorted (pdu_before (modulus_rx e)) (rx_list e) ∧
  Forall (λ p, modulus_rx e (pdu_sn p) < window_size e) (rx_list e) ∧
  modulus_rx e (rx_next_reassembly e) <= window_size e ∧
  modulus_rx e (rx_next_highest e) = window_size e.
Proof.
  intros [_ [[Hw Hr Hrp _ Hpd Hin Hs _] _]]%um_reachable_inv.
  split_and!.
  - clear -Hw Hpd Hs. induction Hs as [| p l Hs IH Hall]; [constructor |].
    inversion_clear Hpd as [| ? ? [Hp _] Hl]. constructor; [by apply IH |].
    rewrite Forall_forall in *. intros q Hq. destruct (Hl q Hq) as [Hqs _].
    unfold pdu_before. rewrite !modulus_rx_pos by done. by apply Hall.
  - rewrite Forall_forall in *. intros p Hp. destruct (Hpd p Hp) as [Hps _].
    rewrite modulus_rx_pos by done. by apply Hin.
  - by rewrite modulus_rx_pos.
  - destruct (Hw) as [_ Hh]. rewrite modulus_rx_pos by done. by apply win_pos_high.
Qed.

(** The demo entity after two segments of SDU 1 received in the wrong order. *)
Definition um12_rx : nr_rlc_entity_um_t :=
  match um_run um12 [UmRecvPdu [192; 1; 0; 4; 50; 60]; UmRecvPdu [64; 1; 10; 20]] with
  | Ok e => e | _ => um12 end.

Lemma um12_rx_reachable : um_reachable um12_rx.
Proof.
  pose (e1 := match nr_rlc_entity_um_recv_pdu um12 [192; 1; 0; 4; 50; 60] with
              | Ok e => e | _ => um12 end).
  apply (um_reach_step e1 um12_rx).
  - apply (um_reach_step um12 e1 um12_reachable).
    apply (um_step_op um12 (UmRecvPdu [192; 1; 0; 4; 50; 60]) e1); [done | vm_compute; reflexivity].
  - apply (um_step_op e1 (UmRecvPdu [64; 1; 10; 20]) um12_rx); [done | vm_compute; reflexivity].
Qed.

Lemma um_reception_window_witness :
  StronglySorted (pdu_before (modulus_rx um12_rx)) (rx_list um12_rx) ∧
  Forall (λ p, modulus_rx um12_rx (pdu_sn p) < window_size um12_rx) (rx_list um12_rx) ∧
  modulus_rx um12_rx (rx_next_reassembly um12_rx) <= window_size um12_rx ∧
  modulus_rx um12_rx (rx_next_highest um12_rx) = window_size um12_rx.
Proof. apply (um_reception_window um12_rx um12_rx_reachable). Defined.

(** (termination) the loop that looks for the next SDU to reassemble always ends, inside
    the window, at the first SN not yet delivered. *)
Theorem um_next_reassembly_terminates e :
  um_reachable e →
  ∃ m, first_not_delivered e (rx_next_reassembly e) = Ok m ∧
    modulus_rx e (rx_next_reassembly e) <= modulus_rx e m <= window_size e ∧
    sdu_delivered (rx_list e) m = false ∧
    ∀ k, 0 <= k < sn_modulus e →
      modulus_rx e (rx_next_reassembly e) <= modulus_rx e k < modulus_rx e m →
      sdu_delivered (rx_list e) k = true.
Proof.
  intros [_ [He _]]%um_reachable_inv. pose proof He as [Hw Hr Hrp _ _ _ _ _].
  destruct (first_not_delivered_ok e _ He Hr Hrp) as (m & H & Hm & Hp & Hd & Hall).
  exists m. rewrite !modulus_rx_pos by done. split_and!; try done; try lia.
  intros k Hk. rewrite modulus_rx_pos by done. by apply Hall.
Qed.

Lemma um_next_reassembly_terminates_witness :
  ∃ m, first_not_delivered um12_rx (rx_next_reassembly um12_rx) = Ok m ∧
    modulus_rx um12_rx (rx_next_reassembly um12_rx) <= modulus_rx um12_rx m
      <= window_size um12_rx ∧
    sdu_delivered (rx_list um12_rx) m = false ∧
    ∀ k, 0 <= k < sn_modulus um12_rx →
      modulus_rx um12_rx (rx_next_reassembly um12_rx) <= modulus_rx um12_rx k
        < modulus_rx um12_rx m → sdu_delivered (rx_list um12_rx) k = true.
Proof. apply (um_next_reassembly_terminates um12_rx um12_rx_reachable). Defined.

(** Reassembly: if the stored segments of SDU [n] are ranges of one SDU [d],
    received in any order and with any overlap, and [sdu_full] accepts them, then exactly [d]
    is delivered to the upper layer. *)
Theorem um_reassembly_delivers e n d :
  Forall (λ p, pdu_sn p = n → segment_of d p) (rx_list e) → zlen d <= NR_SDU_MAX →
  sdu_full e n = true →
  ∃ e', reassemble_and_deliver e n = Ok e' ∧
    out (common e') = out (common e) ++ [deliver_sdu d (zlen d)].
Proof.
  intros Hseg Hmax Hfull. unfold sdu_full in Hfull.
  destruct (processed (from_sn n (rx_list e))); [done |].
  destruct (reassemble_from_full n d (rx_list e) (rx_size e) Hseg Hmax Hfull) as (l & rs & H).
  unfold reassemble_and_deliver. rewrite H. simpl. eauto.
Qed.

(** SDU 1 = [10; 20; 30; 40; 50; 60] in three overlapping segments. *)
Definition um12_full : nr_rlc_entity_um_t :=
  um12 <| rx_list := [mk_pdu 1 (Some [10; 20]) 2 0 true false;
                      mk_pdu 1 (Some [20; 30; 40; 50]) 4 1 false false;
                      mk_pdu 1 (Some [50; 60]) 2 4 false true] |> <| rx_size := 8 |>.

Lemma um_reassembly_delivers_witness :
  ∃ e', reassemble_and_deliver um12_full 1 = Ok e' ∧
    out (common e') = [deliver_sdu [10; 20; 30; 40; 50; 60] 6].
Proof.
  apply (um_reassembly_delivers um12_full 1 [10; 20; 30; 40; 50; 60]);
    [| vm_compute; congruence | reflexivity].
  repeat constructor; intros _; eexists; repeat split; vm_compute; reflexivity.
Defined.

(** (functional) the one case where a waiting SDU is lost: 12-bit SN, an unsegmented SDU of
    at least two bytes and room for exactly two bytes.  The call reports no PDU, yet the SDU
    has left the list; its memory stays allocated and [tx_size] still counts it. *)
Theorem um_generate_loses_sdu e buffer now_us :
  um_reachable e → um_lossy e 2 = true →
  ∃ s l e', tx_list e = s :: l ∧ 2 <= seg_size s ∧
    nr_rlc_entity_um_generate_pdu e buffer 2 now_us = Ok (0, buffer, e') ∧
    tx_list e' = l ∧ tx_size e' = tx_size e ∧ is_Some (sdus (mem (common e')) !! seg_sdu s).
Proof.
  intros [Ht _]%um_reachable_inv Hloss.
  destruct (generate_lost e buffer 2 now_us Ht Hloss)
    as (s & l & e' & H1 & H2 & H3 & _ & H4 & H5 & H6 & _).
  exists s, l, e'. unfold nr_rlc_entity_um_generate_pdu. done.
Qed.

Lemma um_generate_loses_sdu_witness :
  ∃ s l e', tx_list um12_sdu = s :: l ∧ 2 <= seg_size s ∧
    nr_rlc_entity_um_generate_pdu um12_sdu [0; 0] 2 0 = Ok (0, [0; 0], e') ∧
    tx_list e' = l ∧ tx_size e' = tx_size um12_sdu ∧
    is_Some (sdus (mem (common e')) !! seg_sdu s).
Proof. apply (um_generate_loses_sdu um12_sdu [0; 0] 0 um12_sdu_reachable). reflexivity. Defined.

(** (functional) discarding: either nothing changes, or exactly one SDU with that id, not
    yet segmented, leaves the list and the bytes of the others stay in order; but [tx_size]
    keeps counting the discarded bytes, so the space they took is never available again. *)
Theorem um_discard_keeps_tx_size e id e' :
  um_reachable e → nr_rlc_entity_um_discard_sdu e id = Ok e' →
  tx_size e' = tx_size e ∧
  nr_rlc_entity_um_available_tx_space e' = nr_rlc_entity_um_available_tx_space e ∧
  (e' = e ∨ discarded e e' id).
Proof.
  intros [Ht _]%um_reachable_inv He.
  destruct (discard_sdu_spec e id Ht) as (e2 & H & _ & _ & Hs & Hrx & Hp & Hd).
  rewrite H in He. injection He as <-. split; [done |]. split; [| done].
  unfold nr_rlc_entity_um_available_tx_space. rewrite Hs. f_equal.
  destruct Hd as [-> | _]; [done |]. clear -H.
  unfold nr_rlc_entity_um_discard_sdu in H. inv_bind H. destruct a as [pre post].
  destruct post as [| cur rest]; simplify_eq; [done |].
  destruct (negb _ || negb _); simplify_eq; [done |]. inv_bind H. destruct a as [b h].
  simplify_eq. simpl. by destruct (bool_decide _).
Qed.

Lemma um_discard_keeps_tx_size_witness :
  let e' := match nr_rlc_entity_um_discard_sdu um12_sdu 7 with Ok e => e | _ => um12 end in
  tx_list e' = [] ∧ tx_size e' = 5 ∧
  nr_rlc_entity_um_available_tx_space e' = nr_rlc_entity_um_available_tx_space um12_sdu ∧
  (e' = um12_sdu ∨ discarded um12_sdu e' 7).
Proof.
  split; [reflexivity |].
  apply (um_discard_keeps_tx_size um12_sdu 7 _ um12_sdu_reachable). vm_compute; reflexivity.
Defined.

(** (bounds) the segments dropped when [t_reassembly] expires stay counted in [rx_size]: a
    reachable entity with an empty reception list that still accounts for two bytes. *)
Theorem um_timer_leaks_rx_size :
  ∃ e, um_run um12 [UmSetTime 1; UmRecvPdu [192; 1; 0; 4; 50; 60]; UmSetTime 100] = Ok e ∧
    rx_list e = [] ∧ rx_size e = 2.
Proof. eexists. split; [vm_compute; reflexivity |]. done. Qed.
