(* ===== verification/RlcUmLink.v ===== *)
(** * NR RLC UM: the in-order receiver

    What a receiving entity does when the segments of each SDU reach it in order and without
    loss: the state between two segments ([rx_expects]) and the two steps from it, a segment
    that does not end its SDU and the segment that does. *)

From S2P Require Import Prelude RlcPdu RlcEntity RlcUm RlcUmTx RlcUmRx.

(** ** Consecutive segments *)

(** [cur] are segments of SDU [d], SN [n], that cover its bytes from [o] to [pos] one after the
    other; none of them is the last of the SDU. *)
Fixpoint contiguous (n : Z) (d : bytes) (o : Z) (cur : list nr_rlc_pdu_t) (pos : Z) : Prop :=
  match cur with
  | [] => o = pos
  | p :: cur' => pdu_sn p = n ∧ pdu_so p = o ∧ segment_of d p ∧ pdu_is_last p = false ∧
      contiguous n d (o + pdu_size p) cur' pos
  end.

(** Delivered SDUs stay in the reception list as empty markers. *)
Definition marker (n : Z) (p : nr_rlc_pdu_t) : Prop := pdu_sn p ≠ n ∧ pdu_data p = None.

Section contiguous.
Context (n : Z) (d : bytes).

Lemma contiguous_snoc o cur pos p :
  contiguous n d o cur pos → pdu_sn p = n → pdu_so p = pos → segment_of d p →
  pdu_is_last p = false → contiguous n d o (cur ++ [p]) (pos + pdu_size p).
Proof.
  revert o. induction cur as [| q cur IH]; simpl; intros o.
  - intros ->. by intros.
  - intros (? & ? & ? & ? & ?) **. split_and!; auto.
Qed.

Lemma contiguous_size o cur pos : contiguous n d o cur pos → sum_pdus cur = pos - o.
Proof.
  revert o. induction cur as [| q cur IH]; simpl; intros o; [lia |].
  intros (_ & _ & _ & _ & H). rewrite (IH _ H). lia.
Qed.

Lemma contiguous_sn o cur pos : contiguous n d o cur pos → Forall (λ p, pdu_sn p = n) cur.
Proof.
  revert o. induction cur as [| q cur IH]; simpl; intros o; [constructor |].
  intros (? & _ & _ & _ & H). constructor; eauto.
Qed.

Lemma contiguous_so o cur pos : contiguous n d o cur pos → Forall (λ p, pdu_so p <= pos) cur.
Proof.
  revert o. induction cur as [| q cur IH]; simpl; intros o; [constructor |].
  intros (_ & Hso & (? & _ & _ & Hp & _) & _ & H). constructor; [| eauto].
  assert (o + pdu_size q <= pos); [| lia]. clear -H. revert H.
  generalize (o + pdu_size q) as x. induction cur as [| q' cur IH]; simpl; intros x; [lia |].
  intros (_ & _ & (? & _ & _ & Hp & _) & _ & H). specialize (IH _ H). lia.
Qed.

Lemma contiguous_segments o cur pos : contiguous n d o cur pos → Forall (segment_of d) cur.
Proof.
  revert o. induction cur as [| q cur IH]; simpl; intros o; [constructor |].
  intros (_ & _ & ? & _ & H). constructor; eauto.
Qed.

(** The walk of both [sdu_full] and [sdu_has_missing_bytes] never sees a hole. *)
Lemma last_byte_next o size : 0 < size →
  (if o - 1 <? o + size - 1 then o + size - 1 else o - 1) = o + size - 1.
Proof. intros. case_match; lia. Qed.

Lemma contiguous_not_full o cur pos :
  contiguous n d o cur pos → sdu_full_loop n (o - 1) cur = false.
Proof.
  revert o. induction cur as [| q cur IH]; simpl; intros o; [done |].
  intros (-> & -> & (? & _ & _ & Hp & _) & -> & H). rewrite Z.eqb_refl. simpl.
  decide_false (o - 1 + 1 <? o). rewrite last_byte_next by done. by apply IH.
Qed.

Lemma contiguous_not_missing o cur pos :
  contiguous n d o cur pos → missing_loop n (o - 1) cur = false.
Proof.
  revert o. induction cur as [| q cur IH]; simpl; intros o; [done |].
  intros (-> & -> & (? & _ & _ & Hp & _) & _ & H). rewrite Z.eqb_refl. simpl.
  decide_false (o - 1 + 1 <? o). rewrite last_byte_next by done. by apply IH.
Qed.

Lemma contiguous_full o cur pos p :
  contiguous n d o cur pos → pdu_sn p = n → pdu_so p = pos → pdu_is_last p = true →
  sdu_full_loop n (o - 1) (cur ++ [p]) = true.
Proof.
  revert o. induction cur as [| q cur IH]; simpl; intros o.
  - intros -> -> -> ->. rewrite Z.eqb_refl. simpl. by decide_false (pos - 1 + 1 <? pos).
  - intros (-> & -> & (? & _ & _ & Hp & _) & -> & H) ???. rewrite Z.eqb_refl. simpl.
    decide_false (o - 1 + 1 <? o). rewrite last_byte_next by done. by apply IH.
Qed.

Lemma from_sn_skip done l :
  Forall (marker n) done → Forall (λ p, pdu_sn p = n) l → from_sn n (done ++ l) = l.
Proof.
  intros Hd Hl. induction Hd as [| q done [Hq _] Hd IH]; simpl.
  - destruct Hl as [| p l Hp Hl]; simpl; [done |]. by rewrite Hp, Z.eqb_refl.
  - by decide_false (pdu_sn q =? n).
Qed.

(** Reassembly clears the segments of its SDU and takes their size off [rx_size]. *)
Lemma reassemble_clears l so bad acc rs l' so' bad' acc' rs' :
  Forall (λ p, pdu_sn p = n) l →
  reassemble_loop n l so bad acc rs = Ok (l', so', bad', acc', rs') →
  Forall (λ p, pdu_sn p = n ∧ pdu_data p = None) l' ∧ rs' = rs - sum_pdus l ∧
  length l' = length l.
Proof.
  intros Hl. revert so bad acc rs l'. induction Hl as [| p l Hp Hl IH]; intros so bad acc rs l' H.
  { simpl in H. simplify_eq. simpl. split_and!; [constructor | lia | done]. }
  simpl in H. rewrite Hp, Z.eqb_refl in H. simpl in H.
  inv_bind H. destruct a as [so1 acc1]. inv_bind H.
  destruct a as [[[[l1 so2] bad2] acc2] rs2]. simplify_eq/=.
  edestruct IH as (Hc & Hrs & Hlen); [done |]. split_and!; [by constructor | lia | lia].
Qed.

Lemma reassemble_from_skip done l rs :
  Forall (marker n) done → Forall (λ p, pdu_sn p = n) l → l ≠ [] →
  reassemble_from n (done ++ l) rs =
    '(l', so, bad_sdu, acc, rxsize) ← reassemble_loop n l 0 false [] rs;
    Ok (done ++ l', so, bad_sdu, acc, rxsize).
Proof.
  intros Hd Hl Hne. induction Hd as [| q done [Hq _] Hd IH].
  - destruct Hl as [| p l Hp Hl]; [done |]. cbn [app reassemble_from]. rewrite Hp, Z.eqb_refl.
    destruct (reassemble_loop n (p :: l) 0 false [] rs) as [[[[[? ?] ?] ?] ?] | | |]; done.
  - cbn [app reassemble_from]. decide_false (pdu_sn q =? n). rewrite IH.
    destruct (reassemble_loop n l 0 false [] rs) as [[[[[? ?] ?] ?] ?] | | |]; done.
Qed.
End contiguous.

(** ** The receiver between two segments *)

(** The receiver waits for SDU [n], of which it holds the segments [cur]; everything else in
    the reception list is delivered; no timer runs. *)
Record rx_expects (r : nr_rlc_entity_um_t) (n : Z) (cur : list nr_rlc_pdu_t) : Prop := {
  re_inv : um_rx_inv r;
  re_next : rx_next_reassembly r = n;
  re_timer : t_reassembly_start r = 0;
  re_list : ∃ done, rx_list r = done ++ cur ∧ Forall (marker n) done;
  re_high : rx_next_highest r =
    match cur with [] => n | _ => Z.rem (n + 1) (sn_modulus r) end;
  re_size : rx_size r = sum_pdus cur
}.

(** A reception that only touches the receiving side, and what it hands to the upper layer. *)
Definition rx_gives (r r' : nr_rlc_entity_um_t) (sdus : list bytes) : Prop :=
  um_tx_state r' = um_tx_state r ∧ rx_maxsize r' = rx_maxsize r ∧
  t_reassembly r' = t_reassembly r ∧
  out (common r') = out (common r) ++ map (λ d, deliver_sdu d (zlen d)) sdus.

(** The reassembly timer is not started when nothing is missing. *)
Lemma timer_idle e :
  um_window e → 0 <= rx_next_reassembly e < sn_modulus e → t_reassembly_start e = 0 →
  (rx_next_highest e = rx_next_reassembly e ∨
   rx_next_highest e = Z.rem (rx_next_reassembly e + 1) (sn_modulus e) ∧
   sdu_has_missing_bytes e (rx_next_reassembly e) = false) →
  reception_timer e = e.
Proof.
  intros Hw Hr Ht Hcase. unfold reception_timer. rewrite Ht. simpl. rewrite Ht.
  simpl. destruct (next_sn e _ Hw Hr) as [Hn Hpos].
  unfold sn_compare_rx. rewrite !modulus_rx_pos by (done || apply Hw).
  pose proof (win_pos_high e Hw) as Hh. destruct (Hw) as [Hs _].
  destruct Hcase as [E | [E Hm]].
  - rewrite E in *. rewrite Hh in *. rewrite Hpos by lia.
    decide_false (0 <? window_size e - (window_size e + 1)). simpl.
    destruct (Z.eqb_spec (rx_next_reassembly e) (Z.rem (rx_next_reassembly e + 1) (sn_modulus e)))
      as [E2 |]; [| done].
    rewrite <- E2 in Hpos. lia.
  - rewrite Hm, andb_false_r, orb_false_r. rewrite E.
    set (x := Z.rem _ _). by decide_false (0 <? win_pos e x - win_pos e x).
Qed.

(** Markers pushed out of the window change neither [rx_size] nor the segment after them. *)
Lemma discard_markers n e l p :
  um_window e → Forall (pdu_ok (sn_modulus e)) (l ++ [p]) → Forall (marker n) l →
  win_pos e (pdu_sn p) < window_size e →
  ∃ k c, discard_out_of_window e (l ++ [p]) = set_rx e (drop k l ++ [p]) (rx_size e) c ∧
    out c = out (common e).
Proof.
  intros Hw Hok Hm Hp. revert e Hw Hok Hp.
  induction Hm as [| q l [_ Hq] Hm IH]; intros e Hw Hok Hp; simpl.
  - apply Forall_inv in Hok. destruct (Hw) as [Hs Hh]. unfold sn_compare_rx.
    rewrite !modulus_rx_pos, win_pos_high by (done || apply Hok).
    decide_false (0 <=? win_pos e (pdu_sn p) - window_size e).
    exists 0%nat, (common e). split; [by destruct e | done].
  - inversion_clear Hok as [| ? ? Hq1 Hl]. destruct (_ <=? _).
    + destruct Hq1 as (_ & _ & Hz). rewrite Hq in Hz. rewrite Hz.
      match goal with |- context [discard_out_of_window ?x (l ++ [p])] =>
        destruct (IH x) as (k & c & Hc & Ho); [by destruct Hw | done | done |] end.
      exists (S k), c. rewrite Hc. split; [| exact Ho]. unfold set_rx. simpl.
      by rewrite Z.sub_0_r.
    + exists 0%nat, (common e). split; [by destruct e | done].
Qed.

Lemma list_add_end key l p :
  Forall (λ q, key (pdu_sn q) < key (pdu_sn p) ∨ pdu_sn q = pdu_sn p ∧ pdu_so q <= pdu_so p) l →
  nr_rlc_pdu_list_add (λ a b, key a - key b) l p = l ++ [p].
Proof.
  induction 1 as [| q l Hq Hl IH]; simpl; [done |].
  assert (H : (0 <? key (pdu_sn q) - key (pdu_sn p)) ||
              (pdu_sn q =? pdu_sn p) && (pdu_so p <? pdu_so q) = false).
  { destruct Hq as [Hq | [-> Hq]]; [| rewrite Z.eqb_refl; simpl; lia].
    decide_false (0 <? key (pdu_sn q) - key (pdu_sn p)). simpl.
    destruct (Z.eqb_spec (pdu_sn q) (pdu_sn p)) as [E |]; [rewrite E in Hq; lia | done]. }
  by rewrite H, IH.
Qed.

(** ** One more segment *)

Section insert.
Context (r : nr_rlc_entity_um_t) (n : Z) (d : bytes) (cur : list nr_rlc_pdu_t) (pos : Z).
Context (p : nr_rlc_pdu_t).
Context (Hx : rx_expects r n cur) (Hc : contiguous n d 0 cur pos).
Context (Hsn : pdu_sn p = n) (Hso : pdu_so p = pos) (Hseg : segment_of d p).
Context (Hwhole : pdu_so p = 0 → pdu_is_last p = false).

Let e1 := r <| rx_size ::= Z.add (pdu_size p) |>.
Let e2 := e1 <| rx_list ::= λ l, nr_rlc_pdu_list_add (sn_compare_rx e1) l p |>.

Lemma segment_pdu_ok : pdu_ok (sn_modulus r) p.
Proof using Hx Hsn Hseg.
  destruct Hx as [[[_ Hr _ _ _ _ _ _] _] Hn _ _ _ _]. rewrite Hn in Hr.
  destruct Hseg as (b & Hb & Hs & Hpos & _). pose proof Hs as (? & ? & ? & ? & ?)%slice_inv.
  unfold pdu_ok. rewrite Hsn, Hb. split_and!; lia || done.
Qed.

(** The SDU waited for is at the end of the window, or just before it once it has begun. *)
Lemma expected_pos :
  0 <= n < sn_modulus r ∧
  win_pos r n = match cur with [] => window_size r | _ => window_size r - 1 end.
Proof using Hx.
  clear Hc. destruct Hx as [[[Hw Hr Hrp _ _ _ _ _] _] Hn _ _ Hh _]. rewrite Hn in *.
  pose proof (win_pos_high r Hw) as Hhp. split; [done |].
  destruct cur as [| q cur']; [by rewrite Hh in Hhp |].
  destruct (next_sn r n Hw Hr) as [_ Hnext]. rewrite Hh in Hhp. destruct (Hw) as [Hs _].
  rewrite Hnext in Hhp; lia.
Qed.

Lemma insert_list done :
  rx_list r = done ++ cur → Forall (marker n) done → rx_list e2 = done ++ cur ++ [p].
Proof using Hx Hc Hsn Hso Hseg.
  intros Hl Hd. destruct expected_pos as [Hn Hp].
  destruct Hx as [[[Hw _ _ _ Hpd Hin _ _] _] _ _ _ _ _].
  unfold e2, e1. simpl. rewrite (list_add_ext r) by (done || apply segment_pdu_ok).
  rewrite list_add_end, Hl, <- app_assoc; [done |]. rewrite Hl in *. rewrite Hsn, Hso.
  apply Forall_app in Hin as [Hin _]. apply Forall_app in Hpd as [Hpd _].
  apply Forall_app. split.
  - rewrite Forall_forall in *. intros q Hq. left. destruct (Hd q Hq) as [Hne _].
    specialize (Hin q Hq). unfold in_window in Hin. destruct (Hpd q Hq) as [Hqs _].
    assert (win_pos r (pdu_sn q) ≠ win_pos r n) by (intros E; by apply Hne, (win_pos_inj r)).
    destruct cur; lia.
  - pose proof (contiguous_sn n d 0 cur pos Hc) as H1.
    pose proof (contiguous_so n d 0 cur pos Hc) as H2.
    rewrite Forall_forall in *. intros q Hq. right. auto.
Qed.

Lemma insert_ok :
  ∃ r', reception_actions e2 n = Ok r' ∧ um_rx_inv r' ∧ um_tx_state r' = um_tx_state r.
Proof using Hx Hsn Hseg Hwhole.
  rewrite <- Hsn. apply insert_segment_ok; [apply Hx | apply segment_pdu_ok | done |].
  destruct Hseg as (b & -> & _). done.
Qed.

Lemma is_data : processed [p] = false.
Proof using Hseg. destruct Hseg as (b & Hb & _). simpl. rewrite Hb. done. Qed.

Lemma cur_data l : processed (cur ++ p :: l) = false.
Proof using Hc Hseg.
  pose proof (contiguous_segments n d 0 cur pos Hc) as H. clear Hx. destruct cur as [| q cur'].
  - exact is_data.
  - apply Forall_inv in H as (b & Hb & _). simpl. by rewrite Hb.
Qed.

Lemma from_sn_cur done l : Forall (marker n) done → Forall (λ p, pdu_sn p = n) l →
  from_sn n (done ++ cur ++ p :: l) = cur ++ p :: l.
Proof using Hc Hsn.
  intros Hd Hl. apply from_sn_skip; [done |]. apply Forall_app. split.
  - by eapply contiguous_sn.
  - by constructor.
Qed.

(** The window step of a segment that does not end the SDU: nothing but [rx_next_highest]
    moves, to just after the SDU. *)
Lemma window_more : pdu_is_last p = false →
  ∃ done c, Forall (marker n) done ∧ out c = out (common r) ∧
    reception_window e2 n =
      Ok (set_rx (move_high e2 n) (done ++ cur ++ [p]) (pdu_size p + rx_size r) c).
Proof using Hx Hc Hsn Hso Hseg.
  intros Hlast. destruct expected_pos as [Hn Hp]. pose proof segment_pdu_ok as Hpok.
  pose proof Hx as [[[Hw _ _ _ Hpd Hin _ _] _] Hnext _ (done & Hl & Hd) Hh _].
  pose proof (insert_list done Hl Hd) as Hl2.
  pose proof (contiguous_snoc n d 0 cur pos p Hc Hsn Hso Hseg Hlast) as Hc2.
  assert (Hw2 : um_window e2) by by destruct Hw.
  unfold reception_window, sdu_full. rewrite Hl2, from_sn_cur, cur_data by done.
  rewrite (contiguous_not_full n d 0 _ _ Hc2 : sdu_full_loop n (-1) _ = false).
  unfold sn_compare_rx at 1. change (rx_next_highest e2) with (rx_next_highest r).
  rewrite !modulus_rx_pos by (done || apply Hw).
  change (win_pos e2) with (win_pos r). rewrite win_pos_high, Hp by done.
  destruct cur as [| q cur'] eqn:Ecur; simpl in Hp.
  - decide_true (0 <=? window_size r - window_size r).
    fold (move_high e2 n). set (e3 := move_high e2 n).
    assert (Hw3 : um_window e3) by by apply move_high_window.
    assert (Hpos3 : win_pos e3 n = window_size r - 1).
    { destruct (move_high_pos e2 n n Hw2 Hn Hn) as [_ H]; [change (window_size r <= win_pos r n); lia |].
      fold e3 in H. rewrite H. change (win_pos e2 n) with (win_pos r n).
      change (window_size e2) with (window_size r). rewrite Hp. destruct Hw. clear H.
      case_match; lia. }
    change (rx_list e3) with (rx_list e2). rewrite Hl2. change ([] ++ [p]) with [p].
    rewrite Hl, app_nil_r in Hpd.
    destruct (discard_markers n e3 done p) as (k & c & -> & Ho).
    { done. } { apply Forall_app; split; [done | by constructor]. } { done. }
    { rewrite Hsn, Hpos3. change (window_size e3) with (window_size r). lia. }
    exists (drop k done), c. split; [by apply Forall_drop |]. split; [done |].
    set (e4 := set_rx _ _ _ _). assert (Hw4 : um_window e4) by by destruct Hw3.
    change (rx_next_reassembly e4) with (rx_next_reassembly r). rewrite Hnext.
    unfold sn_compare_rx. rewrite !modulus_rx_pos by (done || apply Hw4).
    rewrite win_pos_high by done. change (win_pos e4) with (win_pos e3). rewrite Hpos3.
    change (window_size e4) with (window_size r).
    by decide_false (0 <=? window_size r - 1 - window_size r).
  - decide_false (0 <=? window_size r - 1 - window_size r).
    exists done, (common r). split_and!; try done. f_equal.
    unfold move_high. change (sn_modulus e2) with (sn_modulus r). rewrite <- Hh, <- Hl2.
    unfold e2, e1. by destruct r.
Qed.

(** A segment that does not end the SDU is stored; nothing is delivered. *)
Lemma insert_more : pdu_is_last p = false →
  ∃ r', reception_actions e2 n = Ok r' ∧ rx_expects r' n (cur ++ [p]) ∧ rx_gives r r' [].
Proof.
  intros Hlast. destruct insert_ok as (r' & Hr' & Hinv' & Htx).
  destruct expected_pos as [Hn Hp].
  pose proof Hx as [[[Hw _ _ _ _ _ _ _] _] Hnext Htimer _ _ Hsize].
  destruct (window_more Hlast) as (done & c & Hd & Ho & Hwin).
  pose proof (contiguous_snoc n d 0 cur pos p Hc Hsn Hso Hseg Hlast) as Hc2.
  exists r'. split; [done |]. revert Hr'. unfold reception_actions. rewrite Hwin. simpl.
  set (e3 := set_rx _ _ _ _).
  rewrite timer_idle; [| by destruct (move_high_window r n Hw Hn) | by rewrite <- Hnext in Hn | done |].
  2:{ right. split; [change (Z.rem (n + 1) (sn_modulus r) =
                       Z.rem (rx_next_reassembly r + 1) (sn_modulus r)); by rewrite Hnext |].
      change (rx_next_reassembly e3) with (rx_next_reassembly r). rewrite Hnext.
      unfold sdu_has_missing_bytes. change (rx_list e3) with (done ++ cur ++ [p]).
      rewrite from_sn_cur, cur_data by done. by apply (contiguous_not_missing n d 0 _ _ Hc2). }
  intros [= <-]. split.
  - constructor; try done.
    + exists done. split; done.
    + change (rx_next_highest e3) with (Z.rem (n + 1) (sn_modulus r)). by destruct cur.
    + change (rx_size e3) with (pdu_size p + rx_size r).
      rewrite (contiguous_size n d 0 _ _ Hc2), Hsize, (contiguous_size n d 0 _ _ Hc). lia.
  - unfold rx_gives. split_and!; try done. simpl. by rewrite app_nil_r.
Qed.

Lemma sum_pdus_snoc l q : sum_pdus (l ++ [q]) = sum_pdus l + pdu_size q.
Proof. induction l as [| x l IH]; simpl; [lia |]. rewrite IH. lia. Qed.

Lemma sdu_rebuilt rs : pdu_is_last p = true → zlen d <= NR_SDU_MAX →
  ∃ l, reassemble_loop n (cur ++ [p]) 0 false [] rs =
      Ok (l, zlen d, false, d, rs - sum_pdus (cur ++ [p])) ∧
    l ≠ [] ∧ Forall (λ q, pdu_sn q = n ∧ pdu_data q = None) l.
Proof using Hc Hsn Hso Hseg.
  intros Hlast Hmax.
  assert (Hs : Forall (λ q, pdu_sn q = n → segment_of d q) (cur ++ [p])).
  { eapply Forall_impl; [| by intros q Hq _; exact Hq]. apply Forall_app.
    split; [by eapply contiguous_segments | by constructor]. }
  assert (Hn : Forall (λ q, pdu_sn q = n) (cur ++ [p])).
  { apply Forall_app. split; [by eapply contiguous_sn | by constructor]. }
  pose proof (contiguous_full n d 0 cur pos p Hc Hsn Hso Hlast) as Hf.
  pose proof (zlen_nonneg d).
  destruct (reassemble_full n d (cur ++ [p]) 0 rs Hs Hmax) as (l & rs' & Hl); [lia | done |].
  change (take (Z.to_nat 0) d) with (@nil Z) in Hl.
  destruct (reassemble_clears n _ _ _ _ _ _ _ _ _ _ Hn Hl) as (Hcl & Hrs & Hlen).
  exists l. rewrite Hl, Hrs. split_and!; try done. intros ->. rewrite length_app in Hlen.
  simpl in Hlen. lia.
Qed.

(** Once SDU [n], the last of the window, is delivered, the next SDU to reassemble is the one
    after it. *)
Lemma next_expected e l :
  um_window e → Forall (in_window e) l → sdu_delivered l n = true → 0 <= n < sn_modulus e →
  win_pos e n = window_size e - 1 →
  skip_delivered (Z.to_nat (sn_modulus e)) l (sn_modulus e) n = Ok (rx_next_highest e).
Proof using.
  intros Hw Hin Hdel Hn Hp. destruct (Hw) as [Hs Hh].
  destruct (skip_delivered_ok e l (Z.to_nat (sn_modulus e)) n)
    as (m & -> & Hmr & Hmp & Hmd & _); try done; [lia.. |].
  f_equal. apply (win_pos_inj e); try done. rewrite win_pos_high by done.
  assert (win_pos e m ≠ win_pos e n).
  { intros E. apply win_pos_inj in E; [| done..]. subst m. congruence. }
  lia.
Qed.

(** The window step of the segment that ends the SDU. *)
Lemma window_last : pdu_is_last p = true → zlen d <= NR_SDU_MAX →
  ∃ l c, Forall (in_window r) l ∧ Forall (λ q, pdu_data q = None) l ∧
    out c = out (common r) ++ [deliver_sdu d (zlen d)] ∧
    rx_next_highest r = Z.rem (n + 1) (sn_modulus r) ∧
    reception_window e2 n = Ok ((set_rx e2 l 0 c) <| rx_next_reassembly := rx_next_highest r |>).
Proof using Hx Hc Hsn Hso Hseg Hwhole.
  intros Hlast Hmax. destruct expected_pos as [Hn Hp].
  pose proof Hx as [[[Hw _ _ _ _ Hin _ _] _] Hnext _ (done & Hl & Hd) Hh Hsize].
  pose proof (insert_list done Hl Hd) as Hl2.
  assert (Hcur : win_pos r n = window_size r - 1 ∧
                 rx_next_highest r = Z.rem (n + 1) (sn_modulus r)).
  { destruct cur; [| done]. simpl in Hc. rewrite Hwhole in Hlast; [done | congruence]. }
  clear Hp Hh. destruct Hcur as [Hp Hh].
  assert (Hfull : sdu_full e2 n = true).
  { unfold sdu_full. rewrite Hl2, from_sn_cur, cur_data by done.
    by apply (contiguous_full n d 0 cur pos p). }
  unfold reception_window. rewrite Hfull. unfold reassemble_and_deliver. rewrite Hl2.
  rewrite reassemble_from_skip; [| done | | by destruct cur].
  2:{ apply Forall_app. split; [by eapply contiguous_sn | by constructor]. }
  destruct (sdu_rebuilt (rx_size e2) Hlast Hmax) as (l & -> & Hne & Hcl). simpl.
  rewrite Hnext, Z.eqb_refl.
  set (e3 := e2 <| rx_list := _ |> <| rx_size := _ |> <| common ::= _ |>).
  assert (Hin3 : Forall (in_window r) (done ++ l)).
  { rewrite Hl in Hin. apply Forall_app in Hin as [Hin _]. apply Forall_app. split; [exact Hin |].
    eapply Forall_impl; [exact Hcl |]. intros q [Hq _]. unfold in_window. rewrite Hq. lia. }
  assert (Hdel : sdu_delivered (done ++ l) n = true).
  { unfold sdu_delivered. rewrite from_sn_skip;
      [| done | by eapply Forall_impl; [exact Hcl | intros q [? _]]].
    destruct Hcl as [| q l [_ Hq] _]; [done |]. simpl. by rewrite Hq. }
  unfold first_not_delivered. change (rx_list e3) with (done ++ l).
  rewrite (next_expected e3 (done ++ l)) by (try done; by destruct Hw). simpl.
  exists (done ++ l), (common e3). split_and!; try done.
  - apply Forall_app. split; (eapply Forall_impl; [done | by intros q [_ ?]]).
  - subst e3. unfold e2, e1. do 2 f_equal. unfold set_rx. simpl.
    rewrite sum_pdus_snoc, Hsize.
    by replace (pdu_size p + sum_pdus cur - (sum_pdus cur + pdu_size p)) with 0 by lia.
Qed.

(** The segment that ends the SDU: the SDU is delivered and the next one is expected. *)
Lemma insert_last : pdu_is_last p = true → zlen d <= NR_SDU_MAX →
  ∃ r', reception_actions e2 n = Ok r' ∧
    rx_expects r' (Z.rem (n + 1) (sn_modulus r)) [] ∧ rx_gives r r' [d].
Proof.
  intros Hlast Hmax. destruct insert_ok as (r' & Hr' & Hinv' & Htx).
  pose proof Hx as [[[Hw _ _ _ _ _ _ _] _] _ Htimer _ _ _].
  destruct (window_last Hlast Hmax) as (l & c & Hin & Hnone & Ho & Hh & Hwin).
  exists r'. split; [done |]. revert Hr'. unfold reception_actions. rewrite Hwin. simpl.
  rewrite timer_idle; [| by destruct Hw | apply Hw | done | by left].
  intros [= <-]. rewrite <- Hh. split.
  - constructor; try done. exists l. split; [by rewrite app_nil_r |].
    rewrite Forall_forall in *. intros q Hq. split; [| by apply Hnone].
    intros E. specialize (Hin q Hq). unfold in_window in Hin. rewrite E, win_pos_high in Hin by done.
    lia.
  - unfold rx_gives. split_and!; done.
Qed.
End insert.
