(* ===== verification/RlcUmTransfer.v ===== *)
(** * NR RLC UM: two entities and the channel between them

    A transmitting and a receiving entity joined by a channel that loses nothing: the
    transmitter as a FIFO of SDUs ([um_waiting]), what one grant of the MAC does to both ends,
    and the transfer of any sequence of SDUs, whatever the sizes of the grants. *)

From S2P Require Import Prelude RlcPdu RlcEntity RlcUm RlcUmTx RlcUmRx RlcUmProps RlcUmLink.

(** ** The transmitter as a FIFO *)

(** Segment [s] stands for the SDU [q.1] from its byte [q.2] on. *)
Definition holds (h : sdu_heap) (s : nr_rlc_sdu_segment_t) (q : bytes * Z) : Prop :=
  ∃ u, sdus h !! seg_sdu s = Some u ∧ sdu_data u = q.1 ∧ seg_so s = q.2 ∧
    seg_size s = zlen q.1 - q.2.

(** The SDUs [ds], the first of them sent up to [pos]. *)
Definition fifo (pos : Z) (ds : list bytes) : list (bytes * Z) :=
  match ds with [] => [] | d :: ds' => (d, pos) :: map (λ d, (d, 0)) ds' end.

Definition sdu_ok (d : bytes) : Prop := 0 < zlen d <= NR_SDU_MAX.

Definition um_waiting (e : nr_rlc_entity_um_t) (pos : Z) (ds : list bytes) : Prop :=
  Forall2 (holds (mem (common e))) (tx_list e) (fifo pos ds) ∧ Forall sdu_ok ds ∧
  match ds with [] => pos = 0 | d :: _ => 0 <= pos < zlen d end.

Lemma holds_sub h h' l q :
  data_sub h' h → (∀ s, s ∈ l → is_Some (sdus h' !! seg_sdu s)) →
  Forall2 (holds h) l q → Forall2 (holds h') l q.
Proof.
  intros Hsub Hlive Hq. induction Hq as [| s x l q (u & Hu & Hd & Hso & Hsz) Hq IH]; constructor.
  - destruct (Hlive s) as [u' Hu']; [left |]. exists u'. split; [done |].
    destruct (Hsub _ _ Hu') as (u2 & Hu2 & Hd2 & _). simplify_eq. split_and!; congruence.
  - apply IH. intros x' Hx'. apply Hlive. by right.
Qed.

Lemma fifo_snoc pos ds d : match ds with [] => pos = 0 | _ => True end →
  fifo pos (ds ++ [d]) = fifo pos ds ++ [(d, 0)].
Proof. destruct ds; simpl; [by intros -> |]. by rewrite map_app. Qed.

(** An accepted SDU goes to the end of the FIFO. *)
Lemma appended_waiting e e' pos ds d :
  um_waiting e pos ds → appended e e' d → sdu_ok d → um_waiting e' pos (ds ++ [d]).
Proof.
  intros (Hq & Hok & Hpos) (_ & _ & s & u & Hl & Hso & Hsz & Hd & Hfree & Hm) Hd'.
  split_and!.
  - rewrite Hl, fifo_snoc by by destruct ds. apply Forall2_app.
    + eapply Forall2_impl; [exact Hq |]. intros s' q (u' & Hu' & Hrest). exists u'.
      rewrite Hm, lookup_insert_ne; [done |]. congruence.
    + repeat constructor. exists u. rewrite Hm, lookup_insert_eq. simpl. split_and!; (done || lia).
  - apply Forall_app. split; [done | by constructor].
  - destruct ds; simpl in *; [subst pos; destruct Hd'; lia | done].
Qed.

Lemma same_waiting e e' pos ds : um_same_tx e e' → um_waiting e pos ds → um_waiting e' pos ds.
Proof. intros (_ & _ & Hl & _ & _ & _ & _ & Hm & _). unfold um_waiting. by rewrite Hl, Hm. Qed.

(** ** One PDU *)

(** The FIFO after [k] more bytes of its first SDU. *)
Definition advance (pos k : Z) (d : bytes) (ds : list bytes) : Z * list bytes :=
  if pos + k =? zlen d then (0, ds) else (pos + k, d :: ds).

(** [pdu], sent by [e], carries the bytes [pos .. pos + k) of the first SDU [d]: what any
    receiver with the same SN length does with it. *)
Definition pdu_carries (e : nr_rlc_entity_um_t) (d : bytes) (pos k : Z) (pdu : bytes) : Prop :=
  ∃ payload, slice d pos k = Some payload ∧ zlen payload = k ∧
  ∀ r, sn_field_length r = sn_field_length e →
  ∃ dec, slice pdu (d_byte dec) k = Some payload ∧ d_byte dec = zlen pdu - k ∧
    nr_rlc_entity_um_recv_pdu r pdu =
      if (pos =? 0) && (k =? zlen d) then Ok (deliver_full payload (count_rx (zlen pdu) r))
      else recv_segment (count_rx (zlen pdu) r) pdu (zlen pdu) (tx_next e) pos (pos =? 0)
             (pos + k =? zlen d) dec.

(** The segment that was sent, and the FIFO that is left. *)
Lemma sent_fifo e e' x ux pos ds :
  um_waiting e pos ds → heap_safe (mem (common e')) (tx_list e') →
  data_sub (mem (common e')) (mem (common e)) → seg_in ux x →
  sent_head (mem (common e)) (tx_list e) x ux (tx_list e') →
  ∃ d ds', ds = d :: ds' ∧ sdu_data ux = d ∧ seg_so x = pos ∧ 0 < seg_size x ∧
    pos + seg_size x <= zlen d ∧ seg_is_first x = (pos =? 0) ∧
    seg_is_last x = (pos + seg_size x =? zlen d) ∧
    um_waiting e' (advance pos (seg_size x) d ds').1 (advance pos (seg_size x) d ds').2.
Proof.
  intros (Hq & Hok & Hpos) Hsafe Hsub (Hz & _ & _ & _ & Hf & Hla) (s & u & l & Hl & Hu & Hd & Hso & Hcase).
  rewrite Hl in Hq. destruct ds as [| d ds']; [by inversion Hq |]. simpl in Hq.
  apply Forall2_cons in Hq as [(u2 & Hu2 & Hd2 & Hso2 & Hsz2) Hq]. simpl in *.
  assert (u2 = u) as -> by congruence. subst d pos.
  assert (Hsize : 0 < seg_size x ∧ seg_so s + seg_size x <= zlen (sdu_data u)) by lia.
  exists (sdu_data u), ds'. rewrite Hz, Hd in *. rewrite Hso in *. split_and!; try done; try lia.
  unfold um_waiting, advance. destruct Hcase as [[Hs Hr] | [Hs [a Hr]]]; rewrite Hr in *.
  - decide_true (seg_so s + seg_size x =? zlen (sdu_data u)). simpl.
    apply Forall_cons in Hok as [_ Hok]. split_and!; [| done | ].
    + eapply holds_sub; [done | intros; by eapply hs_live |].
      destruct ds'; [by inversion Hq | exact Hq].
    + destruct Hok as [| d' ? [? _] _]; [done | lia].
  - decide_false (seg_so s + seg_size x =? zlen (sdu_data u)). simpl.
    split_and!; [| done | lia..].
    eapply holds_sub; [done | intros; by eapply hs_live |]. constructor; [| done].
    exists u. simpl. split_and!; try done. lia.
Qed.

Lemma slice_range (d : bytes) pos k : 0 <= pos → 0 <= k → pos + k <= zlen d →
  slice d pos k = Some (take (Z.to_nat k) (drop (Z.to_nat pos) d)).
Proof. intros. by rewrite slice_Some by lia. Qed.

(** The PDU of the sent segment is read back by the receiver. *)
Lemma pdu_of_carries e x ux hdr d pos payload :
  um_config e → 0 <= tx_next e < sn_modulus e → seg_in ux x → sdu_size ux <= NR_SDU_MAX →
  sdu_sn ux = tx_next e → um_pdu_of e (sdu_sn ux) x hdr payload →
  sdu_data ux = d → seg_so x = pos → seg_size x = zlen payload → 0 < zlen payload →
  payload = take (Z.to_nat (seg_size x)) (drop (Z.to_nat (seg_so x)) (sdu_data ux)) →
  pdu_carries e d pos (seg_size x) hdr.
Proof.
  intros Hcfg Hn Hin Hmax Hsn (h & -> & Hh & Hbits) <- <- Hsz Hpos Hpay.
  pose proof Hin as (Hz & H1 & _ & H3 & Hf & Hla).
  exists payload. split_and!; [| done |].
  - rewrite slice_range by lia. by rewrite <- Hpay.
  - intros r Hr. destruct (recv_header e r ux x h payload) as (dec & Hdec & Hrecv); try done; try lia.
    exists dec. rewrite Hdec, zlen_app, Hsz. split_and!.
    + pose proof (zlen_nonneg h). rewrite slice_Some by (rewrite ?zlen_app; lia).
      rewrite drop_app_length' by (unfold zlen; lia). by rewrite take_zlen.
    + lia.
    + rewrite zlen_app in Hrecv. rewrite Hrecv, Hf, Hla, Hsn, Hz, Hsz.
      destruct (Z.eqb_spec (seg_so x) 0) as [-> |]; done.
Qed.

Lemma generate_fifo e buffer size now_us pos ds :
  um_tx_inv e → um_waiting e pos ds → size <= zlen buffer → um_lossy e size = false →
  (nr_rlc_entity_um_generate_pdu e buffer size now_us = Ok (0, buffer, e) ∧
   (ds = [] ∨ size < 5)) ∨
  ∃ d ds' k ret buf e', ds = d :: ds' ∧
    nr_rlc_entity_um_generate_pdu e buffer size now_us = Ok (ret, buf, e') ∧
    0 < ret ∧ 0 < k ∧ pos + k <= zlen d ∧ um_tx_inv e' ∧ um_params e' = um_params e ∧
    um_rx_state e' = um_rx_state e ∧ tx_maxsize e' = tx_maxsize e ∧ tx_size e' = tx_size e - k ∧
    um_waiting e' (advance pos k d ds').1 (advance pos k d ds').2 ∧
    tx_next e' = (if negb (pos =? 0) && (pos + k =? zlen d)
                  then Z.rem (tx_next e + 1) (sn_modulus e) else tx_next e) ∧
    pdu_carries e d pos k (take (Z.to_nat ret) buf).
Proof.
  intros Hinv Hq Hsize Hloss. unfold nr_rlc_entity_um_generate_pdu.
  destruct (generate_spec e buffer size now_us Hinv Hsize Hloss)
    as [[H Hno] | (ret & buf & e' & pl & H & Hinv' & _ & _ & Hrx & Hp & _ & Hret & _ & x & u & Hx)].
  - left. split; [done |]. destruct Hq as (Hq & _ & _).
    destruct (tx_list e) as [| s l]; [left; by destruct ds; [| inversion Hq] |]. right.
    rewrite header_cases in Hno by apply Hinv. repeat case_match; lia.
  - right. destruct Hx as (Hpdu & Hin & Hmax & Hsn & _ & _ & Hpl & Hsz & Hnx & Hmxs & Hts & Hsub & Hhead).
    destruct (sent_fifo e e' x u pos ds Hq (ti_heap e' Hinv') Hsub Hin Hhead)
      as (d & ds' & -> & Hd & Hso & Hk & Hle & Hf & Hla & Hq').
    exists d, ds', (seg_size x), ret, buf, e'. split_and!; try done; try lia.
    + rewrite Hnx. unfold next_after. by rewrite Hf, Hla.
    + eapply (pdu_of_carries e x u); try done; try apply Hinv. lia.
Qed.

(** ** One PDU at the receiver *)

(** The receiver has the bytes [0 .. pos) of the SDU at the head of the FIFO. *)
Definition rx_progress (r : nr_rlc_entity_um_t) (n pos : Z) (ds : list bytes) : Prop :=
  ∃ cur, rx_expects r n cur ∧
    match ds with [] => cur = [] | d :: _ => contiguous n d 0 cur pos end.

Lemma contiguous_empty n d cur : contiguous n d 0 cur 0 → cur = [].
Proof.
  intros Hc. pose proof (contiguous_so n d 0 cur 0 Hc) as Hso. destruct cur as [| p cur]; [done |].
  pose proof (contiguous_size n d 0 _ _ Hc) as Hs.
  pose proof (contiguous_segments n d 0 _ _ Hc) as Hp. exfalso.
  assert (Hpos : ∀ l, Forall (segment_of d) l → 0 <= sum_pdus l).
  { induction 1 as [| q l (? & _ & _ & Hq & _) _ IH]; simpl; lia. }
  apply Forall_cons in Hp as [(? & _ & _ & Hq & _) Hp]. specialize (Hpos _ Hp). simpl in Hs. lia.
Qed.

Lemma rx_progress_start r n ds : rx_expects r n [] → rx_progress r n 0 ds.
Proof. intros Hx. exists []. split; [done |]. by destruct ds. Qed.

Lemma rx_expects_same r r' n cur :
  um_rx_state r' = um_rx_state r → um_params r' = um_params r →
  rx_expects r n cur → rx_expects r' n cur.
Proof.
  intros Hr Hp [H1 H2 H3 H4 H5 H6]. pose proof Hr as [= _ E2 E3 _ _ E4 E5 E6 _].
  pose proof Hp as [= _ E7 _].
  constructor; [by eapply um_rx_state_inv | congruence | congruence | by rewrite E5 | | congruence].
  by rewrite E2, E7.
Qed.

Section receive.
Context (r : nr_rlc_entity_um_t) (n : Z) (d : bytes) (cur : list nr_rlc_pdu_t) (pos k : Z).
Context (pdu payload : bytes) (dec : nr_rlc_pdu_decoder_t).
Context (Hx : rx_expects r n cur) (Hc : contiguous n d 0 cur pos).
Context (Hd : sdu_ok d) (Hroom : NR_SDU_MAX <= rx_maxsize r).
Context (Hpay : slice d pos k = Some payload) (Hk : 0 < k) (Hle : pos + k <= zlen d).
Context (Hdec : slice pdu (d_byte dec) k = Some payload) (Hbyte : d_byte dec = zlen pdu - k).
Context (Hpart : pos = 0 → k ≠ zlen d).

Let p := mk_pdu n (Some payload) k pos (pos =? 0) (pos + k =? zlen d).

Lemma recv_segment_accepts :
  let e1 := r <| rx_size ::= Z.add k |> in
  recv_segment r pdu (zlen pdu) n pos (pos =? 0) (pos + k =? zlen d) dec =
    reception_actions (e1 <| rx_list ::= λ l, nr_rlc_pdu_list_add (sn_compare_rx e1) l p |>) n.
Proof.
  intros e1. pose proof Hx as [[[Hw _ _ _ _ _ _ _] _] Hn _ _ _ Hs].
  unfold recv_segment. replace (zlen pdu - d_byte dec) with k by lia.
  decide_false (k <=? 0). rewrite Hs, (contiguous_size n d 0 _ _ Hc). destruct Hd as [_ Hmax].
  decide_false (rx_maxsize r <? pos - 0 + k). rewrite Hn. unfold sn_compare_rx at 1.
  decide_false (modulus_rx r n - modulus_rx r n <? 0).
  unfold nr_rlc_new_pdu. rewrite <- Hbyte, Hdec. simpl. done.
Qed.

Lemma recv_segment_progress :
  ∃ r', recv_segment r pdu (zlen pdu) n pos (pos =? 0) (pos + k =? zlen d) dec = Ok r' ∧
    if pos + k =? zlen d
    then rx_expects r' (Z.rem (n + 1) (sn_modulus r)) [] ∧ rx_gives r r' [d]
    else rx_progress r' n (pos + k) [d] ∧ rx_gives r r' [].
Proof.
  rewrite recv_segment_accepts.
  assert (Hseg : segment_of d p) by (exists payload; split_and!; done).
  assert (Hwhole : pdu_so p = 0 → pdu_is_last p = false).
  { simpl. intros ->. specialize (Hpart eq_refl). by apply Z.eqb_neq. }
  destruct (pos + k =? zlen d) eqn:Hl.
  - destruct (insert_last r n d cur pos p) as (r' & H1 & H2 & H3); try done; [apply Hd |]. eauto.
  - destruct (insert_more r n d cur pos p) as (r' & H1 & H2 & H3); try done.
    exists r'. split; [done |]. split; [| done]. exists (cur ++ [p]). split; [done |].
    by apply (contiguous_snoc n d 0 cur pos p).
Qed.
End receive.

(** ** The link *)

(** The two ends, and the SDUs the transmitter accepted so far. *)
Record um_link := mk_link {
  l_tx : nr_rlc_entity_um_t;
  l_rx : nr_rlc_entity_um_t;
  l_sent : list bytes
}.

Inductive link_op :=
| LinkSubmit (sdu : bytes) (sdu_id now_us : Z)
| LinkGrant (buffer : bytes) (size now_us : Z)
| LinkTickTx (now : Z)
| LinkTickRx (now : Z).

(** An SDU from the upper layer; a grant of the MAC, whose PDU, if there is one, reaches the
    peer; the passing of time at either end. *)
Definition link_exec (k : um_link) (op : link_op) : res um_link :=
  match op with
  | LinkSubmit sdu sdu_id now_us =>
      a ← nr_rlc_entity_um_recv_sdu (l_tx k) sdu sdu_id now_us;
      Ok (mk_link a (l_rx k)
            (if zlen sdu <=? nr_rlc_entity_um_available_tx_space (l_tx k)
             then l_sent k ++ [sdu] else l_sent k))
  | LinkGrant buffer size now_us =>
      '(ret, buf, a) ← nr_rlc_entity_um_generate_pdu (l_tx k) buffer size now_us;
      if ret =? 0 then Ok (mk_link a (l_rx k) (l_sent k))
      else
        b ← nr_rlc_entity_um_recv_pdu (l_rx k) (take (Z.to_nat ret) buf);
        Ok (mk_link a b (l_sent k))
  | LinkTickTx now =>
      a ← nr_rlc_entity_um_set_time (l_tx k) now;
      Ok (mk_link a (l_rx k) (l_sent k))
  | LinkTickRx now =>
      b ← nr_rlc_entity_um_set_time (l_rx k) now;
      Ok (mk_link (l_tx k) b (l_sent k))
  end.

Fixpoint link_run (k : um_link) (ops : list link_op) : res um_link :=
  match ops with [] => Ok k | op :: ops' => k ← link_exec k op; link_run k ops' end.

(** SDUs are not empty and fit; a grant is not larger than its buffer. *)
Definition link_op_ok (op : link_op) : Prop :=
  match op with
  | LinkSubmit sdu _ _ => sdu_ok sdu
  | LinkGrant buffer size _ => size <= zlen buffer
  | LinkTickTx _ | LinkTickRx _ => True
  end.

(** A grant of exactly two bytes can lose an SDU when the SN has 12 bits ([um_lossy]). *)
Definition may_lose (snlen : Z) (op : link_op) : bool :=
  match op with LinkGrant _ size _ => (snlen =? 12) && (size =? 2) | _ => false end.

Definition delivered (ds : list bytes) := map (λ d, deliver_sdu d (zlen d)) ds.

(** The SDUs accepted are those delivered, then those waiting, in order. *)
Record link_inv (snlen : Z) (k : um_link) (done ds : list bytes) (pos : Z) : Prop := {
  li_tx : um_inv (l_tx k);
  li_len : sn_field_length (l_tx k) = snlen;
  li_params : um_params (l_rx k) = um_params (l_tx k);
  li_room : NR_SDU_MAX <= rx_maxsize (l_rx k);
  li_wait : um_waiting (l_tx k) pos ds;
  li_rx : rx_progress (l_rx k) (tx_next (l_tx k)) pos ds;
  li_out : out (common (l_rx k)) = delivered done;
  li_sent : l_sent k = done ++ ds
}.

Lemma not_lossy e size : (sn_field_length e = 12 → size ≠ 2) → um_lossy e size = false.
Proof.
  intros H. unfold um_lossy. destruct (tx_list e) as [| s l]; [done |].
  destruct (Z.eqb_spec (sn_field_length e) 12); [| by rewrite andb_false_r].
  destruct (Z.eqb_spec size 2); [naive_solver | by rewrite andb_false_r].
Qed.

Lemma rx_progress_snoc r n pos ds d : match ds with [] => pos = 0 | _ => True end →
  rx_progress r n pos ds → rx_progress r n pos (ds ++ [d]).
Proof.
  intros Hp (cur & Hx & Hc). exists cur. split; [done |]. destruct ds; [by subst | done].
Qed.

Lemma submit_ok snlen k sdu id now done ds pos :
  link_inv snlen k done ds pos → sdu_ok sdu →
  ∃ k' ds', link_exec k (LinkSubmit sdu id now) = Ok k' ∧ link_inv snlen k' done ds' pos.
Proof.
  intros [[Ht Hr] <- Hp Hroom Hw Hrx Hout Hsent] Hok. simpl.
  unfold nr_rlc_entity_um_available_tx_space.
  destruct (Z.leb_spec (zlen sdu) (tx_maxsize (l_tx k) - tx_size (l_tx k))).
  - destruct (recv_sdu_accept (l_tx k) sdu id now Ht) as (a & -> & Hi & _ & _ & Hrs & Hpa & _ & _ & Ha);
      [apply Hok | lia |]. simpl. eexists _, (ds ++ [sdu]). split; [done |].
    constructor; simpl; try done.
    + split; [done |]. by eapply um_rx_state_inv.
    + by injection Hpa.
    + congruence.
    + by eapply appended_waiting.
    + destruct Ha as [-> _]. apply rx_progress_snoc; [| done].
      destruct Hw as (_ & _ & Hpos). by destruct ds.
    + by rewrite Hsent, app_assoc.
  - destruct (recv_sdu_reject (l_tx k) sdu id now) as (a & -> & Hs); [apply Hok | lia |]. simpl.
    destruct (um_same_tx_inv _ _ Hs Ht) as (Hi & _). pose proof Hs as (Hpa & Hrs & _ & _ & _ & Hn & _).
    eexists _, ds. split; [done |]. constructor; simpl; try done.
    + split; [done |]. by eapply um_rx_state_inv.
    + by injection Hpa.
    + congruence.
    + by eapply same_waiting.
    + by rewrite Hn.
Qed.

Lemma tick_tx_ok snlen k now done ds pos :
  link_inv snlen k done ds pos →
  ∃ k', link_exec k (LinkTickTx now) = Ok k' ∧ link_inv snlen k' done ds pos.
Proof.
  intros [[Ht Hr] <- Hp Hroom Hw Hx Hout Hsent]. simpl. unfold nr_rlc_entity_um_set_time.
  assert (Hr0 : um_rx_inv ((l_tx k) <| t_current := now |>)).
  { destruct Hr as [[[] ? ? ? ? ? ? ?] ?]. split; [by constructor | done]. }
  destruct (check_t_reassembly_ok _ Hr0) as (a & -> & Hra & Htx).
  change (um_tx_state a = um_tx_state (l_tx k)) in Htx. simpl.
  eexists. split; [done |]. destruct (um_tx_state_inv _ _ Htx) as (Hta & _).
  pose proof Htx as [= Hn Hl _ Hsz _ Hm _ Hpl Hpm Hpw _]. constructor; simpl; try done.
  - split; [by apply Hta | done].
  - unfold um_params in *. simpl. congruence.
  - unfold um_waiting. by rewrite Hl, Hm.
  - by rewrite Hn.
Qed.

Lemma tick_rx_ok snlen k now done ds pos :
  link_inv snlen k done ds pos →
  ∃ k', link_exec k (LinkTickRx now) = Ok k' ∧ link_inv snlen k' done ds pos.
Proof.
  intros [Hi <- Hp Hroom Hw (cur & Hx & Hc) Hout Hsent]. simpl. unfold nr_rlc_entity_um_set_time.
  unfold check_t_reassembly. change (t_reassembly_start ((l_rx k) <| t_current := now |>))
    with (t_reassembly_start (l_rx k)). rewrite (re_timer _ _ _ Hx). simpl.
  eexists. split; [done |]. constructor; simpl; try done.
  exists cur. split; [| done]. pose proof Hx as [[[[] ? ? ? ? ? ? ?] ?] ? ? ? ? ?]. by constructor.
Qed.

(** One PDU reaches the receiver. *)
Lemma recv_progress a b d ds pos k pdu :
  rx_progress b (tx_next a) pos (d :: ds) → pdu_carries a d pos k pdu → um_params b = um_params a →
  Forall sdu_ok (d :: ds) → 0 <= pos → 0 < k → pos + k <= zlen d → NR_SDU_MAX <= rx_maxsize b →
  ∃ b', nr_rlc_entity_um_recv_pdu b pdu = Ok b' ∧
    rx_progress b' (if negb (pos =? 0) && (pos + k =? zlen d)
                    then Z.rem (tx_next a + 1) (sn_modulus a) else tx_next a)
      (advance pos k d ds).1 (advance pos k d ds).2 ∧
    rx_gives b b' (if pos + k =? zlen d then [d] else []).
Proof.
  intros (cur & Hx & Hc) (payload & Hs & Hz & Hrecv) Hp [Hd _]%Forall_cons Hpos Hk Hle Hroom.
  pose proof Hp as [= Hp1 Hp2 _].
  destruct (Hrecv b Hp1) as (dec & Hdec & Hbyte & Heq).
  assert (Hx1 : rx_expects (count_rx (zlen pdu) b) (tx_next a) cur) by by apply (rx_expects_same b).
  unfold advance. destruct ((pos =? 0) && (k =? zlen d)) eqn:Hw.
  - assert (pos = 0 ∧ k = zlen d) as [-> ->] by lia. rewrite Heq.
    decide_true (0 + zlen d =? zlen d). simpl. eexists. split; [done |].
    rewrite slice_range in Hs by lia. injection Hs as Hs. rewrite drop_0, take_zlen in Hs.
    subst payload. apply contiguous_empty in Hc. subst cur. split.
    + apply rx_progress_start. by apply (rx_expects_same b).
    + unfold rx_gives, deliver_full. simpl. by split_and!.
  - destruct (recv_segment_progress (count_rx (zlen pdu) b) (tx_next a) d cur pos k pdu payload dec)
      as (b' & Hb' & Hres); try done; [lia |].
    exists b'. rewrite Heq, Hb'. split; [done |].
    destruct (pos + k =? zlen d) eqn:Hl; simpl.
    + destruct Hres as [He Hg]. decide_false (pos =? 0). simpl. split; [| done].
      apply rx_progress_start. rewrite <- Hp2. exact He.
    + destruct Hres as [He Hg]. rewrite andb_false_r. by split.
Qed.

(** The SDU bytes still to be sent. *)
Definition bytes_left (pos : Z) (ds : list bytes) : Z := foldr (λ d acc, zlen d + acc) 0 ds - pos.

Lemma advance_left pos k d ds :
  bytes_left (advance pos k d ds).1 (advance pos k d ds).2 = bytes_left pos (d :: ds) - k.
Proof. unfold advance, bytes_left. destruct (Z.eqb_spec (pos + k) (zlen d)); simpl; lia. Qed.

Lemma waiting_left e pos ds : um_waiting e pos ds → bytes_left pos ds = sum_size (tx_list e).
Proof.
  intros (Hq & _ & Hpos). unfold bytes_left, fifo in *.
  destruct ds as [| d ds]; [inversion Hq; by subst pos |]. simpl.
  apply Forall2_cons_inv_r in Hq as (s & l & (u & _ & _ & _ & Hs) & Hq & ->). simpl in *.
  assert (sum_size l = foldr (λ d acc, zlen d + acc) 0 ds); [| lia]. clear -Hq. revert l Hq.
  induction ds as [| d ds IH]; simpl; intros l Hq; [by inversion Hq |].
  apply Forall2_cons_inv_r in Hq as (s & l' & (u & _ & _ & _ & Hs) & Hq & ->). simpl in *.
  rewrite (IH _ Hq). lia.
Qed.

Lemma grant_safe snlen k buffer size now done ds pos :
  link_inv snlen k done ds pos → size <= zlen buffer → um_lossy (l_tx k) size = false →
  ∃ k' done' ds' pos', link_exec k (LinkGrant buffer size now) = Ok k' ∧
    link_inv snlen k' done' ds' pos' ∧ l_sent k' = l_sent k ∧
    bytes_left pos' ds' <= bytes_left pos ds ∧
    (5 <= size → ds ≠ [] → bytes_left pos' ds' < bytes_left pos ds).
Proof.
  intros [[Ht Hr] <- Hp Hroom Hw Hrx Hout Hsent] Hsize Hloss. simpl.
  destruct (generate_fifo (l_tx k) buffer size now pos ds Ht Hw Hsize Hloss)
    as [[-> Hno] | (d & ds' & n & ret & buf & a & -> & -> & Hret & Hn & Hle & Hta & Hpa & Hra & _
                    & _ & Hwa & Hna & Hpdu)]; simpl.
  - exists (mk_link (l_tx k) (l_rx k) (l_sent k)), done, ds, pos. destruct k. split; [done |].
    split_and!; [by constructor | done | lia |]. intros. destruct Hno; [done | lia].
  - decide_false (ret =? 0). pose proof Hw as (_ & Hok & Hpos).
    destruct (recv_progress (l_tx k) (l_rx k) d ds' pos n _ Hrx Hpdu Hp Hok)
      as (b & -> & Hb & Htxb & Hmax & _ & Hob); [lia.. |]. simpl.
    eexists _, (if pos + n =? zlen d then done ++ [d] else done), (advance pos n d ds').2,
      (advance pos n d ds').1. split; [done |].
    split_and!; [| done | rewrite advance_left; lia | intros; rewrite advance_left; lia].
    constructor; simpl; try done.
    + split; [done |]. by eapply um_rx_state_inv.
    + by injection Hpa.
    + rewrite Hpa, <- Hp. exact (f_equal (λ t, t.1.2) Htxb).
    + by rewrite Hmax.
    + by rewrite Hna.
    + rewrite Hob, Hout. unfold delivered. case_match; [by rewrite map_app | by rewrite app_nil_r].
    + rewrite Hsent. unfold advance. case_match; simpl; [by rewrite <- app_assoc | done].
Qed.

(** The lost SDU leaves the FIFO; its SN was not used yet, so the receiver does not notice. *)
Lemma grant_loses snlen k buffer size now done ds pos :
  link_inv snlen k done ds pos → um_lossy (l_tx k) size = true →
  ∃ a d ds', ds = d :: ds' ∧ pos = 0 ∧
    link_exec k (LinkGrant buffer size now) = Ok (mk_link a (l_rx k) (l_sent k)) ∧
    link_inv snlen (mk_link a (l_rx k) (done ++ ds')) done ds' 0.
Proof.
  intros [[Ht Hr] <- Hp Hroom (Hq & Hok & Hpos) (cur & Hx & Hc) Hout Hsent] Hloss. simpl.
  destruct (generate_lost (l_tx k) buffer size now Ht Hloss)
    as (s & l & a & Hl & _ & Hgen & Hta & Hla & _ & _ & Hra & Hpa & Hna & Hsub & Hso).
  rewrite Hl in Hq. destruct ds as [| d ds]; [by inversion Hq |]. simpl in Hq.
  apply Forall2_cons in Hq as [(u & _ & _ & Hpos' & _) Hq]. simpl in Hpos'. rewrite Hso in Hpos'. subst pos.
  apply contiguous_empty in Hc. subst cur. apply Forall_cons in Hok as [_ Hok].
  exists a, d, ds. unfold nr_rlc_entity_um_generate_pdu. rewrite Hgen. do 3 (split; [done |]).
  constructor; simpl; try done.
  - split; [done |]. by eapply um_rx_state_inv.
  - by injection Hpa.
  - by rewrite Hpa.
  - split_and!; [| done | by destruct Hok as [| ? ? [? _] _]]. rewrite Hla.
    eapply holds_sub; [done | intros x Hx'; apply (hs_live _ _ (ti_heap _ Hta)); by rewrite Hla |].
    by destruct ds; [inversion Hq |].
  - rewrite Hna. by apply rx_progress_start.
Qed.

(** [kept lossless l l']: of the SDUs [l'], those of [l] are left, all of them if [lossless]. *)
Definition kept (lossless : bool) (l l' : list bytes) : Prop := if lossless then l = l' else l `sublist_of` l'.

Lemma kept_app b l l' x : kept b l l' → kept b (l ++ x) (l' ++ x).
Proof. destruct b; simpl; [by intros -> | intros; by apply sublist_app]. Qed.

Lemma kept_sublist b l l' : kept b l l' → l `sublist_of` l' ∧ (b = true → l = l').
Proof. destruct b; simpl; [by intros -> | done]. Qed.

(** The SDUs accepted are those delivered, then those waiting, in order, but for the lost ones. *)
Definition link_kept (b : bool) (snlen : Z) (k : um_link) (done ds : list bytes) (pos : Z) : Prop :=
  link_inv snlen (mk_link (l_tx k) (l_rx k) (done ++ ds)) done ds pos ∧ kept b (done ++ ds) (l_sent k).

Definition no_submit (op : link_op) : Prop :=
  match op with LinkSubmit _ _ _ => False | _ => True end.

(** Grants of at least five bytes: one byte more than the longest header. *)
Definition big_grant (op : link_op) : bool :=
  match op with LinkGrant _ size _ => 5 <=? size | _ => false end.

(** The SDUs sent only record the history. *)
Lemma exec_ghost k s op k1 :
  link_exec (mk_link (l_tx k) (l_rx k) s) op = Ok k1 →
  ∃ x, l_sent k1 = s ++ x ∧ (no_submit op → x = []) ∧
    link_exec k op = Ok (mk_link (l_tx k1) (l_rx k1) (l_sent k ++ x)).
Proof.
  destruct op as [sdu id now | buffer size now | now | now]; simpl; intros H; inv_bind H; simplify_eq/=.
  - rewrite E. simpl. destruct (_ <=? _); [by exists [sdu] | by exists []; rewrite !app_nil_r].
  - rewrite E. destruct a as [[ret buf] a]. simpl. exists [].
    destruct (ret =? 0); [| inv_bind H; rewrite E0]; simplify_eq/=; by rewrite !app_nil_r.
  - exists []. rewrite E. by rewrite !app_nil_r.
  - exists []. rewrite E. by rewrite !app_nil_r.
Qed.

Lemma exec_kept b snlen k op k1 done ds done' ds' pos' :
  kept b (done ++ ds) (l_sent k) → link_exec (mk_link (l_tx k) (l_rx k) (done ++ ds)) op = Ok k1 →
  link_inv snlen k1 done' ds' pos' →
  ∃ k', link_exec k op = Ok k' ∧ link_kept b snlen k' done' ds' pos' ∧ (no_submit op → l_sent k' = l_sent k).
Proof.
  intros Hk He Hi. destruct (exec_ghost _ _ _ _ He) as (x & Hs & Hx & ->). eexists. split; [done |].
  pose proof (li_sent _ _ _ _ _ Hi) as Hs'. split; [split; simpl |].
  - rewrite <- Hs'. by destruct k1.
  - rewrite <- Hs', Hs. by apply kept_app.
  - intros Hno. simpl. by rewrite Hx, app_nil_r.
Qed.

(** One operation; without new SDUs, a big grant makes progress. *)
Lemma link_step b snlen k op done ds pos :
  link_kept b snlen k done ds pos → link_op_ok op → (b = true → may_lose snlen op = false) →
  ∃ k' done' ds' pos', link_exec k op = Ok k' ∧ link_kept b snlen k' done' ds' pos' ∧
    (no_submit op → l_sent k' = l_sent k ∧ bytes_left pos' ds' <= bytes_left pos ds ∧
       (big_grant op = true → ds ≠ [] → bytes_left pos' ds' < bytes_left pos ds)).
Proof.
  intros [Hi Hk] Hop Hb. destruct op as [sdu id now | buffer size now | now | now]; simpl in Hop.
  - destruct (submit_ok _ _ sdu id now _ _ _ Hi Hop) as (k1 & ds1 & He & Hi1).
    destruct (exec_kept _ _ _ _ _ _ _ _ _ _ Hk He Hi1) as (k' & -> & Hk' & _). by exists k', done, ds1, pos.
  - destruct (um_lossy (l_tx k) size) eqn:Hloss.
    + assert (b = false) as ->.
      { destruct b; [| done]. specialize (Hb eq_refl). simpl in Hb. pose proof (li_len _ _ _ _ _ Hi) as Hlen.
        simpl in Hlen. unfold um_lossy in Hloss. destruct (tx_list (l_tx k)); [done |]. rewrite Hlen in Hloss. lia. }
      destruct (grant_loses _ _ buffer size now _ _ _ Hi Hloss) as (a & d & ds' & -> & -> & He & Hi').
      destruct (exec_ghost _ _ _ _ He) as (x & Hs & Hx & ->). rewrite (Hx I), app_nil_r. clear He.
      eexists _, done, ds', 0. split; [done |]. split; [split; [done |]; simpl in *; etrans; [| exact Hk];
        by apply sublist_app, sublist_cons |].
      intros _. split; [done |]. pose proof (li_wait _ _ _ _ _ Hi) as (_ & [[Hd _] _]%Forall_cons & _).
      unfold bytes_left. simpl. split; intros; lia.
    + destruct (grant_safe _ _ buffer size now _ _ _ Hi Hop Hloss) as (k1 & done1 & ds1 & pos1 & He & Hi1 & _ & Hle & Hlt).
      destruct (exec_kept _ _ _ _ _ _ _ _ _ _ Hk He Hi1) as (k' & -> & Hk' & Hs).
      exists k', done1, ds1, pos1. do 2 (split; [done |]). intros Hno. split_and!; [by apply Hs | done |].
      simpl. intros Hbig%Z.leb_le. by apply Hlt.
  - destruct (tick_tx_ok _ _ now _ _ _ Hi) as (k1 & He & Hi1).
    destruct (exec_kept _ _ _ _ _ _ _ _ _ _ Hk He Hi1) as (k' & -> & Hk' & Hs). exists k', done, ds, pos. split_and!; [done.. |].
    intros Hno. split_and!; [by apply Hs | done | done].
  - destruct (tick_rx_ok _ _ now _ _ _ Hi) as (k1 & He & Hi1).
    destruct (exec_kept _ _ _ _ _ _ _ _ _ _ Hk He Hi1) as (k' & -> & Hk' & Hs). exists k', done, ds, pos. split_and!; [done.. |].
    intros Hno. split_and!; [by apply Hs | done | done].
Qed.

Lemma link_run_ok b snlen k ops done ds pos :
  link_kept b snlen k done ds pos → Forall link_op_ok ops → (b = true → existsb (may_lose snlen) ops = false) →
  ∃ k' done' ds' pos', link_run k ops = Ok k' ∧ link_kept b snlen k' done' ds' pos'.
Proof.
  intros Hi Hops. revert k done ds pos Hi. induction Hops as [| op ops Hop Hops IH];
    intros k done ds pos Hi Hb; simpl; [by exists k, done, ds, pos |].
  destruct (link_step b snlen k op done ds pos Hi Hop) as (k1 & done1 & ds1 & pos1 & -> & Hi1 & _);
    [intros ->; by apply orb_false_iff in Hb as [? _] |].
  simpl. apply (IH k1 done1 ds1 pos1 Hi1). intros ->. by apply orb_false_iff in Hb as [_ ?].
Qed.

Lemma link_run_app k ops ops' :
  link_run k (ops ++ ops') = (k ← link_run k ops; link_run k ops').
Proof.
  revert k. induction ops as [| op ops IH]; intros k; simpl; [done |].
  destruct (link_exec k op); simpl; [apply IH | done..].
Qed.

Lemma link_init rxa txa ta rxb txb tb snlen a b :
  new_nr_rlc_entity_um rxa txa ta snlen = Ok a → new_nr_rlc_entity_um rxb txb tb snlen = Ok b →
  NR_SDU_MAX <= rxb → link_inv snlen (mk_link a b []) [] [] 0.
Proof.
  intros Ha Hb Hroom. destruct (um_new_inv _ _ _ _ _ Ha) as [Hia _].
  destruct (um_new_inv _ _ _ _ _ Hb) as [[_ Hrb] _].
  unfold new_nr_rlc_entity_um in Ha, Hb.
  destruct (assert_that _); simplify_eq/=. constructor; try done.
  apply rx_progress_start. constructor; try done. by exists [].
Qed.

Definition big_grants (ops : list link_op) : Z :=
  foldr (λ op acc, (if big_grant op then 1 else 0) + acc) 0 ops.

Lemma big_grants_nonneg ops : 0 <= big_grants ops.
Proof. induction ops as [| op ops IH]; simpl; [done |]. case_match; lia. Qed.

Lemma bytes_left_pos e pos ds : um_waiting e pos ds →
  ds = [] ∧ bytes_left pos ds = 0 ∨ ds ≠ [] ∧ 0 < bytes_left pos ds.
Proof.
  intros (_ & Hok & Hpos). unfold bytes_left. destruct Hok as [| d ds Hd Hok]; simpl in *;
    [left; split; [done | lia] |].
  right. split; [done |]. assert (0 <= foldr (λ d acc, zlen d + acc) 0 ds); [| lia].
  clear -Hok. induction Hok as [| d ds [Hd _] _ IH]; simpl; lia.
Qed.

Lemma big_grants_drain b snlen k ops done ds pos :
  link_kept b snlen k done ds pos → Forall link_op_ok ops → (b = true → existsb (may_lose snlen) ops = false) →
  Forall no_submit ops → bytes_left pos ds <= big_grants ops →
  ∃ k' done', link_run k ops = Ok k' ∧ l_sent k' = l_sent k ∧ link_kept b snlen k' done' [] 0.
Proof.
  intros Hi Hops. revert k done ds pos Hi.
  induction Hops as [| op ops Hop Hops IH]; intros k done ds pos Hi Hb Hno Hleft; simpl in Hleft;
    destruct (bytes_left_pos _ _ _ (li_wait _ _ _ _ _ (proj1 Hi))) as [[Hds H0] | [Hds Hp]]; [| lia | |].
  - exists k, done. subst ds. pose proof (li_wait _ _ _ _ _ (proj1 Hi)) as (_ & _ & ->). done.
  - apply Forall_cons in Hno as [Hno1 Hno].
    destruct (link_step b snlen k op done ds pos Hi Hop) as (k1 & done1 & ds1 & pos1 & E & Hi1 & Hs);
      [intros ->; by apply orb_false_iff in Hb as [? _] |].
    destruct (Hs Hno1) as (<- & Hle & _). pose proof (big_grants_nonneg ops). cbn [link_run]. rewrite E. simpl.
    apply (IH k1 done1 ds1 pos1 Hi1); [| done | lia]. intros ->. by apply orb_false_iff in Hb as [_ ?].
  - apply Forall_cons in Hno as [Hno1 Hno].
    destruct (link_step b snlen k op done ds pos Hi Hop) as (k1 & done1 & ds1 & pos1 & E & Hi1 & Hs);
      [intros ->; by apply orb_false_iff in Hb as [? _] |].
    destruct (Hs Hno1) as (<- & Hle & Hlt). cbn [link_run]. rewrite E. simpl.
    apply (IH k1 done1 ds1 pos1 Hi1); [| done |]; [intros ->; by apply orb_false_iff in Hb as [_ ?] |].
    destruct (big_grant op); [specialize (Hlt eq_refl Hds) |]; lia.
Qed.

(** C2: (refinement) UM transfer: two entities with the same SN length, joined by a channel that
    loses nothing, are a FIFO of SDUs.  For SDUs of 1 to [NR_SDU_MAX] octets, a receiver with room
    for at least [NR_SDU_MAX], grants of any size that fit their buffers, and clocks that move in any
    way, every operation returns, and the SDUs delivered by the receiver, followed by those still
    waiting in the transmitter, are a subsequence of the SDUs accepted, unchanged and in order.
    They are exactly the SDUs accepted unless the SNs have 12 bits and there was a grant of two
    octets, on which the transmitter can drop an SDU ([um_generate_loses_sdu]). *)
Theorem um_transfer rxa txa ta rxb txb tb snlen a b ops :
  new_nr_rlc_entity_um rxa txa ta snlen = Ok a → new_nr_rlc_entity_um rxb txb tb snlen = Ok b →
  NR_SDU_MAX <= rxb → Forall link_op_ok ops →
  ∃ k done waiting pos, link_run (mk_link a b []) ops = Ok k ∧
    out (common (l_rx k)) = delivered done ∧ um_waiting (l_tx k) pos waiting ∧
    done ++ waiting `sublist_of` l_sent k ∧
    (existsb (may_lose snlen) ops = false → done ++ waiting = l_sent k).
Proof.
  intros Ha Hb Hroom Hops. pose (lossless := negb (existsb (may_lose snlen) ops)).
  assert (H0 : link_kept lossless snlen (mk_link a b []) [] [] 0)
    by (split; [by eapply link_init | by destruct lossless]).
  destruct (link_run_ok lossless snlen _ ops _ _ _ H0 Hops) as (k & done & ds & pos & Hrun & [_ _ _ _ Hw _ Ho _] & Hk);
    [by intros ?%negb_true_iff |].
  apply kept_sublist in Hk as [Hsub Heq]. exists k, done, ds, pos. split_and!; try done.
  intros Hall. apply Heq. unfold lossless. by rewrite Hall.
Qed.

Definition link_grants (sizes : list Z) : list link_op :=
  map (λ n, LinkGrant (replicate (Z.to_nat n) 0) n 0) sizes.

(** A 12-bit link: three SDUs cut by grants of 3, 4, 5 and 9 bytes. *)
Definition um_link_ops : list link_op :=
  [LinkSubmit [1; 2; 3; 4; 5] 0 0; LinkSubmit [6] 1 0; LinkTickTx 7; LinkTickRx 9] ++ link_grants [3; 4; 5; 3; 9]
  ++ [LinkSubmit [7; 8; 9] 2 0; LinkTickRx 99; LinkTickTx 90].

Lemma um_transfer_witness :
  ∃ k done waiting pos, link_run (mk_link um12 um12 []) um_link_ops = Ok k ∧
    out (common (l_rx k)) = delivered done ∧ um_waiting (l_tx k) pos waiting ∧
    done ++ waiting `sublist_of` l_sent k ∧
    (existsb (may_lose 12) um_link_ops = false → done ++ waiting = l_sent k).
Proof.
  apply (um_transfer 100000 100000 35 100000 100000 35 12); [reflexivity | reflexivity | done |].
  repeat constructor; vm_compute; congruence.
Defined.

(** C7: (liveness) UM transfer completes: after any such history, whatever it lost, grants and
    clock ticks among which there are as many grants of at least five octets as there are octets
    waiting empty the transmitter, and the receiver has then delivered a subsequence of the SDUs
    accepted, unchanged and in order: all of them unless the SNs have 12 bits and there was a
    grant of two octets, before or after. *)
Theorem um_transfer_completes rxa txa ta rxb txb tb snlen a b ops ops' k :
  new_nr_rlc_entity_um rxa txa ta snlen = Ok a → new_nr_rlc_entity_um rxb txb tb snlen = Ok b →
  NR_SDU_MAX <= rxb → Forall link_op_ok (ops ++ ops') →
  link_run (mk_link a b []) ops = Ok k → Forall no_submit ops' →
  nr_rlc_entity_um_tx_list_occupancy (l_tx k) <= big_grants ops' →
  ∃ k' done, link_run (mk_link a b []) (ops ++ ops') = Ok k' ∧ tx_list (l_tx k') = [] ∧
    out (common (l_rx k')) = delivered done ∧ done `sublist_of` l_sent k ∧
    (existsb (may_lose snlen) (ops ++ ops') = false → done = l_sent k).
Proof.
  intros Ha Hb Hroom [Hops Hops']%Forall_app Hk Hno Hbig.
  pose (lossless := negb (existsb (may_lose snlen) (ops ++ ops'))).
  assert (H0 : link_kept lossless snlen (mk_link a b []) [] [] 0)
    by (split; [by eapply link_init | by destruct lossless]).
  assert (Hl : lossless = true → existsb (may_lose snlen) ops = false ∧ existsb (may_lose snlen) ops' = false)
    by (intros H%negb_true_iff; rewrite existsb_app in H; by apply orb_false_iff in H).
  destruct (link_run_ok lossless snlen _ ops _ _ _ H0 Hops) as (k0 & done & ds & pos & Hrun & Hi); [by intros [? _]%Hl |].
  rewrite Hk in Hrun. injection Hrun as <-.
  destruct (big_grants_drain _ _ _ ops' _ _ _ Hi Hops') as (k' & done' & Hr' & Hs & Hi' & Hk'); [by intros [_ ?]%Hl | done | |].
  { pose proof (ti_acc _ (proj1 (li_tx _ _ _ _ _ (proj1 Hi)))) as Hacc.
    rewrite (waiting_left _ _ _ (li_wait _ _ _ _ _ (proj1 Hi))). etrans; [exact Hacc | exact Hbig]. }
  rewrite app_nil_r, Hs in Hk'. apply kept_sublist in Hk' as [Hsub Heq].
  exists k', done'. rewrite link_run_app, Hk. split_and!; [done | | apply Hi' | done |].
  - destruct (li_wait _ _ _ _ _ Hi') as [Hq _]. by inversion Hq.
  - intros Hall. apply Heq. unfold lossless. by rewrite Hall.
Qed.

Lemma um_transfer_completes_witness :
  let ops' := link_grants [5; 1; 5; 7; 5] in let sent := [[1; 2; 3; 4; 5]; [6]; [7; 8; 9]] in
  ∃ k' done, link_run (mk_link um12 um12 []) (um_link_ops ++ ops') = Ok k' ∧ tx_list (l_tx k') = [] ∧
    out (common (l_rx k')) = delivered done ∧ done `sublist_of` sent ∧
    (existsb (may_lose 12) (um_link_ops ++ ops') = false → done = sent).
Proof.
  pose (k := match link_run (mk_link um12 um12 []) um_link_ops with
             | Ok k => k | _ => mk_link um12 um12 [] end).
  apply (um_transfer_completes 100000 100000 35 100000 100000 35 12 um12 um12 um_link_ops
           (link_grants [5; 1; 5; 7; 5]) k);
    [reflexivity | reflexivity | done | | vm_compute; reflexivity | | vm_compute; congruence].
  - repeat constructor; vm_compute; congruence.
  - repeat constructor.
Defined.
