(* ===== verification/RlcTm.v ===== *)
(** * NR RLC transparent mode

    Models [openair2/LAYER2/nr_rlc/nr_rlc_entity_tm.c] and [nr_rlc_entity_tm.h] (and the TM
    constructor), and shows that the entity implements a bounded FIFO of SDUs. *)

From S2P Require Import Prelude RlcEntity RlcUmTx.

Record nr_rlc_entity_tm_t := mk_tm {
  common : nr_rlc_entity_t;
  t_current : Z;
  t_log_buffer_full : Z;
  sdu_rejected : Z;
  tx_list : list nr_rlc_sdu_segment_t;
  tx_end : option nat;
  tx_size : Z;
  tx_maxsize : Z
}.
#[export] Instance eta_tm : Settable nr_rlc_entity_tm_t :=
  λ e, mk_tm (common e) (t_current e) (t_log_buffer_full e) (sdu_rejected e) (tx_list e)
         (tx_end e) (tx_size e) (tx_maxsize e).

Definition new_nr_rlc_entity_tm (tx_maxsize : Z) : nr_rlc_entity_tm_t :=
  mk_tm (init_common NR_RLC_TM) 0 0 0 [] None 0 tx_maxsize.

Definition nr_rlc_entity_tm_recv_pdu (e : nr_rlc_entity_tm_t) (buffer : bytes)
    : nr_rlc_entity_tm_t :=
  let size := zlen buffer in
  e <| common ::= λ c,
    stat64 txsdu_bytes size (stat txsdu_pkts 1 (emit (deliver_sdu buffer size)
      (stat rxpdu_bytes size (stat rxpdu_pkts 1 c)))) |>.

Definition generate_tx_pdu (e : nr_rlc_entity_tm_t) (buffer : bytes) (size now_us : Z)
    : res (Z * bytes * nr_rlc_entity_tm_t) :=
  match tx_list e with
  | [] => Ok (0, buffer, e)
  | s :: l =>
      if size <? seg_size s then Ok (0, buffer, e)
      else
        let e := e <| tx_list := l |> in
        let e := match l with [] => e <| tx_end := None |> | _ => e end in
        let ret := seg_size s in
        u ← get_sdu (mem (common e)) (seg_sdu s);
        buffer ← memcpy buffer 0 (sdu_data u) 0 (seg_size s);
        let e := e <| tx_size ::= λ x, x - seg_size s |>
                   <| common ::= λ c, add_bs_tx (- seg_size s)
                        (record_wait now_us (time_of_arrival u)
                           (stat txpdu_bytes size (stat txpdu_pkts 1 c))) |> in
        '(_, h) ← nr_rlc_free_sdu_segment (mem (common e)) s;
        Ok (ret, buffer, e <| common ::= λ c, c <| mem := h |> |>)
  end.

Definition nr_rlc_entity_tm_buffer_status (e : nr_rlc_entity_tm_t)
    : nr_rlc_entity_buffer_status_t := mk_bstatus 0 (bs_tx_size (bstatus (common e))) 0.

Definition nr_rlc_entity_tm_generate_pdu (e : nr_rlc_entity_tm_t) (buffer : bytes)
    (size now_us : Z) : res (Z * bytes * nr_rlc_entity_tm_t) :=
  generate_tx_pdu e buffer size now_us.

Definition log_rejected (e : nr_rlc_entity_tm_t) : nr_rlc_entity_tm_t :=
  if negb (sdu_rejected e =? 0) && (u64 (t_log_buffer_full e + 1000) <? t_current e)
  then e <| sdu_rejected := 0 |> <| t_log_buffer_full := t_current e |> else e.

Definition nr_rlc_entity_tm_recv_sdu (e : nr_rlc_entity_tm_t) (buffer : bytes)
    (sdu_id now_us : Z) : res nr_rlc_entity_tm_t :=
  let size := zlen buffer in
  let e := e <| common ::= λ c, stat64 rxsdu_bytes size (stat rxsdu_pkts 1 c) |> in
  if NR_SDU_MAX <? size then Exit
  else
    let e := log_rejected e in
    if tx_maxsize e <? tx_size e + size then
      Ok (e <| sdu_rejected ::= Z.succ |>
            <| common ::= λ c, stat rxsdu_dd_bytes size (stat rxsdu_dd_pkts 1 c) |>)
    else
      let e := e <| tx_size ::= Z.add size |> in
      '(s, h) ← nr_rlc_new_sdu (mem (common e)) buffer size sdu_id;
      '(l, end_) ← nr_rlc_sdu_segment_list_append (tx_list e) (tx_end e) s;
      let e := e <| tx_list := l |> <| tx_end := end_ |> <| common ::= λ c, c <| mem := h |> |> in
      let e := e <| common ::= add_bs_tx (seg_size s) |> in
      if avg_time_is_on (common e) then
        h ← upd_sdu (mem (common e)) (seg_sdu s) (λ u, u <| time_of_arrival := now_us |>);
        Ok (e <| common ::= λ c, c <| mem := h |> |>)
      else Ok e.

Definition nr_rlc_entity_tm_set_time (e : nr_rlc_entity_tm_t) (now : Z) : nr_rlc_entity_tm_t :=
  e <| t_current := now |>.

(** TM has no SDU discard. *)
Definition nr_rlc_entity_tm_discard_sdu (e : nr_rlc_entity_tm_t) (sdu_id : Z)
    : nr_rlc_entity_tm_t := e.

Definition clear_entity (e : nr_rlc_entity_tm_t) : res nr_rlc_entity_tm_t :=
  let e := e <| t_current := 0 |> <| t_log_buffer_full := 0 |> <| sdu_rejected := 0 |> in
  h ← nr_rlc_free_sdu_segment_list (mem (common e)) (tx_list e);
  Ok (e <| tx_list := [] |> <| tx_end := None |> <| tx_size := 0 |>
        <| common ::= λ c, c <| mem := h |> <| bstatus ::= λ b, b <| bs_tx_size := 0 |> |> |>).

Definition nr_rlc_entity_tm_reestablishment (e : nr_rlc_entity_tm_t) : res nr_rlc_entity_tm_t :=
  clear_entity e.

Definition nr_rlc_entity_tm_delete (e : nr_rlc_entity_tm_t) : res sdu_heap :=
  e ← clear_entity e; Ok (mem (common e)).

Definition nr_rlc_entity_tm_available_tx_space (e : nr_rlc_entity_tm_t) : Z :=
  tx_maxsize e - tx_size e.

Definition nr_rlc_entity_tm_tx_list_occupancy (e : nr_rlc_entity_tm_t) : Z := tx_size e.

(** ** Abstract FIFO *)

(** The specification: the SDUs waiting, oldest first, and the room for them. *)
Record tm_spec := mk_spec { sp_queue : list bytes; sp_max : Z }.

Definition sp_bytes (q : list bytes) : Z := foldr (λ d acc, zlen d + acc) 0 q.

Definition sp_recv_sdu (s : tm_spec) (d : bytes) : tm_spec :=
  if sp_max s <? sp_bytes (sp_queue s) + zlen d then s
  else mk_spec (sp_queue s ++ [d]) (sp_max s).

(** The SDU sent, if any, in a transport block of [size] bytes. *)
Definition sp_generate (s : tm_spec) (size : Z) : option bytes * tm_spec :=
  match sp_queue s with
  | d :: q => if size <? zlen d then (None, s) else (Some d, mk_spec q (sp_max s))
  | [] => (None, s)
  end.

(** The entity represents the FIFO. *)
Record tm_rep (e : nr_rlc_entity_tm_t) (s : tm_spec) : Prop := {
  tr_heap : heap_exact (mem (common e)) (tx_list e);
  tr_whole : Forall (λ x, seg_so x = 0 ∧ ∃ u, sdus (mem (common e)) !! seg_sdu x = Some u ∧
                          seg_size x = zlen (sdu_data u)) (tx_list e);
  tr_queue : map (seg_bytes (mem (common e))) (tx_list e) = sp_queue s;
  tr_end : end_ok (tx_list e) (tx_end e);
  tr_size : tx_size e = sp_bytes (sp_queue s);
  tr_bs : bs_tx_size (bstatus (common e)) = sp_bytes (sp_queue s);
  tr_max : tx_maxsize e = sp_max s
}.

Lemma sp_bytes_app q r : sp_bytes (q ++ r) = sp_bytes q + sp_bytes r.
Proof. unfold sp_bytes. induction q; simpl; lia. Qed.

(** Segments whose SDUs survive unchanged keep their meaning. *)
Lemma tm_whole_frame h h' l :
  (∀ x u, x ∈ l → sdus h !! seg_sdu x = Some u →
     ∃ u', sdus h' !! seg_sdu x = Some u' ∧ sdu_data u' = sdu_data u) →
  Forall (λ x, seg_so x = 0 ∧ ∃ u, sdus h !! seg_sdu x = Some u ∧
                 seg_size x = zlen (sdu_data u)) l →
  Forall (λ x, seg_so x = 0 ∧ ∃ u, sdus h' !! seg_sdu x = Some u ∧
                 seg_size x = zlen (sdu_data u)) l ∧
  map (seg_bytes h') l = map (seg_bytes h) l.
Proof.
  intros Hf Hl. induction Hl as [| x l (Hso & u & Hu & Hs) Hl IH]; [done |].
  destruct IH as [IH1 IH2]; [intros y v Hy; apply Hf; by right |].
  destruct (Hf x u ltac:(left) Hu) as (u' & Hu' & Hd). split.
  - constructor; [| done]. split; [done |]. exists u'. by rewrite Hd.
  - simpl. f_equal; [| done]. unfold seg_bytes. by rewrite Hu, Hu', Hd.
Qed.

Lemma tm_generate_rep e s buffer size now_us :
  tm_rep e s → size <= zlen buffer →
  ∃ ret buf e', nr_rlc_entity_tm_generate_pdu e buffer size now_us = Ok (ret, buf, e') ∧
    tm_rep e' (sp_generate s size).2 ∧
    match (sp_generate s size).1 with
    | Some d => ret = zlen d ∧ take (Z.to_nat ret) buf = d ∧ zlen buf = zlen buffer
    | None => ret = 0 ∧ buf = buffer
    end.
Proof.
  intros Hrep Hsz. pose proof Hrep as [Hh Hw Hq He Hs Hb Hm].
  unfold nr_rlc_entity_tm_generate_pdu, generate_tx_pdu, sp_generate. rewrite <- Hq.
  destruct (tx_list e) as [| x l] eqn:Hl; simpl; [by exists 0, buffer, e |].
  rewrite ?Hl in Hh, Hw, Hq, He. apply Forall_cons in Hw as [(Hso & u & Hu & Hsx) Hwl].
  assert (Hbytes : seg_bytes (mem (common e)) x = sdu_data u).
  { unfold seg_bytes. rewrite Hu, Hso, Hsx. apply take_zlen. }
  rewrite Hbytes, Hsx. destruct (size <? zlen (sdu_data u)) eqn:Hroom; [by exists 0, buffer, e |].
  set (e1 := match l with [] => _ | _ => _ end).
  assert (H1 : common e1 = common e ∧ tx_list e1 = l ∧ end_ok l (tx_end e1) ∧
               tx_size e1 = tx_size e ∧ tx_maxsize e1 = tx_maxsize e).
  { subst e1. apply end_ok_tail in He. by destruct l. }
  clearbody e1. destruct H1 as (Hc1 & Hl1 & He1 & Hs1 & Hm1).
  unfold get_sdu. rewrite Hc1, Hu. cbn [deref mbind res_bind].
  pose proof (zlen_nonneg (sdu_data u)). rewrite memcpy_Ok by lia. cbn [mbind res_bind].
  simpl (mem _). rewrite (proj1 (record_wait_frame _ _ _)). simpl (mem _).
  destruct Hh as [Hsafe Hex].
  destruct (free_segment_safe _ _ _ Hsafe) as (b & h' & Hf & Hs' & _ & He'). rewrite Hf.
  cbn [mbind res_bind]. eexists _, _, _. split; [done |].
  pose proof (data_sub_free _ _ _ _ Hf) as Hsub.
  destruct (tm_whole_frame (mem (common e)) h' l) as [Hw' Hq']; [| done |].
  { intros y v Hy Hv. destruct (hs_live _ _ Hs' y Hy) as [v' Hv'].
    destruct (Hsub _ _ Hv') as (v2 & Hv2 & Hd & _). exists v'. split; [done | congruence]. }
  rewrite <- Hq in Hs, Hb. simpl in Hs, Hb. rewrite Hbytes in Hs, Hb.
  split.
  - constructor; simpl; rewrite ?Hl1; try done.
    + by apply He'.
    + rewrite Hs1, Hs. lia.
    + rewrite (proj1 (proj2 (record_wait_frame _ _ _))). simpl. rewrite Hc1, Hb. lia.
    + congruence.
  - simpl. rewrite drop_0, take_zlen. split; [done |].
    rewrite (take_app_length' (sdu_data u)) by (unfold zlen; lia). split; [done |].
    unfold zlen in *. rewrite length_app, length_drop. lia.
Qed.

Lemma tm_recv_sdu_rep e s buffer id now_us :
  tm_rep e s → zlen buffer <= NR_SDU_MAX →
  ∃ e', nr_rlc_entity_tm_recv_sdu e buffer id now_us = Ok e' ∧ tm_rep e' (sp_recv_sdu s buffer).
Proof.
  intros Hrep Hsz. unfold nr_rlc_entity_tm_recv_sdu, sp_recv_sdu.
  decide_false (NR_SDU_MAX <? zlen buffer).
  set (e0 := log_rejected _).
  assert (H0 : tm_rep e0 s) by (subst e0; unfold log_rejected; destruct (_ && _), Hrep; by constructor).
  clearbody e0. pose proof H0 as [Hh Hw Hq He Hs Hb Hm]. rewrite Hs, Hm.
  destruct (sp_max s <? sp_bytes (sp_queue s) + zlen buffer); [eexists; split; [done |]; by constructor |].
  simpl (mem _). rewrite new_sdu_ok. cbn [mbind res_bind].
  pose proof Hh as [Hsafe _]. simpl (tx_list _). simpl (tx_end _).
  rewrite list_append_ok; [| done | apply Hsafe]. cbn [mbind res_bind].
  set (h := mem (common e0)) in *. set (x := mk_segment _ _ _ _ _ _).
  assert (Hrep' : ∀ u c, ref_count u = 1 → free_count u = 0 → sdu_data u = buffer →
    mem c = mk_heap (<[next_addr h := u]> (sdus h)) (S (S (next_addr h))) →
    bs_tx_size (bstatus c) = zlen buffer + bs_tx_size (bstatus (common e0)) →
    tm_rep (mk_tm c (t_current e0) (t_log_buffer_full e0) (sdu_rejected e0) (tx_list e0 ++ [x])
              (Some (seg_addr x)) (zlen buffer + tx_size e0) (tx_maxsize e0))
           (mk_spec (sp_queue s ++ [buffer]) (sp_max s))).
  { intros u c Hr Hf Hd Hmem Hbs.
    destruct (new_sdu_safe h (tx_list e0) u Hr Hf Hsafe x eq_refl eq_refl) as [_ Hex].
    destruct (tm_whole_frame h (mem c) (tx_list e0)) as [Hw' Hq']; [| done |].
    { intros y v Hy Hv. exists v. split; [| done]. rewrite Hmem. simpl.
      rewrite lookup_insert_ne; [done |]. intros E.
      pose proof (hs_fresh _ _ Hsafe (seg_sdu y)) as Hfr. rewrite Hv in Hfr.
      specialize (Hfr ltac:(eauto)). lia. }
    assert (Hx : sdus (mem c) !! seg_sdu x = Some u) by (rewrite Hmem; apply lookup_insert_eq).
    constructor; simpl; try done.
    - rewrite Hmem. eapply heap_exact_perm; [apply Permutation_cons_append |]. by apply Hex.
    - apply Forall_app; split; [done |]. constructor; [| done]. split; [done |].
      exists u. by rewrite Hd.
    - rewrite map_app, Hq', Hq. simpl. f_equal. f_equal. unfold seg_bytes. rewrite Hx, Hd. simpl.
      by rewrite drop_0, take_zlen.
    - apply end_ok_snoc.
    - rewrite sp_bytes_app. simpl. lia.
    - rewrite sp_bytes_app, Hbs, Hb. simpl. lia. }
  destruct (avg_time_is_on _).
  - unfold upd_sdu, get_sdu. simpl. rewrite lookup_insert_eq. simpl. rewrite insert_insert_eq.
    eexists. split; [done |].
    by apply (Hrep' (mk_sdu (-1) id buffer (zlen buffer) (-1) 1 0 now_us)).
  - eexists. split; [done |]. by apply (Hrep' (mk_sdu (-1) id buffer (zlen buffer) (-1) 1 0 0)).
Qed.

(** C29: (refinement) transparent mode is a bounded FIFO: from a state that represents a queue,
    every SDU reception and every PDU generation returns and is the queue's operation; a
    generated PDU is exactly the oldest SDU, and is sent only if it fits in the transport block. *)
Theorem tm_refines_fifo e s buffer id size now_us :
  tm_rep e s → zlen buffer <= NR_SDU_MAX → size <= zlen buffer →
  (∃ e', nr_rlc_entity_tm_recv_sdu e buffer id now_us = Ok e' ∧ tm_rep e' (sp_recv_sdu s buffer)) ∧
  (∃ ret buf e', nr_rlc_entity_tm_generate_pdu e buffer size now_us = Ok (ret, buf, e') ∧
     tm_rep e' (sp_generate s size).2 ∧
     match (sp_generate s size).1 with
     | Some d => ret = zlen d ∧ take (Z.to_nat ret) buf = d ∧ zlen buf = zlen buffer
     | None => ret = 0 ∧ buf = buffer
     end).
Proof.
  intros Hrep H1 H2. split; [by apply tm_recv_sdu_rep | by apply tm_generate_rep].
Qed.

Lemma tm_new_rep max : tm_rep (new_nr_rlc_entity_tm max) (mk_spec [] max).
Proof. constructor; try done. apply heap_empty_exact. Qed.

Lemma tm_refines_fifo_witness :
  let e := new_nr_rlc_entity_tm 100 in let s := mk_spec [] 100 in
  (∃ e', nr_rlc_entity_tm_recv_sdu e [1; 2; 3] 0 0 = Ok e' ∧ tm_rep e' (sp_recv_sdu s [1; 2; 3])) ∧
  (∃ ret buf e', nr_rlc_entity_tm_generate_pdu e [1; 2; 3] 3 0 = Ok (ret, buf, e') ∧
     tm_rep e' (sp_generate s 3).2 ∧
     match (sp_generate s 3).1 with
     | Some d => ret = zlen d ∧ take (Z.to_nat ret) buf = d ∧ zlen buf = zlen [1; 2; 3]
     | None => ret = 0 ∧ buf = [1; 2; 3]
     end).
Proof.
  apply (tm_refines_fifo (new_nr_rlc_entity_tm 100) (mk_spec [] 100) [1; 2; 3] 0 3 0);
    [apply tm_new_rep | vm_compute; congruence | vm_compute; congruence].
Defined.
