(* ===== verification/RlcRxManager.v ===== *)
(** * The reception window of NR RLC AM as a circular buffer

    Models [openair2/LAYER2/nr_rlc/nr_rlc_rx_manager.c] and [nr_rlc_rx_manager.h]: an array of
    per-SDU segment lists whose slot [start] holds the SDU of SN [sn_start].  The theorems
    relate it to its abstract contract: a finite map from the SNs of the window to lists of
    segments ordered by offset, that slides when the window moves. *)

From S2P Require Import Prelude RlcPdu.

Record nr_rlc_rx_manager_t := mk_rx_manager {
  m_rx_list : list (list nr_rlc_pdu_t);
  m_size : Z;
  m_start : Z;
  m_sn_start : Z
}.
#[export] Instance eta_rx_manager : Settable nr_rlc_rx_manager_t :=
  λ m, mk_rx_manager (m_rx_list m) (m_size m) (m_start m) (m_sn_start m).

Definition nr_rlc_new_rx_manager (size : Z) : nr_rlc_rx_manager_t :=
  mk_rx_manager (replicate (Z.to_nat size) []) size 0 0.

Definition nr_rlc_clear_rx_manager (m : nr_rlc_rx_manager_t) : nr_rlc_rx_manager_t :=
  m <| m_rx_list := replicate (Z.to_nat (m_size m)) [] |> <| m_start := 0 |> <| m_sn_start := 0 |>.

Definition get_pos (m : nr_rlc_rx_manager_t) (sn : Z) : Z :=
  Z.rem (m_start m + (sn - m_sn_start m + m_size m * 2)) (m_size m).

(** The list of segments of an SDU; [[]] is NULL. *)
Definition nr_rlc_rx_manager_get_pdu_from_sn (m : nr_rlc_rx_manager_t) (sn : Z)
    : res (list nr_rlc_pdu_t) :=
  let pos := get_pos m sn in deref (znth (m_rx_list m) pos).

Definition nr_rlc_rx_manager_clear_pdu (m : nr_rlc_rx_manager_t) (sn : Z)
    : res nr_rlc_rx_manager_t :=
  let pos := get_pos m sn in
  l ← zset (m_rx_list m) pos []; Ok (m <| m_rx_list := l |>).

Definition nr_rlc_rx_manager_advance (m : nr_rlc_rx_manager_t) (count : Z)
    : nr_rlc_rx_manager_t := m <| m_start := Z.rem (m_start m + count) (m_size m) |>.

Definition nr_rlc_rx_manager_set_start (m : nr_rlc_rx_manager_t) (sn_start : Z)
    : nr_rlc_rx_manager_t := m <| m_sn_start := sn_start |>.

(** The walk of [nr_rlc_rx_manager_add_pdu], ordered by [so]. *)
Fixpoint insert_by_so (l : list nr_rlc_pdu_t) (pdu : nr_rlc_pdu_t) : list nr_rlc_pdu_t :=
  match l with
  | [] => [pdu]
  | cur :: l' => if pdu_so pdu <? pdu_so cur then pdu :: l else cur :: insert_by_so l' pdu
  end.

Definition nr_rlc_rx_manager_add_pdu (m : nr_rlc_rx_manager_t) (pdu : nr_rlc_pdu_t)
    : res nr_rlc_rx_manager_t :=
  let pos := get_pos m (pdu_sn pdu) in
  l ← deref (znth (m_rx_list m) pos);
  l' ← zset (m_rx_list m) pos (insert_by_so l pdu);
  Ok (m <| m_rx_list := l' |>).

(** Writing a slot (the C code writes through the [nr_rlc_pdu_t] pointers of the list). *)
Definition set_slot (m : nr_rlc_rx_manager_t) (sn : Z) (l : list nr_rlc_pdu_t)
    : res nr_rlc_rx_manager_t :=
  l' ← zset (m_rx_list m) (get_pos m sn) l; Ok (m <| m_rx_list := l' |>).

(** ** Well-formedness and positions *)

(** [size] is the window size, half of the SN space. *)
Record rxm_wf (m : nr_rlc_rx_manager_t) : Prop := {
  rw_size : 0 < m_size m;
  rw_len : zlen (m_rx_list m) = m_size m;
  rw_start : 0 <= m_start m < m_size m;
  rw_sn : 0 <= m_sn_start m < 2 * m_size m
}.

(** Distance of an SN from the start of the window. *)
Definition rxm_off (m : nr_rlc_rx_manager_t) (sn : Z) : Z :=
  let d := sn - m_sn_start m in if d <? 0 then d + 2 * m_size m else d.

Lemma get_pos_off m sn :
  rxm_wf m → 0 <= sn < 2 * m_size m →
  get_pos m sn = (m_start m + rxm_off m sn) mod m_size m.
Proof.
  intros [Hs _ Hst Hsn] Hr. unfold get_pos, rxm_off.
  rewrite Z.rem_mod_nonneg by lia.
  destruct (Z.ltb_spec (sn - m_sn_start m) 0).
  - f_equal. lia.
  - replace (m_start m + (sn - m_sn_start m + m_size m * 2))
      with (m_start m + (sn - m_sn_start m) + 2 * m_size m) by lia.
    by rewrite Z_mod_plus_full.
Qed.

Lemma get_pos_bound m sn :
  rxm_wf m → 0 <= sn < 2 * m_size m → 0 <= get_pos m sn < m_size m.
Proof.
  intros Hw Hr. rewrite get_pos_off by done. apply Z.mod_pos_bound. apply Hw.
Qed.

(** Distinct SNs of the window have distinct slots. *)
Lemma get_pos_inj m a b :
  rxm_wf m → 0 <= a < 2 * m_size m → 0 <= b < 2 * m_size m →
  0 <= rxm_off m a < m_size m → 0 <= rxm_off m b < m_size m →
  get_pos m a = get_pos m b → a = b.
Proof.
  intros Hw Ha Hb Hoa Hob. rewrite !get_pos_off by done. intros He.
  assert (rxm_off m a = rxm_off m b).
  { destruct Hw as [Hs _ Hst _]. rewrite !mod_wrap in He by lia. revert He. bool_prop; lia. }
  revert H. unfold rxm_off. destruct Hw. bool_prop; lia.
Qed.

Lemma get_ok m sn : rxm_wf m → 0 <= sn < 2 * m_size m →
  ∃ l, nr_rlc_rx_manager_get_pdu_from_sn m sn = Ok l.
Proof.
  intros Hw Hr. unfold nr_rlc_rx_manager_get_pdu_from_sn.
  destruct (znth_is_Some (m_rx_list m) (get_pos m sn)) as [l ->]; [| eauto].
  rewrite (rw_len m Hw). by apply get_pos_bound.
Qed.

Lemma set_slot_ok m sn l : rxm_wf m → 0 <= sn < 2 * m_size m →
  ∃ m', set_slot m sn l = Ok m' ∧ rxm_wf m' ∧ m_size m' = m_size m ∧
    m_start m' = m_start m ∧ m_sn_start m' = m_sn_start m ∧
    m_rx_list m' = <[Z.to_nat (get_pos m sn) := l]> (m_rx_list m).
Proof.
  intros Hw Hr. unfold set_slot.
  rewrite zset_Ok by (rewrite (rw_len m Hw); by apply get_pos_bound). simpl.
  eexists. split; [done |]. destruct Hw. split; [| done].
  constructor; simpl; try done. by rewrite zlen_insert.
Qed.

(** Reading back a slot, and the other slots of the window. *)
Lemma set_slot_get m sn l m' n :
  rxm_wf m → 0 <= sn < 2 * m_size m → 0 <= n < 2 * m_size m →
  0 <= rxm_off m sn < m_size m → 0 <= rxm_off m n < m_size m →
  set_slot m sn l = Ok m' →
  nr_rlc_rx_manager_get_pdu_from_sn m' n =
    if n =? sn then Ok l else nr_rlc_rx_manager_get_pdu_from_sn m n.
Proof.
  intros Hw Hr Hn Ho Hon Hset.
  destruct (set_slot_ok m sn l Hw Hr) as (m2 & H2 & Hw2 & Hsz & Hst & Hsn & Hl).
  rewrite H2 in Hset. injection Hset as <-.
  pose proof (get_pos_bound m sn Hw Hr) as Hb. pose proof (get_pos_bound m n Hw Hn) as Hbn.
  unfold nr_rlc_rx_manager_get_pdu_from_sn.
  replace (get_pos m2 n) with (get_pos m n) by (unfold get_pos; by rewrite Hsz, Hst, Hsn).
  rewrite Hl. rewrite !znth_lookup by lia. destruct (Z.eqb_spec n sn) as [-> | Hne].
  - rewrite list_lookup_insert_eq; [done |]. pose proof (rw_len m Hw). unfold zlen in *. lia.
  - rewrite list_lookup_insert_ne; [done |]. intros E. apply Hne.
    apply (get_pos_inj m); try done. lia.
Qed.

Lemma insert_by_so_perm l p : insert_by_so l p ≡ₚ p :: l.
Proof.
  induction l as [| q l IH]; simpl; [done |]. destruct (_ <? _); [done |].
  rewrite IH. apply Permutation_swap.
Qed.

Lemma insert_by_so_sorted l p :
  StronglySorted (λ a b, pdu_so a <= pdu_so b) l →
  StronglySorted (λ a b, pdu_so a <= pdu_so b) (insert_by_so l p).
Proof.
  induction 1 as [| q l Hs IH Hall]; simpl; [repeat constructor |].
  destruct (Z.ltb_spec (pdu_so p) (pdu_so q)).
  - constructor; [by constructor |]. constructor; [lia |].
    eapply Forall_impl; [exact Hall |]. simpl. lia.
  - constructor; [done |]. rewrite insert_by_so_perm. by constructor.
Qed.

(** Sliding the window by [count] SNs keeps the slot of every SN that stays in it. *)
Lemma advance_pos m count n :
  rxm_wf m → 0 <= count <= m_size m → 0 <= n < 2 * m_size m →
  count <= rxm_off m n < m_size m →
  let m' := nr_rlc_rx_manager_set_start (nr_rlc_rx_manager_advance m count)
              (Z.rem (m_sn_start m + count) (2 * m_size m)) in
  rxm_wf m' ∧ rxm_off m' n = rxm_off m n - count ∧ get_pos m' n = get_pos m n.
Proof.
  intros Hw Hc Hn Ho m'. pose proof Hw as [Hs Hlen Hst Hsn].
  assert (Hw' : rxm_wf m').
  { subst m'. constructor; simpl; try done; apply Z.rem_bound_pos; lia. }
  assert (Hoff : rxm_off m' n = rxm_off m n - count).
  { subst m'. unfold rxm_off in *. simpl. rewrite rem_wrap by lia. bool_prop; lia. }
  split_and!; [done | done |].
  rewrite (get_pos_off m' n), (get_pos_off m n), Hoff by done.
  change (m_size m') with (m_size m). change (m_start m') with (Z.rem (m_start m + count) (m_size m)).
  rewrite Z.rem_mod_nonneg, Zplus_mod_idemp_l by lia. f_equal. lia.
Qed.

(** ** Properties *)

(** C30: (refinement) the circular buffer implements the window contract: adding a segment
    changes only its SDU's list (a permutation, ordered by offset, of the old list and the
    segment), and sliding the window leaves the list of every SN still in it. *)
Theorem rx_manager_refines_window m p l n :
  rxm_wf m → 0 <= pdu_sn p < 2 * m_size m → 0 <= n < 2 * m_size m →
  0 <= rxm_off m (pdu_sn p) < m_size m → 0 <= rxm_off m n < m_size m →
  nr_rlc_rx_manager_get_pdu_from_sn m (pdu_sn p) = Ok l →
  StronglySorted (λ a b, pdu_so a <= pdu_so b) l →
  ∃ m' l', nr_rlc_rx_manager_add_pdu m p = Ok m' ∧ rxm_wf m' ∧
    l' ≡ₚ p :: l ∧ StronglySorted (λ a b, pdu_so a <= pdu_so b) l' ∧
    nr_rlc_rx_manager_get_pdu_from_sn m' n =
      (if n =? pdu_sn p then Ok l' else nr_rlc_rx_manager_get_pdu_from_sn m n) ∧
    ∀ count, 0 <= count <= rxm_off m n →
      nr_rlc_rx_manager_get_pdu_from_sn
        (nr_rlc_rx_manager_set_start (nr_rlc_rx_manager_advance m' count)
           (Z.rem (m_sn_start m + count) (2 * m_size m))) n =
      nr_rlc_rx_manager_get_pdu_from_sn m' n.
Proof.
  intros Hw Hp Hn Hop Hon Hget Hs.
  destruct (set_slot_ok m (pdu_sn p) (insert_by_so l p) Hw Hp)
    as (m' & Hset & Hw' & Hsz & Hst & Hsn & _).
  assert (Hadd : nr_rlc_rx_manager_add_pdu m p = set_slot m (pdu_sn p) (insert_by_so l p)).
  { unfold nr_rlc_rx_manager_add_pdu, set_slot. unfold nr_rlc_rx_manager_get_pdu_from_sn in Hget.
    by rewrite Hget. }
  exists m', (insert_by_so l p). rewrite Hadd. split_and!; try done.
  - apply insert_by_so_perm.
  - by apply insert_by_so_sorted.
  - by eapply set_slot_get.
  - intros count Hc.
    assert (Hoff : rxm_off m' n = rxm_off m n) by (unfold rxm_off; by rewrite Hsn, Hsz).
    destruct (advance_pos m' count n Hw') as (_ & _ & Hpos); [rewrite ?Hsz, ?Hoff; lia.. |].
    unfold nr_rlc_rx_manager_get_pdu_from_sn. rewrite <- Hsn, <- Hsz, Hpos. done.
Qed.

Lemma rx_manager_refines_window_witness :
  let m := mk_rx_manager [[]; [mk_pdu 1 (Some [7]) 1 4 false true]; []; []] 4 0 0 in
  let p := mk_pdu 1 (Some [9; 9]) 2 2 false false in
  ∃ m' l', nr_rlc_rx_manager_add_pdu m p = Ok m' ∧ rxm_wf m' ∧
    l' ≡ₚ [p; mk_pdu 1 (Some [7]) 1 4 false true] ∧
    StronglySorted (λ a b, pdu_so a <= pdu_so b) l' ∧
    nr_rlc_rx_manager_get_pdu_from_sn m' 1 = Ok l' ∧
    ∀ count, 0 <= count <= 1 →
      nr_rlc_rx_manager_get_pdu_from_sn
        (nr_rlc_rx_manager_set_start (nr_rlc_rx_manager_advance m' count)
           (Z.rem (0 + count) 8)) 1 =
      nr_rlc_rx_manager_get_pdu_from_sn m' 1.
Proof.
  apply (rx_manager_refines_window
           (mk_rx_manager [[]; [mk_pdu 1 (Some [7]) 1 4 false true]; []; []] 4 0 0)
           (mk_pdu 1 (Some [9; 9]) 2 2 false false) _ 1);
    [constructor; vm_compute; intuition congruence | vm_compute; intuition congruence.. | |
     reflexivity | repeat constructor].
  vm_compute; intuition congruence.
Defined.
