(* ===== verification/RlcAm.v ===== *)
(** * NR RLC acknowledged mode: state and reception

    Models [openair2/LAYER2/nr_rlc/nr_rlc_entity_am.h], the reception part of
    [nr_rlc_entity_am.c] (up to and including [nr_rlc_entity_am_recv_pdu], except the control
    PDU, which is in [RlcAmControl]) and the AM constructor and reconfiguration of
    [nr_rlc_entity.c].  Conventions are those of [RlcUm]. *)

From S2P Require Import Prelude RlcPdu RlcEntity RlcRxManager.

Record nr_rlc_entity_am_t := mk_am {
  common : nr_rlc_entity_t;
  t_poll_retransmit : Z; t_reassembly : Z; t_status_prohibit : Z;
  poll_pdu : Z; poll_byte : Z; max_retx_threshold : Z; sn_field_length : Z;
  sn_modulus : Z; window_size : Z;
  rx_next : Z; rx_next_status_trigger : Z; rx_highest_status : Z; rx_next_highest : Z;
  status_triggered : bool;
  tx_next : Z; tx_next_ack : Z; poll_sn : Z; pdu_without_poll : Z; byte_without_poll : Z;
  force_poll : bool;
  t_current : Z; t_log_buffer_full : Z; sdu_rejected : Z;
  t_poll_retransmit_start : Z; t_reassembly_start : Z; t_status_prohibit_start : Z;
  rx : nr_rlc_rx_manager_t; rx_size : Z; rx_maxsize : Z;
  tx_list : list nr_rlc_sdu_segment_t; tx_end : option nat; tx_size : Z; tx_maxsize : Z;
  wait_list : list nr_rlc_sdu_segment_t; wait_end : option nat;
  retransmit_list : list nr_rlc_sdu_segment_t
}.
#[export] Instance eta_am : Settable nr_rlc_entity_am_t :=
  λ e, mk_am (common e) (t_poll_retransmit e) (t_reassembly e) (t_status_prohibit e)
    (poll_pdu e) (poll_byte e) (max_retx_threshold e) (sn_field_length e) (sn_modulus e)
    (window_size e) (rx_next e) (rx_next_status_trigger e) (rx_highest_status e)
    (rx_next_highest e) (status_triggered e) (tx_next e) (tx_next_ack e) (poll_sn e)
    (pdu_without_poll e) (byte_without_poll e) (force_poll e) (t_current e)
    (t_log_buffer_full e) (sdu_rejected e) (t_poll_retransmit_start e)
    (t_reassembly_start e) (t_status_prohibit_start e) (rx e) (rx_size e) (rx_maxsize e)
    (tx_list e) (tx_end e) (tx_size e) (tx_maxsize e) (wait_list e) (wait_end e)
    (retransmit_list e).

Definition new_nr_rlc_entity_am (rx_maxsize tx_maxsize t_poll_retransmit t_reassembly
    t_status_prohibit poll_pdu poll_byte max_retx_threshold sn_field_length : Z)
    : res nr_rlc_entity_am_t :=
  _ ← assert_that ((sn_field_length =? 12) || (sn_field_length =? 18));
  let sn_modulus := Z.shiftl 1 sn_field_length in
  let window_size := Z.quot sn_modulus 2 in
  Ok (mk_am (init_common NR_RLC_AM) t_poll_retransmit t_reassembly t_status_prohibit
        poll_pdu poll_byte max_retx_threshold sn_field_length sn_modulus window_size
        0 0 0 0 false 0 0 0 0 0 false 0 0 0 0 0 0
        (nr_rlc_new_rx_manager (Z.shiftl 1 (sn_field_length - 1))) 0 (rx_maxsize * 5)
        [] None 0 (tx_maxsize * 5) [] None []).

Definition nr_rlc_entity_am_reconfigure (e : nr_rlc_entity_am_t) (tpr tr tsp pp pb mrt : Z)
    (snlen : option Z) : nr_rlc_entity_am_t :=
  let e := e <| t_poll_retransmit := tpr |> <| t_reassembly := tr |>
             <| t_status_prohibit := tsp |> <| poll_pdu := pp |> <| poll_byte := pb |>
             <| max_retx_threshold := mrt |> in
  match snlen with Some n => e <| sn_field_length := n |> | None => e end.

Definition compute_pdu_header_size (e : nr_rlc_entity_am_t) (s : nr_rlc_sdu_segment_t) : Z :=
  2 + (if sn_field_length e =? 18 then 1 else 0) + (if negb (seg_is_first s) then 2 else 0).

(** ** Sequence numbers *)

Definition modulus_rx (e : nr_rlc_entity_am_t) (a : Z) : Z :=
  let r := a - rx_next e in if r <? 0 then r + sn_modulus e else r.

Definition modulus_tx (e : nr_rlc_entity_am_t) (a : Z) : Z :=
  let r := a - tx_next_ack e in if r <? 0 then r + sn_modulus e else r.

Definition sn_in_recv_window (e : nr_rlc_entity_am_t) (n : Z) : bool :=
  modulus_rx e n <? window_size e.

Definition sn_compare_rx (e : nr_rlc_entity_am_t) (a b : Z) : Z := modulus_rx e a - modulus_rx e b.

Definition sn_compare_tx (e : nr_rlc_entity_am_t) (a b : Z) : Z := modulus_tx e a - modulus_tx e b.

(** Ordered insertion in the wait and retransmit lists. *)
Fixpoint nr_rlc_tx_sdu_segment_list_add (e : nr_rlc_entity_am_t)
    (l : list nr_rlc_sdu_segment_t) (s : nr_rlc_sdu_segment_t)
    : res (list nr_rlc_sdu_segment_t) :=
  match l with
  | [] => Ok [s]
  | cur :: l' =>
      uc ← get_sdu (mem (common e)) (seg_sdu cur);
      us ← get_sdu (mem (common e)) (seg_sdu s);
      if (0 <? sn_compare_tx e (sdu_sn uc) (sdu_sn us)) ||
         ((sdu_sn uc =? sdu_sn us) && (seg_so s <? seg_so cur))
      then Ok (s :: l)
      else l'' ← nr_rlc_tx_sdu_segment_list_add e l' s; Ok (cur :: l'')
  end.

(** ** Received segments of an SDU *)

Fixpoint already_received_loop (l : list nr_rlc_pdu_t) (so size : Z) : bool :=
  match l with
  | [] => size <=? 0
  | p :: l' =>
      if negb (0 <? size) then true
      else if (pdu_so p <=? so) && (so <? pdu_so p + pdu_size p) then
        let covered := pdu_size p - (so - pdu_so p) in
        already_received_loop l' (so + covered) (size - covered)
      else if (pdu_so p <=? so + size - 1) && (so + size - 1 <? pdu_so p + pdu_size p) then
        let covered := size - (pdu_so p - so) in
        already_received_loop l' so (size - covered)
      else already_received_loop l' so size
  end.

Definition segment_already_received (e : nr_rlc_entity_am_t) (n so size : Z) : res bool :=
  l ← nr_rlc_rx_manager_get_pdu_from_sn (rx e) n;
  Ok (already_received_loop l so size).

Definition processed (l : list nr_rlc_pdu_t) : bool :=
  match l with p :: _ => negb (bool_decide (is_Some (pdu_data p))) | [] => false end.

Fixpoint sdu_full_loop (last_byte : Z) (l : list nr_rlc_pdu_t) : bool :=
  match l with
  | [] => false
  | p :: l' =>
      if last_byte + 1 <? pdu_so p then false
      else if pdu_is_last p then true
      else
        let new_last_byte := pdu_so p + pdu_size p - 1 in
        sdu_full_loop (if last_byte <? new_last_byte then new_last_byte else last_byte) l'
  end.

Definition sdu_full (e : nr_rlc_entity_am_t) (n : Z) : res bool :=
  l ← nr_rlc_rx_manager_get_pdu_from_sn (rx e) n;
  Ok (if processed l then false else sdu_full_loop (-1) l).

Definition sdu_delivered (e : nr_rlc_entity_am_t) (n : Z) : res bool :=
  l ← nr_rlc_rx_manager_get_pdu_from_sn (rx e) n; Ok (processed l).

Fixpoint missing_loop (last_byte : Z) (l : list nr_rlc_pdu_t) : bool :=
  match l with
  | [] => false
  | p :: l' =>
      if last_byte + 1 <? pdu_so p then true
      else
        let new_last_byte := pdu_so p + pdu_size p - 1 in
        missing_loop (if last_byte <? new_last_byte then new_last_byte else last_byte) l'
  end.

Definition sdu_has_missing_bytes (e : nr_rlc_entity_am_t) (n : Z) : res bool :=
  l ← nr_rlc_rx_manager_get_pdu_from_sn (rx e) n;
  Ok (if processed l then false else missing_loop (-1) l).

(** The loop of [reassemble_and_deliver]; [acc] is [sdu[0 .. so-1]]. *)
Fixpoint reassemble_loop (l : list nr_rlc_pdu_t) (so : Z) (bad_sdu : bool) (acc : bytes)
    (rxsize : Z) : res (list nr_rlc_pdu_t * Z * bool * bytes * Z) :=
  match l with
  | [] => Ok ([], so, bad_sdu, acc, rxsize)
  | p :: l' =>
      let bad_sdu := if (so <? pdu_so p) && negb bad_sdu then true else bad_sdu in
      let len := pdu_size p - (so - pdu_so p) in
      let bad_sdu := if (NR_SDU_MAX <? so + len) && negb bad_sdu then true else bad_sdu in
      '(so, acc) ← (if negb bad_sdu && (0 <? len) then
                      d ← deref (pdu_data p);
                      s ← deref (slice d (so - pdu_so p) len);
                      Ok (so + len, acc ++ s)
                    else Ok (so, acc));
      let p' := p <| pdu_data := None |> in
      '(l', so, bad_sdu, acc, rxsize) ← reassemble_loop l' so bad_sdu acc (rxsize - pdu_size p);
      Ok (p' :: l', so, bad_sdu, acc, rxsize)
  end.

Definition reassemble_and_deliver (e : nr_rlc_entity_am_t) (n : Z) : res nr_rlc_entity_am_t :=
  l ← nr_rlc_rx_manager_get_pdu_from_sn (rx e) n;
  '(l, so, bad_sdu, acc, rxsize) ← reassemble_loop l 0 false [] (rx_size e);
  m ← set_slot (rx e) n l;
  let e := e <| rx := m |> <| rx_size := rxsize |> in
  if (bad_sdu : bool) then Ok e
  else Ok (e <| common ::= λ c, stat txsdu_pkts 1 (emit (deliver_sdu acc so) c) |>).

(** ** Window *)

(** [while (sdu_delivered(entity, sn)) sn = (sn + 1) % entity->sn_modulus]. *)
Fixpoint skip_delivered (fuel : nat) (e : nr_rlc_entity_am_t) (n : Z) : res Z :=
  match fuel with
  | O => NoFuel
  | S fuel' =>
      b ← sdu_delivered e n;
      if (b : bool) then skip_delivered fuel' e (Z.rem (n + 1) (sn_modulus e)) else Ok n
  end.

Definition first_not_delivered (e : nr_rlc_entity_am_t) (n : Z) : res Z :=
  skip_delivered (Z.to_nat (sn_modulus e)) e n.

(** Frees the delivered SDUs from [rx_next] on: new manager, [rx_next] and their count. *)
Fixpoint free_delivered (fuel : nat) (modulus : Z) (m : nr_rlc_rx_manager_t) (n count : Z)
    : res (nr_rlc_rx_manager_t * Z * Z) :=
  match fuel with
  | O => NoFuel
  | S fuel' =>
      l ← nr_rlc_rx_manager_get_pdu_from_sn m n;
      if processed l then
        m ← nr_rlc_rx_manager_clear_pdu m n;
        free_delivered fuel' modulus m (Z.rem (n + 1) modulus) (count + 1)
      else Ok (m, n, count)
  end.

Definition advance_rx_next (e : nr_rlc_entity_am_t) : res nr_rlc_entity_am_t :=
  '(m, n, count) ← free_delivered (Z.to_nat (sn_modulus e)) (sn_modulus e) (rx e) (rx_next e) 0;
  Ok (e <| rx_next := n |>
        <| rx := nr_rlc_rx_manager_set_start (nr_rlc_rx_manager_advance m count) n |>).

(** Delivery part of [reception_actions]. *)
Definition reception_deliver (e : nr_rlc_entity_am_t) (x : Z) : res nr_rlc_entity_am_t :=
  full ← sdu_full e x;
  if (full : bool) then
    e ← reassemble_and_deliver e x;
    e ← (if x =? rx_highest_status e then
           n ← first_not_delivered e (rx_highest_status e);
           Ok (e <| rx_highest_status := n |>)
         else Ok e);
    if x =? rx_next e then advance_rx_next e else Ok e
  else Ok e.

(** Timer part of [reception_actions]. *)
Definition reception_timer (e : nr_rlc_entity_am_t) : res nr_rlc_entity_am_t :=
  let next := Z.rem (rx_next e + 1) (sn_modulus e) in
  missing ← sdu_has_missing_bytes e (rx_next e);
  let e :=
    if negb (t_reassembly_start e =? 0) &&
       ((rx_next_status_trigger e =? rx_next e)
        || ((rx_next_status_trigger e =? next) && negb missing)
        || (negb (sn_in_recv_window e (rx_next_status_trigger e)) &&
            negb (rx_next_status_trigger e =? Z.rem (rx_next e + window_size e) (sn_modulus e))))
    then e <| t_reassembly_start := 0 |> else e in
  if (t_reassembly_start e =? 0) &&
     ((0 <? sn_compare_rx e (rx_next_highest e) next)
      || ((rx_next_highest e =? next) && missing))
  then Ok (e <| t_reassembly_start := t_current e |>
             <| rx_next_status_trigger := rx_next_highest e |>)
  else Ok e.

Definition reception_actions (e : nr_rlc_entity_am_t) (x : Z) : res nr_rlc_entity_am_t :=
  let e := if 0 <=? sn_compare_rx e x (rx_next_highest e)
           then e <| rx_next_highest := Z.rem (x + 1) (sn_modulus e) |> else e in
  e ← reception_deliver e x;
  reception_timer e.

Definition so_overlap (s1 e1 s2 e2 : Z) : bool :=
  if s1 <? s2 then (e1 =? -1) || (s2 <=? e1)
  else (e2 =? -1) || (s1 <=? e2).

(** ** Data PDU reception *)

(** Label [discard]. *)
Definition discard_pdu (e : nr_rlc_entity_am_t) (p : Z) (size : Z) : nr_rlc_entity_am_t :=
  let e := if negb (p =? 0) then e <| status_triggered := true |> else e in
  e <| common ::= λ c, stat rxpdu_dd_bytes size (stat rxpdu_dd_pkts 1 c) |>.

(** From [data_size = size - decoder.byte] on. *)
Definition recv_segment (e : nr_rlc_entity_am_t) (buffer : bytes) (size p n so : Z)
    (is_first is_last : bool) (d : nr_rlc_pdu_decoder_t) : res nr_rlc_entity_am_t :=
  let data_size := size - d_byte d in
  if data_size <=? 0 then Ok (discard_pdu e p size)
  else if rx_maxsize e <? rx_size e + data_size then Ok (discard_pdu e p size)
  else if negb (sn_in_recv_window e n) then
    Ok (discard_pdu (e <| common ::= λ c, stat rxpdu_ow_bytes size (stat rxpdu_ow_pkts 1 c) |>)
          p size)
  else
    dup ← segment_already_received e n so data_size;
    if (dup : bool) then
      Ok (discard_pdu
            (e <| common ::= λ c, stat rxpdu_dup_bytes size (stat rxpdu_dup_pkts 1 c) |>) p size)
    else
      let e := e <| rx_size ::= Z.add data_size |> in
      pdu ← nr_rlc_new_pdu n so is_first is_last buffer (size - data_size) data_size;
      m ← nr_rlc_rx_manager_add_pdu (rx e) pdu;
      e ← reception_actions (e <| rx := m |>) n;
      Ok (if negb (p =? 0) then e <| status_triggered := true |> else e).

(** Data PDU header, after the D/C bit; a failed read of [p] leaves -1 in it. *)
Definition recv_data_pdu (e : nr_rlc_entity_am_t) (buffer : bytes) (size : Z)
    (d : nr_rlc_pdu_decoder_t) : res nr_rlc_entity_am_t :=
  let discard p := Ok (discard_pdu e p size) in
  read_bits (discard (-1)) d 1 (λ p d,
  read_bits (discard p) d 2 (λ si d,
  let is_first := Z.land si 2 =? 0 in
  let is_last := Z.land si 1 =? 0 in
  let k d :=
    read_bits (discard p) d (sn_field_length e) (λ n d,
    if is_first then recv_segment e buffer size p n 0 is_first is_last d
    else read_bits (discard p) d 16 (λ so d,
      if so =? 0 then discard p
      else recv_segment e buffer size p n so is_first is_last d)) in
  if sn_field_length e =? 18 then read_bits (discard p) d 2 (λ _ d, k d) else k d)).
