(* ===== verification/RlcAmControl.v ===== *)
(** * NR RLC AM: control PDU and PDU reception

    Models [process_control_pdu] of [nr_rlc_entity_am.c] (validation of the STATUS PDU, then
    classification of the wait and retransmit lists by its NACKs and ACK) and
    [nr_rlc_entity_am_recv_pdu].  The [goto] labels of the source are definitions:
    [process_next_pdu], [process_wait_list_head], [process_retransmit_list_head]. *)

From S2P Require Import Prelude RlcPdu RlcEntity RlcRxManager RlcAm.

(** One NACK of a STATUS PDU, as both passes read it. *)
Record nack_t := mk_nack {
  nack_sn : Z;
  nack_so_start : Z;
  nack_so_end : Z;
  nack_range : Z
}.

(** Number of reserved bits after the ACK and after a NACK. *)
Definition ack_r_bits (e : nr_rlc_entity_am_t) : Z := if sn_field_length e =? 18 then 1 else 7.
Definition nack_r_bits (e : nr_rlc_entity_am_t) : Z := if sn_field_length e =? 18 then 3 else 1.

(** ** First pass: validation *)

(** Reads a NACK block, with the error checks. *)
Definition read_nack {A} (e : nr_rlc_entity_am_t) (err : res A) (d : nr_rlc_pdu_decoder_t)
    (k : nack_t → Z → nr_rlc_pdu_decoder_t → res A) : res A :=
  read_bits err d (sn_field_length e) (λ n d,
  read_bits err d 1 (λ e1 d,
  read_bits err d 1 (λ e2 d,
  read_bits err d 1 (λ e3 d,
  read_bits err d (nack_r_bits e) (λ _ d,
  let k2 so_start so_end d :=
    let k3 range d :=
      let so_end := if so_end =? 65535 then -1 else so_end in
      k (mk_nack n so_start so_end range) e1 d in
    if negb (e3 =? 0) then read_bits err d 8 k3 else k3 1 d in
  if negb (e2 =? 0) then
    read_bits err d 16 (λ so_start d, read_bits err d 16 (λ so_end d, k2 so_start so_end d))
  else k2 0 65535 d))))).

(** The check of one NACK against the previous one and the ACK. *)
Definition nack_valid (e : nr_rlc_entity_am_t) (ack_sn prev_nack_sn prev_so_end : Z)
    (cur_nack_sn cur_so_start : Z) : bool :=
  let cmp := sn_compare_tx e cur_nack_sn prev_nack_sn in
  negb (negb (prev_nack_sn =? -1) &&
        ((cmp <? 0) || ((cmp =? 0) && ((prev_so_end =? -1) || (cur_so_start <=? prev_so_end)))))
  && negb (0 <? sn_compare_tx e cur_nack_sn ack_sn).

(** [for (i = 0; i < range; i++)], [todo] iterations left from [i].  This pass never assigns
    [prev_nack_sn], which keeps its initial value. *)
Fixpoint validate_range (todo : nat) (i : Z) (e : nr_rlc_entity_am_t)
    (ack_sn prev_nack_sn prev_so_end : Z) (nk : nack_t) : bool :=
  match todo with
  | O => true
  | S todo' =>
      let cur_nack_sn := Z.rem (nack_sn nk + i) (sn_modulus e) in
      let cur_so_start := if i =? 0 then nack_so_start nk else 0 in
      nack_valid e ack_sn prev_nack_sn prev_so_end cur_nack_sn cur_so_start &&
      validate_range todo' (i + 1) e ack_sn prev_nack_sn prev_so_end nk
  end.

(** [while (e1)]; the result is whether the PDU is accepted. *)
Fixpoint validate_nacks (fuel : nat) (e : nr_rlc_entity_am_t) (ack_sn e1 : Z)
    (d : nr_rlc_pdu_decoder_t) : res bool :=
  if e1 =? 0 then Ok true
  else match fuel with
  | O => NoFuel
  | S fuel' =>
      read_nack e (Ok false) d (λ nk e1 d,
        if validate_range (Z.to_nat (nack_range nk)) 0 e ack_sn (-1) 0 nk
        then validate_nacks fuel' e ack_sn e1 d else Ok false)
  end.

(** A NACK takes at least two bytes: the length of the PDU bounds their number. *)
Definition validate_control_pdu (e : nr_rlc_entity_am_t) (buffer : bytes) : res bool :=
  let err := Ok false in
  let d := nr_rlc_pdu_decoder_init buffer (zlen buffer) in
  read_bits err d 1 (λ _ d,
  read_bits err d 3 (λ cpt d,
  if negb (cpt =? 0) then err
  else
  read_bits err d (sn_field_length e) (λ ack_sn d,
  read_bits err d 1 (λ e1 d,
  read_bits err d (ack_r_bits e) (λ _ d,
  if 0 <? sn_compare_tx e ack_sn (tx_next e) then Ok false
  else validate_nacks (S (length buffer)) e ack_sn e1 d))))).

(** ** Second pass: classification of the segments *)

(** Reads a NACK block without the error checks. *)
Definition get_nack (e : nr_rlc_entity_am_t) (d : nr_rlc_pdu_decoder_t)
    : res (nack_t * Z * nr_rlc_pdu_decoder_t) :=
  '(n, d) ← nr_rlc_pdu_decoder_get_bits d (sn_field_length e);
  '(e1, d) ← nr_rlc_pdu_decoder_get_bits d 1;
  '(e2, d) ← nr_rlc_pdu_decoder_get_bits d 1;
  '(e3, d) ← nr_rlc_pdu_decoder_get_bits d 1;
  '(_, d) ← nr_rlc_pdu_decoder_get_bits d (nack_r_bits e);
  '(so_start, so_end, d) ←
    (if negb (e2 =? 0) then
       '(s, d) ← nr_rlc_pdu_decoder_get_bits d 16;
       '(t, d) ← nr_rlc_pdu_decoder_get_bits d 16;
       Ok (s, t, d)
     else Ok (0, 65535, d));
  '(range, d) ← (if negb (e3 =? 0) then nr_rlc_pdu_decoder_get_bits d 8 else Ok (1, d));
  let so_end := if so_end =? 65535 then -1 else so_end in
  Ok (mk_nack n so_start so_end range, e1, d).

(** The local variables of the second pass.  The wait list is [cs_pre ++ cs_rest], its cursor
    the head of [cs_rest] (NULL when [cs_wait_null]) and [prev_wait_list] the end of [cs_pre];
    [cs_end] is [end_wait_list] ([Some None] is the address of the local head);
    [cs_retx] is [cur_retransmit_list] and [cs_new] the new retransmit list up to
    [new_retransmit_list]. *)
Record ctrl_t := mk_ctrl {
  cs_e : nr_rlc_entity_am_t;
  cs_pre : list nr_rlc_sdu_segment_t;
  cs_rest : list nr_rlc_sdu_segment_t;
  cs_wait_null : bool;
  cs_end : option (option nat);
  cs_retx : list nr_rlc_sdu_segment_t;
  cs_new : list nr_rlc_sdu_segment_t
}.
#[export] Instance eta_ctrl : Settable ctrl_t :=
  λ c, mk_ctrl (cs_e c) (cs_pre c) (cs_rest c) (cs_wait_null c) (cs_end c) (cs_retx c) (cs_new c).

Definition cur_wait_list (c : ctrl_t) : list nr_rlc_sdu_segment_t :=
  if cs_wait_null c then [] else cs_rest c.

Definition seg_sn (e : nr_rlc_entity_am_t) (s : nr_rlc_sdu_segment_t) : res Z :=
  u ← get_sdu (mem (common e)) (seg_sdu s); Ok (sdu_sn u).

Definition set_mem (h : sdu_heap) (e : nr_rlc_entity_am_t) : nr_rlc_entity_am_t :=
  e <| common ::= λ c, c <| mem := h |> |>.

(** Frees an acknowledged segment; when it was the last one of its SDU, the SDU is delivered. *)
Definition free_acked (e : nr_rlc_entity_am_t) (s : nr_rlc_sdu_segment_t)
    : res nr_rlc_entity_am_t :=
  u ← get_sdu (mem (common e)) (seg_sdu s);
  '(freed, h) ← nr_rlc_free_sdu_segment (mem (common e)) s;
  let e := set_mem h e in
  Ok (if (freed : bool) then
        e <| tx_size ::= λ x, x - sdu_size u |>
          <| common ::= λ c, emit (sdu_successful_delivery (upper_layer_id u))
                               (stat64 txsdu_bytes (sdu_size u) c) |>
      else e).

(** Unlinks the segment under the wait-list cursor. *)
Definition unlink_wait (c : ctrl_t) (cur : nr_rlc_sdu_segment_t)
    (rest : list nr_rlc_sdu_segment_t) : ctrl_t :=
  let c := if bool_decide (wait_end (cs_e c) = Some (seg_addr cur))
           then c <| cs_end := Some (seg_addr <$> last (cs_pre c)) |> else c in
  c <| cs_rest := rest |>.

(** Where the source jumps next. *)
Inductive jump := next_pdu | done_nack | lists_over.

(** Label [process_wait_list_head]. *)
Definition process_wait_list_head (c : ctrl_t) (cur : nr_rlc_sdu_segment_t)
    (rest : list nr_rlc_sdu_segment_t) (ack_sn cur_nack_sn cur_so_start cur_so_end : Z)
    : res (jump * ctrl_t) :=
  let e := cs_e c in
  n ← seg_sn e cur;
  if (n =? cur_nack_sn) &&
     so_overlap cur_so_start cur_so_end (seg_so cur) (seg_so cur + seg_size cur - 1)
  then
    let c := unlink_wait c cur rest in
    let c := c <| cs_new ::= λ l, l ++ [cur] |> in
    h ← upd_sdu (mem (common e)) (seg_sdu cur) (λ u, u <| retx_count ::= Z.succ |>);
    let e := set_mem h e in
    u ← get_sdu h (seg_sdu cur);
    let e := if max_retx_threshold e * ref_count u <=? retx_count u
             then e <| common ::= emit max_retx_reached |> else e in
    let e := e <| common ::= add_bs_retx (compute_pdu_header_size e cur + seg_size cur) |> in
    Ok (next_pdu, c <| cs_e := e |>)
  else
    let cmp := sn_compare_tx e n cur_nack_sn in
    if (0 <? cmp) || ((cmp =? 0) && (cur_so_start <? seg_so cur)) then Ok (done_nack, c)
    else if sn_compare_tx e n ack_sn <? 0 then
      let c := unlink_wait c cur rest in
      e ← free_acked e cur;
      Ok (next_pdu, c <| cs_e := e |>)
    else if 0 <? sn_compare_tx e n ack_sn then Ok (next_pdu, c <| cs_wait_null := true |>)
    else Ok (next_pdu, c <| cs_pre ::= λ l, l ++ [cur] |> <| cs_rest := rest |>).

(** Label [process_retransmit_list_head].  The shortcut for an empty wait list links the rest
    of the retransmit list behind [new_retransmit_list] and sets [cur_retransmit_list] to NULL;
    [new_retransmit_list->next = cur_retransmit_list] at the end of the function then replaces
    that link, so the model keeps no trace of it. *)
Definition process_retransmit_list_head (c : ctrl_t) (cur : nr_rlc_sdu_segment_t)
    (rest : list nr_rlc_sdu_segment_t) (ack_sn cur_nack_sn cur_so_start cur_so_end : Z)
    : res (jump * ctrl_t) :=
  let e := cs_e c in
  n ← seg_sn e cur;
  let keep := c <| cs_retx := rest |> <| cs_new ::= λ l, l ++ [cur] |> in
  if (n =? cur_nack_sn) &&
     so_overlap cur_so_start cur_so_end (seg_so cur) (seg_so cur + seg_size cur - 1)
  then Ok (next_pdu, keep)
  else
    let cmp := sn_compare_tx e n cur_nack_sn in
    if (0 <? cmp) || ((cmp =? 0) && (cur_so_start <? seg_so cur)) then Ok (done_nack, c)
    else if sn_compare_tx e n ack_sn <? 0 then
      let e := e <| common ::= add_bs_retx (- (compute_pdu_header_size e cur + seg_size cur)) |> in
      e ← free_acked e cur;
      Ok (next_pdu, c <| cs_retx := rest |> <| cs_e := e |>)
    else match cur_wait_list c with
    | [] => Ok (lists_over, c <| cs_retx := [] |>)
    | _ => Ok (next_pdu, keep)
    end.

(** Label [process_next_pdu]: the smallest SN of the two lists. *)
Definition process_next_pdu (c : ctrl_t) (ack_sn cur_nack_sn cur_so_start cur_so_end : Z)
    : res (jump * ctrl_t) :=
  match cur_wait_list c, cs_retx c with
  | [], [] => Ok (lists_over, c)
  | [], r :: rl => process_retransmit_list_head c r rl ack_sn cur_nack_sn cur_so_start cur_so_end
  | w :: wl, [] => process_wait_list_head c w wl ack_sn cur_nack_sn cur_so_start cur_so_end
  | w :: wl, r :: rl =>
      nw ← seg_sn (cs_e c) w;
      nr ← seg_sn (cs_e c) r;
      let cmp := sn_compare_tx (cs_e c) nw nr in
      if (cmp <? 0) || ((cmp =? 0) && (seg_so w <? seg_so r))
      then process_wait_list_head c w wl ack_sn cur_nack_sn cur_so_start cur_so_end
      else process_retransmit_list_head c r rl ack_sn cur_nack_sn cur_so_start cur_so_end
  end.

(** The jumps back to [process_next_pdu]; every round but the last consumes a segment or ends
    the wait list. *)
Fixpoint process_nack (fuel : nat) (c : ctrl_t)
    (ack_sn cur_nack_sn cur_so_start cur_so_end : Z) : res (jump * ctrl_t) :=
  match fuel with
  | O => NoFuel
  | S fuel' =>
      '(j, c) ← process_next_pdu c ack_sn cur_nack_sn cur_so_start cur_so_end;
      match j with
      | next_pdu => process_nack fuel' c ack_sn cur_nack_sn cur_so_start cur_so_end
      | _ => Ok (j, c)
      end
  end.

Definition ctrl_rounds (c : ctrl_t) : nat := 2 + length (cs_rest c) + length (cs_retx c).

(** [for (i = 0; i < range; i++)] of the second pass. *)
Fixpoint process_range (todo : nat) (i : Z) (c : ctrl_t) (ack_sn : Z) (nk : nack_t)
    : res ctrl_t :=
  match todo with
  | O => Ok c
  | S todo' =>
      let cur_nack_sn := Z.rem (nack_sn nk + i) (sn_modulus (cs_e c)) in
      let cur_so_start := if i =? 0 then nack_so_start nk else 0 in
      let cur_so_end := if i =? nack_range nk - 1 then nack_so_end nk else -1 in
      '(j, c) ← process_nack (ctrl_rounds c) c ack_sn cur_nack_sn cur_so_start cur_so_end;
      match j with
      | lists_over => Ok c
      | _ => process_range todo' (i + 1) c ack_sn nk
      end
  end.

(** Label [lists_over]: a NACK for [poll_sn] stops [t_poll_retransmit]. *)
Definition stop_poll_on_nack (c : ctrl_t) (nk : nack_t) : ctrl_t :=
  let e := cs_e c in
  if (sn_compare_tx e (nack_sn nk) (poll_sn e) <=? 0) &&
     (sn_compare_tx e (poll_sn e) (Z.rem (nack_sn nk + nack_range nk) (sn_modulus e)) <? 0)
  then c <| cs_e := e <| t_poll_retransmit_start := 0 |> |> else c.

(** [while (e1)] of the second pass. *)
Fixpoint process_nacks (fuel : nat) (c : ctrl_t) (ack_sn e1 : Z) (d : nr_rlc_pdu_decoder_t)
    : res ctrl_t :=
  if e1 =? 0 then Ok c
  else match fuel with
  | O => NoFuel
  | S fuel' =>
      '(nk, e1, d) ← get_nack (cs_e c) d;
      c ← process_range (Z.to_nat (nack_range nk)) 0 c ack_sn nk;
      process_nacks fuel' (stop_poll_on_nack c nk) ack_sn e1 d
  end.

(** "nacks done, finish with ack": the wait list. *)
Fixpoint ack_wait_list (c : ctrl_t) (l : list nr_rlc_sdu_segment_t) (ack_sn : Z) : res ctrl_t :=
  match l with
  | [] => Ok c
  | cur :: rest =>
      n ← seg_sn (cs_e c) cur;
      if sn_compare_tx (cs_e c) n ack_sn <? 0 then
        let c := unlink_wait c cur rest in
        e ← free_acked (cs_e c) cur;
        ack_wait_list (c <| cs_e := e |>) rest ack_sn
      else Ok c
  end.

(** ... and the retransmit list. *)
Fixpoint ack_retransmit_list (c : ctrl_t) (l : list nr_rlc_sdu_segment_t) (ack_sn : Z)
    : res ctrl_t :=
  match l with
  | [] => Ok c
  | cur :: rest =>
      n ← seg_sn (cs_e c) cur;
      if sn_compare_tx (cs_e c) n ack_sn <? 0 then
        let e := cs_e c in
        let e := e <| common ::= add_bs_retx (- (compute_pdu_header_size e cur + seg_size cur)) |> in
        e ← free_acked e cur;
        ack_retransmit_list (c <| cs_retx := rest |> <| cs_e := e |>) rest ack_sn
      else Ok c
  end.

(** The lists go back to the entity. *)
Definition store_lists (c : ctrl_t) : nr_rlc_entity_am_t :=
  let e := (cs_e c) <| wait_list := cs_pre c ++ cs_rest c |>
                    <| retransmit_list := cs_new c ++ cs_retx c |> in
  match cs_end c with Some w => e <| wait_end := w |> | None => e end.

(** [update tx_next_ack]. *)
Definition update_tx_next_ack (e : nr_rlc_entity_am_t) (ack_sn : Z) : res nr_rlc_entity_am_t :=
  let lower a b := if sn_compare_tx e a b <? 0 then a else b in
  let t := tx_next e in
  t ← (match wait_list e with s :: _ => n ← seg_sn e s; Ok (lower n t) | [] => Ok t end);
  t ← (match retransmit_list e with s :: _ => n ← seg_sn e s; Ok (lower n t) | [] => Ok t end);
  Ok (e <| tx_next_ack := lower ack_sn t |>).

Definition process_valid_control_pdu (e : nr_rlc_entity_am_t) (buffer : bytes)
    : res nr_rlc_entity_am_t :=
  let d := nr_rlc_pdu_decoder_init buffer (zlen buffer) in
  '(_, d) ← nr_rlc_pdu_decoder_get_bits d 1;
  '(_, d) ← nr_rlc_pdu_decoder_get_bits d 3;
  '(ack_sn, d) ← nr_rlc_pdu_decoder_get_bits d (sn_field_length e);
  '(e1, d) ← nr_rlc_pdu_decoder_get_bits d 1;
  '(_, d) ← nr_rlc_pdu_decoder_get_bits d (ack_r_bits e);
  let e := if sn_compare_tx e (poll_sn e) ack_sn <? 0
           then e <| t_poll_retransmit_start := 0 |> else e in
  let c := mk_ctrl e [] (wait_list e) false None (retransmit_list e) [] in
  c ← process_nacks (S (length buffer)) c ack_sn e1 d;
  c ← ack_wait_list c (cur_wait_list c) ack_sn;
  c ← ack_retransmit_list c (cs_retx c) ack_sn;
  update_tx_next_ack (store_lists c) ack_sn.

Definition process_control_pdu (e : nr_rlc_entity_am_t) (buffer : bytes)
    : res nr_rlc_entity_am_t :=
  valid ← validate_control_pdu e buffer;
  if (valid : bool) then process_valid_control_pdu e buffer else Ok e.

(** ** PDU reception *)

Definition nr_rlc_entity_am_recv_pdu (e : nr_rlc_entity_am_t) (buffer : bytes)
    : res nr_rlc_entity_am_t :=
  let size := zlen buffer in
  let e := e <| common ::= λ c, stat rxpdu_bytes size (stat rxpdu_pkts 1 c) |> in
  let d := nr_rlc_pdu_decoder_init buffer size in
  read_bits (Ok (discard_pdu e 0 size)) d 1 (λ dc d,
  if dc =? 0 then process_control_pdu e buffer
  else recv_data_pdu e buffer size d).
