(* ===== verification/RlcAmPool.v ===== *)
(** * NR RLC AM: the segments a transmitter holds

    The transmission, wait and retransmit lists of an AM entity share one pool of segments: the
    bytes of an SDU may be spread over the three lists.  This file states what makes a pool
    consistent ([pool]), independently of the lists, proves that it is kept by the memory
    operations of the entity (marking, numbering, cutting, freeing and creating segments), and
    proves the ordered insertion [nr_rlc_tx_sdu_segment_list_add] correct. *)

From S2P Require Import Prelude.
From S2P Require Import RlcPdu.
From S2P Require Import RlcEntity.

From S2P Require Import RlcRxManager.
From S2P Require Import RlcAm.
From S2P Require Import RlcAmControl.

(** ** The transmission window *)

(** [sn_modulus], [tx_next_ack] and [tx_next]. *)
Record txw := mk_txw { w_mod : Z; w_ack : Z; w_next : Z }.

Definition txw_of (e : nr_rlc_entity_am_t) : txw := mk_txw (sn_modulus e) (tx_next_ack e) (tx_next e).

Definition w_ok (w : txw) : Prop :=
  0 <= w_ack w < w_mod w ∧ 0 <= w_next w < w_mod w.

(** Position of an SN in the window. *)
Definition w_pos (w : txw) (n : Z) : Z :=
  let r := n - w_ack w in if r <? 0 then r + w_mod w else r.

(** [n] has been given to an SDU and is still in the window. *)
Definition w_sent (w : txw) (n : Z) : Prop := 0 <= n < w_mod w ∧ w_pos w n < w_pos w (w_next w).

Lemma w_pos_range w n : w_ok w → 0 <= n < w_mod w → 0 <= w_pos w n < w_mod w.
Proof. unfold w_ok, w_pos. bool_prop; lia. Qed.

Lemma w_pos_inj w a b : w_ok w → 0 <= a < w_mod w → 0 <= b < w_mod w → w_pos w a = w_pos w b → a = b.
Proof. unfold w_ok, w_pos. bool_prop; lia. Qed.

(** ** Order of the segments *)

(** The SN of a segment's SDU; -1 when it has none yet. *)
Definition sn_of (h : sdu_heap) (s : nr_rlc_sdu_segment_t) : Z :=
  match sdus h !! seg_sdu s with Some u => sdu_sn u | None => -1 end.

Definition before (w : txw) (h : sdu_heap) (a b : nr_rlc_sdu_segment_t) : Prop :=
  w_pos w (sn_of h a) < w_pos w (sn_of h b) ∨
  w_pos w (sn_of h a) = w_pos w (sn_of h b) ∧ seg_so a < seg_so b.

#[export] Instance before_transitive w h : Transitive (before w h).
Proof. intros a b c. unfold before. lia. Qed.

Abbreviation sorted w h := (StronglySorted (before w h)).

(** ** The pool *)

(** A segment reserves its bytes; an SDU without bytes reserves one. *)
Definition seg_stop (s : nr_rlc_sdu_segment_t) : Z := seg_so s + Z.max 1 (seg_size s).

Definition apart (a b : nr_rlc_sdu_segment_t) : Prop := seg_stop a <= seg_so b ∨ seg_stop b <= seg_so a.

Record pool (w : txw) (h : sdu_heap) (l : list nr_rlc_sdu_segment_t) : Prop := {
  po_safe : heap_safe h l;
  po_wf : Forall (seg_wf NR_SDU_MAX h) l;
  po_apart a b : a ∈ l → b ∈ l → seg_addr a ≠ seg_addr b → seg_sdu a = seg_sdu b → apart a b;
  po_sn a b : a ∈ l → b ∈ l → sn_of h a = sn_of h b → sn_of h a ≠ -1 → seg_sdu a = seg_sdu b;
  po_sent s : s ∈ l → sn_of h s = -1 ∨ w_sent w (sn_of h s)
}.

Lemma pool_perm w h l k : l ≡ₚ k → pool w h l → pool w h k.
Proof.
  intros Hp [H1 H2 H3 H4 H5]. constructor.
  - by eapply heap_safe_perm.
  - by rewrite <- Hp.
  - intros a b. rewrite <- !Hp. apply H3.
  - intros a b. rewrite <- !Hp. apply H4.
  - intros s. rewrite <- Hp. apply H5.
Qed.

Lemma pool_sub w h l k : pool w h (k ++ l) → pool w h l.
Proof.
  intros [H1 H2 H3 H4 H5]. constructor.
  - clear -H1. induction k as [| s k IH]; [done |]. apply IH. by eapply heap_safe_sub.
  - by apply Forall_app in H2 as [_ ?].
  - intros a b Ha Hb. apply H3; apply elem_of_app; by right.
  - intros a b Ha Hb. apply H4; apply elem_of_app; by right.
  - intros s Hs. apply H5, elem_of_app. by right.
Qed.

Lemma pool_live w h l s : pool w h l → s ∈ l → ∃ u, sdus h !! seg_sdu s = Some u ∧ seg_in u s ∧
  sdu_size u <= NR_SDU_MAX ∧ sn_of h s = sdu_sn u.
Proof.
  intros Hp Hs. pose proof (po_wf _ _ _ Hp) as Hwf. rewrite Forall_forall in Hwf.
  destruct (Hwf s Hs) as (u & Hu & Hin & Hz). exists u. unfold sn_of. by rewrite Hu.
Qed.

(** Two different segments that have been sent are ordered. *)
Lemma pool_total w h l a b :
  w_ok w → pool w h l → a ∈ l → b ∈ l → seg_addr a ≠ seg_addr b →
  w_sent w (sn_of h a) → w_sent w (sn_of h b) → ¬ before w h a b → before w h b a.
Proof.
  intros Hw Hp Ha Hb Hne Hsa Hsb Hnot. unfold before in *.
  destruct (Z.eq_dec (w_pos w (sn_of h a)) (w_pos w (sn_of h b))) as [E |]; [| lia].
  apply w_pos_inj in E; [| done | apply Hsa | apply Hsb].
  destruct (po_apart _ _ _ Hp a b Ha Hb Hne) as [H | H].
  - apply (po_sn _ _ _ Hp); [done.. |]. destruct Hsa. lia.
  - unfold seg_stop in H. rewrite E in *. lia.
  - unfold seg_stop in H. rewrite E in *. lia.
Qed.

(** ** Memory operations *)

(** [h'] keeps the SDUs it has: their bytes and SN. *)
Definition sdu_kept (h' h : sdu_heap) : Prop :=
  ∀ a u', sdus h' !! a = Some u' →
    ∃ u, sdus h !! a = Some u ∧ sdu_data u' = sdu_data u ∧ sdu_size u' = sdu_size u ∧ sdu_sn u' = sdu_sn u.

#[export] Instance sdu_kept_preorder : PreOrder sdu_kept.
Proof.
  split.
  - intros h a u Hu. eauto.
  - intros h1 h2 h3 H12 H23 a u Hu. destruct (H12 a u Hu) as (u2 & H2 & ? & ? & ?).
    destruct (H23 a u2 H2) as (u3 & ? & ? & ? & ?). exists u3. split_and!; congruence.
Qed.

Lemma sdu_kept_data h' h : sdu_kept h' h → data_sub h' h.
Proof. intros H a u Hu. destruct (H a u Hu) as (v & ? & ? & ? & _). eauto. Qed.

Lemma sn_of_kept h' h s : sdu_kept h' h → is_Some (sdus h' !! seg_sdu s) → sn_of h' s = sn_of h s.
Proof.
  intros Hk [u' Hu']. destruct (Hk _ _ Hu') as (u & Hu & _ & _ & E). unfold sn_of. by rewrite Hu, Hu'.
Qed.

Lemma pool_kept w h h' l : sdu_kept h' h → heap_safe h' l → pool w h l → pool w h' l.
Proof.
  intros Hk Hs [H1 H2 H3 H4 H5].
  assert (Hsn : ∀ s, s ∈ l → sn_of h' s = sn_of h s).
  { intros s Hin. apply sn_of_kept; [done |]. by apply (hs_live _ _ Hs). }
  constructor; try done.
  - apply (segs_wf_sub _ h h'); [by apply sdu_kept_data | apply (hs_live _ _ Hs) | done].
  - intros a b Ha Hb. rewrite !Hsn by done. by apply H4.
  - intros s Hin. rewrite Hsn by done. by apply H5.
Qed.

Lemma sorted_kept w h h' l :
  sdu_kept h' h → (∀ s, s ∈ l → is_Some (sdus h' !! seg_sdu s)) → sorted w h l → sorted w h' l.
Proof.
  intros Hk Hl H. induction H as [| s l Hs IH Hall]; constructor.
  - apply IH. intros x Hx. apply Hl. by right.
  - rewrite Forall_forall in *. intros x Hx. unfold before.
    rewrite (sn_of_kept h' h s), (sn_of_kept h' h x); [by apply Hall | done | | done |];
      apply Hl; [by right | by left].
Qed.

(** A write that touches neither the bytes, the SN nor the counters. *)
Lemma upd_kept h a f u :
  sdus h !! a = Some u → (∀ u, sdu_data (f u) = sdu_data u ∧ sdu_size (f u) = sdu_size u ∧ sdu_sn (f u) = sdu_sn u) →
  ∃ h', upd_sdu h a f = Ok h' ∧ sdu_kept h' h ∧ sdus h' !! a = Some (f u) ∧ next_addr h' = next_addr h.
Proof.
  intros Hu Hf. rewrite (upd_sdu_Ok h a f u Hu). eexists. split; [done |]. simpl.
  split_and!; [| by rewrite lookup_insert_eq | done].
  intros b v. simpl. rewrite lookup_insert. case_decide as E; intros Hv; [| eauto].
  simplify_eq. destruct (Hf u) as (? & ? & ?). eauto.
Qed.

Lemma free_kept h s b h' : nr_rlc_free_sdu_segment h s = Ok (b, h') → sdu_kept h' h.
Proof.
  unfold nr_rlc_free_sdu_segment, get_sdu. intros Hf. inv_bind Hf.
  destruct (sdus h !! seg_sdu s) as [u |] eqn:Ha; simplify_eq/=.
  intros x v Hv. destruct (_ =? _); simplify_eq/=.
  - apply lookup_delete_Some in Hv as [? ?]. eauto.
  - rewrite lookup_insert in Hv. case_decide; simplify_eq; eauto.
Qed.

(** Freeing a segment of the pool. *)
Lemma pool_free w h s l : pool w h (s :: l) →
  ∃ b h', nr_rlc_free_sdu_segment h s = Ok (b, h') ∧ pool w h' l ∧ sdu_kept h' h.
Proof.
  intros Hp. destruct (free_segment_safe h s l (po_safe _ _ _ Hp)) as (b & h' & Hf & Hs & _).
  exists b, h'. pose proof (free_kept _ _ _ _ Hf) as Hk. split_and!; [done | | done].
  apply (pool_kept w h); [done | done |]. by apply (pool_sub w h l [s]).
Qed.

Lemma pool_free_list w h l k : pool w h (l ++ k) →
  ∃ h', nr_rlc_free_sdu_segment_list h l = Ok h' ∧ pool w h' k ∧ sdu_kept h' h.
Proof.
  revert h. induction l as [| s l IH]; intros h Hp; simpl; [by exists h |].
  destruct (pool_free w h s (l ++ k) Hp) as (b & h1 & -> & Hp1 & Hk1). simpl.
  destruct (IH h1 Hp1) as (h2 & -> & Hp2 & Hk2). exists h2. split_and!; [done | done | by trans h1].
Qed.

(** A counter update of an SDU of the pool. *)
Lemma pool_upd w h l s f :
  pool w h l → s ∈ l →
  (∀ u, sdu_data (f u) = sdu_data u ∧ sdu_size (f u) = sdu_size u ∧ sdu_sn (f u) = sdu_sn u ∧
        ref_count (f u) - free_count (f u) = ref_count u - free_count u) →
  ∃ u h', upd_sdu h (seg_sdu s) f = Ok h' ∧ pool w h' l ∧ sdu_kept h' h ∧
    sdus h !! seg_sdu s = Some u ∧ sdus h' !! seg_sdu s = Some (f u).
Proof.
  intros Hp Hs Hf. destruct (pool_live _ _ _ _ Hp Hs) as (u & Hu & _).
  destruct (upd_kept h (seg_sdu s) f u Hu) as (h' & E & Hk & Hl & _); [intros v; destruct (Hf v) as (?&?&?&?); auto |].
  exists u, h'. split_and!; try done. apply (pool_kept w h); [done | | done].
  by destruct (heap_safe_upd h l _ f h' (λ v, proj2 (proj2 (proj2 (Hf v)))) E (po_safe _ _ _ Hp)).
Qed.

(** Numbering the SDU of [s] with [tx_next]. *)
Lemma pool_assign w h l s u :
  w_ok w → w_pos w (w_next w) + 1 < w_mod w → pool w h l → s ∈ l → sdus h !! seg_sdu s = Some u → sdu_sn u = -1 →
  let w' := mk_txw (w_mod w) (w_ack w) (Z.rem (w_next w + 1) (w_mod w)) in
  let h' := mk_heap (<[seg_sdu s := u <| sdu_sn := w_next w |>]> (sdus h)) (next_addr h) in
  w_ok w' ∧ w_pos w' (w_next w') = w_pos w (w_next w) + 1 ∧ pool w' h' l ∧ sn_of h' s = w_next w ∧
  ∀ x, sn_of h x ≠ -1 → sn_of h' x = sn_of h x.
Proof.
  intros Hw Hroom Hp Hs Hu Hm1 w' h'. pose proof Hp as [H1 H2 H3 H4 H5].
  assert (Hnext : w_next w' = if w_next w + 1 <? w_mod w then w_next w + 1 else w_next w + 1 - w_mod w)
    by (simpl; apply rem_wrap; destruct Hw; lia).
  assert (Hpos : w_pos w' (w_next w') = w_pos w (w_next w) + 1).
  { rewrite Hnext. unfold w_pos, w_ok in *. simpl. revert Hroom. bool_prop; lia. }
  assert (Hsn : ∀ x, sn_of h' x = if decide (seg_sdu s = seg_sdu x) then w_next w else sn_of h x).
  { intros x. unfold sn_of, h'. simpl. rewrite lookup_insert. by case_decide. }
  assert (Hun : ∀ x, x ∈ l → sn_of h x ≠ w_next w).
  { intros x Hx E. destruct (H5 x Hx) as [H | [_ H]]; rewrite E in H; [destruct Hw; lia | lia]. }
  split; [| split; [| split; [| split]]].
  - destruct Hw as [Ha Hn]. split; simpl in *; [lia | rewrite Hnext; bool_prop; lia].
  - done.
  - destruct (heap_safe_upd h l (seg_sdu s) (λ u, u <| sdu_sn := w_next w |>) h') as (Hs' & _);
      [done | by rewrite (upd_sdu_Ok _ _ _ u) | done |].
    constructor.
    + done.
    + apply (segs_wf_sub _ h h'); [| apply (hs_live _ _ Hs') | done].
      eapply (data_sub_upd h (seg_sdu s) (λ u, u <| sdu_sn := w_next w |>)); [done |].
      by rewrite (upd_sdu_Ok _ _ _ u).
    + done.
    + intros a b Ha Hb. rewrite !Hsn. repeat case_decide; try congruence; intros E; [| | by apply H4].
      * by destruct (Hun b Hb).
      * by destruct (Hun a Ha).
    + intros x Hx. rewrite Hsn. unfold w_sent. rewrite Hpos. case_decide.
      * right. split; [apply Hw |]. change (w_pos w' (w_next w)) with (w_pos w (w_next w)). lia.
      * destruct (H5 x Hx) as [? | [? ?]]; [by left | right]. split; [done |].
        change (w_pos w' (sn_of h x)) with (w_pos w (sn_of h x)). lia.
  - rewrite Hsn. by rewrite decide_True.
  - intros x Hx. rewrite Hsn. case_decide as E; [| done].
    exfalso. apply Hx. unfold sn_of. by rewrite <- E, Hu.
Qed.

(** Cutting the segment [s] after [k] bytes. *)
Lemma pool_cut w h s l k h1 :
  pool w h (s :: l) → 0 < k < seg_size s →
  upd_sdu h (seg_sdu s) (λ u, u <| ref_count ::= Z.succ |>) = Ok h1 →
  let t := cut_tail s k (next_addr h1) in
  let h2 := h1 <| next_addr ::= S |> in
  pool w h2 (cut_head s k :: t :: l) ∧ sdu_kept h2 h ∧
  sn_of h2 (cut_head s k) = sn_of h s ∧ sn_of h2 t = sn_of h s ∧ seg_addr t = next_addr h.
Proof.
  intros Hp Hk Hu t h2. pose proof Hp as [H1 H2 H3 H4 H5].
  destruct (heap_safe_split h s l h1 k H1 Hu) as [Hsafe _].
  destruct (pool_live _ _ _ s Hp) as (u & Hus & _); [by left |].
  destruct (upd_kept h (seg_sdu s) (λ u, u <| ref_count ::= Z.succ |>) u Hus) as (h1' & E & Hkept & _ & Hn); [done |].
  rewrite E in Hu. injection Hu as ->. rewrite <- Hn in Hsafe. fold t in Hsafe.
  change (h1 <| next_addr ::= S |>) with h2 in Hsafe. change (sdu_kept h2 h) in Hkept.
  assert (Hsn : ∀ x, x ∈ cut_head s k :: t :: l → sn_of h2 x = sn_of h x).
  { intros x Hx. apply sn_of_kept; [done |]. by apply (hs_live _ _ Hsafe). }
  apply Forall_cons in H2 as [Hs Hl]. destruct (cut_wf _ _ s k (next_addr h1) Hk Hs) as (Wh & Wt & _).
  assert (Hap : ∀ x, x ∈ l → seg_sdu s = seg_sdu x → apart s x).
  { intros x Hx. apply H3; [by left | by right |]. pose proof (hs_nodup _ _ H1) as Hnd.
    apply NoDup_cons in Hnd as [Hnd _]. intros E'. apply Hnd. rewrite E'.
    by apply (list_elem_of_fmap_2 seg_addr). }
  split; [| split_and!; [done | | | done]].
  2: exact (Hsn (cut_head s k) ltac:(by left)).
  2: exact (Hsn t ltac:(right; by left)).
  constructor.
  - done.
  - apply (segs_wf_sub _ h h2); [by apply sdu_kept_data | apply (hs_live _ _ Hsafe) |].
    constructor; [exact Wh | constructor; [exact Wt | done]].
  - intros a b Ha Hb Hne Hsdu.
    apply elem_of_cons in Ha as [-> | [-> | Ha]%elem_of_cons];
      apply elem_of_cons in Hb as [-> | [-> | Hb]%elem_of_cons]; try done.
    + left. unfold seg_stop. simpl. lia.
    + destruct (Hap b Hb Hsdu) as [H | H]; unfold apart, seg_stop in *; simpl; lia.
    + right. unfold seg_stop. simpl. lia.
    + destruct (Hap b Hb Hsdu) as [H | H]; unfold apart, seg_stop in *; simpl; lia.
    + destruct (Hap a Ha (eq_sym Hsdu)) as [H | H]; unfold apart, seg_stop in *; simpl; lia.
    + destruct (Hap a Ha (eq_sym Hsdu)) as [H | H]; unfold apart, seg_stop in *; simpl; lia.
    + apply H3; [by right | by right | done | done].
  - assert (Hrep : ∀ x, x ∈ cut_head s k :: t :: l → ∃ y, y ∈ s :: l ∧ seg_sdu x = seg_sdu y).
    { intros x [-> | [-> | Hx]%elem_of_cons]%elem_of_cons; [exists s | exists s | exists x]; split; try done;
        [by left | by left | by right]. }
    intros a b Ha Hb. rewrite (Hsn a Ha), (Hsn b Hb).
    destruct (Hrep a Ha) as (a' & Ha' & Ea), (Hrep b Hb) as (b' & Hb' & Eb).
    unfold sn_of. rewrite Ea, Eb. by apply H4.
  - intros x Hx. rewrite (Hsn x Hx). apply elem_of_cons in Hx as [-> | [-> | Hx]%elem_of_cons];
      [exact (H5 s ltac:(by left)).. | apply H5; by right].
Qed.

(** A new SDU. *)
Lemma pool_new w h l u s :
  pool w h l → ref_count u = 1 → free_count u = 0 → sdu_sn u = -1 → sdu_size u <= NR_SDU_MAX →
  seg_sdu s = next_addr h → seg_addr s = S (next_addr h) → seg_in u s →
  pool w (mk_heap (<[next_addr h := u]> (sdus h)) (S (S (next_addr h)))) (s :: l).
Proof.
  intros Hp Hr Hf Hm1 Hmax Hsdu Haddr Hin. pose proof Hp as [H1 H2 H3 H4 H5].
  destruct (new_sdu_safe h l u Hr Hf H1 s Hsdu Haddr) as [Hs' _].
  set (h' := mk_heap _ _) in *.
  assert (Hne : ∀ x, x ∈ l → seg_sdu x ≠ next_addr h).
  { intros x Hx E. pose proof (hs_live _ _ H1 x Hx) as Hx'. apply (hs_fresh _ _ H1) in Hx'. lia. }
  assert (Hsn : ∀ x, x ∈ l → sn_of h' x = sn_of h x).
  { intros x Hx. unfold sn_of, h'. simpl. rewrite lookup_insert_ne; [done |]. intros E. by apply (Hne x Hx). }
  assert (Hs : sn_of h' s = -1) by (unfold sn_of, h'; simpl; by rewrite Hsdu, lookup_insert_eq).
  constructor.
  - done.
  - constructor; [exists u; simpl; by rewrite Hsdu, lookup_insert_eq |].
    rewrite Forall_forall in *. intros x Hx. destruct (H2 x Hx) as (v & Hv & Hrest). exists v.
    split; [| done]. simpl. rewrite lookup_insert_ne; [done |]. intros E. by apply (Hne x Hx).
  - intros a b Ha Hb Hab Esdu. apply elem_of_cons in Ha as [-> | Ha]; apply elem_of_cons in Hb as [-> | Hb].
    + done.
    + exfalso. apply (Hne b Hb). congruence.
    + exfalso. apply (Hne a Ha). congruence.
    + by apply H3.
  - intros a b Ha Hb. apply elem_of_cons in Ha as [-> | Ha]; apply elem_of_cons in Hb as [-> | Hb].
    + done.
    + rewrite Hs. congruence.
    + rewrite Hs. congruence.
    + rewrite (Hsn a Ha), (Hsn b Hb). by apply H4.
  - intros x [-> | Hx]%elem_of_cons; [by left |]. rewrite (Hsn x Hx). by apply H5.
Qed.

(** Moving [tx_next_ack] forward, not past an SN of the pool. *)
Lemma w_pos_move w A n :
  w_ok w → 0 <= A < w_mod w → 0 <= n < w_mod w → w_pos w A <= w_pos w n →
  w_pos (mk_txw (w_mod w) A (w_next w)) n = w_pos w n - w_pos w A.
Proof. unfold w_ok, w_pos. simpl. intros. revert H2. bool_prop; lia. Qed.

Lemma pool_move w h l A :
  w_ok w → 0 <= A < w_mod w → w_pos w A <= w_pos w (w_next w) →
  (∀ s, s ∈ l → sn_of h s = -1 ∨ w_pos w A <= w_pos w (sn_of h s)) → pool w h l →
  let w' := mk_txw (w_mod w) A (w_next w) in
  w_ok w' ∧ pool w' h l ∧ w_pos w' (w_next w) = w_pos w (w_next w) - w_pos w A ∧
  ∀ k, (∀ s, s ∈ k → s ∈ l ∧ sn_of h s ≠ -1) → sorted w h k → sorted w' h k.
Proof.
  intros Hw HA Hle Hl Hp w'. pose proof Hp as [H1 H2 H3 H4 H5].
  assert (Hn : w_pos w' (w_next w) = w_pos w (w_next w) - w_pos w A) by (apply w_pos_move; auto; apply Hw).
  assert (Hpos : ∀ s, s ∈ l → sn_of h s ≠ -1 → w_pos w' (sn_of h s) = w_pos w (sn_of h s) - w_pos w A).
  { intros s Hs Hne. destruct (H5 s Hs) as [? | [Hr _]]; [done |]. destruct (Hl s Hs) as [? | Hs']; [done |].
    by apply w_pos_move. }
  split; [split; [done | apply Hw] |]. split; [| split; [done |]].
  - constructor; try done. intros s Hs. destruct (Z.eq_dec (sn_of h s) (-1)) as [| Hne]; [by left | right].
    destruct (H5 s Hs) as [? | [Hr Hlt]]; [done |]. split; [done |].
    rewrite Hpos by done. change (w_next w') with (w_next w). lia.
  - intros k Hk. induction 1 as [| s k Hs IH Hall]; constructor.
    + apply IH. intros x Hx. apply Hk. by right.
    + rewrite Forall_forall in *. intros x Hx. destruct (Hk s) as [? ?]; [by left |].
      destruct (Hk x) as [? ?]; [by right |]. unfold before. rewrite !Hpos by done.
      destruct (Hall x Hx) as [? | [? ?]]; lia.
Qed.

(** ** Ordered insertion *)

Lemma sn_compare_pos e a b : sn_compare_tx e a b = w_pos (txw_of e) a - w_pos (txw_of e) b.
Proof. done. Qed.

Lemma get_sdu_live w e l s : pool w (mem (common e)) l → s ∈ l →
  ∃ u, get_sdu (mem (common e)) (seg_sdu s) = Ok u ∧ sdu_sn u = sn_of (mem (common e)) s ∧
    sdus (mem (common e)) !! seg_sdu s = Some u.
Proof.
  intros Hp Hs. destruct (pool_live _ _ _ s Hp Hs) as (u & Hu & _ & _ & E). exists u.
  unfold get_sdu. by rewrite Hu.
Qed.

Lemma seg_sn_ok w e l s : pool w (mem (common e)) l → s ∈ l → seg_sn e s = Ok (sn_of (mem (common e)) s).
Proof.
  intros Hp Hs. destruct (get_sdu_live _ _ _ _ Hp Hs) as (u & E & <- & _). unfold seg_sn. by rewrite E.
Qed.

(** [s] goes before the first segment that is after it. *)
Lemma list_add_split e l s k :
  let h := mem (common e) in let w := txw_of e in
  w_ok w → pool w h (s :: l ++ k) → w_sent w (sn_of h s) → Forall (λ x, w_sent w (sn_of h x)) l →
  ∃ l1 l2, nr_rlc_tx_sdu_segment_list_add e l s = Ok (l1 ++ s :: l2) ∧ l = l1 ++ l2 ∧
    Forall (λ x, before w h x s) l1 ∧ match l2 with [] => True | x :: _ => before w h s x end.
Proof.
  intros h w Hw. induction l as [| x l IH]; intros Hp Hs Hl; simpl; [by exists [], [] |].
  apply Forall_cons in Hl as [Hx Hl].
  destruct (get_sdu_live w e _ x Hp) as (ux & -> & Ex & _); [right; by left |].
  destruct (get_sdu_live w e _ s Hp) as (us & -> & Es & _); [by left |]. cbn [mbind res_bind].
  rewrite Ex, Es, sn_compare_pos. fold h w.
  assert (Hdec : (0 <? w_pos w (sn_of h x) - w_pos w (sn_of h s))
                 || ((sn_of h x =? sn_of h s) && (seg_so s <? seg_so x)) = true ↔ before w h s x).
  { unfold before. rewrite orb_true_iff, andb_true_iff, !Z.ltb_lt, Z.eqb_eq. split.
    - intros [? | [-> ?]]; lia.
    - intros [? | [E ?]]; [lia | right]. split; [| done]. symmetry in E.
      by apply w_pos_inj in E; [| done | apply Hx | apply Hs]. }
  destruct (_ || _).
  - exists [], (x :: l). split_and!; try done. simpl. by apply Hdec.
  - destruct IH as (l1 & l2 & -> & -> & H1 & H2); [| done | done |].
    + apply (pool_sub w h _ [x]). eapply pool_perm; [| exact Hp]. simpl. apply Permutation_swap.
    + exists (x :: l1), l2. simpl. split_and!; try done. constructor; [| done].
      assert (Hxin : x ∈ (x :: l1 ++ l2) ++ k) by (simpl; by left).
      apply (pool_total w h (s :: (x :: l1 ++ l2) ++ k)); [done | done | by left | by right | | done | done |].
      * pose proof (hs_nodup _ _ (po_safe _ _ _ Hp)) as Hnd. apply NoDup_cons in Hnd as [Hnd _].
        intros E. apply Hnd. rewrite E. by apply list_elem_of_fmap_2.
      * intros Hb. apply Hdec in Hb. done.
Qed.

Lemma sorted_insert w h l1 s l2 :
  sorted w h (l1 ++ l2) → Forall (λ x, before w h x s) l1 →
  match l2 with [] => True | x :: _ => before w h s x end → sorted w h (l1 ++ s :: l2).
Proof.
  intros Hs H1 H2. induction l1 as [| x l1 IH]; simpl in *.
  - constructor; [done |]. destruct l2 as [| y l2]; [constructor |]. constructor; [done |].
    inversion_clear Hs as [| ? ? _ Hall]. eapply Forall_impl; [exact Hall |]. intros z Hz. simpl. by trans y.
  - inversion_clear Hs as [| ? ? Hs' Hall]. apply Forall_cons in H1 as [Hx H1]. constructor; [by apply IH |].
    rewrite Forall_app in *. destruct Hall as [Ha Hb]. split; [done |]. by constructor.
Qed.

Lemma list_add_ok e l s k :
  let h := mem (common e) in let w := txw_of e in
  w_ok w → pool w h (s :: l ++ k) → w_sent w (sn_of h s) → Forall (λ x, w_sent w (sn_of h x)) l → sorted w h l →
  ∃ l', nr_rlc_tx_sdu_segment_list_add e l s = Ok l' ∧ l' ≡ₚ s :: l ∧ sorted w h l'.
Proof.
  intros h w Hw Hp Hs Hl Hsort. destruct (list_add_split e l s k Hw Hp Hs Hl) as (l1 & l2 & E & -> & H1 & H2).
  exists (l1 ++ s :: l2). split_and!; [done | by rewrite <- Permutation_middle | by apply sorted_insert].
Qed.
