(* ===== verification/RlcAmStatus.v ===== *)
(** * NR RLC AM: status reporting

    Models the status part of [nr_rlc_entity_am.c]: the search for missing data in the
    reception window ([next_missing]), the encoding of the STATUS PDU ([generate_status]) and
    the computation of its size for the buffer status ([status_size]).  A pointer to a stored
    PDU is the list of segments from that PDU on; [[]] is NULL. *)

From S2P Require Import Prelude RlcPdu RlcEntity RlcRxManager RlcAm RlcAmControl.

(** [md_sn_start] is -1 when there is nothing more to report; the other fields are then
    meaningless. *)
Record missing_data_t := mk_missing {
  md_sn_start : Z;
  md_so_start : Z;
  md_sn_end : Z;
  md_so_end : Z;
  md_next : list nr_rlc_pdu_t
}.
#[export] Instance eta_missing : Settable missing_data_t :=
  λ m, mk_missing (md_sn_start m) (md_so_start m) (md_sn_end m) (md_so_end m) (md_next m).

Definition nothing_missing (next : list nr_rlc_pdu_t) : missing_data_t :=
  mk_missing (-1) 0 0 0 next.

(** ** Walking the reception window *)

(** The loop of [get_first_rx_pdu] and [get_next_rx_pdu], from [n] to [last_sn]. *)
Fixpoint find_rx_pdu (fuel : nat) (e : nr_rlc_entity_am_t) (n last_sn : Z)
    : res (list nr_rlc_pdu_t) :=
  match fuel with
  | O => NoFuel
  | S fuel' =>
      l ← nr_rlc_rx_manager_get_pdu_from_sn (rx e) n;
      if n =? last_sn then Ok l
      else match l with
      | [] => find_rx_pdu fuel' e (Z.rem (n + 1) (sn_modulus e)) last_sn
      | _ => Ok l
      end
  end.

Definition get_first_rx_pdu (e : nr_rlc_entity_am_t) : res (list nr_rlc_pdu_t) :=
  find_rx_pdu (Z.to_nat (sn_modulus e)) e (rx_next e) (rx_highest_status e).

(** The PDU after [cur], whose own list continues with [rest]. *)
Definition get_next_rx_pdu (e : nr_rlc_entity_am_t) (cur : nr_rlc_pdu_t)
    (rest : list nr_rlc_pdu_t) : res (list nr_rlc_pdu_t) :=
  match rest with
  | _ :: _ => Ok rest
  | [] =>
      if pdu_sn cur =? rx_highest_status e then Ok []
      else find_rx_pdu (Z.to_nat (sn_modulus e)) e
             (Z.rem (pdu_sn cur + 1) (sn_modulus e)) (rx_highest_status e)
  end.

(** ** [next_missing] *)

(** [don't report if out of reporting window]. *)
Definition not_reported (e : nr_rlc_entity_am_t) (n : Z) : bool :=
  sn_compare_rx e (rx_highest_status e) n <=? 0.

Definition before_highest_status (e : nr_rlc_entity_am_t) : Z :=
  Z.rem (rx_highest_status e - 1 + sn_modulus e) (sn_modulus e).

(** Label [set_end_different_sdu]. *)
Definition set_end_different_sdu (e : nr_rlc_entity_am_t) (cur : nr_rlc_pdu_t)
    (ret : missing_data_t) : missing_data_t :=
  let ret :=
    if pdu_is_first cur then
      ret <| md_sn_end := Z.rem (pdu_sn cur - 1 + sn_modulus e) (sn_modulus e) |>
          <| md_so_end := 65535 |>
    else ret <| md_sn_end := pdu_sn cur |> <| md_so_end := pdu_so cur - 1 |> in
  if not_reported e (md_sn_end ret) then
    ret <| md_sn_end := before_highest_status e |> <| md_so_end := 65535 |> <| md_next := [] |>
  else ret.

(** [no next?]: the end of the reception list. *)
Definition missing_at_end (e : nr_rlc_entity_am_t) (cur : nr_rlc_pdu_t) (max_so : Z)
    (last_reached : bool) : missing_data_t :=
  let after := Z.rem (pdu_sn cur + 1) (sn_modulus e) in
  let '(sn_start, so_start) :=
    if negb (bool_decide (is_Some (pdu_data cur))) then (after, 0)
    else if last_reached then (after, 0)
    else (pdu_sn cur, max_so + 1) in
  if not_reported e sn_start then nothing_missing []
  else mk_missing sn_start so_start (before_highest_status e) 65535 [].

(** [discontinuity in data] between the bytes up to [max_so] of SDU [n] and [cur]. *)
Definition missing_before (e : nr_rlc_entity_am_t) (n max_so : Z) (last_reached : bool)
    (cur : nr_rlc_pdu_t) (next : list nr_rlc_pdu_t) : missing_data_t :=
  if pdu_sn cur =? n then
    if not_reported e n then nothing_missing next
    else mk_missing n (max_so + 1) n (pdu_so cur - 1) next
  else
    let '(sn_start, so_start) :=
      if last_reached then (Z.rem (n + 1) (sn_modulus e), 0) else (n, max_so + 1) in
    if not_reported e sn_start then nothing_missing next
    else set_end_different_sdu e cur (mk_missing sn_start so_start 0 0 next).

(** Label [next_pdu]; [cur] and [rest] are the current PDU and its successors. *)
Fixpoint next_pdu_loop (fuel : nat) (e : nr_rlc_entity_am_t) (cur : nr_rlc_pdu_t)
    (rest : list nr_rlc_pdu_t) (max_so : Z) (last_reached : bool) : res missing_data_t :=
  match fuel with
  | O => NoFuel
  | S fuel' =>
      let n := pdu_sn cur in
      let cur_max_so := pdu_so cur + pdu_size cur - 1 in
      let max_so := if max_so <? cur_max_so then cur_max_so else max_so in
      let last_reached := last_reached || pdu_is_last cur in
      nxt ← get_next_rx_pdu e cur rest;
      match nxt with
      | [] => Ok (missing_at_end e cur max_so last_reached)
      | c :: r =>
          if (pdu_sn c =? n) && (pdu_so c - 1 <=? max_so)
          then next_pdu_loop fuel' e c r max_so last_reached
          else if (pdu_sn c =? Z.rem (n + 1) (sn_modulus e)) && last_reached && pdu_is_first c
          then next_pdu_loop fuel' e c r 0 false
          else Ok (missing_before e n max_so last_reached c nxt)
      end
  end.

(** One more than the number of stored PDUs. *)
Definition rx_pdu_count (e : nr_rlc_entity_am_t) : nat := S (length (concat (m_rx_list (rx e)))).

Definition next_missing (e : nr_rlc_entity_am_t) (cur : nr_rlc_pdu_t)
    (rest : list nr_rlc_pdu_t) (check_head : bool) : res missing_data_t :=
  if check_head && (negb (pdu_sn cur =? rx_next e) || negb (pdu_is_first cur)) then
    if not_reported e (rx_next e) then Ok (nothing_missing [])
    else Ok (set_end_different_sdu e cur (mk_missing (rx_next e) 0 0 0 (cur :: rest)))
  else next_pdu_loop (rx_pdu_count e) e cur rest 0 false.

(** ** NACK encoding *)

Definition nack_size (e : nr_rlc_entity_am_t) (m : missing_data_t) : Z :=
  let nack_length := 2 + b2z (sn_field_length e =? 18) in
  let whole := (md_so_start m =? 0) && (md_so_end m =? 65535) in
  if md_sn_start m =? md_sn_end m then if whole then nack_length else nack_length + 4
  else if whole then nack_length + 1 else nack_length + 5.

Definition get_e1_position (e : nr_rlc_entity_am_t) (enc : nr_rlc_pdu_encoder_t) : Z * Z :=
  if sn_field_length e =? 18 then (e_byte enc + 2, 5) else (e_byte enc + 1, 3).

(** [encoder->buffer[byte] |= 1 << bit]. *)
Definition set_bit_at (buf : bytes) (byte bit : Z) : res bytes :=
  b ← deref (znth buf byte); zset buf byte (Z.lor b (Z.shiftl 1 bit)).

(** The range cut at 255 SNs: the NACK to report now, out of [sn_count] SNs from [sn_start]. *)
Definition cut_range (e : nr_rlc_entity_am_t) (m : missing_data_t) (sn_start sn_count : Z)
    : missing_data_t * Z :=
  let cur_sn_count := if 255 <? sn_count then 255 else sn_count in
  let so_start := if sn_start =? md_sn_start m then md_so_start m else 0 in
  let '(sn_end, so_end) :=
    if cur_sn_count =? sn_count then (md_sn_end m, md_so_end m)
    else (Z.rem (sn_start + 254) (sn_modulus e), 65535) in
  (mk_missing sn_start so_start sn_end so_end [], cur_sn_count).

(** The fields of a NACK block.  Returns the encoder and [so_end_address] as an offset. *)
Definition put_nack (e : nr_rlc_entity_am_t) (enc : nr_rlc_pdu_encoder_t) (nk : missing_data_t)
    (cur_sn_count : Z) : res (nr_rlc_pdu_encoder_t * option Z) :=
  let e2 := negb ((md_so_start nk =? 0) && (md_so_end nk =? 65535)) in
  let e3 := negb (md_sn_start nk =? md_sn_end nk) in
  enc ← nr_rlc_pdu_encoder_put_bits enc (md_sn_start nk) (sn_field_length e);
  enc ← nr_rlc_pdu_encoder_put_bits enc 0 1;
  enc ← nr_rlc_pdu_encoder_put_bits enc (b2z e2) 1;
  enc ← nr_rlc_pdu_encoder_put_bits enc (b2z e3) 1;
  enc ← nr_rlc_pdu_encoder_put_bits enc 0 (nack_r_bits e);
  '(enc, addr) ←
    (if e2 then
       enc ← nr_rlc_pdu_encoder_put_bits enc (md_so_start nk) 16;
       let addr := e_byte enc in
       enc ← nr_rlc_pdu_encoder_put_bits enc (md_so_end nk) 16;
       Ok (enc, Some addr)
     else Ok (enc, None));
  enc ← (if e3 then nr_rlc_pdu_encoder_put_bits enc cur_sn_count 8 else Ok enc);
  Ok (enc, addr).

(** State of [generate_missing]: encoder, position of the last e1 bit, [so_end_address]. *)
Record status_t := mk_status {
  st_enc : nr_rlc_pdu_encoder_t;
  st_e1_byte : Z;
  st_e1_bit : Z;
  st_so_end : option Z
}.

(** [while (sn_count)] of [generate_missing].  Returns the state, the last NACK and whether the
    generation was truncated (then [m->next] is set to NULL). *)
Fixpoint generate_missing_loop (fuel : nat) (e : nr_rlc_entity_am_t) (m : missing_data_t)
    (st : status_t) (sn_start sn_count last_nack : Z) : res (status_t * Z * bool) :=
  if sn_count =? 0 then Ok (st, last_nack, false)
  else match fuel with
  | O => NoFuel
  | S fuel' =>
      let '(nk, cur_sn_count) := cut_range e m sn_start sn_count in
      if e_size (st_enc st) <? e_byte (st_enc st) + nack_size e nk then Ok (st, last_nack, true)
      else
        buf ← set_bit_at (e_buffer (st_enc st)) (st_e1_byte st) (st_e1_bit st);
        let enc := (st_enc st) <| e_buffer := buf |> in
        let '(e1_byte, e1_bit) := get_e1_position e enc in
        '(enc, addr) ← put_nack e enc nk cur_sn_count;
        let last_nack := sn_start + (if sn_start =? md_sn_end nk then 0 else cur_sn_count - 1) in
        generate_missing_loop fuel' e m (mk_status enc e1_byte e1_bit addr)
          (Z.rem (sn_start + cur_sn_count) (sn_modulus e)) (sn_count - cur_sn_count) last_nack
  end.

Definition missing_sn_count (e : nr_rlc_entity_am_t) (m : missing_data_t) : Z :=
  Z.rem (md_sn_end m - md_sn_start m + sn_modulus e) (sn_modulus e) + 1.

Definition generate_missing (e : nr_rlc_entity_am_t) (m : missing_data_t) (st : status_t)
    : res (status_t * Z * bool) :=
  let sn_count := missing_sn_count e m in
  generate_missing_loop (S (Z.to_nat sn_count)) e m st (md_sn_start m) sn_count (-1).

(** ** STATUS PDU *)

(** [so_end_address[0] = so_end_address[1] = 0xff]. *)
Definition force_so_end (st : status_t) : res status_t :=
  match st_so_end st with
  | None => Ok st
  | Some a =>
      buf ← zset (e_buffer (st_enc st)) a 255;
      buf ← zset buf (a + 1) 255;
      Ok (mk_status ((st_enc st) <| e_buffer := buf |>) (st_e1_byte st) (st_e1_bit st)
            (st_so_end st))
  end.

(** [while (cur != NULL)] of [generate_status]: a turn that is not the last writes at least two
    bytes of the buffer. *)
Fixpoint generate_status_loop (fuel : nat) (e : nr_rlc_entity_am_t) (cur : list nr_rlc_pdu_t)
    (check_head : bool) (st : status_t) (last_nack : Z) : res (status_t * Z) :=
  match cur with
  | [] => Ok (st, last_nack)
  | c :: r =>
      match fuel with
      | O => NoFuel
      | S fuel' =>
          m ← next_missing e c r check_head;
          if md_sn_start m =? -1 then Ok (st, last_nack)
          else
            '(st, ln, truncated) ← generate_missing e m st;
            let last_nack := if negb (ln =? -1) then ln else last_nack in
            st ← (if (truncated : bool) then force_so_end st else Ok st);
            generate_status_loop fuel' e (if (truncated : bool) then [] else md_next m) false st
              last_nack
      end
  end.

(** The ACK and the reset of the trigger. *)
Definition put_ack_sn (e : nr_rlc_entity_am_t) (buf : bytes) (ack_sn : Z) : res bytes :=
  if sn_field_length e =? 12 then
    buf ← zset buf 0 (u8 (Z.shiftr ack_sn 8));
    zset buf 1 (Z.land ack_sn 255)
  else
    buf ← zset buf 0 (u8 (Z.shiftr ack_sn 14));
    buf ← zset buf 1 (Z.land (Z.shiftr ack_sn 6) 255);
    b ← deref (znth buf 2);
    zset buf 2 (Z.lor b (Z.shiftl (Z.land ack_sn 63) 2)).

Definition generate_status (e : nr_rlc_entity_am_t) (buffer : bytes) (size : Z)
    : res (Z * bytes * nr_rlc_entity_am_t) :=
  if size <? 3 then Ok (0, buffer, e)
  else
    let last_nack := Z.rem (rx_next e - 1 + sn_modulus e) (sn_modulus e) in
    enc ← nr_rlc_pdu_encoder_put_bits (nr_rlc_pdu_encoder_init buffer size) 0 (8 * 3);
    cur ← get_first_rx_pdu e;
    let e1_bit := if sn_field_length e =? 18 then 1 else 7 in
    '(st, last_nack) ←
      generate_status_loop (S (Z.to_nat size)) e cur true (mk_status enc 2 e1_bit None) last_nack;
    let ack_sn := Z.rem (last_nack + 1) (sn_modulus e) in
    buf ← put_ack_sn e (e_buffer (st_enc st)) ack_sn;
    let n := e_byte (st_enc st) in
    let e := e <| status_triggered := false |> <| t_status_prohibit_start := t_current e |>
               <| common ::= λ c, stat txpdu_status_bytes n (stat txpdu_status_pkts 1
                    (stat txpdu_bytes n (stat txpdu_pkts 1 c))) |> in
    Ok (n, buf, e).

Definition status_to_report (e : nr_rlc_entity_am_t) : bool :=
  status_triggered e &&
  ((t_status_prohibit_start e =? 0)
   || (t_status_prohibit e <? u64 (t_current e - t_status_prohibit_start e))).

(** ** Size of the STATUS PDU *)

(** Bytes added by one NACK, as [missing_size] counts them. *)
Definition nack_bytes (e : nr_rlc_entity_am_t) (nk : missing_data_t) : Z :=
  let bits := sn_field_length e + 3 + nack_r_bits e in
  let whole := (md_so_start nk =? 0) && (md_so_end nk =? 65535) in
  if md_sn_start nk =? md_sn_end nk
  then if whole then Z.quot bits 8 else Z.quot (bits + 16 * 2) 8
  else if whole then Z.quot (bits + 8) 8 else Z.quot (bits + 16 * 2 + 8) 8.

(** Returns the new size, the number of ranges and whether there was no more room. *)
Fixpoint missing_size_loop (fuel : nat) (e : nr_rlc_entity_am_t) (m : missing_data_t)
    (sn_start sn_count range_count size maxsize : Z) : res (Z * Z * bool) :=
  if sn_count =? 0 then Ok (size, range_count, false)
  else match fuel with
  | O => NoFuel
  | S fuel' =>
      let '(nk, cur_sn_count) := cut_range e m sn_start sn_count in
      if maxsize <? size + nack_size e nk then Ok (size, range_count, true)
      else
        missing_size_loop fuel' e m (Z.rem (sn_start + cur_sn_count) (sn_modulus e))
          (sn_count - cur_sn_count) (range_count + 1) (size + nack_bytes e nk) maxsize
  end.

Definition missing_size (e : nr_rlc_entity_am_t) (m : missing_data_t) (size maxsize : Z)
    : res (Z * Z * bool) :=
  let sn_count := missing_sn_count e m in
  missing_size_loop (S (Z.to_nat sn_count)) e m (md_sn_start m) sn_count 0 size maxsize.

Fixpoint status_size_loop (fuel : nat) (e : nr_rlc_entity_am_t) (cur : list nr_rlc_pdu_t)
    (nack_count size maxsize : Z) : res Z :=
  match cur with
  | [] => Ok size
  | c :: r =>
      match fuel with
      | O => NoFuel
      | S fuel' =>
          m ← next_missing e c r (nack_count =? 0);
          if md_sn_start m =? -1 then Ok size
          else
            '(size, count, truncated) ← missing_size e m size maxsize;
            status_size_loop fuel' e (if (truncated : bool) then [] else md_next m)
              (nack_count + count) size maxsize
      end
  end.

Definition status_size (e : nr_rlc_entity_am_t) (maxsize : Z) : res Z :=
  if maxsize <? 3 then Ok 0
  else
    cur ← get_first_rx_pdu e;
    status_size_loop (S (Z.to_nat maxsize)) e cur 0 3 maxsize.
