(* ===== verification/RlcAmTx.v ===== *)
(** * NR RLC AM: transmission, timers, discard

    Models the rest of [nr_rlc_entity_am.c]: polling, (re)transmission of data PDUs with
    segmentation, [nr_rlc_entity_am_generate_pdu], SDU reception, the timers, SDU discard,
    re-establishment and deletion. *)

From S2P Require Import Prelude RlcPdu RlcEntity RlcRxManager RlcAm RlcAmControl.
From S2P Require Import RlcAmStatus.

(** ** Polling *)

Definition is_window_stalling (e : nr_rlc_entity_am_t) : bool :=
  negb ((sn_compare_tx e (tx_next_ack e) (tx_next e) <=? 0) &&
        (sn_compare_tx e (tx_next e)
           (Z.rem (tx_next_ack e + window_size e) (sn_modulus e)) <? 0)).

Definition include_poll (e : nr_rlc_entity_am_t) (buffer : bytes)
    : res (bytes * nr_rlc_entity_am_t) :=
  b ← deref (znth buffer 0);
  buffer ← zset buffer 0 (Z.lor b 64);
  Ok (buffer,
      e <| pdu_without_poll := 0 |> <| byte_without_poll := 0 |>
        <| poll_sn := Z.rem (tx_next e - 1 + sn_modulus e) (sn_modulus e) |>
        <| t_poll_retransmit_start := t_current e |>).

Definition check_poll_after_pdu_assembly (e : nr_rlc_entity_am_t) : bool :=
  let transmission_buffer_empty := match tx_list e with [] => true | _ => false end in
  let retransmission_buffer_empty := match retransmit_list e with [] => true | _ => false end in
  (transmission_buffer_empty && retransmission_buffer_empty) || is_window_stalling e.

(** ** PDU construction *)

Definition serialize_sdu (e : nr_rlc_entity_am_t) (s : nr_rlc_sdu_segment_t) (buffer : bytes)
    (bufsize : Z) (p : bool) : res (Z * bytes * nr_rlc_entity_am_t) :=
  u ← get_sdu (mem (common e)) (seg_sdu s);
  let enc := nr_rlc_pdu_encoder_init buffer bufsize in
  enc ← nr_rlc_pdu_encoder_put_bits enc 1 1;
  enc ← nr_rlc_pdu_encoder_put_bits enc 0 1;
  enc ← nr_rlc_pdu_encoder_put_bits enc (1 - b2z (seg_is_first s)) 1;
  enc ← nr_rlc_pdu_encoder_put_bits enc (1 - b2z (seg_is_last s)) 1;
  enc ← (if sn_field_length e =? 18 then nr_rlc_pdu_encoder_put_bits enc 0 2 else Ok enc);
  enc ← nr_rlc_pdu_encoder_put_bits enc (sdu_sn u) (sn_field_length e);
  enc ← (if seg_is_first s then Ok enc else nr_rlc_pdu_encoder_put_bits enc (seg_so s) 16);
  buf ← memcpy (e_buffer enc) (e_byte enc) (sdu_data u) (seg_so s) (seg_size s);
  '(buf, e) ← (if p then include_poll e buf else Ok (buf, e));
  Ok (e_byte enc + seg_size s, buf, e).

(** Returns the entity, the shortened segment and the segment of the remaining bytes. *)
Definition resegment (s : nr_rlc_sdu_segment_t) (e : nr_rlc_entity_am_t) (pdu_size : Z)
    : res (nr_rlc_entity_am_t * nr_rlc_sdu_segment_t * nr_rlc_sdu_segment_t) :=
  h ← upd_sdu (mem (common e)) (seg_sdu s) (λ u, u <| ref_count ::= Z.succ |>);
  let pdu_header_size := compute_pdu_header_size e s in
  let over_size := pdu_header_size + seg_size s - pdu_size in
  let s' := s <| seg_size ::= λ x, x - over_size |> <| seg_is_last := false |> in
  let next := s <| seg_addr := next_addr h |> <| seg_size := over_size |>
                <| seg_so := seg_so s' + seg_size s' |> <| seg_is_first := false |> in
  Ok (set_mem (h <| next_addr ::= S |>) e, s', next).

(** [put SDU/SDU segment in the wait list]. *)
Definition put_in_wait_list (e : nr_rlc_entity_am_t) (s : nr_rlc_sdu_segment_t)
    : res nr_rlc_entity_am_t :=
  n ← seg_sn e s;
  append ←
    (match wait_end e with
     | None => Ok true
     | Some a =>
         w ← deref (list_find (λ x, seg_addr x = a) (wait_list e));
         nw ← seg_sn e w.2;
         let cmp := sn_compare_tx e n nw in
         Ok ((0 <? cmp) || ((cmp =? 0) && (seg_so w.2 <? seg_so s)))
     end);
  if (append : bool) then
    '(l, end_) ← nr_rlc_sdu_segment_list_append (wait_list e) (wait_end e) s;
    Ok (e <| wait_list := l |> <| wait_end := end_ |>)
  else
    l ← nr_rlc_tx_sdu_segment_list_add e (wait_list e) s;
    let e := e <| wait_list := l |> in
    Ok (match l with [x] => e <| wait_end := Some (seg_addr x) |> | _ => e end).

(** [force_poll] overrides the poll decision, once. *)
Definition poll_decision (e : nr_rlc_entity_am_t) (p : bool) : bool * nr_rlc_entity_am_t :=
  if force_poll e then (true, e <| force_poll := false |>) else (p, e).

Definition generate_retx_pdu (e : nr_rlc_entity_am_t) (buffer : bytes) (size : Z)
    : res (Z * bytes * nr_rlc_entity_am_t) :=
  match retransmit_list e with
  | [] => UB
  | s :: l =>
      let pdu_header_size := compute_pdu_header_size e s in
      if size <? pdu_header_size + 1 then Ok (0, buffer, e)
      else
        let e := e <| retransmit_list := l |> in
        let pdu_size := pdu_header_size + seg_size s in
        let e := e <| common ::= add_bs_retx (- pdu_size) |> in
        '(e, s) ←
          (if size <? pdu_size then
             '(e, s, next) ← resegment s e size;
             let e := e <| retransmit_list ::= cons next |> in
             Ok (e <| common ::= λ c, stat txpdu_segmented 1
                        (add_bs_retx (compute_pdu_header_size e next + seg_size next) c) |>, s)
           else Ok (e, s));
        e ← put_in_wait_list e s;
        let '(p, e) := poll_decision e (check_poll_after_pdu_assembly e) in
        '(ret, buf, e) ← serialize_sdu e s buffer size p;
        Ok (ret, buf,
            e <| common ::= λ c, stat txpdu_retx_bytes ret (stat txpdu_retx_pkts 1
                   (stat txpdu_bytes ret (stat txpdu_pkts 1 c))) |>)
  end.

(** [assign SN to SDU], on its first PDU. *)
Definition assign_sn (e : nr_rlc_entity_am_t) (s : nr_rlc_sdu_segment_t)
    : res nr_rlc_entity_am_t :=
  u ← get_sdu (mem (common e)) (seg_sdu s);
  if sdu_sn u =? -1 then
    h ← upd_sdu (mem (common e)) (seg_sdu s) (λ u, u <| sdu_sn := tx_next e |>);
    Ok ((set_mem h e) <| tx_next := Z.rem (tx_next e + 1) (sn_modulus e) |>)
  else Ok e.

(** [polling actions for a new PDU] of [n] data bytes. *)
Definition poll_for_new_pdu (e : nr_rlc_entity_am_t) (n : Z) : bool * nr_rlc_entity_am_t :=
  let e := e <| pdu_without_poll ::= Z.succ |> <| byte_without_poll ::= Z.add n |> in
  let p := if (negb (poll_pdu e =? -1) && (poll_pdu e <=? pdu_without_poll e)) ||
              (negb (poll_byte e =? -1) && (poll_byte e <=? byte_without_poll e))
           then true else check_poll_after_pdu_assembly e in
  poll_decision e p.

Definition generate_tx_pdu (e : nr_rlc_entity_am_t) (buffer : bytes) (size now_us : Z)
    : res (Z * bytes * nr_rlc_entity_am_t) :=
  if is_window_stalling e then Ok (0, buffer, e)
  else match tx_list e with
  | [] => Ok (0, buffer, e)
  | s :: l =>
      let pdu_header_size := compute_pdu_header_size e s in
      if size <? pdu_header_size + 1 then Ok (0, buffer, e)
      else
        let e := e <| tx_list := l |> in
        let e := match l with [] => e <| tx_end := None |> | _ => e end in
        let pdu_size := pdu_header_size + seg_size s in
        let e := e <| common ::= add_bs_tx (- pdu_size) |> in
        e ← assign_sn e s;
        '(e, s) ←
          (if size <? pdu_size then
             '(e, s, next) ← resegment s e size;
             let e := e <| tx_list ::= cons next |> in
             let e := match tx_end e with None => e <| tx_end := Some (seg_addr next) |>
                                        | Some _ => e end in
             Ok (e <| common ::= λ c,
                        add_bs_tx (compute_pdu_header_size e next + seg_size next)
                          (stat txpdu_segmented 1 c) |>, s)
           else Ok (e, s));
        e ← put_in_wait_list e s;
        let '(p, e) := poll_for_new_pdu e (seg_size s) in
        '(ret, buf, e) ← serialize_sdu e s buffer size p;
        u ← get_sdu (mem (common e)) (seg_sdu s);
        Ok (ret, buf,
            e <| common ::= λ c, record_wait now_us (time_of_arrival u)
                   (stat txpdu_bytes ret (stat txpdu_pkts 1 c)) |>)
  end.

Definition nr_rlc_entity_am_buffer_status (e : nr_rlc_entity_am_t) (maxsize : Z)
    : res nr_rlc_entity_buffer_status_t :=
  n ← (if status_to_report e then status_size e maxsize else Ok 0);
  Ok (mk_bstatus n (bs_tx_size (bstatus (common e))) (bs_retx_size (bstatus (common e)))).

Definition nr_rlc_entity_am_generate_pdu (e : nr_rlc_entity_am_t) (buffer : bytes)
    (size now_us : Z) : res (Z * bytes * nr_rlc_entity_am_t) :=
  '(ret, buffer, e) ← (if status_to_report e then generate_status e buffer size
                       else Ok (0, buffer, e));
  if negb (ret =? 0) then Ok (ret, buffer, e)
  else
    '(ret, buffer, e) ← (match retransmit_list e with
                         | [] => Ok (0, buffer, e)
                         | _ => generate_retx_pdu e buffer size
                         end);
    if negb (ret =? 0) then Ok (ret, buffer, e)
    else generate_tx_pdu e buffer size now_us.

(** ** SDU reception *)

Definition log_rejected (e : nr_rlc_entity_am_t) : nr_rlc_entity_am_t :=
  if negb (sdu_rejected e =? 0) && (u64 (t_log_buffer_full e + 1000) <? t_current e)
  then e <| sdu_rejected := 0 |> <| t_log_buffer_full := t_current e |> else e.

Definition nr_rlc_entity_am_recv_sdu (e : nr_rlc_entity_am_t) (buffer : bytes)
    (sdu_id now_us : Z) : res nr_rlc_entity_am_t :=
  let size := zlen buffer in
  let e := e <| common ::= stat rxsdu_pkts 1 |> in
  _ ← assert_that (size <=? NR_SDU_MAX);
  let e := log_rejected e in
  if tx_maxsize e <? tx_size e + size then
    Ok (e <| sdu_rejected ::= Z.succ |>
          <| common ::= λ c, stat txpdu_dd_bytes size (stat txpdu_dd_pkts 1 c) |>)
  else
    let e := e <| tx_size ::= Z.add size |> <| common ::= stat64 rxsdu_bytes size |> in
    '(s, h) ← nr_rlc_new_sdu (mem (common e)) buffer size sdu_id;
    '(l, end_) ← nr_rlc_sdu_segment_list_append (tx_list e) (tx_end e) s;
    let e := (set_mem h e) <| tx_list := l |> <| tx_end := end_ |> in
    let e := e <| common ::= add_bs_tx (compute_pdu_header_size e s + seg_size s) |> in
    if avg_time_is_on (common e) then
      h ← upd_sdu (mem (common e)) (seg_sdu s) (λ u, u <| time_of_arrival := now_us |>);
      Ok (set_mem h e)
    else Ok e.

(** ** Timers *)

(** The [do ... while] loop: the segments at the head of the wait list with the SN of the first
    one go to the retransmit list. *)
Fixpoint retransmit_head (e : nr_rlc_entity_am_t) (l : list nr_rlc_sdu_segment_t)
    (retransmit_sn : Z) : res nr_rlc_entity_am_t :=
  match l with
  | [] => Ok e
  | cur :: rest =>
      n ← seg_sn e cur;
      if n =? retransmit_sn then
        let e := e <| wait_list := rest |> in
        let e := match rest with [] => e <| wait_end := None |> | _ => e end in
        let e := e <| common ::= add_bs_retx (compute_pdu_header_size e cur + seg_size cur) |> in
        r ← nr_rlc_tx_sdu_segment_list_add e (retransmit_list e) cur;
        retransmit_head (e <| retransmit_list := r |>) rest retransmit_sn
      else Ok e
  end.

(** [cur = entity->wait_list] is dereferenced without a check. *)
Definition check_t_poll_retransmit (e : nr_rlc_entity_am_t) : res nr_rlc_entity_am_t :=
  if (t_poll_retransmit_start e =? 0)
     || (t_current e <=? u64 (t_poll_retransmit_start e + t_poll_retransmit e))
  then Ok e
  else
    let e := e <| t_poll_retransmit_start := 0 |> <| force_poll := true |> in
    if negb (check_poll_after_pdu_assembly e) then Ok e
    else match wait_list e with
    | [] => UB
    | cur :: _ =>
        h ← upd_sdu (mem (common e)) (seg_sdu cur) (λ u, u <| retx_count ::= Z.succ |>);
        u ← get_sdu h (seg_sdu cur);
        let e := set_mem h e in
        e ← retransmit_head e (wait_list e) (sdu_sn u);
        Ok (if max_retx_threshold e <=? retx_count u
            then e <| common ::= emit max_retx_reached |> else e)
    end.

Definition check_t_reassembly (e : nr_rlc_entity_am_t) : res nr_rlc_entity_am_t :=
  if (t_reassembly_start e =? 0)
     || (t_current e <=? u64 (t_reassembly_start e + t_reassembly e))
  then Ok e
  else
    let e := e <| t_reassembly_start := 0 |> in
    n ← first_not_delivered e (rx_next_status_trigger e);
    let e := e <| rx_highest_status := n |> <| status_triggered := true |> in
    let next := Z.rem (rx_highest_status e + 1) (sn_modulus e) in
    missing ← sdu_has_missing_bytes e (rx_highest_status e);
    if (0 <? sn_compare_rx e (rx_next_highest e) next)
       || ((rx_next_highest e =? next) && missing)
    then Ok (e <| t_reassembly_start := t_current e |>
               <| rx_next_status_trigger := rx_next_highest e |>)
    else Ok e.

Definition nr_rlc_entity_am_set_time (e : nr_rlc_entity_am_t) (now : Z)
    : res nr_rlc_entity_am_t :=
  e ← check_t_poll_retransmit (e <| t_current := now |>);
  check_t_reassembly e.

(** ** Discard, re-establishment, deletion *)

Fixpoint find_sdu (h : sdu_heap) (l : list nr_rlc_sdu_segment_t) (sdu_id : Z)
    : res (list nr_rlc_sdu_segment_t * list nr_rlc_sdu_segment_t) :=
  match l with
  | [] => Ok ([], [])
  | s :: l' =>
      u ← get_sdu h (seg_sdu s);
      if upper_layer_id u =? sdu_id then Ok ([], l)
      else '(pre, post) ← find_sdu h l' sdu_id; Ok (s :: pre, post)
  end.

Definition nr_rlc_entity_am_discard_sdu (e : nr_rlc_entity_am_t) (sdu_id : Z)
    : res nr_rlc_entity_am_t :=
  '(pre, post) ← find_sdu (mem (common e)) (tx_list e) sdu_id;
  match post with
  | [] => Ok e
  | cur :: rest =>
      if negb (seg_is_first cur) || negb (seg_is_last cur) then Ok e
      else
        let e := e <| tx_list := pre ++ rest |> in
        let e := if bool_decide (tx_end e = Some (seg_addr cur))
                 then e <| tx_end := seg_addr <$> last pre |> else e in
        let e := e <| common ::= add_bs_tx (- (compute_pdu_header_size e cur + seg_size cur)) |> in
        u ← get_sdu (mem (common e)) (seg_sdu cur);
        let e := e <| tx_size ::= λ x, x - sdu_size u |> in
        '(_, h) ← nr_rlc_free_sdu_segment (mem (common e)) cur;
        Ok (set_mem h e)
  end.

Definition clear_entity (e : nr_rlc_entity_am_t) : res nr_rlc_entity_am_t :=
  let e := e <| rx_next := 0 |> <| rx_next_status_trigger := 0 |> <| rx_highest_status := 0 |>
             <| rx_next_highest := 0 |> <| status_triggered := false |> <| tx_next := 0 |>
             <| tx_next_ack := 0 |> <| poll_sn := 0 |> <| pdu_without_poll := 0 |>
             <| byte_without_poll := 0 |> <| force_poll := false |> <| t_current := 0 |>
             <| t_log_buffer_full := 0 |> <| sdu_rejected := 0 |>
             <| t_poll_retransmit_start := 0 |> <| t_reassembly_start := 0 |>
             <| t_status_prohibit_start := 0 |>
             <| rx ::= nr_rlc_clear_rx_manager |> <| rx_size := 0 |> in
  h ← nr_rlc_free_sdu_segment_list (mem (common e)) (tx_list e);
  h ← nr_rlc_free_sdu_segment_list h (wait_list e);
  h ← nr_rlc_free_sdu_segment_list h (retransmit_list e);
  Ok ((set_mem h e) <| tx_list := [] |> <| tx_end := None |> <| tx_size := 0 |>
        <| wait_list := [] |> <| wait_end := None |> <| retransmit_list := [] |>
        <| common ::= λ c, c <| bstatus ::= λ b, b <| bs_tx_size := 0 |> <| bs_retx_size := 0 |> |> |>).

Definition nr_rlc_entity_am_reestablishment (e : nr_rlc_entity_am_t) : res nr_rlc_entity_am_t :=
  clear_entity e.

Definition nr_rlc_entity_am_delete (e : nr_rlc_entity_am_t) : res sdu_heap :=
  e ← clear_entity e; Ok (mem (common e)).

Definition nr_rlc_entity_am_available_tx_space (e : nr_rlc_entity_am_t) : Z :=
  tx_maxsize e - tx_size e.

Definition nr_rlc_entity_am_tx_list_occupancy (e : nr_rlc_entity_am_t) : Z := tx_size e.
