(* ===== verification/RlcAmRx.v ===== *)
(** * NR RLC AM: properties of reception

    Theorems on [RlcAm]: duplicate detection, overlap of NACKed ranges, reassembly, and the
    window loops over the circular buffer. *)

From S2P Require Import Prelude RlcPdu RlcEntity RlcRxManager RlcAm RlcAmControl RlcAmStatus.
From S2P Require Import RlcAmTx.

(** ** Byte ranges *)

(** Byte [x] is in the range from [s] to [e]; -1 stands for the end of the SDU. *)
Definition in_range (s e x : Z) : Prop := s <= x ∧ (e = -1 ∨ x <= e).

(** (functional) a NACK selects a segment exactly when they have a byte in common; an end of
    -1 means up to the last byte of the SDU. *)
Theorem so_overlap_iff s1 e1 s2 e2 :
  (∃ x, in_range s1 e1 x) → (∃ x, in_range s2 e2 x) →
  so_overlap s1 e1 s2 e2 = true ↔ ∃ x, in_range s1 e1 x ∧ in_range s2 e2 x.
Proof.
  unfold in_range, so_overlap. intros (x1 & H1) (x2 & H2). split.
  - intros H. exists (Z.max s1 s2). destruct (Z.ltb_spec s1 s2); lia.
  - intros (x & Hx). destruct (Z.ltb_spec s1 s2); lia.
Qed.

Lemma so_overlap_iff_witness :
  so_overlap 3 (-1) 0 5 = true ↔ ∃ x, in_range 3 (-1) x ∧ in_range 0 5 x.
Proof. apply (so_overlap_iff 3 (-1) 0 5); exists 3; unfold in_range; lia. Defined.

(** Byte [x] of an SDU is held by one of its stored segments. *)
Definition byte_received (l : list nr_rlc_pdu_t) (x : Z) : Prop :=
  ∃ p, p ∈ l ∧ pdu_so p <= x < pdu_so p + pdu_size p.

Lemma already_received_sound l so size x :
  already_received_loop l so size = true → so <= x < so + size → byte_received l x.
Proof.
  revert so size. induction l as [| p l IH]; intros so size H Hx; simpl in H; [lia |].
  assert (Hp : pdu_so p <= x < pdu_so p + pdu_size p → byte_received (p :: l) x)
    by (exists p; split; [left | done]).
  assert (Hl : byte_received l x → byte_received (p :: l) x).
  { intros (q & Hq & Hr). exists q. split; [by right | done]. }
  destruct (Z.ltb_spec 0 size); simpl in H; [| lia].
  destruct ((pdu_so p <=? so) && (so <? pdu_so p + pdu_size p)) eqn:E1.
  - destruct (Z.ltb_spec x (so + (pdu_size p - (so - pdu_so p)))).
    + apply Hp. lia.
    + apply Hl, (IH _ _ H). lia.
  - destruct ((pdu_so p <=? so + size - 1) && (so + size - 1 <? pdu_so p + pdu_size p)) eqn:E2.
    + destruct (Z.ltb_spec x (pdu_so p)).
      * apply Hl, (IH _ _ H). lia.
      * apply Hp. lia.
    + by apply Hl, (IH _ _ H).
Qed.

(** (safety) duplicate detection never drops new data: if a segment is discarded as already
    received, every one of its bytes is held by a stored segment of that SDU. *)
Theorem am_duplicate_sound e n so size l x :
  nr_rlc_rx_manager_get_pdu_from_sn (rx e) n = Ok l →
  segment_already_received e n so size = Ok true → so <= x < so + size → byte_received l x.
Proof.
  unfold segment_already_received. intros -> [= H]. by apply already_received_sound.
Qed.

(** A 12-bit entity, and the same with part of SDU 0 stored. *)
Definition am12 : nr_rlc_entity_am_t :=
  mk_am (init_common NR_RLC_AM) 45 35 0 (-1) (-1) 4 12 4096 2048 0 0 0 0 false 0 0 0 0 0 false
    0 0 0 0 0 0 (nr_rlc_new_rx_manager 2048) 0 50000 [] None 0 50000 [] None [].
Definition am12_part : nr_rlc_entity_am_t :=
  am12 <| rx ::= λ m, m <| m_rx_list ::= λ l,
    <[0%nat := [mk_pdu 0 (Some [1; 2; 3]) 3 0 true false; mk_pdu 0 (Some [4; 5]) 2 3 false false]]> l |> |>.

Lemma am_duplicate_sound_witness :
  byte_received [mk_pdu 0 (Some [1; 2; 3]) 3 0 true false;
                 mk_pdu 0 (Some [4; 5]) 2 3 false false] 3.
Proof.
  apply (am_duplicate_sound am12_part 0 1 4); [vm_compute; reflexivity.. | lia].
Defined.

(** ** Reassembly *)

(** A segment of the SDU [d]. *)
Definition am_segment_of (d : bytes) (p : nr_rlc_pdu_t) : Prop :=
  ∃ s, pdu_data p = Some s ∧ slice d (pdu_so p) (pdu_size p) = Some s ∧ 0 < pdu_size p ∧
    pdu_is_last p = (pdu_so p + pdu_size p =? zlen d).

Lemma am_reassemble_rest d l rs :
  Forall (am_segment_of d) l → zlen d <= NR_SDU_MAX →
  ∃ l' rs', reassemble_loop l (zlen d) false d rs = Ok (l', zlen d, false, d, rs').
Proof.
  intros Hseg Hmax. revert rs. induction Hseg as [| p l Hp Hseg IH]; intros rs; simpl; [eauto |].
  destruct Hp as (s & Hd & Hs & Hpos & Hlast).
  apply slice_inv in Hs as (H1 & H2 & H3 & _ & _).
  decide_false (zlen d <? pdu_so p). simpl.
  decide_false (NR_SDU_MAX <? zlen d + (pdu_size p - (zlen d - pdu_so p))). simpl.
  decide_false (0 <? pdu_size p - (zlen d - pdu_so p)). simpl.
  destruct (IH (rs - pdu_size p)) as (l' & rs' & ->). simpl. eauto.
Qed.

Lemma am_reassemble_full d l so rs :
  Forall (am_segment_of d) l → zlen d <= NR_SDU_MAX →
  0 <= so <= zlen d → sdu_full_loop (so - 1) l = true →
  ∃ l' rs', reassemble_loop l so false (take (Z.to_nat so) d) rs = Ok (l', zlen d, false, d, rs').
Proof.
  intros Hseg Hmax. revert so rs.
  induction Hseg as [| p l Hp Hseg IH]; intros so rs Hso Hfull; simpl in *; [done |].
  destruct Hp as (s & Hd & Hs & Hpos & Hlast).
  pose proof Hs as (H1 & H2 & H3 & _ & _)%slice_inv.
  destruct (Z.ltb_spec (so - 1 + 1) (pdu_so p)); [done |].
  decide_false (so <? pdu_so p). simpl.
  decide_false (NR_SDU_MAX <? so + (pdu_size p - (so - pdu_so p))). simpl.
  rewrite Hlast in Hfull.
  destruct (Z.ltb_spec 0 (pdu_size p - (so - pdu_so p))) as [Hlen | Hlen].
  - destruct (take_extend d s (pdu_so p) (pdu_size p) so Hs) as [Hsl Hcat]; [lia | lia |].
    rewrite Hd. simpl. rewrite Hsl. simpl. rewrite Hcat.
    replace (so + (pdu_size p - (so - pdu_so p))) with (pdu_so p + pdu_size p) by lia.
    destruct (Z.eqb_spec (pdu_so p + pdu_size p) (zlen d)) as [-> |].
    + rewrite take_zlen.
      destruct (am_reassemble_rest d l (rs - pdu_size p) Hseg Hmax) as (l' & rs' & ->). simpl. eauto.
    + replace (if so - 1 <? pdu_so p + pdu_size p - 1 then _ else so - 1)
        with (pdu_so p + pdu_size p - 1) in Hfull by (case_match; lia).
      destruct (IH (pdu_so p + pdu_size p) (rs - pdu_size p)) as (l' & rs' & ->); [lia | done |].
      simpl. eauto.
  - destruct (Z.eqb_spec (pdu_so p + pdu_size p) (zlen d)) as [E |].
    + assert (so = zlen d) as -> by lia. rewrite take_zlen. simpl.
      destruct (am_reassemble_rest d l (rs - pdu_size p) Hseg Hmax) as (l' & rs' & ->). simpl. eauto.
    + replace (if so - 1 <? pdu_so p + pdu_size p - 1 then _ else so - 1)
        with (so - 1) in Hfull by (case_match; lia).
      simpl. destruct (IH so (rs - pdu_size p)) as (l' & rs' & ->); [lia | done |]. simpl. eauto.
Qed.

(** (functional) AM reassembly: if the stored segments of SDU [n] are ranges of one SDU [d]
    and cover it, exactly [d] is delivered, and the SDU is marked as delivered. *)
Theorem am_reassembly_delivers e n d l :
  rxm_wf (rx e) → 0 <= n < 2 * m_size (rx e) → 0 <= rxm_off (rx e) n < m_size (rx e) →
  nr_rlc_rx_manager_get_pdu_from_sn (rx e) n = Ok l →
  Forall (am_segment_of d) l → zlen d <= NR_SDU_MAX → sdu_full e n = Ok true →
  ∃ e', reassemble_and_deliver e n = Ok e' ∧
    out (common e') = out (common e) ++ [deliver_sdu d (zlen d)] ∧ sdu_delivered e' n = Ok true.
Proof.
  intros Hwf Hn Hoff Hget Hseg Hmax Hfull.
  unfold sdu_full in Hfull. rewrite Hget in Hfull. simpl in Hfull. injection Hfull as Hf.
  destruct (processed l) eqn:Hproc; [done |].
  destruct l as [| p l]; [done |].
  destruct (am_reassemble_full d (p :: l) 0 (rx_size e) Hseg Hmax) as (l' & rs & Hloop);
    [pose proof (zlen_nonneg d); lia | exact Hf |]. rewrite take_0 in Hloop.
  assert (Hhead : processed l' = true).
  { simpl in Hloop. inv_bind Hloop. destruct a as [so acc]. inv_bind Hloop.
    destruct a as [[[[? ?] ?] ?] ?]. injection Hloop as <- _ _ _ _. done. }
  destruct (set_slot_ok (rx e) n l' Hwf Hn) as (m & Hset & _).
  unfold reassemble_and_deliver. rewrite Hget. cbn [mbind res_bind]. rewrite Hloop. cbn [mbind res_bind]. rewrite Hset.
  simpl. eexists. split; [done |]. split; [done |]. unfold sdu_delivered. simpl.
  rewrite (set_slot_get (rx e) n l' m n) by done. rewrite Z.eqb_refl. simpl. by rewrite Hhead.
Qed.

(** SDU 0 = [1; 2; 3; 4; 5] stored in two segments. *)
Definition am12_full : nr_rlc_entity_am_t :=
  am12 <| rx ::= λ m, m <| m_rx_list ::= λ l,
    <[0%nat := [mk_pdu 0 (Some [1; 2; 3]) 3 0 true false; mk_pdu 0 (Some [3; 4; 5]) 3 2 false true]]> l |> |>.

Lemma am12_wf : rxm_wf (rx am12_full).
Proof. constructor; vm_compute; intuition congruence. Qed.

Lemma am_reassembly_delivers_witness :
  ∃ e', reassemble_and_deliver am12_full 0 = Ok e' ∧
    out (common e') = [deliver_sdu [1; 2; 3; 4; 5] 5] ∧ sdu_delivered e' 0 = Ok true.
Proof.
  apply (am_reassembly_delivers am12_full 0 [1; 2; 3; 4; 5]
           [mk_pdu 0 (Some [1; 2; 3]) 3 0 true false; mk_pdu 0 (Some [3; 4; 5]) 3 2 false true]
           am12_wf); try (vm_compute; intuition congruence).
  repeat constructor; eexists; repeat split; vm_compute; reflexivity.
Defined.

(** ** The loop on delivered SDUs over the circular buffer *)

(** The entity and its window have the same size. *)
Record am_rx_wf (e : nr_rlc_entity_am_t) : Prop := {
  aw_rx : rxm_wf (rx e);
  aw_mod : sn_modulus e = 2 * m_size (rx e)
}.

Lemma get_pos_next m n : rxm_wf m → 0 <= n < 2 * m_size m →
  get_pos m (Z.rem (n + 1) (2 * m_size m)) = (get_pos m n + 1) mod m_size m.
Proof.
  intros Hw Hn. pose proof Hw as [Hs _ Hst Hsn].
  assert (Hb : 0 <= Z.rem (n + 1) (2 * m_size m) < 2 * m_size m) by (apply Z.rem_bound_pos; lia).
  unfold get_pos. rewrite !Z.rem_mod_nonneg by lia. rewrite Zplus_mod_idemp_l.
  rewrite (mod_wrap (n + 1) (2 * m_size m)) by lia.
  destruct (Z.ltb_spec (n + 1) (2 * m_size m)).
  - f_equal. lia.
  - replace (m_start m + (n + 1 - 2 * m_size m - m_sn_start m + m_size m * 2))
      with (m_start m + (n - m_sn_start m + m_size m * 2) + 1 + (-2) * m_size m) by lia.
    by rewrite Z_mod_plus_full.
Qed.

Definition slot_delivered (e : nr_rlc_entity_am_t) (pos : Z) : Prop :=
  ∃ l, znth (m_rx_list (rx e)) pos = Some l ∧ processed l = true.

Lemma delivered_slot e n : am_rx_wf e → 0 <= n < sn_modulus e →
  ∃ b, sdu_delivered e n = Ok b ∧ (b = true ↔ slot_delivered e (get_pos (rx e) n)).
Proof.
  intros [Hw Hm] Hn. rewrite Hm in Hn. unfold sdu_delivered, nr_rlc_rx_manager_get_pdu_from_sn.
  destruct (znth_is_Some (m_rx_list (rx e)) (get_pos (rx e) n)) as [l Hl].
  { rewrite (rw_len _ Hw). by apply get_pos_bound. }
  rewrite Hl. simpl. eexists. split; [done |]. unfold slot_delivered. rewrite Hl.
  split; [eauto | by intros (? & [= <-] & ?)].
Qed.

Lemma skip_delivered_ends e i fuel n :
  am_rx_wf e → 0 <= n < sn_modulus e → (i < fuel)%nat →
  ¬ slot_delivered e ((get_pos (rx e) n + Z.of_nat i) mod m_size (rx e)) →
  ∃ m, skip_delivered fuel e n = Ok m ∧ 0 <= m < sn_modulus e ∧ sdu_delivered e m = Ok false.
Proof.
  intros Hwf. revert fuel n. induction i as [| i IH]; intros [| fuel] n Hn Hi Hslot; try lia; simpl.
  all: destruct (delivered_slot e n Hwf Hn) as (b & Hb & Hiff); rewrite Hb; simpl.
  all: destruct b; [| by exists n].
  - exfalso. apply Hslot. pose proof Hwf as [Hw Hm]. rewrite Hm in Hn.
    rewrite Z.add_0_r, Z.mod_small by (by apply get_pos_bound). by apply Hiff.
  - pose proof Hwf as [Hw Hm]. apply IH; [apply Z.rem_bound_pos; lia | lia |].
    rewrite Hm in *. rewrite get_pos_next, Zplus_mod_idemp_l by done.
    by replace (get_pos (rx e) n + 1 + Z.of_nat i) with (get_pos (rx e) n + Z.of_nat (S i)) by lia.
Qed.

Lemma skip_delivered_loops e fuel n :
  am_rx_wf e → (∀ pos, 0 <= pos < m_size (rx e) → slot_delivered e pos) →
  0 <= n < sn_modulus e → skip_delivered fuel e n = NoFuel.
Proof.
  intros Hwf Hall. revert n. induction fuel as [| fuel IH]; intros n Hn; simpl; [done |].
  destruct (delivered_slot e n Hwf Hn) as (b & -> & Hiff). simpl.
  pose proof Hwf as [Hw Hm].
  assert (b = true) as -> by (apply Hiff, Hall, get_pos_bound; [done | lia]).
  apply IH. apply Z.rem_bound_pos; lia.
Qed.

(** (termination) the loop that advances over delivered SDUs ends, at an SN not delivered,
    as long as one slot of the window is not delivered. *)
Theorem am_skip_delivered_terminates e n pos :
  am_rx_wf e → 0 <= n < sn_modulus e → 0 <= pos < m_size (rx e) → ¬ slot_delivered e pos →
  ∃ m, first_not_delivered e n = Ok m ∧ sdu_delivered e m = Ok false.
Proof.
  intros Hwf Hn Hpos Hslot. pose proof Hwf as [Hw Hm]. pose proof (rw_size _ Hw) as Hsz.
  destruct (skip_delivered_ends e (Z.to_nat ((pos - get_pos (rx e) n) mod m_size (rx e)))
              (Z.to_nat (sn_modulus e)) n Hwf Hn) as (m & H & _ & Hd); [| | eauto].
  - pose proof (Z.mod_pos_bound (pos - get_pos (rx e) n) (m_size (rx e))). lia.
  - rewrite Z2Nat.id by (apply Z.mod_pos_bound; lia). rewrite Zplus_mod_idemp_r.
    replace (get_pos (rx e) n + (pos - get_pos (rx e) n)) with pos by lia.
    by rewrite Z.mod_small.
Qed.

Lemma am12_rx_wf : am_rx_wf am12_full.
Proof. constructor; [apply am12_wf | reflexivity]. Qed.

Lemma am_skip_delivered_terminates_witness :
  ∃ m, first_not_delivered am12_full 0 = Ok m ∧ sdu_delivered am12_full m = Ok false.
Proof.
  apply (am_skip_delivered_terminates am12_full 0 3 am12_rx_wf); [vm_compute; intuition congruence.. |].
  intros (l & Hl & Hp). vm_compute in Hl. injection Hl as <-. discriminate.
Defined.

(** C35: (termination) the loop never ends when every slot is delivered, because SNs one window
    apart share a slot.  That happens when the window is full except for its first SDU,
    [rx_highest_status] is still [rx_next] ([t_reassembly] did not expire in between), and the
    missing SDU arrives: no amount of fuel makes the loop of [reception_actions] end. *)
Theorem am_reception_hangs e p d :
  am_rx_wf e → 0 <= rx_next e < sn_modulus e → m_sn_start (rx e) = rx_next e →
  rx_highest_status e = rx_next e →
  nr_rlc_rx_manager_get_pdu_from_sn (rx e) (rx_next e) = Ok [p] →
  am_segment_of d p → pdu_so p = 0 → pdu_is_last p = true → zlen d <= NR_SDU_MAX →
  (∀ pos, 0 <= pos < m_size (rx e) → pos ≠ get_pos (rx e) (rx_next e) → slot_delivered e pos) →
  ∃ e', sdu_full e (rx_next e) = Ok true ∧ reassemble_and_deliver e (rx_next e) = Ok e' ∧
    (∀ fuel, skip_delivered fuel e' (rx_highest_status e') = NoFuel) ∧
    reception_deliver e (rx_next e) = NoFuel.
Proof.
  intros Hwf Hn Hst Hhs Hget Hseg Hso Hlast Hmax Hall. pose proof Hwf as [Hw Hm].
  pose proof Hseg as (s & Hd & Hs & Hpos & Hl).
  assert (Hfull : sdu_full e (rx_next e) = Ok true).
  { unfold sdu_full. rewrite Hget. simpl. rewrite Hd, Hlast, Hso. done. }
  destruct (am_reassemble_full d [p] 0 (rx_size e)) as (l' & rs & Hloop); [by repeat constructor | done | |
    simpl; by rewrite Hso, Hlast |]; [pose proof (zlen_nonneg d); lia |].
  rewrite take_0 in Hloop.
  assert (Hhead : processed l' = true).
  { simpl in Hloop. inv_bind Hloop. destruct a as [so acc]. simpl in Hloop.
    injection Hloop as <- _ _ _ _. done. }
  destruct (set_slot_ok (rx e) (rx_next e) l' Hw) as (m & Hset & Hwm & Hsz & Hstm & Hsn & Hlist); [lia |].
  assert (Hre : ∃ c, reassemble_and_deliver e (rx_next e) =
                  Ok (e <| rx := m |> <| rx_size := rs |> <| common := c |>)).
  { unfold reassemble_and_deliver. rewrite Hget. cbn [mbind res_bind]. rewrite Hloop.
    cbn [mbind res_bind]. rewrite Hset. eexists. reflexivity. }
  destruct Hre as [c Hre]. set (e' := e <| rx := m |> <| rx_size := rs |> <| common := c |>) in *.
  assert (Hloops : ∀ fuel, skip_delivered fuel e' (rx_highest_status e') = NoFuel).
  { intros fuel. apply skip_delivered_loops.
    - constructor; [exact Hwm | simpl; lia].
    - change (rx e') with m. rewrite Hsz. intros pos Hp. unfold slot_delivered. change (rx e') with m.
      rewrite Hlist, znth_lookup by lia.
      pose proof (get_pos_bound (rx e) (rx_next e) Hw ltac:(lia)) as Hgp.
      destruct (Z.eq_dec pos (get_pos (rx e) (rx_next e))) as [-> | Hne].
      + rewrite list_lookup_insert_eq; [eauto |]. pose proof (rw_len _ Hw). unfold zlen in *. lia.
      + rewrite list_lookup_insert_ne by lia. destruct (Hall pos Hp Hne) as (l & Hll & Hpl).
        rewrite znth_lookup in Hll by lia. eauto.
    - change (rx_highest_status e') with (rx_highest_status e). by rewrite Hhs. }
  exists e'. split; [done |]. split; [done |]. split; [done |].
  unfold reception_deliver. rewrite Hfull. cbn [mbind res_bind]. rewrite Hre. cbn [mbind res_bind].
  change (rx_highest_status e') with (rx_highest_status e). rewrite Hhs, Z.eqb_refl.
  unfold first_not_delivered. pose proof (Hloops (Z.to_nat (sn_modulus e'))) as H.
  change (rx_highest_status e') with (rx_highest_status e) in H. rewrite Hhs in H. by rewrite H.
Qed.

(** SDU 0 just stored, the 2047 others of the window delivered. *)
Definition am12_stuck : nr_rlc_entity_am_t :=
  am12 <| rx ::= λ m, m <| m_rx_list :=
    [mk_pdu 0 (Some [42]) 1 0 true true] :: replicate 2047 [mk_pdu 1 None 1 0 true true] |> |>.

Lemma am_reception_hangs_witness :
  ∃ e', sdu_full am12_stuck 0 = Ok true ∧ reassemble_and_deliver am12_stuck 0 = Ok e' ∧
    (∀ fuel, skip_delivered fuel e' (rx_highest_status e') = NoFuel) ∧
    reception_deliver am12_stuck 0 = NoFuel.
Proof.
  apply (am_reception_hangs am12_stuck (mk_pdu 0 (Some [42]) 1 0 true true) [42]);
    try (vm_compute; intuition congruence).
  - constructor; [constructor |]; vm_compute; intuition congruence.
  - eexists; repeat split; vm_compute; reflexivity.
  - intros pos Hpos Hne. change (get_pos _ _) with 0 in Hne. change (m_size _) with 2048 in Hpos.
    exists [mk_pdu 1 None 1 0 true true]. split; [| reflexivity].
    rewrite znth_lookup by lia. change (m_rx_list (rx am12_stuck)) with
      ([mk_pdu 0 (Some [42]) 1 0 true true] :: replicate 2047 [mk_pdu 1 None 1 0 true true]).
    destruct (Z.to_nat pos) as [| k] eqn:E; [lia |].
    exact (lookup_replicate_2 2047 [mk_pdu 1 None 1 0 true true] k ltac:(lia)).
Defined.
