(* ===== verification/RlcAmProps.v ===== *)
(** * NR RLC AM: properties of transmission and of the status protocol

    The operations of the entity as steps ([am_op], [am_exec], [am_run]) and theorems on
    [RlcAmTx] and [RlcAmControl]: data PDU header round trip, window stalling, segmentation,
    ordering of the wait and retransmit lists, the validation of STATUS PDUs. *)

From S2P Require Import Prelude RlcPdu RlcEntity RlcRxManager RlcAm RlcAmControl RlcAmStatus.
From S2P Require Import RlcAmTx RlcAmRx.

(** ** Operations as steps *)

Inductive am_op :=
| AmRecvPdu (buffer : bytes)
| AmRecvSdu (buffer : bytes) (sdu_id now_us : Z)
| AmGeneratePdu (buffer : bytes) (size now_us : Z)
| AmSetTime (now : Z)
| AmDiscardSdu (sdu_id : Z)
| AmReestablishment.

Definition am_exec (e : nr_rlc_entity_am_t) (op : am_op) : res nr_rlc_entity_am_t :=
  match op with
  | AmRecvPdu buffer => nr_rlc_entity_am_recv_pdu e buffer
  | AmRecvSdu buffer sdu_id now_us => nr_rlc_entity_am_recv_sdu e buffer sdu_id now_us
  | AmGeneratePdu buffer size now_us =>
      '(_, _, e) ← nr_rlc_entity_am_generate_pdu e buffer size now_us; Ok e
  | AmSetTime now => nr_rlc_entity_am_set_time e now
  | AmDiscardSdu sdu_id => nr_rlc_entity_am_discard_sdu e sdu_id
  | AmReestablishment => nr_rlc_entity_am_reestablishment e
  end.

Fixpoint am_run (e : nr_rlc_entity_am_t) (ops : list am_op) : res nr_rlc_entity_am_t :=
  match ops with
  | [] => Ok e
  | op :: ops => e ← am_exec e op; am_run e ops
  end.

(** ** Configuration *)

Definition am_config (e : nr_rlc_entity_am_t) : Prop :=
  (sn_field_length e = 12 ∧ sn_modulus e = 4096 ∧ window_size e = 2048) ∨
  (sn_field_length e = 18 ∧ sn_modulus e = 262144 ∧ window_size e = 131072).

(** (functional) the transmission window: sending stalls exactly when the number of SNs in
    flight, from [tx_next_ack] to [tx_next], reaches the window size. *)
Theorem am_window_stalling_iff e :
  am_config e → 0 <= tx_next e < sn_modulus e → 0 <= tx_next_ack e < sn_modulus e →
  is_window_stalling e = negb ((tx_next e - tx_next_ack e) mod sn_modulus e <? window_size e).
Proof.
  intros Hc Hn Ha.
  assert (Hw : 0 < window_size e ∧ sn_modulus e = 2 * window_size e) by (destruct Hc; lia).
  assert (Hm : (tx_next e - tx_next_ack e) mod sn_modulus e =
               if tx_next e <? tx_next_ack e then tx_next e - tx_next_ack e + sn_modulus e
               else tx_next e - tx_next_ack e).
  { destruct (Z.ltb_spec (tx_next e) (tx_next_ack e)).
    - symmetry. apply Z.mod_unique_pos with (-1); lia.
    - apply Z.mod_small. lia. }
  rewrite Hm. unfold is_window_stalling, sn_compare_tx, modulus_tx.
  rewrite rem_wrap by lia. f_equal. bool_prop; lia.
Qed.

Lemma am12_config : am_config am12.
Proof. left. done. Qed.

Definition am12_stall : nr_rlc_entity_am_t := am12 <| tx_next := 2048 |>.

Lemma am_window_stalling_iff_witness :
  is_window_stalling am12_stall =
    negb ((tx_next am12_stall - tx_next_ack am12_stall) mod sn_modulus am12_stall
          <? window_size am12_stall).
Proof.
  apply am_window_stalling_iff; [left; done | |]; vm_compute; intuition congruence.
Defined.

(** ** Data PDU headers *)

(** The header of a data PDU: D/C, P, SI, reserved bits, SN, SO. *)
Definition am_header (snlen : Z) (p : bool) (n : Z) (s : nr_rlc_sdu_segment_t) : list (Z * Z) :=
  [(1, 1); (b2z p, 1); (1 - b2z (seg_is_first s), 1); (1 - b2z (seg_is_last s), 1)] ++
  (if snlen =? 18 then [(0, 2)] else []) ++ [(n, snlen)] ++
  (if seg_is_first s then [] else [(seg_so s, 16)]).

Lemma am_header_bits snlen p n s :
  fields_bits (am_header snlen p n s) =
    true :: p :: negb (seg_is_first s) :: negb (seg_is_last s) ::
    (if snlen =? 18 then bits_of 0 2 else []) ++ bits_of n (Z.to_nat snlen) ++
    (if seg_is_first s then [] else bits_of (seg_so s) 16).
Proof.
  unfold am_header.
  destruct p, (seg_is_first s), (seg_is_last s), (snlen =? 18); simpl;
    rewrite ?fields_bits_cons; unfold fields_bits; simpl; rewrite ?app_nil_r; reflexivity.
Qed.

Lemma am_header_width e s p n : am_config e →
  fields_width (am_header (sn_field_length e) p n s) = 8 * compute_pdu_header_size e s.
Proof.
  unfold am_header, compute_pdu_header_size.
  intros [(-> & _) | (-> & _)]; destruct (seg_is_first s); reflexivity.
Qed.

Section header.
Context (e : nr_rlc_entity_am_t) (u : nr_rlc_sdu_t) (s : nr_rlc_sdu_segment_t).
Context (Hcfg : am_config e) (Hseg : seg_in u s) (Hmax : sdu_size u <= NR_SDU_MAX).
Context (Hsn : 0 <= sdu_sn u < sn_modulus e).
Context (Hu : sdus (mem (common e)) !! seg_sdu s = Some u).

Lemma am_header_ok p : Forall field_ok (am_header (sn_field_length e) p (sdu_sn u) s).
Proof using Hcfg Hseg Hmax Hsn.
  destruct Hseg as (Hz & H1 & H2 & H3 & _). unfold NR_SDU_MAX in *.
  destruct Hcfg as [(-> & Hm & _) | (-> & Hm & _)]; rewrite Hm in Hsn;
    unfold am_header; destruct p, (seg_is_first s), (seg_is_last s); simpl;
    repeat constructor; simpl; lia.
Qed.

Lemma am_serialize_fields buffer bufsize p :
  serialize_sdu e s buffer bufsize p =
    (enc ← put_fields (nr_rlc_pdu_encoder_init buffer bufsize)
             (am_header (sn_field_length e) false (sdu_sn u) s);
     buf ← memcpy (e_buffer enc) (e_byte enc) (sdu_data u) (seg_so s) (seg_size s);
     '(buf, e) ← (if p then include_poll e buf else Ok (buf, e));
     Ok (e_byte enc + seg_size s, buf, e)).
Proof using Hu.
  unfold serialize_sdu, get_sdu, am_header. rewrite Hu. simpl.
  destruct (seg_is_first s), (seg_is_last s), (sn_field_length e =? 18); simpl;
    repeat (match goal with
            | |- context [nr_rlc_pdu_encoder_put_bits ?x ?v ?n] =>
                destruct (nr_rlc_pdu_encoder_put_bits x v n); simpl; try done
            end).
Qed.

Lemma am_serialize_spec buffer bufsize :
  compute_pdu_header_size e s + seg_size s <= bufsize <= zlen buffer →
  ∃ hdr rest, serialize_sdu e s buffer bufsize false =
      Ok (compute_pdu_header_size e s + seg_size s,
          hdr ++ seg_bytes (mem (common e)) s ++ rest, e) ∧
    zlen hdr = compute_pdu_header_size e s ∧ zlen (seg_bytes (mem (common e)) s) = seg_size s ∧
    buf_bits hdr = fields_bits (am_header (sn_field_length e) false (sdu_sn u) s).
Proof using All.
  intros Hroom. rewrite am_serialize_fields.
  assert (Hh : 0 < compute_pdu_header_size e s).
  { unfold compute_pdu_header_size. destruct (_ =? _), (negb _); lia. }
  pose proof Hseg as (Hz & H1 & H2 & H3 & _).
  destruct (put_fields_aligned _ buffer bufsize (compute_pdu_header_size e s) (am_header_ok false))
    as (enc & -> & Hb & _ & Hbits & Hlen & _); [by apply am_header_width | lia |].
  cbn [mbind res_bind]. rewrite Hb, memcpy_Ok by lia. cbn [mbind res_bind].
  eexists _, _. split; [unfold seg_bytes; rewrite Hu; reflexivity |].
  split_and!; [| by apply (zlen_seg_bytes NR_SDU_MAX); exists u | done].
  unfold zlen in *. rewrite length_take_le; lia.
Qed.
End header.

(** Setting the P bit afterwards ([buffer[0] |= 0x40]). *)
Lemma poll_bits b hdr first rest :
  buf_bits (b :: hdr) = first :: false :: rest →
  buf_bits (Z.lor b 64 :: hdr) = first :: true :: rest.
Proof.
  intros H. change (buf_bits (b :: hdr)) with (bits_of b 8 ++ buf_bits hdr) in H.
  change (buf_bits (Z.lor b 64 :: hdr)) with (bits_of (Z.lor b 64) 8 ++ buf_bits hdr).
  assert (Hlor : ∀ i, Z.testbit (Z.lor b 64) (Z.of_nat i) =
                   Z.testbit b (Z.of_nat i) || Z.testbit 64 (Z.of_nat i))
    by (intros; apply Z.lor_spec).
  cbn [bits_of app] in *. rewrite !Hlor. clear Hlor.
  repeat match goal with |- context [Z.testbit 64 ?i] =>
    let v := eval vm_compute in (Z.testbit 64 i) in change (Z.testbit 64 i) with v end.
  rewrite !orb_false_r, orb_true_r.
  generalize dependent (Z.testbit b (Z.of_nat 7)). generalize dependent (Z.testbit b (Z.of_nat 6)).
  intros ?? [= -> _ <-]. done.
Qed.

(** What the receiver does with a data PDU [hdr ++ payload] whose header encodes segment [s]. *)
Lemma am_recv_header e r p u s hdr payload :
  am_config e → seg_in u s → sdu_size u <= NR_SDU_MAX → 0 <= sdu_sn u < sn_modulus e →
  sn_field_length r = sn_field_length e → zlen hdr = compute_pdu_header_size e s →
  buf_bits hdr = fields_bits (am_header (sn_field_length e) p (sdu_sn u) s) →
  let pdu := hdr ++ payload in
  let r1 := r <| common ::= λ c, stat rxpdu_bytes (zlen pdu) (stat rxpdu_pkts 1 c) |> in
  ∃ d, d_byte d = zlen hdr ∧
  nr_rlc_entity_am_recv_pdu r pdu =
    recv_segment r1 pdu (zlen pdu) (b2z p) (sdu_sn u) (seg_so s) (seg_is_first s) (seg_is_last s) d.
Proof.
  intros Hcfg (Hz & H1 & H2 & H3 & Hf & Hl) Hmax Hsn Hlen Hhdr Hbits pdu r1.
  unfold nr_rlc_entity_am_recv_pdu, recv_data_pdu. fold r1.
  set (d0 := nr_rlc_pdu_decoder_init pdu (zlen pdu)).
  assert (Hb0 : dec_bits d0 = bits_of 1 1 ++ bits_of (b2z p) 1 ++
    bits_of (2 * (1 - b2z (seg_is_first s)) + (1 - b2z (seg_is_last s))) 2 ++
    (if sn_field_length e =? 18 then bits_of 0 2 else []) ++
    bits_of (sdu_sn u) (Z.to_nat (sn_field_length e)) ++
    (if seg_is_first s then [] else bits_of (seg_so s) 16) ++ buf_bits payload).
  { unfold d0. rewrite dec_bits_init. unfold pdu. rewrite buf_bits_app, Hbits, am_header_bits.
    destruct p, (seg_is_first s), (seg_is_last s); cbn; by rewrite <- ?app_assoc. }
  assert (Hsn2 : 0 <= sdu_sn u < 2 ^ sn_field_length e ∧ 0 <= sn_field_length e <= 31)
    by (destruct Hcfg as [(-> & Hm & _) | (-> & Hm & _)]; rewrite Hm in Hsn; simpl; lia).
  destruct Hsn2 as [Hsn2 Hlen2].
  match goal with |- context [read_bits ?err d0 1 ?k] =>
    destruct (read_bits_step err d0 1 1 _ k (dec_wf_init pdu) ltac:(lia) ltac:(lia) Hb0)
      as (d1 & -> & Hwf1 & Hb1 & Hp1) end.
  change (1 =? 0) with false. cbv iota.
  match goal with |- context [read_bits ?err d1 1 ?k] =>
    destruct (read_bits_step err d1 (b2z p) 1 _ k Hwf1 ltac:(lia) ltac:(destruct p; simpl; lia) Hb1)
      as (d2 & -> & Hwf2 & Hb2 & Hp2) end.
  destruct (si_bits (seg_is_first s) (seg_is_last s)) as (Hsi & Hsf & Hsl).
  match goal with |- context [read_bits ?err d2 2 ?k] =>
    destruct (read_bits_step err d2 _ 2 _ k Hwf2 ltac:(lia) Hsi Hb2)
      as (d3 & -> & Hwf3 & Hb3 & Hp3) end.
  rewrite Hsf, Hsl. change (sn_field_length r1) with (sn_field_length r). rewrite Hlen.
  change (dec_pos d0) with 0 in Hp1. unfold compute_pdu_header_size in Hhdr.
  assert (Hso : 0 <= seg_so s < 2 ^ 16) by (unfold NR_SDU_MAX in *; lia).
  assert (Hend : ∀ d', dec_wf d' → dec_pos d' = 8 * zlen hdr → d_byte d' = zlen hdr)
    by (unfold dec_wf, dec_pos; intros; lia).
  set (K := λ n so d, recv_segment r1 pdu (zlen pdu) (b2z p) n so (seg_is_first s) (seg_is_last s) d).
  destruct (sn_field_length e =? 18) eqn:H18; rewrite <- ?app_assoc in Hb3.
  - match goal with |- context [read_bits ?err d3 2 ?k] =>
      destruct (read_bits_step err d3 0 2 _ k Hwf3 ltac:(lia) ltac:(lia) Hb3)
        as (d4 & -> & Hwf4 & Hb4 & Hp4);
      destruct (read_sn_so err _ (sn_field_length e) _ _ d4 _ K Hwf4 Hlen2 Hsn2 Hso Hf Hb4)
        as (d & Hwd & _ & Hpd & Heq) end.
    exists d. split; [apply Hend; [done |] | exact Heq].
    rewrite Hhdr. destruct Hcfg as [(E & _) | (E & _)]; rewrite E in *; [done |].
    destruct (seg_is_first s); simpl in *; lia.
  - match goal with |- context [read_bits ?err d3 _ ?k] =>
      destruct (read_sn_so err _ (sn_field_length e) _ _ d3 _ K Hwf3 Hlen2 Hsn2 Hso Hf Hb3)
        as (d & Hwd & _ & Hpd & Heq) end.
    exists d. split; [apply Hend; [done |] | exact Heq].
    rewrite Hhdr. destruct Hcfg as [(E & _) | (E & _)]; rewrite E in *; [| done].
    destruct (seg_is_first s); simpl in *; lia.
Qed.

(** The state after a poll has been included. *)
Definition polled (e : nr_rlc_entity_am_t) : nr_rlc_entity_am_t :=
  e <| pdu_without_poll := 0 |> <| byte_without_poll := 0 |>
    <| poll_sn := Z.rem (tx_next e - 1 + sn_modulus e) (sn_modulus e) |>
    <| t_poll_retransmit_start := t_current e |>.

(** Serialization with or without poll. *)
Lemma am_serialize_poll e u s buffer bufsize p :
  am_config e → seg_in u s → sdu_size u <= NR_SDU_MAX → 0 <= sdu_sn u < sn_modulus e →
  sdus (mem (common e)) !! seg_sdu s = Some u →
  compute_pdu_header_size e s + seg_size s <= bufsize <= zlen buffer →
  ∃ hdr rest, serialize_sdu e s buffer bufsize p =
      Ok (compute_pdu_header_size e s + seg_size s,
          hdr ++ seg_bytes (mem (common e)) s ++ rest, if p then polled e else e) ∧
    zlen hdr = compute_pdu_header_size e s ∧ zlen (seg_bytes (mem (common e)) s) = seg_size s ∧
    buf_bits hdr = fields_bits (am_header (sn_field_length e) p (sdu_sn u) s).
Proof.
  intros Hcfg Hseg Hmax Hsn Hu Hroom.
  destruct (am_serialize_spec e u s Hcfg Hseg Hmax Hsn Hu buffer bufsize Hroom)
    as (hdr & rest & Heq & Hh & Hs & Hbits).
  destruct p; [| by exists hdr, rest].
  assert (Hh0 : 0 < zlen hdr).
  { rewrite Hh. unfold compute_pdu_header_size. destruct (_ =? _), (negb _); lia. }
  destruct hdr as [| b t]; [done |].
  rewrite (am_serialize_fields e u s Hu) in Heq. rewrite (am_serialize_fields e u s Hu).
  destruct (put_fields _ _) as [enc | | |]; try done. cbn [mbind res_bind] in *.
  destruct (memcpy _ _ _ _ _) as [buf | | |]; try done. cbn [mbind res_bind] in *.
  injection Heq as Hret Hbuf. exists (Z.lor b 64 :: t), rest. rewrite Hret, Hbuf.
  split; [| split; [exact Hh | split; [exact Hs |]]].
  - unfold include_poll. cbn [app].
    match goal with |- context [znth (b :: ?x) 0] =>
      change (znth (b :: x) 0) with (Some b); cbn [deref mbind res_bind];
      rewrite (zset_Ok (b :: x)) by (unfold zlen; simpl; lia) end. done.
  - rewrite am_header_bits in *. by apply poll_bits.
Qed.

(** (roundtrip) data PDUs: a serialized segment, with or without poll, is parsed by a peer
    with the same SN length as a segment with the same poll bit, SN, offset, first and last
    flags, and the bytes after the header are the segment's bytes. *)
Theorem am_data_pdu_roundtrip e r u s buffer bufsize p :
  am_config e → seg_in u s → sdu_size u <= NR_SDU_MAX → 0 <= sdu_sn u < sn_modulus e →
  sdus (mem (common e)) !! seg_sdu s = Some u →
  compute_pdu_header_size e s + seg_size s <= bufsize <= zlen buffer →
  sn_field_length r = sn_field_length e →
  ∃ ret buf e' d, serialize_sdu e s buffer bufsize p = Ok (ret, buf, e') ∧
    let pdu := take (Z.to_nat ret) buf in
    ret = compute_pdu_header_size e s + seg_size s ∧ d_byte d = compute_pdu_header_size e s ∧
    drop (Z.to_nat (d_byte d)) pdu = seg_bytes (mem (common e)) s ∧
    nr_rlc_entity_am_recv_pdu r pdu =
      recv_segment (r <| common ::= λ c, stat rxpdu_bytes ret (stat rxpdu_pkts 1 c) |>) pdu ret
        (b2z p) (sdu_sn u) (seg_so s) (seg_is_first s) (seg_is_last s) d.
Proof.
  intros Hcfg Hseg Hmax Hsn Hu Hroom Hlen.
  destruct (am_serialize_poll e u s buffer bufsize p Hcfg Hseg Hmax Hsn Hu Hroom)
    as (hdr & rest & Heq & Hh & Hs & Hbits).
  destruct (am_recv_header e r p u s hdr (seg_bytes (mem (common e)) s) Hcfg Hseg Hmax Hsn Hlen Hh Hbits)
    as (d & Hd & Hrecv).
  eexists _, _, _, d. split; [exact Heq |]. simpl. rewrite app_assoc, take_app_length'.
  2:{ rewrite length_app. unfold zlen in *. lia. }
  rewrite zlen_app, Hh, Hs in Hrecv. split_and!; [done | lia | | exact Hrecv].
  rewrite Hd. apply drop_app_length'. unfold zlen. lia.
Qed.

(** An entity with one segmented SDU (SN 5) in its store. *)
Definition am_sdu5 : nr_rlc_sdu_t := mk_sdu 5 7 [1; 2; 3; 4; 5; 6] 6 (-1) 1 0 0.
Definition am_seg5 : nr_rlc_sdu_segment_t := mk_segment 1 0 3 2 false false.
Definition am12_sdu5 : nr_rlc_entity_am_t :=
  am12 <| common ::= λ c, c <| mem := mk_heap {[0%nat := am_sdu5]} 2 |> |>.

Lemma am_data_pdu_roundtrip_witness :
  ∃ ret buf e' d, serialize_sdu am12_sdu5 am_seg5 [0; 0; 0; 0; 0; 0; 0; 0] 8 true = Ok (ret, buf, e') ∧
    let pdu := take (Z.to_nat ret) buf in
    ret = 7 ∧ d_byte d = 4 ∧ drop (Z.to_nat (d_byte d)) pdu = [3; 4; 5] ∧
    nr_rlc_entity_am_recv_pdu am12 pdu =
      recv_segment (am12 <| common ::= λ c, stat rxpdu_bytes ret (stat rxpdu_pkts 1 c) |>) pdu ret
        1 5 2 false false d.
Proof.
  apply (am_data_pdu_roundtrip am12_sdu5 am12 am_sdu5 am_seg5 [0; 0; 0; 0; 0; 0; 0; 0] 8 true);
    try (vm_compute; intuition congruence).
Defined.

(** ** Segmentation *)

(** (functional) resegmentation: the shortened segment's PDU fills the room exactly, the
    two segments hold the bytes of the original one in order, both are ranges of the SDU, and
    the SDU's reference count stays exact. *)
Theorem am_resegment_splits e s l size :
  heap_exact (mem (common e)) (s :: l) → seg_wf NR_SDU_MAX (mem (common e)) s →
  compute_pdu_header_size e s < size < compute_pdu_header_size e s + seg_size s →
  ∃ e' s1 s2, resegment s e size = Ok (e', s1, s2) ∧
    compute_pdu_header_size e' s1 + seg_size s1 = size ∧
    seg_wf NR_SDU_MAX (mem (common e')) s1 ∧ seg_wf NR_SDU_MAX (mem (common e')) s2 ∧
    seg_bytes (mem (common e)) s =
      seg_bytes (mem (common e')) s1 ++ seg_bytes (mem (common e')) s2 ∧
    heap_exact (mem (common e')) (s1 :: s2 :: l).
Proof.
  intros Hex Hw Hroom. pose proof Hex as [Hsafe _].
  pose proof Hw as (u & Hu & _).
  pose (f := λ u : nr_rlc_sdu_t, u <| ref_count ::= Z.succ |>).
  pose proof (upd_sdu_Ok _ _ f u Hu) as Hupd.
  set (h := mk_heap _ _) in Hupd. set (k := size - compute_pdu_header_size e s).
  destruct (heap_safe_split _ s l h k Hsafe Hupd) as [Hs2 He2].
  destruct (cut_wf NR_SDU_MAX _ s k (next_addr (mem (common e))) ltac:(lia) Hw) as (W1 & W2 & Hcat).
  set (h2 := h <| next_addr ::= S |>) in *.
  assert (Hsub : data_sub h2 (mem (common e))).
  { assert (H0 : data_sub h (mem (common e)))
      by by apply (data_sub_upd (mem (common e)) (seg_sdu s) f h). exact H0. }
  exists (set_mem h2 e), (cut_head s k), (cut_tail s k (next_addr (mem (common e)))).
  split.
  { unfold resegment. fold f. rewrite Hupd. cbn [mbind res_bind]. unfold cut_head, cut_tail, modify_field.
    simpl. replace (seg_size s - (compute_pdu_header_size e s + seg_size s - size)) with k by lia.
    replace (compute_pdu_header_size e s + seg_size s - size) with (seg_size s - k) by lia. done. }
  destruct (seg_wf_sub NR_SDU_MAX _ h2 _ Hsub (hs_live _ _ Hs2 _ ltac:(left)) W1) as [W1' B1].
  destruct (seg_wf_sub NR_SDU_MAX _ h2 _ Hsub (hs_live _ _ Hs2 _ ltac:(right; left)) W2) as [W2' B2].
  change (mem (common (set_mem h2 e))) with h2. rewrite B1, B2.
  split_and!; try done; [| by apply He2].
  change (compute_pdu_header_size (set_mem h2 e) (cut_head s k)) with (compute_pdu_header_size e s).
  simpl. lia.
Qed.

Lemma am_resegment_splits_witness :
  ∃ e' s1 s2, resegment am_seg5 am12_sdu5 5 = Ok (e', s1, s2) ∧
    compute_pdu_header_size e' s1 + seg_size s1 = 5 ∧
    seg_wf NR_SDU_MAX (mem (common e')) s1 ∧ seg_wf NR_SDU_MAX (mem (common e')) s2 ∧
    [3; 4; 5] = seg_bytes (mem (common e')) s1 ++ seg_bytes (mem (common e')) s2 ∧
    heap_exact (mem (common e')) [s1; s2].
Proof.
  apply (am_resegment_splits am12_sdu5 am_seg5 [] 5).
  - split; [constructor |].
    + intros s Hs. apply list_elem_of_singleton in Hs as ->. simpl. eauto.
    + intros a u Hu. simpl in Hu. apply lookup_singleton_Some in Hu as [<- <-]. simpl. lia.
    + intros a [u Hu]. simpl in Hu. apply lookup_singleton_Some in Hu as [<- _]. simpl. lia.
    + intros s Hs. apply list_elem_of_singleton in Hs as ->. simpl. lia.
    + apply NoDup_singleton.
    + intros a u Hu. simpl in Hu. apply lookup_singleton_Some in Hu as [<- <-]. reflexivity.
  - exists am_sdu5. split; [reflexivity |]. split; [| vm_compute; congruence].
    repeat split; vm_compute; congruence.
  - vm_compute; intuition congruence.
Defined.

(** ** Acknowledgement of SDUs *)

(** An acknowledgement-only STATUS PDU (12-bit SN), and one with a NACK of bytes [s..t]. *)
Definition status_ack (ack : Z) : bytes := [Z.shiftr ack 8; Z.land ack 255; 0].
Definition status_nack (ack nack s t : Z) : bytes :=
  [Z.shiftr ack 8; Z.land ack 255; 128; Z.shiftr nack 4; Z.lor (Z.shiftl (Z.land nack 15) 4) 4;
   Z.shiftr s 8; Z.land s 255; Z.shiftr t 8; Z.land t 255].

Definition zeros (n : Z) : bytes := replicate (Z.to_nat n) 0.

(** Two SDUs, the first one in two segments; everything NACKed for SDU 0, SDU 1 acknowledged,
    and both segments of SDU 0 sent again, the last one with a poll. *)
Definition am_two_sdus : list am_op :=
  [AmSetTime 1; AmRecvSdu [1; 2; 3; 4; 5; 6] 7 0; AmRecvSdu [11; 12; 13] 8 0;
   AmGeneratePdu (zeros 5) 5 0; AmGeneratePdu (zeros 20) 20 0; AmGeneratePdu (zeros 20) 20 0;
   AmRecvPdu (status_nack 2 0 0 65535);
   AmGeneratePdu (zeros 5) 5 0; AmGeneratePdu (zeros 20) 20 0].

(** (functional) a STATUS PDU that acknowledges everything releases every SDU, reports
    their delivery once each, empties the buffers and frees the transmission window. *)
Theorem am_ack_releases :
  ∃ e, am_run am12 (am_two_sdus ++ [AmRecvPdu (status_ack 2)]) = Ok e ∧
    wait_list e = [] ∧ retransmit_list e = [] ∧ tx_size e = 0 ∧ tx_next_ack e = 2 ∧
    sdus (mem (common e)) = ∅ ∧ t_poll_retransmit_start e = 0 ∧
    out (common e) = [sdu_successful_delivery 8; sdu_successful_delivery 7] ∧
    bstatus (common e) = mk_bstatus 0 0 0.
Proof. eexists. split; [vm_compute; reflexivity |]. split_and!; reflexivity. Qed.

(** (error) the shortcut of [process_retransmit_list_head] loses data: when the wait list is
    empty and a STATUS PDU NACKs the later bytes of the SDU whose SN is also its ACK_SN, the
    whole retransmit list is dropped.  Its SDU is neither sent again nor acknowledged, its
    memory stays allocated and the buffer status keeps announcing it. *)
Theorem am_nack_drops_retransmit_list :
  ∃ e e', am_run am12 (am_two_sdus ++ [AmRecvPdu (status_nack 0 0 0 2);
                                       AmRecvPdu (status_nack 0 0 3 5)]) = Ok e ∧
    wait_list e = [] ∧ map (λ s, (seg_so s, seg_size s)) (retransmit_list e) = [(0, 3); (3, 3)] ∧
    nr_rlc_entity_am_recv_pdu e (status_nack 0 0 3 5) = Ok e' ∧
    retransmit_list e' = [] ∧ wait_list e' = [] ∧ tx_list e' = [] ∧ tx_size e' = 6 ∧
    is_Some (sdus (mem (common e')) !! 0%nat) ∧ bs_retx_size (bstatus (common e')) = 12 ∧
    nr_rlc_entity_am_generate_pdu e' (zeros 20) 20 0 = Ok (0, zeros 20, e').
Proof.
  eexists _, _. split; [vm_compute; reflexivity |]. split; [reflexivity |]. split; [reflexivity |].
  split; [vm_compute; reflexivity |]. split_and!; try reflexivity.
  eexists. reflexivity.
Qed.

(** (error) when [t_poll_retransmit] expires with an empty wait list and either nothing else
    to send or a stalled window, [check_t_poll_retransmit] dereferences NULL. *)
Theorem am_poll_timer_null_deref e now :
  wait_list e = [] → t_poll_retransmit_start e ≠ 0 →
  u64 (t_poll_retransmit_start e + t_poll_retransmit e) < now →
  (tx_list e = [] ∧ retransmit_list e = [] ∨ is_window_stalling e = true) →
  nr_rlc_entity_am_set_time e now = UB.
Proof.
  intros Hw Hs Ht Hc. unfold nr_rlc_entity_am_set_time, check_t_poll_retransmit. simpl.
  decide_false (t_poll_retransmit_start e =? 0).
  decide_false (now <=? u64 (t_poll_retransmit_start e + t_poll_retransmit e)). simpl.
  set (e1 := e <| t_current := now |> <| t_poll_retransmit_start := 0 |> <| force_poll := true |>).
  assert (Hp : check_poll_after_pdu_assembly e1 = true).
  { unfold check_poll_after_pdu_assembly. change (tx_list e1) with (tx_list e).
    change (retransmit_list e1) with (retransmit_list e).
    change (is_window_stalling e1) with (is_window_stalling e).
    destruct Hc as [[-> ->] | ->]; [done | apply orb_true_r]. }
  rewrite Hp. simpl. by rewrite Hw.
Qed.

(** The entity after the retransmit list was dropped, its poll timer still running. *)
Definition am12_dropped : nr_rlc_entity_am_t :=
  match am_run am12 (am_two_sdus ++ [AmRecvPdu (status_nack 0 0 0 2);
                                     AmRecvPdu (status_nack 0 0 3 5);
                                     AmRecvPdu (status_nack 0 0 3 5)]) with
  | Ok e => e | _ => am12 end.

Lemma am_poll_timer_null_deref_witness : nr_rlc_entity_am_set_time am12_dropped 100 = UB.
Proof.
  apply (am_poll_timer_null_deref am12_dropped 100);
    [reflexivity | vm_compute; congruence | vm_compute; congruence | left; split; reflexivity].
Defined.

(** (error) the validation of a STATUS PDU does not check that NACKs are in increasing order:
    every NACK whose SNs are not after ACK_SN is accepted, whatever comes before it. *)
Theorem am_nack_order_not_checked e ack_sn nk :
  (∀ i, 0 <= i < nack_range nk →
     sn_compare_tx e (Z.rem (nack_sn nk + i) (sn_modulus e)) ack_sn <= 0) →
  validate_range (Z.to_nat (nack_range nk)) 0 e ack_sn (-1) 0 nk = true.
Proof.
  intros Hall.
  assert (H : ∀ todo i, 0 <= i → i + Z.of_nat todo <= Z.max 0 (nack_range nk) →
            validate_range todo i e ack_sn (-1) 0 nk = true).
  { induction todo as [| todo IH]; intros i Hi Hb; simpl; [done |].
    rewrite IH by lia. unfold nack_valid. simpl.
    specialize (Hall i ltac:(lia)). rewrite andb_true_r. lia. }
  apply H; lia.
Qed.

Lemma am_nack_order_not_checked_witness :
  validate_range (Z.to_nat 1) 0 (am12 <| tx_next := 8 |>) 8 (-1) 0 (mk_nack 3 0 (-1) 1) = true.
Proof.
  apply (am_nack_order_not_checked (am12 <| tx_next := 8 |>) 8 (mk_nack 3 0 (-1) 1)).
  simpl. intros i Hi. assert (i = 0) as -> by lia. vm_compute. congruence.
Defined.
