(* ===== verification/RlcAmTxInv.v ===== *)
(** * NR RLC AM: the invariant of transmission

    [am_tx_inv]: the three lists of the transmitter hold a consistent pool of segments, the
    wait and retransmit lists are ordered, every segment in them has an SN of the window, and
    the tail pointers are exact.  The operations of the transmitter (PDU generation, SDU
    reception, poll timer, discard, re-establishment) return and keep it. *)

From S2P Require Import Prelude.
From S2P Require Import RlcPdu.
From S2P Require Import RlcEntity.

From S2P Require Import RlcRxManager.
From S2P Require Import RlcAm.
From S2P Require Import RlcAmControl.
From S2P Require Import RlcAmPool.
From S2P Require Import RlcAmStatus.
From S2P Require Import RlcAmTx.
From S2P Require Import RlcAmProps.

Abbreviation sent e s := (w_sent (txw_of e) (sn_of (mem (common e)) s)).
Abbreviation sorted_in e l := (sorted (txw_of e) (mem (common e)) l).

Record am_tx_inv (e : nr_rlc_entity_am_t) : Prop := {
  at_cfg : am_config e;
  at_win : w_ok (txw_of e);
  at_room : w_pos (txw_of e) (tx_next e) <= window_size e;
  at_pool : pool (txw_of e) (mem (common e)) (wait_list e ++ retransmit_list e ++ tx_list e);
  at_wait_sent : Forall (λ s, sent e s) (wait_list e);
  at_retx_sent : Forall (λ s, sent e s) (retransmit_list e);
  at_wait : sorted_in e (wait_list e);
  at_retx : sorted_in e (retransmit_list e);
  at_txend : end_ok (tx_list e) (tx_end e);
  at_waitend : end_ok (wait_list e) (wait_end e)
}.

(** The same with a segment [s] taken out of the lists. *)
Record am_hold (e : nr_rlc_entity_am_t) (s : nr_rlc_sdu_segment_t) : Prop := {
  ah_cfg : am_config e;
  ah_win : w_ok (txw_of e);
  ah_room : w_pos (txw_of e) (tx_next e) <= window_size e;
  ah_pool : pool (txw_of e) (mem (common e)) (s :: wait_list e ++ retransmit_list e ++ tx_list e);
  ah_sent : sent e s;
  ah_wait_sent : Forall (λ s, sent e s) (wait_list e);
  ah_retx_sent : Forall (λ s, sent e s) (retransmit_list e);
  ah_wait : sorted_in e (wait_list e);
  ah_retx : sorted_in e (retransmit_list e);
  ah_txend : end_ok (tx_list e) (tx_end e);
  ah_waitend : end_ok (wait_list e) (wait_end e)
}.

(** What the invariant depends on, and the state of the receiving side. *)
Definition tx_view (e : nr_rlc_entity_am_t) :=
  (sn_field_length e, sn_modulus e, window_size e, tx_next_ack e, tx_next e, mem (common e),
   tx_list e, tx_end e, wait_list e, wait_end e, retransmit_list e).
Definition rx_view (e : nr_rlc_entity_am_t) :=
  (rx e, rx_size e, rx_maxsize e, rx_next e, rx_next_status_trigger e, rx_highest_status e,
   rx_next_highest e, t_reassembly_start e, sn_field_length e, sn_modulus e, window_size e).

Lemma am_tx_frame e e' : tx_view e' = tx_view e → am_tx_inv e → am_tx_inv e'.
Proof.
  unfold tx_view. intros [= E1 E2 E3 E4 E5 E6 E7 E8 E9 E10 E11] [H1 H2 H3 H4 H5 H6 H7 H8 H9 H10].
  assert (Ew : txw_of e' = txw_of e) by (unfold txw_of; congruence).
  constructor; rewrite ?Ew, ?E3, ?E5, ?E6, ?E7, ?E8, ?E9, ?E10, ?E11; try done.
  unfold am_config in *. by rewrite E1, E2, E3.
Qed.

Lemma am_hold_frame e e' s : tx_view e' = tx_view e → am_hold e s → am_hold e' s.
Proof.
  unfold tx_view. intros [= E1 E2 E3 E4 E5 E6 E7 E8 E9 E10 E11] [H1 H2 H3 H4 H5 H6 H7 H8 H9 H10 H11].
  assert (Ew : txw_of e' = txw_of e) by (unfold txw_of; congruence).
  constructor; rewrite ?Ew, ?E3, ?E5, ?E6, ?E7, ?E8, ?E9, ?E10, ?E11; try done.
  unfold am_config in *. by rewrite E1, E2, E3.
Qed.

Lemma am_config_mod e : am_config e → 0 < window_size e ∧ sn_modulus e = 2 * window_size e.
Proof. intros [(_ & -> & ->) | (_ & -> & ->)]; lia. Qed.

Lemma header_pos e s : 0 < compute_pdu_header_size e s.
Proof. unfold compute_pdu_header_size. destruct (_ =? _), (negb _); lia. Qed.

(** ** The wait list *)

(** The segment the tail pointer designates. *)
Lemma find_last l x : NoDup (map seg_addr (l ++ [x])) →
  list_find (λ y, seg_addr y = seg_addr x) (l ++ [x]) = Some (length l, x).
Proof.
  intros Hnd. apply list_find_Some. split_and!; [by apply list_lookup_middle | done |].
  intros j y Hj Hlt E. rewrite lookup_app_l in Hj by done.
  rewrite map_app in Hnd. apply NoDup_app in Hnd as (_ & Hnd & _).
  apply (Hnd (seg_addr y)); [| rewrite E; by left].
  apply list_elem_of_fmap_2. by eapply list_elem_of_lookup_2.
Qed.

Lemma sorted_snoc w h l x s : sorted w h (l ++ [x]) → before w h x s → sorted w h ((l ++ [x]) ++ [s]).
Proof.
  intros Hsort Hb. rewrite <- app_assoc. induction l as [| y l IH]; simpl in *.
  - constructor; [constructor; constructor | by constructor].
  - inversion_clear Hsort as [| ? ? Hs' Ha]. constructor; [by apply IH |].
    rewrite Forall_app in *. destruct Ha as [Ha1 Ha2]. split; [done |]. inversion_clear Ha2 as [| ? ? Hyx _].
    constructor; [done |]. constructor; [by trans x | constructor].
Qed.

Lemma put_in_wait_ok e s rest :
  let h := mem (common e) in let w := txw_of e in
  w_ok w → pool w h (s :: wait_list e ++ rest) → sent e s → Forall (λ s, sent e s) (wait_list e) →
  sorted_in e (wait_list e) → end_ok (wait_list e) (wait_end e) →
  ∃ l' x, put_in_wait_list e s = Ok (e <| wait_list := l' |> <| wait_end := x |>) ∧
    l' ≡ₚ s :: wait_list e ∧ sorted_in e l' ∧ end_ok l' x.
Proof.
  intros h w Hw Hp Hs Hall Hsort Hend. unfold put_in_wait_list.
  rewrite (seg_sn_ok w e _ s Hp) by (by left). fold h. cbn [mbind res_bind].
  assert (Hnd : NoDup (map seg_addr (wait_list e))).
  { pose proof (hs_nodup _ _ (po_safe _ _ _ Hp)) as H. simpl in H. apply NoDup_cons in H as [_ H].
    rewrite map_app in H. by apply NoDup_app in H as [? _]. }
  pose proof (list_append_ok (wait_list e) (wait_end e) s Hend Hnd) as Happ.
  destruct (wait_end e) as [a |] eqn:Ea; unfold end_ok in Hend.
  2:{ cbn [mbind res_bind]. rewrite Happ. cbn [mbind res_bind].
      destruct (wait_list e) as [| x l] using rev_ind; [| by rewrite last_snoc in Hend].
      eexists [s], _. split_and!; [done | done | | done]. constructor; constructor. }
  destruct (last (wait_list e)) as [x |] eqn:El; [| done]. injection Hend as ->.
  apply last_Some in El as [l El]. rewrite El in *.
  rewrite (find_last l x Hnd). cbn [deref mbind res_bind snd].
  assert (Hx : x ∈ s :: (l ++ [x]) ++ rest)
    by (right; apply elem_of_app; left; apply elem_of_app; right; by left).
  rewrite (seg_sn_ok w e _ x Hp Hx). fold h. cbn [mbind res_bind].
  rewrite sn_compare_pos. fold w.
  set (c := w_pos w (sn_of h s) - w_pos w (sn_of h x)).
  assert (Hdec : (0 <? c) || ((c =? 0) && (seg_so x <? seg_so s)) = true ↔ before w h x s)
    by (unfold before, c; rewrite orb_true_iff, andb_true_iff, !Z.ltb_lt, Z.eqb_eq; lia).
  destruct ((0 <? c) || _) eqn:Eb.
  - rewrite Happ. cbn [mbind res_bind]. eexists _, _. split_and!; [done | | | apply end_ok_snoc].
    + symmetry. apply Permutation_cons_append.
    + apply sorted_snoc; [done | by apply Hdec].
  - destruct (list_add_split e (l ++ [x]) s rest Hw Hp Hs Hall) as (l1 & l2 & E & El12 & H1 & H2).
    fold h w in H1, H2. rewrite E. cbn [mbind res_bind].
    destruct l2 as [| y l2].
    { exfalso. rewrite app_nil_r in El12. subst l1. apply Forall_app in H1 as [_ H1].
      apply Forall_cons in H1 as [H1 _]. apply Hdec in H1. congruence. }
    eexists (l1 ++ s :: y :: l2), (Some (seg_addr x)). split_and!.
    + destruct l1 as [| z l1]; simpl; [by rewrite <- Ea |]. destruct (l1 ++ _) eqn:E2; [by destruct l1 |].
      by rewrite <- Ea.
    + rewrite El12. symmetry. apply Permutation_middle.
    + apply sorted_insert; [by rewrite <- El12 | done | done].
    + unfold end_ok. replace (last (l1 ++ s :: y :: l2)) with (last (l1 ++ y :: l2)).
      * by rewrite <- El12, last_snoc.
      * rewrite !last_app. by destruct l2.
Qed.

Lemma hold_put e s : am_hold e s →
  ∃ e', put_in_wait_list e s = Ok e' ∧ am_tx_inv e' ∧ s ∈ wait_list e' ∧ mem (common e') = mem (common e) ∧
    rx_view e' = rx_view e.
Proof.
  intros [H1 H2 H3 H4 H5 H6 H7 H8 H9 H10 H11].
  destruct (put_in_wait_ok e s (retransmit_list e ++ tx_list e) H2 H4 H5 H6 H8 H11) as (l' & x & -> & Hl & Hs & He).
  eexists. split; [done |]. split; [| split_and!; [simpl; rewrite Hl; by left | done | done]].
  constructor; try done; simpl.
  - eapply pool_perm; [| exact H4]. by rewrite Hl.
  - rewrite Hl. by constructor.
Qed.

(** ** Cutting the segment in hand *)

Lemma resegment_ok e s size :
  am_hold e s → compute_pdu_header_size e s + 1 <= size < compute_pdu_header_size e s + seg_size s →
  ∃ h2 k t, resegment s e size = Ok (set_mem h2 e, cut_head s k, t) ∧
    k = size - compute_pdu_header_size e s ∧ t = cut_tail s k (seg_addr t) ∧
    pool (txw_of e) h2 (cut_head s k :: t :: wait_list e ++ retransmit_list e ++ tx_list e) ∧
    sdu_kept h2 (mem (common e)) ∧ sn_of h2 (cut_head s k) = sn_of (mem (common e)) s ∧
    sn_of h2 t = sn_of (mem (common e)) s.
Proof.
  intros Hh Hsize. pose proof (ah_pool e s Hh) as Hp.
  destruct (pool_live _ _ _ s Hp) as (u & Hu & _); [by left |].
  destruct (upd_kept (mem (common e)) (seg_sdu s) (λ u, u <| ref_count ::= Z.succ |>) u Hu)
    as (h1 & E & _ & _ & _); [done |].
  set (k := size - compute_pdu_header_size e s).
  destruct (pool_cut _ _ s _ k h1 Hp ltac:(lia) E) as (Hp2 & Hk & Hs1 & Hs2 & _).
  eexists (h1 <| next_addr ::= S |>), k, (cut_tail s k (next_addr h1)).
  split; [| split; [done | split; [done | split; [exact Hp2 | split; [exact Hk | split; [exact Hs1 | exact Hs2]]]]]].
  unfold resegment. rewrite E. cbn [mbind res_bind]. unfold cut_head, cut_tail.
  assert (E1 : seg_size s - (compute_pdu_header_size e s + seg_size s - size) = k) by lia.
  assert (E2 : compute_pdu_header_size e s + seg_size s - size = seg_size s - k) by lia.
  destruct s as [a d z o f l]. cbn [seg_size seg_so seg_addr seg_sdu seg_is_first seg_is_last modify_field] in *.
  rewrite E1, E2. assert (E3 : z - (z - k) = k) by lia. clearbody k.
  match goal with |- _ = Ok (_, ?x, _) => replace x with (mk_segment a d (z - (z - k)) o f false) by (by rewrite E3) end.
  done.
Qed.

(** ** Serialization *)

Lemma memcpy_length dst doff src soff n d : memcpy dst doff src soff n = Ok d → zlen d = zlen dst.
Proof.
  unfold memcpy. intros H. inv_bind H. destruct (slice src soff n) eqn:Es; [| done]. injection E as ->.
  apply slice_inv in Es as (_ & Hn & _ & Hz & _). destruct (_ && _) eqn:Eb; [| done]. injection H as <-.
  unfold zlen in *. rewrite !length_app, length_take, length_drop. lia.
Qed.

Lemma serialize_length e u s buffer bufsize p ret buf e' :
  am_config e → seg_in u s → sdu_size u <= NR_SDU_MAX → 0 <= sdu_sn u < sn_modulus e →
  sdus (mem (common e)) !! seg_sdu s = Some u → compute_pdu_header_size e s + seg_size s <= bufsize <= zlen buffer →
  serialize_sdu e s buffer bufsize p = Ok (ret, buf, e') → zlen buf = zlen buffer.
Proof.
  intros Hcfg Hseg Hmax Hsn Hu Hroom H. rewrite (am_serialize_fields e u s Hu) in H.
  pose proof Hseg as (Hz & Hz1 & Hz2 & Hz3 & _). pose proof (header_pos e s).
  destruct (put_fields_aligned _ buffer bufsize (compute_pdu_header_size e s) (am_header_ok e u s Hcfg Hseg Hmax Hsn false))
    as (enc & Ee & _ & _ & _ & Hlen & _); [by apply am_header_width | lia |].
  rewrite Ee in H. cbn [mbind res_bind] in H. inv_bind H. apply memcpy_length in E as Hl.
  destruct p; [| simpl in H; injection H as _ <- _; by rewrite Hl]. inv_bind H. destruct a0 as [b e1]. simplify_eq/=. unfold include_poll in E0.
  inv_bind E0. inv_bind E0. simplify_eq/=. unfold zset in E2. destruct (_ && _); [| done]. injection E2 as <-.
  by rewrite zlen_insert, Hl.
Qed.

Lemma serialize_ok e s buffer bufsize p :
  am_tx_inv e → s ∈ wait_list e → compute_pdu_header_size e s + seg_size s <= bufsize <= zlen buffer →
  ∃ buf, serialize_sdu e s buffer bufsize p =
    Ok (compute_pdu_header_size e s + seg_size s, buf, if p then polled e else e) ∧ zlen buf = zlen buffer.
Proof.
  intros Hi Hs Hroom.
  destruct (pool_live _ _ _ s (at_pool e Hi)) as (u & Hu & Hin & Hz & E); [apply elem_of_app; by left |].
  pose proof (at_wait_sent e Hi) as Hsent. rewrite Forall_forall in Hsent. destruct (Hsent s Hs) as [Hr _].
  rewrite E in Hr.
  destruct (am_serialize_poll e u s buffer bufsize p (at_cfg e Hi) Hin Hz Hr Hu Hroom) as (hdr & rest & Ep & _).
  pose proof (serialize_length e u s buffer bufsize p _ _ _ (at_cfg e Hi) Hin Hz Hr Hu Hroom Ep). rewrite Ep. eauto.
Qed.

Lemma poll_decision_frame e p : tx_view (poll_decision e p).2 = tx_view e ∧ rx_view (poll_decision e p).2 = rx_view e.
Proof. unfold poll_decision. by destruct (force_poll e). Qed.

Lemma polled_frame e (p : bool) :
  tx_view (if p then polled e else e) = tx_view e ∧ rx_view (if p then polled e else e) = rx_view e.
Proof. by destruct p. Qed.

(** Sending the segment in hand: the end of both generation functions. *)
Lemma hold_send e s buffer size p :
  am_hold e s → compute_pdu_header_size e s + seg_size s <= size <= zlen buffer →
  ∃ e1, put_in_wait_list e s = Ok e1 ∧
  ∀ e2, tx_view e2 = tx_view e1 → rx_view e2 = rx_view e1 →
  ∃ buf e', serialize_sdu e2 s buffer size p = Ok (compute_pdu_header_size e s + seg_size s, buf, e') ∧
    am_tx_inv e' ∧ rx_view e' = rx_view e ∧ s ∈ wait_list e' ∧ zlen buf = zlen buffer.
Proof.
  intros Hh Hsize. destruct (hold_put e s Hh) as (e1 & E1 & Hi1 & Hin & _ & Hr1).
  exists e1. split; [done |]. intros e2 Ht2 Hr2. pose proof (am_tx_frame e1 e2 Ht2 Hi1) as Hi2.
  assert (Hhdr : compute_pdu_header_size e2 s = compute_pdu_header_size e s).
  { unfold compute_pdu_header_size. unfold rx_view in Hr1, Hr2. by replace (sn_field_length e2) with (sn_field_length e) by congruence. }
  assert (Hin2 : s ∈ wait_list e2) by (unfold tx_view in Ht2; congruence).
  destruct (serialize_ok e2 s buffer size p Hi2 Hin2) as (buf & E & Hlen); [by rewrite Hhdr |].
  rewrite Hhdr in E. destruct (polled_frame e2 p) as [Hpt Hpr]. eexists _, _. split; [exact E |].
  split; [by apply (am_tx_frame e2) |]. split; [by rewrite Hpr, Hr2 |]. split; [unfold tx_view in Hpt; congruence | done].
Qed.

(** ** Retransmission *)

(** The first segment of the retransmit list is before the others. *)
Lemma cut_before w h h2 s k t l rest :
  w_ok w → pool w h (s :: rest) → (∀ x, x ∈ l → x ∈ rest) → sdu_kept h2 h →
  (∀ x, x ∈ l → is_Some (sdus h2 !! seg_sdu x)) →
  w_sent w (sn_of h s) → Forall (λ x, w_sent w (sn_of h x)) l → sorted w h (s :: l) →
  0 < k < seg_size s → seg_so t = seg_so s + k → sn_of h2 t = sn_of h s → sorted w h2 (t :: l).
Proof.
  intros Hw Hp Hsub Hk Hlive Hs Hl Hsort Hcut Hso Hsn. inversion_clear Hsort as [| ? ? Hsl Hall].
  constructor; [by eapply sorted_kept |]. rewrite Forall_forall in *. intros x Hx.
  unfold before. rewrite Hsn, (sn_of_kept h2 h x) by (done || by apply Hlive).
  destruct (Hall x Hx) as [H | [H Hlt]]; [by left | right]. split; [done |]. rewrite Hso.
  apply w_pos_inj in H; [| done | apply Hs | apply (Hl x Hx)].
  assert (Hne : seg_addr s ≠ seg_addr x).
  { pose proof (hs_nodup _ _ (po_safe _ _ _ Hp)) as Hnd. apply NoDup_cons in Hnd as [Hnd _].
    intros E. apply Hnd. rewrite E. apply list_elem_of_fmap_2. by apply Hsub. }
  assert (Hxin : x ∈ s :: rest) by (right; by apply Hsub).
  assert (Hap : apart s x).
  { apply (po_apart _ _ _ Hp); [by left | done | done |]. apply (po_sn _ _ _ Hp); [by left | done | done |].
    destruct Hs as [? _]. lia. }
  destruct Hap as [Ha | Ha]; unfold seg_stop in Ha; lia.
Qed.

(** The parts of the invariant that the memory of a cut leaves as they were. *)
Lemma cut_lists e s h2 t k :
  am_hold e s → sdu_kept h2 (mem (common e)) →
  pool (txw_of e) h2 (cut_head s k :: t :: wait_list e ++ retransmit_list e ++ tx_list e) →
  Forall (λ x, w_sent (txw_of e) (sn_of h2 x)) (wait_list e) ∧
  Forall (λ x, w_sent (txw_of e) (sn_of h2 x)) (retransmit_list e) ∧
  sorted (txw_of e) h2 (wait_list e) ∧ sorted (txw_of e) h2 (retransmit_list e).
Proof.
  intros [H1 H2 H3 H4 H5 H6 H7 H8 H9 H10 H11] Hk Hp.
  assert (Hl : ∀ x, x ∈ wait_list e ∨ x ∈ retransmit_list e → is_Some (sdus h2 !! seg_sdu x)).
  { intros x Hx. apply (hs_live _ _ (po_safe _ _ _ Hp)). right; right. rewrite !elem_of_app. tauto. }
  rewrite !Forall_forall in *. split_and!.
  - intros x Hx. rewrite (sn_of_kept h2 _ x Hk); auto.
  - intros x Hx. rewrite (sn_of_kept h2 _ x Hk); auto.
  - eapply sorted_kept; eauto.
  - eapply sorted_kept; eauto.
Qed.

Lemma hold_cut_retx e s size :
  am_hold e s → sorted_in e (s :: retransmit_list e) →
  compute_pdu_header_size e s + 1 <= size < compute_pdu_header_size e s + seg_size s →
  ∃ h2 t, resegment s e size = Ok (set_mem h2 e, cut_head s (size - compute_pdu_header_size e s), t) ∧
    am_hold (set_mem h2 e <| retransmit_list ::= cons t |>) (cut_head s (size - compute_pdu_header_size e s)).
Proof.
  intros Hh Hsort Hsize. destruct (resegment_ok e s size Hh Hsize) as (h2 & k & t & E & Hk & Ht & Hp & Hkept & Hn1 & Hn2).
  rewrite <- Hk. exists h2, t. split; [by rewrite Hk in * |].
  destruct (cut_lists e s h2 t k Hh Hkept Hp) as (Hw & Hr & Hws & Hrs).
  pose proof Hh as [H1 H2 H3 H4 H5 H6 H7 H8 H9 H10 H11]. constructor; try done; simpl.
  - eapply pool_perm; [| exact Hp]. constructor. apply Permutation_middle.
  - by rewrite Hn1.
  - constructor; [by rewrite Hn2 | done].
  - apply (cut_before _ (mem (common e)) h2 s k t (retransmit_list e) _ H2 H4); try done.
    + intros x Hx. rewrite !elem_of_app. tauto.
    + intros x Hx. apply (hs_live _ _ (po_safe _ _ _ Hp)). right; right. rewrite !elem_of_app. tauto.
    + lia.
    + by rewrite Ht.
Qed.

Lemma hold_size e s : am_hold e s → 0 <= seg_size s.
Proof.
  intros Hh. pose proof (po_wf _ _ _ (ah_pool e s Hh)) as Hw. apply Forall_cons in Hw as [(u & _ & Hin & _) _].
  unfold seg_in in Hin. lia.
Qed.

Lemma generate_retx_ok e buffer size :
  am_tx_inv e → retransmit_list e ≠ [] → size <= zlen buffer →
  ∃ ret buf e', generate_retx_pdu e buffer size = Ok (ret, buf, e') ∧ am_tx_inv e' ∧ rx_view e' = rx_view e ∧
    (ret = 0 → buf = buffer) ∧ 0 <= ret <= Z.max 0 size ∧ zlen buf = zlen buffer.
Proof.
  intros Hi Hne Hsize. unfold generate_retx_pdu. destruct (retransmit_list e) as [| s l] eqn:El; [done |].
  pose proof (header_pos e s) as Hh0.
  destruct (Z.ltb_spec size (compute_pdu_header_size e s + 1)) as [| Hroom]; [eexists _, _, _; split_and!; (done || lia) |].
  cbv zeta. set (e1 := e <| retransmit_list := l |> <| common ::= add_bs_retx _ |>).
  pose proof Hi as [H1 H2 H3 H4 H5 H6 H7 H8 H9 H10]. rewrite El in *. apply Forall_cons in H6 as [Hs Hl].
  assert (Hhold : am_hold e1 s).
  { constructor; try done; simpl; [| by inversion H8].
    eapply pool_perm; [| exact H4]. symmetry. apply (Permutation_middle (wait_list e) (l ++ tx_list e) s). }
  match goal with |- context [(if ?b then ?x else ?y) ≫= _] =>
    assert (Hmid : ∃ e2 s2, (if b then x else y) = Ok (e2, s2) ∧ am_hold e2 s2 ∧ rx_view e2 = rx_view e ∧
      compute_pdu_header_size e2 s2 + seg_size s2 <= size) end.
  { destruct (Z.ltb_spec size (compute_pdu_header_size e s + seg_size s)) as [Hcut | Hfull]; [| by exists e1, s].
    destruct (hold_cut_retx e1 s size Hhold H8) as (h2 & t & -> & Hh2); [by split |]. cbn [mbind res_bind].
    eexists _, _. split; [done |]. split; [eapply am_hold_frame; [| exact Hh2]; done |]. split; [done |].
    change (compute_pdu_header_size e s + (size - compute_pdu_header_size e s) <= size). lia. }
  destruct Hmid as (e2 & s2 & E & Hh2 & Hr2 & Hfit). rewrite E. cbn [mbind res_bind].
  destruct (hold_put e2 s2 Hh2) as (e3 & E3 & _).
  destruct (hold_send e2 s2 buffer size (poll_decision e3 (check_poll_after_pdu_assembly e3)).1 Hh2) as (e3' & E3' & Hsend); [lia |].
  rewrite E3 in E3'. injection E3' as <-. rewrite E3. cbn [mbind res_bind].
  destruct (poll_decision_frame e3 (check_poll_after_pdu_assembly e3)) as [Hf1 Hf2].
  destruct (poll_decision e3 _) as [p e4]. cbn [fst] in Hsend. destruct (Hsend e4 Hf1 Hf2) as (buf & e5 & -> & Hi5 & Hr5 & _ & Hlen).
  cbn [mbind res_bind]. eexists _, _, _. split; [done |]. split; [by apply (am_tx_frame e5) |].
  split; [etrans; [exact Hr5 | exact Hr2] |].
  pose proof (header_pos e2 s2). pose proof (hold_size e2 s2 Hh2). split_and!; [lia.. | done].
Qed.

(** ** New transmission *)

Lemma hold_cut_tx e s size :
  am_hold e s → compute_pdu_header_size e s + 1 <= size < compute_pdu_header_size e s + seg_size s →
  ∃ h2 t, resegment s e size = Ok (set_mem h2 e, cut_head s (size - compute_pdu_header_size e s), t) ∧
    let e' := set_mem h2 e <| tx_list ::= cons t |> in
    am_hold (match tx_end e' with None => e' <| tx_end := Some (seg_addr t) |> | Some _ => e' end)
            (cut_head s (size - compute_pdu_header_size e s)).
Proof.
  intros Hh Hsize. destruct (resegment_ok e s size Hh Hsize) as (h2 & k & t & E & Hk & Ht & Hp & Hkept & Hn1 & Hn2).
  rewrite <- Hk. exists h2, t. split; [by rewrite Hk in * |].
  destruct (cut_lists e s h2 t k Hh Hkept Hp) as (Hw & Hr & Hws & Hrs).
  pose proof Hh as [H1 H2 H3 H4 H5 H6 H7 H8 H9 H10 H11].
  assert (Hp' : pool (txw_of e) h2 (cut_head s k :: wait_list e ++ retransmit_list e ++ t :: tx_list e)).
  { eapply pool_perm; [| exact Hp]. constructor. rewrite !app_assoc. apply Permutation_middle. }
  assert (Hend : end_ok (t :: tx_list e) (match tx_end e with None => Some (seg_addr t) | Some _ => tx_end e end)).
  { unfold end_ok in *. rewrite H10. destruct (tx_list e) as [| y l]; [done |].
    change (last (t :: y :: l)) with (last (y :: l)). destruct (last (y :: l)) eqn:El; [done |].
    by apply last_None in El. }
  cbv zeta. change (tx_end (set_mem h2 e <| tx_list ::= cons t |>)) with (tx_end e).
  destruct (tx_end e) eqn:Ee; constructor; try done; simpl; try (by rewrite Hn1); by rewrite ?Ee.
Qed.

Lemma assign_sn_ok e s :
  am_config e → w_ok (txw_of e) → w_pos (txw_of e) (tx_next e) < window_size e →
  pool (txw_of e) (mem (common e)) (s :: wait_list e ++ retransmit_list e ++ tx_list e) →
  Forall (λ s, sent e s) (wait_list e) → Forall (λ s, sent e s) (retransmit_list e) →
  sorted_in e (wait_list e) → sorted_in e (retransmit_list e) →
  end_ok (tx_list e) (tx_end e) → end_ok (wait_list e) (wait_end e) →
  ∃ e', assign_sn e s = Ok e' ∧ am_hold e' s ∧ rx_view e' = rx_view e ∧ sn_field_length e' = sn_field_length e.
Proof.
  intros H1 H2 H3 H4 H5 H6 H7 H8 H9 H10. unfold assign_sn.
  destruct (pool_live _ _ _ s H4) as (u & Hu & _ & _ & Esn); [by left |]. unfold get_sdu at 1. rewrite Hu. cbn [deref mbind res_bind].
  destruct (Z.eqb_spec (sdu_sn u) (-1)) as [Em | Hne].
  2:{ exists e. split_and!; try done. constructor; try done; [lia |].
      destruct (po_sent _ _ _ H4 s) as [? | ?]; [by left | congruence | done]. }
  rewrite (upd_sdu_Ok _ _ _ u Hu). cbn [mbind res_bind]. eexists. split; [done |].
  pose proof (am_config_mod e H1) as [Hws Hmod].
  destruct (pool_assign (txw_of e) (mem (common e)) _ s u H2 ltac:(simpl; lia) H4 ltac:(by left) Hu Em)
    as (Hw' & Hpos & Hp' & Hsn & Hother).
  set (w' := mk_txw _ _ _) in *. set (h' := mk_heap _ _) in *.
  assert (Hkeep : ∀ l, Forall (λ s, sent e s) l →
    Forall (λ x, w_sent w' (sn_of h' x)) l ∧ (sorted_in e l → sorted w' h' l)).
  { intros l Hl. assert (Ho : ∀ x, x ∈ l → sn_of h' x = sn_of (mem (common e)) x).
    { intros x Hx. apply Hother. rewrite Forall_forall in Hl. destruct (Hl x Hx) as [? _]. lia. }
    split.
    - rewrite Forall_forall in *. intros x Hx. rewrite Ho by done. destruct (Hl x Hx) as [? Hlt]. split; [done |].
      rewrite Hpos. change (w_pos w' (sn_of (mem (common e)) x)) with (w_pos (txw_of e) (sn_of (mem (common e)) x)).
      simpl in *. lia.
    - clear Hl. induction 1 as [| x l Hs IH Hall]; constructor.
      + apply IH. intros y Hy. apply Ho. by right.
      + rewrite Forall_forall in *. intros y Hy. unfold before. rewrite !Ho by (by left || by right).
        by apply Hall. }
  split; [| done]. constructor; try done.
  - change (w_pos w' (w_next w') <= window_size e). rewrite Hpos. simpl. lia.
  - change (w_sent w' (sn_of h' s)). rewrite Hsn. split; [apply H2 |]. rewrite Hpos.
    change (w_pos w' (w_next (txw_of e))) with (w_pos (txw_of e) (w_next (txw_of e))). lia.
  - by apply (Hkeep (wait_list e)).
  - by apply (Hkeep (retransmit_list e)).
  - by apply (Hkeep (wait_list e)).
  - by apply (Hkeep (retransmit_list e)).
Qed.

Lemma not_stalling e : am_config e → w_ok (txw_of e) → is_window_stalling e = false →
  w_pos (txw_of e) (tx_next e) < window_size e.
Proof.
  intros Hc [Ha Hn] Hs. simpl in *. rewrite am_window_stalling_iff in Hs by done.
  apply negb_false_iff, Z.ltb_lt in Hs. pose proof (am_config_mod e Hc).
  unfold w_pos. simpl. destruct (Z.ltb_spec (tx_next e - tx_next_ack e) 0).
  - rewrite <- (Z.mod_unique_pos (tx_next e - tx_next_ack e) (sn_modulus e) (-1)
               (tx_next e - tx_next_ack e + sn_modulus e)) in Hs; lia.
  - rewrite Z.mod_small in Hs; lia.
Qed.

Lemma poll_for_new_pdu_frame e n :
  tx_view (poll_for_new_pdu e n).2 = tx_view e ∧ rx_view (poll_for_new_pdu e n).2 = rx_view e.
Proof.
  unfold poll_for_new_pdu. match goal with |- context [poll_decision ?a ?b] => destruct (poll_decision_frame a b) as [-> ->] end.
  done.
Qed.

Lemma record_wait_mem now a c : mem (record_wait now a c) = mem c.
Proof. unfold record_wait. by destruct (avg_time_is_on c). Qed.

Lemma generate_tx_ok e buffer size now_us :
  am_tx_inv e → size <= zlen buffer →
  ∃ ret buf e', generate_tx_pdu e buffer size now_us = Ok (ret, buf, e') ∧ am_tx_inv e' ∧ rx_view e' = rx_view e ∧
    0 <= ret <= Z.max 0 size ∧ zlen buf = zlen buffer.
Proof.
  intros Hi Hsize. unfold generate_tx_pdu.
  destruct (is_window_stalling e) eqn:Est; [eexists _, _, _; split_and!; (done || lia) |].
  destruct (tx_list e) as [| s l] eqn:El; [eexists _, _, _; split_and!; (done || lia) |].
  pose proof (header_pos e s) as Hh0.
  destruct (Z.ltb_spec size (compute_pdu_header_size e s + 1)) as [| Hroom]; [eexists _, _, _; split_and!; (done || lia) |].
  pose proof Hi as [H1 H2 H3 H4 H5 H6 H7 H8 H9 H10]. rewrite El in *.
  pose proof (end_ok_tail s l (tx_end e) H9) as Hend.
  cbv zeta. set (e0 := match l with [] => _ | _ => _ end).
  assert (He0 : rx_view e0 = rx_view e ∧ (txw_of e0, common e0, wait_list e0, wait_end e0, retransmit_list e0, tx_list e0) =
    (txw_of e, common e, wait_list e, wait_end e, retransmit_list e, l) ∧ end_ok l (tx_end e0)).
  { unfold e0. by destruct l. }
  clearbody e0. destruct He0 as (Hr0 & [= F1 F2 F3 F4 F5 F6 F7 F8] & Hend0). clear Hend.
  set (e1 := e0 <| common ::= add_bs_tx _ |>).
  assert (Hw1 : txw_of e1 = txw_of e) by (unfold txw_of; simpl; congruence).
  assert (Hm1 : mem (common e1) = mem (common e)) by (simpl; by rewrite F4).
  assert (Hcfg1 : am_config e1).
  { unfold rx_view in Hr0. unfold am_config in *. simpl.
    replace (sn_field_length e0) with (sn_field_length e) by congruence.
    replace (sn_modulus e0) with (sn_modulus e) by congruence.
    by replace (window_size e0) with (window_size e) by congruence. }
  destruct (assign_sn_ok e1 s) as (e2 & E2 & Hh2 & Hr2 & Hf2).
  { done. }
  { by rewrite Hw1. }
  { rewrite Hw1. change (tx_next e1) with (tx_next e0). change (window_size e1) with (window_size e0).
    rewrite F3. unfold rx_view in Hr0. replace (window_size e0) with (window_size e) by congruence.
    by apply not_stalling. }
  { rewrite Hw1, Hm1. change (wait_list e1) with (wait_list e0). change (retransmit_list e1) with (retransmit_list e0).
    change (tx_list e1) with (tx_list e0). rewrite F5, F7, F8. eapply pool_perm; [| exact H4].
    rewrite !app_assoc. symmetry. apply Permutation_middle. }
  all: rewrite ?Hw1, ?Hm1; change (wait_list e1) with (wait_list e0); change (retransmit_list e1) with (retransmit_list e0);
    change (tx_list e1) with (tx_list e0); change (wait_end e1) with (wait_end e0); rewrite ?F5, ?F6, ?F7, ?F8; try done.
  rewrite E2. cbn [mbind res_bind].
  assert (Hhd : compute_pdu_header_size e2 s = compute_pdu_header_size e s).
  { unfold compute_pdu_header_size. rewrite Hf2. change (sn_field_length e1) with (sn_field_length e0).
    unfold rx_view in Hr0. by replace (sn_field_length e0) with (sn_field_length e) by congruence. }
  match goal with |- context [(if ?b then ?x else ?y) ≫= _] =>
    assert (Hmid : ∃ e3 s3, (if b then x else y) = Ok (e3, s3) ∧ am_hold e3 s3 ∧ rx_view e3 = rx_view e2 ∧
      compute_pdu_header_size e3 s3 + seg_size s3 <= size) end.
  { destruct (Z.ltb_spec size (compute_pdu_header_size e s + seg_size s)) as [Hcut | Hfull]; [| by exists e2, s; rewrite Hhd].
    destruct (hold_cut_tx e2 s size Hh2) as (h2 & t & -> & Hh3); [by rewrite Hhd |]. cbn [mbind res_bind] in *.
    eexists _, _. split; [done |]. split; [eapply am_hold_frame; [| exact Hh3]; cbv zeta; simpl; by destruct (tx_end e2) |].
    split; [cbv zeta; simpl; by destruct (tx_end e2) |].
    replace (compute_pdu_header_size _ (cut_head _ _)) with (compute_pdu_header_size e2 s);
      [simpl; lia | simpl; by destruct (tx_end e2)]. }
  destruct Hmid as (e3 & s3 & E3 & Hh3 & Hr3 & Hfit). rewrite E3. cbn [mbind res_bind]. clear E3.
  destruct (hold_put e3 s3 Hh3) as (e4 & E4 & _).
  destruct (hold_send e3 s3 buffer size (poll_for_new_pdu e4 (seg_size s3)).1 Hh3) as (e4' & E4' & Hsend); [lia |].
  rewrite E4 in E4'. injection E4' as <-. rewrite E4. cbn [mbind res_bind].
  destruct (poll_for_new_pdu_frame e4 (seg_size s3)) as [Hf Hg].
  destruct (poll_for_new_pdu e4 _) as [p e5]. cbn [fst] in Hsend.
  destruct (Hsend e5 Hf Hg) as (buf & e6 & -> & Hi6 & Hr6 & Hin6 & Hlen). cbn [mbind res_bind].
  destruct (get_sdu_live (txw_of e6) e6 _ s3 (at_pool _ Hi6)) as (u & -> & _); [apply elem_of_app; by left |].
  cbn [mbind res_bind]. eexists _, _, _. split; [done |].
  pose proof (header_pos e3 s3). pose proof (hold_size e3 s3 Hh3). split_and!; [| | lia | lia | done].
  - apply (am_tx_frame e6); [| done]. unfold tx_view. simpl. by rewrite record_wait_mem.
  - change (rx_view e6 = rx_view e). by rewrite Hr6, Hr3, Hr2.
Qed.

(** ** Counter updates *)

(** Memory that keeps the SDUs and serves the same segments. *)
Lemma am_tx_mem e h' :
  am_tx_inv e → sdu_kept h' (mem (common e)) →
  heap_safe h' (wait_list e ++ retransmit_list e ++ tx_list e) → am_tx_inv (set_mem h' e).
Proof.
  intros [H1 H2 H3 H4 H5 H6 H7 H8 H9 H10] Hk Hs.
  assert (Hl : ∀ x, x ∈ wait_list e ∨ x ∈ retransmit_list e → is_Some (sdus h' !! seg_sdu x)).
  { intros x Hx. apply (hs_live _ _ Hs). rewrite !elem_of_app. tauto. }
  constructor; try done; simpl; rewrite ?Forall_forall in *.
  - by eapply pool_kept.
  - intros x Hx. rewrite (sn_of_kept h' _ x Hk); auto.
  - intros x Hx. rewrite (sn_of_kept h' _ x Hk); auto.
  - eapply sorted_kept; eauto.
  - eapply sorted_kept; eauto.
Qed.

Lemma am_tx_upd e s f :
  am_tx_inv e → s ∈ wait_list e ++ retransmit_list e ++ tx_list e →
  (∀ u, sdu_data (f u) = sdu_data u ∧ sdu_size (f u) = sdu_size u ∧ sdu_sn (f u) = sdu_sn u ∧
        ref_count (f u) - free_count (f u) = ref_count u - free_count u) →
  ∃ u h', upd_sdu (mem (common e)) (seg_sdu s) f = Ok h' ∧ am_tx_inv (set_mem h' e) ∧
    sdus h' !! seg_sdu s = Some (f u) ∧ sdu_kept h' (mem (common e)).
Proof.
  intros Hi Hs Hf. destruct (pool_upd _ _ _ s f (at_pool e Hi) Hs Hf) as (u & h' & E & Hp & Hk & _ & Hu').
  exists u, h'. split; [done |]. split; [| done]. apply am_tx_mem; [done | done | apply Hp].
Qed.

(** ** SDU reception *)

Lemma log_rejected_frame e : tx_view (log_rejected e) = tx_view e ∧ rx_view (log_rejected e) = rx_view e ∧
  tx_size (log_rejected e) = tx_size e ∧ tx_maxsize (log_rejected e) = tx_maxsize e.
Proof. unfold log_rejected. by destruct (_ && _). Qed.

(** Appending a new SDU to the transmission list. *)
Lemma append_sdu_ok e buffer id :
  am_tx_inv e → zlen buffer <= NR_SDU_MAX →
  ∃ s h x, nr_rlc_new_sdu (mem (common e)) buffer (zlen buffer) id = Ok (s, h) ∧
    nr_rlc_sdu_segment_list_append (tx_list e) (tx_end e) s = Ok (tx_list e ++ [s], x) ∧
    am_tx_inv (set_mem h e <| tx_list := tx_list e ++ [s] |> <| tx_end := x |>).
Proof.
  intros Hi Hz. pose proof Hi as [H1 H2 H3 H4 H5 H6 H7 H8 H9 H10]. rewrite new_sdu_ok.
  set (u := mk_sdu _ _ _ _ _ _ _ _). set (s := mk_segment _ _ _ _ _ _). set (h' := mk_heap _ _).
  assert (Hp : pool (txw_of e) h' (s :: wait_list e ++ retransmit_list e ++ tx_list e)).
  { apply (pool_new (txw_of e) (mem (common e)) _ u s H4); try done. unfold seg_in; simpl.
    pose proof (zlen_nonneg buffer). split_and!; try done; try lia; symmetry; apply Z.eqb_eq; lia. }
  assert (Hnd : NoDup (map seg_addr (tx_list e))).
  { pose proof (hs_nodup _ _ (po_safe _ _ _ H4)) as H. rewrite !map_app in H. apply NoDup_app in H as (_ & _ & H).
    by apply NoDup_app in H as (_ & _ & ?). }
  exists s, h', (Some (seg_addr s)). split; [done |]. split; [by apply list_append_ok |].
  assert (Hsn : ∀ x, x ∈ wait_list e ∨ x ∈ retransmit_list e → sn_of h' x = sn_of (mem (common e)) x).
  { intros x Hx. unfold sn_of, h'. simpl. rewrite lookup_insert_ne; [done |]. intros E.
    pose proof (hs_live _ _ (po_safe _ _ _ H4) x) as Hl. apply (hs_fresh _ _ (po_safe _ _ _ H4)) in Hl.
    - rewrite <- E in Hl. lia.
    - rewrite !elem_of_app. tauto. }
  assert (Hsort : ∀ l, (∀ x, x ∈ l → x ∈ wait_list e ∨ x ∈ retransmit_list e) → sorted_in e l → sorted (txw_of e) h' l).
  { intros l Hl Hs. induction Hs as [| x l Hs IH Hall]; constructor.
    - apply IH. intros y Hy. apply Hl. by right.
    - rewrite Forall_forall in *. intros y Hy. unfold before. rewrite !Hsn by (apply Hl; by left || by right).
      by apply Hall. }
  constructor; try done; simpl; try (apply Hsort; [tauto | done]); try apply end_ok_snoc.
  - eapply pool_perm; [| exact Hp]. rewrite !app_assoc. apply Permutation_cons_append.
  - rewrite Forall_forall in *. intros x Hx. rewrite Hsn by auto. by apply H5.
  - rewrite Forall_forall in *. intros x Hx. rewrite Hsn by auto. by apply H6.
Qed.

Lemma recv_sdu_ok e buffer id now_us :
  am_tx_inv e → zlen buffer <= NR_SDU_MAX →
  ∃ e', nr_rlc_entity_am_recv_sdu e buffer id now_us = Ok e' ∧ am_tx_inv e' ∧ rx_view e' = rx_view e.
Proof.
  intros Hi Hz. unfold nr_rlc_entity_am_recv_sdu, assert_that. decide_true (zlen buffer <=? NR_SDU_MAX).
  cbn [mbind res_bind].
  set (e0 := e <| common ::= stat rxsdu_pkts 1 |>).
  assert (Hi0 : am_tx_inv (log_rejected e0)).
  { destruct (log_rejected_frame e0) as (E & _). apply (am_tx_frame e0); [done |]. by apply (am_tx_frame e). }
  assert (Hr0 : rx_view (log_rejected e0) = rx_view e) by (destruct (log_rejected_frame e0) as (_ & -> & _); done).
  cbv zeta. set (e1 := log_rejected e0) in *. clearbody e1.
  destruct (_ <? _).
  { eexists. split; [done |]. split; [by apply (am_tx_frame e1) | done]. }
  set (e2 := e1 <| tx_size ::= _ |> <| common ::= _ |>).
  assert (Hi2 : am_tx_inv e2) by by apply (am_tx_frame e1).
  destruct (append_sdu_ok e2 buffer id Hi2 Hz) as (s & h & x & E1 & E2 & Hi3).
  rewrite E1. cbn [mbind res_bind]. rewrite E2. cbn [mbind res_bind].
  set (e3 := set_mem h e2 <| tx_list := _ |> <| tx_end := x |>) in *.
  match goal with |- context [avg_time_is_on (common ?e)] => set (e4 := e) end.
  assert (Hi4 : am_tx_inv e4) by by apply (am_tx_frame e3).
  destruct (avg_time_is_on (common e4)); [| by exists e4].
  destruct (am_tx_upd e4 s (λ u, u <| time_of_arrival := now_us |>) Hi4) as (u & h' & E & Hi5 & _); [| done |].
  { rewrite !elem_of_app. right; right. change (tx_list e4) with (tx_list e2 ++ [s]). apply elem_of_app. right. by left. }
  rewrite E. cbn [mbind res_bind]. by eexists.
Qed.

(** ** The poll timer *)

(** The case [check_t_poll_retransmit] does not handle: it dereferences an empty wait list. *)
Definition poll_null (e : nr_rlc_entity_am_t) : bool :=
  negb (t_poll_retransmit_start e =? 0) && (u64 (t_poll_retransmit_start e + t_poll_retransmit e) <? t_current e)
  && check_poll_after_pdu_assembly (e <| t_poll_retransmit_start := 0 |> <| force_poll := true |>)
  && match wait_list e with [] => true | _ => false end.

Lemma retransmit_head_ok l e n :
  am_tx_inv e → wait_list e = l →
  ∃ e', retransmit_head e l n = Ok e' ∧ am_tx_inv e' ∧ rx_view e' = rx_view e ∧
    max_retx_threshold e' = max_retx_threshold e.
Proof.
  revert e. induction l as [| s l IH]; intros e Hi Hl; simpl; [by exists e |].
  pose proof Hi as [H1 H2 H3 H4 H5 H6 H7 H8 H9 H10]. rewrite Hl in *.
  rewrite (seg_sn_ok _ e _ s H4) by by left. cbn [mbind res_bind]. destruct (_ =? _); [| by exists e].
  pose proof (end_ok_tail s l (wait_end e) H10) as Hend.
  set (e1 := match l with [] => _ | _ => _ end).
  assert (He1 : tx_view e1 = tx_view (e <| wait_list := l |> <| wait_end := match l with [] => None | _ => wait_end e end |>) ∧
    rx_view e1 = rx_view e ∧ max_retx_threshold e1 = max_retx_threshold e) by (unfold e1; by destruct l).
  clearbody e1. destruct He1 as (Ht1 & Hr1 & Hm1).
  set (e2 := e1 <| common ::= _ |>).
  apply Forall_cons in H5 as [Hs Hw]. inversion_clear H7 as [| ? ? Hsw _].
  assert (Hview : mem (common e2) = mem (common e) ∧ txw_of e2 = txw_of e ∧ retransmit_list e2 = retransmit_list e ∧ wait_list e2 = l).
  { unfold tx_view in Ht1. simpl in Ht1. injection Ht1 as V1 V2 V3 V4 V5 V6 V7 V8 V9 V10 V11. unfold txw_of. simpl.
    by rewrite V2, V4, V5, V6, V9, V11. }
  destruct Hview as (Em & Ew & Er & El2).
  assert (Hp2 : pool (txw_of e) (mem (common e)) (s :: retransmit_list e ++ l ++ tx_list e)).
  { eapply pool_perm; [| exact H4]. simpl. constructor. rewrite !app_assoc. apply Permutation_app_tail, Permutation_app_comm. }
  destruct (list_add_ok e2 (retransmit_list e) s (l ++ tx_list e)) as (r & E & Hpr & Hsr); rewrite ?Em, ?Ew; try done.
  change (retransmit_list e1) with (retransmit_list e2). rewrite Er, E. cbn [mbind res_bind].
  destruct (IH (e2 <| retransmit_list := r |>)) as (e' & -> & Hi' & Hr' & Hm').
  - apply (am_tx_frame (e <| wait_list := l |> <| wait_end := match l with [] => None | _ => wait_end e end |>
                          <| retransmit_list := r |>)).
    { unfold tx_view in *. simpl in *. congruence. }
    rewrite Em, Ew in Hsr. constructor; try done; simpl.
    + eapply pool_perm; [| exact H4]. rewrite Hpr. simpl. apply Permutation_middle.
    + rewrite Hpr. by constructor.
  - done.
  - exists e'. split; [done |]. split; [done |]. split; [by rewrite Hr' | by rewrite Hm'].
Qed.

Lemma check_t_poll_ok e :
  am_tx_inv e → poll_null e = false →
  ∃ e', check_t_poll_retransmit e = Ok e' ∧ am_tx_inv e' ∧ rx_view e' = rx_view e.
Proof.
  intros Hi Hn. unfold check_t_poll_retransmit, poll_null in *.
  destruct (t_poll_retransmit_start e =? 0); [by exists e |]. simpl orb. simpl negb in Hn. rewrite andb_true_l in Hn.
  destruct (Z.leb_spec (t_current e) (u64 (t_poll_retransmit_start e + t_poll_retransmit e))); [by exists e |].
  revert Hn. decide_true (u64 (t_poll_retransmit_start e + t_poll_retransmit e) <? t_current e). intros Hn.
  set (e1 := e <| t_poll_retransmit_start := 0 |> <| force_poll := true |>) in *.
  assert (Hi1 : am_tx_inv e1) by by apply (am_tx_frame e).
  destruct (check_poll_after_pdu_assembly e1); [| by exists e1]. simpl negb. cbv iota. simpl in Hn.
  change (wait_list e) with (wait_list e1) in Hn.
  destruct (wait_list e1) as [| s l] eqn:El; [done |].
  destruct (am_tx_upd e1 s (λ u, u <| retx_count ::= Z.succ |>) Hi1) as (u & h & E & Hi2 & Hu & _);
    [rewrite El; by left | done |].
  rewrite E. cbn [mbind res_bind]. unfold get_sdu. rewrite Hu. cbn [deref mbind res_bind].
  destruct (retransmit_head_ok (wait_list (set_mem h e1)) (set_mem h e1) (sdu_sn (u <| retx_count ::= Z.succ |>)) Hi2 eq_refl)
    as (e3 & E3 & Hi3 & Hr3 & _).
  rewrite E3. cbn [mbind res_bind]. eexists. split; [done |].
  destruct (_ <=? _); split; try done; try by rewrite Hr3. by apply (am_tx_frame e3).
Qed.

(** ** Discard, re-establishment *)

Lemma find_sdu_ok h l id : (∀ s, s ∈ l → is_Some (sdus h !! seg_sdu s)) →
  ∃ pre post, find_sdu h l id = Ok (pre, post) ∧ l = pre ++ post.
Proof.
  induction l as [| s l IH]; intros Hlive; simpl; [by exists [], [] |].
  destruct (Hlive s) as [u Hu]; [left |]. unfold get_sdu. rewrite Hu. simpl.
  destruct (Z.eqb_spec (upper_layer_id u) id) as [Hid | Hid]; [by exists [], (s :: l) |].
  destruct IH as (pre & post & -> & ->); [intros; apply Hlive; by right |]. by exists (s :: pre), post.
Qed.

Lemma discard_sdu_ok e id :
  am_tx_inv e → ∃ e', nr_rlc_entity_am_discard_sdu e id = Ok e' ∧ am_tx_inv e' ∧ rx_view e' = rx_view e.
Proof.
  intros Hi. pose proof Hi as [H1 H2 H3 H4 H5 H6 H7 H8 H9 H10]. unfold nr_rlc_entity_am_discard_sdu.
  destruct (find_sdu_ok (mem (common e)) (tx_list e) id) as (pre & post & -> & Hl).
  { intros s Hs. apply (hs_live _ _ (po_safe _ _ _ H4)). rewrite !elem_of_app. tauto. }
  cbn [mbind res_bind]. destruct post as [| cur rest]; [by exists e |].
  destruct (negb _ || negb _); [by exists e |].
  set (e0 := if bool_decide _ then _ else _).
  set (x := if bool_decide (tx_end e = Some (seg_addr cur)) then seg_addr <$> last pre else tx_end e).
  assert (H0 : tx_view e0 = tx_view (e <| tx_list := pre ++ rest |> <| tx_end := x |>) ∧ rx_view e0 = rx_view e)
    by (unfold e0, x; simpl; by destruct (bool_decide _)).
  clearbody e0. destruct H0 as [Ht0 Hr0].
  assert (Hp : pool (txw_of e) (mem (common e)) (cur :: wait_list e ++ retransmit_list e ++ pre ++ rest)).
  { eapply pool_perm; [| exact H4]. rewrite Hl, !app_assoc. symmetry. apply Permutation_middle. }
  assert (Hx : end_ok (pre ++ rest) x).
  { apply end_ok_remove; [by rewrite <- Hl |]. pose proof (hs_nodup _ _ (po_safe _ _ _ H4)) as H. rewrite Hl in H.
    rewrite !map_app in H. apply NoDup_app in H as (_ & _ & H). apply NoDup_app in H as (_ & _ & H). by rewrite map_app. }
  assert (Em : mem (common e0) = mem (common e)) by (unfold tx_view in Ht0; simpl in Ht0; congruence).
  change (mem (common (e0 <| common ::= add_bs_tx (- (compute_pdu_header_size e0 cur + seg_size cur)) |>))) with (mem (common e0)).
  rewrite Em. destruct (pool_live _ _ _ cur Hp) as (u & Hu & _); [by left |]. unfold get_sdu. rewrite Hu. cbn [deref mbind res_bind].
  destruct (pool_free _ _ _ _ Hp) as (b & h' & E & Hp' & Hk).
  change (mem (common (_ <| tx_size ::= _ |>))) with (mem (common e0)). rewrite Em, E. cbn [mbind res_bind].
  eexists. split; [done |]. split; [| exact Hr0].
  apply (am_tx_frame (set_mem h' (e <| tx_list := pre ++ rest |> <| tx_end := x |>))).
  { unfold tx_view in *. simpl in *. congruence. }
  assert (Hlv : ∀ x, x ∈ wait_list e ∨ x ∈ retransmit_list e → is_Some (sdus h' !! seg_sdu x)).
  { intros y Hy. apply (hs_live _ _ (po_safe _ _ _ Hp')). rewrite !elem_of_app. tauto. }
  constructor; try done; simpl; rewrite ?Forall_forall in *.
  - intros y Hy. rewrite (sn_of_kept h' _ y Hk); auto.
  - intros y Hy. rewrite (sn_of_kept h' _ y Hk); auto.
  - eapply sorted_kept; eauto.
  - eapply sorted_kept; eauto.
Qed.

Lemma pool_nil w h : heap_safe h [] → pool w h [].
Proof. intros Hs. constructor; [done | constructor | ..]; intros a; [intros b | intros b |]; intros Ha; inversion Ha. Qed.

(** An entity that holds no segment. *)
Lemma am_tx_init e :
  am_config e → tx_next e = 0 → tx_next_ack e = 0 → tx_list e = [] → wait_list e = [] →
  retransmit_list e = [] → tx_end e = None → wait_end e = None → heap_safe (mem (common e)) [] → am_tx_inv e.
Proof.
  intros Hc E1 E2 E3 E4 E5 E6 E7 Hs. pose proof (am_config_mod e Hc) as Hm.
  constructor; rewrite ?E3, ?E4, ?E5, ?E6, ?E7; try done; try constructor.
  - simpl. lia.
  - simpl. lia.
  - unfold w_pos. simpl. rewrite E1, E2. simpl. lia.
  - apply Hs.
  - constructor.
  - intros a b Ha. inversion Ha.
  - intros a b Ha. inversion Ha.
  - intros s Ha. inversion Ha.
Qed.

Lemma clear_tx_ok e :
  am_tx_inv e → ∃ e', clear_entity e = Ok e' ∧ am_tx_inv e' ∧
    rx_view e' = (nr_rlc_clear_rx_manager (rx e), 0, rx_maxsize e, 0, 0, 0, 0, 0, sn_field_length e,
                  sn_modulus e, window_size e).
Proof.
  intros [H1 H2 H3 H4 H5 H6 H7 H8 H9 H10]. unfold clear_entity. simpl.
  pose proof (am_config_mod e H1) as Hmod.
  assert (Hp : pool (txw_of e) (mem (common e)) (tx_list e ++ wait_list e ++ retransmit_list e ++ [])).
  { eapply pool_perm; [| exact H4]. rewrite app_nil_r, (Permutation_app_comm (tx_list e)), app_assoc. done. }
  destruct (pool_free_list _ _ _ _ Hp) as (h1 & -> & Hp1 & _). cbn [mbind res_bind].
  destruct (pool_free_list _ _ _ _ Hp1) as (h2 & -> & Hp2 & _). cbn [mbind res_bind].
  destruct (pool_free_list _ _ _ _ Hp2) as (h3 & -> & Hp3 & _). cbn [mbind res_bind].
  eexists. split; [done |]. split; [| done].
  apply am_tx_init; try done. apply Hp3.
Qed.

Lemma new_am_tx rxm txm tpr tr tsp pp pb mrt snlen e :
  new_nr_rlc_entity_am rxm txm tpr tr tsp pp pb mrt snlen = Ok e → am_tx_inv e.
Proof.
  unfold new_nr_rlc_entity_am, assert_that. destruct (_ || _) eqn:E; [| done]. intros H. injection H as <-.
  apply orb_true_iff in E. rewrite !Z.eqb_eq in E.
  assert (Hc : am_config (mk_am (init_common NR_RLC_AM) tpr tr tsp pp pb mrt snlen (Z.shiftl 1 snlen)
    (Z.quot (Z.shiftl 1 snlen) 2) 0 0 0 0 false 0 0 0 0 0 false 0 0 0 0 0 0
    (nr_rlc_new_rx_manager (Z.shiftl 1 (snlen - 1))) 0 (rxm * 5) [] None 0 (txm * 5) [] None [])).
  { unfold am_config; simpl. destruct E as [-> | ->]; [left | right]; done. }
  apply am_tx_init; try done. apply heap_empty_exact.
Qed.
