(* ===== verification/RlcAmCtrlInv.v ===== *)
(** * NR RLC AM: a received STATUS PDU keeps the invariant of transmission

    The second pass of [process_control_pdu] moves segments between the wait list and the
    retransmit list and frees the acknowledged ones.  [ctrl_inv] is its loop invariant: whatever
    the NACKs are, the lists it builds stay ordered and the tail pointer exact.  The first pass
    guarantees that the second can read every field. *)

From S2P Require Import Prelude.
From S2P Require Import RlcPdu.
From S2P Require Import RlcEntity.

From S2P Require Import RlcRxManager.
From S2P Require Import RlcAm.
From S2P Require Import RlcAmControl.
From S2P Require Import RlcAmPool.
From S2P Require Import RlcAmStatus.
From S2P Require Import RlcAmTx.
From S2P Require Import RlcAmProps.
From S2P Require Import RlcAmTxInv.

(** The tail pointer as the code will leave it. *)
Definition cs_tail (c : ctrl_t) : option nat :=
  match cs_end c with Some w => w | None => wait_end (cs_e c) end.

(** [e0] is the entity before the pass. *)
Record ctrl_inv (e0 : nr_rlc_entity_am_t) (c : ctrl_t) : Prop := {
  ci_rx : rx_view (cs_e c) = rx_view e0;
  ci_win : txw_of (cs_e c) = txw_of e0;
  ci_tx : tx_list (cs_e c) = tx_list e0;
  ci_txend : tx_end (cs_e c) = tx_end e0;
  ci_pool : pool (txw_of e0) (mem (common (cs_e c)))
              ((cs_pre c ++ cs_rest c) ++ (cs_new c ++ cs_retx c) ++ tx_list e0);
  ci_wait_sent : Forall (λ s, w_sent (txw_of e0) (sn_of (mem (common (cs_e c))) s)) (cs_pre c ++ cs_rest c);
  ci_retx_sent : Forall (λ s, w_sent (txw_of e0) (sn_of (mem (common (cs_e c))) s)) (cs_new c ++ cs_retx c);
  ci_wait : sorted (txw_of e0) (mem (common (cs_e c))) (cs_pre c ++ cs_rest c);
  ci_retx : sorted (txw_of e0) (mem (common (cs_e c))) (cs_new c ++ cs_retx c);
  ci_cross a b : a ∈ cs_new c → b ∈ cur_wait_list c → before (txw_of e0) (mem (common (cs_e c))) a b;
  ci_tail : end_ok (cs_pre c ++ cs_rest c) (cs_tail c);
  ci_end : is_Some (cs_end c) → cs_rest c = [];
  ci_kept : sdu_kept (mem (common (cs_e c))) (mem (common e0))
}.

Section pass.
Context (e0 : nr_rlc_entity_am_t) (Hw : w_ok (txw_of e0)).
Abbreviation W := (txw_of e0).
Abbreviation H c := (mem (common (cs_e c))).

(** The parts of the invariant that only depend on the memory. *)
Lemma ctrl_mem c h' :
  ctrl_inv e0 c → sdu_kept h' (H c) →
  heap_safe h' ((cs_pre c ++ cs_rest c) ++ (cs_new c ++ cs_retx c) ++ tx_list e0) →
  ctrl_inv e0 (c <| cs_e ::= set_mem h' |>).
Proof.
  intros [C1 C2 C3 C4 C5 C6 C7 C8 C9 C10 C11 C12 C13] Hk Hs.
  assert (Hl : ∀ x, x ∈ cs_pre c ++ cs_rest c ∨ x ∈ cs_new c ++ cs_retx c → is_Some (sdus h' !! seg_sdu x)).
  { intros x Hx. apply (hs_live _ _ Hs). rewrite (elem_of_app (cs_pre c ++ cs_rest c)), (elem_of_app (cs_new c ++ cs_retx c)).
    tauto. }
  constructor; try done; simpl; rewrite ?Forall_forall in *.
  - by eapply pool_kept.
  - intros x Hx. rewrite (sn_of_kept h' _ x Hk); auto.
  - intros x Hx. rewrite (sn_of_kept h' _ x Hk); auto.
  - eapply sorted_kept; eauto.
  - eapply sorted_kept; eauto.
  - intros a b Ha Hb. unfold before. rewrite (sn_of_kept h' _ a Hk), (sn_of_kept h' _ b Hk).
    + by apply C10.
    + apply Hl. left. apply elem_of_app. right. unfold cur_wait_list in Hb. simpl in Hb.
      destruct (cs_wait_null c); [inversion Hb | done].
    + apply Hl. right. apply elem_of_app. by left.
  - by trans (H c).
Qed.

(** A change of the entity that the invariant does not see. *)
Lemma ctrl_frame c e' :
  ctrl_inv e0 c → tx_view e' = tx_view (cs_e c) → rx_view e' = rx_view (cs_e c) → ctrl_inv e0 (c <| cs_e := e' |>).
Proof.
  intros [C1 C2 C3 C4 C5 C6 C7 C8 C9 C10 C11 C12 C13] Ht Hr. unfold tx_view in Ht. injection Ht as V1 V2 V3 V4 V5 V6 V7 V8 V9 V10 V11.
  constructor; simpl; rewrite ?V6, ?V7, ?V8; try done.
  - congruence.
  - rewrite <- C2. unfold txw_of. congruence.
  - unfold cs_tail in *. simpl. by rewrite V10.
Qed.

Lemma sorted_remove w h k s l : sorted w h (k ++ s :: l) → sorted w h (k ++ l).
Proof.
  intros Hs. induction k as [| x k IH]; simpl in *; [by inversion Hs |].
  inversion_clear Hs as [| ? ? Hs' Ha]. constructor; [by apply IH |].
  rewrite Forall_app in *. destruct Ha as [? Ha]. split; [done |]. by inversion Ha.
Qed.

(** Taking the segment under the cursor out of the wait list. *)
Lemma unlink_spec c cur rest :
  ctrl_inv e0 c → cs_rest c = cur :: rest →
  ∃ x, unlink_wait c cur rest = mk_ctrl (cs_e c) (cs_pre c) rest (cs_wait_null c) x (cs_retx c) (cs_new c) ∧
    end_ok (cs_pre c ++ rest) (match x with Some w => w | None => wait_end (cs_e c) end) ∧
    (is_Some x → rest = []).
Proof.
  intros Hc Hr. pose proof (ci_tail _ _ Hc) as Ht. rewrite Hr in Ht.
  assert (Hnd : NoDup (map seg_addr (cs_pre c ++ cur :: rest))).
  { pose proof (hs_nodup _ _ (po_safe _ _ _ (ci_pool _ _ Hc))) as Hn. rewrite Hr in Hn.
    rewrite map_app in Hn. by apply NoDup_app in Hn as [? _]. }
  pose proof (end_ok_remove (cs_pre c) cur rest _ Ht Hnd) as He.
  assert (He0 : cs_end c = None).
  { destruct (cs_end c) eqn:E; [| done]. pose proof (ci_end _ _ Hc) as Hx. rewrite E, Hr in Hx.
    by specialize (Hx ltac:(eauto)). }
  unfold unlink_wait, cs_tail in *. rewrite He0 in *.
  exists (if bool_decide (wait_end (cs_e c) = Some (seg_addr cur)) then Some (seg_addr <$> last (cs_pre c)) else None).
  destruct (bool_decide_reflect (wait_end (cs_e c) = Some (seg_addr cur))) as [Eq |].
  2:{ split; [unfold modify_field; simpl; by rewrite He0 |]. split; [done |]. by intros [? ?]. }
  split; [done |]. split; [done |]. intros _. rewrite Eq in Ht. unfold end_ok in Ht.
  destruct rest as [| y rest _] using rev_ind; [done |].
  exfalso. rewrite app_comm_cons, app_assoc, last_snoc in Ht. injection Ht as Ht.
  rewrite map_app in Hnd. apply NoDup_app in Hnd as (_ & _ & Hnd). simpl in Hnd. apply NoDup_cons in Hnd as [Hnd _].
  apply Hnd. rewrite Ht. apply list_elem_of_fmap_2, elem_of_app. right. by left.
Qed.

(** *** The moves of a segment *)

Section moves.
Context (e : nr_rlc_entity_am_t) (pre rest retx new : list nr_rlc_sdu_segment_t) (null : bool).
Context (en x : option (option nat)) (cur : nr_rlc_sdu_segment_t).
Let h := mem (common e).

Lemma sorted_mid_before w hh l1 s l2 : sorted w hh (l1 ++ s :: l2) → Forall (before w hh s) l2.
Proof using. induction l1 as [| y l1 IH]; simpl; intros Hs; inversion_clear Hs; [done | by apply IH]. Qed.

(** From the wait list to the retransmit list: the least segment. *)
Lemma move_to_retx :
  ctrl_inv e0 (mk_ctrl e pre (cur :: rest) false en retx new) →
  end_ok (pre ++ rest) (match x with Some w => w | None => wait_end e end) → (is_Some x → rest = []) →
  match retx with [] => True | r :: _ => before W h cur r end →
  ctrl_inv e0 (mk_ctrl e pre rest false x retx (new ++ [cur])).
Proof using.
  intros [C1 C2 C3 C4 C5 C6 C7 C8 C9 C10 C11 C12 C13] Ht He Hle. unfold cur_wait_list in *; simpl in *.
  pose proof (sorted_mid_before _ _ _ _ _ C8) as Hbr. fold h in Hbr.
  apply Forall_app in C6 as [C6a C6b]. apply Forall_cons in C6b as [C6b C6c].
  constructor; try done; simpl.
  - eapply pool_perm; [| exact C5]. rewrite <- !app_assoc. simpl. apply Permutation_app_head.
    rewrite (app_assoc rest new (cur :: _)), <- Permutation_middle, <- app_assoc. done.
  - apply Forall_app. by split.
  - rewrite <- app_assoc. simpl. apply Forall_app in C7 as [C7a C7b]. apply Forall_app. split; [done |]. by constructor.
  - by eapply sorted_remove.
  - rewrite <- app_assoc. simpl. apply sorted_insert; [done | | done].
    rewrite Forall_forall. intros y Hy. apply C10; [done |]. by left.
  - unfold cur_wait_list. simpl. intros a b [Ha | ->%list_elem_of_singleton]%elem_of_app Hb.
    + apply C10; [done |]. by right.
    + rewrite Forall_forall in Hbr. by apply Hbr.
Qed.

(** The cursor passes the segment. *)
Lemma skip_wait :
  ctrl_inv e0 (mk_ctrl e pre (cur :: rest) false en retx new) →
  ctrl_inv e0 (mk_ctrl e (pre ++ [cur]) rest false en retx new).
Proof using.
  intros [C1 C2 C3 C4 C5 C6 C7 C8 C9 C10 C11 C12 C13]. unfold cur_wait_list, cs_tail in *; simpl in *.
  assert (E : (pre ++ [cur]) ++ rest = pre ++ cur :: rest) by by rewrite <- app_assoc.
  constructor; unfold cur_wait_list, cs_tail; simpl; rewrite ?E; try done.
  - intros a b Ha Hb. apply C10; [done |]. by right.
  - intros H. by specialize (C12 H).
Qed.

Lemma end_wait :
  ctrl_inv e0 (mk_ctrl e pre rest null en retx new) → ctrl_inv e0 (mk_ctrl e pre rest true en retx new).
Proof using.
  intros [C1 C2 C3 C4 C5 C6 C7 C8 C9 C10 C11 C12 C13]. constructor; try done.
  unfold cur_wait_list; simpl. intros a b _ Hb. inversion Hb.
Qed.

(** A segment stays in the retransmit list. *)
Lemma keep_retx :
  ctrl_inv e0 (mk_ctrl e pre rest null en (cur :: retx) new) →
  (null = false → match rest with [] => True | y :: _ => before W h cur y end) →
  ctrl_inv e0 (mk_ctrl e pre rest null en retx (new ++ [cur])).
Proof using.
  intros [C1 C2 C3 C4 C5 C6 C7 C8 C9 C10 C11 C12 C13] Hle. unfold cur_wait_list in *; simpl in *.
  assert (E : (new ++ [cur]) ++ retx = new ++ cur :: retx) by by rewrite <- app_assoc.
  constructor; simpl; rewrite ?E; try done.
  unfold cur_wait_list. simpl. destruct null; [intros a b _ Hb; inversion Hb |]. specialize (Hle eq_refl).
  intros a b [Ha | ->%list_elem_of_singleton]%elem_of_app Hb; [by apply C10 |].
  destruct rest as [| y rest']; [inversion Hb |]. apply elem_of_cons in Hb as [-> | Hb]; [done |].
  trans y; [done |]. pose proof (sorted_mid_before _ _ _ _ _ C8) as Hbr. rewrite Forall_forall in Hbr. by apply Hbr.
Qed.

(** The rest of the retransmit list is dropped. *)
Lemma drop_retx :
  ctrl_inv e0 (mk_ctrl e pre rest null en retx new) → ctrl_inv e0 (mk_ctrl e pre rest null en [] new).
Proof using.
  intros [C1 C2 C3 C4 C5 C6 C7 C8 C9 C10 C11 C12 C13]. simpl in *. constructor; simpl; rewrite ?app_nil_r; try done.
  - apply (pool_sub _ _ _ retx). eapply pool_perm; [| exact C5].
    generalize (pre ++ rest). intros P. rewrite (Permutation_app_comm new retx), <- (app_assoc retx new), (app_assoc P retx).
    by rewrite (Permutation_app_comm P retx), <- (app_assoc retx P).
  - by apply Forall_app in C7 as [? _].
  - clear -C9. induction new as [| y l IH]; simpl in *; [constructor |]. inversion_clear C9 as [| ? ? Hs Ha].
    constructor; [by apply IH |]. by apply Forall_app in Ha as [? _].
Qed.

(** A segment is acknowledged. *)
Lemma free_wait :
  ctrl_inv e0 (mk_ctrl e pre (cur :: rest) null en retx new) →
  end_ok (pre ++ rest) (match x with Some w => w | None => wait_end e end) → (is_Some x → rest = []) →
  ∃ e', free_acked e cur = Ok e' ∧ ctrl_inv e0 (mk_ctrl e' pre rest null x retx new).
Proof using.
  intros [C1 C2 C3 C4 C5 C6 C7 C8 C9 C10 C11 C12 C13] Ht He. unfold cur_wait_list in *; simpl in *.
  assert (Hp : pool W h (cur :: (pre ++ rest) ++ (new ++ retx) ++ tx_list e0)).
  { eapply pool_perm; [| exact C5]. by rewrite <- Permutation_middle. }
  assert (Hc1 : ctrl_inv e0 (mk_ctrl e pre rest null x retx new)).
  { constructor; try done; simpl.
    - by apply (pool_sub _ _ _ [cur]).
    - apply Forall_app in C6 as [? C6]. apply Forall_cons in C6 as [_ ?]. by apply Forall_app.
    - by eapply sorted_remove.
    - unfold cur_wait_list; simpl. destruct null; [done |]. intros a b Ha Hb. apply C10; [done | by right]. }
  unfold free_acked. destruct (get_sdu_live W e _ cur Hp) as (u & -> & _); [by left |]. cbn [mbind res_bind].
  destruct (pool_free _ _ _ _ Hp) as (b & h' & E & Hp' & Hk). fold h. rewrite E. cbn [mbind res_bind].
  pose proof (ctrl_mem _ h' Hc1 Hk (po_safe _ _ _ Hp')) as Hc2. eexists. split; [done |].
  destruct b; [| exact Hc2]. by eapply (ctrl_frame (mk_ctrl (set_mem h' e) pre rest null x retx new)).
Qed.

Lemma free_retx :
  ctrl_inv e0 (mk_ctrl e pre rest null en (cur :: retx) new) →
  ∃ e', free_acked e cur = Ok e' ∧ ctrl_inv e0 (mk_ctrl e' pre rest null en retx new).
Proof using.
  intros [C1 C2 C3 C4 C5 C6 C7 C8 C9 C10 C11 C12 C13]. simpl in *.
  assert (Hp : pool W h (cur :: (pre ++ rest) ++ (new ++ retx) ++ tx_list e0)).
  { eapply pool_perm; [| exact C5]. rewrite <- (Permutation_middle new retx). simpl. symmetry. apply Permutation_middle. }
  assert (Hc1 : ctrl_inv e0 (mk_ctrl e pre rest null en retx new)).
  { constructor; try done; simpl.
    - by apply (pool_sub _ _ _ [cur]).
    - apply Forall_app in C7 as [? C7]. apply Forall_cons in C7 as [_ ?]. by apply Forall_app.
    - by eapply sorted_remove. }
  unfold free_acked. destruct (get_sdu_live W e _ cur Hp) as (u & -> & _); [by left |]. cbn [mbind res_bind].
  destruct (pool_free _ _ _ _ Hp) as (b & h' & E & Hp' & Hk). fold h. rewrite E. cbn [mbind res_bind].
  pose proof (ctrl_mem _ h' Hc1 Hk (po_safe _ _ _ Hp')) as Hc2. eexists. split; [done |].
  destruct b; [| exact Hc2]. by eapply (ctrl_frame (mk_ctrl (set_mem h' e) pre rest null en retx new)).
Qed.
End moves.

(** *** One round *)

Definition rounds (c : ctrl_t) : nat :=
  length (cur_wait_list c) + (if cs_wait_null c then 0 else 1) + length (cs_retx c).

Ltac rounds_lia := unfold rounds, cur_wait_list; simpl; lia.

(** A round returns, keeps the invariant, and comes back only with fewer segments to see. *)
Definition round_ok (c : ctrl_t) (r : res (jump * ctrl_t)) : Prop :=
  ∃ j c', r = Ok (j, c') ∧ ctrl_inv e0 c' ∧ (j = next_pdu → (rounds c' < rounds c)%nat).

Lemma wait_head_ok c cur rest ack nsn so1 so2 :
  ctrl_inv e0 c → cs_rest c = cur :: rest → cs_wait_null c = false →
  match cs_retx c with [] => True | r :: _ => before W (H c) cur r end →
  round_ok c (process_wait_list_head c cur rest ack nsn so1 so2).
Proof using.
  intros Hc Hr Hn Hle. unfold process_wait_list_head, round_ok.
  destruct (unlink_spec c cur rest Hc Hr) as (x & Eu & Ht & He).
  destruct c as [e pre rest0 null en retx new]. simpl in *. subst.
  pose proof (ci_pool _ _ Hc) as Hp. simpl in Hp.
  assert (Hin : cur ∈ (pre ++ cur :: rest) ++ (new ++ retx) ++ tx_list e0) by (apply elem_of_app; left; apply elem_of_app; right; by left).
  rewrite (seg_sn_ok W e _ cur Hp Hin). cbn [mbind res_bind].
  destruct (_ && so_overlap _ _ _ _).
  - rewrite Eu. pose proof (move_to_retx e pre rest retx new en x cur Hc Ht He Hle) as Hc1.
    destruct (pool_live _ _ _ cur Hp Hin) as (u & Hu & _).
    destruct (pool_upd W (mem (common e)) _ cur (λ u, u <| retx_count ::= Z.succ |>) (ci_pool _ _ Hc1)) as (u' & h' & E & Hp' & Hk & _ & Hu').
    { simpl. rewrite !elem_of_app. right; left; left; right. by left. }
    { done. }
    cbn [cs_e]. rewrite E. cbn [mbind res_bind]. unfold get_sdu. rewrite Hu'. cbn [deref mbind res_bind].
    pose proof (ctrl_mem _ h' Hc1 Hk (po_safe _ _ _ Hp')) as Hc2.
    eexists next_pdu, _. split; [done |]. split; [| intros _; rounds_lia].
    eapply (ctrl_frame (mk_ctrl (set_mem h' e) pre rest false x retx (new ++ [cur]))); [exact Hc2 | |]; simpl;
      by destruct (_ <=? _).
  - destruct (_ || _); [by eexists _, _ |]. destruct (_ <? 0).
    + rewrite Eu. destruct (free_wait e pre rest retx new false en x cur Hc Ht He) as (e' & -> & Hc').
      cbn [mbind res_bind]. eexists _, _. split; [done |]. split; [exact Hc' |].
      intros _. rounds_lia.
    + destruct (0 <? _).
      * eexists _, _. split; [done |]. split; [by apply (end_wait e pre (cur :: rest) retx new false en) |].
        intros _. rounds_lia.
      * eexists _, _. split; [done |]. split; [by apply (skip_wait e pre rest retx new en cur) |].
        intros _. rounds_lia.
Qed.

Lemma retx_head_ok c cur rest ack nsn so1 so2 :
  ctrl_inv e0 c → cs_retx c = cur :: rest →
  match cur_wait_list c with [] => True | y :: _ => before W (H c) cur y end →
  round_ok c (process_retransmit_list_head c cur rest ack nsn so1 so2).
Proof using.
  intros Hc Hr Hle. unfold process_retransmit_list_head, round_ok.
  destruct c as [e pre rest0 null en retx new]. unfold cur_wait_list in *. simpl in *. subst.
  pose proof (ci_pool _ _ Hc) as Hp. simpl in Hp.
  assert (Hin : cur ∈ (pre ++ rest0) ++ (new ++ cur :: rest) ++ tx_list e0)
    by (apply elem_of_app; right; apply elem_of_app; left; apply elem_of_app; right; by left).
  rewrite (seg_sn_ok W e _ cur Hp Hin). cbn [mbind res_bind].
  assert (Hkeep : ctrl_inv e0 (mk_ctrl e pre rest0 null en rest (new ++ [cur]))).
  { apply (keep_retx e pre rest0 rest new null en cur Hc). by intros ->. }
  assert (Hkr : (rounds (mk_ctrl e pre rest0 null en rest (new ++ [cur])) <
                 rounds (mk_ctrl e pre rest0 null en (cur :: rest) new))%nat) by rounds_lia.
  destruct (_ && so_overlap _ _ _ _); [eexists _, _; by split |].
  destruct (_ || _); [by eexists _, _ |]. destruct (_ <? 0).
  - set (e1 := e <| common ::= _ |>).
    assert (Hc1 : ctrl_inv e0 (mk_ctrl e1 pre rest0 null en (cur :: rest) new)) by by apply (ctrl_frame _ e1 Hc).
    destruct (free_retx e1 pre rest0 rest new null en cur Hc1) as (e' & -> & Hc').
    cbn [mbind res_bind]. eexists _, _. split; [done |]. split; [exact Hc' |].
    intros _. rounds_lia.
  - destruct (if null then [] else rest0) as [| y l].
    + eexists _, _. split; [done |]. split; [| done]. by apply (drop_retx e pre rest0 (cur :: rest) new null en).
    + eexists _, _. by split.
Qed.

Lemma next_round_ok c ack nsn so1 so2 : ctrl_inv e0 c → round_ok c (process_next_pdu c ack nsn so1 so2).
Proof using Hw.
  intros Hc. unfold process_next_pdu.
  destruct (cur_wait_list c) as [| w wl] eqn:Ew, (cs_retx c) as [| r rl] eqn:Er.
  - by eexists _, _.
  - apply retx_head_ok; [done | done | by rewrite Ew].
  - unfold cur_wait_list in Ew. destruct (cs_wait_null c) eqn:En; [done |].
    apply wait_head_ok; [done | done | done | by rewrite Er].
  - assert (Hr : cs_rest c = w :: wl ∧ cs_wait_null c = false)
      by (unfold cur_wait_list in Ew; by destruct (cs_wait_null c)).
    destruct Hr as [Hr Hn]. pose proof (ci_pool _ _ Hc) as Hp. rewrite Hr, Er in Hp.
    assert (Hwin : w ∈ (cs_pre c ++ w :: wl) ++ (cs_new c ++ r :: rl) ++ tx_list e0)
      by (apply elem_of_app; left; apply elem_of_app; right; by left).
    assert (Hrin : r ∈ (cs_pre c ++ w :: wl) ++ (cs_new c ++ r :: rl) ++ tx_list e0)
      by (apply elem_of_app; right; apply elem_of_app; left; apply elem_of_app; right; by left).
    rewrite (seg_sn_ok W (cs_e c) _ w Hp Hwin), (seg_sn_ok W (cs_e c) _ r Hp Hrin). cbn [mbind res_bind].
    rewrite sn_compare_pos, (ci_win _ _ Hc).
    set (d := w_pos W (sn_of (H c) w) - w_pos W (sn_of (H c) r)).
    assert (Hdec : (d <? 0) || ((d =? 0) && (seg_so w <? seg_so r)) = true ↔ before W (H c) w r)
      by (unfold before, d; rewrite orb_true_iff, andb_true_iff, !Z.ltb_lt, Z.eqb_eq; lia).
    destruct ((d <? 0) || _).
    + apply wait_head_ok; [done | done | done | rewrite Er; by apply Hdec].
    + apply retx_head_ok; [done | done | rewrite Ew].
      pose proof (ci_wait_sent _ _ Hc) as Hws. pose proof (ci_retx_sent _ _ Hc) as Hrs. rewrite Hr in Hws. rewrite Er in Hrs.
      rewrite Forall_forall in Hws, Hrs.
      apply (pool_total W (H c) _ w r Hw Hp Hwin Hrin).
      * pose proof (hs_nodup _ _ (po_safe _ _ _ Hp)) as Hnd. rewrite map_app in Hnd. apply NoDup_app in Hnd as (_ & Hnd & _).
        intros E. apply (Hnd (seg_addr w)); [apply list_elem_of_fmap_2, elem_of_app; right; by left |].
        rewrite E. apply list_elem_of_fmap_2, elem_of_app. left. apply elem_of_app. right. by left.
      * apply Hws, elem_of_app. right. by left.
      * apply Hrs, elem_of_app. right. by left.
      * intros Hb. apply Hdec in Hb. done.
Qed.

(** *** The loops *)

Lemma process_nack_ok fuel c ack nsn so1 so2 :
  ctrl_inv e0 c → (rounds c < fuel)%nat →
  ∃ j c', process_nack fuel c ack nsn so1 so2 = Ok (j, c') ∧ ctrl_inv e0 c'.
Proof using Hw.
  revert c. induction fuel as [| fuel IH]; intros c Hc Hf; [lia |]. simpl.
  destruct (next_round_ok c ack nsn so1 so2 Hc) as (j & c' & -> & Hc' & Hlt). cbn [mbind res_bind].
  destruct j; [| by eexists _, _..]. apply IH; [done |]. specialize (Hlt eq_refl). lia.
Qed.

Lemma rounds_bound c : (rounds c < ctrl_rounds c)%nat.
Proof using. unfold rounds, ctrl_rounds, cur_wait_list. destruct (cs_wait_null c); simpl; lia. Qed.

Lemma process_range_ok todo i c ack nk :
  ctrl_inv e0 c → ∃ c', process_range todo i c ack nk = Ok c' ∧ ctrl_inv e0 c'.
Proof using Hw.
  revert i c. induction todo as [| todo IH]; intros i c Hc; cbn [process_range]; [by exists c |].
  match goal with |- context [process_nack ?f c ?a ?n ?s ?t] =>
    destruct (process_nack_ok f c a n s t Hc (rounds_bound c)) as (j & c' & -> & Hc') end.
  cbn [mbind res_bind]. destruct j; try (by apply IH). by exists c'.
Qed.

Lemma stop_poll_ok c nk : ctrl_inv e0 c → ctrl_inv e0 (stop_poll_on_nack c nk).
Proof using. intros Hc. unfold stop_poll_on_nack. destruct (_ && _); [| done]. by apply ctrl_frame. Qed.

Lemma ack_wait_ok l c ack :
  ctrl_inv e0 c → l = cs_rest c → ∃ c', ack_wait_list c l ack = Ok c' ∧ ctrl_inv e0 c' ∧ cs_retx c' = cs_retx c.
Proof using.
  revert c. induction l as [| cur rest IH]; intros c Hc Hl; cbn [ack_wait_list]; [by exists c |].
  destruct (unlink_spec c cur rest Hc (eq_sym Hl)) as (x & Eu & Ht & He).
  pose proof (ci_pool _ _ Hc) as Hp. rewrite <- Hl in Hp.
  rewrite (seg_sn_ok W (cs_e c) _ cur Hp) by (apply elem_of_app; left; apply elem_of_app; right; by left).
  cbn [mbind res_bind]. destruct (_ <? 0); [| by exists c].
  rewrite Eu. destruct c as [e pre rest0 null en retx new]. simpl in *. subst rest0.
  destruct (free_wait e pre rest retx new null en x cur Hc Ht He) as (e' & -> & Hc'). cbn [mbind res_bind].
  by apply (IH (mk_ctrl e' pre rest null x retx new)).
Qed.

Lemma ack_retx_ok l c ack :
  ctrl_inv e0 c → l = cs_retx c → ∃ c', ack_retransmit_list c l ack = Ok c' ∧ ctrl_inv e0 c'.
Proof using.
  revert c. induction l as [| cur rest IH]; intros c Hc Hl; simpl; [by exists c |].
  pose proof (ci_pool _ _ Hc) as Hp. rewrite <- Hl in Hp.
  rewrite (seg_sn_ok W (cs_e c) _ cur Hp)
    by (apply elem_of_app; right; apply elem_of_app; left; apply elem_of_app; right; by left).
  cbn [mbind res_bind]. destruct (_ <? 0); [| by exists c].
  destruct c as [e pre rest0 null en retx new]. simpl in *. subst retx.
  set (e1 := e <| common ::= _ |>).
  assert (Hc1 : ctrl_inv e0 (mk_ctrl e1 pre rest0 null en (cur :: rest) new)) by by apply (ctrl_frame _ e1 Hc).
  destruct (free_retx e1 pre rest0 rest new null en cur Hc1) as (e' & -> & Hc'). cbn [mbind res_bind].
  by apply (IH (mk_ctrl e' pre rest0 null en rest new)).
Qed.
End pass.

(** ** The two passes read the same fields *)

Lemma read_bits_both {A} (err : res A) d n k :
  dec_wf d → 0 <= n <= 31 →
  read_bits err d n k = err ∨
  ∃ v d', read_bits err d n k = k v d' ∧ nr_rlc_pdu_decoder_get_bits d n = Ok (v, d') ∧ dec_wf d' ∧
    d_size d' = d_size d ∧ dec_pos d' = dec_pos d + n ∧ dec_bits d' = drop (Z.to_nat n) (dec_bits d) ∧
    v = value_of (take (Z.to_nat n) (dec_bits d)) ∧ 0 <= v < 2 ^ n.
Proof.
  intros Hwf Hn. unfold read_bits. pose proof (get_bits_spec d n Hwf Hn) as Hg.
  destruct (Nat.leb_spec (Z.to_nat n) (length (dec_bits d))) as [Hle |].
  - destruct Hg as (d' & -> & Hwf' & Hbits & Hp & Hb & Hs). right. simpl.
    rewrite (proj1 Hwf'). eexists _, d'. split; [done |]. split_and!; try done; [apply value_of_bound |].
    eapply Z.lt_le_trans; [apply value_of_bound |]. apply Z.pow_le_mono_r; [lia |].
    unfold zlen. rewrite length_take. lia.
  - destruct Hg as (d' & -> & He). left. simpl. by rewrite He.
Qed.

(** One field: the error branch closes the goal on the left, a value goes on. *)
Ltac read_field H :=
  match goal with |- context [read_bits ?err ?d ?n ?k] =>
    let v := fresh "v" in let d' := fresh "d" in let E := fresh "E" in let G := fresh "G" in
    let Hw := fresh "Hw" in let Hs := fresh "Hs" in let Hp := fresh "Hp" in let Hr := fresh "Hr" in
    destruct (read_bits_both err d n k H ltac:(lia)) as [E | (v & d' & E & G & Hw & Hs & Hp & _ & _ & Hr)];
    rewrite E; [by left | rewrite G; cbn [mbind res_bind]; clear E G] end.

Lemma am_config_len e : am_config e →
  (sn_field_length e = 12 ∧ nack_r_bits e = 1 ∧ ack_r_bits e = 7 ∧ sn_modulus e = 2 ^ 12) ∨
  (sn_field_length e = 18 ∧ nack_r_bits e = 3 ∧ ack_r_bits e = 1 ∧ sn_modulus e = 2 ^ 18).
Proof. unfold nack_r_bits, ack_r_bits. intros [(-> & -> & _) | (-> & -> & _)]; [left | right]; done. Qed.

Lemma read_nack_both {A} e (err : res A) d k :
  am_config e → dec_wf d →
  read_nack e err d k = err ∨
  ∃ nk e1 d', read_nack e err d k = k nk e1 d' ∧ get_nack e d = Ok (nk, e1, d') ∧ dec_wf d' ∧
    d_size d' = d_size d ∧ dec_pos d + 16 <= dec_pos d'.
Proof.
  intros Hc Hd. unfold read_nack, get_nack.
  destruct (am_config_len e Hc) as [(El & En & _) | (El & En & _)]; rewrite El, En.
  all: read_field Hd; read_field Hw; read_field Hw0; read_field Hw1; read_field Hw2.
  all: destruct (negb (v1 =? 0)); [read_field Hw3; read_field Hw4 |]; cbn [mbind res_bind].
  all: destruct (negb (v2 =? 0)); [match goal with H : dec_wf ?d |- context [read_bits _ ?d 8 _] => read_field H end |];
    cbn [mbind res_bind].
  all: right; eexists _, _, _; split; [done |]; split; [done |]; split; [done |]; split; [congruence | lia].
Qed.

Lemma get_nack_len e e' d : sn_field_length e' = sn_field_length e → get_nack e' d = get_nack e d.
Proof. intros E. unfold get_nack, nack_r_bits. by rewrite E. Qed.

(** The first pass ends; when it accepts, the second one reads the same NACKs and ends too. *)
Lemma nacks_ok e0 fuel e ack e1 d :
  w_ok (txw_of e0) → am_config e → dec_wf d → 8 * d_size d - dec_pos d < 8 * Z.of_nat fuel →
  ∃ b, validate_nacks fuel e ack e1 d = Ok b ∧
    (b = true → ∀ c, ctrl_inv e0 c → sn_field_length e0 = sn_field_length e →
       ∃ c', process_nacks fuel c ack e1 d = Ok c' ∧ ctrl_inv e0 c').
Proof.
  intros Hw Hc. revert e1 d. induction fuel as [| fuel IH]; intros e1 d Hd Hf; simpl.
  { unfold dec_wf, dec_pos in *. destruct Hd as (_ & ? & ? & Hend & _). exfalso.
    destruct (Z.eq_dec (d_byte d) (d_size d)); lia. }
  destruct (e1 =? 0); [exists true; split; [done |]; intros _ c Hi _; by exists c |].
  match goal with |- context [read_nack e ?err d ?k] =>
    destruct (read_nack_both e err d k Hc Hd) as [-> | (nk & e1' & d' & -> & G & Hd' & Hs & Hp)]; [by exists false |] end.
  destruct (validate_range _ _ _ _ _ _ _); [| by exists false].
  destruct (IH e1' d' Hd') as (b & -> & Hb); [rewrite Hs; lia |].
  exists b. split; [done |]. intros Htrue c Hi Hlen.
  assert (Hl : sn_field_length (cs_e c) = sn_field_length e).
  { pose proof (ci_rx _ _ Hi) as E. unfold rx_view in E. congruence. }
  rewrite (get_nack_len e (cs_e c) d Hl), G. cbn [mbind res_bind].
  destruct (process_range_ok e0 Hw (Z.to_nat (nack_range nk)) 0 c ack nk Hi) as (c1 & -> & Hi1). cbn [mbind res_bind].
  apply (Hb Htrue); [by apply stop_poll_ok | done].
Qed.

(** ** The new [tx_next_ack] *)

Lemma sorted_head_least w h s l x : sorted w h (s :: l) → x ∈ s :: l → w_pos w (sn_of h s) <= w_pos w (sn_of h x).
Proof.
  intros Hs Hx. apply elem_of_cons in Hx as [-> | Hx]; [done |]. inversion_clear Hs as [| ? ? _ Ha].
  rewrite Forall_forall in Ha. destruct (Ha x Hx) as [? | [? _]]; lia.
Qed.

Lemma update_ack_ok e ack :
  am_tx_inv e → 0 <= ack < sn_modulus e → w_pos (txw_of e) ack <= w_pos (txw_of e) (tx_next e) →
  (∀ s, s ∈ tx_list e → sn_of (mem (common e)) s = -1 ∨
        w_pos (txw_of e) ack <= w_pos (txw_of e) (sn_of (mem (common e)) s)) →
  ∃ e', update_tx_next_ack e ack = Ok e' ∧ am_tx_inv e' ∧ rx_view e' = rx_view e.
Proof.
  intros Hi Hack Hle Htx. pose proof Hi as [H1 H2 H3 H4 H5 H6 H7 H8 H9 H10].
  set (w := txw_of e) in *. set (h := mem (common e)) in *.
  set (lower := λ a b, if sn_compare_tx e a b <? 0 then a else b).
  assert (Hlow : ∀ a b, 0 <= a < sn_modulus e → 0 <= b < sn_modulus e →
    0 <= lower a b < sn_modulus e ∧ w_pos w (lower a b) = Z.min (w_pos w a) (w_pos w b)).
  { intros a b Ha Hb. unfold lower. rewrite sn_compare_pos. fold w.
    destruct (Z.ltb_spec (w_pos w a - w_pos w b) 0); split; done || lia. }
  (* the least SN of a list, or [n] *)
  assert (Hhead : ∀ l n, (∀ s, s ∈ l → s ∈ wait_list e ++ retransmit_list e ++ tx_list e) →
    Forall (λ s, w_sent w (sn_of h s)) l → sorted w h l → 0 <= n < sn_modulus e →
    ∃ t, (match l with s :: _ => m ← seg_sn e s; Ok (lower m n) | [] => Ok n end) = Ok t ∧
      0 <= t < sn_modulus e ∧ w_pos w t <= w_pos w n ∧ ∀ s, s ∈ l → w_pos w t <= w_pos w (sn_of h s)).
  { intros l n Hsub Hsent Hsort Hn. destruct l as [| s l].
    { exists n. split_and!; try done; try lia. intros s Hs. inversion Hs. }
    rewrite (seg_sn_ok w e _ s H4) by (apply Hsub; by left). fold h. cbn [mbind res_bind].
    apply Forall_cons in Hsent as [[Hs _] _]. destruct (Hlow (sn_of h s) n Hs Hn) as [Hr Hm].
    eexists. split; [done |]. split; [done |]. split; [lia |]. intros x Hx.
    pose proof (sorted_head_least w h s l x Hsort Hx). lia. }
  change (update_tx_next_ack e ack) with
    (t ← (match wait_list e with s :: _ => m ← seg_sn e s; Ok (lower m (tx_next e)) | [] => Ok (tx_next e) end);
     t ← (match retransmit_list e with s :: _ => m ← seg_sn e s; Ok (lower m t) | [] => Ok t end);
     Ok (e <| tx_next_ack := lower ack t |>)).
  destruct (Hhead (wait_list e) (tx_next e)) as (t1 & E1 & R1 & L1 & A1);
    [intros s Hs; apply elem_of_app; by left | done | done | apply H2 |].
  rewrite E1. cbn [mbind res_bind].
  destruct (Hhead (retransmit_list e) t1) as (t2 & E2 & R2 & L2 & A2);
    [intros s Hs; rewrite !elem_of_app; tauto | done | done | done |].
  rewrite E2. cbn [mbind res_bind]. clear E1 E2 Hhead.
  destruct (Hlow ack t2 Hack R2) as [RA LA]. set (A := lower ack t2) in *.
  destruct (pool_move w h (wait_list e ++ retransmit_list e ++ tx_list e) A H2 RA) as (Hw' & Hp' & Hn' & Hs');
    [change (w_next w) with (tx_next e); lia | | done |].
  { intros s Hs. rewrite !elem_of_app in Hs. destruct Hs as [Hs | [Hs | Hs]].
    - right. specialize (A1 s Hs). lia.
    - right. specialize (A2 s Hs). lia.
    - destruct (Htx s Hs) as [? | ?]; [by left | right; lia]. }
  assert (Hsent : ∀ l, (∀ s, s ∈ l → w_pos w A <= w_pos w (sn_of h s)) → Forall (λ s, w_sent w (sn_of h s)) l →
    Forall (λ s, w_sent (mk_txw (w_mod w) A (w_next w)) (sn_of h s)) l ∧ ∀ s, s ∈ l → sn_of h s ≠ -1).
  { intros l Hl Hf. rewrite !Forall_forall in *. split.
    - intros s Hs. destruct (Hf s Hs) as [Hr Hlt]. split; [done |]. change (w_next (mk_txw (w_mod w) A (w_next w))) with (w_next w).
      rewrite Hn'.
      rewrite w_pos_move by auto. lia.
    - intros s Hs. destruct (Hf s Hs) as [Hr _]. lia. }
  destruct (Hsent (wait_list e)) as [Sw Nw]; [intros s Hs; specialize (A1 s Hs); lia | done |].
  destruct (Hsent (retransmit_list e)) as [Sr Nr]; [intros s Hs; specialize (A2 s Hs); lia | done |].
  eexists. split; [done |]. split; [| done]. constructor; try done.
  - change (w_pos (mk_txw (w_mod w) A (w_next w)) (w_next w) <= window_size e). rewrite Hn'.
    pose proof (w_pos_range w A H2 RA). simpl in *. lia.
  - apply Hs'; [| done]. intros s Hs. split; [apply elem_of_app; by left | by apply Nw].
  - apply Hs'; [| done]. intros s Hs. split; [rewrite !elem_of_app; tauto | by apply Nr].
Qed.

(** ** The whole PDU *)

(** The ACK_SN field of a STATUS PDU, as the receiver reads it. *)
Definition status_ack_sn (e : nr_rlc_entity_am_t) (buffer : bytes) : Z :=
  value_of (take (Z.to_nat (sn_field_length e)) (drop 4 (buf_bits buffer))).

(** The peer acknowledges no SDU of which a part is still waiting for its first transmission. *)
Definition ack_after_sent (e : nr_rlc_entity_am_t) (buffer : bytes) : Prop :=
  ∀ s, s ∈ tx_list e → sn_of (mem (common e)) s ≠ -1 →
    sn_compare_tx e (status_ack_sn e buffer) (sn_of (mem (common e)) s) <= 0.

Lemma store_lists_inv e c :
  am_tx_inv e → ctrl_inv e c → am_tx_inv (store_lists c) ∧ rx_view (store_lists c) = rx_view e ∧
    txw_of (store_lists c) = txw_of e ∧ tx_list (store_lists c) = tx_list e ∧
    mem (common (store_lists c)) = mem (common (cs_e c)).
Proof.
  intros Hi [C1 C2 C3 C4 C5 C6 C7 C8 C9 C10 C11 C12 C13].
  assert (Hv : txw_of (store_lists c) = txw_of (cs_e c) ∧ rx_view (store_lists c) = rx_view (cs_e c) ∧
    common (store_lists c) = common (cs_e c) ∧ tx_list (store_lists c) = tx_list (cs_e c) ∧
    tx_end (store_lists c) = tx_end (cs_e c) ∧ wait_list (store_lists c) = cs_pre c ++ cs_rest c ∧
    retransmit_list (store_lists c) = cs_new c ++ cs_retx c ∧ wait_end (store_lists c) = cs_tail c)
    by (unfold store_lists, cs_tail; by destruct (cs_end c)).
  destruct Hv as (V1 & V2 & V3 & V4 & V5 & V6 & V7 & V8).
  split; [| split_and!; [by rewrite V2 | by rewrite V1 | by rewrite V4 | by rewrite V3]].
  rewrite C1 in V2. unfold rx_view in V2. injection V2 as _ _ _ _ _ _ _ _ V9 V10 V11.
  assert (En : tx_next (store_lists c) = tx_next e).
  { assert (E : w_next (txw_of (store_lists c)) = w_next (txw_of e)) by (rewrite V1, C2; done). exact E. }
  constructor; rewrite ?V1, ?V3, ?V4, ?V5, ?V6, ?V7, ?V8, ?V11, ?En, ?C2, ?C3, ?C4; try done; try apply Hi.
  destruct Hi as [Hc _ _ _ _ _ _ _ _ _]. unfold am_config in *. by rewrite V9, V10, V11.
Qed.

(** "nacks done, finish with ack". *)
Lemma finish_ok e c ack :
  am_tx_inv e → ctrl_inv e c → 0 <= ack < sn_modulus e → w_pos (txw_of e) ack <= w_pos (txw_of e) (tx_next e) →
  (∀ s, s ∈ tx_list e → sn_of (mem (common e)) s ≠ -1 →
     w_pos (txw_of e) ack <= w_pos (txw_of e) (sn_of (mem (common e)) s)) →
  ∃ e', (c ← ack_wait_list c (cur_wait_list c) ack; c ← ack_retransmit_list c (cs_retx c) ack;
         update_tx_next_ack (store_lists c) ack) = Ok e' ∧ am_tx_inv e' ∧ rx_view e' = rx_view e.
Proof.
  intros Hi Hc Hack Hle Hpolite.
  assert (Hwait : ∃ c1, ack_wait_list c (cur_wait_list c) ack = Ok c1 ∧ ctrl_inv e c1).
  { unfold cur_wait_list. destruct (cs_wait_null c); [by exists c |].
    destruct (ack_wait_ok e (cs_rest c) c ack Hc eq_refl) as (c1 & -> & Hc1 & _). by exists c1. }
  destruct Hwait as (c1 & -> & Hc1). cbn [mbind res_bind].
  destruct (ack_retx_ok e (cs_retx c1) c1 ack Hc1 eq_refl) as (c2 & -> & Hc2). cbn [mbind res_bind].
  destruct (store_lists_inv e c2 Hi Hc2) as (Hi2 & Hr2 & Hw2 & Ht2 & Hm2).
  assert (Emod : sn_modulus (store_lists c2) = sn_modulus e) by (change (w_mod (txw_of (store_lists c2)) = w_mod (txw_of e)); by rewrite Hw2).
  assert (Enext : tx_next (store_lists c2) = tx_next e) by (change (w_next (txw_of (store_lists c2)) = w_next (txw_of e)); by rewrite Hw2).
  destruct (update_ack_ok (store_lists c2) ack Hi2) as (e' & -> & Hi' & Hr').
  - by rewrite Emod.
  - by rewrite Hw2, Enext.
  - rewrite Hw2, Ht2, Hm2. intros s Hs. destruct (Z.eq_dec (sn_of (mem (common (cs_e c2))) s) (-1)) as [| Hne]; [by left | right].
    assert (E : sn_of (mem (common (cs_e c2))) s = sn_of (mem (common e)) s).
    { apply sn_of_kept; [apply Hc2 |]. apply (hs_live _ _ (po_safe _ _ _ (ci_pool _ _ Hc2))).
      rewrite !elem_of_app. tauto. }
    rewrite E in *. by apply Hpolite.
  - exists e'. split; [done |]. split; [done |]. by rewrite Hr'.
Qed.

Lemma ctrl_start e : am_tx_inv e → ctrl_inv e (mk_ctrl e [] (wait_list e) false None (retransmit_list e) []).
Proof.
  intros [H1 H2 H3 H4 H5 H6 H7 H8 H9 H10]. constructor; try done; simpl.
  - intros x y Hx. inversion Hx.
  - by intros [? ?].
Qed.

(** The first pass reads any PDU to a verdict; the second one is then safe. *)
Lemma process_control_pdu_ok e buffer :
  am_tx_inv e → ack_after_sent e buffer →
  ∃ e', process_control_pdu e buffer = Ok e' ∧ am_tx_inv e' ∧ rx_view e' = rx_view e.
Proof.
  intros Hi Hpolite. pose proof (at_cfg e Hi) as Hc.
  assert (Hlen : 0 <= sn_field_length e <= 31 ∧ 0 <= ack_r_bits e <= 31 ∧ sn_modulus e = 2 ^ sn_field_length e).
  { destruct (am_config_len e Hc) as [(-> & _ & -> & ->) | (-> & _ & -> & ->)]; lia. }
  destruct Hlen as (Hl1 & Hl2 & Hm).
  assert (Hrej : ∃ e', Ok e = Ok e' ∧ am_tx_inv e' ∧ rx_view e' = rx_view e) by by exists e.
  unfold process_control_pdu, validate_control_pdu, process_valid_control_pdu.
  pose proof (dec_wf_init buffer) as Hd0. set (d0 := nr_rlc_pdu_decoder_init buffer (zlen buffer)) in *.
  match goal with |- context [read_bits ?err d0 1 ?k] =>
    destruct (read_bits_both err d0 1 k Hd0 ltac:(lia)) as [-> | (dc & d1 & -> & -> & Hd1 & Hs1 & Hp1 & Hb1 & _ & _)]; [exact Hrej |] end.
  match goal with |- context [read_bits ?err d1 3 ?k] =>
    destruct (read_bits_both err d1 3 k Hd1 ltac:(lia)) as [-> | (cpt & d2 & -> & G2 & Hd2 & Hs2 & Hp2 & Hb2 & _ & _)]; [exact Hrej |] end.
  cbn [mbind res_bind]. rewrite G2. cbn [mbind res_bind].
  destruct (negb (cpt =? 0)); [exact Hrej |].
  match goal with |- context [read_bits ?err d2 (sn_field_length e) ?k] =>
    destruct (read_bits_both err d2 (sn_field_length e) k Hd2 Hl1) as [-> | (ack & d3 & -> & G3 & Hd3 & Hs3 & Hp3 & Hb3 & Hack & Rack)]; [exact Hrej |] end.
  rewrite G3. cbn [mbind res_bind].
  match goal with |- context [read_bits ?err d3 1 ?k] =>
    destruct (read_bits_both err d3 1 k Hd3 ltac:(lia)) as [-> | (e1 & d4 & -> & G4 & Hd4 & Hs4 & Hp4 & _)]; [exact Hrej |] end.
  rewrite G4. cbn [mbind res_bind].
  match goal with |- context [read_bits ?err d4 _ ?k] =>
    destruct (read_bits_both err d4 (ack_r_bits e) k Hd4 Hl2) as [-> | (rb & d5 & -> & G5 & Hd5 & Hs5 & Hp5 & _)]; [exact Hrej |] end.
  rewrite G5. cbn [mbind res_bind].
  assert (Eack : ack = status_ack_sn e buffer).
  { rewrite Hack, Hb2, Hb1. unfold status_ack_sn, d0. by rewrite dec_bits_init, drop_drop. }
  destruct (Z.ltb_spec 0 (sn_compare_tx e ack (tx_next e))) as [| Hle]; [exact Hrej |].
  set (ep := if sn_compare_tx e (poll_sn e) ack <? 0 then _ else e).
  assert (Hep : tx_view ep = tx_view e ∧ rx_view ep = rx_view e) by (unfold ep; by destruct (_ <? 0)).
  destruct (nacks_ok ep (S (length buffer)) e ack e1 d5) as (b & -> & Hb).
  { replace (txw_of ep) with (txw_of e) by (unfold ep; by destruct (_ <? 0)). apply Hi. }
  { done. } { done. }
  { rewrite Hs5, Hs4, Hs3, Hs2, Hs1. change (d_size d0) with (zlen buffer). unfold zlen.
    pose proof Hd5 as (_ & ? & ? & _). unfold dec_pos. lia. }
  cbn [mbind res_bind]. destruct b; [| exact Hrej].
  assert (Hip : am_tx_inv ep) by (apply (am_tx_frame e); [apply Hep | done]).
  destruct (Hb eq_refl (mk_ctrl ep [] (wait_list ep) false None (retransmit_list ep) [])) as (c1 & E & Hc1).
  { by apply ctrl_start. } { unfold ep. by destruct (_ <? 0). }
  replace (wait_list e) with (wait_list ep) by (unfold ep; by destruct (_ <? 0)).
  replace (retransmit_list e) with (retransmit_list ep) by (unfold ep; by destruct (_ <? 0)).
  rewrite E. cbn [mbind res_bind]. clear E Hb.
  assert (Ew : txw_of ep = txw_of e ∧ mem (common ep) = mem (common e) ∧ tx_list ep = tx_list e ∧
    tx_next ep = tx_next e ∧ sn_modulus ep = sn_modulus e) by (unfold ep; by destruct (_ <? 0)).
  destruct Ew as (Ew & Eh & Et & En & Emod). destruct Hep as [_ Hrx]. rewrite <- Hrx.
  apply finish_ok; [done | done | by rewrite Emod, Hm | rewrite Ew, En; rewrite sn_compare_pos in Hle; lia |].
  rewrite Ew, Eh, Et. intros s Hs Hne. specialize (Hpolite s Hs Hne). rewrite <- Eack, sn_compare_pos in Hpolite. lia.
Qed.
