(* ===== verification/RlcAmRxInv.v ===== *)
(** * NR RLC AM: the invariant of reception

    The circular buffer seen as a function from positions in the reception window to lists of
    segments ([content]), and the state variables of TS 38.322 as positions.  [am_rx_inv] is kept
    by the reception of any data PDU and by the reassembly timer, whose loops end; a STATUS PDU
    can always be generated. *)

From S2P Require Import Prelude.
From S2P Require Import RlcPdu.
From S2P Require Import RlcEntity.

From S2P Require Import RlcRxManager.
From S2P Require Import RlcAm.
From S2P Require Import RlcAmControl.
From S2P Require Import RlcAmPool.
From S2P Require Import RlcAmStatus.
From S2P Require Import RlcAmTx.
From S2P Require Import RlcAmProps.
From S2P Require Import RlcAmTxInv.

(** ** The window as a function of positions *)

Definition content_of (m : nr_rlc_rx_manager_t) (i : Z) : list nr_rlc_pdu_t :=
  default [] (znth (m_rx_list m) ((m_start m + i) mod m_size m)).

(** The segments of one SDU, at position [i]: parsed from received PDUs, all with their bytes
    until the SDU is delivered; a delivered SDU starts with a segment without bytes. *)
Definition seg_here (off : Z → Z) (M i : Z) (p : nr_rlc_pdu_t) : Prop :=
  0 <= pdu_sn p < M ∧ off (pdu_sn p) = i ∧ 0 <= pdu_so p.
Definition seg_whole (p : nr_rlc_pdu_t) : Prop :=
  ∃ d, pdu_data p = Some d ∧ zlen d = pdu_size p ∧ 0 < pdu_size p.
Definition list_here (off : Z → Z) (M i : Z) (l : list nr_rlc_pdu_t) : Prop :=
  Forall (seg_here off M i) l ∧
  (Forall seg_whole l ∨ ∃ p l', l = p :: l' ∧ pdu_data p = None ∧ pdu_so p = 0).

(** [hn], [hs]: positions of [rx_next_highest] and [rx_highest_status]. *)
Record win_pre (W M : Z) (off : Z → Z) (c : Z → list nr_rlc_pdu_t) (hn : Z) : Prop := {
  wp_lists i : 0 <= i < W → list_here off M i (c i);
  wp_hn : 0 <= hn <= W;
  wp_above i : hn <= i < W → c i = [];
  wp_top : 0 < hn → c (hn - 1) ≠ []
}.

Abbreviation content e := (content_of (rx e)).

(** The buffer starts at [rx_next]. *)
Record am_rx_base (e : nr_rlc_entity_am_t) : Prop := {
  ab_cfg : am_config e;
  ab_wf : rxm_wf (rx e);
  ab_size : m_size (rx e) = window_size e;
  ab_start : m_sn_start (rx e) = rx_next e;
  ab_next : 0 <= rx_next e < sn_modulus e
}.

(** Its lists are well formed, and empty from [rx_next_highest] on. *)
Record am_rx_pre (e : nr_rlc_entity_am_t) : Prop := {
  ap_base : am_rx_base e;
  ap_highest : 0 <= rx_highest_status e < sn_modulus e;
  ap_high : 0 <= rx_next_highest e < sn_modulus e;
  ap_trigger : 0 <= rx_next_status_trigger e < sn_modulus e;
  ap_win : win_pre (window_size e) (sn_modulus e) (modulus_rx e) (content e) (modulus_rx e (rx_next_highest e))
}.

(** The SDUs of [rx_next] and [rx_highest_status] are not delivered, and [rx_highest_status] is
    at most [rx_next_highest]. *)
Record am_rx_core (e : nr_rlc_entity_am_t) : Prop := {
  ar_pre : am_rx_pre e;
  ar_first : processed (content e 0) = false;
  ar_hs : modulus_rx e (rx_highest_status e) <= modulus_rx e (rx_next_highest e);
  ar_hs_first : processed (content e (modulus_rx e (rx_highest_status e))) = false
}.

Record am_rx_inv (e : nr_rlc_entity_am_t) : Prop := {
  ai_core : am_rx_core e;
  ai_timer : t_reassembly_start e ≠ 0 → 0 < modulus_rx e (rx_next_status_trigger e) <= modulus_rx e (rx_next_highest e)
}.

Lemma am_rx_base_frame e e' : rx_view e' = rx_view e → am_rx_base e → am_rx_base e'.
Proof.
  unfold rx_view. intros [= E1 E2 E3 E4 E5 E6 E7 E8 E9 E10 E11] [H1 H2 H3 H4 H5].
  constructor; rewrite ?E1, ?E4, ?E10, ?E11; try done. unfold am_config in *. by rewrite E9, E10, E11.
Qed.

Lemma am_rx_frame e e' : rx_view e' = rx_view e → am_rx_inv e → am_rx_inv e'.
Proof.
  intros Hv [[[H1 H2 H3 H4 H5] H6 H7 H8] H9]. pose proof (am_rx_base_frame e e' Hv H1) as Hb.
  unfold rx_view in Hv. injection Hv as E1 E2 E3 E4 E5 E6 E7 E8 E9 E10 E11.
  assert (Em : modulus_rx e' = modulus_rx e) by (unfold modulus_rx; by rewrite E4, E10).
  constructor; [constructor; [constructor |..] |];
    rewrite ?E1, ?E5, ?E6, ?E7, ?E8, ?E10, ?E11, ?Em; done.
Qed.

Section base.
Context (e : nr_rlc_entity_am_t) (He : am_rx_base e).

Lemma base_sizes : 0 < window_size e ∧ sn_modulus e = 2 * window_size e ∧ sn_modulus e = 2 * m_size (rx e).
Proof using He. pose proof (am_config_mod e (ab_cfg e He)). rewrite (ab_size e He). lia. Qed.

Lemma off_range n : 0 <= n < sn_modulus e → 0 <= modulus_rx e n < sn_modulus e.
Proof using He. intros Hn. pose proof (ab_next e He). unfold modulus_rx. bool_prop; lia. Qed.

Lemma off_inj a b : 0 <= a < sn_modulus e → 0 <= b < sn_modulus e → modulus_rx e a = modulus_rx e b → a = b.
Proof using He. intros Ha Hb. pose proof (ab_next e He). unfold modulus_rx. bool_prop; lia. Qed.

Lemma off_next n : 0 <= n < sn_modulus e → modulus_rx e n + 1 < sn_modulus e →
  0 <= Z.rem (n + 1) (sn_modulus e) < sn_modulus e ∧ modulus_rx e (Z.rem (n + 1) (sn_modulus e)) = modulus_rx e n + 1.
Proof using He.
  intros Hn. pose proof (ab_next e He). pose proof base_sizes. rewrite rem_wrap by lia. unfold modulus_rx.
  bool_prop; lia.
Qed.

Lemma off_zero n : 0 <= n < sn_modulus e → modulus_rx e n = 0 → n = rx_next e.
Proof using He. intros Hn E. pose proof (ab_next e He). unfold modulus_rx in E. revert E. bool_prop; lia. Qed.

(** Reading the buffer. *)
Lemma get_content n : 0 <= n < sn_modulus e →
  nr_rlc_rx_manager_get_pdu_from_sn (rx e) n = Ok (content e (modulus_rx e n)).
Proof using He.
  intros Hn. pose proof base_sizes as (_ & _ & Hm). unfold nr_rlc_rx_manager_get_pdu_from_sn, content_of.
  rewrite get_pos_off by (apply (ab_wf e He) || lia).
  replace (rxm_off (rx e) n) with (modulus_rx e n).
  2:{ unfold rxm_off, modulus_rx. by rewrite (ab_start e He), <- Hm. }
  destruct (znth_is_Some (m_rx_list (rx e)) ((m_start (rx e) + modulus_rx e n) mod m_size (rx e))) as [l ->]; [| done].
  rewrite (rw_len _ (ab_wf e He)). apply Z.mod_pos_bound. apply (rw_size _ (ab_wf e He)).
Qed.

Lemma delivered_content n : 0 <= n < sn_modulus e → sdu_delivered e n = Ok (processed (content e (modulus_rx e n))).
Proof using He. intros Hn. unfold sdu_delivered. by rewrite get_content. Qed.

(** The buffer is circular. *)
Lemma content_wrap i : content e (i + window_size e) = content e i.
Proof using He.
  unfold content_of. rewrite <- (ab_size e He), Z.add_assoc. do 2 f_equal.
  rewrite <- (Z.mul_1_l (m_size (rx e))) at 1. by rewrite Z_mod_plus_full.
Qed.

(** Replacing a list. *)
Lemma set_content n l : 0 <= n < sn_modulus e → modulus_rx e n < window_size e →
  ∃ m, set_slot (rx e) n l = Ok m ∧ rxm_wf m ∧ m_size m = m_size (rx e) ∧ m_start m = m_start (rx e) ∧
    m_sn_start m = m_sn_start (rx e) ∧
    ∀ i, 0 <= i <= window_size e → content_of m i =
      if (i =? modulus_rx e n) || ((i =? window_size e) && (modulus_rx e n =? 0)) then l else content e i.
Proof using He.
  intros Hn Hw. pose proof base_sizes as (H0 & _ & Hm). pose proof (off_range n Hn) as Ho.
  destruct (set_slot_ok (rx e) n l (ab_wf e He)) as (m & E & Hwf & Hs & Hst & Hsn & Hl); [lia |].
  exists m. split_and!; try done. intros i Hi. unfold content_of. rewrite Hl, Hs, Hst.
  rewrite get_pos_off by (apply (ab_wf e He) || lia).
  replace (rxm_off (rx e) n) with (modulus_rx e n).
  2:{ unfold rxm_off, modulus_rx. by rewrite (ab_start e He), <- Hm. }
  rewrite (ab_size e He). pose proof (rw_len _ (ab_wf e He)) as Hlen. pose proof (rw_start _ (ab_wf e He)) as Hstart.
  rewrite (ab_size e He) in Hlen, Hstart.
  set (a := (m_start (rx e) + i) mod window_size e). set (b := (m_start (rx e) + modulus_rx e n) mod window_size e).
  assert (Ha : 0 <= a < window_size e) by (apply Z.mod_pos_bound; lia).
  assert (Hb : 0 <= b < window_size e) by (apply Z.mod_pos_bound; lia).
  assert (Heq : a = b ↔ (i =? modulus_rx e n) || ((i =? window_size e) && (modulus_rx e n =? 0)) = true).
  { unfold a, b. rewrite orb_true_iff, andb_true_iff, !Z.eqb_eq. clear Ha Hb a b. split.
    - intros E'. destruct (Z.eq_dec i (window_size e)) as [-> | Hne].
      + right. rewrite <- Z.add_mod_idemp_r, Z.mod_same, Z.add_0_r in E' by lia.
        rewrite !mod_wrap in E' by lia. revert E'. bool_prop; lia.
      + left. rewrite !mod_wrap in E' by lia. revert E'. bool_prop; lia.
    - intros [-> | [-> ->]]; [done |]. rewrite <- Z.add_mod_idemp_r, Z.mod_same by lia. done. }
  rewrite !znth_lookup by lia. destruct (_ || _) eqn:Ec.
  - replace a with b by (symmetry; by apply Heq). rewrite list_lookup_insert_eq; [done |]. unfold zlen in Hlen. lia.
  - rewrite list_lookup_insert_ne; [done |]. intros E'. assert (a = b) by lia. apply Heq in H. congruence.
Qed.
End base.

(** ** Storing a segment *)

Lemma processed_whole l : Forall seg_whole l → processed l = false.
Proof. intros H. destruct H as [| p l (d & Hd & _) _]; [done |]. simpl. rewrite Hd. by rewrite bool_decide_true. Qed.

Lemma insert_here off M i l p :
  list_here off M i l → seg_here off M i p → seg_whole p →
  list_here off M i (insert_by_so l p) ∧ processed (insert_by_so l p) = processed l ∧ insert_by_so l p ≠ [].
Proof.
  intros [Hh Hl] Hp Hw. pose proof (insert_by_so_perm l p) as Hperm.
  assert (Hne : insert_by_so l p ≠ []).
  { intros E. rewrite E in Hperm. by apply Permutation_nil_l in Hperm. }
  assert (Hh' : Forall (seg_here off M i) (insert_by_so l p)) by (rewrite Hperm; by constructor).
  destruct Hl as [Hl | (q & l' & -> & Hd & Hso)].
  - assert (Hw' : Forall seg_whole (insert_by_so l p)) by (rewrite Hperm; by constructor).
    split_and!; [split; [done | by left] | | done]. by rewrite !processed_whole.
  - assert (E : insert_by_so (q :: l') p = q :: insert_by_so l' p).
    { simpl. destruct Hp as (_ & _ & ?). by decide_false (pdu_so p <? pdu_so q). }
    rewrite E in *. split_and!; [split; [done |] | done | done]. right. by eexists _, _.
Qed.

Lemma add_pdu_slot m p l : nr_rlc_rx_manager_get_pdu_from_sn m (pdu_sn p) = Ok l →
  nr_rlc_rx_manager_add_pdu m p = set_slot m (pdu_sn p) (insert_by_so l p).
Proof. unfold nr_rlc_rx_manager_add_pdu, set_slot, nr_rlc_rx_manager_get_pdu_from_sn. by intros ->. Qed.

Lemma base_rx e m :
  am_rx_base e → rxm_wf m → m_size m = m_size (rx e) → m_sn_start m = m_sn_start (rx e) → am_rx_base (e <| rx := m |>).
Proof. intros [H1 H2 H3 H4 H5] Hw Hs Hn. constructor; try done; simpl; congruence. Qed.

(** The move of [rx_next_highest] when SN [n] is received. *)
Definition new_highest (e : nr_rlc_entity_am_t) (n : Z) : Z :=
  if 0 <=? sn_compare_rx e n (rx_next_highest e) then Z.rem (n + 1) (sn_modulus e) else rx_next_highest e.

Lemma store_ok e p :
  am_rx_core e → 0 <= pdu_sn p < sn_modulus e → modulus_rx e (pdu_sn p) < window_size e → 0 <= pdu_so p → seg_whole p →
  ∃ m, nr_rlc_rx_manager_add_pdu (rx e) p = Ok m ∧
    am_rx_core (e <| rx := m |> <| rx_next_highest := new_highest e (pdu_sn p) |>) ∧
    modulus_rx e (rx_next_highest e) <= modulus_rx e (new_highest e (pdu_sn p)) ∧
    ∀ i, 0 <= i <= window_size e → processed (content_of m i) = processed (content e i).
Proof.
  intros [[Hb H2 H3 H4 [P1 P2 P3 P4]] H6 H7 H8] Hn Hx Hso Hw.
  pose proof (base_sizes e Hb) as (S1 & S2 & _). pose proof (off_range e Hb _ Hn) as Hx0.
  set (x := modulus_rx e (pdu_sn p)) in *.
  destruct (insert_here _ _ _ _ p (P1 x ltac:(lia))) as (I1 & I2 & I3); [done | done |].
  destruct (set_content e Hb (pdu_sn p) (insert_by_so (content e x) p) Hn Hx) as (m & E & Hwf & Es & Est & Esn & Hc).
  fold x in Hc. exists m. split; [rewrite (add_pdu_slot _ _ (content e x)); [done | by apply get_content] |].
  pose proof (base_rx e m Hb Hwf Es Esn) as Hb'.
  assert (Hproc : ∀ i, 0 <= i <= window_size e → processed (content_of m i) = processed (content e i)).
  { intros i Hi. rewrite Hc by done. destruct (Z.eqb_spec i x) as [-> |]; [done |]. simpl.
    destruct (Z.eqb_spec i (window_size e)) as [-> |]; [simpl | done].
    destruct (Z.eqb_spec x 0) as [E0 |]; [| done].
    pose proof (content_wrap e Hb 0) as Hwr. rewrite Z.add_0_l, <- E0 in Hwr. by rewrite I2, Hwr. }
  destruct (off_next e Hb _ Hn) as [Hnr Hno]; [fold x; lia |]. fold x in Hno.
  assert (Hnh : 0 <= new_highest e (pdu_sn p) < sn_modulus e ∧
    modulus_rx e (new_highest e (pdu_sn p)) = if modulus_rx e (rx_next_highest e) <=? x then x + 1 else modulus_rx e (rx_next_highest e)).
  { unfold new_highest, sn_compare_rx. fold x.
    destruct (Z.leb_spec 0 (x - modulus_rx e (rx_next_highest e))), (Z.leb_spec (modulus_rx e (rx_next_highest e)) x); done || lia. }
  destruct Hnh as [Hnh1 Hnh2].
  set (e' := e <| rx := m |> <| rx_next_highest := new_highest e (pdu_sn p) |>).
  assert (Hlow : ∀ i, 0 <= i < window_size e → content_of m i = if i =? x then insert_by_so (content e x) p else content e i).
  { intros i Hi. rewrite Hc by lia. destruct (i =? x); [done |]. simpl. by decide_false (i =? window_size e). }
  assert (Hle : modulus_rx e (rx_next_highest e) <= modulus_rx e (new_highest e (pdu_sn p)))
    by (rewrite Hnh2; destruct (Z.leb_spec (modulus_rx e (rx_next_highest e)) x); lia).
  split; [| split; [exact Hle | exact Hproc]]. constructor; [constructor; try done | | |].
  - by destruct Hb'.
  - change (modulus_rx e' (rx_next_highest e')) with (modulus_rx e (new_highest e (pdu_sn p))). rewrite Hnh2.
    constructor; change (window_size e') with (window_size e); change (content e') with (content_of m).
    + intros i Hi. rewrite Hlow by done. destruct (Z.eqb_spec i x) as [-> |]; [done | by apply P1].
    + destruct (Z.leb_spec (modulus_rx e (rx_next_highest e)) x); lia.
    + intros i Hi. destruct (Z.leb_spec (modulus_rx e (rx_next_highest e)) x); rewrite Hlow by lia;
        (decide_false (i =? x); apply P3; lia).
    + intros Hpos. destruct (Z.leb_spec (modulus_rx e (rx_next_highest e)) x).
      * rewrite Hlow by lia. by decide_true (x + 1 - 1 =? x).
      * rewrite Hlow by lia. destruct (Z.eqb_spec (modulus_rx e (rx_next_highest e) - 1) x); [done | by apply P4].
  - change (processed (content_of m 0) = false). by rewrite Hproc by lia.
  - change (modulus_rx e (rx_highest_status e) <= modulus_rx e (new_highest e (pdu_sn p))). lia.
  - change (processed (content_of m (modulus_rx e (rx_highest_status e))) = false).
    pose proof (off_range e Hb _ H2). by rewrite Hproc by lia.
Qed.

(** ** The loops over delivered SDUs *)

(** [while (sdu_delivered(entity, sn)) ...] stops at the first undelivered SDU. *)
Lemma skip_ok e fuel n i :
  am_rx_base e → 0 <= n < sn_modulus e → modulus_rx e n + Z.of_nat i <= window_size e → (i < fuel)%nat →
  processed (content e (modulus_rx e n + Z.of_nat i)) = false →
  ∃ m, skip_delivered fuel e n = Ok m ∧ 0 <= m < sn_modulus e ∧
    modulus_rx e n <= modulus_rx e m <= modulus_rx e n + Z.of_nat i ∧ processed (content e (modulus_rx e m)) = false ∧
    (m = n ∨ processed (content e (modulus_rx e m - 1)) = true).
Proof.
  intros Hb. pose proof (base_sizes e Hb) as (S1 & S2 & _).
  revert fuel n. induction i as [| i IH]; intros [| fuel] n Hn Hle Hf Hp; try lia; cbn [skip_delivered];
    rewrite (delivered_content e Hb n Hn); cbn [mbind res_bind].
  - rewrite Z.add_0_r in Hp. rewrite Hp. exists n. split_and!; try done; lia.
  - destruct (processed (content e (modulus_rx e n))) eqn:E; [| exists n; split_and!; try done; lia].
    destruct (off_next e Hb n Hn) as [Hr Ho]; [lia |].
    destruct (IH fuel (Z.rem (n + 1) (sn_modulus e)) Hr) as (m & Em & Hm & Hb2 & Hpm & Hlast); try lia.
    { rewrite Ho. by replace (modulus_rx e n + 1 + Z.of_nat i) with (modulus_rx e n + Z.of_nat (S i)) by lia. }
    exists m. split; [exact Em |]. split; [done |]. split; [lia |]. split; [done |]. right.
    destruct Hlast as [-> | Hlast]; [| done]. rewrite Ho. by replace (modulus_rx e n + 1 - 1) with (modulus_rx e n) by lia.
Qed.

Lemma first_undelivered_ok e n i :
  am_rx_base e → 0 <= n < sn_modulus e → modulus_rx e n <= i <= window_size e → processed (content e i) = false →
  ∃ m, first_not_delivered e n = Ok m ∧ 0 <= m < sn_modulus e ∧
    modulus_rx e n <= modulus_rx e m <= window_size e ∧ processed (content e (modulus_rx e m)) = false ∧
    (m = n ∨ modulus_rx e n < modulus_rx e m ∧ processed (content e (modulus_rx e m - 1)) = true).
Proof.
  intros Hb Hn Hi Hp. pose proof (base_sizes e Hb) as (S1 & S2 & _). pose proof (off_range e Hb n Hn) as Ho.
  destruct (skip_ok e (Z.to_nat (sn_modulus e)) n (Z.to_nat (i - modulus_rx e n)) Hb Hn) as (m & E & Hm & Hr & Hpm & Hlast); try lia.
  { by replace (modulus_rx e n + Z.of_nat (Z.to_nat (i - modulus_rx e n))) with i by lia. }
  exists m. split; [done |]. split; [done |]. split; [lia |]. split; [done |].
  destruct Hlast as [| Hlast]; [by left |]. destruct (Z.eq_dec (modulus_rx e m) (modulus_rx e n)) as [Eo |].
  - left. by apply (off_inj e Hb).
  - right. split; [lia | done].
Qed.

(** [free_delivered] empties the lists of the delivered SDUs at the start of the window. *)
Lemma free_delivered_ok e fuel m n k :
  am_rx_base (e <| rx := m |>) → 0 <= n < sn_modulus e → modulus_rx e n = k → k <= window_size e →
  (∀ i, 0 <= i < k → content_of m i = []) → window_size e - k < Z.of_nat fuel →
  ∃ m' n' k', free_delivered fuel (sn_modulus e) m n (k : Z) = Ok (m', n', k') ∧
    am_rx_base (e <| rx := m' |>) ∧ m_start m' = m_start m ∧ k <= k' <= window_size e ∧
    0 <= n' < sn_modulus e ∧ modulus_rx e n' = k' ∧ processed (content_of m' k') = false ∧
    (∀ i, 0 <= i < window_size e → content_of m' i = if i <? k' then [] else content_of m i) ∧
    (∀ i, k <= i < k' → processed (content_of m i) = true).
Proof.
  revert m n k. induction fuel as [| fuel IH]; intros m n k Hb Hn Hk Hkw Hempty Hf; [lia |].
  pose proof (base_sizes _ Hb) as (S1 & S2 & _). simpl in S1, S2. cbn [free_delivered].
  pose proof (get_content _ Hb n Hn) as Hg. simpl in Hg.
  change (modulus_rx (e <| rx := m |>) n) with (modulus_rx e n) in Hg. rewrite Hk in Hg. rewrite Hg. cbn [mbind res_bind].
  pose proof (off_range _ Hb n Hn) as Ho. change (modulus_rx (e <| rx := m |>) n) with (modulus_rx e n) in Ho. rewrite Hk in Ho.
  destruct (processed (content_of m k)) eqn:Ep.
  2:{ exists m, n, k. split_and!; try done; try lia. intros i Hi. destruct (Z.ltb_spec i k); [| done]. apply Hempty. lia. }
  assert (Hkw' : k < window_size e).
  { destruct (Z.eq_dec k (window_size e)) as [E |]; [| lia]. exfalso.
    pose proof (content_wrap _ Hb 0) as Hwr. simpl in Hwr. rewrite Z.add_0_l in Hwr.
    rewrite E, Hwr, Hempty in Ep by lia. done. }
  destruct (set_content _ Hb n [] Hn) as (m1 & E1 & Hwf & Es & Est & Esn & Hc);
    [change (modulus_rx e n < window_size e); lia |].
  change (modulus_rx (e <| rx := m |>) n) with (modulus_rx e n) in Hc. change (window_size (e <| rx := m |>)) with (window_size e) in Hc.
  change (rx (e <| rx := m |>)) with m in *. rewrite Hk in Hc.
  change (nr_rlc_rx_manager_clear_pdu m n) with (set_slot m n []). rewrite E1. cbn [mbind res_bind].
  assert (Hb1 : am_rx_base (e <| rx := m1 |>)) by exact (base_rx (e <| rx := m |>) m1 Hb Hwf Es Esn).
  destruct (off_next _ Hb n Hn) as [Hr Hno]; [change (modulus_rx e n + 1 < sn_modulus e); lia |].
  change (modulus_rx (e <| rx := m |>) ?x) with (modulus_rx e x) in Hno. change (sn_modulus (e <| rx := m |>)) with (sn_modulus e) in *.
  rewrite Hk in Hno.
  assert (Hc1 : ∀ i, 0 <= i < window_size e → content_of m1 i = if i =? k then [] else content_of m i).
  { intros i Hi. rewrite Hc by lia. destruct (i =? k); [done |]. simpl. by decide_false (i =? window_size e). }
  destruct (IH m1 (Z.rem (n + 1) (sn_modulus e)) (k + 1) Hb1 Hr Hno) as (m' & n' & k' & E & Hb' & Hst' & Hk' & Hn' & Hoff & Hp' & Hcont & Hall); [lia | | lia |].
  { intros i Hi. rewrite Hc1 by lia. destruct (Z.eqb_spec i k); [done |]. apply Hempty. lia. }
  exists m', n', k'. rewrite E. split_and!; try done; try lia.
  - intros i Hi. rewrite Hcont by done. destruct (Z.ltb_spec i k'); [done |]. rewrite Hc1 by done. by decide_false (i =? k).
  - intros i Hi. destruct (Z.eq_dec i k) as [-> | Hne]; [done |]. rewrite <- (Hall i) by lia. rewrite Hc1 by lia.
    by decide_false (i =? k).
Qed.

(** ** Delivery *)

Definition no_data (p : nr_rlc_pdu_t) : nr_rlc_pdu_t := p <| pdu_data := None |>.

Lemma am_reassemble_ok l so bad acc rs :
  Forall seg_whole l →
  ∃ so' bad' acc' rs', reassemble_loop l so bad acc rs = Ok (map no_data l, so', bad', acc', rs').
Proof.
  intros Hl. revert so bad acc rs. induction Hl as [| p l (d & Hd & Hz & Hs) Hl IH]; intros so bad acc rs; simpl;
    [by eexists _, _, _, _ |].
  set (b1 := if (so <? pdu_so p) && negb bad then true else bad).
  set (b2 := if (NR_SDU_MAX <? _) && negb b1 then true else b1).
  assert (Hstep : ∃ so1 acc1, (if negb b2 && (0 <? pdu_size p - (so - pdu_so p))
      then d ← deref (pdu_data p); s ← deref (slice d (so - pdu_so p) (pdu_size p - (so - pdu_so p)));
           Ok (so + (pdu_size p - (so - pdu_so p)), acc ++ s)
      else Ok (so, acc)) = Ok (so1, acc1)).
  { destruct (negb b2) eqn:Eb; [| by eexists _, _]. simpl.
    destruct (Z.ltb_spec 0 (pdu_size p - (so - pdu_so p))); [| by eexists _, _].
    rewrite Hd. cbn [deref mbind res_bind]. rewrite slice_Some; [by eexists _, _ | | lia | lia].
    destruct (Z.ltb_spec so (pdu_so p)) as [Hlt |]; [| lia]. exfalso. unfold b2, b1 in Eb.
    destruct bad; simpl in Eb; by rewrite ?andb_false_r in Eb. }
  destruct Hstep as (so1 & acc1 & ->). cbn [mbind res_bind].
  destruct (IH so1 b2 acc1 (rs - pdu_size p)) as (so' & bad' & acc' & rs' & ->). by eexists _, _, _, _.
Qed.

Lemma sdu_full_first l : sdu_full_loop (-1) l = true → ∃ p l', l = p :: l' ∧ pdu_so p <= 0.
Proof. destruct l as [| p l]; [done |]. cbn [sdu_full_loop]. destruct (Z.ltb_spec (-1 + 1) (pdu_so p)); [done |]. intros _.
  exists p, l. split; [done | lia].
Qed.

Lemma delivered_here off M i l :
  list_here off M i l → sdu_full_loop (-1) l = true →
  list_here off M i (map no_data l) ∧ processed (map no_data l) = true.
Proof.
  intros [Hh _] Hf. destruct (sdu_full_first l Hf) as (p & l' & -> & Hso). split; [split |].
  - apply Forall_fmap. eapply Forall_impl; [exact Hh |]. by intros q.
  - right. exists (no_data p), (map no_data l'). split_and!; [done | done |].
    apply Forall_cons in Hh as [(_ & _ & ?) _]. simpl. lia.
  - done.
Qed.

(** After the delivery of SN [n]: the window is well formed, [n] delivered, the rest as before. *)
Lemma am_deliver_ok e n :
  am_rx_core e → 0 <= n < sn_modulus e → modulus_rx e n < window_size e → sdu_full e n = Ok true →
  ∃ m e1, reassemble_and_deliver e n = Ok e1 ∧ tx_view e1 = tx_view e ∧
    rx_view e1 = rx_view (e <| rx := m |> <| rx_size := rx_size e1 |>) ∧
    am_rx_pre (e <| rx := m |>) ∧
    ∀ i, 0 <= i <= window_size e → processed (content_of m i) =
      if (i =? modulus_rx e n) || ((i =? window_size e) && (modulus_rx e n =? 0)) then true else processed (content e i).
Proof.
  intros [[Hb H2 H3 H4 [P1 P2 P3 P4]] H6 H7 H8] Hn Hx Hf.
  pose proof (off_range e Hb _ Hn) as Hx0. set (x := modulus_rx e n) in *.
  unfold sdu_full in Hf. unfold reassemble_and_deliver. rewrite (get_content e Hb n Hn) in *. fold x in Hf |- *.
  cbn [mbind res_bind] in *. injection Hf as Hf. destruct (processed (content e x)) eqn:Ep; [done |].
  pose proof (P1 x ltac:(lia)) as Hh. pose proof Hh as [Hh1 Hh2].
  destruct Hh2 as [Hw | (p & l' & E & Hd & _)].
  2:{ exfalso. rewrite E in Ep. simpl in Ep. rewrite Hd in Ep. by rewrite bool_decide_false in Ep by (by intros [? ?]). }
  destruct (delivered_here _ _ _ _ Hh Hf) as [Hd1 Hd2].
  destruct (am_reassemble_ok (content e x) 0 false [] (rx_size e) Hw) as (so' & bad' & acc' & rs' & ->).
  cbn [mbind res_bind].
  destruct (set_content e Hb n (map no_data (content e x)) Hn Hx) as (m & Em & Hwf & Es & Est & Esn & Hc).
  rewrite Em. cbn [mbind res_bind]. fold x in Hc.
  assert (Hpre : am_rx_pre (e <| rx := m |>)).
  { pose proof (base_rx e m Hb Hwf Es Esn) as Hb'. constructor; try done.
    change (win_pre (window_size e) (sn_modulus e) (modulus_rx e) (content_of m) (modulus_rx e (rx_next_highest e))).
    assert (Hlow : ∀ i, 0 <= i < window_size e → content_of m i = if i =? x then map no_data (content e x) else content e i).
    { intros i Hi. rewrite Hc by lia. destruct (i =? x); [done |]. simpl. by decide_false (i =? window_size e). }
    assert (Hxn : x < modulus_rx e (rx_next_highest e)).
    { destruct (Z.ltb_spec x (modulus_rx e (rx_next_highest e))); [done |]. exfalso. rewrite P3 in Hf by lia. done. }
    constructor; try done.
    - intros i Hi. rewrite Hlow by done. destruct (Z.eqb_spec i x) as [-> |]; [done | by apply P1].
    - intros i Hi. rewrite Hlow by lia. decide_false (i =? x). apply P3. lia.
    - intros Hpos. rewrite Hlow by lia. destruct (Z.eqb_spec (modulus_rx e (rx_next_highest e) - 1) x) as [E |]; [| by apply P4].
      intros E2. rewrite E2 in Hd2. done. }
  assert (Hproc : ∀ i, 0 <= i <= window_size e → processed (content_of m i) =
    if (i =? x) || ((i =? window_size e) && (x =? 0)) then true else processed (content e i)).
  { intros i Hi. rewrite Hc by done. by destruct (_ || _). }
  exists m. destruct bad'; eexists; (split; [done |]); by split_and!.
Qed.

(** [rx_next] moves to the first SDU that is not delivered. *)
Lemma advance_ok e :
  am_rx_pre e → modulus_rx e (rx_highest_status e) <= modulus_rx e (rx_next_highest e) →
  (modulus_rx e (rx_highest_status e) < window_size e → processed (content e (modulus_rx e (rx_highest_status e))) = false) →
  ∃ e', advance_rx_next e = Ok e' ∧ tx_view e' = tx_view e ∧ am_rx_core e' ∧
    rx_view e' = rx_view (e <| rx := rx e' |> <| rx_next := rx_next e' |>) ∧
    ∀ a, 0 <= a < sn_modulus e → 0 < modulus_rx e a <= modulus_rx e (rx_next_highest e) →
      modulus_rx e' a <= modulus_rx e' (rx_next_highest e) ∨ window_size e < modulus_rx e' a.
Proof.
  intros [Hb H2 H3 H4 [P1 P2 P3 P4]] Hhs Hhp. pose proof (base_sizes e Hb) as (S1 & S2 & S3).
  unfold advance_rx_next.
  assert (Hb0 : am_rx_base (e <| rx := rx e |>)) by by destruct Hb.
  assert (Hoff0 : modulus_rx e (rx_next e) = 0) by (unfold modulus_rx; rewrite Z.sub_diag; done).
  destruct (free_delivered_ok e (Z.to_nat (sn_modulus e)) (rx e) (rx_next e) 0 Hb0 (ab_next e Hb) Hoff0)
    as (m & n & k & E & Hbm & Hst & Hk & Hn & Hoff & Hp & Hc & Hall); [lia | intros; lia | lia |].
  rewrite E. cbn [mbind res_bind].
  set (m' := nr_rlc_rx_manager_set_start (nr_rlc_rx_manager_advance m k) n).
  set (e' := e <| rx_next := n |> <| rx := m' |>). exists e'. split; [done |]. split; [done |].
  pose proof Hbm as [_ Hwf Hsz Hsn _]. simpl in Hwf, Hsz, Hsn.
  assert (Hkn : k <= modulus_rx e (rx_next_highest e)).
  { destruct (Z.leb_spec k (modulus_rx e (rx_next_highest e))) as [| Hlt]; [done | exfalso].
    pose proof (Hall (modulus_rx e (rx_next_highest e)) ltac:(lia)) as Hx. rewrite P3 in Hx by lia. done. }
  assert (Hkh : k <= modulus_rx e (rx_highest_status e)).
  { destruct (Z.leb_spec k (modulus_rx e (rx_highest_status e))) as [| Hlt]; [done | exfalso].
    pose proof (off_range e Hb _ H2). rewrite Hall in Hhp by lia. specialize (Hhp ltac:(lia)). done. }
  assert (Hoff' : ∀ a, 0 <= a < sn_modulus e → k <= modulus_rx e a → modulus_rx e' a = modulus_rx e a - k).
  { intros a Ha Hka. pose proof (ab_next e Hb). unfold modulus_rx in *. simpl. revert Hka Hoff. bool_prop; lia. }
  assert (Hcont : ∀ i, 0 <= i → i + k <= 2 * window_size e → content_of m' i = content_of m (i + k)).
  { intros i Hi Hik. unfold content_of, m'. simpl. rewrite Z.rem_mod_nonneg by (pose proof (rw_start _ Hwf); lia).
    rewrite Z.add_mod_idemp_l by lia. do 3 f_equal. lia. }
  assert (Hwrap : ∀ i, content_of m (i + window_size e) = content_of m i) by (intros i; apply (content_wrap _ Hbm)).
  assert (Hval : ∀ i, 0 <= i <= window_size e → content_of m' i = if i + k <? window_size e then content e (i + k) else
                        if i <? window_size e then [] else content_of m k).
  { intros i Hi. rewrite Hcont by lia. destruct (Z.ltb_spec (i + k) (window_size e)).
    - rewrite Hc by lia. by decide_false (i + k <? k).
    - destruct (Z.ltb_spec i (window_size e)).
      + replace (i + k) with ((i + k - window_size e) + window_size e) by lia. rewrite Hwrap, Hc by lia.
        by decide_true (i + k - window_size e <? k).
      + replace (i + k) with (k + window_size e) by lia. apply Hwrap. }
  assert (Hb' : am_rx_base e').
  { constructor; try done; [apply Hb |]. constructor; simpl; try apply Hwf.
    - apply Z.rem_bound_pos; [| apply (rw_size _ Hwf)]. pose proof (rw_start _ Hwf). lia.
    - rewrite Hsz, <- S2. done. }
  assert (Hh' : modulus_rx e' (rx_next_highest e') = modulus_rx e (rx_next_highest e) - k) by (by apply Hoff').
  split; [| split; [done |]].
  2:{ intros a Ha Hlt. destruct (Z.leb_spec k (modulus_rx e a)).
      - left. change (rx_next_highest e) with (rx_next_highest e'). rewrite Hh', Hoff' by done. lia.
      - right. revert Hlt H. pose proof (ab_next e Hb). unfold modulus_rx in *. simpl. revert Hoff. bool_prop; lia. }
  assert (Hlist : ∀ i, 0 <= i < window_size e → list_here (modulus_rx e') (sn_modulus e) i (content_of m' i)).
  { intros i Hi. rewrite Hval by lia. destruct (Z.ltb_spec (i + k) (window_size e)).
    - destruct (P1 (i + k)) as [Hh Hl]; [lia |]. split; [| done]. eapply Forall_impl; [exact Hh |].
      intros p (Q1 & Q2 & Q3). split_and!; try done; try lia. rewrite Hoff'; lia.
    - decide_true (i <? window_size e). split; [constructor | left; constructor]. }
  constructor.
  - constructor; try done. rewrite Hh'. constructor; try done; simpl.
    + lia.
    + intros i Hi. rewrite Hval by lia. destruct (Z.ltb_spec (i + k) (window_size e)); [apply P3; lia |].
      by decide_true (i <? window_size e).
    + intros Hpos. rewrite Hval by lia. decide_true (modulus_rx e (rx_next_highest e) - k - 1 + k <? window_size e).
      replace (modulus_rx e (rx_next_highest e) - k - 1 + k) with (modulus_rx e (rx_next_highest e) - 1) by lia.
      apply P4. lia.
  - simpl. rewrite Hcont by lia. by rewrite Z.add_0_l.
  - rewrite Hh', Hoff' by done. simpl. lia.
  - rewrite Hoff' by done. simpl. rewrite Hcont by lia. rewrite Z.sub_add.
    destruct (Z.eq_dec (modulus_rx e (rx_highest_status e)) (window_size e)) as [Ew | Hne].
    + rewrite Ew. pose proof (Hwrap 0) as Hw0. rewrite Z.add_0_l in Hw0. rewrite Hw0.
      destruct (Z.eq_dec k 0) as [Ek |]; [by rewrite Ek in Hp |]. rewrite Hc by lia. by decide_true (0 <? k).
    + pose proof (off_range e Hb _ H2). rewrite Hc by lia.
      decide_false (modulus_rx e (rx_highest_status e) <? k). apply Hhp. lia.
Qed.

Lemma am_rx_pre_frame e e' : rx_view e' = rx_view e → am_rx_pre e → am_rx_pre e'.
Proof.
  intros Hv [H1 H2 H3 H4 H5]. pose proof (am_rx_base_frame e e' Hv H1) as Hb.
  unfold rx_view in Hv. injection Hv as E1 E2 E3 E4 E5 E6 E7 E8 E9 E10 E11.
  assert (Em : modulus_rx e' = modulus_rx e) by (unfold modulus_rx; by rewrite E4, E10).
  constructor; rewrite ?E1, ?E5, ?E6, ?E7, ?E8, ?E10, ?E11, ?Em; done.
Qed.

(** The code never leaves the loop on [rx_highest_status] when that SN is [rx_next] and every
    other SDU of the window is delivered ([am_reception_hangs]).  Otherwise: *)
Definition rx_window_open (e : nr_rlc_entity_am_t) : Prop :=
  rx_highest_status e = rx_next e → ∃ i, 0 < i < window_size e ∧ processed (content e i) = false.

(** [rx_highest_status] after the delivery of SN [n]. *)
Lemma bump_ok e e1 n m :
  am_rx_core e → rx_window_open e → 0 <= n < sn_modulus e → modulus_rx e n < window_size e →
  am_rx_pre e1 → rx_view e1 = rx_view (e <| rx := m |> <| rx_size := rx_size e1 |>) →
  (∀ i, 0 <= i <= window_size e → processed (content_of m i) =
      if (i =? modulus_rx e n) || ((i =? window_size e) && (modulus_rx e n =? 0)) then true else processed (content e i)) →
  ∃ e2, (if n =? rx_highest_status e1 then h ← first_not_delivered e1 (rx_highest_status e1);
           Ok (e1 <| rx_highest_status := h |>) else Ok e1) = Ok e2 ∧
    e2 = e1 <| rx_highest_status := rx_highest_status e2 |> ∧ am_rx_pre e2 ∧
    modulus_rx e (rx_highest_status e2) <= modulus_rx e (rx_next_highest e) ∧
    ((n ≠ rx_next e ∨ modulus_rx e (rx_highest_status e2) < window_size e) →
     processed (content_of m (modulus_rx e (rx_highest_status e2))) = false).
Proof.
  intros [[Hb H2 H3 H4 HP] H6 H7 H8] Hopen Hn Hx Hpre Hv Hproc.
  pose proof (base_sizes e Hb) as (S1 & S2 & S3). pose proof (off_range e Hb _ Hn) as Hx0.
  pose proof (off_range e Hb _ H2) as Hh0. pose proof (wp_hn _ _ _ _ _ HP) as Hhn. unfold rx_view in Hv. injection Hv as V1 _ V5 V6 V7 V8 V9 V10 V11 V12.
  pose proof (off_zero e Hb) as Hoff0.
  assert (Em : ∀ a, modulus_rx e1 a = modulus_rx e a) by (intros a; unfold modulus_rx; by rewrite V5, V11).
  assert (EW : window_size e1 = window_size e) by done.
  destruct (Z.eqb_spec n (rx_highest_status e1)) as [Enh | Hne].
  2:{ exists e1. split; [done |]. split; [by destruct e1 |]. rewrite V7 in *. split; [done |]. split; [done |].
      intros Hcase. rewrite Hproc by lia. destruct (Z.eqb_spec (modulus_rx e (rx_highest_status e)) (modulus_rx e n)) as [E |].
      { exfalso. apply Hne. symmetry. by apply (off_inj e Hb). }
      simpl. destruct (Z.eqb_spec (modulus_rx e (rx_highest_status e)) (window_size e)) as [Ew |]; [| done]. simpl.
      destruct (Z.eqb_spec (modulus_rx e n) 0) as [E0 |]; [| done]. exfalso. apply Hoff0 in E0; [| done].
      destruct Hcase; [done | lia]. }
  rewrite V7 in Enh. subst n.
  assert (Hi : ∃ i, modulus_rx e1 (rx_highest_status e1) <= i <= window_size e1 ∧ processed (content_of m i) = false).
  { rewrite Em, EW, V7. destruct (Z.eq_dec (modulus_rx e (rx_highest_status e)) 0) as [E0 | Hne0].
    - destruct (Hopen (Hoff0 _ H2 E0)) as (i & Hi & Hp). exists i. split; [lia |]. rewrite Hproc by lia.
      rewrite E0. decide_false (i =? 0). by decide_false (i =? window_size e).
    - exists (window_size e). split; [lia |]. rewrite Hproc by lia.
      decide_false (window_size e =? modulus_rx e (rx_highest_status e)). rewrite Z.eqb_refl. simpl.
      decide_false (modulus_rx e (rx_highest_status e) =? 0). pose proof (content_wrap e Hb 0) as Hw. by rewrite Z.add_0_l in Hw; rewrite Hw. }
  destruct Hi as (i & Hi & Hp).
  destruct (first_undelivered_ok e1 (rx_highest_status e1) i (ap_base _ Hpre)) as (h & -> & Hh & Hr & Hph & Hlast);
    [by rewrite V7, V11 | done | by rewrite V1 |].
  rewrite Em, V1 in Hph. rewrite !Em, EW in Hr. cbn [mbind res_bind]. eexists. split; [done |]. split; [done |].
  assert (Hle : modulus_rx e h <= modulus_rx e (rx_next_highest e)).
  { destruct Hlast as [-> | [_ Hlast]]; [by rewrite V7 |]. rewrite V1, Em in Hlast.
    destruct (Z.leb_spec (modulus_rx e h) (modulus_rx e (rx_next_highest e))) as [| Hlt]; [done | exfalso].
    pose proof (wp_above _ _ _ _ _ (ap_win _ Hpre) (modulus_rx e h - 1)) as Hem.
    rewrite V1, V8, Em, EW in Hem. rewrite Hem in Hlast by lia. done. }
  split; [| split; [exact Hle | intros _; exact Hph]].
  destruct Hpre as [Q1 Q2 Q3 Q4 Q5]. constructor; try done. by destruct Q1.
Qed.

(** What delivery leaves of the condition on the timer. *)
Definition trig_ok (e : nr_rlc_entity_am_t) : Prop :=
  t_reassembly_start e ≠ 0 →
  modulus_rx e (rx_next_status_trigger e) <= modulus_rx e (rx_next_highest e) ∨
  window_size e < modulus_rx e (rx_next_status_trigger e).

Lemma deliver_step_ok e n :
  am_rx_inv e → rx_window_open e → 0 <= n < sn_modulus e → modulus_rx e n < window_size e →
  ∃ e', reception_deliver e n = Ok e' ∧ tx_view e' = tx_view e ∧ am_rx_core e' ∧ trig_ok e'.
Proof.
  intros [Hcore Htim] Hopen Hn Hx. pose proof Hcore as [[Hb H2 H3 H4 HP] H6 H7 H8].
  pose proof (base_sizes e Hb) as (S1 & S2 & S3). pose proof (off_range e Hb _ Hn) as Hx0.
  unfold reception_deliver. unfold sdu_full at 1. rewrite (get_content e Hb n Hn). cbn [mbind res_bind].
  destruct (if processed _ then false else _) eqn:Ef; [| exists e; do 3 (split; [done |]); intros Ht; left; by apply Htim].
  assert (Hfull : sdu_full e n = Ok true) by (unfold sdu_full; rewrite (get_content e Hb n Hn); cbn [mbind res_bind]; by rewrite Ef).
  destruct (am_deliver_ok e n Hcore Hn Hx Hfull) as (m & e1 & -> & Ht1 & Hr1 & Hpre & Hproc). cbn [mbind res_bind].
  assert (Hpre1 : am_rx_pre e1).
  { apply (am_rx_pre_frame (e <| rx := m |> <| rx_size := rx_size e1 |>)); [done |].
    destruct Hpre as [[Q1 Q2 Q3 Q4 Q5] Q6 Q7 Q8 Q9]. by constructor. }
  destruct (bump_ok e e1 n m Hcore Hopen Hn Hx Hpre1 Hr1 Hproc) as (e2 & E2 & Heq & Hpre2 & Hhs & Hhp).
  rewrite E2. cbn [mbind res_bind].
  assert (Hv : rx e2 = m ∧ rx_next e2 = rx_next e ∧ sn_modulus e2 = sn_modulus e ∧ window_size e2 = window_size e ∧
    rx_next_status_trigger e2 = rx_next_status_trigger e ∧ t_reassembly_start e2 = t_reassembly_start e ∧
    rx_next_highest e2 = rx_next_highest e ∧ tx_view e2 = tx_view e).
  { unfold rx_view in Hr1. injection Hr1 as V1 _ V5 V6 V7 V8 V9 V10 V11 V12. rewrite Heq. simpl. split_and!; done. }
  destruct Hv as (V1 & V2 & V3 & V4 & V5 & V6 & V7 & V8).
  assert (Em : ∀ a, modulus_rx e2 a = modulus_rx e a) by (intros a; unfold modulus_rx; by rewrite V2, V3).
  rewrite V2. destruct (Z.eqb_spec n (rx_next e)) as [En | Hne].
  - destruct (advance_ok e2 Hpre2) as (e3 & -> & Ht3 & Hc3 & Hr3 & Hk3).
    { by rewrite !Em, V7. } { rewrite Em, V4, V1. auto. }
    exists e3. split; [done |]. split; [by rewrite Ht3 |]. split; [done |].
    unfold rx_view in Hr3. injection Hr3 as _ _ E5 _ E7 E8 _ _ E11. unfold trig_ok. rewrite E5, E7, E8, E11, V4, V5, V6, V7.
    intros Ht. rewrite V7 in Hk3. rewrite V4 in Hk3. apply Hk3; [by rewrite V3 |]. rewrite !Em. by apply Htim.
  - exists e2. split; [done |]. split; [done |].
    split; [| unfold trig_ok; rewrite !Em, V5, V6, V7; intros Ht; left; by apply Htim].
    constructor; [done | | by rewrite !Em, V7 | rewrite Em, V1; auto].
    assert (Hx1 : modulus_rx e n ≠ 0) by (intros E0; apply Hne; by apply (off_zero e Hb)).
    rewrite V1, Hproc by lia. decide_false (0 =? modulus_rx e n). by decide_false (0 =? window_size e).
Qed.

(** ** The reassembly timer *)

Lemma missing_bytes_ok e n : am_rx_base e → 0 <= n < sn_modulus e → ∃ b, sdu_has_missing_bytes e n = Ok b.
Proof.
  intros Hb Hn. unfold sdu_has_missing_bytes. rewrite (get_content e Hb n Hn). cbn [mbind res_bind]. eauto.
Qed.

(** Changes of the timer only. *)
Lemma timer_core e t g :
  am_rx_core e → 0 <= g < sn_modulus e → am_rx_core (e <| t_reassembly_start := t |> <| rx_next_status_trigger := g |>).
Proof.
  intros [[[Q1 Q2 Q3 Q4 Q5] H2 H3 H4 HP] H6 H7 H8] Hg.
  constructor; try done.
Qed.

(** The timer starts only when [rx_next_highest] is after the SN that follows. *)
Lemma timer_start e n b :
  am_rx_base e → 0 <= n < sn_modulus e → modulus_rx e n <= window_size e → 0 <= rx_next_highest e < sn_modulus e →
  let next := Z.rem (n + 1) (sn_modulus e) in
  (0 <? sn_compare_rx e (rx_next_highest e) next) || ((rx_next_highest e =? next) && b) = true →
  0 < modulus_rx e (rx_next_highest e).
Proof.
  intros Hb Hn Hle Hh next Hc. pose proof (base_sizes e Hb) as (S1 & S2 & _).
  assert (2048 <= window_size e) by (destruct (ab_cfg e Hb) as [(_ & _ & ->) | (_ & _ & ->)]; lia).
  destruct (off_next e Hb n Hn) as [Hr Ho]; [lia |]. fold next in Hr, Ho. pose proof (off_range e Hb n Hn).
  apply orb_true_iff in Hc as [Hc | Hc].
  - unfold sn_compare_rx in Hc. apply Z.ltb_lt in Hc. lia.
  - apply andb_true_iff in Hc as [Hc _]. apply Z.eqb_eq in Hc. rewrite Hc. lia.
Qed.

Lemma am_timer_ok e :
  am_rx_core e → trig_ok e → ∃ e', reception_timer e = Ok e' ∧ tx_view e' = tx_view e ∧ am_rx_inv e'.
Proof.
  intros Hc Htrig. pose proof Hc as [[Hb H2 H3 H4 [P1 P2 P3 P4]] H6 H7 H8]. pose proof (base_sizes e Hb) as (S1 & S2 & S3).
  unfold reception_timer. destruct (missing_bytes_ok e (rx_next e) Hb (ab_next e Hb)) as (b & ->). cbn [mbind res_bind].
  set (next := Z.rem (rx_next e + 1) (sn_modulus e)).
  set (e1 := if _ && (_ || _ || _) then _ else e).
  assert (He1 : tx_view e1 = tx_view e ∧ am_rx_inv e1 ∧ rx_next e1 = rx_next e ∧ sn_modulus e1 = sn_modulus e ∧ window_size e1 = window_size e).
  { unfold e1. destruct (negb (t_reassembly_start e =? 0)) eqn:Et; simpl.
    2:{ split; [done |]. split; [| done]. split; [done |]. intros Hne. apply negb_false_iff, Z.eqb_eq in Et. done. }
    destruct (_ || _) eqn:Ec.
    - split; [done |]. split; [| done]. split; [| done]. apply (timer_core e 0 (rx_next_status_trigger e) Hc H4).
    - split; [done |]. split; [| done]. split; [done |]. intros _. apply orb_false_iff in Ec as [Ec' Ec].
      apply orb_false_iff in Ec' as [Ec' _]. apply Z.eqb_neq in Ec'.
      pose proof (off_zero e Hb _ H4) as Hz. pose proof (off_range e Hb _ H4) as Hr.
      apply negb_true_iff, Z.eqb_neq in Et. specialize (Htrig Et).
      assert (modulus_rx e (rx_next_status_trigger e) <= window_size e); [| lia].
      apply andb_false_iff in Ec as [Ec | Ec]; apply negb_false_iff in Ec.
      + unfold sn_in_recv_window in Ec. apply Z.ltb_lt in Ec. lia.
      + apply Z.eqb_eq in Ec. rewrite Ec. pose proof (ab_next e Hb). rewrite rem_wrap by lia. unfold modulus_rx. bool_prop; lia. }
  clearbody e1. destruct He1 as (Ht1 & [Hc1 Htim1] & En & Em & Ew). cbv zeta.
  destruct (_ && _) eqn:Estart; [| by exists e1]. apply andb_true_iff in Estart as [_ Estart].
  eexists. split; [done |]. split; [done |]. pose proof Hc1 as [[Hb1 G2 G3 G4 [R1 R2 R3 R4]] G6 G7 G8].
  split; [by apply timer_core |]. intros _. split; [| apply Z.le_refl].
  apply (timer_start e1 (rx_next e1) b Hb1 (ab_next _ Hb1)); [| done | by rewrite Em, En].
  unfold modulus_rx. rewrite Z.sub_diag. simpl. lia.
Qed.

Lemma reception_actions_ok e n p :
  am_rx_inv e → rx_window_open e → pdu_sn p = n → 0 <= n < sn_modulus e → modulus_rx e n < window_size e → 0 <= pdu_so p →
  seg_whole p →
  ∃ m e', nr_rlc_rx_manager_add_pdu (rx e) p = Ok m ∧ reception_actions (e <| rx := m |>) n = Ok e' ∧
    tx_view e' = tx_view e ∧ am_rx_inv e'.
Proof.
  intros [Hc Htim] Hopen <- Hn Hx Hso Hw. destruct (store_ok e p Hc Hn Hx Hso Hw) as (m & E & Hc1 & Hhn & Hproc). exists m.
  set (e1 := e <| rx := m |> <| rx_next_highest := new_highest e (pdu_sn p) |>) in *.
  assert (Hi1 : am_rx_inv e1) by (split; [done | intros Ht; specialize (Htim Ht); change (modulus_rx e1) with (modulus_rx e); simpl; lia]).
  assert (Hopen1 : rx_window_open e1).
  { intros Heq. destruct (Hopen Heq) as (i & Hi & Hp). exists i. split; [done |]. change (processed (content_of m i) = false).
    by rewrite Hproc by lia. }
  destruct (deliver_step_ok e1 (pdu_sn p) Hi1 Hopen1 Hn Hx) as (e2 & E2 & Ht2 & Hc2 & Htr2).
  destruct (am_timer_ok e2 Hc2 Htr2) as (e3 & E3 & Ht3 & Hi3).
  exists e3. split; [done |]. split; [| by rewrite Ht3, Ht2].
  unfold reception_actions.
  replace (if 0 <=? sn_compare_rx (e <| rx := m |>) (pdu_sn p) (rx_next_highest (e <| rx := m |>)) then _ else _) with e1.
  - rewrite E2. cbn [mbind res_bind]. exact E3.
  - unfold e1, new_highest. change (sn_compare_rx (e <| rx := m |>)) with (sn_compare_rx e).
    change (rx_next_highest (e <| rx := m |>)) with (rx_next_highest e). by destruct (0 <=? _).
Qed.

(** ** Any data PDU *)

Lemma discard_view e p size : tx_view (discard_pdu e p size) = tx_view e ∧ rx_view (discard_pdu e p size) = rx_view e.
Proof. unfold discard_pdu. by destruct (negb _). Qed.

Lemma am_discard_ok e p size : am_rx_inv e → ∃ e', Ok (discard_pdu e p size) = Ok e' ∧ tx_view e' = tx_view e ∧ am_rx_inv e'.
Proof.
  intros Hi. destruct (discard_view e p size) as [Ht Hr]. eexists. split; [done |]. split; [done |]. by apply (am_rx_frame e).
Qed.

Lemma am_segment_ok e buffer p n so is_first is_last d :
  am_rx_inv e → rx_window_open e → 0 <= n < sn_modulus e → 0 <= so → dec_wf d → d_size d = zlen buffer → d_bit d = 0 →
  ∃ e', recv_segment e buffer (zlen buffer) p n so is_first is_last d = Ok e' ∧ tx_view e' = tx_view e ∧ am_rx_inv e'.
Proof.
  intros Hi Hopen Hn Hso Hd Hsz Hbit. unfold recv_segment.
  pose proof (proj1 (proj2 (proj2 Hd))) as Hbyte. rewrite Hsz in Hbyte.
  set (ds := zlen buffer - d_byte d).
  destruct (Z.leb_spec ds 0) as [| Hds]; [by apply am_discard_ok |].
  destruct (rx_maxsize e <? _); [by apply am_discard_ok |].
  destruct (sn_in_recv_window e n) eqn:Ew; simpl negb; cbv iota.
  2:{ destruct (am_discard_ok (e <| common ::= λ c, stat rxpdu_ow_bytes (zlen buffer) (stat rxpdu_ow_pkts 1 c) |>) p (zlen buffer))
        as (e' & E & Ht & Hr); [by apply (am_rx_frame e) |]. by exists e'. }
  unfold sn_in_recv_window in Ew. apply Z.ltb_lt in Ew.
  pose proof Hi as [Hc Htim]. pose proof Hc as [[Hb _ _ _ _] _ _ _].
  unfold segment_already_received. rewrite (get_content e Hb n Hn). cbn [mbind res_bind].
  destruct (already_received_loop _ _ _).
  { destruct (am_discard_ok (e <| common ::= λ c, stat rxpdu_dup_bytes (zlen buffer) (stat rxpdu_dup_pkts 1 c) |>) p (zlen buffer))
      as (e' & E & Ht & Hr); [by apply (am_rx_frame e) |]. by exists e'. }
  unfold nr_rlc_new_pdu. rewrite slice_Some by lia. cbn [deref mbind res_bind].
  set (pdu := mk_pdu _ _ _ _ _ _). set (e1 := e <| rx_size ::= Z.add ds |>).
  assert (Hi1 : am_rx_inv e1) by (destruct Hc as [[[Q1 Q2 Q3 Q4 Q5] K2 K3 K4 K5] K6 K7 K8]; split; [by constructor | done]).
  destruct (reception_actions_ok e1 n pdu Hi1) as (m & e2 & E1 & E2 & Ht2 & Hi2); try done.
  { eexists. split; [done |]. split; [| done]. unfold zlen in *. rewrite length_take, length_drop. simpl. lia. }
  rewrite E1. cbn [mbind res_bind]. change (pdu_sn pdu) with n in *. rewrite E2. cbn [mbind res_bind].
  eexists. split; [done |]. destruct (negb _); (split; [done |]); [by apply (am_rx_frame e2) | done].
Qed.

Lemma recv_data_pdu_ok e buffer d :
  am_rx_inv e → rx_window_open e → dec_wf d → d_size d = zlen buffer → dec_pos d = 1 →
  ∃ e', recv_data_pdu e buffer (zlen buffer) d = Ok e' ∧ tx_view e' = tx_view e ∧ am_rx_inv e'.
Proof.
  intros Hi Hopen Hd Hsz Hpos. unfold recv_data_pdu.
  pose proof (ab_cfg _ (ap_base _ (ar_pre _ (ai_core _ Hi)))) as Hcfg.
  assert (Hmod : ∀ d, dec_wf d → dec_pos d mod 8 = 0 → d_bit d = 0).
  { intros d' (_ & ? & _). unfold dec_pos. rewrite Z.mul_comm, Z.add_comm, Z_mod_plus_full, Z.mod_small; lia. }
  assert (Herr : ∀ p, ∃ e', Ok (discard_pdu e p (zlen buffer)) = Ok e' ∧ tx_view e' = tx_view e ∧ am_rx_inv e')
    by (intros; by apply am_discard_ok).
  match goal with |- context [read_bits ?err d 1 ?k] =>
    destruct (read_bits_cases err d 1 k Hd ltac:(lia)) as [-> | (p & d1 & -> & _ & Hd1 & _ & Hs1 & Hp1)]; [apply Herr |] end.
  match goal with |- context [read_bits ?err d1 2 ?k] =>
    destruct (read_bits_cases err d1 2 k Hd1 ltac:(lia)) as [-> | (si & d2 & -> & _ & Hd2 & _ & Hs2 & Hp2)]; [apply Herr |] end.
  cbv zeta.
  (* from the SN on *)
  assert (Hk : ∀ d3 (first last : bool), dec_wf d3 → d_size d3 = zlen buffer → (dec_pos d3 + sn_field_length e) mod 8 = 0 →
    ∃ e', read_bits (Ok (discard_pdu e p (zlen buffer))) d3 (sn_field_length e) (λ n d,
      if first then recv_segment e buffer (zlen buffer) p n 0 first last d
      else read_bits (Ok (discard_pdu e p (zlen buffer))) d 16 (λ so d,
        if so =? 0 then Ok (discard_pdu e p (zlen buffer))
        else recv_segment e buffer (zlen buffer) p n so first last d)) = Ok e' ∧ tx_view e' = tx_view e ∧ am_rx_inv e').
  { intros d3 first last Hd3 Hs3 Hm3.
    assert (Hlen : 0 <= sn_field_length e <= 31 ∧ sn_modulus e = 2 ^ sn_field_length e)
      by (destruct Hcfg as [(-> & -> & _) | (-> & -> & _)]; split; done || lia).
    destruct Hlen as [Hlen Hmodn].
    match goal with |- context [read_bits ?err d3 ?n ?k] =>
      destruct (read_bits_cases err d3 n k Hd3 Hlen) as [-> | (n0 & d4 & -> & Hr4 & Hd4 & _ & Hs4 & Hp4)]; [apply Herr |] end.
    assert (Hb4 : d_bit d4 = 0) by (apply Hmod; [done | by rewrite Hp4]).
    destruct first.
    { apply am_segment_ok; done || lia || by rewrite Hs4. }
    match goal with |- context [read_bits ?err d4 16 ?k] =>
      destruct (read_bits_cases err d4 16 k Hd4 ltac:(lia)) as [-> | (so & d5 & -> & Hr5 & Hd5 & _ & Hs5 & Hp5)]; [apply Herr |] end.
    destruct (so =? 0); [apply Herr |].
    apply am_segment_ok; try (done || lia).
    apply Hmod; [done |]. rewrite Hp5. unfold dec_pos. rewrite Hb4. replace (8 * d_byte d4 + 0 + 16) with ((d_byte d4 + 2) * 8) by lia.
    by rewrite Z.mod_mul. }
  destruct Hcfg as [(El & _) | (El & _)]; rewrite El in *.
  - apply Hk; [done | by rewrite Hs2, Hs1 | rewrite Hp2, Hp1, Hpos; done].
  - simpl (18 =? 18). cbv iota.
    match goal with |- context [read_bits ?err d2 2 ?k] =>
      destruct (read_bits_cases err d2 2 k Hd2 ltac:(lia)) as [-> | (rr & d3 & -> & _ & Hd3 & _ & Hs3 & Hp3)]; [apply Herr |] end.
    apply Hk; [done | by rewrite Hs3, Hs2, Hs1 | rewrite Hp3, Hp2, Hp1, Hpos; done].
Qed.

(** ** The expiry of [t_reassembly] *)

Lemma reassembly_core e n :
  am_rx_core e → 0 <= n < sn_modulus e → modulus_rx e n <= modulus_rx e (rx_next_highest e) →
  processed (content e (modulus_rx e n)) = false →
  am_rx_core (e <| rx_highest_status := n |>).
Proof.
  intros [[[Q1 Q2 Q3 Q4 Q5] H2 H3 H4 HP] H6 H7 H8] Hn Hle Hp. constructor; done.
Qed.

Lemma am_reassembly_ok e :
  am_rx_inv e → ∃ e', check_t_reassembly e = Ok e' ∧ tx_view e' = tx_view e ∧ am_rx_inv e'.
Proof.
  intros Hi. pose proof Hi as [Hc Htim]. unfold check_t_reassembly.
  destruct (Z.eqb_spec (t_reassembly_start e) 0) as [| Hne]; [by exists e |].
  destruct (t_current e <=? _); [by exists e |]. simpl orb. cbv iota zeta.
  pose proof Hc as [[Hb _ Hh Htr HP] Hf _ _].
  set (e1 := e <| t_reassembly_start := 0 |>).
  assert (Hc1 : am_rx_core e1) by exact (timer_core e 0 (rx_next_status_trigger e) Hc Htr).
  pose proof (ap_base _ (ar_pre _ Hc1)) as Hb1.
  pose proof (wp_hn _ _ _ _ _ HP) as Hhn. specialize (Htim Hne).
  destruct (first_undelivered_ok e1 (rx_next_status_trigger e1) (window_size e1) Hb1 Htr) as (n & -> & Hn & Hr & Hp & Hlast).
  { change (modulus_rx e (rx_next_status_trigger e) <= window_size e <= window_size e). lia. }
  { pose proof (content_wrap e1 Hb1 0) as Hw. rewrite Z.add_0_l in Hw. rewrite Hw. apply (ar_first _ Hc1). }
  assert (Hle : modulus_rx e1 n <= modulus_rx e1 (rx_next_highest e1)).
  { destruct Hlast as [-> | [_ Hlast]]; [apply Htim |].
    destruct (Z.leb_spec (modulus_rx e1 n) (modulus_rx e1 (rx_next_highest e1))) as [| Hlt]; [done | exfalso].
    rewrite (wp_above _ _ _ _ _ (ap_win _ (ar_pre _ Hc1))) in Hlast by lia. done. }
  cbn [mbind res_bind]. set (e2 := e1 <| rx_highest_status := n |> <| status_triggered := true |>).
  assert (Hc2 : am_rx_core e2).
  { pose proof (reassembly_core e1 n Hc1 Hn Hle Hp) as [[[Q1 Q2 Q3 Q4 Q5] K2 K3 K4 K5] K6 K7 K8]. by constructor. }
  destruct (missing_bytes_ok e2 (rx_highest_status e2) (ap_base _ (ar_pre _ Hc2)) Hn) as (b & ->). cbn [mbind res_bind].
  destruct (_ || _) eqn:Estart; (eexists; split; [done |]; split; [done |]).
  - split; [by apply (timer_core e2) |]. intros _. split; [| apply Z.le_refl].
    apply (timer_start e2 n b (ap_base _ (ar_pre _ Hc2)) Hn); [| done | done].
    change (modulus_rx e1 n <= window_size e1). lia.
  - split; [done |]. intros Hx. done.
Qed.

(** ** Creation and re-establishment *)

Lemma empty_rx_inv e W :
  am_config e → window_size e = W → rx e = nr_rlc_clear_rx_manager (nr_rlc_new_rx_manager W) →
  rx_next e = 0 → rx_next_status_trigger e = 0 → rx_highest_status e = 0 → rx_next_highest e = 0 → t_reassembly_start e = 0 →
  am_rx_inv e.
Proof.
  intros Hc Hw Hrx Hn Ht Hh Hnh Hs. pose proof (am_config_mod e Hc) as Hmod.
  assert (Hcont : ∀ i, content e i = []).
  { intros i. unfold content_of. rewrite Hrx. simpl. unfold znth. destruct (_ <? 0); [done |].
    destruct (replicate _ _ !! _) eqn:E; [| done]. by apply lookup_replicate in E as [-> _]. }
  assert (Hoff : modulus_rx e 0 = 0) by (unfold modulus_rx; by rewrite Hn).
  assert (Hb : am_rx_base e).
  { constructor; rewrite ?Hrx, ?Hn; try done; try lia. constructor; simpl; try lia.
    unfold zlen. rewrite length_replicate. lia. }
  constructor; [| by rewrite Hs]. constructor; rewrite ?Hh, ?Hnh, ?Hoff, ?Hcont; try done.
  constructor; rewrite ?Hnh, ?Hh, ?Ht, ?Hoff; try done; try lia.
  constructor; intros; rewrite ?Hcont; try done; try lia. split; [constructor | left; constructor].
Qed.

Lemma clear_rx_ok e e' :
  am_rx_inv e →
  rx_view e' = (nr_rlc_clear_rx_manager (rx e), 0, rx_maxsize e, 0, 0, 0, 0, 0, sn_field_length e, sn_modulus e, window_size e) →
  am_rx_inv e'.
Proof.
  intros [[[Hb _ _ _ _] _ _ _] _] Hv. unfold rx_view in Hv. injection Hv as V1 V2 V3 V4 V5 V6 V7 V8 V9 V10 V11.
  apply (empty_rx_inv e' (window_size e)); try done.
  - unfold am_config. rewrite V9, V10, V11. apply (ab_cfg e Hb).
  - rewrite V1, <- (ab_size e Hb). done.
Qed.

Lemma new_am_rx rxm txm tpr tr tsp pp pb mrt snlen e :
  new_nr_rlc_entity_am rxm txm tpr tr tsp pp pb mrt snlen = Ok e → am_rx_inv e.
Proof.
  unfold new_nr_rlc_entity_am, assert_that. destruct (_ || _) eqn:E; [| done]. intros H. injection H as <-.
  apply orb_true_iff in E. rewrite !Z.eqb_eq in E.
  apply (empty_rx_inv _ (Z.shiftl 1 (snlen - 1))); try done; destruct E as [-> | ->]; try done; unfold am_config; tauto.
Qed.
