(* ===== verification/RlcAmStatusOk.v ===== *)
(** * NR RLC AM: the announced and the generated STATUS PDU

    [nr_rlc_entity_am_buffer_status] announces to the MAC the size of the STATUS PDU that
    [generate_status] would build; the two walk the reception window independently.  The
    theorem shows they agree.

    Then: NR RLC AM: a STATUS PDU can always be generated.
    The walk of [next_missing] over the reception window visits every stored segment at most
    once, so [next_missing], [status_size] and [generate_status] end for every state that
    satisfies [am_rx_inv]; the buffer status and the STATUS PDU are total. *)

From S2P Require Import Prelude RlcPdu RlcEntity RlcRxManager RlcAm RlcAmControl RlcAmStatus RlcAmTx RlcAmRx RlcAmProps RlcAmPool RlcAmTxInv RlcAmRxInv.

(** ** The encoder between two fields of a header *)

(** [enc'] is [enc] after writing [n] bits. *)
Definition enc_adv (enc : nr_rlc_pdu_encoder_t) (n : Z) (enc' : nr_rlc_pdu_encoder_t) : Prop :=
  enc_wf enc' ∧ enc_pos enc' = enc_pos enc + n ∧ e_size enc' = e_size enc ∧
  zlen (e_buffer enc') = zlen (e_buffer enc).

Lemma enc_adv_trans a n b k c : enc_adv a n b → enc_adv b k c → enc_adv a (n + k) c.
Proof.
  intros (H1 & H2 & H3 & H4) (G1 & G2 & G3 & G4). unfold enc_adv.
  split_and!; [done | lia | congruence | congruence].
Qed.

Lemma enc_adv_byte base k enc : enc_adv base k enc →
  0 <= e_byte enc ∧ 8 * e_byte enc <= enc_pos base + k.
Proof. intros (Hwf & Hp & _). unfold enc_wf, enc_pos in *. lia. Qed.

Lemma put_adv base k enc v n :
  enc_adv base k enc → 0 < n <= 31 → enc_pos base + k + n <= 8 * e_size base →
  ∃ enc', nr_rlc_pdu_encoder_put_bits enc v n = Ok enc' ∧ enc_adv base (k + n) enc'.
Proof.
  intros Ha Hn Hroom. pose proof Ha as (Hwf & Hp & Hs & Hl).
  destruct (put_bits_spec enc v n Hwf Hn) as (enc' & H & Hwf' & _ & Hp' & Hs' & Hl'); [lia |].
  exists enc'. split; [done |]. eapply enc_adv_trans; [done |]. by split_and!.
Qed.

(** The encoder is at byte [n], of [sz], in a buffer of [len] bytes. *)
Definition enc_at (enc : nr_rlc_pdu_encoder_t) (n sz len : Z) : Prop :=
  enc_wf enc ∧ e_byte enc = n ∧ e_bit enc = 0 ∧ e_size enc = sz ∧ zlen (e_buffer enc) = len.

Lemma enc_at_adv enc n sz len k enc' :
  enc_at enc n sz len → enc_adv enc (8 * k) enc' → enc_at enc' (n + k) sz len.
Proof.
  intros (Hwf & Hb & Hbit & Hs & Hl) (Hwf' & Hp & Hs' & Hl').
  unfold enc_pos, enc_wf in *. split_and!; try done; try congruence; lia.
Qed.

Lemma nack_bytes_size e nk : am_config e → nack_bytes e nk = nack_size e nk.
Proof.
  intros Hc. unfold nack_bytes, nack_size, nack_r_bits.
  destruct Hc as [(-> & _) | (-> & _)]; destruct (md_sn_start nk =? md_sn_end nk), (_ && _); done.
Qed.

(** A step of a chain of [put_bits]; [Ha] says how far the encoder is. *)
Ltac put_step Ha :=
  match goal with
  | |- context [nr_rlc_pdu_encoder_put_bits ?x ?v ?w] =>
      let y := fresh "enc" in let H := fresh "H" in let Ha2 := fresh "Ha" in
      destruct (put_adv _ _ x v w Ha) as (y & H & Ha2); [lia | lia |];
      rewrite H; cbn [mbind res_bind]; clear H; apply enc_adv_byte in Ha; rename Ha into H;
      rename Ha2 into Ha
  end.

Lemma put_nack_ok e enc nk cnt n sz len :
  am_config e → enc_at enc n sz len → n + nack_size e nk <= sz → sz <= len → 0 <= n →
  ∃ enc' addr, put_nack e enc nk cnt = Ok (enc', addr) ∧
    enc_at enc' (n + nack_size e nk) sz len ∧
    match addr with Some a => 0 <= a ∧ a + 1 < len | None => True end.
Proof.
  intros Hc Hat Hroom Hlen Hn. pose proof Hat as (Hwf & Hb & Hbit & Hs & Hl).
  assert (Ha : enc_adv enc 0 enc) by (split_and!; done || lia).
  assert (Hpos : enc_pos enc = 8 * n) by (unfold enc_pos; lia).
  unfold put_nack, nack_size, nack_r_bits in *.
  set (whole := (md_so_start nk =? 0) && (md_so_end nk =? 65535)) in *.
  assert (Hsn : (sn_field_length e = 12 ∧ (sn_field_length e =? 18) = false) ∨
                (sn_field_length e = 18 ∧ (sn_field_length e =? 18) = true))
    by (destruct Hc as [(-> & _) | (-> & _)]; auto).
  destruct Hsn as [[Hf Hb18] | [Hf Hb18]]; rewrite Hb18, Hf in *; simpl b2z in *.
  all: destruct (md_sn_start nk =? md_sn_end nk), whole; cbn [negb b2z] in *.
  all: repeat put_step Ha.
  all: eexists _, _; split; [reflexivity |].
  all: match goal with |- enc_at _ (_ + ?k) _ _ ∧ _ =>
         split; [refine (enc_at_adv _ _ _ _ k _ Hat _);
                 match type of Ha with enc_adv _ ?v _ => replace (8 * k) with v by lia end;
                 exact Ha |] end.
  all: done || lia.
Qed.

(** ** The two walks in lockstep *)

(** The state of the generation when the announced size is [size]. *)
Definition st_ok (sz len size : Z) (st : status_t) : Prop :=
  enc_at (st_enc st) size sz len ∧ 0 <= st_e1_byte st < len ∧
  match st_so_end st with Some a => 0 <= a ∧ a + 1 < len | None => True end.

Lemma set_bit_at_ok buf byte bit : 0 <= byte < zlen buf →
  ∃ buf', set_bit_at buf byte bit = Ok buf' ∧ zlen buf' = zlen buf.
Proof.
  intros Hb. unfold set_bit_at. destruct (znth_is_Some buf byte Hb) as [x ->]. simpl.
  rewrite zset_Ok by done. eexists. split; [done | apply zlen_insert].
Qed.

Lemma cut_range_count e m sn_start sn_count nk c :
  cut_range e m sn_start sn_count = (nk, c) → 1 <= sn_count → 1 <= c <= sn_count.
Proof.
  unfold cut_range. intros H. destruct (Z.ltb_spec 255 sn_count);
    destruct (if _ =? sn_count then _ else _) in H; simplify_eq; lia.
Qed.

Section lockstep.
Context (e : nr_rlc_entity_am_t) (sz len : Z).
Context (Hc : am_config e) (Hsz : sz <= len).

Lemma nack_size_pos nk : 2 + b2z (sn_field_length e =? 18) <= nack_size e nk.
Proof.
  unfold nack_size. destruct (_ =? 18), (md_sn_start nk =? md_sn_end nk), (_ && _); simpl; lia.
Qed.

Lemma missing_lockstep fuel m sn_start sn_count st size rc ln size' rc' tr :
  st_ok sz len size st → 0 <= size → 0 <= sn_count →
  missing_size_loop fuel e m sn_start sn_count rc size sz = Ok (size', rc', tr) →
  ∃ st' ln', generate_missing_loop fuel e m st sn_start sn_count ln = Ok (st', ln', tr) ∧
    st_ok sz len size' st' ∧ 0 <= size' ∧ rc <= rc' ∧ (1 <= sn_count → tr = false → rc < rc').
Proof.
  revert sn_start sn_count st size rc ln.
  induction fuel as [| fuel IH]; intros sn_start sn_count st size rc ln Hst Hpos Hcount H; simpl in *;
    (destruct (Z.eqb_spec sn_count 0); [simplify_eq; eexists _, _; split; [done |]; split_and!; done || lia |]);
    [done |].
  destruct (cut_range e m sn_start sn_count) as [nk c] eqn:Hcut.
  apply cut_range_count in Hcut; [| lia].
  destruct Hst as (Hat & He1 & Hso). pose proof Hat as (Hwf & Hb & Hbit & Hs & Hl).
  rewrite Hs, Hb. destruct (Z.ltb_spec sz (size + nack_size e nk)) as [Hfull | Hroom].
  { simplify_eq. eexists _, _. split; [done |]. split_and!; try done; lia. }
  destruct (set_bit_at_ok (e_buffer (st_enc st)) (st_e1_byte st) (st_e1_bit st)) as (buf & -> & Hbuf);
    [lia |]. cbn [mbind res_bind].
  set (enc := (st_enc st) <| e_buffer := buf |>).
  assert (Hat' : enc_at enc size sz len).
  { unfold enc_at, enc_wf, enc in *. simpl. split_and!; try done; try lia. }
  destruct (get_e1_position e enc) as [e1b e1bit] eqn:Hpos1.
  assert (He1' : 0 <= e1b < len).
  { unfold get_e1_position in Hpos1. change (e_byte enc) with (e_byte (st_enc st)) in Hpos1.
    pose proof (nack_size_pos nk) as Hns. rewrite Hb in Hpos1.
    destruct (sn_field_length e =? 18); simplify_eq; simpl in Hns; lia. }
  destruct (put_nack_ok e enc nk c size sz len Hc Hat' Hroom Hsz Hpos)
    as (enc' & addr & -> & Hat2 & Haddr). cbn [mbind res_bind].
  rewrite nack_bytes_size in H by done. pose proof (nack_size_pos nk) as Hns.
  assert (0 <= b2z (sn_field_length e =? 18)) by (destruct (_ =? _); simpl; lia).
  eapply IH in H as (st' & ln' & -> & Hst' & Hp' & Hrc & Hlt); [| | lia | lia].
  - exists st', ln'. split; [done |]. split; [done |]. split; [done |]. split; [lia |]. intros; lia.
  - split; [exact Hat2 | split; [exact He1' | exact Haddr]].
Qed.
End lockstep.

(** ** SNs of the missing parts *)

(** All SNs the walk handles are in range. *)
Record am_sn_ok (e : nr_rlc_entity_am_t) : Prop := {
  as_next : 0 <= rx_next e < sn_modulus e;
  as_highest : 0 <= rx_highest_status e < sn_modulus e;
  as_pdus : Forall (Forall (λ p, 0 <= pdu_sn p < sn_modulus e)) (m_rx_list (rx e))
}.

Section ranges.
Context (e : nr_rlc_entity_am_t) (Hsn : am_sn_ok e).
Let pdus_ok (l : list nr_rlc_pdu_t) := Forall (λ p, 0 <= pdu_sn p < sn_modulus e) l.

Lemma find_rx_pdu_ok fuel n last l : find_rx_pdu fuel e n last = Ok l → pdus_ok l.
Proof.
  revert n. induction fuel as [| fuel IH]; intros n H; simpl in H; [done |]. inv_bind H.
  assert (Ha : pdus_ok a).
  { unfold nr_rlc_rx_manager_get_pdu_from_sn, znth in E.
    destruct (_ <? 0); [done |]. destruct (_ !! _) as [x |] eqn:El; [| done].
    injection E as <-. destruct Hsn as [_ _ Hp]. rewrite Forall_forall in Hp.
    apply Hp. by eapply list_elem_of_lookup_2. }
  destruct (n =? last); [by injection H as <- |]. destruct a; [by eapply IH | by injection H as <-].
Qed.

Lemma get_next_rx_pdu_ok cur rest l : pdus_ok (cur :: rest) →
  get_next_rx_pdu e cur rest = Ok l → pdus_ok l.
Proof.
  intros Hl H. inversion_clear Hl. unfold get_next_rx_pdu in H. destruct rest; [| by injection H as <-].
  destruct (_ =? _); [by injection H as <-; constructor |]. by eapply find_rx_pdu_ok.
Qed.

(** What [next_missing] returns. *)
Definition missing_ok (m : missing_data_t) : Prop :=
  pdus_ok (md_next m) ∧
  (md_sn_start m = -1 ∨
   0 <= md_sn_start m < sn_modulus e ∧ 0 <= md_sn_end m < sn_modulus e).

Lemma rem_range x : 0 <= x → 0 <= Z.rem x (sn_modulus e) < sn_modulus e.
Proof. intros. apply Z.rem_bound_pos; [done |]. destruct Hsn. lia. Qed.

Lemma before_highest_range : 0 <= before_highest_status e < sn_modulus e.
Proof. apply rem_range. destruct Hsn. lia. Qed.

Lemma set_end_ok cur rest m :
  pdus_ok (cur :: rest) → 0 <= md_sn_start m < sn_modulus e → pdus_ok (md_next m) →
  missing_ok (set_end_different_sdu e cur m).
Proof.
  intros Hl Hs Hn. inversion_clear Hl as [| ? ? Hcur Hrest]. unfold set_end_different_sdu.
  pose proof before_highest_range as Hb.
  assert (Hp : 0 <= Z.rem (pdu_sn cur - 1 + sn_modulus e) (sn_modulus e) < sn_modulus e)
    by (apply rem_range; lia).
  destruct (pdu_is_first cur); destruct (not_reported e _); split; simpl; auto; constructor.
Qed.

Lemma missing_at_end_ok cur rest max_so last : pdus_ok (cur :: rest) →
  missing_ok (missing_at_end e cur max_so last).
Proof.
  intros Hl. inversion_clear Hl as [| ? ? Hcur Hrest]. unfold missing_at_end.
  pose proof before_highest_range as Hb.
  assert (Hp : 0 <= Z.rem (pdu_sn cur + 1) (sn_modulus e) < sn_modulus e)
    by (apply rem_range; lia).
  destruct (negb _); [| destruct last]; destruct (not_reported e _); split; simpl; auto; constructor.
Qed.

Lemma missing_before_ok n max_so last cur rest :
  pdus_ok (cur :: rest) → 0 <= n < sn_modulus e →
  missing_ok (missing_before e n max_so last cur (cur :: rest)).
Proof.
  intros Hl Hn. unfold missing_before.
  assert (Hp : 0 <= Z.rem (n + 1) (sn_modulus e) < sn_modulus e) by (apply rem_range; lia).
  destruct (pdu_sn cur =? n).
  - destruct (not_reported e n); split; simpl; auto.
  - destruct last; destruct (not_reported e _); try (split; simpl; auto; fail).
    all: by eapply set_end_ok.
Qed.

Lemma next_pdu_loop_ok fuel cur rest max_so last m :
  pdus_ok (cur :: rest) → next_pdu_loop fuel e cur rest max_so last = Ok m → missing_ok m.
Proof.
  revert cur rest max_so last. induction fuel as [| fuel IH]; intros cur rest max_so last Hl H;
    simpl in H; [done |]. inv_bind H. pose proof (get_next_rx_pdu_ok _ _ _ Hl E) as Ha.
  destruct a as [| c r]; [injection H as <-; by eapply missing_at_end_ok |].
  destruct (_ && _); [by eapply IH |]. destruct (_ && _); [by eapply IH |].
  injection H as <-. apply missing_before_ok; [done |]. by inversion Hl.
Qed.

Lemma next_missing_ok cur rest check m :
  pdus_ok (cur :: rest) → next_missing e cur rest check = Ok m → missing_ok m.
Proof.
  intros Hl H. unfold next_missing in H. destruct (_ && _).
  - destruct (not_reported e (rx_next e)); injection H as <-.
    + split; [constructor | by left].
    + eapply set_end_ok; [done | apply Hsn | done].
  - by eapply next_pdu_loop_ok.
Qed.

Lemma missing_sn_count_pos m :
  missing_ok m → md_sn_start m ≠ -1 → 1 <= missing_sn_count e m.
Proof.
  intros [_ [H | [H1 H2]]] Hne; [done |]. unfold missing_sn_count.
  pose proof (rem_range (md_sn_end m - md_sn_start m + sn_modulus e)). lia.
Qed.

(** ** The whole STATUS PDU *)

Context (sz len : Z) (Hc : am_config e) (Hsz : sz <= len).

Lemma force_so_end_ok size st : st_ok sz len size st →
  ∃ st', force_so_end st = Ok st' ∧ st_ok sz len size st'.
Proof.
  intros (Hat & He1 & Hso). pose proof Hat as (Hwf & Hb & Hbit & Hs & Hl). unfold force_so_end.
  destruct (st_so_end st) as [a |] eqn:Ea.
  2:{ exists st. split; [done |]. unfold st_ok. rewrite Ea. done. }
  rewrite zset_Ok by lia. cbn [mbind res_bind]. rewrite zset_Ok by (rewrite zlen_insert; lia).
  cbn [mbind res_bind]. eexists. split; [done |]. unfold st_ok, enc_at, enc_wf in *. simpl.
  rewrite !zlen_insert. split_and!; done || lia.
Qed.

Lemma status_lockstep fuel cur check count size st ln n :
  pdus_ok cur → check = (count =? 0) → 0 <= count → st_ok sz len size st → 0 <= size →
  status_size_loop fuel e cur count size sz = Ok n →
  ∃ st' ln', generate_status_loop fuel e cur check st ln = Ok (st', ln') ∧ st_ok sz len n st'.
Proof.
  revert cur check count size st ln.
  induction fuel as [| fuel IH]; intros [| c r] check count size st ln Hl Hck Hcnt Hst Hpos H; simpl in *;
    try (by simplify_eq; eauto).
  rewrite <- Hck in H. inv_bind H. pose proof (next_missing_ok _ _ _ _ Hl E) as Hm.
  rewrite E. cbn [mbind res_bind]. destruct (Z.eqb_spec (md_sn_start a) (-1)); [by simplify_eq; eauto |].
  inv_bind H. destruct a0 as [[size' k] tr].
  pose proof (missing_sn_count_pos a Hm n0) as Hk.
  destruct (missing_lockstep e sz len Hc Hsz _ _ _ _ st _ _ (-1) _ _ _ Hst Hpos
              (Z.le_trans 0 1 _ ltac:(lia) Hk) E0)
    as (st' & ln' & Hg & Hst' & Hp' & Hrc & Hlt).
  unfold generate_missing. rewrite Hg. cbn [mbind res_bind].
  assert (Hf : ∃ st2, (if tr then force_so_end st' else Ok st') = Ok st2 ∧ st_ok sz len size' st2)
    by (destruct tr; [by apply force_so_end_ok | eauto]).
  destruct Hf as (st2 & -> & Hst2). cbn [mbind res_bind].
  destruct tr.
  - assert (H0 : ∀ b x, generate_status_loop fuel e [] b st2 x = Ok (st2, x)) by (by destruct fuel).
    assert (H1 : ∀ x y, status_size_loop fuel e [] x y sz = Ok y) by (by destruct fuel).
    rewrite H1 in H. simplify_eq. eauto.
  - eapply IH; [apply Hm | | | exact Hst2 | done | exact H]; [| lia].
    specialize (Hlt Hk eq_refl). symmetry. apply Z.eqb_neq. lia.
Qed.
End ranges.

Lemma put_ack_sn_ok e buf n : 3 <= zlen buf → ∃ buf', put_ack_sn e buf n = Ok buf' ∧ zlen buf' = zlen buf.
Proof.
  intros Hl. unfold put_ack_sn. destruct (_ =? 12).
  - rewrite zset_Ok by lia. cbn [mbind res_bind]. rewrite zset_Ok by (rewrite zlen_insert; lia).
    eexists. split; [done |]. by rewrite !zlen_insert.
  - rewrite zset_Ok by lia. cbn [mbind res_bind]. rewrite zset_Ok by (rewrite zlen_insert; lia).
    cbn [mbind res_bind].
    match goal with |- context [znth ?l 2] =>
      destruct (znth_is_Some l 2) as [x ->]; [rewrite !zlen_insert; lia |] end.
    cbn [deref mbind res_bind]. rewrite zset_Ok by (rewrite !zlen_insert; lia).
    eexists. split; [done |]. by rewrite !zlen_insert.
Qed.

(** The generation does what [status_size] computed, and touches neither the transmission lists
    nor the reception window. *)
Lemma generate_status_size e buffer size n :
  am_config e → am_sn_ok e → 3 <= size <= zlen buffer → status_size e size = Ok n →
  ∃ buf e', generate_status e buffer size = Ok (n, buf, e') ∧ zlen buf = zlen buffer ∧
    status_triggered e' = false ∧ tx_view e' = tx_view e ∧ rx_view e' = rx_view e.
Proof.
  intros Hc Hsn Hsize H. unfold status_size in H. revert H. decide_false (size <? 3). intros H.
  inv_bind H. unfold generate_status. decide_false (size <? 3).
  assert (Hw0 : enc_wf (nr_rlc_pdu_encoder_init buffer size)) by (apply enc_wf_init; lia).
  assert (Ha : enc_adv (nr_rlc_pdu_encoder_init buffer size) 0 (nr_rlc_pdu_encoder_init buffer size))
    by (split_and!; done).
  destruct (put_adv _ _ _ 0 (8 * 3) Ha) as (enc & -> & Hadv); [lia | unfold enc_pos; simpl; lia |].
  cbn [mbind res_bind]. rewrite E. cbn [mbind res_bind].
  assert (Hat : enc_at enc 3 size (zlen buffer)).
  { eapply (enc_at_adv (nr_rlc_pdu_encoder_init buffer size) 0 size (zlen buffer) 3);
      [by split_and! | exact Hadv]. }
  match goal with |- context [generate_status_loop ?f e a true ?st ?ln] =>
    destruct (status_lockstep e Hsn size (zlen buffer) Hc ltac:(lia) f a true 0 3 st ln n)
      as (st' & ln' & -> & Hst') end; try done.
  - unfold get_first_rx_pdu in E. by eapply find_rx_pdu_ok.
  - split; [done |]. split; [simpl; lia | done].
  - cbn [mbind res_bind]. destruct Hst' as ((_ & Hb & _ & _ & Hl) & _).
    destruct (put_ack_sn_ok e (e_buffer (st_enc st')) (Z.rem (ln' + 1) (sn_modulus e)))
      as (buf & -> & Hlb); [lia |]. cbn [mbind res_bind]. rewrite Hb.
    eexists _, _. split; [done |]. split; [congruence |]. by split_and!.
Qed.

(** C32: (equivalence) the size announced for the STATUS PDU is the size of the STATUS PDU: given
    the same room, [generate_status] writes exactly the number of bytes [status_size] computed,
    inside the buffer. *)
Theorem am_status_size_exact e buffer size n :
  am_config e → am_sn_ok e → 3 <= size <= zlen buffer → status_size e size = Ok n →
  ∃ buf e', generate_status e buffer size = Ok (n, buf, e') ∧ zlen buf = zlen buffer ∧
    status_triggered e' = false.
Proof.
  intros Hc Hsn Hsize H. destruct (generate_status_size e buffer size n Hc Hsn Hsize H) as (buf & e' & E & Hl & Ht & _).
  by exists buf, e'.
Qed.

(** SDU 1 received, SDU 0 half received: two NACKs would be needed for SDU 0 and SDU 2. *)
Definition am12_status : nr_rlc_entity_am_t :=
  am12 <| rx ::= λ m, m <| m_rx_list :=
            [mk_pdu 0 (Some [1; 2; 3]) 3 0 true false] :: [mk_pdu 1 None 1 0 true true] ::
            replicate 2046 [] |> |>
       <| rx_highest_status := 3 |> <| rx_next_highest := 3 |> <| status_triggered := true |>.

Lemma am_status_size_exact_witness :
  ∃ buf e', generate_status am12_status (zeros 20) 20 = Ok (11, buf, e') ∧
    zlen buf = zlen (zeros 20) ∧ status_triggered e' = false.
Proof.
  apply (am_status_size_exact am12_status (zeros 20) 20 11);
    [left; done | | vm_compute; intuition congruence | vm_compute; reflexivity].
  constructor; [vm_compute; intuition congruence.. |].
  change (m_rx_list (rx am12_status)) with ([mk_pdu 0 (Some [1; 2; 3]) 3 0 true false] ::
    [mk_pdu 1 None 1 0 true true] :: replicate 2046 []).
  constructor; [repeat constructor; vm_compute; congruence |].
  constructor; [repeat constructor; vm_compute; congruence |].
  apply Forall_replicate. constructor.
Defined.

(** The window full up to its last SDU, the first segment of [rx_next] missing, and
    [rx_highest_status] one window after [rx_next]. *)
Definition am12_alias : nr_rlc_entity_am_t :=
  am12 <| rx ::= λ m, m <| m_rx_list :=
            [mk_pdu 0 (Some [1; 2; 3]) 3 3 false false] :: replicate 2046 [] ++
            [[mk_pdu 2047 (Some [1; 2; 3]) 3 0 true false]] |> |>
       <| rx_highest_status := 2048 |> <| rx_next_highest := 2048 |>.

(** (error) SNs one window apart share a slot: after the last SDU of a full window the walk
    finds the segments of [rx_next] again, and reports SDU 2047 and all the SNs after it up to
    [rx_next] = 0 as missing, half of the SN space of which was never sent. *)
Theorem am_status_window_alias :
  ∃ m, next_missing am12_alias (mk_pdu 2047 (Some [1; 2; 3]) 3 0 true false) [] false = Ok m ∧
    md_sn_start m = 2047 ∧ md_so_start m = 3 ∧ md_sn_end m = rx_next am12_alias ∧ missing_sn_count am12_alias m = 2050.
Proof. eexists. split; [vm_compute; reflexivity |]. by vm_compute. Qed.

(** ** NR RLC AM: a STATUS PDU can always be generated *)

(** ** The segments of the window, in order *)

Section walk.
Context (e : nr_rlc_entity_am_t) (Hc : am_rx_core e).

Let Hb : am_rx_base e := ap_base e (ar_pre e Hc).
Let HP := ap_win e (ar_pre e Hc).
Abbreviation off := (modulus_rx e).
Abbreviation hs := (modulus_rx e (rx_highest_status e)).

(** Number of segments at positions [i] and above. *)
Definition later (i : Z) : nat := length (concat (map (content e) (seqZ i (window_size e - i)))).

Lemma later_cons i : i < window_size e → later i = (length (content e i) + later (i + 1))%nat.
Proof using.
  intros Hi. unfold later. rewrite seqZ_cons by lia. cbn [map concat]. rewrite length_app.
  by replace (Z.pred (window_size e - i)) with (window_size e - (i + 1)) by lia.
Qed.

Lemma later_mono i j : i <= j → (later j <= later i)%nat.
Proof using.
  intros Hij. remember (Z.to_nat (j - i)) as k eqn:Ek. revert i Hij Ek. induction k as [| k IH]; intros i Hij Ek.
  - by replace j with i by lia.
  - etransitivity; [apply (IH (i + 1)); lia |]. destruct (Z.ltb_spec i (window_size e)) as [Hlt | Hge].
    + rewrite (later_cons i Hlt). lia.
    + unfold later. rewrite !seqZ_nil by lia. done.
Qed.

(** All stored segments are in the window. *)
Lemma later_all : later 0 = length (concat (m_rx_list (rx e))).
Proof using Hc.
  pose proof (base_sizes e Hb) as (S1 & _). pose proof (rw_len _ (ab_wf e Hb)) as Hlen.
  pose proof (rw_start _ (ab_wf e Hb)) as Hst. rewrite (ab_size e Hb) in Hlen, Hst.
  set (l := m_rx_list (rx e)) in *. set (s := Z.to_nat (m_start (rx e))).
  assert (Hs : Z.of_nat s = m_start (rx e)) by lia.
  assert (E : map (content e) (seqZ 0 (window_size e)) = drop s l ++ take s l).
  { apply list_eq. intros k. unfold zlen in Hlen. destruct (decide (k < length l)%nat) as [Hk | Hk].
    - rewrite list_lookup_fmap, (proj2 (lookup_seqZ _ _ _ (0 + Z.of_nat k))) by lia. cbn [fmap option_fmap option_map].
      assert (Hv : content e (0 + Z.of_nat k) = default [] (l !! Z.to_nat ((m_start (rx e) + Z.of_nat k) mod window_size e))).
      { unfold content_of. rewrite (ab_size e Hb), Z.add_0_l, znth_lookup; [done |]. apply Z.mod_pos_bound. lia. }
      rewrite Hv, mod_wrap by lia. clear Hv.
      destruct (Z.ltb_spec (m_start (rx e) + Z.of_nat k) (window_size e)).
      + rewrite lookup_app_l by (rewrite length_drop; lia). rewrite lookup_drop.
        destruct (lookup_lt_is_Some_2 l (s + k)%nat) as [x Hx]; [lia |].
        rewrite Hx. replace (Z.to_nat _) with (s + k)%nat by lia. by rewrite Hx.
      + rewrite lookup_app_r by (rewrite length_drop; lia). rewrite lookup_take_lt by (rewrite length_drop; lia).
        rewrite length_drop. destruct (lookup_lt_is_Some_2 l (k - (length l - s))%nat) as [x Hx]; [lia |].
        rewrite Hx. replace (Z.to_nat _) with (k - (length l - s))%nat by lia. by rewrite Hx.
    - rewrite !lookup_ge_None_2; [done | rewrite length_app, length_drop, length_take; lia |].
      rewrite length_map, length_seqZ. lia. }
  unfold later. rewrite Z.sub_0_r, E, concat_app, length_app, Nat.add_comm, <- length_app, <- concat_app. by rewrite take_drop.
Qed.

(** A suffix of the segments at position [i], not after [rx_highest_status]. *)
Definition at_pos (i : Z) (l : list nr_rlc_pdu_t) : Prop :=
  0 <= i < window_size e ∧ i <= hs ∧ l `suffix_of` content e i.

Lemma at_pos_head i c r : at_pos i (c :: r) → 0 <= pdu_sn c < sn_modulus e ∧ off (pdu_sn c) = i.
Proof using Hc.
  intros (Hi & _ & [pre E]). destruct (wp_lists _ _ _ _ _ HP i Hi) as [Hl _]. rewrite E in Hl.
  apply Forall_app in Hl as [_ Hl]. apply Forall_cons in Hl as [(H1 & H2 & _) _]. done.
Qed.

Lemma at_pos_tail i c r : at_pos i (c :: r) → at_pos i r.
Proof using. intros (Hi & Hh & Hs). split; [done |]. split; [done |]. by eapply suffix_cons_l. Qed.

Lemma hs_range : 0 <= rx_highest_status e < sn_modulus e ∧ 0 <= hs <= window_size e.
Proof using Hc.
  pose proof (ap_highest e (ar_pre e Hc)) as H2. pose proof (off_range e Hb _ H2). pose proof (wp_hn _ _ _ _ _ HP).
  pose proof (ar_hs e Hc). split; [done | lia].
Qed.

(** The window position [window_size] is that of [rx_next]. *)
Lemma at_pos_content j : 0 <= j <= hs → at_pos (if j =? window_size e then 0 else j) (content e j).
Proof using Hc.
  intros Hj. pose proof hs_range as [_ Hh]. pose proof (base_sizes e Hb) as (S1 & _).
  destruct (Z.eqb_spec j (window_size e)) as [-> |].
  - split; [lia |]. split; [lia |]. pose proof (content_wrap e Hb 0) as Hw. rewrite Z.add_0_l in Hw. by rewrite Hw.
  - split; [lia |]. split; [lia | done].
Qed.

(** ** [get_first_rx_pdu] and [get_next_rx_pdu] *)

(** The first position with segments from that of [n] up to [rx_highest_status]. *)
Lemma find_ok fuel n :
  0 <= n < sn_modulus e → off n <= hs → hs - off n < Z.of_nat fuel →
  ∃ j, find_rx_pdu fuel e n (rx_highest_status e) = Ok (content e j) ∧ off n <= j <= hs ∧
    ∀ k, off n <= k < j → content e k = [].
Proof using Hc.
  pose proof hs_range as [Hr Hh]. pose proof (base_sizes e Hb) as (S1 & S2 & _).
  revert n. induction fuel as [| fuel IH]; intros n Hn Hle Hf; [lia |]. cbn [find_rx_pdu].
  rewrite (get_content e Hb n Hn). cbn [mbind res_bind].
  destruct (Z.eqb_spec n (rx_highest_status e)) as [-> | Hne].
  { exists hs. split; [done |]. split; [lia |]. intros; lia. }
  destruct (content e (off n)) as [| p l] eqn:El.
  2:{ exists (off n). rewrite El. split; [done |]. split; [lia |]. intros; lia. }
  assert (Hlt : off n < hs).
  { destruct (Z.eq_dec (off n) hs) as [E |]; [| lia]. exfalso. apply Hne. by apply (off_inj e Hb). }
  destruct (off_next e Hb n Hn) as [Hn' Ho]; [lia |].
  destruct (IH _ Hn') as (j & E & Hj & Hk); [lia | lia |]. exists j. split; [done |]. split; [lia |].
  intros k Hkr. destruct (Z.eq_dec k (off n)) as [-> |]; [done |]. apply Hk. lia.
Qed.

Lemma first_ok : ∃ j, get_first_rx_pdu e = Ok (content e j) ∧ 0 <= j <= hs.
Proof using Hc.
  pose proof hs_range as [Hr Hh]. pose proof (base_sizes e Hb) as (S1 & S2 & _).
  assert (H0 : off (rx_next e) = 0) by (unfold modulus_rx; by rewrite Z.sub_diag).
  destruct (find_ok (Z.to_nat (sn_modulus e)) (rx_next e) (ab_next e Hb)) as (j & E & Hj & _); [lia | lia |].
  exists j. split; [done | lia].
Qed.

(** The PDUs after [cur]: of the same SDU, of a later one, or none. *)
Lemma next_ok i cur rest :
  at_pos i (cur :: rest) →
  ∃ l, get_next_rx_pdu e cur rest = Ok l ∧
    (l = [] ∨ rest ≠ [] ∧ l = rest ∨
     rest = [] ∧ ∃ j, i < j <= hs ∧ l = content e j ∧ ∀ k, i < k < j → content e k = []).
Proof using Hc.
  intros Hat. destruct (at_pos_head _ _ _ Hat) as [Hn Hi]. pose proof Hat as (Hr & Hle & _).
  pose proof hs_range as [Hhr Hh]. pose proof (base_sizes e Hb) as (S1 & S2 & _).
  unfold get_next_rx_pdu. destruct rest as [| c r]; [| eexists; split; [done |]; right; by left].
  destruct (Z.eqb_spec (pdu_sn cur) (rx_highest_status e)) as [E | Hne]; [exists []; auto |].
  assert (Hlt : i < hs).
  { destruct (Z.eq_dec i hs) as [E |]; [| lia]. exfalso. apply Hne. apply (off_inj e Hb); try done. by rewrite Hi. }
  destruct (off_next e Hb (pdu_sn cur) Hn) as [Hn' Ho]; [lia |]. rewrite Hi in Ho.
  destruct (find_ok (Z.to_nat (sn_modulus e)) _ Hn') as (j & E & Hj & Hk); [lia | lia |].
  eexists. split; [exact E |]. right. right. split; [done |]. exists j. split; [lia |]. split; [done |].
  intros k Hkr. apply Hk. lia.
Qed.

(** A list of segments the walk can start from. *)
Definition walkable (l : list nr_rlc_pdu_t) : Prop := l = [] ∨ ∃ i, at_pos i l.

Lemma walkable_content j : 0 <= j <= hs → walkable (content e j).
Proof using Hc. intros Hj. right. eexists. by apply at_pos_content. Qed.

(** At position [window_size] the walk stops: the segments found there are those of [rx_next]. *)
Lemma wrap_stops i cur c r :
  at_pos i [cur] → hs = window_size e → content e (window_size e) = c :: r →
  (∀ k, i < k < window_size e → content e k = []) →
  pdu_sn c ≠ pdu_sn cur ∧ pdu_sn c ≠ Z.rem (pdu_sn cur + 1) (sn_modulus e).
Proof using Hc.
  intros Hat Hw Ec Hk. destruct (at_pos_head _ _ _ Hat) as [Hn Hi]. pose proof Hat as (Hr & Hle & _).
  pose proof (base_sizes e Hb) as (S1 & S2 & _).
  assert (2048 <= window_size e) by (destruct (ab_cfg e Hb) as [(_ & _ & ->) | (_ & _ & ->)]; lia).
  pose proof (content_wrap e Hb 0) as Hwr. rewrite Z.add_0_l, Ec in Hwr.
  assert (H0 : off (pdu_sn c) = 0).
  { eapply (at_pos_head 0 c r). split; [lia |]. split; [lia |]. by rewrite <- Hwr. }
  pose proof (wp_top _ _ _ _ _ HP) as P4. pose proof (wp_hn _ _ _ _ _ HP) as P2. pose proof (ar_hs e Hc) as H7.
  assert (Htop : content e (window_size e - 1) ≠ []).
  { replace (window_size e - 1) with (off (rx_next_highest e) - 1) by lia. apply P4. lia. }
  destruct (off_next e Hb (pdu_sn cur) Hn) as [_ Ho]; [lia |]. split; intros E.
  - rewrite E in H0. apply Htop, Hk. lia.
  - rewrite E in H0. lia.
Qed.

Lemma next_pdu_loop_total fuel i cur rest max_so last_reached :
  at_pos i (cur :: rest) → (length rest + later (i + 1) < fuel)%nat →
  ∃ m, next_pdu_loop fuel e cur rest max_so last_reached = Ok m ∧ walkable (md_next m).
Proof using Hc.
  revert i cur rest max_so last_reached.
  induction fuel as [| fuel IH]; intros i cur rest max_so last_reached Hat Hf; [lia |]. cbn [next_pdu_loop].
  destruct (next_ok i cur rest Hat) as (l & -> & Hl). cbn [mbind res_bind].
  set (mso := if max_so <? _ then _ else max_so). set (lr := last_reached || pdu_is_last cur).
  destruct l as [| c r].
  { eexists. split; [done |]. left. unfold missing_at_end. destruct (negb _), lr; by destruct (not_reported e _). }
  assert (Hwalk : walkable (c :: r)).
  { destruct Hl as [| [[_ E] | (_ & j & Hj & E & _)]]; [done | right; exists i; rewrite E; by eapply at_pos_tail |].
    rewrite E. apply walkable_content. destruct Hat as (? & _). lia. }
  assert (Hstop : ∃ m, Ok (missing_before e (pdu_sn cur) mso lr c (c :: r)) = Ok m ∧ walkable (md_next m)).
  { eexists. split; [done |]. unfold missing_before, set_end_different_sdu.
    destruct (pdu_sn c =? pdu_sn cur), (pdu_is_first c), lr; repeat (destruct (not_reported e _); simpl); done || by left. }
  (* continuing the walk *)
  assert (Hgo : (pdu_sn c = pdu_sn cur ∨ pdu_sn c = Z.rem (pdu_sn cur + 1) (sn_modulus e)) →
    ∀ ms b, ∃ m, next_pdu_loop fuel e c r ms b = Ok m ∧ walkable (md_next m)).
  { intros Hcase ms b. destruct Hl as [| [[_ E] | (E0 & j & Hj & E & Hk)]]; [done | |]; subst rest.
    - apply (IH i); [by eapply at_pos_tail | simpl in Hf; lia].
    - destruct (Z.eq_dec j (window_size e)) as [-> | Hne].
      + pose proof hs_range as [_ Hh]. destruct (wrap_stops i cur c r Hat); [lia | done | done | by destruct Hcase].
      + pose proof (at_pos_content j) as Hj'. rewrite <- E in Hj'. pose proof Hat as (? & _).
        revert Hj'. decide_false (j =? window_size e). intros Hj'. pose proof hs_range as [_ Hh].
        apply (IH j); [apply Hj'; lia |].
        pose proof (later_mono (i + 1) j ltac:(lia)) as Hm. rewrite (later_cons j), <- E in Hm by lia. simpl in Hm. lia. }
  destruct (Z.eqb_spec (pdu_sn c) (pdu_sn cur)) as [E |]; cbn [andb].
  - destruct (pdu_so c - 1 <=? mso); [apply Hgo; by left |].
    destruct (Z.eqb_spec (pdu_sn c) (Z.rem (pdu_sn cur + 1) (sn_modulus e))); cbn [andb];
      [destruct (lr && _); [apply Hgo; by left | done] | done].
  - destruct (Z.eqb_spec (pdu_sn c) (Z.rem (pdu_sn cur + 1) (sn_modulus e))); cbn [andb]; [| done].
    destruct (lr && _); [apply Hgo; by right | done].
Qed.

Lemma next_missing_total i cur rest check :
  at_pos i (cur :: rest) → ∃ m, next_missing e cur rest check = Ok m ∧ walkable (md_next m).
Proof using Hc.
  intros Hat. unfold next_missing. destruct (check && _).
  - unfold set_end_different_sdu. destruct (pdu_is_first cur);
      repeat (destruct (not_reported e _); simpl); eexists; (split; [done |]); by (left; done) || (right; by exists i).
  - pose proof Hat as (Hi & _ & [pre E]). apply (next_pdu_loop_total _ i); [done |]. unfold rx_pdu_count.
    rewrite <- later_all. pose proof (later_mono 0 i ltac:(lia)) as Hm. rewrite (later_cons i), E, length_app in Hm by lia.
    simpl in Hm. lia.
Qed.
End walk.

(** ** The size of the STATUS PDU *)

Lemma missing_size_total e m fuel sn_start sn_count rc size maxsize :
  am_config e → 0 <= sn_count < Z.of_nat fuel → size <= maxsize →
  ∃ size' rc' tr, missing_size_loop fuel e m sn_start sn_count rc size maxsize = Ok (size', rc', tr) ∧
    size <= size' <= maxsize ∧ (tr = false → 0 < sn_count → size + 2 <= size').
Proof.
  intros Hcfg. revert sn_start sn_count rc size.
  induction fuel as [| fuel IH]; intros sn_start sn_count rc size Hf Hle; [lia |]. cbn [missing_size_loop].
  destruct (Z.eqb_spec sn_count 0) as [-> |]; [eexists _, _, _; split; [done |]; lia |].
  destruct (cut_range e m sn_start sn_count) as [nk c] eqn:Ecut. apply cut_range_count in Ecut; [| lia].
  destruct (Z.ltb_spec maxsize (size + nack_size e nk)) as [| Hroom]; [eexists _, _, _; split; [done |]; split; [lia | done] |].
  rewrite nack_bytes_size by done. pose proof (nack_size_pos e nk) as Hpos.
  assert (0 <= b2z (sn_field_length e =? 18)) by (destruct (_ =? 18); simpl; lia).
  destruct (IH (Z.rem (sn_start + c) (sn_modulus e)) (sn_count - c) (rc + 1) (size + nack_size e nk))
    as (size' & rc' & tr & E & Hs & _); [lia | lia |].
  exists size', rc', tr. split; [done |]. split; [lia |]. intros _ _. lia.
Qed.

Section total.
Context (e : nr_rlc_entity_am_t) (Hi : am_rx_inv e).

Let Hc := ai_core e Hi.
Let Hb : am_rx_base e := ap_base e (ar_pre e Hc).

(** All SNs of the window are in range. *)
Lemma rx_sn_ok : am_sn_ok e.
Proof using Hi.
  constructor; [apply Hb | apply (ap_highest e (ar_pre e Hc)) |]. apply Forall_lookup. intros p l Hl.
  pose proof (base_sizes e Hb) as (S1 & _). pose proof (rw_len _ (ab_wf e Hb)) as Hlen.
  pose proof (rw_start _ (ab_wf e Hb)) as Hst. rewrite (ab_size e Hb) in Hlen, Hst.
  pose proof (lookup_lt_Some _ _ _ Hl) as Hp. unfold zlen in Hlen.
  set (i := (Z.of_nat p - m_start (rx e)) mod window_size e).
  assert (Hir : 0 <= i < window_size e) by (apply Z.mod_pos_bound; lia).
  assert (El : content e i = l).
  { unfold content_of, i. rewrite (ab_size e Hb), Z.add_mod_idemp_r, Zplus_minus, Z.mod_small by lia.
    rewrite znth_lookup, Nat2Z.id, Hl by lia. done. }
  destruct (wp_lists _ _ _ _ _ (ap_win e (ar_pre e Hc)) i Hir) as [Hh _]. rewrite El in Hh.
  eapply Forall_impl; [exact Hh |]. by intros q (Hq & _).
Qed.

Lemma status_size_loop_total fuel l count size maxsize :
  walkable e l → size <= maxsize → maxsize - size < Z.of_nat fuel →
  ∃ n, status_size_loop fuel e l count size maxsize = Ok n ∧ size <= n <= maxsize.
Proof using Hi.
  revert l count size. induction fuel as [| fuel IH]; intros l count size Hl Hle Hf; [lia |].
  destruct l as [| c r]; cbn [status_size_loop]; [exists size; split; [done | lia] |].
  destruct Hl as [| [i Hat]]; [done |].
  destruct (next_missing_total e Hc i c r (count =? 0) Hat) as (m & E & Hm). rewrite E. cbn [mbind res_bind].
  destruct (Z.eqb_spec (md_sn_start m) (-1)) as [| Hne]; [exists size; split; [done | lia] |].
  assert (Hcount : 1 <= missing_sn_count e m).
  { apply missing_sn_count_pos; [apply rx_sn_ok | | done]. eapply next_missing_ok; [apply rx_sn_ok | | exact E].
    destruct Hat as (Hir & _ & [pre Ec]). destruct (wp_lists _ _ _ _ _ (ap_win e (ar_pre e Hc)) i Hir) as [Hh _].
    rewrite Ec in Hh. apply Forall_app in Hh as [_ Hh]. eapply Forall_impl; [exact Hh |]. by intros q (Hq & _). }
  unfold missing_size.
  destruct (missing_size_total e m (S (Z.to_nat (missing_sn_count e m))) (md_sn_start m) (missing_sn_count e m) 0 size maxsize
              (ab_cfg e Hb)) as (size' & k & tr & -> & Hs & Hgrow); [lia | lia |].
  cbn [mbind res_bind]. destruct tr.
  - exists size'. split; [by destruct fuel | lia].
  - specialize (Hgrow eq_refl ltac:(lia)). destruct (IH (md_next m) (count + k) size' Hm) as (n & En & Hn); [lia | lia |].
    exists n. split; [done | lia].
Qed.

(** The size announced is computed for every room, and fits it. *)
Lemma status_size_ok maxsize : ∃ n, status_size e maxsize = Ok n ∧ (3 <= maxsize → 3 <= n <= maxsize).
Proof using Hi.
  unfold status_size. destruct (Z.ltb_spec maxsize 3); [exists 0; split; [done | lia] |].
  destruct (first_ok e Hc) as (j & -> & Hj). cbn [mbind res_bind].
  destruct (status_size_loop_total (S (Z.to_nat maxsize)) (content e j) 0 3 maxsize) as (n & E & Hn); [| lia | lia |].
  - by apply walkable_content.
  - exists n. split; [done | lia].
Qed.

Lemma generate_status_ok buffer size :
  size <= zlen buffer →
  ∃ n buf e', generate_status e buffer size = Ok (n, buf, e') ∧ zlen buf = zlen buffer ∧
    tx_view e' = tx_view e ∧ rx_view e' = rx_view e ∧ 0 <= n <= Z.max 0 size.
Proof using Hi.
  intros Hsize. destruct (Z.ltb_spec size 3) as [Hlt | Hge].
  { exists 0, buffer, e. unfold generate_status. decide_true (size <? 3). split_and!; (done || lia). }
  destruct (status_size_ok size) as (n & En & Hn).
  destruct (generate_status_size e buffer size n (ab_cfg e Hb) rx_sn_ok) as (buf & e' & E & Hl & _ & Ht & Hr); [lia | done |].
  exists n, buf, e'. split_and!; (done || lia).
Qed.
End total.
