(* ===== verification/RlcAmRun.v ===== *)
(** * NR RLC AM: every run of the entity is safe

    The invariants of transmission ([am_tx_inv]) and reception ([am_rx_inv]) are kept by every
    operation, and every operation ends without an illegal access, an assertion failure or an
    endless loop, under three conditions on the environment that the code does not check:
    [am_safe_op].  Each of them is necessary in the sense that a theorem or a finding exhibits
    the failure without it. *)

From S2P Require Import Prelude RlcPdu RlcEntity RlcRxManager RlcAm RlcAmControl RlcAmStatus.
From S2P Require Import RlcAmTx RlcAmRx RlcAmProps RlcAmPool RlcAmTxInv RlcAmCtrlInv RlcAmRxInv.
From S2P Require Import RlcAmStatusOk.

(** ** Conditions on the environment *)

(** The D/C bit of a received PDU. *)
Definition is_control (buffer : bytes) : bool := value_of (take 1 (buf_bits buffer)) =? 0.

(** The ACK_SN of a STATUS PDU is not after an SDU that is still partly unsent. *)
Definition ack_after_sentb (e : nr_rlc_entity_am_t) (buffer : bytes) : bool :=
  forallb (λ s, (sn_of (mem (common e)) s =? -1)
                || (sn_compare_tx e (status_ack_sn e buffer) (sn_of (mem (common e)) s) <=? 0)) (tx_list e).

(** When [rx_highest_status] is [rx_next], some later SDU of the window is not delivered. *)
Definition rx_window_openb (e : nr_rlc_entity_am_t) : bool :=
  negb (rx_highest_status e =? rx_next e)
  || existsb (λ i, negb (processed (content e i))) (seqZ 1 (window_size e - 1)).

Definition am_safe_op (e : nr_rlc_entity_am_t) (op : am_op) : bool :=
  match op with
  | AmRecvPdu buffer => if is_control buffer then ack_after_sentb e buffer else rx_window_openb e
  | AmRecvSdu buffer _ _ => zlen buffer <=? NR_SDU_MAX
  | AmGeneratePdu buffer size _ => size <=? zlen buffer
  | AmSetTime now => negb (poll_null (e <| t_current := now |>))
  | AmDiscardSdu _ | AmReestablishment => true
  end.

(** The conditions hold at each step of a run, as far as the run goes. *)
Fixpoint am_polite (e : nr_rlc_entity_am_t) (ops : list am_op) : bool :=
  match ops with
  | [] => true
  | op :: ops => am_safe_op e op && match am_exec e op with Ok e' => am_polite e' ops | _ => true end
  end.

Lemma ack_after_sent_spec e buffer : ack_after_sentb e buffer = true → ack_after_sent e buffer.
Proof.
  unfold ack_after_sentb. rewrite forallb_forall. intros H s Hs Hne. specialize (H s (proj1 (list_elem_of_In _ _) Hs)).
  apply orb_true_iff in H as [H | H]; [apply Z.eqb_eq in H; done | by apply Z.leb_le].
Qed.

Lemma rx_window_open_spec e : rx_window_openb e = true → rx_window_open e.
Proof.
  unfold rx_window_openb. intros H Heq. rewrite Heq, Z.eqb_refl in H. simpl in H.
  apply existsb_exists in H as (i & Hi & Hp). apply list_elem_of_In, elem_of_seqZ in Hi.
  apply negb_true_iff in Hp. exists i. split; [lia | done].
Qed.

Lemma rx_window_open_frame e e' : rx_view e' = rx_view e → rx_window_open e → rx_window_open e'.
Proof.
  unfold rx_view. intros [= E1 E2 E3 E4 E5 E6 E7 E8 E9 E10 E11] H. unfold rx_window_open. by rewrite E1, E4, E6, E11.
Qed.

(** ** The operations *)

Definition am_inv (e : nr_rlc_entity_am_t) : Prop := am_tx_inv e ∧ am_rx_inv e.

Lemma tx_keeps e e' : am_inv e → am_tx_inv e' → rx_view e' = rx_view e → am_inv e'.
Proof. intros [_ Hr] Ht Hv. split; [done | by apply (am_rx_frame e)]. Qed.

Lemma rx_keeps e e' : am_inv e → am_rx_inv e' → tx_view e' = tx_view e → am_inv e'.
Proof. intros [Ht _] Hr Hv. split; [by apply (am_tx_frame e) | done]. Qed.

Lemma am_inv_frame e e' : tx_view e' = tx_view e → rx_view e' = rx_view e → am_inv e → am_inv e'.
Proof. intros Ht Hr [Hi1 Hi2]. split; [by apply (am_tx_frame e) | by apply (am_rx_frame e)]. Qed.

Lemma am_recv_pdu_safe e buffer :
  am_inv e → am_safe_op e (AmRecvPdu buffer) = true → ∃ e', nr_rlc_entity_am_recv_pdu e buffer = Ok e' ∧ am_inv e'.
Proof.
  intros Hi Hs. unfold nr_rlc_entity_am_recv_pdu.
  set (e1 := e <| common ::= λ c, stat rxpdu_bytes (zlen buffer) (stat rxpdu_pkts 1 c) |>).
  assert (Hi1 : am_inv e1) by by apply (am_inv_frame e).
  pose proof (dec_wf_init buffer) as Hd0. set (d0 := nr_rlc_pdu_decoder_init buffer (zlen buffer)) in *.
  match goal with |- context [read_bits ?err d0 1 ?k] =>
    destruct (read_bits_both err d0 1 k Hd0 ltac:(lia)) as [-> | (dc & d1 & -> & _ & Hd1 & Hs1 & Hp1 & _ & Hv & Hr)] end.
  { destruct (discard_view e1 0 (zlen buffer)) as [Ht Hr]. eexists. split; [done |]. by apply (am_inv_frame e1). }
  simpl in Hs. unfold is_control in Hs. change (buf_bits buffer) with (dec_bits d0) in Hs.
  change (Z.to_nat 1) with 1%nat in Hv. rewrite <- Hv in Hs. destruct (dc =? 0).
  - destruct (process_control_pdu_ok e1 buffer) as (e' & E & Ht & Hr'); [apply Hi1 | by apply ack_after_sent_spec |].
    exists e'. split; [done |]. by apply (tx_keeps e1).
  - destruct (recv_data_pdu_ok e1 buffer d1) as (e' & E & Ht & Hr'); try done; [apply Hi1 | |].
    + apply (rx_window_open_frame e); [done |]. by apply rx_window_open_spec.
    + exists e'. split; [done |]. by apply (rx_keeps e1).
Qed.

Lemma am_generate_safe e buffer size now_us :
  am_inv e → size <= zlen buffer →
  ∃ ret buf e', nr_rlc_entity_am_generate_pdu e buffer size now_us = Ok (ret, buf, e') ∧ am_inv e' ∧
    0 <= ret <= Z.max 0 size ∧ zlen buf = zlen buffer.
Proof.
  intros Hi Hsize. unfold nr_rlc_entity_am_generate_pdu.
  assert (H1 : ∃ ret buf e1, (if status_to_report e then generate_status e buffer size else Ok (0, buffer, e)) =
    Ok (ret, buf, e1) ∧ zlen buf = zlen buffer ∧ am_inv e1 ∧ 0 <= ret <= Z.max 0 size).
  { destruct (status_to_report e); [| exists 0, buffer, e; split_and!; (done || lia)].
    destruct (generate_status_ok e (proj2 Hi) buffer size Hsize) as (n & buf & e1 & E & Hl & Ht & Hr & Hn).
    exists n, buf, e1. split_and!; try done; try lia. by apply (am_inv_frame e). }
  destruct H1 as (ret & buf & e1 & -> & Hb1 & Hi1 & Hret). cbn [mbind res_bind].
  destruct (negb (ret =? 0)); [by eexists _, _, _ |].
  assert (H2 : ∃ ret buf2 e2, match retransmit_list e1 with [] => Ok (0, buf, e1) | _ => generate_retx_pdu e1 buf size end =
    Ok (ret, buf2, e2) ∧ (ret = 0 → buf2 = buf) ∧ am_inv e2 ∧ 0 <= ret <= Z.max 0 size ∧ zlen buf2 = zlen buf).
  { destruct (retransmit_list e1) as [| s l] eqn:El; [exists 0, buf, e1; split_and!; (done || lia) |].
    destruct (generate_retx_ok e1 buf size (proj1 Hi1)) as (r & b & e2 & E & Ht & Hr & Hb & Hr2 & Hl2); [by rewrite El | lia |].
    exists r, b, e2. split_and!; try done; try lia. by apply (tx_keeps e1). }
  destruct H2 as (r2 & buf2 & e2 & -> & Hb2 & Hi2 & Hr2 & Hl2). cbn [mbind res_bind].
  destruct (Z.eqb_spec r2 0) as [Hz |]; [simpl | eexists _, _, _; split_and!; (done || lia)]. rewrite (Hb2 Hz).
  destruct (generate_tx_ok e2 buf size now_us (proj1 Hi2)) as (r3 & b3 & e3 & -> & Ht & Hr & Hr3 & Hl3); [lia |].
  eexists _, _, _. split; [done |]. split_and!; try lia; by apply (tx_keeps e2).
Qed.

Lemma am_set_time_safe e now :
  am_inv e → poll_null (e <| t_current := now |>) = false → ∃ e', nr_rlc_entity_am_set_time e now = Ok e' ∧ am_inv e'.
Proof.
  intros Hi Hn. unfold nr_rlc_entity_am_set_time. set (e1 := e <| t_current := now |>) in *.
  assert (Hi1 : am_inv e1) by by apply (am_inv_frame e).
  destruct (check_t_poll_ok e1 (proj1 Hi1) Hn) as (e2 & -> & Ht2 & Hr2). cbn [mbind res_bind].
  assert (Hi2 : am_inv e2) by by apply (tx_keeps e1).
  destruct (am_reassembly_ok e2 (proj2 Hi2)) as (e3 & -> & Ht3 & Hr3). exists e3. split; [done |]. by apply (rx_keeps e2).
Qed.

Lemma am_exec_safe e op : am_inv e → am_safe_op e op = true → ∃ e', am_exec e op = Ok e' ∧ am_inv e'.
Proof.
  intros Hi Hs. destruct op as [buffer | buffer id now_us | buffer size now_us | now | id |]; simpl.
  - by apply am_recv_pdu_safe.
  - apply Z.leb_le in Hs. destruct (recv_sdu_ok e buffer id now_us (proj1 Hi) Hs) as (e' & E & Ht & Hr).
    exists e'. split; [done |]. by apply (tx_keeps e).
  - apply Z.leb_le in Hs. destruct (am_generate_safe e buffer size now_us Hi Hs) as (r & b & e' & -> & Hi' & _).
    by exists e'.
  - apply negb_true_iff in Hs. by apply am_set_time_safe.
  - destruct (discard_sdu_ok e id (proj1 Hi)) as (e' & E & Ht & Hr). exists e'. split; [done |]. by apply (tx_keeps e).
  - destruct (clear_tx_ok e (proj1 Hi)) as (e' & E & Ht & Hr). exists e'. split; [done |].
    split; [done |]. by apply (clear_rx_ok e); [apply Hi |].
Qed.

Lemma am_run_inv e ops : am_inv e → am_polite e ops = true → ∃ e', am_run e ops = Ok e' ∧ am_inv e'.
Proof.
  revert e. induction ops as [| op ops IH]; intros e Hi Hp; [by exists e |]. cbn [am_run am_polite] in *.
  apply andb_true_iff in Hp as [Hs Hp]. destruct (am_exec_safe e op Hi Hs) as (e1 & E & Hi1). rewrite E in *. by apply IH.
Qed.

(** C1: (safety) NR RLC AM, any run of the entity: from its creation, any sequence of received
    data and STATUS PDUs, SDUs, PDU requests, timer ticks, discards and re-establishments is
    executed to its end, without an illegal memory access, a failed assertion or an endless
    loop, and leaves both invariants established: the tail pointers, the ordering of the wait
    and retransmit lists, the reference counts and disjointness of the segments, the reception
    window.  The environment has to avoid only three situations ([am_safe_op]). *)
Theorem am_run_safe rxm txm tpr tr tsp pp pb mrt snlen e ops :
  new_nr_rlc_entity_am rxm txm tpr tr tsp pp pb mrt snlen = Ok e → am_polite e ops = true →
  ∃ e', am_run e ops = Ok e' ∧ am_tx_inv e' ∧ am_rx_inv e'.
Proof.
  intros He Hp. apply (am_run_inv e ops); [| done]. split; [by eapply new_am_tx | by eapply new_am_rx].
Qed.

(** SDUs sent in segments, NACKed, sent again and acknowledged; SDU 1 received before the second
    half of SDU 0, a STATUS PDU generated in between. *)
Definition am_sample_run : list am_op :=
  am_two_sdus ++
  [AmRecvPdu [192; 1; 5; 6]; AmRecvPdu [208; 0; 1; 2]; AmSetTime 100; AmGeneratePdu (zeros 12) 12 0;
   AmRecvPdu [224; 0; 0; 2; 3]; AmSetTime 200; AmGeneratePdu (zeros 12) 12 0; AmRecvPdu (status_ack 2);
   AmDiscardSdu 7; AmReestablishment].

Lemma am_run_safe_witness :
  ∃ e', am_run am12 am_sample_run = Ok e' ∧ am_tx_inv e' ∧ am_rx_inv e'.
Proof.
  apply (am_run_safe 10000 10000 45 35 0 (-1) (-1) 4 12 am12 am_sample_run); vm_compute; reflexivity.
Defined.
