(* ===== verification/Fapi.v ===== *)
(** * nFAPI: packing and unpacking primitives

    Models the fundamental routines of [nfapi/open-nFAPI/common/src/nfapi.c], on which the codecs
    of the messages between a VNF (MAC) and a PNF (PHY) are built.  A pack function receives
    [uint8_t **out, uint8_t *end]: here it is a function of the room left, [end - *out], that
    returns the bytes it appends, or [None] where the code returns 0.  An unpack function
    receives [uint8_t **in, uint8_t *end]: here it is a function of the bytes left, that returns
    the value and the bytes after it.  Reading or writing outside the arrays of a message is
    [UB].  The macro [FAPI_BYTE_ORDERING_BIG_ENDIAN] is the class [ByteOrder].  An array of a
    message is the list of its elements below the count, an optional group of fields is [None]
    when its bit is not set (the code then neither reads nor writes it), and allocation by
    [calloc] succeeds. *)

From S2P Require Import Prelude.

(** [#ifdef FAPI_BYTE_ORDERING_BIG_ENDIAN]. *)
Class ByteOrder := { byte_ordering_big_endian : bool }.

(** ** Writers *)

Definition wr (A : Type) : Type := Z → res (option (bytes * A)).

Definition wret {A} (a : A) : wr A := λ _, Ok (Some ([], a)).

Definition wbind {A B} (w : wr A) (k : A → wr B) : wr B := λ room,
  x ← w room;
  match x with
  | None => Ok None
  | Some (l, a) =>
      y ← k a (room - zlen l);
      Ok (match y with None => None | Some (l', b) => Some (l ++ l', b) end)
  end.

Declare Scope fapi_scope.
Delimit Scope fapi_scope with fapi.
#[global] Open Scope fapi_scope.
Notation "x ⇒ w ; k" := (wbind w (λ x, k))
  (at level 100, w at next level, k at level 200, right associativity, format "x  ⇒  w ;  '//' k") : fapi_scope.
Notation "w ;; k" := (wbind w (λ _, k))
  (at level 100, k at level 200, right associativity, format "w ;;  '//' k") : fapi_scope.

(** [for (i = 0; i < n; i++) f(&array[i])]; the array has the elements of the list. *)
Fixpoint weach {A B} (f : A → wr B) (n : nat) (l : list A) : wr (list B) :=
  match n with
  | O => wret []
  | S n' =>
      match l with
      | [] => λ _, UB
      | a :: l' => b ⇒ f a; bs ⇒ weach f n' l'; wret (b :: bs)
      end
  end.

(** [if (bitmap & bit) f(&group)]; [None] when the fields of the group were never set. *)
Definition wopt {A} (b : bool) (g : option A) (f : A → wr unit) : wr unit :=
  if b then match g with Some a => f a | None => λ _, UB end else wret tt.

(** The loop of a function that changes nothing in the elements. *)
Definition wfor {A} (f : A → wr unit) (n : Z) (l : list A) : wr unit := weach f (Z.to_nat n) l;; wret tt.

(** ** Readers *)

Definition rd (A : Type) : Type := bytes → res (option (A * bytes)).

Definition rret {A} (a : A) : rd A := λ b, Ok (Some (a, b)).
Definition rfail {A} : rd A := λ _, Ok None.

Definition rbind {A B} (r : rd A) (k : A → rd B) : rd B := λ b,
  x ← r b;
  match x with None => Ok None | Some (a, b') => k a b' end.

Notation "x ⇐ r ; k" := (rbind r (λ x, k))
  (at level 100, r at next level, k at level 200, right associativity, format "x  ⇐  r ;  '//' k") : fapi_scope.

(** [for (i = 0; i < n; i++) f(&array[i])] into an array of [cap] elements. *)
Fixpoint reach {A} (f : rd A) (cap : Z) (n : nat) : rd (list A) :=
  match n with
  | O => rret []
  | S n' =>
      if cap <=? 0 then λ _, UB
      else a ⇐ f; l ⇐ reach f (cap - 1) n'; rret (a :: l)
  end.

Definition rfor {A} (f : rd A) (cap n : Z) : rd (list A) := reach f cap (Z.to_nat n).

(** The fields of a group are written only when its bit is set. *)
Definition ropt {A} (b : bool) (r : rd A) : rd (option A) :=
  if b then a ⇐ r; rret (Some a) else rret None.

(** Copy into an array of [cap] elements. *)
Definition into {A} (cap : Z) (r : rd (list A)) : rd (list A) := λ b,
  x ← r b;
  match x with None => Ok None | Some (l, b') => if cap <? zlen l then UB else Ok (Some (l, b')) end.

(** ** Fundamental routines *)

Definition u16 (x : Z) : Z := x mod 65536.

(** Ranges of the field types. *)
Definition is_u8 (x : Z) : Prop := 0 <= x < 256.
Definition is_u16 (x : Z) : Prop := 0 <= x < 65536.
Definition is_u32 (x : Z) : Prop := 0 <= x < 4294967296.
Definition is_s16 (x : Z) : Prop := -32768 <= x < 32768.

(** A group is there exactly when its bit is set. *)
Definition opt_wf {A} (b : bool) (P : A → Prop) (g : option A) : Prop :=
  match g with Some a => b = true ∧ P a | None => b = false end.

(** [x & m] as a condition. *)
Definition flag (x m : Z) : bool := negb (Z.land x m =? 0).

Section primitives.
Context `{BO : ByteOrder}.

(** Order of the octets of a field, most significant first. *)
Definition ordered (l : bytes) : bytes := if byte_ordering_big_endian then rev l else l.

Definition push8 (v : Z) : wr unit := λ room,
  if 1 <=? room then Ok (Some ([u8 v], tt)) else Ok None.

Definition push16 (v : Z) : wr unit := λ room,
  if 2 <=? room
  then Ok (Some (ordered [Z.shiftr (Z.land v 0xFF00) 8; Z.land v 0xFF], tt)) else Ok None.

Definition pushs16 (v : Z) : wr unit := λ room,
  if 2 <=? room
  then Ok (Some (ordered [Z.shiftr (Z.land v 0xFF00) 8; Z.land v 0xFF], tt)) else Ok None.

Definition push32 (v : Z) : wr unit := λ room,
  if 4 <=? room
  then Ok (Some (ordered [Z.shiftr (Z.land v 0xFF000000) 24; Z.shiftr (Z.land v 0xFF0000) 16;
                          Z.shiftr (Z.land v 0xFF00) 8; Z.land v 0xFF], tt)) else Ok None.

Definition pull8 : rd Z := λ b,
  match b with p0 :: b => Ok (Some (p0, b)) | _ => Ok None end.

Definition pull16 : rd Z := λ b,
  match b with
  | p0 :: p1 :: b =>
      Ok (Some (if byte_ordering_big_endian then Z.lor (Z.shiftl p1 8) p0 else Z.lor (Z.shiftl p0 8) p1, b))
  | _ => Ok None
  end.

(** The conversion to [int16_t]. *)
Definition s16 (x : Z) : Z := if x <? 32768 then x else x - 65536.

Definition pulls16 : rd Z := λ b,
  match b with
  | p0 :: p1 :: b =>
      Ok (Some (s16 (if byte_ordering_big_endian then Z.lor (Z.shiftl p1 8) p0 else Z.lor (Z.shiftl p0 8) p1), b))
  | _ => Ok None
  end.

Definition pull32 : rd Z := λ b,
  match b with
  | p0 :: p1 :: p2 :: p3 :: b =>
      Ok (Some (if byte_ordering_big_endian
                then Z.lor (Z.lor (Z.lor (Z.shiftl p3 24) (Z.shiftl p2 16)) (Z.shiftl p1 8)) p0
                else Z.lor (Z.lor (Z.lor (Z.shiftl p0 24) (Z.shiftl p1 16)) (Z.shiftl p2 8)) p3, b))
  | _ => Ok None
  end.

(** ** PDUs

    [push16(type); push16(size); body], then the length field at offset 2 is overwritten with the
    number of octets packed; the function also stores it in the message. *)
Definition wsized {A} (type size : Z) (body : wr A) : wr (Z * A) := λ room,
  x ← (push16 type;; push16 size;; body) room;
  match x with
  | None => Ok None
  | Some (l, a) =>
      let packedMsgLen := u16 (zlen l) in
      y ← push16 packedMsgLen (room - 2);
      Ok (match y with
          | None => None
          | Some (f, _) => Some (take 2 l ++ f ++ drop 4 l, (packedMsgLen, a))
          end)
  end.

(** ** Arrays *)

(** The [push] loop of [pusharray16] and [pusharray32] over elements of [sz] octets. *)
Definition pusharray_loop (sz : Z) (push : Z → wr unit) (l : list Z) (max_len len : Z) : wr unit := λ room,
  if len =? 0 then Ok (Some ([], tt))
  else if max_len <? len then Ok None
  else if sz * len <=? room then (_ ⇒ weach push (Z.to_nat len) l; wret tt) room
  else Ok None.

Definition pusharray16 := pusharray_loop 2 push16.
Definition pusharray32 := pusharray_loop 4 push32.

Definition pusharray8 (l : bytes) (max_len len : Z) : wr unit := λ room,
  if len =? 0 then Ok (Some ([], tt))
  else if max_len <? len then Ok None
  else if len <=? room then s ← deref (slice l 0 len); Ok (Some (map u8 s, tt))
  else Ok None.

Definition pullarray_loop (sz : Z) (pull : rd Z) (max_len len : Z) : rd (list Z) := λ b,
  if len =? 0 then Ok (Some ([], b))
  else if max_len <? len then Ok None
  else if sz * len <=? zlen b then reach pull max_len (Z.to_nat len) b
  else Ok None.

Definition pullarray16 := pullarray_loop 2 pull16.
Definition pullarray32 := pullarray_loop 4 pull32.

Definition pullarray8 (max_len len : Z) : rd (list Z) := λ b,
  if len =? 0 then Ok (Some ([], b))
  else if max_len <? len then Ok None
  else if len <=? zlen b then Ok (Some (take (Z.to_nat len) b, drop (Z.to_nat len) b))
  else Ok None.

(** ** DCI payload *)

Definition DCI_PAYLOAD_BYTE_LEN : Z := 8.

(** [memcpy] between an [uint64_t] and its octets. *)
Fixpoint le_value (l : bytes) : Z :=
  match l with [] => 0 | b :: l => b + 256 * le_value l end.
Fixpoint le_bytes (n : nat) (v : Z) : bytes :=
  match n with O => [] | S n => u8 v :: le_bytes n (Z.shiftr v 8) end.

Definition dci_byte_len (payloadSizeBits : Z) : Z := u8 (Z.quot (payloadSizeBits + 7) 8).

Definition pack_dci_payload (payload : bytes) (payloadSizeBits : Z) : wr unit :=
  let n := dci_byte_len payloadSizeBits in
  if byte_ordering_big_endian then λ room,
    if DCI_PAYLOAD_BYTE_LEN <? n then UB
    else
      p ← deref (slice payload 0 n);
      let internal :=
        if negb (Z.rem payloadSizeBits 8 =? 0)
        then le_bytes (Z.to_nat n) (u64 (Z.shiftl (le_value p) (8 - Z.rem payloadSizeBits 8)))
        else p in
      pusharray8 (rev internal) DCI_PAYLOAD_BYTE_LEN n room
  else pusharray8 payload DCI_PAYLOAD_BYTE_LEN n.

Definition unpack_dci_payload (payloadSizeBits : Z) : rd bytes :=
  let n := dci_byte_len payloadSizeBits in
  if byte_ordering_big_endian then λ b,
    if DCI_PAYLOAD_BYTE_LEN <? n then UB
    else
      (inverted ⇐ pullarray8 DCI_PAYLOAD_BYTE_LEN n;
       let t := le_value (rev inverted) in
       let t := if negb (Z.rem payloadSizeBits 8 =? 0)
                then Z.shiftr t (8 - Z.rem payloadSizeBits 8) else t in
       rret (le_bytes (Z.to_nat n) t)) b
  else pullarray8 DCI_PAYLOAD_BYTE_LEN n.

(** What [unpack_dci_payload] leaves in [Payload]: the octets of [PayloadSizeBits], aligned to the
    right in the big-endian variant. *)
Definition wf_payload (bits : Z) (p : bytes) : Prop :=
  zlen p = dci_byte_len bits ∧ zlen p <= DCI_PAYLOAD_BYTE_LEN ∧ Forall is_u8 p ∧
  (byte_ordering_big_endian = true → Z.rem bits 8 ≠ 0 → le_value p < 2 ^ Z.max 0 (8 * zlen p - (8 - Z.rem bits 8))).
End primitives.
