(* ===== verification/FapiCodec.v ===== *)
(** * nFAPI: theory of round trips

    [encodes w l a]: the writer [w] appends exactly the octets [l], and fails when they do not
    fit.  [decodes r l b]: the reader [r] consumes exactly [l] and returns [b], whatever follows.
    [codec w r a b]: both, for one [l].  The lemmas compose codecs the way the C functions
    compose their [push] and [pull] calls; the database [fapi] holds those of the primitives.

    Then: nFAPI: what a reader can return.
    [typed r P]: from octets, [r] returns only values with [P], and leaves octets.  The lemmas
    follow the combinators of the readers. *)

From S2P Require Import Prelude Fapi.

Tactic Notation "decide_true" constr(b) "in" hyp(H) :=
  let E := fresh in assert (E : b = true) by bool_lia; rewrite E in H; clear E.

Definition encodes {A} (w : wr A) (l : bytes) (a : A) : Prop :=
  ∀ room, 0 <= room → w room = Ok (if zlen l <=? room then Some (l, a) else None).

Definition decodes {A} (r : rd A) (l : bytes) (b : A) : Prop := ∀ rest, r (l ++ rest) = Ok (Some (b, rest)).

Definition codec {A B} (w : wr A) (r : rd B) (a : A) (b : B) : Prop := ∃ l, encodes w l a ∧ decodes r l b.

(** ** Composition *)

Lemma encodes_ret {A} (a : A) : encodes (wret a) [] a.
Proof. intros room Hr. by rewrite zlen_nil; decide_true (0 <=? room). Qed.

Lemma encodes_bind {A B} (w : wr A) (k : A → wr B) l l' a b :
  encodes w l a → encodes (k a) l' b → encodes (wbind w k) (l ++ l') b.
Proof.
  intros Hw Hk room Hr. pose proof (zlen_nonneg l'). unfold wbind. rewrite Hw by done. cbn [mbind res_bind].
  rewrite zlen_app. destruct (Z.leb_spec (zlen l) room).
  - rewrite Hk by lia. cbn [mbind res_bind].
    destruct (Z.leb_spec (zlen l') (room - zlen l)), (Z.leb_spec (zlen l + zlen l') room); done || lia.
  - by decide_false (zlen l + zlen l' <=? room).
Qed.

Lemma decodes_bind {A B} (r : rd A) (k : A → rd B) l l' a b :
  decodes r l a → decodes (k a) l' b → decodes (rbind r k) (l ++ l') b.
Proof. intros Hr Hk rest. unfold rbind. rewrite <- app_assoc, Hr. cbn [mbind res_bind]. by rewrite Hk. Qed.

Lemma codec_ret {A B} (a : A) (b : B) : codec (wret a) (rret b) a b.
Proof. exists []. split; [apply encodes_ret | done]. Qed.

Lemma codec_bind {A A' B B'} (w : wr A) (k : A → wr A') (r : rd B) (k' : B → rd B') a b a' b' :
  codec w r a b → codec (k a) (k' b) a' b' → codec (wbind w k) (rbind r k') a' b'.
Proof.
  intros (l & Hw & Hr) (l' & Hw' & Hr'). exists (l ++ l'). split; [by eapply encodes_bind | by eapply decodes_bind].
Qed.

(** The last call of a function. *)
Lemma codec_end {A B C} (w : wr A) (r : rd B) (f : B → C) a b : codec w r a b → codec w (x ⇐ r; rret (f x)) a (f b).
Proof.
  intros (l & Hw & Hr). exists l. split; [done |]. intros rest. unfold rbind. rewrite Hr. done.
Qed.

Lemma codec_opt {A} (b : bool) (g : option A) (P : A → Prop) (f : A → wr unit) (r : rd A) :
  opt_wf b P g → (∀ a, P a → codec (f a) r tt a) → codec (wopt b g f) (ropt b r) tt g.
Proof.
  unfold wopt, ropt. destruct g as [a |]; simpl.
  - intros [-> Ha] H. by apply (codec_end _ _ Some), H.
  - intros -> _. apply codec_ret.
Qed.

(** The value of a writer, changed. *)
Lemma codec_map {A A' B} (w : wr A) (r : rd B) (f : A → A') a b : codec w r a b → codec (x ⇒ w; wret (f x)) r (f a) b.
Proof.
  intros (l & Hw & Hr). exists l. split; [| done]. rewrite <- (app_nil_r l). eapply encodes_bind; [exact Hw | apply encodes_ret].
Qed.

(** A loop over [n] elements of an array of [cap]; [g] is what the writer does to an element. *)
Lemma codec_each {A B C} (f : A → wr B) (r : rd C) (g : A → B) (h : A → C) cap l :
  zlen l <= cap → Forall (λ a, codec (f a) r (g a) (h a)) l →
  codec (weach f (length l) l) (reach r cap (length l)) (map g l) (map h l).
Proof.
  intros Hcap Hl. revert cap Hcap. induction Hl as [| a l Ha Hl IH]; intros cap Hcap; [apply codec_ret |].
  rewrite zlen_cons in Hcap. pose proof (zlen_nonneg l). cbn [length weach reach map].
  decide_false (cap <=? 0). eapply codec_bind; [exact Ha |]. eapply codec_bind; [apply IH; lia |]. apply codec_ret.
Qed.

(** The same with the elements the writer returns related to those it was given. *)
Lemma codec_each_rel {A} (f : A → wr A) (r : rd A) (R : A → A → Prop) cap l :
  zlen l <= cap → Forall (λ a, ∃ a', R a a' ∧ codec (f a) r a' a') l →
  ∃ l', Forall2 R l l' ∧ codec (weach f (length l) l) (reach r cap (length l)) l' l'.
Proof.
  intros Hcap Hl. revert cap Hcap. induction Hl as [| a l (a' & Ra & Ha) Hl IH]; intros cap Hcap.
  - exists []. split; [constructor | apply codec_ret].
  - rewrite zlen_cons in Hcap. pose proof (zlen_nonneg l). destruct (IH (cap - 1) ltac:(lia)) as (l' & Rl & Hc).
    exists (a' :: l'). split; [by constructor |]. cbn [length weach reach].
    decide_false (cap <=? 0). eapply codec_bind; [exact Ha |]. eapply codec_bind; [exact Hc |]. apply codec_ret.
Qed.

Lemma codec_for {A} (f : A → wr unit) (r : rd A) (P : A → Prop) cap n l :
  zlen l = n → n <= cap → Forall P l → (∀ a, P a → codec (f a) r tt a) → codec (wfor f n l) (rfor r cap n) tt l.
Proof.
  intros <- Hcap Hl H. unfold wfor, rfor, zlen in *. rewrite Nat2Z.id. apply (codec_map _ _ (λ _, tt) (map (λ _, tt) l)).
  pose proof (codec_each f r (λ _, tt) id cap l Hcap) as E. unfold id in E. rewrite map_id in E. apply E.
  eapply Forall_impl; [exact Hl | done].
Qed.

(** ** Fields *)

Section fields.
Context `{BO : ByteOrder}.

Lemma split_low v n : 0 <= n → Z.lor (Z.shiftl (Z.shiftr v n) n) (Z.land v (Z.ones n)) = v.
Proof using.
  intros Hn. apply Z.bits_inj'. intros k Hk. rewrite Z.lor_spec, Z.shiftl_spec, Z.land_spec, Z.testbit_ones by lia.
  destruct (Z.ltb_spec k n).
  - rewrite Z.testbit_neg_r, orb_false_l by lia. decide_true (0 <=? k). by rewrite andb_true_r.
  - rewrite Z.shiftr_spec, Z.sub_add by lia. decide_true (0 <=? k). by rewrite andb_false_r, orb_false_r.
Qed.

(** Octets, as the masks and shifts of [push16] and [push32] compute them. *)
Lemma octet v k : 0 <= k → Z.shiftr (Z.land v (Z.shiftl (Z.ones 8) k)) k = Z.land (Z.shiftr v k) (Z.ones 8).
Proof using. intros Hk. by rewrite Z.shiftr_land, Z.shiftr_shiftl_l, Z.sub_diag, Z.shiftl_0_r by lia. Qed.

Lemma low_octet v n : 8 <= n → Z.land (Z.land v (Z.ones n)) (Z.ones 8) = Z.land v (Z.ones 8).
Proof using.
  intros Hn. apply Z.bits_inj'. intros k Hk. rewrite !Z.land_spec, !Z.testbit_ones by lia.
  destruct (Z.ltb_spec k 8); [| by rewrite !andb_false_r].
  decide_true (k <? n). decide_true (0 <=? k). by rewrite !andb_true_r.
Qed.

Lemma high_octets v n k : 0 <= k <= n → Z.shiftr (Z.land v (Z.ones n)) k = Z.land (Z.shiftr v k) (Z.ones (n - k)).
Proof using.
  intros Hk. rewrite Z.shiftr_land. f_equal. rewrite Z.shiftr_div_pow2, Z.ones_div_pow2 by lia. done.
Qed.

Lemma join16 v : Z.lor (Z.shiftl (Z.shiftr (Z.land v 0xFF00) 8) 8) (Z.land v 0xFF) = v mod 65536.
Proof using.
  change 0xFF00 with (Z.shiftl (Z.ones 8) 8). change 0xFF with (Z.ones 8). rewrite octet by lia.
  pose proof (high_octets v 16 8 ltac:(lia)) as E. change (16 - 8) with 8 in E.
  rewrite <- (low_octet v 16), <- E, split_low by lia. by rewrite Z.land_ones.
Qed.

Lemma join32 v :
  Z.lor (Z.lor (Z.lor (Z.shiftl (Z.shiftr (Z.land v 0xFF000000) 24) 24) (Z.shiftl (Z.shiftr (Z.land v 0xFF0000) 16) 16))
    (Z.shiftl (Z.shiftr (Z.land v 0xFF00) 8) 8)) (Z.land v 0xFF) = v mod 4294967296.
Proof using.
  change 0xFF000000 with (Z.shiftl (Z.ones 8) 24). change 0xFF0000 with (Z.shiftl (Z.ones 8) 16).
  change 0xFF00 with (Z.shiftl (Z.ones 8) 8). change 0xFF with (Z.ones 8). rewrite !octet by lia.
  set (a := Z.land v (Z.ones 32)).
  assert (E0 : Z.land v (Z.ones 8) = Z.land a (Z.ones 8)) by (symmetry; by apply low_octet).
  assert (E : ∀ k, 0 <= k <= 24 → Z.land (Z.shiftr v k) (Z.ones 8) = Z.land (Z.shiftr a k) (Z.ones 8)).
  { intros k Hk. unfold a. rewrite high_octets by lia. symmetry. apply low_octet. lia. }
  rewrite E0, !E by lia.
  assert (E3 : Z.land (Z.shiftr a 24) (Z.ones 8) = Z.shiftr (Z.shiftr (Z.shiftr a 8) 8) 8).
  { unfold a. rewrite !Z.shiftr_shiftr, !high_octets by lia. change (32 - 24) with 8.
    by rewrite <- Z.land_assoc, Z.land_diag. }
  rewrite E3. change 24 with (8 + 16). change (Z.shiftl ?x (8 + 16)) with (Z.shiftl x (8 + 16)).
  rewrite <- (Z.shiftl_shiftl _ 8 16), <- Z.shiftl_lor by lia.
  replace (Z.shiftr a 16) with (Z.shiftr (Z.shiftr a 8) 8) by (by rewrite Z.shiftr_shiftr).
  rewrite split_low by lia. change 16 with (8 + 8). rewrite <- (Z.shiftl_shiftl _ 8 8), <- Z.shiftl_lor by lia.
  rewrite split_low, split_low by lia. unfold a. by rewrite Z.land_ones.
Qed.

Lemma codec8 v : is_u8 v → codec (push8 v) pull8 tt v.
Proof using.
  intros Hv. exists [v]. split; [| done]. intros room Hr. unfold push8. rewrite u8_small by done.
  change (zlen [v]) with 1. by destruct (1 <=? room).
Qed.

Lemma field16 v : is_u16 v → ∃ b, zlen b = 2 ∧ encodes (push16 v) b tt ∧ decodes pull16 b v.
Proof using.
  intros Hv. pose proof (join16 v) as E. rewrite Z.mod_small in E by done.
  exists (ordered [Z.shiftr (Z.land v 0xFF00) 8; Z.land v 0xFF]). unfold pull16, push16, ordered.
  split; [by destruct byte_ordering_big_endian |]. split; [intros room Hr | intros rest]; destruct byte_ordering_big_endian; cbn [rev app];
    try (match goal with |- context [zlen ?l] => change (zlen l) with 2 end; by destruct (2 <=? room)); by rewrite E.
Qed.

Lemma codecs16 v : is_s16 v → codec (pushs16 v) pulls16 tt v.
Proof using.
  intros Hv. unfold is_s16 in Hv. pose proof (join16 v) as E.
  assert (Es : s16 (v mod 65536) = v).
  { unfold s16. destruct (Z.leb_spec 0 v).
    - rewrite Z.mod_small by lia. by decide_true (v <? 32768).
    - replace (v mod 65536) with (v + 65536) by (apply Z.mod_unique_pos with (-1); lia).
      decide_false (v + 65536 <? 32768). lia. }
  exists (ordered [Z.shiftr (Z.land v 0xFF00) 8; Z.land v 0xFF]). unfold pulls16, pushs16, ordered.
  split; [intros room Hr | intros rest]; destruct byte_ordering_big_endian; cbn [rev app];
    try (match goal with |- context [zlen ?l] => change (zlen l) with 2 end; by destruct (2 <=? room)); by rewrite E, Es.
Qed.

Lemma field32 v : is_u32 v → ∃ b, zlen b = 4 ∧ encodes (push32 v) b tt ∧ decodes pull32 b v.
Proof using.
  intros Hv. pose proof (join32 v) as E. rewrite Z.mod_small in E by done.
  exists (ordered [Z.shiftr (Z.land v 0xFF000000) 24; Z.shiftr (Z.land v 0xFF0000) 16; Z.shiftr (Z.land v 0xFF00) 8; Z.land v 0xFF]).
  unfold pull32, push32, ordered.
  split; [by destruct byte_ordering_big_endian |]. split; [intros room Hr | intros rest]; destruct byte_ordering_big_endian; cbn [rev app];
    try (match goal with |- context [zlen ?l] => change (zlen l) with 4 end; by destruct (4 <=? room)); by rewrite E.
Qed.

Lemma codec16 v : is_u16 v → codec (push16 v) pull16 tt v.
Proof using. intros Hv. destruct (field16 v Hv) as (b & _ & H). by exists b. Qed.

Lemma codec32 v : is_u32 v → codec (push32 v) pull32 tt v.
Proof using. intros Hv. destruct (field32 v Hv) as (b & _ & H). by exists b. Qed.

(** ** PDUs *)

(** A field's octets do not depend on the value. *)
Lemma push16_width v room : 2 <= room → ∃ b, zlen b = 2 ∧ push16 v room = Ok (Some (b, tt)).
Proof using.
  intros Hr. unfold push16, ordered. decide_true (2 <=? room). eexists. split; [| reflexivity].
  by destruct byte_ordering_big_endian.
Qed.

Lemma encodes_inj {A} (w : wr A) l a l' a' : encodes w l a → encodes w l' a' → l = l' ∧ a = a'.
Proof using.
  intros H H'. pose proof (zlen_nonneg l). pose proof (zlen_nonneg l'). specialize (H (zlen l + zlen l') ltac:(lia)).
  specialize (H' (zlen l + zlen l') ltac:(lia)). rewrite H in H'.
  decide_true (zlen l <=? zlen l + zlen l') in H'. decide_true (zlen l' <=? zlen l + zlen l') in H'. by simplify_eq.
Qed.

Lemma encodes_sized {A} t s (body : wr A) l a :
  is_u16 t → encodes body l a →
  ∃ bt bn, encodes (wsized t s body) (bt ++ bn ++ l) (u16 (4 + zlen l), a) ∧ decodes pull16 bt t ∧
    decodes pull16 bn (u16 (4 + zlen l)).
Proof using.
  intros Ht Hb. set (n := u16 (4 + zlen l)). assert (Hn : is_u16 n) by (by apply Z.mod_pos_bound).
  destruct (field16 t Ht) as (bt & Lt & Wt & Rt). destruct (field16 n Hn) as (bn & Ln & Wn & Rn).
  exists bt, bn. split; [| done]. intros room Hr. unfold wsized. pose proof (zlen_nonneg l) as Hl.
  rewrite !zlen_app, Lt, Ln. unfold wbind at 1. rewrite (Wt room Hr), Lt.
  destruct (Z.leb_spec 2 room); [| by decide_false (2 + (2 + zlen l) <=? room)].
  cbn [mbind res_bind]. rewrite Lt. destruct (Z.leb_spec 2 (room - 2)) as [H2 | H2].
  - destruct (push16_width s (room - 2) H2) as (bs & Ls & Es). unfold wbind. rewrite Es. cbn [mbind res_bind].
    rewrite Ls, Hb by lia. destruct (Z.leb_spec (zlen l) (room - 2 - 2)); [| by decide_false (2 + (2 + zlen l) <=? room)].
    decide_true (2 + (2 + zlen l) <=? room). cbn [mbind res_bind]. rewrite !zlen_app, Lt, Ls.
    replace (2 + (2 + zlen l)) with (4 + zlen l) by lia. fold n. rewrite Wn by lia. rewrite Ln. decide_true (2 <=? room - 2).
    cbn [mbind res_bind].
    replace (drop 4 (bt ++ bs ++ l)) with l; [replace (take 2 (bt ++ bs ++ l)) with bt; [done |] |].
    + rewrite take_app_le by (unfold zlen in Lt; lia). rewrite take_ge; [done | unfold zlen in Lt; lia].
    + rewrite app_assoc, drop_app_ge by (rewrite length_app; unfold zlen in *; lia). rewrite length_app.
      replace (4 - (length bt + length bs))%nat with 0%nat by (unfold zlen in *; lia). by rewrite drop_0.
  - assert (Es : push16 s (room - 2) = Ok None) by (unfold push16; by decide_false (2 <=? room - 2)).
    unfold wbind. rewrite Es. cbn [mbind res_bind].
    by decide_false (2 + (2 + zlen l) <=? room).
Qed.

Lemma codec_sized {A B} t s (body : wr A) (k : Z → Z → rd B) a (b : Z → B) :
  is_u16 t → (∀ n, is_u16 n → codec body (k t n) a (b n)) →
  ∃ n, is_u16 n ∧ codec (wsized t s body) (ty ⇐ pull16; sz ⇐ pull16; k ty sz) (n, a) (b n).
Proof using.
  intros Ht H. destruct (H 0 ltac:(done)) as (l & Hl & _). destruct (encodes_sized t s body l a Ht Hl) as (bt & bn & Hw & Rt & Rn).
  exists (u16 (4 + zlen l)). assert (Hn : is_u16 (u16 (4 + zlen l))) by (by apply Z.mod_pos_bound). split; [done |].
  destruct (H _ Hn) as (l' & Hl' & Hr). destruct (encodes_inj _ _ _ _ _ Hl Hl') as [<- _].
  exists (bt ++ bn ++ l). split; [done |]. eapply decodes_bind; [exact Rt |]. by eapply decodes_bind.
Qed.

(** ** Arrays *)

Lemma codec_array8 l max n : Forall is_u8 l → zlen l = n → n <= max → codec (pusharray8 l max n) (pullarray8 max n) tt l.
Proof using.
  intros Hl <- Hmax. pose proof (zlen_nonneg l) as H0. exists l. unfold pusharray8, pullarray8. split.
  - intros room Hr. destruct (Z.eqb_spec (zlen l) 0) as [E |].
    + destruct l; [| unfold zlen in E; simpl in E; lia]. by rewrite zlen_nil; decide_true (0 <=? room).
    + decide_false (max <? zlen l). destruct (zlen l <=? room); [| done].
      rewrite slice_Some by lia. cbn [deref mbind res_bind]. rewrite drop_0, take_zlen. do 3 f_equal.
      clear -Hl. induction Hl as [| x l Hx Hl IH]; [done |]. simpl. by rewrite u8_small, IH.
  - intros rest. destruct (Z.eqb_spec (zlen l) 0) as [E |].
    + destruct l; [done | unfold zlen in E; simpl in E; lia].
    + decide_false (max <? zlen l). rewrite zlen_app. pose proof (zlen_nonneg rest).
      decide_true (zlen l <=? zlen l + zlen rest). unfold zlen. by rewrite Nat2Z.id, take_app_length, drop_app_length.
Qed.

(** Loops of fields of [sz] octets. *)
Lemma codec_loop sz (push : Z → wr unit) (pull : rd Z) (ok : Z → Prop) l max max' n :
  (∀ v, ok v → ∃ b, zlen b = sz ∧ encodes (push v) b tt ∧ decodes pull b v) → 0 <= sz →
  Forall ok l → zlen l = n → n <= max → n <= max' → codec (pusharray_loop sz push l max n) (pullarray_loop sz pull max' n) tt l.
Proof using.
  intros Hf Hsz Hl <- Hmax Hmax'. pose proof (zlen_nonneg l) as H0.
  assert (H : ∃ b, zlen b = sz * zlen l ∧ encodes (weach push (length l) l) b (map (λ _, tt) l) ∧
    ∀ cap, zlen l <= cap → decodes (reach pull cap (length l)) b l).
  { clear Hmax Hmax'. induction Hl as [| v l Hv Hl IH].
    - exists []. split; [by rewrite zlen_nil, Z.mul_0_r |]. split; [apply encodes_ret | done].
    - destruct (Hf v Hv) as (b & Hb & Hw & Hr). destruct (IH (zlen_nonneg l)) as (b' & Hb' & Hw' & Hr').
      exists (b ++ b'). rewrite zlen_cons, zlen_app. split; [lia |]. split.
      + cbn [weach length]. eapply encodes_bind; [exact Hw |]. rewrite <- (app_nil_r b').
        eapply encodes_bind; [exact Hw' | apply encodes_ret].
      + intros cap Hcap. pose proof (zlen_nonneg l). cbn [reach length]. decide_false (cap <=? 0).
        eapply decodes_bind; [exact Hr |]. rewrite <- (app_nil_r b'). eapply decodes_bind; [apply Hr'; lia |]. done. }
  destruct H as (b & Hb & Hw & Hr). exists b. unfold pusharray_loop, pullarray_loop. split.
  - intros room Hrm. destruct (Z.eqb_spec (zlen l) 0) as [E |].
    + destruct b; [by rewrite zlen_nil; decide_true (0 <=? room) |]. rewrite E in Hb. unfold zlen in Hb. simpl in Hb. lia.
    + decide_false (max <? zlen l). rewrite Hb. destruct (Z.leb_spec (sz * zlen l) room); [| done].
      unfold zlen at 1. rewrite Nat2Z.id. unfold wbind. rewrite Hw by done. rewrite Hb. decide_true (sz * zlen l <=? room).
      cbn. by rewrite app_nil_r.
  - intros rest. destruct (Z.eqb_spec (zlen l) 0) as [E |].
    + destruct b; [destruct l; [done | unfold zlen in E; simpl in E; lia] |]. rewrite E in Hb. unfold zlen in Hb. simpl in Hb. lia.
    + decide_false (max' <? zlen l). rewrite zlen_app, Hb. pose proof (zlen_nonneg rest).
      decide_true (sz * zlen l <=? sz * zlen l + zlen rest). unfold zlen at 1. rewrite Nat2Z.id. by apply Hr.
Qed.

Lemma codec_array16 l max max' n :
  Forall is_u16 l → zlen l = n → n <= max → n <= max' → codec (pusharray16 l max n) (pullarray16 max' n) tt l.
Proof using. apply codec_loop; [apply field16 | done]. Qed.

Lemma codec_array32 l max max' n :
  Forall is_u32 l → zlen l = n → n <= max → n <= max' → codec (pusharray32 l max n) (pullarray32 max' n) tt l.
Proof using. apply codec_loop; [apply field32 | done]. Qed.

(** ** DCI payload *)

Lemma le_value_bound p : Forall is_u8 p → 0 <= le_value p < 2 ^ (8 * zlen p).
Proof using.
  induction 1 as [| b p Hb Hp IH]; [done |]. cbn [le_value]. rewrite zlen_cons, Z.mul_add_distr_l, Z.pow_add_r by (pose proof (zlen_nonneg p); lia).
  unfold is_u8 in Hb. change (2 ^ (8 * 1)) with 256. lia.
Qed.

Lemma le_bytes_value p : Forall is_u8 p → le_bytes (length p) (le_value p) = p.
Proof using.
  induction 1 as [| b p Hb Hp IH]; [done |]. cbn [le_value le_bytes length].
  assert (E1 : u8 (b + 256 * le_value p) = b).
  { unfold u8. rewrite (Z.mul_comm 256), Z_mod_plus_full. by apply Z.mod_small. }
  assert (E2 : Z.shiftr (b + 256 * le_value p) 8 = le_value p).
  { rewrite Z.shiftr_div_pow2 by done. change (2 ^ 8) with 256. rewrite (Z.mul_comm 256), Z_div_plus_full by done.
    by rewrite Z.div_small. }
  by rewrite E1, E2, IH.
Qed.

Lemma le_value_bytes n v : 0 <= v < 2 ^ (8 * Z.of_nat n) → le_value (le_bytes n v) = v ∧ Forall is_u8 (le_bytes n v) ∧ length (le_bytes n v) = n.
Proof using.
  revert v. induction n as [| n IH]; intros v Hv; [simpl in *; split_and!; done || lia |].
  rewrite Nat2Z.inj_succ, Z.mul_succ_r, Z.pow_add_r in Hv by lia. change (2 ^ 8) with 256 in Hv.
  destruct (IH (Z.shiftr v 8)) as (E1 & E2 & E3).
  { rewrite Z.shiftr_div_pow2 by done. change (2 ^ 8) with 256. split; [apply Z.div_pos; lia |].
    apply Z.div_lt_upper_bound; lia. }
  cbn [le_bytes le_value length]. rewrite E1, E3. split_and!; [| constructor; [apply u8_range | done] | done].
  rewrite Z.shiftr_div_pow2 by done. change (2 ^ 8) with 256. unfold u8. pose proof (Z.div_mod v 256). lia.
Qed.

(** The octets the big-endian variant sends, before they are put in reverse order. *)
Lemma dci_internal p bits :
  Forall is_u8 p → zlen p <= 8 → 0 <= bits → Z.rem bits 8 ≠ 0 →
  le_value p < 2 ^ Z.max 0 (8 * zlen p - (8 - Z.rem bits 8)) →
  let q := le_bytes (Z.to_nat (zlen p)) (u64 (Z.shiftl (le_value p) (8 - Z.rem bits 8))) in
  Forall is_u8 q ∧ zlen q = zlen p ∧ Z.shiftr (le_value q) (8 - Z.rem bits 8) = le_value p.
Proof using.
  intros Hp Hlen Hbits Hne Hval q. set (rot := 8 - Z.rem bits 8) in *.
  assert (Hr : 0 < rot < 8) by (unfold rot; rewrite Z.rem_mod_nonneg in * by lia; zdiv_lia).
  pose proof (le_value_bound p Hp) as Hb. pose proof (zlen_nonneg p) as Hz.
  destruct (decide (zlen p = 0)) as [E | E].
  { assert (p = []) as -> by (destruct p; [done | rewrite zlen_cons in E; pose proof (zlen_nonneg p); lia]).
    unfold q. split; [constructor |]. split; [done |]. cbn [le_bytes zlen length le_value]. apply Z.shiftr_0_l. }
  rewrite Z.max_r in Hval by lia.
  assert (Hsh : 0 <= Z.shiftl (le_value p) rot < 2 ^ (8 * zlen p)).
  { rewrite Z.shiftl_mul_pow2 by lia. replace (8 * zlen p) with ((8 * zlen p - rot) + rot) by lia.
    rewrite Z.pow_add_r by lia. split; [apply Z.mul_nonneg_nonneg; lia |]. apply Z.mul_lt_mono_pos_r; lia. }
  assert (Hu : u64 (Z.shiftl (le_value p) rot) = Z.shiftl (le_value p) rot).
  { apply Z.mod_small. split; [lia |]. eapply Z.lt_le_trans; [apply Hsh |]. apply Z.pow_le_mono_r; lia. }
  unfold q. rewrite Hu. destruct (le_value_bytes (Z.to_nat (zlen p)) (Z.shiftl (le_value p) rot)) as (E1 & E2 & E3);
    [by rewrite Z2Nat.id |].
  split; [done |]. split; [unfold zlen at 1; rewrite E3; by apply Z2Nat.id |].
  rewrite E1, Z.shiftr_shiftl_l, Z.sub_diag by lia. apply Z.shiftl_0_r.
Qed.

Lemma codec_dci p bits :
  is_u16 bits → wf_payload bits p → codec (pack_dci_payload p bits) (unpack_dci_payload bits) tt p.
Proof using.
  intros Hbits (Hlen & Hmax & Hp & Hval). unfold pack_dci_payload, unpack_dci_payload. rewrite <- Hlen.
  unfold DCI_PAYLOAD_BYTE_LEN in *. destruct byte_ordering_big_endian; [| by apply codec_array8]. specialize (Hval eq_refl).
  set (internal := if negb (Z.rem bits 8 =? 0)
    then le_bytes (Z.to_nat (zlen p)) (u64 (Z.shiftl (le_value p) (8 - Z.rem bits 8))) else p).
  assert (Hin : Forall is_u8 internal ∧ zlen internal = zlen p ∧
    (if negb (Z.rem bits 8 =? 0) then Z.shiftr (le_value internal) (8 - Z.rem bits 8) else le_value internal) = le_value p).
  { unfold internal. destruct (Z.eqb_spec (Z.rem bits 8) 0) as [| Hne]; simpl negb; cbv iota; [done |].
    apply dci_internal; try done; [apply Hbits | by apply Hval]. }
  destruct Hin as (I1 & I2 & I3).
  destruct (codec_array8 (rev internal) 8 (zlen p)) as (l & Hw & Hr);
    [by apply Forall_rev | unfold zlen in *; by rewrite length_rev | done |].
  exists l. split.
  - intros room Hrm. decide_false (8 <? zlen p). rewrite slice_Some by (pose proof (zlen_nonneg p); lia).
    rewrite drop_0, take_zlen. cbn [deref mbind res_bind]. by apply Hw.
  - intros rest. decide_false (8 <? zlen p). unfold rbind. rewrite Hr. cbn [mbind res_bind]. unfold rret.
    rewrite rev_involutive, I3. unfold zlen. by rewrite Nat2Z.id, le_bytes_value.
Qed.
End fields.

Create HintDb fapi.
#[export] Hint Resolve codec8 codec16 codecs16 codec32 : fapi.

(** ** nFAPI: what a reader can return *)

Definition typed {A} (r : rd A) (P : A → Prop) : Prop :=
  ∀ b a b', Forall is_u8 b → r b = Ok (Some (a, b')) → P a ∧ Forall is_u8 b'.

Lemma typed_ret {A} (a : A) (P : A → Prop) : P a → typed (rret a) P.
Proof. intros Ha b x b' Hb [= <- <-]. done. Qed.

Lemma typed_fail {A} (P : A → Prop) : typed rfail P.
Proof. by intros b a b' _ [=]. Qed.

Lemma typed_bind {A B} (r : rd A) (k : A → rd B) P Q :
  typed r P → (∀ a, P a → typed (k a) Q) → typed (rbind r k) Q.
Proof.
  intros Hr Hk b x b' Hb. unfold rbind. destruct (r b) as [[[a b1] |] | | |] eqn:E; try done.
  cbn [mbind res_bind]. destruct (Hr _ _ _ Hb E) as [Pa Hb1]. by apply (Hk a Pa).
Qed.

Lemma typed_impl {A} (r : rd A) (P Q : A → Prop) : typed r P → (∀ a, P a → Q a) → typed r Q.
Proof. intros H HPQ b a b' Hb E. destruct (H _ _ _ Hb E). split; [by apply HPQ | done]. Qed.

Lemma typed_opt {A} (b : bool) (r : rd A) P : typed r P → typed (ropt b r) (opt_wf b P).
Proof.
  intros Hr. unfold ropt. destruct b; [| by apply typed_ret].
  eapply typed_bind; [exact Hr |]. intros a Ha. by apply typed_ret.
Qed.

Lemma typed_each {A} (r : rd A) P cap n :
  typed r P → typed (reach r cap n) (λ l, Forall P l ∧ length l = n ∧ zlen l <= Z.max 0 cap).
Proof.
  intros Hr. revert cap. induction n as [| n IH]; intros cap; cbn [reach].
  - apply typed_ret. rewrite zlen_nil. split; [constructor |]. split; [done | lia].
  - destruct (Z.leb_spec cap 0); [by intros b a b' _ [=] |].
    eapply typed_bind; [exact Hr |]. intros a Ha. eapply typed_bind; [apply IH |]. intros l (Hl & Hn & Hc).
    apply typed_ret. rewrite zlen_cons. split; [by constructor |]. simpl. split; [by f_equal | lia].
Qed.

Lemma typed_for {A} (r : rd A) P cap n :
  typed r P → typed (rfor r cap n) (λ l, Forall P l ∧ zlen l = Z.max 0 n ∧ zlen l <= Z.max 0 cap).
Proof.
  intros Hr. eapply typed_impl; [by apply typed_each |]. intros l (Hl & Hn & Hc). split; [done |]. split; [| done].
  unfold zlen. rewrite Hn. lia.
Qed.

Lemma typed_into {A} cap (r : rd (list A)) P : typed r P → typed (into cap r) (λ l, P l ∧ zlen l <= cap).
Proof.
  intros Hr b a b' Hb. unfold into. destruct (r b) as [[[l b1] |] | | |] eqn:E; try done. cbn [mbind res_bind].
  destruct (Z.ltb_spec cap (zlen l)); [done |]. intros [= <- <-]. destruct (Hr _ _ _ Hb E). done.
Qed.

(** ** Fields *)

Lemma octet_bound x k m : is_u8 x → 0 <= k → k + 8 <= m → 0 <= Z.shiftl x k < 2 ^ m.
Proof.
  intros Hx Hk Hm. unfold is_u8 in Hx. rewrite Z.shiftl_mul_pow2 by done. split; [apply Z.mul_nonneg_nonneg; lia |].
  apply Z.lt_le_trans with (2 ^ 8 * 2 ^ k); [apply Z.mul_lt_mono_pos_r; lia |].
  rewrite <- Z.pow_add_r by lia. apply Z.pow_le_mono_r; lia.
Qed.

Lemma u16_lor x y : is_u8 x → is_u8 y → is_u16 (Z.lor (Z.shiftl x 8) y).
Proof.
  intros Hx Hy. apply (lor_bound _ _ 16); [done | by apply octet_bound |]. rewrite <- (Z.shiftl_0_r y). by apply octet_bound.
Qed.

Section fields.
Context `{BO : ByteOrder}.

Lemma typed8 : typed pull8 is_u8.
Proof using. intros [| p b] a b' Hb [=]; subst. by apply Forall_cons in Hb. Qed.

Lemma typed16 : typed pull16 is_u16.
Proof using.
  intros [| p0 [| p1 b]] a b' Hb [=]; subst. apply Forall_cons in Hb as [H0 Hb]. apply Forall_cons in Hb as [H1 Hb].
  split; [| done]. destruct byte_ordering_big_endian; by apply u16_lor.
Qed.

Lemma typeds16 : typed pulls16 is_s16.
Proof using.
  intros b a b' Hb E.
  assert (H : ∃ x, pull16 b = Ok (Some (x, b')) ∧ a = s16 x).
  { destruct b as [| p0 [| p1 b]]; simplify_eq/=. eexists. split; [reflexivity |]. done. }
  destruct H as (x & Ex & ->). destruct (typed16 _ _ _ Hb Ex) as [Hx Hb']. split; [| done].
  unfold s16, is_s16, is_u16 in *. destruct (Z.ltb_spec x 32768); lia.
Qed.

Lemma typed32 : typed pull32 is_u32.
Proof using.
  intros [| p0 [| p1 [| p2 [| p3 b]]]] a b' Hb [=]; subst. rewrite !Forall_cons in Hb.
  destruct Hb as (H0 & H1 & H2 & H3 & Hb). split; [| done].
  assert (E : ∀ w x y z, is_u8 w → is_u8 x → is_u8 y → is_u8 z →
    is_u32 (Z.lor (Z.lor (Z.lor (Z.shiftl w 24) (Z.shiftl x 16)) (Z.shiftl y 8)) z)).
  { clear. intros w x y z Hw Hx Hy Hz. rewrite <- (Z.shiftl_0_r z).
    repeat (apply (lor_bound _ _ 32); [done | | by apply octet_bound]). by apply octet_bound. }
  destruct byte_ordering_big_endian; by apply E.
Qed.

Lemma typed_array8 max n : typed (pullarray8 max n) (λ l, Forall is_u8 l ∧ zlen l = Z.max 0 n ∧ zlen l <= Z.max 0 max).
Proof using.
  intros b a b' Hb. unfold pullarray8. destruct (Z.eqb_spec n 0) as [-> |].
  { intros [= <- <-]. rewrite zlen_nil. repeat split; [constructor | lia | done]. }
  destruct (Z.ltb_spec max n); [done |]. destruct (Z.leb_spec n (zlen b)) as [Hn |]; [| done]. intros [= <- <-].
  split; [| by apply Forall_drop]. split; [by apply Forall_take |]. unfold zlen in *. rewrite length_take. lia.
Qed.

Lemma typed_loop sz pull P max n :
  typed pull P → typed (pullarray_loop sz pull max n) (λ l, Forall P l ∧ zlen l = Z.max 0 n ∧ zlen l <= Z.max 0 max).
Proof using.
  intros Hp b a b' Hb. unfold pullarray_loop. destruct (Z.eqb_spec n 0) as [-> |].
  { intros [= <- <-]. rewrite zlen_nil. repeat split; [constructor | lia | done]. }
  destruct (Z.ltb_spec max n); [done |]. destruct (sz * n <=? zlen b); [| done]. by apply (typed_for pull P max n Hp).
Qed.

Lemma typed_array16 max n : typed (pullarray16 max n) (λ l, Forall is_u16 l ∧ zlen l = Z.max 0 n ∧ zlen l <= Z.max 0 max).
Proof using. apply typed_loop, typed16. Qed.

Lemma typed_array32 max n : typed (pullarray32 max n) (λ l, Forall is_u32 l ∧ zlen l = Z.max 0 n ∧ zlen l <= Z.max 0 max).
Proof using. apply typed_loop, typed32. Qed.

Lemma typed_dci bits : is_u16 bits → typed (unpack_dci_payload bits) (wf_payload bits).
Proof using.
  intros Hbits. unfold unpack_dci_payload, wf_payload. set (n := dci_byte_len bits).
  assert (Hn : 0 <= n < 256) by apply u8_range. unfold DCI_PAYLOAD_BYTE_LEN.
  destruct byte_ordering_big_endian eqn:BE.
  - intros b a b' Hb E. destruct (Z.ltb_spec 8 n); [done |]. revert E. generalize b' Hb. clear b' Hb. revert a b.
    assert (H' : ∀ (r : rd bytes) P, typed r P → ∀ a b b', Forall is_u8 b → r b = Ok (Some (a, b')) → P a ∧ Forall is_u8 b')
      by (intros r P H'; intros; by eapply H').
    apply H'. clear H'. eapply typed_bind; [apply typed_array8 |]. intros l (Hl & Hlen & _). apply typed_ret.
    set (v := le_value (rev l)). assert (Hv : 0 <= v < 2 ^ (8 * n)).
    { unfold v. replace n with (zlen (rev l)) by (unfold zlen in *; rewrite length_rev; lia). by apply le_value_bound, Forall_rev. }
    set (w := if negb (Z.rem bits 8 =? 0) then Z.shiftr v (8 - Z.rem bits 8) else v).
    assert (Hr : Z.rem bits 8 ≠ 0 → 0 < 8 - Z.rem bits 8 < 8)
      by (rewrite Z.rem_mod_nonneg by (unfold is_u16 in Hbits; lia); zdiv_lia).
    assert (Hw : 0 <= w < 2 ^ (8 * n) ∧ (Z.rem bits 8 ≠ 0 → w < 2 ^ Z.max 0 (8 * n - (8 - Z.rem bits 8)))).
    { unfold w. destruct (Z.eqb_spec (Z.rem bits 8) 0); simpl; [done |]. specialize (Hr n0).
      assert (Hs : 0 <= Z.shiftr v (8 - Z.rem bits 8) < 2 ^ Z.max 0 (8 * n - (8 - Z.rem bits 8))).
      { rewrite Z.shiftr_div_pow2 by lia. split; [apply Z.div_pos; lia |].
        destruct (decide (n = 0)) as [E0 | E0].
        - rewrite E0 in Hv. change (2 ^ (8 * 0)) with 1 in Hv. replace v with 0 by lia. rewrite Z.div_0_l by lia. lia.
        - rewrite Z.max_r by lia. apply Z.div_lt_upper_bound; [lia |]. rewrite <- Z.pow_add_r by lia.
          replace (8 - Z.rem bits 8 + (8 * n - (8 - Z.rem bits 8))) with (8 * n) by lia. lia. }
      split; [| lia]. split; [lia |]. eapply Z.lt_le_trans; [apply Hs |]. apply Z.pow_le_mono_r; lia. }
    destruct Hw as [Hw1 Hw2].
    destruct (le_value_bytes (Z.to_nat n) w) as (E1 & E2 & E3); [by rewrite Z2Nat.id by lia |].
    assert (Ez : zlen (le_bytes (Z.to_nat n) w) = n) by (unfold zlen; rewrite E3; lia).
    rewrite Ez, E1. split; [done |]. split; [lia |]. split; [done |]. intros _. exact Hw2.
  - eapply typed_impl; [apply typed_array8 |]. intros l (Hl & Hlen & Hmax). split; [lia |]. split; [lia |]. done.
Qed.
End fields.

(** ** Automation *)

#[export] Hint Resolve typed8 typed16 typeds16 typed32 typed_array8 typed_array16 typed_array32 typed_dci typed_for typed_opt typed_into : fapi.

(** Conjunctions and ranges of lists of fields, taken apart. *)
Ltac wf_facts :=
  cbv beta in *;
  repeat match goal with
  | H : _ ∧ _ |- _ => destruct H
  | H : Forall _ (_ :: _) |- _ => apply Forall_cons in H as [? H]
  | H : Forall _ [] |- _ => clear H
  end.

(** Range conditions; the sizes of the arrays are unfolded by [sizes]. *)
Ltac field_lia := unfold is_u8, is_u16, is_u32, is_s16 in *; lia.

Ltac wf_goal :=
  repeat match goal with
  | |- _ ∧ _ => split
  | |- Forall _ (_ :: _) => constructor
  | |- Forall _ [] => constructor
  end; try assumption; try reflexivity.

Ltac codec_steps :=
  repeat (cbv zeta; cbn beta; eapply codec_bind; [solve [eauto with fapi] |]).

Ltac typed_steps :=
  repeat (cbv zeta; cbn beta; eapply typed_bind; [solve [eauto with fapi] | intros ? ?; wf_facts]).
