(* ===== verification/FapiDl.v ===== *)
(** * nFAPI P7: DL_TTI.request, UL_DCI.request, TX_DATA.request

    The downlink messages of [nfapi/open-nFAPI/fapi/src/nr_fapi_p7.c] with the structures of
    [nfapi_nr_interface_scf.h], a Module per structure: the record, its [pack_] and [unpack_]
    functions in the order in which the code pushes and pulls the fields, and the range of values
    the C types and arrays of the structure allow ([wf]).  The variant without
    [ENABLE_AERIAL].  A structure with a single field ([nfapi_nr_dig_bf_interface_t]) is that
    field. *)

From S2P Require Import Prelude Fapi.

(** Sizes of the arrays. *)
Definition NFAPI_MAX_NUM_PRGS : Z := 1.
Definition NFAPI_MAX_NUM_BG_IF : Z := 6.
Definition MAX_DCI_CORESET : Z := 8.
Definition MAX_NUM_SPATIAL_STREAMS : Z := 16.
Definition MAX_NUM_CODEWORDS : Z := 2.
Definition NFAPI_NR_MAX_DL_TTI_PDUS : Z := 32.
Definition NFAPI_NR_MAX_NB_CORESETS : Z := 12.
Definition NFAPI_NR_MAX_TX_REQUEST_TLV : Z := 2.
Definition NFAPI_NR_MAX_TX_REQUEST_PDUS : Z := 16.

(** ** Precoding and beamforming *)

Module tx_prg.
Record nfapi_nr_tx_precoding_and_beamforming_number_of_prgs_t := mk {
  pm_idx : Z;
  dig_bf_interface_list : list Z }.

(** [k] is [dig_bf_interfaces] of the enclosing structure. *)
Definition wf (k : Z) (v : nfapi_nr_tx_precoding_and_beamforming_number_of_prgs_t) : Prop :=
  is_u16 v.(pm_idx) ∧ Forall is_u16 v.(dig_bf_interface_list) ∧ zlen v.(dig_bf_interface_list) = k ∧ k <= NFAPI_MAX_NUM_BG_IF.
End tx_prg.

Module tx_bf.
Record nfapi_nr_tx_precoding_and_beamforming_t := mk {
  num_prgs : Z; prg_size : Z; dig_bf_interfaces : Z;
  prgs_list : list tx_prg.nfapi_nr_tx_precoding_and_beamforming_number_of_prgs_t }.

Definition wf (v : nfapi_nr_tx_precoding_and_beamforming_t) : Prop :=
  Forall is_u16 [v.(num_prgs); v.(prg_size)] ∧
  Forall is_u8 [v.(dig_bf_interfaces)] ∧
  zlen v.(prgs_list) = v.(num_prgs) ∧
  v.(num_prgs) <= NFAPI_MAX_NUM_PRGS ∧
  Forall (tx_prg.wf v.(dig_bf_interfaces)) v.(prgs_list).

Definition pack_nr_tx_beamforming_pdu `{ByteOrder} (v : nfapi_nr_tx_precoding_and_beamforming_t) : wr unit :=
  push16 v.(num_prgs);; push16 v.(prg_size);; push8 v.(dig_bf_interfaces);;
  wfor (λ p,
    push16 p.(tx_prg.pm_idx);;
    wfor push16 v.(dig_bf_interfaces) p.(tx_prg.dig_bf_interface_list);;
    wret tt) v.(num_prgs) v.(prgs_list);;
  wret tt.

Definition unpack_nr_tx_beamforming_pdu `{ByteOrder} : rd nfapi_nr_tx_precoding_and_beamforming_t :=
  num_prgs ⇐ pull16; prg_size ⇐ pull16; dig_bf_interfaces ⇐ pull8;
  prgs_list ⇐ rfor (
    pm_idx ⇐ pull16;
    dig_bf_interface_list ⇐ rfor pull16 NFAPI_MAX_NUM_BG_IF dig_bf_interfaces;
    rret (tx_prg.mk pm_idx dig_bf_interface_list)) NFAPI_MAX_NUM_PRGS num_prgs;
  rret (mk num_prgs prg_size dig_bf_interfaces prgs_list).
End tx_bf.

(** ** PDCCH *)

Module dl_dci.
Record nfapi_nr_dl_dci_pdu_t := mk {
  RNTI : Z; ScramblingId : Z; ScramblingRNTI : Z; CceIndex : Z; AggregationLevel : Z;
  precodingAndBeamforming : tx_bf.nfapi_nr_tx_precoding_and_beamforming_t;
  beta_PDCCH_1_0 : Z; powerControlOffsetSS : Z; PayloadSizeBits : Z;
  Payload : bytes }.

Definition wf `{ByteOrder} (v : nfapi_nr_dl_dci_pdu_t) : Prop :=
  Forall is_u16 [v.(RNTI); v.(ScramblingId); v.(ScramblingRNTI); v.(PayloadSizeBits)] ∧
  Forall is_u8 [v.(CceIndex); v.(AggregationLevel); v.(beta_PDCCH_1_0); v.(powerControlOffsetSS)] ∧
  tx_bf.wf v.(precodingAndBeamforming) ∧
  wf_payload v.(PayloadSizeBits) v.(Payload).

(** The body of the loop over [dci_pdu]. *)
Definition pack_dci_pdu `{ByteOrder} (v : nfapi_nr_dl_dci_pdu_t) : wr unit :=
  push16 v.(RNTI);; push16 v.(ScramblingId);; push16 v.(ScramblingRNTI);; push8 v.(CceIndex);;
  push8 v.(AggregationLevel);;
  tx_bf.pack_nr_tx_beamforming_pdu v.(precodingAndBeamforming);;
  push8 v.(beta_PDCCH_1_0);; push8 v.(powerControlOffsetSS);; push16 v.(PayloadSizeBits);;
  pack_dci_payload v.(Payload) v.(PayloadSizeBits);;
  wret tt.

Definition unpack_dci_pdu `{ByteOrder} : rd nfapi_nr_dl_dci_pdu_t :=
  RNTI ⇐ pull16; ScramblingId ⇐ pull16; ScramblingRNTI ⇐ pull16; CceIndex ⇐ pull8; AggregationLevel ⇐ pull8;
  precodingAndBeamforming ⇐ tx_bf.unpack_nr_tx_beamforming_pdu;
  beta_PDCCH_1_0 ⇐ pull8; powerControlOffsetSS ⇐ pull8; PayloadSizeBits ⇐ pull16;
  Payload ⇐ unpack_dci_payload PayloadSizeBits;
  rret (mk RNTI ScramblingId ScramblingRNTI CceIndex AggregationLevel precodingAndBeamforming beta_PDCCH_1_0
          powerControlOffsetSS PayloadSizeBits Payload).
End dl_dci.

Module dci_ss.
Record nfapi_v4_dci_spatial_stream_index_t := mk {
  dci_index : Z; spatial_stream_index : Z }.

Definition wf (v : nfapi_v4_dci_spatial_stream_index_t) : Prop :=
  Forall is_u16 [v.(dci_index); v.(spatial_stream_index)].
End dci_ss.

Module pdcch_v4.
Record nfapi_v4_pdcch_pdu_parameters_t := mk {
  numSpatialStreams : Z;
  dci_spatialStreamIndices : list dci_ss.nfapi_v4_dci_spatial_stream_index_t }.

Definition wf (v : nfapi_v4_pdcch_pdu_parameters_t) : Prop :=
  Forall is_u16 [v.(numSpatialStreams)] ∧
  zlen v.(dci_spatialStreamIndices) = v.(numSpatialStreams) ∧
  v.(numSpatialStreams) <= MAX_NUM_SPATIAL_STREAMS ∧
  Forall dci_ss.wf v.(dci_spatialStreamIndices).

Definition pack_pdcch_parameters_v4 `{ByteOrder} (v : nfapi_v4_pdcch_pdu_parameters_t) : wr unit :=
  push16 v.(numSpatialStreams);;
  wfor (λ i, push16 i.(dci_ss.dci_index);; push16 i.(dci_ss.spatial_stream_index);; wret tt)
    v.(numSpatialStreams) v.(dci_spatialStreamIndices);;
  wret tt.

Definition unpack_pdcch_parameters_v4 `{ByteOrder} : rd nfapi_v4_pdcch_pdu_parameters_t :=
  numSpatialStreams ⇐ pull16;
  dci_spatialStreamIndices ⇐ rfor (
    dci_index ⇐ pull16; spatial_stream_index ⇐ pull16;
    rret (dci_ss.mk dci_index spatial_stream_index)) MAX_NUM_SPATIAL_STREAMS numSpatialStreams;
  rret (mk numSpatialStreams dci_spatialStreamIndices).
End pdcch_v4.

Module pdcch.
Record nfapi_nr_dl_tti_pdcch_pdu_rel15_t := mk {
  BWPSize : Z; BWPStart : Z; SubcarrierSpacing : Z; CyclicPrefix : Z; StartSymbolIndex : Z;
  DurationSymbols : Z;
  FreqDomainResource : list Z;
  CceRegMappingType : Z; RegBundleSize : Z; InterleaverSize : Z; CoreSetType : Z; ShiftIndex : Z;
  precoderGranularity : Z; numDlDci : Z;
  dci_pdu : list dl_dci.nfapi_nr_dl_dci_pdu_t;
  param_v4 : pdcch_v4.nfapi_v4_pdcch_pdu_parameters_t }.

Definition wf_coreset `{ByteOrder} (v : nfapi_nr_dl_tti_pdcch_pdu_rel15_t) : Prop :=
  Forall is_u16 [v.(BWPSize); v.(BWPStart); v.(ShiftIndex); v.(numDlDci)] ∧
  Forall is_u8 [v.(SubcarrierSpacing); v.(CyclicPrefix); v.(StartSymbolIndex); v.(DurationSymbols);
    v.(CceRegMappingType); v.(RegBundleSize); v.(InterleaverSize); v.(CoreSetType); v.(precoderGranularity)] ∧
  Forall is_u8 v.(FreqDomainResource) ∧
  zlen v.(FreqDomainResource) = 6 ∧
  zlen v.(dci_pdu) = v.(numDlDci) ∧
  v.(numDlDci) <= MAX_DCI_CORESET ∧
  Forall dl_dci.wf v.(dci_pdu).

Definition wf `{ByteOrder} (v : nfapi_nr_dl_tti_pdcch_pdu_rel15_t) : Prop := wf_coreset v ∧ pdcch_v4.wf v.(param_v4).

Definition pack_dl_tti_pdcch_pdu_rel15_value `{ByteOrder} (v : nfapi_nr_dl_tti_pdcch_pdu_rel15_t) : wr unit :=
  push16 v.(BWPSize);; push16 v.(BWPStart);; push8 v.(SubcarrierSpacing);; push8 v.(CyclicPrefix);;
  push8 v.(StartSymbolIndex);; push8 v.(DurationSymbols);; pusharray8 v.(FreqDomainResource) 6 6;;
  push8 v.(CceRegMappingType);; push8 v.(RegBundleSize);; push8 v.(InterleaverSize);; push8 v.(CoreSetType);;
  push16 v.(ShiftIndex);; push8 v.(precoderGranularity);; push16 v.(numDlDci);;
  wfor dl_dci.pack_dci_pdu v.(numDlDci) v.(dci_pdu);;
  pdcch_v4.pack_pdcch_parameters_v4 v.(param_v4);;
  wret tt.

Definition unpack_dl_tti_pdcch_pdu_rel15_value `{ByteOrder} : rd nfapi_nr_dl_tti_pdcch_pdu_rel15_t :=
  BWPSize ⇐ pull16; BWPStart ⇐ pull16; SubcarrierSpacing ⇐ pull8; CyclicPrefix ⇐ pull8;
  StartSymbolIndex ⇐ pull8; DurationSymbols ⇐ pull8; FreqDomainResource ⇐ pullarray8 6 6;
  CceRegMappingType ⇐ pull8; RegBundleSize ⇐ pull8; InterleaverSize ⇐ pull8; CoreSetType ⇐ pull8;
  ShiftIndex ⇐ pull16; precoderGranularity ⇐ pull8; numDlDci ⇐ pull16;
  dci_pdu ⇐ rfor dl_dci.unpack_dci_pdu MAX_DCI_CORESET numDlDci;
  param_v4 ⇐ pdcch_v4.unpack_pdcch_parameters_v4;
  rret (mk BWPSize BWPStart SubcarrierSpacing CyclicPrefix StartSymbolIndex DurationSymbols FreqDomainResource
          CceRegMappingType RegBundleSize InterleaverSize CoreSetType ShiftIndex precoderGranularity numDlDci
          dci_pdu param_v4).
End pdcch.

(** ** PDSCH *)

Module ss_index.
Record nfapi_nr_spatial_stream_index_t := mk {
  numSpatialStreamIndices : Z;
  spatialStreamIndices : list Z }.

Definition wf (v : nfapi_nr_spatial_stream_index_t) : Prop :=
  Forall is_u8 [v.(numSpatialStreamIndices)] ∧
  Forall is_u16 v.(spatialStreamIndices) ∧
  zlen v.(spatialStreamIndices) = v.(numSpatialStreamIndices) ∧
  v.(numSpatialStreamIndices) <= MAX_NUM_SPATIAL_STREAMS.

Definition pack_spatial_stream_indices `{ByteOrder} (v : nfapi_nr_spatial_stream_index_t) : wr unit :=
  push8 v.(numSpatialStreamIndices);;
  pusharray16 v.(spatialStreamIndices) MAX_NUM_SPATIAL_STREAMS v.(numSpatialStreamIndices);;
  wret tt.

Definition unpack_spatial_stream_indices `{ByteOrder} : rd nfapi_nr_spatial_stream_index_t :=
  numSpatialStreamIndices ⇐ pull8;
  spatialStreamIndices ⇐ pullarray16 MAX_NUM_SPATIAL_STREAMS numSpatialStreamIndices;
  rret (mk numSpatialStreamIndices spatialStreamIndices).
End ss_index.

(** The fields [targetCodeRate[i]] to [TBSize[i]] of a codeword. *)
Module codeword.
Record pdsch_codeword := mk { targetCodeRate : Z; qamModOrder : Z; mcsIndex : Z; mcsTable : Z; rvIndex : Z; TBSize : Z }.

Definition wf (v : pdsch_codeword) : Prop :=
  Forall is_u16 [v.(targetCodeRate)] ∧
  Forall is_u8 [v.(qamModOrder); v.(mcsIndex); v.(mcsTable); v.(rvIndex)] ∧
  Forall is_u32 [v.(TBSize)].

Definition pack_codeword `{ByteOrder} (v : pdsch_codeword) : wr unit :=
  push16 v.(targetCodeRate);; push8 v.(qamModOrder);; push8 v.(mcsIndex);; push8 v.(mcsTable);;
  push8 v.(rvIndex);; push32 v.(TBSize);;
  wret tt.

Definition unpack_codeword `{ByteOrder} : rd pdsch_codeword :=
  targetCodeRate ⇐ pull16; qamModOrder ⇐ pull8; mcsIndex ⇐ pull8; mcsTable ⇐ pull8; rvIndex ⇐ pull8;
  TBSize ⇐ pull32;
  rret (mk targetCodeRate qamModOrder mcsIndex mcsTable rvIndex TBSize).
End codeword.

(** The PTRS fields, there when bit 0 of [pduBitmap] is set. *)
Module pdsch_ptrs.
Record pdsch_ptrs_fields := mk { PTRSPortIndex : Z; PTRSTimeDensity : Z; PTRSFreqDensity : Z; PTRSReOffset : Z; nEpreRatioOfPDSCHToPTRS : Z }.

Definition wf (v : pdsch_ptrs_fields) : Prop :=
  Forall is_u8 [v.(PTRSPortIndex); v.(PTRSTimeDensity); v.(PTRSFreqDensity); v.(PTRSReOffset);
    v.(nEpreRatioOfPDSCHToPTRS)].

Definition pack_pdsch_ptrs `{ByteOrder} (v : pdsch_ptrs_fields) : wr unit :=
  push8 v.(PTRSPortIndex);; push8 v.(PTRSTimeDensity);; push8 v.(PTRSFreqDensity);; push8 v.(PTRSReOffset);;
  push8 v.(nEpreRatioOfPDSCHToPTRS);;
  wret tt.

Definition unpack_pdsch_ptrs `{ByteOrder} : rd pdsch_ptrs_fields :=
  PTRSPortIndex ⇐ pull8; PTRSTimeDensity ⇐ pull8; PTRSFreqDensity ⇐ pull8; PTRSReOffset ⇐ pull8;
  nEpreRatioOfPDSCHToPTRS ⇐ pull8;
  rret (mk PTRSPortIndex PTRSTimeDensity PTRSFreqDensity PTRSReOffset nEpreRatioOfPDSCHToPTRS).
End pdsch_ptrs.

(** The CBG fields, there when bit 1 of [pduBitmap] is set. *)
Module pdsch_cbg.
Record pdsch_cbg_fields := mk { isLastCbPresent : Z; isInlineTbCrc : Z; dlTbCrc : Z }.

Definition wf (v : pdsch_cbg_fields) : Prop :=
  Forall is_u8 [v.(isLastCbPresent); v.(isInlineTbCrc)] ∧
  Forall is_u32 [v.(dlTbCrc)].

Definition pack_pdsch_cbg `{ByteOrder} (v : pdsch_cbg_fields) : wr unit :=
  push8 v.(isLastCbPresent);; push8 v.(isInlineTbCrc);; push32 v.(dlTbCrc);;
  wret tt.

Definition unpack_pdsch_cbg `{ByteOrder} : rd pdsch_cbg_fields :=
  isLastCbPresent ⇐ pull8; isInlineTbCrc ⇐ pull8; dlTbCrc ⇐ pull32;
  rret (mk isLastCbPresent isInlineTbCrc dlTbCrc).
End pdsch_cbg.

Module maint_v3.
Record nfapi_v3_pdsch_maintenance_parameters_t := mk {
  ldpcBaseGraph : Z; tbSizeLbrmBytes : Z }.

Definition wf (v : nfapi_v3_pdsch_maintenance_parameters_t) : Prop :=
  Forall is_u8 [v.(ldpcBaseGraph)] ∧
  Forall is_u32 [v.(tbSizeLbrmBytes)].
End maint_v3.

Module pdsch_v4.
Record nfapi_v4_pdsch_parameters_t := mk {
  numberCodewords : Z;
  spatialStreamsCw : list ss_index.nfapi_nr_spatial_stream_index_t }.

Definition wf (v : nfapi_v4_pdsch_parameters_t) : Prop :=
  Forall is_u8 [v.(numberCodewords)] ∧
  zlen v.(spatialStreamsCw) = v.(numberCodewords) ∧
  v.(numberCodewords) <= MAX_NUM_CODEWORDS ∧
  Forall ss_index.wf v.(spatialStreamsCw).
End pdsch_v4.

(** The arrays [targetCodeRate] to [TBSize] are the list [codewords]. *)
Module pdsch.
Record nfapi_nr_dl_tti_pdsch_pdu_rel15_t := mk {
  pduBitmap : Z; rnti : Z; pduIndex : Z; BWPSize : Z; BWPStart : Z; SubcarrierSpacing : Z; CyclicPrefix : Z;
  NrOfCodewords : Z;
  codewords : list codeword.pdsch_codeword;
  dataScramblingId : Z; nrOfLayers : Z; transmissionScheme : Z; refPoint : Z; dlDmrsSymbPos : Z;
  dmrsConfigType : Z; dlDmrsScramblingId : Z; SCID : Z; numDmrsCdmGrpsNoData : Z; dmrsPorts : Z;
  resourceAlloc : Z;
  rbBitmap : list Z;
  rbStart : Z; rbSize : Z; VRBtoPRBMapping : Z; StartSymbolIndex : Z; NrOfSymbols : Z;
  ptrs : option pdsch_ptrs.pdsch_ptrs_fields;
  precodingAndBeamforming : tx_bf.nfapi_nr_tx_precoding_and_beamforming_t;
  powerControlOffset : Z; powerControlOffsetSS : Z;
  cbg : option pdsch_cbg.pdsch_cbg_fields;
  maintenance_parms_v3 : maint_v3.nfapi_v3_pdsch_maintenance_parameters_t;
  param_v4 : pdsch_v4.nfapi_v4_pdsch_parameters_t }.

Definition wf (v : nfapi_nr_dl_tti_pdsch_pdu_rel15_t) : Prop :=
  Forall is_u16 [v.(pduBitmap); v.(rnti); v.(pduIndex); v.(BWPSize); v.(BWPStart); v.(dataScramblingId);
    v.(dlDmrsSymbPos); v.(dlDmrsScramblingId); v.(dmrsPorts); v.(rbStart); v.(rbSize)] ∧
  Forall is_u8 [v.(SubcarrierSpacing); v.(CyclicPrefix); v.(NrOfCodewords); v.(nrOfLayers); v.(transmissionScheme);
    v.(refPoint); v.(dmrsConfigType); v.(SCID); v.(numDmrsCdmGrpsNoData); v.(resourceAlloc); v.(VRBtoPRBMapping);
    v.(StartSymbolIndex); v.(NrOfSymbols); v.(powerControlOffset); v.(powerControlOffsetSS)] ∧
  zlen v.(codewords) = v.(NrOfCodewords) ∧
  v.(NrOfCodewords) <= 2 ∧
  Forall codeword.wf v.(codewords) ∧
  Forall is_u8 v.(rbBitmap) ∧
  zlen v.(rbBitmap) = 36 ∧
  opt_wf (flag v.(pduBitmap) 1) pdsch_ptrs.wf v.(ptrs) ∧
  tx_bf.wf v.(precodingAndBeamforming) ∧
  opt_wf (flag v.(pduBitmap) 2) pdsch_cbg.wf v.(cbg) ∧
  maint_v3.wf v.(maintenance_parms_v3) ∧
  pdsch_v4.wf v.(param_v4).

Definition pack_dl_tti_pdsch_pdu_rel15_value `{ByteOrder} (v : nfapi_nr_dl_tti_pdsch_pdu_rel15_t) : wr unit :=
  push16 v.(pduBitmap);; push16 v.(rnti);; push16 v.(pduIndex);; push16 v.(BWPSize);; push16 v.(BWPStart);;
  push8 v.(SubcarrierSpacing);; push8 v.(CyclicPrefix);; push8 v.(NrOfCodewords);;
  wfor codeword.pack_codeword v.(NrOfCodewords) v.(codewords);;
  push16 v.(dataScramblingId);; push8 v.(nrOfLayers);; push8 v.(transmissionScheme);; push8 v.(refPoint);;
  push16 v.(dlDmrsSymbPos);; push8 v.(dmrsConfigType);; push16 v.(dlDmrsScramblingId);; push8 v.(SCID);;
  push8 v.(numDmrsCdmGrpsNoData);; push16 v.(dmrsPorts);; push8 v.(resourceAlloc);;
  pusharray8 v.(rbBitmap) 36 36;; push16 v.(rbStart);; push16 v.(rbSize);; push8 v.(VRBtoPRBMapping);;
  push8 v.(StartSymbolIndex);; push8 v.(NrOfSymbols);;
  wopt (flag v.(pduBitmap) 1) v.(ptrs) pdsch_ptrs.pack_pdsch_ptrs;;
  tx_bf.pack_nr_tx_beamforming_pdu v.(precodingAndBeamforming);;
  push8 v.(powerControlOffset);; push8 v.(powerControlOffsetSS);;
  wopt (flag v.(pduBitmap) 2) v.(cbg) pdsch_cbg.pack_pdsch_cbg;;
  push8 v.(maintenance_parms_v3).(maint_v3.ldpcBaseGraph);;
  push32 v.(maintenance_parms_v3).(maint_v3.tbSizeLbrmBytes);;
  push8 v.(param_v4).(pdsch_v4.numberCodewords);;
  wfor ss_index.pack_spatial_stream_indices v.(param_v4).(pdsch_v4.numberCodewords) v.(param_v4).(pdsch_v4.spatialStreamsCw);;
  wret tt.

Definition unpack_dl_tti_pdsch_pdu_rel15_value `{ByteOrder} : rd nfapi_nr_dl_tti_pdsch_pdu_rel15_t :=
  pduBitmap ⇐ pull16; rnti ⇐ pull16; pduIndex ⇐ pull16; BWPSize ⇐ pull16; BWPStart ⇐ pull16;
  SubcarrierSpacing ⇐ pull8; CyclicPrefix ⇐ pull8; NrOfCodewords ⇐ pull8;
  codewords ⇐ rfor codeword.unpack_codeword 2 NrOfCodewords;
  dataScramblingId ⇐ pull16; nrOfLayers ⇐ pull8; transmissionScheme ⇐ pull8; refPoint ⇐ pull8;
  dlDmrsSymbPos ⇐ pull16; dmrsConfigType ⇐ pull8; dlDmrsScramblingId ⇐ pull16; SCID ⇐ pull8;
  numDmrsCdmGrpsNoData ⇐ pull8; dmrsPorts ⇐ pull16; resourceAlloc ⇐ pull8; rbBitmap ⇐ pullarray8 36 36;
  rbStart ⇐ pull16; rbSize ⇐ pull16; VRBtoPRBMapping ⇐ pull8; StartSymbolIndex ⇐ pull8; NrOfSymbols ⇐ pull8;
  ptrs ⇐ ropt (flag pduBitmap 1) pdsch_ptrs.unpack_pdsch_ptrs;
  precodingAndBeamforming ⇐ tx_bf.unpack_nr_tx_beamforming_pdu;
  powerControlOffset ⇐ pull8; powerControlOffsetSS ⇐ pull8;
  cbg ⇐ ropt (flag pduBitmap 2) pdsch_cbg.unpack_pdsch_cbg;
  ldpcBaseGraph ⇐ pull8;
  tbSizeLbrmBytes ⇐ pull32;
  numberCodewords ⇐ pull8;
  spatialStreamsCw ⇐ rfor ss_index.unpack_spatial_stream_indices MAX_NUM_CODEWORDS numberCodewords;
  let maintenance_parms_v3 := maint_v3.mk ldpcBaseGraph tbSizeLbrmBytes in
  let param_v4 := pdsch_v4.mk numberCodewords spatialStreamsCw in
  rret (mk pduBitmap rnti pduIndex BWPSize BWPStart SubcarrierSpacing CyclicPrefix NrOfCodewords codewords
          dataScramblingId nrOfLayers transmissionScheme refPoint dlDmrsSymbPos dmrsConfigType dlDmrsScramblingId
          SCID numDmrsCdmGrpsNoData dmrsPorts resourceAlloc rbBitmap rbStart rbSize VRBtoPRBMapping StartSymbolIndex
          NrOfSymbols ptrs precodingAndBeamforming powerControlOffset powerControlOffsetSS cbg maintenance_parms_v3
          param_v4).
End pdsch.

(** ** CSI-RS and SSB *)

Module csi_ss.
Record nfapi_nr_csi_spatial_stream_index := mk { numSpatialStreamIndices : Z; spatialStreamIndices : list Z }.

Definition wf (v : nfapi_nr_csi_spatial_stream_index) : Prop :=
  is_u8 v.(numSpatialStreamIndices) ∧ Forall is_u8 v.(spatialStreamIndices) ∧
  zlen v.(spatialStreamIndices) = v.(numSpatialStreamIndices) ∧ v.(numSpatialStreamIndices) <= MAX_NUM_SPATIAL_STREAMS.
End csi_ss.

Module csi_rs.
Record nfapi_nr_dl_tti_csi_rs_pdu_rel15_t := mk {
  bwp_size : Z; bwp_start : Z; subcarrier_spacing : Z; cyclic_prefix : Z; start_rb : Z; nr_of_rbs : Z;
  csi_type : Z; row : Z; freq_domain : Z; symb_l0 : Z; symb_l1 : Z; cdm_type : Z; freq_density : Z;
  scramb_id : Z; power_control_offset : Z; power_control_offset_ss : Z;
  precodingAndBeamforming : tx_bf.nfapi_nr_tx_precoding_and_beamforming_t;
  param_v4 : csi_ss.nfapi_nr_csi_spatial_stream_index }.

Definition wf (v : nfapi_nr_dl_tti_csi_rs_pdu_rel15_t) : Prop :=
  Forall is_u16 [v.(bwp_size); v.(bwp_start); v.(start_rb); v.(nr_of_rbs); v.(freq_domain); v.(scramb_id)] ∧
  Forall is_u8 [v.(subcarrier_spacing); v.(cyclic_prefix); v.(csi_type); v.(row); v.(symb_l0); v.(symb_l1);
    v.(cdm_type); v.(freq_density); v.(power_control_offset); v.(power_control_offset_ss)] ∧
  tx_bf.wf v.(precodingAndBeamforming) ∧
  csi_ss.wf v.(param_v4).

Definition pack_dl_tti_csi_rs_pdu_rel15_value `{ByteOrder} (v : nfapi_nr_dl_tti_csi_rs_pdu_rel15_t) : wr unit :=
  push16 v.(bwp_size);; push16 v.(bwp_start);; push8 v.(subcarrier_spacing);; push8 v.(cyclic_prefix);;
  push16 v.(start_rb);; push16 v.(nr_of_rbs);; push8 v.(csi_type);; push8 v.(row);; push16 v.(freq_domain);;
  push8 v.(symb_l0);; push8 v.(symb_l1);; push8 v.(cdm_type);; push8 v.(freq_density);; push16 v.(scramb_id);;
  push8 v.(power_control_offset);; push8 v.(power_control_offset_ss);;
  tx_bf.pack_nr_tx_beamforming_pdu v.(precodingAndBeamforming);;
  push8 v.(param_v4).(csi_ss.numSpatialStreamIndices);;
  pusharray8 v.(param_v4).(csi_ss.spatialStreamIndices) MAX_NUM_SPATIAL_STREAMS v.(param_v4).(csi_ss.numSpatialStreamIndices);;
  wret tt.

Definition unpack_dl_tti_csi_rs_pdu_rel15_value `{ByteOrder} : rd nfapi_nr_dl_tti_csi_rs_pdu_rel15_t :=
  bwp_size ⇐ pull16; bwp_start ⇐ pull16; subcarrier_spacing ⇐ pull8; cyclic_prefix ⇐ pull8; start_rb ⇐ pull16;
  nr_of_rbs ⇐ pull16; csi_type ⇐ pull8; row ⇐ pull8; freq_domain ⇐ pull16; symb_l0 ⇐ pull8; symb_l1 ⇐ pull8;
  cdm_type ⇐ pull8; freq_density ⇐ pull8; scramb_id ⇐ pull16; power_control_offset ⇐ pull8;
  power_control_offset_ss ⇐ pull8;
  precodingAndBeamforming ⇐ tx_bf.unpack_nr_tx_beamforming_pdu;
  numSpatialStreamIndices ⇐ pull8;
  spatialStreamIndices ⇐ pullarray8 MAX_NUM_SPATIAL_STREAMS numSpatialStreamIndices;
  let param_v4 := csi_ss.mk numSpatialStreamIndices spatialStreamIndices in
  rret (mk bwp_size bwp_start subcarrier_spacing cyclic_prefix start_rb nr_of_rbs csi_type row freq_domain symb_l0
          symb_l1 cdm_type freq_density scramb_id power_control_offset power_control_offset_ss
          precodingAndBeamforming param_v4).
End csi_rs.

Module ssb_v4.
Record nfapi_v4_ssb_param := mk { spatialStreamIndexPresent : Z; spatialStreamIndex : Z }.

Definition wf (v : nfapi_v4_ssb_param) : Prop := is_u8 v.(spatialStreamIndexPresent) ∧ is_u16 v.(spatialStreamIndex).
End ssb_v4.

(** [ssbRsrp] is neither packed nor unpacked; [bchPayload] is packed as 24 bits. *)
Module ssb.
Record nfapi_nr_dl_tti_ssb_pdu_rel15_t := mk {
  PhysCellId : Z; BetaPss : Z; SsbBlockIndex : Z; SsbSubcarrierOffset : Z; ssbOffsetPointA : Z;
  bchPayloadFlag : Z; bchPayload : Z;
  precoding_and_beamforming : tx_bf.nfapi_nr_tx_precoding_and_beamforming_t;
  param_v4 : ssb_v4.nfapi_v4_ssb_param }.

Definition wf (v : nfapi_nr_dl_tti_ssb_pdu_rel15_t) : Prop :=
  Forall is_u16 [v.(PhysCellId); v.(ssbOffsetPointA)] ∧
  Forall is_u8 [v.(BetaPss); v.(SsbBlockIndex); v.(SsbSubcarrierOffset); v.(bchPayloadFlag)] ∧
  0 <= v.(bchPayload) < 16777216 ∧
  tx_bf.wf v.(precoding_and_beamforming) ∧
  ssb_v4.wf v.(param_v4).

Definition pack_dl_tti_ssb_pdu_rel15_value `{ByteOrder} (v : nfapi_nr_dl_tti_ssb_pdu_rel15_t) : wr unit :=
  push16 v.(PhysCellId);; push8 v.(BetaPss);; push8 v.(SsbBlockIndex);; push8 v.(SsbSubcarrierOffset);;
  push16 v.(ssbOffsetPointA);; push8 v.(bchPayloadFlag);;
  push8 (Z.land (Z.shiftr v.(bchPayload) 16) 0xff);; push8 (Z.land (Z.shiftr v.(bchPayload) 8) 0xff);;
  push8 (Z.land v.(bchPayload) 0xff);; push8 0;;
  tx_bf.pack_nr_tx_beamforming_pdu v.(precoding_and_beamforming);;
  push8 v.(param_v4).(ssb_v4.spatialStreamIndexPresent);; push16 v.(param_v4).(ssb_v4.spatialStreamIndex);;
  wret tt.

Definition unpack_dl_tti_ssb_pdu_rel15_value `{ByteOrder} : rd nfapi_nr_dl_tti_ssb_pdu_rel15_t :=
  PhysCellId ⇐ pull16; BetaPss ⇐ pull8; SsbBlockIndex ⇐ pull8; SsbSubcarrierOffset ⇐ pull8;
  ssbOffsetPointA ⇐ pull16; bchPayloadFlag ⇐ pull8;
  byte3 ⇐ pull8; byte2 ⇐ pull8; byte1 ⇐ pull8; byte0 ⇐ pull8;
  let bchPayload := Z.lor (Z.lor (Z.shiftl byte3 16) (Z.shiftl byte2 8)) byte1 in
  precoding_and_beamforming ⇐ tx_bf.unpack_nr_tx_beamforming_pdu;
  spatialStreamIndexPresent ⇐ pull8; spatialStreamIndex ⇐ pull16;
  let param_v4 := ssb_v4.mk spatialStreamIndexPresent spatialStreamIndex in
  rret (mk PhysCellId BetaPss SsbBlockIndex SsbSubcarrierOffset ssbOffsetPointA bchPayloadFlag bchPayload precoding_and_beamforming param_v4).
End ssb.

(** ** DL_TTI.request *)

Definition NFAPI_NR_DL_TTI_PDCCH_PDU_TYPE : Z := 0.
Definition NFAPI_NR_DL_TTI_PDSCH_PDU_TYPE : Z := 1.
Definition NFAPI_NR_DL_TTI_CSI_RS_PDU_TYPE : Z := 2.
Definition NFAPI_NR_DL_TTI_SSB_PDU_TYPE : Z := 3.

(** The union of [nfapi_nr_dl_tti_request_pdu_t]; [dl_no_pdu]: never written. *)
Inductive dl_tti_pdu :=
| pdcch_pdu (v : pdcch.nfapi_nr_dl_tti_pdcch_pdu_rel15_t)
| pdsch_pdu (v : pdsch.nfapi_nr_dl_tti_pdsch_pdu_rel15_t)
| csi_rs_pdu (v : csi_rs.nfapi_nr_dl_tti_csi_rs_pdu_rel15_t)
| ssb_pdu (v : ssb.nfapi_nr_dl_tti_ssb_pdu_rel15_t)
| dl_no_pdu.

Module dl_pdu.
Record nfapi_nr_dl_tti_request_pdu_t := mk { PDUType : Z; PDUSize : Z; pdu : dl_tti_pdu }.

(** The member of the union is that of the type. *)
Definition wf `{ByteOrder} (v : nfapi_nr_dl_tti_request_pdu_t) : Prop :=
  is_u16 v.(PDUType) ∧
  match v.(pdu) with
  | pdcch_pdu p => v.(PDUType) = NFAPI_NR_DL_TTI_PDCCH_PDU_TYPE ∧ pdcch.wf p
  | pdsch_pdu p => v.(PDUType) = NFAPI_NR_DL_TTI_PDSCH_PDU_TYPE ∧ pdsch.wf p
  | csi_rs_pdu p => v.(PDUType) = NFAPI_NR_DL_TTI_CSI_RS_PDU_TYPE ∧ csi_rs.wf p
  | ssb_pdu p => v.(PDUType) = NFAPI_NR_DL_TTI_SSB_PDU_TYPE ∧ ssb.wf p
  | dl_no_pdu => NFAPI_NR_DL_TTI_SSB_PDU_TYPE < v.(PDUType)
  end.

(** Everything but the size, which packing computes. *)
Definition same (v v' : nfapi_nr_dl_tti_request_pdu_t) : Prop := v'.(PDUType) = v.(PDUType) ∧ v'.(pdu) = v.(pdu).

Definition pack_dl_tti_request_body_value `{ByteOrder} (v : nfapi_nr_dl_tti_request_pdu_t)
  : wr nfapi_nr_dl_tti_request_pdu_t :=
  x ⇒ wsized v.(PDUType) v.(PDUSize)
    (if v.(PDUType) =? NFAPI_NR_DL_TTI_PDCCH_PDU_TYPE then
       match v.(pdu) with pdcch_pdu p => pdcch.pack_dl_tti_pdcch_pdu_rel15_value p | _ => λ _, UB end
     else if v.(PDUType) =? NFAPI_NR_DL_TTI_PDSCH_PDU_TYPE then
       match v.(pdu) with pdsch_pdu p => pdsch.pack_dl_tti_pdsch_pdu_rel15_value p | _ => λ _, UB end
     else if v.(PDUType) =? NFAPI_NR_DL_TTI_CSI_RS_PDU_TYPE then
       match v.(pdu) with csi_rs_pdu p => csi_rs.pack_dl_tti_csi_rs_pdu_rel15_value p | _ => λ _, UB end
     else if v.(PDUType) =? NFAPI_NR_DL_TTI_SSB_PDU_TYPE then
       match v.(pdu) with ssb_pdu p => ssb.pack_dl_tti_ssb_pdu_rel15_value p | _ => λ _, UB end
     else wret tt);
  wret (mk v.(PDUType) x.1 v.(pdu)).

(** [PDUSize] is pulled as 16 bits into its low half; the high half of the zeroed message stays 0. *)
Definition unpack_dl_tti_request_body_value `{ByteOrder} : rd nfapi_nr_dl_tti_request_pdu_t :=
  PDUType ⇐ pull16;
  PDUSize ⇐ pull16;
  if PDUType =? NFAPI_NR_DL_TTI_PDCCH_PDU_TYPE then
    p ⇐ pdcch.unpack_dl_tti_pdcch_pdu_rel15_value; rret (mk PDUType PDUSize (pdcch_pdu p))
  else if PDUType =? NFAPI_NR_DL_TTI_PDSCH_PDU_TYPE then
    p ⇐ pdsch.unpack_dl_tti_pdsch_pdu_rel15_value; rret (mk PDUType PDUSize (pdsch_pdu p))
  else if PDUType =? NFAPI_NR_DL_TTI_CSI_RS_PDU_TYPE then
    p ⇐ csi_rs.unpack_dl_tti_csi_rs_pdu_rel15_value; rret (mk PDUType PDUSize (csi_rs_pdu p))
  else if PDUType =? NFAPI_NR_DL_TTI_SSB_PDU_TYPE then
    p ⇐ ssb.unpack_dl_tti_ssb_pdu_rel15_value; rret (mk PDUType PDUSize (ssb_pdu p))
  else rret (mk PDUType PDUSize dl_no_pdu).
End dl_pdu.

(** A row of [nUe] and [PduIdx]. *)
Module dl_group.
Record dl_tti_group := mk { nUe : Z; PduIdx : list Z }.

Definition wf (v : dl_tti_group) : Prop := is_u8 v.(nUe) ∧ Forall is_u8 v.(PduIdx) ∧ zlen v.(PduIdx) = v.(nUe) ∧ v.(nUe) <= 12.
End dl_group.

Module dl_body.
Record nfapi_nr_dl_tti_request_body_t := mk {
  nPDUs : Z; nGroup : Z;
  dl_tti_pdu_list : list dl_pdu.nfapi_nr_dl_tti_request_pdu_t;
  groups : list dl_group.dl_tti_group }.
End dl_body.

Module dl_tti.
Record nfapi_nr_dl_tti_request_t := mk { SFN : Z; Slot : Z; dl_tti_request_body : dl_body.nfapi_nr_dl_tti_request_body_t }.

Definition wf `{ByteOrder} (v : nfapi_nr_dl_tti_request_t) : Prop :=
  let b := v.(dl_tti_request_body) in
  is_u16 v.(SFN) ∧ is_u16 v.(Slot) ∧ is_u8 b.(dl_body.nPDUs) ∧ is_u8 b.(dl_body.nGroup) ∧
  zlen b.(dl_body.dl_tti_pdu_list) = b.(dl_body.nPDUs) ∧ b.(dl_body.nPDUs) <= NFAPI_NR_MAX_DL_TTI_PDUS ∧
  Forall dl_pdu.wf b.(dl_body.dl_tti_pdu_list) ∧
  zlen b.(dl_body.groups) = b.(dl_body.nGroup) ∧ Forall dl_group.wf b.(dl_body.groups).

(** Everything but the sizes of the PDUs. *)
Definition same (v v' : nfapi_nr_dl_tti_request_t) : Prop :=
  let b := v.(dl_tti_request_body) in let b' := v'.(dl_tti_request_body) in
  v'.(SFN) = v.(SFN) ∧ v'.(Slot) = v.(Slot) ∧ b'.(dl_body.nPDUs) = b.(dl_body.nPDUs) ∧ b'.(dl_body.nGroup) = b.(dl_body.nGroup) ∧
  Forall2 dl_pdu.same b.(dl_body.dl_tti_pdu_list) b'.(dl_body.dl_tti_pdu_list) ∧ b'.(dl_body.groups) = b.(dl_body.groups).

Definition pack_dl_tti_request `{ByteOrder} (v : nfapi_nr_dl_tti_request_t) : wr nfapi_nr_dl_tti_request_t :=
  let b := v.(dl_tti_request_body) in
  push16 v.(SFN);; push16 v.(Slot);; push8 b.(dl_body.nPDUs);; push8 b.(dl_body.nGroup);;
  pdus ⇒ weach dl_pdu.pack_dl_tti_request_body_value (Z.to_nat b.(dl_body.nPDUs)) b.(dl_body.dl_tti_pdu_list);
  wfor (λ g, push8 g.(dl_group.nUe);; wfor push32 g.(dl_group.nUe) g.(dl_group.PduIdx);; wret tt)
    b.(dl_body.nGroup) b.(dl_body.groups);;
  wret (mk v.(SFN) v.(Slot) (dl_body.mk b.(dl_body.nPDUs) b.(dl_body.nGroup) pdus b.(dl_body.groups))).

Definition unpack_dl_tti_request `{ByteOrder} : rd nfapi_nr_dl_tti_request_t :=
  SFN ⇐ pull16; Slot ⇐ pull16; nPDUs ⇐ pull8; nGroup ⇐ pull8;
  pdus ⇐ rfor dl_pdu.unpack_dl_tti_request_body_value NFAPI_NR_MAX_DL_TTI_PDUS nPDUs;
  groups ⇐ rfor (nUe ⇐ pull8; PduIdx ⇐ rfor pull8 12 nUe; rret (dl_group.mk nUe PduIdx)) 256 nGroup;
  rret (mk SFN Slot (dl_body.mk nPDUs nGroup pdus groups)).
End dl_tti.

(** ** UL_DCI.request

    The coreset is packed field by field here, without [param_v4]. *)

Module ul_dci_pdu.
Record nfapi_nr_ul_dci_request_pdus_t := mk { PDUType : Z; PDUSize : Z; pdcch_pdu : pdcch.nfapi_nr_dl_tti_pdcch_pdu_rel15_t }.

(** [param_v4] of a zeroed structure. *)
Definition no_param_v4 : pdcch_v4.nfapi_v4_pdcch_pdu_parameters_t := pdcch_v4.mk 0 [].

Definition wf `{ByteOrder} (v : nfapi_nr_ul_dci_request_pdus_t) : Prop :=
  is_u16 v.(PDUType) ∧ pdcch.wf_coreset v.(pdcch_pdu) ∧ v.(pdcch_pdu).(pdcch.param_v4) = no_param_v4.

Definition same (v v' : nfapi_nr_ul_dci_request_pdus_t) : Prop :=
  v'.(PDUType) = v.(PDUType) ∧ v'.(pdcch_pdu) = v.(pdcch_pdu).

Definition pack_ul_dci_pdu `{ByteOrder} (d : dl_dci.nfapi_nr_dl_dci_pdu_t) : wr unit :=
  push16 d.(dl_dci.RNTI);; push16 d.(dl_dci.ScramblingId);; push16 d.(dl_dci.ScramblingRNTI);;
  push8 d.(dl_dci.CceIndex);; push8 d.(dl_dci.AggregationLevel);;
  let beamforming := d.(dl_dci.precodingAndBeamforming) in
  push16 beamforming.(tx_bf.num_prgs);; push16 beamforming.(tx_bf.prg_size);;
  push8 beamforming.(tx_bf.dig_bf_interfaces);;
  wfor (λ p,
    push16 p.(tx_prg.pm_idx);;
    wfor push16 beamforming.(tx_bf.dig_bf_interfaces) p.(tx_prg.dig_bf_interface_list);;
    wret tt) beamforming.(tx_bf.num_prgs) beamforming.(tx_bf.prgs_list);;
  push8 d.(dl_dci.beta_PDCCH_1_0);; push8 d.(dl_dci.powerControlOffsetSS);; push16 d.(dl_dci.PayloadSizeBits);;
  pack_dci_payload d.(dl_dci.Payload) d.(dl_dci.PayloadSizeBits);;
  wret tt.

Definition pack_ul_dci_pdu_list_value `{ByteOrder} (value : nfapi_nr_ul_dci_request_pdus_t)
  : wr nfapi_nr_ul_dci_request_pdus_t :=
  let v := value.(pdcch_pdu) in
  x ⇒ wsized value.(PDUType) value.(PDUSize) (
    push16 v.(pdcch.BWPSize);; push16 v.(pdcch.BWPStart);; push8 v.(pdcch.SubcarrierSpacing);;
    push8 v.(pdcch.CyclicPrefix);; push8 v.(pdcch.StartSymbolIndex);; push8 v.(pdcch.DurationSymbols);;
    pusharray8 v.(pdcch.FreqDomainResource) 6 6;; push8 v.(pdcch.CceRegMappingType);;
    push8 v.(pdcch.RegBundleSize);; push8 v.(pdcch.InterleaverSize);; push8 v.(pdcch.CoreSetType);;
    push16 v.(pdcch.ShiftIndex);; push8 v.(pdcch.precoderGranularity);; push16 v.(pdcch.numDlDci);;
    wfor pack_ul_dci_pdu v.(pdcch.numDlDci) v.(pdcch.dci_pdu);;
    wret tt);
  wret (mk value.(PDUType) x.1 v).

Definition unpack_ul_dci_pdu `{ByteOrder} : rd dl_dci.nfapi_nr_dl_dci_pdu_t :=
  RNTI ⇐ pull16; ScramblingId ⇐ pull16; ScramblingRNTI ⇐ pull16; CceIndex ⇐ pull8; AggregationLevel ⇐ pull8;
  num_prgs ⇐ pull16; prg_size ⇐ pull16; dig_bf_interfaces ⇐ pull8;
  prgs_list ⇐ rfor (
    pm_idx ⇐ pull16;
    dig_bf_interface_list ⇐ rfor pull16 NFAPI_MAX_NUM_BG_IF dig_bf_interfaces;
    rret (tx_prg.mk pm_idx dig_bf_interface_list)) NFAPI_MAX_NUM_PRGS num_prgs;
  beta_PDCCH_1_0 ⇐ pull8; powerControlOffsetSS ⇐ pull8; PayloadSizeBits ⇐ pull16;
  Payload ⇐ unpack_dci_payload PayloadSizeBits;
  rret (dl_dci.mk RNTI ScramblingId ScramblingRNTI CceIndex AggregationLevel
    (tx_bf.mk num_prgs prg_size dig_bf_interfaces prgs_list) beta_PDCCH_1_0 powerControlOffsetSS PayloadSizeBits Payload).

Definition unpack_ul_dci_pdu_list_value `{ByteOrder} : rd nfapi_nr_ul_dci_request_pdus_t :=
  PDUType ⇐ pull16;
  PDUSize ⇐ pull16;
  BWPSize ⇐ pull16; BWPStart ⇐ pull16; SubcarrierSpacing ⇐ pull8; CyclicPrefix ⇐ pull8;
  StartSymbolIndex ⇐ pull8; DurationSymbols ⇐ pull8; FreqDomainResource ⇐ pullarray8 6 6;
  CceRegMappingType ⇐ pull8; RegBundleSize ⇐ pull8; InterleaverSize ⇐ pull8; CoreSetType ⇐ pull8;
  ShiftIndex ⇐ pull16; precoderGranularity ⇐ pull8; numDlDci ⇐ pull16;
  dci_pdu ⇐ rfor unpack_ul_dci_pdu MAX_DCI_CORESET numDlDci;
  rret (mk PDUType PDUSize (pdcch.mk BWPSize BWPStart SubcarrierSpacing CyclicPrefix StartSymbolIndex DurationSymbols FreqDomainResource
      CceRegMappingType RegBundleSize InterleaverSize CoreSetType ShiftIndex precoderGranularity numDlDci dci_pdu no_param_v4)).
End ul_dci_pdu.

Module ul_dci.
Record nfapi_nr_ul_dci_request_t := mk {
  SFN : Z; Slot : Z; numPdus : Z; ul_dci_pdu_list : list ul_dci_pdu.nfapi_nr_ul_dci_request_pdus_t }.

Definition wf `{ByteOrder} (v : nfapi_nr_ul_dci_request_t) : Prop :=
  is_u16 v.(SFN) ∧ is_u16 v.(Slot) ∧ is_u8 v.(numPdus) ∧ zlen v.(ul_dci_pdu_list) = v.(numPdus) ∧
  v.(numPdus) <= NFAPI_NR_MAX_NB_CORESETS ∧ Forall ul_dci_pdu.wf v.(ul_dci_pdu_list).

Definition same (v v' : nfapi_nr_ul_dci_request_t) : Prop :=
  v'.(SFN) = v.(SFN) ∧ v'.(Slot) = v.(Slot) ∧ v'.(numPdus) = v.(numPdus) ∧
  Forall2 ul_dci_pdu.same v.(ul_dci_pdu_list) v'.(ul_dci_pdu_list).

Definition pack_ul_dci_request `{ByteOrder} (v : nfapi_nr_ul_dci_request_t) : wr nfapi_nr_ul_dci_request_t :=
  push16 v.(SFN);; push16 v.(Slot);; push8 v.(numPdus);;
  pdus ⇒ weach ul_dci_pdu.pack_ul_dci_pdu_list_value (Z.to_nat v.(numPdus)) v.(ul_dci_pdu_list);
  wret (mk v.(SFN) v.(Slot) v.(numPdus) pdus).

Definition unpack_ul_dci_request `{ByteOrder} : rd nfapi_nr_ul_dci_request_t :=
  SFN ⇐ pull16; Slot ⇐ pull16; numPdus ⇐ pull8;
  ul_dci_pdu_list ⇐ rfor ul_dci_pdu.unpack_ul_dci_pdu_list_value NFAPI_NR_MAX_NB_CORESETS numPdus;
  rret (mk SFN Slot numPdus ul_dci_pdu_list).
End ul_dci.

(** ** TX_DATA.request *)

(** [value] of a TLV: the words themselves, or those a pointer refers to. *)
Inductive tx_data_value :=
| direct (l : list Z)
| ptr (l : list Z).

Module tx_tlv.
Record nfapi_nr_tx_data_request_tlv_t := mk { tag : Z; length : Z; value : tx_data_value }.

(** Number of 32-bit words of [n] octets. *)
Definition byte_len (n : Z) : Z := Z.quot (u32 (n + 3)) 4.

Definition wf (v : nfapi_nr_tx_data_request_tlv_t) : Prop :=
  is_u32 v.(length) ∧
  match v.(value) with
  | direct l => v.(tag) = 0 ∧ Forall is_u32 l ∧ zlen l = byte_len v.(length) ∧ zlen l <= 38016
  | ptr l => v.(tag) = 1 ∧ Forall is_u32 l ∧ zlen l = byte_len v.(length)
  end.

(** The body of the loop over the TLVs; the state is [*payload_offset]. *)
Definition pack_tx_data_tlv `{ByteOrder} (payload_offset : Z) (v : nfapi_nr_tx_data_request_tlv_t) : wr Z :=
  push16 v.(tag);; push32 v.(length);;
  let byte_len := byte_len v.(length) in
  if v.(tag) =? 0 then
    match v.(value) with
    | direct l => pusharray32 l byte_len byte_len;; wret payload_offset
    | ptr _ => λ _, UB
    end
  else if v.(tag) =? 1 then
    match v.(value) with
    | ptr l => pusharray32 l byte_len byte_len;; wret payload_offset
    | direct _ => λ _, UB
    end
  else if v.(tag) =? 2 then push32 payload_offset;; wret (u32 (payload_offset + v.(length)))
  else wret payload_offset.

Definition unpack_tx_data_tlv `{ByteOrder} : rd nfapi_nr_tx_data_request_tlv_t :=
  tag ⇐ pull16; length ⇐ pull32;
  let byte_len := byte_len length in
  if tag =? 0 then l ⇐ pullarray32 38016 byte_len; rret (mk tag length (direct l))
  else if tag =? 1 then l ⇐ pullarray32 byte_len byte_len; rret (mk tag length (ptr l))
  else rfail.
End tx_tlv.

(** A loop that carries a state through the elements of an array. *)
Fixpoint wfold {A S} (f : S → A → wr S) (s : S) (n : nat) (l : list A) : wr S :=
  match n with
  | O => wret s
  | S n' => match l with [] => λ _, UB | a :: l' => s' ⇒ f s a; wfold f s' n' l' end
  end.

Module tx_pdu.
Record nfapi_nr_pdu_t := mk { PDU_length : Z; PDU_index : Z; num_TLV : Z; TLVs : list tx_tlv.nfapi_nr_tx_data_request_tlv_t }.

Definition wf (v : nfapi_nr_pdu_t) : Prop :=
  is_u32 v.(PDU_length) ∧ is_u16 v.(PDU_index) ∧ is_u32 v.(num_TLV) ∧ zlen v.(TLVs) = v.(num_TLV) ∧
  v.(num_TLV) <= NFAPI_NR_MAX_TX_REQUEST_TLV ∧ Forall tx_tlv.wf v.(TLVs).

Definition pack_tx_data_pdu_list_value `{ByteOrder} (payload_offset : Z) (v : nfapi_nr_pdu_t) : wr Z :=
  push32 v.(PDU_length);; push16 v.(PDU_index);; push32 v.(num_TLV);;
  wfold tx_tlv.pack_tx_data_tlv payload_offset (Z.to_nat v.(num_TLV)) v.(TLVs).

Definition unpack_tx_data_pdu_list_value `{ByteOrder} : rd nfapi_nr_pdu_t :=
  PDU_length ⇐ pull32; PDU_index ⇐ pull16; num_TLV ⇐ pull32;
  TLVs ⇐ rfor tx_tlv.unpack_tx_data_tlv NFAPI_NR_MAX_TX_REQUEST_TLV num_TLV;
  rret (mk PDU_length PDU_index num_TLV TLVs).
End tx_pdu.

Module tx_data.
Record nfapi_nr_tx_data_request_t := mk { SFN : Z; Slot : Z; Number_of_PDUs : Z; pdu_list : list tx_pdu.nfapi_nr_pdu_t }.

Definition wf (v : nfapi_nr_tx_data_request_t) : Prop :=
  is_u16 v.(SFN) ∧ is_u16 v.(Slot) ∧ is_u16 v.(Number_of_PDUs) ∧ zlen v.(pdu_list) = v.(Number_of_PDUs) ∧
  v.(Number_of_PDUs) <= NFAPI_NR_MAX_TX_REQUEST_PDUS ∧ Forall tx_pdu.wf v.(pdu_list).

Definition pack_tx_data_request `{ByteOrder} (v : nfapi_nr_tx_data_request_t) : wr unit :=
  push16 v.(SFN);; push16 v.(Slot);; push16 v.(Number_of_PDUs);;
  wfold tx_pdu.pack_tx_data_pdu_list_value 0 (Z.to_nat v.(Number_of_PDUs)) v.(pdu_list);;
  wret tt.

Definition unpack_tx_data_request `{ByteOrder} : rd nfapi_nr_tx_data_request_t :=
  SFN ⇐ pull16; Slot ⇐ pull16; Number_of_PDUs ⇐ pull16;
  pdu_list ⇐ rfor tx_pdu.unpack_tx_data_pdu_list_value NFAPI_NR_MAX_TX_REQUEST_PDUS Number_of_PDUs;
  rret (mk SFN Slot Number_of_PDUs pdu_list).
End tx_data.
