(* ===== verification/FapiDlCodec.v ===== *)
(** * nFAPI P7: the downlink messages round trip

    For each structure of [FapiDl.v], that unpacking reads back what packing wrote, and that
    unpacking returns only well-formed values. *)

From S2P Require Import Prelude Fapi FapiCodec FapiDl.

Ltac sizes :=
  unfold NFAPI_MAX_NUM_PRGS, NFAPI_MAX_NUM_BG_IF, MAX_DCI_CORESET, MAX_NUM_SPATIAL_STREAMS, MAX_NUM_CODEWORDS,
    NFAPI_NR_MAX_DL_TTI_PDUS, NFAPI_NR_MAX_NB_CORESETS, NFAPI_NR_MAX_TX_REQUEST_TLV, NFAPI_NR_MAX_TX_REQUEST_PDUS in *.

#[export] Hint Extern 1 (zlen _ = _) => assumption : fapi.
#[export] Hint Extern 1 (_ <= _) => (assumption || (sizes; field_lia)) : fapi.
#[export] Hint Extern 1 (Forall _ _) => assumption : fapi.
#[export] Hint Resolve codec_array8 codec_array16 codec_array32 codec_dci codec_opt : fapi.

(** A record read back field by field. *)
Ltac codec_record v := codec_steps; destruct v; apply codec_ret.

(** The fields of a record read, each in its range. *)
Ltac typed_record := typed_steps; apply typed_ret; simpl; wf_goal; sizes; field_lia.

Section dl.
Context `{BO : ByteOrder}.

Lemma tx_bf_codec v : tx_bf.wf v → codec (tx_bf.pack_nr_tx_beamforming_pdu v) tx_bf.unpack_nr_tx_beamforming_pdu tt v.
Proof using.
  intros H. unfold tx_bf.wf in H. wf_facts. unfold tx_bf.pack_nr_tx_beamforming_pdu, tx_bf.unpack_nr_tx_beamforming_pdu.
  codec_steps. eapply codec_bind.
  - eapply codec_for with (P := tx_prg.wf (tx_bf.dig_bf_interfaces v)); eauto with fapi. intros p Hp. unfold tx_prg.wf in Hp.
    wf_facts. codec_steps. eapply codec_bind; [eapply codec_for with (P := is_u16); eauto with fapi |]. codec_record p.
  - codec_record v.
Qed.

#[local] Hint Resolve tx_bf_codec : fapi.

Lemma tx_bf_typed : typed tx_bf.unpack_nr_tx_beamforming_pdu tx_bf.wf.
Proof using.
  unfold tx_bf.unpack_nr_tx_beamforming_pdu, tx_bf.wf. do 3 (eapply typed_bind; [solve [eauto with fapi] | intros ? ?]).
  eapply typed_bind; [apply typed_for with (P := tx_prg.wf a1) |].
  - unfold tx_prg.wf. typed_record.
  - intros l Hl. wf_facts. typed_record.
Qed.
#[local] Hint Resolve tx_bf_typed : fapi.

(** ** PDCCH *)

Lemma dci_codec v : dl_dci.wf v → codec (dl_dci.pack_dci_pdu v) dl_dci.unpack_dci_pdu tt v.
Proof using. intros H. unfold dl_dci.wf in H. wf_facts. codec_record v. Qed.

Lemma dci_typed : typed dl_dci.unpack_dci_pdu dl_dci.wf.
Proof using. unfold dl_dci.unpack_dci_pdu, dl_dci.wf. typed_record. Qed.
#[local] Hint Resolve dci_codec dci_typed : fapi.

Lemma dci_ss_codec v : dci_ss.wf v →
  codec (push16 v.(dci_ss.dci_index);; push16 v.(dci_ss.spatial_stream_index);; wret tt)
    (i ⇐ pull16; j ⇐ pull16; rret (dci_ss.mk i j)) tt v.
Proof using. intros H. unfold dci_ss.wf in H. wf_facts. codec_record v. Qed.

Lemma dci_ss_typed : typed (i ⇐ pull16; j ⇐ pull16; rret (dci_ss.mk i j)) dci_ss.wf.
Proof using. unfold dci_ss.wf. typed_record. Qed.
#[local] Hint Resolve dci_ss_codec dci_ss_typed : fapi.
#[local] Hint Extern 2 (codec (wfor _ _ _) (rfor _ _ _) _ _) => eapply codec_for : fapi.

Lemma pdcch_v4_codec v :
  pdcch_v4.wf v → codec (pdcch_v4.pack_pdcch_parameters_v4 v) pdcch_v4.unpack_pdcch_parameters_v4 tt v.
Proof using. intros H. unfold pdcch_v4.wf in H. wf_facts. codec_record v. Qed.

Lemma pdcch_v4_typed : typed pdcch_v4.unpack_pdcch_parameters_v4 pdcch_v4.wf.
Proof using. unfold pdcch_v4.unpack_pdcch_parameters_v4, pdcch_v4.wf. typed_record. Qed.
#[local] Hint Resolve pdcch_v4_codec pdcch_v4_typed : fapi.

Lemma pdcch_codec v :
  pdcch.wf v → codec (pdcch.pack_dl_tti_pdcch_pdu_rel15_value v) pdcch.unpack_dl_tti_pdcch_pdu_rel15_value tt v.
Proof using. intros H. unfold pdcch.wf, pdcch.wf_coreset in H. wf_facts. codec_record v. Qed.

Lemma pdcch_typed : typed pdcch.unpack_dl_tti_pdcch_pdu_rel15_value pdcch.wf.
Proof using. unfold pdcch.unpack_dl_tti_pdcch_pdu_rel15_value, pdcch.wf, pdcch.wf_coreset. typed_record. Qed.

(** ** PDSCH *)

Lemma ss_index_codec v :
  ss_index.wf v → codec (ss_index.pack_spatial_stream_indices v) ss_index.unpack_spatial_stream_indices tt v.
Proof using. intros H. unfold ss_index.wf in H. wf_facts. codec_record v. Qed.

Lemma ss_index_typed : typed ss_index.unpack_spatial_stream_indices ss_index.wf.
Proof using. unfold ss_index.unpack_spatial_stream_indices, ss_index.wf. typed_record. Qed.

Lemma codeword_codec v : codeword.wf v → codec (codeword.pack_codeword v) codeword.unpack_codeword tt v.
Proof using. intros H. unfold codeword.wf in H. wf_facts. codec_record v. Qed.

Lemma codeword_typed : typed codeword.unpack_codeword codeword.wf.
Proof using. unfold codeword.unpack_codeword, codeword.wf. typed_record. Qed.

Lemma pdsch_ptrs_codec v : pdsch_ptrs.wf v → codec (pdsch_ptrs.pack_pdsch_ptrs v) pdsch_ptrs.unpack_pdsch_ptrs tt v.
Proof using. intros H. unfold pdsch_ptrs.wf in H. wf_facts. codec_record v. Qed.

Lemma pdsch_ptrs_typed : typed pdsch_ptrs.unpack_pdsch_ptrs pdsch_ptrs.wf.
Proof using. unfold pdsch_ptrs.unpack_pdsch_ptrs, pdsch_ptrs.wf. typed_record. Qed.

Lemma pdsch_cbg_codec v : pdsch_cbg.wf v → codec (pdsch_cbg.pack_pdsch_cbg v) pdsch_cbg.unpack_pdsch_cbg tt v.
Proof using. intros H. unfold pdsch_cbg.wf in H. wf_facts. codec_record v. Qed.

Lemma pdsch_cbg_typed : typed pdsch_cbg.unpack_pdsch_cbg pdsch_cbg.wf.
Proof using. unfold pdsch_cbg.unpack_pdsch_cbg, pdsch_cbg.wf. typed_record. Qed.
#[local] Hint Resolve ss_index_codec ss_index_typed codeword_codec codeword_typed : fapi.
#[local] Hint Resolve pdsch_ptrs_codec pdsch_ptrs_typed pdsch_cbg_codec pdsch_cbg_typed : fapi.

Lemma pdsch_codec v :
  pdsch.wf v → codec (pdsch.pack_dl_tti_pdsch_pdu_rel15_value v) pdsch.unpack_dl_tti_pdsch_pdu_rel15_value tt v.
Proof using.
  intros H. unfold pdsch.wf, maint_v3.wf, pdsch_v4.wf in H. wf_facts. codec_steps.
  destruct v as [? ? ? ? ? ? ? ? ? ? ? ? ? ? ? ? ? ? ? ? ? ? ? ? ? ? ? ? ? ? ? [] []]. apply codec_ret.
Qed.

Lemma pdsch_typed : typed pdsch.unpack_dl_tti_pdsch_pdu_rel15_value pdsch.wf.
Proof using. unfold pdsch.unpack_dl_tti_pdsch_pdu_rel15_value, pdsch.wf, maint_v3.wf, pdsch_v4.wf. typed_record. Qed.

(** ** CSI-RS and SSB *)

Lemma csi_rs_codec v :
  csi_rs.wf v → codec (csi_rs.pack_dl_tti_csi_rs_pdu_rel15_value v) csi_rs.unpack_dl_tti_csi_rs_pdu_rel15_value tt v.
Proof using.
  intros H. unfold csi_rs.wf, csi_ss.wf in H. wf_facts. codec_steps.
  destruct v as [? ? ? ? ? ? ? ? ? ? ? ? ? ? ? ? ? []]. apply codec_ret.
Qed.

Lemma csi_rs_typed : typed csi_rs.unpack_dl_tti_csi_rs_pdu_rel15_value csi_rs.wf.
Proof using. unfold csi_rs.unpack_dl_tti_csi_rs_pdu_rel15_value, csi_rs.wf, csi_ss.wf. typed_record. Qed.

Lemma octet_u8 v : is_u8 (Z.land v 255).
Proof using. change 255 with (Z.ones 8). rewrite Z.land_ones by done. by apply Z.mod_pos_bound. Qed.

Lemma join24 v : 0 <= v < 16777216 →
  Z.lor (Z.lor (Z.shiftl (Z.land (Z.shiftr v 16) 255) 16) (Z.shiftl (Z.land (Z.shiftr v 8) 255) 8)) (Z.land v 255) = v.
Proof using.
  intros Hv. change 255 with (Z.ones 8).
  replace (Z.land (Z.shiftr v 16) (Z.ones 8)) with (Z.shiftr (Z.shiftr v 8) 8).
  - change 16 with (8 + 8). rewrite <- (Z.shiftl_shiftl _ 8 8), <- Z.shiftl_lor, split_low, split_low by lia. done.
  - rewrite Z.shiftr_shiftr, Z.land_ones by lia. symmetry. apply Z.mod_small. rewrite Z.shiftr_div_pow2 by done.
    change (2 ^ (8 + 8)) with 65536. zdiv_lia.
Qed.
#[local] Hint Resolve octet_u8 : fapi.
#[local] Hint Extern 1 (is_u8 0) => done : fapi.

Lemma ssb_codec v : ssb.wf v → codec (ssb.pack_dl_tti_ssb_pdu_rel15_value v) ssb.unpack_dl_tti_ssb_pdu_rel15_value tt v.
Proof using.
  intros H. unfold ssb.wf, ssb_v4.wf in H. wf_facts. codec_steps. rewrite join24 by done.
  destruct v as [? ? ? ? ? ? ? ? []]. apply codec_ret.
Qed.

Lemma ssb_typed : typed ssb.unpack_dl_tti_ssb_pdu_rel15_value ssb.wf.
Proof using.
  unfold ssb.unpack_dl_tti_ssb_pdu_rel15_value, ssb.wf, ssb_v4.wf. typed_steps. apply typed_ret. simpl.
  assert (Hbch : ∀ x y z, is_u8 x → is_u8 y → is_u8 z → 0 <= Z.lor (Z.lor (Z.shiftl x 16) (Z.shiftl y 8)) z < 2 ^ 24).
  { intros x y z Hx Hy Hz. rewrite <- (Z.shiftl_0_r z).
    repeat (apply (lor_bound _ _ 24); [done | | by apply octet_bound]). by apply octet_bound. }
  wf_goal; by apply Hbch.
Qed.
#[local] Hint Resolve pdcch_codec pdcch_typed pdsch_codec pdsch_typed csi_rs_codec csi_rs_typed ssb_codec ssb_typed : fapi.

(** ** DL_TTI.request *)

Lemma dl_pdu_codec v : dl_pdu.wf v →
  ∃ v', dl_pdu.same v v' ∧ codec (dl_pdu.pack_dl_tti_request_body_value v) dl_pdu.unpack_dl_tti_request_body_value v' v'.
Proof using.
  intros [Ht Hp]. unfold dl_pdu.pack_dl_tti_request_body_value, dl_pdu.unpack_dl_tti_request_body_value.
  match goal with |- ∃ v', _ ∧ codec (x ⇒ wsized ?t ?s ?w; _) (ty ⇐ pull16; sz ⇐ pull16; @?k ty sz) v' v' =>
    destruct (codec_sized t s w k tt (λ n, dl_pdu.mk (dl_pdu.PDUType v) n (dl_pdu.pdu v))) as (n & Hn & Hc); [done | |] end.
  - intros n Hn. destruct (dl_pdu.pdu v) as [p | p | p | p |];
      [destruct Hp as [-> Hp]; simpl; apply (codec_end _ _ (λ p, dl_pdu.mk _ n _)); eauto with fapi .. |].
    unfold NFAPI_NR_DL_TTI_PDCCH_PDU_TYPE, NFAPI_NR_DL_TTI_PDSCH_PDU_TYPE, NFAPI_NR_DL_TTI_CSI_RS_PDU_TYPE, NFAPI_NR_DL_TTI_SSB_PDU_TYPE in *.
    decide_false (dl_pdu.PDUType v =? 0). decide_false (dl_pdu.PDUType v =? 1). decide_false (dl_pdu.PDUType v =? 2).
    decide_false (dl_pdu.PDUType v =? 3). apply codec_ret.
  - exists (dl_pdu.mk (dl_pdu.PDUType v) n (dl_pdu.pdu v)). split; [done |].
    by apply (codec_map _ _ (λ x : Z * unit, dl_pdu.mk (dl_pdu.PDUType v) x.1 (dl_pdu.pdu v)) (n, tt)).
Qed.

Lemma dl_pdu_typed : typed dl_pdu.unpack_dl_tti_request_body_value dl_pdu.wf.
Proof using.
  unfold dl_pdu.unpack_dl_tti_request_body_value, dl_pdu.wf. do 2 (eapply typed_bind; [solve [eauto with fapi] | intros ? ?]).
  unfold NFAPI_NR_DL_TTI_PDCCH_PDU_TYPE, NFAPI_NR_DL_TTI_PDSCH_PDU_TYPE, NFAPI_NR_DL_TTI_CSI_RS_PDU_TYPE, NFAPI_NR_DL_TTI_SSB_PDU_TYPE.
  repeat match goal with |- typed (if ?a =? ?b then _ else _) _ => destruct (Z.eqb_spec a b) end; typed_steps; apply typed_ret; simpl;
    split; [done .. |]; unfold is_u16 in *; lia.
Qed.
#[local] Hint Resolve dl_pdu_typed : fapi.

(** The index lists of a group are packed as 32-bit and unpacked as 8-bit fields: only groups
    without UEs are read back. *)
Definition no_ue (g : dl_group.dl_tti_group) : Prop := g = dl_group.mk 0 [].

(** The loop over PDUs whose size is computed. *)
Lemma codec_pdus {A} (f : A → wr A) (r : rd A) (P : A → Prop) (R : A → A → Prop) cap n l :
  zlen l = n → n <= cap → Forall P l → (∀ a, P a → ∃ a', R a a' ∧ codec (f a) r a' a') →
  ∃ l', Forall2 R l l' ∧ codec (weach f (Z.to_nat n) l) (rfor r cap n) l' l'.
Proof using.
  intros <- Hcap Hl H. unfold rfor, zlen. rewrite Nat2Z.id. apply codec_each_rel; [done |].
  eapply Forall_impl; [exact Hl | done].
Qed.

Lemma dl_tti_codec v : dl_tti.wf v → Forall no_ue v.(dl_tti.dl_tti_request_body).(dl_body.groups) →
  ∃ v', dl_tti.same v v' ∧ codec (dl_tti.pack_dl_tti_request v) dl_tti.unpack_dl_tti_request v' v'.
Proof using.
  intros H Hg. unfold dl_tti.wf in H. wf_facts.
  destruct (codec_pdus dl_pdu.pack_dl_tti_request_body_value dl_pdu.unpack_dl_tti_request_body_value dl_pdu.wf dl_pdu.same
    NFAPI_NR_MAX_DL_TTI_PDUS v.(dl_tti.dl_tti_request_body).(dl_body.nPDUs) v.(dl_tti.dl_tti_request_body).(dl_body.dl_tti_pdu_list))
    as (l' & Hl' & Hc); [done .. | apply dl_pdu_codec |].
  exists (dl_tti.mk v.(dl_tti.SFN) v.(dl_tti.Slot) (dl_body.mk v.(dl_tti.dl_tti_request_body).(dl_body.nPDUs)
    v.(dl_tti.dl_tti_request_body).(dl_body.nGroup) l' v.(dl_tti.dl_tti_request_body).(dl_body.groups))).
  split; [done |]. codec_steps. eapply codec_bind; [eapply codec_for with (P := no_ue); [done | field_lia | done |] | apply codec_ret].
  intros g ->. simpl. eapply codec_bind; [by apply codec8 |]. apply codec_ret.
Qed.

Lemma dl_tti_typed : typed dl_tti.unpack_dl_tti_request dl_tti.wf.
Proof using.
  unfold dl_tti.unpack_dl_tti_request, dl_tti.wf. typed_steps. eapply typed_bind; [apply typed_for with (P := dl_group.wf) |].
  - unfold dl_group.wf. typed_record.
  - intros l ?. wf_facts. typed_record.
Qed.

(** ** UL_DCI.request *)

Lemma ul_dci_pdu_body_codec v : dl_dci.wf v → codec (ul_dci_pdu.pack_ul_dci_pdu v) ul_dci_pdu.unpack_ul_dci_pdu tt v.
Proof using.
  intros H. unfold dl_dci.wf, tx_bf.wf in H. wf_facts. unfold ul_dci_pdu.pack_ul_dci_pdu, ul_dci_pdu.unpack_ul_dci_pdu.
  codec_steps. eapply codec_bind.
  - eapply codec_for with (P := tx_prg.wf (tx_bf.dig_bf_interfaces (dl_dci.precodingAndBeamforming v))); eauto with fapi.
    intros p Hp. unfold tx_prg.wf in Hp. wf_facts. codec_record p.
  - codec_steps. destruct v as [? ? ? ? ? []]. apply codec_ret.
Qed.

Lemma ul_dci_pdu_body_typed : typed ul_dci_pdu.unpack_ul_dci_pdu dl_dci.wf.
Proof using.
  unfold ul_dci_pdu.unpack_ul_dci_pdu, dl_dci.wf, tx_bf.wf. do 8 (eapply typed_bind; [solve [eauto with fapi] | intros ? ?]).
  eapply typed_bind; [apply typed_for with (P := tx_prg.wf a6) |].
  - unfold tx_prg.wf. typed_record.
  - intros l ?. wf_facts. typed_record.
Qed.
#[local] Hint Resolve ul_dci_pdu_body_codec ul_dci_pdu_body_typed : fapi.

Lemma ul_dci_pdu_codec v : ul_dci_pdu.wf v →
  ∃ v', ul_dci_pdu.same v v' ∧ codec (ul_dci_pdu.pack_ul_dci_pdu_list_value v) ul_dci_pdu.unpack_ul_dci_pdu_list_value v' v'.
Proof using.
  intros (Ht & Hc & Hv4). unfold ul_dci_pdu.pack_ul_dci_pdu_list_value, ul_dci_pdu.unpack_ul_dci_pdu_list_value.
  match goal with |- ∃ v', _ ∧ codec (x ⇒ wsized ?t ?s ?w; _) (ty ⇐ pull16; sz ⇐ pull16; @?k ty sz) v' v' =>
    destruct (codec_sized t s w k tt (λ n, ul_dci_pdu.mk (ul_dci_pdu.PDUType v) n (ul_dci_pdu.pdcch_pdu v))) as (n & Hn & Hcc); [done | |] end.
  - intros n Hn. unfold pdcch.wf_coreset in Hc. wf_facts. codec_steps. rewrite <- Hv4. destruct v as [? ? []]. apply codec_ret.
  - exists (ul_dci_pdu.mk (ul_dci_pdu.PDUType v) n (ul_dci_pdu.pdcch_pdu v)). split; [done |].
    by apply (codec_map _ _ (λ x : Z * unit, ul_dci_pdu.mk (ul_dci_pdu.PDUType v) x.1 (ul_dci_pdu.pdcch_pdu v)) (n, tt)).
Qed.

Lemma ul_dci_pdu_typed : typed ul_dci_pdu.unpack_ul_dci_pdu_list_value ul_dci_pdu.wf.
Proof using. unfold ul_dci_pdu.unpack_ul_dci_pdu_list_value, ul_dci_pdu.wf, pdcch.wf_coreset. typed_record. Qed.
#[local] Hint Resolve ul_dci_pdu_typed : fapi.

Lemma ul_dci_codec v : ul_dci.wf v →
  ∃ v', ul_dci.same v v' ∧ codec (ul_dci.pack_ul_dci_request v) ul_dci.unpack_ul_dci_request v' v'.
Proof using.
  intros H. unfold ul_dci.wf in H. wf_facts.
  destruct (codec_pdus ul_dci_pdu.pack_ul_dci_pdu_list_value ul_dci_pdu.unpack_ul_dci_pdu_list_value ul_dci_pdu.wf ul_dci_pdu.same
    NFAPI_NR_MAX_NB_CORESETS v.(ul_dci.numPdus) v.(ul_dci.ul_dci_pdu_list)) as (l' & Hl' & Hc); [done .. | apply ul_dci_pdu_codec |].
  exists (ul_dci.mk v.(ul_dci.SFN) v.(ul_dci.Slot) v.(ul_dci.numPdus) l'). split; [done |].
  codec_steps. apply codec_ret.
Qed.

Lemma ul_dci_typed : typed ul_dci.unpack_ul_dci_request ul_dci.wf.
Proof using. unfold ul_dci.unpack_ul_dci_request, ul_dci.wf. typed_record. Qed.

(** ** TX_DATA.request *)

(** A loop that carries a state: what it returns is of no interest here. *)
Lemma codec_fold {A S} (f : S → A → wr S) (r : rd A) (P : A → Prop) cap n l s :
  zlen l = n → n <= cap → Forall P l → (∀ s a, P a → ∃ s', codec (f s a) r s' a) →
  ∃ s', codec (wfold f s (Z.to_nat n) l) (rfor r cap n) s' l.
Proof using.
  intros <- Hcap Hl H. unfold rfor, zlen in *. rewrite Nat2Z.id. clear BO. revert s cap Hcap.
  induction Hl as [| a l Ha Hl IH]; intros s cap Hcap; [exists s; apply codec_ret |].
  destruct (H s a Ha) as (s1 & H1). destruct (IH s1 (cap - 1)) as (s2 & H2); [simpl in *; lia |].
  exists s2. cbn [length wfold reach]. decide_false (cap <=? 0) || (simpl in Hcap; decide_false (cap <=? 0)).
  eapply codec_bind; [exact H1 |]. by apply (codec_end _ _ (cons a)).
Qed.

Lemma byte_len_nonneg n : is_u32 n → 0 <= tx_tlv.byte_len n.
Proof using. intros Hn. unfold tx_tlv.byte_len. apply Z.quot_pos; [| done]. by apply Z.mod_pos_bound. Qed.

Lemma tx_tlv_codec off v : tx_tlv.wf v → ∃ off', codec (tx_tlv.pack_tx_data_tlv off v) tx_tlv.unpack_tx_data_tlv off' v.
Proof using.
  intros [Hl Hv]. exists off. unfold tx_tlv.pack_tx_data_tlv, tx_tlv.unpack_tx_data_tlv.
  destruct v as [t n [l | l]]; simpl in *; wf_facts; subst; simpl;
    (eapply codec_bind; [by apply codec16 |]; eapply codec_bind; [by apply codec32 |]; simpl);
    (eapply codec_bind; [apply codec_array32; [done | done | lia | lia] |]); apply codec_ret.
Qed.

Lemma tx_tlv_typed : typed tx_tlv.unpack_tx_data_tlv tx_tlv.wf.
Proof using.
  unfold tx_tlv.unpack_tx_data_tlv, tx_tlv.wf. do 2 (eapply typed_bind; [solve [eauto with fapi] | intros ? ?]). simpl.
  pose proof (byte_len_nonneg a0 ltac:(done)).
  destruct (Z.eqb_spec a 0) as [-> |]; [| destruct (Z.eqb_spec a 1) as [-> |]; [| apply typed_fail]]; typed_record.
Qed.

Lemma tx_pdu_codec off v :
  tx_pdu.wf v → ∃ off', codec (tx_pdu.pack_tx_data_pdu_list_value off v) tx_pdu.unpack_tx_data_pdu_list_value off' v.
Proof using.
  intros H. unfold tx_pdu.wf in H. wf_facts.
  destruct (codec_fold tx_tlv.pack_tx_data_tlv tx_tlv.unpack_tx_data_tlv tx_tlv.wf NFAPI_NR_MAX_TX_REQUEST_TLV
    v.(tx_pdu.num_TLV) v.(tx_pdu.TLVs) off) as (off' & Hc); [done .. | apply tx_tlv_codec |].
  exists off'. codec_steps. destruct v. by apply (codec_end _ _ (tx_pdu.mk _ _ _)).
Qed.
#[local] Hint Resolve tx_tlv_typed : fapi.

Lemma tx_pdu_typed : typed tx_pdu.unpack_tx_data_pdu_list_value tx_pdu.wf.
Proof using. unfold tx_pdu.unpack_tx_data_pdu_list_value, tx_pdu.wf. typed_record. Qed.
#[local] Hint Resolve tx_pdu_typed : fapi.

Lemma tx_data_codec v : tx_data.wf v → codec (tx_data.pack_tx_data_request v) tx_data.unpack_tx_data_request tt v.
Proof using.
  intros H. unfold tx_data.wf in H. wf_facts.
  destruct (codec_fold tx_pdu.pack_tx_data_pdu_list_value tx_pdu.unpack_tx_data_pdu_list_value tx_pdu.wf NFAPI_NR_MAX_TX_REQUEST_PDUS
    v.(tx_data.Number_of_PDUs) v.(tx_data.pdu_list) 0) as (off' & Hc); [done .. | apply tx_pdu_codec |].
  codec_steps. destruct v. apply codec_ret.
Qed.

Lemma tx_data_typed : typed tx_data.unpack_tx_data_request tx_data.wf.
Proof using. unfold tx_data.unpack_tx_data_request, tx_data.wf. typed_record. Qed.
End dl.
