(* ===== verification/FapiUl.v ===== *)
(** * nFAPI P7: UL_TTI.request

    The uplink configuration message of [nfapi/open-nFAPI/fapi/src/nr_fapi_p7.c], laid out as
    [FapiDl.v].  The optional groups of a PUSCH PDU ([pusch_data], [pusch_uci], [pusch_ptrs],
    [dfts_ofdm]) are [None] when their bit of [pdu_bit_map] is not set. *)

From S2P Require Import Prelude Fapi FapiDl.

Definition NFAPI_MAX_NUM_CB : Z := 8.
Definition NFAPI_MAX_NUM_UL_PDU : Z := 255.
Definition NFAPI_MAX_NUM_GROUPS : Z := 8.
Definition NFAPI_MAX_NUM_UL_UE_PER_GROUP : Z := 6.

(** ** Beamforming

    [prgs_list[i]] is its only field, [dig_bf_interface_list]. *)

Module rx_bf.
Record nfapi_nr_ul_beamforming_t := mk {
  trp_scheme : Z; num_prgs : Z; prg_size : Z; dig_bf_interface : Z;
  prgs_list : list (list Z) }.

(** A row of [k] beam indices. *)
Definition wf_prg (k : Z) (l : list Z) : Prop := Forall is_u16 l ∧ zlen l = k ∧ k <= NFAPI_MAX_NUM_BG_IF.

Definition wf (v : nfapi_nr_ul_beamforming_t) : Prop :=
  Forall is_u8 [v.(trp_scheme); v.(dig_bf_interface)] ∧
  Forall is_u16 [v.(num_prgs); v.(prg_size)] ∧
  zlen v.(prgs_list) = v.(num_prgs) ∧
  v.(num_prgs) <= NFAPI_MAX_NUM_PRGS ∧
  Forall (wf_prg v.(dig_bf_interface)) v.(prgs_list).

Definition pack_nr_rx_beamforming_pdu `{ByteOrder} (v : nfapi_nr_ul_beamforming_t) : wr unit :=
  push8 v.(trp_scheme);; push16 v.(num_prgs);; push16 v.(prg_size);; push8 v.(dig_bf_interface);;
  wfor (wfor push16 v.(dig_bf_interface)) v.(num_prgs) v.(prgs_list);;
  wret tt.

Definition unpack_nr_rx_beamforming_pdu `{ByteOrder} : rd nfapi_nr_ul_beamforming_t :=
  trp_scheme ⇐ pull8; num_prgs ⇐ pull16; prg_size ⇐ pull16; dig_bf_interface ⇐ pull8;
  prgs_list ⇐ rfor (rfor pull16 NFAPI_MAX_NUM_BG_IF dig_bf_interface) NFAPI_MAX_NUM_PRGS num_prgs;
  rret (mk trp_scheme num_prgs prg_size dig_bf_interface prgs_list).
End rx_bf.

(** ** PRACH *)

Module prach.
Record nfapi_nr_prach_pdu_t := mk {
  phys_cell_id : Z; num_prach_ocas : Z; prach_format : Z; num_ra : Z; prach_start_symbol : Z; num_cs : Z;
  beamforming : rx_bf.nfapi_nr_ul_beamforming_t;
  param_v4 : ss_index.nfapi_nr_spatial_stream_index_t }.

Definition wf (v : nfapi_nr_prach_pdu_t) : Prop :=
  Forall is_u16 [v.(phys_cell_id); v.(num_cs)] ∧
  Forall is_u8 [v.(num_prach_ocas); v.(prach_format); v.(num_ra); v.(prach_start_symbol)] ∧
  rx_bf.wf v.(beamforming) ∧
  ss_index.wf v.(param_v4).

Definition pack_ul_tti_request_prach_pdu `{ByteOrder} (v : nfapi_nr_prach_pdu_t) : wr unit :=
  push16 v.(phys_cell_id);; push8 v.(num_prach_ocas);; push8 v.(prach_format);; push8 v.(num_ra);;
  push8 v.(prach_start_symbol);; push16 v.(num_cs);;
  rx_bf.pack_nr_rx_beamforming_pdu v.(beamforming);;
  ss_index.pack_spatial_stream_indices v.(param_v4);;
  wret tt.

Definition unpack_ul_tti_request_prach_pdu `{ByteOrder} : rd nfapi_nr_prach_pdu_t :=
  phys_cell_id ⇐ pull16; num_prach_ocas ⇐ pull8; prach_format ⇐ pull8; num_ra ⇐ pull8;
  prach_start_symbol ⇐ pull8; num_cs ⇐ pull16;
  beamforming ⇐ rx_bf.unpack_nr_rx_beamforming_pdu;
  param_v4 ⇐ ss_index.unpack_spatial_stream_indices;
  rret (mk phys_cell_id num_prach_ocas prach_format num_ra prach_start_symbol num_cs beamforming param_v4).
End prach.

(** ** PUCCH *)

Module pucch.
Record nfapi_nr_pucch_pdu_t := mk {
  rnti : Z; handle : Z; bwp_size : Z; bwp_start : Z; subcarrier_spacing : Z; cyclic_prefix : Z;
  format_type : Z; multi_slot_tx_indicator : Z; pi_2bpsk : Z; prb_start : Z; prb_size : Z;
  start_symbol_index : Z; nr_of_symbols : Z; freq_hop_flag : Z; second_hop_prb : Z; group_hop_flag : Z;
  sequence_hop_flag : Z; hopping_id : Z; initial_cyclic_shift : Z; data_scrambling_id : Z;
  time_domain_occ_idx : Z; pre_dft_occ_idx : Z; pre_dft_occ_len : Z; add_dmrs_flag : Z;
  dmrs_scrambling_id : Z; dmrs_cyclic_shift : Z; sr_flag : Z; bit_len_harq : Z; bit_len_csi_part1 : Z;
  bit_len_csi_part2 : Z;
  beamforming : rx_bf.nfapi_nr_ul_beamforming_t;
  param_v4 : ss_index.nfapi_nr_spatial_stream_index_t }.

Definition wf (v : nfapi_nr_pucch_pdu_t) : Prop :=
  Forall is_u16 [v.(rnti); v.(bwp_size); v.(bwp_start); v.(prb_start); v.(prb_size); v.(second_hop_prb);
    v.(hopping_id); v.(initial_cyclic_shift); v.(data_scrambling_id); v.(dmrs_scrambling_id); v.(bit_len_harq);
    v.(bit_len_csi_part1); v.(bit_len_csi_part2)] ∧
  Forall is_u32 [v.(handle)] ∧
  Forall is_u8 [v.(subcarrier_spacing); v.(cyclic_prefix); v.(format_type); v.(multi_slot_tx_indicator);
    v.(pi_2bpsk); v.(start_symbol_index); v.(nr_of_symbols); v.(freq_hop_flag); v.(group_hop_flag);
    v.(sequence_hop_flag); v.(time_domain_occ_idx); v.(pre_dft_occ_idx); v.(pre_dft_occ_len); v.(add_dmrs_flag);
    v.(dmrs_cyclic_shift); v.(sr_flag)] ∧
  rx_bf.wf v.(beamforming) ∧
  ss_index.wf v.(param_v4).

Definition pack_ul_tti_request_pucch_pdu `{ByteOrder} (v : nfapi_nr_pucch_pdu_t) : wr unit :=
  push16 v.(rnti);; push32 v.(handle);; push16 v.(bwp_size);; push16 v.(bwp_start);;
  push8 v.(subcarrier_spacing);; push8 v.(cyclic_prefix);; push8 v.(format_type);;
  push8 v.(multi_slot_tx_indicator);; push8 v.(pi_2bpsk);; push16 v.(prb_start);; push16 v.(prb_size);;
  push8 v.(start_symbol_index);; push8 v.(nr_of_symbols);; push8 v.(freq_hop_flag);; push16 v.(second_hop_prb);;
  push8 v.(group_hop_flag);; push8 v.(sequence_hop_flag);; push16 v.(hopping_id);;
  push16 v.(initial_cyclic_shift);; push16 v.(data_scrambling_id);; push8 v.(time_domain_occ_idx);;
  push8 v.(pre_dft_occ_idx);; push8 v.(pre_dft_occ_len);; push8 v.(add_dmrs_flag);;
  push16 v.(dmrs_scrambling_id);; push8 v.(dmrs_cyclic_shift);; push8 v.(sr_flag);; push16 v.(bit_len_harq);;
  push16 v.(bit_len_csi_part1);; push16 v.(bit_len_csi_part2);;
  rx_bf.pack_nr_rx_beamforming_pdu v.(beamforming);;
  ss_index.pack_spatial_stream_indices v.(param_v4);;
  wret tt.

Definition unpack_ul_tti_request_pucch_pdu `{ByteOrder} : rd nfapi_nr_pucch_pdu_t :=
  rnti ⇐ pull16; handle ⇐ pull32; bwp_size ⇐ pull16; bwp_start ⇐ pull16; subcarrier_spacing ⇐ pull8;
  cyclic_prefix ⇐ pull8; format_type ⇐ pull8; multi_slot_tx_indicator ⇐ pull8; pi_2bpsk ⇐ pull8;
  prb_start ⇐ pull16; prb_size ⇐ pull16; start_symbol_index ⇐ pull8; nr_of_symbols ⇐ pull8;
  freq_hop_flag ⇐ pull8; second_hop_prb ⇐ pull16; group_hop_flag ⇐ pull8; sequence_hop_flag ⇐ pull8;
  hopping_id ⇐ pull16; initial_cyclic_shift ⇐ pull16; data_scrambling_id ⇐ pull16; time_domain_occ_idx ⇐ pull8;
  pre_dft_occ_idx ⇐ pull8; pre_dft_occ_len ⇐ pull8; add_dmrs_flag ⇐ pull8; dmrs_scrambling_id ⇐ pull16;
  dmrs_cyclic_shift ⇐ pull8; sr_flag ⇐ pull8; bit_len_harq ⇐ pull16; bit_len_csi_part1 ⇐ pull16;
  bit_len_csi_part2 ⇐ pull16;
  beamforming ⇐ rx_bf.unpack_nr_rx_beamforming_pdu;
  param_v4 ⇐ ss_index.unpack_spatial_stream_indices;
  rret (mk rnti handle bwp_size bwp_start subcarrier_spacing cyclic_prefix format_type multi_slot_tx_indicator pi_2bpsk
          prb_start prb_size start_symbol_index nr_of_symbols freq_hop_flag second_hop_prb group_hop_flag
          sequence_hop_flag hopping_id initial_cyclic_shift data_scrambling_id time_domain_occ_idx pre_dft_occ_idx
          pre_dft_occ_len add_dmrs_flag dmrs_scrambling_id dmrs_cyclic_shift sr_flag bit_len_harq bit_len_csi_part1
          bit_len_csi_part2 beamforming param_v4).
End pucch.

(** ** PUSCH *)

Module pusch_data.
Record nfapi_nr_pusch_data_t := mk {
  rv_index : Z; harq_process_id : Z; new_data_indicator : Z; tb_size : Z; num_cb : Z;
  cb_present_and_position : list Z }.

(** One bit per code block. *)
Definition cb_octets (num_cb : Z) : Z := Z.quot (num_cb + 7) 8.

(** [len num_cb]: the octets of the list. *)
Definition wf_cb (len : Z → Z) (v : nfapi_nr_pusch_data_t) : Prop :=
  Forall is_u8 [v.(rv_index); v.(harq_process_id); v.(new_data_indicator)] ∧
  Forall is_u32 [v.(tb_size)] ∧
  Forall is_u16 [v.(num_cb)] ∧
  Forall is_u8 v.(cb_present_and_position) ∧
  zlen v.(cb_present_and_position) = len v.(num_cb) ∧
  zlen v.(cb_present_and_position) <= Z.quot (NFAPI_MAX_NUM_CB + 7) 8.

(** The array holds the code blocks of the count, of which there are then at most [NFAPI_MAX_NUM_CB]. *)
Definition wf : nfapi_nr_pusch_data_t → Prop := wf_cb cb_octets.

(** [cb_len] is [uint16_t]. *)
Definition pack_pusch_data `{ByteOrder} (v : nfapi_nr_pusch_data_t) : wr unit :=
  push8 v.(rv_index);; push8 v.(harq_process_id);; push8 v.(new_data_indicator);; push32 v.(tb_size);;
  push16 v.(num_cb);;
  let cb_len := u16 (Z.quot (v.(num_cb) + 7) 8) in
  pusharray8 v.(cb_present_and_position) cb_len cb_len;;
  wret tt.

(** [cb_len] is [uint8_t]: 2041 code blocks or more are accepted with the list of a count modulo 2048. *)
Definition unpack_pusch_data `{ByteOrder} : rd nfapi_nr_pusch_data_t :=
  rv_index ⇐ pull8; harq_process_id ⇐ pull8; new_data_indicator ⇐ pull8; tb_size ⇐ pull32; num_cb ⇐ pull16;
  let cb_len := u8 (Z.quot (num_cb + 7) 8) in
  cb_present_and_position ⇐ into (Z.quot (NFAPI_MAX_NUM_CB + 7) 8) (pullarray8 cb_len cb_len);
  rret (mk rv_index harq_process_id new_data_indicator tb_size num_cb cb_present_and_position).
End pusch_data.

Module pusch_uci.
Record nfapi_nr_pusch_uci_t := mk {
  harq_ack_bit_length : Z; csi_part1_bit_length : Z; csi_part2_bit_length : Z; alpha_scaling : Z;
  beta_offset_harq_ack : Z; beta_offset_csi1 : Z; beta_offset_csi2 : Z }.

Definition wf (v : nfapi_nr_pusch_uci_t) : Prop :=
  Forall is_u16 [v.(harq_ack_bit_length); v.(csi_part1_bit_length); v.(csi_part2_bit_length)] ∧
  Forall is_u8 [v.(alpha_scaling); v.(beta_offset_harq_ack); v.(beta_offset_csi1); v.(beta_offset_csi2)].

Definition pack_pusch_uci `{ByteOrder} (v : nfapi_nr_pusch_uci_t) : wr unit :=
  push16 v.(harq_ack_bit_length);; push16 v.(csi_part1_bit_length);; push16 v.(csi_part2_bit_length);;
  push8 v.(alpha_scaling);; push8 v.(beta_offset_harq_ack);; push8 v.(beta_offset_csi1);;
  push8 v.(beta_offset_csi2);;
  wret tt.

Definition unpack_pusch_uci `{ByteOrder} : rd nfapi_nr_pusch_uci_t :=
  harq_ack_bit_length ⇐ pull16; csi_part1_bit_length ⇐ pull16; csi_part2_bit_length ⇐ pull16;
  alpha_scaling ⇐ pull8; beta_offset_harq_ack ⇐ pull8; beta_offset_csi1 ⇐ pull8; beta_offset_csi2 ⇐ pull8;
  rret (mk harq_ack_bit_length csi_part1_bit_length csi_part2_bit_length alpha_scaling beta_offset_harq_ack
          beta_offset_csi1 beta_offset_csi2).
End pusch_uci.

Module ptrs_port.
Record nfapi_nr_ptrs_ports_t := mk {
  ptrs_port_index : Z; ptrs_dmrs_port : Z; ptrs_re_offset : Z }.

Definition wf (v : nfapi_nr_ptrs_ports_t) : Prop :=
  Forall is_u16 [v.(ptrs_port_index)] ∧
  Forall is_u8 [v.(ptrs_dmrs_port); v.(ptrs_re_offset)].

Definition pack_ptrs_port `{ByteOrder} (v : nfapi_nr_ptrs_ports_t) : wr unit :=
  push16 v.(ptrs_port_index);; push8 v.(ptrs_dmrs_port);; push8 v.(ptrs_re_offset);;
  wret tt.

Definition unpack_ptrs_port `{ByteOrder} : rd nfapi_nr_ptrs_ports_t :=
  ptrs_port_index ⇐ pull16; ptrs_dmrs_port ⇐ pull8; ptrs_re_offset ⇐ pull8;
  rret (mk ptrs_port_index ptrs_dmrs_port ptrs_re_offset).
End ptrs_port.

(** [ptrs_ports_list] is allocated with [num_ptrs_ports] elements. *)
Module pusch_ptrs.
Record nfapi_nr_pusch_ptrs_t := mk {
  num_ptrs_ports : Z;
  ptrs_ports_list : list ptrs_port.nfapi_nr_ptrs_ports_t;
  ptrs_time_density : Z; ptrs_freq_density : Z; ul_ptrs_power : Z }.

Definition wf (v : nfapi_nr_pusch_ptrs_t) : Prop :=
  Forall is_u8 [v.(num_ptrs_ports); v.(ptrs_time_density); v.(ptrs_freq_density); v.(ul_ptrs_power)] ∧
  zlen v.(ptrs_ports_list) = v.(num_ptrs_ports) ∧
  Forall ptrs_port.wf v.(ptrs_ports_list).

Definition pack_pusch_ptrs `{ByteOrder} (v : nfapi_nr_pusch_ptrs_t) : wr unit :=
  push8 v.(num_ptrs_ports);;
  wfor ptrs_port.pack_ptrs_port v.(num_ptrs_ports) v.(ptrs_ports_list);;
  push8 v.(ptrs_time_density);; push8 v.(ptrs_freq_density);; push8 v.(ul_ptrs_power);;
  wret tt.

Definition unpack_pusch_ptrs `{ByteOrder} : rd nfapi_nr_pusch_ptrs_t :=
  num_ptrs_ports ⇐ pull8;
  ptrs_ports_list ⇐ rfor ptrs_port.unpack_ptrs_port num_ptrs_ports num_ptrs_ports;
  ptrs_time_density ⇐ pull8; ptrs_freq_density ⇐ pull8; ul_ptrs_power ⇐ pull8;
  rret (mk num_ptrs_ports ptrs_ports_list ptrs_time_density ptrs_freq_density ul_ptrs_power).
End pusch_ptrs.

Module dfts_ofdm.
Record nfapi_nr_dfts_ofdm_t := mk {
  low_papr_group_number : Z; low_papr_sequence_number : Z; ul_ptrs_sample_density : Z;
  ul_ptrs_time_density_transform_precoding : Z }.

Definition wf (v : nfapi_nr_dfts_ofdm_t) : Prop :=
  Forall is_u8 [v.(low_papr_group_number); v.(ul_ptrs_sample_density); v.(ul_ptrs_time_density_transform_precoding)] ∧
  Forall is_u16 [v.(low_papr_sequence_number)].

Definition pack_dfts_ofdm `{ByteOrder} (v : nfapi_nr_dfts_ofdm_t) : wr unit :=
  push8 v.(low_papr_group_number);; push16 v.(low_papr_sequence_number);; push8 v.(ul_ptrs_sample_density);;
  push8 v.(ul_ptrs_time_density_transform_precoding);;
  wret tt.

Definition unpack_dfts_ofdm `{ByteOrder} : rd nfapi_nr_dfts_ofdm_t :=
  low_papr_group_number ⇐ pull8; low_papr_sequence_number ⇐ pull16; ul_ptrs_sample_density ⇐ pull8;
  ul_ptrs_time_density_transform_precoding ⇐ pull8;
  rret (mk low_papr_group_number low_papr_sequence_number ul_ptrs_sample_density
          ul_ptrs_time_density_transform_precoding).
End dfts_ofdm.

Definition PUSCH_PDU_BITMAP_PUSCH_DATA : Z := 1.
Definition PUSCH_PDU_BITMAP_PUSCH_UCI : Z := 2.
Definition PUSCH_PDU_BITMAP_PUSCH_PTRS : Z := 4.
Definition PUSCH_PDU_BITMAP_DFTS_OFDM : Z := 8.

Module pusch.
Record nfapi_nr_pusch_pdu_t := mk {
  pdu_bit_map : Z; rnti : Z; handle : Z; bwp_size : Z; bwp_start : Z; subcarrier_spacing : Z;
  cyclic_prefix : Z; target_code_rate : Z; qam_mod_order : Z; mcs_index : Z; mcs_table : Z;
  transform_precoding : Z; data_scrambling_id : Z; nrOfLayers : Z; ul_dmrs_symb_pos : Z;
  dmrs_config_type : Z; ul_dmrs_scrambling_id : Z; pusch_identity : Z; scid : Z;
  num_dmrs_cdm_grps_no_data : Z; dmrs_ports : Z; resource_alloc : Z;
  rb_bitmap : list Z;
  rb_start : Z; rb_size : Z; vrb_to_prb_mapping : Z; frequency_hopping : Z; tx_direct_current_location : Z;
  uplink_frequency_shift_7p5khz : Z; start_symbol_index : Z; nr_of_symbols : Z;
  pusch_data : option pusch_data.nfapi_nr_pusch_data_t;
  pusch_uci : option pusch_uci.nfapi_nr_pusch_uci_t;
  pusch_ptrs : option pusch_ptrs.nfapi_nr_pusch_ptrs_t;
  dfts_ofdm : option dfts_ofdm.nfapi_nr_dfts_ofdm_t;
  beamforming : rx_bf.nfapi_nr_ul_beamforming_t;
  maintenance_parms_v3 : maint_v3.nfapi_v3_pdsch_maintenance_parameters_t;
  param_v4 : ss_index.nfapi_nr_spatial_stream_index_t }.

Definition wf_cb (len : Z → Z) (v : nfapi_nr_pusch_pdu_t) : Prop :=
  Forall is_u16 [v.(pdu_bit_map); v.(rnti); v.(bwp_size); v.(bwp_start); v.(target_code_rate);
    v.(data_scrambling_id); v.(ul_dmrs_symb_pos); v.(ul_dmrs_scrambling_id); v.(pusch_identity); v.(dmrs_ports);
    v.(rb_start); v.(rb_size); v.(tx_direct_current_location)] ∧
  Forall is_u32 [v.(handle)] ∧
  Forall is_u8 [v.(subcarrier_spacing); v.(cyclic_prefix); v.(qam_mod_order); v.(mcs_index); v.(mcs_table);
    v.(transform_precoding); v.(nrOfLayers); v.(dmrs_config_type); v.(scid); v.(num_dmrs_cdm_grps_no_data);
    v.(resource_alloc); v.(vrb_to_prb_mapping); v.(frequency_hopping); v.(uplink_frequency_shift_7p5khz);
    v.(start_symbol_index); v.(nr_of_symbols)] ∧
  Forall is_u8 v.(rb_bitmap) ∧
  zlen v.(rb_bitmap) = 36 ∧
  opt_wf (flag v.(pdu_bit_map) PUSCH_PDU_BITMAP_PUSCH_DATA) (pusch_data.wf_cb len) v.(pusch_data) ∧
  opt_wf (flag v.(pdu_bit_map) PUSCH_PDU_BITMAP_PUSCH_UCI) pusch_uci.wf v.(pusch_uci) ∧
  opt_wf (flag v.(pdu_bit_map) PUSCH_PDU_BITMAP_PUSCH_PTRS) pusch_ptrs.wf v.(pusch_ptrs) ∧
  opt_wf (flag v.(pdu_bit_map) PUSCH_PDU_BITMAP_DFTS_OFDM) dfts_ofdm.wf v.(dfts_ofdm) ∧
  rx_bf.wf v.(beamforming) ∧
  maint_v3.wf v.(maintenance_parms_v3) ∧
  ss_index.wf v.(param_v4).

Definition wf : nfapi_nr_pusch_pdu_t → Prop := wf_cb pusch_data.cb_octets.

Definition num_cb_below (n : Z) (v : nfapi_nr_pusch_pdu_t) : Prop :=
  match v.(pusch_data) with Some d => d.(pusch_data.num_cb) < n | None => True end.

Definition pack_ul_tti_request_pusch_pdu `{ByteOrder} (v : nfapi_nr_pusch_pdu_t) : wr unit :=
  push16 v.(pdu_bit_map);; push16 v.(rnti);; push32 v.(handle);; push16 v.(bwp_size);; push16 v.(bwp_start);;
  push8 v.(subcarrier_spacing);; push8 v.(cyclic_prefix);; push16 v.(target_code_rate);;
  push8 v.(qam_mod_order);; push8 v.(mcs_index);; push8 v.(mcs_table);; push8 v.(transform_precoding);;
  push16 v.(data_scrambling_id);; push8 v.(nrOfLayers);; push16 v.(ul_dmrs_symb_pos);;
  push8 v.(dmrs_config_type);; push16 v.(ul_dmrs_scrambling_id);; push16 v.(pusch_identity);; push8 v.(scid);;
  push8 v.(num_dmrs_cdm_grps_no_data);; push16 v.(dmrs_ports);; push8 v.(resource_alloc);;
  pusharray8 v.(rb_bitmap) 36 36;; push16 v.(rb_start);; push16 v.(rb_size);; push8 v.(vrb_to_prb_mapping);;
  push8 v.(frequency_hopping);; push16 v.(tx_direct_current_location);;
  push8 v.(uplink_frequency_shift_7p5khz);; push8 v.(start_symbol_index);; push8 v.(nr_of_symbols);;
  wopt (flag v.(pdu_bit_map) PUSCH_PDU_BITMAP_PUSCH_DATA) v.(pusch_data) pusch_data.pack_pusch_data;;
  wopt (flag v.(pdu_bit_map) PUSCH_PDU_BITMAP_PUSCH_UCI) v.(pusch_uci) pusch_uci.pack_pusch_uci;;
  wopt (flag v.(pdu_bit_map) PUSCH_PDU_BITMAP_PUSCH_PTRS) v.(pusch_ptrs) pusch_ptrs.pack_pusch_ptrs;;
  wopt (flag v.(pdu_bit_map) PUSCH_PDU_BITMAP_DFTS_OFDM) v.(dfts_ofdm) dfts_ofdm.pack_dfts_ofdm;;
  rx_bf.pack_nr_rx_beamforming_pdu v.(beamforming);;
  push8 v.(maintenance_parms_v3).(maint_v3.ldpcBaseGraph);;
  push32 v.(maintenance_parms_v3).(maint_v3.tbSizeLbrmBytes);;
  ss_index.pack_spatial_stream_indices v.(param_v4);;
  wret tt.

Definition unpack_ul_tti_request_pusch_pdu `{ByteOrder} : rd nfapi_nr_pusch_pdu_t :=
  pdu_bit_map ⇐ pull16; rnti ⇐ pull16; handle ⇐ pull32; bwp_size ⇐ pull16; bwp_start ⇐ pull16;
  subcarrier_spacing ⇐ pull8; cyclic_prefix ⇐ pull8; target_code_rate ⇐ pull16; qam_mod_order ⇐ pull8;
  mcs_index ⇐ pull8; mcs_table ⇐ pull8; transform_precoding ⇐ pull8; data_scrambling_id ⇐ pull16;
  nrOfLayers ⇐ pull8; ul_dmrs_symb_pos ⇐ pull16; dmrs_config_type ⇐ pull8; ul_dmrs_scrambling_id ⇐ pull16;
  pusch_identity ⇐ pull16; scid ⇐ pull8; num_dmrs_cdm_grps_no_data ⇐ pull8; dmrs_ports ⇐ pull16;
  resource_alloc ⇐ pull8; rb_bitmap ⇐ pullarray8 36 36; rb_start ⇐ pull16; rb_size ⇐ pull16;
  vrb_to_prb_mapping ⇐ pull8; frequency_hopping ⇐ pull8; tx_direct_current_location ⇐ pull16;
  uplink_frequency_shift_7p5khz ⇐ pull8; start_symbol_index ⇐ pull8; nr_of_symbols ⇐ pull8;
  pusch_data ⇐ ropt (flag pdu_bit_map PUSCH_PDU_BITMAP_PUSCH_DATA) pusch_data.unpack_pusch_data;
  pusch_uci ⇐ ropt (flag pdu_bit_map PUSCH_PDU_BITMAP_PUSCH_UCI) pusch_uci.unpack_pusch_uci;
  pusch_ptrs ⇐ ropt (flag pdu_bit_map PUSCH_PDU_BITMAP_PUSCH_PTRS) pusch_ptrs.unpack_pusch_ptrs;
  dfts_ofdm ⇐ ropt (flag pdu_bit_map PUSCH_PDU_BITMAP_DFTS_OFDM) dfts_ofdm.unpack_dfts_ofdm;
  beamforming ⇐ rx_bf.unpack_nr_rx_beamforming_pdu;
  ldpcBaseGraph ⇐ pull8;
  tbSizeLbrmBytes ⇐ pull32;
  let maintenance_parms_v3 := maint_v3.mk ldpcBaseGraph tbSizeLbrmBytes in
  param_v4 ⇐ ss_index.unpack_spatial_stream_indices;
  rret (mk pdu_bit_map rnti handle bwp_size bwp_start subcarrier_spacing cyclic_prefix target_code_rate qam_mod_order
          mcs_index mcs_table transform_precoding data_scrambling_id nrOfLayers ul_dmrs_symb_pos dmrs_config_type
          ul_dmrs_scrambling_id pusch_identity scid num_dmrs_cdm_grps_no_data dmrs_ports resource_alloc rb_bitmap
          rb_start rb_size vrb_to_prb_mapping frequency_hopping tx_direct_current_location
          uplink_frequency_shift_7p5khz start_symbol_index nr_of_symbols pusch_data pusch_uci pusch_ptrs dfts_ofdm
          beamforming maintenance_parms_v3 param_v4).
End pusch.

(** ** SRS *)

(** [__builtin_popcount]. *)
Definition popcount (x : Z) : Z := fold_right (λ i n, if Z.testbit x (Z.of_nat i) then n + 1 else n) 0 (seq 0 32).

Module srs_symbol.
Record nfapi_v4_srs_parameters_symbols_t := mk {
  srs_bandwidth_start : Z; sequence_group : Z; sequence_number : Z }.

Definition wf (v : nfapi_v4_srs_parameters_symbols_t) : Prop :=
  Forall is_u16 [v.(srs_bandwidth_start)] ∧
  Forall is_u8 [v.(sequence_group); v.(sequence_number)].

Definition pack_srs_symbol `{ByteOrder} (v : nfapi_v4_srs_parameters_symbols_t) : wr unit :=
  push16 v.(srs_bandwidth_start);; push8 v.(sequence_group);; push8 v.(sequence_number);;
  wret tt.

Definition unpack_srs_symbol `{ByteOrder} : rd nfapi_v4_srs_parameters_symbols_t :=
  srs_bandwidth_start ⇐ pull16; sequence_group ⇐ pull8; sequence_number ⇐ pull8;
  rret (mk srs_bandwidth_start sequence_group sequence_number).
End srs_symbol.

(** [num_symbols] is the second argument of the functions. *)
Module srs_v4.
Record nfapi_v4_srs_parameters_t := mk {
  srs_bandwidth_size : Z;
  symbol_list : list srs_symbol.nfapi_v4_srs_parameters_symbols_t;
  usage : Z;
  report_type : list Z;
  singular_Value_representation : Z; iq_representation : Z; prg_size : Z; num_total_ue_antennas : Z;
  ue_antennas_in_this_srs_resource_set : Z; sampled_ue_antennas : Z; report_scope : Z;
  num_ul_spatial_streams_ports : Z;
  Ul_spatial_stream_ports : list Z }.

Definition wf (num_symbols : Z) (v : nfapi_v4_srs_parameters_t) : Prop :=
  Forall is_u16 [v.(srs_bandwidth_size); v.(prg_size)] ∧
  Forall is_u32 [v.(usage); v.(ue_antennas_in_this_srs_resource_set); v.(sampled_ue_antennas)] ∧
  Forall is_u8 [v.(singular_Value_representation); v.(iq_representation); v.(num_total_ue_antennas);
    v.(report_scope); v.(num_ul_spatial_streams_ports)] ∧
  zlen v.(symbol_list) = num_symbols ∧
  num_symbols <= 4 ∧
  Forall srs_symbol.wf v.(symbol_list) ∧
  Forall is_u8 v.(report_type) ∧
  zlen v.(report_type) = popcount v.(usage) ∧
  zlen v.(report_type) <= 4 ∧
  Forall is_u8 v.(Ul_spatial_stream_ports) ∧
  zlen v.(Ul_spatial_stream_ports) = v.(num_ul_spatial_streams_ports).

Definition pack_ul_tti_request_srs_parameters_v4 `{ByteOrder} (v : nfapi_v4_srs_parameters_t) (num_symbols : Z) : wr unit :=
  push16 v.(srs_bandwidth_size);;
  wfor srs_symbol.pack_srs_symbol num_symbols v.(symbol_list);;
  let nUsage := u8 (popcount v.(usage)) in
  push32 v.(usage);;
  pusharray8 v.(report_type) 4 nUsage;;
  push8 v.(singular_Value_representation);; push8 v.(iq_representation);; push16 v.(prg_size);;
  push8 v.(num_total_ue_antennas);; push32 v.(ue_antennas_in_this_srs_resource_set);;
  push32 v.(sampled_ue_antennas);; push8 v.(report_scope);; push8 v.(num_ul_spatial_streams_ports);;
  pusharray8 v.(Ul_spatial_stream_ports) 256 v.(num_ul_spatial_streams_ports);;
  wret tt.

Definition unpack_ul_tti_request_srs_parameters_v4 `{ByteOrder} (num_symbols : Z) : rd nfapi_v4_srs_parameters_t :=
  srs_bandwidth_size ⇐ pull16;
  symbol_list ⇐ rfor srs_symbol.unpack_srs_symbol 4 num_symbols;
  usage ⇐ pull32;
  let nUsage := u8 (popcount usage) in
  report_type ⇐ pullarray8 4 nUsage;
  singular_Value_representation ⇐ pull8; iq_representation ⇐ pull8; prg_size ⇐ pull16;
  num_total_ue_antennas ⇐ pull8; ue_antennas_in_this_srs_resource_set ⇐ pull32; sampled_ue_antennas ⇐ pull32;
  report_scope ⇐ pull8; num_ul_spatial_streams_ports ⇐ pull8;
  Ul_spatial_stream_ports ⇐ pullarray8 256 num_ul_spatial_streams_ports;
  rret (mk srs_bandwidth_size symbol_list usage report_type singular_Value_representation iq_representation prg_size
          num_total_ue_antennas ue_antennas_in_this_srs_resource_set sampled_ue_antennas report_scope
          num_ul_spatial_streams_ports Ul_spatial_stream_ports).
End srs_v4.

Module srs.
Record nfapi_nr_srs_pdu_t := mk {
  rnti : Z; handle : Z; bwp_size : Z; bwp_start : Z; subcarrier_spacing : Z; cyclic_prefix : Z;
  num_ant_ports : Z; num_symbols : Z; num_repetitions : Z; time_start_position : Z; config_index : Z;
  sequence_id : Z; bandwidth_index : Z; comb_size : Z; comb_offset : Z; cyclic_shift : Z;
  frequency_position : Z; frequency_shift : Z; frequency_hopping : Z; group_or_sequence_hopping : Z;
  resource_type : Z; t_srs : Z; t_offset : Z;
  beamforming : rx_bf.nfapi_nr_ul_beamforming_t;
  srs_parameters_v4 : srs_v4.nfapi_v4_srs_parameters_t }.

(** The argument [1 << num_symbols], converted to [uint8_t]. *)
Definition symbols (num_symbols : Z) : Z := u8 (Z.shiftl 1 num_symbols).

Definition wf (v : nfapi_nr_srs_pdu_t) : Prop :=
  Forall is_u16 [v.(rnti); v.(bwp_size); v.(bwp_start); v.(sequence_id); v.(frequency_shift); v.(t_srs);
    v.(t_offset)] ∧
  Forall is_u32 [v.(handle)] ∧
  Forall is_u8 [v.(subcarrier_spacing); v.(cyclic_prefix); v.(num_ant_ports); v.(num_symbols); v.(num_repetitions);
    v.(time_start_position); v.(config_index); v.(bandwidth_index); v.(comb_size); v.(comb_offset);
    v.(cyclic_shift); v.(frequency_position); v.(frequency_hopping); v.(group_or_sequence_hopping);
    v.(resource_type)] ∧
  v.(num_symbols) < 31 ∧
  rx_bf.wf v.(beamforming) ∧
  srs_v4.wf (symbols v.(num_symbols)) v.(srs_parameters_v4).

(** The shift of an [int] by 31 or more is undefined. *)
Definition pack_ul_tti_request_srs_pdu `{ByteOrder} (v : nfapi_nr_srs_pdu_t) : wr unit :=
  push16 v.(rnti);; push32 v.(handle);; push16 v.(bwp_size);; push16 v.(bwp_start);;
  push8 v.(subcarrier_spacing);; push8 v.(cyclic_prefix);; push8 v.(num_ant_ports);; push8 v.(num_symbols);;
  push8 v.(num_repetitions);; push8 v.(time_start_position);; push8 v.(config_index);; push16 v.(sequence_id);;
  push8 v.(bandwidth_index);; push8 v.(comb_size);; push8 v.(comb_offset);; push8 v.(cyclic_shift);;
  push8 v.(frequency_position);; push16 v.(frequency_shift);; push8 v.(frequency_hopping);;
  push8 v.(group_or_sequence_hopping);; push8 v.(resource_type);; push16 v.(t_srs);; push16 v.(t_offset);;
  rx_bf.pack_nr_rx_beamforming_pdu v.(beamforming);;
  (if v.(num_symbols) <? 31 then srs_v4.pack_ul_tti_request_srs_parameters_v4 v.(srs_parameters_v4) (symbols v.(num_symbols))
   else λ _, UB);;
  wret tt.

Definition unpack_ul_tti_request_srs_pdu `{ByteOrder} : rd nfapi_nr_srs_pdu_t :=
  rnti ⇐ pull16; handle ⇐ pull32; bwp_size ⇐ pull16; bwp_start ⇐ pull16; subcarrier_spacing ⇐ pull8;
  cyclic_prefix ⇐ pull8; num_ant_ports ⇐ pull8; num_symbols ⇐ pull8; num_repetitions ⇐ pull8;
  time_start_position ⇐ pull8; config_index ⇐ pull8; sequence_id ⇐ pull16; bandwidth_index ⇐ pull8;
  comb_size ⇐ pull8; comb_offset ⇐ pull8; cyclic_shift ⇐ pull8; frequency_position ⇐ pull8;
  frequency_shift ⇐ pull16; frequency_hopping ⇐ pull8; group_or_sequence_hopping ⇐ pull8; resource_type ⇐ pull8;
  t_srs ⇐ pull16; t_offset ⇐ pull16;
  beamforming ⇐ rx_bf.unpack_nr_rx_beamforming_pdu;
  srs_parameters_v4 ⇐ (if num_symbols <? 31 then srs_v4.unpack_ul_tti_request_srs_parameters_v4 (symbols num_symbols)
                       else λ _, UB);
  rret (mk rnti handle bwp_size bwp_start subcarrier_spacing cyclic_prefix num_ant_ports num_symbols num_repetitions
          time_start_position config_index sequence_id bandwidth_index comb_size comb_offset cyclic_shift
          frequency_position frequency_shift frequency_hopping group_or_sequence_hopping resource_type t_srs
          t_offset beamforming srs_parameters_v4).
End srs.

(** ** UL_TTI.request *)

Definition NFAPI_NR_UL_CONFIG_PRACH_PDU_TYPE : Z := 0.
Definition NFAPI_NR_UL_CONFIG_PUSCH_PDU_TYPE : Z := 1.
Definition NFAPI_NR_UL_CONFIG_PUCCH_PDU_TYPE : Z := 2.
Definition NFAPI_NR_UL_CONFIG_SRS_PDU_TYPE : Z := 3.

(** The union of [nfapi_nr_ul_tti_request_number_of_pdus_t]; [ul_no_pdu]: never written. *)
Inductive ul_tti_pdu :=
| prach_pdu (v : prach.nfapi_nr_prach_pdu_t)
| pusch_pdu (v : pusch.nfapi_nr_pusch_pdu_t)
| pucch_pdu (v : pucch.nfapi_nr_pucch_pdu_t)
| srs_pdu (v : srs.nfapi_nr_srs_pdu_t)
| ul_no_pdu.

Module ul_pdu.
Record nfapi_nr_ul_tti_request_number_of_pdus_t := mk { pdu_type : Z; pdu_size : Z; pdu : ul_tti_pdu }.

(** The member of the union is that of the type. *)
Definition wf_cb (len : Z → Z) (v : nfapi_nr_ul_tti_request_number_of_pdus_t) : Prop :=
  is_u16 v.(pdu_type) ∧
  match v.(pdu) with
  | prach_pdu p => v.(pdu_type) = NFAPI_NR_UL_CONFIG_PRACH_PDU_TYPE ∧ prach.wf p
  | pusch_pdu p => v.(pdu_type) = NFAPI_NR_UL_CONFIG_PUSCH_PDU_TYPE ∧ pusch.wf_cb len p
  | pucch_pdu p => v.(pdu_type) = NFAPI_NR_UL_CONFIG_PUCCH_PDU_TYPE ∧ pucch.wf p
  | srs_pdu p => v.(pdu_type) = NFAPI_NR_UL_CONFIG_SRS_PDU_TYPE ∧ srs.wf p
  | ul_no_pdu => NFAPI_NR_UL_CONFIG_SRS_PDU_TYPE < v.(pdu_type)
  end.

Definition wf : nfapi_nr_ul_tti_request_number_of_pdus_t → Prop := wf_cb pusch_data.cb_octets.

Definition num_cb_below (n : Z) (v : nfapi_nr_ul_tti_request_number_of_pdus_t) : Prop :=
  match v.(pdu) with pusch_pdu p => pusch.num_cb_below n p | _ => True end.

(** Everything but the size, which packing computes. *)
Definition same (v v' : nfapi_nr_ul_tti_request_number_of_pdus_t) : Prop :=
  v'.(pdu_type) = v.(pdu_type) ∧ v'.(pdu) = v.(pdu).

Definition pack_ul_tti_pdu_list_value `{ByteOrder} (v : nfapi_nr_ul_tti_request_number_of_pdus_t)
  : wr nfapi_nr_ul_tti_request_number_of_pdus_t :=
  x ⇒ wsized v.(pdu_type) v.(pdu_size)
    (if v.(pdu_type) =? NFAPI_NR_UL_CONFIG_PRACH_PDU_TYPE then
       match v.(pdu) with prach_pdu p => prach.pack_ul_tti_request_prach_pdu p | _ => λ _, UB end
     else if v.(pdu_type) =? NFAPI_NR_UL_CONFIG_PUSCH_PDU_TYPE then
       match v.(pdu) with pusch_pdu p => pusch.pack_ul_tti_request_pusch_pdu p | _ => λ _, UB end
     else if v.(pdu_type) =? NFAPI_NR_UL_CONFIG_PUCCH_PDU_TYPE then
       match v.(pdu) with pucch_pdu p => pucch.pack_ul_tti_request_pucch_pdu p | _ => λ _, UB end
     else if v.(pdu_type) =? NFAPI_NR_UL_CONFIG_SRS_PDU_TYPE then
       match v.(pdu) with srs_pdu p => srs.pack_ul_tti_request_srs_pdu p | _ => λ _, UB end
     else wret tt);
  wret (mk v.(pdu_type) x.1 v.(pdu)).

Definition unpack_ul_tti_pdu_list_value `{ByteOrder} : rd nfapi_nr_ul_tti_request_number_of_pdus_t :=
  pdu_type ⇐ pull16;
  pdu_size ⇐ pull16;
  if pdu_type =? NFAPI_NR_UL_CONFIG_PRACH_PDU_TYPE then
    p ⇐ prach.unpack_ul_tti_request_prach_pdu; rret (mk pdu_type pdu_size (prach_pdu p))
  else if pdu_type =? NFAPI_NR_UL_CONFIG_PUSCH_PDU_TYPE then
    p ⇐ pusch.unpack_ul_tti_request_pusch_pdu; rret (mk pdu_type pdu_size (pusch_pdu p))
  else if pdu_type =? NFAPI_NR_UL_CONFIG_PUCCH_PDU_TYPE then
    p ⇐ pucch.unpack_ul_tti_request_pucch_pdu; rret (mk pdu_type pdu_size (pucch_pdu p))
  else if pdu_type =? NFAPI_NR_UL_CONFIG_SRS_PDU_TYPE then
    p ⇐ srs.unpack_ul_tti_request_srs_pdu; rret (mk pdu_type pdu_size (srs_pdu p))
  else rret (mk pdu_type pdu_size ul_no_pdu).
End ul_pdu.

(** [ue_list[i]] is its only field, [pdu_idx]. *)
Module ul_group.
Record nfapi_nr_ul_tti_request_number_of_groups_t := mk { n_ue : Z; ue_list : list Z }.

Definition wf (v : nfapi_nr_ul_tti_request_number_of_groups_t) : Prop :=
  is_u8 v.(n_ue) ∧ Forall is_u8 v.(ue_list) ∧ zlen v.(ue_list) = v.(n_ue) ∧ v.(n_ue) <= NFAPI_MAX_NUM_UL_UE_PER_GROUP.

Definition pack_ul_tti_groups_list_value `{ByteOrder} (v : nfapi_nr_ul_tti_request_number_of_groups_t) : wr unit :=
  push8 v.(n_ue);; wfor push8 v.(n_ue) v.(ue_list);; wret tt.

Definition unpack_ul_tti_groups_list_value `{ByteOrder} : rd nfapi_nr_ul_tti_request_number_of_groups_t :=
  n_ue ⇐ pull8; ue_list ⇐ rfor pull8 NFAPI_MAX_NUM_UL_UE_PER_GROUP n_ue; rret (mk n_ue ue_list).
End ul_group.

Module ul_tti.
Record nfapi_nr_ul_tti_request_t := mk {
  SFN : Z; Slot : Z; n_pdus : Z; rach_present : Z; n_ulsch : Z; n_ulcch : Z; n_group : Z;
  pdus_list : list ul_pdu.nfapi_nr_ul_tti_request_number_of_pdus_t;
  groups_list : list ul_group.nfapi_nr_ul_tti_request_number_of_groups_t }.

Definition wf_cb (len : Z → Z) (v : nfapi_nr_ul_tti_request_t) : Prop :=
  Forall is_u16 [v.(SFN); v.(Slot)] ∧
  Forall is_u8 [v.(n_pdus); v.(rach_present); v.(n_group)] ∧
  zlen v.(pdus_list) = v.(n_pdus) ∧
  v.(n_pdus) <= NFAPI_MAX_NUM_UL_PDU ∧
  Forall (ul_pdu.wf_cb len) v.(pdus_list) ∧
  zlen v.(groups_list) = v.(n_group) ∧
  v.(n_group) <= NFAPI_MAX_NUM_GROUPS ∧
  Forall ul_group.wf v.(groups_list).

Definition wf : nfapi_nr_ul_tti_request_t → Prop := wf_cb pusch_data.cb_octets.

(** The counts computed before packing: [(n_ulsch, n_ulcch)], of type [uint8_t]. *)
Fixpoint ul_counts (n : nat) (l : list ul_pdu.nfapi_nr_ul_tti_request_number_of_pdus_t) (n_ulsch n_ulcch : Z) : res (Z * Z) :=
  match n with
  | O => Ok (n_ulsch, n_ulcch)
  | S n =>
      match l with
      | [] => UB
      | p :: l =>
          let t := p.(ul_pdu.pdu_type) in
          if t =? NFAPI_NR_UL_CONFIG_PUCCH_PDU_TYPE then ul_counts n l n_ulsch (u8 (n_ulcch + 1))
          else if t =? NFAPI_NR_UL_CONFIG_PUSCH_PDU_TYPE then ul_counts n l (u8 (n_ulsch + 1)) n_ulcch
          else ul_counts n l n_ulsch n_ulcch
      end
  end.

(** Number of PDUs of a type. *)
Definition count_type (t : Z) (l : list ul_pdu.nfapi_nr_ul_tti_request_number_of_pdus_t) : Z :=
  zlen (filter (λ p, p.(ul_pdu.pdu_type) = t) l).

(** Everything but the sizes of the PDUs and the counts of PUSCH and PUCCH PDUs, which packing sets. *)
Definition same (v v' : nfapi_nr_ul_tti_request_t) : Prop :=
  v'.(SFN) = v.(SFN) ∧ v'.(Slot) = v.(Slot) ∧ v'.(n_pdus) = v.(n_pdus) ∧ v'.(rach_present) = v.(rach_present) ∧
  v'.(n_ulsch) = count_type NFAPI_NR_UL_CONFIG_PUSCH_PDU_TYPE v.(pdus_list) ∧
  v'.(n_ulcch) = count_type NFAPI_NR_UL_CONFIG_PUCCH_PDU_TYPE v.(pdus_list) ∧
  v'.(n_group) = v.(n_group) ∧ Forall2 ul_pdu.same v.(pdus_list) v'.(pdus_list) ∧ v'.(groups_list) = v.(groups_list).

Definition pack_ul_tti_request `{ByteOrder} (v : nfapi_nr_ul_tti_request_t) : wr nfapi_nr_ul_tti_request_t := λ room,
  c ← ul_counts (Z.to_nat v.(n_pdus)) v.(pdus_list) 0 0;
  (push16 v.(SFN);; push16 v.(Slot);; push8 v.(n_pdus);; push8 v.(rach_present);; push8 c.1;; push8 c.2;; push8 v.(n_group);;
   pdus ⇒ weach ul_pdu.pack_ul_tti_pdu_list_value (Z.to_nat v.(n_pdus)) v.(pdus_list);
   wfor ul_group.pack_ul_tti_groups_list_value v.(n_group) v.(groups_list);;
   wret (mk v.(SFN) v.(Slot) v.(n_pdus) v.(rach_present) c.1 c.2 v.(n_group) pdus v.(groups_list))) room.

Definition unpack_ul_tti_request `{ByteOrder} : rd nfapi_nr_ul_tti_request_t :=
  SFN ⇐ pull16; Slot ⇐ pull16; n_pdus ⇐ pull8; rach_present ⇐ pull8; n_ulsch ⇐ pull8; n_ulcch ⇐ pull8; n_group ⇐ pull8;
  pdus_list ⇐ rfor ul_pdu.unpack_ul_tti_pdu_list_value NFAPI_MAX_NUM_UL_PDU n_pdus;
  groups_list ⇐ rfor ul_group.unpack_ul_tti_groups_list_value NFAPI_MAX_NUM_GROUPS n_group;
  rret (mk SFN Slot n_pdus rach_present n_ulsch n_ulcch n_group pdus_list groups_list).
End ul_tti.
