(* ===== verification/FapiUlCodec.v ===== *)
(** * nFAPI P7: UL_TTI.request round trips *)

From S2P Require Import Prelude Fapi FapiCodec FapiDl FapiDlCodec FapiUl.

Ltac ul_sizes :=
  unfold NFAPI_MAX_NUM_CB, NFAPI_MAX_NUM_UL_PDU, NFAPI_MAX_NUM_GROUPS, NFAPI_MAX_NUM_UL_UE_PER_GROUP in *.

#[export] Hint Extern 1 (_ <= _) => (assumption || (ul_sizes; sizes; field_lia)) : fapi.

Ltac typed_record := typed_steps; apply typed_ret; simpl; wf_goal; ul_sizes; sizes; field_lia.

Section ul.
Context `{BO : ByteOrder}.

#[local] Hint Resolve ss_index_codec ss_index_typed : fapi.
#[local] Hint Extern 2 (codec (wfor _ _ _) (rfor _ _ _) _ _) => eapply codec_for : fapi.

Lemma rx_prg_codec k l : rx_bf.wf_prg k l → codec (wfor push16 k l) (rfor pull16 NFAPI_MAX_NUM_BG_IF k) tt l.
Proof using. intros H. unfold rx_bf.wf_prg in H. wf_facts. eauto with fapi. Qed.
#[local] Hint Resolve rx_prg_codec : fapi.

Lemma rx_bf_codec v : rx_bf.wf v → codec (rx_bf.pack_nr_rx_beamforming_pdu v) rx_bf.unpack_nr_rx_beamforming_pdu tt v.
Proof using. intros H. unfold rx_bf.wf in H. wf_facts. codec_record v. Qed.

Lemma rx_bf_typed : typed rx_bf.unpack_nr_rx_beamforming_pdu rx_bf.wf.
Proof using.
  unfold rx_bf.unpack_nr_rx_beamforming_pdu, rx_bf.wf. do 4 (eapply typed_bind; [solve [eauto with fapi] | intros ? ?]).
  eapply typed_bind; [apply typed_for with (P := rx_bf.wf_prg a2) |].
  - eapply typed_impl; [apply typed_for, typed16 |]. intros l Hl. unfold rx_bf.wf_prg. wf_facts. wf_goal; sizes; field_lia.
  - intros l ?. wf_facts. typed_record.
Qed.
#[local] Hint Resolve rx_bf_codec rx_bf_typed : fapi.

Lemma prach_codec v : prach.wf v → codec (prach.pack_ul_tti_request_prach_pdu v) prach.unpack_ul_tti_request_prach_pdu tt v.
Proof using. intros H. unfold prach.wf in H. wf_facts. codec_record v. Qed.

Lemma prach_typed : typed prach.unpack_ul_tti_request_prach_pdu prach.wf.
Proof using. unfold prach.unpack_ul_tti_request_prach_pdu, prach.wf. typed_record. Qed.
#[local] Hint Resolve prach_codec prach_typed : fapi.

Lemma pucch_codec v : pucch.wf v → codec (pucch.pack_ul_tti_request_pucch_pdu v) pucch.unpack_ul_tti_request_pucch_pdu tt v.
Proof using. intros H. unfold pucch.wf in H. wf_facts. codec_record v. Qed.

Lemma pucch_typed : typed pucch.unpack_ul_tti_request_pucch_pdu pucch.wf.
Proof using. unfold pucch.unpack_ul_tti_request_pucch_pdu, pucch.wf. typed_record. Qed.
#[local] Hint Resolve pucch_codec pucch_typed : fapi.

(** ** PUSCH *)

Lemma cb_octets_small n : is_u16 n → pusch_data.cb_octets n <= 1 →
  u16 (Z.quot (n + 7) 8) = pusch_data.cb_octets n ∧ u8 (Z.quot (n + 7) 8) = pusch_data.cb_octets n.
Proof using.
  unfold is_u16, pusch_data.cb_octets. intros Hn Hmax.
  assert (0 <= Z.quot (n + 7) 8) by (rewrite Z.quot_div_nonneg by lia; zdiv_lia).
  split; [apply Z.mod_small; lia | apply u8_small; lia].
Qed.

(** The length that unpacking takes from a count is that of the list, but for large counts. *)
Definition read_cb_octets (num_cb : Z) : Z := u8 (Z.quot (num_cb + 7) 8).

Lemma read_cb_octets_ok n : is_u16 n → n < 2041 → read_cb_octets n = pusch_data.cb_octets n.
Proof using.
  unfold is_u16, read_cb_octets, pusch_data.cb_octets. intros Hn Hmax.
  rewrite Z.quot_div_nonneg by lia. apply u8_small. zdiv_lia.
Qed.

Lemma codec_into {A B} (w : wr A) (r : rd (list B)) cap a l : codec w r a l → zlen l <= cap → codec w (into cap r) a l.
Proof using.
  intros (b & Hw & Hr) Hl. exists b. split; [done |]. intros rest. unfold into. rewrite Hr. cbn [mbind res_bind].
  by decide_false (cap <? zlen l).
Qed.

Lemma pusch_data_codec v : pusch_data.wf v → codec (pusch_data.pack_pusch_data v) pusch_data.unpack_pusch_data tt v.
Proof using.
  intros H. unfold pusch_data.wf, pusch_data.wf_cb in H. wf_facts.
  destruct (cb_octets_small v.(pusch_data.num_cb)) as [E16 E8]; [done | change (Z.quot (NFAPI_MAX_NUM_CB + 7) 8) with 1 in *; lia |].
  codec_steps. cbv zeta. rewrite E16, E8.
  eapply codec_bind; [apply codec_into; [apply codec_array8; [done | done | lia] | done] |]. destruct v. apply codec_ret.
Qed.

Lemma pusch_data_typed : typed pusch_data.unpack_pusch_data (pusch_data.wf_cb read_cb_octets).
Proof using.
  unfold pusch_data.unpack_pusch_data, pusch_data.wf_cb, read_cb_octets. typed_steps. apply typed_ret. simpl. wf_goal.
  match goal with H : zlen _ = Z.max 0 (u8 ?x) |- _ => pose proof (u8_range x) end. lia.
Qed.
#[local] Hint Resolve pusch_data_codec pusch_data_typed : fapi.

Lemma pusch_uci_codec v : pusch_uci.wf v → codec (pusch_uci.pack_pusch_uci v) pusch_uci.unpack_pusch_uci tt v.
Proof using. intros H. unfold pusch_uci.wf in H. wf_facts. codec_record v. Qed.

Lemma pusch_uci_typed : typed pusch_uci.unpack_pusch_uci pusch_uci.wf.
Proof using. unfold pusch_uci.unpack_pusch_uci, pusch_uci.wf. typed_record. Qed.
#[local] Hint Resolve pusch_uci_codec pusch_uci_typed : fapi.

Lemma ptrs_port_codec v : ptrs_port.wf v → codec (ptrs_port.pack_ptrs_port v) ptrs_port.unpack_ptrs_port tt v.
Proof using. intros H. unfold ptrs_port.wf in H. wf_facts. codec_record v. Qed.

Lemma ptrs_port_typed : typed ptrs_port.unpack_ptrs_port ptrs_port.wf.
Proof using. unfold ptrs_port.unpack_ptrs_port, ptrs_port.wf. typed_record. Qed.
#[local] Hint Resolve ptrs_port_codec ptrs_port_typed : fapi.

Lemma pusch_ptrs_codec v : pusch_ptrs.wf v → codec (pusch_ptrs.pack_pusch_ptrs v) pusch_ptrs.unpack_pusch_ptrs tt v.
Proof using. intros H. unfold pusch_ptrs.wf in H. wf_facts. codec_record v. Qed.

Lemma pusch_ptrs_typed : typed pusch_ptrs.unpack_pusch_ptrs pusch_ptrs.wf.
Proof using. unfold pusch_ptrs.unpack_pusch_ptrs, pusch_ptrs.wf. typed_record. Qed.
#[local] Hint Resolve pusch_ptrs_codec pusch_ptrs_typed : fapi.

Lemma dfts_ofdm_codec v : dfts_ofdm.wf v → codec (dfts_ofdm.pack_dfts_ofdm v) dfts_ofdm.unpack_dfts_ofdm tt v.
Proof using. intros H. unfold dfts_ofdm.wf in H. wf_facts. codec_record v. Qed.

Lemma dfts_ofdm_typed : typed dfts_ofdm.unpack_dfts_ofdm dfts_ofdm.wf.
Proof using. unfold dfts_ofdm.unpack_dfts_ofdm, dfts_ofdm.wf. typed_record. Qed.
#[local] Hint Resolve dfts_ofdm_codec dfts_ofdm_typed : fapi.

Lemma pusch_codec v : pusch.wf v → codec (pusch.pack_ul_tti_request_pusch_pdu v) pusch.unpack_ul_tti_request_pusch_pdu tt v.
Proof using.
  intros H. unfold pusch.wf, pusch.wf_cb, maint_v3.wf in H. change (pusch_data.wf_cb pusch_data.cb_octets) with pusch_data.wf in H. wf_facts.
  codec_steps. destruct v as [? ? ? ? ? ? ? ? ? ? ? ? ? ? ? ? ? ? ? ? ? ? ? ? ? ? ? ? ? ? ? ? ? ? ? ? [] ?]. apply codec_ret.
Qed.

Lemma pusch_typed : typed pusch.unpack_ul_tti_request_pusch_pdu (pusch.wf_cb read_cb_octets).
Proof using. unfold pusch.unpack_ul_tti_request_pusch_pdu, pusch.wf_cb, maint_v3.wf. typed_record. Qed.
#[local] Hint Resolve pusch_codec pusch_typed : fapi.

(** ** SRS *)

Lemma popcount_u8 x : u8 (popcount x) = popcount x.
Proof using.
  apply u8_small. unfold popcount.
  assert (H : ∀ l, 0 <= fold_right (λ (i : nat) n, if Z.testbit x (Z.of_nat i) then n + 1 else n) 0 l <= zlen l).
  { induction l as [| i l IH]; [done |]. rewrite zlen_cons. cbn [fold_right]. destruct (Z.testbit x (Z.of_nat i)); lia. }
  specialize (H (seq 0 32)). unfold zlen in H. rewrite length_seq in H. lia.
Qed.

Lemma srs_symbol_codec v : srs_symbol.wf v → codec (srs_symbol.pack_srs_symbol v) srs_symbol.unpack_srs_symbol tt v.
Proof using. intros H. unfold srs_symbol.wf in H. wf_facts. codec_record v. Qed.

Lemma srs_symbol_typed : typed srs_symbol.unpack_srs_symbol srs_symbol.wf.
Proof using. unfold srs_symbol.unpack_srs_symbol, srs_symbol.wf. typed_record. Qed.
#[local] Hint Resolve srs_symbol_codec srs_symbol_typed : fapi.

Lemma srs_v4_codec v n : srs_v4.wf n v →
  codec (srs_v4.pack_ul_tti_request_srs_parameters_v4 v n) (srs_v4.unpack_ul_tti_request_srs_parameters_v4 n) tt v.
Proof using.
  intros H. unfold srs_v4.wf in H. wf_facts. unfold srs_v4.pack_ul_tti_request_srs_parameters_v4. rewrite popcount_u8.
  unfold srs_v4.unpack_ul_tti_request_srs_parameters_v4. codec_steps. rewrite popcount_u8.
  eapply codec_bind; [apply codec_array8; [done | done | lia] |]. codec_record v.
Qed.

Lemma srs_v4_typed n : 0 <= n → typed (srs_v4.unpack_ul_tti_request_srs_parameters_v4 n) (srs_v4.wf n).
Proof using.
  intros Hn. unfold srs_v4.unpack_ul_tti_request_srs_parameters_v4, srs_v4.wf. typed_steps. apply typed_ret. simpl.
  rewrite popcount_u8 in *. match goal with H : zlen _ = Z.max 0 (popcount ?x) |- _ => pose proof (u8_range (popcount x)) as Hp end.
  rewrite popcount_u8 in Hp. wf_goal; field_lia.
Qed.
#[local] Hint Resolve srs_v4_codec srs_v4_typed : fapi.

Lemma srs_codec v : srs.wf v → codec (srs.pack_ul_tti_request_srs_pdu v) srs.unpack_ul_tti_request_srs_pdu tt v.
Proof using.
  intros H. unfold srs.wf in H. wf_facts. codec_steps. decide_true (srs.num_symbols v <? 31). codec_record v.
Qed.

Lemma srs_typed : typed srs.unpack_ul_tti_request_srs_pdu srs.wf.
Proof using.
  unfold srs.unpack_ul_tti_request_srs_pdu, srs.wf. typed_steps.
  match goal with |- typed (x ⇐ (if ?n <? 31 then _ else _); _) _ => destruct (Z.ltb_spec n 31); [| by intros ? ? ? _ [=]];
    pose proof (u8_range (Z.shiftl 1 n)) end.
  eapply typed_bind; [apply srs_v4_typed; unfold srs.symbols; lia |]. intros ? ?. typed_record.
Qed.
#[local] Hint Resolve srs_codec srs_typed : fapi.

(** ** UL_TTI.request *)

Lemma ul_pdu_codec v : ul_pdu.wf v →
  ∃ v', ul_pdu.same v v' ∧ codec (ul_pdu.pack_ul_tti_pdu_list_value v) ul_pdu.unpack_ul_tti_pdu_list_value v' v'.
Proof using.
  intros [Ht Hp]. unfold ul_pdu.pack_ul_tti_pdu_list_value, ul_pdu.unpack_ul_tti_pdu_list_value.
  match goal with |- ∃ v', _ ∧ codec (x ⇒ wsized ?t ?s ?w; _) (ty ⇐ pull16; sz ⇐ pull16; @?k ty sz) v' v' =>
    destruct (codec_sized t s w k tt (λ n, ul_pdu.mk (ul_pdu.pdu_type v) n (ul_pdu.pdu v))) as (n & Hn & Hc); [done | |] end.
  - intros n Hn. change (pusch.wf_cb pusch_data.cb_octets) with pusch.wf in Hp. destruct (ul_pdu.pdu v) as [p | p | p | p |];
      [destruct Hp as [-> Hp]; simpl; apply (codec_end _ _ (λ p, ul_pdu.mk _ n _)); eauto with fapi .. |].
    unfold NFAPI_NR_UL_CONFIG_PRACH_PDU_TYPE, NFAPI_NR_UL_CONFIG_PUSCH_PDU_TYPE, NFAPI_NR_UL_CONFIG_PUCCH_PDU_TYPE, NFAPI_NR_UL_CONFIG_SRS_PDU_TYPE in *.
    decide_false (ul_pdu.pdu_type v =? 0). decide_false (ul_pdu.pdu_type v =? 1). decide_false (ul_pdu.pdu_type v =? 2).
    decide_false (ul_pdu.pdu_type v =? 3). apply codec_ret.
  - exists (ul_pdu.mk (ul_pdu.pdu_type v) n (ul_pdu.pdu v)). split; [done |].
    by apply (codec_map _ _ (λ x : Z * unit, ul_pdu.mk (ul_pdu.pdu_type v) x.1 (ul_pdu.pdu v)) (n, tt)).
Qed.

Lemma ul_pdu_typed : typed ul_pdu.unpack_ul_tti_pdu_list_value (ul_pdu.wf_cb read_cb_octets).
Proof using.
  unfold ul_pdu.unpack_ul_tti_pdu_list_value, ul_pdu.wf_cb. do 2 (eapply typed_bind; [solve [eauto with fapi] | intros ? ?]).
  unfold NFAPI_NR_UL_CONFIG_PRACH_PDU_TYPE, NFAPI_NR_UL_CONFIG_PUSCH_PDU_TYPE, NFAPI_NR_UL_CONFIG_PUCCH_PDU_TYPE, NFAPI_NR_UL_CONFIG_SRS_PDU_TYPE.
  repeat match goal with |- typed (if ?a =? ?b then _ else _) _ => destruct (Z.eqb_spec a b) end; typed_steps; apply typed_ret; simpl;
    split; [done .. |]; unfold is_u16 in *; lia.
Qed.
#[local] Hint Resolve ul_pdu_typed : fapi.

(** The counts are numbers of PDUs, below 256. *)
Lemma ul_counts_spec l a b : 0 <= a → 0 <= b → a + b + zlen l < 256 →
  ul_tti.ul_counts (length l) l a b = Ok (a + ul_tti.count_type NFAPI_NR_UL_CONFIG_PUSCH_PDU_TYPE l, b + ul_tti.count_type NFAPI_NR_UL_CONFIG_PUCCH_PDU_TYPE l).
Proof using.
  revert a b. unfold ul_tti.count_type, NFAPI_NR_UL_CONFIG_PUSCH_PDU_TYPE, NFAPI_NR_UL_CONFIG_PUCCH_PDU_TYPE.
  induction l as [| p l IH]; intros a b Ha Hb Hs; [simpl; by rewrite !Z.add_0_r |].
  rewrite zlen_cons in Hs. pose proof (zlen_nonneg l). cbn [length ul_tti.ul_counts].
  unfold NFAPI_NR_UL_CONFIG_PUSCH_PDU_TYPE, NFAPI_NR_UL_CONFIG_PUCCH_PDU_TYPE.
  destruct (Z.eqb_spec (ul_pdu.pdu_type p) 2) as [E2 |]; [| destruct (Z.eqb_spec (ul_pdu.pdu_type p) 1) as [E1 |]].
  - rewrite u8_small, IH by lia. rewrite (filter_cons_True (λ p, ul_pdu.pdu_type p = 2)), (filter_cons_False (λ p, ul_pdu.pdu_type p = 1)) by lia.
    rewrite zlen_cons. do 2 f_equal; lia.
  - rewrite u8_small, IH by lia. rewrite (filter_cons_True (λ p, ul_pdu.pdu_type p = 1)), (filter_cons_False (λ p, ul_pdu.pdu_type p = 2)) by lia.
    rewrite zlen_cons. do 2 f_equal; lia.
  - rewrite IH by lia. rewrite (filter_cons_False (λ p, ul_pdu.pdu_type p = 1)), (filter_cons_False (λ p, ul_pdu.pdu_type p = 2)) by lia. done.
Qed.

Lemma count_type_bound t l : 0 <= ul_tti.count_type t l <= zlen l.
Proof using.
  unfold ul_tti.count_type. split; [apply zlen_nonneg |]. unfold zlen. apply Nat2Z.inj_le. apply length_filter.
Qed.

Lemma ul_group_codec v : ul_group.wf v → codec (ul_group.pack_ul_tti_groups_list_value v) ul_group.unpack_ul_tti_groups_list_value tt v.
Proof using. intros H. unfold ul_group.wf in H. wf_facts. codec_record v. Qed.

Lemma ul_group_typed : typed ul_group.unpack_ul_tti_groups_list_value ul_group.wf.
Proof using. unfold ul_group.unpack_ul_tti_groups_list_value, ul_group.wf. typed_record. Qed.
#[local] Hint Resolve ul_group_codec ul_group_typed : fapi.

Lemma ul_tti_codec v : ul_tti.wf v →
  ∃ v', ul_tti.same v v' ∧ codec (ul_tti.pack_ul_tti_request v) ul_tti.unpack_ul_tti_request v' v'.
Proof using.
  intros H. unfold ul_tti.wf, ul_tti.wf_cb in H. wf_facts.
  set (n1 := ul_tti.count_type NFAPI_NR_UL_CONFIG_PUSCH_PDU_TYPE v.(ul_tti.pdus_list)).
  set (n2 := ul_tti.count_type NFAPI_NR_UL_CONFIG_PUCCH_PDU_TYPE v.(ul_tti.pdus_list)).
  assert (Hn : is_u8 n1 ∧ is_u8 n2).
  { pose proof (count_type_bound NFAPI_NR_UL_CONFIG_PUSCH_PDU_TYPE v.(ul_tti.pdus_list)).
    pose proof (count_type_bound NFAPI_NR_UL_CONFIG_PUCCH_PDU_TYPE v.(ul_tti.pdus_list)). ul_sizes. unfold n1, n2, is_u8. lia. }
  destruct (codec_pdus ul_pdu.pack_ul_tti_pdu_list_value ul_pdu.unpack_ul_tti_pdu_list_value ul_pdu.wf
    ul_pdu.same NFAPI_MAX_NUM_UL_PDU v.(ul_tti.n_pdus) v.(ul_tti.pdus_list)) as (l' & Hl' & Hc);
    [done | done | done | apply ul_pdu_codec |].
  exists (ul_tti.mk v.(ul_tti.SFN) v.(ul_tti.Slot) v.(ul_tti.n_pdus) v.(ul_tti.rach_present) n1 n2 v.(ul_tti.n_group) l' v.(ul_tti.groups_list)).
  split; [done |]. unfold ul_tti.pack_ul_tti_request.
  assert (Hcnt : ul_tti.ul_counts (Z.to_nat v.(ul_tti.n_pdus)) v.(ul_tti.pdus_list) 0 0 = Ok (n1, n2)).
  { replace (Z.to_nat v.(ul_tti.n_pdus)) with (length v.(ul_tti.pdus_list)) by (unfold zlen in *; lia).
    rewrite ul_counts_spec by (ul_sizes; lia). done. }
  rewrite Hcnt. cbn [mbind res_bind fst snd]. destruct Hn. codec_steps. apply codec_ret.
Qed.

Lemma ul_tti_typed : typed ul_tti.unpack_ul_tti_request (ul_tti.wf_cb read_cb_octets).
Proof using. unfold ul_tti.unpack_ul_tti_request, ul_tti.wf_cb. typed_record. Qed.

(** What unpacking returns is well-formed when no count of code blocks is large. *)
Lemma ul_pdu_narrow v : ul_pdu.wf_cb read_cb_octets v → ul_pdu.num_cb_below 2041 v → ul_pdu.wf v.
Proof using.
  unfold ul_pdu.wf, ul_pdu.wf_cb, ul_pdu.num_cb_below. destruct (ul_pdu.pdu v) as [| p | | |]; try done.
  intros (Ht & Hty & H) Hn. split; [done |]. split; [done |]. unfold pusch.num_cb_below in Hn.
  destruct H as (H1 & H2 & H3 & H4 & H5 & Hd & H6). unfold pusch.wf_cb. split_and!; try done; try apply H6.
  unfold opt_wf in *. destruct (pusch.pusch_data p) as [d |]; [| done]. destruct Hd as [Hf (D1 & D2 & D3 & D4 & D5 & D6)].
  split; [done |]. unfold pusch_data.wf_cb. split_and!; try done. rewrite D5. apply read_cb_octets_ok; [| done].
  by apply Forall_cons in D3 as [? _].
Qed.

Lemma ul_tti_narrow v : ul_tti.wf_cb read_cb_octets v → Forall (ul_pdu.num_cb_below 2041) v.(ul_tti.pdus_list) → ul_tti.wf v.
Proof using.
  intros (H1 & H2 & H3 & H4 & H5 & H6) Hn. unfold ul_tti.wf, ul_tti.wf_cb. split_and!; try done; try apply H6.
  apply Forall_forall. intros x Hx. rewrite !Forall_forall in *. apply ul_pdu_narrow; auto.
Qed.
End ul.
