(* ===== verification/FapiInd.v ===== *)
(** * nFAPI P7: the indications

    SLOT, RX_DATA, CRC, UCI, SRS and RACH indications of
    [nfapi/open-nFAPI/fapi/src/nr_fapi_p7.c], laid out as [FapiDl.v].  Their lists are allocated
    with the number of elements received. *)

From S2P Require Import Prelude Fapi.

(** ** SLOT.indication *)

Module slot_ind.
Record nfapi_nr_slot_indication_scf_t := mk {
  sfn : Z; slot : Z }.

Definition wf (v : nfapi_nr_slot_indication_scf_t) : Prop :=
  Forall is_u16 [v.(sfn); v.(slot)].

Definition pack_nr_slot_indication `{ByteOrder} (v : nfapi_nr_slot_indication_scf_t) : wr unit :=
  push16 v.(sfn);; push16 v.(slot);;
  wret tt.

Definition unpack_nr_slot_indication `{ByteOrder} : rd nfapi_nr_slot_indication_scf_t :=
  sfn ⇐ pull16; slot ⇐ pull16;
  rret (mk sfn slot).
End slot_ind.

(** ** RX_DATA.indication *)

Module rx_data_pdu.
Record nfapi_nr_rx_data_pdu_t := mk {
  handle : Z; rnti : Z; harq_id : Z; pdu_length : Z; ul_cqi : Z; timing_advance : Z; rssi : Z;
  pdu : list Z }.

Definition wf (v : nfapi_nr_rx_data_pdu_t) : Prop :=
  Forall is_u32 [v.(handle); v.(pdu_length)] ∧
  Forall is_u16 [v.(rnti); v.(timing_advance); v.(rssi)] ∧
  Forall is_u8 [v.(harq_id); v.(ul_cqi)] ∧
  Forall is_u8 v.(pdu) ∧
  zlen v.(pdu) = v.(pdu_length).

Definition pack_nr_rx_data_indication_body `{ByteOrder} (v : nfapi_nr_rx_data_pdu_t) : wr unit :=
  push32 v.(handle);; push16 v.(rnti);; push8 v.(harq_id);; push32 v.(pdu_length);; push8 v.(ul_cqi);;
  push16 v.(timing_advance);; push16 v.(rssi);;
  pusharray8 v.(pdu) v.(pdu_length) v.(pdu_length);;
  wret tt.

Definition unpack_nr_rx_data_indication_body `{ByteOrder} : rd nfapi_nr_rx_data_pdu_t :=
  handle ⇐ pull32; rnti ⇐ pull16; harq_id ⇐ pull8; pdu_length ⇐ pull32; ul_cqi ⇐ pull8; timing_advance ⇐ pull16;
  rssi ⇐ pull16;
  pdu ⇐ pullarray8 pdu_length pdu_length;
  rret (mk handle rnti harq_id pdu_length ul_cqi timing_advance rssi pdu).
End rx_data_pdu.

Module rx_data.
Record nfapi_nr_rx_data_indication_t := mk {
  sfn : Z; slot : Z; number_of_pdus : Z;
  pdu_list : list rx_data_pdu.nfapi_nr_rx_data_pdu_t }.

Definition wf (v : nfapi_nr_rx_data_indication_t) : Prop :=
  Forall is_u16 [v.(sfn); v.(slot); v.(number_of_pdus)] ∧
  zlen v.(pdu_list) = v.(number_of_pdus) ∧
  Forall rx_data_pdu.wf v.(pdu_list).

Definition pack_nr_rx_data_indication `{ByteOrder} (v : nfapi_nr_rx_data_indication_t) : wr unit :=
  push16 v.(sfn);; push16 v.(slot);; push16 v.(number_of_pdus);;
  wfor rx_data_pdu.pack_nr_rx_data_indication_body v.(number_of_pdus) v.(pdu_list);;
  wret tt.

Definition unpack_nr_rx_data_indication `{ByteOrder} : rd nfapi_nr_rx_data_indication_t :=
  sfn ⇐ pull16; slot ⇐ pull16; number_of_pdus ⇐ pull16;
  pdu_list ⇐ rfor rx_data_pdu.unpack_nr_rx_data_indication_body number_of_pdus number_of_pdus;
  rret (mk sfn slot number_of_pdus pdu_list).
End rx_data.

(** ** CRC.indication *)

Module crc_pdu.
Record nfapi_nr_crc_t := mk {
  handle : Z; rnti : Z; harq_id : Z; tb_crc_status : Z; num_cb : Z;
  cb_crc_status : list Z;
  ul_cqi : Z; timing_advance : Z; rssi : Z }.

(** Octets of [cb_crc_status]; none is read or written when [num_cb] is 0. *)
Definition cb_len (num_cb : Z) : Z := if negb (num_cb =? 0) then u16 (Z.quot num_cb 8 + 1) else 0.

Definition wf (v : nfapi_nr_crc_t) : Prop :=
  Forall is_u32 [v.(handle)] ∧
  Forall is_u16 [v.(rnti); v.(num_cb); v.(timing_advance); v.(rssi)] ∧
  Forall is_u8 [v.(harq_id); v.(tb_crc_status); v.(ul_cqi)] ∧
  Forall is_u8 v.(cb_crc_status) ∧
  zlen v.(cb_crc_status) = cb_len v.(num_cb).

Definition pack_nr_crc_indication_body `{ByteOrder} (v : nfapi_nr_crc_t) : wr unit :=
  push32 v.(handle);; push16 v.(rnti);; push8 v.(harq_id);; push8 v.(tb_crc_status);; push16 v.(num_cb);;
  (if negb (v.(num_cb) =? 0) then pusharray8 v.(cb_crc_status) (cb_len v.(num_cb)) (cb_len v.(num_cb)) else wret tt);;
  push8 v.(ul_cqi);; push16 v.(timing_advance);; push16 v.(rssi);;
  wret tt.

Definition unpack_nr_crc_indication_body `{ByteOrder} : rd nfapi_nr_crc_t :=
  handle ⇐ pull32; rnti ⇐ pull16; harq_id ⇐ pull8; tb_crc_status ⇐ pull8; num_cb ⇐ pull16;
  cb_crc_status ⇐ (if negb (num_cb =? 0) then pullarray8 (cb_len num_cb) (cb_len num_cb) else rret []);
  ul_cqi ⇐ pull8; timing_advance ⇐ pull16; rssi ⇐ pull16;
  rret (mk handle rnti harq_id tb_crc_status num_cb cb_crc_status ul_cqi timing_advance rssi).
End crc_pdu.

Module crc.
Record nfapi_nr_crc_indication_t := mk {
  sfn : Z; slot : Z; number_crcs : Z;
  crc_list : list crc_pdu.nfapi_nr_crc_t }.

Definition wf (v : nfapi_nr_crc_indication_t) : Prop :=
  Forall is_u16 [v.(sfn); v.(slot); v.(number_crcs)] ∧
  zlen v.(crc_list) = v.(number_crcs) ∧
  Forall crc_pdu.wf v.(crc_list).

Definition pack_nr_crc_indication `{ByteOrder} (v : nfapi_nr_crc_indication_t) : wr unit :=
  push16 v.(sfn);; push16 v.(slot);; push16 v.(number_crcs);;
  wfor crc_pdu.pack_nr_crc_indication_body v.(number_crcs) v.(crc_list);;
  wret tt.

Definition unpack_nr_crc_indication `{ByteOrder} : rd nfapi_nr_crc_indication_t :=
  sfn ⇐ pull16; slot ⇐ pull16; number_crcs ⇐ pull16;
  crc_list ⇐ rfor crc_pdu.unpack_nr_crc_indication_body number_crcs number_crcs;
  rret (mk sfn slot number_crcs crc_list).
End crc.

(** ** UCI.indication *)

(** [nr_bits_to_bytes] of [nr_fapi_p7_utils.h]. *)
Definition nr_bits_to_bytes (bits : Z) : Z := u16 (Z.quot (bits + 7) 8).

Module sr_2_3_4.
Record nfapi_nr_sr_pdu_2_3_4_t := mk {
  sr_bit_len : Z;
  sr_payload : list Z }.

Definition wf (v : nfapi_nr_sr_pdu_2_3_4_t) : Prop :=
  Forall is_u16 [v.(sr_bit_len)] ∧
  Forall is_u8 v.(sr_payload) ∧
  zlen v.(sr_payload) = nr_bits_to_bytes v.(sr_bit_len).

Definition pack_sr_2_3_4 `{ByteOrder} (v : nfapi_nr_sr_pdu_2_3_4_t) : wr unit :=
  push16 v.(sr_bit_len);;
  pusharray8 v.(sr_payload) (nr_bits_to_bytes v.(sr_bit_len)) (nr_bits_to_bytes v.(sr_bit_len));;
  wret tt.

Definition unpack_sr_2_3_4 `{ByteOrder} : rd nfapi_nr_sr_pdu_2_3_4_t :=
  sr_bit_len ⇐ pull16;
  sr_payload ⇐ pullarray8 (nr_bits_to_bytes sr_bit_len) (nr_bits_to_bytes sr_bit_len);
  rret (mk sr_bit_len sr_payload).
End sr_2_3_4.

Module harq_2_3_4.
Record nfapi_nr_harq_pdu_2_3_4_t := mk {
  harq_crc : Z; harq_bit_len : Z;
  harq_payload : list Z }.

Definition wf (v : nfapi_nr_harq_pdu_2_3_4_t) : Prop :=
  Forall is_u8 [v.(harq_crc)] ∧
  Forall is_u16 [v.(harq_bit_len)] ∧
  Forall is_u8 v.(harq_payload) ∧
  zlen v.(harq_payload) = nr_bits_to_bytes v.(harq_bit_len).

Definition pack_harq_2_3_4 `{ByteOrder} (v : nfapi_nr_harq_pdu_2_3_4_t) : wr unit :=
  push8 v.(harq_crc);; push16 v.(harq_bit_len);;
  pusharray8 v.(harq_payload) (nr_bits_to_bytes v.(harq_bit_len)) (nr_bits_to_bytes v.(harq_bit_len));;
  wret tt.

Definition unpack_harq_2_3_4 `{ByteOrder} : rd nfapi_nr_harq_pdu_2_3_4_t :=
  harq_crc ⇐ pull8; harq_bit_len ⇐ pull16;
  harq_payload ⇐ pullarray8 (nr_bits_to_bytes harq_bit_len) (nr_bits_to_bytes harq_bit_len);
  rret (mk harq_crc harq_bit_len harq_payload).
End harq_2_3_4.

Module csi_part1.
Record nfapi_nr_csi_part1_pdu_t := mk {
  csi_part1_crc : Z; csi_part1_bit_len : Z;
  csi_part1_payload : list Z }.

Definition wf (v : nfapi_nr_csi_part1_pdu_t) : Prop :=
  Forall is_u8 [v.(csi_part1_crc)] ∧
  Forall is_u16 [v.(csi_part1_bit_len)] ∧
  Forall is_u8 v.(csi_part1_payload) ∧
  zlen v.(csi_part1_payload) = nr_bits_to_bytes v.(csi_part1_bit_len).

Definition pack_csi_part1 `{ByteOrder} (v : nfapi_nr_csi_part1_pdu_t) : wr unit :=
  push8 v.(csi_part1_crc);; push16 v.(csi_part1_bit_len);;
  pusharray8 v.(csi_part1_payload) (nr_bits_to_bytes v.(csi_part1_bit_len)) (nr_bits_to_bytes v.(csi_part1_bit_len));;
  wret tt.

Definition unpack_csi_part1 `{ByteOrder} : rd nfapi_nr_csi_part1_pdu_t :=
  csi_part1_crc ⇐ pull8; csi_part1_bit_len ⇐ pull16;
  csi_part1_payload ⇐ pullarray8 (nr_bits_to_bytes csi_part1_bit_len) (nr_bits_to_bytes csi_part1_bit_len);
  rret (mk csi_part1_crc csi_part1_bit_len csi_part1_payload).
End csi_part1.

Module csi_part2.
Record nfapi_nr_csi_part2_pdu_t := mk {
  csi_part2_crc : Z; csi_part2_bit_len : Z;
  csi_part2_payload : list Z }.

Definition wf (v : nfapi_nr_csi_part2_pdu_t) : Prop :=
  Forall is_u8 [v.(csi_part2_crc)] ∧
  Forall is_u16 [v.(csi_part2_bit_len)] ∧
  Forall is_u8 v.(csi_part2_payload) ∧
  zlen v.(csi_part2_payload) = nr_bits_to_bytes v.(csi_part2_bit_len).

Definition pack_csi_part2 `{ByteOrder} (v : nfapi_nr_csi_part2_pdu_t) : wr unit :=
  push8 v.(csi_part2_crc);; push16 v.(csi_part2_bit_len);;
  pusharray8 v.(csi_part2_payload) (nr_bits_to_bytes v.(csi_part2_bit_len)) (nr_bits_to_bytes v.(csi_part2_bit_len));;
  wret tt.

Definition unpack_csi_part2 `{ByteOrder} : rd nfapi_nr_csi_part2_pdu_t :=
  csi_part2_crc ⇐ pull8; csi_part2_bit_len ⇐ pull16;
  csi_part2_payload ⇐ pullarray8 (nr_bits_to_bytes csi_part2_bit_len) (nr_bits_to_bytes csi_part2_bit_len);
  rret (mk csi_part2_crc csi_part2_bit_len csi_part2_payload).
End csi_part2.

Module sr_0_1.
Record nfapi_nr_sr_pdu_0_1_t := mk {
  sr_indication : Z; sr_confidence_level : Z }.

Definition wf (v : nfapi_nr_sr_pdu_0_1_t) : Prop :=
  Forall is_u8 [v.(sr_indication); v.(sr_confidence_level)].

Definition pack_sr_0_1 `{ByteOrder} (v : nfapi_nr_sr_pdu_0_1_t) : wr unit :=
  push8 v.(sr_indication);; push8 v.(sr_confidence_level);;
  wret tt.

Definition unpack_sr_0_1 `{ByteOrder} : rd nfapi_nr_sr_pdu_0_1_t :=
  sr_indication ⇐ pull8; sr_confidence_level ⇐ pull8;
  rret (mk sr_indication sr_confidence_level).
End sr_0_1.

(** [harq_list[i]] is its only field, [harq_value]. *)
Module harq_0_1.
Record nfapi_nr_harq_pdu_0_1_t := mk {
  num_harq : Z; harq_confidence_level : Z;
  harq_list : list Z }.

Definition wf (v : nfapi_nr_harq_pdu_0_1_t) : Prop :=
  Forall is_u8 [v.(num_harq); v.(harq_confidence_level)] ∧
  Forall is_u8 v.(harq_list) ∧
  zlen v.(harq_list) = v.(num_harq) ∧
  v.(num_harq) <= 2.

Definition pack_harq_0_1 `{ByteOrder} (v : nfapi_nr_harq_pdu_0_1_t) : wr unit :=
  push8 v.(num_harq);; push8 v.(harq_confidence_level);;
  wfor push8 v.(num_harq) v.(harq_list);;
  wret tt.

Definition unpack_harq_0_1 `{ByteOrder} : rd nfapi_nr_harq_pdu_0_1_t :=
  num_harq ⇐ pull8; harq_confidence_level ⇐ pull8;
  harq_list ⇐ rfor pull8 2 num_harq;
  rret (mk num_harq harq_confidence_level harq_list).
End harq_0_1.

(** The HARQ and CSI groups are packed as in format 2/3/4. *)
Module uci_pusch.
Record nfapi_nr_uci_pusch_pdu_t := mk {
  pduBitmap : Z; handle : Z; rnti : Z; ul_cqi : Z; timing_advance : Z; rssi : Z;
  harq : option harq_2_3_4.nfapi_nr_harq_pdu_2_3_4_t;
  csi_part1 : option csi_part1.nfapi_nr_csi_part1_pdu_t;
  csi_part2 : option csi_part2.nfapi_nr_csi_part2_pdu_t }.

Definition wf (v : nfapi_nr_uci_pusch_pdu_t) : Prop :=
  Forall is_u8 [v.(pduBitmap); v.(ul_cqi)] ∧
  Forall is_u32 [v.(handle)] ∧
  Forall is_u16 [v.(rnti); v.(timing_advance); v.(rssi)] ∧
  opt_wf (flag (Z.shiftr v.(pduBitmap) 1) 1) harq_2_3_4.wf v.(harq) ∧
  opt_wf (flag (Z.shiftr v.(pduBitmap) 2) 1) csi_part1.wf v.(csi_part1) ∧
  opt_wf (flag (Z.shiftr v.(pduBitmap) 3) 1) csi_part2.wf v.(csi_part2).

Definition pack_nr_uci_pusch `{ByteOrder} (v : nfapi_nr_uci_pusch_pdu_t) : wr unit :=
  push8 v.(pduBitmap);; push32 v.(handle);; push16 v.(rnti);; push8 v.(ul_cqi);; push16 v.(timing_advance);;
  push16 v.(rssi);;
  wopt (flag (Z.shiftr v.(pduBitmap) 1) 1) v.(harq) harq_2_3_4.pack_harq_2_3_4;;
  wopt (flag (Z.shiftr v.(pduBitmap) 2) 1) v.(csi_part1) csi_part1.pack_csi_part1;;
  wopt (flag (Z.shiftr v.(pduBitmap) 3) 1) v.(csi_part2) csi_part2.pack_csi_part2;;
  wret tt.

Definition unpack_nr_uci_pusch `{ByteOrder} : rd nfapi_nr_uci_pusch_pdu_t :=
  pduBitmap ⇐ pull8; handle ⇐ pull32; rnti ⇐ pull16; ul_cqi ⇐ pull8; timing_advance ⇐ pull16; rssi ⇐ pull16;
  harq ⇐ ropt (flag (Z.shiftr pduBitmap 1) 1) harq_2_3_4.unpack_harq_2_3_4;
  csi_part1 ⇐ ropt (flag (Z.shiftr pduBitmap 2) 1) csi_part1.unpack_csi_part1;
  csi_part2 ⇐ ropt (flag (Z.shiftr pduBitmap 3) 1) csi_part2.unpack_csi_part2;
  rret (mk pduBitmap handle rnti ul_cqi timing_advance rssi harq csi_part1 csi_part2).
End uci_pusch.

Module uci_0_1.
Record nfapi_nr_uci_pucch_pdu_format_0_1_t := mk {
  pduBitmap : Z; handle : Z; rnti : Z; pucch_format : Z; ul_cqi : Z; timing_advance : Z; rssi : Z;
  sr : option sr_0_1.nfapi_nr_sr_pdu_0_1_t;
  harq : option harq_0_1.nfapi_nr_harq_pdu_0_1_t }.

Definition wf (v : nfapi_nr_uci_pucch_pdu_format_0_1_t) : Prop :=
  Forall is_u8 [v.(pduBitmap); v.(pucch_format); v.(ul_cqi)] ∧
  Forall is_u32 [v.(handle)] ∧
  Forall is_u16 [v.(rnti); v.(timing_advance); v.(rssi)] ∧
  opt_wf (flag v.(pduBitmap) 1) sr_0_1.wf v.(sr) ∧
  opt_wf (flag (Z.shiftr v.(pduBitmap) 1) 1) harq_0_1.wf v.(harq).

Definition pack_nr_uci_pucch_0_1 `{ByteOrder} (v : nfapi_nr_uci_pucch_pdu_format_0_1_t) : wr unit :=
  push8 v.(pduBitmap);; push32 v.(handle);; push16 v.(rnti);; push8 v.(pucch_format);; push8 v.(ul_cqi);;
  push16 v.(timing_advance);; push16 v.(rssi);;
  wopt (flag v.(pduBitmap) 1) v.(sr) sr_0_1.pack_sr_0_1;;
  wopt (flag (Z.shiftr v.(pduBitmap) 1) 1) v.(harq) harq_0_1.pack_harq_0_1;;
  wret tt.

Definition unpack_nr_uci_pucch_0_1 `{ByteOrder} : rd nfapi_nr_uci_pucch_pdu_format_0_1_t :=
  pduBitmap ⇐ pull8; handle ⇐ pull32; rnti ⇐ pull16; pucch_format ⇐ pull8; ul_cqi ⇐ pull8;
  timing_advance ⇐ pull16; rssi ⇐ pull16;
  sr ⇐ ropt (flag pduBitmap 1) sr_0_1.unpack_sr_0_1;
  harq ⇐ ropt (flag (Z.shiftr pduBitmap 1) 1) harq_0_1.unpack_harq_0_1;
  rret (mk pduBitmap handle rnti pucch_format ul_cqi timing_advance rssi sr harq).
End uci_0_1.

Module uci_2_3_4.
Record nfapi_nr_uci_pucch_pdu_format_2_3_4_t := mk {
  pduBitmap : Z; handle : Z; rnti : Z; pucch_format : Z; ul_cqi : Z; timing_advance : Z; rssi : Z;
  sr : option sr_2_3_4.nfapi_nr_sr_pdu_2_3_4_t;
  harq : option harq_2_3_4.nfapi_nr_harq_pdu_2_3_4_t;
  csi_part1 : option csi_part1.nfapi_nr_csi_part1_pdu_t;
  csi_part2 : option csi_part2.nfapi_nr_csi_part2_pdu_t }.

Definition wf (v : nfapi_nr_uci_pucch_pdu_format_2_3_4_t) : Prop :=
  Forall is_u8 [v.(pduBitmap); v.(pucch_format); v.(ul_cqi)] ∧
  Forall is_u32 [v.(handle)] ∧
  Forall is_u16 [v.(rnti); v.(timing_advance); v.(rssi)] ∧
  opt_wf (flag v.(pduBitmap) 1) sr_2_3_4.wf v.(sr) ∧
  opt_wf (flag (Z.shiftr v.(pduBitmap) 1) 1) harq_2_3_4.wf v.(harq) ∧
  opt_wf (flag (Z.shiftr v.(pduBitmap) 2) 1) csi_part1.wf v.(csi_part1) ∧
  opt_wf (flag (Z.shiftr v.(pduBitmap) 3) 1) csi_part2.wf v.(csi_part2).

Definition pack_nr_uci_pucch_2_3_4 `{ByteOrder} (v : nfapi_nr_uci_pucch_pdu_format_2_3_4_t) : wr unit :=
  push8 v.(pduBitmap);; push32 v.(handle);; push16 v.(rnti);; push8 v.(pucch_format);; push8 v.(ul_cqi);;
  push16 v.(timing_advance);; push16 v.(rssi);;
  wopt (flag v.(pduBitmap) 1) v.(sr) sr_2_3_4.pack_sr_2_3_4;;
  wopt (flag (Z.shiftr v.(pduBitmap) 1) 1) v.(harq) harq_2_3_4.pack_harq_2_3_4;;
  wopt (flag (Z.shiftr v.(pduBitmap) 2) 1) v.(csi_part1) csi_part1.pack_csi_part1;;
  wopt (flag (Z.shiftr v.(pduBitmap) 3) 1) v.(csi_part2) csi_part2.pack_csi_part2;;
  wret tt.

Definition unpack_nr_uci_pucch_2_3_4 `{ByteOrder} : rd nfapi_nr_uci_pucch_pdu_format_2_3_4_t :=
  pduBitmap ⇐ pull8; handle ⇐ pull32; rnti ⇐ pull16; pucch_format ⇐ pull8; ul_cqi ⇐ pull8;
  timing_advance ⇐ pull16; rssi ⇐ pull16;
  sr ⇐ ropt (flag pduBitmap 1) sr_2_3_4.unpack_sr_2_3_4;
  harq ⇐ ropt (flag (Z.shiftr pduBitmap 1) 1) harq_2_3_4.unpack_harq_2_3_4;
  csi_part1 ⇐ ropt (flag (Z.shiftr pduBitmap 2) 1) csi_part1.unpack_csi_part1;
  csi_part2 ⇐ ropt (flag (Z.shiftr pduBitmap 3) 1) csi_part2.unpack_csi_part2;
  rret (mk pduBitmap handle rnti pucch_format ul_cqi timing_advance rssi sr harq csi_part1 csi_part2).
End uci_2_3_4.

Definition NFAPI_NR_UCI_PUSCH_PDU_TYPE : Z := 0.
Definition NFAPI_NR_UCI_FORMAT_0_1_PDU_TYPE : Z := 1.
Definition NFAPI_NR_UCI_FORMAT_2_3_4_PDU_TYPE : Z := 2.

(** The union of [nfapi_nr_uci_t]; [uci_none]: never written. *)
Inductive uci_body :=
| uci_pusch_pdu (v : uci_pusch.nfapi_nr_uci_pusch_pdu_t)
| pucch_pdu_format_0_1 (v : uci_0_1.nfapi_nr_uci_pucch_pdu_format_0_1_t)
| pucch_pdu_format_2_3_4 (v : uci_2_3_4.nfapi_nr_uci_pucch_pdu_format_2_3_4_t)
| uci_none.

Module uci_pdu.
Record nfapi_nr_uci_t := mk { pdu_type : Z; pdu_size : Z; pdu : uci_body }.

Definition wf (v : nfapi_nr_uci_t) : Prop :=
  is_u16 v.(pdu_type) ∧ is_u16 v.(pdu_size) ∧
  match v.(pdu) with
  | uci_pusch_pdu p => v.(pdu_type) = NFAPI_NR_UCI_PUSCH_PDU_TYPE ∧ uci_pusch.wf p
  | pucch_pdu_format_0_1 p => v.(pdu_type) = NFAPI_NR_UCI_FORMAT_0_1_PDU_TYPE ∧ uci_0_1.wf p
  | pucch_pdu_format_2_3_4 p => v.(pdu_type) = NFAPI_NR_UCI_FORMAT_2_3_4_PDU_TYPE ∧ uci_2_3_4.wf p
  | uci_none => NFAPI_NR_UCI_FORMAT_2_3_4_PDU_TYPE < v.(pdu_type)
  end.

(** An unknown type is refused. *)
Definition pack_nr_uci_indication_body `{ByteOrder} (v : nfapi_nr_uci_t) : wr unit :=
  push16 v.(pdu_type);;
  push16 v.(pdu_size);;
  (if v.(pdu_type) =? NFAPI_NR_UCI_PUSCH_PDU_TYPE then
     match v.(pdu) with uci_pusch_pdu p => uci_pusch.pack_nr_uci_pusch p | _ => λ _, UB end
   else if v.(pdu_type) =? NFAPI_NR_UCI_FORMAT_0_1_PDU_TYPE then
     match v.(pdu) with pucch_pdu_format_0_1 p => uci_0_1.pack_nr_uci_pucch_0_1 p | _ => λ _, UB end
   else if v.(pdu_type) =? NFAPI_NR_UCI_FORMAT_2_3_4_PDU_TYPE then
     match v.(pdu) with pucch_pdu_format_2_3_4 p => uci_2_3_4.pack_nr_uci_pucch_2_3_4 p | _ => λ _, UB end
   else λ _, Ok None).

(** An unknown type is only logged. *)
Definition unpack_nr_uci_indication_body `{ByteOrder} : rd nfapi_nr_uci_t :=
  pdu_type ⇐ pull16;
  pdu_size ⇐ pull16;
  if pdu_type =? NFAPI_NR_UCI_PUSCH_PDU_TYPE then
    p ⇐ uci_pusch.unpack_nr_uci_pusch; rret (mk pdu_type pdu_size (uci_pusch_pdu p))
  else if pdu_type =? NFAPI_NR_UCI_FORMAT_0_1_PDU_TYPE then
    p ⇐ uci_0_1.unpack_nr_uci_pucch_0_1; rret (mk pdu_type pdu_size (pucch_pdu_format_0_1 p))
  else if pdu_type =? NFAPI_NR_UCI_FORMAT_2_3_4_PDU_TYPE then
    p ⇐ uci_2_3_4.unpack_nr_uci_pucch_2_3_4; rret (mk pdu_type pdu_size (pucch_pdu_format_2_3_4 p))
  else rret (mk pdu_type pdu_size uci_none).
End uci_pdu.

Module uci.
Record nfapi_nr_uci_indication_t := mk {
  sfn : Z; slot : Z; num_ucis : Z;
  uci_list : list uci_pdu.nfapi_nr_uci_t }.

Definition wf (v : nfapi_nr_uci_indication_t) : Prop :=
  Forall is_u16 [v.(sfn); v.(slot); v.(num_ucis)] ∧
  zlen v.(uci_list) = v.(num_ucis) ∧
  Forall uci_pdu.wf v.(uci_list).

Definition pack_nr_uci_indication `{ByteOrder} (v : nfapi_nr_uci_indication_t) : wr unit :=
  push16 v.(sfn);; push16 v.(slot);; push16 v.(num_ucis);;
  wfor uci_pdu.pack_nr_uci_indication_body v.(num_ucis) v.(uci_list);;
  wret tt.

Definition unpack_nr_uci_indication `{ByteOrder} : rd nfapi_nr_uci_indication_t :=
  sfn ⇐ pull16; slot ⇐ pull16; num_ucis ⇐ pull16;
  uci_list ⇐ rfor uci_pdu.unpack_nr_uci_indication_body num_ucis num_ucis;
  rret (mk sfn slot num_ucis uci_list).
End uci.

(** ** SRS.indication *)

Module srs_report.
Record nfapi_srs_report_tlv_t := mk {
  tag : Z; length : Z;
  value : list Z }.

(** Words of the report. *)
Definition words (length : Z) : Z := Z.quot (u32 (length + 3)) 4.

Definition wf (v : nfapi_srs_report_tlv_t) : Prop :=
  Forall is_u16 [v.(tag)] ∧
  Forall is_u32 [v.(length)] ∧
  Forall is_u32 v.(value) ∧
  zlen v.(value) = words v.(length) ∧
  zlen v.(value) <= 16384.

Definition pack_nr_srs_report_tlv `{ByteOrder} (v : nfapi_srs_report_tlv_t) : wr unit :=
  push16 v.(tag);; push32 v.(length);;
  wfor push32 (words v.(length)) v.(value);;
  wret tt.

Definition unpack_nr_srs_report_tlv_value `{ByteOrder} (length : Z) : rd (list Z) := rfor pull32 16384 (words length).

Definition unpack_nr_srs_report_tlv `{ByteOrder} : rd nfapi_srs_report_tlv_t :=
  tag ⇐ pull16; length ⇐ pull32;
  value ⇐ unpack_nr_srs_report_tlv_value length;
  rret (mk tag length value).
End srs_report.

Module srs_ind_pdu.
Record nfapi_nr_srs_indication_pdu_t := mk {
  handle : Z; rnti : Z; timing_advance_offset : Z; timing_advance_offset_nsec : Z; srs_usage : Z;
  report_type : Z;
  report_tlv : srs_report.nfapi_srs_report_tlv_t }.

Definition wf (v : nfapi_nr_srs_indication_pdu_t) : Prop :=
  Forall is_u32 [v.(handle)] ∧
  Forall is_u16 [v.(rnti); v.(timing_advance_offset)] ∧
  Forall is_s16 [v.(timing_advance_offset_nsec)] ∧
  Forall is_u8 [v.(srs_usage); v.(report_type)] ∧
  srs_report.wf v.(report_tlv).

Definition pack_nr_srs_indication_body `{ByteOrder} (v : nfapi_nr_srs_indication_pdu_t) : wr unit :=
  push32 v.(handle);; push16 v.(rnti);; push16 v.(timing_advance_offset);;
  pushs16 v.(timing_advance_offset_nsec);; push8 v.(srs_usage);; push8 v.(report_type);;
  srs_report.pack_nr_srs_report_tlv v.(report_tlv);;
  wret tt.

Definition unpack_nr_srs_indication_body `{ByteOrder} : rd nfapi_nr_srs_indication_pdu_t :=
  handle ⇐ pull32; rnti ⇐ pull16; timing_advance_offset ⇐ pull16; timing_advance_offset_nsec ⇐ pulls16;
  srs_usage ⇐ pull8; report_type ⇐ pull8;
  report_tlv ⇐ srs_report.unpack_nr_srs_report_tlv;
  rret (mk handle rnti timing_advance_offset timing_advance_offset_nsec srs_usage report_type report_tlv).
End srs_ind_pdu.

Module srs_ind.
Record nfapi_nr_srs_indication_t := mk {
  sfn : Z; slot : Z; control_length : Z; number_of_pdus : Z;
  pdu_list : list srs_ind_pdu.nfapi_nr_srs_indication_pdu_t }.

Definition wf (v : nfapi_nr_srs_indication_t) : Prop :=
  Forall is_u16 [v.(sfn); v.(slot); v.(control_length)] ∧
  Forall is_u8 [v.(number_of_pdus)] ∧
  zlen v.(pdu_list) = v.(number_of_pdus) ∧
  Forall srs_ind_pdu.wf v.(pdu_list).

Definition pack_nr_srs_indication `{ByteOrder} (v : nfapi_nr_srs_indication_t) : wr unit :=
  push16 v.(sfn);; push16 v.(slot);; push16 v.(control_length);; push8 v.(number_of_pdus);;
  wfor srs_ind_pdu.pack_nr_srs_indication_body v.(number_of_pdus) v.(pdu_list);;
  wret tt.

Definition unpack_nr_srs_indication `{ByteOrder} : rd nfapi_nr_srs_indication_t :=
  sfn ⇐ pull16; slot ⇐ pull16; control_length ⇐ pull16; number_of_pdus ⇐ pull8;
  pdu_list ⇐ rfor srs_ind_pdu.unpack_nr_srs_indication_body number_of_pdus number_of_pdus;
  rret (mk sfn slot control_length number_of_pdus pdu_list).
End srs_ind.

(** ** RACH.indication *)

Module preamble.
Record nfapi_nr_prach_indication_preamble_t := mk {
  preamble_index : Z; timing_advance : Z; preamble_pwr : Z }.

Definition wf (v : nfapi_nr_prach_indication_preamble_t) : Prop :=
  Forall is_u8 [v.(preamble_index)] ∧
  Forall is_u16 [v.(timing_advance)] ∧
  Forall is_u32 [v.(preamble_pwr)].

Definition pack_preamble `{ByteOrder} (v : nfapi_nr_prach_indication_preamble_t) : wr unit :=
  push8 v.(preamble_index);; push16 v.(timing_advance);; push32 v.(preamble_pwr);;
  wret tt.

Definition unpack_preamble `{ByteOrder} : rd nfapi_nr_prach_indication_preamble_t :=
  preamble_index ⇐ pull8; timing_advance ⇐ pull16; preamble_pwr ⇐ pull32;
  rret (mk preamble_index timing_advance preamble_pwr).
End preamble.

Module rach_pdu.
Record nfapi_nr_prach_indication_pdu_t := mk {
  phy_cell_id : Z; symbol_index : Z; slot_index : Z; freq_index : Z; avg_rssi : Z; avg_snr : Z;
  num_preamble : Z;
  preamble_list : list preamble.nfapi_nr_prach_indication_preamble_t }.

Definition wf (v : nfapi_nr_prach_indication_pdu_t) : Prop :=
  Forall is_u16 [v.(phy_cell_id)] ∧
  Forall is_u8 [v.(symbol_index); v.(slot_index); v.(freq_index); v.(avg_rssi); v.(avg_snr); v.(num_preamble)] ∧
  zlen v.(preamble_list) = v.(num_preamble) ∧
  v.(num_preamble) <= 64 ∧
  Forall preamble.wf v.(preamble_list).

Definition pack_nr_rach_indication_body `{ByteOrder} (v : nfapi_nr_prach_indication_pdu_t) : wr unit :=
  push16 v.(phy_cell_id);; push8 v.(symbol_index);; push8 v.(slot_index);; push8 v.(freq_index);;
  push8 v.(avg_rssi);; push8 v.(avg_snr);; push8 v.(num_preamble);;
  wfor preamble.pack_preamble v.(num_preamble) v.(preamble_list);;
  wret tt.

Definition unpack_nr_rach_indication_body `{ByteOrder} : rd nfapi_nr_prach_indication_pdu_t :=
  phy_cell_id ⇐ pull16; symbol_index ⇐ pull8; slot_index ⇐ pull8; freq_index ⇐ pull8; avg_rssi ⇐ pull8;
  avg_snr ⇐ pull8; num_preamble ⇐ pull8;
  preamble_list ⇐ rfor preamble.unpack_preamble 64 num_preamble;
  rret (mk phy_cell_id symbol_index slot_index freq_index avg_rssi avg_snr num_preamble preamble_list).
End rach_pdu.

Module rach.
Record nfapi_nr_rach_indication_t := mk {
  sfn : Z; slot : Z; number_of_pdus : Z;
  pdu_list : list rach_pdu.nfapi_nr_prach_indication_pdu_t }.

Definition wf (v : nfapi_nr_rach_indication_t) : Prop :=
  Forall is_u16 [v.(sfn); v.(slot)] ∧
  Forall is_u8 [v.(number_of_pdus)] ∧
  zlen v.(pdu_list) = v.(number_of_pdus) ∧
  Forall rach_pdu.wf v.(pdu_list).

Definition pack_nr_rach_indication `{ByteOrder} (v : nfapi_nr_rach_indication_t) : wr unit :=
  push16 v.(sfn);; push16 v.(slot);; push8 v.(number_of_pdus);;
  wfor rach_pdu.pack_nr_rach_indication_body v.(number_of_pdus) v.(pdu_list);;
  wret tt.

Definition unpack_nr_rach_indication `{ByteOrder} : rd nfapi_nr_rach_indication_t :=
  sfn ⇐ pull16; slot ⇐ pull16; number_of_pdus ⇐ pull8;
  pdu_list ⇐ rfor rach_pdu.unpack_nr_rach_indication_body number_of_pdus number_of_pdus;
  rret (mk sfn slot number_of_pdus pdu_list).
End rach.
