(* ===== verification/FapiIndCodec.v ===== *)
(** * nFAPI P7: the indications round trip, and which are safe to unpack *)

From S2P Require Import Prelude Fapi FapiCodec FapiDl FapiDlCodec FapiInd.

Section ind.
Context `{BO : ByteOrder}.

#[local] Hint Extern 2 (codec (wfor _ _ _) (rfor _ _ _) _ _) => eapply codec_for : fapi.
#[local] Hint Extern 1 (?n <= ?n) => apply Z.le_refl : fapi.

Lemma slot_ind_codec v : slot_ind.wf v → codec (slot_ind.pack_nr_slot_indication v) slot_ind.unpack_nr_slot_indication tt v.
Proof using. intros H. unfold slot_ind.wf in H. wf_facts. codec_record v. Qed.

Lemma slot_ind_typed : typed slot_ind.unpack_nr_slot_indication slot_ind.wf.
Proof using. unfold slot_ind.unpack_nr_slot_indication, slot_ind.wf. typed_record. Qed.
#[local] Hint Resolve slot_ind_codec slot_ind_typed : fapi.

(** ** RX_DATA.indication *)

Lemma rx_data_pdu_codec v : rx_data_pdu.wf v → codec (rx_data_pdu.pack_nr_rx_data_indication_body v) rx_data_pdu.unpack_nr_rx_data_indication_body tt v.
Proof using. intros H. unfold rx_data_pdu.wf in H. wf_facts. codec_record v. Qed.

Lemma rx_data_pdu_typed : typed rx_data_pdu.unpack_nr_rx_data_indication_body rx_data_pdu.wf.
Proof using. unfold rx_data_pdu.unpack_nr_rx_data_indication_body, rx_data_pdu.wf. typed_record. Qed.
#[local] Hint Resolve rx_data_pdu_codec rx_data_pdu_typed : fapi.

Lemma rx_data_codec v : rx_data.wf v → codec (rx_data.pack_nr_rx_data_indication v) rx_data.unpack_nr_rx_data_indication tt v.
Proof using. intros H. unfold rx_data.wf in H. wf_facts. codec_record v. Qed.

Lemma rx_data_typed : typed rx_data.unpack_nr_rx_data_indication rx_data.wf.
Proof using. unfold rx_data.unpack_nr_rx_data_indication, rx_data.wf. typed_record. Qed.
#[local] Hint Resolve rx_data_codec rx_data_typed : fapi.

(** ** CRC.indication *)

Lemma cb_len_nonneg n : 0 <= crc_pdu.cb_len n.
Proof using. unfold crc_pdu.cb_len. destruct (negb (n =? 0)); [by apply Z.mod_pos_bound | done]. Qed.

Lemma cb_status_codec l n : Forall is_u8 l → zlen l = crc_pdu.cb_len n →
  codec (if negb (n =? 0) then pusharray8 l (crc_pdu.cb_len n) (crc_pdu.cb_len n) else wret tt)
    (if negb (n =? 0) then pullarray8 (crc_pdu.cb_len n) (crc_pdu.cb_len n) else rret []) tt l.
Proof using.
  intros Hl Hlen. destruct (negb (n =? 0)) eqn:E; [apply codec_array8; [done | done | lia] |].
  unfold crc_pdu.cb_len in Hlen. rewrite E in Hlen.
  destruct l as [| x l]; [apply codec_ret |]. rewrite zlen_cons in Hlen. pose proof (zlen_nonneg l). lia.
Qed.

Lemma cb_status_typed n :
  typed (if negb (n =? 0) then pullarray8 (crc_pdu.cb_len n) (crc_pdu.cb_len n) else rret [])
    (λ l, Forall is_u8 l ∧ zlen l = crc_pdu.cb_len n).
Proof using.
  pose proof (cb_len_nonneg n). destruct (negb (n =? 0)) eqn:E.
  - eapply typed_impl; [apply typed_array8 |]. intros l ?. wf_facts. split; [done | lia].
  - apply typed_ret. split; [constructor |]. unfold crc_pdu.cb_len. by rewrite E.
Qed.
#[local] Hint Resolve cb_status_codec cb_status_typed : fapi.

Lemma crc_pdu_codec v : crc_pdu.wf v → codec (crc_pdu.pack_nr_crc_indication_body v) crc_pdu.unpack_nr_crc_indication_body tt v.
Proof using. intros H. unfold crc_pdu.wf in H. wf_facts. codec_record v. Qed.

Lemma crc_pdu_typed : typed crc_pdu.unpack_nr_crc_indication_body crc_pdu.wf.
Proof using. unfold crc_pdu.unpack_nr_crc_indication_body, crc_pdu.wf. typed_record. Qed.
#[local] Hint Resolve crc_pdu_codec crc_pdu_typed : fapi.

Lemma crc_codec v : crc.wf v → codec (crc.pack_nr_crc_indication v) crc.unpack_nr_crc_indication tt v.
Proof using. intros H. unfold crc.wf in H. wf_facts. codec_record v. Qed.

Lemma crc_typed : typed crc.unpack_nr_crc_indication crc.wf.
Proof using. unfold crc.unpack_nr_crc_indication, crc.wf. typed_record. Qed.
#[local] Hint Resolve crc_codec crc_typed : fapi.

(** ** UCI.indication *)

Lemma bits_nonneg n : 0 <= nr_bits_to_bytes n.
Proof using. by apply Z.mod_pos_bound. Qed.

Lemma payload_typed n : typed (pullarray8 (nr_bits_to_bytes n) (nr_bits_to_bytes n)) (λ l, Forall is_u8 l ∧ zlen l = nr_bits_to_bytes n).
Proof using.
  pose proof (bits_nonneg n). eapply typed_impl; [apply typed_array8 |]. intros l ?. wf_facts. split; [done | lia].
Qed.
#[local] Hint Resolve payload_typed | 0 : fapi.

Lemma sr_2_3_4_codec v : sr_2_3_4.wf v → codec (sr_2_3_4.pack_sr_2_3_4 v) sr_2_3_4.unpack_sr_2_3_4 tt v.
Proof using. intros H. unfold sr_2_3_4.wf in H. wf_facts. codec_record v. Qed.

Lemma sr_2_3_4_typed : typed sr_2_3_4.unpack_sr_2_3_4 sr_2_3_4.wf.
Proof using. unfold sr_2_3_4.unpack_sr_2_3_4, sr_2_3_4.wf. typed_record. Qed.
#[local] Hint Resolve sr_2_3_4_codec sr_2_3_4_typed : fapi.

Lemma harq_2_3_4_codec v : harq_2_3_4.wf v → codec (harq_2_3_4.pack_harq_2_3_4 v) harq_2_3_4.unpack_harq_2_3_4 tt v.
Proof using. intros H. unfold harq_2_3_4.wf in H. wf_facts. codec_record v. Qed.

Lemma harq_2_3_4_typed : typed harq_2_3_4.unpack_harq_2_3_4 harq_2_3_4.wf.
Proof using. unfold harq_2_3_4.unpack_harq_2_3_4, harq_2_3_4.wf. typed_record. Qed.
#[local] Hint Resolve harq_2_3_4_codec harq_2_3_4_typed : fapi.

Lemma csi_part1_codec v : csi_part1.wf v → codec (csi_part1.pack_csi_part1 v) csi_part1.unpack_csi_part1 tt v.
Proof using. intros H. unfold csi_part1.wf in H. wf_facts. codec_record v. Qed.

Lemma csi_part1_typed : typed csi_part1.unpack_csi_part1 csi_part1.wf.
Proof using. unfold csi_part1.unpack_csi_part1, csi_part1.wf. typed_record. Qed.
#[local] Hint Resolve csi_part1_codec csi_part1_typed : fapi.

Lemma csi_part2_codec v : csi_part2.wf v → codec (csi_part2.pack_csi_part2 v) csi_part2.unpack_csi_part2 tt v.
Proof using. intros H. unfold csi_part2.wf in H. wf_facts. codec_record v. Qed.

Lemma csi_part2_typed : typed csi_part2.unpack_csi_part2 csi_part2.wf.
Proof using. unfold csi_part2.unpack_csi_part2, csi_part2.wf. typed_record. Qed.
#[local] Hint Resolve csi_part2_codec csi_part2_typed : fapi.

Lemma sr_0_1_codec v : sr_0_1.wf v → codec (sr_0_1.pack_sr_0_1 v) sr_0_1.unpack_sr_0_1 tt v.
Proof using. intros H. unfold sr_0_1.wf in H. wf_facts. codec_record v. Qed.

Lemma sr_0_1_typed : typed sr_0_1.unpack_sr_0_1 sr_0_1.wf.
Proof using. unfold sr_0_1.unpack_sr_0_1, sr_0_1.wf. typed_record. Qed.
#[local] Hint Resolve sr_0_1_codec sr_0_1_typed : fapi.

Lemma harq_0_1_codec v : harq_0_1.wf v → codec (harq_0_1.pack_harq_0_1 v) harq_0_1.unpack_harq_0_1 tt v.
Proof using. intros H. unfold harq_0_1.wf in H. wf_facts. codec_record v. Qed.

Lemma harq_0_1_typed : typed harq_0_1.unpack_harq_0_1 harq_0_1.wf.
Proof using. unfold harq_0_1.unpack_harq_0_1, harq_0_1.wf. typed_record. Qed.
#[local] Hint Resolve harq_0_1_codec harq_0_1_typed : fapi.

Lemma uci_pusch_codec v : uci_pusch.wf v → codec (uci_pusch.pack_nr_uci_pusch v) uci_pusch.unpack_nr_uci_pusch tt v.
Proof using. intros H. unfold uci_pusch.wf in H. wf_facts. codec_record v. Qed.

Lemma uci_pusch_typed : typed uci_pusch.unpack_nr_uci_pusch uci_pusch.wf.
Proof using. unfold uci_pusch.unpack_nr_uci_pusch, uci_pusch.wf. typed_record. Qed.
#[local] Hint Resolve uci_pusch_codec uci_pusch_typed : fapi.

Lemma uci_0_1_codec v : uci_0_1.wf v → codec (uci_0_1.pack_nr_uci_pucch_0_1 v) uci_0_1.unpack_nr_uci_pucch_0_1 tt v.
Proof using. intros H. unfold uci_0_1.wf in H. wf_facts. codec_record v. Qed.

Lemma uci_0_1_typed : typed uci_0_1.unpack_nr_uci_pucch_0_1 uci_0_1.wf.
Proof using. unfold uci_0_1.unpack_nr_uci_pucch_0_1, uci_0_1.wf. typed_record. Qed.
#[local] Hint Resolve uci_0_1_codec uci_0_1_typed : fapi.

Lemma uci_2_3_4_codec v : uci_2_3_4.wf v → codec (uci_2_3_4.pack_nr_uci_pucch_2_3_4 v) uci_2_3_4.unpack_nr_uci_pucch_2_3_4 tt v.
Proof using. intros H. unfold uci_2_3_4.wf in H. wf_facts. codec_record v. Qed.

Lemma uci_2_3_4_typed : typed uci_2_3_4.unpack_nr_uci_pucch_2_3_4 uci_2_3_4.wf.
Proof using. unfold uci_2_3_4.unpack_nr_uci_pucch_2_3_4, uci_2_3_4.wf. typed_record. Qed.
#[local] Hint Resolve uci_2_3_4_codec uci_2_3_4_typed : fapi.

(** Packing refuses the types that unpacking only logs. *)
Definition known_uci (v : uci_pdu.nfapi_nr_uci_t) : Prop := v.(uci_pdu.pdu_type) <= NFAPI_NR_UCI_FORMAT_2_3_4_PDU_TYPE.

Lemma uci_pdu_codec v : uci_pdu.wf v ∧ known_uci v →
  codec (uci_pdu.pack_nr_uci_indication_body v) uci_pdu.unpack_nr_uci_indication_body tt v.
Proof using.
  intros [(Ht & Hs & Hp) Hk]. unfold uci_pdu.pack_nr_uci_indication_body, uci_pdu.unpack_nr_uci_indication_body. codec_steps.
  destruct v as [t z [p | p | p |]]; unfold known_uci in Hk; simpl in *; [destruct Hp as [-> Hp]; simpl; apply (codec_end _ _ (λ p, uci_pdu.mk _ z _)); eauto with fapi .. | lia].
Qed.

Lemma uci_pdu_typed : typed uci_pdu.unpack_nr_uci_indication_body uci_pdu.wf.
Proof using.
  unfold uci_pdu.unpack_nr_uci_indication_body, uci_pdu.wf. do 2 (eapply typed_bind; [solve [eauto with fapi] | intros ? ?]).
  unfold NFAPI_NR_UCI_PUSCH_PDU_TYPE, NFAPI_NR_UCI_FORMAT_0_1_PDU_TYPE, NFAPI_NR_UCI_FORMAT_2_3_4_PDU_TYPE.
  repeat match goal with |- typed (if ?a =? ?b then _ else _) _ => destruct (Z.eqb_spec a b) end; typed_steps; apply typed_ret; simpl;
    split; [done .. |]; split; [done .. |]; unfold is_u16 in *; lia.
Qed.
#[local] Hint Resolve uci_pdu_typed : fapi.

Lemma uci_codec v : uci.wf v → Forall known_uci v.(uci.uci_list) → codec (uci.pack_nr_uci_indication v) uci.unpack_nr_uci_indication tt v.
Proof using.
  intros H Hk. unfold uci.wf in H. wf_facts. codec_steps.
  eapply codec_bind; [eapply codec_for with (P := λ p, uci_pdu.wf p ∧ known_uci p); [done | done | by apply Forall_and | apply uci_pdu_codec] |].
  destruct v. apply codec_ret.
Qed.

Lemma uci_typed : typed uci.unpack_nr_uci_indication uci.wf.
Proof using. unfold uci.unpack_nr_uci_indication, uci.wf. typed_record. Qed.

(** ** SRS.indication *)

Lemma words_nonneg n : 0 <= srs_report.words n.
Proof using. unfold srs_report.words. apply Z.quot_pos; [| done]. by apply Z.mod_pos_bound. Qed.

Lemma report_typed n :
  typed (srs_report.unpack_nr_srs_report_tlv_value n) (λ l, Forall is_u32 l ∧ zlen l = srs_report.words n ∧ zlen l <= 16384).
Proof using.
  pose proof (words_nonneg n). eapply typed_impl; [apply typed_for, typed32 |]. intros l ?. wf_facts. split; [done | lia].
Qed.

Lemma report_codec l n : Forall is_u32 l → zlen l = srs_report.words n → zlen l <= 16384 →
  codec (wfor push32 (srs_report.words n) l) (srs_report.unpack_nr_srs_report_tlv_value n) tt l.
Proof using. intros Hl Hlen Hmax. eapply codec_for; [done | lia | exact Hl | apply codec32]. Qed.
#[local] Hint Resolve report_typed report_codec : fapi.

Lemma srs_report_codec v : srs_report.wf v → codec (srs_report.pack_nr_srs_report_tlv v) srs_report.unpack_nr_srs_report_tlv tt v.
Proof using. intros H. unfold srs_report.wf in H. wf_facts. codec_record v. Qed.

Lemma srs_report_typed : typed srs_report.unpack_nr_srs_report_tlv srs_report.wf.
Proof using. unfold srs_report.unpack_nr_srs_report_tlv, srs_report.wf. typed_record. Qed.
#[local] Hint Resolve srs_report_codec srs_report_typed : fapi.

Lemma srs_ind_pdu_codec v : srs_ind_pdu.wf v → codec (srs_ind_pdu.pack_nr_srs_indication_body v) srs_ind_pdu.unpack_nr_srs_indication_body tt v.
Proof using. intros H. unfold srs_ind_pdu.wf in H. wf_facts. codec_record v. Qed.

Lemma srs_ind_pdu_typed : typed srs_ind_pdu.unpack_nr_srs_indication_body srs_ind_pdu.wf.
Proof using. unfold srs_ind_pdu.unpack_nr_srs_indication_body, srs_ind_pdu.wf. typed_record. Qed.
#[local] Hint Resolve srs_ind_pdu_codec srs_ind_pdu_typed : fapi.

Lemma srs_ind_codec v : srs_ind.wf v → codec (srs_ind.pack_nr_srs_indication v) srs_ind.unpack_nr_srs_indication tt v.
Proof using. intros H. unfold srs_ind.wf in H. wf_facts. codec_record v. Qed.

Lemma srs_ind_typed : typed srs_ind.unpack_nr_srs_indication srs_ind.wf.
Proof using. unfold srs_ind.unpack_nr_srs_indication, srs_ind.wf. typed_record. Qed.
#[local] Hint Resolve srs_ind_codec srs_ind_typed : fapi.

(** ** RACH.indication *)

Lemma preamble_codec v : preamble.wf v → codec (preamble.pack_preamble v) preamble.unpack_preamble tt v.
Proof using. intros H. unfold preamble.wf in H. wf_facts. codec_record v. Qed.

Lemma preamble_typed : typed preamble.unpack_preamble preamble.wf.
Proof using. unfold preamble.unpack_preamble, preamble.wf. typed_record. Qed.
#[local] Hint Resolve preamble_codec preamble_typed : fapi.

Lemma rach_pdu_codec v : rach_pdu.wf v → codec (rach_pdu.pack_nr_rach_indication_body v) rach_pdu.unpack_nr_rach_indication_body tt v.
Proof using. intros H. unfold rach_pdu.wf in H. wf_facts. codec_record v. Qed.

Lemma rach_pdu_typed : typed rach_pdu.unpack_nr_rach_indication_body rach_pdu.wf.
Proof using. unfold rach_pdu.unpack_nr_rach_indication_body, rach_pdu.wf. typed_record. Qed.
#[local] Hint Resolve rach_pdu_codec rach_pdu_typed : fapi.

Lemma rach_codec v : rach.wf v → codec (rach.pack_nr_rach_indication v) rach.unpack_nr_rach_indication tt v.
Proof using. intros H. unfold rach.wf in H. wf_facts. codec_record v. Qed.

Lemma rach_typed : typed rach.unpack_nr_rach_indication rach.wf.
Proof using. unfold rach.unpack_nr_rach_indication, rach.wf. typed_record. Qed.
#[local] Hint Resolve rach_codec rach_typed : fapi.

End ind.
