(* ===== verification/FapiP7.v ===== *)
(** * nFAPI P7: messages

    [fapi_nr_p7_message_pack] and [fapi_nr_p7_message_unpack] of
    [nfapi/open-nFAPI/fapi/src/nr_fapi_p7.c] over the messages of [FapiDl.v], [FapiUl.v] and
    [FapiInd.v].  The pointers are not [NULL].  The sizes of the structures are the class
    [Sizeof]; vendor extensions are packed by the functions of the configuration, if it has
    any. *)

From S2P Require Import Prelude Fapi FapiDl FapiUl FapiInd.

Definition NFAPI_HEADER_LENGTH : Z := 8.
Definition NFAPI_NR_PHY_MSG_TYPE_DL_TTI_REQUEST : Z := 0x80.
Definition NFAPI_NR_PHY_MSG_TYPE_UL_TTI_REQUEST : Z := 0x81.
Definition NFAPI_NR_PHY_MSG_TYPE_SLOT_INDICATION : Z := 0x82.
Definition NFAPI_NR_PHY_MSG_TYPE_UL_DCI_REQUEST : Z := 0x83.
Definition NFAPI_NR_PHY_MSG_TYPE_TX_DATA_REQUEST : Z := 0x84.
Definition NFAPI_NR_PHY_MSG_TYPE_RX_DATA_INDICATION : Z := 0x85.
Definition NFAPI_NR_PHY_MSG_TYPE_CRC_INDICATION : Z := 0x86.
Definition NFAPI_NR_PHY_MSG_TYPE_UCI_INDICATION : Z := 0x87.
Definition NFAPI_NR_PHY_MSG_TYPE_SRS_INDICATION : Z := 0x88.
Definition NFAPI_NR_PHY_MSG_TYPE_RACH_INDICATION : Z := 0x89.
Definition NFAPI_VENDOR_EXT_MSG_MIN : Z := 0x300.
Definition NFAPI_VENDOR_EXT_MSG_MAX : Z := 0x3FF.

(** The structure behind the pointer to the header. *)
Inductive p7_body (V : Type) :=
| DL_TTI (v : dl_tti.nfapi_nr_dl_tti_request_t)
| UL_TTI (v : ul_tti.nfapi_nr_ul_tti_request_t)
| SLOT (v : slot_ind.nfapi_nr_slot_indication_scf_t)
| UL_DCI (v : ul_dci.nfapi_nr_ul_dci_request_t)
| TX_DATA (v : tx_data.nfapi_nr_tx_data_request_t)
| RX_DATA (v : rx_data.nfapi_nr_rx_data_indication_t)
| CRC (v : crc.nfapi_nr_crc_indication_t)
| UCI (v : uci.nfapi_nr_uci_indication_t)
| SRS (v : srs_ind.nfapi_nr_srs_indication_t)
| RACH (v : rach.nfapi_nr_rach_indication_t)
| VENDOR (v : V).
Arguments DL_TTI {V}.
Arguments UL_TTI {V}.
Arguments SLOT {V}.
Arguments UL_DCI {V}.
Arguments TX_DATA {V}.
Arguments RX_DATA {V}.
Arguments CRC {V}.
Arguments UCI {V}.
Arguments SRS {V}.
Arguments RACH {V}.
Arguments VENDOR {V}.

Record nfapi_nr_p7_message_header_t := {
  phy_id : Z; message_id : Z; message_length : Z; m_segment_sequence : Z; checksum : Z; transmit_timestamp : Z }.

(** [pMessageHeader->message_length = len]. *)
Definition set_message_length (h : nfapi_nr_p7_message_header_t) (len : Z) : nfapi_nr_p7_message_header_t :=
  {| phy_id := h.(phy_id); message_id := h.(message_id); message_length := len;
     m_segment_sequence := h.(m_segment_sequence); checksum := h.(checksum);
     transmit_timestamp := h.(transmit_timestamp) |}.

(** The vendor functions of [nfapi_p7_codec_config_t]; both may be [NULL].  They return what they
    packed or unpacked, and an [int]. *)
Record nfapi_p7_codec_config_t (V : Type) := {
  pack_p7_vendor_extension : option (V → Z → res (bytes * Z));
  unpack_p7_vendor_extension : option (bytes → res (V * Z)) }.
Arguments pack_p7_vendor_extension {V}.
Arguments unpack_p7_vendor_extension {V}.

(** [sizeof] of the message structures, by message id. *)
Class Sizeof := { sizeof_message : Z → Z }.

(** The value of the function for the ids of this codec. *)
Definition check_nr_fapi_unpack_length `{Sizeof} (msgId unpackedBufLen : Z) : Z :=
  if sizeof_message msgId <=? unpackedBufLen then sizeof_message msgId else 0.

Section p7.
Context `{BO : ByteOrder} {V : Type} (config : option (nfapi_p7_codec_config_t V)).

Definition vendor_id (id : Z) : bool := (NFAPI_VENDOR_EXT_MSG_MIN <=? id) && (id <=? NFAPI_VENDOR_EXT_MSG_MAX).

(** Returns the message as packing leaves it; the result of a vendor function is converted to
    [uint8_t]. *)
Definition fapi_nr_p7_message_body_pack (id : Z) (body : p7_body V) : wr (p7_body V) :=
  if id =? NFAPI_NR_PHY_MSG_TYPE_DL_TTI_REQUEST then
    match body with DL_TTI v => v' ⇒ dl_tti.pack_dl_tti_request v; wret (DL_TTI v') | _ => λ _, UB end
  else if id =? NFAPI_NR_PHY_MSG_TYPE_UL_TTI_REQUEST then
    match body with UL_TTI v => v' ⇒ ul_tti.pack_ul_tti_request v; wret (UL_TTI v') | _ => λ _, UB end
  else if id =? NFAPI_NR_PHY_MSG_TYPE_SLOT_INDICATION then
    match body with SLOT v => slot_ind.pack_nr_slot_indication v;; wret body | _ => λ _, UB end
  else if id =? NFAPI_NR_PHY_MSG_TYPE_UL_DCI_REQUEST then
    match body with UL_DCI v => v' ⇒ ul_dci.pack_ul_dci_request v; wret (UL_DCI v') | _ => λ _, UB end
  else if id =? NFAPI_NR_PHY_MSG_TYPE_TX_DATA_REQUEST then
    match body with TX_DATA v => tx_data.pack_tx_data_request v;; wret body | _ => λ _, UB end
  else if id =? NFAPI_NR_PHY_MSG_TYPE_RX_DATA_INDICATION then
    match body with RX_DATA v => rx_data.pack_nr_rx_data_indication v;; wret body | _ => λ _, UB end
  else if id =? NFAPI_NR_PHY_MSG_TYPE_CRC_INDICATION then
    match body with CRC v => crc.pack_nr_crc_indication v;; wret body | _ => λ _, UB end
  else if id =? NFAPI_NR_PHY_MSG_TYPE_UCI_INDICATION then
    match body with UCI v => uci.pack_nr_uci_indication v;; wret body | _ => λ _, UB end
  else if id =? NFAPI_NR_PHY_MSG_TYPE_SRS_INDICATION then
    match body with SRS v => srs_ind.pack_nr_srs_indication v;; wret body | _ => λ _, UB end
  else if id =? NFAPI_NR_PHY_MSG_TYPE_RACH_INDICATION then
    match body with RACH v => rach.pack_nr_rach_indication v;; wret body | _ => λ _, UB end
  else if vendor_id id then
    match config ≫= pack_p7_vendor_extension with
    | Some pack =>
        match body with
        | VENDOR v => λ room, x ← pack v room; Ok (if u8 x.2 =? 0 then None else Some (x.1, body))
        | _ => λ _, UB
        end
    | None => λ _, Ok None
    end
  else λ _, Ok None.

(** The buffer, of [packedBufLen] octets, up to the end of the message; the value returned; the
    header and the message after it. *)
Definition fapi_nr_p7_message_pack (header : nfapi_nr_p7_message_header_t) (body : p7_body V) (packedBufLen : Z)
  : res (option (bytes * Z * nfapi_nr_p7_message_header_t * p7_body V)) :=
  x ← fapi_nr_p7_message_body_pack header.(message_id) body (packedBufLen - 8);
  match x with
  | None => Exit
  | Some (l, body') =>
      y ← (push8 1;; push8 0;; push16 header.(message_id)) packedBufLen;
      match y with
      | None => Ok None
      | Some (h, _) =>
          let packedMsgLen := u32 (zlen l) in
          if packedBufLen <? packedMsgLen then Ok None
          else
            z ← push32 packedMsgLen (packedBufLen - 4);
            Ok (match z with
                | None => None
                | Some (f, _) =>
                    Some (h ++ f ++ l, packedMsgLen, set_message_length header packedMsgLen, body')
                end)
      end
  end.

(** [(message_id, message_length)]. *)
Definition fapi_nr_message_header_unpack (pMessageBuf : bytes) : res (option (Z * Z)) :=
  if zlen pMessageBuf <? NFAPI_HEADER_LENGTH then Ok None
  else
    x ← (num_msg ⇐ pull8; opaque_handle ⇐ pull8; id ⇐ pull16; len ⇐ pull32; rret (id, len)) pMessageBuf;
    Ok (option_map fst x).

(** A structure of [unpackedBufLen] octets is filled only if it can hold the message. *)
Definition checked `{Sizeof} {A} (id unpackedBufLen : Z) (r : rd A) : rd A :=
  if negb (check_nr_fapi_unpack_length id unpackedBufLen =? 0) then r else rfail.

Definition unpack_body `{Sizeof} (id unpackedBufLen : Z) : rd (p7_body V) :=
  if id =? NFAPI_NR_PHY_MSG_TYPE_DL_TTI_REQUEST then
    v ⇐ checked id unpackedBufLen dl_tti.unpack_dl_tti_request; rret (DL_TTI v)
  else if id =? NFAPI_NR_PHY_MSG_TYPE_UL_TTI_REQUEST then
    v ⇐ checked id unpackedBufLen ul_tti.unpack_ul_tti_request; rret (UL_TTI v)
  else if id =? NFAPI_NR_PHY_MSG_TYPE_SLOT_INDICATION then
    v ⇐ checked id unpackedBufLen slot_ind.unpack_nr_slot_indication; rret (SLOT v)
  else if id =? NFAPI_NR_PHY_MSG_TYPE_UL_DCI_REQUEST then
    v ⇐ checked id unpackedBufLen ul_dci.unpack_ul_dci_request; rret (UL_DCI v)
  else if id =? NFAPI_NR_PHY_MSG_TYPE_TX_DATA_REQUEST then
    v ⇐ checked id unpackedBufLen tx_data.unpack_tx_data_request; rret (TX_DATA v)
  else if id =? NFAPI_NR_PHY_MSG_TYPE_RX_DATA_INDICATION then
    v ⇐ checked id unpackedBufLen rx_data.unpack_nr_rx_data_indication; rret (RX_DATA v)
  else if id =? NFAPI_NR_PHY_MSG_TYPE_CRC_INDICATION then
    v ⇐ checked id unpackedBufLen crc.unpack_nr_crc_indication; rret (CRC v)
  else if id =? NFAPI_NR_PHY_MSG_TYPE_UCI_INDICATION then
    v ⇐ checked id unpackedBufLen uci.unpack_nr_uci_indication; rret (UCI v)
  else if id =? NFAPI_NR_PHY_MSG_TYPE_SRS_INDICATION then
    v ⇐ checked id unpackedBufLen srs_ind.unpack_nr_srs_indication; rret (SRS v)
  else if id =? NFAPI_NR_PHY_MSG_TYPE_RACH_INDICATION then
    v ⇐ checked id unpackedBufLen rach.unpack_nr_rach_indication; rret (RACH v)
  else if vendor_id id then
    match config ≫= unpack_p7_vendor_extension with
    | Some unpack => λ b, x ← unpack b; Ok (if x.2 =? 0 then None else Some (VENDOR x.1, []))
    | None => rfail
    end
  else rfail.

(** [(message_id, message_length, message)], or [None] for [false].  The message is read up to
    the end of the buffer; [sizeof(fapi_message_header_t)] is 8. *)
Definition fapi_nr_p7_message_unpack `{Sizeof} (pMessageBuf : bytes) (unpackedBufLen : Z) : res (option (Z * Z * p7_body V)) :=
  _ ← assert_that ((NFAPI_HEADER_LENGTH <=? zlen pMessageBuf) && (8 <=? unpackedBufLen));
  hdr ← fapi_nr_message_header_unpack (take 8 pMessageBuf);
  match hdr with
  | None => Ok None
  | Some (id, len) =>
      if zlen pMessageBuf <? len then Ok None
      else
        x ← unpack_body id unpackedBufLen (drop 8 pMessageBuf);
        Ok (match x with Some (body, _) => Some (id, len, body) | None => None end)
  end.

(** ** What the messages may hold *)

(** The structure is that of the message id, with its fields and arrays in their C ranges. *)
Definition wf_body (id : Z) (body : p7_body V) : Prop :=
  match body with
  | DL_TTI v => id = NFAPI_NR_PHY_MSG_TYPE_DL_TTI_REQUEST ∧ dl_tti.wf v
  | UL_TTI v => id = NFAPI_NR_PHY_MSG_TYPE_UL_TTI_REQUEST ∧ ul_tti.wf v
  | SLOT v => id = NFAPI_NR_PHY_MSG_TYPE_SLOT_INDICATION ∧ slot_ind.wf v
  | UL_DCI v => id = NFAPI_NR_PHY_MSG_TYPE_UL_DCI_REQUEST ∧ ul_dci.wf v
  | TX_DATA v => id = NFAPI_NR_PHY_MSG_TYPE_TX_DATA_REQUEST ∧ tx_data.wf v
  | RX_DATA v => id = NFAPI_NR_PHY_MSG_TYPE_RX_DATA_INDICATION ∧ rx_data.wf v
  | CRC v => id = NFAPI_NR_PHY_MSG_TYPE_CRC_INDICATION ∧ crc.wf v
  | UCI v => id = NFAPI_NR_PHY_MSG_TYPE_UCI_INDICATION ∧ uci.wf v
  | SRS v => id = NFAPI_NR_PHY_MSG_TYPE_SRS_INDICATION ∧ srs_ind.wf v
  | RACH v => id = NFAPI_NR_PHY_MSG_TYPE_RACH_INDICATION ∧ rach.wf v
  | VENDOR _ => vendor_id id = true
  end.

(** The message after packing: the sizes of the PDUs and the UL counts are set. *)
Definition same_body (b b' : p7_body V) : Prop :=
  match b, b' with
  | DL_TTI v, DL_TTI v' => dl_tti.same v v'
  | UL_TTI v, UL_TTI v' => ul_tti.same v v'
  | UL_DCI v, UL_DCI v' => ul_dci.same v v'
  | _, _ => b' = b
  end.
End p7.
