(* ===== verification/FapiProps.v ===== *)
(** * nFAPI P7: theorems

    Round trip of every message, the values unpacking can return, which messages are safe to
    unpack from any octets, and where the codec fails. *)

From S2P Require Import Prelude Fapi FapiCodec FapiDl FapiDlCodec FapiUl FapiUlCodec FapiInd FapiIndCodec FapiP7.

(** Unfolds the message ids. *)
Ltac ids :=
  unfold NFAPI_NR_PHY_MSG_TYPE_DL_TTI_REQUEST, NFAPI_NR_PHY_MSG_TYPE_UL_TTI_REQUEST, NFAPI_NR_PHY_MSG_TYPE_SLOT_INDICATION,
    NFAPI_NR_PHY_MSG_TYPE_UL_DCI_REQUEST, NFAPI_NR_PHY_MSG_TYPE_TX_DATA_REQUEST, NFAPI_NR_PHY_MSG_TYPE_RX_DATA_INDICATION,
    NFAPI_NR_PHY_MSG_TYPE_CRC_INDICATION, NFAPI_NR_PHY_MSG_TYPE_UCI_INDICATION, NFAPI_NR_PHY_MSG_TYPE_SRS_INDICATION,
    NFAPI_NR_PHY_MSG_TYPE_RACH_INDICATION in *.

Section messages.
Context `{BO : ByteOrder} {SZ : Sizeof} {V : Type} (config : option (nfapi_p7_codec_config_t V)).

(** What the message formats can carry: no UE in the groups of DL_TTI.request (they are packed as
    32-bit and unpacked as 8-bit fields), UCI PDUs of a known type; not a vendor extension. *)
Definition transportable (b : p7_body V) : Prop :=
  match b with
  | DL_TTI v => Forall no_ue v.(dl_tti.dl_tti_request_body).(dl_body.groups)
  | UCI v => Forall known_uci v.(uci.uci_list)
  | VENDOR _ => False
  | _ => True
  end.

Lemma checked_codec {A B} id len (w : wr A) (r : rd B) a b :
  0 < sizeof_message id <= len → codec w r a b → codec w (checked id len r) a b.
Proof using.
  intros Hs Hc. unfold checked, check_nr_fapi_unpack_length. decide_true (sizeof_message id <=? len).
  by decide_false (sizeof_message id =? 0).
Qed.

(** A message whose packing changes nothing. *)
Lemma message_codec {A} id len (w : wr unit) (r : rd A) (f : A → p7_body V) v :
  0 < sizeof_message id <= len → codec w r tt v →
  ∃ b', b' = f v ∧ codec (w;; wret (f v)) (x ⇐ checked id len r; rret (f x)) b' b'.
Proof using.
  intros Hs Hc. exists (f v). split; [done |]. eapply codec_bind; [by apply checked_codec |]. apply codec_ret.
Qed.

(** A message that packing completes. *)
Lemma message_codec_rel {A} id len (w : wr A) (r : rd A) (f : A → p7_body V) (R : A → Prop) :
  0 < sizeof_message id <= len → (∃ v', R v' ∧ codec w r v' v') →
  ∃ v', R v' ∧ codec (x ⇒ w; wret (f x)) (x ⇐ checked id len r; rret (f x)) (f v') (f v').
Proof using.
  intros Hs (v' & HR & Hc). exists v'. split; [done |]. eapply codec_bind; [by apply checked_codec |]. apply codec_ret.
Qed.

Lemma body_codec id len b :
  wf_body id b → transportable b → 0 < sizeof_message id <= len →
  ∃ b', same_body b b' ∧ codec (fapi_nr_p7_message_body_pack config id b) (unpack_body config id len) b' b'.
Proof using.
  intros Hwf Ht Hs. unfold fapi_nr_p7_message_body_pack, unpack_body.
  destruct b as [v | v | v | v | v | v | v | v | v | v | v]; simpl in Hwf, Ht; try done; destruct Hwf as [-> Hv]; cbn [same_body].
  - destruct (message_codec_rel _ len (dl_tti.pack_dl_tti_request v) dl_tti.unpack_dl_tti_request DL_TTI (dl_tti.same v) Hs)
      as (v' & ? & ?); [by apply dl_tti_codec | by exists (DL_TTI v')].
  - destruct (message_codec_rel _ len (ul_tti.pack_ul_tti_request v) ul_tti.unpack_ul_tti_request UL_TTI (ul_tti.same v) Hs)
      as (v' & ? & ?); [by apply ul_tti_codec | by exists (UL_TTI v')].
  - by apply (message_codec _ len _ _ SLOT), slot_ind_codec.
  - destruct (message_codec_rel _ len (ul_dci.pack_ul_dci_request v) ul_dci.unpack_ul_dci_request UL_DCI (ul_dci.same v) Hs)
      as (v' & ? & ?); [by apply ul_dci_codec | by exists (UL_DCI v')].
  - by apply (message_codec _ len _ _ TX_DATA), tx_data_codec.
  - by apply (message_codec _ len _ _ RX_DATA), rx_data_codec.
  - by apply (message_codec _ len _ _ CRC), crc_codec.
  - by apply (message_codec _ len _ _ UCI), uci_codec.
  - by apply (message_codec _ len _ _ SRS), srs_ind_codec.
  - by apply (message_codec _ len _ _ RACH), rach_codec.
Qed.

Lemma wf_body_id id (b : p7_body V) : wf_body id b → is_u16 id.
Proof using.
  destruct b; simpl; [intros [-> _]; done .. |]. unfold vendor_id, NFAPI_VENDOR_EXT_MSG_MIN, NFAPI_VENDOR_EXT_MSG_MAX, is_u16.
  intros H. apply andb_true_iff in H as [? ?]. lia.
Qed.

(** The header in front of a message of [n] octets. *)
Lemma header_codec id n : is_u16 id → is_u32 n →
  ∃ h f, zlen h = 4 ∧ zlen f = 4 ∧ encodes (push8 1;; push8 0;; push16 id) h tt ∧ encodes (push32 n) f tt ∧
    fapi_nr_message_header_unpack (h ++ f) = Ok (Some (id, n)).
Proof using.
  intros Hid Hn. destruct (field16 id Hid) as (b & Lb & Wb & Rb). destruct (field32 n Hn) as (f & Lf & Wf & Rf).
  destruct (codec8 1 ltac:(done)) as (b1 & W1 & R1). destruct (codec8 0 ltac:(done)) as (b0 & W0 & R0).
  assert (L1 : zlen b1 = 1). { specialize (W1 1 ltac:(done)). unfold push8 in W1. simpl in W1. destruct (zlen b1 <=? 1); by simplify_eq. }
  assert (L0 : zlen b0 = 1). { specialize (W0 1 ltac:(done)). unfold push8 in W0. simpl in W0. destruct (zlen b0 <=? 1); by simplify_eq. }
  exists (b1 ++ b0 ++ b), f. rewrite !zlen_app, L1, L0, Lb. split_and!; try done.
  - eapply encodes_bind; [exact W1 |]. by eapply encodes_bind.
  - unfold fapi_nr_message_header_unpack, NFAPI_HEADER_LENGTH. rewrite !zlen_app, L1, L0, Lb, Lf.
    assert (E : decodes (num_msg ⇐ pull8; opaque_handle ⇐ pull8; id ⇐ pull16; len ⇐ pull32; rret (id, len)) (b1 ++ b0 ++ b ++ f) (id, n)).
    { eapply decodes_bind; [exact R1 |]. eapply decodes_bind; [exact R0 |]. eapply decodes_bind; [exact Rb |].
      rewrite <- (app_nil_r f). eapply decodes_bind; [exact Rf | done]. }
    specialize (E []). rewrite app_nil_r in E. simpl Z.ltb. cbv iota. rewrite <- !app_assoc, E. done.
Qed.

(** C14: A well-formed P7 message is read back from what packing wrote. For every one of the ten
    messages, with fields in the ranges of their C types (24 bits for the BCH payload) and lists
    that have the length the code takes from their counts ([NumCb / 8 + 1] octets of CRC status
    among them) and fit their arrays, DCI payloads included, whose unused bits are zero in the
    big-endian variant, there is a length [n] such that packing into a buffer with room for the
    header and [n] octets returns [n] and a buffer from which unpacking, into a structure of
    sufficient size, returns the message as packing left it (the PDU sizes and the UL counts filled
    in, everything else unchanged); with less room packing stops at its assertion. Neither reads or
    writes outside an array. What is left out ([transportable], [wf_body]): UEs in the PDU groups of
    DL_TTI.request, which are not read back ([fapi_dl_groups_corrupted]); UCI PDUs of an unknown
    type; TX_DATA TLVs with another tag than the two that hold a value; v4 parameters in
    UL_DCI.request, which it does not carry; vendor extensions. *)
Theorem fapi_p7_roundtrip header (body : p7_body V) unpackedBufLen :
  wf_body header.(message_id) body → transportable body →
  0 < sizeof_message header.(message_id) <= unpackedBufLen → 8 <= unpackedBufLen →
  ∃ n body', same_body body body' ∧ ∀ packedBufLen, is_u32 packedBufLen → 8 <= packedBufLen →
    if n + 8 <=? packedBufLen then
      ∃ buf, zlen buf = n + 8 ∧
        fapi_nr_p7_message_pack config header body packedBufLen = Ok (Some (buf, n, set_message_length header n, body')) ∧
        fapi_nr_p7_message_unpack config buf unpackedBufLen = Ok (Some (header.(message_id), n, body'))
    else fapi_nr_p7_message_pack config header body packedBufLen = Exit.
Proof using.
  intros Hwf Ht Hs Hu. destruct (body_codec _ _ _ Hwf Ht Hs) as (b' & Hb' & l & Hw & Hr). pose proof (zlen_nonneg l) as Hl.
  exists (zlen l), b'. split; [done |]. intros len Hlen H8. unfold fapi_nr_p7_message_pack. rewrite Hw by lia.
  destruct (Z.leb_spec (zlen l + 8) len) as [Hfit |]; [| by decide_false (zlen l <=? len - 8)].
  decide_true (zlen l <=? len - 8). cbn [mbind res_bind].
  destruct (header_codec header.(message_id) (zlen l)) as (h & f & Lh & Lf & Wh & Wf & Rh);
    [by eapply wf_body_id | unfold is_u32 in *; lia |].
  assert (Hu32 : u32 (zlen l) = zlen l) by (apply Z.mod_small; unfold is_u32 in Hlen; lia).
  exists (h ++ f ++ l). rewrite Wh, Lh, Hu32 by lia. decide_true (4 <=? len). cbn [mbind res_bind]. decide_false (len <? zlen l).
  rewrite Wf, Lf by lia. decide_true (4 <=? len - 4). split; [rewrite !zlen_app, Lh, Lf; lia |]. split; [done |].
  unfold fapi_nr_p7_message_unpack, NFAPI_HEADER_LENGTH. rewrite !zlen_app, Lh, Lf.
  decide_true ((8 <=? 4 + (4 + zlen l)) && (8 <=? unpackedBufLen)). cbn [assert_that mbind res_bind].
  assert (Eh : h ++ f ++ l = (h ++ f) ++ l) by apply app_assoc. rewrite Eh.
  assert (L8 : length (h ++ f) = 8%nat) by (unfold zlen in *; rewrite length_app; lia).
  rewrite <- L8, take_app_length, drop_app_length, Rh. cbn [mbind res_bind]. decide_false (4 + (4 + zlen l) <? zlen l).
  specialize (Hr []). rewrite app_nil_r in Hr. by rewrite Hr.
Qed.

Lemma checked_typed {A} id len (r : rd A) P : typed r P → typed (checked id len r) P.
Proof using. intros H. unfold checked. destruct (negb _); [done | apply typed_fail]. Qed.

(** What unpacking may return: UL_TTI.request with the lists of code blocks that it took from the
    counts ([read_cb_octets]), any other message well-formed. *)
Definition unpacked_body (id : Z) (body : p7_body V) : Prop :=
  match body with
  | UL_TTI v => id = NFAPI_NR_PHY_MSG_TYPE_UL_TTI_REQUEST ∧ ul_tti.wf_cb read_cb_octets v
  | _ => wf_body id body
  end.

(** No PUSCH PDU with [n] code blocks or more. *)
Definition num_cbs_below (n : Z) (body : p7_body V) : Prop :=
  match body with UL_TTI v => Forall (ul_pdu.num_cb_below n) v.(ul_tti.pdus_list) | _ => True end.

Lemma unpacked_wf id body : unpacked_body id body → num_cbs_below 2041 body → wf_body id body.
Proof using.
  destruct body as [v | v | v | v | v | v | v | v | v | v | v]; simpl; try done.
  intros [? Hv] Hn. split; [done |]. by apply ul_tti_narrow.
Qed.

Lemma unpack_body_typed id len b body rest :
  Forall is_u8 b → unpack_body config id len b = Ok (Some (body, rest)) → unpacked_body id body.
Proof using.
  intros Hb. unfold unpack_body.
  assert (H : ∀ A (r : rd A) (f : A → p7_body V) P, typed r P → (∀ v, P v → unpacked_body id (f v)) →
    (v ⇐ checked id len r; rret (f v)) b = Ok (Some (body, rest)) → unpacked_body id body).
  { intros A r f P Hr Hf E. assert (Hty : typed (v ⇐ checked id len r; rret (f v)) (unpacked_body id)).
    { eapply typed_bind; [by apply checked_typed |]. intros v Hv. apply typed_ret. by apply Hf. }
    by apply (Hty _ _ _ Hb) in E as [? _]. }
  repeat match goal with |- (if ?a =? ?b then _ else _) _ = _ → _ => destruct (Z.eqb_spec a b) as [-> |]; [
    eapply H; [eauto using dl_tti_typed, ul_tti_typed, slot_ind_typed, ul_dci_typed, tx_data_typed, rx_data_typed, crc_typed,
      uci_typed, srs_ind_typed, rach_typed | done] |] end.
  destruct (vendor_id id) eqn:E; [| done]. destruct (config ≫= unpack_p7_vendor_extension) as [u |]; [| done].
  destruct (u b) as [[v r] | | |]; try done. cbn [mbind res_bind]. destruct (_ =? 0); [done |]. by intros [= <- <-].
Qed.

(** C24: What unpacking accepts. Whatever octets arrive, when unpacking returns a message, its
    length field does not exceed the buffer and it has the structure of its message id: every field
    is in the range of its C type, every list is as long as the code takes it to be from its count
    ([NumCb / 8 + 1] octets for the CRC status), every optional group is present exactly when its
    bit is set. For the code blocks of a PUSCH PDU the length is the number of octets that hold one
    bit per block, except with 2041 blocks or more: then the list has the length that
    [unpack_ul_tti_request_pusch_pdu] computes in a [uint8_t] ([read_cb_octets]), which is too
    short. (Counts that exceed the arrays they are read into are undefined behaviour and not
    results: see [fapi_beamforming_overflow], and [fapi_indications_safe] for messages without such
    counts.) *)
Theorem fapi_p7_unpack_typed buf unpackedBufLen id n body :
  Forall is_u8 buf → fapi_nr_p7_message_unpack config buf unpackedBufLen = Ok (Some (id, n, body)) →
  n <= zlen buf ∧ unpacked_body id body ∧ (num_cbs_below 2041 body → wf_body id body).
Proof using.
  intros Hb. unfold fapi_nr_p7_message_unpack. destruct (_ && _); [| done]. cbn [assert_that mbind res_bind].
  destruct (fapi_nr_message_header_unpack (take 8 buf)) as [[[i k] |] | | |]; try done. cbn [mbind res_bind].
  destruct (Z.ltb_spec (zlen buf) k); [done |].
  destruct (unpack_body config i unpackedBufLen (drop 8 buf)) as [[[b rest] |] | | |] eqn:E; try done.
  cbn [mbind res_bind]. intros [= <- <- <-]. split; [done |].
  assert (Hu : unpacked_body i b) by (eapply unpack_body_typed; [by apply Forall_drop | exact E]).
  split; [done |]. by apply unpacked_wf.
Qed.

(** A vendor function that reports success with 0, as its documentation in
    [nfapi_common_interface.h] asks, is taken for a failure: packing stops at its assertion. *)
Theorem fapi_vendor_success_aborts header v len pack l :
  vendor_id header.(message_id) = true → config ≫= pack_p7_vendor_extension = Some pack → pack v (len - 8) = Ok (l, 0) →
  fapi_nr_p7_message_pack config header (VENDOR v) len = Exit.
Proof using.
  intros Hv Hc Hp. assert (Hid : 0x300 <= header.(message_id)).
  { unfold vendor_id, NFAPI_VENDOR_EXT_MSG_MIN in Hv. apply andb_true_iff in Hv as [? _]. lia. }
  unfold fapi_nr_p7_message_pack, fapi_nr_p7_message_body_pack. ids. rewrite Hv, Hc.
  do 10 (match goal with |- context [message_id header =? ?k] => decide_false (message_id header =? k) end).
  rewrite Hp. done.
Qed.
End messages.

(** A DL_TTI.request with a PDCCH PDU that carries one DCI of 39 bits. *)
Definition sample_dci : dl_dci.nfapi_nr_dl_dci_pdu_t :=
  dl_dci.mk 0x1234 1 0 4 8 (tx_bf.mk 1 24 1 [tx_prg.mk 0 [7]]) 0 1 39 [0x11; 0x22; 0x33; 0x44; 0x55].
Definition sample_dl_tti : p7_body unit :=
  DL_TTI (dl_tti.mk 100 3 (dl_body.mk 1 0
    [dl_pdu.mk 0 0 (pdcch_pdu (pdcch.mk 48 0 1 0 0 2 [255; 0; 0; 0; 0; 0] 1 6 2 1 42 0 1 [sample_dci] (pdcch_v4.mk 1 [dci_ss.mk 0 3])))] [])).
Definition sample_header (id : Z) : nfapi_nr_p7_message_header_t :=
  {| phy_id := 0; message_id := id; message_length := 0; m_segment_sequence := 0; checksum := 0; transmit_timestamp := 0 |}.
#[local] Instance big_endian : ByteOrder := {| byte_ordering_big_endian := true |}.
#[local] Instance any_size : Sizeof := {| sizeof_message _ := 1000 |}.

(** Decides a concrete well-formedness. *)
Ltac wf_decide :=
  repeat match goal with
  | |- _ ∧ _ => split
  | |- Forall _ (_ :: _) => constructor
  | |- Forall _ [] => constructor
  | |- _ → _ => intro
  end; try done.

Lemma fapi_p7_roundtrip_witness :
  ∃ n body', same_body sample_dl_tti body' ∧ ∀ packedBufLen, is_u32 packedBufLen → 8 <= packedBufLen →
    if n + 8 <=? packedBufLen then
      ∃ buf, zlen buf = n + 8 ∧
        fapi_nr_p7_message_pack None (sample_header 0x80) sample_dl_tti packedBufLen =
          Ok (Some (buf, n, set_message_length (sample_header 0x80) n, body')) ∧
        fapi_nr_p7_message_unpack None buf 2000 = Ok (Some (0x80, n, body'))
    else fapi_nr_p7_message_pack None (sample_header 0x80) sample_dl_tti packedBufLen = Exit.
Proof.
  apply (fapi_p7_roundtrip None (sample_header 0x80) sample_dl_tti 2000); [| constructor | done | done].
  unfold wf_body, sample_dl_tti, dl_tti.wf, dl_pdu.wf, pdcch.wf, pdcch.wf_coreset, dl_dci.wf, tx_bf.wf, tx_prg.wf, dci_ss.wf,
    pdcch_v4.wf, wf_payload. do 3 (simpl; wf_decide); unfold dci_ss.wf; simpl; wf_decide.
Defined.

Lemma fapi_p7_unpack_typed_witness :
  let slot := SLOT (V := unit) (slot_ind.mk 0x0102 0x0304) in
  4 <= zlen [1; 0; 0x82; 0; 4; 0; 0; 0; 2; 1; 4; 3] ∧ unpacked_body 0x82 slot ∧ (num_cbs_below 2041 slot → wf_body 0x82 slot).
Proof. apply (fapi_p7_unpack_typed None [1; 0; 0x82; 0; 4; 0; 0; 0; 2; 1; 4; 3] 2000); [wf_decide | reflexivity]. Defined.

(** ** Safety of the indications *)

(** The reader stays within the arrays, whatever it reads. *)
Definition safe_reader {A} (r : rd A) : Prop := ∀ b, ∃ x, r b = Ok x.

Lemma safe_rret {A} (a : A) : safe_reader (rret a).
Proof. by eexists. Qed.

Lemma safe_rbind {A B} (r : rd A) (k : A → rd B) : safe_reader r → (∀ a, safe_reader (k a)) → safe_reader (rbind r k).
Proof. intros Hr Hk b. unfold rbind. destruct (Hr b) as [[[a b'] |] ->]; [apply Hk | by eexists]. Qed.

Lemma safe_rfor {A} (r : rd A) n : safe_reader r → safe_reader (rfor r n n).
Proof.
  intros Hr. unfold rfor. destruct (Z.leb_spec 0 n) as [Hn | Hn].
  - assert (H : ∀ k cap, Z.of_nat k <= cap → safe_reader (reach r cap k)); [| apply H; lia].
    induction k as [| k IH]; intros cap Hk; [apply safe_rret |]. cbn [reach]. decide_false (cap <=? 0) || (exfalso; lia).
    apply safe_rbind; [done |]. intros a. apply safe_rbind; [apply IH; lia |]. intros l. apply safe_rret.
  - replace (Z.to_nat n) with 0%nat by lia. apply safe_rret.
Qed.

Section safety.
Context `{BO : ByteOrder}.

Lemma safe_pull8 : safe_reader pull8.
Proof using. by intros [| ? ?]; eexists. Qed.

Lemma safe_pull16 : safe_reader pull16.
Proof using. by intros [| ? [| ? ?]]; eexists. Qed.

Lemma safe_pull32 : safe_reader pull32.
Proof using. by intros [| ? [| ? [| ? [| ? ?]]]]; eexists. Qed.

Lemma safe_array8 max n : safe_reader (pullarray8 max n).
Proof using.
  intros b. unfold pullarray8. destruct (n =? 0); [by eexists |]. destruct (max <? n); [by eexists |].
  destruct (n <=? zlen b); by eexists.
Qed.

Ltac safe_steps :=
  repeat (apply safe_rbind; [solve [eauto using safe_pull8, safe_pull16, safe_pull32, safe_array8] | intros ?]).

(** C25: The SLOT, RX_DATA and CRC indications are unpacked without a read or write out of bounds
    from any octets whatsoever: counts and lengths in the message only lead to [false]. *)
Theorem fapi_indications_safe b :
  (∃ x, slot_ind.unpack_nr_slot_indication b = Ok x) ∧
  (∃ x, rx_data.unpack_nr_rx_data_indication b = Ok x) ∧
  (∃ x, crc.unpack_nr_crc_indication b = Ok x).
Proof using.
  split; [| split]; revert b.
  - change (safe_reader slot_ind.unpack_nr_slot_indication). unfold slot_ind.unpack_nr_slot_indication. safe_steps. apply safe_rret.
  - change (safe_reader rx_data.unpack_nr_rx_data_indication). unfold rx_data.unpack_nr_rx_data_indication. safe_steps.
    apply safe_rbind; [| intros ?; apply safe_rret]. apply safe_rfor. unfold rx_data_pdu.unpack_nr_rx_data_indication_body.
    safe_steps. apply safe_rret.
  - change (safe_reader crc.unpack_nr_crc_indication). unfold crc.unpack_nr_crc_indication. safe_steps.
    apply safe_rbind; [| intros ?; apply safe_rret]. apply safe_rfor. unfold crc_pdu.unpack_nr_crc_indication_body. safe_steps.
    apply safe_rbind; [destruct (negb _); [apply safe_array8 | apply safe_rret] |]. intros ?. safe_steps. apply safe_rret.
Qed.

(** ** Counts the unpacking does not check *)

Lemma reach_pull16 cap n b :
  Z.of_nat n <= cap → 2 * Z.of_nat n <= zlen b → ∃ l rest, reach pull16 cap n b = Ok (Some (l, rest)).
Proof using.
  revert cap b. induction n as [| n IH]; intros cap b Hc Hb; [by eexists _, _ |]. cbn [reach].
  decide_false (cap <=? 0) || (exfalso; lia). destruct b as [| p0 [| p1 b]]; [rewrite ?zlen_cons, ?zlen_nil in Hb; lia .. |].
  rewrite !zlen_cons in Hb. destruct (IH (cap - 1) b) as (l & rest & E); [lia .. |].
  unfold rbind. cbn [pull16 mbind res_bind]. rewrite E. by eexists _, _.
Qed.

(** A precoding-and-beamforming structure with two or more PRGs, as FAPI allows, makes
    unpacking write past [prgs_list], which has [NFAPI_MAX_NUM_PRGS] = 1 element: the count of the
    message is not checked.  (Packing such a structure would read past it.) *)
Theorem fapi_beamforming_overflow num_prgs prg_size dig_bf_interfaces l rest :
  2 <= num_prgs < 65536 → is_u16 prg_size → 0 <= dig_bf_interfaces <= NFAPI_MAX_NUM_BG_IF →
  encodes (push16 num_prgs;; push16 prg_size;; push8 dig_bf_interfaces) l tt → 2 + 2 * dig_bf_interfaces <= zlen rest →
  tx_bf.unpack_nr_tx_beamforming_pdu (l ++ rest) = UB.
Proof using.
  intros Hn Hs Hd Hl Hrest. unfold NFAPI_MAX_NUM_BG_IF in Hd.
  destruct (codec16 num_prgs) as (b1 & W1 & R1); [unfold is_u16; lia |]. destruct (codec16 prg_size Hs) as (b2 & W2 & R2).
  destruct (codec8 dig_bf_interfaces) as (b3 & W3 & R3); [unfold is_u8; lia |].
  assert (E : encodes (push16 num_prgs;; push16 prg_size;; push8 dig_bf_interfaces) (b1 ++ b2 ++ b3) tt)
    by (eapply encodes_bind; [exact W1 |]; by eapply encodes_bind).
  destruct (encodes_inj _ _ _ _ _ Hl E) as [-> _]. clear E. unfold tx_bf.unpack_nr_tx_beamforming_pdu, rbind at 1 2 3. rewrite <- !app_assoc, R1. cbn [mbind res_bind].
  rewrite R2. cbn [mbind res_bind]. rewrite R3. cbn [mbind res_bind]. unfold rfor at 1.
  replace (Z.to_nat num_prgs) with (S (S (Z.to_nat (num_prgs - 2)))) by lia. cbn [reach NFAPI_MAX_NUM_PRGS Z.leb Z.compare Z.sub Z.add Z.opp].
  destruct rest as [| p0 [| p1 rest]]; [rewrite ?zlen_cons, ?zlen_nil in Hrest; lia .. |]. rewrite !zlen_cons in Hrest.
  destruct (reach_pull16 6 (Z.to_nat dig_bf_interfaces) rest) as (ds & rest' & E); [lia .. |].
  unfold rbind, rfor, NFAPI_MAX_NUM_BG_IF, NFAPI_MAX_NUM_PRGS. cbn [pull16 mbind res_bind]. rewrite E. done.
Qed.

Lemma encodes_octet x : is_u8 x → encodes (push8 x) [x] tt.
Proof using. intros Hx room Hr. unfold push8. rewrite u8_small by done. change (zlen [x]) with 1. by destruct (1 <=? room). Qed.

Lemma encodes_eq {A} (w : wr A) l l' a : encodes w l' a → l' = l → encodes w l a.
Proof using. by intros H <-. Qed.

(** A small value as four octets. *)
Lemma encodes_word x : is_u8 x → encodes (push32 x) (ordered [0; 0; 0; x]) tt.
Proof using.
  intros Hx room Hr. unfold push32.
  assert (Z.land x 0xFF = x) as -> by (change 0xFF with (Z.ones 8); rewrite Z.land_ones by done; by apply Z.mod_small).
  assert (G : ∀ k, 8 <= k → Z.shiftr (Z.land x (Z.shiftl (Z.ones 8) k)) k = 0).
  { intros k Hk. rewrite octet, Z.shiftr_div_pow2, Z.div_small by (unfold is_u8 in Hx; pose proof (Z.pow_le_mono_r 2 8 k); lia). done. }
  change 0xFF000000 with (Z.shiftl (Z.ones 8) 24). change 0xFF0000 with (Z.shiftl (Z.ones 8) 16).
  change 0xFF00 with (Z.shiftl (Z.ones 8) 8). rewrite !G by lia. replace (zlen (ordered [0; 0; 0; x])) with 4 by (unfold ordered; by destruct byte_ordering_big_endian).
  by destruct (4 <=? room).
Qed.

(** The groups of DL_TTI.request do not survive: a group of two UEs with non-zero PDU indices is
    packed as 32-bit fields and unpacked as 8-bit fields, so what is read back has other indices,
    and octets of the message are left over. *)
Theorem fapi_dl_groups_corrupted SFN Slot a b :
  is_u16 SFN → is_u16 Slot → is_u8 a → is_u8 b → b ≠ 0 →
  let v := dl_tti.mk SFN Slot (dl_body.mk 0 1 [] [dl_group.mk 2 [a; b]]) in
  dl_tti.wf v ∧
  ∃ l, encodes (dl_tti.pack_dl_tti_request v) l v ∧
    ∃ x rest, dl_tti.unpack_dl_tti_request l = Ok (Some (dl_tti.mk SFN Slot (dl_body.mk 0 1 [] [dl_group.mk 2 [x; 0]]), rest)) ∧
      zlen rest = 6.
Proof using.
  intros HF HS Ha Hb Hne v. split; [unfold dl_tti.wf; do 2 (simpl; unfold dl_group.wf; wf_decide) |].
  destruct (codec16 SFN HF) as (b1 & W1 & R1). destruct (codec16 Slot HS) as (b2 & W2 & R2).
  exists (b1 ++ b2 ++ 0 :: 1 :: 2 :: ordered [0; 0; 0; a] ++ ordered [0; 0; 0; b]). split.
  - eapply encodes_eq.
    + unfold dl_tti.pack_dl_tti_request, wfor. simpl weach.
      repeat first [exact W1 | exact W2 | by apply encodes_octet | by apply encodes_word | apply encodes_ret | eapply encodes_bind].
    + by rewrite !app_nil_r, <- ?app_assoc.
  - unfold dl_tti.unpack_dl_tti_request, rbind at 1 2. rewrite R1. cbn [mbind res_bind]. rewrite R2. cbn [mbind res_bind].
    unfold ordered. destruct byte_ordering_big_endian; cbn; by eexists _, _.
Qed.
End safety.

Lemma fapi_beamforming_overflow_witness : tx_bf.unpack_nr_tx_beamforming_pdu ([2; 0; 24; 0; 1] ++ [0; 0; 7; 0; 0; 0; 8; 0]) = UB.
Proof.
  apply (fapi_beamforming_overflow 2 24 1); [done .. | | done].
  apply (encodes_bind _ _ [2; 0] [24; 0; 1] tt); [| apply (encodes_bind _ _ [24; 0] [1] tt); [| by apply encodes_octet]];
    intros room Hr; unfold push16; match goal with |- context [zlen ?l] => change (zlen l) with 2 end; by destruct (2 <=? room).
Defined.

Lemma fapi_dl_groups_corrupted_witness :
  let v := dl_tti.mk 1 2 (dl_body.mk 0 1 [] [dl_group.mk 2 [3; 4]]) in
  dl_tti.wf v ∧
  ∃ l, encodes (dl_tti.pack_dl_tti_request v) l v ∧
    ∃ x rest, dl_tti.unpack_dl_tti_request l = Ok (Some (dl_tti.mk 1 2 (dl_body.mk 0 1 [] [dl_group.mk 2 [x; 0]]), rest)) ∧
      zlen rest = 6.
Proof. by apply (fapi_dl_groups_corrupted 1 2 3 4). Defined.
