(* ===== verification/Gf2.v ===== *)
(** * Polynomials over GF(2)

    A non-negative integer is the polynomial whose coefficients are its bits.  Addition is
    [Z.lxor], multiplication by a power of x is [Z.shiftl]; this file adds the carry-less
    product, degrees, and congruence modulo a polynomial, with the [Proper] instances that let
    the proofs on cyclic redundancy checks rewrite modulo the generator. *)

From Stdlib Require Import Btauto.
From S2P Require Import Prelude.

(** ** The product *)

Fixpoint pos_clmul (p : positive) (b : Z) : Z :=
  match p with
  | xH => b
  | xO p => Z.shiftl (pos_clmul p b) 1
  | xI p => Z.lxor b (Z.shiftl (pos_clmul p b) 1)
  end.
Definition clmul (a b : Z) : Z :=
  match a with
  | Zpos p => pos_clmul p b
  | _ => 0
  end.

(** Binary induction on the non-negative integers, the lowest bit last. *)
Lemma bin_ind (P : Z → Prop) :
  P 0 → (∀ (c : bool) a, 0 <= a → P a → P (Z.lxor (b2z c) (Z.shiftl a 1))) →
  ∀ a, 0 <= a → P a.
Proof.
  intros H0 HS a Ha. destruct a as [| p | p]; [done | | lia].
  induction p as [p IH | p IH |].
  - change (Zpos (xI p)) with (Z.lxor (b2z true) (Z.shiftl (Zpos p) 1)). apply HS; [lia | by apply IH].
  - change (Zpos (xO p)) with (Z.lxor (b2z false) (Z.shiftl (Zpos p) 1)). apply HS; [lia | by apply IH].
  - apply (HS true 0); [lia | done].
Qed.

Lemma clmul_step c a b :
  0 <= a → clmul (Z.lxor (b2z c) (Z.shiftl a 1)) b = Z.lxor (if c then b else 0) (Z.shiftl (clmul a b) 1).
Proof.
  intros Ha. destruct a as [| p | p]; [| | lia]; destruct c; simpl.
  - by rewrite Z.lxor_0_r.
  - done.
  - done.
  - done.
Qed.

Lemma clmul_0_l b : clmul 0 b = 0.
Proof. done. Qed.
Lemma clmul_1_l b : clmul 1 b = b.
Proof. done. Qed.

Ltac xor_bits :=
  apply Z.bits_inj'; intros ? ?;
  repeat first [rewrite Z.lxor_spec | rewrite Z.shiftl_spec by lia | rewrite Z.bits_0]; btauto.

Lemma lxor_step c d a b :
  Z.lxor (Z.lxor (b2z c) (Z.shiftl a 1)) (Z.lxor (b2z d) (Z.shiftl b 1)) =
  Z.lxor (b2z (xorb c d)) (Z.shiftl (Z.lxor a b) 1).
Proof.
  rewrite Z.shiftl_lxor. replace (b2z (xorb c d)) with (Z.lxor (b2z c) (b2z d)) by by destruct c, d.
  xor_bits.
Qed.

(** The lowest bit and the rest. *)
Lemma bin_split a : 0 <= a → ∃ c a', 0 <= a' ∧ a = Z.lxor (b2z c) (Z.shiftl a' 1).
Proof. revert a. apply bin_ind; [by exists false, 0 | intros c a Ha _; by exists c, a]. Qed.

Lemma clmul_lxor_l a a' b :
  0 <= a → 0 <= a' → clmul (Z.lxor a a') b = Z.lxor (clmul a b) (clmul a' b).
Proof.
  intros Ha. revert a Ha a'. refine (bin_ind _ _ _); [intros; by rewrite !Z.lxor_0_l |].
  intros c a Ha IH a2 Ha2. destruct (bin_split a2 Ha2) as (d & a' & Ha' & ->).
  rewrite lxor_step, !clmul_step, IH by (done || by apply Z.lxor_nonneg).
  rewrite Z.shiftl_lxor. destruct c, d; simpl; xor_bits.
Qed.

Lemma clmul_0_r a : clmul a 0 = 0.
Proof. destruct a as [| p | p]; [done | | done]. simpl. induction p as [p IH | p IH |]; simpl; [by rewrite IH .. | done]. Qed.

Lemma clmul_lxor_r a b b' : clmul a (Z.lxor b b') = Z.lxor (clmul a b) (clmul a b').
Proof.
  destruct a as [| p | p]; [done | | done]. simpl.
  induction p as [p IH | p IH |]; simpl; rewrite ?IH, ?Z.shiftl_lxor; [xor_bits | done ..].
Qed.

Lemma clmul_shiftl_r a b n : 0 <= n → clmul a (Z.shiftl b n) = Z.shiftl (clmul a b) n.
Proof.
  intros Hn. destruct a as [| p | p]; [by rewrite !clmul_0_l, Z.shiftl_0_l | | by rewrite Z.shiftl_0_l]. simpl.
  induction p as [p IH | p IH |]; simpl; [| | done];
    rewrite IH, ?Z.shiftl_lxor, !Z.shiftl_shiftl, (Z.add_comm n 1) by lia; done.
Qed.

Lemma clmul_shiftl_l a b n : 0 <= a → 0 <= n → clmul (Z.shiftl a n) b = Z.shiftl (clmul a b) n.
Proof.
  intros Ha. revert n. apply natlike_ind; [by rewrite !Z.shiftl_0_r |].
  intros n Hn IH. rewrite <- Z.add_1_r, <- !Z.shiftl_shiftl by lia.
  pose proof (clmul_step false (Z.shiftl a n) b) as E. simpl b2z in E.
  rewrite !Z.lxor_0_l in E. rewrite E by (by apply Z.shiftl_nonneg). by rewrite IH.
Qed.

Lemma clmul_nonneg a b : 0 <= b → 0 <= clmul a b.
Proof.
  intros Hb. destruct a as [| p | p]; [done | | done]. simpl.
  induction p as [p IH | p IH |]; simpl; [| by apply Z.shiftl_nonneg | done].
  apply Z.lxor_nonneg. split; intros; [by apply Z.shiftl_nonneg | done].
Qed.
#[export] Hint Resolve clmul_nonneg : oai.

Lemma shiftl_nonneg' a n : 0 <= a → 0 <= Z.shiftl a n.
Proof. by rewrite Z.shiftl_nonneg. Qed.
Lemma lxor_nonneg' a b : 0 <= a → 0 <= b → 0 <= Z.lxor a b.
Proof. intros. by apply Z.lxor_nonneg. Qed.
#[export] Hint Resolve shiftl_nonneg' lxor_nonneg' : oai.

Lemma clmul_assoc a b c : 0 <= a → 0 <= b → clmul (clmul a b) c = clmul a (clmul b c).
Proof.
  intros Ha Hb. revert a Ha. apply bin_ind; [done |]. intros d a Ha IH.
  rewrite !clmul_step, clmul_lxor_l, clmul_shiftl_l, IH by (destruct d; auto with oai lia).
  by destruct d.
Qed.

(** ** Degrees *)

Lemma log2_lxor_lt a b : 0 <= a → 0 < b → a = 0 ∨ Z.log2 a < Z.log2 b → 0 < Z.lxor a b ∧ Z.log2 (Z.lxor a b) = Z.log2 b.
Proof.
  intros Ha Hb H.
  assert (Hbit : ∀ m, Z.log2 b <= m → Z.testbit a m = false).
  { intros m Hm. destruct H as [-> | H]; [apply Z.bits_0 | apply Z.bits_above_log2; lia]. }
  assert (Hl : 0 <= Z.lxor a b) by (apply Z.lxor_nonneg; lia).
  assert (Ht : Z.testbit (Z.lxor a b) (Z.log2 b) = true).
  { by rewrite Z.lxor_spec, Hbit, Z.bit_log2 by lia. }
  split.
  - destruct (Z.eq_dec (Z.lxor a b) 0) as [E | E]; [| lia]. by rewrite E, Z.bits_0 in Ht.
  - apply Z.log2_bits_unique; [done |]. intros m Hm.
    by rewrite Z.lxor_spec, Hbit, Z.bits_above_log2 by lia.
Qed.

Lemma log2_double a : 0 < a → 0 < Z.shiftl a 1 ∧ Z.log2 (Z.shiftl a 1) = 1 + Z.log2 a.
Proof.
  intros Ha. rewrite Z.log2_shiftl by lia. split; [| lia].
  rewrite Z.shiftl_mul_pow2 by lia. lia.
Qed.

(** The degree of a product is the sum of the degrees. *)
Lemma clmul_degree a b :
  0 < a → 0 < b → 0 < clmul a b ∧ Z.log2 (clmul a b) = Z.log2 a + Z.log2 b.
Proof.
  intros Ha Hb. destruct a as [| p | p]; [lia | | lia]. simpl clmul. clear Ha.
  induction p as [p IH | p IH |]; simpl pos_clmul; [| | done].
  - destruct IH as [IH0 IH]. destruct (log2_double _ IH0) as [H0 H1].
    pose proof (Z.log2_nonneg (Zpos p)).
    destruct (log2_lxor_lt b (Z.shiftl (pos_clmul p b) 1)) as [G0 G1]; [lia | lia | right; lia |].
    split; [done |]. rewrite G1, H1, IH, (Pos2Z.inj_xI p), Z.log2_succ_double by lia. lia.
  - destruct IH as [IH0 IH]. destruct (log2_double _ IH0) as [H0 H1].
    split; [done |]. rewrite H1, IH, (Pos2Z.inj_xO p), Z.log2_double by lia. lia.
Qed.

Lemma clmul_bound a b m n :
  0 <= a < 2 ^ m → 0 <= b < 2 ^ n → 0 <= m → 0 <= n → 0 <= clmul a b < 2 ^ (m + n - 1) ∨ clmul a b = 0.
Proof.
  intros Ha Hb Hm Hn. destruct (Z.eq_dec a 0) as [-> | Ha0]; [by right |].
  destruct (Z.eq_dec b 0) as [-> | Hb0]; [right; apply clmul_0_r | left].
  destruct (clmul_degree a b) as [H0 H1]; [lia.. |]. split; [lia |].
  apply Z.log2_lt_pow2; [done |]. rewrite H1.
  pose proof (Z.log2_lt_pow2 a m). pose proof (Z.log2_lt_pow2 b n). lia.
Qed.

(** Multiplication by a power of x is a shift. *)
Lemma clmul_pow2 a n : 0 <= a → 0 <= n → clmul a (2 ^ n) = Z.shiftl a n.
Proof.
  intros Ha Hn. rewrite <- (Z.shiftl_1_l n), clmul_shiftl_r by done. f_equal.
  revert a Ha. apply bin_ind; [done |]. intros c a Ha IH. rewrite clmul_step, IH by done. by destruct c.
Qed.

(** ** Congruence modulo a polynomial *)

Section congruence.
Context (G : Z) (HG : 0 < G).

Definition multiple (z : Z) : Prop := ∃ q, 0 <= q ∧ z = clmul q G.
(** [a] and [b] leave the same remainder. *)
Definition cong (a b : Z) : Prop := multiple (Z.lxor a b).

Lemma multiple_0 : multiple 0.
Proof using. by exists 0. Qed.

Lemma multiple_lxor a b : multiple a → multiple b → multiple (Z.lxor a b).
Proof using.
  intros (q & Hq & ->) (r & Hr & ->). exists (Z.lxor q r).
  split; [auto with oai |]. by rewrite clmul_lxor_l.
Qed.

Lemma multiple_clmul a b : 0 <= a → multiple b → multiple (clmul a b).
Proof using HG.
  intros Ha (q & Hq & ->). exists (clmul a q). split; [auto with oai |]. by rewrite clmul_assoc.
Qed.

Lemma multiple_shiftl a n : 0 <= n → multiple a → multiple (Z.shiftl a n).
Proof using.
  intros Hn (q & Hq & ->). exists (Z.shiftl q n). split; [auto with oai |]. by rewrite clmul_shiftl_l.
Qed.

Lemma multiple_self : multiple G.
Proof using. by exists 1. Qed.

#[export] Instance cong_equiv : Equivalence cong.
Proof using.
  split.
  - intros a. unfold cong. rewrite Z.lxor_nilpotent. apply multiple_0.
  - intros a b. unfold cong. by rewrite Z.lxor_comm.
  - intros a b c H1 H2. unfold cong.
    replace (Z.lxor a c) with (Z.lxor (Z.lxor a b) (Z.lxor b c)) by xor_bits.
    by apply multiple_lxor.
Qed.

#[export] Instance cong_lxor : Proper (cong ==> cong ==> cong) Z.lxor.
Proof using.
  intros a a' H b b' H'. unfold cong.
  replace (Z.lxor (Z.lxor a b) (Z.lxor a' b')) with (Z.lxor (Z.lxor a a') (Z.lxor b b')) by xor_bits.
  by apply multiple_lxor.
Qed.

Lemma eq_cong a b : a = b → cong a b.
Proof using. by intros ->. Qed.

Lemma cong_shiftl a b n : 0 <= n → cong a b → cong (Z.shiftl a n) (Z.shiftl b n).
Proof using. intros Hn H. unfold cong. rewrite <- Z.shiftl_lxor. by apply multiple_shiftl. Qed.

Lemma cong_clmul_r k a b : 0 <= k → cong a b → cong (clmul k a) (clmul k b).
Proof using HG. intros Hk H. unfold cong. rewrite <- clmul_lxor_r. by apply multiple_clmul. Qed.

Lemma cong_multiple a b : cong a b → multiple b → multiple a.
Proof using.
  intros H1 H2. replace a with (Z.lxor (Z.lxor a b) b) by xor_bits. by apply multiple_lxor.
Qed.

Lemma cong_0 a : cong a 0 ↔ multiple a.
Proof using. unfold cong. by rewrite Z.lxor_0_r. Qed.

(** Below the degree of [G] there is one polynomial per class. *)
Lemma multiple_small a : 0 <= a < 2 ^ Z.log2 G → multiple a → a = 0.
Proof using HG.
  intros Ha (q & Hq & ->). destruct (Z.eq_dec q 0) as [-> | Hq0]; [done |].
  destruct (clmul_degree q G) as [H0 H1]; [lia.. |].
  pose proof (Z.log2_nonneg q) as Hl. pose proof (Z.log2_lt_pow2 (clmul q G) (Z.log2 G) H0) as Hp. lia.
Qed.

Lemma cong_small a b : 0 <= a < 2 ^ Z.log2 G → 0 <= b < 2 ^ Z.log2 G → cong a b → a = b.
Proof using HG.
  intros Ha Hb H. apply Z.lxor_eq. apply multiple_small; [| done].
  apply lxor_bound; [apply Z.log2_nonneg | done..].
Qed.

(** x is invertible modulo a polynomial with a constant term: an odd multiple stays one when a
    power of x is divided out. *)
Lemma multiple_unshift a n : Z.odd G = true → 0 <= a → 0 <= n → multiple (Z.shiftl a n) → multiple a.
Proof using HG.
  intros Hodd Ha. revert n. apply (natlike_ind (λ n, multiple (Z.shiftl a n) → multiple a)).
  { by rewrite Z.shiftl_0_r. }
  intros n Hn IH. rewrite <- Z.add_1_r, <- Z.shiftl_shiftl by lia. intros (q & Hq & E). apply IH.
  destruct (bin_split q Hq) as (c & q' & Hq' & ->). rewrite clmul_step in E by done.
  assert (c = false) as ->.
  { apply (f_equal (λ z, Z.testbit z 0)) in E. rewrite Z.lxor_spec, !Z.shiftl_spec_low in E by lia.
    destruct c; [| done]. by rewrite Z.bit0_odd, Hodd in E. }
  rewrite Z.lxor_0_l, !Z.shiftl_mul_pow2 in E by lia. exists q'. split; [done |].
  rewrite Z.shiftl_mul_pow2 by lia. lia.
Qed.
End congruence.

(** A common power of x in the two polynomials. *)
Lemma multiple_shiftl_both G a n : 0 <= n → multiple (Z.shiftl G n) (Z.shiftl a n) → multiple G a.
Proof.
  intros Hn (q & Hq & E). exists q. split; [done |]. rewrite clmul_shiftl_r in E by done.
  apply (f_equal (λ z, Z.shiftr z n)) in E. by rewrite !Z.shiftr_shiftl_l, !Z.sub_diag, !Z.shiftl_0_r in E by done.
Qed.
