(* ===== verification/Crc.v ===== *)
(** * The carry-less multiplication path of the CRCs

    Models [crc32_calc_pclmulqdq] of [openair1/PHY/CODING/crc.h] with the helpers of [crc.h],
    [crcext.h] and [types.h].  The 128-bit intrinsics (SIMDe, or the compiler's) are not part of
    the repository: they are the class [Simd], [SimdLaws] states their documented behaviour and
    [simd_model] is an instance.  A register is an integer below 2^128, the byte at the lowest
    address being the least significant one.

    Then: the cyclic redundancy checks of the transport channels.
    Models [openair1/PHY/CODING/crc_byte.c] and the length and type helpers of [coding_defs.h].
    [USE_INTEL_CRC] is the compile-time choice of the file, an argument here.  The tables are
    the static arrays that [crcTableInit] fills. *)

From S2P Require Import Prelude Gf2.

(** ** Registers and memory *)

Fixpoint le_int (bs : bytes) : Z :=
  match bs with
  | [] => 0
  | b :: bs => b + 256 * le_int bs
  end.
Definition reg_byte (a i : Z) : Z := Z.shiftr a (8 * i) mod 256.
(** The [n] bytes of [a], lowest first. *)
Definition le_bytes (n : nat) (a : Z) : bytes := map (λ i, reg_byte a (Z.of_nat i)) (seq 0 n).
Definition qword (a i : Z) : Z := Z.shiftr a (64 * i) mod 2 ^ 64.

Definition is_reg (a : Z) : Prop := 0 <= a < 2 ^ 128.
Definition is_bytes (bs : bytes) : Prop := Forall (λ b, 0 <= b < 256) bs.

(** ** The intrinsics *)

Class Simd := {
  mm_loadu_si128 : bytes → Z;
  mm_setzero_si128 : Z;
  mm_setr_epi32 : Z → Z → Z → Z → Z;
  mm_xor_si128 : Z → Z → Z;
  mm_or_si128 : Z → Z → Z;
  mm_slli_si128 : Z → Z → Z;
  mm_srli_si128 : Z → Z → Z;
  mm_shuffle_epi8 : Z → Z → Z;
  mm_insert_epi32 : Z → Z → Z → Z;
  mm_extract_epi32 : Z → Z → Z;
  mm_clmulepi64_si128 : Z → Z → Z → Z
}.

(** Byte [i] of a shuffle: the byte of [a] the mask names, or 0 when the mask's top bit is set. *)
Definition shuffled (a mask i : Z) : Z :=
  let m := reg_byte mask i in
  if Z.testbit m 7 then 0 else reg_byte a (m mod 16).

Class SimdLaws (S : Simd) : Prop := {
  loadu_ok bs : length bs = 16%nat → is_bytes bs → mm_loadu_si128 bs = le_int bs;
  setzero_ok : mm_setzero_si128 = 0;
  setr_ok e0 e1 e2 e3 :
    mm_setr_epi32 e0 e1 e2 e3 = le_int (le_bytes 4 e0 ++ le_bytes 4 e1 ++ le_bytes 4 e2 ++ le_bytes 4 e3);
  xor_ok a b : is_reg a → is_reg b → mm_xor_si128 a b = Z.lxor a b;
  or_ok a b : is_reg a → is_reg b → mm_or_si128 a b = Z.lor a b;
  slli_ok a n : is_reg a → 0 <= n <= 16 → mm_slli_si128 a n = Z.shiftl a (8 * n) mod 2 ^ 128;
  srli_ok a n : is_reg a → 0 <= n <= 16 → mm_srli_si128 a n = Z.shiftr a (8 * n);
  shuffle_ok a m : is_reg a → is_reg m →
    mm_shuffle_epi8 a m = le_int (map (λ i, shuffled a m (Z.of_nat i)) (seq 0 16));
  insert_ok a x : is_reg a → mm_insert_epi32 a x 0 = Z.lxor (Z.lxor a (a mod 2 ^ 32)) (x mod 2 ^ 32);
  extract_ok a : is_reg a → u32 (mm_extract_epi32 a 0) = u32 a;
  clmul_ok a b i j : is_reg a → is_reg b → (i = 0 ∨ i = 1) → (j = 0 ∨ j = 1) →
    mm_clmulepi64_si128 a b (i + 16 * j) = clmul (qword a i) (qword b j)
}.

#[export] Instance simd_model : Simd := {|
  mm_loadu_si128 := le_int;
  mm_setzero_si128 := 0;
  mm_setr_epi32 e0 e1 e2 e3 := le_int (le_bytes 4 e0 ++ le_bytes 4 e1 ++ le_bytes 4 e2 ++ le_bytes 4 e3);
  mm_xor_si128 := Z.lxor;
  mm_or_si128 := Z.lor;
  mm_slli_si128 a n := Z.shiftl a (8 * n) mod 2 ^ 128;
  mm_srli_si128 a n := Z.shiftr a (8 * n);
  mm_shuffle_epi8 a m := le_int (map (λ i, shuffled a m (Z.of_nat i)) (seq 0 16));
  mm_insert_epi32 a x i :=
    let old := Z.shiftl (Z.shiftr a (32 * i) mod 2 ^ 32) (32 * i) in
    Z.lxor (Z.lxor a old) (Z.shiftl (x mod 2 ^ 32) (32 * i));
  mm_extract_epi32 a i := Z.shiftr a (32 * i) mod 2 ^ 32;
  mm_clmulepi64_si128 a b imm := clmul (qword a (imm mod 2)) (qword b (imm / 16 mod 2))
|}.

#[export] Instance simd_model_laws : SimdLaws simd_model.
Proof.
  split; intros; simpl; try done.
  - rewrite Z.shiftr_0_r. unfold u32. by rewrite Zmod_mod.
  - rewrite <- (Z.mod_unique_pos (i + 16 * j) 2 (8 * j) i) by lia.
    by rewrite <- (Z.div_unique_pos (i + 16 * j) 16 j i), (Z.mod_small j 2) by lia.
Qed.

Section pclmul.
Context `{Simd}.

(** [loadu(p + off)] reads sixteen bytes, whatever the caller's idea of the length is. *)
Definition loadu (p : bytes) (off : Z) : res Z :=
  bs ← deref (slice p off 16); Ok (mm_loadu_si128 bs).

(** ** crcext.h *)

Definition crc_xmm_shift_tab : bytes :=
  replicate 16 0xff ++
  [0x00; 0x01; 0x02; 0x03; 0x04; 0x05; 0x06; 0x07; 0x08; 0x09; 0x0a; 0x0b; 0x0c; 0x0d; 0x0e; 0x0f] ++
  replicate 16 0xff.

Definition xmm_shift_right (reg num : Z) : res Z :=
  m ← loadu crc_xmm_shift_tab (16 + num); Ok (mm_shuffle_epi8 reg m).

Definition xmm_shift_left (reg num : Z) : res Z :=
  m ← loadu crc_xmm_shift_tab (16 - num); Ok (mm_shuffle_epi8 reg m).

Definition crc_xmm_be_le_swap128 : Z := mm_setr_epi32 0x0c0d0e0f 0x08090a0b 0x04050607 0x00010203.

(** ** types.h *)

Definition bswap4 (val : Z) : Z :=
  Z.lor (Z.lor (Z.lor (Z.shiftr val 24) (Z.shiftr (Z.land val 0xff0000) 8))
               (Z.shiftl (Z.land val 0xff00) 8)) (u32 (Z.shiftl val 24)).

(** ** crc.h *)

Record crc_pclmulqdq_ctx := mk_ctx {
  k1 : Z;
  k2 : Z;
  k3 : Z;
  q : Z;
  p : Z;
  ctx_res : Z
}.

(** Two consecutive 64-bit members of the context. *)
Definition load_pair (lo hi : Z) : Z := mm_loadu_si128 (le_bytes 8 lo ++ le_bytes 8 hi).

Definition crc32_folding_round (data_block k1_k2 fold : Z) : Z :=
  let tmp := mm_clmulepi64_si128 fold k1_k2 0x11 in
  mm_xor_si128 (mm_clmulepi64_si128 fold k1_k2 0x00) (mm_xor_si128 data_block tmp).

Definition crc32_reduce_128_to_64 (data128 k3_q : Z) : Z :=
  let tmp := mm_xor_si128 (mm_clmulepi64_si128 data128 k3_q 0x01) data128 in
  let data128 := mm_xor_si128 (mm_clmulepi64_si128 tmp k3_q 0x01) data128 in
  mm_srli_si128 (mm_slli_si128 data128 8) 8.

Definition crc32_reduce_64_to_32 (fold k3_q p_res : Z) : Z :=
  let temp := mm_clmulepi64_si128 (mm_srli_si128 fold 4) k3_q 0x10 in
  let temp := mm_srli_si128 (mm_xor_si128 temp fold) 4 in
  let temp := mm_clmulepi64_si128 temp p_res 0 in
  u32 (mm_extract_epi32 (mm_xor_si128 temp fold) 0).

(** The main folding loop, from offset [n]; returns the last [n] and the folded data. *)
Fixpoint folding_loop (fuel : nat) (data : bytes) (data_len k n fold : Z) : res (Z * Z) :=
  match fuel with
  | O => NoFuel
  | S fuel =>
      if n <? u32 (data_len - 16) then
        new_data ← loadu data n;
        let new_data := mm_shuffle_epi8 new_data crc_xmm_be_le_swap128 in
        folding_loop fuel data data_len k (u32 (n + 16)) (crc32_folding_round new_data k fold)
      else Ok (n, fold)
  end.

(** A block of at most sixteen bytes, the four zero bytes included. *)
Definition fold_short (data_len crc fold swap : Z) : res Z :=
  let fold := mm_shuffle_epi8 fold swap in
  f ← xmm_shift_right fold (u32 (20 - data_len));
  let fold := mm_slli_si128 f 4 in
  let temp := mm_insert_epi32 mm_setzero_si128 (bswap4 crc) 0 in
  temp ← xmm_shift_left temp (data_len - 4);
  Ok (mm_xor_si128 fold temp).

(** Two blocks of sixteen bytes or more. *)
Definition fold_long (data : bytes) (data_len crc fold swap : Z) (params : crc_pclmulqdq_ctx) : res Z :=
  let n := Z.land (u32 (- data_len)) 15 in
  let fold := mm_xor_si128 fold (mm_insert_epi32 mm_setzero_si128 crc 0) in
  let fold := mm_shuffle_epi8 fold swap in
  next_data ← loadu data 16;
  let next_data := mm_shuffle_epi8 next_data swap in
  nr ← xmm_shift_right next_data n;
  fl ← xmm_shift_left fold (16 - n);
  let next_data := mm_or_si128 nr fl in
  fold ← xmm_shift_right fold n;
  let next_data :=
    if data_len <=? 32 then mm_slli_si128 (mm_srli_si128 next_data 4) 4 else next_data in
  let k := load_pair (k1 params) (k2 params) in
  let fold := crc32_folding_round next_data k fold in
  if 32 <? data_len then
    '(n, fold) ← folding_loop (Z.to_nat data_len) data data_len k (16 + 16 - n) fold;
    new_data ← loadu data (n - 4);
    let new_data := mm_shuffle_epi8 new_data swap in
    let new_data := mm_slli_si128 new_data 4 in
    Ok (crc32_folding_round new_data k fold)
  else Ok fold.

Definition crc32_calc_pclmulqdq (data : bytes) (data_len crc : Z) (params : crc_pclmulqdq_ctx) : res Z :=
  if data_len =? 0 then Ok crc else
  let data_len := u32 (data_len + 4) in
  fold ← loadu data 0;
  let swap := crc_xmm_be_le_swap128 in
  fold ← (if data_len <=? 16 then fold_short data_len crc fold swap
          else fold_long data data_len crc fold swap params);
  let k := load_pair (k3 params) (q params) in
  let fold := crc32_reduce_128_to_64 fold k in
  Ok (crc32_reduce_64_to_32 fold k (load_pair (p params) (ctx_res params))).
End pclmul.

Definition lte_crc24a_pclmulqdq : crc_pclmulqdq_ctx :=
  mk_ctx 0x64e4d700 0x2c8c9d00 0xd9fe8c00 0xf845fe24 0x864cfb00 0.
Definition lte_crc24b_pclmulqdq : crc_pclmulqdq_ctx :=
  mk_ctx 0x80140500 0x42000100 0x90042100 0xffff83ff 0x80006300 0.

(** ** The cyclic redundancy checks of the transport channels *)

Definition poly24a : Z := 0x864cfb00.
Definition poly24b : Z := 0x80006300.
Definition poly24c : Z := 0xb2b11700.
Definition poly16 : Z := 0x10210000.
Definition poly12 : Z := 0x80F00000.
Definition poly8 : Z := 0x9B000000.
Definition poly6 : Z := 0x84000000.
Definition poly11 : Z := 0xc4200000.

(** ** The bit-by-bit implementation *)

(** One pass of the [for] loop: the registers [c] and [crc]. *)
Definition crcbit_step (poly : Z) (st : Z * Z) : Z * Z :=
  let '(c, crc) := st in
  let crc := if negb (Z.land (Z.shiftl 1 31) (Z.lxor c crc) =? 0)
             then Z.lxor (u32 (Z.shiftl crc 1)) poly
             else u32 (Z.shiftl crc 1) in
  (u32 (Z.shiftl c 1), crc).

Definition crcbit_octet (poly crc b : Z) : Z :=
  snd (Nat.iter 8 (crcbit_step poly) (Z.shiftl b 24, crc)).

(** [while (octetlen-- > 0)] over the octets at a pointer; what is left of them is returned. *)
Fixpoint octets (step : Z → Z → res Z) (octetlen : nat) (inptr : bytes) (crc : Z) : res (Z * bytes) :=
  match octetlen with
  | O => Ok (crc, inptr)
  | S octetlen =>
      match inptr with
      | [] => UB
      | b :: inptr => crc ← step crc b; octets step octetlen inptr crc
      end
  end.

Definition crcbit (inputptr : bytes) (octetlen poly : Z) : res Z :=
  '(crc, _) ← octets (λ crc b, Ok (crcbit_octet poly crc b)) (Z.to_nat octetlen) inputptr 0;
  Ok crc.

(** ** The tables *)

Record crc_tables := mk_tables {
  crc24aTable : list Z;
  crc24bTable : list Z;
  crc24cTable : list Z;
  crc16Table : list Z;
  crc12Table : list Z;
  crc11Table : list Z;
  crc8Table : list Z;
  crc6Table : list Z
}.

(** The [do ... while (++c)] loop for one table. *)
Definition fill_table (poly sh : Z) : res (list Z) :=
  foldr (λ c acc, l ← acc; e ← crcbit [c] 1 poly; Ok (Z.shiftr e sh :: l)) (Ok [])
    (map Z.of_nat (seq 0 256)).

Definition crcTableInit : res crc_tables :=
  t24a ← fill_table poly24a 0;
  t24b ← fill_table poly24b 0;
  t24c ← fill_table poly24c 0;
  t16 ← fill_table poly16 16;
  t12 ← fill_table poly12 16;
  t11 ← fill_table poly11 16;
  t8 ← fill_table poly8 24;
  t6 ← fill_table poly6 24;
  Ok (mk_tables t24a t24b t24c t16 t12 t11 t8 t6).

(** ** The table-driven implementations *)

(** An entry at its place in the 32-bit register. *)
Definition entry32 (table : list Z) (sh i : Z) : res Z :=
  e ← deref (znth table i); Ok (u32 (Z.shiftl e sh)).

Definition octet_step (table : list Z) (sh crc b : Z) : res Z :=
  e ← entry32 table sh (Z.lxor b (Z.shiftr crc 24));
  Ok (Z.lxor (u32 (Z.shiftl crc 8)) e).

(** [crc8] and [crc6] drop the shifted register. *)
Definition octet_step_short (table : list Z) (sh crc b : Z) : res Z :=
  entry32 table sh (Z.lxor b (Z.shiftr crc 24)).

(** The last [resbit] bits. *)
Definition last_bits (table : list Z) (sh resbit : Z) (st : Z * bytes) : res Z :=
  let '(crc, inptr) := st in
  if 0 <? resbit then
    b ← deref (head inptr);
    e ← entry32 table sh (Z.lxor (Z.shiftr b (8 - resbit)) (Z.shiftr crc (32 - resbit)));
    Ok (Z.lxor (u32 (Z.shiftl crc resbit)) e)
  else Ok crc.

Definition table_crc (step : Z → Z → res Z) (table : list Z) (sh : Z) (inptr : bytes) (bitlen : Z) : res Z :=
  let octetlen := Z.quot bitlen 8 in
  let resbit := Z.rem bitlen 8 in
  st ← octets step (Z.to_nat octetlen) inptr 0;
  last_bits table sh resbit st.

Section crcs.
Context `{Simd} (USE_INTEL_CRC : bool) (T : crc_tables).

Definition crc24a (inptr : bytes) (bitlen : Z) : res Z :=
  let octetlen := Z.quot bitlen 8 in
  if negb (Z.rem bitlen 8 =? 0) || negb USE_INTEL_CRC
  then table_crc (octet_step (crc24aTable T) 0) (crc24aTable T) 0 inptr bitlen
  else crc32_calc_pclmulqdq inptr (u32 octetlen) 0 lte_crc24a_pclmulqdq.

Definition crc24b (inptr : bytes) (bitlen : Z) : res Z :=
  let octetlen := Z.quot bitlen 8 in
  if negb (Z.rem bitlen 8 =? 0) || negb USE_INTEL_CRC
  then table_crc (octet_step (crc24bTable T) 0) (crc24bTable T) 0 inptr bitlen
  else crc32_calc_pclmulqdq inptr (u32 octetlen) 0 lte_crc24b_pclmulqdq.

Definition crc24c (inptr : bytes) (bitlen : Z) : res Z :=
  table_crc (octet_step (crc24cTable T) 0) (crc24cTable T) 0 inptr bitlen.

Definition crc16 (inptr : bytes) (bitlen : Z) : res Z :=
  table_crc (octet_step (crc16Table T) 16) (crc16Table T) 16 inptr bitlen.

Definition crc12 (inptr : bytes) (bitlen : Z) : res Z :=
  table_crc (octet_step (crc12Table T) 16) (crc12Table T) 16 inptr bitlen.

Definition crc11 (inptr : bytes) (bitlen : Z) : res Z :=
  table_crc (octet_step (crc11Table T) 16) (crc11Table T) 16 inptr bitlen.

Definition crc8 (inptr : bytes) (bitlen : Z) : res Z :=
  table_crc (octet_step_short (crc8Table T) 24) (crc8Table T) 24 inptr bitlen.

Definition crc6 (inptr : bytes) (bitlen : Z) : res Z :=
  table_crc (octet_step_short (crc6Table T) 24) (crc6Table T) 24 inptr bitlen.

(** ** Checking a received block *)

Definition CRC24_A : Z := 0.
Definition CRC24_B : Z := 1.
Definition CRC16 : Z := 2.
Definition CRC8 : Z := 3.

(** Conversion of an [unsigned int] to [int]. *)
Definition to_int (x : Z) : Z := if x <? 2 ^ 31 then x else x - 2 ^ 32.

(** [AssertFatal(1, ...)] of the default case does nothing: its condition holds. *)
Definition crc_len_of (crc_type : Z) : Z :=
  if (crc_type =? CRC24_A) || (crc_type =? CRC24_B) then 3
  else if crc_type =? CRC16 then 2
  else if crc_type =? CRC8 then 1
  else 0.

(** The received parity bits, most significant octet first. *)
Definition read_oldcrc (decoded_bytes : bytes) (n crc_len : Z) : res Z :=
  foldl (λ acc i,
    oldcrc ← acc;
    b ← deref (znth decoded_bytes (u32 (Z.shiftr n 3 - crc_len + i)));
    Ok (Z.lor oldcrc (Z.shiftl b (Z.shiftl (crc_len - 1 - i) 3))))
    (Ok 0) (seqZ 0 crc_len).

Definition check_crc (decoded_bytes : bytes) (n crc_type : Z) : res Z :=
  let crc_len := crc_len_of crc_type in
  oldcrc ← read_oldcrc decoded_bytes n crc_len;
  '(oldcrc, crc) ←
    (if crc_type =? CRC24_A then
       crc ← crc24a decoded_bytes (to_int (u32 (n - 24)));
       Ok (Z.land oldcrc 0x00ffffff, Z.shiftr crc 8)
     else if crc_type =? CRC24_B then
       crc ← crc24b decoded_bytes (to_int (u32 (n - 24)));
       Ok (Z.land oldcrc 0x00ffffff, Z.shiftr crc 8)
     else if crc_type =? CRC16 then
       crc ← crc16 decoded_bytes (to_int (u32 (n - 16)));
       Ok (Z.land oldcrc 0x0000ffff, Z.shiftr crc 16)
     else if crc_type =? CRC8 then
       crc ← crc8 decoded_bytes (to_int (u32 (n - 8)));
       Ok (Z.land oldcrc 0x000000ff, Z.shiftr crc 24)
     else Ok (oldcrc, 0));
  Ok (if crc =? oldcrc then 1 else 0).
End crcs.

(** ** Length and type of the check of a transport block *)

Definition NR_MAX_PDSCH_TBS : Z := 3824.

Definition lenWithCrc (nbSeg len : Z) : Z :=
  if 1 <? nbSeg then Z.quot (len + 24 + 24 * nbSeg) nbSeg
  else len + (if NR_MAX_PDSCH_TBS <? len then 24 else 16).

Definition crcType (nbSeg len : Z) : Z :=
  if 1 <? nbSeg then CRC24_B
  else if NR_MAX_PDSCH_TBS <? len then CRC24_A else CRC16.
