(* ===== verification/CrcFacts.v ===== *)
(** * The CRC implementations compute remainders

    The polynomial of a message, what one pass of each loop does modulo the generator, and the
    lemma on the table-driven functions from which the theorems of [CrcProps.v] follow.

    Then: the carry-less multiplication path computes the same remainder.
    The shuffles and byte shifts of [crc.h] as arithmetic, folding of sixteen bytes, and the
    two Barrett reductions, all modulo the generator of the context. *)

From S2P Require Import Prelude Gf2 Crc.

(** ** Messages as polynomials, the first bit being the highest coefficient *)

Definition shift_in (M b : Z) : Z := Z.lxor (Z.shiftl M 8) b.
Definition poly_of (bs : bytes) : Z := foldl shift_in 0 bs.
(** The first [bitlen] bits. *)
Definition message (p : bytes) (bitlen : Z) : Z :=
  Z.shiftr (poly_of (take (Z.to_nat ((bitlen + 7) / 8)) p)) ((- bitlen) mod 8).

Definition is_u32 (x : Z) : Prop := 0 <= x < 2 ^ 32.
(** The generator aligned to the 32-bit register, its highest term included. *)
Definition generator32 (poly : Z) : Z := Z.lxor (2 ^ 32) poly.

Lemma foldl_shift_in_nonneg bs M : is_bytes bs → 0 <= M → 0 <= foldl shift_in M bs.
Proof.
  intros Hb. revert M. induction Hb as [| b bs Hx Hb IH]; intros M HM; [done |].
  apply IH. unfold shift_in. auto with oai lia.
Qed.

Lemma poly_of_nonneg bs : is_bytes bs → 0 <= poly_of bs.
Proof. intros. by apply foldl_shift_in_nonneg. Qed.

Lemma poly_of_snoc bs b : poly_of (bs ++ [b]) = shift_in (poly_of bs) b.
Proof. unfold poly_of. by rewrite foldl_app. Qed.

Lemma is_bytes_take n bs : is_bytes bs → is_bytes (take n bs).
Proof. apply Forall_take. Qed.

(** ** Shifting the register *)

(** The bits a 32-bit shift loses. *)
Lemma u32_shiftl x n :
  is_u32 x → 0 <= n <= 32 → u32 (Z.shiftl x n) = Z.lxor (Z.shiftl x n) (Z.shiftl (Z.shiftr x (32 - n)) 32).
Proof.
  intros Hx Hn. apply Z.bits_inj'. intros k Hk. unfold u32.
  rewrite Z.lxor_spec, !Z.shiftl_spec by lia.
  destruct (Z.lt_ge_cases k 32).
  - rewrite Z.mod_pow2_bits_low, Z.shiftl_spec, (Z.testbit_neg_r _ (k - 32)) by lia. by rewrite xorb_false_r.
  - rewrite Z.mod_pow2_bits_high, Z.shiftr_spec by lia.
    replace (k - 32 + (32 - n)) with (k - n) by lia. by rewrite xorb_nilpotent.
Qed.

Lemma u32_is_u32 x : is_u32 (u32 x).
Proof. apply Z.mod_pos_bound. lia. Qed.
Lemma lxor_u32 x y : is_u32 x → is_u32 y → is_u32 (Z.lxor x y).
Proof. apply lxor_bound. lia. Qed.
#[export] Hint Resolve u32_is_u32 lxor_u32 : oai.

Lemma shiftr_bound x n m : 0 <= m <= n → 0 <= x < 2 ^ n → 0 <= Z.shiftr x (n - m) < 2 ^ m.
Proof.
  intros Hm Hx. rewrite Z.shiftr_div_pow2 by lia. split; [apply Z.div_pos; lia |].
  apply Z.div_lt_upper_bound; [lia |]. rewrite <- Z.pow_add_r by lia. replace (n - m + m) with n by lia. lia.
Qed.

Section remainder.
Context (poly : Z) (Hpoly : 0 <= poly < 2 ^ 32).
Abbreviation G := (generator32 poly).

Lemma generator32_log2 : 0 < G ∧ Z.log2 G = 32.
Proof using Hpoly.
  destruct (log2_lxor_lt poly (2 ^ 32)) as [H0 H1]; [lia | lia | |].
  - destruct (Z.eq_dec poly 0); [by left | right]. change (Z.log2 (2 ^ 32)) with 32.
    apply Z.log2_lt_pow2; lia.
  - unfold generator32. rewrite Z.lxor_comm, H1. done.
Qed.

Lemma generator32_pos : 0 < G.
Proof using Hpoly. apply generator32_log2. Qed.

(** Remainders are unique. *)
Lemma remainder_unique r s M : is_u32 r → is_u32 s → cong G r M → cong G s M → r = s.
Proof using Hpoly.
  intros Hr Hs H1 H2. destruct generator32_log2 as [H0 Hl].
  apply (cong_small G H0); [by rewrite Hl .. |]. by rewrite H1, H2.
Qed.

(** x^32 is the low part of the generator. *)
Lemma cong_x32 : cong G (2 ^ 32) poly.
Proof using. apply multiple_self. Qed.

(** One pass of the bit-by-bit loop multiplies the sum of its two registers by x. *)
Lemma crcbit_step_cong c crc c' crc' :
  is_u32 c → is_u32 crc → crcbit_step poly (c, crc) = (c', crc') →
  is_u32 c' ∧ is_u32 crc' ∧ c' = u32 (Z.shiftl c 1) ∧
  cong G (Z.lxor crc' c') (Z.shiftl (Z.lxor crc c) 1).
Proof using Hpoly.
  intros Hc Hcrc [= <- <-]. split_and!; [auto with oai | | done |].
  { destruct (negb _); [apply lxor_u32; [auto with oai | done] | auto with oai]. }
  set (t := Z.lxor crc c). assert (Ht : is_u32 t) by by apply lxor_u32.
  assert (E : Z.lxor (u32 (Z.shiftl crc 1)) (u32 (Z.shiftl c 1)) =
              Z.lxor (Z.shiftl t 1) (Z.shiftl (Z.shiftr t 31) 32)).
  { rewrite !u32_shiftl by (done || lia). unfold t. rewrite Z.shiftr_lxor, !Z.shiftl_lxor.
    change (32 - 1) with 31. xor_bits. }
  assert (Hb : Z.shiftr t 31 = 0 ∨ Z.shiftr t 31 = 1).
  { pose proof (shiftr_bound t 32 1 ltac:(lia) Ht) as Hs. change (32 - 1) with 31 in Hs. lia. }
  assert (Hland : Z.land (Z.shiftl 1 31) (Z.lxor c crc) = Z.shiftl (Z.shiftr t 31) 31).
  { rewrite Z.lxor_comm. fold t. apply Z.bits_inj'. intros n Hn.
    rewrite Z.land_spec, !Z.shiftl_spec by lia. destruct (Z.lt_trichotomy n 31) as [H | [-> | H]].
    - by rewrite !(Z.testbit_neg_r _ (n - 31)) by lia.
    - rewrite Z.shiftr_spec by lia. change (31 - 31 + 31) with 31. by rewrite andb_true_l.
    - rewrite Z.shiftr_spec by lia. replace (n - 31 + 31) with n by lia.
      by rewrite (bits_high t 32 n), andb_false_r by (exact Ht || lia). }
  rewrite Hland. destruct Hb as [Hb | Hb]; rewrite Hb in *; simpl negb; cbv iota.
  - rewrite E. by rewrite Z.shiftl_0_l, Z.lxor_0_r.
  - replace (Z.lxor (Z.lxor (u32 (Z.shiftl crc 1)) poly) (u32 (Z.shiftl c 1)))
      with (Z.lxor (Z.lxor (u32 (Z.shiftl crc 1)) (u32 (Z.shiftl c 1))) poly) by xor_bits.
    rewrite E. unfold cong. exists 1. split; [lia |]. rewrite clmul_1_l. unfold generator32.
    change (Z.shiftl 1 32) with (2 ^ 32). xor_bits.
Qed.

Lemma crcbit_iter_cong n c crc c' crc' :
  is_u32 c → is_u32 crc → Nat.iter n (crcbit_step poly) (c, crc) = (c', crc') →
  is_u32 c' ∧ is_u32 crc' ∧ c' = u32 (Z.shiftl c (Z.of_nat n)) ∧
  cong G (Z.lxor crc' c') (Z.shiftl (Z.lxor crc c) (Z.of_nat n)).
Proof using Hpoly.
  intros Hc Hcrc. revert c' crc'. induction n as [| n IH]; intros c' crc' E.
  - injection E as <- <-. rewrite !Z.shiftl_0_r. split_and!; [done | done | | done].
    unfold u32. symmetry. by apply Z.mod_small.
  - simpl in E. destruct (Nat.iter n _ _) as [c1 crc1].
    destruct (IH c1 crc1 eq_refl) as (H1 & H2 & -> & H4).
    apply crcbit_step_cong in E as (G1 & G2 & -> & G4); [| done ..].
    split_and!; [done | done | |].
    + unfold u32. rewrite !Z.shiftl_mul_pow2 by lia. rewrite Z.mul_mod_idemp_l by lia.
      rewrite Nat2Z.inj_succ, Z.pow_succ_r by lia. f_equal. lia.
    + rewrite G4. rewrite (cong_shiftl _ _ _ 1 ltac:(lia) H4).
      rewrite Z.shiftl_shiftl by lia. by replace (Z.of_nat n + 1) with (Z.of_nat (S n)) by lia.
Qed.

(** An octet of the message. *)
Lemma crcbit_octet_cong crc b :
  is_u32 crc → 0 <= b < 256 →
  is_u32 (crcbit_octet poly crc b) ∧
  cong G (crcbit_octet poly crc b) (Z.lxor (Z.shiftl crc 8) (Z.shiftl b 32)).
Proof using Hpoly.
  intros Hcrc Hb. unfold crcbit_octet.
  destruct (Nat.iter 8 (crcbit_step poly) (Z.shiftl b 24, crc)) as [c' crc'] eqn:E.
  assert (Hc : is_u32 (Z.shiftl b 24)) by (unfold is_u32; rewrite Z.shiftl_mul_pow2 by lia; lia).
  apply crcbit_iter_cong in E as (H1 & H2 & H3 & H4); [| done ..].
  assert (c' = 0) as ->.
  { rewrite H3, Z.shiftl_shiftl by lia. unfold u32. change (24 + Z.of_nat 8) with 32.
    rewrite Z.shiftl_mul_pow2 by lia. apply Z.mod_mul. lia. }
  split; [done |]. rewrite Z.lxor_0_r in H4. simpl snd. change (Z.of_nat 8) with 8 in H4.
  rewrite H4, Z.shiftl_lxor, Z.shiftl_shiftl by lia. done.
Qed.

(** ** Loops over the octets *)

Section steps.
Context (I : Z → Prop) (step : Z → Z → res Z).
Hypothesis HI : ∀ crc, I crc → is_u32 crc.
Hypothesis step_ok : ∀ crc b, I crc → 0 <= b < 256 →
  ∃ crc', step crc b = Ok crc' ∧ I crc' ∧ cong G crc' (Z.lxor (Z.shiftl crc 8) (Z.shiftl b 32)).

Lemma octets_ok n p crc M :
  (n <= length p)%nat → is_bytes p → I crc → cong G crc (Z.shiftl M 32) →
  ∃ crc', octets step n p crc = Ok (crc', drop n p) ∧ I crc' ∧
          cong G crc' (Z.shiftl (foldl shift_in M (take n p)) 32).
Proof using Hpoly HI step_ok.
  revert p crc M. induction n as [| n IH]; intros p crc M Hn Hp Hcrc HM.
  { exists crc. by rewrite drop_0, take_0. }
  destruct p as [| b p]; [simpl in Hn; lia |]. apply Forall_cons in Hp as [Hb Hp].
  destruct (step_ok crc b Hcrc Hb) as (crc1 & E1 & H1 & C1). simpl octets. rewrite E1.
  destruct (IH p crc1 (shift_in M b)) as (crc' & E & H & C); [simpl in Hn; lia | done | done | |].
  - rewrite C1. unfold shift_in. rewrite Z.shiftl_lxor.
    rewrite (cong_shiftl _ _ _ 8 ltac:(lia) HM), !Z.shiftl_shiftl, (Z.add_comm 32 8) by lia. done.
  - by exists crc'.
Qed.
End steps.
End remainder.

(** ** Tables *)

Definition table_ok (poly sh : Z) (table : list Z) : Prop :=
  ∀ i, 0 <= i < 256 → ∃ e, entry32 table sh i = Ok e ∧ is_u32 e ∧ e mod 2 ^ sh = 0 ∧
    cong (generator32 poly) e (Z.shiftl i 32).

Definition indices : list Z := map Z.of_nat (seq 0 256).

(** The register fits the table's narrower entries. *)
Definition fits (poly sh : Z) : bool := forallb (λ c, crcbit_octet poly 0 c mod 2 ^ sh =? 0) indices.

Lemma indices_lookup i : 0 <= i < 256 → indices !! Z.to_nat i = Some i.
Proof.
  intros Hi. unfold indices. rewrite list_lookup_fmap, lookup_seq_lt by lia. simpl. f_equal. lia.
Qed.

Lemma fill_table_eq poly sh :
  fill_table poly sh = Ok (map (λ c, Z.shiftr (crcbit_octet poly 0 c) sh) indices).
Proof.
  unfold fill_table. fold indices. induction indices as [| c l IH]; [done |].
  cbn [foldr]. rewrite IH. done.
Qed.

Lemma fill_table_ok poly sh :
  0 <= poly < 2 ^ 32 → 0 <= sh → fits poly sh = true →
  ∃ table, fill_table poly sh = Ok table ∧ table_ok poly sh table.
Proof.
  intros Hp Hsh Hf. eexists. split; [apply fill_table_eq |]. intros i Hi.
  destruct (crcbit_octet_cong poly Hp 0 i) as [Hr Hc]; [unfold is_u32; lia | done |].
  set (r := crcbit_octet poly 0 i) in *.
  assert (Hm : r mod 2 ^ sh = 0).
  { unfold fits in Hf. rewrite forallb_forall in Hf. apply Z.eqb_eq, Hf.
    apply list_elem_of_In, (list_elem_of_lookup_2 _ (Z.to_nat i)), indices_lookup. done. }
  assert (E : Z.shiftl (Z.shiftr r sh) sh = r).
  { rewrite Z.shiftl_mul_pow2, Z.shiftr_div_pow2 by done.
    pose proof (Z.div_mod r (2 ^ sh)). lia. }
  exists r. split_and!; [| done | done |].
  - unfold entry32. rewrite znth_lookup by lia. rewrite list_lookup_fmap, indices_lookup by done.
    simpl. fold r. rewrite E. f_equal. unfold u32. by apply Z.mod_small.
  - rewrite Hc. by rewrite Z.shiftl_0_l, Z.lxor_0_l.
Qed.

Record tables_ok (T : crc_tables) : Prop := {
  crc24a_ok : table_ok poly24a 0 (crc24aTable T);
  crc24b_ok : table_ok poly24b 0 (crc24bTable T);
  crc24c_ok : table_ok poly24c 0 (crc24cTable T);
  crc16_ok : table_ok poly16 16 (crc16Table T);
  crc12_ok : table_ok poly12 16 (crc12Table T);
  crc11_ok : table_ok poly11 16 (crc11Table T);
  crc8_ok : table_ok poly8 24 (crc8Table T);
  crc6_ok : table_ok poly6 24 (crc6Table T)
}.

Definition generators : list (Z * Z) :=
  [(poly24a, 0); (poly24b, 0); (poly24c, 0); (poly16, 16); (poly12, 16); (poly11, 16);
   (poly8, 24); (poly6, 24)].

Definition generator_ok (g : Z * Z) : bool :=
  (0 <=? fst g) && (fst g <? 2 ^ 32) && (0 <=? snd g) && fits (fst g) (snd g).

Lemma generators_ok : forallb generator_ok generators = true.
Proof. vm_compute. reflexivity. Qed.

Lemma generator_table poly sh :
  (poly, sh) ∈ generators → ∃ table, fill_table poly sh = Ok table ∧ table_ok poly sh table.
Proof.
  intros H. pose proof generators_ok as Hf. rewrite forallb_forall in Hf.
  apply list_elem_of_In, Hf in H. unfold generator_ok, fst, snd in H.
  apply andb_prop in H as [H H4]. apply andb_prop in H as [H H3]. apply andb_prop in H as [H1 H2].
  apply Z.leb_le in H1, H3. apply Z.ltb_lt in H2.
  apply fill_table_ok; [split; assumption | assumption | assumption].
Qed.

Lemma crcTableInit_ok : ∃ T, crcTableInit = Ok T ∧ tables_ok T.
Proof.
  unfold crcTableInit.
  repeat match goal with
  | |- context [fill_table ?p ?sh] =>
      let t := fresh "t" in let E := fresh "E" in
      destruct (generator_table p sh) as (t & E & ?);
        [unfold generators; set_solver | rewrite E; cbn [mbind res_bind]; clear E]
  end.
  eexists. split; [reflexivity | split; assumption].
Qed.

(** ** The table-driven functions *)

Section table_driven.
Context (poly : Z) (Hpoly : 0 <= poly < 2 ^ 32) (sh : Z) (table : list Z).
Hypothesis Htable : table_ok poly sh table.
Hypothesis Hsh : 0 <= sh <= 24.
Abbreviation G := (generator32 poly).

(** Taking [n] bits [h] into the register through the table. *)
Lemma entry_shift crc n h :
  is_u32 crc → 0 < n <= 8 → 0 <= h < 2 ^ n →
  ∃ e, entry32 table sh (Z.lxor h (Z.shiftr crc (32 - n))) = Ok e ∧ is_u32 e ∧ e mod 2 ^ sh = 0 ∧
       cong G (Z.lxor (u32 (Z.shiftl crc n)) e) (Z.lxor (Z.shiftl crc n) (Z.shiftl h 32)).
Proof using Htable.
  intros Hcrc Hn Hh. set (hi := Z.shiftr crc (32 - n)).
  assert (Hhi : 0 <= hi < 2 ^ n) by (apply shiftr_bound; [lia | exact Hcrc]).
  assert (Hx : 0 <= Z.lxor h hi < 2 ^ n) by (apply lxor_bound; lia).
  assert (Hp : 2 ^ n <= 2 ^ 8) by (apply Z.pow_le_mono_r; lia).
  destruct (Htable (Z.lxor h hi)) as (e & E & He & Hm & Hc); [lia |].
  exists e. split_and!; [done.. |]. rewrite Hc, u32_shiftl by (done || lia). fold hi.
  rewrite Z.shiftl_lxor.
  replace (Z.lxor (Z.lxor (Z.shiftl crc n) (Z.shiftl hi 32)) (Z.lxor (Z.shiftl h 32) (Z.shiftl hi 32)))
    with (Z.lxor (Z.shiftl crc n) (Z.shiftl h 32)) by xor_bits. done.
Qed.

Lemma octet_step_ok crc b :
  is_u32 crc → 0 <= b < 256 →
  ∃ crc', octet_step table sh crc b = Ok crc' ∧ is_u32 crc' ∧
          cong G crc' (Z.lxor (Z.shiftl crc 8) (Z.shiftl b 32)).
Proof using Htable.
  intros Hcrc Hb. destruct (entry_shift crc 8 b) as (e & E & He & Hm & Hc); [done | lia | lia |].
  unfold octet_step. change (32 - 8) with 24 in E. rewrite E. eexists. split_and!; [done | auto with oai | done].
Qed.

(** The last bits of a message whose octets are in [p0]. *)
Lemma last_bits_ok crc p M resbit :
  is_u32 crc → cong G crc (Z.shiftl M 32) → 0 <= resbit < 8 → is_bytes p → (0 < resbit → p ≠ []) →
  ∃ r, last_bits table sh resbit (crc, p) = Ok r ∧ is_u32 r ∧
       cong G r (Z.shiftl (Z.shiftr (foldl shift_in M (take (if 0 <? resbit then 1 else 0) p)) ((- resbit) mod 8)) 32).
Proof using Htable.
  intros Hcrc HM Hr Hp Hne. unfold last_bits. destruct (Z.ltb_spec 0 resbit) as [H | H].
  - destruct p as [| b p]; [by destruct Hne |]. apply Forall_cons in Hp as [Hb Hp]. simpl.
    replace ((- resbit) mod 8) with (8 - resbit) by (apply Z.mod_unique_pos with (-1); lia).
    destruct (entry_shift crc resbit (Z.shiftr b (8 - resbit))) as (e & E & He & Hm & Hc); [done | lia | |].
    { apply shiftr_bound; lia. }
    rewrite E. eexists. split_and!; [done | apply lxor_u32; auto with oai |].
    rewrite Hc, (cong_shiftl _ _ _ resbit ltac:(lia) HM), Z.shiftl_shiftl by lia.
    unfold shift_in. rewrite Z.shiftr_lxor, Z.shiftl_lxor, (Z.shiftr_shiftl_l M) by lia.
    replace (8 - (8 - resbit)) with resbit by lia. by rewrite Z.shiftl_shiftl, (Z.add_comm 32) by lia.
  - replace resbit with 0 by lia. exists crc. rewrite take_0, Z.shiftr_0_r. done.
Qed.

(** Any of the functions, given that its octet step is right on the registers of [I]. *)
Lemma table_crc_ok (I : Z → Prop) step p bitlen :
  I 0 → (∀ crc, I crc → is_u32 crc) →
  (∀ crc b, I crc → 0 <= b < 256 →
    ∃ crc', step crc b = Ok crc' ∧ I crc' ∧ cong G crc' (Z.lxor (Z.shiftl crc 8) (Z.shiftl b 32))) →
  is_bytes p → 0 <= bitlen <= 8 * zlen p →
  ∃ r, table_crc step table sh p bitlen = Ok r ∧ is_u32 r ∧ cong G r (Z.shiftl (message p bitlen) 32).
Proof using Hpoly Htable.
  intros HI0 HI Hstep Hp Hlen. unfold table_crc, zlen in *.
  rewrite Z.quot_div_nonneg, Z.rem_mod_nonneg by lia.
  set (n := Z.to_nat (bitlen / 8)).
  assert (Hn : (n <= length p)%nat) by (unfold n; Z.div_mod_to_equations; lia).
  destruct (octets_ok poly Hpoly I step HI Hstep n p 0 0) as (crc & E & Hcrc & C);
    [done | done | done | by rewrite Z.shiftl_0_l |].
  rewrite E. cbn [mbind res_bind]. apply HI in Hcrc.
  destruct (last_bits_ok crc (drop n p) (foldl shift_in 0 (take n p)) (bitlen mod 8)) as (r & Er & Hr & Cr);
    [done | done | apply Z.mod_pos_bound; lia | by apply Forall_drop | |].
  { intros Hpos Hnil. apply (f_equal length) in Hnil. rewrite length_drop in Hnil. simpl in Hnil.
    unfold n in *. Z.div_mod_to_equations. lia. }
  exists r. split_and!; [done | done |]. rewrite Cr, <- foldl_app, take_take_drop. unfold message, poly_of.
  replace (n + (if (0 <? bitlen mod 8)%Z then 1 else 0))%nat with (Z.to_nat ((bitlen + 7) / 8)).
  2:{ unfold n. bool_prop; Z.div_mod_to_equations; lia. }
  replace ((- (bitlen mod 8)) mod 8) with ((- bitlen) mod 8); [done |].
  Z.div_mod_to_equations. lia.
Qed.
End table_driven.

(** ** The carry-less multiplication path computes the same remainder *)

(** ** Bytes of a register *)

Lemma le_int_range bs : is_bytes bs → 0 <= le_int bs < 2 ^ (8 * zlen bs).
Proof.
  induction 1 as [| b bs Hb Hbs IH]; [done |]. cbn [le_int]. rewrite zlen_cons.
  rewrite Z.mul_add_distr_l, Z.pow_add_r by (pose proof (zlen_nonneg bs); lia). lia.
Qed.

Lemma reg_byte_range a i : 0 <= reg_byte a i < 256.
Proof. apply Z.mod_pos_bound. lia. Qed.

Lemma reg_byte_cons b a i :
  0 <= b < 256 → reg_byte (b + 256 * a) (Z.of_nat i) = match i with O => b | S i => reg_byte a (Z.of_nat i) end.
Proof.
  intros Hb. unfold reg_byte. destruct i as [| i].
  - rewrite Z.shiftr_0_r. symmetry. apply Z.mod_unique_pos with a; lia.
  - f_equal. rewrite Nat2Z.inj_succ, !Z.shiftr_div_pow2 by lia.
    rewrite Z.mul_succ_r, (Z.add_comm _ 8), Z.pow_add_r by lia. rewrite <- Z.div_div by lia.
    f_equal. symmetry. apply Z.div_unique_pos with b; lia.
Qed.

Lemma reg_byte_le_int bs i : is_bytes bs → reg_byte (le_int bs) (Z.of_nat i) = nth i bs 0.
Proof.
  intros H. revert i. induction H as [| b bs Hb Hbs IH]; intros i.
  - unfold reg_byte. simpl. rewrite Z.shiftr_0_l. by destruct i.
  - cbn [le_int]. rewrite reg_byte_cons by done. destruct i; [done | apply IH].
Qed.

Lemma le_bytes_S n a : le_bytes (S n) a = a mod 256 :: le_bytes n (Z.shiftr a 8).
Proof.
  unfold le_bytes. cbn [seq map]. f_equal.
  rewrite <- seq_shift, map_map. apply map_ext. intros i. unfold reg_byte.
  rewrite Z.shiftr_shiftr by lia. do 2 f_equal. lia.
Qed.

Lemma le_int_le_bytes n a : 0 <= a < 2 ^ (8 * Z.of_nat n) → le_int (le_bytes n a) = a.
Proof.
  revert a. induction n as [| n IH]; intros a Ha; [simpl in *; lia |].
  rewrite le_bytes_S. cbn [le_int]. rewrite Z.shiftr_div_pow2 by lia. change (2 ^ 8) with 256.
  rewrite IH; [pose proof (Z.div_mod a 256); lia |].
  rewrite Nat2Z.inj_succ, Z.mul_succ_r, Z.pow_add_r in Ha by lia.
  split; [apply Z.div_pos; lia | apply Z.div_lt_upper_bound; lia].
Qed.

Lemma is_bytes_map (f : nat → Z) l : (∀ i, 0 <= f i < 256) → is_bytes (map f l).
Proof. intros Hf. apply Forall_fmap, Forall_true. intros i. apply Hf. Qed.

Lemma is_reg_le_int bs : is_bytes bs → length bs = 16%nat → is_reg (le_int bs).
Proof. intros Hb Hl. pose proof (le_int_range bs Hb) as H. unfold zlen in H. rewrite Hl in H. exact H. Qed.

Lemma le_bytes_is_bytes n a : is_bytes (le_bytes n a).
Proof. apply is_bytes_map. intros i. apply reg_byte_range. Qed.

Lemma le_bytes_length n a : length (le_bytes n a) = n.
Proof. unfold le_bytes. by rewrite length_map, length_seq. Qed.

(** The bytes of a register read backwards are a message. *)
Lemma shift_in_add M b : 0 <= M → 0 <= b < 256 → shift_in M b = 256 * M + b.
Proof.
  intros HM Hb. unfold shift_in. rewrite <- Z.add_nocarry_lxor.
  - rewrite Z.shiftl_mul_pow2 by lia. lia.
  - apply Z.bits_inj'. intros n Hn. rewrite Z.land_spec, Z.bits_0, Z.shiftl_spec by done.
    destruct (Z.lt_ge_cases n 8); [by rewrite Z.testbit_neg_r by lia |].
    rewrite (bits_high b 8 n), andb_false_r by lia. done.
Qed.

Lemma le_int_rev bs : is_bytes bs → le_int (rev bs) = poly_of bs.
Proof.
  induction bs as [| b bs IH] using rev_ind; [done |].
  intros [Hbs [Hb _]%Forall_cons]%Forall_app.
  rewrite rev_app_distr, poly_of_snoc, shift_in_add by (done || by apply poly_of_nonneg).
  simpl. rewrite IH by done. lia.
Qed.

Lemma poly_of_bound bs : is_bytes bs → 0 <= poly_of bs < 2 ^ (8 * zlen bs).
Proof.
  intros H. rewrite <- le_int_rev by done. replace (zlen bs) with (zlen (rev bs)) by (unfold zlen; by rewrite length_rev).
  apply le_int_range. by apply Forall_rev.
Qed.

Lemma foldl_shift_in M bs :
  foldl shift_in M bs = Z.lxor (Z.shiftl M (8 * zlen bs)) (poly_of bs).
Proof.
  unfold poly_of. induction bs as [| b bs IH] using rev_ind.
  - simpl. change (8 * zlen []) with 0. by rewrite Z.shiftl_0_r, Z.lxor_0_r.
  - rewrite !foldl_app. cbn [foldl]. rewrite IH. unfold shift_in. rewrite Z.shiftl_lxor, Z.shiftl_shiftl by (pose proof (zlen_nonneg bs); lia).
    rewrite zlen_app. change (zlen [b]) with 1. rewrite Z.mul_add_distr_l. by rewrite Z.lxor_assoc.
Qed.

Lemma poly_of_app a b : poly_of (a ++ b) = Z.lxor (Z.shiftl (poly_of a) (8 * zlen b)) (poly_of b).
Proof. unfold poly_of at 1. rewrite foldl_app. apply foldl_shift_in. Qed.

(** Dropping the last octets of a message. *)
Lemma poly_of_shiftr a b : is_bytes b → Z.shiftr (poly_of (a ++ b)) (8 * zlen b) = poly_of a.
Proof.
  intros Hb. rewrite poly_of_app, Z.shiftr_lxor, Z.shiftr_shiftl_l, Z.sub_diag, Z.shiftl_0_r
    by (pose proof (zlen_nonneg b); lia).
  rewrite (Z.shiftr_div_pow2 (poly_of b)), Z.div_small by (pose proof (zlen_nonneg b); apply poly_of_bound || lia; done).
  apply Z.lxor_0_r.
Qed.

(** ** Shuffles *)

Section shuffles.
Context {V : Simd} {SL : SimdLaws V}.

Lemma loadu_Ok p off :
  is_bytes p → 0 <= off → off + 16 <= zlen p →
  loadu p off = Ok (le_int (take 16 (drop (Z.to_nat off) p))).
Proof using SL.
  intros Hp Ho Hl. unfold loadu. rewrite slice_Some by lia. simpl. f_equal. change (Z.to_nat 16) with 16%nat.
  apply loadu_ok; [| by apply Forall_take, Forall_drop].
  rewrite length_take, length_drop. unfold zlen in Hl. lia.
Qed.

(** The mask of a shift at position [i]: the index of the byte, or the flag. *)
Definition tab_byte (i : Z) : Z := if (16 <=? i) && (i <? 32) then i - 16 else 255.

Lemma shift_mask num :
  -16 <= num <= 16 →
  ∃ m, loadu crc_xmm_shift_tab (16 + num) = Ok m ∧ is_reg m ∧
       ∀ i, (i < 16)%nat → reg_byte m (Z.of_nat i) = tab_byte (16 + num + Z.of_nat i).
Proof using SL.
  intros Hn. assert (Ht : is_bytes crc_xmm_shift_tab) by (repeat (constructor; [lia |]); constructor).
  assert (Hl : zlen crc_xmm_shift_tab = 48) by done.
  rewrite loadu_Ok by (done || lia). eexists. split; [done |]. split.
  - apply is_reg_le_int; [by apply Forall_take, Forall_drop |].
    rewrite length_take, length_drop. unfold zlen in Hl. lia.
  - intros i Hi. rewrite reg_byte_le_int by (by apply Forall_take, Forall_drop).
    rewrite nth_lookup, lookup_take_lt, lookup_drop by done.
    set (k := (Z.to_nat (16 + num) + i)%nat).
    replace (16 + num + Z.of_nat i) with (Z.of_nat k) by lia.
    assert (Hk : (k < 48)%nat) by lia. clearbody k. clear -Hk.
    do 48 (destruct k as [| k]; [done |]). lia.
Qed.

Lemma shuffle_reg a m : is_reg a → is_reg m → is_reg (mm_shuffle_epi8 a m).
Proof using SL.
  intros Ha Hm. rewrite shuffle_ok by done. apply is_reg_le_int; [| by rewrite length_map, length_seq].
  apply is_bytes_map. intros i. unfold shuffled. destruct (Z.testbit _ _); [lia | apply reg_byte_range].
Qed.

(** A register is known by its bytes. *)
Lemma shuffle_eq a m b :
  is_reg a → is_reg m → is_reg b →
  (∀ i, (i < 16)%nat → shuffled a m (Z.of_nat i) = reg_byte b (Z.of_nat i)) →
  mm_shuffle_epi8 a m = b.
Proof using SL.
  intros Ha Hm Hb H. rewrite shuffle_ok by done. rewrite <- (le_int_le_bytes 16 b) by exact Hb.
  f_equal. apply map_ext_in. intros i Hi%in_seq. apply H. lia.
Qed.

Lemma shiftr_reg a n : 0 <= n → is_reg a → is_reg (Z.shiftr a n).
Proof using.
  intros Hn Ha. unfold is_reg in *. rewrite Z.shiftr_div_pow2 by done. split; [apply Z.div_pos; lia |].
  apply Z.div_lt_upper_bound; [lia |]. assert (0 < 2 ^ n) by lia. nia.
Qed.

Lemma xmm_shift_right_ok a num :
  is_reg a → 0 <= num <= 16 → xmm_shift_right a num = Ok (Z.shiftr a (8 * num)).
Proof using SL.
  intros Ha Hn. unfold xmm_shift_right. destruct (shift_mask num) as (m & -> & Hm & Hb); [lia |].
  cbn [mbind res_bind]. f_equal. apply shuffle_eq; [done | done | apply shiftr_reg; [lia | done] |].
  intros i Hi. unfold shuffled. rewrite Hb by done. unfold tab_byte.
  assert (E : reg_byte (Z.shiftr a (8 * num)) (Z.of_nat i) = reg_byte a (num + Z.of_nat i)).
  { unfold reg_byte. rewrite Z.shiftr_shiftr by lia. do 2 f_equal. lia. }
  rewrite E. destruct (Z.leb_spec 16 (16 + num + Z.of_nat i)); [| lia].
  destruct (Z.ltb_spec (16 + num + Z.of_nat i) 32); cbn [andb].
  - replace (16 + num + Z.of_nat i - 16) with (num + Z.of_nat i) by lia.
    rewrite (bits_high _ 4), Z.mod_small by lia. done.
  - change (Z.testbit 255 7) with true. cbv iota. unfold reg_byte.
    rewrite Z.shiftr_div_pow2, Z.div_small by (unfold is_reg in Ha; lia || (split; [lia |]; eapply Z.lt_le_trans; [apply Ha | apply Z.pow_le_mono_r; lia])). done.
Qed.

Lemma xmm_shift_left_ok a num :
  is_reg a → 0 <= num <= 16 → xmm_shift_left a num = Ok (Z.shiftl a (8 * num) mod 2 ^ 128).
Proof using SL.
  intros Ha Hn. unfold xmm_shift_left. destruct (shift_mask (- num)) as (m & E & Hm & Hb); [lia |].
  rewrite Z.add_opp_r in E. rewrite E. cbn [mbind res_bind]. f_equal.
  apply shuffle_eq; [done | done | apply Z.mod_pos_bound; lia |].
  intros i Hi. unfold shuffled. rewrite Hb by done. unfold tab_byte.
  assert (E' : ∀ k, 0 <= k < 128 → Z.testbit (Z.shiftl a (8 * num) mod 2 ^ 128) k = Z.testbit a (k - 8 * num)).
  { intros k Hk. by rewrite Z.mod_pow2_bits_low, Z.shiftl_spec by lia. }
  assert (E8 : reg_byte (Z.shiftl a (8 * num) mod 2 ^ 128) (Z.of_nat i) =
               if Z.of_nat i <? num then 0 else reg_byte a (Z.of_nat i - num)).
  { unfold reg_byte. change 256 with (2 ^ 8). apply Z.bits_inj'. intros k Hk.
    destruct (Z.lt_ge_cases k 8) as [H8 | H8].
    2:{ rewrite Z.mod_pow2_bits_high by lia. destruct (Z.ltb_spec (Z.of_nat i) num);
          [by rewrite Z.bits_0 | by rewrite Z.mod_pow2_bits_high by lia]. }
    rewrite Z.mod_pow2_bits_low, Z.shiftr_spec, E' by lia.
    destruct (Z.ltb_spec (Z.of_nat i) num).
    - by rewrite Z.bits_0, Z.testbit_neg_r by lia.
    - rewrite Z.mod_pow2_bits_low, Z.shiftr_spec by lia. f_equal. lia. }
  rewrite E8. destruct (Z.ltb_spec (16 + - num + Z.of_nat i) 32); [| lia].
  destruct (Z.leb_spec 16 (16 + - num + Z.of_nat i)); cbn [andb].
  - decide_false (Z.of_nat i <? num).
    replace (16 + - num + Z.of_nat i - 16) with (Z.of_nat i - num) by lia.
    rewrite (bits_high _ 4), Z.mod_small by lia. done.
  - by decide_true (Z.of_nat i <? num).
Qed.

(** The byte swap of a register turns the sixteen octets at a pointer into a message. *)
Lemma swap_reg : is_reg crc_xmm_be_le_swap128.
Proof using SL. unfold crc_xmm_be_le_swap128. rewrite setr_ok. vm_compute. split; [discriminate | reflexivity]. Qed.

Lemma swap_ok bs :
  is_bytes bs → length bs = 16%nat → mm_shuffle_epi8 (le_int bs) crc_xmm_be_le_swap128 = poly_of bs.
Proof using SL.
  intros Hb Hl. rewrite <- le_int_rev by done.
  assert (Hr : is_bytes (rev bs)) by by apply Forall_rev.
  apply shuffle_eq; [by apply is_reg_le_int | apply swap_reg | apply is_reg_le_int; [done | by rewrite length_rev] |].
  intros i Hi. rewrite reg_byte_le_int by done. unfold shuffled.
  assert (Hm : reg_byte crc_xmm_be_le_swap128 (Z.of_nat i) = 15 - Z.of_nat i).
  { unfold crc_xmm_be_le_swap128. rewrite setr_ok. clear -Hi. do 16 (destruct i as [| i]; [done |]). lia. }
  rewrite Hm, (bits_high _ 4), Z.mod_small by lia.
  replace (15 - Z.of_nat i) with (Z.of_nat (15 - i)) by lia. rewrite reg_byte_le_int by done.
  rewrite rev_nth by lia. by rewrite Hl.
Qed.
End shuffles.
