(* ===== verification/CrcFold.v ===== *)
(** * Folding and Barrett reduction

    One folding round, the reductions from 128 to 64 and from 64 to 32 bits, and the whole of
    [crc32_calc_pclmulqdq], modulo the generator of a context whose constants are right. *)

From S2P Require Import Prelude Gf2 Crc CrcFacts.

(** What the constants of a context have to be for the generator of [poly]. *)
Record ctx_ok (c : crc_pclmulqdq_ctx) (poly : Z) : Prop := {
  ctx_poly : is_u32 poly;
  ctx_p : p c = poly;
  ctx_res0 : ctx_res c = 0;
  ctx_k1 : is_u32 (k1 c) ∧ cong (generator32 poly) (2 ^ 128) (k1 c);
  ctx_k2 : is_u32 (k2 c) ∧ cong (generator32 poly) (2 ^ 192) (k2 c);
  ctx_k3 : is_u32 (k3 c) ∧ cong (generator32 poly) (2 ^ 64) (k3 c);
  ctx_q : is_u32 (q c) ∧ is_u32 (Z.lxor (2 ^ 64) (clmul (Z.lxor (2 ^ 32) (q c)) (generator32 poly)))
}.

(** ** Halves *)

Lemma is_u32_u64 x : is_u32 x → 0 <= x < 2 ^ 64.
Proof. unfold is_u32. lia. Qed.

Lemma split_at x n : 0 <= n → x = Z.lxor (Z.shiftl (Z.shiftr x n) n) (x mod 2 ^ n).
Proof.
  intros Hn. apply Z.bits_inj'. intros k Hk. rewrite Z.lxor_spec, Z.shiftl_spec by done.
  destruct (Z.lt_ge_cases k n).
  - by rewrite (Z.testbit_neg_r _ (k - n)), Z.mod_pow2_bits_low by lia.
  - rewrite Z.shiftr_spec, Z.mod_pow2_bits_high by lia. by rewrite Z.sub_add, xorb_false_r.
Qed.

Lemma mod_lxor a b n : 0 <= n → Z.lxor a b mod 2 ^ n = Z.lxor (a mod 2 ^ n) (b mod 2 ^ n).
Proof.
  intros Hn. apply Z.bits_inj'. intros k Hk. rewrite Z.lxor_spec.
  destruct (Z.lt_ge_cases k n).
  - by rewrite !Z.mod_pow2_bits_low, Z.lxor_spec by lia.
  - by rewrite !Z.mod_pow2_bits_high by lia.
Qed.

Lemma shiftl_mod x n : 0 <= n → Z.shiftl x n mod 2 ^ n = 0.
Proof. intros Hn. rewrite Z.shiftl_mul_pow2 by done. apply Z.mod_mul. lia. Qed.

Lemma shiftl_mod_shiftr x m n : 0 <= m → 0 <= n → Z.shiftr (Z.shiftl x n mod 2 ^ (m + n)) n = x mod 2 ^ m.
Proof.
  intros Hm Hn. rewrite Z.shiftl_mul_pow2, Z.shiftr_div_pow2, Z.pow_add_r by done.
  rewrite Z.mul_mod_distr_r by lia. apply Z.div_mul. lia.
Qed.

Lemma le_int_app a b : is_bytes a → is_bytes b → le_int (a ++ b) = le_int a + 2 ^ (8 * zlen a) * le_int b.
Proof.
  intros Ha Hb. induction Ha as [| x a Hx Ha IH]; [cbn [app le_int]; change (8 * zlen []) with 0; lia |].
  cbn [app le_int]. rewrite IH, zlen_cons.
  replace (8 * (1 + zlen a)) with (8 + 8 * zlen a) by lia.
  rewrite (Z.pow_add_r 2 8) by (pose proof (zlen_nonneg a); lia). lia.
Qed.

Lemma qword_range a i : 0 <= qword a i < 2 ^ 64.
Proof. apply Z.mod_pos_bound. lia. Qed.

Lemma qword_1 a : is_reg a → qword a 1 = Z.shiftr a 64.
Proof.
  intros Ha. unfold qword. change (64 * 1) with 64. apply Z.mod_small.
  by apply (shiftr_bound a 128 64).
Qed.

Lemma reg_split a : is_reg a → a = Z.lxor (Z.shiftl (qword a 1) 64) (qword a 0).
Proof.
  intros Ha. rewrite qword_1 by done. unfold qword. change (64 * 0) with 0. rewrite Z.shiftr_0_r.
  by apply split_at.
Qed.

Lemma lxor_reg a b : is_reg a → is_reg b → is_reg (Z.lxor a b).
Proof. apply lxor_bound. lia. Qed.
#[export] Hint Resolve lxor_reg qword_range is_u32_u64 : oai.

Lemma bound_mono x m n : 0 <= x < 2 ^ m → m <= n → 0 <= x < 2 ^ n.
Proof. intros Hx Hmn. pose proof (Z.pow_le_mono_r 2 m n). lia. Qed.

Lemma clmul_range a b m n k :
  0 <= a < 2 ^ m → 0 <= b < 2 ^ n → 0 <= m → 0 <= n → m + n - 1 <= k → 0 <= k → 0 <= clmul a b < 2 ^ k.
Proof.
  intros Ha Hb Hm Hn Hk Hk0. destruct (clmul_bound a b m n Ha Hb Hm Hn) as [H | ->]; [| lia].
  eapply bound_mono; [exact H | done].
Qed.

Lemma clmul_reg a b : 0 <= a < 2 ^ 64 → 0 <= b < 2 ^ 64 → is_reg (clmul a b).
Proof. intros. by apply (clmul_range a b 64 64 128). Qed.

Section pairs.
Context {V : Simd} {SL : SimdLaws V}.

Lemma load_pair_ok lo hi :
  0 <= lo < 2 ^ 64 → 0 <= hi < 2 ^ 64 →
  is_reg (load_pair lo hi) ∧ qword (load_pair lo hi) 0 = lo ∧ qword (load_pair lo hi) 1 = hi.
Proof using SL.
  intros Hl Hh. unfold load_pair.
  rewrite loadu_ok; [| done | apply Forall_app; split; apply le_bytes_is_bytes].
  rewrite le_int_app by apply le_bytes_is_bytes. rewrite !le_int_le_bytes by done.
  unfold zlen. rewrite le_bytes_length. change (8 * Z.of_nat 8) with 64.
  split_and!; [unfold is_reg; lia | |]; unfold qword; rewrite Z.shiftr_div_pow2 by lia.
  - change (2 ^ (64 * 0)) with 1. rewrite Z.div_1_r. symmetry. apply Z.mod_unique_pos with hi; lia.
  - change (2 ^ (64 * 1)) with (2 ^ 64). rewrite <- (Z.div_unique_pos (lo + 2 ^ 64 * hi) (2 ^ 64) hi lo) by lia.
    by apply Z.mod_small.
Qed.

(** The four products of halves that are used. *)
Lemma clmul_00 a b : is_reg a → is_reg b → mm_clmulepi64_si128 a b 0x00 = clmul (qword a 0) (qword b 0).
Proof using SL. intros. apply (clmul_ok a b 0 0); auto. Qed.
Lemma clmul_11 a b : is_reg a → is_reg b → mm_clmulepi64_si128 a b 0x11 = clmul (qword a 1) (qword b 1).
Proof using SL. intros. apply (clmul_ok a b 1 1); auto. Qed.
Lemma clmul_01 a b : is_reg a → is_reg b → mm_clmulepi64_si128 a b 0x01 = clmul (qword a 1) (qword b 0).
Proof using SL. intros. apply (clmul_ok a b 1 0); auto. Qed.
Lemma clmul_10 a b : is_reg a → is_reg b → mm_clmulepi64_si128 a b 0x10 = clmul (qword a 0) (qword b 1).
Proof using SL. intros. apply (clmul_ok a b 0 1); auto. Qed.
End pairs.

Section reduction.
Context {V : Simd} {SL : SimdLaws V} (c : crc_pclmulqdq_ctx) (poly : Z) (Hc : ctx_ok c poly).
Abbreviation G := (generator32 poly).

(** Replacing a power of x by its remainder. *)
Lemma fold_power a n k : 0 <= a → 0 <= n → cong G (2 ^ n) k → cong G (Z.shiftl a n) (clmul a k).
Proof using Hc.
  intros Ha Hn Hk. rewrite <- clmul_pow2 by done.
  apply cong_clmul_r; [apply generator32_pos, Hc | done..].
Qed.

Lemma folding_round_ok fold block :
  is_reg fold → is_reg block →
  let r := crc32_folding_round block (load_pair (k1 c) (k2 c)) fold in
  is_reg r ∧ cong G r (Z.lxor (Z.shiftl fold 128) block).
Proof using SL Hc.
  intros Hf Hb. destruct Hc as [_ _ _ [Hk1 C1] [Hk2 C2] _ _].
  destruct (load_pair_ok (k1 c) (k2 c)) as (Hr & E0 & E1); [auto with oai .. |].
  cbv zeta. unfold crc32_folding_round. rewrite clmul_11, clmul_00, E0, E1 by done.
  assert (R1 : is_reg (clmul (qword fold 1) (k2 c))) by (apply clmul_reg; auto with oai).
  assert (R0 : is_reg (clmul (qword fold 0) (k1 c))) by (apply clmul_reg; auto with oai).
  rewrite (xor_ok block), xor_ok by auto with oai. split; [auto with oai |].
  rewrite (reg_split fold Hf) at 3. rewrite Z.shiftl_lxor, Z.shiftl_shiftl by lia.
  rewrite (fold_power _ (64 + 128) _ ltac:(apply qword_range) ltac:(lia) C2).
  rewrite (fold_power _ 128 _ ltac:(apply qword_range) ltac:(lia) C1).
  apply eq_cong. xor_bits.
Qed.
(** A product of 96 bits, cut at 64. *)
Lemma cut64 x : 0 <= x < 2 ^ 96 → 0 <= Z.shiftr x 64 < 2 ^ 32 ∧ x = Z.lxor (Z.shiftl (Z.shiftr x 64) 64) (x mod 2 ^ 64).
Proof using. intros Hx. split; [by apply (shiftr_bound x 96 32) | by apply split_at]. Qed.

Lemma low_half d : is_reg d → mm_srli_si128 (mm_slli_si128 d 8) 8 = qword d 0.
Proof using SL.
  intros Hd. rewrite slli_ok by (done || lia).
  rewrite srli_ok by (lia || (apply Z.mod_pos_bound; lia)).
  change (2 ^ 128) with (2 ^ (64 + 64)). change (8 * 8) with 64. rewrite shiftl_mod_shiftr by lia.
  unfold qword. change (64 * 0) with 0. by rewrite Z.shiftr_0_r.
Qed.

Lemma qword_lxor a b i : qword (Z.lxor a b) i = Z.lxor (qword a i) (qword b i).
Proof using. unfold qword. by rewrite Z.shiftr_lxor, mod_lxor by lia. Qed.

Lemma qword_0 a : qword a 0 = a mod 2 ^ 64.
Proof using. unfold qword. change (64 * 0) with 0. by rewrite Z.shiftr_0_r. Qed.

Lemma reduce_128_to_64_ok d :
  is_reg d →
  let r := crc32_reduce_128_to_64 d (load_pair (k3 c) (q c)) in
  0 <= r < 2 ^ 64 ∧ cong G r d.
Proof using SL Hc.
  intros Hd. destruct Hc as [_ _ _ _ _ [Hk3 C3] [Hq _]].
  destruct (load_pair_ok (k3 c) (q c)) as (Hr & E0 & _); [auto with oai .. |].
  cbv zeta. unfold crc32_reduce_128_to_64. rewrite (clmul_01 d), E0 by done.
  set (hi := qword d 1). set (x := clmul hi (k3 c)).
  assert (Hhi : 0 <= hi < 2 ^ 64) by apply qword_range.
  assert (Hx : 0 <= x < 2 ^ 96) by (apply (clmul_range _ _ 64 32 96 Hhi Hk3); lia).
  assert (Hxr : is_reg x) by by apply (bound_mono x 96 128).
  rewrite (xor_ok x d), clmul_01, E0 by auto with oai.
  destruct (cut64 x Hx) as [Hh1 Ex]. set (h1 := Z.shiftr x 64) in *.
  rewrite qword_lxor. fold hi. rewrite (qword_1 x Hxr). fold h1.
  rewrite clmul_lxor_l by lia. fold x.
  assert (Hy : 0 <= clmul h1 (k3 c) < 2 ^ 64) by (apply (clmul_range _ _ 32 32 64 Hh1 Hk3); lia).
  assert (Hyr : is_reg (clmul h1 (k3 c))) by by apply (bound_mono _ 64 128).
  rewrite xor_ok, low_half by auto with oai. split; [apply qword_range |].
  rewrite !qword_lxor, (qword_0 (clmul _ _)), (Z.mod_small (clmul _ _)), (qword_0 x) by done.
  rewrite (reg_split d Hd) at 2. fold hi.
  rewrite (fold_power hi 64 (k3 c)) by (done || lia). fold x. rewrite Ex at 2.
  rewrite (fold_power h1 64 (k3 c)) by (done || lia).
  apply eq_cong. xor_bits.
Qed.

(** Barrett's quotient leaves a remainder below the degree of the generator. *)
Lemma barrett D :
  0 <= D < 2 ^ 64 →
  let T := Z.shiftr (clmul (Z.shiftr D 32) (Z.lxor (2 ^ 32) (q c))) 32 in
  0 <= T < 2 ^ 32 ∧ is_u32 (Z.lxor D (clmul T G)).
Proof using Hc.
  intros HD. destruct Hc as [Hp _ _ _ _ _ [Hq Hr]]. cbv zeta.
  set (Dh := Z.shiftr D 32). set (q' := Z.lxor (2 ^ 32) (q c)) in *. set (r' := Z.lxor (2 ^ 64) _) in Hr.
  assert (HDh : 0 <= Dh < 2 ^ 32) by by apply (shiftr_bound D 64 32).
  assert (Hq' : 0 <= q' < 2 ^ 33) by (apply lxor_bound; unfold is_u32 in *; lia).
  assert (HG : 0 <= G < 2 ^ 33) by (apply lxor_bound; unfold is_u32 in *; lia).
  assert (Hz : 0 <= clmul Dh q' < 2 ^ 64) by (apply (clmul_range _ _ 32 33 64 HDh Hq'); lia).
  set (T := Z.shiftr (clmul Dh q') 32).
  assert (HT : 0 <= T < 2 ^ 32) by by apply (shiftr_bound _ 64 32).
  split; [done |]. set (s := clmul Dh q' mod 2 ^ 32).
  assert (Hs : 0 <= s < 2 ^ 32) by (apply Z.mod_pos_bound; lia).
  assert (E : Z.shiftl (Z.lxor (Z.shiftl Dh 32) (clmul T G)) 32 = Z.lxor (clmul s G) (clmul Dh r')).
  { rewrite Z.shiftl_lxor, Z.shiftl_shiftl, <- clmul_shiftl_l by lia.
    change (32 + 32) with 64. rewrite <- (clmul_pow2 Dh 64) by lia. unfold r'. rewrite clmul_lxor_r, <- clmul_assoc by lia.
    rewrite (split_at (clmul Dh q') 32) at 1 by lia. fold T s. rewrite clmul_lxor_l by auto with oai lia.
    xor_bits. }
  assert (HX : 0 <= Z.lxor (Z.shiftl Dh 32) (clmul T G) < 2 ^ 32).
  { assert (Hb : 0 <= Z.lxor (clmul s G) (clmul Dh r') < 2 ^ 64).
    { apply lxor_bound; [lia | apply (clmul_range _ _ 32 33 64 Hs HG) | apply (clmul_range _ _ 32 32 64 HDh Hr)]; lia. }
    rewrite <- E, Z.shiftl_mul_pow2 in Hb by lia. lia. }
  rewrite (split_at D 32) by lia. fold Dh.
  replace (Z.lxor (Z.lxor (Z.shiftl Dh 32) (D mod 2 ^ 32)) (clmul T G))
    with (Z.lxor (Z.lxor (Z.shiftl Dh 32) (clmul T G)) (D mod 2 ^ 32)) by xor_bits.
  apply lxor_u32; [done | apply u32_is_u32].
Qed.

Lemma reduce_64_to_32_ok D :
  0 <= D < 2 ^ 64 →
  let r := crc32_reduce_64_to_32 D (load_pair (k3 c) (q c)) (load_pair (p c) (ctx_res c)) in
  is_u32 r ∧ cong G r D.
Proof using SL Hc.
  intros HD. destruct (barrett D HD) as [HT HR]. cbv zeta in HT, HR.
  destruct Hc as [Hp Ep Er0 _ _ [Hk3 _] [Hq _]].
  destruct (load_pair_ok (k3 c) (q c)) as (Hr & _ & E1); [auto with oai .. |].
  destruct (load_pair_ok (p c) (ctx_res c)) as (Hpr & P0 & _); [rewrite Ep; auto with oai | rewrite Er0; lia |].
  cbv zeta. unfold crc32_reduce_64_to_32.
  assert (HDr : is_reg D) by by apply (bound_mono D 64 128).
  rewrite (srli_ok D 4) by (done || lia). change (8 * 4) with 32. set (Dh := Z.shiftr D 32) in *.
  assert (HDh : 0 <= Dh < 2 ^ 32) by by apply (shiftr_bound D 64 32).
  rewrite (clmul_10 Dh), E1, qword_0, Z.mod_small by (done || lia || by apply (bound_mono Dh 32 128)).
  assert (Hz : is_reg (clmul Dh (q c))) by (apply clmul_reg; auto with oai lia).
  rewrite (xor_ok (clmul Dh (q c))), (srli_ok (Z.lxor _ D)) by (auto with oai || lia).
  change (8 * 4) with 32. set (T := Z.shiftr (clmul Dh (Z.lxor (2 ^ 32) (q c))) 32) in *.
  replace (Z.shiftr (Z.lxor (clmul Dh (q c)) D) 32) with T.
  2:{ unfold T. rewrite clmul_lxor_r, clmul_pow2, !Z.shiftr_lxor, Z.shiftr_shiftl_l by lia.
      rewrite Z.sub_diag, Z.shiftl_0_r. apply Z.lxor_comm. }
  rewrite clmul_00, P0, Ep, qword_0, Z.mod_small by (done || lia || by apply (bound_mono T 32 128)).
  assert (Hw : is_reg (clmul T poly)) by (apply clmul_reg; auto with oai lia).
  rewrite xor_ok, extract_ok by auto with oai.
  assert (E : u32 (Z.lxor (clmul T poly) D) = Z.lxor D (clmul T G)).
  { rewrite <- (Z.mod_small (Z.lxor D (clmul T G)) (2 ^ 32)) by done. unfold generator32.
    rewrite clmul_lxor_r, clmul_pow2 by lia. unfold u32.
    rewrite !mod_lxor, shiftl_mod by lia. by rewrite Z.lxor_0_l, Z.lxor_comm. }
  rewrite E. split; [done |]. exists T. split; [lia |]. xor_bits.
Qed.
End reduction.

(** ** Windows of the data *)

Section windows.
Context (data : bytes) (Hdata : is_bytes data).

Definition win (o k : Z) : Z := poly_of (take (Z.to_nat k) (drop (Z.to_nat o) data)).

Lemma win_bytes o k : is_bytes (take (Z.to_nat k) (drop (Z.to_nat o) data)).
Proof using Hdata. by apply Forall_take, Forall_drop. Qed.

Lemma win_zlen o k : 0 <= o → 0 <= k → o + k <= zlen data → zlen (take (Z.to_nat k) (drop (Z.to_nat o) data)) = k.
Proof using. unfold zlen. intros. rewrite length_take, length_drop. lia. Qed.

Lemma win_bound o k : 0 <= o → 0 <= k → o + k <= zlen data → 0 <= win o k < 2 ^ (8 * k).
Proof using Hdata.
  intros. pose proof (poly_of_bound _ (win_bytes o k)) as H'. by rewrite win_zlen in H'.
Qed.

Lemma win_app o j k :
  0 <= o → 0 <= j → 0 <= k → o + j + k <= zlen data →
  win o (j + k) = Z.lxor (Z.shiftl (win o j) (8 * k)) (win (o + j) k).
Proof using.
  intros. unfold win. rewrite !Z2Nat.inj_add, <- take_take_drop, poly_of_app, drop_drop by lia.
  rewrite <- Z2Nat.inj_add, win_zlen by lia. done.
Qed.

Lemma win_shiftr o j k :
  0 <= o → 0 <= j → 0 <= k → o + j + k <= zlen data → Z.shiftr (win o (j + k)) (8 * k) = win o j.
Proof using Hdata.
  intros. rewrite win_app, Z.shiftr_lxor, Z.shiftr_shiftl_l, Z.sub_diag, Z.shiftl_0_r by lia.
  pose proof (win_bound (o + j) k) as Hb. rewrite (Z.shiftr_div_pow2 (win (o + j) k)), Z.div_small by lia.
  apply Z.lxor_0_r.
Qed.

(** A left shift that pushes the first [j] octets out of the register. *)
Lemma win_shiftl o j k :
  0 <= o → 0 <= j → 0 <= k <= 16 → o + j + k <= zlen data →
  Z.shiftl (win o (j + k)) (128 - 8 * k) mod 2 ^ 128 = Z.shiftl (win (o + j) k) (128 - 8 * k).
Proof using Hdata.
  intros. rewrite win_app, Z.shiftl_lxor, mod_lxor, Z.shiftl_shiftl by lia.
  replace (8 * k + (128 - 8 * k)) with 128 by lia. rewrite shiftl_mod, Z.lxor_0_l by lia.
  apply Z.mod_small. pose proof (win_bound (o + j) k ltac:(lia) ltac:(lia) ltac:(lia)) as Hb.
  rewrite Z.shiftl_mul_pow2 by lia. replace 128 with (8 * k + (128 - 8 * k)) at 3 by lia.
  rewrite Z.pow_add_r by lia. nia.
Qed.

Lemma win_reg o k : 0 <= o → 0 <= k <= 16 → o + k <= zlen data → is_reg (win o k).
Proof using Hdata. intros. apply (bound_mono _ (8 * k) 128); [apply win_bound; lia | lia]. Qed.

Lemma lor_shiftl a b n : 0 <= n → 0 <= b < 2 ^ n → Z.lor b (Z.shiftl a n) = Z.lxor (Z.shiftl a n) b.
Proof using.
  intros Hn Hb. apply Z.bits_inj'. intros k Hk. rewrite Z.lor_spec, Z.lxor_spec, Z.shiftl_spec by done.
  destruct (Z.lt_ge_cases k n).
  - rewrite (Z.testbit_neg_r a) by lia. by destruct (Z.testbit b k).
  - rewrite (bits_high b n k) by lia. by destruct (Z.testbit a (k - n)).
Qed.

Context {V : Simd} {SL : SimdLaws V}.

(** Sixteen octets loaded and swapped. *)
Lemma load_block o :
  0 <= o → o + 16 <= zlen data →
  ∃ m, loadu data o = Ok m ∧ is_reg m ∧ mm_shuffle_epi8 m crc_xmm_be_le_swap128 = win o 16.
Proof using Hdata SL.
  intros Ho Hl. rewrite loadu_Ok by done. eexists. split; [done |].
  pose proof (win_zlen o 16 Ho ltac:(lia) Hl) as Hz. unfold zlen in Hz.
  split; [apply is_reg_le_int | apply swap_ok]; [apply (win_bytes o 16) | | apply (win_bytes o 16) |];
    change (Z.to_nat 16) with 16%nat in *; lia.
Qed.

Lemma zero_insert : mm_insert_epi32 mm_setzero_si128 0 0 = 0.
Proof using SL. rewrite setzero_ok, insert_ok by (unfold is_reg; lia). done. Qed.

Lemma fold_short_ok m n :
  1 <= n <= 12 → 16 <= zlen data → mm_shuffle_epi8 m crc_xmm_be_le_swap128 = win 0 16 →
  fold_short (n + 4) 0 m crc_xmm_be_le_swap128 = Ok (Z.shiftl (win 0 n) 32).
Proof using Hdata SL.
  intros Hn Hl Em. unfold fold_short. rewrite Em.
  replace (u32 (20 - (n + 4))) with (16 - n) by (unfold u32; rewrite Z.mod_small; lia).
  rewrite xmm_shift_right_ok by (lia || by apply win_reg). cbn [mbind res_bind].
  pose proof (win_shiftr 0 n (16 - n)) as E1. replace (n + (16 - n)) with 16 in E1 by lia. rewrite E1 by lia.
  change (bswap4 0) with 0. rewrite zero_insert, xmm_shift_left_ok by (unfold is_reg; lia).
  cbn [mbind res_bind]. rewrite Z.shiftl_0_l, slli_ok by (lia || apply win_reg; lia).
  pose proof (win_bound 0 n ltac:(lia) ltac:(lia) ltac:(lia)) as Hb.
  assert (Hs : 0 <= Z.shiftl (win 0 n) 32 < 2 ^ 128).
  { rewrite Z.shiftl_mul_pow2 by lia. pose proof (Z.pow_le_mono_r 2 (8 * n) 96). lia. }
  change (8 * 4) with 32. rewrite (Z.mod_small (Z.shiftl _ _)) by done.
  rewrite xor_ok by (done || (unfold is_reg; rewrite Z.mod_0_l; lia)). f_equal. apply Z.lxor_0_r.
Qed.

(** The second block of the data aligned to its end. *)
Lemma align_next pad :
  0 <= pad < 16 → 32 <= zlen data →
  Z.lor (Z.shiftr (win 16 16) (8 * pad)) (Z.shiftl (win 0 16) (8 * (16 - pad)) mod 2 ^ 128) = win (16 - pad) 16.
Proof using Hdata.
  intros Hp Hl.
  pose proof (win_shiftr 16 (16 - pad) pad) as E1. pose proof (win_shiftl 0 (16 - pad) pad) as E2.
  pose proof (win_app (16 - pad) pad (16 - pad)) as E3.
  replace (pad + (16 - pad)) with 16 in E3 by lia. rewrite Z.sub_add in E1, E2, E3. rewrite Z.add_0_l in E2.
  replace (128 - 8 * pad) with (8 * (16 - pad)) in E2 by lia.
  rewrite E1, E2, E3 by lia. rewrite lor_shiftl; [done | lia | apply win_bound; lia].
Qed.
End windows.

(** ** The whole function *)

Section calc.
Context {V : Simd} {SL : SimdLaws V} (c : crc_pclmulqdq_ctx) (poly : Z) (Hc : ctx_ok c poly).
Context (data : bytes) (Hdata : is_bytes data).
Abbreviation G := (generator32 poly).
Abbreviation W := (win data).
Abbreviation K12 := (load_pair (k1 c) (k2 c)).

(** Folding the next [k] octets, placed at the top of a block whose last octets are zero. *)
Lemma fold_next fold o k :
  is_reg fold → cong G fold (W 0 o) → 0 <= o → 0 <= k <= 16 → o + k <= zlen data →
  let r := crc32_folding_round (Z.shiftl (W o k) (128 - 8 * k)) K12 fold in
  is_reg r ∧ cong G r (Z.shiftl (W 0 (o + k)) (128 - 8 * k)).
Proof using Hc Hdata SL.
  intros Hf C Ho Hk Hl. cbv zeta.
  assert (Hb : is_reg (Z.shiftl (W o k) (128 - 8 * k))).
  { pose proof (win_shiftl data Hdata o 0 k) as E. rewrite Z.add_0_r in E. rewrite <- E by lia.
    apply Z.mod_pos_bound. lia. }
  destruct (folding_round_ok c poly Hc fold _ Hf Hb) as [Hr Cr]. split; [done |].
  rewrite Cr, (cong_shiftl _ _ _ 128 ltac:(lia) C), win_app by lia. rewrite Z.add_0_l.
  rewrite (Z.shiftl_lxor (Z.shiftl (W 0 o) (8 * k))), Z.shiftl_shiftl by lia.
  by replace (8 * k + (128 - 8 * k)) with 128 by lia.
Qed.

Lemma fold_block fold o m :
  is_reg fold → cong G fold (W 0 o) → 0 <= o → o + 16 <= zlen data → m = W o 16 →
  let r := crc32_folding_round m K12 fold in is_reg r ∧ cong G r (W 0 (o + 16)).
Proof using Hc Hdata SL.
  intros Hf C Ho Hl ->. pose proof (fold_next fold o 16 Hf C Ho ltac:(lia) Hl) as H.
  change (128 - 8 * 16) with 0 in H. by rewrite !Z.shiftl_0_r in H.
Qed.

(** The loop stops sixteen octets before the end of the padded message. *)
Lemma folding_loop_ok fuel n o fold :
  is_reg fold → cong G fold (W 0 o) → 0 <= o → 28 < n → n <= zlen data → n + 20 < 2 ^ 32 →
  o <= n - 12 → (n - 12 - o) mod 16 = 0 → n - 12 - o < 16 * Z.of_nat fuel →
  ∃ fold', folding_loop fuel data (n + 4) K12 o fold = Ok (n - 12, fold') ∧
           is_reg fold' ∧ cong G fold' (W 0 (n - 12)).
Proof using Hc Hdata SL.
  revert o fold. induction fuel as [| fuel IH]; intros o fold Hf C Ho Hn Hz Hu Hle Hmod Hfuel; [lia |].
  cbn [folding_loop]. replace (u32 (n + 4 - 16)) with (n - 12) by (unfold u32; rewrite Z.mod_small; lia).
  destruct (Z.ltb_spec o (n - 12)) as [H | H].
  - assert (o + 16 <= n - 12) by (Z.div_mod_to_equations; lia).
    destruct (load_block data Hdata o) as (m & -> & Hm & Em); [lia.. |]. cbn [mbind res_bind]. rewrite Em.
    replace (u32 (o + 16)) with (o + 16) by (unfold u32; rewrite Z.mod_small; lia).
    destruct (fold_block fold o (W o 16)) as [Hr Cr]; [done | done | lia | lia | done |].
    apply IH; [done | done | lia | lia | lia | lia | lia | | lia].
    replace (n - 12 - (o + 16)) with (n - 12 - o + (-1) * 16) by lia. by rewrite Z.mod_add by lia.
  - assert (o = n - 12) as -> by lia. by exists fold.
Qed.

Lemma align_pad n : 0 < n → n + 20 < 2 ^ 32 → Z.land (u32 (- (n + 4))) 15 = (- (n + 4)) mod 16.
Proof using.
  intros Hn Hu. change 15 with (Z.ones 4). rewrite Z.land_ones by lia. unfold u32. change (2 ^ 4) with 16.
  change (2 ^ 32) with (16 * 268435456). rewrite Z.rem_mul_r by lia.
  rewrite (Z.mul_comm 16), Z.mod_add by lia. by rewrite Zmod_mod.
Qed.

Lemma fold_long_ok m n :
  12 < n → n <= zlen data → 32 <= zlen data → n + 20 < 2 ^ 32 → is_reg m →
  mm_shuffle_epi8 m crc_xmm_be_le_swap128 = W 0 16 →
  ∃ fold, fold_long data (n + 4) 0 m crc_xmm_be_le_swap128 c = Ok fold ∧ is_reg fold ∧
          cong G fold (Z.shiftl (W 0 n) 32).
Proof using Hc Hdata SL.
  intros Hn Hz Hz32 Hu Hm Em. unfold fold_long.
  rewrite align_pad, zero_insert, xor_ok, Z.lxor_0_r, Em by (lia || done || unfold is_reg; lia).
  set (pad := (- (n + 4)) mod 16). assert (Hpad : 0 <= pad < 16) by (apply Z.mod_pos_bound; lia).
  destruct (load_block data Hdata 16) as (m' & -> & Hm' & Em'); [lia.. |]. cbn [mbind res_bind]. rewrite Em'.
  assert (R0 : is_reg (W 0 16)) by (apply win_reg; done || lia).
  assert (R1 : is_reg (W 16 16)) by (apply win_reg; done || lia).
  rewrite !xmm_shift_right_ok, xmm_shift_left_ok by (done || lia). cbn [mbind res_bind].
  rewrite or_ok, align_next by (done || lia || (apply shiftr_reg; done || lia) || (apply Z.mod_pos_bound; lia)).
  pose proof (win_shiftr data Hdata 0 (16 - pad) pad) as E1. rewrite Z.sub_add in E1. rewrite E1 by lia.
  assert (R2 : is_reg (W 0 (16 - pad))) by (apply win_reg; done || lia).
  assert (R3 : is_reg (W (16 - pad) 16)) by (apply win_reg; done || lia).
  assert (C2 : cong G (W 0 (16 - pad)) (W 0 (16 - pad))) by done.
  destruct (Z.leb_spec (n + 4) 32).
  - decide_false (32 <? n + 4). assert (Hn' : n = 16 - pad + 12) by (unfold pad; Z.div_mod_to_equations; lia).
    rewrite srli_ok, slli_ok by (done || lia || (apply shiftr_reg; done || lia)).
    pose proof (win_shiftr data Hdata (16 - pad) 12 4) as E2. change (12 + 4) with 16 in E2. rewrite E2 by lia.
    pose proof (win_shiftl data Hdata (16 - pad) 0 12) as E3. rewrite Z.add_0_l, Z.add_0_r in E3.
    change (128 - 8 * 12) with (8 * 4) in E3. rewrite E3 by lia.
    destruct (fold_next _ (16 - pad) 12 R2 C2) as [Hr Cr]; [lia.. |].
    eexists. split; [done |]. split; [exact Hr |]. rewrite Hn'. exact Cr.
  - decide_true (32 <? n + 4).
    destruct (fold_block _ (16 - pad) _ R2 C2 ltac:(lia) ltac:(lia) eq_refl) as [Hr Cr].
    replace (16 - pad + 16) with (16 + 16 - pad) in Cr by lia.
    destruct (folding_loop_ok (Z.to_nat (n + 4)) n (16 + 16 - pad) _ Hr Cr) as (f & -> & Hf & Cf);
      [lia | lia | lia | lia | | | lia |]; [unfold pad; Z.div_mod_to_equations; lia .. |].
    cbn [mbind res_bind].
    destruct (load_block data Hdata (n - 12 - 4)) as (ml & -> & Hml & Eml); [lia.. |]. cbn [mbind res_bind].
    rewrite Eml, slli_ok by (lia || apply win_reg; done || lia).
    pose proof (win_shiftl data Hdata (n - 12 - 4) 4 12) as E4. change (4 + 12) with 16 in E4.
    change (128 - 8 * 12) with (8 * 4) in E4. rewrite Z.sub_add in E4. rewrite E4 by lia.
    destruct (fold_next _ (n - 12) 12 Hf Cf) as [Hl Cl]; [lia.. |].
    eexists. split; [done |]. split; [exact Hl |]. rewrite Z.sub_add in Cl. exact Cl.
Qed.

(** The octets the function reads. *)
Definition read_extent (n : Z) : Z := if n <=? 12 then 16 else Z.max 32 n.

Lemma pclmulqdq_ok n :
  0 < n → n <= zlen data → read_extent n <= zlen data → n + 20 < 2 ^ 32 →
  ∃ r, crc32_calc_pclmulqdq data n 0 c = Ok r ∧ is_u32 r ∧ cong G r (Z.shiftl (W 0 n) 32).
Proof using Hc Hdata SL.
  intros Hn Hz Hre Hu. unfold crc32_calc_pclmulqdq, read_extent in *. decide_false (n =? 0).
  replace (u32 (n + 4)) with (n + 4) by (unfold u32; rewrite Z.mod_small; lia).
  assert (H16 : 16 <= zlen data) by (destruct (Z.leb_spec n 12); lia).
  destruct (load_block data Hdata 0) as (m & -> & Hm & Em); [lia.. |]. cbn [mbind res_bind].
  assert (Hfold : ∃ fold,
    (if n + 4 <=? 16 then fold_short (n + 4) 0 m crc_xmm_be_le_swap128
     else fold_long data (n + 4) 0 m crc_xmm_be_le_swap128 c) = Ok fold ∧ is_reg fold ∧
    cong G fold (Z.shiftl (W 0 n) 32)).
  { destruct (Z.leb_spec (n + 4) 16).
    - rewrite (fold_short_ok data Hdata m n) by (done || lia). eexists. split; [done |]. split; [| done].
      pose proof (win_bound data Hdata 0 n) as Hb. pose proof (Z.pow_le_mono_r 2 (8 * n) 96).
      unfold is_reg. rewrite Z.shiftl_mul_pow2 by lia. lia.
    - destruct (Z.leb_spec n 12); [lia |]. apply fold_long_ok; done || lia. }
  destruct Hfold as (fold & -> & Hf & C). cbn [mbind res_bind].
  destruct (reduce_128_to_64_ok c poly Hc fold Hf) as [H1 C1]. cbv zeta in H1, C1.
  destruct (reduce_64_to_32_ok c poly Hc _ H1) as [H2 C2]. cbv zeta in H2, C2.
  eexists. split; [done |]. split; [exact H2 |]. by rewrite C2, C1.
Qed.
End calc.
