(* ===== verification/CrcProps.v ===== *)
(** * What the CRCs guarantee

    The generators of TS 38.212, 5.1; every implementation returns the remainder modulo its
    generator, on the table path and on the carry-less multiplication path; [check_crc] accepts
    exactly the multiples of the generator, hence detects every burst that is not longer than
    the parity bits. *)

From S2P Require Import Prelude Gf2 Crc CrcFacts CrcFold.

(** ** The eight checks *)

Inductive crc_kind := K24A | K24B | K24C | K16 | K12 | K11 | K8 | K6.

Definition crc_width (k : crc_kind) : Z :=
  match k with
  | K24A | K24B | K24C => 24
  | K16 => 16
  | K12 => 12
  | K11 => 11
  | K8 => 8
  | K6 => 6
  end.

(** The sum of the powers of x of a cyclic generator polynomial. *)
Definition powers (l : list Z) : Z := foldr (λ i acc, Z.lxor (2 ^ i) acc) 0 l.

Definition crc_generator (k : crc_kind) : Z :=
  match k with
  | K24A => powers [24; 23; 18; 17; 14; 11; 10; 7; 6; 5; 4; 3; 1; 0]
  | K24B => powers [24; 23; 6; 5; 1; 0]
  | K24C => powers [24; 23; 21; 20; 17; 15; 13; 12; 8; 4; 2; 1; 0]
  | K16 => powers [16; 12; 5; 0]
  | K12 => powers [12; 11; 3; 2; 1; 0]
  | K11 => powers [11; 10; 9; 5; 0]
  | K8 => powers [8; 7; 4; 3; 1; 0]
  | K6 => powers [6; 5; 0]
  end.

Definition crc_poly (k : crc_kind) : Z :=
  match k with
  | K24A => poly24a
  | K24B => poly24b
  | K24C => poly24c
  | K16 => poly16
  | K12 => poly12
  | K11 => poly11
  | K8 => poly8
  | K6 => poly6
  end.

Definition crc_fun `{Simd} (USE_INTEL_CRC : bool) (T : crc_tables) (k : crc_kind) : bytes → Z → res Z :=
  match k with
  | K24A => crc24a USE_INTEL_CRC T
  | K24B => crc24b USE_INTEL_CRC T
  | K24C => crc24c T
  | K16 => crc16 T
  | K12 => crc12 T
  | K11 => crc11 T
  | K8 => crc8 T
  | K6 => crc6 T
  end.

(** The buffer holds what the carry-less multiplication path reads. *)
Definition readable (USE_INTEL_CRC : bool) (k : crc_kind) (p : bytes) (bitlen : Z) : Prop :=
  USE_INTEL_CRC = true → (k = K24A ∨ k = K24B) → bitlen mod 8 = 0 → 0 < bitlen →
  read_extent (bitlen / 8) <= zlen p.

(** ** Generators and registers *)

Lemma crc_poly_range k : 0 <= crc_poly k < 2 ^ 32.
Proof. destruct k; vm_compute; split; [discriminate | reflexivity | .. ]; try discriminate; reflexivity. Qed.

Lemma crc_aligned k :
  generator32 (crc_poly k) = Z.shiftl (crc_generator k) (32 - crc_width k) ∧
  Z.log2 (crc_generator k) = crc_width k ∧ Z.odd (crc_generator k) = true ∧ 0 < crc_width k <= 24.
Proof. destruct k; vm_compute; repeat split; discriminate. Qed.

Lemma crc_generator_pos k : 0 < crc_generator k.
Proof. by destruct k. Qed.

(** A remainder of the aligned generator, moved to the low bits. *)
Lemma narrow k r M :
  is_u32 r → cong (generator32 (crc_poly k)) r (Z.shiftl M 32) →
  r = Z.shiftl (Z.shiftr r (32 - crc_width k)) (32 - crc_width k) ∧
  0 <= Z.shiftr r (32 - crc_width k) < 2 ^ crc_width k ∧
  cong (crc_generator k) (Z.shiftr r (32 - crc_width k)) (Z.shiftl M (crc_width k)).
Proof.
  intros Hr (q & Hq & E). destruct (crc_aligned k) as (Eg & _ & _ & Hw). set (L := crc_width k) in *.
  rewrite Eg, clmul_shiftl_r in E by lia.
  assert (E2 : r = Z.shiftl (Z.lxor (Z.shiftl M L) (clmul q (crc_generator k))) (32 - L)).
  { rewrite Z.shiftl_lxor, Z.shiftl_shiftl, <- E by lia. replace (L + (32 - L)) with 32 by lia. xor_bits. }
  assert (E3 : Z.shiftr r (32 - L) = Z.lxor (Z.shiftl M L) (clmul q (crc_generator k))).
  { by rewrite E2, Z.shiftr_shiftl_l, Z.sub_diag, Z.shiftl_0_r by lia. }
  split_and!; [by rewrite E3 | apply (shiftr_bound r 32 L); [lia | apply Hr] .. |].
  exists q. split; [done |]. rewrite E3. xor_bits.
Qed.

(** ** The contexts of [crc_byte.c] *)

Lemma cong_witness G a b Q : 0 <= Q → Z.lxor a b = clmul Q G → cong G a b.
Proof. intros. by exists Q. Qed.

Lemma ctx_24a : ctx_ok lte_crc24a_pclmulqdq poly24a.
Proof.
  split; [apply (crc_poly_range K24A) | done | done | split .. |]; try (vm_compute; split; [discriminate | reflexivity]).
  - by apply (cong_witness _ _ _ 0x1f845fe2493242da4ab315b45).
  - by apply (cong_witness _ _ _ 0x1f845fe2493242da4ab315b45464295c3850fb6f3).
  - by apply (cong_witness _ _ _ 0x1f845fe24).
  - split; vm_compute; split; [discriminate | reflexivity | discriminate | reflexivity].
Qed.

Lemma ctx_24b : ctx_ok lte_crc24b_pclmulqdq poly24b.
Proof.
  split; [apply (crc_poly_range K24B) | done | done | split .. |]; try (vm_compute; split; [discriminate | reflexivity]).
  - by apply (cong_witness _ _ _ 0x1ffff83ffe007f83e0e000063).
  - by apply (cong_witness _ _ _ 0x1ffff83ffe007f83e0e000063ffe7c7f9c18e7c1f).
  - by apply (cong_witness _ _ _ 0x1ffff83ff).
  - split; vm_compute; split; [discriminate | reflexivity | discriminate | reflexivity].
Qed.

Lemma octet_step_short_ok poly table crc b :
  table_ok poly 24 table → is_u32 crc ∧ crc mod 2 ^ 24 = 0 → 0 <= b < 256 →
  ∃ crc', octet_step_short table 24 crc b = Ok crc' ∧ (is_u32 crc' ∧ crc' mod 2 ^ 24 = 0) ∧
          cong (generator32 poly) crc' (Z.lxor (Z.shiftl crc 8) (Z.shiftl b 32)).
Proof.
  intros Ht [Hcrc Hm] Hb. destruct (entry_shift poly 24 table Ht crc 8 b) as (e & E & He & Hem & C); [done | lia | lia |].
  exists e. split_and!; [exact E | done | done |].
  rewrite <- C. apply eq_cong. replace (u32 (Z.shiftl crc 8)) with 0; [by rewrite Z.lxor_0_l |].
  unfold u32. change (2 ^ 32) with (2 ^ (24 + 8)).
  rewrite Z.shiftl_mul_pow2, Z.pow_add_r, Z.mul_mod_distr_r, Hm by lia. done.
Qed.

(** ** Both paths *)

Section functions.
Context {V : Simd} {SL : SimdLaws V} (USE_INTEL_CRC : bool) (T : crc_tables) (HT : tables_ok T).

Lemma plain_table_crc poly sh table p bitlen :
  0 <= poly < 2 ^ 32 → table_ok poly sh table → is_bytes p → 0 <= bitlen <= 8 * zlen p →
  ∃ r, table_crc (octet_step table sh) table sh p bitlen = Ok r ∧ is_u32 r ∧
       cong (generator32 poly) r (Z.shiftl (message p bitlen) 32).
Proof using.
  intros Hpoly Ht Hp Hlen.
  apply (table_crc_ok poly Hpoly sh table Ht is_u32); [unfold is_u32; lia | done | | done | done].
  intros. by apply (octet_step_ok poly sh table Ht).
Qed.

Lemma short_table_crc poly table p bitlen :
  0 <= poly < 2 ^ 32 → table_ok poly 24 table → is_bytes p → 0 <= bitlen <= 8 * zlen p →
  ∃ r, table_crc (octet_step_short table 24) table 24 p bitlen = Ok r ∧ is_u32 r ∧
       cong (generator32 poly) r (Z.shiftl (message p bitlen) 32).
Proof using.
  intros Hpoly Ht Hp Hlen.
  apply (table_crc_ok poly Hpoly 24 table Ht (λ crc, is_u32 crc ∧ crc mod 2 ^ 24 = 0));
    [unfold is_u32; split; [lia | done] | by intros ? [] | | done | done].
  intros. by apply octet_step_short_ok.
Qed.

Lemma message_octets p bitlen : bitlen mod 8 = 0 → message p bitlen = win p 0 (bitlen / 8).
Proof using.
  intros H. unfold message, win. replace ((- bitlen) mod 8) with 0 by (Z.div_mod_to_equations; lia).
  rewrite Z.shiftr_0_r. change (Z.to_nat 0) with 0%nat. rewrite drop_0. do 3 f_equal.
  Z.div_mod_to_equations. lia.
Qed.

Lemma pclmul_path c poly p bitlen :
  ctx_ok c poly → is_bytes p → 0 <= bitlen <= 8 * zlen p → bitlen < 2 ^ 31 → bitlen mod 8 = 0 →
  (0 < bitlen → read_extent (bitlen / 8) <= zlen p) →
  ∃ r, crc32_calc_pclmulqdq p (u32 (Z.quot bitlen 8)) 0 c = Ok r ∧ is_u32 r ∧
       cong (generator32 poly) r (Z.shiftl (message p bitlen) 32).
Proof using SL.
  intros Hc Hp Hlen Hb Hm Hre. rewrite message_octets, Z.quot_div_nonneg by (done || lia).
  replace (u32 (bitlen / 8)) with (bitlen / 8).
  2:{ unfold u32. rewrite Z.mod_small; [done |]. Z.div_mod_to_equations. lia. }
  destruct (Z.eq_dec bitlen 0) as [-> | H0].
  - exists 0. split; [done |]. split; [unfold is_u32; lia |]. by apply eq_cong.
  - apply (pclmulqdq_ok c poly Hc p Hp); [| | apply Hre; lia |]; Z.div_mod_to_equations; lia.
Qed.

Lemma crc_fun_ok k p bitlen :
  is_bytes p → 0 <= bitlen <= 8 * zlen p → bitlen < 2 ^ 31 → readable USE_INTEL_CRC k p bitlen →
  ∃ r, crc_fun USE_INTEL_CRC T k p bitlen = Ok r ∧ is_u32 r ∧
       cong (generator32 (crc_poly k)) r (Z.shiftl (message p bitlen) 32).
Proof using SL HT.
  intros Hp Hlen Hb Hre. pose proof (crc_poly_range k) as Hr. destruct HT.
  destruct k; simpl crc_fun; simpl crc_poly in *;
    try (unfold crc24c, crc16, crc12, crc11; by apply plain_table_crc);
    try (unfold crc8, crc6; by apply short_table_crc).
  all: unfold crc24a, crc24b; destruct (_ || _) eqn:E; [by apply plain_table_crc |].
  all: apply orb_false_elim in E as [E1%negb_false_iff%Z.eqb_eq E2%negb_false_iff].
  all: rewrite Z.rem_mod_nonneg in E1 by lia; unfold readable in Hre.
  all: apply pclmul_path; auto using ctx_24a, ctx_24b.
Qed.

(** The value of a check: its remainder [crc_rem], at the top of the register. *)
Lemma crc_fun_narrow k p bitlen :
  is_bytes p → 0 <= bitlen <= 8 * zlen p → bitlen < 2 ^ 31 → readable USE_INTEL_CRC k p bitlen →
  ∃ r, crc_fun USE_INTEL_CRC T k p bitlen = Ok (Z.shiftl r (32 - crc_width k)) ∧
       0 <= r < 2 ^ crc_width k ∧ cong (crc_generator k) r (Z.shiftl (message p bitlen) (crc_width k)).
Proof using SL HT.
  intros Hp Hlen Hb Hre. destruct (crc_fun_ok k p bitlen) as (r & E & Hr & C); [done.. |].
  destruct (narrow k r _ Hr C) as (E1 & E2 & E3). exists (Z.shiftr r (32 - crc_width k)).
  by rewrite E, <- E1.
Qed.
End functions.

Lemma init_tables T : crcTableInit = Ok T → tables_ok T.
Proof. intros H. destruct crcTableInit_ok as (T' & E & HT). rewrite E in H. by injection H as <-. Qed.

(** C20: (functional) On any message, of a whole number of octets or not, each of the eight CRC
    functions returns the remainder of the message times x^L modulo its generator polynomial of
    TS 38.212, aligned to the top of the 32-bit word; with or without the carry-less
    multiplication path, whose reads past the message do not influence the result. *)
Theorem crc_is_remainder {V : Simd} {SL : SimdLaws V} (USE_INTEL_CRC : bool) (T : crc_tables)
    (k : crc_kind) (p : bytes) (bitlen : Z) :
  crcTableInit = Ok T → is_bytes p → 0 <= bitlen <= 8 * zlen p → bitlen < 2 ^ 31 →
  readable USE_INTEL_CRC k p bitlen →
  ∃ r, crc_fun USE_INTEL_CRC T k p bitlen = Ok (Z.shiftl r (32 - crc_width k)) ∧
       0 <= r < 2 ^ crc_width k ∧
       cong (crc_generator k) r (Z.shiftl (message p bitlen) (crc_width k)).
Proof. intros HT%init_tables. by apply crc_fun_narrow. Qed.

(** C21: (equivalence) On whole octets every table-driven or vectorised CRC returns what the
    bit-by-bit [crcbit] returns for its polynomial. *)
Theorem crc_equals_crcbit {V : Simd} {SL : SimdLaws V} (USE_INTEL_CRC : bool) (T : crc_tables)
    (k : crc_kind) (p : bytes) (n : Z) :
  crcTableInit = Ok T → is_bytes p → 0 <= n <= zlen p → 8 * n < 2 ^ 31 →
  readable USE_INTEL_CRC k p (8 * n) →
  crc_fun USE_INTEL_CRC T k p (8 * n) = crcbit p n (crc_poly k).
Proof.
  intros HT%init_tables Hp Hn Hb Hre. pose proof (crc_poly_range k) as Hpoly.
  destruct (crc_fun_ok USE_INTEL_CRC T HT k p (8 * n)) as (r & -> & Hr & C); [done | lia | done | done |].
  unfold crcbit.
  destruct (octets_ok (crc_poly k) Hpoly is_u32 (λ crc b, Ok (crcbit_octet (crc_poly k) crc b)))
    with (n := Z.to_nat n) (p := p) (crc := 0) (M := 0) as (r' & E & Hr' & C');
    [done | | unfold zlen in Hn; lia | done | unfold is_u32; lia | by rewrite Z.shiftl_0_l |].
  { intros crc b Hcrc Hx. destruct (crcbit_octet_cong (crc_poly k) Hpoly crc b Hcrc Hx) as [H1 H2].
    by eexists. }
  rewrite E. simpl. f_equal. apply (remainder_unique _ Hpoly _ _ _ Hr Hr' C).
  rewrite C'. rewrite message_octets by (rewrite Z.mul_comm; apply Z.mod_mul; lia).
  rewrite (Z.mul_comm 8), Z.div_mul by lia. done.
Qed.

(** ** Received blocks *)

Definition kind_of_type (crc_type : Z) : option crc_kind :=
  if crc_type =? CRC24_A then Some K24A
  else if crc_type =? CRC24_B then Some K24B
  else if crc_type =? CRC16 then Some K16
  else if crc_type =? CRC8 then Some K8
  else None.

(** A block of [n] bits that [check_crc] can read. *)
Definition checkable (USE_INTEL_CRC : bool) (k : crc_kind) (d : bytes) (n : Z) : Prop :=
  is_bytes d ∧ n mod 8 = 0 ∧ crc_width k <= n <= 8 * zlen d ∧ n < 2 ^ 31 ∧
  readable USE_INTEL_CRC k d (n - crc_width k).

Lemma win_1 d o b : d !! Z.to_nat o = Some b → win d o 1 = b.
Proof.
  intros H. unfold win. rewrite (drop_S _ b) by done. change (Z.to_nat 1) with 1%nat. simpl.
  unfold poly_of, shift_in. simpl. done.
Qed.

Lemma win_snoc d o k b :
  0 <= o → 0 <= k → d !! Z.to_nat (o + k) = Some b → win d o (k + 1) = shift_in (win d o k) b.
Proof.
  intros Ho Hk H. pose proof (lookup_lt_Some _ _ _ H) as Hl.
  rewrite win_app, (win_1 d (o + k) b) by (done || unfold zlen; lia). done.
Qed.

Lemma lor_shift_in a b : 0 <= b < 256 → Z.lor (Z.shiftl a 8) b = shift_in a b.
Proof. intros Hb. rewrite Z.lor_comm. by apply lor_shiftl. Qed.

Lemma read_byte d n len i :
  is_bytes d → 0 <= len → 0 <= i → n mod 8 = 0 → 8 * len <= n <= 8 * zlen d → n < 2 ^ 31 → i < len →
  ∃ b, znth d (u32 (Z.shiftr n 3 - len + i)) = Some b ∧ 0 <= b < 256 ∧ d !! Z.to_nat (n / 8 - len + i) = Some b.
Proof.
  intros Hd Hl Hi Hm Hn Hu Hil. rewrite Z.shiftr_div_pow2 by lia. change (2 ^ 3) with 8.
  assert (Hr : 0 <= n / 8 - len + i < zlen d) by (Z.div_mod_to_equations; lia).
  replace (u32 (n / 8 - len + i)) with (n / 8 - len + i).
  2:{ unfold u32. rewrite Z.mod_small; [done |]. Z.div_mod_to_equations. lia. }
  destruct (znth_is_Some d _ Hr) as [b Hb]. exists b. split; [done |].
  rewrite znth_lookup in Hb by lia. split; [| done].
  by apply (Forall_lookup_1 _ _ _ _ Hd Hb).
Qed.

(** The parity bits of the block. *)
Lemma read_oldcrc_ok d n len :
  is_bytes d → n mod 8 = 0 → 8 * len <= n <= 8 * zlen d → n < 2 ^ 31 → len = 1 ∨ len = 2 ∨ len = 3 →
  read_oldcrc d n len = Ok (win d (n / 8 - len) len).
Proof.
  intros Hd Hm Hn Hu Hl. unfold read_oldcrc. set (o := n / 8 - len).
  assert (Ho : 0 <= o) by (unfold o; Z.div_mod_to_equations; lia).
  destruct (read_byte d n len 0) as (b0 & E0 & R0 & L0); [done | lia | lia | done | done | done | lia |].
  fold o in L0. rewrite Z.add_0_r in L0. pose proof (win_1 d o b0 L0) as W1.
  destruct Hl as [-> | Hl]; [| destruct (read_byte d n len 1) as (b1 & E1 & R1 & L1);
    [done | lia | lia | done | done | done | lia |]; destruct Hl as [-> | ->]].
  - change (seqZ 0 1) with [0]. cbn [foldl]. rewrite E0. simpl. by rewrite W1.
  - change (seqZ 0 2) with [0; 1]. cbn [foldl]. rewrite E0, E1. cbn [mbind res_bind deref].
    f_equal. change 2 with (1 + 1) at 3. rewrite (win_snoc d o 1 b1) by (done || lia). rewrite W1.
    rewrite <- lor_shift_in by done. done.
  - destruct (read_byte d n 3 2) as (b2 & E2 & R2 & L2); [done | lia | lia | done | done | done | lia |].
    change (seqZ 0 3) with [0; 1; 2]. cbn [foldl]. rewrite E0, E1, E2. cbn [mbind res_bind deref].
    f_equal. change 3 with (1 + 1 + 1) at 7. rewrite (win_snoc d o _ b2), (win_snoc d o 1 b1) by (done || lia).
    rewrite W1, <- !lor_shift_in, Z.shiftl_lor, Z.shiftl_shiftl by (done || lia). done.
Qed.

Lemma message_parity d n len :
  n mod 8 = 0 → 0 <= len → 8 * len <= n <= 8 * zlen d →
  message d n = Z.lxor (Z.shiftl (message d (n - 8 * len)) (8 * len)) (win d (n / 8 - len) len).
Proof.
  intros Hm Hl Hn. assert (Hm' : (n - 8 * len) mod 8 = 0) by (Z.div_mod_to_equations; lia).
  rewrite !message_octets by done. replace ((n - 8 * len) / 8) with (n / 8 - len) by (Z.div_mod_to_equations; lia).
  replace (n / 8) with (n / 8 - len + len) at 1 by lia.
  rewrite win_app by (Z.div_mod_to_equations; lia). done.
Qed.

Lemma land_ones_small x m : 0 <= m → 0 <= x < 2 ^ m → Z.land x (Z.ones m) = x.
Proof. intros. rewrite Z.land_ones by done. by apply Z.mod_small. Qed.

Section checking.
Context {V : Simd} {SL : SimdLaws V} (USE_INTEL_CRC : bool) (T : crc_tables) (HT : tables_ok T).

Lemma kind_width t k :
  kind_of_type t = Some k →
  crc_width k = 8 * crc_len_of t ∧ (crc_len_of t = 1 ∨ crc_len_of t = 2 ∨ crc_len_of t = 3).
Proof using.
  unfold kind_of_type, crc_len_of. intros H.
  destruct (t =? CRC24_A); [by injection H as <-; auto |].
  destruct (t =? CRC24_B); [by injection H as <-; auto |].
  destruct (t =? CRC16); [by injection H as <-; auto |].
  destruct (t =? CRC8); [by injection H as <-; auto | done].
Qed.

(** [check_crc] compares the parity bits with the remainder. *)
Lemma check_crc_unfold t k d n r :
  kind_of_type t = Some k → 0 <= n - crc_width k < 2 ^ 31 →
  0 <= r < 2 ^ crc_width k → is_bytes d → n <= 8 * zlen d →
  crc_fun USE_INTEL_CRC T k d (n - crc_width k) = Ok (Z.shiftl r (32 - crc_width k)) →
  n mod 8 = 0 → n < 2 ^ 31 →
  check_crc USE_INTEL_CRC T d n t = Ok (b2z (r =? win d (n / 8 - crc_len_of t) (crc_len_of t))).
Proof using.
  intros Hk Hn Hr Hd Hz E Hm Hu. destruct (kind_width t k Hk) as [Hw Hl].
  unfold check_crc. rewrite read_oldcrc_ok by (done || lia). cbn [mbind res_bind].
  set (w := win d _ _). assert (Hb : 0 <= w < 2 ^ crc_width k).
  { rewrite Hw. apply win_bound; [done | | lia |]; Z.div_mod_to_equations; lia. }
  assert (Hi : to_int (u32 (n - crc_width k)) = n - crc_width k).
  { unfold to_int, u32. rewrite Z.mod_small by lia. by decide_true (n - crc_width k <? 2 ^ 31). }
  assert (Hs : Z.shiftr (Z.shiftl r (32 - crc_width k)) (32 - crc_width k) = r).
  { rewrite Z.shiftr_shiftl_l, Z.sub_diag, Z.shiftl_0_r; [done |]. destruct k; simpl; lia. }
  unfold kind_of_type in Hk.
  repeat match type of Hk with
  | (if ?b then Some _ else _) = _ =>
      destruct b; [injection Hk as <-; simpl crc_width in *; simpl crc_fun in E; rewrite Hi, E; cbn [mbind res_bind];
        change 0xffffff with (Z.ones 24); change 0xffff with (Z.ones 16); change 0xff with (Z.ones 8);
        rewrite land_ones_small by (done || lia); change (32 - 24) with 8 in Hs; change (32 - 16) with 16 in Hs;
        change (32 - 8) with 24 in Hs; change (32 - 24) with 8; change (32 - 16) with 16;
        change (32 - 8) with 24; rewrite Hs; done |]
  end.
  done.
Qed.

Lemma check_crc_ok t k d n :
  kind_of_type t = Some k → checkable USE_INTEL_CRC k d n →
  ∃ b : bool, check_crc USE_INTEL_CRC T d n t = Ok (b2z b) ∧ (b = true ↔ multiple (crc_generator k) (message d n)).
Proof using SL HT.
  intros Hk (Hd & Hm & Hn & Hu & Hre). destruct (kind_width t k Hk) as [Hw Hl].
  destruct (crc_aligned k) as (_ & Hlog & _ & HL). pose proof (crc_generator_pos k) as Hg.
  destruct (crc_fun_narrow USE_INTEL_CRC T HT k d (n - crc_width k)) as (r & E & Hr & C);
    [done | lia | lia | done |].
  eexists. split; [apply (check_crc_unfold t k d n r); done || lia |].
  rewrite Z.eqb_eq, (message_parity d n (crc_len_of t)) by (done || lia). rewrite <- Hw.
  set (w := win d _ _). set (M := message d _) in *.
  assert (Hb : 0 <= w < 2 ^ crc_width k).
  { rewrite Hw. apply win_bound; [done | | lia |]; Z.div_mod_to_equations; lia. }
  split.
  - intros ->. change (cong (crc_generator k) (Z.shiftl M (crc_width k)) w). by symmetry.
  - intros H. apply (cong_small _ Hg); [by rewrite Hlog.. |]. rewrite C. exact H.
Qed.
End checking.

(** [check_crc] accepts a block of a known type exactly when the polynomial of
    all its bits is a multiple of the generator. *)
Theorem check_crc_accepts_iff {V : Simd} {SL : SimdLaws V} (USE_INTEL_CRC : bool) (T : crc_tables)
    (t : Z) (k : crc_kind) (d : bytes) (n : Z) :
  crcTableInit = Ok T → kind_of_type t = Some k → checkable USE_INTEL_CRC k d n →
  ∃ v, check_crc USE_INTEL_CRC T d n t = Ok v ∧ (v = 0 ∨ v = 1) ∧
       (v = 1 ↔ multiple (crc_generator k) (message d n)).
Proof.
  intros HT%init_tables Hk Hd. destruct (check_crc_ok USE_INTEL_CRC T HT t k d n Hk Hd) as ([] & E & H).
  - exists 1. split_and!; [done | by right |]. split; [intros _; by apply H | done].
  - exists 0. split_and!; [done | by left |]. split; [done | by intros ?%H].
Qed.

(** C22: (safety) A burst of errors that spans at most as many bits as there are parity bits is
    always detected: if a block is accepted, no block that differs from it by a non-zero
    pattern of that width, wherever it starts, is. *)
Theorem check_crc_detects_bursts {V : Simd} {SL : SimdLaws V} (USE_INTEL_CRC : bool) (T : crc_tables)
    (t : Z) (k : crc_kind) (d d' : bytes) (n burst at_bit : Z) :
  crcTableInit = Ok T → kind_of_type t = Some k →
  checkable USE_INTEL_CRC k d n → checkable USE_INTEL_CRC k d' n →
  0 < burst < 2 ^ crc_width k → 0 <= at_bit →
  message d' n = Z.lxor (message d n) (Z.shiftl burst at_bit) →
  check_crc USE_INTEL_CRC T d n t = Ok 1 → check_crc USE_INTEL_CRC T d' n t = Ok 0.
Proof.
  intros HT%init_tables Hk Hd Hd' Hb Ha Hm H1.
  destruct (check_crc_ok USE_INTEL_CRC T HT t k d n Hk Hd) as (b & E & Hmul).
  destruct (check_crc_ok USE_INTEL_CRC T HT t k d' n Hk Hd') as (b' & E' & Hmul').
  rewrite E in H1. destruct b; [| done]. rewrite E'. destruct b'; [exfalso | done].
  destruct (crc_aligned k) as (_ & Hlog & Hodd & _). pose proof (crc_generator_pos k) as Hg.
  assert (Hs : multiple (crc_generator k) (Z.shiftl burst at_bit)).
  { replace (Z.shiftl burst at_bit) with (Z.lxor (message d n) (message d' n)) by (rewrite Hm; xor_bits).
    apply multiple_lxor; [by apply Hmul | by apply Hmul']. }
  apply multiple_unshift in Hs; [| done | done | lia | done].
  apply multiple_small in Hs; [lia | done |]. rewrite Hlog. lia.
Qed.

(** (error) A check of a type [check_crc] does not know succeeds: its [AssertFatal(1, ...)]
    never fires, and the block is declared good without being read. *)
Theorem check_crc_unknown_type {V : Simd} (USE_INTEL_CRC : bool) (T : crc_tables) (d : bytes) (n t : Z) :
  kind_of_type t = None → check_crc USE_INTEL_CRC T d n t = Ok 1.
Proof.
  unfold kind_of_type, check_crc, crc_len_of. intros H.
  destruct (t =? CRC24_A); [done |]. destruct (t =? CRC24_B); [done |].
  destruct (t =? CRC16); [done |]. by destruct (t =? CRC8).
Qed.

(** The vectorised path loads sixteen octets whatever the length of the message: a shorter
    buffer is read past its end. *)
Lemma short_buffer_is_overread {V : Simd} (T : crc_tables) (p : bytes) :
  0 < zlen p < 16 → crc24a true T p (8 * zlen p) = UB.
Proof.
  intros Hp. unfold crc24a. rewrite Z.rem_mod_nonneg, Z.quot_div_nonneg by lia.
  rewrite (Z.mul_comm 8), Z.mod_mul, Z.div_mul by lia. simpl negb. cbv iota. simpl orb. cbv iota.
  unfold crc32_calc_pclmulqdq. replace (u32 (zlen p)) with (zlen p) by (unfold u32; rewrite Z.mod_small; lia).
  decide_false (zlen p =? 0). unfold loadu, slice.
  by decide_false ((0 <=? 0) && (0 <=? 16) && (0 + 16 <=? zlen p)).
Qed.

(** ** Concrete inputs *)

Definition no_tables : crc_tables := mk_tables [] [] [] [] [] [] [] [].
Definition the_tables : crc_tables := match crcTableInit with Ok T => T | _ => no_tables end.

Lemma the_tables_ok : crcTableInit = Ok the_tables.
Proof. unfold the_tables. by destruct crcTableInit_ok as (T & -> & _). Qed.

(** Twelve octets in a buffer of thirty-two. *)
Definition sample : bytes := [84; 104; 101; 98; 105; 103; 114; 101; 100; 102; 111; 120] ++ replicate 20 0.
(** Ten octets, their CRC16 and other data; the same block with a burst of sixteen bits. *)
Definition sample_block : bytes := [1; 2; 3; 4; 5; 6; 7; 8; 9; 10; 205; 75] ++ replicate 20 255.
Definition sample_burst : bytes := [1; 2; 3; 4; 0x5a; 0xf0; 7; 8; 9; 10; 205; 75] ++ replicate 20 255.

Lemma sample_bytes : is_bytes sample ∧ is_bytes sample_block ∧ is_bytes sample_burst.
Proof. split_and!; repeat (constructor; [lia |]); constructor. Qed.

Lemma crc_is_remainder_witness :
  ∃ r, crc_fun true the_tables K24A sample 96 = Ok (Z.shiftl r (32 - crc_width K24A)) ∧
       0 <= r < 2 ^ crc_width K24A ∧
       cong (crc_generator K24A) r (Z.shiftl (message sample 96) (crc_width K24A)).
Proof.
  apply crc_is_remainder; [exact the_tables_ok | apply sample_bytes | | lia |].
  - change (zlen sample) with 32. lia.
  - intros _ _ _ _. change (zlen sample) with 32. change (read_extent (96 / 8)) with 16. lia.
Defined.

Lemma crc_equals_crcbit_witness :
  crc_fun true the_tables K24B sample (8 * 12) = crcbit sample 12 (crc_poly K24B).
Proof.
  apply crc_equals_crcbit; [exact the_tables_ok | apply sample_bytes | | lia |].
  - change (zlen sample) with 32. lia.
  - intros _ _ _ _. change (zlen sample) with 32. change (read_extent (8 * 12 / 8)) with 16. lia.
Defined.

Lemma sample_checkable d : is_bytes d → zlen d = 32 → checkable true K16 d 96.
Proof.
  intros Hb Hl. unfold checkable. rewrite Hl. simpl crc_width.
  split_and!; [done | done | lia | lia | lia |]. by intros _ [? | ?].
Qed.

Lemma check_crc_accepts_iff_witness :
  ∃ v, check_crc true the_tables sample_block 96 CRC16 = Ok v ∧ (v = 0 ∨ v = 1) ∧
       (v = 1 ↔ multiple (crc_generator K16) (message sample_block 96)).
Proof.
  apply check_crc_accepts_iff; [exact the_tables_ok | reflexivity |].
  apply sample_checkable; [apply sample_bytes | reflexivity].
Defined.

Lemma check_crc_detects_bursts_witness :
  check_crc true the_tables sample_burst 96 CRC16 = Ok 0.
Proof.
  apply (check_crc_detects_bursts true the_tables CRC16 K16 sample_block sample_burst 96 0x5ff6 48);
    [exact the_tables_ok | reflexivity | apply sample_checkable; [apply sample_bytes | reflexivity]
    | apply sample_checkable; [apply sample_bytes | reflexivity] | simpl; lia | lia
    | vm_compute; reflexivity | vm_compute; reflexivity].
Defined.

Lemma check_crc_unknown_type_witness : check_crc true the_tables [] 24 7 = Ok 1.
Proof. apply check_crc_unknown_type. reflexivity. Defined.
