(* ===== verification/NrSegmentation.v ===== *)
(** * Transport blocks: size, segmentation, reassembly

    Models [nr_compute_tbs] of [nr_compute_tbs_common.c], [get_BG] of [nr_mac_common.c],
    [nr_segmentation] of [openair1/PHY/CODING/nr_segmentation.c], [nr_get_G] and [nr_get_E] of
    [nr_tbs_tools.c], the CRC attachment of [nr_dlsch_encoding] and [nr_ulsch_pre_encoding], and
    what [nr_dlsch_decoding], [nr_ulsch_decoding] and [phy_procedures_gNB_uespec_RX] do with the
    decoded segments.  The LDPC code itself, between the two, is a library loaded at run time:
    its output is an argument. *)

From S2P Require Import Prelude Gf2 Crc.

(** ** Size of a transport block: nr_compute_tbs_common.c *)

Definition INDEX_MAX_TBS_TABLE : nat := 93.
Definition Tbstable_nr : list Z :=
  [24;   32;   40;   48;   56;   64;   72;   80;   88;   96;   104;  112;  120;  128;  136;  144;  152;  160;  168;
   176;  184;  192;  208;  224;  240;  256;  272;  288;  304;  320;  336;  352;  368;  384;  408;  432;  456;  480;
   504;  528;  552;  576;  608;  640;  672;  704;  736;  768;  808;  848;  888;  928;  984;  1032; 1064; 1128; 1160;
   1192; 1224; 1256; 1288; 1320; 1352; 1416; 1480; 1544; 1608; 1672; 1736; 1800; 1864; 1928; 2024; 2088; 2152; 2216;
   2280; 2408; 2472; 2536; 2600; 2664; 2728; 2792; 2856; 2976; 3104; 3240; 3368; 3496; 3624; 3752; 3824].

Definition CEILIDIV (a b : Z) : Z := (a + b - 1) / b.
Definition ROUNDIDIV (a b : Z) : Z := (Z.shiftl a 1 + b) / Z.shiftl b 1.

(** The first entry that is not smaller; 0 if there is none. *)
Fixpoint first_tbs (table : list Z) (Np_info : Z) : Z :=
  match table with
  | [] => 0
  | t :: table => if Np_info <=? t then t else first_tbs table Np_info
  end.

(** The intermediate number of information bits; [tb_scaling] is a shift count. *)
Definition tbs_Ninfo (Qm R nb_rb nb_symb_sch nb_dmrs_prb nb_rb_oh tb_scaling Nl : Z) : Z :=
  let nbp_re := u32 (12 * nb_symb_sch - nb_dmrs_prb - nb_rb_oh) in
  let nb_re := u32 (Z.min 156 nbp_re * nb_rb) in
  let R_5 := R / 5 in
  Z.shiftr (Z.shiftr (u32 (nb_re * R_5 * Qm * Nl)) 11) tb_scaling.

(** [log2] of a positive integer, truncated; [log2(0)] is minus infinity, which the maximum
    with 3 absorbs.  Below 2^21 information bits no operation wraps. *)
Definition tbs_of_Ninfo (Ninfo R : Z) : Z :=
  if Ninfo <=? NR_MAX_PDSCH_TBS then
    let n := Z.max 3 (Z.log2 Ninfo - 6) in
    let Np_info := Z.max 24 (Z.shiftl (Z.shiftr Ninfo n) n) in
    first_tbs (take INDEX_MAX_TBS_TABLE Tbstable_nr) Np_info
  else
    let n := Z.log2 (Ninfo - 24) - 5 in
    let Np_info := Z.max 3840 (Z.shiftl (ROUNDIDIV (Ninfo - 24) (Z.shiftl 1 n)) n) in
    if R <=? 2560 then
      let C := CEILIDIV (Np_info + 24) 3816 in
      Z.shiftl C 3 * CEILIDIV (Np_info + 24) (Z.shiftl C 3) - 24
    else if 8424 <? Np_info then
      let C := CEILIDIV (Np_info + 24) 8424 in
      Z.shiftl C 3 * CEILIDIV (Np_info + 24) (Z.shiftl C 3) - 24
    else Z.shiftl (CEILIDIV (Np_info + 24) 8) 3 - 24.

Definition nr_compute_tbs (Qm R nb_rb nb_symb_sch nb_dmrs_prb nb_rb_oh tb_scaling Nl : Z) : Z :=
  if (Qm =? 0) || (R =? 0) || (nb_rb =? 0) || (Nl =? 0) then 0
  else tbs_of_Ninfo (tbs_Ninfo Qm R nb_rb nb_symb_sch nb_dmrs_prb nb_rb_oh tb_scaling Nl) R.

(** [(float)R / 10240.0f <= 0.6667], and [<= 0.25], as bounds on the integer [R]. *)
Definition get_BG (A R : Z) : Z :=
  if (A <=? 292) || ((A <=? NR_MAX_PDSCH_TBS) && (R <=? 6827)) || (R <=? 2560) then 2 else 1.

(** ** Segmentation: nr_segmentation.c *)

(** The variables the caller passes by address, and the output buffers. *)
Record seg_out := mk_seg {
  seg_C : Z;
  seg_K : Z;
  seg_Z : Z;
  seg_F : Z;
  seg_bufs : list bytes
}.
#[export] Instance settable_seg_out : Settable seg_out :=
  λ r, mk_seg (seg_C r) (seg_K r) (seg_Z r) (seg_F r) (seg_bufs r).

(** [L], [*C] and [Bprime]. *)
Definition code_blocks (B BG : Z) : Z * Z * Z :=
  let Kcb := if BG =? 1 then 8448 else 3840 in
  if B <=? Kcb then (0, 1, B)
  else
    let L := 24 in
    let C := B / (Kcb - L) in
    let C := if u32 ((Kcb - L) * C) <? B then u32 (C + 1) else C in
    (L, C, u32 (B + u32 (C * L))).

Definition info_columns (B BG : Z) : Z :=
  if BG =? 1 then 22
  else if 640 <? B then 10
  else if 560 <? B then 9
  else if 192 <? B then 8
  else 6.

(** Rounding up to a multiple of [2^s] as the code does: cut, then add if it was cut. *)
Definition round_up (Zmin s : Z) : Z :=
  let K := Z.shiftl (Z.shiftr Zmin s) s in
  if K <? Zmin then K + Z.shiftl 1 s else K.

(** The cascade on [Z], here [Zmin]; [None] is [return -1]. *)
Definition lifting_size (Zmin : Z) : option Z :=
  if Zmin <=? 2 then Some 2
  else if Zmin <=? 16 then Some Zmin
  else if Zmin <=? 32 then Some (round_up Zmin 1)
  else if Zmin <=? 64 then Some (round_up Zmin 2)
  else if Zmin <=? 128 then Some (round_up Zmin 3)
  else if Zmin <=? 256 then Some (round_up Zmin 4)
  else if Zmin <=? 384 then Some (round_up Zmin 5)
  else None.

(** Byte [i] of an [unsigned int] in memory. *)
Definition crc_byte (crc i : Z) : Z := Z.shiftr crc (8 * i) mod 256.

Section segmentation.
Context `{Simd} (USE_INTEL_CRC : bool) (T : crc_tables).

(** The filler octets, from [from] up to [upto]. *)
Definition write_filler (buf : bytes) (from upto : Z) : res bytes :=
  foldl (λ acc k, buf ← acc; zset buf k 0) (Ok buf) (seqZ from (upto - from)).

(** One pass of the loop on [r]: the segment's octets, its CRC, its filler. *)
Definition write_segment (input : bytes) (L C K F Kprime : Z) (r : nat) (bufs : list bytes) (s : Z)
    : res (list bytes * Z) :=
  let n := Z.shiftr (u32 (Kprime - L)) 3 in
  buf ← deref (bufs !! r);
  buf ← memcpy buf 0 input s n;
  let s := u32 (s + n) in
  buf ← (if 1 <? C then
           crc ← crc24b USE_INTEL_CRC T buf (to_int (u32 (Kprime - L)));
           let crc := Z.shiftr crc 8 in
           buf ← zset buf n (crc_byte crc 2);
           buf ← zset buf (1 + n) (crc_byte crc 1);
           zset buf (2 + n) (crc_byte crc 0)
         else Ok buf);
  buf ← (if 0 <? F then write_filler buf (Z.shiftr Kprime 3) (Z.shiftr K 3) else Ok buf);
  Ok (<[r := buf]> bufs, s).

Fixpoint write_segments (input : bytes) (L C K F Kprime : Z) (n r : nat) (bufs : list bytes) (s : Z)
    : res (list bytes) :=
  match n with
  | O => Ok bufs
  | S n =>
      '(bufs, s) ← write_segment input L C K F Kprime r bufs s;
      write_segments input L C K F Kprime n (S r) bufs s
  end.

(** [input] is [None] when the two buffers are NULL; the result is the returned value and the
    variables. *)
Definition nr_segmentation (input : option bytes) (B BG : Z) (o : seg_out) : res (Z * seg_out) :=
  let '(L, C, Bprime) := code_blocks B BG in
  let o := o <| seg_C := C |> in
  let Kprime := Bprime / C in
  let Kb := info_columns B BG in
  let Zmin := if 0 <? Kprime mod Kb then Kprime / Kb + 1 else Kprime / Kb in
  match lifting_size Zmin with
  | None => Ok (-1, o)
  | Some Zc =>
      let K := if BG =? 1 then Zc * 22 else Zc * 10 in
      let F := u32 (K - Kprime) in
      let o := o <| seg_Z := Zc |> <| seg_K := K |> <| seg_F := F |> in
      match input with
      | None => Ok (Kb, o)
      | Some input =>
          bufs ← write_segments input L C K F Kprime (Z.to_nat C) 0 (seg_bufs o) 0;
          Ok (Kb, o <| seg_bufs := bufs |>)
      end
  end.

(** ** CRC attachment *)

(** [nr_ulsch_pre_encoding]: the parity octets are written behind the payload; the result is
    the payload and [B]. *)
Definition ulsch_attach (payload_AB : bytes) (A max_payload_bytes : Z) : res (bytes * Z) :=
  if NR_MAX_PDSCH_TBS <? A then
    crc ← crc24a USE_INTEL_CRC T payload_AB (to_int A);
    let crc := Z.shiftr crc 8 in
    p ← zset payload_AB (Z.shiftr A 3) (crc_byte crc 2);
    p ← zset p (1 + Z.shiftr A 3) (crc_byte crc 1);
    p ← zset p (2 + Z.shiftr A 3) (crc_byte crc 0);
    _ ← assert_that (A / 8 + 4 <=? max_payload_bytes);
    Ok (p, A + 24)
  else
    crc ← crc16 T payload_AB (to_int A);
    let crc := Z.shiftr crc 16 in
    p ← zset payload_AB (Z.shiftr A 3) (crc_byte crc 1);
    p ← zset p (1 + Z.shiftr A 3) (crc_byte crc 0);
    _ ← assert_that (A / 8 + 3 <=? max_payload_bytes);
    Ok (p, A + 16).

(** [nr_dlsch_encoding]: the same, then a copy into the buffer [b]. *)
Definition dlsch_attach (a b : bytes) (A max_bytes : Z) : res (bytes * bytes * Z) :=
  '(a, B) ← ulsch_attach a A max_bytes;
  let n := if NR_MAX_PDSCH_TBS <? A then A / 8 + 4 else A / 8 + 3 in
  b ← memcpy b 0 a 0 n;
  Ok (a, b, B).

(** ** Reassembly *)

(** The loop that copies the segments decoded in [c] to [b]. *)
Fixpoint copy_segments (C K F : Z) (n : nat) (c b : bytes) (offset r_offset : Z) : res bytes :=
  match n with
  | O => Ok b
  | S n =>
      let len := Z.shiftr K 3 - Z.shiftr F 3 - (if 1 <? C then 3 else 0) in
      b ← memcpy b offset c r_offset len;
      copy_segments C K F n c b (u32 (offset + len)) (u32 (r_offset + Z.shiftr K 3))
  end.

(** The loop that looks for a segment in error. *)
Fixpoint segments_decoded (decodeSuccess : list bool) (r n : nat) : res bool :=
  match n with
  | O => Ok true
  | S n =>
      d ← deref (decodeSuccess !! r);
      if d : bool then segments_decoded decodeSuccess (S r) n else Ok false
  end.

Definition copy_if_decoded (decodeSuccess : list bool) (o : seg_out) (c b : bytes) : res bytes :=
  crcok ← segments_decoded decodeSuccess 0 (Z.to_nat (seg_C o));
  if crcok : bool
  then copy_segments (seg_C o) (seg_K o) (seg_F o) (Z.to_nat (seg_C o)) c b 0 0 else Ok b.

(** [while (b[i] == 0 && i < sz)]: the index it stops at; [b[i]] is read before [i] is compared. *)
Fixpoint zero_run (b : bytes) (sz i : Z) (fuel : nat) : res Z :=
  match fuel with
  | O => NoFuel
  | S fuel =>
      x ← deref (znth b i);
      if (x =? 0) && (i <? sz) then zero_run b sz (i + 1) fuel else Ok i
  end.

(** [nr_dlsch_decoding] after the decoder: the transport block and [decodeResult]. *)
Definition dlsch_post_decode (TBS processedSegments : Z) (decodeSuccess : list bool) (o : seg_out)
    (c b : bytes) : res (bytes * bool) :=
  b ← copy_if_decoded decodeSuccess o c b;
  let decodeResult := processedSegments =? seg_C o in
  decodeResult ←
    (if decodeResult && (1 <? seg_C o) then
       v ← check_crc USE_INTEL_CRC T b (lenWithCrc 1 TBS) (crcType 1 TBS);
       Ok (negb (v =? 0))
     else Ok decodeResult);
  decodeResult ←
    (if decodeResult : bool then
       let sz := Z.quot TBS 8 in
       b0 ← deref (znth b sz);
       zero ← (if b0 =? 0 then b1 ← deref (znth b (sz + 1)); Ok (b1 =? 0) else Ok false);
       if zero : bool then i ← zero_run b sz 0 (S (Z.to_nat sz)); Ok (negb (i =? sz)) else Ok true
     else Ok false);
  Ok (b, decodeResult).

(** [nr_ulsch_decoding] after the decoder and the CRC check of the RX procedure. *)
Definition ulsch_post_decode (tb_size processedSegments : Z) (decodeSuccess : list bool) (o : seg_out)
    (c b : bytes) : res (bytes * bool) :=
  b ← copy_if_decoded decodeSuccess o c b;
  crc_valid ←
    (if processedSegments =? seg_C o then
       if 1 <? seg_C o then
         v ← check_crc USE_INTEL_CRC T b (lenWithCrc 1 (Z.shiftl tb_size 3)) (crcType 1 (Z.shiftl tb_size 3));
         Ok (negb (v =? 0))
       else Ok true
     else Ok false);
  Ok (b, crc_valid).
End segmentation.

(** ** Rate matching sizes: nr_tbs_tools.c *)

Definition nr_get_G (nb_rb nb_symb_sch nb_re_dmrs length_dmrs unav_res Qm Nl : Z) : Z :=
  let G := u32 ((12 * nb_symb_sch - nb_re_dmrs * length_dmrs) * nb_rb * Qm * Nl) in
  u32 (G - u32 (unav_res * Qm * Nl)).

(** [Cprime], an 8-bit copy of [C], divides; the comparison is between unsigned integers. *)
Definition nr_get_E (G C Qm Nl r : Z) : res Z :=
  _ ← assert_that (0 <? Nl);
  _ ← assert_that (0 <? Qm);
  if C =? 0 then UB else
  if r <=? u32 (C - (G / (Nl * Qm)) mod C - 1)
  then Ok (u32 (Nl * Qm * (G / (Nl * Qm * C))))
  else Ok (u32 (Nl * Qm * (G / (Nl * Qm * C) + 1))).
