(* ===== verification/NrSegProps.v ===== *)
(** * Segmentation parameters

    Lifting sizes against the table of TS 38.212, the number of code blocks and the length of a
    segment, and why the sizes [nr_compute_tbs] returns are cut without a remainder.

    Then: segmentation and reassembly of a transport block.
    What one pass of the segmentation writes, the CRC attachment, the reassembly, and the
    theorem that a transport block of a size chosen by [nr_compute_tbs] crosses the chain
    unchanged when the decoder returns the segments that were encoded. *)

From S2P Require Import Prelude Gf2 Crc CrcFacts NrSegmentation CrcFold CrcProps.

(** ** Lifting sizes: TS 38.212, Table 5.3.2-1 *)

Definition lifting_sets : list Z :=
  filter (λ z, z <= 384) (a ← [2; 3; 5; 7; 9; 11; 13; 15]; j ← seqZ 0 8; [a * 2 ^ j]).

(** [z] is the smallest lifting size that is not below [Zmin]. *)
Definition least_lifting (Zmin z : Z) : Prop :=
  z ∈ lifting_sets ∧ Zmin <= z ∧ ∀ z', z' ∈ lifting_sets → Zmin <= z' → z <= z'.

Definition least_lifting_b (Zmin : Z) : bool :=
  match lifting_size Zmin with
  | Some z =>
      bool_decide (z ∈ lifting_sets) && (Zmin <=? z) &&
      forallb (λ z', (z' <? Zmin) || (z <=? z')) lifting_sets
  | None => false
  end.

Lemma least_lifting_table : forallb least_lifting_b (seqZ 0 385) = true.
Proof. vm_compute. reflexivity. Qed.

Lemma lifting_size_ok Zmin : 0 <= Zmin <= 384 → ∃ z, lifting_size Zmin = Some z ∧ least_lifting Zmin z.
Proof.
  intros Hz. pose proof least_lifting_table as H. rewrite forallb_forall in H.
  specialize (H Zmin). rewrite <- list_elem_of_In in H. specialize (H ltac:(apply elem_of_seqZ; lia)).
  unfold least_lifting_b in H. destruct (lifting_size Zmin) as [z |]; [| done].
  apply andb_prop in H as [H H3]. apply andb_prop in H as [H1 H2].
  exists z. split; [done |]. split_and!; [by apply bool_decide_eq_true in H1 | by apply Z.leb_le |].
  intros z' Hz' Hle. rewrite forallb_forall in H3. apply list_elem_of_In, H3 in Hz'.
  apply orb_prop in Hz' as [Hlt%Z.ltb_lt | ?%Z.leb_le]; lia.
Qed.

Lemma least_lifting_bounds Zmin z : 0 <= Zmin <= 384 → least_lifting Zmin z → 2 <= z <= 384.
Proof.
  intros Hz (Hin & _ & _). revert Hin. clear. intros H.
  assert (Hf : forallb (λ z, (2 <=? z) && (z <=? 384)) lifting_sets = true) by (vm_compute; reflexivity).
  rewrite forallb_forall in Hf. apply list_elem_of_In, Hf in H. lia.
Qed.

(** ** Code blocks *)

Definition Kcb_of (BG : Z) : Z := if BG =? 1 then 8448 else 3840.

(** What [code_blocks] computes: one block, or the least number of blocks that take 24 bits of
    CRC each. *)
Lemma code_blocks_ok B BG :
  0 <= B < 2 ^ 30 →
  ∃ C, code_blocks B BG = ((if 1 <? C then 24 else 0), C, B + (if 1 <? C then 24 * C else 0)) ∧
       (if 1 <? C then (C - 1) * (Kcb_of BG - 24) < B <= C * (Kcb_of BG - 24) else C = 1) ∧
       (C = 1 ↔ B <= Kcb_of BG) ∧ 1 <= C.
Proof.
  intros HB. unfold code_blocks. fold (Kcb_of BG).
  assert (HK : Kcb_of BG = 8448 ∨ Kcb_of BG = 3840) by (unfold Kcb_of; destruct (BG =? 1); auto).
  set (k := Kcb_of BG) in *. destruct (Z.leb_spec B k) as [H | H].
  { exists 1. rewrite Z.add_0_r. split_and!; [done | done | done | lia]. }
  pose proof (Z.div_mod B (k - 24) ltac:(lia)) as Hd. pose proof (Z.mod_pos_bound B (k - 24) ltac:(lia)) as Hm.
  set (c := B / (k - 24)) in *. set (m := B mod (k - 24)) in *.
  assert (Hkc : 3816 <= k - 24 <= 8424) by lia.
  assert (Hc : 1 <= c < 2 ^ 20) by nia.
  assert (Hp : 0 <= (k - 24) * c <= B) by nia.
  set (C := if u32 ((k - 24) * c) <? B then u32 (c + 1) else c).
  assert (EC : C = if 0 <? m then c + 1 else c).
  { unfold C, u32. rewrite (Z.mod_small (_ * _)), (Z.mod_small (c + 1)) by lia.
    destruct (Z.ltb_spec 0 m), (Z.ltb_spec ((k - 24) * c) B); lia. }
  assert (HC : 2 <= C /\ (C - 1) * (k - 24) < B <= C * (k - 24)).
  { rewrite EC. destruct (Z.ltb_spec 0 m); [nia |]. split; nia. }
  exists C. decide_true (1 <? C). split_and!; [| lia | lia | lia | lia].
  assert (C < 2 ^ 21) by (rewrite EC; destruct (0 <? m); lia).
  f_equal. unfold u32. rewrite (Z.mod_small (C * 24)), Z.mod_small by lia. lia.
Qed.

(** The length of a segment and the number of columns it takes. *)
Lemma segment_length B BG C :
  0 <= B < 2 ^ 30 → (if 1 <? C then (C - 1) * (Kcb_of BG - 24) < B <= C * (Kcb_of BG - 24) else C = 1) →
  (C = 1 ↔ B <= Kcb_of BG) → 1 <= C →
  let Kprime := (B + (if 1 <? C then 24 * C else 0)) / C in
  let Kb := info_columns B BG in
  let Zmin := if 0 <? Kprime mod Kb then Kprime / Kb + 1 else Kprime / Kb in
  0 <= Kprime <= Kcb_of BG ∧ 0 <= Zmin <= 384 ∧ Kprime <= Kb * Zmin ∧ 6 <= Kb <= (if BG =? 1 then 22 else 10).
Proof.
  intros HB HC H1 Hge. cbv zeta.
  set (Kprime := (B + _) / C). set (Kb := info_columns B BG).
  assert (HK : 0 <= Kprime <= Kcb_of BG).
  { unfold Kprime. destruct (Z.ltb_spec 1 C).
    - split; [apply Z.div_pos; lia |]. apply Z.lt_succ_r, Z.div_lt_upper_bound; nia.
    - subst C. rewrite Z.add_0_r, Z.div_1_r. tauto. }
  assert (HKB : C = 1 → Kprime = B).
  { intros ->. unfold Kprime. simpl. by rewrite Z.add_0_r, Z.div_1_r. }
  assert (Hb : 6 <= Kb <= (if BG =? 1 then 22 else 10) ∧ Kcb_of BG <= 384 * Kb ∨
               6 <= Kb <= (if BG =? 1 then 22 else 10) ∧ B <= 640).
  { unfold Kb, info_columns, Kcb_of. destruct (BG =? 1); [left; lia |].
    destruct (Z.ltb_spec 640 B); [left; lia | right].
    destruct (560 <? B), (192 <? B); lia. }
  assert (Hmin : Kprime <= 384 * Kb).
  { destruct Hb as [Hb | [Hb HB']]; [lia |].
    assert (HKc : 3840 <= Kcb_of BG) by (unfold Kcb_of; destruct (BG =? 1); lia).
    rewrite HKB by (apply H1; lia). lia. }
  split; [done |]. assert (6 <= Kb) by lia.
  pose proof (Z.div_mod Kprime Kb ltac:(lia)). pose proof (Z.mod_pos_bound Kprime Kb ltac:(lia)).
  pose proof (Z.div_pos Kprime Kb). split_and!; [| | | lia | lia]; destruct (Z.ltb_spec 0 (Kprime mod Kb)); nia.
Qed.

(** ** Transport block sizes *)

Lemma first_tbs_ok table Np t : t ∈ table → Np <= t → first_tbs table Np ∈ table ∧ Np <= first_tbs table Np.
Proof.
  intros Hin Hle. induction table as [| t' table IH]; [by apply not_elem_of_nil in Hin |]. simpl.
  destruct (Z.leb_spec Np t') as [H | H]; [split; [left | done] |].
  apply elem_of_cons in Hin as [-> | Hin]; [lia |]. destruct (IH Hin). split; [by right | done].
Qed.

Lemma small_tbs Np : Np <= 3824 → 
  let A := first_tbs (take INDEX_MAX_TBS_TABLE Tbstable_nr) Np in A mod 8 = 0 ∧ 24 <= A <= 3824.
Proof.
  intros H. change (take INDEX_MAX_TBS_TABLE Tbstable_nr) with Tbstable_nr.
  assert (Hin : 3824 ∈ Tbstable_nr) by (apply list_elem_of_In; unfold Tbstable_nr; simpl; tauto).
  destruct (first_tbs_ok _ Np _ Hin H) as [Ht _]. cbv zeta.
  assert (Hf : forallb (λ t, (t mod 8 =? 0) && (24 <=? t) && (t <=? 3824)) Tbstable_nr = true) by (vm_compute; reflexivity).
  rewrite forallb_forall in Hf. apply list_elem_of_In, Hf in Ht. lia.
Qed.

Lemma CEILIDIV_bounds a b : 0 < b → 0 <= a → b * (CEILIDIV a b - 1) < a <= b * CEILIDIV a b ∨ a = 0 ∧ CEILIDIV a b = 0.
Proof.
  intros Hb Ha. unfold CEILIDIV. destruct (Z.eq_dec a 0) as [-> | Hne].
  - right. split; [done |]. apply Z.div_small. lia.
  - left. pose proof (Z.div_mod (a + b - 1) b ltac:(lia)). pose proof (Z.mod_pos_bound (a + b - 1) b Hb). nia.
Qed.

(** The block size is a multiple of eight times the number of code blocks it asks for. *)
Lemma rounded_tbs x k :
  0 < x → 0 < k →
  let C := CEILIDIV x (8 * k) in let B := Z.shiftl C 3 * CEILIDIV x (Z.shiftl C 3) in
  1 <= C ∧ B mod (8 * C) = 0 ∧ x <= B ∧ (C - 1) * (8 * k) < B <= C * (8 * k) ∧ B < x + 8 * C.
Proof.
  intros Hx Hk. cbv zeta. set (C := CEILIDIV x (8 * k)). rewrite Z.shiftl_mul_pow2 by lia. change (2 ^ 3) with 8.
  destruct (CEILIDIV_bounds x (8 * k)) as [HC | [? _]]; [lia | lia | | lia]. fold C in HC.
  assert (HC1 : 1 <= C) by nia.
  destruct (CEILIDIV_bounds x (C * 8)) as [HB | [? _]]; [lia | lia | | lia].
  set (m := CEILIDIV x (C * 8)) in *.
  assert (Hm : m <= k).
  { assert (C * 8 * (m - 1) < C * 8 * k) by lia. nia. }
  split_and!; [done | | lia | nia | nia | lia].
  replace (C * 8 * m) with (m * (8 * C)) by lia. apply Z.mod_mul. lia.
Qed.

Lemma blocks_unique k B C C' : 0 < k → (C - 1) * k < B <= C * k → (C' - 1) * k < B <= C' * k → C = C'.
Proof. intros Hk H H'. nia. Qed.

(** The number of bits of a transport block with its CRC. *)
Definition with_crc (A : Z) : Z := A + (if NR_MAX_PDSCH_TBS <? A then 24 else 16).

(** A size that is cut into equal segments of whole octets. *)
Definition cut_exactly (A BG C : Z) : Prop :=
  A mod 8 = 0 ∧ 24 <= A < 2 ^ 24 ∧ 1 <= C ∧ with_crc A mod (8 * C) = 0 ∧ (1 < C → NR_MAX_PDSCH_TBS < A) ∧
  code_blocks (with_crc A) BG =
    ((if 1 <? C then 24 else 0), C, with_crc A + (if 1 <? C then 24 * C else 0)).

(** A multiple of the number of blocks its size asks for is cut exactly. *)
Lemma cut_big A BG k C :
  NR_MAX_PDSCH_TBS < A < 2 ^ 24 → 8 * k = Kcb_of BG - 24 → Kcb_of BG < A + 24 →
  1 <= C → (A + 24) mod (8 * C) = 0 → (C - 1) * (8 * k) < A + 24 <= C * (8 * k) → cut_exactly A BG C.
Proof.
  unfold NR_MAX_PDSCH_TBS. intros HA Hk HK HC Hm Hb.
  assert (Hw : with_crc A = A + 24) by (unfold with_crc, NR_MAX_PDSCH_TBS; by decide_true (3824 <? A)).
  destruct (code_blocks_ok (A + 24) BG) as (C' & E & HC' & H1 & Hge); [lia |].
  assert (C = C') as <-.
  { destruct (Z.ltb_spec 1 C'); [| lia]. apply (blocks_unique (8 * k) (A + 24)); [lia | done | by rewrite Hk]. }
  split_and!; [| lia | lia | done | by rewrite Hw | unfold NR_MAX_PDSCH_TBS; lia | by rewrite Hw].
  assert (8 * C ≠ 0) as Hne by lia. pose proof (Z.div_mod (A + 24) (8 * C) Hne) as E8. rewrite Hm in E8.
  set (t := (A + 24) / (8 * C)) in *. replace A with ((C * t - 3) * 8) by lia. apply Z.mod_mul. lia.
Qed.

Lemma cut_one A BG : A mod 8 = 0 → 24 <= A < 2 ^ 24 → with_crc A <= Kcb_of BG → cut_exactly A BG 1.
Proof.
  intros Hm HA HK. assert (Hw : 0 <= with_crc A < 2 ^ 30 ∧ with_crc A mod 8 = 0).
  { unfold with_crc. destruct (_ <? _); Z.div_mod_to_equations; lia. }
  destruct (code_blocks_ok (with_crc A) BG) as (C & E & _ & [_ H1] & _); [tauto |].
  rewrite (H1 HK) in E. split_and!; [done | lia | lia | lia | rewrite Z.mul_1_r; tauto | lia | exact E].
Qed.

(** The quantised number of information bits. *)
Lemma quantised_bound Ninfo :
  3824 < Ninfo < 2 ^ 21 →
  let n := Z.log2 (Ninfo - 24) - 5 in
  3840 <= Z.max 3840 (Z.shiftl (ROUNDIDIV (Ninfo - 24) (Z.shiftl 1 n)) n) < 2 ^ 22.
Proof.
  intros HN. cbv zeta. set (a := Ninfo - 24). set (n := Z.log2 a - 5). split; [lia |].
  apply Z.max_lub_lt; [lia |].
  assert (Hlog : 11 <= Z.log2 a) by (change 11 with (Z.log2 2048); apply Z.log2_le_mono; lia).
  pose proof (Z.log2_spec a ltac:(lia)) as [Hl _].
  assert (Hb : 0 < 2 ^ n <= a).
  { split; [apply Z.pow_pos_nonneg; lia |]. pose proof (Z.pow_le_mono_r 2 n (Z.log2 a)). lia. }
  unfold ROUNDIDIV. rewrite Z.shiftl_1_l, !Z.shiftl_mul_pow2 by lia. change (2 ^ 1) with 2.
  pose proof (Z.div_mod (a * 2 + 2 ^ n) (2 ^ n * 2) ltac:(lia)).
  pose proof (Z.mod_pos_bound (a * 2 + 2 ^ n) (2 ^ n * 2) ltac:(lia)).
  set (d := (a * 2 + 2 ^ n) / (2 ^ n * 2)) in *. nia.
Qed.

Lemma tbs_cut Ninfo R :
  0 <= Ninfo < 2 ^ 21 → ∃ C, cut_exactly (tbs_of_Ninfo Ninfo R) (get_BG (tbs_of_Ninfo Ninfo R) R) C.
Proof.
  intros HN. unfold tbs_of_Ninfo, NR_MAX_PDSCH_TBS.
  assert (HK : ∀ BG, 3840 <= Kcb_of BG) by (intros BG; unfold Kcb_of; destruct (BG =? 1); lia).
  destruct (Z.leb_spec Ninfo 3824) as [Hs | Hs].
  { set (n := Z.max 3 (Z.log2 Ninfo - 6)).
    destruct (small_tbs (Z.max 24 (Z.shiftl (Z.shiftr Ninfo n) n))) as [Hm HA].
    { rewrite Z.shiftl_mul_pow2, Z.shiftr_div_pow2 by lia.
      pose proof (Z.mul_div_le Ninfo (2 ^ n) ltac:(lia)). lia. }
    cbv zeta in Hm, HA. exists 1. apply cut_one; [done | lia |]. unfold with_crc, NR_MAX_PDSCH_TBS.
    set (A := first_tbs _ _) in *. decide_false (3824 <? A). specialize (HK (get_BG A R)). lia. }
  pose proof (quantised_bound Ninfo ltac:(lia)) as HNp. cbv zeta in HNp.
  set (Np := Z.max 3840 _) in *. destruct (Z.leb_spec R 2560) as [HR | HR].
  - destruct (rounded_tbs (Np + 24) 477) as (HC & Hm & Hx & Hb & Hu); [lia | lia |]. change (8 * 477) with 3816 in *.
    set (C := CEILIDIV (Np + 24) 3816) in *. set (B := Z.shiftl C 3 * _) in *. exists C.
    assert (C <= 2 ^ 20) by lia. apply (cut_big _ _ 477);
      rewrite ?Z.sub_add; [unfold NR_MAX_PDSCH_TBS; lia | | | done | done | exact Hb];
      unfold get_BG; decide_true (R <=? 2560); rewrite orb_true_r; unfold Kcb_of; simpl; lia.
  - assert (HBG : ∀ A, 3824 < A → get_BG A R = 1).
    { intros A HA. unfold get_BG, NR_MAX_PDSCH_TBS. decide_false (A <=? 292). decide_false (A <=? 3824).
      by decide_false (R <=? 2560). }
    destruct (Z.ltb_spec 8424 Np) as [Hbig | Hmid].
    + destruct (rounded_tbs (Np + 24) 1053) as (HC & Hm & Hx & Hb & Hu); [lia | lia |]. change (8 * 1053) with 8424 in *.
      set (C := CEILIDIV (Np + 24) 8424) in *. set (B := Z.shiftl C 3 * _) in *. exists C.
      assert (C <= 2 ^ 20) by lia. rewrite HBG by lia. apply (cut_big _ _ 1053);
        rewrite ?Z.sub_add; [unfold NR_MAX_PDSCH_TBS; lia | done | unfold Kcb_of; simpl; lia | done | done | exact Hb].
    + rewrite Z.shiftl_mul_pow2 by lia. change (2 ^ 3) with 8.
      destruct (CEILIDIV_bounds (Np + 24) 8) as [Hc | [? _]]; [lia | lia | | lia].
      set (m := CEILIDIV (Np + 24) 8) in *. exists 1. rewrite HBG by lia. apply cut_one; [| lia |].
      * replace (m * 8 - 24) with ((m - 3) * 8) by lia. apply Z.mod_mul. lia.
      * unfold with_crc, NR_MAX_PDSCH_TBS. decide_true (3824 <? m * 8 - 24). unfold Kcb_of. simpl. lia.
Qed.

Lemma Ninfo_bound Qm R nb_rb nb_symb_sch nb_dmrs_prb nb_rb_oh tb_scaling Nl :
  0 <= tb_scaling → 0 <= tbs_Ninfo Qm R nb_rb nb_symb_sch nb_dmrs_prb nb_rb_oh tb_scaling Nl < 2 ^ 21.
Proof.
  intros Hs. unfold tbs_Ninfo. set (x := u32 _).
  assert (Hx : 0 <= x < 2 ^ 32) by apply u32_is_u32.
  pose proof (shiftr_bound x 32 21 ltac:(lia) Hx) as Hy. change (32 - 21) with 11 in Hy.
  set (y := Z.shiftr x 11) in *. rewrite Z.shiftr_div_pow2 by lia.
  assert (0 < 2 ^ tb_scaling) by lia. split; [apply Z.div_pos; lia |].
  apply Z.div_lt_upper_bound; [lia |]. nia.
Qed.

(** ** Segmentation and reassembly of a transport block *)

(** ** Writing into buffers *)

(** The [k] low octets of [r], most significant first. *)
Definition parity (k : nat) (r : Z) : bytes := rev (le_bytes k r).

Lemma parity_zlen k r : zlen (parity k r) = Z.of_nat k.
Proof. unfold parity, zlen. by rewrite length_rev, le_bytes_length. Qed.

Lemma parity_bytes k r : is_bytes (parity k r).
Proof. apply Forall_rev, le_bytes_is_bytes. Qed.

Lemma poly_of_parity k r : 0 <= r < 2 ^ (8 * Z.of_nat k) → poly_of (parity k r) = r.
Proof.
  intros Hr. rewrite <- le_int_rev by apply parity_bytes. unfold parity. rewrite rev_involutive.
  by apply le_int_le_bytes.
Qed.

Lemma zset_app (a r : bytes) x y i : i = zlen a → zset (a ++ x :: r) i y = Ok (a ++ y :: r).
Proof.
  intros ->. rewrite zset_Ok by (rewrite zlen_app, zlen_cons; pose proof (zlen_nonneg a); pose proof (zlen_nonneg r); lia).
  f_equal. unfold zlen. rewrite Nat2Z.id. rewrite <- (Nat.add_0_r (length a)), insert_app_r. done.
Qed.

Lemma drop_cons_3 (l : bytes) n :
  (n + 3 <= length l)%nat → ∃ x y z, drop n l = x :: y :: z :: drop (n + 3) l.
Proof.
  intros H. destruct (drop n l) as [| x [| y [| z r]]] eqn:E;
    apply (f_equal length) in E as E2; rewrite length_drop in E2; simpl in E2; try lia.
  exists x, y, z. do 3 f_equal. rewrite <- drop_drop, E. done.
Qed.

Lemma zset_3 (a r : bytes) x y z u v w i :
  i = zlen a →
  (b ← zset (a ++ x :: y :: z :: r) i u; b ← zset b (1 + i) v; zset b (2 + i) w) = Ok (a ++ [u; v; w] ++ r).
Proof.
  intros ->. rewrite zset_app by done. cbn [mbind res_bind].
  change (a ++ u :: y :: z :: r) with (a ++ [u] ++ y :: z :: r). rewrite app_assoc.
  rewrite zset_app by (rewrite zlen_app; change (zlen [u]) with 1; lia). cbn [mbind res_bind].
  change ((a ++ [u]) ++ v :: z :: r) with ((a ++ [u]) ++ [v] ++ z :: r). rewrite app_assoc.
  rewrite zset_app by (rewrite !zlen_app; change (zlen [u]) with 1; change (zlen [v]) with 1; lia).
  by rewrite <- !app_assoc.
Qed.

Lemma parity_3 r : [crc_byte r 2; crc_byte r 1; crc_byte r 0] = parity 3 r.
Proof. done. Qed.
Lemma parity_2 r : [crc_byte r 1; crc_byte r 0] = parity 2 r.
Proof. done. Qed.

Lemma write_filler_ok (a r : bytes) from (m : nat) :
  from = zlen a → (m <= length r)%nat →
  write_filler (a ++ r) from (from + Z.of_nat m) = Ok (a ++ replicate m 0 ++ drop m r).
Proof.
  intros -> Hm. unfold write_filler. replace (zlen a + Z.of_nat m - zlen a) with (Z.of_nat m) by lia.
  revert a r Hm. induction m as [| m IH]; intros a r Hm; [done |].
  destruct r as [| x r]; simpl in Hm; [lia |].
  rewrite seqZ_cons by lia. cbn [foldl]. cbn [mbind res_bind]. rewrite zset_app by done.
  replace (Z.pred (Z.of_nat (S m))) with (Z.of_nat m) by lia.
  change (a ++ 0 :: r) with (a ++ [0] ++ r). rewrite app_assoc.
  replace (Z.succ (zlen a)) with (zlen (a ++ [0])) by (rewrite zlen_app; done).
  rewrite IH by lia. by rewrite <- app_assoc.
Qed.

(** ** One segment *)

(** [n] octets of [l] from offset [o]. *)
Definition octets_at (l : bytes) (o n : Z) : bytes := take (Z.to_nat n) (drop (Z.to_nat o) l).

Lemma octets_at_zlen l o n : 0 <= o → 0 <= n → o + n <= zlen l → zlen (octets_at l o n) = n.
Proof. apply win_zlen. Qed.
Lemma octets_at_bytes l o n : is_bytes l → is_bytes (octets_at l o n).
Proof. intros. by apply Forall_take, Forall_drop. Qed.

Lemma memcpy_front dst src o n :
  0 <= o → 0 <= n → n <= zlen dst → o + n <= zlen src →
  memcpy dst 0 src o n = Ok (octets_at src o n ++ drop (Z.to_nat n) dst).
Proof. intros. rewrite memcpy_Ok by lia. by rewrite take_0, Z.add_0_l. Qed.

(** A buffer that holds the segment [seg]: its octets, its parity when there are several
    segments, filler up to [K] bits. *)
Definition good_segment (C K : Z) (seg buf : bytes) : Prop :=
  ∃ par rest, buf = seg ++ par ++ replicate (Z.to_nat (Z.shiftr K 3 - zlen seg - zlen par)) 0 ++ rest ∧
    zlen seg + zlen par <= Z.shiftr K 3 ∧ is_bytes par ∧ zlen par = (if 1 <? C then 3 else 0) ∧
    (1 < C → multiple (crc_generator K24B) (poly_of (seg ++ par))).

Section segment.
Context {V : Simd} {SL : SimdLaws V} (USE_INTEL_CRC : bool) (T : crc_tables) (HT : tables_ok T).

(** The parity bits a CRC leaves behind its message make a multiple of the generator. *)
Lemma parity_multiple k (m : nat) r seg :
  crc_width k = 8 * Z.of_nat m → 0 <= r < 2 ^ crc_width k →
  cong (crc_generator k) r (Z.shiftl (poly_of seg) (crc_width k)) →
  multiple (crc_generator k) (poly_of (seg ++ parity m r)).
Proof using.
  intros Hm Hr C. rewrite poly_of_app, parity_zlen, poly_of_parity, <- Hm by (by rewrite <- Hm).
  symmetry in C. exact C.
Qed.

Lemma message_prefix (seg rest : bytes) n :
  n = zlen seg → message (seg ++ rest) (8 * n) = poly_of seg.
Proof using.
  intros ->. rewrite message_octets by (rewrite Z.mul_comm; apply Z.mod_mul; lia).
  rewrite (Z.mul_comm 8), Z.div_mul by lia. unfold win, zlen. rewrite Nat2Z.id.
  change (Z.to_nat 0) with 0%nat. by rewrite drop_0, take_app_length.
Qed.

Lemma crc24b_segment seg rest :
  is_bytes (seg ++ rest) → 0 < zlen seg → 32 <= zlen (seg ++ rest) < 2 ^ 27 →
  ∃ r, crc24b USE_INTEL_CRC T (seg ++ rest) (8 * zlen seg) = Ok (Z.shiftl r 8) ∧ 0 <= r < 2 ^ 24 ∧
       multiple (crc_generator K24B) (poly_of (seg ++ parity 3 r)).
Proof using SL HT.
  intros Hb Hs Hz. pose proof (zlen_app seg rest) as Ha. pose proof (zlen_nonneg rest).
  destruct (crc_fun_narrow USE_INTEL_CRC T HT K24B (seg ++ rest) (8 * zlen seg)) as (r & E & Hr & C);
    [done | lia | lia | |].
  { intros _ _ _ _. rewrite (Z.mul_comm 8), Z.div_mul by lia. unfold read_extent.
    destruct (zlen seg <=? 12); lia. }
  exists r. split; [exact E |]. split; [exact Hr |]. rewrite message_prefix in C by done.
  by apply (parity_multiple K24B 3).
Qed.

Lemma shift_down r k : 0 <= k → Z.shiftr (Z.shiftl r k) k = r.
Proof using. intros. by rewrite Z.shiftr_shiftl_l, Z.sub_diag, Z.shiftl_0_r. Qed.

Lemma shiftr_3 x : Z.shiftr x 3 = x / 8.
Proof using. by rewrite Z.shiftr_div_pow2. Qed.

(** The parity of one segment, written over the buffer behind it. *)
Lemma write_parity C n seg rest :
  is_bytes (seg ++ rest) → n = zlen seg → 0 < n → 32 <= zlen (seg ++ rest) < 2 ^ 27 →
  (if 1 <? C then 3 else 0) <= zlen rest →
  ∃ par, (if 1 <? C then
            crc ← crc24b USE_INTEL_CRC T (seg ++ rest) (to_int (u32 (8 * n)));
            let crc := Z.shiftr crc 8 in
            buf ← zset (seg ++ rest) n (crc_byte crc 2);
            buf ← zset buf (1 + n) (crc_byte crc 1);
            zset buf (2 + n) (crc_byte crc 0)
          else Ok (seg ++ rest)) = Ok (seg ++ par ++ drop (length par) rest) ∧
    is_bytes par ∧ zlen par = (if 1 <? C then 3 else 0) ∧
    (1 < C → multiple (crc_generator K24B) (poly_of (seg ++ par))).
Proof using SL HT.
  intros Hb -> Hn Hz Hr. destruct (Z.ltb_spec 1 C) as [HC | HC].
  - destruct (crc24b_segment seg rest Hb Hn Hz) as (r & E & Hr24 & Hm).
    pose proof (zlen_app seg rest). pose proof (zlen_nonneg rest).
    replace (to_int (u32 (8 * zlen seg))) with (8 * zlen seg).
    2:{ unfold to_int, u32. rewrite Z.mod_small by lia. by decide_true (8 * zlen seg <? 2 ^ 31). }
    rewrite E. cbn [mbind res_bind]. cbv zeta. rewrite shift_down by lia.
    destruct rest as [| x [| y [| z rest]]]; try (unfold zlen in Hr; simpl in Hr; lia).
    exists (parity 3 r). split_and!; [| apply parity_bytes | apply parity_zlen | done].
    pose proof (zset_3 seg rest x y z (crc_byte r 2) (crc_byte r 1) (crc_byte r 0) (zlen seg) eq_refl) as E3.
    rewrite parity_3 in E3. exact E3.
  - exists []. split_and!; [by rewrite drop_0 | constructor | done | lia].
Qed.

Lemma write_segment_ok input C K n r bufs s buf :
  let L := if 1 <? C then 24 else 0 in
  bufs !! r = Some buf → is_bytes input → is_bytes buf → 0 <= s → 0 < n → s + n <= zlen input < 2 ^ 27 →
  8 * n + L <= K < 2 ^ 20 → Z.shiftr K 3 <= zlen buf → 32 <= zlen buf < 2 ^ 27 →
  ∃ buf', write_segment USE_INTEL_CRC T input L C K (K - (8 * n + L)) (8 * n + L) r bufs s =
            Ok (<[r := buf']> bufs, s + n) ∧
    good_segment C K (octets_at input s n) buf' ∧ zlen buf' = zlen buf ∧ is_bytes buf'.
Proof using SL HT.
  intros L Hr Hi Hb Hs Hn Hsn HK HKb Hz. unfold write_segment.
  replace (8 * n + L - L) with (8 * n) by lia.
  assert (Hu : u32 (8 * n) = 8 * n) by (unfold u32; apply Z.mod_small; lia).
  rewrite Hu, !shiftr_3, (Z.mul_comm 8 n), Z.div_mul, (Z.mul_comm n 8), Hr by lia. cbn [mbind res_bind deref].
  rewrite shiftr_3 in HKb. assert (HKn : n + L / 8 <= K / 8) by (unfold L in *; destruct (1 <? C); Z.div_mod_to_equations; lia).
  assert (HL : 0 <= L / 8 ∧ (if 1 <? C then 3 else 0) = L / 8) by (unfold L; by destruct (1 <? C)).
  rewrite memcpy_front by lia. cbn [mbind res_bind]. cbv zeta.
  set (seg := octets_at input s n). set (rest := drop (Z.to_nat n) buf).
  assert (Hseg : zlen seg = n) by (apply octets_at_zlen; lia).
  assert (Hrest : zlen rest = zlen buf - n) by (unfold rest, zlen in *; rewrite length_drop; lia).
  assert (Hall : is_bytes (seg ++ rest)) by (apply Forall_app; split; [by apply octets_at_bytes | by apply Forall_drop]).
  destruct (write_parity C n seg rest) as (par & E & Hpb & Hpl & Hpm);
    [done | done | lia | rewrite zlen_app; lia | lia |].
  rewrite Hu in E. cbv zeta in E. rewrite E. clear E. cbn [mbind res_bind].
  replace (u32 (s + n)) with (s + n) by (unfold u32; rewrite Z.mod_small; lia).
  set (m := Z.to_nat (K / 8 - n - zlen par)).
  assert (Hfill : (if 0 <? K - (8 * n + L) then
      write_filler (seg ++ par ++ drop (length par) rest) ((8 * n + L) / 8) (K / 8)
    else Ok (seg ++ par ++ drop (length par) rest)) =
    Ok (seg ++ par ++ replicate m 0 ++ drop (m + length par) rest)).
  { assert (E8 : (8 * n + L) / 8 = n + L / 8).
    { rewrite (Z.add_comm (8 * n)), (Z.mul_comm 8), Z.div_add by lia. lia. }
    destruct (Z.ltb_spec 0 (K - (8 * n + L))).
    - rewrite E8, !(app_assoc seg par). replace (K / 8) with (n + L / 8 + Z.of_nat m) by lia.
      rewrite write_filler_ok.
      + by rewrite drop_drop, (Nat.add_comm (length par)).
      + rewrite zlen_app. lia.
      + rewrite length_drop. unfold zlen in *. lia.
    - assert (K / 8 = n + L / 8) by (rewrite <- E8; f_equal; lia). replace m with 0%nat by lia. done. }
  rewrite Hfill. cbn [mbind res_bind]. eexists. split; [done |]. split_and!.
  - exists par, (drop (m + length par) rest). rewrite shiftr_3, Hseg.
    split_and!; [done | lia | done | lia | done].
  - rewrite !zlen_app. unfold zlen in *. rewrite length_replicate, length_drop. lia.
  - apply Forall_app; split; [by apply octets_at_bytes |]. apply Forall_app; split; [done |].
    apply Forall_app; split; [apply Forall_replicate; lia | by apply Forall_drop, Forall_drop].
Qed.
(** ** All the segments *)

Lemma write_segments_ok input C K n m r bufs :
  let L := if 1 <? C then 24 else 0 in
  is_bytes input → 0 < n → n * (Z.of_nat r + Z.of_nat m) <= zlen input < 2 ^ 27 → 8 * n + L <= K < 2 ^ 20 →
  (∀ j, (r <= j < r + m)%nat →
    ∃ buf, bufs !! j = Some buf ∧ is_bytes buf ∧ Z.shiftr K 3 <= zlen buf ∧ 32 <= zlen buf < 2 ^ 27) →
  ∃ bufs', write_segments USE_INTEL_CRC T input L C K (K - (8 * n + L)) (8 * n + L) m r bufs (n * Z.of_nat r) =
             Ok bufs' ∧
    (∀ j, (j < r)%nat → bufs' !! j = bufs !! j) ∧
    (∀ j, (r <= j < r + m)%nat → ∃ buf, bufs' !! j = Some buf ∧ is_bytes buf ∧ Z.shiftr K 3 <= zlen buf ∧ 32 <= zlen buf < 2 ^ 27 ∧
       good_segment C K (octets_at input (n * Z.of_nat j) n) buf).
Proof using SL HT.
  intros L Hi Hn. revert r bufs. induction m as [| m IH]; intros r bufs Hz HK Hbufs.
  { exists bufs. split_and!; [done | done |]. intros j Hj. lia. }
  destruct (Hbufs r ltac:(lia)) as (buf & Hr & Hb & HKb & Hz32).
  destruct (write_segment_ok input C K n r bufs (n * Z.of_nat r) buf) as (buf' & E & Hg & Hl & Hb');
    [done | done | done | nia | done | nia | done | done | done |].
  cbn [write_segments]. fold L in E. rewrite E. cbn [mbind res_bind].
  replace (n * Z.of_nat r + n) with (n * Z.of_nat (S r)) by lia.
  destruct (IH (S r) (<[r := buf']> bufs)) as (bufs' & E' & Hlow & Hhigh); [nia | done | |].
  { intros j Hj. rewrite list_lookup_insert_ne by lia. apply Hbufs. lia. }
  exists bufs'. split; [exact E' |]. split.
  - intros j Hj. rewrite Hlow, list_lookup_insert_ne by lia. done.
  - intros j Hj. destruct (decide (j = r)) as [-> | Hne]; [| apply Hhigh; lia].
    exists buf'. rewrite Hlow, list_lookup_insert_eq, Hl by (lia || by apply lookup_lt_Some in Hr). done.
Qed.

(** ** Attachment *)

(** The octets of parity of a transport block. *)
Definition tb_parity (A : Z) : Z := if NR_MAX_PDSCH_TBS <? A then 3 else 2.
Definition tb_kind (A : Z) : crc_kind := if NR_MAX_PDSCH_TBS <? A then K24A else K16.

Lemma ulsch_attach_ok p A max_bytes :
  is_bytes p → A mod 8 = 0 → 0 < A < 2 ^ 24 → A / 8 + 4 <= zlen p → 32 <= zlen p → A / 8 + 4 <= max_bytes →
  ∃ par, ulsch_attach USE_INTEL_CRC T p A max_bytes =
           Ok (octets_at p 0 (A / 8) ++ par ++ drop (Z.to_nat (A / 8 + tb_parity A)) p, with_crc A) ∧
    zlen par = tb_parity A ∧ is_bytes par ∧
    ∃ r, par = parity (Z.to_nat (tb_parity A)) r ∧ 0 <= r < 2 ^ (8 * tb_parity A) ∧
      cong (crc_generator (tb_kind A)) r (Z.shiftl (poly_of (octets_at p 0 (A / 8))) (8 * tb_parity A)).
Proof using SL HT.
  intros Hp Hm HA Hz H32 Hmax. unfold ulsch_attach, tb_parity, tb_kind, with_crc. rewrite shiftr_3.
  assert (Hi : to_int A = A) by (unfold to_int; by decide_true (A <? 2 ^ 31)). rewrite Hi.
  assert (H8 : A = 8 * (A / 8)) by (Z.div_mod_to_equations; lia).
  set (n := A / 8) in *. assert (Hd : p = octets_at p 0 n ++ drop (Z.to_nat n) p).
  { unfold octets_at. change (Z.to_nat 0) with 0%nat. by rewrite drop_0, take_drop. }
  assert (Hl : zlen (octets_at p 0 n) = n) by (apply octets_at_zlen; lia).
  destruct (drop_cons_3 p (Z.to_nat n)) as (x & y & z & E3); [unfold zlen in *; lia |].
  assert (Hre : read_extent n <= zlen p) by (unfold read_extent; destruct (n <=? 12); lia).
  assert (Hw : message p A = poly_of (octets_at p 0 n)) by (rewrite message_octets by done; done).
  destruct (NR_MAX_PDSCH_TBS <? A).
  - destruct (crc_fun_narrow USE_INTEL_CRC T HT K24A p A) as (r & E & Hr & C); [done | lia | lia | by intros _ _ _ _ |].
    change (crc_fun USE_INTEL_CRC T K24A p A) with (crc24a USE_INTEL_CRC T p A) in E. rewrite E.
    cbn [mbind res_bind]. change (32 - crc_width K24A) with 8. rewrite shift_down by lia.
    exists (parity 3 r). split_and!; [| apply parity_zlen | apply parity_bytes | exists r; by rewrite <- Hw].
    pose proof (zset_3 (octets_at p 0 n) (drop (Z.to_nat n + 3) p) x y z (crc_byte r 2) (crc_byte r 1) (crc_byte r 0) n (eq_sym Hl)) as W.
    rewrite <- E3, <- Hd in W. revert W.
    destruct (zset p n (crc_byte r 2)) as [p1 | | |]; [| done ..]. cbn [mbind res_bind].
    destruct (zset p1 (1 + n) (crc_byte r 1)) as [p2 | | |]; [| done ..]. cbn [mbind res_bind]. intros ->.
    cbn [mbind res_bind]. unfold assert_that. decide_true (n + 4 <=? max_bytes). cbn [mbind res_bind].
    rewrite parity_3. do 5 f_equal. lia.
  - destruct (crc_fun_narrow USE_INTEL_CRC T HT K16 p A) as (r & E & Hr & C); [done | lia | lia | by intros _ [? | ?] |].
    change (crc_fun USE_INTEL_CRC T K16 p A) with (crc16 T p A) in E. rewrite E.
    cbn [mbind res_bind]. change (32 - crc_width K16) with 16. rewrite shift_down by lia.
    exists (parity 2 r). split_and!; [| apply parity_zlen | apply parity_bytes | exists r; by rewrite <- Hw].
    rewrite Hd at 1. rewrite E3, zset_app by done. cbn [mbind res_bind].
    change (octets_at p 0 n ++ crc_byte r 1 :: y :: z :: drop (Z.to_nat n + 3) p)
      with (octets_at p 0 n ++ [crc_byte r 1] ++ y :: z :: drop (Z.to_nat n + 3) p).
    rewrite app_assoc, zset_app by (rewrite zlen_app; change (zlen [crc_byte r 1]) with 1; lia).
    cbn [mbind res_bind]. unfold assert_that. decide_true (n + 3 <=? max_bytes). cbn [mbind res_bind].
    rewrite <- app_assoc. change ([crc_byte r 1] ++ crc_byte r 0 :: z :: drop (Z.to_nat n + 3) p)
      with (parity 2 r ++ z :: drop (Z.to_nat n + 3) p). do 5 f_equal.
    replace (Z.to_nat (n + 2)) with (Z.to_nat n + 2)%nat by lia.
    transitivity (drop 2 (drop (Z.to_nat n) p)); [by rewrite E3 | apply drop_drop].
Qed.
End segment.
