(* ===== verification/NrSegTransfer.v ===== *)
(** * A transport block from the encoder to the decoder

    Reassembly of the segments, the final CRC check of both receivers, and the theorems on the
    whole chain. *)

From S2P Require Import Prelude Gf2 Crc CrcFacts CrcFold CrcProps.
From S2P Require Import NrSegmentation NrSegProps.

(** ** Octets of buffers *)

Lemma octets_at_app l o j k :
  0 <= o → 0 <= j → 0 <= k → octets_at l o (j + k) = octets_at l o j ++ octets_at l (o + j) k.
Proof.
  intros. unfold octets_at. rewrite !Z2Nat.inj_add by lia.
  by rewrite <- take_take_drop, drop_drop.
Qed.

Lemma octets_at_take l o n k : n <= k → octets_at l o n = take (Z.to_nat n) (octets_at l o k).
Proof. intros. unfold octets_at. rewrite take_take. f_equal. lia. Qed.

Lemma octets_at_prefix l r n : n = zlen l → octets_at (l ++ r) 0 n = l.
Proof. intros ->. unfold octets_at, zlen. rewrite Nat2Z.id. change (Z.to_nat 0) with 0%nat. by rewrite drop_0, take_app_length. Qed.

Lemma octets_at_eq_prefix l l' n m : octets_at l 0 n = octets_at l' 0 n → m <= n → octets_at l 0 m = octets_at l' 0 m.
Proof. intros H Hm. by rewrite !(octets_at_take _ 0 m n), H by done. Qed.

(** ** Copying the segments back *)

Section copy.
Context (C K F n : Z) (c b1 : bytes).
Hypothesis Hlen : Z.shiftr K 3 - Z.shiftr F 3 - (if 1 <? C then 3 else 0) = n.
Hypothesis Hn : 0 < n <= Z.shiftr K 3.
Hypothesis Hc : Z.shiftr K 3 * C <= zlen c < 2 ^ 32.
Hypothesis Hsame : ∀ j, 0 <= j < C → octets_at c (Z.shiftr K 3 * j) n = octets_at b1 (n * j) n.

Lemma copy_segments_ok (m : nat) j b :
  0 <= j → j + Z.of_nat m <= C → n * C <= zlen b < 2 ^ 32 - n - Z.shiftr K 3 → zlen c < 2 ^ 32 - Z.shiftr K 3 →
  is_bytes b → is_bytes c →
  ∃ b', copy_segments C K F m c b (n * j) (Z.shiftr K 3 * j) = Ok b' ∧ zlen b' = zlen b ∧ is_bytes b' ∧
        octets_at b' 0 (n * (j + Z.of_nat m)) = octets_at b 0 (n * j) ++ octets_at b1 (n * j) (n * Z.of_nat m).
Proof using Hlen Hn Hc Hsame.
  revert j b. induction m as [| m IH]; intros j b Hj Hm Hb Hc' Hbb Hbc.
  { exists b. rewrite Z.add_0_r, Z.mul_0_r. split_and!; [done.. |]. unfold octets_at at 3. by rewrite take_0, app_nil_r. }
  cbn [copy_segments]. rewrite Hlen. set (K8 := Z.shiftr K 3) in *.
  assert (Hk : K8 * (j + 1) <= K8 * C) by (apply Z.mul_le_mono_nonneg_l; lia).
  assert (Hnc : n * (j + 1) <= n * C) by (apply Z.mul_le_mono_nonneg_l; lia).
  assert (0 <= K8 * j ∧ 0 <= n * j) by (split; apply Z.mul_nonneg_nonneg; lia).
  rewrite memcpy_Ok by lia. cbn [mbind res_bind]. set (b' := take _ b ++ _).
  assert (E1 : octets_at c (K8 * j) n = take (Z.to_nat n) (drop (Z.to_nat (K8 * j)) c)) by done.
  assert (Hz1 : zlen (take (Z.to_nat (n * j)) b) = n * j) by (unfold zlen in *; rewrite length_take; lia).
  assert (Hz2 : zlen (octets_at c (K8 * j) n) = n) by (apply octets_at_zlen; lia).
  assert (Hz3 : zlen (drop (Z.to_nat (n * j + n)) b) = zlen b - (n * j + n)) by (unfold zlen in *; rewrite length_drop; lia).
  assert (Hz : zlen b' = zlen b) by (unfold b'; rewrite <- E1, !zlen_app; lia).
  assert (Hb' : is_bytes b').
  { unfold b'. apply Forall_app; split; [by apply Forall_take |]. apply Forall_app; split;
      [by apply Forall_take, Forall_drop | by apply Forall_drop]. }
  replace (u32 (n * j + n)) with (n * (j + 1)) by (unfold u32; rewrite Z.mod_small; lia).
  replace (u32 (K8 * j + K8)) with (K8 * (j + 1)) by (unfold u32; rewrite Z.mod_small; lia).
  destruct (IH (j + 1) b') as (b'' & E & Hl & Hbs & Ho); [lia | lia | lia | lia | done | done |].
  exists b''. split_and!; [exact E | lia | done |].
  replace (j + Z.of_nat (S m)) with (j + 1 + Z.of_nat m) by lia. rewrite Ho.
  replace (n * Z.of_nat (S m)) with (n + n * Z.of_nat m) by lia. rewrite (octets_at_app b1 (n * j) n) by lia.
  replace (n * (j + 1)) with (n * j + n) by lia. rewrite app_assoc. f_equal.
  rewrite <- Hsame by lia. rewrite E1. unfold b'. rewrite app_assoc.
  replace (octets_at b 0 (n * j)) with (take (Z.to_nat (n * j)) b) by done.
  apply octets_at_prefix. rewrite zlen_app, Hz1, <- E1, Hz2. lia.
Qed.
End copy.

(** ** Parameters on both sides *)

Definition params_of (C Zc K F : Z) (bufs : list bytes) : seg_out := mk_seg C K Zc F bufs.

Lemma segmentation_eq A BG C :
  cut_exactly A BG C →
  let L := if 1 <? C then 24 else 0 in
  ∃ n K Zc, 0 < n ∧ with_crc A = 8 * (C * n) ∧ 8 * n + L <= K ∧ K <= 8448 ∧
    ∀ (V : Simd) USE T input o,
      nr_segmentation USE T input (with_crc A) BG o =
      match input with
      | None => Ok (info_columns (with_crc A) BG, params_of C Zc K (K - (8 * n + L)) (seg_bufs o))
      | Some input =>
          bufs ← write_segments USE T input L C K (K - (8 * n + L)) (8 * n + L) (Z.to_nat C) 0 (seg_bufs o) 0;
          Ok (info_columns (with_crc A) BG, params_of C Zc K (K - (8 * n + L)) bufs)
      end.
Proof.
  intros (Hm & HA & HC & HB & HC1 & E) L.
  assert (HBr : 0 < with_crc A < 2 ^ 30).
  { unfold with_crc. destruct (NR_MAX_PDSCH_TBS <? A); lia. }
  destruct (code_blocks_ok (with_crc A) BG) as (C' & E' & HC' & H1 & Hge); [lia |].
  rewrite E in E'. injection E' as _ <- _.
  destruct (segment_length (with_crc A) BG C) as (HK & HZ & HKZ & HKb); [lia | done | done | done |].
  cbv zeta in HK, HZ, HKZ.
  assert (HBn : ∃ n, with_crc A = 8 * (C * n)).
  { exists (with_crc A / (8 * C)). pose proof (Z.div_mod (with_crc A) (8 * C) ltac:(lia)). lia. }
  destruct HBn as [n HBn]. assert (Hn : 0 < n) by nia.
  assert (HKp : (with_crc A + (if 1 <? C then 24 * C else 0)) / C = 8 * n + L).
  { replace (with_crc A + (if 1 <? C then 24 * C else 0)) with ((8 * n + L) * C);
      [by apply Z.div_mul; lia | unfold L; destruct (1 <? C); lia]. }
  rewrite HKp in *. set (Kb := info_columns (with_crc A) BG) in *.
  set (Zmin := if 0 <? (8 * n + L) mod Kb then (8 * n + L) / Kb + 1 else (8 * n + L) / Kb) in *.
  destruct (lifting_size_ok Zmin HZ) as (Zc & EZ & Hleast).
  pose proof (least_lifting_bounds Zmin Zc HZ Hleast) as HZc. destruct Hleast as (_ & Hle & _).
  set (K := if BG =? 1 then Zc * 22 else Zc * 10).
  assert (HKK : 8 * n + L <= K <= 8448) by (unfold K; destruct (BG =? 1); nia).
  exists n, K, Zc. split_and!; [done | done | lia | lia |].
  intros V USE T input o. unfold nr_segmentation. rewrite E, HKp. fold Kb. fold Zmin. rewrite EZ. fold K L.
  replace (u32 (K - (8 * n + L))) with (K - (8 * n + L)).
  2:{ unfold u32. rewrite Z.mod_small; [done |]. unfold L in *. destruct (1 <? C); lia. }
  by destruct input.
Qed.

(** ** The encoder *)

Section chain.
Context {V : Simd} {SL : SimdLaws V} (T : crc_tables) (HT : tables_ok T).

(** Output buffers as the callers allocate them: room for the largest segment. *)
Definition buffers_ok (C : Z) (bufs : list bytes) : Prop :=
  ∀ j, (j < Z.to_nat C)%nat → ∃ buf, bufs !! j = Some buf ∧ is_bytes buf ∧ 1056 <= zlen buf < 2 ^ 27.

(** The decoder returned in [c], one behind the other, the segments that were encoded. *)
Definition carries (o : seg_out) (c : bytes) : Prop :=
  is_bytes c ∧ Z.shiftr (seg_K o) 3 * seg_C o <= zlen c < 2 ^ 31 ∧
  ∀ j, (j < Z.to_nat (seg_C o))%nat →
    ∃ buf, seg_bufs o !! j = Some buf ∧
      octets_at c (Z.shiftr (seg_K o) 3 * Z.of_nat j) (Z.shiftr (seg_K o) 3) = octets_at buf 0 (Z.shiftr (seg_K o) 3).

(** What the encoder leaves: parameters and one good segment per buffer. *)
Definition encoded (A C n : Z) (b1 : bytes) (o : seg_out) : Prop :=
  seg_C o = C ∧ seg_F o = seg_K o - (8 * n + (if 1 <? C then 24 else 0)) ∧ 0 <= seg_F o ∧ seg_K o <= 8448 ∧
  0 < n ∧ with_crc A = 8 * (C * n) ∧
  ∀ j, (j < Z.to_nat C)%nat →
    ∃ buf, seg_bufs o !! j = Some buf ∧ is_bytes buf ∧ Z.shiftr (seg_K o) 3 <= zlen buf ∧ 32 <= zlen buf < 2 ^ 27 ∧
           good_segment C (seg_K o) (octets_at b1 (n * Z.of_nat j) n) buf.

Lemma encode_ok USE A BG C b1 o :
  cut_exactly A BG C → is_bytes b1 → with_crc A <= 8 * zlen b1 → zlen b1 < 2 ^ 27 → buffers_ok C (seg_bufs o) →
  ∃ n o1, nr_segmentation USE T (Some b1) (with_crc A) BG o = Ok (info_columns (with_crc A) BG, o1) ∧
    encoded A C n b1 o1 ∧
    (∀ (V2 : Simd) USE2 o2, nr_segmentation USE2 T None (with_crc A) BG o2 =
       Ok (info_columns (with_crc A) BG, params_of (seg_C o1) (seg_Z o1) (seg_K o1) (seg_F o1) (seg_bufs o2))).
Proof using SL HT.
  intros Hcut Hb Hz Hzu Hbufs. pose proof Hcut as (_ & _ & HC & _).
  destruct (segmentation_eq A BG C Hcut) as (n & K & Zc & Hn & HB & HKn & HK & E).
  assert (HK8 : Z.shiftr K 3 <= 1056) by (rewrite shiftr_3; Z.div_mod_to_equations; lia).
  destruct (write_segments_ok USE T HT b1 C K n (Z.to_nat C) 0 (seg_bufs o)) as (bufs' & Ew & _ & Hg);
    [done | done | lia | lia | |].
  { intros j Hj. destruct (Hbufs j) as (buf & ? & ? & ?); [lia |]. exists buf. split_and!; done || lia. }
  change (Z.of_nat 0) with 0 in Ew. rewrite Z.mul_0_r in Ew.
  exists n. eexists. split; [rewrite E, Ew; done |]. split.
  - unfold encoded, params_of. simpl. split_and!; [done | done | lia | done | done | done |].
    intros j Hj. apply Hg. lia.
  - intros V2 USE2 o2. by rewrite E.
Qed.

(** ** The decoder *)

Lemma all_decoded (succ : list bool) r m :
  (∀ i, (r <= i < r + m)%nat → succ !! i = Some true) → segments_decoded succ r m = Ok true.
Proof using.
  revert r. induction m as [| m IH]; intros r H; [done |]. simpl. rewrite H by lia. simpl.
  apply IH. intros i Hi. apply H. lia.
Qed.

(** The segments in [c] start with the octets they were made of. *)
Lemma carried_octets A C n b1 o c :
  encoded A C n b1 o → carries o c → with_crc A <= 8 * zlen b1 → 1 <= C →
  n <= Z.shiftr (seg_K o) 3 ∧
  ∀ j, 0 <= j < C → octets_at c (Z.shiftr (seg_K o) 3 * j) n = octets_at b1 (n * j) n.
Proof using.
  intros (HC & _ & _ & _ & Hn & HB & Hbufs) (_ & _ & Hc) Hz HC1. rewrite HC in Hc.
  assert (Hl : ∀ j, 0 <= j < C → zlen (octets_at b1 (n * j) n) = n).
  { intros j Hj. assert (n * (j + 1) <= n * C) by (apply Z.mul_le_mono_nonneg_l; lia).
    apply octets_at_zlen; nia. }
  assert (Hle : n <= Z.shiftr (seg_K o) 3).
  { destruct (Hbufs 0%nat) as (buf & _ & _ & _ & _ & par & rest & _ & Hz' & _); [lia |].
    rewrite Hl in Hz' by lia. pose proof (zlen_nonneg par). lia. }
  split; [done |]. intros j Hj. destruct (Hbufs (Z.to_nat j)) as (buf & E & _ & _ & _ & par & rest & Ebuf & _); [lia |].
  destruct (Hc (Z.to_nat j)) as (buf' & E' & Eo); [lia |]. rewrite E in E'. injection E' as <-.
  rewrite Z2Nat.id in * by lia. rewrite (octets_at_take _ _ n _ Hle), Eo, <- octets_at_take, Ebuf by done.
  apply octets_at_prefix. by rewrite Hl.
Qed.

Lemma reassembled A C n b1 o c (succ : list bool) b2 o2 :
  encoded A C n b1 o → carries o c → with_crc A <= 8 * zlen b1 → 1 <= C →
  seg_C o2 = seg_C o → seg_K o2 = seg_K o → seg_F o2 = seg_F o →
  (∀ r, (r < Z.to_nat C)%nat → succ !! r = Some true) →
  is_bytes b2 → with_crc A <= 8 * zlen b2 → zlen b2 < 2 ^ 30 →
  ∃ b3, copy_if_decoded succ o2 c b2 = Ok b3 ∧ zlen b3 = zlen b2 ∧ is_bytes b3 ∧
        octets_at b3 0 (with_crc A / 8) = octets_at b1 0 (with_crc A / 8).
Proof using.
  intros He Hcar Hz HC1 EC EK EF Hs Hb2 Hz2 Hu2.
  destruct (carried_octets A C n b1 o c He Hcar Hz HC1) as [Hle Ho].
  destruct He as (HC & HF & HF0 & HK & Hn & HB & _), Hcar as (Hbc & Hzc & _).
  unfold copy_if_decoded. rewrite EC, EK, EF, HC, all_decoded by (intros; apply Hs; lia). cbn [mbind res_bind].
  assert (HK8 : Z.shiftr (seg_K o) 3 <= 1056) by (rewrite shiftr_3; Z.div_mod_to_equations; lia).
  assert (Hlen : Z.shiftr (seg_K o) 3 - Z.shiftr (seg_F o) 3 - (if 1 <? C then 3 else 0) = n).
  { rewrite HF, !shiftr_3. destruct (1 <? C); Z.div_mod_to_equations; lia. }
  rewrite HC in Hzc.
  destruct (copy_segments_ok C (seg_K o) (seg_F o) n c b1 Hlen) with (m := Z.to_nat C) (j := 0) (b := b2)
    as (b3 & E & Hl & Hbs & Ho3); [lia | lia | exact Ho | lia | lia | nia | lia | done | done |].
  rewrite !Z.mul_0_r in E. exists b3. split_and!; [exact E | done | done |].
  rewrite Z.mul_0_r, Z.add_0_l, Z2Nat.id in Ho3 by lia.
  replace (with_crc A / 8) with (n * C) by (rewrite HB, (Z.mul_comm 8), Z.div_mul; lia). exact Ho3.
Qed.

(** The whole block, payload and parity. *)
Lemma block_check USE A d p r :
  NR_MAX_PDSCH_TBS < A < 2 ^ 24 → A mod 8 = 0 → is_bytes d → A + 24 <= 8 * zlen d →
  octets_at d 0 (A / 8 + 3) = octets_at p 0 (A / 8) ++ parity 3 r →
  0 <= r < 2 ^ 24 → cong (crc_generator K24A) r (Z.shiftl (poly_of (octets_at p 0 (A / 8))) 24) →
  check_crc USE T d (lenWithCrc 1 A) (crcType 1 A) = Ok 1.
Proof using SL HT.
  intros HA Hm Hd Hz Ho Hr C. unfold lenWithCrc, crcType. change (1 <? 1) with false. cbv iota.
  decide_true (NR_MAX_PDSCH_TBS <? A). unfold NR_MAX_PDSCH_TBS in HA.
  destruct (check_crc_ok USE T HT CRC24_A K24A d (A + 24)) as (v & E & Hv); [done | |].
  { split_and!; [done | | simpl; lia | done | lia |]; [Z.div_mod_to_equations; lia |].
    intros _ _ _ _. simpl. rewrite Z.add_simpl_r. unfold read_extent.
    destruct (A / 8 <=? 12); Z.div_mod_to_equations; lia. }
  rewrite E. replace v with true; [done |]. symmetry. apply Hv.
  rewrite message_octets by (Z.div_mod_to_equations; lia).
  replace ((A + 24) / 8) with (A / 8 + 3) by (Z.div_mod_to_equations; lia).
  unfold win. fold (octets_at d 0 (A / 8 + 3)). rewrite Ho.
  by apply (parity_multiple K24A 3).
Qed.
(** ** The all-zero rule of the UE *)

Definition all_zero (p : bytes) : bool := forallb (λ x, x =? 0) p.

Lemma octets_at_cons b i x k : 0 <= i → 0 < k → b !! Z.to_nat i = Some x → octets_at b i k = x :: octets_at b (i + 1) (k - 1).
Proof using.
  intros Hi Hk Hx. unfold octets_at. rewrite (drop_S _ x) by done.
  replace (Z.to_nat k) with (S (Z.to_nat (k - 1))) by lia. cbn [take].
  by replace (Z.to_nat (i + 1)) with (S (Z.to_nat i)) by lia.
Qed.

Lemma zero_run_ok b sz i fuel :
  0 <= i <= sz → sz < zlen b → sz - i < Z.of_nat fuel →
  ∃ i', zero_run b sz i fuel = Ok i' ∧ (i' =? sz) = all_zero (octets_at b i (sz - i)).
Proof using.
  revert i. induction fuel as [| fuel IH]; intros i Hi Hz Hf; [lia |]. cbn [zero_run].
  destruct (znth_is_Some b i) as [x Hx]; [lia |]. rewrite Hx. cbn [mbind res_bind deref].
  rewrite znth_lookup in Hx by lia. destruct (Z.eq_dec i sz) as [-> | Hne].
  - decide_false (sz <? sz). rewrite andb_false_r, Z.sub_diag. exists sz. by rewrite Z.eqb_refl.
  - decide_true (i <? sz). rewrite andb_true_r, (octets_at_cons b i x) by (done || lia).
    unfold all_zero. cbn [forallb]. destruct (x =? 0) eqn:E0; cbn [andb].
    + destruct (IH (i + 1)) as (i' & E & Hi'); [lia | lia | lia |]. exists i'.
      split; [done |]. by replace (sz - (i + 1)) with (sz - i - 1) in Hi' by lia.
    + exists i. split; [done |]. bool_lia.
Qed.

Lemma all_zero_poly p : is_bytes p → all_zero p = true → poly_of p = 0.
Proof using.
  induction p as [| x p IH] using rev_ind; [done |]. intros [Hp Hx]%Forall_app. unfold all_zero.
  rewrite forallb_app, andb_true_iff. intros [H1 H2]. rewrite poly_of_snoc, IH by done. simpl in H2.
  unfold shift_in. rewrite Z.shiftl_0_l, Z.lxor_0_l. lia.
Qed.

(** The parity of an all-zero payload is zero. *)
Lemma zero_parity k r p :
  is_bytes p → all_zero p = true → 0 <= r < 2 ^ crc_width k →
  cong (crc_generator k) r (Z.shiftl (poly_of p) (crc_width k)) → r = 0.
Proof using.
  intros Hp Hz Hr C. rewrite all_zero_poly, Z.shiftl_0_l in C by done. rewrite cong_0 in C.
  destruct (crc_aligned k) as (_ & Hlog & _). apply (multiple_small _ (crc_generator_pos k)); [by rewrite Hlog | done].
Qed.

(** The end of the UE's procedure on a block that was reassembled. *)
Lemma zero_rule (d : bytes) A (par : bytes) :
  A mod 8 = 0 → 0 < A → 2 <= zlen par → A / 8 + zlen par <= zlen d →
  octets_at d 0 (A / 8 + zlen par) = octets_at d 0 (A / 8) ++ par →
  (all_zero (octets_at d 0 (A / 8)) = true → all_zero par = true) →
  (let sz := Z.quot A 8 in
   b0 ← deref (znth d sz);
   zero ← (if b0 =? 0 then b1 ← deref (znth d (sz + 1)); Ok (b1 =? 0) else Ok false);
   if zero : bool then i ← zero_run d sz 0 (S (Z.to_nat sz)); Ok (negb (i =? sz)) else Ok true) =
  Ok (negb (all_zero (octets_at d 0 (A / 8)))).
Proof using.
  intros Hm HA Hp Hz Ho Hzero. rewrite Z.quot_div_nonneg by lia. set (n := A / 8) in *. cbv zeta.
  assert (Hn : 0 < n) by (unfold n; Z.div_mod_to_equations; lia).
  rewrite octets_at_app in Ho by lia. apply app_inv_head in Ho. rewrite Z.add_0_l in Ho.
  destruct (znth_is_Some d n) as [x Hx]; [lia |]. destruct (znth_is_Some d (n + 1)) as [y Hy]; [lia |].
  rewrite Hx, Hy. cbn [mbind res_bind deref]. rewrite znth_lookup in Hx, Hy by lia.
  rewrite (octets_at_cons d n x), (octets_at_cons d (n + 1) y) in Ho by (done || lia).
  assert (Hxy : all_zero (octets_at d 0 n) = true → x = 0 ∧ y = 0).
  { intros Ha%Hzero. rewrite <- Ho in Ha. unfold all_zero in Ha. simpl in Ha. lia. }
  destruct (zero_run_ok d n 0 (S (Z.to_nat n))) as (i' & E & Hi'); [lia | lia | lia |]. rewrite Z.sub_0_r in Hi'.
  rewrite <- Hi' in *. rewrite E. cbn [mbind res_bind].
  destruct (Z.eqb_spec x 0), (Z.eqb_spec y 0); cbn [mbind res_bind]; [done | | |];
    (destruct (i' =? n); [destruct (Hxy eq_refl); lia | done]).
Qed.
(** A decoder that returns the encoded segments exists for every encoder output. *)
Lemma faithful_decoder (o : seg_out) :
  0 <= Z.shiftr (seg_K o) 3 → Z.shiftr (seg_K o) 3 * seg_C o < 2 ^ 31 → 0 <= seg_C o →
  (∀ j, (j < Z.to_nat (seg_C o))%nat →
    ∃ buf, seg_bufs o !! j = Some buf ∧ is_bytes buf ∧ Z.shiftr (seg_K o) 3 <= zlen buf) →
  ∃ c, carries o c.
Proof using.
  intros HK0 Hu HC Hb. set (K8 := Z.shiftr (seg_K o) 3) in *.
  assert (H : ∀ n, (n <= Z.to_nat (seg_C o))%nat → ∃ c, is_bytes c ∧ zlen c = K8 * Z.of_nat n ∧
    ∀ j, (j < n)%nat → ∃ buf, seg_bufs o !! j = Some buf ∧ octets_at c (K8 * Z.of_nat j) K8 = octets_at buf 0 K8).
  { induction n as [| n IH]; intros Hn.
    { exists []. rewrite Z.mul_0_r. split_and!; [constructor | done | intros j Hj; lia]. }
    destruct IH as (c & Hc & Hz & Hj); [lia |]. destruct (Hb n) as (buf & E & Hbb & Hl); [lia |].
    pose proof (octets_at_zlen buf 0 K8 ltac:(lia) HK0 ltac:(lia)) as Ho.
    exists (c ++ octets_at buf 0 K8). split_and!.
    - apply Forall_app; split; [done | by apply octets_at_bytes].
    - rewrite zlen_app, Hz, Ho. lia.
    - intros j Hjn. destruct (decide (j = n)) as [-> | Hne].
      + exists buf. split; [done |]. rewrite <- Hz. unfold octets_at at 1. unfold zlen at 1.
        rewrite Nat2Z.id, drop_app_length. unfold zlen in Ho. rewrite take_ge by lia. done.
      + destruct (Hj j) as (buf' & E' & Eo); [lia |]. exists buf'. split; [done |]. rewrite <- Eo.
        unfold octets_at. assert (K8 * Z.of_nat j + K8 <= K8 * Z.of_nat n).
        { assert (K8 * (Z.of_nat j + 1) <= K8 * Z.of_nat n) by (apply Z.mul_le_mono_nonneg_l; lia). lia. }
        assert (0 <= K8 * Z.of_nat j) by lia. unfold zlen in Hz.
        rewrite drop_app_le, take_app_le by (rewrite ?length_drop; lia). done. }
  destruct (H (Z.to_nat (seg_C o))) as (c & Hc & Hz & Hj); [lia |]. exists c.
  split; [done |]. split; [fold K8; lia | exact Hj].
Qed.

(** ** The chain, for a size that is cut exactly *)

Lemma with_crc_octets A : A mod 8 = 0 → with_crc A = 8 * (A / 8 + tb_parity A) ∧ lenWithCrc 1 A = with_crc A ∧ 2 <= tb_parity A <= 3.
Proof using.
  intros Hm. unfold with_crc, tb_parity, lenWithCrc. change (1 <? 1) with false. cbv iota.
  destruct (NR_MAX_PDSCH_TBS <? A); split_and!; try lia; try done; Z.div_mod_to_equations; lia.
Qed.

(** A payload with its parity written behind it. *)
Definition attached (a a1 par : bytes) (A r : Z) : Prop :=
  zlen a1 = zlen a ∧ is_bytes a1 ∧ octets_at a1 0 (A / 8 + tb_parity A) = octets_at a 0 (A / 8) ++ par ∧
  zlen (octets_at a 0 (A / 8)) = A / 8 ∧ par = parity (Z.to_nat (tb_parity A)) r ∧
  0 <= r < 2 ^ (8 * tb_parity A) ∧
  cong (crc_generator (tb_kind A)) r (Z.shiftl (poly_of (octets_at a 0 (A / 8))) (8 * tb_parity A)).

Lemma attach_block USE a A max_bytes :
  is_bytes a → A mod 8 = 0 → 0 < A < 2 ^ 24 → A / 8 + 4 <= zlen a → 32 <= zlen a → A / 8 + 4 <= max_bytes →
  ∃ a1 par r, ulsch_attach USE T a A max_bytes = Ok (a1, with_crc A) ∧ attached a a1 par A r.
Proof using SL HT.
  intros Ha Hm HA Haz Ha32 Hmax. destruct (with_crc_octets A Hm) as (Hw & _ & Htb).
  destruct (ulsch_attach_ok USE T HT a A max_bytes) as (par & E & Hpl & Hpb & r & Epar & Hr & Hcong); [done.. |].
  assert (HA8 : 0 <= A / 8) by (apply Z.div_pos; lia).
  assert (Hza : zlen (octets_at a 0 (A / 8)) = A / 8) by (apply octets_at_zlen; lia).
  eexists _, par, r. split; [exact E |]. split_and!; [| | | done | done | apply Hr | apply Hr | done].
  - rewrite !zlen_app, Hza, Hpl. unfold zlen in *. rewrite length_drop. lia.
  - apply Forall_app; split; [by apply octets_at_bytes |]. apply Forall_app; split; [done | by apply Forall_drop].
  - rewrite app_assoc. apply octets_at_prefix. rewrite zlen_app. lia.
Qed.

(** From a block [b1] with its parity to the receiver's buffer. *)
Lemma segments_transfer USE A BG C p a1 b1 o par r :
  cut_exactly A BG C → is_bytes b1 → with_crc A <= 8 * zlen b1 → zlen b1 < 2 ^ 27 → buffers_ok C (seg_bufs o) →
  octets_at b1 0 (A / 8 + tb_parity A) = octets_at a1 0 (A / 8 + tb_parity A) →
  attached p a1 par A r → is_bytes p →
  ∃ o1, nr_segmentation USE T (Some b1) (with_crc A) BG o = Ok (info_columns (with_crc A) BG, o1) ∧ seg_C o1 = C ∧
    ∀ USE' o2 c b2 (succ : list bool),
      carries o1 c → (∀ r, (r < Z.to_nat C)%nat → succ !! r = Some true) →
      is_bytes b2 → A / 8 + 3 <= zlen b2 → zlen b2 < 2 ^ 27 →
      ∃ o2' b3, nr_segmentation USE' T None (with_crc A) BG o2 = Ok (info_columns (with_crc A) BG, o2') ∧
        seg_C o2' = C ∧ copy_if_decoded succ o2' c b2 = Ok b3 ∧
        octets_at b3 0 (A / 8) = octets_at p 0 (A / 8) ∧
        (1 < C → check_crc USE' T b3 (lenWithCrc 1 A) (crcType 1 A) = Ok 1) ∧
        (let sz := Z.quot A 8 in
         b0 ← deref (znth b3 sz);
         zero ← (if b0 =? 0 then b1 ← deref (znth b3 (sz + 1)); Ok (b1 =? 0) else Ok false);
         if zero : bool then i ← zero_run b3 sz 0 (S (Z.to_nat sz)); Ok (negb (i =? sz)) else Ok true) =
        Ok (negb (all_zero (octets_at p 0 (A / 8)))).
Proof using SL HT.
  intros Hcut Hb Hz Hzu Hbufs Hb1 (_ & _ & Ho & Hp & -> & Hr & Hcong) Hpb. rewrite <- Hb1 in Ho.
  pose proof Hcut as (Hm & HA & HC & _ & HC1 & _).
  destruct (with_crc_octets A Hm) as (Hw & Hlen & Htb).
  destruct (encode_ok USE A BG C b1 o Hcut Hb Hz Hzu Hbufs) as (n & o1 & E & He & Hnone).
  exists o1. pose proof He as (EC & _). split; [done |]. split; [done |].
  intros USE' o2 c b2 succ Hcar Hs Hb2 Hz2 Hu2.
  destruct (reassembled A C n b1 o1 c succ b2 (params_of (seg_C o1) (seg_Z o1) (seg_K o1) (seg_F o1) (seg_bufs o2)))
    as (b3 & E3 & Hl3 & Hb3 & Ho3); [done | done | done | done | done | done | done | done | done | lia | lia |].
  rewrite Hw, (Z.mul_comm 8), Z.div_mul, Ho in Ho3 by lia.
  assert (Hpar : zlen (parity (Z.to_nat (tb_parity A)) r) = tb_parity A) by (rewrite parity_zlen; lia).
  assert (Ho8 : octets_at b3 0 (A / 8) = octets_at p 0 (A / 8)).
  { rewrite (octets_at_take b3 0 (A / 8) (A / 8 + tb_parity A)), Ho3 by lia.
    rewrite <- Hp at 1. unfold zlen. rewrite Nat2Z.id. apply take_app_length. }
  eexists _, b3. split; [apply Hnone |]. split; [exact EC |]. split; [exact E3 |]. split; [exact Ho8 |]. split.
  - intros H1. specialize (HC1 H1).
    assert (Hlt : (NR_MAX_PDSCH_TBS <? A) = true) by (by apply Z.ltb_lt).
    unfold tb_parity, tb_kind in *. rewrite Hlt in Hr, Hcong, Ho3.
    apply (block_check USE' A b3 p r); [lia | done | done | Z.div_mod_to_equations; lia | exact Ho3 | exact Hr | exact Hcong].
  - rewrite <- Ho8. apply (zero_rule b3 A (parity (Z.to_nat (tb_parity A)) r)); [done | lia | lia | lia | by rewrite Hpar, Ho8 |].
    rewrite Ho8. intros Hall. unfold tb_parity, tb_kind in *.
    assert (r = 0) as ->.
    { destruct (NR_MAX_PDSCH_TBS <? A); [apply (zero_parity K24A r (octets_at p 0 (A / 8))) |
        apply (zero_parity K16 r (octets_at p 0 (A / 8)))]; by try apply octets_at_bytes. }
    by destruct (NR_MAX_PDSCH_TBS <? A).
Qed.
End chain.
