(* ===== verification/NrSegTheorems.v ===== *)
(** * Theorems on transport blocks

    The sizes [nr_compute_tbs] returns, the parameters of [nr_segmentation], the CRC of every
    segment, the transfer of a block in both directions, and the division of the coded bits
    between the segments. *)

From S2P Require Import Prelude Gf2 Crc CrcFacts CrcFold CrcProps.
From S2P Require Import NrSegmentation NrSegProps NrSegTransfer.

(** ** Shares of the coded bits *)

Lemma share_ok G C Qm Nl :
  0 < C < 256 → 0 < Qm → 0 < Nl → 0 <= G < 2 ^ 32 → G mod (Nl * Qm) = 0 →
  let q := G / (Nl * Qm * C) in
  ∃ m, 0 <= m < C ∧
    (∀ r, 0 <= r < C → nr_get_E G C Qm Nl r = Ok (if r <? C - m then Nl * Qm * q else Nl * Qm * (q + 1))) ∧
    Nl * Qm * (C * q + m) = G.
Proof.
  intros HC HQ HN HG Hm. cbv zeta. set (u := Nl * Qm) in *. assert (Hu : 0 < u) by nia.
  pose proof (Z.div_mod G u ltac:(lia)) as Hd. rewrite Hm, Z.add_0_r in Hd.
  pose proof (Z.div_mod (G / u) C ltac:(lia)) as Hd2. pose proof (Z.mod_pos_bound (G / u) C ltac:(lia)) as Hm2.
  rewrite <- Z.div_div by lia. set (t := G / u) in *. set (q := t / C) in *. set (m := t mod C) in *.
  exists m. split; [done |]. split; [| rewrite <- Hd2; lia].
  intros r Hr. unfold nr_get_E, assert_that. decide_true (0 <? Nl). decide_true (0 <? Qm).
  decide_false (C =? 0). cbn [mbind res_bind]. fold u. rewrite <- Z.div_div by lia. fold t. fold q. fold m.
  replace (u32 (C - m - 1)) with (C - m - 1) by (unfold u32; rewrite Z.mod_small; lia).
  assert (Hq : 0 <= q) by (apply Z.div_pos; nia).
  assert (Hle : u * (C * q + m) = G) by (rewrite <- Hd2; lia).
  destruct (Z.leb_spec r (C - m - 1)), (Z.ltb_spec r (C - m)); try lia;
    f_equal; unfold u32; apply Z.mod_small; nia.
Qed.

(** [C - m] shares of [u * q] and [m] of [u * (q + 1)]. *)
Lemma shares_sum C m u q (f : Z → res Z) :
  0 <= m <= C → 0 <= C →
  (∀ r, 0 <= r < C → f r = Ok (if r <? C - m then u * q else u * (q + 1))) →
  foldr (λ r acc, s ← acc; e ← f r; Ok (e + s)) (Ok 0) (seqZ 0 C) = Ok (u * (C * q + m)).
Proof.
  intros Hm HC Hf.
  assert (H : ∀ n : nat, Z.of_nat n <= C →
    foldr (λ r acc, s ← acc; e ← f r; Ok (e + s)) (Ok 0) (seqZ (C - Z.of_nat n) (Z.of_nat n)) =
    Ok (u * (Z.of_nat n * q + Z.min (Z.of_nat n) m))).
  { induction n as [| n IH]; intros Hn; [change (Z.of_nat 0) with 0; rewrite Z.min_l, Z.mul_0_l, Z.mul_0_r by lia; done |].
    rewrite seqZ_cons by lia. cbn [foldr].
    replace (Z.succ (C - Z.of_nat (S n))) with (C - Z.of_nat n) by lia.
    replace (Z.pred (Z.of_nat (S n))) with (Z.of_nat n) by lia.
    rewrite IH, Hf by lia. cbn [mbind res_bind]. f_equal.
    destruct (Z.ltb_spec (C - Z.of_nat (S n)) (C - m)); [rewrite !Z.min_r by lia | rewrite !Z.min_l by lia];
      rewrite Nat2Z.inj_succ; unfold Z.succ; ring. }
  specialize (H (Z.to_nat C)). rewrite Z2Nat.id, Z.sub_diag, Z.min_r in H by lia. by apply H.
Qed.

Lemma get_G_multiple nb_rb nb_symb_sch nb_re_dmrs length_dmrs unav_res Qm Nl :
  0 < Qm → 0 < Nl → 0 <= unav_res <= (12 * nb_symb_sch - nb_re_dmrs * length_dmrs) * nb_rb →
  (12 * nb_symb_sch - nb_re_dmrs * length_dmrs) * nb_rb * Qm * Nl < 2 ^ 32 →
  let G := nr_get_G nb_rb nb_symb_sch nb_re_dmrs length_dmrs unav_res Qm Nl in
  0 <= G < 2 ^ 32 ∧ G mod (Nl * Qm) = 0.
Proof.
  intros HQ HN Hun Hre. cbv zeta. unfold nr_get_G. set (N := (12 * nb_symb_sch - nb_re_dmrs * length_dmrs) * nb_rb) in *.
  assert (H1 : 0 <= unav_res * (Qm * Nl) <= N * (Qm * Nl)) by (split; [| apply Z.mul_le_mono_nonneg_r]; nia).
  assert (E : u32 (u32 (N * Qm * Nl) - u32 (unav_res * Qm * Nl)) = (N - unav_res) * (Nl * Qm)).
  { unfold u32. rewrite (Z.mod_small (N * Qm * Nl)), (Z.mod_small (unav_res * Qm * Nl)), Z.mod_small by lia. lia. }
  rewrite E. split; [lia | apply Z.mod_mul; nia].
Qed.

(** The copy of a block into the encoder's buffer. *)
Lemma copied_block a1 b0 A :
  is_bytes a1 → is_bytes b0 → 0 <= A / 8 → A / 8 + 4 <= zlen a1 → A / 8 + 4 <= zlen b0 →
  ∃ b1, memcpy b0 0 a1 0 (if NR_MAX_PDSCH_TBS <? A then A / 8 + 4 else A / 8 + 3) = Ok b1 ∧ zlen b1 = zlen b0 ∧
    is_bytes b1 ∧ octets_at b1 0 (A / 8 + tb_parity A) = octets_at a1 0 (A / 8 + tb_parity A).
Proof.
  intros Ha Hb HA Hza Hzb. set (n := if NR_MAX_PDSCH_TBS <? A then A / 8 + 4 else A / 8 + 3).
  assert (Hn : A / 8 + tb_parity A <= n <= A / 8 + 4 ∧ 0 < n) by (unfold n, tb_parity; destruct (NR_MAX_PDSCH_TBS <? A); lia).
  rewrite memcpy_front by lia. eexists. split; [done |]. split_and!.
  - rewrite zlen_app, octets_at_zlen by lia. unfold zlen in *. rewrite length_drop. lia.
  - apply Forall_app; split; [by apply octets_at_bytes | by apply Forall_drop].
  - apply (octets_at_eq_prefix _ a1 n); [| lia]. apply octets_at_prefix. rewrite octets_at_zlen; lia.
Qed.

(** (functional) Segmentation never fails: for any size and base graph it returns the
    number of columns Kb, one code block if the block fits and the least number that fits with
    24 more bits each otherwise, the least lifting size of Table 5.3.2-1 whose Kb columns hold
    a segment, and K and F that follow from it without wrapping. *)
Theorem segmentation_parameters {V : Simd} (USE : bool) (T : crc_tables) (B BG : Z) (o : seg_out) :
  0 <= B < 2 ^ 30 →
  ∃ C Kprime Zmin Zc,
    nr_segmentation USE T None B BG o =
      Ok (info_columns B BG,
          mk_seg C (if BG =? 1 then Zc * 22 else Zc * 10) Zc
            ((if BG =? 1 then Zc * 22 else Zc * 10) - Kprime) (seg_bufs o)) ∧
    (if 1 <? C then (C - 1) * (Kcb_of BG - 24) < B <= C * (Kcb_of BG - 24) else C = 1 ∧ B <= Kcb_of BG) ∧
    Kprime = (B + (if 1 <? C then 24 * C else 0)) / C ∧
    info_columns B BG * (Zmin - 1) < Kprime <= info_columns B BG * Zmin ∧
    least_lifting Zmin Zc ∧ Kprime <= (if BG =? 1 then Zc * 22 else Zc * 10).
Proof.
  intros HB. destruct (code_blocks_ok B BG HB) as (C & E & HC & H1 & Hge).
  destruct (segment_length B BG C HB HC H1 Hge) as (HK & HZ & HKZ & HKb). cbv zeta in HK, HZ, HKZ.
  set (Kprime := (B + _) / C) in *. set (Kb := info_columns B BG) in *.
  set (Zmin := if 0 <? Kprime mod Kb then Kprime / Kb + 1 else Kprime / Kb) in *.
  destruct (lifting_size_ok Zmin HZ) as (Zc & EZ & Hleast).
  pose proof (least_lifting_bounds Zmin Zc HZ Hleast) as HZc. pose proof Hleast as (_ & Hle & _).
  set (K := if BG =? 1 then Zc * 22 else Zc * 10).
  assert (HKK : Kprime <= K <= 8448) by (unfold K; destruct (BG =? 1); nia).
  exists C, Kprime, Zmin, Zc. split_and!.
  - unfold nr_segmentation. rewrite E. fold Kprime Kb. fold Zmin. rewrite EZ. fold K.
    replace (u32 (K - Kprime)) with (K - Kprime) by (unfold u32; rewrite Z.mod_small; lia). done.
  - destruct (Z.ltb_spec 1 C); [done |]. split; [lia | apply H1; lia].
  - done.
  - unfold Zmin. pose proof (Z.div_mod Kprime Kb ltac:(lia)). pose proof (Z.mod_pos_bound Kprime Kb ltac:(lia)).
    destruct (Z.ltb_spec 0 (Kprime mod Kb)); nia.
  - done.
  - done.
  - lia.
Qed.

(** C23: (bounds) Every size [nr_compute_tbs] returns is a whole number of octets and, with its
    CRC, a multiple of eight times the number of code blocks of the base graph [get_BG] selects
    for it: segmentation loses no bit, although it divides without looking at the remainder. *)
Theorem tbs_is_cut_exactly (Qm R nb_rb nb_symb_sch nb_dmrs_prb nb_rb_oh tb_scaling Nl : Z) :
  0 <= tb_scaling → 0 < nr_compute_tbs Qm R nb_rb nb_symb_sch nb_dmrs_prb nb_rb_oh tb_scaling Nl →
  let A := nr_compute_tbs Qm R nb_rb nb_symb_sch nb_dmrs_prb nb_rb_oh tb_scaling Nl in
  ∃ L C Bprime, code_blocks (with_crc A) (get_BG A R) = (L, C, Bprime) ∧ A mod 8 = 0 ∧
    with_crc A mod (8 * C) = 0 ∧ C * (Bprime / C - L) = with_crc A.
Proof.
  intros Hs HA. cbv zeta. unfold nr_compute_tbs in *.
  destruct ((Qm =? 0) || (R =? 0) || (nb_rb =? 0) || (Nl =? 0)); [lia |].
  set (N := tbs_Ninfo Qm R nb_rb nb_symb_sch nb_dmrs_prb nb_rb_oh tb_scaling Nl) in *.
  destruct (tbs_cut N R) as (C & Hm & HA' & HC & Hw & _ & E); [by apply Ninfo_bound |].
  eexists _, C, _. split_and!; [exact E | done | done |].
  pose proof (Z.div_mod (with_crc (tbs_of_Ninfo N R)) (8 * C) ltac:(lia)) as Hd. rewrite Hw in Hd.
  set (t := with_crc (tbs_of_Ninfo N R) / (8 * C)) in *.
  destruct (1 <? C).
  - replace (with_crc (tbs_of_Ninfo N R) + 24 * C) with ((8 * t + 24) * C) by lia. rewrite Z.div_mul by lia. lia.
  - rewrite Z.add_0_r, Hd, Z.add_0_r. replace (8 * C * t) with (8 * t * C) by lia. rewrite Z.div_mul by lia. lia.
Qed.

Section chain_theorems.
Context {V : Simd} {SL : SimdLaws V}.

Lemma tbs_cut_exactly (Qm R nb_rb nb_symb_sch nb_dmrs_prb nb_rb_oh tb_scaling Nl A : Z) :
  A = nr_compute_tbs Qm R nb_rb nb_symb_sch nb_dmrs_prb nb_rb_oh tb_scaling Nl →
  0 <= tb_scaling → 0 < A → ∃ C, cut_exactly A (get_BG A R) C.
Proof using.
  unfold nr_compute_tbs. intros -> Hs HA.
  destruct ((Qm =? 0) || (R =? 0) || (nb_rb =? 0) || (Nl =? 0)); [lia |]. by apply tbs_cut, Ninfo_bound.
Qed.

(** Every segment of a block that is cut in several passes the check the LDPC
    decoder stops on: its buffer, over the length of a segment, is accepted by [check_crc]. *)
Theorem segments_pass_check (USE USE' : bool) (T : crc_tables) (A BG C : Z) (b1 : bytes) (o : seg_out) :
  crcTableInit = Ok T → cut_exactly A BG C → is_bytes b1 → with_crc A <= 8 * zlen b1 → zlen b1 < 2 ^ 27 →
  buffers_ok C (seg_bufs o) → 1 < C →
  ∃ Kb o1 Kprime, nr_segmentation USE T (Some b1) (with_crc A) BG o = Ok (Kb, o1) ∧
    Kprime = seg_K o1 - seg_F o1 ∧
    ∀ j, (j < Z.to_nat C)%nat →
      ∃ buf, seg_bufs o1 !! j = Some buf ∧ check_crc USE' T buf Kprime CRC24_B = Ok 1.
Proof using SL.
  intros HT%init_tables Hcut Hb Hz Hzu Hbufs HC.
  destruct (encode_ok T HT USE A BG C b1 o Hcut Hb Hz Hzu Hbufs) as (n & o1 & E & He & _).
  exists (info_columns (with_crc A) BG), o1, (8 * (n + 3)). split; [exact E |].
  destruct He as (EC & EF & EF0 & HK & Hn & HB & Hbs). rewrite EF. decide_true (1 <? C). split; [lia |].
  intros j Hj. destruct (Hbs j Hj) as (buf & Ej & Hbb & HzK & Hz32 & par & rest & Ebuf & Hle & Hpb & Hpl & Hpm).
  exists buf. split; [done |]. revert Hpl. decide_true (1 <? C). intros Hpl.
  assert (Hseg : zlen (octets_at b1 (n * Z.of_nat j) n) = n).
  { assert (n * (Z.of_nat j + 1) <= n * C) by (apply Z.mul_le_mono_nonneg_l; lia). apply octets_at_zlen; nia. }
  destruct (check_crc_ok USE' T HT CRC24_B K24B buf (8 * (n + 3))) as (v & Ev & Hv); [done | |].
  { pose proof (shiftr_3 (seg_K o1)). split_and!; [done | | simpl; lia | lia | lia |].
    - rewrite Z.mul_comm. apply Z.mod_mul. lia.
    - intros _ _ _ _. simpl. replace (8 * (n + 3) - 24) with (n * 8) by lia. rewrite Z.div_mul by lia.
      unfold read_extent. destruct (n <=? 12); lia. }
  rewrite Ev. replace v with true; [done |]. symmetry. apply Hv.
  rewrite Ebuf, app_assoc, message_prefix by (rewrite zlen_app; lia). by apply Hpm.
Qed.

(** C18: (roundtrip) Downlink: a transport block of a size [nr_compute_tbs] returns goes through
    CRC attachment, segmentation, a decoder that returns the encoded segments, reassembly and
    the CRC check of the UE, and the UE holds the octets that were sent; it reports success
    unless all of them are zero, which it refuses by its own rule. *)
Theorem dlsch_transfer (USE USE' : bool) (T : crc_tables)
    (Qm R nb_rb nb_symb_sch nb_dmrs_prb nb_rb_oh tb_scaling Nl A max_bytes : Z) (a b0 : bytes) (o : seg_out) :
  crcTableInit = Ok T → 0 <= tb_scaling → 0 < A →
  A = nr_compute_tbs Qm R nb_rb nb_symb_sch nb_dmrs_prb nb_rb_oh tb_scaling Nl →
  is_bytes a → is_bytes b0 → 32 <= zlen a < 2 ^ 27 → A / 8 + 4 <= zlen a → A / 8 + 4 <= zlen b0 < 2 ^ 27 →
  A / 8 + 4 <= max_bytes → (∀ C, cut_exactly A (get_BG A R) C → buffers_ok C (seg_bufs o)) →
  ∃ a1 b1 Kb o1,
    dlsch_attach USE T a b0 A max_bytes = Ok (a1, b1, with_crc A) ∧
    nr_segmentation USE T (Some b1) (with_crc A) (get_BG A R) o = Ok (Kb, o1) ∧
    ∀ o2 c b2 (succ : list bool),
      carries o1 c → (∀ r, (r < Z.to_nat (seg_C o1))%nat → succ !! r = Some true) →
      is_bytes b2 → A / 8 + 3 <= zlen b2 < 2 ^ 27 →
      ∃ o2' b3,
        nr_segmentation USE' T None (lenWithCrc 1 A) (get_BG A R) o2 = Ok (Kb, o2') ∧
        dlsch_post_decode USE' T A (seg_C o2') succ o2' c b2 =
          Ok (b3, negb (all_zero (octets_at a 0 (A / 8)))) ∧
        octets_at b3 0 (A / 8) = octets_at a 0 (A / 8).
Proof using SL.
  intros HT%init_tables Hs HA EA Ha Hb0 Ha32 Haz Hbz Hmax Hbufs.
  destruct (tbs_cut_exactly _ _ _ _ _ _ _ _ A EA Hs HA) as (C & Hcut).
  pose proof Hcut as (Hm & HAr & HC & _). destruct (with_crc_octets A Hm) as (Hw & Hlen & Htb).
  destruct (attach_block T HT USE a A max_bytes) as (a1 & par & r & E & Hat); [done | done | lia | lia | lia | done |].
  pose proof Hat as (Hz1 & Hb1 & _). assert (HA8 : 0 <= A / 8) by (apply Z.div_pos; lia).
  destruct (copied_block a1 b0 A Hb1 Hb0) as (b1 & Ec & Hzb & Hbb & Ho1); [lia | lia | lia |].
  destruct (segments_transfer T HT USE A (get_BG A R) C a a1 b1 o par r) as (o1 & Es & EC & Hrest);
    [done | done | lia | lia | by apply Hbufs | done | done | done |].
  exists a1, b1. eexists _, o1. split_and!; [| exact Es |].
  - unfold dlsch_attach. rewrite E. cbn [mbind res_bind]. by rewrite Ec.
  - intros o2 c b2 succ Hcar Hsucc Hb2 Hz2. rewrite EC in Hsucc.
    destruct (Hrest USE' o2 c b2 succ) as (o2' & b3 & E2 & EC2 & E3 & Ho3 & Hcheck & Hzero); [done | done | done | lia | lia |].
    exists o2', b3. rewrite Hlen. split_and!; [exact E2 | | done].
    unfold dlsch_post_decode. rewrite E3. cbn [mbind res_bind]. rewrite Z.eqb_refl, EC2. cbn [andb].
    destruct (Z.ltb_spec 1 C); [rewrite Hcheck by done |]; cbn [mbind res_bind]; cbv beta iota zeta in Hzero |- *;
      change (negb (1 =? 0)) with true; cbv iota; by rewrite Hzero.
Qed.

(** C19: (roundtrip) Uplink: the same chain from the UE's encoder to the gNB's decoder delivers
    every block, the all-zero one included. *)
Theorem ulsch_transfer (USE USE' : bool) (T : crc_tables)
    (Qm R nb_rb nb_symb_sch nb_dmrs_prb nb_rb_oh tb_scaling Nl A max_bytes : Z) (a : bytes) (o : seg_out) :
  crcTableInit = Ok T → 0 <= tb_scaling → 0 < A →
  A = nr_compute_tbs Qm R nb_rb nb_symb_sch nb_dmrs_prb nb_rb_oh tb_scaling Nl →
  is_bytes a → 32 <= zlen a < 2 ^ 27 → A / 8 + 4 <= zlen a → A / 8 + 4 <= max_bytes →
  (∀ C, cut_exactly A (get_BG A R) C → buffers_ok C (seg_bufs o)) →
  ∃ a1 Kb o1,
    ulsch_attach USE T a A max_bytes = Ok (a1, with_crc A) ∧
    nr_segmentation USE T (Some a1) (with_crc A) (get_BG A R) o = Ok (Kb, o1) ∧
    ∀ o2 c b2 (succ : list bool),
      carries o1 c → (∀ r, (r < Z.to_nat (seg_C o1))%nat → succ !! r = Some true) →
      is_bytes b2 → A / 8 + 3 <= zlen b2 < 2 ^ 27 →
      ∃ o2' b3,
        nr_segmentation USE' T None (lenWithCrc 1 A) (get_BG A R) o2 = Ok (Kb, o2') ∧
        ulsch_post_decode USE' T (A / 8) (seg_C o2') succ o2' c b2 = Ok (b3, true) ∧
        octets_at b3 0 (A / 8) = octets_at a 0 (A / 8).
Proof using SL.
  intros HT%init_tables Hs HA EA Ha Ha32 Haz Hmax Hbufs.
  destruct (tbs_cut_exactly _ _ _ _ _ _ _ _ A EA Hs HA) as (C & Hcut).
  pose proof Hcut as (Hm & HAr & HC & _). destruct (with_crc_octets A Hm) as (Hw & Hlen & Htb).
  destruct (attach_block T HT USE a A max_bytes) as (a1 & par & r & E & Hat); [done | done | lia | lia | lia | done |].
  pose proof Hat as (Hz1 & Hb1 & _).
  destruct (segments_transfer T HT USE A (get_BG A R) C a a1 a1 o par r) as (o1 & Es & EC & Hrest);
    [done | done | lia | lia | by apply Hbufs | done | done | done |].
  exists a1. eexists _, o1. split_and!; [exact E | exact Es |].
  intros o2 c b2 succ Hcar Hsucc Hb2 Hz2. rewrite EC in Hsucc.
  destruct (Hrest USE' o2 c b2 succ) as (o2' & b3 & E2 & EC2 & E3 & Ho3 & Hcheck & _); [done | done | done | lia | lia |].
  exists o2', b3. rewrite Hlen. split_and!; [exact E2 | | done].
  unfold ulsch_post_decode. rewrite E3. cbn [mbind res_bind]. rewrite Z.eqb_refl, EC2.
  assert (HA8 : Z.shiftl (A / 8) 3 = A) by (rewrite Z.shiftl_mul_pow2 by lia; change (2 ^ 3) with 8; Z.div_mod_to_equations; lia).
  rewrite HA8. by destruct (Z.ltb_spec 1 C); [rewrite Hcheck by done |].
Qed.
End chain_theorems.

(** (bounds) The coded bits are shared out exactly: the sizes [nr_get_E] gives the segments
    add up to the number of coded bits [nr_get_G] computed (when its product fits in 32 bits and
    the unavailable elements are among those it counts), and no two of them differ by more than
    one resource element over all layers. *)
Theorem rate_matching_partition (nb_rb nb_symb_sch nb_re_dmrs length_dmrs unav_res C Qm Nl : Z) :
  0 < C < 256 → 0 < Qm → 0 < Nl →
  0 <= unav_res <= (12 * nb_symb_sch - nb_re_dmrs * length_dmrs) * nb_rb →
  (12 * nb_symb_sch - nb_re_dmrs * length_dmrs) * nb_rb * Qm * Nl < 2 ^ 32 →
  let G := nr_get_G nb_rb nb_symb_sch nb_re_dmrs length_dmrs unav_res Qm Nl in
  foldr (λ r acc, s ← acc; e ← nr_get_E G C Qm Nl r; Ok (e + s)) (Ok 0) (seqZ 0 C) = Ok G ∧
  ∀ r, 0 <= r < C → ∃ e, nr_get_E G C Qm Nl r = Ok e ∧
    (e = Nl * Qm * (G / (Nl * Qm * C)) ∨ e = Nl * Qm * (G / (Nl * Qm * C) + 1)).
Proof.
  intros HC HQ HN Hun Hre. destruct (get_G_multiple nb_rb nb_symb_sch nb_re_dmrs length_dmrs unav_res Qm Nl) as [HG Hm]; [done.. |].
  cbv zeta. set (G := nr_get_G _ _ _ _ _ _ _) in *.
  destruct (share_ok G C Qm Nl) as (m & Hmr & HE & HGm); [done.. |].
  split; [| intros r Hr; rewrite HE by done; eexists; split; [done |]; destruct (r <? C - m); auto].
  rewrite (shares_sum C m (Nl * Qm) (G / (Nl * Qm * C)) (nr_get_E G C Qm Nl)); [by f_equal | lia | lia | done].
Qed.

(** ** Concrete inputs *)

(** 3848 bits at a low rate: two code blocks of base graph 2. *)
Definition sample_A : Z := 3848.
Definition sample_payload : bytes := replicate 600 7.
Definition sample_out : seg_out := mk_seg 0 0 0 0 (replicate 2 (replicate 1056 0)).

Lemma sample_tbs : sample_A = nr_compute_tbs 2 2500 60 12 12 0 0 1.
Proof. vm_compute. reflexivity. Qed.

Lemma sample_cut C : cut_exactly sample_A (get_BG sample_A 2500) C → C = 2.
Proof.
  intros (_ & _ & _ & _ & _ & E). assert (E2 : code_blocks (with_crc sample_A) (get_BG sample_A 2500) = (24, 2, 3920)) by reflexivity.
  rewrite E2 in E. by injection E as _ <- _.
Qed.

Lemma sample_cuts : cut_exactly sample_A 2 2.
Proof. repeat split; vm_compute; congruence. Qed.

Lemma sample_buffers : buffers_ok 2 (seg_bufs sample_out).
Proof.
  intros j Hj. exists (replicate 1056 0). change (zlen (replicate 1056 0)) with 1056.
  split_and!; [| apply Forall_replicate; lia | lia | lia]. simpl. destruct j as [| [| j]]; [done | done | lia].
Qed.

Lemma sample_payload_ok : is_bytes sample_payload ∧ zlen sample_payload = 600.
Proof. split; [apply Forall_replicate; lia | reflexivity]. Qed.

Lemma segmentation_parameters_witness :
  ∃ C Kprime Zmin Zc,
    nr_segmentation true the_tables None 3872 2 sample_out =
      Ok (info_columns 3872 2,
          mk_seg C (if 2 =? 1 then Zc * 22 else Zc * 10) Zc
            ((if 2 =? 1 then Zc * 22 else Zc * 10) - Kprime) (seg_bufs sample_out)) ∧
    (if 1 <? C then (C - 1) * (Kcb_of 2 - 24) < 3872 <= C * (Kcb_of 2 - 24) else C = 1 ∧ 3872 <= Kcb_of 2) ∧
    Kprime = (3872 + (if 1 <? C then 24 * C else 0)) / C ∧
    info_columns 3872 2 * (Zmin - 1) < Kprime <= info_columns 3872 2 * Zmin ∧
    least_lifting Zmin Zc ∧ Kprime <= (if 2 =? 1 then Zc * 22 else Zc * 10).
Proof. apply segmentation_parameters. lia. Defined.

Lemma tbs_is_cut_exactly_witness :
  0 < nr_compute_tbs 2 2500 60 12 12 0 0 1 ∧
  let A := nr_compute_tbs 2 2500 60 12 12 0 0 1 in
  ∃ L C Bprime, code_blocks (with_crc A) (get_BG A 2500) = (L, C, Bprime) ∧ A mod 8 = 0 ∧
    with_crc A mod (8 * C) = 0 ∧ C * (Bprime / C - L) = with_crc A.
Proof.
  split; [vm_compute; reflexivity |]. apply tbs_is_cut_exactly; [lia | vm_compute; reflexivity].
Defined.

Lemma segments_pass_check_witness :
  ∃ Kb o1 Kprime,
    nr_segmentation true the_tables (Some sample_payload) (with_crc sample_A) 2 sample_out = Ok (Kb, o1) ∧
    Kprime = seg_K o1 - seg_F o1 ∧
    ∀ j, (j < Z.to_nat 2)%nat →
      ∃ buf, seg_bufs o1 !! j = Some buf ∧ check_crc true the_tables buf Kprime CRC24_B = Ok 1.
Proof.
  apply (segments_pass_check true true the_tables sample_A 2 2);
    [exact the_tables_ok | exact sample_cuts | apply sample_payload_ok | | | exact sample_buffers | lia];
    rewrite (proj2 sample_payload_ok); [change (with_crc sample_A) with 3872; lia | lia].
Defined.

Lemma dlsch_transfer_witness :
  ∃ a1 b1 Kb o1,
    dlsch_attach true the_tables sample_payload sample_payload sample_A 2112 = Ok (a1, b1, with_crc sample_A) ∧
    nr_segmentation true the_tables (Some b1) (with_crc sample_A) (get_BG sample_A 2500) sample_out = Ok (Kb, o1) ∧
    ∀ o2 c b2 (succ : list bool),
      carries o1 c → (∀ r, (r < Z.to_nat (seg_C o1))%nat → succ !! r = Some true) →
      is_bytes b2 → sample_A / 8 + 3 <= zlen b2 < 2 ^ 27 →
      ∃ o2' b3,
        nr_segmentation false the_tables None (lenWithCrc 1 sample_A) (get_BG sample_A 2500) o2 = Ok (Kb, o2') ∧
        dlsch_post_decode false the_tables sample_A (seg_C o2') succ o2' c b2 =
          Ok (b3, negb (all_zero (octets_at sample_payload 0 (sample_A / 8)))) ∧
        octets_at b3 0 (sample_A / 8) = octets_at sample_payload 0 (sample_A / 8).
Proof.
  destruct sample_payload_ok as [Hb Hz]. change (sample_A / 8) with 481.
  apply (dlsch_transfer true false the_tables 2 2500 60 12 12 0 0 1 sample_A 2112 sample_payload sample_payload sample_out);
    [exact the_tables_ok | lia | unfold sample_A; lia | exact sample_tbs | exact Hb | exact Hb | | | | |];
    rewrite ?Hz; try (change (sample_A / 8) with 481; lia).
  intros C HC. rewrite (sample_cut C HC). exact sample_buffers.
Defined.

Lemma ulsch_transfer_witness :
  ∃ a1 Kb o1,
    ulsch_attach true the_tables sample_payload sample_A 2112 = Ok (a1, with_crc sample_A) ∧
    nr_segmentation true the_tables (Some a1) (with_crc sample_A) (get_BG sample_A 2500) sample_out = Ok (Kb, o1) ∧
    ∀ o2 c b2 (succ : list bool),
      carries o1 c → (∀ r, (r < Z.to_nat (seg_C o1))%nat → succ !! r = Some true) →
      is_bytes b2 → sample_A / 8 + 3 <= zlen b2 < 2 ^ 27 →
      ∃ o2' b3,
        nr_segmentation true the_tables None (lenWithCrc 1 sample_A) (get_BG sample_A 2500) o2 = Ok (Kb, o2') ∧
        ulsch_post_decode true the_tables (sample_A / 8) (seg_C o2') succ o2' c b2 = Ok (b3, true) ∧
        octets_at b3 0 (sample_A / 8) = octets_at sample_payload 0 (sample_A / 8).
Proof.
  destruct sample_payload_ok as [Hb Hz]. change (sample_A / 8) with 481.
  apply (ulsch_transfer true true the_tables 2 2500 60 12 12 0 0 1 sample_A 2112 sample_payload sample_out);
    [exact the_tables_ok | lia | unfold sample_A; lia | exact sample_tbs | exact Hb | | | |];
    rewrite ?Hz; try (change (sample_A / 8) with 481; lia).
  intros C HC. rewrite (sample_cut C HC). exact sample_buffers.
Defined.

Lemma rate_matching_partition_witness :
  let G := nr_get_G 60 12 6 2 0 2 1 in
  foldr (λ r acc, s ← acc; e ← nr_get_E G 7 2 1 r; Ok (e + s)) (Ok 0) (seqZ 0 7) = Ok G ∧
  ∀ r, 0 <= r < 7 → ∃ e, nr_get_E G 7 2 1 r = Ok e ∧
    (e = 1 * 2 * (G / (1 * 2 * 7)) ∨ e = 1 * 2 * (G / (1 * 2 * 7) + 1)).
Proof. apply (rate_matching_partition 60 12 6 2 0 7 2 1); lia. Defined.
