(* ===== verification/Snow3gRef.v ===== *)
(** * The SNOW 3G generator and its specification

    The definitions of the ETSI/SAGE specification of SNOW 3G (S-boxes over GF(2^8),
    multiplications by alpha and its inverse, a register of sixteen words that is shifted), and
    the proof that the tables and the unmoved double buffer of [Snow3g.v] implement them. *)

From Stdlib Require Import Btauto.
From S2P Require Import Prelude Snow3g.

(** ** Reference definitions *)

(** Multiplication by x in GF(2^8), [c] being the low byte of the field's polynomial. *)
Definition MULx (v c : Z) : Z :=
  if Z.testbit v 7 then Z.lxor (u8 (Z.shiftl v 1)) c else u8 (Z.shiftl v 1).
Definition MULxPOW (v : Z) (i : nat) (c : Z) : Z := Nat.iter i (λ v, MULx v c) v.

(** Multiplication in GF(2^8), bit by bit of [b], and powers by squaring. *)
Definition gf_mul (c a b : Z) : Z :=
  fst (foldl (λ '(r, a) i, (if Z.testbit b i then Z.lxor r a else r, MULx a c)) (0, a)
         [0; 1; 2; 3; 4; 5; 6; 7]).
Fixpoint gf_pow (c x : Z) (n : positive) : Z :=
  match n with
  | xH => x
  | xO n => let y := gf_pow c x n in gf_mul c y y
  | xI n => let y := gf_pow c x n in gf_mul c x (gf_mul c y y)
  end.

(** Four bytes, the first one the most significant. *)
Definition word (a b c d : Z) : Z :=
  Z.lor (Z.lor (Z.lor (Z.shiftl a 24) (Z.shiftl b 16)) (Z.shiftl c 8)) d.

Definition rotl8 (x n : Z) : Z := Z.lor (u8 (Z.shiftl x n)) (Z.shiftr x (8 - n)).

(** The S-box of Rijndael: inversion in GF(2^8), then an affine map. *)
Definition SR (x : Z) : Z :=
  let y := gf_pow 0x1b x 254 in
  Z.lxor (Z.lxor (Z.lxor (Z.lxor (Z.lxor y (rotl8 y 1)) (rotl8 y 2)) (rotl8 y 3)) (rotl8 y 4)) 0x63.

(** The S-box from the Dickson polynomial of degree 49. *)
Definition SQ (x : Z) : Z :=
  foldl (λ r n, Z.lxor r (gf_pow 0x69 x n)) 0x25 [1; 9; 13; 15; 33; 41; 45; 47; 49]%positive.

Definition ref_S (f : Z → Z) (c w : Z) : Z :=
  let x0 := f (byte_at w 24) in
  let x1 := f (byte_at w 16) in
  let x2 := f (byte_at w 8) in
  let x3 := f (byte_at w 0) in
  let d x := MULx x c in
  word (Z.lxor (Z.lxor (Z.lxor (Z.lxor (d x0) x1) x2) (d x3)) x3)
       (Z.lxor (Z.lxor (Z.lxor (Z.lxor (d x0) x0) (d x1)) x2) x3)
       (Z.lxor (Z.lxor (Z.lxor (Z.lxor x0 (d x1)) x1) (d x2)) x3)
       (Z.lxor (Z.lxor (Z.lxor (Z.lxor x0 x1) (d x2)) x2) (d x3)).
Definition ref_S1 : Z → Z := ref_S SR 0x1b.
Definition ref_S2 : Z → Z := ref_S SQ 0x69.

Definition ref_MULalpha (c : Z) : Z :=
  word (MULxPOW c 23 0xa9) (MULxPOW c 245 0xa9) (MULxPOW c 48 0xa9) (MULxPOW c 239 0xa9).
Definition ref_DIValpha (c : Z) : Z :=
  word (MULxPOW c 16 0xa9) (MULxPOW c 39 0xa9) (MULxPOW c 6 0xa9) (MULxPOW c 64 0xa9).

(** The state: the sixteen words of the shift register and the three of the state machine. *)
Record ref_t := mk_ref { lfsr : list Z; f1 : Z; f2 : Z; f3 : Z }.

Definition ref_feedback (l : list Z) : Z :=
  let x0 := nth 0 l 0 in
  let x11 := nth 11 l 0 in
  Z.lxor (Z.lxor (Z.lxor (Z.lxor
    (word (byte_at x0 16) (byte_at x0 8) (byte_at x0 0) 0)
    (ref_MULalpha (byte_at x0 24)))
    (nth 2 l 0))
    (word 0 (byte_at x11 24) (byte_at x11 16) (byte_at x11 8)))
    (ref_DIValpha (byte_at x11 0)).

Definition ref_shift (v : Z) (r : ref_t) : ref_t :=
  mk_ref (tail (lfsr r) ++ [v]) (f1 r) (f2 r) (f3 r).

Definition ref_clock (r : ref_t) : Z * ref_t :=
  (Z.lxor (u32 (nth 15 (lfsr r) 0 + f1 r)) (f2 r),
   mk_ref (lfsr r) (u32 (f2 r + Z.lxor (f3 r) (nth 5 (lfsr r) 0))) (ref_S1 (f1 r)) (ref_S2 (f2 r))).

Definition ref_init_clock (r : ref_t) : ref_t :=
  let '(f, r) := ref_clock r in ref_shift (Z.lxor (ref_feedback (lfsr r)) f) r.

(** [k] and [iv]: four words each. *)
Definition ref_load (k iv : list Z) : ref_t :=
  let n i := Z.lxor (arr k i) 0xffffffff in
  mk_ref [n 0; n 1; n 2; n 3; arr k 0; arr k 1; arr k 2; arr k 3; n 0;
          Z.lxor (n 1) (arr iv 3); Z.lxor (n 2) (arr iv 2); n 3;
          Z.lxor (arr k 0) (arr iv 1); arr k 1; arr k 2; Z.lxor (arr k 3) (arr iv 0)] 0 0 0.

Definition ref_step (r : ref_t) : Z * ref_t :=
  let '(f, r) := ref_clock r in
  (Z.lxor f (nth 0 (lfsr r) 0), ref_shift (ref_feedback (lfsr r)) r).

Definition ref_start (k iv : list Z) : ref_t :=
  let '(_, r) := ref_clock (Nat.iter 32 ref_init_clock (ref_load k iv)) in
  ref_shift (ref_feedback (lfsr r)) r.

Fixpoint ref_keystream (n : nat) (r : ref_t) : list Z :=
  match n with
  | O => []
  | S n => let '(z, r) := ref_step r in z :: ref_keystream n r
  end.

(** ** The tables *)

Definition is_byte (x : Z) : Prop := 0 <= x < 256.

Lemma byte_at_byte x n : is_byte (byte_at x n).
Proof. unfold byte_at, is_byte. change 0xff with (Z.ones 8). rewrite Z.land_ones by lia. apply Z.mod_pos_bound. lia. Qed.

Lemma is_byte_bits x n : is_byte x → 8 <= n → Z.testbit x n = false.
Proof. intros Hx Hn. apply (bits_high x 8); [exact Hx | lia]. Qed.

Lemma lxor_byte x y : is_byte x → is_byte y → is_byte (Z.lxor x y).
Proof. apply (lxor_bound x y 8). lia. Qed.

Lemma MULx_byte v c : is_byte c → is_byte (MULx v c).
Proof.
  intros Hc. unfold MULx. assert (is_byte (u8 (Z.shiftl v 1))).
  { unfold u8, is_byte. apply Z.mod_pos_bound. lia. }
  destruct (Z.testbit v 7); [by apply lxor_byte | done].
Qed.

(** Concatenating bytes is adding them bit by bit. *)
Lemma word_lxor a b c d :
  is_byte a → is_byte b → is_byte c → is_byte d →
  word a b c d = Z.lxor (Z.lxor (Z.lxor (Z.shiftl a 24) (Z.shiftl b 16)) (Z.shiftl c 8)) d.
Proof.
  intros Ha Hb Hc Hd. unfold word. apply Z.bits_inj'. intros n Hn.
  rewrite !Z.lor_spec, !Z.lxor_spec, !Z.shiftl_spec by done.
  destruct (Z.lt_ge_cases n 8); [| rewrite (is_byte_bits d n) by done;
  destruct (Z.lt_ge_cases n 16); [| rewrite (is_byte_bits c (n - 8)) by (done || lia);
  destruct (Z.lt_ge_cases n 24); [| rewrite (is_byte_bits b (n - 16)) by (done || lia)]]].
  all: rewrite ?(Z.testbit_neg_r _ (n - 24)) by lia;
       rewrite ?(Z.testbit_neg_r _ (n - 16)) by lia;
       rewrite ?(Z.testbit_neg_r _ (n - 8)) by lia; btauto.
Qed.

(** A fact of every byte, checked by computation. *)
Lemma forall_bytes (P : Z → bool) :
  forallb P (map Z.of_nat (seq 0 256)) = true → ∀ x, is_byte x → P x = true.
Proof.
  intros H x Hx. rewrite forallb_forall in H. apply H. apply in_map_iff.
  exists (Z.to_nat x). unfold is_byte in Hx. rewrite in_seq. split; lia.
Qed.

(** What the tables [t0], ..., [t3] of an S-box hold: the columns of its matrix. *)
Definition table_ok (f : Z → Z) (c : Z) (t0 t1 t2 t3 : list Z) (x : Z) : bool :=
  let y := f x in
  let y2 := MULx y c in
  let y3 := Z.lxor y2 y in
  (0 <=? y) && (y <? 256) &&
  (arr t3 x =? word y2 y3 y y) && (arr t2 x =? word y y2 y3 y) &&
  (arr t1 x =? word y y y2 y3) && (arr t0 x =? word y3 y y y2).

Lemma s1_tables x : is_byte x → table_ok SR 0x1b s1_t0 s1_t1 s1_t2 s1_t3 x = true.
Proof. revert x. apply forall_bytes. vm_compute. reflexivity. Qed.

Lemma s2_tables x : is_byte x → table_ok SQ 0x69 s2_t0 s2_t1 s2_t2 s2_t3 x = true.
Proof. revert x. apply forall_bytes. vm_compute. reflexivity. Qed.

Lemma MULa_spec x : is_byte x → MULa x = ref_MULalpha x.
Proof.
  intros Hx. apply Z.eqb_eq. revert x Hx. apply (forall_bytes (λ x, MULa x =? ref_MULalpha x)).
  vm_compute. reflexivity.
Qed.

Lemma DIVa_spec x : is_byte x → DIVa x = ref_DIValpha x.
Proof.
  intros Hx. apply Z.eqb_eq. revert x Hx. apply (forall_bytes (λ x, DIVa x =? ref_DIValpha x)).
  vm_compute. reflexivity.
Qed.

(** The four lookups of [s1] and [s2] add up to the product by the matrix. *)
Lemma table_lookup f c t0 t1 t2 t3 w :
  is_byte c → (∀ x, is_byte x → table_ok f c t0 t1 t2 t3 x = true) →
  Z.lxor (Z.lxor (Z.lxor (arr t0 (byte_at w 0)) (arr t1 (byte_at w 8))) (arr t2 (byte_at w 16)))
         (arr t3 (byte_at w 24)) = ref_S f c w.
Proof.
  intros Hc Ht.
  assert (H : ∀ n, let x := byte_at w n in let y := f x in let y2 := MULx y c in
    is_byte y ∧ is_byte y2 ∧ arr t3 x = word y2 (Z.lxor y2 y) y y ∧ arr t2 x = word y y2 (Z.lxor y2 y) y ∧
    arr t1 x = word y y y2 (Z.lxor y2 y) ∧ arr t0 x = word (Z.lxor y2 y) y y y2).
  { intros n x y y2. pose proof (Ht x (byte_at_byte w n)) as H. unfold table_ok in H.
    rewrite !andb_true_iff, !Z.eqb_eq, Z.leb_le, Z.ltb_lt in H.
    destruct H as (((((Ha & Hb) & H3) & H2) & H1) & H0).
    exact (conj (conj Ha Hb) (conj (MULx_byte _ _ Hc) (conj H3 (conj H2 (conj H1 H0))))). }
  destruct (H 0) as (B0 & D0 & _ & _ & _ & E0), (H 8) as (B1 & D1 & _ & _ & E1 & _),
    (H 16) as (B2 & D2 & _ & E2 & _), (H 24) as (B3 & D3 & E3 & _).
  rewrite E0, E1, E2, E3. unfold ref_S. clear H Ht E0 E1 E2 E3.
  generalize dependent (MULx (f (byte_at w 0)) c). generalize dependent (MULx (f (byte_at w 8)) c).
  generalize dependent (MULx (f (byte_at w 16)) c). generalize dependent (MULx (f (byte_at w 24)) c).
  generalize dependent (f (byte_at w 0)). generalize dependent (f (byte_at w 8)).
  generalize dependent (f (byte_at w 16)). generalize dependent (f (byte_at w 24)).
  intros. rewrite !word_lxor by (repeat apply lxor_byte; done). rewrite !Z.shiftl_lxor.
  apply Z.bits_inj. intros n. rewrite !Z.lxor_spec. btauto.
Qed.

Lemma s1_spec w : s1 w = ref_S1 w.
Proof. apply table_lookup; [unfold is_byte; lia | exact s1_tables]. Qed.
Lemma s2_spec w : s2 w = ref_S2 w.
Proof. apply table_lookup; [unfold is_byte; lia | exact s2_tables]. Qed.

(** ** The generator *)

(** The sixteen words of the register are at the pointer; the words before it are the ones
    sixteen places after, where the pointer goes back to the start. *)
Record represents (g : snow3g_t) (r : ref_t) : Prop := {
  rep_size : length (_s g) = 32%nat;
  rep_ptr : (s g < 16)%nat;
  rep_len : length (lfsr r) = 16%nat;
  rep_reg : ∀ i, (i < 16)%nat → reg g i = nth i (lfsr r) 0;
  rep_twin : ∀ j, (j < s g)%nat → nth j (_s g) 0 = nth (j + 16) (_s g) 0;
  rep_fsm : r1 g = f1 r ∧ r2 g = f2 r ∧ r3 g = f3 r
}.

Lemma nth_insert_ne (l : list Z) (i j : nat) v : i ≠ j → nth i (<[j := v]> l) 0 = nth i l 0.
Proof. intros. rewrite !nth_lookup. by rewrite list_lookup_insert_ne. Qed.
Lemma nth_insert_eq (l : list Z) (i : nat) v : (i < length l)%nat → nth i (<[i := v]> l) 0 = v.
Proof. intros. rewrite nth_lookup. by rewrite list_lookup_insert_eq. Qed.

(** Writing the new word twice and moving the pointer is shifting the register. *)
Lemma lfsr_push_rep v g r : represents g r → represents (lfsr_push v g) (ref_shift v r).
Proof.
  intros [Hs Hp Hl Hr Ht Hf]. unfold lfsr_push, set_reg, ref_shift. simpl.
  destruct g as [l p a b c]; simpl in *. unfold reg in Hr. simpl in Hr.
  set (l' := <[(p + 16)%nat := v]> (<[(p + 0)%nat := v]> l)).
  assert (Hl' : length l' = 32%nat) by (subst l'; by rewrite !length_insert).
  assert (Hnew : ∀ i, (i < 16)%nat → nth (S p + i) l' 0 = nth i (tail (lfsr r) ++ [v]) 0).
  { intros i Hi. destruct (lfsr r) as [| x t] eqn:E; [done |]. simpl in Hl |- *.
    destruct (decide (i = 15%nat)) as [-> |].
    - rewrite app_nth2 by lia. replace (15 - length t)%nat with 0%nat by lia. subst l'.
      replace (S (p + 15)) with (p + 16)%nat by lia. rewrite nth_insert_eq; [done |].
      rewrite length_insert. lia.
    - rewrite app_nth1 by lia. subst l'. rewrite !nth_insert_ne by lia.
      replace (S (p + i)) with (p + S i)%nat by lia. by rewrite (Hr (S i)) by lia. }
  assert (Htwin : ∀ j, (j < S p)%nat → nth j l' 0 = nth (j + 16) l' 0).
  { intros j Hj. subst l'. destruct (decide (j = p)) as [-> |].
    - rewrite nth_insert_ne by lia. rewrite Nat.add_0_r, nth_insert_eq by lia.
      rewrite nth_insert_eq; [done |]. rewrite length_insert. lia.
    - rewrite !nth_insert_ne by lia. apply Ht. lia. }
  assert (Hlen : length (tail (lfsr r) ++ [v]) = 16%nat).
  { rewrite length_app. destruct (lfsr r); simpl in *; lia. }
  destruct (Nat.eqb_spec p 15) as [E | E]; constructor;
    try first [exact Hl' | exact Hlen | exact Hf | exact Hnew | exact Htwin | simpl; lia].
  intros i Hi. unfold reg. simpl. rewrite <- Hnew, Htwin by lia. f_equal. lia.
Qed.

Lemma clock_fsm_rep g r :
  represents g r → fst (clock_fsm g) = fst (ref_clock r) ∧ represents (snd (clock_fsm g)) (snd (ref_clock r)).
Proof.
  intros [Hs Hp Hl Hr Ht (H1 & H2 & H3)]. unfold clock_fsm, ref_clock.
  rewrite (Hr 15%nat), (Hr 5%nat), H1, H2, H3, s1_spec, s2_spec by lia. cbn [fst snd].
  split; [reflexivity |]. constructor; cbn; [exact Hs | exact Hp | exact Hl | exact Hr | exact Ht |].
  split_and!; reflexivity.
Qed.

Lemma feedback_rep g r :
  represents g r → lfsr_feedback (reg g 0) (reg g 2) (reg g 11) = ref_feedback (lfsr r).
Proof.
  intros Hrep. unfold lfsr_feedback, ref_feedback, word. rewrite !(rep_reg _ _ Hrep) by lia.
  rewrite MULa_spec, DIVa_spec by apply byte_at_byte.
  by rewrite Z.lor_0_r, (Z.shiftl_0_l 24), Z.lor_0_l.
Qed.

Lemma init_clock_rep g r : represents g r → represents (init_clock g) (ref_init_clock r).
Proof.
  intros H. unfold init_clock, ref_init_clock. destruct (clock_fsm_rep g r H) as [Hf Hc].
  destruct (clock_fsm g) as [f g'], (ref_clock r) as [f' r']. simpl in *. subst f'.
  unfold lfsr_init. rewrite (feedback_rep _ _ Hc). by apply lfsr_push_rep.
Qed.

Lemma keystream_shift_rep g r :
  represents g r → represents (lfsr_keystream g) (ref_shift (ref_feedback (lfsr r)) r).
Proof. intros H. unfold lfsr_keystream. rewrite (feedback_rep _ _ H). by apply lfsr_push_rep. Qed.

Lemma load_rep k iv : represents (load k iv) (ref_load k iv).
Proof.
  constructor; try done; [simpl; lia | | simpl; lia]. unfold reg, load, ref_load. simpl (s _). simpl (_s _).
  intros i Hi. do 16 (destruct i as [| i]; [done |]). lia.
Qed.

Lemma iter_rep n g r :
  represents g r → represents (Nat.iter n init_clock g) (Nat.iter n ref_init_clock r).
Proof. intros H. induction n; [done |]. simpl. by apply init_clock_rep. Qed.

Lemma generate_rep n g r : represents g r → generate_keystream n g = ref_keystream n r.
Proof.
  revert g r. induction n as [| n IH]; intros g r H; [done |].
  cbn [generate_keystream ref_keystream]. unfold generate_keystream_step, ref_step. destruct (clock_fsm_rep g r H) as [Hf Hc].
  destruct (clock_fsm g) as [f g'], (ref_clock r) as [f' r']. simpl in *. subst f'.
  rewrite (rep_reg _ _ Hc) by lia. f_equal. apply IH. by apply keystream_shift_rep.
Qed.

Lemma snow3g_init_rep k iv :
  represents (snow3g_init k iv) (ref_start (map (λ i, GET32 k (i * 4)) [0; 1; 2; 3])
                                           (map (λ i, GET32 iv (i * 4)) [0; 1; 2; 3])).
Proof.
  unfold snow3g_init, ref_start. set (kw := map _ _). set (vw := map _ _).
  destruct (clock_fsm_rep _ _ (iter_rep 32 _ _ (load_rep kw vw))) as [_ Hc].
  destruct (clock_fsm _) as [f g'], (ref_clock _) as [f' r']. simpl in Hc. by apply keystream_shift_rep.
Qed.

(** C33: (equivalence) the generator of the code, with its tables of 32-bit words and its register
    in a double buffer that is never moved, produces the keystream of the specification, with
    its S-boxes and multiplications over GF(2^8) and its shifted register of sixteen words, for
    every key, initialisation vector and length. *)
Theorem snow3g_keystream_spec (k iv : bytes) (n : nat) :
  generate_keystream n (snow3g_init k iv) =
  ref_keystream n (ref_start (map (λ i, GET32 k (i * 4)) [0; 1; 2; 3])
                             (map (λ i, GET32 iv (i * 4)) [0; 1; 2; 3])).
Proof. apply generate_rep, snow3g_init_rep. Qed.

(** ** Ciphering *)

Lemma length_htonl l : length (concat (map htonl_bytes l)) = (4 * length l)%nat.
Proof. induction l; simpl; lia. Qed.

Lemma length_generate n g : length (generate_keystream n g) = n.
Proof.
  revert g. induction n as [| n IH]; intros g; [done |].
  cbn [generate_keystream]. destruct (generate_keystream_step g) as [z g']. cbn [length]. by rewrite IH.
Qed.

(** The bytes of keystream that cover a message of [length] bytes. *)
Definition keystream_bytes (count bearer direction : Z) (key : bytes) (length : Z) : bytes :=
  concat (map htonl_bytes (generate_keystream (Z.to_nat ((length + 3) / 4))
    (snow3g_init (key_words key) (cipher_iv count bearer direction)))).

Lemma ciphering_eq count bearer direction key msg :
  snow3g_ciphering count bearer direction key (zlen msg) msg =
  Ok (zip_with Z.lxor msg (keystream_bytes count bearer direction key (zlen msg))).
Proof.
  unfold snow3g_ciphering. pose proof (zlen_nonneg msg). rewrite slice_Some by lia.
  cbn [deref mbind res_bind]. by rewrite drop_0, take_zlen.
Qed.

Lemma keystream_covers count bearer direction key (msg : bytes) :
  (length msg <= length (keystream_bytes count bearer direction key (zlen msg)))%nat.
Proof.
  unfold keystream_bytes. rewrite length_htonl, length_generate. unfold zlen. zdiv_lia.
Qed.

Lemma zip_lxor_twice (a b : bytes) : (length a <= length b)%nat → zip_with Z.lxor (zip_with Z.lxor a b) b = a.
Proof.
  revert b. induction a as [| x a IH]; intros [| y b] H; simpl in *; [done.. | lia |].
  f_equal; [| apply IH; lia]. by rewrite Z.lxor_assoc, Z.lxor_nilpotent, Z.lxor_0_r.
Qed.

(** Ciphering is defined on every message, preserves its length, and ciphering
    the result again with the same key, COUNT, bearer and direction gives the message back: the
    same function is used to cipher and to decipher. *)
Theorem snow3g_ciphering_involutive (count bearer direction : Z) (key msg : bytes) :
  ∃ out, snow3g_ciphering count bearer direction key (zlen msg) msg = Ok out ∧ zlen out = zlen msg ∧
    snow3g_ciphering count bearer direction key (zlen out) out = Ok msg.
Proof.
  pose proof (keystream_covers count bearer direction key msg) as Hc.
  rewrite ciphering_eq. eexists. split; [done |].
  assert (Hl : zlen (zip_with Z.lxor msg (keystream_bytes count bearer direction key (zlen msg))) = zlen msg).
  { unfold zlen. rewrite length_zip_with_l; [done | exact Hc]. }
  split; [done |]. rewrite ciphering_eq, Hl. by rewrite zip_lxor_twice.
Qed.

(** ** Bounds: every word of the reference generator has 32 bits *)

Definition is_word (x : Z) : Prop := 0 <= x < 2 ^ 32.

Lemma word_word a b c d : is_byte a → is_byte b → is_byte c → is_byte d → is_word (word a b c d).
Proof.
  intros Ha Hb Hc Hd. unfold is_word, word, is_byte in *.
  repeat apply lor_bound; try lia; rewrite Z.shiftl_mul_pow2 by lia; lia.
Qed.

Lemma lxor_word x y : is_word x → is_word y → is_word (Z.lxor x y).
Proof. apply (lxor_bound x y 32). lia. Qed.

Lemma u32_word x : is_word (u32 x).
Proof. apply Z.mod_pos_bound. lia. Qed.

(** Bounds of the terms built by exclusive or. *)
Ltac lxor_bounds :=
  repeat match goal with
  | |- is_byte (Z.lxor _ _) => apply lxor_byte
  | |- is_byte (MULx _ _) => apply MULx_byte
  | |- is_byte (byte_at _ _) => apply byte_at_byte
  | |- is_byte 0 => unfold is_byte; lia
  | |- is_word (Z.lxor _ _) => apply lxor_word
  | |- is_word (u32 _) => apply u32_word
  | |- is_word (word _ _ _ _) => apply word_word
  end.

Lemma ref_S_word f c w : is_byte c → (∀ x, is_byte x → is_byte (f x)) → is_word (ref_S f c w).
Proof.
  intros Hc Hf. unfold ref_S. lxor_bounds; first [exact Hc | apply Hf, byte_at_byte].
Qed.

Lemma table_byte f c t0 t1 t2 t3 x : table_ok f c t0 t1 t2 t3 x = true → is_byte (f x).
Proof.
  unfold table_ok. rewrite !andb_true_iff, Z.leb_le, Z.ltb_lt. intros (((((H1 & H2) & _) & _) & _) & _).
  exact (conj H1 H2).
Qed.

Lemma SR_byte x : is_byte x → is_byte (SR x).
Proof. intros Hx. eapply table_byte, s1_tables, Hx. Qed.
Lemma SQ_byte x : is_byte x → is_byte (SQ x).
Proof. intros Hx. eapply table_byte, s2_tables, Hx. Qed.

Lemma MULxPOW_byte x i : is_byte x → is_byte (MULxPOW x i 0xa9).
Proof. intros Hx. unfold MULxPOW. induction i; simpl; [done |]. apply MULx_byte. unfold is_byte. lia. Qed.

Lemma alpha_word x : is_byte x → is_word (ref_MULalpha x) ∧ is_word (ref_DIValpha x).
Proof. intros Hx. split; unfold ref_MULalpha, ref_DIValpha; lxor_bounds; exact (MULxPOW_byte x _ Hx). Qed.

Record ref_ok (r : ref_t) : Prop := {
  ro_lfsr : ∀ i, is_word (nth i (lfsr r) 0);
  ro_fsm : is_word (f1 r) ∧ is_word (f2 r) ∧ is_word (f3 r)
}.

Lemma feedback_word l : (∀ i, is_word (nth i l 0)) → is_word (ref_feedback l).
Proof.
  intros Hl. unfold ref_feedback.
  lxor_bounds; first [apply Hl | apply alpha_word, byte_at_byte].
Qed.

Lemma ref_shift_ok v r : is_word v → ref_ok r → ref_ok (ref_shift v r).
Proof.
  intros Hv [Hl Hf]. constructor; [| exact Hf]. simpl. intros i.
  destruct (decide (i < length (tail (lfsr r)))%nat).
  - rewrite app_nth1 by done. specialize (Hl (S i)). by destruct (lfsr r), i.
  - rewrite app_nth2 by lia. destruct (i - _)%nat as [| [|]]; [done | unfold is_word; simpl; lia..].
Qed.

Lemma ref_clock_ok r : ref_ok r → is_word (fst (ref_clock r)) ∧ ref_ok (snd (ref_clock r)).
Proof.
  intros [Hl (H1 & H2 & H3)]. unfold ref_clock. cbn [fst snd].
  split; [lxor_bounds; exact H2 |].
  constructor; [exact Hl |]. cbn.
  split_and!; [lxor_bounds | apply ref_S_word | apply ref_S_word].
  all: first [exact SR_byte | exact SQ_byte | unfold is_byte; lia].
Qed.

Lemma ref_init_clock_ok r : ref_ok r → ref_ok (ref_init_clock r).
Proof.
  intros H. unfold ref_init_clock. destruct (ref_clock_ok r H) as [Hf Hc]. destruct (ref_clock r) as [f r'].
  apply ref_shift_ok; [| done]. apply lxor_word; [| done]. apply feedback_word, Hc.
Qed.

Lemma ref_step_ok r : ref_ok r → is_word (fst (ref_step r)) ∧ ref_ok (snd (ref_step r)).
Proof.
  intros H. unfold ref_step. destruct (ref_clock_ok r H) as [Hf Hc]. destruct (ref_clock r) as [f r'].
  split; [apply lxor_word; [done | apply Hc] |]. apply ref_shift_ok; [apply feedback_word, Hc | done].
Qed.

Lemma ref_load_ok k iv : (∀ i, is_word (arr k i)) → (∀ i, is_word (arr iv i)) → ref_ok (ref_load k iv).
Proof.
  intros Hk Hi. assert (Hn : is_word 0xffffffff) by (unfold is_word; lia).
  assert (H0 : is_word 0) by (unfold is_word; lia). constructor; [| by split_and!].
  intros i. do 16 (destruct i as [| i]; [simpl; lxor_bounds; solve [apply Hk | apply Hi | exact Hn] |]).
  by destruct i.
Qed.

Lemma init_ok n r : ref_ok r → ref_ok (Nat.iter n ref_init_clock r).
Proof. intros H. induction n as [| n IH]; [done |]. by apply ref_init_clock_ok. Qed.

Lemma ref_start_ok k iv : (∀ i, is_word (arr k i)) → (∀ i, is_word (arr iv i)) → ref_ok (ref_start k iv).
Proof.
  intros Hk Hi. pose proof (init_ok 32 _ (ref_load_ok k iv Hk Hi)) as H.
  unfold ref_start. destruct (ref_clock_ok _ H) as [_ Hc]. destruct (ref_clock _) as [f r'].
  apply ref_shift_ok; [apply feedback_word, Hc | done].
Qed.

Lemma ref_keystream_word n r i : ref_ok r → is_word (nth i (ref_keystream n r) 0).
Proof.
  revert r i. induction n as [| n IH]; intros r i H; [destruct i; unfold is_word; simpl; lia |].
  cbn [ref_keystream]. destruct (ref_step_ok r H) as [Hz Hs]. destruct (ref_step r) as [z r'].
  destruct i as [| i]; [done | by apply IH].
Qed.

Lemma arr_byte b i : Forall is_byte b → is_byte (arr b i).
Proof.
  intros Hb. unfold arr. rewrite nth_lookup. destruct (b !! Z.to_nat i) as [x |] eqn:E.
  - exact (proj1 (Forall_lookup _ _) Hb _ _ E).
  - unfold is_byte. simpl. lia.
Qed.

Lemma GET32_word b off : Forall is_byte b → is_word (GET32 b off).
Proof. intros Hb. unfold GET32. fold (word (arr b off) (arr b (off + 1)) (arr b (off + 2)) (arr b (off + 3))). lxor_bounds; by apply arr_byte. Qed.

Lemma map_GET32_word b i : Forall is_byte b → is_word (arr (map (λ i, GET32 b (i * 4)) [0; 1; 2; 3]) i).
Proof.
  intros Hb. unfold arr. destruct (Z.to_nat i) as [| [| [| [| [|]]]]]; simpl; try by apply GET32_word.
  all: unfold is_word; lia.
Qed.
