(* ===== verification/Snow3gMac.v ===== *)
(** * The multiplication of the SNOW 3G integrity function

    [mul_p] multiplies by a fixed 64-bit polynomial with eight tables of 256 entries that
    [precompute] builds; the specification multiplies in GF(2^64) bit by bit ([MUL64]).  This
    file proves that they are the same function, and that [MUL64] is commutative. *)

From Stdlib Require Import Btauto.
From S2P Require Import Prelude Snow3g Snow3gRef.

(** The exclusive or of [f i] for [i < n]. *)
Fixpoint xsum (f : nat → Z) (n : nat) : Z :=
  match n with
  | O => 0
  | S n => Z.lxor (xsum f n) (f n)
  end.

(** [x] if the bit [i] of [b] is set. *)
Definition when_bit (b : Z) (i : nat) (x : Z) : Z := if Z.testbit b (Z.of_nat i) then x else 0.

(** Entry [b] of row [i]: the sum of the multiples of [p] selected by the bits of [b]. *)
Definition entry (p : Z) (i : nat) (b : Z) (n : nat) : Z :=
  xsum (λ j, when_bit b j (MULxPOW64 p (8 * i + j) 0x1b)) n.

(** The message authentication polynomial of the specification, one block at a time. *)
Definition ref_eval (p : Z) (blocks : list Z) : Z :=
  foldl (λ eval m, MUL64 (Z.lxor eval m) p 0x1b) 0 blocks.

(** The 64-bit blocks of a message, the last one completed with zeros. *)
Definition blocks (msg : bytes) (length : Z) : list Z :=
  map (λ i, GET64 msg (Z.of_nat i * 8) (Z.min 8 (length - Z.of_nat i * 8)))
    (seq 0 (Z.to_nat ((length * 8 + 63) / 64))).

(** ** Exclusive or of finite families *)

Lemma xsum_ext f g n : (∀ i, (i < n)%nat → f i = g i) → xsum f n = xsum g n.
Proof. induction n as [| n IH]; intros H; simpl; [done |]. rewrite IH, H by (intros; auto; lia). done. Qed.

Lemma xsum_lxor f g n : xsum (λ i, Z.lxor (f i) (g i)) n = Z.lxor (xsum f n) (xsum g n).
Proof.
  induction n as [| n IH]; simpl; [done |]. rewrite IH. apply Z.bits_inj. intros k.
  rewrite !Z.lxor_spec. btauto.
Qed.

Lemma xsum_zero n : xsum (λ _, 0) n = 0.
Proof. induction n as [| n IH]; simpl; [done |]. by rewrite IH. Qed.

Lemma xsum_app f n m : xsum f (n + m) = Z.lxor (xsum f n) (xsum (λ i, f (n + i)%nat) m).
Proof.
  induction m as [| m IH]; simpl; [by rewrite Nat.add_0_r, Z.lxor_0_r |].
  rewrite Nat.add_succ_r. simpl. by rewrite IH, Z.lxor_assoc.
Qed.

Lemma xsum_swap (f : nat → nat → Z) n m :
  xsum (λ i, xsum (f i) m) n = xsum (λ j, xsum (λ i, f i j) n) m.
Proof.
  induction n as [| n IH]; simpl; [by rewrite xsum_zero |]. by rewrite IH, <- xsum_lxor.
Qed.

(** ** Multiplication in GF(2^64) *)

Lemma u64_bits x i : 0 <= i → Z.testbit (u64 x) i = (i <? 64) && Z.testbit x i.
Proof.
  intros Hi. unfold u64. change 18446744073709551616 with (2 ^ 64).
  destruct (Z.ltb_spec i 64); [by rewrite Z.mod_pow2_bits_low by lia | by rewrite Z.mod_pow2_bits_high by lia].
Qed.

Lemma u64_lxor x y : u64 (Z.lxor x y) = Z.lxor (u64 x) (u64 y).
Proof.
  apply Z.bits_inj'. intros n Hn. rewrite Z.lxor_spec, !u64_bits, Z.lxor_spec by done. btauto.
Qed.

Lemma MULx64_lxor x y c : MULx64 (Z.lxor x y) c = Z.lxor (MULx64 x c) (MULx64 y c).
Proof.
  unfold MULx64. rewrite Z.lxor_spec, Z.shiftl_lxor, u64_lxor.
  destruct (Z.testbit x 63), (Z.testbit y 63); simpl; apply Z.bits_inj; intros n;
    rewrite !Z.lxor_spec; btauto.
Qed.

Lemma MULxPOW64_lxor x y i c : MULxPOW64 (Z.lxor x y) i c = Z.lxor (MULxPOW64 x i c) (MULxPOW64 y i c).
Proof. induction i as [| i IH]; simpl; [done |]. by rewrite IH, MULx64_lxor. Qed.

Lemma MULxPOW64_0 i c : MULxPOW64 0 i c = 0.
Proof. induction i as [| i IH]; simpl; [done |]. by rewrite IH. Qed.

Lemma MULxPOW64_add x i j c : MULxPOW64 x (i + j) c = MULxPOW64 (MULxPOW64 x j c) i c.
Proof. induction i as [| i IH]; simpl; [done |]. by rewrite IH. Qed.

Lemma MULxPOW64_xsum f n i c : MULxPOW64 (xsum f n) i c = xsum (λ j, MULxPOW64 (f j) i c) n.
Proof. induction n as [| n IH]; simpl; [apply MULxPOW64_0 |]. by rewrite MULxPOW64_lxor, IH. Qed.

(** [1 << i] is the [i]-th power of x while it fits in 64 bits. *)
Lemma MULxPOW64_one i c : (i < 64)%nat → MULxPOW64 1 i c = 2 ^ Z.of_nat i.
Proof.
  induction i as [| i IH]; intros Hi; [done |]. simpl. rewrite IH by lia. unfold MULx64.
  rewrite Z.pow2_bits_false by lia. rewrite Z.shiftl_mul_pow2 by lia.
  unfold u64. rewrite Z.mod_small; [rewrite Nat2Z.inj_succ, Z.pow_succ_r by lia; lia |].
  pose proof (Z.pow_lt_mono_r 2 (Z.of_nat i) 63 ltac:(lia) ltac:(lia) ltac:(lia)). lia.
Qed.

(** A 64-bit word is the sum of its bits. *)
Lemma bits_sum v n : 0 <= v → xsum (λ i, when_bit v i (2 ^ Z.of_nat i)) n = v mod 2 ^ Z.of_nat n.
Proof.
  intros Hv. apply Z.bits_inj'. intros k Hk. induction n as [| n IH]; simpl xsum.
  - by rewrite Z.bits_0, Z.mod_1_r, Z.bits_0.
  - rewrite Z.lxor_spec, IH. unfold when_bit. destruct (Z.lt_trichotomy k (Z.of_nat n)) as [H | [-> | H]].
    + rewrite !Z.mod_pow2_bits_low by lia.
      destruct (Z.testbit v (Z.of_nat n)); [rewrite Z.pow2_bits_false by lia | rewrite Z.bits_0]; btauto.
    + rewrite Z.mod_pow2_bits_high, Z.mod_pow2_bits_low by lia.
      destruct (Z.testbit v (Z.of_nat n)) eqn:E; [by rewrite Z.pow2_bits_true by lia | by rewrite Z.bits_0].
    + rewrite !Z.mod_pow2_bits_high by lia.
      destruct (Z.testbit v (Z.of_nat n)); [by rewrite Z.pow2_bits_false by lia | by rewrite Z.bits_0].
Qed.

Lemma foldl_xsum g n acc p :
  foldl (λ r i, if Z.testbit p (Z.of_nat i) then Z.lxor r (g i) else r) acc (seq 0 n) =
  Z.lxor acc (xsum (λ i, when_bit p i (g i)) n).
Proof.
  induction n as [| n IH]; simpl xsum; [by rewrite Z.lxor_0_r |].
  rewrite seq_S, foldl_snoc, IH. cbn [Nat.add]. rewrite <- Z.lxor_assoc.
  set (x := Z.lxor acc _). unfold when_bit.
  destruct (Z.testbit p (Z.of_nat n)); [done | by rewrite Z.lxor_0_r].
Qed.

Lemma MUL64_xsum v p c : MUL64 v p c = xsum (λ i, when_bit p i (MULxPOW64 v i c)) 64.
Proof. unfold MUL64. by rewrite foldl_xsum, Z.lxor_0_l. Qed.

(** The sum over the pairs of bits. *)
Lemma MUL64_bits v p c :
  0 <= v < 2 ^ 64 →
  MUL64 v p c = xsum (λ i, xsum (λ j, when_bit p i (when_bit v j (MULxPOW64 1 (i + j) c))) 64) 64.
Proof.
  intros Hv. rewrite MUL64_xsum. apply xsum_ext. intros i _.
  rewrite <- (Z.mod_small v (2 ^ 64)) at 1 by done.
  change 64 with (Z.of_nat 64) at 1. rewrite <- bits_sum by lia. rewrite MULxPOW64_xsum.
  unfold when_bit. destruct (Z.testbit p (Z.of_nat i)); [| by rewrite xsum_zero].
  apply xsum_ext. intros j Hj. destruct (Z.testbit v (Z.of_nat j)); [| apply MULxPOW64_0].
  by rewrite MULxPOW64_add, (MULxPOW64_one j).
Qed.

Lemma MUL64_comm v p c : 0 <= v < 2 ^ 64 → 0 <= p < 2 ^ 64 → MUL64 v p c = MUL64 p v c.
Proof.
  intros Hv Hp. rewrite !MUL64_bits by done. rewrite xsum_swap. apply xsum_ext. intros j _.
  apply xsum_ext. intros i _. rewrite (Nat.add_comm i j). unfold when_bit.
  by destruct (Z.testbit p _), (Z.testbit v _).
Qed.

(** ** The precomputed tables *)

Section table.
Context (p : Z).

Abbreviation g i := (MULxPOW64 p i 0x1b).

Lemma xsum_single f n j : (j < n)%nat → (∀ i, (i < n)%nat → i ≠ j → f i = 0) → xsum f n = f j.
Proof.
  induction n as [| n IH]; intros Hj H; [lia |]. simpl. destruct (decide (j = n)) as [-> |].
  - rewrite (xsum_ext _ (λ _, 0)), xsum_zero by (intros; apply H; lia). done.
  - rewrite (H n), IH, Z.lxor_0_r by (intros; try apply H; lia). done.
Qed.

Lemma entry_0 i : entry p i 0 8 = 0.
Proof. unfold entry. rewrite (xsum_ext _ (λ _, 0)); [apply xsum_zero |]. intros j _. unfold when_bit. by rewrite Z.bits_0. Qed.

Lemma entry_pow i j : (j < 8)%nat → entry p i (Z.of_nat (2 ^ j)) 8 = g (8 * i + j)%nat.
Proof.
  intros Hj. unfold entry. rewrite (xsum_single _ 8 j Hj).
  - unfold when_bit. rewrite Nat2Z.inj_pow. by rewrite Z.pow2_bits_true by lia.
  - intros t _ Ht. unfold when_bit. rewrite Nat2Z.inj_pow. by rewrite Z.pow2_bits_false by lia.
Qed.

Lemma entry_add i j k : (k < 2 ^ j)%nat →
  entry p i (Z.of_nat (2 ^ j + k)) 8 = Z.lxor (entry p i (Z.of_nat (2 ^ j)) 8) (entry p i (Z.of_nat k) 8).
Proof.
  intros Hk. unfold entry. rewrite <- xsum_lxor. apply xsum_ext. intros t _. unfold when_bit.
  rewrite Nat2Z.inj_add, Nat2Z.inj_pow. change (Z.of_nat 2) with 2.
  assert (Hk' : ∀ n, Z.of_nat j <= n → Z.testbit (Z.of_nat k) n = false).
  { intros n Hn. rewrite <- (Z.mod_small (Z.of_nat k) (2 ^ Z.of_nat j)).
    - apply Z.mod_pow2_bits_high. lia.
    - apply inj_lt in Hk. rewrite Nat2Z.inj_pow in Hk. lia. }
  rewrite Z.add_nocarry_lxor.
  - rewrite Z.lxor_spec. destruct (decide (t = j)) as [-> |].
    + rewrite Z.pow2_bits_true, Hk' by lia. simpl. by rewrite Z.lxor_0_r.
    + rewrite Z.pow2_bits_false by lia. by destruct (Z.testbit (Z.of_nat k) _).
  - apply Z.bits_inj'. intros n Hn. rewrite Z.land_spec, Z.bits_0.
    destruct (Z.eq_dec n (Z.of_nat j)) as [-> |]; [by rewrite Hk', andb_false_r by lia |].
    by rewrite Z.pow2_bits_false by lia.
Qed.

Lemma pm_insert_eq pm i j v : pm_get (<[(i, j) := v]> pm) i j = v.
Proof. unfold pm_get, pm_t. by rewrite lookup_total_insert_eq. Qed.
Lemma pm_insert_ne pm i j i' j' v : (i, j) ≠ (i', j') → pm_get (<[(i, j) := v]> pm) i' j' = pm_get pm i' j'.
Proof. intros. unfold pm_get, pm_t. by rewrite lookup_total_insert_ne. Qed.

(** After the loop over the powers of x. *)
Definition powers_ok (n : nat) (pm : pm_t) : Prop :=
  (∀ i, (i <= n)%nat → pm_get pm (i / 8) (2 ^ (i mod 8)) = g i) ∧ (∀ r, (r < 8)%nat → pm_get pm r 0 = 0).

Lemma power_key_inj i j : (i / 8, 2 ^ (i mod 8))%nat = (j / 8, 2 ^ (j mod 8))%nat → i = j.
Proof.
  intros [H1 H2]%pair_equal_spec. apply Nat.pow_inj_r in H2; [| lia].
  rewrite (Nat.div_mod_eq i 8), (Nat.div_mod_eq j 8). congruence.
Qed.

Lemma pm_power_step_ok n pm : powers_ok n pm → powers_ok (S n) (pm_power_step pm (S n)).
Proof.
  intros [Hp Hz]. unfold pm_power_step. rewrite Nat.sub_succ, Nat.sub_0_r, Hp by done.
  set (v := u64 _). rewrite pm_insert_eq.
  assert (Hins : ∀ v', v' = g (S n) → powers_ok (S n) (<[(S n / 8, 2 ^ (S n mod 8))%nat := v']> pm)).
  { intros v' ->. split.
    - intros i Hi. destruct (decide (i = S n)) as [-> | Hne]; [apply pm_insert_eq |].
      rewrite pm_insert_ne; [apply Hp; lia |]. intros E%power_key_inj. done.
    - intros r Hr. rewrite pm_insert_ne; [by apply Hz |]. intros [_ E]%pair_equal_spec.
      by apply (Nat.pow_nonzero 2 (S n mod 8)). }
  cbn [MULxPOW64] in Hins. unfold MULx64 in Hins. fold v in Hins.
  destruct (Z.testbit (g n) 63); [unfold pm_t in *; rewrite insert_insert_eq |]; by apply Hins.
Qed.

Lemma powers_loop n pm : powers_ok 0 pm → powers_ok n (foldl pm_power_step pm (seq 1 n)).
Proof.
  intros H. induction n as [| n IH]; [done |]. rewrite seq_S, foldl_snoc. by apply pm_power_step_ok.
Qed.

(** The entries of row [i] below [n] are the sums of multiples they stand for. *)
Definition row_ok (i n : nat) (pm : pm_t) : Prop :=
  ∀ b, (b < n)%nat → pm_get pm i b = entry p i (Z.of_nat b) 8.

Lemma fill_block_loop i j m pm :
  (m < 2 ^ j)%nat →
  let pm' := foldl (pm_fill_step i j) pm (seq 1 m) in
  (∀ k, (1 <= k <= m)%nat → pm_get pm' i (2 ^ j + k) = Z.lxor (pm_get pm i (2 ^ j)) (pm_get pm i k)) ∧
  (∀ i' b, i' ≠ i ∨ (b <= 2 ^ j)%nat ∨ (2 ^ j + m < b)%nat → pm_get pm' i' b = pm_get pm i' b).
Proof.
  induction m as [| m IH]; intros Hm; [split; [intros; lia | done] |].
  destruct IH as [H1 H2]; [lia |]. cbv zeta. rewrite seq_S, foldl_snoc. cbn [Nat.add].
  set (pm' := foldl _ _ _) in *. unfold pm_fill_step. split.
  - intros k Hk. destruct (decide (k = S m)) as [-> | Hne].
    + rewrite pm_insert_eq, !H2; [done | lia..].
    + rewrite pm_insert_ne; [apply H1; lia |]. intros [? ?]%pair_equal_spec. lia.
  - intros i' b Hb. rewrite pm_insert_ne; [apply H2; lia |]. intros [? ?]%pair_equal_spec. lia.
Qed.

Lemma fill_block_ok i j pm :
  (j < 8)%nat → row_ok i (2 ^ j) pm → pm_get pm i (2 ^ j) = g (8 * i + j)%nat →
  row_ok i (2 ^ S j) (pm_fill_block i pm j) ∧
  (∀ i' b, i' ≠ i ∨ (2 ^ S j <= b)%nat → pm_get (pm_fill_block i pm j) i' b = pm_get pm i' b).
Proof.
  intros Hj Hrow Hpow. unfold pm_fill_block. pose proof (Nat.pow_nonzero 2 j ltac:(lia)).
  destruct (fill_block_loop i j (2 ^ j - 1) pm) as [H1 H2]; [lia |]. simpl Nat.pow. split.
  - intros b Hb. destruct (decide (b <= 2 ^ j)%nat) as [Hle | Hgt].
    + rewrite H2 by lia. destruct (decide (b = 2 ^ j)%nat) as [-> |]; [| apply Hrow; lia].
      by rewrite Hpow, entry_pow.
    + replace b with (2 ^ j + (b - 2 ^ j))%nat by lia. rewrite H1, entry_add by lia.
      by rewrite Hpow, entry_pow, Hrow by lia.
  - intros i' b Hb. apply H2. lia.
Qed.

Lemma fill_row_loop i m pm :
  (m < 8)%nat → (∀ j, (j < 8)%nat → pm_get pm i (2 ^ j) = g (8 * i + j)%nat) → pm_get pm i 0 = 0 →
  let pm' := foldl (pm_fill_block i) pm (seq 1 m) in
  row_ok i (2 ^ S m) pm' ∧ (∀ i' b, i' ≠ i ∨ (2 ^ S m <= b)%nat → pm_get pm' i' b = pm_get pm i' b).
Proof.
  intros Hm Hpow H0. induction m as [| m IH]; cbv zeta.
  - split; [| done]. intros b Hb. simpl in Hb. destruct b as [| [| b]]; [by rewrite entry_0 | | lia].
    cbn [foldl seq].
    rewrite (entry_pow i 0 ltac:(lia) : entry p i (Z.of_nat 1) 8 = _). apply (Hpow 0%nat). lia.
  - destruct IH as [H1 H2]; [lia |]. rewrite seq_S, foldl_snoc. cbn [Nat.add].
    destruct (fill_block_ok i (S m) (foldl (pm_fill_block i) pm (seq 1 m))) as [H3 H4];
      [lia | done | rewrite H2 by lia; apply Hpow; lia |].
    split; [exact H3 |]. intros i' b Hb. rewrite H4 by done. apply H2.
    pose proof (Nat.pow_lt_mono_r 2 (S m) (S (S m))). lia.
Qed.

Lemma fill_rows_loop n pm :
  (n <= 8)%nat → powers_ok 63 pm →
  let pm' := foldl pm_fill_row pm (seq 0 n) in
  (∀ i, (i < n)%nat → row_ok i 256 pm') ∧ (∀ i' b, (n <= i')%nat → pm_get pm' i' b = pm_get pm i' b).
Proof.
  intros Hn [Hp Hz]. induction n as [| n IH]; cbv zeta; [split; [intros; lia | done] |].
  destruct IH as [H1 H2]; [lia |]. rewrite seq_S, foldl_snoc. cbn [Nat.add].
  unfold pm_fill_row at 1 3. destruct (fill_row_loop n 7 (foldl pm_fill_row pm (seq 0 n))) as [H3 H4]; [lia | | |].
  - intros j Hj. rewrite H2 by lia. rewrite <- (Hp (8 * n + j)%nat) by lia. f_equal.
    + apply Nat.div_unique with j; lia.
    + f_equal. apply Nat.mod_unique with n; lia.
  - rewrite H2 by lia. apply Hz. lia.
  - split; [| intros i' b Hb; rewrite H4, H2 by lia; done].
    intros i Hi. destruct (decide (i = n)) as [-> | Hne]; [exact H3 |].
    intros b Hb. rewrite H4 by lia. apply H1; [lia | done].
Qed.

Lemma precompute_ok i b : (i < 8)%nat → (b < 256)%nat →
  pm_get (precompute p) i b = entry p i (Z.of_nat b) 8.
Proof.
  intros Hi Hb. unfold precompute. apply fill_rows_loop; [lia | | done | done].
  apply powers_loop. split.
  - intros [| j] Hj; [| lia]. by apply pm_insert_eq.
  - intros r Hr. rewrite pm_insert_ne by done.
    do 8 (destruct r as [| r]; [reflexivity |]). lia.
Qed.

Lemma mul_p_entries x i n : (i < 8)%nat → n = 8 * Z.of_nat i →
  pm_get (precompute p) i (Z.to_nat (byte_at x n)) =
  xsum (λ j, when_bit x (8 * i + j) (g (8 * i + j)%nat)) 8.
Proof.
  intros Hi ->. unfold byte_at. change 0xff with (Z.ones 8). rewrite Z.land_ones by lia.
  pose proof (Z.mod_pos_bound (x ≫ (8 * Z.of_nat i)) (2 ^ 8) ltac:(lia)).
  rewrite precompute_ok by lia. rewrite Z2Nat.id by lia. apply xsum_ext. intros j Hj. unfold when_bit.
  rewrite Z.mod_pow2_bits_low, Z.shiftr_spec by lia.
  by replace (Z.of_nat j + 8 * Z.of_nat i) with (Z.of_nat (8 * i + j)) by lia.
Qed.

Lemma mul_p_MUL64 x : mul_p (precompute p) x = MUL64 p x 0x1b.
Proof.
  unfold mul_p. rewrite MUL64_xsum.
  rewrite (mul_p_entries x 0 0), (mul_p_entries x 1 8), (mul_p_entries x 2 16),
    (mul_p_entries x 3 24), (mul_p_entries x 4 32), (mul_p_entries x 5 40),
    (mul_p_entries x 6 48), (mul_p_entries x 7 56) by lia.
  change 64%nat with (8 + 8 + 8 + 8 + 8 + 8 + 8 + 8)%nat. by rewrite !xsum_app.
Qed.
End table.

(** ** Bounds *)

Definition is_dword (x : Z) : Prop := 0 <= x < 2 ^ 64.

Lemma lxor_dword x y : is_dword x → is_dword y → is_dword (Z.lxor x y).
Proof. apply (lxor_bound x y 64). lia. Qed.

Lemma u64_dword x : is_dword (u64 x).
Proof. apply Z.mod_pos_bound. lia. Qed.

Lemma MULxPOW64_dword v i : is_dword v → is_dword (MULxPOW64 v i 0x1b).
Proof.
  intros Hv. destruct i as [| i]; [done |]. cbn [MULxPOW64]. unfold MULx64.
  destruct (Z.testbit _ 63); [apply lxor_dword |]; try apply u64_dword. unfold is_dword. lia.
Qed.

Lemma xsum_dword f n : (∀ i, is_dword (f i)) → is_dword (xsum f n).
Proof.
  intros Hf. induction n as [| n IH]; simpl; [unfold is_dword; lia | by apply lxor_dword].
Qed.

Lemma MUL64_dword v p : is_dword v → is_dword (MUL64 v p 0x1b).
Proof.
  intros Hv. rewrite MUL64_xsum. apply xsum_dword. intros i. unfold when_bit.
  destruct (Z.testbit p _); [by apply MULxPOW64_dword | unfold is_dword; lia].
Qed.

Lemma GET64_dword b off n : Forall is_byte b → is_dword (GET64 b off n).
Proof.
  intros Hb. unfold GET64, is_dword.
  assert (H : ∀ i, is_byte (if i <? n then arr b (off + i) else 0)).
  { intros i. destruct (i <? n); [by apply arr_byte | unfold is_byte; lia]. }
  assert (Hs : ∀ x k, is_byte x → 0 <= k <= 56 → 0 <= Z.shiftl x k < 2 ^ 64).
  { intros x k Hx Hk. rewrite Z.shiftl_mul_pow2 by lia. unfold is_byte in Hx.
    pose proof (Z.pow_le_mono_r 2 k 56 ltac:(lia) ltac:(lia)). pose proof (Z.pow_pos_nonneg 2 k). nia. }
  repeat apply lor_bound; try lia; try (apply Hs; [apply H | lia]).
  all: specialize (H 7); unfold is_byte in H; lia.
Qed.

(** ** The message *)

Lemma fold_mul_p p l v :
  is_dword p → is_dword v → Forall is_dword l →
  foldl (λ eval m, mul_p (precompute p) (Z.lxor eval m)) v l =
  foldl (λ eval m, MUL64 (Z.lxor eval m) p 0x1b) v l.
Proof.
  intros Hp Hv Hl. revert v Hv. induction Hl as [| x l Hx Hl IH]; intros v Hv; [done |]. simpl.
  rewrite mul_p_MUL64, MUL64_comm; [| done | by apply lxor_dword].
  apply IH. by apply MUL64_dword, lxor_dword.
Qed.

Lemma eval_message_blocks p msg :
  is_dword p → Forall is_byte msg → 0 < zlen msg →
  eval_message (precompute p) msg (zlen msg) = ref_eval p (blocks msg (zlen msg)).
Proof.
  intros Hp Hm Hl. unfold eval_message, ref_eval, blocks. set (n := zlen msg) in *.
  set (d := (n * 8 + 63) / 64). replace (d + 1 - 2) with (d - 1) by lia.
  assert (Hd : 1 <= d) by (subst d; zdiv_lia). assert (Hn : 8 * d <= n + 7) by (subst d; zdiv_lia).
  rewrite <- fold_mul_p; [| done | unfold is_dword; lia |].
  2: { apply Forall_forall. intros x. rewrite list_elem_of_fmap. intros (i & -> & _). by apply GET64_dword. }
  replace (Z.to_nat d) with (S (Z.to_nat (d - 1))) by lia. rewrite seq_S, map_app, foldl_app. simpl.
  replace (Z.of_nat (Z.to_nat (d - 1))) with (d - 1) by lia. f_equal. f_equal.
  rewrite <- (foldl_fmap (λ eval m, mul_p (precompute p) (Z.lxor eval m)) 0 _ (λ i, GET64 msg (Z.of_nat i * 8) 8)).
  f_equal. apply map_ext_in. intros i Hi%in_seq. f_equal. lia.
Qed.

(** The MAC of the specification: the message evaluated as a polynomial at [P], its length added,
    the product by [Q], and the one-time pad [OTP], with [P], [Q] and [OTP] from the keystream. *)
Definition ref_mac (count fresh direction : Z) (key msg : bytes) : bytes :=
  let words b := map (λ i, GET32 b (i * 4)) [0; 1; 2; 3] in
  let z := ref_keystream 5 (ref_start (words (key_words key)) (words (integrity_iv count fresh direction))) in
  let p := Z.lor (Z.shiftl (arr z 0) 32) (arr z 1) in
  let q := Z.lor (Z.shiftl (arr z 2) 32) (arr z 3) in
  let eval := Z.lxor (ref_eval p (blocks msg (zlen msg))) (u64 (zlen msg * 8)) in
  htonl_bytes (Z.lxor (Z.shiftr (MUL64 eval q 0x1b) 32) (arr z 4)).

Lemma key_words_bytes key : Forall is_byte key → Forall is_byte (key_words key).
Proof.
  intros Hk. apply Forall_forall. intros x. unfold key_words. rewrite list_elem_of_fmap.
  intros (i & -> & _). by apply arr_byte.
Qed.

Lemma integrity_iv_bytes count fresh direction : Forall is_byte (integrity_iv count fresh direction).
Proof.
  assert (Hd : is_byte (Z.shiftl (Z.land direction 1) 7)).
  { change 1 with (Z.ones 1). rewrite Z.land_ones, Z.shiftl_mul_pow2 by lia. unfold is_byte.
    pose proof (Z.mod_pos_bound direction (2 ^ 1)). lia. }
  unfold integrity_iv.
  repeat (apply Forall_cons; split; [lxor_bounds; exact Hd |]). apply Forall_nil_2.
Qed.

(** C34: (equivalence) the integrity function, with its multiplication by precomputed tables and
    its table-driven generator, is defined on every non-empty message and returns the MAC of the
    specification, in which the message is evaluated by bitwise multiplications in GF(2^64). *)
Theorem snow3g_integrity_spec (count bearer direction : Z) (key msg : bytes) :
  Forall is_byte key → Forall is_byte msg → 0 < zlen msg →
  snow3g_integrity count bearer direction key (zlen msg) msg =
    Ok (ref_mac count (u32 (Z.shiftl bearer 27)) direction key msg).
Proof.
  intros Hk Hm Hl. unfold snow3g_integrity, snow3g_integrity_fresh, ref_mac.
  set (fresh := u32 _). decide_false (zlen msg <=? 0). rewrite slice_Some by lia.
  cbn [deref mbind res_bind]. rewrite drop_0, take_zlen.
  rewrite (generate_rep 5 _ _ (snow3g_init_rep _ _)). set (z := ref_keystream 5 _).
  rewrite eval_message_blocks; [done | | done | done].
  assert (Hz : ∀ i, is_word (arr z i)).
  { intros i. apply ref_keystream_word, ref_start_ok; intros j; apply map_GET32_word;
      [by apply key_words_bytes | apply integrity_iv_bytes]. }
  pose proof (Hz 0) as H0. pose proof (Hz 1) as H1. unfold is_word, is_dword in *.
  apply lor_bound; [lia | rewrite Z.shiftl_mul_pow2 by lia | ]; lia.
Qed.

Lemma snow3g_integrity_spec_witness :
  snow3g_integrity 1 5 1 (replicate 16 7) (zlen [1; 2; 3]) [1; 2; 3] =
    Ok (ref_mac 1 (u32 (Z.shiftl 5 27)) 1 (replicate 16 7) [1; 2; 3]).
Proof.
  apply (snow3g_integrity_spec 1 5 1 (replicate 16 7) [1; 2; 3]).
  - repeat constructor; vm_compute; congruence.
  - repeat constructor; vm_compute; congruence.
  - reflexivity.
Defined.
