(* ===== verification/PdcpSecurity.v ===== *)
(** * Ciphering and integrity as the PDCP sees them

    Models [openair2/LAYER2/nr_pdcp/nr_pdcp_security_nea1.c], [nr_pdcp_security_nea2.c],
    [nr_pdcp_integrity_nia1.c], [nr_pdcp_integrity_nia2.c] and the dispatch they use
    ([openair3/SECU/secu_defs.c], [nas_stream_eea1.c], [nas_stream_eia1.c], [aes_128_ctr.c],
    [aes_128_cbc_cmac.c]).

    The interface [StreamSecurity] is what a PDCP entity calls through its function pointers;
    [StreamSecurityLaws] is what its theorems use.  The instance of the program is built on
    SNOW 3G, modelled in [Snow3g.v], and on AES, a library outside the program: its two entry
    points are the parameters of the class [OpenSSL]. *)

From S2P Require Import Prelude Snow3g Snow3gRef Snow3gMac.

(** The ciphering and integrity functions an entity may point to. *)
Inductive nea_t := NEA1 | NEA2.
Inductive nia_t := NIA1 | NIA2.

Class StreamSecurity := {
  (** [cipher alg key buffer bearer count direction]: the new contents of [buffer]. *)
  ss_cipher : nea_t → bytes → bytes → Z → Z → Z → res bytes;
  (** [integrity alg key buffer bearer count direction]: the bytes of [out]. *)
  ss_integrity : nia_t → bytes → bytes → Z → Z → Z → res bytes
}.

(** Messages and parameters the functions are called with. *)
Definition ss_dom (m : bytes) (bearer direction : Z) : Prop :=
  0 < zlen m < 2 ^ 28 ∧ 1 <= bearer <= 31 ∧ (direction = 0 ∨ direction = 1).

Class StreamSecurityLaws `{StreamSecurity} : Prop := {
  (** ciphering keeps the length, and undoes itself *)
  ss_cipher_twice alg key m bearer count direction :
    ss_dom m bearer direction →
    ∃ c, ss_cipher alg key m bearer count direction = Ok c ∧ zlen c = zlen m ∧
      ss_cipher alg key c bearer count direction = Ok m;
  (** the MAC has four bytes *)
  ss_integrity_mac alg key m bearer count direction :
    ss_dom m bearer direction →
    ∃ mac, ss_integrity alg key m bearer count direction = Ok mac ∧ zlen mac = 4
}.

(** AES in counter mode, [EVP_EncryptUpdate] with [EVP_aes_128_ctr], and AES-CMAC. *)
Class OpenSSL := {
  EVP_aes_128_ctr : bytes → bytes → bytes → bytes;
  EVP_cmac_aes128 : bytes → bytes → bytes
}.

(** What is documented of them: counter mode adds a keystream, a CMAC has 16 bytes. *)
Class OpenSSLLaws `{OpenSSL} : Prop := {
  ctr_length key iv m : zlen (EVP_aes_128_ctr key iv m) = zlen m;
  ctr_twice key iv m : EVP_aes_128_ctr key iv (EVP_aes_128_ctr key iv m) = m;
  cmac_length key m : zlen (EVP_cmac_aes128 key m) = 16
}.

Section oai.
Context `{OpenSSL}.

(** [nas_stream_cipher_t]; [context] points to a copy of the key. *)
Record nas_stream_cipher_t := mk_stream {
  st_context : bytes; st_count : Z; st_bearer : Z; st_direction : Z; st_message : bytes; st_blength : Z
}.

Definition nas_stream_encrypt_eea1 (c : nas_stream_cipher_t) : res bytes :=
  snow3g_ciphering (st_count c) (st_bearer c) (st_direction c) (st_context c) (st_blength c / 8) (st_message c).

Definition nas_stream_encrypt_eia1 (c : nas_stream_cipher_t) : res bytes :=
  snow3g_integrity (st_count c) (st_bearer c) (st_direction c) (st_context c) (st_blength c / 8) (st_message c).

(** The fields set by both NEA1 and NIA1 before the call. *)
Definition nea1_stream (key buffer : bytes) (bearer count direction : Z) : nas_stream_cipher_t :=
  mk_stream key count (u8 (bearer - 1)) (u8 direction) buffer (u32 (zlen buffer * 8)).

Definition nr_pdcp_security_nea1_cipher (key buffer : bytes) (bearer count direction : Z) : res bytes :=
  out ← nas_stream_encrypt_eea1 (nea1_stream key buffer bearer count direction);
  memcpy buffer 0 out 0 (zlen buffer).

Definition nr_pdcp_integrity_nia1_integrity (key buffer : bytes) (bearer count direction : Z) : res bytes :=
  nas_stream_encrypt_eia1 (nea1_stream key buffer bearer count direction).

(** [data_iv8_t]: [htonl(count)], then the bits [padding:2], [direction:1], [bearer:5], three zeros. *)
Definition iv8 (bearer count direction : Z) : bytes :=
  htonl_bytes count ++
  [Z.lor (Z.shiftl (Z.land direction 1) 2) (Z.shiftl (Z.land (bearer - 1) 31) 3); 0; 0; 0].
Definition iv16 (bearer count direction : Z) : bytes := iv8 bearer count direction ++ replicate 8 0.

Definition nr_pdcp_security_nea2_cipher (key buffer : bytes) (bearer count direction : Z) : res bytes :=
  assert_that (0 <? zlen buffer) ≫= λ _,
  assert_that ((-1 <? bearer) && (bearer <? 32)) ≫= λ _,
  assert_that ((-1 <? direction) && (direction <? 2)) ≫= λ _,
  let out := EVP_aes_128_ctr key (iv16 bearer count direction) buffer in
  memcpy buffer 0 out 0 (zlen buffer).

Definition nr_pdcp_integrity_nia2_integrity (key buffer : bytes) (bearer count direction : Z) : res bytes :=
  assert_that ((0 <? bearer) && (bearer <? 33)) ≫= λ _,
  let result := EVP_cmac_aes128 key (iv8 bearer count direction ++ buffer) in
  deref (slice result 0 4).

#[export] Instance oai_security : StreamSecurity := {
  ss_cipher alg := match alg with
                   | NEA1 => nr_pdcp_security_nea1_cipher
                   | NEA2 => nr_pdcp_security_nea2_cipher
                   end;
  ss_integrity alg := match alg with
                      | NIA1 => nr_pdcp_integrity_nia1_integrity
                      | NIA2 => nr_pdcp_integrity_nia2_integrity
                      end
}.

(** ** The program's functions satisfy the interface *)

(** [memcpy(buffer, out, length)] over the whole buffer. *)
Lemma memcpy_whole buffer out : zlen out = zlen buffer → memcpy buffer 0 out 0 (zlen buffer) = Ok out.
Proof.
  intros Hl. pose proof (zlen_nonneg out). rewrite memcpy_Ok by lia.
  rewrite drop_0, <- Hl, take_zlen. simpl. rewrite Hl, Z.add_0_l. unfold zlen.
  by rewrite Nat2Z.id, drop_all, app_nil_r.
Qed.

Lemma nea1_blength (m : bytes) : 0 <= zlen m < 2 ^ 28 → u32 (zlen m * 8) / 8 = zlen m.
Proof. intros Hm. unfold u32. rewrite Z.mod_small by lia. apply Z.div_mul. lia. Qed.

Lemma nea1_cipher_eq key m bearer count direction :
  zlen m < 2 ^ 28 →
  nr_pdcp_security_nea1_cipher key m bearer count direction =
    Ok (zip_with Z.lxor m (keystream_bytes count (u8 (bearer - 1)) (u8 direction) key (zlen m))).
Proof.
  intros Hm. pose proof (zlen_nonneg m).
  unfold nr_pdcp_security_nea1_cipher, nas_stream_encrypt_eea1. cbn.
  rewrite nea1_blength, ciphering_eq by lia. cbn [mbind res_bind]. apply memcpy_whole.
  unfold zlen. rewrite length_zip_with_l; [done |]. apply keystream_covers.
Qed.

#[export] Instance oai_security_laws : OpenSSLLaws → StreamSecurityLaws.
Proof.
  intros Hl. split.
  - intros [] key m bearer count direction (Hm & Hb & Hd); simpl.
    + rewrite nea1_cipher_eq by lia. eexists. split; [done |].
      pose proof (keystream_covers count (u8 (bearer - 1)) (u8 direction) key m) as Hc.
      assert (Hlen : ∀ k : bytes, (length m <= length k)%nat → zlen (zip_with Z.lxor m k) = zlen m).
      { intros k Hk. unfold zlen. by rewrite length_zip_with_l. }
      rewrite nea1_cipher_eq, Hlen by (rewrite ?Hlen; done || lia). split; [done |].
      by rewrite zip_lxor_twice.
    + unfold nr_pdcp_security_nea2_cipher. exists (EVP_aes_128_ctr key (iv16 bearer count direction) m).
      rewrite !ctr_length. decide_true (0 <? zlen m). decide_true ((-1 <? bearer) && (bearer <? 32)).
      decide_true ((-1 <? direction) && (direction <? 2)). cbn.
      rewrite memcpy_whole by apply ctr_length. split_and!; [done.. |].
      pose proof (memcpy_whole (EVP_aes_128_ctr key (iv16 bearer count direction) m)) as Hw.
      rewrite !ctr_length in Hw. rewrite Hw by (by rewrite !ctr_length). by rewrite ctr_twice.
  - intros [] key m bearer count direction (Hm & Hb & Hd); simpl.
    + unfold nr_pdcp_integrity_nia1_integrity, nas_stream_encrypt_eia1, snow3g_integrity, snow3g_integrity_fresh.
      cbn -[precompute MUL64 generate_keystream snow3g_init]. rewrite nea1_blength by lia.
      decide_false (zlen m <=? 0). rewrite slice_Some by lia. cbn [deref mbind res_bind]. by eexists.
    + unfold nr_pdcp_integrity_nia2_integrity. decide_true ((0 <? bearer) && (bearer <? 33)).
      cbn [assert_that mbind res_bind]. rewrite slice_Some by (rewrite ?cmac_length; lia).
      eexists. split; [done |]. pose proof (cmac_length key (iv8 bearer count direction ++ m)) as Hc.
      unfold zlen in *. rewrite drop_0, length_take. lia.
Qed.
End oai.

(** A concrete instance, for the examples: a keystream and a MAC made of the key's first byte. *)
#[export] Instance toy_openssl : OpenSSL := {|
  EVP_aes_128_ctr key iv m := map (Z.lxor (hd 0 key)) m;
  EVP_cmac_aes128 key m := replicate 16 (hd 0 key)
|}.
#[export] Instance toy_openssl_laws : OpenSSLLaws.
Proof.
  split; simpl; intros.
  - unfold zlen. by rewrite length_map.
  - rewrite map_map, <- map_id. apply map_ext. intros x.
    by rewrite <- Z.lxor_assoc, Z.lxor_nilpotent, Z.lxor_0_l.
  - reflexivity.
Qed.
