(* ===== verification/PdcpEntity.v ===== *)
(** * NR PDCP entity

    Models [openair2/LAYER2/nr_pdcp/nr_pdcp_entity.c] (with its [.h]) and [nr_pdcp_sdu.c]:
    the state of an entity and all its operations.  The callback [deliver_sdu] is observed
    through the log [out].  The contexts allocated for NEA1, NIA1 and NIA2 are in [ctxs] (each
    a copy of its key); the context of NEA2 is the address of the entity's own ciphering key.
    A function pointer of the entity is the name of the algorithm it points to. *)

From S2P Require Import Prelude PdcpSecurity.

Definition SHORT_SN_SIZE : Z := 12.
Definition LONG_SN_SIZE : Z := 18.
Definition SHORT_PDCP_HEADER_SIZE : Z := 2.
Definition LONG_PDCP_HEADER_SIZE : Z := 3.
Definition PDCP_INTEGRITY_SIZE : Z := 4.

Inductive nr_pdcp_entity_type_t := NR_PDCP_DRB_AM | NR_PDCP_DRB_UM | NR_PDCP_SRB.
#[export] Instance nr_pdcp_entity_type_eq : EqDecision nr_pdcp_entity_type_t.
Proof. solve_decision. Defined.

Record nr_pdcp_entity_security_keys_and_algos_t := mk_keys {
  integrity_algorithm : Z; ciphering_algorithm : Z; integrity_key : bytes; ciphering_key : bytes
}.
#[export] Instance eta_keys : Settable nr_pdcp_entity_security_keys_and_algos_t :=
  λ k, mk_keys (integrity_algorithm k) (ciphering_algorithm k) (integrity_key k) (ciphering_key k).

Record nr_pdcp_integrity_data_t := mk_integrity {
  id_count : Z; id_mac : bytes; id_header_size : Z; id_header : bytes
}.
Definition no_integrity : nr_pdcp_integrity_data_t := mk_integrity 0 [0; 0; 0; 0] 0 [0; 0; 0].

Record nr_pdcp_sdu_t := mk_sdu {
  sdu_count : Z; sdu_buffer : bytes; sdu_size : Z; sdu_integrity : nr_pdcp_integrity_data_t
}.

Record nr_pdcp_count_t := mk_count { c_sn : Z; c_hfn : Z }.

Record nr_pdcp_statistics_t := mk_stats {
  txpdu_pkts : Z; txpdu_bytes : Z; txpdu_sn : Z;
  rxpdu_pkts : Z; rxpdu_bytes : Z; rxpdu_sn : Z; rxpdu_dd_pkts : Z; rxpdu_dd_bytes : Z;
  txsdu_pkts : Z; txsdu_bytes : Z; rxsdu_pkts : Z; rxsdu_bytes : Z
}.
#[export] Instance eta_stats : Settable nr_pdcp_statistics_t :=
  λ s, mk_stats (txpdu_pkts s) (txpdu_bytes s) (txpdu_sn s) (rxpdu_pkts s) (rxpdu_bytes s)
         (rxpdu_sn s) (rxpdu_dd_pkts s) (rxpdu_dd_bytes s) (txsdu_pkts s) (txsdu_bytes s)
         (rxsdu_pkts s) (rxsdu_bytes s).

(** A [stream_security_context_t *]. *)
Inductive context_ptr := Ctx (a : nat) | Ctx_ciphering_key.

(** [deliver_sdu(deliver_sdu_data, entity, buf, size, msg_integrity)]. *)
Inductive pdcp_event := deliver_sdu (buf : bytes) (size : Z) (i : nr_pdcp_integrity_data_t).

(** What the security functions need: the pointers of the entity, the keys and the contexts. *)
Record security_t := mk_security {
  has_ciphering : bool;
  has_integrity : bool;
  keys : nr_pdcp_entity_security_keys_and_algos_t;
  security_context : option context_ptr;
  cipher : option nea_t;
  decipher : option nea_t;
  free_security : option nea_t;
  integrity_context : option context_ptr;
  integrity : option nia_t;
  free_integrity : option nia_t;
  ctxs : gmap nat bytes;
  next_ctx : nat
}.
#[export] Instance eta_security : Settable security_t :=
  λ s, mk_security (has_ciphering s) (has_integrity s) (keys s) (security_context s) (cipher s)
         (decipher s) (free_security s) (integrity_context s) (integrity s) (free_integrity s)
         (ctxs s) (next_ctx s).

Record nr_pdcp_entity_t := mk_entity {
  type : nr_pdcp_entity_type_t;
  rb_id : Z; pdusession_id : Z;
  has_sdap_rx : bool; has_sdap_tx : bool;
  sn_size : Z; t_reordering : Z; discard_timer : Z;
  sn_max : Z; window_size : Z;
  tx_next : Z; rx_next : Z; rx_deliv : Z; rx_reord : Z;
  t_current : Z; t_reordering_start : Z;
  security : security_t;
  is_gnb : bool;
  rx_list : list nr_pdcp_sdu_t;
  rx_size : Z;
  stats : nr_pdcp_statistics_t;
  entity_suspended : bool;
  out : list pdcp_event
}.
#[export] Instance eta_entity : Settable nr_pdcp_entity_t :=
  λ e, mk_entity (type e) (rb_id e) (pdusession_id e) (has_sdap_rx e) (has_sdap_tx e) (sn_size e)
         (t_reordering e) (discard_timer e) (sn_max e) (window_size e) (tx_next e) (rx_next e)
         (rx_deliv e) (rx_reord e) (t_current e) (t_reordering_start e) (security e) (is_gnb e)
         (rx_list e) (rx_size e) (stats e) (entity_suspended e) (out e).

Definition stat (proj : nr_pdcp_statistics_t → Z) `{!Setter proj} (n : Z) (e : nr_pdcp_entity_t) : nr_pdcp_entity_t :=
  e <| stats ::= incr32 proj n |>.

Definition nr_max_pdcp_pdu_size (size : Z) : Z := size + LONG_PDCP_HEADER_SIZE + PDCP_INTEGRITY_SIZE.

(** ** The list of received SDUs ([nr_pdcp_sdu.c]) *)

Definition nr_pdcp_new_sdu (count : Z) (buffer : bytes) (off size : Z) (i : nr_pdcp_integrity_data_t) : res nr_pdcp_sdu_t :=
  b ← deref (slice buffer off size);
  Ok (mk_sdu count b size i).

Fixpoint nr_pdcp_sdu_list_add (l : list nr_pdcp_sdu_t) (sdu : nr_pdcp_sdu_t) : list nr_pdcp_sdu_t :=
  match l with
  | [] => [sdu]
  | cur :: next => if sdu_count sdu <? sdu_count cur then sdu :: cur :: next
                   else cur :: nr_pdcp_sdu_list_add next sdu
  end.

Fixpoint nr_pdcp_sdu_in_list (l : list nr_pdcp_sdu_t) (count : Z) : bool :=
  match l with
  | [] => false
  | cur :: next => if sdu_count cur =? count then true else nr_pdcp_sdu_in_list next count
  end.

(** ** COUNT *)

Definition PDCP_HFN (e : nr_pdcp_entity_t) (count : Z) : Z := Z.shiftr count (sn_size e).
Definition PDCP_SN (e : nr_pdcp_entity_t) (count : Z) : Z := Z.land count (sn_max e).

(** The HFN of a received PDU, from its SN and RX_DELIV ([uint32_t] arithmetic). *)
Definition get_rcvd_hfn (e : nr_pdcp_entity_t) (rcvd_sn : Z) : Z :=
  let rx_deliv_sn := PDCP_SN e (rx_deliv e) in
  let rx_deliv_hfn := PDCP_HFN e (rx_deliv e) in
  if rcvd_sn <? rx_deliv_sn - window_size e then u32 (rx_deliv_hfn + 1)
  else if rx_deliv_sn + window_size e <=? rcvd_sn then u32 (rx_deliv_hfn - 1)
  else rx_deliv_hfn.

Definition get_rcvd_count (e : nr_pdcp_entity_t) (rcvd_sn : Z) : Z :=
  Z.lor (u32 (Z.shiftl (get_rcvd_hfn e rcvd_sn) (sn_size e))) rcvd_sn.

(** ** Security *)

Section entity.
Context `{StreamSecurity}.

(** The key a context holds. *)
Definition context_key (s : security_t) (c : option context_ptr) : res bytes :=
  match c with
  | Some (Ctx a) => deref (ctxs s !! a)
  | Some Ctx_ciphering_key => Ok (ciphering_key (keys s))
  | None => UB
  end.

(** [entity->cipher(entity->security_context, buf + off, len, ...)] on part of a buffer. *)
Definition cipher_at (s : security_t) (alg : option nea_t) (buf : bytes) (off len rb_id count direction : Z) : res bytes :=
  alg ← deref alg;
  key ← context_key s (security_context s);
  part ← deref (slice buf off len);
  part ← ss_cipher alg key part rb_id count direction;
  memcpy buf off part 0 len.

Definition integrity_of (s : security_t) (msg : bytes) (rb_id count direction : Z) : res bytes :=
  alg ← deref (integrity s);
  key ← context_key s (integrity_context s);
  ss_integrity alg key msg rb_id count direction.

Definition new_context (key : bytes) (s : security_t) : context_ptr * security_t :=
  (Ctx (next_ctx s), s <| ctxs ::= <[next_ctx s := key]> |> <| next_ctx ::= S |>).

(** [free] of a context; NEA2 has nothing to free. *)
Definition free_context (c : option context_ptr) (s : security_t) : res security_t :=
  match c with
  | Some (Ctx a) => if decide (is_Some (ctxs s !! a)) then Ok (s <| ctxs ::= delete a |>) else UB
  | _ => UB
  end.

Definition call_free_security (s : security_t) : res security_t :=
  match free_security s with
  | Some NEA1 => free_context (security_context s) s
  | Some NEA2 | None => Ok s
  end.
Definition call_free_integrity (s : security_t) : res security_t :=
  match free_integrity s with
  | Some _ => free_context (integrity_context s) s
  | None => Ok s
  end.

(** The parameters with an algorithm other than -1 are stored. *)
Definition store_keys (p : nr_pdcp_entity_security_keys_and_algos_t) (s : security_t) : security_t :=
  let s := if integrity_algorithm p =? -1 then s
           else s <| keys ::= λ k, k <| integrity_algorithm := integrity_algorithm p |>
                                     <| integrity_key := integrity_key p |> |> in
  if ciphering_algorithm p =? -1 then s
  else s <| keys ::= λ k, k <| ciphering_algorithm := ciphering_algorithm p |>
                            <| ciphering_key := ciphering_key p |> |>.

Definition set_integrity (alg : Z) (s : security_t) : res security_t :=
  if alg =? 0 then
    s ← call_free_integrity (s <| has_integrity := false |>);
    Ok (s <| free_integrity := None |>)
  else if alg =? -1 then Ok s
  else
    s ← call_free_integrity (s <| has_integrity := true |>);
    let start f :=
      let '(c, s) := new_context (integrity_key (keys s)) s in
      Ok (s <| integrity_context := Some c |> <| integrity := Some f |> <| free_integrity := Some f |>) in
    if alg =? 2 then start NIA2 else if alg =? 1 then start NIA1 else Exit.

Definition set_ciphering (alg : Z) (s : security_t) : res security_t :=
  if alg =? 0 then
    s ← call_free_security (s <| has_ciphering := false |>);
    Ok (s <| free_security := None |>)
  else if alg =? -1 then Ok s
  else
    s ← call_free_security (s <| has_ciphering := true |>);
    let start f c s :=
      Ok (s <| security_context := Some c |> <| cipher := Some f |> <| decipher := Some f |>
            <| free_security := Some f |>) in
    if alg =? 2 then start NEA2 Ctx_ciphering_key s
    else if alg =? 1 then let '(c, s) := new_context (ciphering_key (keys s)) s in start NEA1 c s
    else Exit.

Definition set_security (p : nr_pdcp_entity_security_keys_and_algos_t) (s : security_t) : res security_t :=
  let s := store_keys p s in
  s ← set_integrity (integrity_algorithm p) s;
  set_ciphering (ciphering_algorithm p) s.

Definition nr_pdcp_entity_set_security (e : nr_pdcp_entity_t) (p : nr_pdcp_entity_security_keys_and_algos_t) : res nr_pdcp_entity_t :=
  s ← set_security p (security e);
  Ok (e <| security := s |>).

(** ** Reception *)

(** The first SDU [cur] of the list is delivered and freed; [l] is the rest of the list. *)
Definition deliver_one (cur : nr_pdcp_sdu_t) (l : list nr_pdcp_sdu_t) (e : nr_pdcp_entity_t) : nr_pdcp_entity_t :=
  let e := e <| out ::= λ o, o ++ [deliver_sdu (sdu_buffer cur) (sdu_size cur) (sdu_integrity cur)] |> in
  let e := e <| rx_list := l |> <| rx_size ::= λ n, n - sdu_size cur |> in
  stat txsdu_bytes (sdu_size cur) (stat txsdu_pkts 1 e).

(** [while (rx_list != NULL && count == rx_list->count)]. *)
Fixpoint deliver_contiguous (l : list nr_pdcp_sdu_t) (count : Z) (e : nr_pdcp_entity_t) : Z * nr_pdcp_entity_t :=
  match l with
  | cur :: l => if count =? sdu_count cur then deliver_contiguous l (u32 (count + 1)) (deliver_one cur l e)
                else (count, e)
  | [] => (count, e)
  end.

(** [while (rx_list != NULL && rx_list->count < rx_reord)]. *)
Fixpoint deliver_below (l : list nr_pdcp_sdu_t) (e : nr_pdcp_entity_t) : nr_pdcp_entity_t :=
  match l with
  | cur :: l => if sdu_count cur <? rx_reord e then deliver_below l (deliver_one cur l e) else e
  | [] => e
  end.

Fixpoint deliver_all (l : list nr_pdcp_sdu_t) (e : nr_pdcp_entity_t) : nr_pdcp_entity_t :=
  match l with
  | cur :: l => deliver_all l (deliver_one cur l e)
  | [] => e
  end.
Definition deliver_all_sdus (e : nr_pdcp_entity_t) : nr_pdcp_entity_t := deliver_all (rx_list e) e.

(** The SN and the size of the header. *)
Definition read_header (e : nr_pdcp_entity_t) (buffer : bytes) : res (Z * Z) :=
  b0 ← deref (znth buffer 0);
  b1 ← deref (znth buffer 1);
  if sn_size e =? SHORT_SN_SIZE
  then Ok (Z.lor (Z.shiftl (Z.land b0 0xf) 8) b1, SHORT_PDCP_HEADER_SIZE)
  else b2 ← deref (znth buffer 2);
       Ok (Z.lor (Z.lor (Z.shiftl (Z.land b0 0x3) 16) (Z.shiftl b1 8)) b2, LONG_PDCP_HEADER_SIZE).

(** SRBs always have a MAC-I. *)
Definition has_mac (e : nr_pdcp_entity_t) : bool :=
  has_integrity (security e) || bool_decide (type e = NR_PDCP_SRB).
Definition integrity_size (e : nr_pdcp_entity_t) : Z := if has_mac e then PDCP_INTEGRITY_SIZE else 0.

Definition rx_direction (e : nr_pdcp_entity_t) : Z := if is_gnb e then 0 else 1.
Definition tx_direction (e : nr_pdcp_entity_t) : Z := if is_gnb e then 1 else 0.

Definition discard_pdu (size : Z) (e : nr_pdcp_entity_t) : nr_pdcp_entity_t :=
  stat rxpdu_dd_bytes size (stat rxpdu_dd_pkts 1 e).

(** The integrity check of a deciphered PDU. *)
Definition integrity_ok (e : nr_pdcp_entity_t) (buffer : bytes) (size rcvd_count : Z) : res bool :=
  if has_integrity (security e) then
    msg ← deref (slice buffer 0 (size - integrity_size e));
    mac ← integrity_of (security e) msg (rb_id e) rcvd_count (rx_direction e);
    rcvd ← deref (slice buffer (size - integrity_size e) PDCP_INTEGRITY_SIZE);
    Ok (bool_decide (mac = rcvd))
  else Ok true.

(** Stop t-Reordering if RX_DELIV reached rx_reord, start it if something is missing. *)
Definition update_t_reordering (e : nr_pdcp_entity_t) : nr_pdcp_entity_t :=
  let e := if negb (t_reordering_start e =? 0) && (rx_reord e <=? rx_deliv e)
           then e <| t_reordering_start := 0 |> else e in
  if (t_reordering_start e =? 0) && (rx_deliv e <? rx_next e)
  then e <| rx_reord := rx_next e |> <| t_reordering_start := t_current e |> else e.

(** The SDU is stored, what can be delivered is. *)
Definition store_and_deliver (e : nr_pdcp_entity_t) (sdu : nr_pdcp_sdu_t) (size header_size : Z) : nr_pdcp_entity_t :=
  let rcvd_count := sdu_count sdu in
  let e := e <| rx_list ::= λ l, nr_pdcp_sdu_list_add l sdu |> <| rx_size ::= λ n, n + (size - header_size) |> in
  let e := if rx_next e <=? rcvd_count then e <| rx_next := u32 (rcvd_count + 1) |> else e in
  let e := if rcvd_count =? rx_deliv e then
             let '(count, e) := deliver_contiguous (rx_list e) (rx_deliv e) e in
             e <| rx_deliv := count |>
           else e in
  update_t_reordering e.

(** The PDU is deciphered, checked, and given to the reception window. *)
Definition recv_data (e : nr_pdcp_entity_t) (buffer : bytes) (size rcvd_sn header_size : Z) : res nr_pdcp_entity_t :=
  let sdap_header_size := b2z (has_sdap_rx e) in
  let rcvd_count := get_rcvd_count e rcvd_sn in
  msg_integrity ←
    (if has_mac e then
       mac ← deref (slice buffer (size - 4) 4);
       header ← deref (slice buffer 0 header_size);
       Ok (mk_integrity rcvd_count mac header_size (header ++ drop (Z.to_nat header_size) [0; 0; 0]))
     else Ok no_integrity);
  buffer ←
    (if has_ciphering (security e)
     then cipher_at (security e) (decipher (security e)) buffer (header_size + sdap_header_size)
            (size - (header_size + sdap_header_size)) (rb_id e) rcvd_count (rx_direction e)
     else Ok buffer);
  ok ← integrity_ok e buffer size rcvd_count;
  if negb ok then Ok (discard_pdu size e)
  else if (rcvd_count <? rx_deliv e) || nr_pdcp_sdu_in_list (rx_list e) rcvd_count
  then Ok (discard_pdu size e)
  else
    sdu ← nr_pdcp_new_sdu rcvd_count buffer header_size (size - header_size - integrity_size e) msg_integrity;
    Ok (store_and_deliver e sdu size header_size).

Definition nr_pdcp_entity_recv_pdu (e : nr_pdcp_entity_t) (buffer : bytes) (size : Z) : res nr_pdcp_entity_t :=
  if entity_suspended e then Ok e
  else if size <? 1 then Ok e
  else
    b0 ← deref (znth buffer 0);
    buffer ← (if negb (bool_decide (type e = NR_PDCP_SRB)) && (Z.land b0 0x80 =? 0)
              then zset buffer 0 (Z.lor b0 128) else Ok buffer);
    let e := stat rxpdu_bytes size (stat rxpdu_pkts 1 e) in
    '(rcvd_sn, header_size) ← read_header e buffer;
    let e := e <| stats ::= λ s, s <| rxpdu_sn := rcvd_sn |> |> in
    if size <? header_size + b2z (has_sdap_rx e) + integrity_size e + 1
    then Ok (discard_pdu size e)
    else recv_data e buffer size rcvd_sn header_size.

(** ** Transmission *)

Definition write_header (e : nr_pdcp_entity_t) (buf : bytes) : res (Z * bytes) :=
  let sn := PDCP_SN e (tx_next e) in
  let dc_bit := if bool_decide (type e = NR_PDCP_SRB) then 0 else 0x80 in
  if sn_size e =? SHORT_SN_SIZE then
    buf ← zset buf 0 (Z.lor dc_bit (Z.land (Z.shiftr sn 8) 0xf));
    buf ← zset buf 1 (Z.land sn 0xff);
    Ok (SHORT_PDCP_HEADER_SIZE, buf)
  else
    buf ← zset buf 0 (Z.lor dc_bit (Z.land (Z.shiftr sn 16) 0x3));
    buf ← zset buf 1 (Z.land (Z.shiftr sn 8) 0xff);
    buf ← zset buf 2 (Z.land sn 0xff);
    Ok (LONG_PDCP_HEADER_SIZE, buf).

(** The MAC-I of a PDU, computed or zero. *)
Definition write_mac (e : nr_pdcp_entity_t) (buf : bytes) (len count : Z) : res bytes :=
  if has_integrity (security e) then
    msg ← deref (slice buf 0 len);
    mac ← integrity_of (security e) msg (rb_id e) count (tx_direction e);
    memcpy buf len mac 0 PDCP_INTEGRITY_SIZE
  else if integrity_size e =? PDCP_INTEGRITY_SIZE then memcpy buf len [0; 0; 0; 0] 0 PDCP_INTEGRITY_SIZE
  else Ok buf.

(** Returned value (-1 if suspended), contents of [pdu_buffer], new state. *)
Definition nr_pdcp_entity_process_sdu (e : nr_pdcp_entity_t) (buffer : bytes) (size : Z)
    (pdu_buffer : bytes) (pdu_max_size : Z) : res (Z * bytes * nr_pdcp_entity_t) :=
  assert_that (nr_max_pdcp_pdu_size size <=? pdu_max_size) ≫= λ _,
  if entity_suspended e then Ok (-1, pdu_buffer, e)
  else
    let e := stat rxsdu_bytes size (stat rxsdu_pkts 1 e) in
    let count := tx_next e in
    let sn := PDCP_SN e (tx_next e) in
    let sdap_header_size := b2z (has_sdap_tx e) in
    '(header_size, buf) ← write_header e pdu_buffer;
    buf ← memcpy buf header_size buffer 0 size;
    buf ← write_mac e buf (header_size + size) count;
    buf ← (if has_ciphering (security e)
           then cipher_at (security e) (cipher (security e)) buf (header_size + sdap_header_size)
                  (size + integrity_size e - sdap_header_size) (rb_id e) count (tx_direction e)
           else Ok buf);
    let pdu_size := header_size + size + integrity_size e in
    let e := e <| tx_next ::= λ n, u32 (n + 1) |> in
    let e := stat txpdu_bytes pdu_size (stat txpdu_pkts 1 e) in
    Ok (pdu_size, buf, e <| stats ::= λ s, s <| txpdu_sn := sn |> |>).

Definition nr_pdcp_entity_check_integrity (e : nr_pdcp_entity_t) (buffer : bytes) (buffer_size : Z)
    (i : nr_pdcp_integrity_data_t) : res bool :=
  if has_integrity (security e) then
    header ← deref (slice (id_header i) 0 (id_header_size i));
    b ← deref (slice buffer 0 buffer_size);
    mac ← integrity_of (security e) (header ++ b) (rb_id e) (id_count i) (rx_direction e);
    Ok (bool_decide (mac = id_mac i))
  else Ok false.

(** ** t-Reordering *)

Definition check_t_reordering (e : nr_pdcp_entity_t) : nr_pdcp_entity_t :=
  if t_reordering e =? -1 then e
  else if (t_reordering_start e =? 0) || (t_current e <=? u64 (t_reordering_start e + t_reordering e)) then e
  else
    let e := e <| t_reordering_start := 0 |> in
    let e := deliver_below (rx_list e) e in
    let '(count, e) := deliver_contiguous (rx_list e) (rx_reord e) e in
    let e := e <| rx_deliv := count |> in
    if rx_deliv e <? rx_next e
    then e <| rx_reord := rx_next e |> <| t_reordering_start := t_current e |> else e.

Definition nr_pdcp_entity_set_time (e : nr_pdcp_entity_t) (now : Z) : nr_pdcp_entity_t :=
  check_t_reordering (e <| t_current := now |>).

(** ** Suspension, re-establishment, release *)

Definition nr_pdcp_entity_suspend (e : nr_pdcp_entity_t) : nr_pdcp_entity_t :=
  let e := e <| tx_next := 0 |> in
  let e := if t_reordering_start e =? 0 then e else deliver_all_sdus (e <| t_reordering_start := 0 |>) in
  e <| rx_next := 0 |> <| rx_deliv := 0 |> <| entity_suspended := true |>.

Definition free_rx_list (e : nr_pdcp_entity_t) : nr_pdcp_entity_t :=
  let e := foldl (λ e cur, stat rxpdu_dd_bytes (sdu_size cur) (stat rxpdu_dd_pkts 1 e)) e (rx_list e) in
  e <| rx_list := [] |> <| rx_size := 0 |>.

Definition nr_pdcp_entity_reestablish_drb_am (e : nr_pdcp_entity_t) (p : nr_pdcp_entity_security_keys_and_algos_t) : res nr_pdcp_entity_t :=
  e ← nr_pdcp_entity_set_security e p;
  Ok (e <| entity_suspended := false |>).

Definition nr_pdcp_entity_reestablish_drb_um (e : nr_pdcp_entity_t) (p : nr_pdcp_entity_security_keys_and_algos_t) : res nr_pdcp_entity_t :=
  let e := e <| tx_next := 0 |> in
  let e := if t_reordering_start e =? 0 then e else deliver_all_sdus e in
  let e := e <| t_reordering_start := 0 |> <| rx_next := 0 |> <| rx_deliv := 0 |> in
  e ← nr_pdcp_entity_set_security e p;
  Ok (e <| entity_suspended := false |>).

Definition nr_pdcp_entity_reestablish_srb (e : nr_pdcp_entity_t) (p : nr_pdcp_entity_security_keys_and_algos_t) : res nr_pdcp_entity_t :=
  let e := free_rx_list (e <| tx_next := 0 |>) in
  let e := e <| t_reordering_start := 0 |> <| rx_next := 0 |> <| rx_deliv := 0 |> in
  e ← nr_pdcp_entity_set_security e p;
  Ok (e <| entity_suspended := false |>).

(** The function pointer [reestablish_entity]. *)
Definition reestablish_entity (e : nr_pdcp_entity_t) : nr_pdcp_entity_security_keys_and_algos_t → res nr_pdcp_entity_t :=
  match type e with
  | NR_PDCP_DRB_AM => nr_pdcp_entity_reestablish_drb_am e
  | NR_PDCP_DRB_UM => nr_pdcp_entity_reestablish_drb_um e
  | NR_PDCP_SRB => nr_pdcp_entity_reestablish_srb e
  end.

Definition nr_pdcp_entity_release (e : nr_pdcp_entity_t) : nr_pdcp_entity_t := deliver_all_sdus e.

(** The contexts still allocated when the entity is gone. *)
Definition nr_pdcp_entity_delete (e : nr_pdcp_entity_t) : res (gmap nat bytes) :=
  let e := free_rx_list e in
  s ← call_free_security (security e);
  s ← call_free_integrity s;
  Ok (ctxs s).

(** ** COUNT access *)

Definition nr_pdcp_entity_get_count_dl (e : nr_pdcp_entity_t) : nr_pdcp_count_t :=
  mk_count (PDCP_SN e (rx_deliv e)) (PDCP_HFN e (rx_deliv e)).
Definition nr_pdcp_entity_get_count_ul (e : nr_pdcp_entity_t) : nr_pdcp_count_t :=
  mk_count (PDCP_SN e (tx_next e)) (PDCP_HFN e (tx_next e)).

Definition compose_count (c : nr_pdcp_count_t) (sn_size : Z) : Z :=
  Z.lor (u32 (Z.shiftl (c_hfn c) sn_size)) (Z.land (c_sn c) (Z.shiftl 1 sn_size - 1)).

Definition nr_pdcp_entity_set_count_dl (e : nr_pdcp_entity_t) (c : nr_pdcp_count_t) (sn_size : Z) : nr_pdcp_entity_t :=
  let count := compose_count c sn_size in
  e <| rx_next := u32 (count + 1) |> <| rx_deliv := count |>.
Definition nr_pdcp_entity_set_count_ul (e : nr_pdcp_entity_t) (c : nr_pdcp_count_t) (sn_size : Z) : nr_pdcp_entity_t :=
  e <| tx_next := compose_count c sn_size |>.

(** ** Construction *)

Definition no_security : security_t :=
  mk_security false false (mk_keys 0 0 (replicate 16 0) (replicate 16 0)) None None None None None None None ∅ 0.
Definition init_stats : nr_pdcp_statistics_t := mk_stats 0 0 0 0 0 0 0 0 0 0 0 0.

Definition new_nr_pdcp_entity (type : nr_pdcp_entity_type_t) (is_gnb : bool) (rb_id pdusession_id : Z)
    (has_sdap_rx has_sdap_tx : bool) (sn_size t_reordering discard_timer : Z)
    (p : nr_pdcp_entity_security_keys_and_algos_t) : res nr_pdcp_entity_t :=
  nr_pdcp_entity_set_security
    (mk_entity type rb_id pdusession_id has_sdap_rx has_sdap_tx sn_size t_reordering discard_timer
       (Z.shiftl 1 sn_size - 1) (Z.shiftl 1 (sn_size - 1)) 0 0 0 0 0 0 no_security is_gnb [] 0
       init_stats false []) p.
End entity.
