(* ===== verification/PdcpRx.v ===== *)
(** * NR PDCP reception window: invariant and lemmas

    The list of received SDUs, the delivery loops and the invariant of the reception state of
    [PdcpEntity.v]: the SDUs stored are sorted by COUNT, without duplicates, between RX_DELIV
    and RX_NEXT, and t-Reordering runs while there are some.

    Then: NR PDCP security: invariant and lemmas.
    The contexts of an entity are allocated and freed exactly once whatever the sequence of
    algorithms configured, the functions it points to have the context they need, and
    ciphering a part of a buffer can be undone by an entity with the same key. *)

From S2P Require Import Prelude PdcpSecurity PdcpEntity.

Definition counts (l : list nr_pdcp_sdu_t) : list Z := map sdu_count l.

Definition event_of (s : nr_pdcp_sdu_t) : pdcp_event := deliver_sdu (sdu_buffer s) (sdu_size s) (sdu_integrity s).

(** The state after the SDUs [ds] at the head of the list were delivered, [rest] staying. *)
Fixpoint deliver_many (ds rest : list nr_pdcp_sdu_t) (e : nr_pdcp_entity_t) : nr_pdcp_entity_t :=
  match ds with
  | [] => e
  | d :: ds => deliver_many ds rest (deliver_one d (ds ++ rest) e)
  end.

(** What the reception of a PDU and the timer leave alone. *)
Record rx_frame (e e' : nr_pdcp_entity_t) : Prop := {
  rf_type : type e' = type e;
  rf_rb : rb_id e' = rb_id e;
  rf_sdap : has_sdap_rx e' = has_sdap_rx e ∧ has_sdap_tx e' = has_sdap_tx e;
  rf_sn : sn_size e' = sn_size e ∧ sn_max e' = sn_max e ∧ window_size e' = window_size e;
  rf_tx : tx_next e' = tx_next e;
  rf_time : t_current e' = t_current e ∧ t_reordering e' = t_reordering e;
  rf_security : security e' = security e ∧ is_gnb e' = is_gnb e;
  rf_suspended : entity_suspended e' = entity_suspended e
}.

Record pdcp_rx_ok (e : nr_pdcp_entity_t) : Prop := {
  ro_sorted : StronglySorted Z.lt (counts (rx_list e));
  ro_range : Forall (λ s, rx_deliv e < sdu_count s < rx_next e) (rx_list e);
  ro_next : 0 <= rx_deliv e <= rx_next e ∧ rx_next e < 2 ^ 32;
  ro_timer : t_reordering_start e ≠ 0 → rx_deliv e < rx_reord e <= rx_next e;
  ro_run : rx_list e ≠ [] → t_reordering_start e ≠ 0
}.

(** The sizes configured by the constructor. *)
Record pdcp_config (e : nr_pdcp_entity_t) : Prop := {
  pc_sn : sn_size e = SHORT_SN_SIZE ∨ sn_size e = LONG_SN_SIZE;
  pc_max : sn_max e = 2 ^ sn_size e - 1;
  pc_win : window_size e = 2 ^ (sn_size e - 1)
}.

Lemma rx_frame_refl e : rx_frame e e.
Proof. by repeat split. Qed.

Lemma rx_frame_trans e1 e2 e3 : rx_frame e1 e2 → rx_frame e2 e3 → rx_frame e1 e3.
Proof.
  intros [A1 A2 [A3 A4] (A5 & A6 & A7) A8 [A9 A10] [A11 A12] A13]
         [B1 B2 [B3 B4] (B5 & B6 & B7) B8 [B9 B10] [B11 B12] B13].
  repeat split; congruence.
Qed.

Lemma pdcp_config_frame e e' : rx_frame e e' → pdcp_config e → pdcp_config e'.
Proof.
  intros [_ _ _ (H1 & H2 & H3) _ _ _ _] [A B C]. split; rewrite ?H1, ?H2, ?H3; done.
Qed.

(** ** The list *)

Lemma in_list_spec l c : nr_pdcp_sdu_in_list l c = true ↔ c ∈ counts l.
Proof.
  unfold counts. induction l as [| x l IH]; simpl; [set_solver |]. rewrite elem_of_cons.
  destruct (Z.eqb_spec (sdu_count x) c).
  - split; [by left | done].
  - rewrite IH. split; [by right | by intros [-> |]].
Qed.

Lemma list_add_perm l s : nr_pdcp_sdu_list_add l s ≡ₚ s :: l.
Proof.
  induction l as [| x l IH]; simpl; [done |]. destruct (_ <? _); [done |]. rewrite IH. apply Permutation_swap.
Qed.

Lemma list_add_sorted l s :
  StronglySorted Z.lt (counts l) → sdu_count s ∉ counts l →
  StronglySorted Z.lt (counts (nr_pdcp_sdu_list_add l s)).
Proof.
  unfold counts. induction l as [| x l IH]; simpl; intros Hs Hn; [by repeat constructor |].
  apply StronglySorted_inv in Hs as [Hs Hx]. rewrite not_elem_of_cons in Hn. destruct Hn as [Hne Hn].
  destruct (Z.ltb_spec (sdu_count s) (sdu_count x)); simpl.
  - constructor; [by constructor |]. constructor; [done |]. eapply Forall_impl; [exact Hx |]. simpl. lia.
  - constructor; [by apply IH |]. rewrite list_add_perm. simpl. constructor; [lia | done].
Qed.

Lemma list_add_below l s c :
  Forall (λ x, c < sdu_count x) l → c < sdu_count s →
  Forall (λ x, c < sdu_count x) (nr_pdcp_sdu_list_add l s).
Proof. intros Hl Hs. rewrite list_add_perm. by constructor. Qed.

(** ** Delivery *)

Section delivery.
Context `{StreamSecurity}.

Lemma deliver_many_frame ds rest e :
  let e' := deliver_many ds rest e in
  rx_frame e e' ∧ out e' = out e ++ map event_of ds ∧ rx_deliv e' = rx_deliv e ∧ rx_next e' = rx_next e ∧
  rx_reord e' = rx_reord e ∧ t_reordering_start e' = t_reordering_start e.
Proof.
  revert e. induction ds as [| d ds IH]; intros e; simpl.
  - rewrite app_nil_r. by repeat split.
  - destruct (IH (deliver_one d (ds ++ rest) e)) as (H1 & H2 & H3 & H4 & H5 & H6).
    split; [eapply rx_frame_trans; [| exact H1]; by repeat split |]. rewrite H2. simpl. rewrite <- app_assoc. by split_and!.
Qed.

Lemma deliver_many_list ds rest e : rx_list e = ds ++ rest → rx_list (deliver_many ds rest e) = rest.
Proof. revert e. induction ds as [| d ds IH]; intros e He; simpl; [done |]. by apply IH. Qed.

Lemma deliver_many_app d1 d2 rest e :
  deliver_many (d1 ++ d2) rest e = deliver_many d2 rest (deliver_many d1 (d2 ++ rest) e).
Proof. revert e. induction d1 as [| d d1 IH]; intros e; simpl; [done |]. by rewrite IH, <- app_assoc. Qed.

(** The loop from [c] delivers the SDUs of COUNT [c], [c + 1], ... and stops at the first gap. *)
Lemma deliver_contiguous_spec l c e :
  0 <= c → StronglySorted Z.lt (counts l) → Forall (λ s, c <= sdu_count s < 2 ^ 32 - 1) l →
  ∃ ds rest, l = ds ++ rest ∧ counts ds = seqZ c (zlen ds) ∧
    Forall (λ s, c + zlen ds < sdu_count s) rest ∧ StronglySorted Z.lt (counts rest) ∧
    deliver_contiguous l c e = (c + zlen ds, deliver_many ds rest e).
Proof.
  revert c e. induction l as [| x l IH]; intros c e H0 Hs Hr.
  - exists [], []. cbn. rewrite Z.add_0_r. split_and!; try done; constructor.
  - pose proof Hs as [Hs' Hx]%StronglySorted_inv. apply Forall_cons in Hr as [Hrx Hr]. simpl.
    destruct (Z.eqb_spec c (sdu_count x)) as [Hc | Hc].
    + destruct (IH (c + 1) (deliver_one x l e)) as (ds & rest & -> & Hds & Hrest & Hsr & Hd); [lia | done | |].
      { apply Forall_forall. intros s Hin. rewrite Forall_forall in Hr. specialize (Hr s Hin).
        rewrite Forall_forall in Hx. specialize (Hx (sdu_count s) ltac:(by apply list_elem_of_fmap_2)). lia. }
      exists (x :: ds), rest. assert (Hz : zlen (x :: ds) = zlen ds + 1) by (unfold zlen; simpl; lia).
      unfold u32. rewrite Z.mod_small by lia. rewrite Hd, Hz. split_and!; [done | | | done | f_equal; lia].
      * pose proof (zlen_nonneg ds). simpl. rewrite Hds, (seqZ_cons c) by lia. f_equal; [lia |]. f_equal; lia.
      * eapply Forall_impl; [exact Hrest |]. simpl. lia.
    + exists [], (x :: l). simpl. change (zlen []) with 0. rewrite Z.add_0_r. split_and!; try done.
      constructor; [lia |]. apply Forall_forall. intros s Hin. rewrite Forall_forall in Hx.
      specialize (Hx (sdu_count s) ltac:(by apply list_elem_of_fmap_2)). lia.
Qed.

(** The loop before rx_reord delivers the SDUs below it. *)
Lemma deliver_below_spec l e :
  StronglySorted Z.lt (counts l) →
  ∃ ds rest, l = ds ++ rest ∧ Forall (λ s, sdu_count s < rx_reord e) ds ∧
    Forall (λ s, rx_reord e <= sdu_count s) rest ∧ StronglySorted Z.lt (counts rest) ∧
    deliver_below l e = deliver_many ds rest e.
Proof.
  revert e. induction l as [| x l IH]; intros e Hs.
  - exists [], []. split_and!; try done; constructor.
  - pose proof Hs as [Hs' Hx]%StronglySorted_inv. simpl. destruct (Z.ltb_spec (sdu_count x) (rx_reord e)).
    + destruct (IH (deliver_one x l e) Hs') as (ds & rest & -> & H1 & H2 & H3 & H4).
      exists (x :: ds), rest. rewrite H4. split_and!; try done. by constructor.
    + exists [], (x :: l). split_and!; try done. constructor; [done |].
      apply Forall_forall. intros s Hin. rewrite Forall_forall in Hx.
      specialize (Hx (sdu_count s) ltac:(by apply list_elem_of_fmap_2)). lia.
Qed.

Lemma deliver_all_spec l e : deliver_all l e = deliver_many l [] e.
Proof. revert e. induction l as [| x l IH]; intros e; simpl; [done |]. by rewrite IH, app_nil_r. Qed.
End delivery.

(** ** The invariant *)

(** Everything but t-Reordering is as the invariant wants it. *)
Record rx_pre (e : nr_pdcp_entity_t) : Prop := {
  rp_sorted : StronglySorted Z.lt (counts (rx_list e));
  rp_range : Forall (λ s, rx_deliv e < sdu_count s < rx_next e) (rx_list e);
  rp_next : 0 <= rx_deliv e <= rx_next e ∧ rx_next e < 2 ^ 32;
  rp_timer : t_reordering_start e ≠ 0 → rx_reord e <= rx_next e
}.

Lemma update_timer_ok e :
  rx_pre e → t_current e ≠ 0 →
  let e' := update_t_reordering e in
  pdcp_rx_ok e' ∧ rx_frame e e' ∧ rx_list e' = rx_list e ∧ rx_deliv e' = rx_deliv e ∧
  rx_next e' = rx_next e ∧ out e' = out e.
Proof.
  intros [Hs Hr Hn Ht] Hc. cbv zeta. unfold update_t_reordering.
  destruct (negb (t_reordering_start e =? 0) && (rx_reord e <=? rx_deliv e)) eqn:E1.
  - simpl. destruct (Z.ltb_spec (rx_deliv e) (rx_next e)); (split; [| by repeat split]).
    + constructor; simpl; try done; intros; lia.
    + constructor; simpl; try done; intros Hne. destruct (rx_list e) as [| x l]; [done |].
      apply Forall_cons in Hr as [Hr _]. lia.
  - assert (E1' : t_reordering_start e ≠ 0 → rx_deliv e < rx_reord e <= rx_next e) by lia.
    destruct (Z.eqb_spec (t_reordering_start e) 0) as [E2 |]; simpl;
      [destruct (Z.ltb_spec (rx_deliv e) (rx_next e)) |]; (split; [| by repeat split]).
    + constructor; simpl; try done; intros; lia.
    + constructor; try done. intros Hne. destruct (rx_list e) as [| x l]; [done |].
      apply Forall_cons in Hr as [Hr _]. lia.
    + by constructor.
Qed.

(** A run of COUNTs below [n] ends below [n]. *)
Lemma run_end ds c n : counts ds = seqZ c (zlen ds) → Forall (λ s, sdu_count s < n) ds → c <= n → c + zlen ds <= n.
Proof.
  intros Hds Hn Hc. pose proof (zlen_nonneg ds). destruct (Z.eq_dec (zlen ds) 0); [lia |].
  assert (Hin : c + zlen ds - 1 ∈ counts ds) by (rewrite Hds; apply elem_of_seqZ; lia).
  unfold counts in Hin. apply list_elem_of_fmap in Hin as (s & Hs & Hin).
  rewrite Forall_forall in Hn. specialize (Hn s Hin). lia.
Qed.

(** An empty run: nothing in the list has COUNT [c]. *)
Lemma run_empty ds rest c :
  counts ds = seqZ c (zlen ds) → Forall (λ s, c < sdu_count s) (ds ++ rest) → ds = [].
Proof.
  intros Hds Hl. destruct ds as [| d ds]; [done | exfalso]. apply Forall_cons in Hl as [Hd _].
  simpl in Hds. rewrite seqZ_cons in Hds by (unfold zlen; simpl; lia). injection Hds as E _. lia.
Qed.

(** The delivery step of [store_and_deliver], when the list holds a new SDU of COUNT [c]. *)
Lemma deliver_step `{StreamSecurity} e l c n :
  rx_list e = l → StronglySorted Z.lt (counts l) → Forall (λ s, rx_deliv e <= sdu_count s < n) l →
  (c ≠ rx_deliv e → Forall (λ s, rx_deliv e < sdu_count s) l) →
  0 <= rx_deliv e → rx_deliv e <= n < 2 ^ 32 →
  let e' := if c =? rx_deliv e then
              let '(count, e) := deliver_contiguous (rx_list e) (rx_deliv e) e in e <| rx_deliv := count |>
            else e in
  ∃ ds rest, l = ds ++ rest ∧ counts ds = seqZ (rx_deliv e) (zlen ds) ∧
    Forall (λ s, rx_deliv e + zlen ds < sdu_count s) rest ∧ StronglySorted Z.lt (counts rest) ∧
    rx_deliv e + zlen ds <= n ∧
    rx_frame e e' ∧ rx_list e' = rest ∧ rx_next e' = rx_next e ∧ rx_deliv e' = rx_deliv e + zlen ds ∧
    out e' = out e ++ map event_of ds ∧ t_reordering_start e' = t_reordering_start e ∧ rx_reord e' = rx_reord e.
Proof.
  intros Hl Hs Hr Hne H0 Hn. cbv zeta.
  destruct (deliver_contiguous_spec l (rx_deliv e) e) as (ds & rest & E & Hds & Hrest & Hsr & Hd);
    [done | done | eapply Forall_impl; [exact Hr |]; simpl; lia |].
  exists ds, rest. rewrite Hl, Hd. do 4 (split; [done |]).
  assert (Hend : rx_deliv e + zlen ds <= n).
  { apply run_end; [done | | lia]. rewrite E in Hr. apply Forall_app in Hr as [Hr _].
    eapply Forall_impl; [exact Hr |]. simpl. lia. }
  split; [done |]. destruct (Z.eqb_spec c (rx_deliv e)) as [Hc | Hc].
  - destruct (deliver_many_frame ds rest e) as (F1 & F2 & F3 & F4 & F5 & F6).
    split; [eapply rx_frame_trans; [exact F1 |]; by repeat split |]. simpl.
    rewrite (deliver_many_list ds rest e) by congruence. by split_and!.
  - assert (ds = []) as ->.
    { apply (run_empty ds rest (rx_deliv e)); [done |]. rewrite <- E. by apply Hne. }
    simpl in E. subst. simpl. rewrite app_nil_r. change (zlen []) with 0. rewrite Z.add_0_r.
    split; [apply rx_frame_refl |]. by split_and!.
Qed.

(** Storing a new SDU delivers the run of SDUs that starts at RX_DELIV and keeps the others. *)
Lemma store_and_deliver_spec `{StreamSecurity} e sdu size header_size :
  pdcp_rx_ok e → rx_deliv e <= sdu_count sdu < 2 ^ 32 - 1 → sdu_count sdu ∉ counts (rx_list e) →
  t_current e ≠ 0 →
  let e' := store_and_deliver e sdu size header_size in
  ∃ ds rest, nr_pdcp_sdu_list_add (rx_list e) sdu = ds ++ rest ∧
    counts ds = seqZ (rx_deliv e) (zlen ds) ∧ Forall (λ s, rx_deliv e + zlen ds < sdu_count s) rest ∧
    out e' = out e ++ map event_of ds ∧ rx_list e' = rest ∧ rx_deliv e' = rx_deliv e + zlen ds ∧
    rx_next e' = Z.max (rx_next e) (sdu_count sdu + 1) ∧ pdcp_rx_ok e' ∧ rx_frame e e'.
Proof.
  intros [Hs Hr Hn Ht Hrun] Hc Hni Hcur. cbv zeta. unfold store_and_deliver.
  set (l := nr_pdcp_sdu_list_add (rx_list e) sdu). simpl (rx_next _). set (N := Z.max (rx_next e) (sdu_count sdu + 1)).
  assert (Hls : StronglySorted Z.lt (counts l)) by (by apply list_add_sorted).
  assert (Hlr : Forall (λ s, rx_deliv e <= sdu_count s < N) l).
  { subst l. rewrite list_add_perm. constructor; [lia |]. eapply Forall_impl; [exact Hr |]. simpl. lia. }
  set (e2 := if rx_next e <=? sdu_count sdu then _ else _).
  assert (H2 : rx_frame e e2 ∧ rx_list e2 = l ∧ rx_next e2 = N ∧ rx_deliv e2 = rx_deliv e ∧ out e2 = out e ∧
               t_reordering_start e2 = t_reordering_start e ∧ rx_reord e2 = rx_reord e).
  { subst e2. destruct (Z.leb_spec (rx_next e) (sdu_count sdu)); (split; [by repeat split |]); simpl.
    - unfold u32. rewrite Z.mod_small by lia. split_and!; try done. lia.
    - split_and!; try done. lia. }
  clearbody e2. destruct H2 as (Hf2 & Hl2 & Hn2 & Hd2 & Ho2 & Ht2 & Hr2).
  destruct (deliver_step e2 l (sdu_count sdu) N Hl2 Hls) as (ds & rest & E & Hds & Hrest & Hsr & Hend & Hf3 & Hl3
    & Hn3 & Hd3 & Ho3 & Ht3 & Hr3); rewrite ?Hd2 in *; [done | | lia | lia |].
  { intros Hne. subst l. apply list_add_below; [| lia]. eapply Forall_impl; [exact Hr |]. simpl. lia. }
  set (e3 := if sdu_count sdu =? rx_deliv e then _ else _) in *. clearbody e3.
  exists ds, rest. split; [done |]. split; [done |]. split; [done |].
  destruct (update_timer_ok e3) as (Hok & Hf4 & Hl4 & Hd4 & Hn4 & Ho4).
  - rewrite E in Hlr. apply Forall_app in Hlr as [_ Hlr]. constructor; rewrite ?Hl3, ?Hd3, ?Hn3, ?Hn2, ?Ht3, ?Hr3, ?Ht2, ?Hr2.
    + done.
    + apply Forall_and. split; [exact Hrest |]. eapply Forall_impl; [exact Hlr |]. simpl. lia.
    + pose proof (zlen_nonneg ds). lia.
    + intros Hne. specialize (Ht Hne). lia.
  - rewrite (proj1 (rf_time _ _ Hf3)), (proj1 (rf_time _ _ Hf2)). done.
  - split_and!; try congruence; try exact Hok.
    eapply rx_frame_trans; [exact Hf2 |]. eapply rx_frame_trans; [exact Hf3 | exact Hf4].
Qed.

(** ** NR PDCP security: invariant and lemmas *)

Set Warnings "-clear-no-such-hyp".

(** The contexts the entity must free. *)
Definition owned_security (s : security_t) : gset nat :=
  match free_security s, security_context s with Some NEA1, Some (Ctx a) => {[a]} | _, _ => ∅ end.
Definition owned_integrity (s : security_t) : gset nat :=
  match free_integrity s, integrity_context s with Some _, Some (Ctx a) => {[a]} | _, _ => ∅ end.

Record sec_ok (s : security_t) : Prop := {
  so_security : match free_security s with
                | Some NEA1 => ∃ a, security_context s = Some (Ctx a)
                | Some NEA2 => security_context s = Some Ctx_ciphering_key
                | None => True
                end;
  so_cipher : free_security s ≠ None → cipher s = free_security s ∧ decipher s = free_security s;
  so_integrity : free_integrity s ≠ None → integrity s = free_integrity s ∧ ∃ a, integrity_context s = Some (Ctx a);
  so_has : (has_ciphering s = true → free_security s ≠ None) ∧ (has_integrity s = true → free_integrity s ≠ None);
  so_dom : dom (ctxs s) = owned_security s ∪ owned_integrity s;
  so_disj : owned_security s ## owned_integrity s;
  so_fresh : ∀ a, a ∈ dom (ctxs s) → (a < next_ctx s)%nat
}.

(** The algorithms the code supports. *)
Definition supported (p : nr_pdcp_entity_security_keys_and_algos_t) : Prop :=
  integrity_algorithm p ∈ [-1; 0; 1; 2] ∧ ciphering_algorithm p ∈ [-1; 0; 1; 2].

(** ** Configuration *)

Lemma free_context_ok a s :
  a ∈ dom (ctxs s) → free_context (Some (Ctx a)) s = Ok (s <| ctxs ::= delete a |>).
Proof. intros Ha. apply elem_of_dom in Ha. simpl. by rewrite decide_True. Qed.

(** The contexts left by [free_integrity] and by [free_security]. *)
Definition integrity_freed (s : security_t) : gmap nat bytes :=
  match free_integrity s, integrity_context s with Some _, Some (Ctx a) => delete a (ctxs s) | _, _ => ctxs s end.
Definition security_freed (s : security_t) : gmap nat bytes :=
  match free_security s, security_context s with Some NEA1, Some (Ctx a) => delete a (ctxs s) | _, _ => ctxs s end.

Lemma call_free_integrity_eq s :
  (free_integrity s ≠ None → ∃ a, integrity_context s = Some (Ctx a) ∧ a ∈ dom (ctxs s)) →
  call_free_integrity s = Ok (s <| ctxs := integrity_freed s |>).
Proof.
  unfold call_free_integrity, integrity_freed. intros H.
  destruct (free_integrity s) as [f |]; [| by destruct s].
  destruct H as (a & Ha & Hin); [done |]. rewrite Ha. by apply free_context_ok.
Qed.

Lemma call_free_security_eq s :
  (free_security s = Some NEA1 → ∃ a, security_context s = Some (Ctx a) ∧ a ∈ dom (ctxs s)) →
  call_free_security s = Ok (s <| ctxs := security_freed s |>).
Proof.
  unfold call_free_security, security_freed. intros H.
  destruct (free_security s) as [[|] |]; [| by destruct s..].
  destruct H as (a & Ha & Hin); [done |]. rewrite Ha. by apply free_context_ok.
Qed.

Lemma owned_live s :
  sec_ok s →
  (free_integrity s ≠ None → ∃ a, integrity_context s = Some (Ctx a) ∧ a ∈ dom (ctxs s)) ∧
  (free_security s = Some NEA1 → ∃ a, security_context s = Some (Ctx a) ∧ a ∈ dom (ctxs s)).
Proof.
  intros [H1 _ H3 _ H5 _ _]. unfold owned_security, owned_integrity in H5. split.
  - intros Hf. destruct (H3 Hf) as (_ & a & Ha). exists a. split; [done |].
    rewrite H5, Ha. destruct (free_integrity s); [set_solver | done].
  - intros Hf. rewrite Hf in *. destruct H1 as (a & Ha). exists a. split; [done |]. rewrite H5, Ha. set_solver.
Qed.

Lemma freed_dom s :
  sec_ok s → dom (integrity_freed s) = owned_security s ∧ dom (security_freed s) = owned_integrity s.
Proof.
  intros [_ _ _ _ Hd Hj _]. unfold integrity_freed, security_freed, owned_security, owned_integrity in *.
  destruct (free_integrity s), (integrity_context s) as [[|] |], (free_security s) as [[|] |],
    (security_context s) as [[|] |]; rewrite ?dom_delete_L, Hd; set_solver.
Qed.

Lemma store_keys_ok p s : sec_ok s → sec_ok (store_keys p s).
Proof. intros []. unfold store_keys. destruct (_ =? _), (_ =? _); by constructor. Qed.

(** The invariant, from the contexts owned for each purpose. *)
Lemma sec_ok_intro s A B :
  owned_security s = A → owned_integrity s = B → dom (ctxs s) = A ∪ B → A ## B →
  (∀ a, a ∈ A ∪ B → (a < next_ctx s)%nat) →
  match free_security s with
  | Some NEA1 => ∃ a, security_context s = Some (Ctx a)
  | Some NEA2 => security_context s = Some Ctx_ciphering_key
  | None => True
  end →
  (free_security s ≠ None → cipher s = free_security s ∧ decipher s = free_security s) →
  (free_integrity s ≠ None → integrity s = free_integrity s ∧ ∃ a, integrity_context s = Some (Ctx a)) →
  (has_ciphering s = true → free_security s ≠ None) → (has_integrity s = true → free_integrity s ≠ None) →
  sec_ok s.
Proof. intros <- <- Hd Hj Hf H1 H2 H3 H4 H5. constructor; try done. by rewrite Hd. Qed.

Lemma set_integrity_ok alg s : sec_ok s → alg ∈ [-1; 0; 1; 2] → ∃ s', set_integrity alg s = Ok s' ∧ sec_ok s'.
Proof.
  intros Hok Ha. destruct (owned_live s Hok) as [Hl _]. destruct (freed_dom s Hok) as [Hm _].
  unfold set_integrity. rewrite !call_free_integrity_eq by exact Hl.
  destruct Hok as [H1 H2 H3 [H4 H5] H6 H7 H8].
  assert (Hfresh : ∀ a, a ∈ owned_security s → (a < next_ctx s)%nat) by (intros a Hin; apply H8; set_solver).
  assert (Hn : {[next_ctx s]} ## owned_security s).
  { apply disjoint_singleton_l. intros Hin. specialize (Hfresh _ Hin). lia. }
  assert (Hstart : ∀ k (m : gmap nat bytes), dom m = owned_security s →
            dom (<[next_ctx s := k]> m) = owned_security s ∪ {[next_ctx s]}).
  { intros k m E. rewrite dom_insert_L, E. set_solver. }
  assert (Hlt : ∀ a, a ∈ owned_security s ∪ {[next_ctx s]} → (a < S (next_ctx s))%nat).
  { intros a [Hin | ->%elem_of_singleton]%elem_of_union; [specialize (Hfresh _ Hin) |]; lia. }
  assert (Hnone : ∀ m : gmap nat bytes, dom m = owned_security s → dom m = owned_security s ∪ ∅) by set_solver.
  repeat (apply elem_of_cons in Ha as [-> | Ha]); try (by apply elem_of_nil in Ha); simpl;
    (eexists; split; [reflexivity |]).
  - by constructor.
  - apply (sec_ok_intro _ (owned_security s) ∅);
      first [done | by apply Hnone | set_solver | intros a Hin; apply Hfresh; set_solver].
  - apply (sec_ok_intro _ (owned_security s) {[next_ctx s]}); first [done | by apply Hstart | by eauto | by symmetry].
  - apply (sec_ok_intro _ (owned_security s) {[next_ctx s]}); first [done | by apply Hstart | by eauto | by symmetry].
Qed.

Lemma set_ciphering_ok alg s : sec_ok s → alg ∈ [-1; 0; 1; 2] → ∃ s', set_ciphering alg s = Ok s' ∧ sec_ok s'.
Proof.
  intros Hok Ha. destruct (owned_live s Hok) as [_ Hl]. destruct (freed_dom s Hok) as [_ Hm].
  unfold set_ciphering. rewrite !call_free_security_eq by exact Hl.
  destruct Hok as [H1 H2 H3 [H4 H5] H6 H7 H8].
  assert (Hfresh : ∀ a, a ∈ owned_integrity s → (a < next_ctx s)%nat) by (intros a Hin; apply H8; set_solver).
  assert (Hn : {[next_ctx s]} ## owned_integrity s).
  { apply disjoint_singleton_l. intros Hin. specialize (Hfresh _ Hin). lia. }
  assert (Hstart : ∀ k (m : gmap nat bytes), dom m = owned_integrity s →
            dom (<[next_ctx s := k]> m) = {[next_ctx s]} ∪ owned_integrity s).
  { intros k m E. by rewrite dom_insert_L, E. }
  assert (Hlt : ∀ a, a ∈ {[next_ctx s]} ∪ owned_integrity s → (a < S (next_ctx s))%nat).
  { intros a [->%elem_of_singleton | Hin]%elem_of_union; [| specialize (Hfresh _ Hin)]; lia. }
  assert (Hnone : ∀ m : gmap nat bytes, dom m = owned_integrity s → dom m = ∅ ∪ owned_integrity s) by set_solver.
  repeat (apply elem_of_cons in Ha as [-> | Ha]); try (by apply elem_of_nil in Ha); simpl;
    (eexists; split; [reflexivity |]).
  - by constructor.
  - apply (sec_ok_intro _ ∅ (owned_integrity s));
      first [done | by apply Hnone | set_solver | intros a Hin; apply Hfresh; set_solver].
  - apply (sec_ok_intro _ {[next_ctx s]} (owned_integrity s)); first [done | by apply Hstart | by eexists].
  - apply (sec_ok_intro _ ∅ (owned_integrity s));
      first [done | by apply Hnone | set_solver | intros a Hin; apply Hfresh; set_solver].
Qed.

Lemma set_security_ok p s : sec_ok s → supported p → ∃ s', set_security p s = Ok s' ∧ sec_ok s'.
Proof.
  intros Hok [H1 H2]. unfold set_security.
  destruct (set_integrity_ok _ _ (store_keys_ok p s Hok) H1) as (s1 & E1 & Ok1). rewrite E1. cbn [mbind res_bind].
  by apply set_ciphering_ok.
Qed.

Lemma no_security_ok : sec_ok no_security.
Proof. apply (sec_ok_intro _ ∅ ∅); try done; set_solver. Qed.

(** Deletion frees what is allocated. *)
Lemma delete_contexts `{StreamSecurity} e : sec_ok (security e) → nr_pdcp_entity_delete e = Ok ∅.
Proof.
  intros Hok. unfold nr_pdcp_entity_delete. assert (Hs : security (free_rx_list e) = security e).
  { unfold free_rx_list. simpl. generalize (rx_list e). intros l. revert e Hok.
    induction l as [| x l IH]; intros e Hok; simpl; [done |]. by rewrite IH. }
  rewrite Hs. destruct (owned_live _ Hok) as [Hi Hc]. destruct (freed_dom _ Hok) as [_ Hm].
  rewrite call_free_security_eq by exact Hc. cbn [mbind res_bind].
  rewrite call_free_integrity_eq; simpl.
  - f_equal. apply dom_empty_inv_L. revert Hm Hi. unfold integrity_freed, owned_integrity. simpl.
    destruct (free_integrity (security e)) as [f |]; [| done]. intros Hm Hi. destruct (Hi ltac:(done)) as (a & Ha & _). rewrite Ha in *.
    rewrite dom_delete_L, Hm. set_solver.
  - intros Hf. destruct (Hi Hf) as (a & Ha & _). exists a. split; [done |]. rewrite Hm. unfold owned_integrity.
    rewrite Ha. destruct (free_integrity (security e)); [set_solver | done].
Qed.

(** ** Using the algorithms *)

Lemma slice_app {A} (a b c : list A) : slice (a ++ b ++ c) (zlen a) (zlen b) = Some b.
Proof.
  pose proof (zlen_nonneg a). pose proof (zlen_nonneg b). pose proof (zlen_nonneg c).
  rewrite slice_Some by (rewrite ?zlen_app; lia). unfold zlen. rewrite !Nat2Z.id.
  by rewrite drop_app_length, take_app_length.
Qed.

Lemma memcpy_app (a b b' c : bytes) :
  zlen b' = zlen b → memcpy (a ++ b ++ c) (zlen a) b' 0 (zlen b) = Ok (a ++ b' ++ c).
Proof.
  intros Hb. pose proof (zlen_nonneg a). pose proof (zlen_nonneg b). pose proof (zlen_nonneg c).
  rewrite memcpy_Ok by (rewrite ?zlen_app; lia). f_equal. rewrite drop_0. rewrite <- Hb at 1. rewrite take_zlen.
  unfold zlen in *. rewrite Nat2Z.id, take_app_length. do 2 f_equal.
  rewrite <- Nat2Z.inj_add, Nat2Z.id, app_assoc, <- length_app. apply drop_app_length.
Qed.

(** A buffer cut in three. *)
Lemma split3 (buf : bytes) off len :
  0 <= off → 0 <= len → off + len <= zlen buf →
  ∃ a b c, buf = a ++ b ++ c ∧ zlen a = off ∧ zlen b = len.
Proof.
  intros H1 H2 H3. exists (take (Z.to_nat off) buf), (take (Z.to_nat len) (drop (Z.to_nat off) buf)),
    (drop (Z.to_nat len) (drop (Z.to_nat off) buf)).
  rewrite !take_drop. unfold zlen in *. rewrite !length_take, length_drop. split_and!; [done | lia | lia].
Qed.

(** The algorithm and the key an entity ciphers, or computes MACs, with. *)
Definition ciphering_with (s : security_t) : option (nea_t * bytes) :=
  if has_ciphering s then
    match decipher s, context_key s (security_context s) with Some f, Ok k => Some (f, k) | _, _ => None end
  else None.
Definition integrity_with (s : security_t) : option (nia_t * bytes) :=
  if has_integrity s then
    match integrity s, context_key s (integrity_context s) with Some f, Ok k => Some (f, k) | _, _ => None end
  else None.

Lemma ciphering_ready s :
  sec_ok s → has_ciphering s = true →
  ∃ f k, ciphering_with s = Some (f, k) ∧ cipher s = Some f ∧ decipher s = Some f ∧
         context_key s (security_context s) = Ok k.
Proof.
  intros Hok Hh. destruct (owned_live s Hok) as [_ Hl]. destruct Hok as [H1 H2 _ [H4 _] _ _ _].
  specialize (H4 Hh). destruct (H2 H4) as [Hc Hd]. unfold ciphering_with. rewrite Hh, Hc, Hd.
  destruct (free_security s) as [[|] |]; [| | done].
  - destruct (Hl eq_refl) as (a & Ha & Hin). rewrite Ha. simpl. apply elem_of_dom in Hin as [k Hk].
    rewrite Hk. simpl. by exists NEA1, k.
  - rewrite H1. simpl. by exists NEA2, (ciphering_key (keys s)).
Qed.

Lemma integrity_ready s :
  sec_ok s → has_integrity s = true →
  ∃ f k, integrity_with s = Some (f, k) ∧ integrity s = Some f ∧ context_key s (integrity_context s) = Ok k.
Proof.
  intros Hok Hh. destruct (owned_live s Hok) as [Hl _]. destruct Hok as [_ _ H3 [_ H4] _ _ _].
  specialize (H4 Hh). destruct (H3 H4) as [Hc _]. destruct (Hl H4) as (a & Ha & Hin). unfold integrity_with.
  rewrite Hh, Hc, Ha. simpl. apply elem_of_dom in Hin as [k Hk]. rewrite Hk. simpl.
  destruct (free_integrity s) as [f |]; [| done]. by exists f, k.
Qed.

Lemma cipher_at_app `{StreamSecurity} s f k a b b' c off len rb count dir :
  context_key s (security_context s) = Ok k → zlen a = off → zlen b = len →
  ss_cipher f k b rb count dir = Ok b' → zlen b' = zlen b →
  cipher_at s (Some f) (a ++ b ++ c) off len rb count dir = Ok (a ++ b' ++ c).
Proof.
  intros Hk <- <- Hc Hl. unfold cipher_at. cbn [deref mbind res_bind]. rewrite Hk, slice_app.
  cbn [deref mbind res_bind]. rewrite Hc. cbn [mbind res_bind]. by apply memcpy_app.
Qed.

(** Deciphering is defined on every part that is not empty. *)
Lemma cipher_at_total `{StreamSecurityLaws} s f k buf off len rb count dir :
  context_key s (security_context s) = Ok k → 0 <= off → 0 < len < 2 ^ 28 → off + len <= zlen buf →
  1 <= rb <= 31 → dir = 0 ∨ dir = 1 →
  ∃ buf', cipher_at s (Some f) buf off len rb count dir = Ok buf' ∧ zlen buf' = zlen buf.
Proof.
  intros Hk Ho Hl Hb Hrb Hd. destruct (split3 buf off len) as (a & b & c & -> & Ha & Hbl); [lia.. |].
  destruct (ss_cipher_twice f k b rb count dir) as (b' & Hc & Hl' & _); [split; [lia | done] |].
  exists (a ++ b' ++ c). rewrite !zlen_app, Hl'. split; [by apply (cipher_at_app s f k a b b' c) | done].
Qed.
