(* ===== verification/PdcpTransfer.v ===== *)
(** * NR PDCP entity: reception, and the transfer to the peer

    COUNT reconstruction, and the safety of reception.

    Then: from an entity to its peer.
    The PDU an entity makes of an SDU, and what its peer (same bearer, same keys, the other
    direction) recovers from it. *)

From S2P Require Import Prelude Snow3gRef PdcpSecurity PdcpEntity PdcpRx.

(** ** COUNT *)

Lemma PDCP_SN_mod e c : pdcp_config e → PDCP_SN e c = c mod 2 ^ sn_size e.
Proof.
  intros [Hs Hm _]. unfold PDCP_SN. rewrite Hm. replace (2 ^ sn_size e - 1) with (Z.ones (sn_size e)).
  - apply Z.land_ones. unfold SHORT_SN_SIZE, LONG_SN_SIZE in Hs. lia.
  - rewrite Z.ones_equiv. lia.
Qed.

Lemma PDCP_HFN_div e c : pdcp_config e → PDCP_HFN e c = c / 2 ^ sn_size e.
Proof. intros [Hs _ _]. apply Z.shiftr_div_pow2. unfold SHORT_SN_SIZE, LONG_SN_SIZE in Hs. lia. Qed.

(** [(hfn << n) | sn]. *)
Lemma lor_shift h n sn : 0 <= n → 0 <= sn < 2 ^ n → Z.lor (Z.shiftl h n) sn = h * 2 ^ n + sn.
Proof.
  intros Hn Hsn. rewrite <- Z.shiftl_mul_pow2 by lia. symmetry. apply Z.add_nocarry_lor.
  apply Z.bits_inj'. intros i Hi. rewrite Z.land_spec, Z.bits_0. destruct (Z.lt_ge_cases i n).
  - by rewrite Z.shiftl_spec_low.
  - rewrite (bits_high sn n) by lia. apply andb_false_r.
Qed.

Lemma compose_eq e hfn sn :
  pdcp_config e → 0 <= hfn → 0 <= sn < 2 ^ sn_size e → hfn * 2 ^ sn_size e < 2 ^ 32 →
  Z.lor (u32 (Z.shiftl hfn (sn_size e))) sn = hfn * 2 ^ sn_size e + sn.
Proof.
  intros [Hs _ _] Hh Hsn Hb. unfold SHORT_SN_SIZE, LONG_SN_SIZE in Hs. pose proof (Z.pow_nonneg 2 (sn_size e)).
  rewrite <- lor_shift by lia. unfold u32. rewrite Z.mod_small; [done |].
  rewrite Z.shiftl_mul_pow2 by lia. nia.
Qed.

(** The arithmetic of the window, for SNs of [m = 2 * w] values. *)
Lemma hfn_window m w d c :
  m = 2 * w → (w = 2048 ∨ w = 131072) → 0 <= d < 2 ^ 32 → 0 <= c < 2 ^ 32 → d - w <= c < d + w →
  (if c mod m <? d mod m - w then u32 (d / m + 1)
   else if d mod m + w <=? c mod m then u32 (d / m - 1) else d / m) = c / m.
Proof.
  intros -> Hw Hd Hc Hwin. unfold u32. change (2 ^ 32) with 4294967296 in *.
  destruct Hw as [-> | ->]; [change (2 * 2048) with 4096 | change (2 * 131072) with 262144];
    repeat match goal with
    | |- context [Z.ltb ?a ?b] => destruct (Z.ltb_spec a b)
    | |- context [Z.leb ?a ?b] => destruct (Z.leb_spec a b)
    end; zdiv_lia.
Qed.

Lemma window_sizes e :
  pdcp_config e → 0 < sn_size e ∧ 2 ^ sn_size e = 2 * window_size e ∧ (window_size e = 2048 ∨ window_size e = 131072).
Proof.
  intros [[H | H] _ ->]; rewrite H; (split; [reflexivity |]); (split; [reflexivity |]); [by left | by right].
Qed.

Lemma rcvd_count_window e c :
  pdcp_config e → 0 <= rx_deliv e < 2 ^ 32 → 0 <= c < 2 ^ 32 →
  rx_deliv e - window_size e <= c < rx_deliv e + window_size e →
  get_rcvd_count e (PDCP_SN e c) = c.
Proof.
  intros Hcfg Hd Hc Hw. destruct (window_sizes e Hcfg) as (Hs & Hm & Hv).
  assert (Hh : get_rcvd_hfn e (PDCP_SN e c) = c / 2 ^ sn_size e).
  { unfold get_rcvd_hfn. rewrite !PDCP_SN_mod, PDCP_HFN_div by done. by apply hfn_window. }
  unfold get_rcvd_count. rewrite Hh, PDCP_SN_mod by done.
  pose proof (Z.mod_pos_bound c (2 ^ sn_size e) ltac:(lia)).
  rewrite compose_eq; [| done | apply Z.div_pos; lia | done |];
    pose proof (Z.div_mod c (2 ^ sn_size e) ltac:(lia)); lia.
Qed.

(** An entity as the constructor and its operations leave it. *)
Record pdcp_wf (e : nr_pdcp_entity_t) : Prop := {
  wf_config : pdcp_config e;
  wf_rx : pdcp_rx_ok e;
  wf_security : sec_ok (security e);
  wf_rb : 1 <= rb_id e <= 31;
  wf_tx : 0 <= tx_next e < 2 ^ 32
}.

(** ** Reception never fails *)

Lemma wf_stats e f : pdcp_wf e → pdcp_wf (e <| stats ::= f |>).
Proof. intros [[] [] ? ? ?]. split; done || by constructor. Qed.

Lemma wf_frame e e' : rx_frame e e' → pdcp_rx_ok e' → pdcp_wf e → pdcp_wf e'.
Proof.
  intros Hf Hrx [Hc _ Hs Hrb Htx]. split; [by eapply pdcp_config_frame | done | | | ].
  - by rewrite (proj1 (rf_security _ _ Hf)).
  - by rewrite (rf_rb _ _ Hf).
  - by rewrite (rf_tx _ _ Hf).
Qed.

Section reception.
Context `{StreamSecurityLaws}.

(** The first byte of a buffer. *)
Lemma head_split (buffer : bytes) : 3 <= zlen buffer → ∃ b0 b1 b2 r, buffer = b0 :: b1 :: b2 :: r.
Proof. unfold zlen. destruct buffer as [| b0 [| b1 [| b2 r]]]; simpl; [lia.. |]. by exists b0, b1, b2, r. Qed.

Lemma read_header_ok e buffer :
  pdcp_config e → Forall is_byte buffer → 3 <= zlen buffer →
  ∃ sn h, read_header e buffer = Ok (sn, h) ∧ 0 <= sn < 2 ^ sn_size e ∧ (h = 2 ∨ h = 3).
Proof.
  intros Hcfg Hb Hl. destruct (head_split buffer Hl) as (b0 & b1 & b2 & r & ->).
  apply Forall_cons in Hb as [Hb0 Hb].
  apply Forall_cons in Hb as [Hb1 Hb]. apply Forall_cons in Hb as [Hb2 _].
  unfold read_header. cbn [znth deref mbind res_bind]. simpl. unfold is_byte in *.
  assert (Hand : ∀ x k n, 0 <= k → 0 <= n → 0 <= Z.shiftl (Z.land x (Z.ones k)) n < 2 ^ (k + n)).
  { intros x k n Hk Hn. rewrite Z.land_ones, Z.shiftl_mul_pow2, Z.pow_add_r by lia.
    pose proof (Z.mod_pos_bound x (2 ^ k)). pose proof (Z.pow_pos_nonneg 2 n). pose proof (Z.pow_pos_nonneg 2 k). nia. }
  destruct Hcfg as [[Hs | Hs] _ _]; rewrite Hs; cbn [Z.eqb]; (do 2 eexists; (split; [reflexivity |]); (split; [| by auto])).
  - apply (lor_bound _ _ 12); [lia | exact (Hand b0 4 8 ltac:(lia) ltac:(lia)) | lia].
  - apply (lor_bound _ _ 18); [lia | | lia]. apply (lor_bound _ _ 18); [lia | exact (Hand b0 2 16 ltac:(lia) ltac:(lia)) |].
    rewrite Z.shiftl_mul_pow2 by lia. lia.
Qed.

(** Setting the D/C bit does not change the SN. *)
Lemma read_header_dc e b0 r : read_header e (Z.lor b0 128 :: r) = read_header e (b0 :: r).
Proof.
  unfold read_header. cbn [znth]. simpl. rewrite !Z.land_lor_distr_l. simpl (Z.land 128 _).
  by rewrite !Z.lor_0_r.
Qed.

Lemma integrity_ok_total e buffer size c :
  sec_ok (security e) → 1 <= rb_id e <= 31 → 0 < size - integrity_size e → size <= zlen buffer → size < 2 ^ 28 →
  ∃ b, integrity_ok e buffer size c = Ok b.
Proof.
  intros Hs Hrb Hpos Hsz Hmax. unfold integrity_ok. destruct (has_integrity (security e)) eqn:Hi; [| by eexists].
  destruct (integrity_ready _ Hs Hi) as (f & k & _ & Hf & Hk).
  assert (Hisz : integrity_size e = 4) by (unfold integrity_size, has_mac; by rewrite Hi).
  rewrite Hisz in Hpos |- *. rewrite (slice_Some _ 0 (size - 4)) by lia. cbn [deref mbind res_bind]. unfold integrity_of. rewrite Hf, Hk.
  cbn [deref mbind res_bind]. set (m := take _ _).
  assert (Hm : zlen m = size - 4) by (subst m; unfold zlen in *; rewrite length_take, length_drop; lia).
  destruct (ss_integrity_mac f k m (rb_id e) c (rx_direction e)) as (mac & -> & Hl).
  - split; [lia |]. split; [done |]. unfold rx_direction. destruct (is_gnb e); auto.
  - cbn [mbind res_bind]. unfold PDCP_INTEGRITY_SIZE. rewrite slice_Some by lia. by eexists.
Qed.

(** What [recv_data] does with a PDU: discard it, or store the SDU it has found. *)
Lemma recv_data_cases e buffer size sn h :
  sec_ok (security e) → 1 <= rb_id e <= 31 → h = 2 ∨ h = 3 →
  h + b2z (has_sdap_rx e) + integrity_size e + 1 <= size → size <= zlen buffer → size < 2 ^ 28 →
  ∃ e', recv_data e buffer size sn h = Ok e' ∧
    (e' = discard_pdu size e ∨
     ∃ sdu, e' = store_and_deliver e sdu size h ∧ sdu_count sdu = get_rcvd_count e sn ∧
       rx_deliv e <= sdu_count sdu ∧ (sdu_count sdu ∉ counts (rx_list e)) ∧
       (has_mac e = true → id_count (sdu_integrity sdu) = sdu_count sdu)).
Proof.
  intros Hs Hrb Hh Hsz Hbuf Hmax. unfold recv_data. set (c := get_rcvd_count e sn).
  assert (Hi : 0 <= integrity_size e <= 4).
  { unfold integrity_size, PDCP_INTEGRITY_SIZE. destruct (has_mac e); lia. }
  assert (Hsd : 0 <= b2z (has_sdap_rx e) <= 1) by (destruct (has_sdap_rx e); simpl; lia).
  assert (Hm : ∃ i, ((if has_mac e then
      mac ← deref (slice buffer (size - 4) 4); header ← deref (slice buffer 0 h);
      Ok (mk_integrity c mac h (header ++ drop (Z.to_nat h) [0; 0; 0])) else Ok no_integrity) = Ok i) ∧
      (has_mac e = true → id_count i = c)).
  { destruct (has_mac e) eqn:Hmac; [| by eexists]. unfold integrity_size, PDCP_INTEGRITY_SIZE in *.
    rewrite Hmac in *. rewrite !slice_Some by lia. by eexists. }
  destruct Hm as (i & -> & Hi'). cbn [mbind res_bind].
  assert (Hc : ∃ buf, ((if has_ciphering (security e)
      then cipher_at (security e) (decipher (security e)) buffer (h + b2z (has_sdap_rx e))
             (size - (h + b2z (has_sdap_rx e))) (rb_id e) c (rx_direction e)
      else Ok buffer) = Ok buf) ∧ zlen buf = zlen buffer).
  { destruct (has_ciphering (security e)) eqn:Hci; [| by eexists].
    destruct (ciphering_ready _ Hs Hci) as (f & k & _ & _ & Hd & Hk). rewrite Hd.
    apply (cipher_at_total _ f k); try done; try lia. unfold rx_direction. destruct (is_gnb e); auto. }
  destruct Hc as (buf & -> & Hbl). cbn [mbind res_bind].
  destruct (integrity_ok_total e buf size c) as (ok & Hok); [done | done | lia | lia | done |].
  rewrite Hok. cbn [mbind res_bind]. destruct ok; [| eexists; split; [done |]; by left]. simpl.
  destruct ((c <? rx_deliv e) || nr_pdcp_sdu_in_list (rx_list e) c) eqn:Hdup; [eexists; split; [done |]; by left |].
  apply orb_false_iff in Hdup as [Hge%Z.ltb_ge Hnin].
  unfold nr_pdcp_new_sdu. rewrite slice_Some by lia. cbn [deref mbind res_bind].
  eexists. split; [done |]. right. eexists. split; [done |]. split; [done |]. split; [done |].
  split; [intros Hin%in_list_spec; simpl in Hin; congruence | exact Hi'].
Qed.

(** The PDUs considered: bytes in a buffer of at least three, and not the last COUNT of all. *)
Definition pdu_in (e : nr_pdcp_entity_t) (buffer : bytes) (size : Z) : Prop :=
  Forall is_byte buffer ∧ 3 <= zlen buffer ∧ size <= zlen buffer ∧ size < 2 ^ 28 ∧
  (∀ sn h, read_header e buffer = Ok (sn, h) → get_rcvd_count e sn < 2 ^ 32 - 1).

(** What [recv_pdu] does: count the PDU and drop it, or store a new SDU. *)
Lemma recv_pdu_cases e buffer size :
  pdcp_wf e → pdu_in e buffer size →
  ∃ e' f, nr_pdcp_entity_recv_pdu e buffer size = Ok e' ∧
    (e' = e ∨ e' = e <| stats ::= f |> ∨
     ∃ sdu h, e' = store_and_deliver (e <| stats ::= f |>) sdu size h ∧
       rx_deliv e <= sdu_count sdu < 2 ^ 32 - 1 ∧ (sdu_count sdu ∉ counts (rx_list e)) ∧
       (has_mac e = true → id_count (sdu_integrity sdu) = sdu_count sdu)).
Proof.
  intros Hwf (Hb & Hlen & Hsz & Hmax & Hcnt). unfold nr_pdcp_entity_recv_pdu.
  destruct (entity_suspended e); [exists e, id; auto |]. destruct (size <? 1); [exists e, id; auto |].
  destruct (read_header_ok e buffer) as (sn & h & Hrh & Hsn & Hh); [apply Hwf | done | done |].
  destruct (head_split buffer Hlen) as (b0 & b1 & b2 & r & ->).
  change (znth (b0 :: b1 :: b2 :: r) 0) with (Some b0). cbn [deref mbind res_bind].
  assert (Hbuf : ∃ buf, ((if negb (bool_decide (type e = NR_PDCP_SRB)) && (Z.land b0 0x80 =? 0)
            then zset (b0 :: b1 :: b2 :: r) 0 (Z.lor b0 128) else Ok (b0 :: b1 :: b2 :: r)) = Ok buf) ∧
            read_header e buf = Ok (sn, h) ∧ zlen buf = zlen (b0 :: b1 :: b2 :: r)).
  { destruct (_ && _); [| by eexists]. rewrite zset_Ok by (unfold zlen; simpl; lia). simpl.
    eexists. split; [done |]. by rewrite read_header_dc. }
  destruct Hbuf as (buf & -> & Hrh2 & Hl). cbn [mbind res_bind].
  set (e1 := stat rxpdu_bytes size (stat rxpdu_pkts 1 e)).
  assert (Hrh1 : read_header e1 buf = Ok (sn, h)) by exact Hrh2. rewrite Hrh1. cbn [mbind res_bind].
  set (f := λ s, modify_field rxpdu_sn (λ _, sn) (incr32 rxpdu_bytes size (incr32 rxpdu_pkts 1 s))).
  change (e1 <| stats ::= λ s, s <| rxpdu_sn := sn |> |>) with (e <| stats ::= f |>).
  set (dd := λ s, incr32 rxpdu_dd_bytes size (incr32 rxpdu_dd_pkts 1 (f s))).
  assert (Hdd : discard_pdu size (e <| stats ::= f |>) = e <| stats ::= dd |>) by done.
  set (e2 := e <| stats ::= f |>) in *.
  destruct (Z.ltb_spec size (h + b2z (has_sdap_rx e2) + integrity_size e2 + 1)) as [| Hge].
  { exists (discard_pdu size e2), dd. split; [done |]. right. by left. }
  destruct (recv_data_cases e2 buf size sn h) as (e' & Hr & Hcase); [apply Hwf | apply Hwf | done | lia | lia | done |].
  exists e'. destruct Hcase as [-> | (sdu & -> & Hc & Hge' & Hni & Hid)].
  - exists dd. split; [done |]. right. by left.
  - exists f. split; [done |]. right; right. exists sdu, h. split; [done |].
    rewrite Hc. split; [| by rewrite <- Hc]. rewrite <- Hc. split; [exact Hge' |]. rewrite Hc. exact (Hcnt sn h Hrh).
Qed.

Lemma recv_pdu_wf e buffer size :
  pdcp_wf e → t_current e ≠ 0 → pdu_in e buffer size →
  ∃ e', nr_pdcp_entity_recv_pdu e buffer size = Ok e' ∧ pdcp_wf e'.
Proof.
  intros Hwf Ht Hin. destruct (recv_pdu_cases e buffer size Hwf Hin) as (e' & f & -> & Hc). exists e'. split; [done |].
  destruct Hc as [-> | [-> | (sdu & h & -> & Hc & Hni & _)]]; [done | by apply wf_stats |].
  pose proof (wf_stats e f Hwf) as Hwf2.
  destruct (store_and_deliver_spec (e <| stats ::= f |>) sdu size h) as (ds & rest & _ & _ & _ & _ & _ & _ & _ & Hok & Hf);
    [apply Hwf2 | done | done | done |]. by eapply wf_frame.
Qed.
End reception.

(** ** NR PDCP: from an entity to its peer *)

(** [r] is configured as the peer of [t]. *)
Record peers (t r : nr_pdcp_entity_t) : Prop := {
  pe_type : type r = type t;
  pe_rb : rb_id r = rb_id t;
  pe_sn : sn_size r = sn_size t;
  pe_side : is_gnb r = negb (is_gnb t);
  pe_sdap : has_sdap_rx r = has_sdap_tx t;
  pe_cipher : ciphering_with (security r) = ciphering_with (security t);
  pe_integrity : integrity_with (security r) = integrity_with (security t)
}.

(** [pdu] carries [sdu]: the header, the SDAP header [sh] in clear, then the rest of the SDU and
    the MAC-I, ciphered. *)
Record is_pdu `{StreamSecurity} (t : nr_pdcp_entity_t) (count : Z) (hdr sdu mac pdu : bytes) : Prop := {
  ip_mac : match integrity_with (security t) with
           | Some (f, k) => ss_integrity f k (hdr ++ sdu) (rb_id t) count (tx_direction t) = Ok mac ∧ zlen mac = 4
           | None => mac = if bool_decide (type t = NR_PDCP_SRB) then [0; 0; 0; 0] else []
           end;
  ip_body : ∃ sh sb body, sdu = sh ++ sb ∧ zlen sh = b2z (has_sdap_tx t) ∧ pdu = hdr ++ sh ++ body ∧
            match ciphering_with (security t) with
            | Some (f, k) => zlen body = zlen (sb ++ mac) ∧
                ss_cipher f k body (rb_id t) count (tx_direction t) = Ok (sb ++ mac)
            | None => body = sb ++ mac
            end
}.

Lemma integrity_with_has s : sec_ok s → has_integrity s = match integrity_with s with Some _ => true | None => false end.
Proof.
  intros Hs. destruct (has_integrity s) eqn:E.
  - by destruct (integrity_ready s Hs E) as (f & k & -> & _).
  - unfold integrity_with. by rewrite E.
Qed.

Lemma ciphering_with_has s : sec_ok s → has_ciphering s = match ciphering_with s with Some _ => true | None => false end.
Proof.
  intros Hs. destruct (has_ciphering s) eqn:E.
  - by destruct (ciphering_ready s Hs E) as (f & k & -> & _).
  - unfold ciphering_with. by rewrite E.
Qed.

(** ** Buffers *)

Lemma memcpy_at (a rest src : bytes) off n :
  zlen a = off → zlen src = n → n <= zlen rest →
  memcpy (a ++ rest) off src 0 n = Ok (a ++ src ++ drop (Z.to_nat n) rest).
Proof.
  intros <- <- Hn. assert (Hl : zlen (take (Z.to_nat (zlen src)) rest) = zlen src).
  { unfold zlen in *. rewrite length_take. lia. }
  pose proof (memcpy_app a (take (Z.to_nat (zlen src)) rest) src (drop (Z.to_nat (zlen src)) rest)) as Hm.
  rewrite Hl, take_drop in Hm. by apply Hm.
Qed.

Lemma zset_0 (x y : Z) l : zset (x :: l) 0 y = Ok (y :: l).
Proof. rewrite zset_Ok by (unfold zlen; simpl; lia). done. Qed.
Lemma zset_1 (w x y : Z) l : zset (w :: x :: l) 1 y = Ok (w :: y :: l).
Proof. rewrite zset_Ok by (unfold zlen; simpl; lia). done. Qed.
Lemma zset_2 (v w x y : Z) l : zset (v :: w :: x :: l) 2 y = Ok (v :: w :: y :: l).
Proof. rewrite zset_Ok by (unfold zlen; simpl; lia). done. Qed.

(** ** The header *)

Lemma land_dc dc x k : Z.land dc k = 0 → Z.land (Z.lor dc (Z.land x k)) k = Z.land x k.
Proof. intros Hd. by rewrite Z.land_lor_distr_l, Hd, Z.lor_0_l, <- Z.land_assoc, Z.land_diag. Qed.

(** The SN is read back from its bytes, 4 + 8 or 2 + 8 + 8 bits. *)
Lemma sn12 dc sn :
  0 <= sn < 2 ^ 12 → Z.land dc 0xf = 0 →
  Z.lor (Z.shiftl (Z.land (Z.lor dc (Z.land (Z.shiftr sn 8) 0xf)) 0xf) 8) (Z.land sn 0xff) = sn.
Proof.
  intros Hsn Hdc. rewrite land_dc by done. change 0xf with (Z.ones 4). change 0xff with (Z.ones 8).
  rewrite !Z.land_ones, Z.shiftr_div_pow2 by lia. rewrite lor_shift by (try apply Z.mod_pos_bound; lia). zdiv_lia.
Qed.

Lemma sn18 dc sn :
  0 <= sn < 2 ^ 18 → Z.land dc 0x3 = 0 →
  Z.lor (Z.lor (Z.shiftl (Z.land (Z.lor dc (Z.land (Z.shiftr sn 16) 0x3)) 0x3) 16)
               (Z.shiftl (Z.land (Z.shiftr sn 8) 0xff) 8)) (Z.land sn 0xff) = sn.
Proof.
  intros Hsn Hdc. rewrite land_dc by done. change 0x3 with (Z.ones 2). change 0xff with (Z.ones 8).
  rewrite !Z.land_ones, !Z.shiftr_div_pow2 by lia.
  set (a := (sn / 2 ^ 16) mod 2 ^ 2). set (b := (sn / 2 ^ 8) mod 2 ^ 8).
  assert (Hb : 0 <= b < 2 ^ 8) by (apply Z.mod_pos_bound; lia).
  rewrite lor_shift by (rewrite ?Z.shiftl_mul_pow2; lia).
  replace (a * 2 ^ 16 + Z.shiftl b 8) with (Z.shiftl (a * 2 ^ 8 + b) 8) by (rewrite !Z.shiftl_mul_pow2; lia).
  rewrite lor_shift by (try apply Z.mod_pos_bound; lia). subst a b. zdiv_lia.
Qed.

Lemma read_short r b0 b1 rest :
  sn_size r = SHORT_SN_SIZE →
  read_header r (b0 :: b1 :: rest) = Ok (Z.lor (Z.shiftl (Z.land b0 0xf) 8) b1, SHORT_PDCP_HEADER_SIZE).
Proof. intros Hr. unfold read_header. by rewrite Hr. Qed.

Lemma read_long r b0 b1 b2 rest :
  sn_size r = LONG_SN_SIZE →
  read_header r (b0 :: b1 :: b2 :: rest) =
    Ok (Z.lor (Z.lor (Z.shiftl (Z.land b0 0x3) 16) (Z.shiftl b1 8)) b2, LONG_PDCP_HEADER_SIZE).
Proof. intros Hr. unfold read_header. by rewrite Hr. Qed.

Lemma write_header_ok t P :
  pdcp_config t → 3 <= zlen P →
  ∃ hdr, write_header t P = Ok (zlen hdr, hdr ++ drop (length hdr) P) ∧ (zlen hdr = 2 ∨ zlen hdr = 3) ∧
    (∀ r rest, sn_size r = sn_size t → read_header r (hdr ++ rest) = Ok (PDCP_SN t (tx_next t), zlen hdr)) ∧
    (∃ b0 tl, hdr = b0 :: tl ∧ (type t ≠ NR_PDCP_SRB → Z.land b0 0x80 ≠ 0)).
Proof.
  intros Hcfg HP. destruct (head_split P HP) as (p0 & p1 & p2 & P' & ->).
  pose proof (Z.mod_pos_bound (tx_next t) (2 ^ sn_size t)) as Hsn. rewrite <- PDCP_SN_mod in Hsn by done.
  unfold write_header. set (sn := PDCP_SN t (tx_next t)) in *.
  set (dc := if bool_decide (type t = NR_PDCP_SRB) then 0 else 0x80).
  assert (Hdc : (dc = 0 ∨ dc = 128) ∧ (type t ≠ NR_PDCP_SRB → dc = 128)).
  { subst dc. case_bool_decide; split; auto. done. }
  assert (Hbit : ∀ x, type t ≠ NR_PDCP_SRB → Z.land (Z.lor dc x) 0x80 ≠ 0).
  { intros x Hx. rewrite (proj2 Hdc Hx), Z.land_lor_distr_l. change (Z.land 128 128) with 128.
    intros E%Z.lor_eq_0_iff. lia. }
  destruct Hcfg as [[Hs | Hs] _ _]; rewrite Hs in *; cbn [Z.eqb];
    change (SHORT_SN_SIZE =? SHORT_SN_SIZE) with true; change (LONG_SN_SIZE =? SHORT_SN_SIZE) with false;
    cbv iota; rewrite ?zset_0; cbn [mbind res_bind]; rewrite ?zset_1; cbn [mbind res_bind]; rewrite ?zset_2;
    cbn [mbind res_bind].
  - eexists [_; _]. split; [reflexivity |]. split; [by left |]. split; [| by do 2 eexists; eauto].
    intros r rest Hr. cbn [app]. rewrite read_short by congruence. do 2 f_equal. apply sn12; [exact (Hsn eq_refl) |].
    by destruct (proj1 Hdc) as [-> | ->].
  - eexists [_; _; _]. split; [reflexivity |]. split; [by right |]. split; [| by do 2 eexists; eauto].
    intros r rest Hr. cbn [app]. rewrite read_long by congruence. do 2 f_equal. apply sn18; [exact (Hsn eq_refl) |].
    by destruct (proj1 Hdc) as [-> | ->].
Qed.

(** ** The PDU of an SDU *)

Lemma integrity_size_with t :
  sec_ok (security t) →
  integrity_size t = match integrity_with (security t) with
                     | Some _ => 4
                     | None => if bool_decide (type t = NR_PDCP_SRB) then 4 else 0
                     end.
Proof.
  intros Hs. unfold integrity_size, has_mac. rewrite (integrity_with_has _ Hs).
  by destruct (integrity_with (security t)), (bool_decide _).
Qed.

Section transfer.
Context `{StreamSecurityLaws}.

Lemma tx_dir t : tx_direction t = 0 ∨ tx_direction t = 1.
Proof. unfold tx_direction. destruct (is_gnb t); auto. Qed.

(** The MAC-I is written after the SDU. *)
Lemma write_mac_ok t a rest count :
  sec_ok (security t) → 1 <= rb_id t <= 31 → 0 < zlen a < 2 ^ 28 → 4 <= zlen rest →
  ∃ mac, write_mac t (a ++ rest) (zlen a) count = Ok (a ++ mac ++ drop (length mac) rest) ∧
    zlen mac = integrity_size t ∧
    match integrity_with (security t) with
    | Some (f, k) => ss_integrity f k a (rb_id t) count (tx_direction t) = Ok mac ∧ zlen mac = 4
    | None => mac = if bool_decide (type t = NR_PDCP_SRB) then [0; 0; 0; 0] else []
    end.
Proof.
  intros Hs Hrb Ha Hr. rewrite integrity_size_with by done. unfold write_mac.
  rewrite (integrity_with_has _ Hs). destruct (has_integrity (security t)) eqn:Hi.
  - destruct (integrity_ready _ Hs Hi) as (f & k & Hw & Hf & Hk). rewrite Hw. rewrite slice_Some by (rewrite ?zlen_app; lia).
    cbn [deref mbind res_bind]. rewrite drop_0, take_app_length' by (unfold zlen; lia).
    unfold integrity_of. rewrite Hf, Hk. cbn [deref mbind res_bind].
    destruct (ss_integrity_mac f k a (rb_id t) count (tx_direction t)) as (mac & Hm & Hl);
      [split; [lia |]; split; [done | apply tx_dir] |].
    rewrite Hm. cbn [mbind res_bind]. exists mac. rewrite memcpy_at by (done || (unfold PDCP_INTEGRITY_SIZE; lia)).
    assert (length mac = 4%nat) as -> by (unfold zlen in Hl; lia). by split_and!.
  - unfold integrity_with at 1 2 3. rewrite Hi. unfold integrity_size, has_mac. rewrite Hi. simpl.
    destruct (bool_decide (type t = NR_PDCP_SRB)); simpl.
    + exists [0; 0; 0; 0]. rewrite memcpy_at by (done || (unfold PDCP_INTEGRITY_SIZE; lia)). by split_and!.
    + exists []. by split_and!.
Qed.

(** The part after the SDAP header is ciphered. *)
Lemma cipher_tail_ok t hdr sdu mac rest count :
  sec_ok (security t) → 1 <= rb_id t <= 31 →
  b2z (has_sdap_tx t) < zlen sdu → zlen sdu + zlen mac < 2 ^ 28 →
  let off := zlen hdr + b2z (has_sdap_tx t) in
  let len := zlen sdu + zlen mac - b2z (has_sdap_tx t) in
  ∃ pdu, (if has_ciphering (security t)
          then cipher_at (security t) (cipher (security t)) (hdr ++ sdu ++ mac ++ rest) off len (rb_id t) count (tx_direction t)
          else Ok (hdr ++ sdu ++ mac ++ rest)) = Ok (pdu ++ rest) ∧
    zlen pdu = zlen hdr + zlen sdu + zlen mac ∧
    ∃ sh sb body, sdu = sh ++ sb ∧ zlen sh = b2z (has_sdap_tx t) ∧ pdu = hdr ++ sh ++ body ∧
      match ciphering_with (security t) with
      | Some (f, k) => zlen body = zlen (sb ++ mac) ∧ ss_cipher f k body (rb_id t) count (tx_direction t) = Ok (sb ++ mac)
      | None => body = sb ++ mac
      end.
Proof.
  intros Hs Hrb Hsz Hmax off len. set (sd := b2z (has_sdap_tx t)) in *.
  assert (Hsd : 0 <= sd <= 1) by (subst sd; destruct (has_sdap_tx t); simpl; lia).
  set (sh := take (Z.to_nat sd) sdu). set (sb := drop (Z.to_nat sd) sdu).
  assert (Hsdu : sdu = sh ++ sb) by (subst sh sb; by rewrite take_drop).
  assert (Hsh : zlen sh = sd) by (subst sh; unfold zlen in *; rewrite length_take; lia).
  assert (Hsb : zlen sb = zlen sdu - sd) by (subst sb; unfold zlen in *; rewrite length_drop; lia).
  clearbody sh sb. destruct (has_ciphering (security t)) eqn:Hc.
  - destruct (ciphering_ready _ Hs Hc) as (f & k & Hw & Hf & _ & Hk). rewrite Hw, Hf. pose proof (zlen_nonneg mac).
    destruct (ss_cipher_twice f k (sb ++ mac) (rb_id t) count (tx_direction t)) as (body & Hb & Hl & Hback);
      [split; [rewrite zlen_app; lia |]; split; [done | apply tx_dir] |].
    exists (hdr ++ sh ++ body). split.
    + rewrite Hsdu. replace (hdr ++ (sh ++ sb) ++ mac ++ rest) with ((hdr ++ sh) ++ (sb ++ mac) ++ rest) by (by rewrite <- !app_assoc).
      rewrite (cipher_at_app _ f k (hdr ++ sh) (sb ++ mac) body rest); try done; rewrite ?zlen_app; try (subst off len; lia).
      by rewrite <- !app_assoc.
    + split; [rewrite !zlen_app, Hl, zlen_app; lia |]. exists sh, sb, body. by split_and!.
  - exists (hdr ++ sdu ++ mac). split; [by rewrite <- !app_assoc |]. split; [rewrite !zlen_app; lia |].
    exists sh, sb, (sb ++ mac). split_and!; [done | done | by rewrite Hsdu, <- !app_assoc |].
    unfold ciphering_with. by rewrite Hc.
Qed.

(** [process_sdu] on an entity that is not suspended. *)
Lemma process_sdu_ok t sdu P :
  pdcp_wf t → entity_suspended t = false → b2z (has_sdap_tx t) < zlen sdu < 2 ^ 20 →
  nr_max_pdcp_pdu_size (zlen sdu) <= zlen P →
  ∃ hdr mac pdu rest t',
    nr_pdcp_entity_process_sdu t sdu (zlen sdu) P (zlen P) = Ok (zlen pdu, pdu ++ rest, t') ∧
    is_pdu t (tx_next t) hdr sdu mac pdu ∧
    (zlen hdr = 2 ∨ zlen hdr = 3) ∧ zlen mac = integrity_size t ∧
    zlen pdu = zlen hdr + zlen sdu + integrity_size t ∧
    (∀ r rest, sn_size r = sn_size t → read_header r (hdr ++ rest) = Ok (PDCP_SN t (tx_next t), zlen hdr)) ∧
    (∃ b0 tl, hdr = b0 :: tl ∧ (type t ≠ NR_PDCP_SRB → Z.land b0 0x80 ≠ 0)) ∧
    tx_next t' = u32 (tx_next t + 1) ∧ pdcp_wf t'.
Proof.
  intros Hwf Hsus Hsz HP. pose proof Hwf as [Hcfg _ Hs Hrb _]. unfold nr_max_pdcp_pdu_size in HP.
  assert (LONG_PDCP_HEADER_SIZE = 3 ∧ PDCP_INTEGRITY_SIZE = 4) as [EL EI] by done. rewrite EL, EI in HP.
  assert (Hsd : 0 <= b2z (has_sdap_tx t) <= 1) by (destruct (has_sdap_tx t); simpl; lia).
  destruct (write_header_ok t P Hcfg) as (hdr & Hw & Hh & Hread & Hdc); [lia |].
  unfold nr_pdcp_entity_process_sdu. unfold nr_max_pdcp_pdu_size. rewrite EL, EI.
  decide_true (zlen sdu + 3 + 4 <=? zlen P). cbn [assert_that mbind res_bind]. rewrite Hsus.
  set (t1 := stat rxsdu_bytes (zlen sdu) (stat rxsdu_pkts 1 t)).
  change (write_header t1 P) with (write_header t P). rewrite Hw. cbn [mbind res_bind].
  assert (HR1 : zlen (drop (length hdr) P) = zlen P - zlen hdr) by (unfold zlen in *; rewrite length_drop; lia).
  rewrite (memcpy_at hdr) by (done || lia). cbn [mbind res_bind].
  set (R2 := drop (Z.to_nat (zlen sdu)) _).
  assert (HR2 : 4 <= zlen R2) by (subst R2; unfold zlen in *; rewrite length_drop; lia). clearbody R2.
  destruct (write_mac_ok t (hdr ++ sdu) R2 (tx_next t)) as (mac & Hm & Hml & Hmac);
    [done | done | rewrite zlen_app; lia | done |].
  change (write_mac t1) with (write_mac t). change (tx_next t1) with (tx_next t).
  rewrite zlen_app in Hm. rewrite app_assoc, Hm. cbn [mbind res_bind].
  destruct (cipher_tail_ok t hdr sdu mac (drop (length mac) R2) (tx_next t)) as (pdu & Hc & Hl & Hbody);
    [done | done | lia | |].
  { unfold integrity_size in Hml. destruct (has_mac t); lia. }
  rewrite <- app_assoc. rewrite Hml in Hc, Hl. change (security t1) with (security t).
  change (integrity_size t1) with (integrity_size t). change (has_sdap_tx t1) with (has_sdap_tx t).
  change (rb_id t1) with (rb_id t). change (tx_direction t1) with (tx_direction t).
  rewrite Hc. cbn [mbind res_bind]. exists hdr, mac, pdu, (drop (length mac) R2). eexists. rewrite <- Hl.
  split; [done |]. split; [by split |]. split_and!; try done.
  destruct Hwf as [[] [] ? ? ?]. split; try done; try by constructor. apply Z.mod_pos_bound. lia.
Qed.

(** ** The peer *)

Lemma peer_integrity_size t r :
  sec_ok (security t) → sec_ok (security r) → peers t r → integrity_size r = integrity_size t.
Proof. intros Ht Hr [H1 _ _ _ _ _ H2]. rewrite !integrity_size_with by done. by rewrite H1, H2. Qed.

Lemma peer_direction t r : peers t r → rx_direction r = tx_direction t.
Proof. intros [_ _ _ H1 _ _ _]. unfold rx_direction, tx_direction. rewrite H1. by destruct (is_gnb t). Qed.

(** The integrity check of the peer accepts what the sender computed. *)
Lemma peer_integrity_ok t r count hdr sdu mac :
  sec_ok (security t) → sec_ok (security r) → peers t r → zlen mac = integrity_size t →
  match integrity_with (security t) with
  | Some (f, k) => ss_integrity f k (hdr ++ sdu) (rb_id t) count (tx_direction t) = Ok mac ∧ zlen mac = 4
  | None => True
  end →
  integrity_ok r (hdr ++ sdu ++ mac) (zlen (hdr ++ sdu ++ mac)) count = Ok true.
Proof.
  intros Ht Hr Hp Hml Hmac. unfold integrity_ok. rewrite (peer_integrity_size t r), <- Hml by done.
  rewrite (integrity_with_has _ Hr). destruct (has_integrity (security r)) eqn:Hi.
  - destruct (integrity_ready _ Hr Hi) as (f & k & Hw & Hf & Hk). rewrite Hw. rewrite (pe_integrity _ _ Hp) in Hw.
    rewrite Hw in Hmac. destruct Hmac as [Hmac Hl].
    assert (E : zlen (hdr ++ sdu ++ mac) - zlen mac = zlen (hdr ++ sdu)) by (rewrite !zlen_app; lia). rewrite E.
    rewrite app_assoc. pose proof (slice_app [] (hdr ++ sdu) mac) as S1. simpl in S1.
    change (zlen []) with 0 in S1. rewrite S1. cbn [deref mbind res_bind].
    unfold integrity_of. rewrite Hf, Hk. cbn [deref mbind res_bind].
    rewrite (pe_rb _ _ Hp), (peer_direction t r), Hmac by done. cbn [mbind res_bind].
    pose proof (slice_app (hdr ++ sdu) mac []) as S2. rewrite app_nil_r in S2. unfold PDCP_INTEGRITY_SIZE.
    rewrite <- Hl. rewrite S2. cbn [deref mbind res_bind]. by rewrite bool_decide_eq_true_2.
  - unfold integrity_with. by rewrite Hi.
Qed.

(** The peer deciphers the PDU. *)
Lemma peer_decipher t r count hdr sdu mac pdu :
  sec_ok (security r) → peers t r → is_pdu t count hdr sdu mac pdu →
  (if has_ciphering (security r)
   then cipher_at (security r) (decipher (security r)) pdu (zlen hdr + b2z (has_sdap_rx r))
          (zlen pdu - (zlen hdr + b2z (has_sdap_rx r))) (rb_id r) count (rx_direction r)
   else Ok pdu) = Ok (hdr ++ sdu ++ mac).
Proof.
  intros Hr Hp [_ (sh & sb & body & -> & Hsh & -> & Hb)].
  rewrite (pe_sdap _ _ Hp), <- Hsh. rewrite (ciphering_with_has _ Hr). rewrite <- (pe_cipher _ _ Hp) in Hb.
  destruct (has_ciphering (security r)) eqn:Hc.
  - destruct (ciphering_ready _ Hr Hc) as (f & k & Hw & _ & Hd & Hk). rewrite Hw in *. destruct Hb as [Hl Hb].
    rewrite Hd. pose proof (cipher_at_app (security r) f k (hdr ++ sh) body (sb ++ mac) [] (zlen hdr + zlen sh)
      (zlen body) (rb_id r) count (rx_direction r) Hk) as Hat.
    rewrite !app_nil_r in Hat. rewrite <- !app_assoc in Hat. rewrite !zlen_app.
    replace (zlen hdr + (zlen sh + zlen body) - (zlen hdr + zlen sh)) with (zlen body) by lia.
    rewrite <- app_assoc. apply Hat; [by rewrite zlen_app | done | | done].
    by rewrite (pe_rb _ _ Hp), (peer_direction t r).
  - unfold ciphering_with in *. rewrite Hc in *. subst body. by rewrite <- !app_assoc.
Qed.

(** [recv_data] on the PDU of a new SDU stores that SDU. *)
Lemma peer_recv_data t r count hdr sdu mac pdu sn :
  sec_ok (security t) → sec_ok (security r) → peers t r → is_pdu t count hdr sdu mac pdu →
  zlen mac = integrity_size t → zlen pdu = zlen hdr + zlen sdu + integrity_size t → zlen hdr = 2 ∨ zlen hdr = 3 →
  get_rcvd_count r sn = count → rx_deliv r <= count → count ∉ counts (rx_list r) →
  ∃ i, recv_data r pdu (zlen pdu) sn (zlen hdr) =
         Ok (store_and_deliver r (mk_sdu count sdu (zlen sdu) i) (zlen pdu) (zlen hdr)).
Proof.
  intros Ht Hr Hp Hpdu Hml Hl Hh Hc Hge Hni. pose proof (zlen_nonneg sdu). pose proof (zlen_nonneg mac).
  pose proof (peer_integrity_size t r Ht Hr Hp) as Hisz. unfold recv_data. rewrite Hc.
  assert (Hi : ∃ i, (if has_mac r then
      mac ← deref (slice pdu (zlen pdu - 4) 4); header ← deref (slice pdu 0 (zlen hdr));
      Ok (mk_integrity count mac (zlen hdr) (header ++ drop (Z.to_nat (zlen hdr)) [0; 0; 0])) else Ok no_integrity) = Ok i).
  { destruct (has_mac r) eqn:Hm; [| by eexists]. unfold integrity_size in Hisz at 1. rewrite Hm in Hisz.
    unfold PDCP_INTEGRITY_SIZE in Hisz. rewrite !slice_Some by lia. by eexists. }
  destruct Hi as (i & ->). exists i. cbn [mbind res_bind].
  rewrite (peer_decipher t r count hdr sdu mac pdu) by done. cbn [mbind res_bind].
  assert (Hl2 : zlen pdu = zlen (hdr ++ sdu ++ mac)) by (rewrite !zlen_app; lia). rewrite Hl2 at 1.
  destruct Hpdu as [Hmac _].
  rewrite (peer_integrity_ok t r count hdr sdu mac); [| done | done | done | done | by destruct (integrity_with _) as [[]|]].
  cbn [mbind res_bind negb]. decide_false (count <? rx_deliv r).
  assert (nr_pdcp_sdu_in_list (rx_list r) count = false) as ->.
  { apply not_true_is_false. by rewrite in_list_spec. }
  simpl orb. cbv iota. unfold nr_pdcp_new_sdu. rewrite Hisz.
  replace (zlen pdu - zlen hdr - integrity_size t) with (zlen sdu) by lia. by rewrite slice_app.
Qed.

(** The reception of that PDU, up to [recv_data]. *)
Lemma peer_recv_pdu r hdr rest size sn b0 tl :
  entity_suspended r = false → 0 < size → hdr = b0 :: tl → (type r ≠ NR_PDCP_SRB → Z.land b0 0x80 ≠ 0) →
  (∀ r', sn_size r' = sn_size r → read_header r' (hdr ++ rest) = Ok (sn, zlen hdr)) →
  zlen hdr + b2z (has_sdap_rx r) + integrity_size r + 1 <= size →
  ∃ f, nr_pdcp_entity_recv_pdu r (hdr ++ rest) size = recv_data (r <| stats ::= f |>) (hdr ++ rest) size sn (zlen hdr).
Proof.
  intros Hsus Hsz -> Hdc Hread Hlen. unfold nr_pdcp_entity_recv_pdu. rewrite Hsus. decide_false (size <? 1).
  change (znth ((b0 :: tl) ++ rest) 0) with (Some b0). cbn [deref mbind res_bind].
  assert (negb (bool_decide (type r = NR_PDCP_SRB)) && (Z.land b0 0x80 =? 0) = false) as ->.
  { case_bool_decide as E; [done |]. simpl. apply Z.eqb_neq. by apply Hdc. }
  cbn [mbind res_bind]. rewrite Hread by done. cbn [mbind res_bind].
  set (r1 := (stat _ _ _) <| stats ::= _ |>).
  change (integrity_size r1) with (integrity_size r). change (has_sdap_rx r1) with (has_sdap_rx r).
  decide_false (size <? zlen (b0 :: tl) + b2z (has_sdap_rx r) + integrity_size r + 1).
  by exists (λ s, modify_field rxpdu_sn (λ _, sn) (incr32 rxpdu_bytes size (incr32 rxpdu_pkts 1 s))).
Qed.
End transfer.

