(* ===== verification/PdcpTheorems.v ===== *)
(** * NR PDCP entity: t-Reordering and sequences of operations

    Then: NR PDCP entity: theorems over sequences of operations. *)

From S2P Require Import Prelude Snow3gRef PdcpSecurity PdcpEntity PdcpRx PdcpTransfer.

(** ** Expiry of t-Reordering *)

Definition t_reordering_expired (e : nr_pdcp_entity_t) : Prop :=
  t_reordering e ≠ -1 ∧ t_reordering_start e ≠ 0 ∧ u64 (t_reordering_start e + t_reordering e) < t_current e.

Section timer.
Context `{StreamSecurity}.

Lemma update_timer_stopped e :
  t_reordering_start e = 0 →
  update_t_reordering e = if rx_deliv e <? rx_next e
                          then e <| rx_reord := rx_next e |> <| t_reordering_start := t_current e |> else e.
Proof. intros Ht. unfold update_t_reordering. rewrite Ht. simpl (negb _ && _). cbv iota zeta. by rewrite Ht. Qed.

Lemma check_t_idle e : ¬ t_reordering_expired e → check_t_reordering e = e.
Proof.
  intros Hn. unfold check_t_reordering, t_reordering_expired in *.
  destruct (Z.eqb_spec (t_reordering e) (-1)); [done |].
  destruct (Z.eqb_spec (t_reordering_start e) 0); [done |]. simpl.
  destruct (Z.leb_spec (t_current e) (u64 (t_reordering_start e + t_reordering e))); [done | by destruct Hn].
Qed.

(** What is below rx_reord is delivered, then the run from rx_reord. *)
Lemma check_t_expired e :
  pdcp_rx_ok e → t_reordering_expired e → t_current e ≠ 0 →
  let e' := check_t_reordering e in
  ∃ ds rest, rx_list e = ds ++ rest ∧ out e' = out e ++ map event_of ds ∧ rx_list e' = rest ∧
    rx_reord e <= rx_deliv e' ∧ Forall (λ s, rx_deliv e <= sdu_count s < rx_deliv e') ds ∧
    Forall (λ s, rx_deliv e' < sdu_count s) rest ∧
    (∀ c, rx_reord e <= c < rx_deliv e' → c ∈ counts ds) ∧ pdcp_rx_ok e' ∧ rx_frame e e'.
Proof.
  intros [Hs Hr Hn Ht Hrun] (H1 & H2 & H3) Hcur. cbv zeta. unfold check_t_reordering.
  decide_false (t_reordering e =? -1). decide_false (t_reordering_start e =? 0). simpl orb.
  decide_false (t_current e <=? u64 (t_reordering_start e + t_reordering e)). specialize (Ht H2).
  set (e1 := e <| t_reordering_start := 0 |>).
  destruct (deliver_below_spec (rx_list e1) e1 Hs) as (d1 & r1 & E1 & Hd1 & Hr1 & Hs1 & ->).
  change (rx_list e1) with (rx_list e) in E1. change (rx_reord e1) with (rx_reord e) in *.
  destruct (deliver_many_frame d1 r1 e1) as (F1 & O1 & D1 & N1 & R1 & T1).
  rewrite (deliver_many_list d1 r1 e1) by exact E1. set (e2 := deliver_many d1 r1 e1) in *. rewrite R1.
  change (rx_reord e1) with (rx_reord e). rewrite E1 in Hr. pose proof Hr as [Hrd Hrr]%Forall_app.
  destruct (deliver_contiguous_spec r1 (rx_reord e) e2) as (d2 & r2 & E2 & Hd2 & Hr2 & Hs2 & ->); [lia | done | |].
  { apply Forall_and; split; [exact Hr1 |]. eapply Forall_impl; [exact Hrr |]. simpl. lia. }
  destruct (deliver_many_frame d2 r2 e2) as (F2 & O2 & D2 & N2 & R2 & T2).
  assert (L2 : rx_list (deliver_many d2 r2 e2) = r2).
  { apply deliver_many_list. rewrite <- E2. by apply deliver_many_list. }
  set (e3 := deliver_many d2 r2 e2) in *. pose proof (zlen_nonneg d2). exists (d1 ++ d2), r2.
  set (e4 := e3 <| rx_deliv := rx_reord e + zlen d2 |>).
  assert (Hend : rx_reord e + zlen d2 <= rx_next e).
  { apply (run_end d2); [done | | lia]. rewrite E2 in Hrr. apply Forall_app in Hrr as [Hrr _].
    eapply Forall_impl; [exact Hrr |]. simpl. lia. }
  assert (Hpre : rx_pre e4).
  { constructor; simpl; rewrite ?L2, ?N2, ?N1, ?T2, ?T1; try done; [| change (rx_next e1) with (rx_next e); lia].
    apply Forall_and. split; [exact Hr2 |]. rewrite E2 in Hrr. apply Forall_app in Hrr as [_ Hrr].
    eapply Forall_impl; [exact Hrr |]. simpl. change (rx_next e1) with (rx_next e). lia. }
  destruct (update_timer_ok e4 Hpre) as (Hok & F4 & L4 & D4 & N4 & O4).
  { simpl. rewrite (proj1 (rf_time _ _ F2)), (proj1 (rf_time _ _ F1)). done. }
  assert (Hup : update_t_reordering e4 = if rx_deliv e4 <? rx_next e4
            then e4 <| rx_reord := rx_next e4 |> <| t_reordering_start := t_current e4 |> else e4).
  { apply update_timer_stopped. simpl. by rewrite T2, T1. }
  rewrite <- Hup. split; [by rewrite E1, E2, app_assoc |].
  split; [rewrite O4; simpl; rewrite O2, O1, map_app, app_assoc; done |].
  split; [by rewrite L4 |]. rewrite D4. change (rx_deliv e4) with (rx_reord e + zlen d2).
  split; [lia |]. split.
  - apply Forall_app. split.
    + apply Forall_and. split; eapply Forall_impl; [exact Hrd | simpl; lia | exact Hd1 | simpl; lia].
    + apply Forall_forall. intros s Hin. assert (Hc : sdu_count s ∈ counts d2) by (by apply list_elem_of_fmap_2).
      rewrite Hd2 in Hc. apply elem_of_seqZ in Hc. lia.
  - split; [exact Hr2 |]. split; [| split; [exact Hok |]].
    + intros c Hc. unfold counts. rewrite map_app. apply elem_of_app. right. fold (counts d2). rewrite Hd2.
      apply elem_of_seqZ. lia.
    + apply (rx_frame_trans _ e4); [| exact F4]. apply (rx_frame_trans _ e3); [| by repeat split].
      apply (rx_frame_trans _ e2); [| exact F2]. apply (rx_frame_trans _ e1); [| exact F1]. by repeat split.
Qed.
End timer.

(** ** Sequences of operations *)

Inductive pdcp_op :=
| Recv_pdu (buffer : bytes) (size : Z)
| Process_sdu (sdu pdu_buffer : bytes)
| Set_time (now : Z)
| Set_security (p : nr_pdcp_entity_security_keys_and_algos_t)
| Suspend
| Reestablish (p : nr_pdcp_entity_security_keys_and_algos_t)
| Set_count_dl (c : nr_pdcp_count_t)
| Set_count_ul (c : nr_pdcp_count_t).

Section run.
Context `{StreamSecurityLaws}.

Definition pdcp_exec (e : nr_pdcp_entity_t) (op : pdcp_op) : res nr_pdcp_entity_t :=
  match op with
  | Recv_pdu buffer size => nr_pdcp_entity_recv_pdu e buffer size
  | Process_sdu sdu P => '(_, e) ← nr_pdcp_entity_process_sdu e sdu (zlen sdu) P (zlen P); Ok e
  | Set_time now => Ok (nr_pdcp_entity_set_time e now)
  | Set_security p => nr_pdcp_entity_set_security e p
  | Suspend => Ok (nr_pdcp_entity_suspend e)
  | Reestablish p => reestablish_entity e p
  | Set_count_dl c => Ok (nr_pdcp_entity_set_count_dl e c (sn_size e))
  | Set_count_ul c => Ok (nr_pdcp_entity_set_count_ul e c (sn_size e))
  end.

(** What the callers of an entity respect: the clock is set before PDUs arrive and is never 0,
    SDUs have at most 2^20 bytes and more than the SDAP header, buffers have the size they are
    said to have, the algorithms are known, the receiving COUNT is set on an idle receiver. *)
Definition pdcp_op_ok (e : nr_pdcp_entity_t) (op : pdcp_op) : Prop :=
  match op with
  | Recv_pdu buffer size => t_current e ≠ 0 ∧ pdu_in e buffer size
  | Process_sdu sdu P => b2z (has_sdap_tx e) < zlen sdu < 2 ^ 20 ∧ nr_max_pdcp_pdu_size (zlen sdu) <= zlen P
  | Set_time now => now ≠ 0
  | Set_security p | Reestablish p => supported p
  | Suspend => True
  | Set_count_dl c => rx_list e = [] ∧ t_reordering_start e = 0 ∧ 0 <= compose_count c (sn_size e) < 2 ^ 32 - 1
  | Set_count_ul c => 0 <= compose_count c (sn_size e) < 2 ^ 32
  end.

Fixpoint pdcp_run (e : nr_pdcp_entity_t) (ops : list pdcp_op) : res nr_pdcp_entity_t :=
  match ops with
  | [] => Ok e
  | op :: ops => e ← pdcp_exec e op; pdcp_run e ops
  end.

Fixpoint pdcp_run_ok (e : nr_pdcp_entity_t) (ops : list pdcp_op) : Prop :=
  match ops with
  | [] => True
  | op :: ops => pdcp_op_ok e op ∧ ∀ e', pdcp_exec e op = Ok e' → pdcp_run_ok e' ops
  end.

Lemma set_time_wf e now : pdcp_wf e → now ≠ 0 → pdcp_wf (nr_pdcp_entity_set_time e now).
Proof.
  intros Hwf Hnow. unfold nr_pdcp_entity_set_time. set (e1 := e <| t_current := now |>).
  assert (Hwf1 : pdcp_wf e1) by (destruct Hwf as [[] [] ? ? ?]; split; done || by constructor).
  destruct (decide (t_reordering e1 ≠ -1 ∧ t_reordering_start e1 ≠ 0 ∧
    u64 (t_reordering_start e1 + t_reordering e1) < t_current e1)) as [He | He].
  - destruct (check_t_expired e1) as (_ & _ & _ & _ & _ & _ & _ & _ & _ & Hok & Hf); [apply Hwf1 | done | done |].
    by eapply wf_frame.
  - by rewrite check_t_idle.
Qed.

(** An idle receiver satisfies the invariant. *)
Lemma wf_idle e e' :
  pdcp_wf e → sn_size e' = sn_size e ∧ sn_max e' = sn_max e ∧ window_size e' = window_size e →
  security e' = security e → rb_id e' = rb_id e → 0 <= tx_next e' < 2 ^ 32 →
  0 <= rx_deliv e' <= rx_next e' ∧ rx_next e' < 2 ^ 32 → rx_list e' = [] → t_reordering_start e' = 0 →
  pdcp_wf e'.
Proof.
  intros [[A1 A2 A3] _ Hs Hrb _] (E1 & E2 & E3) Es Erb Htx Hn Hl Ht. split.
  - constructor; congruence.
  - constructor; rewrite ?Hl, ?Ht; try done; constructor.
  - by rewrite Es.
  - by rewrite Erb.
  - done.
Qed.

Lemma deliver_all_list e : rx_list (deliver_all_sdus e) = [] ∧ rx_frame e (deliver_all_sdus e) ∧
  t_reordering_start (deliver_all_sdus e) = t_reordering_start e.
Proof.
  unfold deliver_all_sdus. rewrite deliver_all_spec.
  destruct (deliver_many_frame (rx_list e) [] e) as (F & _ & _ & _ & _ & T).
  split; [| by split]. apply deliver_many_list. by rewrite app_nil_r.
Qed.

Lemma stopped_empty e : pdcp_wf e → t_reordering_start e = 0 → rx_list e = [].
Proof.
  intros Hwf Ht. pose proof (ro_run _ (wf_rx _ Hwf)) as Hrun. destruct (rx_list e); [done |]. by destruct Hrun.
Qed.

Lemma suspend_wf e : pdcp_wf e → pdcp_wf (nr_pdcp_entity_suspend e).
Proof.
  intros Hwf. unfold nr_pdcp_entity_suspend. cbv zeta. change (t_reordering_start (e <| tx_next := 0 |>)) with (t_reordering_start e).
  destruct (Z.eqb_spec (t_reordering_start e) 0) as [Ht | Ht].
  - apply (wf_idle e); try done; simpl; try lia. by apply stopped_empty.
  - destruct (deliver_all_list ((e <| tx_next := 0 |>) <| t_reordering_start := 0 |>)) as (L & F & T).
    destruct F as [_ F2 _ F4 F5 _ [F7 _] _].
    apply (wf_idle e); simpl; rewrite ?F5, ?F7, ?F2; try done; try lia.
Qed.

Lemma set_security_wf e p :
  pdcp_wf e → supported p →
  ∃ s, nr_pdcp_entity_set_security e p = Ok (e <| security := s |>) ∧ pdcp_wf (e <| security := s |>).
Proof.
  intros [[] [] Hs ? ?] Hp. destruct (set_security_ok p _ Hs Hp) as (s & E & Hok).
  unfold nr_pdcp_entity_set_security. rewrite E. exists s. split; [done |]. split; done || by constructor.
Qed.

Lemma wf_unsuspend e b : pdcp_wf e → pdcp_wf (e <| entity_suspended := b |>).
Proof. intros [[] [] ? ? ?]. split; done || by constructor. Qed.

Lemma free_rx_list_fields e :
  rx_list (free_rx_list e) = [] ∧ sn_size (free_rx_list e) = sn_size e ∧ sn_max (free_rx_list e) = sn_max e ∧
  window_size (free_rx_list e) = window_size e ∧ security (free_rx_list e) = security e ∧
  rb_id (free_rx_list e) = rb_id e ∧ tx_next (free_rx_list e) = tx_next e.
Proof.
  unfold free_rx_list. simpl. split; [done |]. generalize (rx_list e). intros l. revert e.
  induction l as [| x l IH]; intros e; simpl; [done |].
  destruct (IH (stat rxpdu_dd_bytes (sdu_size x) (stat rxpdu_dd_pkts 1 e))) as (H1 & H2 & H3 & H4 & H5 & H6).
  by rewrite H1, H2, H3, H4, H5, H6.
Qed.

Lemma reestablish_wf e p : pdcp_wf e → supported p → ∃ e', reestablish_entity e p = Ok e' ∧ pdcp_wf e'.
Proof.
  intros Hwf Hp. assert (Hgo : ∀ e1, pdcp_wf e1 → ∃ e',
    (e ← nr_pdcp_entity_set_security e1 p; Ok (e <| entity_suspended := false |>)) = Ok e' ∧ pdcp_wf e').
  { intros e1 H1. destruct (set_security_wf e1 p H1 Hp) as (s & -> & H2). eexists. split; [done |]. by apply wf_unsuspend. }
  unfold reestablish_entity. destruct (type e); [by apply Hgo | |].
  - unfold nr_pdcp_entity_reestablish_drb_um. apply Hgo.
    change (t_reordering_start (e <| tx_next := 0 |>)) with (t_reordering_start e).
    destruct (Z.eqb_spec (t_reordering_start e) 0) as [Ht | Ht].
    + apply (wf_idle e); try done; simpl; try lia. by apply stopped_empty.
    + destruct (deliver_all_list (e <| tx_next := 0 |>)) as (L & F & T). destruct F as [_ F2 _ F4 F5 _ [F7 _] _].
      apply (wf_idle e); simpl; rewrite ?F5, ?F7, ?F2; try done; try lia.
  - unfold nr_pdcp_entity_reestablish_srb. apply Hgo.
    destruct (free_rx_list_fields (e <| tx_next := 0 |>)) as (L & S1 & S2 & S3 & S4 & S5 & S6).
    set (e1 := free_rx_list _) in *. clearbody e1.
    apply (wf_idle e); simpl; rewrite ?S1, ?S2, ?S3, ?S6, ?S4, ?S5; try done; try lia.
Qed.

Lemma pdcp_exec_wf e op : pdcp_wf e → pdcp_op_ok e op → ∃ e', pdcp_exec e op = Ok e' ∧ pdcp_wf e'.
Proof.
  intros Hwf. destruct op as [buffer size | sdu P | now | p | | p | c | c]; simpl.
  - intros [Ht Hin]. by apply recv_pdu_wf.
  - intros [Hsz HP]. destruct (entity_suspended e) eqn:Hsus.
    + unfold nr_pdcp_entity_process_sdu. decide_true (nr_max_pdcp_pdu_size (zlen sdu) <=? zlen P).
      cbn [assert_that mbind res_bind]. rewrite Hsus. by exists e.
    + destruct (process_sdu_ok e sdu P Hwf Hsus Hsz HP) as (h & m & pdu & rest & e' & -> & H').
      exists e'. split; [done |]. apply H'.
  - intros Hnow. eexists. split; [done |]. by apply set_time_wf.
  - intros Hp. destruct (set_security_wf e p Hwf Hp) as (s & -> & H'). by eexists.
  - intros _. eexists. split; [done |]. by apply suspend_wf.
  - intros Hp. by apply reestablish_wf.
  - intros (L & T & Hc). eexists. split; [done |]. apply (wf_idle e); try done; simpl; [apply Hwf |].
    unfold u32. rewrite Z.mod_small by lia. lia.
  - intros Hc. eexists. split; [done |]. destruct Hwf as [[] [] ? ? ?]. split; done || by constructor.
Qed.

Lemma pdcp_run_wf e ops : pdcp_wf e → pdcp_run_ok e ops → ∃ e', pdcp_run e ops = Ok e' ∧ pdcp_wf e'.
Proof.
  revert e. induction ops as [| op ops IH]; intros e Hwf Hops; [by exists e |].
  destruct Hops as [Hop Hops]. destruct (pdcp_exec_wf e op Hwf Hop) as (e1 & E & H1). simpl. rewrite E.
  cbn [mbind res_bind]. apply IH; [done | by apply Hops].
Qed.

Lemma new_entity_wf ty gnb rb ses srx stx sn tr dt p :
  sn = SHORT_SN_SIZE ∨ sn = LONG_SN_SIZE → 1 <= rb <= 31 → supported p →
  ∃ e, new_nr_pdcp_entity ty gnb rb ses srx stx sn tr dt p = Ok e ∧ pdcp_wf e.
Proof.
  intros Hsn Hrb Hp. unfold new_nr_pdcp_entity. destruct (set_security_ok p no_security no_security_ok Hp) as (s & E & Hok).
  unfold nr_pdcp_entity_set_security. simpl (security _). rewrite E. eexists. split; [done |]. split; simpl; try done.
  - constructor; simpl; [done | by destruct Hsn as [-> | ->].. ].
  - constructor; simpl; try done; try constructor; lia.
Qed.
End run.

(** ** NR PDCP entity: theorems over sequences of operations *)

(** ** Order of delivery *)

(** The COUNT the PDCP gives to the upper layer with an SDU that has a MAC-I. *)
Definition event_count (ev : pdcp_event) : Z := match ev with deliver_sdu _ _ i => id_count i end.

Definition id_ok (s : nr_pdcp_sdu_t) : Prop := id_count (sdu_integrity s) = sdu_count s.

Definition rx_only (op : pdcp_op) : Prop := match op with Recv_pdu _ _ | Set_time _ => True | _ => False end.

(** What a step of the receiver delivers. *)
Record delivers (e e' : nr_pdcp_entity_t) (evs : list pdcp_event) : Prop := {
  dl_out : out e' = out e ++ evs;
  dl_sorted : StronglySorted Z.lt (map event_count evs);
  dl_range : Forall (λ ev, rx_deliv e <= event_count ev < rx_deliv e') evs;
  dl_deliv : rx_deliv e <= rx_deliv e'
}.

Lemma delivers_refl e : delivers e e [].
Proof. split; [by rewrite app_nil_r | constructor | constructor | lia]. Qed.

Lemma sorted_app (l1 l2 : list Z) m :
  StronglySorted Z.lt l1 → StronglySorted Z.lt l2 → Forall (λ x, x < m) l1 → Forall (λ x, m <= x) l2 →
  StronglySorted Z.lt (l1 ++ l2).
Proof.
  intros H1 H2 L1 L2. induction H1 as [| x l H1 IH Hx]; simpl; [done |].
  apply Forall_cons in L1 as [Lx L1]. constructor; [by apply IH |]. apply Forall_app. split; [done |].
  eapply Forall_impl; [exact L2 |]. simpl. lia.
Qed.

Lemma delivers_trans e1 e2 e3 a b : delivers e1 e2 a → delivers e2 e3 b → delivers e1 e3 (a ++ b).
Proof.
  intros [O1 S1 R1 D1] [O2 S2 R2 D2]. split.
  - by rewrite O2, O1, app_assoc.
  - rewrite map_app. apply (sorted_app _ _ (rx_deliv e2)); [done | done | |]; apply Forall_map.
    + eapply Forall_impl; [exact R1 |]. simpl. lia.
    + eapply Forall_impl; [exact R2 |]. simpl. lia.
  - apply Forall_app. split; [eapply Forall_impl; [exact R1 |] | eapply Forall_impl; [exact R2 |]]; simpl; lia.
  - lia.
Qed.

(** Delivering SDUs whose integrity data hold their COUNT. *)
Lemma delivers_sdus e e' ds :
  out e' = out e ++ map event_of ds → Forall id_ok ds → StronglySorted Z.lt (counts ds) →
  Forall (λ s, rx_deliv e <= sdu_count s < rx_deliv e') ds → rx_deliv e <= rx_deliv e' →
  delivers e e' (map event_of ds).
Proof.
  intros Ho Hid Hs Hr Hd. assert (E : map event_count (map event_of ds) = counts ds).
  { rewrite map_map. unfold counts. apply map_ext_in. intros s Hin%list_elem_of_In.
    rewrite Forall_forall in Hid. by apply Hid. }
  split; [done | by rewrite E | | done]. apply Forall_map. apply Forall_forall. intros s Hin.
  rewrite Forall_forall in Hid, Hr. specialize (Hid s Hin). specialize (Hr s Hin). simpl. by rewrite Hid.
Qed.

Lemma has_mac_frame e e' : rx_frame e e' → has_mac e' = has_mac e.
Proof. intros [F1 _ _ _ _ _ [F2 _] _]. unfold has_mac. by rewrite F1, F2. Qed.

Section order.
Context `{StreamSecurityLaws}.

Lemma sorted_seqZ c n : StronglySorted Z.lt (seqZ c n).
Proof.
  destruct (Z.lt_ge_cases n 0) as [Hn | Hn]; [rewrite seqZ_nil by lia; constructor |].
  revert c. apply (natlike_ind (λ n, ∀ c, StronglySorted Z.lt (seqZ c n))); [| | exact Hn].
  - intros c. constructor.
  - intros m Hm IH c. rewrite seqZ_cons by lia. replace (Z.pred (Z.succ m)) with m by lia.
    constructor; [apply IH |]. apply Forall_forall. intros x Hx%elem_of_seqZ. lia.
Qed.

Lemma step_delivers e op :
  pdcp_wf e → has_mac e = true → Forall id_ok (rx_list e) → rx_only op → pdcp_op_ok e op →
  ∃ e' evs, pdcp_exec e op = Ok e' ∧ pdcp_wf e' ∧ has_mac e' = true ∧ Forall id_ok (rx_list e') ∧ delivers e e' evs.
Proof.
  intros Hwf Hm Hid Hrx Hok. destruct (pdcp_exec_wf e op Hwf Hok) as (e' & Hex & Hwf').
  cut (∃ evs, has_mac e' = true ∧ Forall id_ok (rx_list e') ∧ delivers e e' evs).
  { intros (evs & A & B & C). exists e', evs. by split_and!. }
  destruct op as [buffer size | | now | | | | |]; try done; simpl in Hex, Hok.
  - destruct Hok as [Ht Hin]. destruct (recv_pdu_cases e buffer size Hwf Hin) as (e2 & f & Hr & Hc).
    rewrite Hr in Hex. injection Hex as ->.
    destruct Hc as [-> | [-> | (sdu & h & -> & Hc & Hni & Hsid)]];
      [exists []; split_and!; [done | done | apply delivers_refl] | exists [] |].
    { split_and!; [done | done |]. destruct (delivers_refl e) as [O S R D]. by split. }
    set (e1 := e <| stats ::= f |>) in *. assert (Hwf1 : pdcp_wf e1) by (by apply wf_stats).
    destruct (store_and_deliver_spec e1 sdu size h) as (ds & rest & E & Hds & Hrest & Ho & Hl & Hd & _ & Hrok & Hf);
      [apply Hwf1 | done | done | done |].
    assert (Hall : Forall id_ok (ds ++ rest)).
    { rewrite <- E, list_add_perm. constructor; [by apply Hsid | done]. }
    apply Forall_app in Hall as [H1 H2]. exists (map event_of ds). pose proof (zlen_nonneg ds).
    split; [by rewrite (has_mac_frame _ _ Hf) |]. split; [by rewrite Hl |].
    apply delivers_sdus; [done | done | rewrite Hds; apply sorted_seqZ | | rewrite Hd; change (rx_deliv e1) with (rx_deliv e); lia].
    apply Forall_forall. intros s Hin'. assert (Hc' : sdu_count s ∈ counts ds) by (by apply list_elem_of_fmap_2).
    rewrite Hds in Hc'. apply elem_of_seqZ in Hc'. rewrite Hd. change (rx_deliv e1) with (rx_deliv e) in *. lia.
  - injection Hex as <-. unfold nr_pdcp_entity_set_time in *. set (e1 := e <| t_current := now |>) in *.
    destruct (decide (t_reordering e1 ≠ -1 ∧ t_reordering_start e1 ≠ 0 ∧
      u64 (t_reordering_start e1 + t_reordering e1) < t_current e1)) as [He | He].
    + assert (Hrx1 : pdcp_rx_ok e1) by (destruct (wf_rx _ Hwf); by constructor).
      destruct (check_t_expired e1 Hrx1 He Hok) as (ds & rest & E & Ho & Hl & Hd & Hr & _ & _ & Hrok & Hf).
      change (rx_list e1) with (rx_list e) in E. rewrite E in Hid. apply Forall_app in Hid as [Hid1 Hid2].
      exists (map event_of ds). split; [by rewrite (has_mac_frame _ _ Hf) |]. split; [by rewrite Hl |].
      pose proof (ro_timer _ Hrx1 (proj1 (proj2 He))) as Ht. change (rx_deliv e1) with (rx_deliv e) in *.
      apply delivers_sdus; [done | done | | done | lia].
      pose proof (ro_sorted _ (wf_rx _ Hwf)) as Hs. rewrite E in Hs. unfold counts in *. rewrite map_app in Hs.
      by apply StronglySorted_app_1_l in Hs.
    + rewrite check_t_idle by done. exists []. split_and!; [done | done |].
      destruct (delivers_refl e) as [O S R D]. by split.
Qed.

Lemma run_delivers e ops :
  pdcp_wf e → has_mac e = true → Forall id_ok (rx_list e) → Forall rx_only ops → pdcp_run_ok e ops →
  ∃ e' evs, pdcp_run e ops = Ok e' ∧ delivers e e' evs.
Proof.
  revert e. induction ops as [| op ops IH]; intros e Hwf Hm Hid Hrx Hok.
  - exists e, []. split; [done | apply delivers_refl].
  - apply Forall_cons in Hrx as [Hrx1 Hrx2]. destruct Hok as [Hok1 Hok2].
    destruct (step_delivers e op Hwf Hm Hid Hrx1 Hok1) as (e1 & evs & Hex & Hwf1 & Hm1 & Hid1 & Hd1).
    destruct (IH e1 Hwf1 Hm1 Hid1 Hrx2 (Hok2 e1 Hex)) as (e' & evs' & Hrun & Hd2).
    exists e', (evs ++ evs'). simpl. rewrite Hex. split; [exact Hrun | by eapply delivers_trans].
Qed.
End order.

(** ** Concrete entities *)

#[local] Existing Instance toy_openssl.
#[local] Existing Instance oai_security.

Definition demo_keys : nr_pdcp_entity_security_keys_and_algos_t :=
  mk_keys 2 2 (replicate 16 3) (replicate 16 9).

(** What [new_nr_pdcp_entity] makes with these keys (NIA2 and NEA2). *)
Definition demo_security : security_t :=
  mk_security true true demo_keys (Some Ctx_ciphering_key) (Some NEA2) (Some NEA2) (Some NEA2)
    (Some (Ctx 0)) (Some NIA2) (Some NIA2) {[0%nat := replicate 16 3]} 1.

Definition demo_entity (ty : nr_pdcp_entity_type_t) (gnb : bool) (now : Z) : nr_pdcp_entity_t :=
  mk_entity ty 1 1 false false 12 100 (-1) 4095 2048 0 0 0 0 now 0 demo_security gnb [] 0 init_stats false [].

Lemma demo_new ty gnb : new_nr_pdcp_entity ty gnb 1 1 false false 12 100 (-1) demo_keys = Ok (demo_entity ty gnb 0).
Proof. reflexivity. Qed.

Lemma demo_wf ty gnb now : pdcp_wf (demo_entity ty gnb now).
Proof.
  assert (H : supported demo_keys) by (split; simpl; set_solver).
  destruct (new_entity_wf ty gnb 1 1 false false 12 100 (-1) demo_keys) as (e & E & Hwf); [by left | done | done |].
  rewrite demo_new in E. injection E as <-. destruct Hwf as [[] [] ? ? ?]. split; done || by constructor.
Qed.

(** ** Theorems *)

(** C15: (invariant) from its construction with supported algorithms on, whatever sequence of
    operations is applied to a PDCP entity, no operation fails, the invariant holds (stored SDUs
    sorted without duplicates in the window, t-Reordering running whenever something is stored,
    algorithms with live contexts), and deleting the entity leaves no security context allocated.
    The operations ([pdcp_op_ok]) are received PDUs, SDUs to send into a buffer that holds their
    PDU, ticks of a clock that is not 0, changes of keys and algorithms among the supported ones
    (others stop the program), suspensions, re-establishments and COUNT settings, for the receiver
    while nothing is stored. Received PDUs are any octets in a buffer of at least three, with one
    exception ([pdu_in]): the COUNT that the entity infers is not the last one, 2^32-1, after which
    [rx_next] wraps to 0; a PDU with an SN in the upper half reaches it in the first hyper frame
    ([pdcp_first_hfn_underflow]). *)
Theorem pdcp_run_safe `{StreamSecurityLaws} ty gnb rb ses srx stx sn tr dt p :
  sn = SHORT_SN_SIZE ∨ sn = LONG_SN_SIZE → 1 <= rb <= 31 → supported p →
  ∃ e, new_nr_pdcp_entity ty gnb rb ses srx stx sn tr dt p = Ok e ∧
    ∀ ops, pdcp_run_ok e ops →
    ∃ e', pdcp_run e ops = Ok e' ∧ pdcp_wf e' ∧ nr_pdcp_entity_delete e' = Ok ∅.
Proof.
  intros Hsn Hrb Hp. destruct (new_entity_wf ty gnb rb ses srx stx sn tr dt p Hsn Hrb Hp) as (e & E & Hwf).
  exists e. split; [done |]. intros ops Hops. destruct (pdcp_run_wf e ops Hwf Hops) as (e' & Hr & Hwf').
  exists e'. split_and!; [done | done |]. by apply delete_contexts, wf_security.
Qed.

Lemma pdcp_run_safe_witness :
  ∃ e, new_nr_pdcp_entity NR_PDCP_DRB_UM true 1 1 false false 12 100 (-1) demo_keys = Ok e ∧
    ∀ ops, pdcp_run_ok e ops →
    ∃ e', pdcp_run e ops = Ok e' ∧ pdcp_wf e' ∧ nr_pdcp_entity_delete e' = Ok ∅.
Proof.
  apply (pdcp_run_safe NR_PDCP_DRB_UM true 1 1 false false 12 100 (-1) demo_keys).
  - by left.
  - done.
  - split; simpl; set_solver.
Defined.

(** C17: (safety) in-order, exactly-once delivery: over any sequence of received PDUs (duplicated,
    reordered, forged) and ticks in which no PDU has the inferred COUNT 2^32-1 (after which
    [rx_next] wraps and the window is lost), the SDUs an entity with MAC-I delivers have strictly
    increasing COUNTs, none of them below the RX_DELIV it started from, all below the RX_DELIV it
    ends with. *)
Theorem pdcp_delivers_in_order `{StreamSecurityLaws} e ops :
  pdcp_wf e → has_mac e = true → Forall id_ok (rx_list e) → Forall rx_only ops → pdcp_run_ok e ops →
  ∃ e' evs, pdcp_run e ops = Ok e' ∧ out e' = out e ++ evs ∧
    StronglySorted Z.lt (map event_count evs) ∧
    Forall (λ ev, rx_deliv e <= event_count ev < rx_deliv e') evs.
Proof.
  intros Hwf Hm Hid Hrx Hok. destruct (run_delivers e ops Hwf Hm Hid Hrx Hok) as (e' & evs & Hr & [O S R D]).
  by exists e', evs.
Qed.

Lemma pdcp_delivers_in_order_witness :
  ∃ e' evs, pdcp_run (demo_entity NR_PDCP_SRB true 5) [Recv_pdu [0; 1; 7; 0; 0; 0; 0] 7; Set_time 200] = Ok e' ∧
    out e' = [] ++ evs ∧ StronglySorted Z.lt (map event_count evs) ∧
    Forall (λ ev, 0 <= event_count ev < rx_deliv e') evs.
Proof.
  apply (pdcp_delivers_in_order (demo_entity NR_PDCP_SRB true 5) [Recv_pdu [0; 1; 7; 0; 0; 0; 0] 7; Set_time 200]).
  - apply demo_wf.
  - reflexivity.
  - constructor.
  - repeat constructor.
  - split.
    + split; [done |]. split; [repeat constructor; done |]. split; [done |]. split; [done |]. split; [done |].
      intros sn h [= <- <-]. reflexivity.
    + intros e' _. split; done.
Defined.

(** (functional) expiry of t-Reordering: when the timer of a running entity has expired, the
    tick delivers the stored SDUs below rx_reord and the run that starts at rx_reord, in order,
    keeps the others, and moves RX_DELIV past what was given up and past the run; before it has
    expired, the tick changes nothing but the clock. *)
Theorem pdcp_reordering_timeout `{StreamSecurity} e now :
  pdcp_rx_ok e → now ≠ 0 →
  let e1 := e <| t_current := now |> in
  let e' := nr_pdcp_entity_set_time e now in
  (t_reordering_expired e1 →
   ∃ ds rest, rx_list e = ds ++ rest ∧ out e' = out e ++ map event_of ds ∧ rx_list e' = rest ∧
     rx_reord e <= rx_deliv e' ∧ Forall (λ s, rx_deliv e <= sdu_count s < rx_deliv e') ds ∧
     Forall (λ s, rx_deliv e' < sdu_count s) rest ∧
     (∀ c, rx_reord e <= c < rx_deliv e' → c ∈ counts ds)) ∧
  (¬ t_reordering_expired e1 → e' = e1).
Proof.
  intros Hok Hnow e1 e'. split; [| by apply check_t_idle]. intros He.
  assert (Hok1 : pdcp_rx_ok e1) by (destruct Hok; by constructor).
  destruct (check_t_expired e1 Hok1 He Hnow) as (ds & rest & E & Ho & Hl & Hr & H1 & H2 & H3 & _).
  exists ds, rest. by split_and!.
Qed.

(** COUNT 1 is stored, COUNT 0 is missing, the timer was started at time 5. *)
Definition demo_waiting : nr_pdcp_entity_t :=
  (demo_entity NR_PDCP_SRB true 5) <| rx_list := [mk_sdu 1 [7] 1 no_integrity] |> <| rx_next := 2 |>
    <| rx_reord := 2 |> <| t_reordering_start := 5 |>.

Lemma pdcp_reordering_timeout_witness :
  ∃ ds rest, rx_list demo_waiting = ds ++ rest ∧
    out (nr_pdcp_entity_set_time demo_waiting 200) = out demo_waiting ++ map event_of ds ∧
    rx_list (nr_pdcp_entity_set_time demo_waiting 200) = rest ∧
    2 <= rx_deliv (nr_pdcp_entity_set_time demo_waiting 200) ∧
    Forall (λ s, 0 <= sdu_count s < rx_deliv (nr_pdcp_entity_set_time demo_waiting 200)) ds ∧
    Forall (λ s, rx_deliv (nr_pdcp_entity_set_time demo_waiting 200) < sdu_count s) rest ∧
    (∀ c, 2 <= c < rx_deliv (nr_pdcp_entity_set_time demo_waiting 200) → c ∈ counts ds).
Proof.
  apply (pdcp_reordering_timeout demo_waiting 200).
  - constructor; simpl; try done; repeat constructor; done.
  - done.
  - by repeat split.
Defined.

(** (functional) reconstruction of COUNT: whatever RX_DELIV is, the SN of a PDU whose COUNT
    is in the window of half the SN space on each side of RX_DELIV determines its COUNT, and
    the entity finds it; in particular the hyper frame number is the sender's, across SN wraps. *)
Theorem pdcp_count_reconstruction e c :
  pdcp_config e → 0 <= rx_deliv e < 2 ^ 32 → 0 <= c < 2 ^ 32 →
  rx_deliv e - window_size e <= c < rx_deliv e + window_size e →
  get_rcvd_count e (PDCP_SN e c) = c ∧ get_rcvd_hfn e (PDCP_SN e c) = PDCP_HFN e c.
Proof.
  intros Hcfg Hd Hc Hw. split; [by apply rcvd_count_window |]. destruct (window_sizes e Hcfg) as (Hs & Hm & Hv).
  unfold get_rcvd_hfn. rewrite !PDCP_SN_mod, !PDCP_HFN_div by done. by apply hfn_window.
Qed.

Lemma pdcp_count_reconstruction_witness :
  get_rcvd_count (demo_entity NR_PDCP_SRB true 5) (PDCP_SN (demo_entity NR_PDCP_SRB true 5) 2047) = 2047 ∧
  get_rcvd_hfn (demo_entity NR_PDCP_SRB true 5) (PDCP_SN (demo_entity NR_PDCP_SRB true 5) 2047) =
    PDCP_HFN (demo_entity NR_PDCP_SRB true 5) 2047.
Proof.
  apply (pdcp_count_reconstruction (demo_entity NR_PDCP_SRB true 5) 2047); [apply demo_wf | done | done | done].
Defined.

(** (functional, a defect) with the first HFN, an SN at least half the SN space after RX_DELIV
    gives HFN -1 modulo 2^20 or 2^14: the PDU gets a COUNT in the last 2^(n-1) of the space,
    is not taken for a duplicate, and RX_DELIV will follow it when t-Reordering expires. *)
Theorem pdcp_first_hfn_underflow e sn :
  pdcp_config e → 0 <= rx_deliv e < window_size e → rx_deliv e + window_size e <= sn < 2 ^ sn_size e →
  get_rcvd_count e sn = 2 ^ 32 - 2 ^ sn_size e + sn ∧ rx_deliv e + 2 ^ 31 < get_rcvd_count e sn.
Proof.
  intros Hcfg Hd Hsn. destruct (window_sizes e Hcfg) as (Hs & Hm & Hv).
  assert (Hc : get_rcvd_count e sn = 2 ^ 32 - 2 ^ sn_size e + sn).
  { unfold get_rcvd_count, get_rcvd_hfn. rewrite PDCP_SN_mod, PDCP_HFN_div by done.
    rewrite Z.div_small, Z.mod_small by lia. decide_false (sn <? rx_deliv e - window_size e).
    decide_true (rx_deliv e + window_size e <=? sn). unfold u32.
    destruct Hcfg as [[H | H] _ _]; rewrite H in *; unfold SHORT_SN_SIZE, LONG_SN_SIZE in *.
    - change (Z.shiftl ((0 - 1) mod 2 ^ 32) 12 mod 2 ^ 32) with (Z.shiftl (2 ^ 20 - 1) 12).
      rewrite lor_shift by lia. lia.
    - change (Z.shiftl ((0 - 1) mod 2 ^ 32) 18 mod 2 ^ 32) with (Z.shiftl (2 ^ 14 - 1) 18).
      rewrite lor_shift by lia. lia. }
  split; [done |]. rewrite Hc. destruct Hv as [Hv | Hv]; rewrite Hv in *; lia.
Qed.

Lemma pdcp_first_hfn_underflow_witness :
  get_rcvd_count (demo_entity NR_PDCP_SRB true 5) 3000 = 2 ^ 32 - 2 ^ 12 + 3000 ∧
  0 + 2 ^ 31 < get_rcvd_count (demo_entity NR_PDCP_SRB true 5) 3000.
Proof.
  apply (pdcp_first_hfn_underflow (demo_entity NR_PDCP_SRB true 5) 3000); [apply demo_wf | done | done].
Defined.

(** C16: (roundtrip) the PDU that an entity makes of an SDU, whatever the ciphering and integrity
    algorithms, the SN size and the kind of bearer, is accepted by the peer when its COUNT is in
    the peer's window and new: the peer recovers the COUNT and the SDU byte for byte, and the SDU
    is delivered at once if its COUNT is the one expected next. *)
Theorem pdcp_transfer `{StreamSecurityLaws} t r sdu P :
  pdcp_wf t → pdcp_wf r → peers t r → entity_suspended t = false → entity_suspended r = false →
  b2z (has_sdap_tx t) < zlen sdu < 2 ^ 20 → nr_max_pdcp_pdu_size (zlen sdu) <= zlen P → t_current r ≠ 0 →
  rx_deliv r <= tx_next t < rx_deliv r + window_size r → tx_next t < 2 ^ 32 - 1 → tx_next t ∉ counts (rx_list r) →
  ∃ pdu rest t' r' i ds later,
    nr_pdcp_entity_process_sdu t sdu (zlen sdu) P (zlen P) = Ok (zlen pdu, pdu ++ rest, t') ∧
    tx_next t' = tx_next t + 1 ∧
    nr_pdcp_entity_recv_pdu r pdu (zlen pdu) = Ok r' ∧
    let s := mk_sdu (tx_next t) sdu (zlen sdu) i in
    nr_pdcp_sdu_list_add (rx_list r) s = ds ++ later ∧ rx_list r' = later ∧
    out r' = out r ++ map event_of ds ∧ rx_deliv r' = rx_deliv r + zlen ds ∧
    (tx_next t = rx_deliv r → s ∈ ds).
Proof.
  intros Ht Hr Hp Hst Hsr Hsz HP Hcur Hwin Hmax Hni. pose proof Ht as [Hct _ Hset _ Htx].
  destruct (process_sdu_ok t sdu P Ht Hst Hsz HP) as
    (hdr & mac & pdu & rest & t' & Hproc & Hpdu & Hh & Hml & Hl & Hread & (b0 & tl & Hhd & Hdc) & Htn & _).
  pose proof (peer_integrity_size t r Hset (wf_security _ Hr) Hp) as Hisz.
  pose proof Hpdu as [_ (sh & sb & body & _ & _ & Epdu & _)].
  assert (Hi0 : 0 <= integrity_size t) by (unfold integrity_size, PDCP_INTEGRITY_SIZE; destruct (has_mac t); lia).
  assert (Hsd : 0 <= b2z (has_sdap_tx t)) by (destruct (has_sdap_tx t); simpl; lia).
  destruct (peer_recv_pdu r hdr (sh ++ body) (zlen pdu) (PDCP_SN t (tx_next t)) b0 tl) as (f & Hrecv); try done; try lia.
  { rewrite (pe_type _ _ Hp). done. }
  { intros r' Hr'. apply Hread. by rewrite Hr', (pe_sn _ _ Hp). }
  { rewrite Hisz, (pe_sdap _ _ Hp). lia. }
  rewrite <- Epdu in Hrecv. set (r1 := r <| stats ::= f |>) in Hrecv.
  assert (Hr1 : pdcp_wf r1) by (by apply wf_stats).
  assert (Hp1 : peers t r1) by (destruct Hp; by constructor).
  destruct (peer_recv_data t r1 (tx_next t) hdr sdu mac pdu (PDCP_SN t (tx_next t))) as (i & Hd); try done; try lia.
  { apply Hr1. }
  { assert (PDCP_SN t (tx_next t) = PDCP_SN r1 (tx_next t)) as ->.
    { rewrite !PDCP_SN_mod; [by rewrite (pe_sn _ _ Hp1) | apply Hr1 | done]. }
    pose proof (ro_next _ (wf_rx _ Hr1)) as Hn. destruct (window_sizes r1 (wf_config _ Hr1)) as (_ & _ & Hw).
    change (rx_deliv r1) with (rx_deliv r) in *. change (window_size r1) with (window_size r) in *.
    apply rcvd_count_window; [apply Hr1 | | done |];
      change (rx_deliv r1) with (rx_deliv r); change (window_size r1) with (window_size r); lia. }
  { change (rx_deliv r1) with (rx_deliv r). lia. }
  destruct (store_and_deliver_spec r1 (mk_sdu (tx_next t) sdu (zlen sdu) i) (zlen pdu) (zlen hdr)) as
    (ds & later & E & Hds & Hlater & Ho & Hrl & Hrd & _ & _ & _); [apply Hr1 | change (rx_deliv r1) with (rx_deliv r); simpl; lia | done | done |].
  exists pdu, rest, t', (store_and_deliver r1 (mk_sdu (tx_next t) sdu (zlen sdu) i) (zlen pdu) (zlen hdr)), i, ds, later.
  split; [done |]. split; [rewrite Htn; unfold u32; apply Z.mod_small; lia |]. split; [by rewrite Hrecv |].
  split_and!; [done | done | done | done |]. intros Heq.
  assert (Hin : mk_sdu (tx_next t) sdu (zlen sdu) i ∈ ds ++ later) by (rewrite <- E, list_add_perm; by left).
  apply elem_of_app in Hin as [| Hin]; [done |]. rewrite Forall_forall in Hlater. specialize (Hlater _ Hin).
  pose proof (zlen_nonneg ds). simpl in Hlater. lia.
Qed.

Lemma pdcp_transfer_witness :
  let t := demo_entity NR_PDCP_DRB_AM true 5 in let r := demo_entity NR_PDCP_DRB_AM false 5 in
  ∃ pdu rest t' r' i ds later,
    nr_pdcp_entity_process_sdu t [1; 2; 3] 3 (replicate 20 0) 20 = Ok (zlen pdu, pdu ++ rest, t') ∧
    tx_next t' = tx_next t + 1 ∧
    nr_pdcp_entity_recv_pdu r pdu (zlen pdu) = Ok r' ∧
    let s := mk_sdu (tx_next t) [1; 2; 3] 3 i in
    nr_pdcp_sdu_list_add (rx_list r) s = ds ++ later ∧ rx_list r' = later ∧
    out r' = out r ++ map event_of ds ∧ rx_deliv r' = rx_deliv r + zlen ds ∧
    (tx_next t = rx_deliv r → s ∈ ds).
Proof.
  apply (pdcp_transfer (demo_entity NR_PDCP_DRB_AM true 5) (demo_entity NR_PDCP_DRB_AM false 5) [1; 2; 3] (replicate 20 0));
    [apply demo_wf | apply demo_wf | by constructor | done | done | done | done | done | done | done | simpl; set_solver].
Defined.
