(* ===== verification/Sdap.v ===== *)
(** * NR SDAP

    Models [openair2/SDAP/nr_sdap/nr_sdap_entity.c], [nr_sdap_entity.h] and the entry points of
    [nr_sdap.c].  The function pointers of an entity are always set to the functions of this
    file ([nr_sdap_add_entity]), so they are called directly.  The list of entities
    [sdap_info.sdap_entity_llist] is a list, newest first; calls to PDCP, GTP-U, the TUN socket
    and the operating system are observed as events, their answers are arguments. *)

From S2P Require Import Prelude.

(** ** Constants *)

Definition SDAP_MAX_QFI : Z := 64.
Definition SDAP_MAP_RULE_EMPTY : Z := 0.
Definition SDAP_NO_MAPPING_RULE : Z := 0.
Definition NO_SDAP_HEADER : Z := 0.
Definition SDAP_HDR_LENGTH : Z := 1.
Definition SDAP_HDR_UL_DATA_PDU : Z := 1.
Definition SDAP_HDR_UL_CTRL_PDU : Z := 0.
Definition SDAP_MAX_UE_ID : Z := 65536.
Definition MAX_DRBS_PER_UE : Z := 32.
Definition NR_MAX_NB_PDU_SESSIONS : Z := 256.
(** [sdap_role_t]. *)
Definition SDAP_UL_TX : Z := 1.
Definition SDAP_UL_RX : Z := 2.
Definition SDAP_DL_TX : Z := 4.
Definition SDAP_DL_RX : Z := 8.

(** ** Data *)

Record qfi2drb_t := mk_qfi2drb { drb_id : Z; entity_role : Z }.
#[export] Instance eta_qfi2drb : Settable qfi2drb_t := λ m, mk_qfi2drb (drb_id m) (entity_role m).
#[export] Instance qfi2drb_eq_dec : EqDecision qfi2drb_t.
Proof. solve_decision. Defined.

(** The arrays of mapped QFIs hold [NR_QFI_t] (long) values; their counts are the lengths. *)
Record sdap_config_t := mk_config {
  cfg_pdusession_id : Z;
  cfg_drb_id : Z;
  role : Z;
  defaultDRB : bool;
  mappedQFIs2Add : list Z;
  mappedQFIs2Release : list Z
}.

(** [has_if_name] is [pdusession_if_name != NULL]. *)
Record nr_sdap_entity_t := mk_entity {
  ue_id : Z;
  default_drb : Z;
  is_gnb : bool;
  enable_sdap : bool;
  pdusession_id : Z;
  pdusession_sock : Z;
  has_if_name : bool;
  stop_thread : bool;
  qfi : Z;
  qfi2drb_table : list qfi2drb_t
}.
#[export] Instance eta_entity : Settable nr_sdap_entity_t :=
  λ e, mk_entity (ue_id e) (default_drb e) (is_gnb e) (enable_sdap e) (pdusession_id e)
    (pdusession_sock e) (has_if_name e) (stop_thread e) (qfi e) (qfi2drb_table e).

(** Arguments of a transmission that SDAP passes on to PDCP unchanged. *)
Record req_args := mk_req {
  rntiMaybeUEid : Z;
  srb_flag : bool;
  mui : Z;
  confirm : Z;
  pt_mode : Z;
  sourceL2Id : option Z;
  destinationL2Id : option Z
}.

(** Calls made by SDAP. *)
Inductive sdap_event :=
| nr_pdcp_data_req_drb (args : req_args) (drb : Z) (pdu : bytes)
| submit_ctrl_req (ue drb : Z) (pdu : bytes)
| gtpv1uSendDirectWithQFI (ue pdusession qfi : Z) (sdu : bytes)
| gtpv1uSendDirect (ue pdusession : Z) (sdu : bytes)
| write (sock : Z) (sdu : bytes)
| remove_if (sock : Z).

(** [role & bit] as a truth value. *)
Definition has_role (r bit : Z) : bool := negb (Z.land r bit =? 0).

(** [&entity->qfi2drb_table[q]]: an index over 63 is out of the array. *)
Definition table_at (e : nr_sdap_entity_t) (q : Z) : res qfi2drb_t :=
  deref (znth (qfi2drb_table e) q).
Definition set_table (e : nr_sdap_entity_t) (q : Z) (m : qfi2drb_t) : res nr_sdap_entity_t :=
  t ← zset (qfi2drb_table e) q m; Ok (e <| qfi2drb_table := t |>).

(** ** QoS flow to DRB mapping *)

Definition nr_sdap_qfi2drb_map_add (e : nr_sdap_entity_t) (q drb r : Z) : res nr_sdap_entity_t :=
  set_table e q (mk_qfi2drb (u8 drb) (u8 r)).

Definition nr_sdap_qfi2drb_map_del (e : nr_sdap_entity_t) (q : Z) : res nr_sdap_entity_t :=
  set_table e q (mk_qfi2drb SDAP_NO_MAPPING_RULE NO_SDAP_HEADER).

Definition nr_sdap_qfi2drb (e : nr_sdap_entity_t) (q : Z) : res Z :=
  m ← table_at e q;
  Ok (if negb (drb_id m =? 0) then drb_id m
      else if negb (default_drb e =? 0) then default_drb e
      else SDAP_MAP_RULE_EMPTY).

(** ** Headers: the bit fields of [nr_sdap_dl_hdr_t] and [nr_sdap_ul_hdr_t] as a byte *)

Definition dl_hdr (q : Z) (rqi rdi : bool) : Z := q mod 64 + 64 * b2z rqi + 128 * b2z rdi.
Definition ul_hdr (q : Z) (r : bool) (dc : Z) : Z := q mod 64 + 64 * b2z r + 128 * (dc mod 2).
Definition hdr_QFI (b : Z) : Z := Z.land b 63.
Definition hdr_bit6 (b : Z) : bool := Z.testbit b 6.
Definition hdr_bit7 (b : Z) : bool := Z.testbit b 7.

Definition nr_sdap_construct_ctrl_pdu (q : Z) : Z := ul_hdr q false SDAP_HDR_UL_CTRL_PDU.

Inductive map_type := SDAP_CTRL_PDU_MAP_DEF_DRB | SDAP_CTRL_PDU_MAP_RULE_DRB.

Definition nr_sdap_map_ctrl_pdu (e : nr_sdap_entity_t) (t : map_type) (dl_qfi : Z) : res Z :=
  match t with
  | SDAP_CTRL_PDU_MAP_DEF_DRB => Ok (default_drb e)
  | SDAP_CTRL_PDU_MAP_RULE_DRB => nr_sdap_qfi2drb e dl_qfi
  end.

Definition nr_pdcp_submit_sdap_ctrl_pdu (ue drb ctrl_pdu : Z) : list sdap_event :=
  [submit_ctrl_req ue drb [ctrl_pdu]].

Definition nr_sdap_submit_ctrl_pdu (ue drb ctrl_pdu : Z) : list sdap_event :=
  if negb (drb =? 0) then nr_pdcp_submit_sdap_ctrl_pdu ue drb ctrl_pdu else [].

(** Construct, map and submit an end-marker control PDU. *)
Definition end_marker (e : nr_sdap_entity_t) (ue : Z) (t : map_type) (q : Z)
    : res (list sdap_event) :=
  drb ← nr_sdap_map_ctrl_pdu e t q;
  Ok (nr_sdap_submit_ctrl_pdu ue drb (nr_sdap_construct_ctrl_pdu q)).

(** ** Data transfer *)

(** [accepted] is PDCP's answer.  Returns the events and the value returned. *)
Definition nr_sdap_tx_entity (e : nr_sdap_entity_t) (args : req_args) (sdu_buffer : option bytes)
    (q : Z) (rqi accepted : bool) : res (list sdap_event * bool) :=
  match sdu_buffer with
  | None => Exit
  | Some sdu =>
      drb ← nr_sdap_qfi2drb e q;
      if drb =? SDAP_MAP_RULE_EMPTY then Ok ([], false)
      else
        m ← table_at e q;
        let sdap_ul_tx := has_role (entity_role m) SDAP_UL_TX in
        let sdap_dl_tx := has_role (entity_role m) SDAP_DL_TX in
        if negb sdap_ul_tx && negb sdap_dl_tx
        then Ok ([nr_pdcp_data_req_drb args drb sdu], accepted)
        else if (zlen sdu =? 0) || (8999 <? zlen sdu) then Ok ([], false)
        else
          let hdr := if sdap_dl_tx then dl_hdr q rqi false else ul_hdr q false (b2z rqi) in
          Ok ([nr_pdcp_data_req_drb args drb (hdr :: sdu)], accepted)
  end.

(** The reflective mapping of a DL PDU whose RDI bit is set. *)
Definition reflective_mapping (e : nr_sdap_entity_t) (pdcp_entity ue q : Z)
    : res (list sdap_event * nr_sdap_entity_t) :=
  m ← table_at e q;
  ev1 ← (if (drb_id m =? 0) && negb (default_drb e =? 0)
         then end_marker e ue SDAP_CTRL_PDU_MAP_DEF_DRB q else Ok []);
  ev2 ← (if negb (pdcp_entity =? drb_id m)
         then end_marker e ue SDAP_CTRL_PDU_MAP_RULE_DRB q else Ok []);
  e ← set_table e q (m <| drb_id := pdcp_entity |>);
  Ok (ev1 ++ ev2, e).

(** What the entity does with a PDU once the QFI is known: [q] is -1 without SDAP header. *)
Definition rx_gnb (e : nr_sdap_entity_t) (pdusession ue q : Z) (sdap_ul_rx : bool) (buf : bytes)
    : res (list sdap_event) :=
  if sdap_ul_rx then
    _ ← assert_that ((0 <=? q) && (q <? SDAP_MAX_QFI));
    b ← deref (znth buf 0);
    _ ← assert_that (hdr_QFI b =? q);
    sdu ← deref (slice buf SDAP_HDR_LENGTH (zlen buf - SDAP_HDR_LENGTH));
    Ok [gtpv1uSendDirectWithQFI ue pdusession q sdu]
  else
    _ ← assert_that (q =? -1);
    Ok [gtpv1uSendDirect ue pdusession buf].

Definition rx_ue (e : nr_sdap_entity_t) (pdcp_entity ue : Z) (sdap_dl_rx : bool) (buf : bytes)
    : res (list sdap_event * nr_sdap_entity_t) :=
  if sdap_dl_rx then
    b ← deref (znth buf 0);
    '(ev, e) ← (if hdr_bit7 b then reflective_mapping e pdcp_entity ue (hdr_QFI b)
                else Ok ([], e));
    sdu ← deref (slice buf SDAP_HDR_LENGTH (zlen buf - SDAP_HDR_LENGTH));
    Ok (ev ++ [write (pdusession_sock e) sdu], e)
  else Ok ([write (pdusession_sock e) buf], e).

Definition nr_sdap_rx_entity (e : nr_sdap_entity_t) (pdcp_entity : Z) (gnb : bool)
    (pdusession ue : Z) (buf : bytes) : res (list sdap_event * nr_sdap_entity_t) :=
  let deliver (q : Z) (ul_rx dl_rx : bool) :=
    if gnb then ev ← rx_gnb e pdusession ue q ul_rx buf; Ok (ev, e)
    else rx_ue e pdcp_entity ue dl_rx buf in
  if enable_sdap e then
    b ← deref (znth buf 0);
    let q := hdr_QFI b in
    if SDAP_MAX_QFI <=? q then Ok ([], e)
    else
      m ← table_at e q;
      if drb_id m =? SDAP_NO_MAPPING_RULE then Ok ([], e)
      else deliver q (has_role (entity_role m) SDAP_UL_RX) (has_role (entity_role m) SDAP_DL_RX)
  else deliver (-1) false false.

(** ** Configuration of the mapping *)

(** The body of the loop of [nr_sdap_ue_control_pdu_config]. *)
Definition control_pdu_for (e : nr_sdap_entity_t) (ue : Z) (c : sdap_config_t) (q : Z)
    : res (list sdap_event) :=
  m ← (if negb (default_drb e =? 0) then table_at e q else Ok (mk_qfi2drb 1 0));
  ev1 ← (if negb (default_drb e =? 0) && (drb_id m =? SDAP_NO_MAPPING_RULE)
         then end_marker e ue SDAP_CTRL_PDU_MAP_DEF_DRB q else Ok []);
  m ← table_at e q;
  let ul_sdap_header := has_role (entity_role m) SDAP_UL_TX in
  ev2 ← (if negb (drb_id m =? cfg_drb_id c) && ul_sdap_header
         then end_marker e ue SDAP_CTRL_PDU_MAP_RULE_DRB q else Ok []);
  Ok (ev1 ++ ev2).

Fixpoint ue_control_pdus (e : nr_sdap_entity_t) (ue : Z) (c : sdap_config_t) (l : list Z)
    : res (list sdap_event) :=
  match l with
  | [] => Ok []
  | x :: l =>
      ev ← control_pdu_for e ue c (u8 x);
      evs ← ue_control_pdus e ue c l;
      Ok (ev ++ evs)
  end.

Definition nr_sdap_ue_control_pdu_config (e : nr_sdap_entity_t) (ue : Z) (c : sdap_config_t)
    : res (list sdap_event) := ue_control_pdus e ue c (mappedQFIs2Add c).

(** One QFI of [nr_sdap_add_qos_flows_to_drb]. *)
Definition add_qos_flow (c : sdap_config_t) (e : nr_sdap_entity_t) (x : Z)
    : res nr_sdap_entity_t :=
  let q := u8 x in
  if (q <? SDAP_MAX_QFI) && (SDAP_MAP_RULE_EMPTY <? cfg_drb_id c)
     && (cfg_drb_id c <=? MAX_DRBS_PER_UE)
  then nr_sdap_qfi2drb_map_add e q (cfg_drb_id c) (role c) else Ok e.

(** Runs [f] on the entity for each element of a list. *)
Fixpoint for_each (f : nr_sdap_entity_t → Z → res nr_sdap_entity_t) (e : nr_sdap_entity_t)
    (l : list Z) : res nr_sdap_entity_t :=
  match l with [] => Ok e | x :: l => e ← f e x; for_each f e l end.

Definition nr_sdap_add_qos_flows_to_drb (e : nr_sdap_entity_t) (c : sdap_config_t)
    : res nr_sdap_entity_t := for_each (add_qos_flow c) e (mappedQFIs2Add c).

Definition nr_sdap_rm_qos_flows_from_drb (e : nr_sdap_entity_t) (c : sdap_config_t)
    : res nr_sdap_entity_t :=
  for_each (λ e x, nr_sdap_qfi2drb_map_del e (u8 x)) e (mappedQFIs2Release c).

(** Without SDAP headers, every rule of the table is for the DRB of the configuration. *)
Definition one_drb (e : nr_sdap_entity_t) (drb : Z) : bool :=
  forallb (λ m, (drb_id m =? SDAP_NO_MAPPING_RULE) || (drb_id m =? drb)) (qfi2drb_table e).

Definition nr_sdap_qfi2drb_map_update (e : nr_sdap_entity_t) (c : sdap_config_t)
    : res (list sdap_event * nr_sdap_entity_t) :=
  _ ← assert_that (enable_sdap e || one_drb e (cfg_drb_id c));
  ev ← (if is_gnb e then Ok [] else nr_sdap_ue_control_pdu_config e (ue_id e) c);
  e ← nr_sdap_add_qos_flows_to_drb e c;
  e ← nr_sdap_rm_qos_flows_from_drb e c;
  Ok (ev, e).

(** ** The entities *)

Abbreviation sdap_info := (list nr_sdap_entity_t).

Definition has_ids (ue pdusession : Z) (e : nr_sdap_entity_t) : bool :=
  (ue_id e =? ue) && (pdusession_id e =? pdusession).

(** The loop stops at the first entity with these ids, or at the last entity. *)
Fixpoint nr_sdap_get_entity (l : sdap_info) (ue pdusession : Z) : option nr_sdap_entity_t :=
  match l with
  | [] => None
  | e :: l => if has_ids ue pdusession e then Some e else nr_sdap_get_entity l ue pdusession
  end.

(** Writing through the pointer [nr_sdap_get_entity] returned. *)
Fixpoint put_entity (l : sdap_info) (ue pdusession : Z) (x : nr_sdap_entity_t) : sdap_info :=
  match l with
  | [] => []
  | e :: l => if has_ids ue pdusession e then x :: l else e :: put_entity l ue pdusession x
  end.

Definition get_sdap_role (gnb header_ul header_dl : bool) : Z :=
  let role_ul := if gnb then SDAP_UL_RX else SDAP_UL_TX in
  let role_dl := if gnb then SDAP_DL_TX else SDAP_DL_RX in
  let r := NO_SDAP_HEADER in
  let r := if header_ul then Z.lor r role_ul else r in
  if header_dl then Z.lor r role_dl else r.

(** The fields of [NR_SDAP_Config_t] that SDAP reads. *)
Record NR_SDAP_Config_t := mk_sdap_Config {
  pdu_Session : Z;
  sdap_HeaderUL : bool;
  sdap_HeaderDL : bool;
  cfg_defaultDRB : bool;
  mappedQoS_FlowsToAdd : option (list Z);
  mappedQoS_FlowsToRelease : option (list Z)
}.

(** The first elements of an ASN.1 list: its count is stored in a [uint8_t]. *)
Definition captured (l : option (list Z)) : res (list Z) :=
  match l with
  | None => Ok []
  | Some l =>
      let count := u8 (zlen l) in
      _ ← assert_that (count <=? SDAP_MAX_QFI);
      Ok (take (Z.to_nat count) l)
  end.

Definition nr_sdap_get_config (gnb : bool) (sdap_Config : option NR_SDAP_Config_t) (drb : Z)
    : res sdap_config_t :=
  match sdap_Config with
  | None => Exit
  | Some c =>
      add ← captured (mappedQoS_FlowsToAdd c);
      release ← captured (mappedQoS_FlowsToRelease c);
      Ok (mk_config (pdu_Session c) drb (get_sdap_role gnb (sdap_HeaderUL c) (sdap_HeaderDL c))
            (cfg_defaultDRB c) add release)
  end.

(** The TUN interface of the first UE of a gNB without core network: [sock] is the answer of
    [tuntap_alloc]. *)
Definition start_sdap_tun_gnb (l : sdap_info) (ue pdusession sock : Z) : res sdap_info :=
  match nr_sdap_get_entity l ue pdusession with
  | None => Exit
  | Some e =>
      _ ← assert_that (is_gnb e);
      Ok (put_entity l ue pdusession (e <| pdusession_sock := sock |> <| has_if_name := true |>))
  end.

Definition start_sdap_tun_ue (l : sdap_info) (ue pdusession sock : Z) : res sdap_info :=
  match nr_sdap_get_entity l ue pdusession with
  | None => Exit
  | Some e =>
      _ ← assert_that (negb (is_gnb e));
      Ok (put_entity l ue pdusession
            (e <| pdusession_sock := sock |> <| has_if_name := true |> <| stop_thread := false |>))
  end.

(** [nos1] is [IS_SOFTMODEM_NOS1]. *)
Definition nr_sdap_add_entity (l : sdap_info) (nos1 gnb : bool) (ue : Z) (c : sdap_config_t)
    (sock : Z) : res sdap_info :=
  let e := mk_entity ue 0 gnb (negb (role c =? NO_SDAP_HEADER)) (cfg_pdusession_id c) (-1) false
             false 0 (replicate 64 (mk_qfi2drb 0 0)) in
  let e := if defaultDRB c then e <| default_drb := cfg_drb_id c |> else e in
  _ ← assert_that (enable_sdap e || (zlen (mappedQFIs2Add c) <=? 1));
  e ← nr_sdap_add_qos_flows_to_drb e c;
  let l := e :: l in
  if nos1 && gnb then start_sdap_tun_gnb l ue (pdusession_id e) sock else Ok l.

Definition nr_sdap_addmod_entity (l : sdap_info) (nos1 gnb : bool) (ue : Z) (c : sdap_config_t)
    (sock : Z) : res (list sdap_event * sdap_info) :=
  match nr_sdap_get_entity l ue (cfg_pdusession_id c) with
  | Some e =>
      '(ev, e) ← nr_sdap_qfi2drb_map_update e c;
      Ok (ev, put_entity l ue (cfg_pdusession_id c) e)
  | None => l ← nr_sdap_add_entity l nos1 gnb ue c sock; Ok ([], l)
  end.

Definition nr_sdap_release_drb (l : sdap_info) (ue drb pdusession : Z) : sdap_info :=
  match nr_sdap_get_entity l ue pdusession with
  | Some e =>
      let t := map (λ m, if drb_id m =? drb then m <| drb_id := SDAP_NO_MAPPING_RULE |> else m)
                 (qfi2drb_table e) in
      put_entity l ue pdusession (e <| qfi2drb_table := t |>)
  | None => l
  end.

(** The list of the QFIs to release: those of the table, from [q] on, that are mapped to [drb]
    and not among [qfis]. *)
Fixpoint release_list (t : list qfi2drb_t) (q drb : Z) (qfis acc : list Z) : res (list Z) :=
  match t with
  | [] => Ok acc
  | m :: t =>
      if (drb_id m =? drb) && negb (existsb (Z.eqb q) qfis) then
        _ ← assert_that (zlen acc <? SDAP_MAX_QFI);
        release_list t (q + 1) drb qfis (acc ++ [q])
      else release_list t (q + 1) drb qfis acc
  end.

(** Writing more than 64 QFIs overruns the array of the configuration. *)
Definition nr_sdap_entity_update_qos_flows (l : sdap_info) (ue pdusession drb : Z)
    (qfis : list Z) : res (list sdap_event * sdap_info) :=
  match nr_sdap_get_entity l ue pdusession with
  | None => Ok ([], l)
  | Some e =>
      let r := if enable_sdap e
               then if is_gnb e then Z.lor SDAP_UL_RX SDAP_DL_TX else Z.lor SDAP_UL_TX SDAP_DL_RX
               else NO_SDAP_HEADER in
      release ← release_list (qfi2drb_table e) 0 drb qfis [];
      if SDAP_MAX_QFI <? zlen qfis then UB
      else
        let c := mk_config pdusession drb r (default_drb e =? drb) qfis release in
        '(ev, e) ← nr_sdap_qfi2drb_map_update e c;
        Ok (ev, put_entity l ue pdusession e)
  end.

(** [pthread_join] is assumed to succeed. *)
Definition remove_ip_if (e : nr_sdap_entity_t) : res (list sdap_event) :=
  _ ← assert_that (has_if_name e); Ok [remove_if (pdusession_sock e)].

(** [if (sock != -1) remove_ip_if(e); free(e);] *)
Definition free_entity (e : nr_sdap_entity_t) : res (list sdap_event) :=
  if negb (pdusession_sock e =? -1) then remove_ip_if e else Ok [].

(** The search loop of [nr_sdap_delete_entity]; [e] is the current entity, [l] its successors
    and [todo] what is left of the bound on the number of steps. *)
Fixpoint delete_after (todo : nat) (e : nr_sdap_entity_t) (l : sdap_info) (ue pdusession : Z)
    : res (bool * list sdap_event * sdap_info) :=
  if has_ids ue pdusession e then ev ← free_entity e; Ok (true, ev, l)
  else match l, todo with
  | e' :: l', S todo' =>
      '(r, ev, l) ← delete_after todo' e' l' ue pdusession; Ok (r, ev, e :: l)
  | _, _ => Ok (false, [], e :: l)
  end.

Section delete.
(** [SDAP_MAX_NUM_OF_ENTITIES], which depends on the build. *)
Variable max_entities : nat.

Definition nr_sdap_delete_entity (l : sdap_info) (ue pdusession : Z)
    : res (bool * list sdap_event * sdap_info) :=
  match l with
  | [] => if (pdusession <? 0) || (NR_MAX_NB_PDU_SESSIONS <? pdusession) then Ok (false, [], [])
          else UB
  | e :: l => delete_after max_entities e l ue pdusession
  end.
End delete.

(** The first loop of [nr_sdap_delete_ue_entities]; returns whether it deleted something. *)
Fixpoint delete_heads (l : sdap_info) (ue : Z) : res (bool * list sdap_event * sdap_info) :=
  match l with
  | e :: l' =>
      if ue_id e =? ue then
        ev ← free_entity e;
        '(_, evs, l') ← delete_heads l' ue;
        Ok (true, ev ++ evs, l')
      else Ok (false, [], l)
  | [] => Ok (false, [], [])
  end.

(** The second loop; its bound is never reached because the counter is not incremented. *)
Fixpoint delete_rest (l : sdap_info) (ue : Z) : res (bool * list sdap_event * sdap_info) :=
  match l with
  | [] => Ok (false, [], [])
  | e :: l' =>
      if ue_id e =? ue then
        ev ← free_entity e;
        '(_, evs, l') ← delete_rest l' ue;
        Ok (true, ev ++ evs, l')
      else '(r, evs, l') ← delete_rest l' ue; Ok (r, evs, e :: l')
  end.

Definition nr_sdap_delete_ue_entities (l : sdap_info) (ue : Z)
    : res (bool * list sdap_event * sdap_info) :=
  match l with
  | [] =>
      (* [ue_id * (ue_id - SDAP_MAX_UE_ID) > 0] is only a warning: both ways nothing is deleted *)
      Ok (false, [], [])
  | _ =>
      '(r1, ev1, l) ← delete_heads l ue;
      '(r2, ev2, l) ← delete_rest l ue;
      Ok (r1 || r2, ev1 ++ ev2, l)
  end.

Definition nr_reconfigure_sdap_entity (l : sdap_info) (sdap_config : option NR_SDAP_Config_t)
    (ue pdusession drb : Z) : res (list sdap_event * sdap_info) :=
  match nr_sdap_get_entity l ue pdusession with
  | None => Ok ([], l)
  | Some e =>
      c ← nr_sdap_get_config false sdap_config drb;
      '(ev, e) ← nr_sdap_qfi2drb_map_update e c;
      Ok (ev, put_entity l ue pdusession e)
  end.

Definition set_qfi (l : sdap_info) (q pduid ue : Z) : res sdap_info :=
  match nr_sdap_get_entity l ue pduid with
  | None => Exit
  | Some e => Ok (put_entity l ue pduid (e <| qfi := q |>))
  end.

(** ** Entry points of [nr_sdap.c] *)

Definition sdap_data_req (l : sdap_info) (args : req_args) (ue : Z) (sdu_buffer : option bytes)
    (q : Z) (rqi : bool) (pdusession : Z) (accepted : bool) : res (list sdap_event * bool) :=
  match nr_sdap_get_entity l ue pdusession with
  | None => Ok ([], false)
  | Some e => nr_sdap_tx_entity e args sdu_buffer q rqi accepted
  end.

Definition sdap_data_ind (l : sdap_info) (pdcp_entity : Z) (gnb : bool) (pdusession ue : Z)
    (buf : bytes) : res (list sdap_event * sdap_info) :=
  match nr_sdap_get_entity l ue pdusession with
  | None => Ok ([], l)
  | Some e =>
      '(ev, e) ← nr_sdap_rx_entity e pdcp_entity gnb pdusession ue buf;
      Ok (ev, put_entity l ue pdusession e)
  end.

(** One packet read by [sdap_tun_read_thread]; the UE always sends data PDUs. *)
Definition tun_packet (e : nr_sdap_entity_t) (args : req_args) (buf : bytes) (accepted : bool)
    : res (list sdap_event * bool) :=
  let dc := if is_gnb e then false else negb (SDAP_HDR_UL_DATA_PDU =? 0) in
  nr_sdap_tx_entity e args (Some buf) (u8 (qfi e)) dc accepted.
