(* ===== verification/SdapFacts.v ===== *)
(** * NR SDAP: invariant and lemmas

    The well-formedness of the entities and of their list, the effect of the table operations
    on the QoS-flow mapping, and the correspondence of the list with a finite map. *)

From S2P Require Import Prelude Sdap.

(** An entity has a whole table, and a TUN socket only with its interface. *)
Record entity_ok (e : nr_sdap_entity_t) : Prop := {
  eo_table : length (qfi2drb_table e) = 64%nat;
  eo_sock : pdusession_sock e ≠ -1 → has_if_name e = true
}.

Definition key (e : nr_sdap_entity_t) : Z * Z := (ue_id e, pdusession_id e).

(** There is one entity per UE and PDU session. *)
Record sdap_ok (l : sdap_info) : Prop := {
  so_keys : NoDup (map key l);
  so_entities : Forall entity_ok l
}.

Definition with_table (e : nr_sdap_entity_t) (t : list qfi2drb_t) : nr_sdap_entity_t :=
  e <| qfi2drb_table := t |>.

Lemma has_ids_key ue p e : has_ids ue p e = bool_decide (key e = (ue, p)).
Proof.
  unfold has_ids, key. destruct (Z.eqb_spec (ue_id e) ue), (Z.eqb_spec (pdusession_id e) p); simpl;
    symmetry; (apply bool_decide_eq_true; congruence) || (apply bool_decide_eq_false; congruence).
Qed.

Lemma entity_ok_table e t : entity_ok e → length t = 64%nat → entity_ok (with_table e t).
Proof. intros [H1 H2] Ht. by constructor. Qed.

(** ** The table *)

Lemma table_at_ok e q :
  length (qfi2drb_table e) = 64%nat → 0 <= q < 64 →
  ∃ m, table_at e q = Ok m ∧ qfi2drb_table e !! Z.to_nat q = Some m.
Proof.
  intros Hl Hq. destruct (znth_is_Some (qfi2drb_table e) q) as [m Hm]; [unfold zlen; lia |].
  exists m. unfold table_at. rewrite Hm. split; [done |]. by rewrite <- znth_lookup by lia.
Qed.

Lemma set_table_ok e q m :
  length (qfi2drb_table e) = 64%nat → 0 <= q < 64 →
  set_table e q m = Ok (with_table e (<[Z.to_nat q := m]> (qfi2drb_table e))).
Proof. intros Hl Hq. unfold set_table. by rewrite zset_Ok by (unfold zlen; lia). Qed.

(** The table after [f] was called for each QFI of [l]: the entries of the QFIs for which [P]
    holds are [m], the others are as before. *)
Definition table_after (P : Z → bool) (m : qfi2drb_t) (t t' : list qfi2drb_t) : Prop :=
  length t' = 64%nat ∧
  ∀ n, (n < 64)%nat → t' !! n = if P (Z.of_nat n) then Some m else t !! n.

Lemma for_each_table f m (sel : Z → bool) e l :
  length (qfi2drb_table e) = 64%nat →
  (∀ x, x ∈ l → sel x = true → u8 x < 64) →
  (∀ e x, length (qfi2drb_table e) = 64%nat → x ∈ l →
     f e x = Ok (if sel x then with_table e (<[Z.to_nat (u8 x) := m]> (qfi2drb_table e)) else e)) →
  ∃ t, for_each f e l = Ok (with_table e t) ∧
    table_after (λ n, existsb (λ x, sel x && (u8 x =? n)) l) m (qfi2drb_table e) t.
Proof.
  intros Hl. revert e Hl. induction l as [| x l IH]; intros e Hl Hs Hf; simpl.
  { exists (qfi2drb_table e). split; [by destruct e |]. split; [done |]. by intros n Hn. }
  rewrite Hf by (done || by left). simpl.
  set (e1 := if sel x then _ else e).
  assert (Hl1 : length (qfi2drb_table e1) = 64%nat).
  { unfold e1. destruct (sel x); [| done]. unfold with_table. simpl. by rewrite length_insert. }
  destruct (IH e1 Hl1) as (t & Ht & Hlt & Hat).
  { intros y Hy. apply Hs. by right. }
  { intros e2 y He2 Hy. apply Hf; [done | by right]. }
  exists t. split.
  - rewrite Ht. unfold e1. by destruct (sel x).
  - split; [done |]. intros n Hn. rewrite Hat by done.
    destruct (existsb _ l) eqn:Hex; [by rewrite orb_true_r |]. rewrite orb_false_r.
    unfold e1. destruct (sel x) eqn:Hx; simpl; [| done].
    specialize (Hs x ltac:(by left) Hx). pose proof (u8_range x).
    destruct (Z.eqb_spec (u8 x) (Z.of_nat n)) as [Heq | Hne].
    + rewrite <- (Nat2Z.id n), <- Heq. apply list_lookup_insert_eq. lia.
    + apply list_lookup_insert_ne. lia.
Qed.

(** The guard of [nr_sdap_add_qos_flows_to_drb]. *)
Definition valid_flow (c : sdap_config_t) (x : Z) : bool :=
  (u8 x <? SDAP_MAX_QFI) && (SDAP_MAP_RULE_EMPTY <? cfg_drb_id c)
    && (cfg_drb_id c <=? MAX_DRBS_PER_UE).

Lemma add_flows_ok c e :
  length (qfi2drb_table e) = 64%nat →
  ∃ t, nr_sdap_add_qos_flows_to_drb e c = Ok (with_table e t) ∧
    table_after (λ n, existsb (λ x, valid_flow c x && (u8 x =? n)) (mappedQFIs2Add c))
      (mk_qfi2drb (u8 (cfg_drb_id c)) (u8 (role c))) (qfi2drb_table e) t.
Proof.
  intros Hl. apply for_each_table; [done | |].
  - intros x _ [[Hx%Z.ltb_lt _]%andb_true_iff _]%andb_true_iff. exact Hx.
  - intros e1 x He1 _. unfold add_qos_flow, valid_flow. cbv zeta.
    destruct (_ && _ && _) eqn:E; [| done].
    unfold nr_sdap_qfi2drb_map_add. apply set_table_ok; [done |].
    pose proof (u8_range x). apply andb_true_iff in E as [[E%Z.ltb_lt _]%andb_true_iff _].
    unfold SDAP_MAX_QFI in E. lia.
Qed.

Lemma rm_flows_ok c e :
  length (qfi2drb_table e) = 64%nat → Forall (λ x, u8 x < 64) (mappedQFIs2Release c) →
  ∃ t, nr_sdap_rm_qos_flows_from_drb e c = Ok (with_table e t) ∧
    table_after (λ n, existsb (λ x, true && (u8 x =? n)) (mappedQFIs2Release c))
      (mk_qfi2drb SDAP_NO_MAPPING_RULE NO_SDAP_HEADER) (qfi2drb_table e) t.
Proof.
  intros Hl Hr. rewrite Forall_forall in Hr. apply for_each_table; [done | |].
  - intros x Hx _. auto.
  - intros e1 x He1 Hx. unfold nr_sdap_qfi2drb_map_del. apply set_table_ok; [done |].
    pose proof (u8_range x). specialize (Hr x Hx). lia.
Qed.

(** ** Control PDUs of the UE *)

Lemma end_marker_ok e ue t q :
  length (qfi2drb_table e) = 64%nat → 0 <= q < 64 → ∃ ev, end_marker e ue t q = Ok ev.
Proof.
  intros Hl Hq. unfold end_marker. destruct t; simpl; [by eexists |].
  unfold nr_sdap_qfi2drb. destruct (table_at_ok e q Hl Hq) as (m & -> & _). simpl. by eexists.
Qed.

Lemma control_pdu_ok e ue c q :
  length (qfi2drb_table e) = 64%nat → 0 <= q < 64 → ∃ ev, control_pdu_for e ue c q = Ok ev.
Proof.
  intros Hl Hq. unfold control_pdu_for. destruct (table_at_ok e q Hl Hq) as (m & Hm & _).
  destruct (end_marker_ok e ue SDAP_CTRL_PDU_MAP_DEF_DRB q Hl Hq) as [ev1 H1].
  destruct (end_marker_ok e ue SDAP_CTRL_PDU_MAP_RULE_DRB q Hl Hq) as [ev2 H2].
  rewrite Hm, H1, H2. destruct (negb (default_drb e =? 0)); simpl;
    repeat match goal with |- context [if ?b then _ else _] => destruct b; simpl end; by eexists.
Qed.

Lemma ue_control_pdus_ok e ue c l :
  length (qfi2drb_table e) = 64%nat → Forall (λ x, u8 x < 64) l →
  ∃ ev, ue_control_pdus e ue c l = Ok ev.
Proof.
  intros Hl Hq. induction Hq as [| x l Hx Hq [evs IH]]; simpl; [by eexists |].
  pose proof (u8_range x).
  destruct (control_pdu_ok e ue c (u8 x) Hl) as [ev ->]; [lia |].
  simpl. rewrite IH. by eexists.
Qed.

(** A configuration whose QFIs fit in the table. *)
Record config_ok (c : sdap_config_t) : Prop := {
  co_add : Forall (λ x, u8 x < 64) (mappedQFIs2Add c);
  co_release : Forall (λ x, u8 x < 64) (mappedQFIs2Release c)
}.

(** The update of the mapping changes only the table: first the added flows, then the released
    ones. *)
Lemma map_update_ok e c :
  entity_ok e → config_ok c →
  if enable_sdap e || one_drb e (cfg_drb_id c) then
    ∃ ev t1 t, nr_sdap_qfi2drb_map_update e c = Ok (ev, with_table e t) ∧
      (is_gnb e = true → ev = []) ∧
      table_after (λ n, existsb (λ x, valid_flow c x && (u8 x =? n)) (mappedQFIs2Add c))
        (mk_qfi2drb (u8 (cfg_drb_id c)) (u8 (role c))) (qfi2drb_table e) t1 ∧
      table_after (λ n, existsb (λ x, true && (u8 x =? n)) (mappedQFIs2Release c))
        (mk_qfi2drb SDAP_NO_MAPPING_RULE NO_SDAP_HEADER) t1 t
  else nr_sdap_qfi2drb_map_update e c = Exit.
Proof.
  intros [Hl Hs] [Ha Hr]. unfold nr_sdap_qfi2drb_map_update.
  destruct (enable_sdap e || one_drb e (cfg_drb_id c)); [| done]. simpl.
  destruct (ue_control_pdus_ok e (ue_id e) c _ Hl Ha) as [ev1 Hev].
  destruct (add_flows_ok c e Hl) as (t1 & Ht1 & Hlen & Hat1).
  destruct (rm_flows_ok c (with_table e t1) Hlen Hr) as (t & Ht & Hat).
  exists (if is_gnb e then [] else ev1), t1, t.
  unfold nr_sdap_ue_control_pdu_config. destruct (is_gnb e); simpl;
    rewrite ?Hev; simpl; rewrite Ht1; simpl; rewrite Ht; do 2 (split; [done |]); (split; [by split | exact Hat]).
Qed.

(** ** The list of entities as a finite map *)

Definition view (l : sdap_info) : gmap (Z * Z) nr_sdap_entity_t :=
  list_to_map (map (λ e, (key e, e)) l).

Lemma view_cons e l : view (e :: l) = <[key e := e]> (view l).
Proof. done. Qed.

Lemma get_entity_view l ue p : nr_sdap_get_entity l ue p = view l !! (ue, p).
Proof.
  induction l as [| e l IH]; simpl; [done |]. rewrite has_ids_key, view_cons.
  case_bool_decide as Hk; [rewrite <- Hk | rewrite lookup_insert_ne by done; exact IH].
  symmetry. apply lookup_insert_eq.
Qed.

Lemma view_is_Some l k : is_Some (view l !! k) ↔ k ∈ map key l.
Proof.
  destruct k as [ue p]. rewrite <- get_entity_view.
  induction l as [| e l IH]; simpl; [split; [by intros [] | by intros []%elem_of_nil] |].
  rewrite has_ids_key, elem_of_cons, <- IH. case_bool_decide as Hk.
  - split; [by left | by eexists].
  - split; [by right |]. intros [Heq | ?]; [by destruct Hk | done].
Qed.

Lemma view_None l k : view l !! k = None ↔ k ∉ map key l.
Proof. by rewrite <- view_is_Some, eq_None_not_Some. Qed.

Lemma get_entity_in l ue p e :
  nr_sdap_get_entity l ue p = Some e → e ∈ l ∧ key e = (ue, p).
Proof.
  induction l as [| x l IH]; simpl; [done |]. rewrite has_ids_key. case_bool_decide as Hk.
  - intros [= ->]. split; [left | done].
  - intros He. destruct (IH He). by split; [right |].
Qed.

Lemma get_entity_ok l ue p e : sdap_ok l → nr_sdap_get_entity l ue p = Some e → entity_ok e.
Proof.
  intros [_ Hl] [He _]%get_entity_in. rewrite Forall_forall in Hl. auto.
Qed.

(** Writing through the pointer replaces the entity of these ids. *)
Lemma put_entity_ok l ue p x :
  sdap_ok l → entity_ok x → key x = (ue, p) → is_Some (view l !! (ue, p)) →
  sdap_ok (put_entity l ue p x) ∧ view (put_entity l ue p x) = <[(ue, p) := x]> (view l).
Proof.
  intros [Hk Hl] Hx Hkx Hin. assert (H : map key (put_entity l ue p x) = map key l ∧
    Forall entity_ok (put_entity l ue p x) ∧
    view (put_entity l ue p x) = <[(ue, p) := x]> (view l)).
  { clear Hk. induction Hl as [| e l He Hl IH]; simpl.
    { by apply view_is_Some, elem_of_nil in Hin. }
    rewrite has_ids_key. case_bool_decide as Hke.
    - rewrite !view_cons. split_and!; [by rewrite <- Hke in Hkx; simpl; f_equal | by constructor |].
      by rewrite <- Hkx, Hkx, <- Hke, insert_insert_eq.
    - rewrite view_cons, lookup_insert_ne in Hin by done.
      destruct (IH Hin) as (IH1 & IH2 & IH3). rewrite !view_cons, IH3.
      split_and!; [by simpl; f_equal | by constructor | by rewrite insert_insert_ne]. }
  destruct H as (Hmap & Hf & Hv). split; [| done]. split; [by rewrite Hmap | done].
Qed.

Lemma cons_ok l e :
  sdap_ok l → entity_ok e → view l !! key e = None → sdap_ok (e :: l).
Proof.
  intros [Hk Hl] He Hn. split; simpl; [| by constructor].
  constructor; [by apply view_None | done].
Qed.

(** ** Deletion *)

Lemma free_entity_ok e : entity_ok e → ∃ ev, free_entity e = Ok ev ∧
  ev = if pdusession_sock e =? -1 then [] else [remove_if (pdusession_sock e)].
Proof.
  intros [_ Hs]. unfold free_entity, remove_ip_if. destruct (Z.eqb_spec (pdusession_sock e) (-1));
    simpl; [by eexists |]. rewrite Hs by done. by eexists.
Qed.

(** What the removal of the entities for which [P] holds leaves. *)
Record removed (P : nr_sdap_entity_t → bool) (l l' : sdap_info) (ev : list sdap_event) : Prop := {
  rm_list : l' = List.filter (λ e, negb (P e)) l;
  rm_events : ev = concat (map (λ e, if pdusession_sock e =? -1 then []
                                     else [remove_if (pdusession_sock e)]) (List.filter P l))
}.

Lemma delete_after_eq todo e l ue p :
  delete_after todo e l ue p =
    if has_ids ue p e then ev ← free_entity e; Ok (true, ev, l)
    else match l, todo with
    | e' :: l', S todo' =>
        '(r, ev, l) ← delete_after todo' e' l' ue p; Ok (r, ev, e :: l)
    | _, _ => Ok (false, [], e :: l)
    end.
Proof. by destruct todo, l. Qed.

Lemma delete_after_ok todo e l ue p :
  sdap_ok (e :: l) → (length l <= todo)%nat →
  ∃ ev l', delete_after todo e l ue p = Ok (existsb (has_ids ue p) (e :: l), ev, l') ∧
    removed (has_ids ue p) (e :: l) l' ev.
Proof.
  revert todo e. induction l as [| e' l IH]; intros todo e [Hk Hl] Ht; rewrite delete_after_eq.
  all: apply Forall_cons in Hl as [He Hl]; destruct (free_entity_ok e He) as (ev & Hfe & Hev).
  all: cbn [existsb]; destruct (has_ids ue p e) eqn:Hid; simpl.
  - rewrite Hfe. simpl. eexists _, _. split; [done |]. split; simpl; rewrite Hid; simpl;
      [done | by rewrite app_nil_r].
  - exists [], [e]. split; [by destruct todo |]. split; simpl; by rewrite Hid.
  - rewrite Hfe. simpl. eexists _, _. split; [done |].
    assert (Hnone : Forall (λ x, has_ids ue p x = false) (e' :: l)).
    { apply Forall_forall. intros x Hx. rewrite has_ids_key in Hid |- *.
      apply bool_decide_eq_true in Hid. apply bool_decide_eq_false.
      apply NoDup_cons in Hk as [Hk _]. intros Heq. apply Hk. rewrite Hid, <- Heq.
      by apply list_elem_of_In, (in_map key (e' :: l)), list_elem_of_In. }
    assert (Hf : List.filter (has_ids ue p) (e' :: l) = [] ∧
                 List.filter (λ x, negb (has_ids ue p x)) (e' :: l) = e' :: l).
    { clear -Hnone. induction Hnone as [| x l' Hx _ [IH1 IH2]]; [done |].
      simpl. rewrite Hx. simpl. by rewrite IH1, IH2. }
    destruct Hf as [Hf1 Hf2].
    split; cbn [List.filter]; rewrite Hid; cbn [negb]; [by rewrite <- Hf2 at 1 |].
    cbn [List.filter] in Hf1. rewrite Hf1. simpl. by rewrite app_nil_r.
  - destruct todo as [| todo]; [simpl in Ht; lia |].
    destruct (IH todo e') as (ev' & l' & Hd & [Hrl Hre]).
    { apply NoDup_cons in Hk as [_ Hk]. by split. }
    { simpl in Ht. lia. }
    rewrite Hd. simpl. eexists _, _. split; [done |].
    split; cbn [List.filter]; rewrite Hid; cbn [negb]; [by rewrite Hrl | done].
Qed.

(** Both loops of [nr_sdap_delete_ue_entities], the first one up to the first other UE. *)
Lemma delete_rest_ok l ue :
  Forall entity_ok l →
  ∃ ev l', delete_rest l ue = Ok (existsb (λ e, ue_id e =? ue) l, ev, l') ∧
    removed (λ e, ue_id e =? ue) l l' ev.
Proof.
  induction 1 as [| e l He Hl (ev & l' & Hd & [Hrl Hre])]; [by exists [], [] |].
  simpl. destruct (free_entity_ok e He) as (ev0 & Hf & ->).
  destruct (ue_id e =? ue) eqn:Hid; rewrite ?Hf; simpl; rewrite Hd; simpl;
    (eexists _, _; split; [done |]; split; simpl; rewrite Hid; simpl; by subst).
Qed.

Lemma delete_heads_ok l ue :
  Forall entity_ok l →
  ∃ n ev, (n <= length l)%nat ∧ Forall (λ e, ue_id e = ue) (take n l) ∧
    delete_heads l ue = Ok (existsb (λ e, ue_id e =? ue) (take n l), ev, drop n l) ∧
    removed (λ e, ue_id e =? ue) (take n l) [] ev.
Proof.
  induction 1 as [| e l He Hl (n & ev & Hn & Hall & Hd & [Hrl Hre])]; [by exists 0%nat, [] |].
  simpl. destruct (free_entity_ok e He) as (ev0 & Hf & ->).
  destruct (Z.eqb_spec (ue_id e) ue) as [Hid | Hid].
  - rewrite Hf. simpl. rewrite Hd. simpl. exists (S n). eexists. simpl.
    decide_true (ue_id e =? ue). simpl. split_and!; [lia | by constructor | done |].
    split; simpl; decide_true (ue_id e =? ue); simpl; [done | by subst].
  - exists 0%nat, []. simpl. split_and!; [lia | done | done | by split].
Qed.

Lemma removed_app P l1 l2 l1' l2' ev1 ev2 :
  removed P l1 l1' ev1 → removed P l2 l2' ev2 → removed P (l1 ++ l2) (l1' ++ l2') (ev1 ++ ev2).
Proof. intros [-> ->] [-> ->]. split; by rewrite !List.filter_app, ?map_app, ?concat_app. Qed.

Lemma delete_ue_ok l ue :
  Forall entity_ok l →
  ∃ ev l', nr_sdap_delete_ue_entities l ue = Ok (existsb (λ e, ue_id e =? ue) l, ev, l') ∧
    removed (λ e, ue_id e =? ue) l l' ev.
Proof.
  intros Hl. unfold nr_sdap_delete_ue_entities. destruct l as [| e l]; [by exists [], [] |].
  destruct (delete_heads_ok _ ue Hl) as (n & ev1 & Hn & Hall & -> & Hr1). cbn [mbind res_bind].
  destruct (delete_rest_ok (drop n (e :: l)) ue) as (ev2 & l2 & -> & Hr2); [by apply Forall_drop |].
  cbn [mbind res_bind]. exists (ev1 ++ ev2), l2.
  rewrite <- (take_drop n (e :: l)) at 3 4. rewrite existsb_app. split; [done |].
  by apply (removed_app _ _ _ []).
Qed.

(** The list that a removal leaves, as a map. *)
Lemma removed_view P (f : Z * Z → bool) l l' ev :
  (∀ e, P e = f (key e)) → sdap_ok l → removed P l l' ev →
  sdap_ok l' ∧ ∀ k, view l' !! k = if f k then None else view l !! k.
Proof.
  intros HP [Hk Hl] [-> _]. induction l as [| e l IH].
  { split; [by split |]. intros k. by destruct (f k). }
  apply NoDup_cons in Hk as [Hn Hk]. apply Forall_cons in Hl as [He Hl].
  destruct (IH Hk Hl) as [IH1 IH2]. simpl. rewrite HP. destruct (f (key e)) eqn:Hf; simpl.
  - split; [done |]. intros k. rewrite IH2. destruct (f k) eqn:Hfk; [done |].
    rewrite view_cons, lookup_insert_ne; [done | congruence].
  - split.
    + apply cons_ok; [done | done |]. rewrite IH2, Hf. by apply view_None.
    + intros k. rewrite !view_cons. destruct (decide (k = key e)) as [-> | Hne].
      * by rewrite Hf, !lookup_insert_eq.
      * rewrite !lookup_insert_ne by done. apply IH2.
Qed.

Lemma view_existsb P (f : Z * Z → bool) l :
  (∀ e, P e = f (key e)) → existsb P l = true ↔ ∃ k, is_Some (view l !! k) ∧ f k = true.
Proof.
  intros HP. rewrite existsb_exists. split.
  - intros (e & He & Hp). exists (key e). rewrite <- HP. split; [| done].
    apply view_is_Some, list_elem_of_In, in_map. done.
  - intros (k & Hk & Hf). apply view_is_Some, list_elem_of_In, in_map_iff in Hk as (e & <- & He).
    exists e. by rewrite HP.
Qed.

(** ** Creation *)

(** The entity that [nr_sdap_add_entity] creates, before its TUN interface. *)
Definition new_entity (gnb : bool) (ue : Z) (c : sdap_config_t) (t : list qfi2drb_t) :=
  mk_entity ue (if defaultDRB c then cfg_drb_id c else 0) gnb (negb (role c =? NO_SDAP_HEADER))
    (cfg_pdusession_id c) (-1) false false 0 t.

Lemma add_entity_ok l nos1 gnb ue c sock :
  if negb (role c =? NO_SDAP_HEADER) || (zlen (mappedQFIs2Add c) <=? 1) then
    ∃ t, nr_sdap_add_entity l nos1 gnb ue c sock =
           (if nos1 && gnb
            then start_sdap_tun_gnb (new_entity gnb ue c t :: l) ue (cfg_pdusession_id c) sock
            else Ok (new_entity gnb ue c t :: l)) ∧
      table_after (λ n, existsb (λ x, valid_flow c x && (u8 x =? n)) (mappedQFIs2Add c))
        (mk_qfi2drb (u8 (cfg_drb_id c)) (u8 (role c))) (replicate 64 (mk_qfi2drb 0 0)) t
  else nr_sdap_add_entity l nos1 gnb ue c sock = Exit.
Proof.
  unfold nr_sdap_add_entity. cbv zeta. set (t0 := replicate 64 (mk_qfi2drb 0 0)).
  match goal with |- context [if defaultDRB c then ?a else ?b] =>
    assert (He0 : (if defaultDRB c then a else b) = new_entity gnb ue c t0)
      by (unfold new_entity; by destruct (defaultDRB c));
    rewrite !He0
  end. change (enable_sdap (new_entity gnb ue c t0)) with (negb (role c =? NO_SDAP_HEADER)).
  destruct (negb (role c =? NO_SDAP_HEADER) || (zlen (mappedQFIs2Add c) <=? 1)); [| done].
  destruct (add_flows_ok c (new_entity gnb ue c t0)) as (t & Ht & Hat); [reflexivity |].
  exists t. cbn [assert_that mbind res_bind]. rewrite Ht. by split.
Qed.
