(* ===== verification/SdapProps.v ===== *)
(** * NR SDAP: theorems

    Update of the QoS flows of a DRB, transfer of an SDU between the two ends, the list of
    entities as a map, safety of any sequence of operations, and an abort of the gNB. *)

From S2P Require Import Prelude Sdap SdapFacts.

(** ** Update of the QoS flows of a DRB *)

Lemma release_list_ok t q drb qfis acc :
  0 <= zlen acc <= q → q + zlen t <= 64 →
  ∃ rel, release_list t q drb qfis acc = Ok (acc ++ rel) ∧
    ∀ x, x ∈ rel ↔ q <= x ∧ (x ∉ qfis) ∧ ∃ m, t !! Z.to_nat (x - q) = Some m ∧ drb_id m = drb.
Proof.
  revert q acc. induction t as [| m t IH]; intros q acc Ha Hq; simpl.
  { exists []. rewrite app_nil_r. split; [done |]. intros x. split; [by intros []%elem_of_nil |].
    intros (_ & _ & m & Hm & _). by rewrite lookup_nil in Hm. }
  rewrite zlen_cons in Hq. pose proof (zlen_nonneg t). destruct (_ && negb _) eqn:E.
  - apply andb_true_iff in E as [Hd%Z.eqb_eq Hq'%negb_true_iff].
    replace (zlen acc <? SDAP_MAX_QFI) with true by (symmetry; apply Z.ltb_lt; unfold SDAP_MAX_QFI; lia). simpl.
    destruct (IH (q + 1) (acc ++ [q])) as (rel & Hr & Hin);
      [zlen_lia | lia |].
    exists (q :: rel). rewrite Hr, <- app_assoc. split; [done |].
    intros x. rewrite elem_of_cons, Hin. split.
    + intros [-> | (H1 & H2 & m' & H3 & H4)].
      * split_and!; [lia | | exists m; by rewrite Z.sub_diag].
        intros Hx. assert (existsb (Z.eqb q) qfis = true); [| congruence].
        apply existsb_exists. exists q. by rewrite <- list_elem_of_In, Z.eqb_refl.
      * split_and!; [lia | done |]. exists m'. split; [| done].
        by replace (Z.to_nat (x - q)) with (S (Z.to_nat (x - (q + 1)))) by lia.
    + intros (H1 & H2 & m' & H3 & H4). destruct (Z.eq_dec x q) as [| Hne]; [by left | right].
      split_and!; [lia | done |]. exists m'. split; [| done].
      by replace (Z.to_nat (x - q)) with (S (Z.to_nat (x - (q + 1)))) in H3 by lia.
  - destruct (IH (q + 1) acc) as (rel & Hr & Hin); [lia | lia |]. exists rel.
    split; [done |]. intros x. rewrite Hin. split.
    + intros (H1 & H2 & m' & H3 & H4). split_and!; [lia | done |]. exists m'. split; [| done].
      by replace (Z.to_nat (x - q)) with (S (Z.to_nat (x - (q + 1)))) by lia.
    + intros (H1 & H2 & m' & H3 & H4). destruct (Z.eq_dec x q) as [-> | Hne].
      { rewrite Z.sub_diag in H3. simplify_eq/=. rewrite Z.eqb_refl in E.
        apply negb_false_iff, existsb_exists in E as (y & Hy & ->%Z.eqb_eq).
        by apply list_elem_of_In in Hy. }
      split_and!; [lia | done |]. exists m'. split; [| done].
      by replace (Z.to_nat (x - q)) with (S (Z.to_nat (x - (q + 1)))) in H3 by lia.
Qed.

Lemma existsb_u8 l n :
  Forall (λ x, 0 <= x < 64) l → existsb (λ x, u8 x =? n) l = bool_decide (n ∈ l).
Proof.
  intros Hl. rewrite Forall_forall in Hl. case_bool_decide as Hn.
  - apply existsb_exists. exists n. specialize (Hl n Hn). rewrite u8_small by lia.
    by rewrite <- list_elem_of_In, Z.eqb_refl.
  - apply not_true_iff_false. intros (x & Hx & Heq%Z.eqb_eq)%existsb_exists.
    apply list_elem_of_In in Hx. specialize (Hl x Hx). rewrite u8_small in Heq by lia. by subst.
Qed.

Lemma table_at_lookup e q m :
  0 <= q → table_at e q = Ok m ↔ qfi2drb_table e !! Z.to_nat q = Some m.
Proof.
  intros Hq. unfold table_at. rewrite znth_lookup by done.
  destruct (_ !! _); simpl; split; congruence.
Qed.

(** The role that an update gives to the flows it adds. *)
Definition both_headers (gnb : bool) : Z :=
  if gnb then Z.lor SDAP_UL_RX SDAP_DL_TX else Z.lor SDAP_UL_TX SDAP_DL_RX.

Lemma update_entity_ok e p drb qfis rel :
  entity_ok e → enable_sdap e = true → 0 < drb <= 32 → Forall (λ q, 0 <= q < 64) qfis →
  (∀ x, x ∈ rel ↔ 0 <= x ∧ (x ∉ qfis) ∧
     ∃ m, qfi2drb_table e !! Z.to_nat (x - 0) = Some m ∧ drb_id m = drb) →
  ∃ ev t, nr_sdap_qfi2drb_map_update e
            (mk_config p drb (both_headers (is_gnb e)) (default_drb e =? drb) qfis rel)
          = Ok (ev, with_table e t) ∧ (is_gnb e = true → ev = []) ∧ length t = 64%nat ∧
    ∀ q m, 0 <= q < 64 → table_at e q = Ok m →
      table_at (with_table e t) q =
        Ok (if decide (q ∈ qfis) then mk_qfi2drb drb (both_headers (is_gnb e))
            else if drb_id m =? drb then mk_qfi2drb 0 0 else m).
Proof.
  intros He Hen Hd Hq Hrel. set (c := mk_config _ _ _ _ _ _).
  assert (Hr : Forall (λ x, 0 <= x < 64) rel).
  { apply Forall_forall. intros x (H1 & _ & m & Hm%lookup_lt_Some & _)%Hrel.
    rewrite (eo_table _ He) in Hm. lia. }
  assert (Hc : config_ok c).
  { split; simpl; (eapply Forall_impl; [exact Hq || exact Hr |]); simpl; intros x Hx;
      rewrite u8_small; lia. }
  pose proof (map_update_ok e c He Hc) as H. rewrite Hen in H. simpl orb in H. cbv iota in H.
  destruct H as (ev & t1 & t & Hu & Hev & (_ & H1) & (Hlt & H2)).
  exists ev, t. split_and!; [exact Hu | done | done |]. intros q m Hqr Hm.
  apply table_at_lookup in Hm; [| lia]. apply table_at_lookup; [lia |]. simpl.
  rewrite H2, H1, Z2Nat.id by lia. cbn [mappedQFIs2Release c].
  change (existsb (λ x, true && (u8 x =? q)) rel) with (existsb (λ x, u8 x =? q) rel).
  rewrite (existsb_u8 rel) by done.
  assert (Hadd : existsb (λ x, valid_flow c x && (u8 x =? q)) qfis = bool_decide (q ∈ qfis)).
  { rewrite <- existsb_u8 by done.
    assert (Hv : ∀ x, 0 <= x < 64 → valid_flow c x = true).
    { intros x Hx. unfold valid_flow, SDAP_MAX_QFI, SDAP_MAP_RULE_EMPTY, MAX_DRBS_PER_UE.
      simpl. rewrite u8_small by lia. by decide_true ((x <? 64) && (0 <? drb) && (drb <=? 32)). }
    clear -Hq Hv. clearbody c. induction Hq as [| x l Hx Hq IH]; simpl; [done |].
    by rewrite IH, Hv. }
  cbn [mappedQFIs2Add c]. rewrite Hadd. cbn [cfg_drb_id role c].
  destruct (decide (q ∈ qfis)) as [Hin | Hnin].
  - rewrite bool_decide_eq_false_2; [| by intros (_ & ? & _)%Hrel].
    rewrite bool_decide_eq_true_2 by done. rewrite u8_small by lia. by destruct (is_gnb e).
  - rewrite (bool_decide_eq_false_2 (q ∈ qfis)) by done.
    destruct (Z.eqb_spec (drb_id m) drb) as [Hdm | Hdm].
    + rewrite bool_decide_eq_true_2; [done |]. apply Hrel. split_and!; [lia | done |].
      exists m. by rewrite Z.sub_0_r.
    + rewrite bool_decide_eq_false_2; [done |].
      intros (_ & _ & m' & Hm' & Hd')%Hrel. rewrite Z.sub_0_r in Hm'. simplify_eq.
Qed.

(** (functional) an update of the QoS flows of a DRB, on an entity with SDAP headers, maps
    exactly the listed QFIs to the DRB, with both headers: a QFI listed gets the DRB whatever it
    had, a QFI of the DRB that is not listed loses its rule, the other rules, the other fields
    and the other entities do not change, and a gNB sends nothing. *)
Theorem sdap_update_qos_flows_exact l ue p drb qfis e :
  sdap_ok l → nr_sdap_get_entity l ue p = Some e → enable_sdap e = true →
  0 < drb <= 32 → Forall (λ q, 0 <= q < 64) qfis → zlen qfis <= 64 →
  ∃ ev t l', nr_sdap_entity_update_qos_flows l ue p drb qfis = Ok (ev, l') ∧
    (is_gnb e = true → ev = []) ∧ sdap_ok l' ∧
    view l' = <[(ue, p) := with_table e t]> (view l) ∧
    ∀ q m, 0 <= q < 64 → table_at e q = Ok m →
      table_at (with_table e t) q =
        Ok (if decide (q ∈ qfis) then mk_qfi2drb drb (both_headers (is_gnb e))
            else if drb_id m =? drb then mk_qfi2drb 0 0 else m).
Proof.
  intros Hl Hget Hen Hd Hq Hlen. pose proof (get_entity_ok _ _ _ _ Hl Hget) as He.
  destruct (release_list_ok (qfi2drb_table e) 0 drb qfis []) as (rel & Hrel & Hin);
    [done | unfold zlen; rewrite (eo_table _ He); lia |].
  destruct (update_entity_ok e p drb qfis rel He Hen Hd Hq Hin) as (ev & t & Hu & Hev & Hlt & Ht).
  destruct (put_entity_ok l ue p (with_table e t) Hl) as [Hl' Hv].
  { by apply entity_ok_table. }
  { exact (proj2 (get_entity_in _ _ _ _ Hget)). }
  { rewrite <- get_entity_view, Hget. by eexists. }
  exists ev, t, (put_entity l ue p (with_table e t)). split_and!; [| done..].
  unfold nr_sdap_entity_update_qos_flows. rewrite Hget, Hrel, Hen.
  cbn [mbind res_bind app]. unfold SDAP_MAX_QFI. decide_false (64 <? zlen qfis).
  change (if is_gnb e then _ else _) with (both_headers (is_gnb e)). by rewrite Hu.
Qed.

(** A gNB entity with two flows on DRB 4 and one on DRB 5, alone in the list. *)
Definition demo_table : list qfi2drb_t :=
  <[9%nat := mk_qfi2drb 5 6]> (<[7%nat := mk_qfi2drb 4 6]> (<[1%nat := mk_qfi2drb 4 6]>
    (replicate 64 (mk_qfi2drb 0 0)))).
Definition demo_gnb : nr_sdap_entity_t := mk_entity 1 4 true true 10 (-1) false false 0 demo_table.

Lemma demo_ok : sdap_ok [demo_gnb].
Proof.
  split; [by apply NoDup_singleton |]. apply Forall_singleton. by split.
Qed.

Lemma sdap_update_qos_flows_exact_witness :
  ∃ ev t l', nr_sdap_entity_update_qos_flows [demo_gnb] 1 10 4 [7; 12] = Ok (ev, l') ∧
    table_at (with_table demo_gnb t) 1 = Ok (mk_qfi2drb 0 0) ∧
    table_at (with_table demo_gnb t) 12 = Ok (mk_qfi2drb 4 6).
Proof.
  destruct (sdap_update_qos_flows_exact [demo_gnb] 1 10 4 [7; 12] demo_gnb) as
    (ev & t & l' & H & _ & _ & _ & Ht);
    [apply demo_ok | reflexivity | reflexivity | lia | repeat constructor; lia | vm_compute; congruence |].
  exists ev, t, l'. split; [exact H |]. split.
  - rewrite (Ht 1 (mk_qfi2drb 4 6)); [reflexivity | lia | reflexivity].
  - rewrite (Ht 12 (mk_qfi2drb 0 0)); [reflexivity | lia | reflexivity].
Defined.

(** ** Transfer of an SDU *)

Lemma hdr_QFI_mod b : hdr_QFI b = b mod 64.
Proof. unfold hdr_QFI. change 63 with (Z.ones 6). by rewrite Z.land_ones by lia. Qed.

Lemma hdr_QFI_range b : 0 <= hdr_QFI b < 64.
Proof. rewrite hdr_QFI_mod. apply Z.mod_pos_bound. lia. Qed.

Lemma dl_hdr_fields q rqi :
  0 <= q < 64 → hdr_QFI (dl_hdr q rqi false) = q ∧ hdr_bit6 (dl_hdr q rqi false) = rqi ∧
    hdr_bit7 (dl_hdr q rqi false) = false ∧ 0 <= dl_hdr q rqi false < 256.
Proof.
  intros Hq. assert (He : dl_hdr q rqi false = q + 64 * b2z rqi).
  { unfold dl_hdr. rewrite Z.mod_small by lia. simpl. lia. }
  rewrite He. unfold hdr_bit6, hdr_bit7.
  rewrite hdr_QFI_mod, !Z.testbit_eqb by lia.
  destruct rqi; simpl; split_and!; try lia; bool_prop; try zdiv_lia; done.
Qed.

Lemma ul_hdr_fields q dc :
  0 <= q < 64 → hdr_QFI (ul_hdr q false dc) = q ∧ hdr_bit7 (ul_hdr q false dc) = Z.odd dc ∧
    0 <= ul_hdr q false dc < 256.
Proof.
  intros Hq. assert (Hm : 0 <= dc mod 2 < 2) by (apply Z.mod_pos_bound; lia).
  assert (He : ul_hdr q false dc = q + 128 * (dc mod 2)).
  { unfold ul_hdr. rewrite (Z.mod_small q) by lia. simpl. lia. }
  rewrite He, hdr_QFI_mod. unfold hdr_bit7. rewrite Z.testbit_eqb by lia.
  split_and!; [zdiv_lia | | lia | lia]. rewrite <- Z.bit0_odd, Z.testbit_eqb by lia.
  rewrite Z.pow_0_r, Z.div_1_r. f_equal. change (2 ^ 7) with 128. zdiv_lia.
Qed.

Inductive direction := Downlink | Uplink.

(** The role of the flow at the sender and at the receiver. *)
Definition tx_role (d : direction) : Z := match d with Downlink => SDAP_DL_TX | Uplink => SDAP_UL_TX end.
Definition rx_role (d : direction) : Z := match d with Downlink => SDAP_DL_RX | Uplink => SDAP_UL_RX end.

(** [t] sends the flow [q] in direction [d] to [r] on [drb]: the sender maps it to [drb] with a
    header in that direction only, the receiver still has a rule for it. *)
Record flow_between (d : direction) (t r : nr_sdap_entity_t) (q drb : Z) : Prop := {
  fb_qfi : 0 <= q < 64;
  fb_drb : drb ≠ 0;
  fb_tx : ∃ m, table_at t q = Ok m ∧ drb_id m = drb ∧ has_role (entity_role m) (tx_role d) = true ∧
            (d = Uplink → has_role (entity_role m) SDAP_DL_TX = false);
  fb_rx : ∃ m, table_at r q = Ok m ∧ drb_id m ≠ 0 ∧ has_role (entity_role m) (rx_role d) = true;
  fb_enabled : enable_sdap r = true
}.

(** What the receiver does with an SDU: the UE writes it to the socket of the session, the gNB
    sends it to the UPF with the QFI of the flow. *)
Definition delivery (d : direction) (r : nr_sdap_entity_t) (pdusession ue q : Z) (sdu : bytes)
    : sdap_event :=
  match d with
  | Downlink => write (pdusession_sock r) sdu
  | Uplink => gtpv1uSendDirectWithQFI ue pdusession q sdu
  end.
Definition at_gnb (d : direction) : bool := match d with Downlink => false | Uplink => true end.

Lemma slice_tail (b : Z) sdu : slice (b :: sdu) SDAP_HDR_LENGTH (zlen (b :: sdu) - SDAP_HDR_LENGTH) = Some sdu.
Proof.
  unfold SDAP_HDR_LENGTH. rewrite slice_Some by zlen_lia.
  simpl. rewrite drop_0, zlen_cons. replace (1 + zlen sdu - 1) with (zlen sdu) by lia. by rewrite take_zlen.
Qed.

(** C26: (roundtrip) an SDU of 1 to 8999 bytes of a flow that is configured with an SDAP header in
    its direction: the sender makes one request to PDCP, on the DRB of the flow, with a PDU one
    byte longer; the receiver of that PDU delivers the SDU byte for byte (the UE to the socket,
    the gNB to GTP-U marked with the same QFI) and keeps its configuration. *)
Theorem sdap_transfer d t r args q drb sdu rqi accepted pdcp_entity pdusession ue :
  flow_between d t r q drb → 0 < zlen sdu <= 8999 →
  ∃ pdu, nr_sdap_tx_entity t args (Some sdu) q rqi accepted
           = Ok ([nr_pdcp_data_req_drb args drb pdu], accepted) ∧
    zlen pdu = zlen sdu + 1 ∧
    nr_sdap_rx_entity r pdcp_entity (at_gnb d) pdusession ue pdu
      = Ok ([delivery d r pdusession ue q sdu], r).
Proof.
  intros [Hq Hd (mt & Hmt & Hdt & Hrt & Hul) (mr & Hmr & Hdr & Hrr) Hen] Hlen.
  destruct (dl_hdr_fields q rqi Hq) as (D1 & _ & D3 & _).
  destruct (ul_hdr_fields q (b2z rqi) Hq) as (U1 & _ & _).
  exists ((match d with Downlink => dl_hdr q rqi false | Uplink => ul_hdr q false (b2z rqi) end) :: sdu).
  split_and!.
  - unfold nr_sdap_tx_entity, nr_sdap_qfi2drb. rewrite Hmt. cbn [mbind res_bind].
    rewrite Hdt. unfold SDAP_MAP_RULE_EMPTY. decide_false (drb =? 0).
    cbn [negb]. decide_false (drb =? 0). decide_false (zlen sdu =? 0). decide_false (8999 <? zlen sdu).
    destruct d; simpl in Hrt; rewrite Hrt, ?andb_false_r, ?Hul by done; reflexivity.
  - zlen_lia.
  - unfold nr_sdap_rx_entity. rewrite Hen. destruct d; cbn [znth deref mbind res_bind at_gnb];
      unfold znth; simpl deref; cbn [mbind res_bind]; rewrite ?D1, ?U1; unfold SDAP_MAX_QFI, SDAP_NO_MAPPING_RULE;
      decide_false (64 <=? q); rewrite Hmr; cbn [mbind res_bind]; decide_false (drb_id mr =? 0);
      simpl in Hrr; rewrite Hrr.
    + unfold rx_ue, znth. simpl deref. cbn [mbind res_bind]. rewrite D3. cbn [mbind res_bind].
      by rewrite slice_tail.
    + unfold rx_gnb, znth. simpl deref. unfold SDAP_MAX_QFI.
      decide_true ((0 <=? q) && (q <? 64)). cbn [assert_that mbind res_bind]. rewrite U1, Z.eqb_refl.
      cbn [assert_that mbind res_bind]. by rewrite slice_tail.
Qed.

(** The two ends of a session as the configuration of RRC creates them: both headers, flows 5
    and 9 on DRB 3. *)
Definition demo_config : NR_SDAP_Config_t := mk_sdap_Config 10 true true true (Some [5; 9]) None.
Definition created (gnb : bool) (c : NR_SDAP_Config_t) (drb ue : Z) : nr_sdap_entity_t :=
  match (c ← nr_sdap_get_config gnb (Some c) drb; nr_sdap_add_entity [] false gnb ue c 0) with
  | Ok (e :: _) => e | _ => demo_gnb end.
Definition demo_args : req_args := mk_req 1 false 0 0 2 None None.

Lemma sdap_transfer_witness :
  ∃ pdu, nr_sdap_tx_entity (created false demo_config 3 1) demo_args (Some [10; 20; 30]) 9 true true
           = Ok ([nr_pdcp_data_req_drb demo_args 3 pdu], true) ∧
    nr_sdap_rx_entity (created true demo_config 3 1) 3 true 10 1 pdu
      = Ok ([gtpv1uSendDirectWithQFI 1 10 9 [10; 20; 30]], created true demo_config 3 1).
Proof.
  destruct (sdap_transfer Uplink (created false demo_config 3 1) (created true demo_config 3 1)
              demo_args 9 3 [10; 20; 30] true true 3 10 1) as (pdu & Ht & _ & Hr).
  - split; [lia | lia | | | reflexivity]; (eexists; split; [vm_compute; reflexivity |]);
      [repeat split | split; [simpl; lia | reflexivity]].
  - unfold zlen. simpl. lia.
  - exists pdu. exact (conj Ht Hr).
Defined.

(** ** The list of entities *)

Definition ids_of (ue p : Z) (k : Z * Z) : bool := bool_decide (k = (ue, p)).

Lemma delete_entity_ok max l ue p :
  sdap_ok l → l ≠ [] → (length l <= max)%nat →
  ∃ ev l', nr_sdap_delete_entity max l ue p = Ok (existsb (has_ids ue p) l, ev, l') ∧
    removed (has_ids ue p) l l' ev.
Proof.
  intros Hl Hne Hm. destruct l as [| e l]; [done |]. apply delete_after_ok; [done |].
  simpl in Hm. lia.
Qed.

(** The entity with its TUN interface, which the gNB without core network starts ([nos1]). *)
Definition with_tun (nos1 gnb : bool) (sock : Z) (e : nr_sdap_entity_t) : nr_sdap_entity_t :=
  if nos1 && gnb then e <| pdusession_sock := sock |> <| has_if_name := true |> else e.

Lemma addmod_new l nos1 gnb ue c sock :
  sdap_ok l → view l !! (ue, cfg_pdusession_id c) = None →
  if negb (role c =? NO_SDAP_HEADER) || (zlen (mappedQFIs2Add c) <=? 1) then
    ∃ t, nr_sdap_addmod_entity l nos1 gnb ue c sock = Ok ([], with_tun nos1 gnb sock (new_entity gnb ue c t) :: l) ∧
      sdap_ok (with_tun nos1 gnb sock (new_entity gnb ue c t) :: l)
  else nr_sdap_addmod_entity l nos1 gnb ue c sock = Exit.
Proof.
  intros Hl Hn. unfold nr_sdap_addmod_entity. rewrite get_entity_view, Hn.
  pose proof (add_entity_ok l nos1 gnb ue c sock) as Ha. destruct (_ || _); [| by rewrite Ha].
  destruct Ha as (t & -> & Hlt & _). exists t. unfold with_tun. destruct (nos1 && gnb) eqn:Htun.
  - apply andb_true_iff in Htun as [_ ->]. unfold start_sdap_tun_gnb.
    rewrite get_entity_view, view_cons. change (ue, cfg_pdusession_id c) with (key (new_entity true ue c t)) at 1.
    rewrite lookup_insert_eq. cbn [is_gnb new_entity assert_that mbind res_bind put_entity].
    assert (Hid : has_ids ue (cfg_pdusession_id c) (new_entity true ue c t) = true)
      by (unfold has_ids; simpl; by rewrite !Z.eqb_refl).
    change (is_gnb (new_entity true ue c t)) with true. cbn [assert_that mbind res_bind]. rewrite Hid.
    split; [done |]. by apply cons_ok; [| split |].
  - split; [done |]. by apply cons_ok; [| split |].
Qed.

(** C28: (refinement) the linked list of entities is a finite map from (UE, PDU session).  Finding
    an entity is the map's lookup.  Adding one for new ids is an insertion, with a TUN interface when
    the gNB has no core network, or stops at the assertion on a session without headers that has
    two or more flows.  Deleting one, in a list that is not empty and within the bound on the
    search, is the map's deletion, and the result tells whether it was there; in the empty list it
    returns [false] for an invalid PDU session and dereferences a null pointer for a valid one.
    Deleting a UE removes exactly its sessions.  Uniqueness of the ids is kept, and the TUN
    interfaces of the deleted entities, no others, are removed. *)
Theorem sdap_list_refines_map max l :
  sdap_ok l →
  (∀ ue p, nr_sdap_get_entity l ue p = view l !! (ue, p)) ∧
  (∀ nos1 gnb ue c sock, view l !! (ue, cfg_pdusession_id c) = None →
     if negb (role c =? NO_SDAP_HEADER) || (zlen (mappedQFIs2Add c) <=? 1) then
       ∃ t l', nr_sdap_addmod_entity l nos1 gnb ue c sock = Ok ([], l') ∧ sdap_ok l' ∧
         view l' = <[(ue, cfg_pdusession_id c) := with_tun nos1 gnb sock (new_entity gnb ue c t)]> (view l)
     else nr_sdap_addmod_entity l nos1 gnb ue c sock = Exit) ∧
  (∀ ue p, nr_sdap_delete_entity max [] ue p =
     if (p <? 0) || (NR_MAX_NB_PDU_SESSIONS <? p) then Ok (false, [], []) else UB) ∧
  (∀ ue p, l ≠ [] → (length l <= max)%nat →
     ∃ ev l', nr_sdap_delete_entity max l ue p = Ok (bool_decide (is_Some (view l !! (ue, p))), ev, l') ∧
       sdap_ok l' ∧ view l' = delete (ue, p) (view l) ∧ removed (has_ids ue p) l l' ev) ∧
  (∀ ue, ∃ ret ev l', nr_sdap_delete_ue_entities l ue = Ok (ret, ev, l') ∧
       (ret = true ↔ ∃ p, is_Some (view l !! (ue, p))) ∧
       sdap_ok l' ∧ (∀ k, view l' !! k = if k.1 =? ue then None else view l !! k) ∧
       removed (λ e, ue_id e =? ue) l l' ev).
Proof.
  intros Hl. split_and!.
  - apply get_entity_view.
  - intros nos1 gnb ue c sock Hn. pose proof (addmod_new l nos1 gnb ue c sock Hl Hn) as Ha.
    destruct (_ || _); [| done]. destruct Ha as (t & Ha & Hok). eexists t, _. split; [exact Ha |]. split; [done |].
    rewrite view_cons. f_equal. unfold with_tun. by destruct (nos1 && gnb).
  - done.
  - intros ue p Hne Hm. destruct (delete_entity_ok max l ue p Hl Hne Hm) as (ev & l' & -> & Hr).
    destruct (removed_view _ (ids_of ue p) _ _ _ (has_ids_key ue p) Hl Hr) as [Hl' Hv].
    exists ev, l'. split_and!; [| done | | done].
    + do 3 f_equal. apply eq_true_iff_eq. rewrite bool_decide_eq_true.
      rewrite (view_existsb _ (ids_of ue p)) by apply has_ids_key. unfold ids_of. split.
      * by intros (k & Hk & ->%bool_decide_eq_true).
      * intros Hk. exists (ue, p). by rewrite bool_decide_eq_true_2.
    + apply map_eq. intros k. rewrite Hv. unfold ids_of. case_bool_decide as Hk.
      * by rewrite Hk, lookup_delete_eq.
      * by rewrite lookup_delete_ne.
  - intros ue. destruct (delete_ue_ok l ue (so_entities _ Hl)) as (ev & l' & Hd & Hr).
    destruct (removed_view _ (λ k, k.1 =? ue) _ _ _ (λ e, eq_refl) Hl Hr) as [Hl' Hv].
    eexists _, ev, l'. split; [exact Hd |]. split_and!; [| done..].
    rewrite (view_existsb _ (λ k, k.1 =? ue)) by done. split.
    + intros ([ue' p] & Hk & Heq%Z.eqb_eq). simpl in Heq. subst. by exists p.
    + intros [p Hp]. exists (ue, p). simpl. by rewrite Z.eqb_refl.
Qed.

Lemma sdap_list_refines_map_witness :
  ∃ ev l', nr_sdap_delete_entity 128 [demo_gnb] 1 10 = Ok (true, ev, l') ∧ view l' = ∅.
Proof.
  destruct (sdap_list_refines_map 128 [demo_gnb] demo_ok) as (_ & _ & _ & Hd & _).
  destruct (Hd 1 10) as (ev & l' & H & _ & Hv & _); [congruence | simpl; lia |].
  exists ev, l'. split; [exact H | exact Hv].
Defined.

(** ** A gNB with the DL header only *)

Lemma created_flow gnb c drb ue adds cc e q :
  nr_sdap_get_config gnb (Some c) drb = Ok cc → mappedQoS_FlowsToAdd c = Some adds →
  zlen adds <= 64 → 0 < drb <= 32 → q ∈ adds → 0 <= q < 64 →
  nr_sdap_add_entity [] false gnb ue cc 0 = Ok [e] →
  enable_sdap e = negb (get_sdap_role gnb (sdap_HeaderUL c) (sdap_HeaderDL c) =? 0) ∧
  table_at e q = Ok (mk_qfi2drb drb (get_sdap_role gnb (sdap_HeaderUL c) (sdap_HeaderDL c))).
Proof.
  intros Hc Ha Hlen Hd Hq Hqr He. unfold nr_sdap_get_config in Hc. rewrite Ha in Hc.
  unfold captured at 2 in Hc. cbv beta iota zeta in Hc.
  pose proof (zlen_nonneg adds). rewrite (u8_small (zlen adds)) in Hc by lia.
  replace (zlen adds <=? SDAP_MAX_QFI) with true in Hc
    by (symmetry; apply Z.leb_le; unfold SDAP_MAX_QFI; lia).
  cbn [assert_that mbind res_bind] in Hc. rewrite take_zlen in Hc.
  inv_bind Hc. injection Hc as <-.
  pose proof (add_entity_ok [] false gnb ue (mk_config (pdu_Session c) drb
    (get_sdap_role gnb (sdap_HeaderUL c) (sdap_HeaderDL c)) (cfg_defaultDRB c) adds a) 0) as H1.
  destruct (_ || _) in H1; [| congruence]. destruct H1 as (t & Ht & _ & Hat).
  rewrite He in Ht. injection Ht as ->. split; [done |].
  apply table_at_lookup; [lia |]. simpl. rewrite Hat by lia.
  replace (existsb _ adds) with true.
  - do 2 f_equal; [apply u8_small; lia |]. destruct gnb, (sdap_HeaderUL c), (sdap_HeaderDL c); reflexivity.
  - symmetry. apply existsb_exists. exists q. split; [by apply list_elem_of_In |].
    unfold valid_flow. simpl. rewrite u8_small, Z2Nat.id, Z.eqb_refl by lia.
    unfold SDAP_MAX_QFI, SDAP_MAP_RULE_EMPTY, MAX_DRBS_PER_UE.
    by decide_true ((q <? 64) && (0 <? drb) && (drb <=? 32)).
Qed.

(** (error) a gNB whose session is configured with the DL header but without the UL header
    (which the configuration allows) stops at the first uplink PDU of that session whose first
    byte, which is then the first byte of the user's packet, has a configured QFI in its low six
    bits: [nr_sdap_rx_entity] reads a QFI whenever one header is enabled, and then asserts that
    there is none. *)
Theorem sdap_dl_header_only_aborts c drb ue adds cc e q b sdu pdusession :
  sdap_HeaderUL c = false → sdap_HeaderDL c = true →
  mappedQoS_FlowsToAdd c = Some adds → zlen adds <= 64 → 0 < drb <= 32 → q ∈ adds → 0 <= q < 64 →
  nr_sdap_get_config true (Some c) drb = Ok cc →
  nr_sdap_add_entity [] false true ue cc 0 = Ok [e] →
  b mod 64 = q →
  nr_sdap_rx_entity e drb true pdusession ue (b :: sdu) = Exit.
Proof.
  intros Hul Hdl Ha Hlen Hd Hq Hqr Hc He Hb.
  destruct (created_flow true c drb ue adds cc e q Hc Ha Hlen Hd Hq Hqr He) as [Hen Ht].
  rewrite Hul, Hdl in Hen, Ht. unfold nr_sdap_rx_entity. rewrite Hen.
  unfold znth. simpl deref. cbn [mbind res_bind]. rewrite hdr_QFI_mod, Hb.
  unfold SDAP_MAX_QFI. decide_false (64 <=? q). rewrite Ht. cbn [mbind res_bind drb_id].
  unfold SDAP_NO_MAPPING_RULE. decide_false (drb =? 0). unfold rx_gnb.
  change (has_role _ _) with false. cbv iota. by decide_false (q =? -1).
Qed.

(** With QFI 5: the first byte 0x45 of an IPv4 packet is enough. *)
Lemma sdap_dl_header_only_aborts_witness :
  nr_sdap_rx_entity
    (created true (mk_sdap_Config 10 false true true (Some [5; 9]) None) 3 1) 3 true 10 1
    [69; 0; 0; 60] = Exit.
Proof.
  apply (sdap_dl_header_only_aborts (mk_sdap_Config 10 false true true (Some [5; 9]) None) 3 1 [5; 9]
           (mk_config 10 3 4 true [5; 9] []) _ 5);
    try reflexivity; [unfold zlen; simpl; lia | lia | left | lia].
Defined.
