(* ===== verification/SdapRun.v ===== *)
(** * NR SDAP: sequences of operations

    The calls that RRC, PDCP, GTP-U and the TUN threads make on the list of entities as steps,
    and the proof that no sequence of them is undefined or breaks the list. *)

From S2P Require Import Prelude Sdap SdapFacts SdapProps.

Inductive sdap_op :=
| Addmod (nos1 gnb : bool) (ue : Z) (c : sdap_config_t) (sock : Z)
| Release_drb (ue drb pdusession : Z)
| Update_qos_flows (ue pdusession drb : Z) (qfis : list Z)
| Delete_entity (ue pdusession : Z)
| Delete_ue (ue : Z)
| Reconfigure (c : option NR_SDAP_Config_t) (ue pdusession drb : Z)
| Set_qfi (q pduid ue : Z)
| Start_tun_ue (ue pdusession sock : Z)
| Data_req (args : req_args) (ue : Z) (sdu : option bytes) (q : Z) (rqi : bool) (pdusession : Z)
    (accepted : bool)
| Data_ind (pdcp_entity : Z) (gnb : bool) (pdusession ue : Z) (buf : bytes).

Section run.
Variable max_entities : nat.

Definition sdap_exec (l : sdap_info) (op : sdap_op) : res (list sdap_event * sdap_info) :=
  match op with
  | Addmod nos1 gnb ue c sock => nr_sdap_addmod_entity l nos1 gnb ue c sock
  | Release_drb ue drb p => Ok ([], nr_sdap_release_drb l ue drb p)
  | Update_qos_flows ue p drb qfis => nr_sdap_entity_update_qos_flows l ue p drb qfis
  | Delete_entity ue p => '(_, ev, l) ← nr_sdap_delete_entity max_entities l ue p; Ok (ev, l)
  | Delete_ue ue => '(_, ev, l) ← nr_sdap_delete_ue_entities l ue; Ok (ev, l)
  | Reconfigure c ue p drb => nr_reconfigure_sdap_entity l c ue p drb
  | Set_qfi q p ue => l ← set_qfi l q p ue; Ok ([], l)
  | Start_tun_ue ue p sock => l ← start_sdap_tun_ue l ue p sock; Ok ([], l)
  | Data_req args ue sdu q rqi p accepted =>
      '(ev, _) ← sdap_data_req l args ue sdu q rqi p accepted; Ok (ev, l)
  | Data_ind pdcp gnb p ue buf => sdap_data_ind l pdcp gnb p ue buf
  end.

(** What the callers must respect: QFIs of six bits, PDUs that are not empty, and no deletion in
    an empty list. *)
Definition sdap_op_ok (l : sdap_info) (op : sdap_op) : Prop :=
  match op with
  | Addmod _ _ _ c _ => config_ok c
  | Update_qos_flows _ _ _ qfis => Forall (λ q, 0 <= q < 64) qfis ∧ zlen qfis <= 64
  | Delete_entity _ p => l ≠ [] ∧ (length l <= max_entities)%nat ∨ p < 0 ∧ l = []
  | Reconfigure (Some c) _ _ _ =>
      Forall (λ x, u8 x < 64) (default [] (mappedQoS_FlowsToAdd c)) ∧
      Forall (λ x, u8 x < 64) (default [] (mappedQoS_FlowsToRelease c))
  | Data_req _ _ _ q _ _ _ => 0 <= q < 64
  | Data_ind _ _ _ _ buf => buf ≠ []
  | _ => True
  end.

Fixpoint sdap_run (l : sdap_info) (ops : list sdap_op) : res (list sdap_event * sdap_info) :=
  match ops with
  | [] => Ok ([], l)
  | op :: ops =>
      '(ev, l) ← sdap_exec l op;
      '(evs, l) ← sdap_run l ops;
      Ok (ev ++ evs, l)
  end.

Fixpoint sdap_run_ok (l : sdap_info) (ops : list sdap_op) : Prop :=
  match ops with
  | [] => True
  | op :: ops => sdap_op_ok l op ∧ ∀ ev l', sdap_exec l op = Ok (ev, l') → sdap_run_ok l' ops
  end.

(** The process stopped on an assertion, or the result is good. *)
Definition safe {A} (P : A → Prop) (m : res A) : Prop :=
  m = Exit ∨ ∃ a, m = Ok a ∧ P a.

Lemma safe_bind {A B} (P : A → Prop) (Q : B → Prop) (m : res A) (f : A → res B) :
  safe P m → (∀ a, P a → safe Q (f a)) → safe Q (m ≫= f).
Proof. intros [-> | (a & -> & Ha)] Hf; [by left | by apply Hf]. Qed.

Lemma safe_ok {A} (P : A → Prop) a : P a → safe P (Ok a).
Proof. right. by exists a. Qed.

Lemma safe_assert {A} (P : A → Prop) b (m : res A) :
  (b = true → safe P m) → safe P (assert_that b ≫= λ _, m).
Proof. intros Hm. destruct b; [by apply Hm | by left]. Qed.

Hint Resolve safe_ok : core.

(** An operation on the entity of some ids, put back in the list. *)
Lemma safe_put l ue p e (m : res (list sdap_event * nr_sdap_entity_t)) :
  sdap_ok l → nr_sdap_get_entity l ue p = Some e →
  safe (λ r, entity_ok r.2 ∧ key r.2 = key e) m →
  safe (λ r, sdap_ok r.2) ('(ev, e) ← m; Ok (ev, put_entity l ue p e)).
Proof.
  intros Hl He Hm. eapply safe_bind; [exact Hm |]. intros [ev e'] [He' Hk]. apply safe_ok. simpl in *.
  apply put_entity_ok; [done | done | rewrite Hk; by apply get_entity_in in He as [_ ->] |].
  rewrite <- get_entity_view, He. by eexists.
Qed.

Lemma map_update_safe e c :
  entity_ok e → config_ok c →
  safe (λ r, entity_ok r.2 ∧ key r.2 = key e) (nr_sdap_qfi2drb_map_update e c).
Proof.
  intros He Hc. pose proof (map_update_ok e c He Hc) as H. destruct (_ || _); [| by left].
  destruct H as (ev & t1 & t & -> & _ & _ & [Hlt _]). apply safe_ok. split; [| done].
  by apply entity_ok_table.
Qed.

Lemma captured_safe l :
  Forall (λ x, u8 x < 64) (default [] l) → safe (Forall (λ x, u8 x < 64)) (captured l).
Proof.
  intros Hl. destruct l as [l |]; [| by apply safe_ok]. simpl in *. apply safe_assert. intros _.
  apply safe_ok. by apply Forall_take.
Qed.

(** A field of the entity of some ids is written. *)
Lemma write_safe l ue p (b : nr_sdap_entity_t → bool) (f : nr_sdap_entity_t → nr_sdap_entity_t) :
  sdap_ok l → (∀ e, entity_ok e → entity_ok (f e) ∧ key (f e) = key e) →
  safe sdap_ok (match nr_sdap_get_entity l ue p with
                | None => Exit
                | Some e => _ ← assert_that (b e); Ok (put_entity l ue p (f e))
                end).
Proof.
  intros Hl Hf. destruct (nr_sdap_get_entity l ue p) as [e |] eqn:He; [| by left].
  apply safe_assert. intros _. apply safe_ok.
  destruct (Hf e (get_entity_ok _ _ _ _ Hl He)) as [Hfe Hk].
  apply put_entity_ok; [done | done | rewrite Hk; by apply get_entity_in in He as [_ ?] |].
  rewrite <- get_entity_view, He. by eexists.
Qed.

Lemma with_tun_ok sock stop e :
  entity_ok e →
  entity_ok (e <| pdusession_sock := sock |> <| has_if_name := true |> <| stop_thread ::= stop |>)
  ∧ key (e <| pdusession_sock := sock |> <| has_if_name := true |> <| stop_thread ::= stop |>) = key e.
Proof. intros [Ht _]. split; [by split | done]. Qed.

Lemma addmod_safe l nos1 gnb ue c sock :
  sdap_ok l → config_ok c → safe (λ r, sdap_ok r.2) (nr_sdap_addmod_entity l nos1 gnb ue c sock).
Proof.
  intros Hl Hc. unfold nr_sdap_addmod_entity.
  destruct (nr_sdap_get_entity l ue (cfg_pdusession_id c)) as [e |] eqn:He.
  { eapply safe_put; [done | done |]. apply map_update_safe; [by eapply get_entity_ok | done]. }
  apply (safe_bind sdap_ok); [| intros l' Hl'; by apply safe_ok].
  pose proof (add_entity_ok l nos1 gnb ue c sock) as Ha. destruct (_ || _); [| by left].
  destruct Ha as (t & -> & [Hlt _]).
  assert (Hok : sdap_ok (new_entity gnb ue c t :: l)).
  { apply cons_ok; [done | by split |].
    change (view l !! (ue, cfg_pdusession_id c) = None). by rewrite <- get_entity_view. }
  destruct (nos1 && gnb); [| by apply safe_ok].
  unfold start_sdap_tun_gnb. apply write_safe; [done |]. intros e Hok'. exact (with_tun_ok sock id e Hok').
Qed.

Lemma update_qos_safe l ue p drb qfis :
  sdap_ok l → Forall (λ q, 0 <= q < 64) qfis → zlen qfis <= 64 →
  safe (λ r, sdap_ok r.2) (nr_sdap_entity_update_qos_flows l ue p drb qfis).
Proof.
  intros Hl Hq Hlen. unfold nr_sdap_entity_update_qos_flows.
  destruct (nr_sdap_get_entity l ue p) as [e |] eqn:He; [| by apply safe_ok].
  pose proof (get_entity_ok _ _ _ _ Hl He) as Hok.
  destruct (release_list_ok (qfi2drb_table e) 0 drb qfis []) as (rel & -> & Hin);
    [done | unfold zlen; rewrite (eo_table _ Hok); lia |].
  cbn [mbind res_bind app]. unfold SDAP_MAX_QFI. decide_false (64 <? zlen qfis).
  eapply safe_put; [done | done |]. apply map_update_safe; [done |]. split; simpl.
  - eapply Forall_impl; [exact Hq |]. simpl. intros x Hx. rewrite u8_small; lia.
  - apply Forall_forall. intros x (H1 & _ & m & Hm%lookup_lt_Some & _)%Hin.
    rewrite (eo_table _ Hok) in Hm. rewrite u8_small; lia.
Qed.

Lemma reconfigure_safe l c ue p drb :
  sdap_ok l → sdap_op_ok l (Reconfigure c ue p drb) →
  safe (λ r, sdap_ok r.2) (nr_reconfigure_sdap_entity l c ue p drb).
Proof.
  intros Hl Hc. unfold nr_reconfigure_sdap_entity.
  destruct (nr_sdap_get_entity l ue p) as [e |] eqn:He; [| by apply safe_ok].
  assert (Hg : safe config_ok (nr_sdap_get_config false c drb)).
  { destruct c as [c |]; [| by left]. destruct Hc as [Ha Hr]. simpl.
    eapply safe_bind; [exact (captured_safe _ Ha) |]. intros add Hadd. simpl.
    eapply safe_bind; [exact (captured_safe _ Hr) |]. intros rel Hrel. by apply safe_ok. }
  eapply safe_bind; [exact Hg |]. intros cc Hcc.
  eapply safe_put; [done | done |]. apply map_update_safe; [by eapply get_entity_ok | done].
Qed.

Lemma tx_safe e args sdu q rqi accepted :
  entity_ok e → 0 <= q < 64 → safe (λ _, True) (nr_sdap_tx_entity e args sdu q rqi accepted).
Proof.
  intros He Hq. unfold nr_sdap_tx_entity, nr_sdap_qfi2drb.
  destruct sdu as [sdu |]; [| by left].
  destruct (table_at_ok e q (eo_table _ He) Hq) as (m & -> & _). cbn [mbind res_bind].
  repeat case_match; by apply safe_ok.
Qed.

Lemma rx_safe e pdcp gnb p ue buf :
  entity_ok e → buf ≠ [] →
  safe (λ r, entity_ok r.2 ∧ key r.2 = key e) (nr_sdap_rx_entity e pdcp gnb p ue buf).
Proof.
  intros He Hb. destruct buf as [| b sdu]; [done |]. clear Hb.
  assert (Hd : ∀ q ul dl, safe (λ r, entity_ok r.2 ∧ key r.2 = key e)
    (if gnb then ev ← rx_gnb e p ue q ul (b :: sdu); Ok (ev, e) else rx_ue e pdcp ue dl (b :: sdu))).
  { intros q ul dl. destruct gnb.
    - apply (safe_bind (λ _, True)); [| intros ev _; by apply safe_ok].
      unfold rx_gnb. destruct ul; apply safe_assert; intros _; [| by apply safe_ok].
      unfold znth. simpl deref. cbn [mbind res_bind]. apply safe_assert. intros _.
      rewrite slice_tail. by apply safe_ok.
    - unfold rx_ue. destruct dl; [| by apply safe_ok].
      unfold znth. simpl deref. cbn [mbind res_bind].
      apply (safe_bind (λ r, entity_ok r.2 ∧ key r.2 = key e)).
      + destruct (hdr_bit7 b); [| by apply safe_ok]. unfold reflective_mapping.
        pose proof (hdr_QFI_range b) as Hq.
        pose proof (eo_table _ He) as Hl.
        destruct (table_at_ok e _ Hl Hq) as (m & -> & _).
        destruct (end_marker_ok e ue SDAP_CTRL_PDU_MAP_DEF_DRB _ Hl Hq) as [ev1 H1].
        destruct (end_marker_ok e ue SDAP_CTRL_PDU_MAP_RULE_DRB _ Hl Hq) as [ev2 H2].
        cbn [mbind res_bind]. rewrite H1, H2, set_table_ok by done.
        destruct (_ && _), (negb _); cbn [mbind res_bind]; apply safe_ok;
          (split; [by apply entity_ok_table; [| rewrite length_insert] | done]).
      + intros [ev e'] He'. rewrite slice_tail. by apply safe_ok. }
  unfold nr_sdap_rx_entity. destruct (enable_sdap e); [| apply Hd].
  unfold znth. simpl deref. cbn [mbind res_bind].
  destruct (SDAP_MAX_QFI <=? hdr_QFI b) eqn:Hq; [by apply safe_ok |].
  pose proof (hdr_QFI_range b) as Hqr.
  destruct (table_at_ok e _ (eo_table _ He) Hqr) as (m & -> & _). cbn [mbind res_bind].
  destruct (_ =? _); [by apply safe_ok | apply Hd].
Qed.
Lemma sdap_exec_safe l op :
  sdap_ok l → sdap_op_ok l op → safe (λ r, sdap_ok r.2) (sdap_exec l op).
Proof.
  intros Hl Hop. destruct op; simpl.
  - by apply addmod_safe.
  - apply safe_ok. simpl. unfold nr_sdap_release_drb.
    destruct (nr_sdap_get_entity l ue pdusession) as [e |] eqn:He; [| done].
    apply put_entity_ok; [done | | by apply get_entity_in in He as [_ ?] |].
    + apply entity_ok_table; [by eapply get_entity_ok |]. rewrite length_map.
      exact (eo_table _ (get_entity_ok _ _ _ _ Hl He)).
    + rewrite <- get_entity_view, He. by eexists.
  - destruct Hop. by apply update_qos_safe.
  - destruct Hop as [[Hne Hm] | [Hp ->]].
    + destruct (delete_entity_ok max_entities l ue pdusession Hl Hne Hm) as (ev & l' & -> & Hr).
      apply safe_ok. simpl. by eapply (removed_view _ (ids_of ue pdusession)); [apply has_ids_key | |].
    + simpl. decide_true (pdusession <? 0). simpl. by apply safe_ok.
  - destruct (delete_ue_ok l ue (so_entities _ Hl)) as (ev & l' & -> & Hr). apply safe_ok. simpl.
    by eapply (removed_view _ (λ k, k.1 =? ue)); [done | |].
  - by apply reconfigure_safe.
  - apply (safe_bind sdap_ok); [| intros l' Hl'; by apply safe_ok]. unfold set_qfi.
    apply (write_safe l ue pduid (λ _, true) (λ e, e <| Sdap.qfi := q |>)); [done |].
    intros e [Ht Hs]. by split.
  - apply (safe_bind sdap_ok); [| intros l' Hl'; by apply safe_ok]. unfold start_sdap_tun_ue.
    apply write_safe; [done |]. intros e He. exact (with_tun_ok sock (λ _, false) e He).
  - apply (safe_bind (λ _, True)); [| by intros [ev ret] _; apply safe_ok]. unfold sdap_data_req.
    destruct (nr_sdap_get_entity l ue pdusession) as [e |] eqn:He; [| by apply safe_ok].
    apply tx_safe; [by eapply get_entity_ok | done].
  - unfold sdap_data_ind. destruct (nr_sdap_get_entity l ue pdusession) as [e |] eqn:He;
      [| by apply safe_ok].
    eapply safe_put; [done | done |]. apply rx_safe; [by eapply get_entity_ok | done].
Qed.

Lemma sdap_run_inv ops l :
  sdap_ok l → sdap_run_ok l ops → safe (λ r, sdap_ok r.2) (sdap_run l ops).
Proof.
  revert l. induction ops as [| op ops IH]; intros l Hl Hops; simpl; [by apply safe_ok |].
  destruct Hops as [Hop Hops]. destruct (sdap_exec_safe l op Hl Hop) as [-> | ([ev l'] & He & Hl')];
    [by left |]. rewrite He. cbn [mbind res_bind].
  eapply safe_bind; [apply (IH l' Hl' (Hops ev l' He)) |]. intros [evs l2] Hl2. by apply safe_ok.
Qed.
End run.

(** C27: (safety) whatever the order of the calls of RRC, PDCP, GTP-U and the TUN threads, with
    QFIs of six bits and PDUs that are not empty, and as long as no entity is deleted from an
    empty list, no call is undefined: the sequence returns, or the process stops on one of the
    assertions of the source; when it returns, each UE and session has at most one entity, every
    table is whole, and no entity has a TUN socket without its interface. *)
Theorem sdap_run_safe max_entities ops :
  sdap_run_ok max_entities [] ops →
  sdap_run max_entities [] ops = Exit ∨
  ∃ ev l, sdap_run max_entities [] ops = Ok (ev, l) ∧ sdap_ok l.
Proof.
  intros Hops. destruct (sdap_run_inv max_entities ops []) as [-> | ([ev l] & He & Hl)];
    [split; constructor | done | by left |].
  right. by exists ev, l.
Qed.

Definition demo_ops : list sdap_op :=
  [Addmod false true 1 (mk_config 10 4 6 true [5; 9] []) 0;
   Data_req demo_args 1 (Some [1; 2; 3]) 9 false 10 true;
   Data_ind 4 true 10 1 [137; 7; 8];
   Update_qos_flows 1 10 4 [5; 6];
   Release_drb 1 4 10;
   Delete_entity 1 10].

Lemma sdap_run_safe_witness : ∃ ev, sdap_run 128 [] demo_ops = Ok (ev, []).
Proof.
  destruct (sdap_run_safe 128 demo_ops) as [H | (ev & l & H & _)].
  - cbn [demo_ops sdap_run_ok]. split; [by repeat constructor |]. intros ? ? [= <- <-].
    split; [simpl; lia |]. intros ? ? [= <- <-]. split; [done |]. intros ? ? [= <- <-].
    split; [split; [repeat constructor; lia | by vm_compute] |]. intros ? ? [= <- <-].
    split; [done |]. intros ? ? [= <- <-]. split; [left; split; [done | simpl; lia] |]. done.
  - exfalso. vm_compute in H. discriminate.
  - exists ev. rewrite H. vm_compute in H. by injection H as _ <-.
Defined.
