(* ===== verification/NrList.v ===== *)
(** * Index lists of the gNB MAC

    Models [NR_list_t] of [openair2/LAYER2/NR_MAC_gNB/nr_mac_gNB.h] and its functions in
    [gNB_scheduler_primitives.c]: singly linked lists of small identifiers (HARQ processes)
    whose links are an array indexed by the identifier.  Each function is proved to implement
    the operation on plain lists that its name says ([nr_list_repr]). *)

From S2P Require Import Prelude.

(** ** Model *)

Record NR_list_t := mk_nr_list {
  head : Z;
  next : list Z;
  tail : Z;
  len : Z
}.
#[export] Instance eta_nr_list : Settable NR_list_t :=
  λ l, mk_nr_list (head l) (next l) (tail l) (len l).

(** The [int *] of the code point to the head or to an entry of [next]. *)
Inductive cell := CHead | CNext (i : Z).

Definition rd (l : NR_list_t) (c : cell) : res Z :=
  match c with CHead => Ok (head l) | CNext i => deref (znth (next l) i) end.

Definition wr (l : NR_list_t) (c : cell) (v : Z) : res NR_list_t :=
  match c with
  | CHead => Ok (l <| head := v |>)
  | CNext i => n ← zset (next l) i v; Ok (l <| next := n |>)
  end.

Definition create_nr_list (n : Z) : NR_list_t :=
  mk_nr_list (-1) (replicate (Z.to_nat n) (-1)) (-1) n.

Definition resize_nr_list (l : NR_list_t) (new_len : Z) : res NR_list_t :=
  if new_len =? len l then Ok l
  else if len l <? new_len then
    Ok (l <| next := next l ++ replicate (Z.to_nat (new_len - len l)) (-1) |> <| len := new_len |>)
  else
    _ ← assert_that (head l <? new_len);
    _ ← assert_that (tail l <? new_len);
    _ ← assert_that (forallb (λ x, x <? new_len) (next l));
    Ok (l <| next := take (Z.to_nat new_len) (next l) |> <| len := new_len |>).

(** [while ( *cur >= 0)]: the cell at the end of the list. *)
Fixpoint add_nr_list_loop (fuel : nat) (l : NR_list_t) (cur : cell) (id : Z) : res cell :=
  match fuel with
  | O => NoFuel
  | S fuel' =>
      v ← rd l cur;
      if 0 <=? v then
        _ ← assert_that (negb (v =? id));
        add_nr_list_loop fuel' l (CNext v) id
      else Ok cur
  end.

Definition add_nr_list (l : NR_list_t) (id : Z) : res NR_list_t :=
  cur ← add_nr_list_loop (S (length (next l))) l CHead id;
  l ← wr l cur id;
  n ← rd l (CNext id);
  Ok (if n <? 0 then l <| tail := id |> else l).

(** [while ( *cur != -1 && *cur != id)]: the cell that holds [id] and the one before it. *)
Fixpoint remove_nr_list_loop (fuel : nat) (l : NR_list_t) (prev cur : cell) (id : Z)
    : res (cell * cell) :=
  match fuel with
  | O => NoFuel
  | S fuel' =>
      v ← rd l cur;
      if negb (v =? -1) && negb (v =? id) then remove_nr_list_loop fuel' l cur (CNext v) id
      else Ok (prev, cur)
  end.

Definition remove_nr_list (l : NR_list_t) (id : Z) : res NR_list_t :=
  '(prev, cur) ← remove_nr_list_loop (S (length (next l))) l CHead CHead id;
  c ← rd l cur;
  _ ← assert_that (negb (c =? -1));
  n ← rd l (CNext c);
  l ← wr l cur n;
  l ← wr l (CNext c) (-1);
  p ← rd l prev;
  keep ← (if 0 <=? p then n ← rd l (CNext p); Ok (0 <=? n) else Ok false);
  Ok (if (keep : bool) then l else l <| tail := p |>).

Definition add_tail_nr_list (l : NR_list_t) (id : Z) : res NR_list_t :=
  let last := if tail l <? 0 then CHead else CNext (tail l) in
  l ← wr l last id;
  l ← wr l (CNext id) (-1);
  Ok (l <| tail := id |>).

Definition add_front_nr_list (l : NR_list_t) (id : Z) : res NR_list_t :=
  let ohead := head l in
  let l := l <| head := id |> in
  l ← wr l (CNext id) ohead;
  Ok (if tail l <? 0 then l <| tail := id |> else l).

Definition remove_front_nr_list (l : NR_list_t) : res NR_list_t :=
  _ ← assert_that (0 <=? head l);
  let ohead := head l in
  n ← rd l (CNext ohead);
  let l := l <| head := n |> in
  l ← wr l (CNext ohead) (-1);
  Ok (if head l <? 0 then l <| tail := -1 |> else l).

(** ** The list an [NR_list_t] stands for *)

(** From [v], the links of [nx] go through [xs] and end. *)
Fixpoint chain (nx : list Z) (v : Z) (xs : list Z) : Prop :=
  match xs with
  | [] => v = -1
  | x :: xs' => v = x ∧ ∃ w, nx !! Z.to_nat x = Some w ∧ chain nx w xs'
  end.

Record nr_list_repr (l : NR_list_t) (xs : list Z) : Prop := {
  nl_chain : chain (next l) (head l) xs;
  nl_tail : tail l = default (-1) (last xs);
  nl_len : zlen (next l) = len l;
  nl_range : Forall (λ x, 0 <= x < len l) xs;
  nl_nodup : NoDup xs;
  nl_free i : 0 <= i < len l → i ∉ xs → next l !! Z.to_nat i = Some (-1)
}.

(** ** Lemmas on chains *)

Lemma chain_insert nx v xs i w :
  Forall (λ x, 0 <= x) xs → 0 <= i → i ∉ xs → chain nx v xs → chain (<[Z.to_nat i := w]> nx) v xs.
Proof.
  intros Hpos Hi. revert v. induction xs as [| x xs IH]; intros v Hnin; simpl; [done |].
  apply Forall_cons in Hpos as [Hx Hpos]. apply not_elem_of_cons in Hnin as [Hne Hnin].
  intros [-> (y & Hy & Hc)]. split; [done |]. exists y. rewrite list_lookup_insert_ne by lia. auto.
Qed.

(** The chain of [xs ++ ys] enters [ys] at the value that the last link of [xs] holds. *)
Definition link_after (nx : list Z) (h : Z) (xs : list Z) : option Z :=
  match last xs with None => Some h | Some x => nx !! Z.to_nat x end.

Lemma chain_app nx v xs ys :
  chain nx v (xs ++ ys) → ∃ w, link_after nx v xs = Some w ∧ chain nx w ys.
Proof.
  unfold link_after. revert v. induction xs as [| x xs IH]; intros v; simpl; [eauto |].
  intros [-> (w & Hw & Hc)]. destruct (IH w Hc) as (w' & Hl & Hc'). exists w'. split; [| done].
  rewrite last_cons. destruct (last xs) eqn:El; [done |]. congruence.
Qed.

(** Redirecting the link that follows [xs]. *)
Lemma chain_redirect nx v xs ys w zs x :
  Forall (λ x, 0 <= x) (xs ++ [x]) → NoDup (xs ++ [x]) → (Z.to_nat x < length nx)%nat →
  chain nx v (xs ++ x :: ys) → (∀ nx', nx' = <[Z.to_nat x := w]> nx → chain nx' w zs) →
  chain (<[Z.to_nat x := w]> nx) v (xs ++ x :: zs).
Proof.
  intros Hpos Hnd Hlt Hc Hz. revert v Hc. induction xs as [| y xs IH]; intros v; simpl.
  - intros [-> _]. split; [done |]. exists w. rewrite list_lookup_insert_eq by done. auto.
  - simpl in Hnd. apply NoDup_cons in Hnd as [Hy Hnd]. simpl in Hpos.
    apply Forall_cons in Hpos as [Hp Hpos].
    intros [-> (u & Hu & Hc)]. split; [done |]. exists u.
    assert (Hxy : y ≠ x) by (intros ->; apply Hy; set_solver).
    assert (0 <= x) by (apply Forall_app in Hpos as [_ ?%Forall_inv]; done).
    rewrite list_lookup_insert_ne by lia. auto.
Qed.

Lemma chain_head nx v x xs : chain nx v (x :: xs) → v = x.
Proof. by intros [-> _]. Qed.

Lemma repr_bound l xs x : nr_list_repr l xs → x ∈ xs → 0 <= x < len l.
Proof. intros H Hx. pose proof (nl_range l xs H) as Hr. rewrite Forall_forall in Hr. auto. Qed.

Lemma repr_pos l xs : nr_list_repr l xs → Forall (λ x, 0 <= x) xs.
Proof. intros H. eapply Forall_impl; [exact (nl_range l xs H) |]. simpl. lia. Qed.

(** The head tells whether the list is empty. *)
Lemma repr_head l xs : nr_list_repr l xs →
  head l = default (-1) (list.head xs) ∧ (0 <= head l ↔ xs ≠ []).
Proof.
  intros H. pose proof (nl_chain l xs H) as Hc. pose proof (nl_range l xs H) as Hr.
  destruct xs as [| x xs]; simpl in *.
  - rewrite Hc. split; [done |]. split; [lia | done].
  - destruct Hc as [-> _]. apply Forall_cons in Hr as [Hx _]. split; [done |]. split; [done | lia].
Qed.

Lemma rd_next l xs i : nr_list_repr l xs → 0 <= i < len l →
  ∃ w, rd l (CNext i) = Ok w ∧ next l !! Z.to_nat i = Some w.
Proof.
  intros H Hi. destruct (znth_is_Some (next l) i) as [w Hw]; [rewrite (nl_len l xs H); lia |].
  exists w. simpl. rewrite Hw. rewrite znth_lookup in Hw by lia. done.
Qed.

Lemma wr_next l xs i v : nr_list_repr l xs → 0 <= i < len l →
  wr l (CNext i) v = Ok (l <| next := <[Z.to_nat i := v]> (next l) |>).
Proof. intros H Hi. simpl. rewrite zset_Ok by (rewrite (nl_len l xs H); lia). done. Qed.

(** ** The operations implement those on lists *)

Lemma create_repr n : 0 <= n → nr_list_repr (create_nr_list n) [].
Proof.
  intros Hn. unfold create_nr_list. constructor; simpl; try done.
  - unfold zlen. rewrite length_replicate. lia.
  - constructor.
  - intros i Hi _. apply lookup_replicate_2. lia.
Qed.

(** A free entry already ends a list. *)
Lemma write_end (nx : list Z) i : nx !! Z.to_nat i = Some (-1) → <[Z.to_nat i := -1]> nx = nx.
Proof. apply list_insert_id. Qed.

Lemma add_tail_repr l xs id :
  nr_list_repr l xs → 0 <= id < len l → id ∉ xs →
  ∃ l', add_tail_nr_list l id = Ok l' ∧ nr_list_repr l' (xs ++ [id]) ∧ len l' = len l.
Proof.
  intros H Hid Hnin. pose proof H as [Hc Ht Hl Hr Hnd Hf]. pose proof (Hf id Hid Hnin) as Hfree.
  unfold add_tail_nr_list. destruct xs as [| t ys _] using rev_ind.
  - simpl in Ht. rewrite Ht. simpl. rewrite zset_Ok by (simpl; lia). simpl.
    rewrite write_end by done. eexists. split; [done |]. split; [| done].
    constructor; simpl; try done; [eauto | by constructor | repeat constructor; set_solver |].
    intros i Hi Hi2. apply Hf; [done | set_solver].
  - rewrite last_snoc in Ht. simpl in Ht. rewrite Ht.
    assert (Htb : 0 <= t < len l) by (eapply repr_bound; [done | set_solver]).
    assert (Hne : id ≠ t) by set_solver.
    decide_false (t <? 0). rewrite (wr_next l _ t id H Htb). simpl.
    rewrite zset_Ok by (simpl; rewrite zlen_insert; lia). simpl.
    rewrite write_end by (rewrite list_lookup_insert_ne by lia; done).
    eexists. split; [done |]. split; [| done]. constructor; simpl.
    + rewrite <- app_assoc. simpl. apply (chain_redirect _ _ _ []); try done.
      * by eapply repr_pos.
      * unfold zlen in Hl. lia.
      * intros ? ->. simpl. split; [done |]. exists (-1). split; [| done].
        by rewrite list_lookup_insert_ne by lia.
    + by rewrite last_snoc.
    + by rewrite zlen_insert.
    + apply Forall_app. split; [done | by constructor].
    + apply NoDup_app. split; [done |]. split; [set_solver | repeat constructor; set_solver].
    + intros i Hi Hi2. rewrite list_lookup_insert_ne; [apply Hf; [done | set_solver] |].
      assert (i ≠ t) by set_solver. lia.
Qed.

Lemma remove_front_repr l x xs :
  nr_list_repr l (x :: xs) →
  ∃ l', remove_front_nr_list l = Ok l' ∧ nr_list_repr l' xs ∧ len l' = len l.
Proof.
  intros H. pose proof H as [[Hh (w & Hw & Hc)] Ht Hl Hr Hnd Hf].
  apply NoDup_cons in Hnd as [Hx Hnd]. apply Forall_cons in Hr as [Hxb Hr].
  unfold remove_front_nr_list. rewrite Hh. decide_true (0 <=? x). simpl.
  rewrite znth_lookup, Hw by lia. simpl. rewrite zset_Ok by (simpl; lia). simpl.
  assert (Hc' : chain (<[Z.to_nat x := -1]> (next l)) w xs).
  { apply chain_insert; [| lia | done | done]. eapply Forall_impl; [exact Hr | simpl; lia]. }
  assert (Hf' : ∀ i, 0 <= i < len l → i ∉ xs → <[Z.to_nat x := -1]> (next l) !! Z.to_nat i = Some (-1)).
  { intros i Hi Hni. destruct (decide (i = x)) as [-> | Hne].
    - apply list_lookup_insert_eq. unfold zlen in Hl. lia.
    - rewrite list_lookup_insert_ne by lia. apply Hf; [done | set_solver]. }
  eexists. split; [done |]. destruct xs as [| y xs]; simpl in Hc.
  - subst w. simpl. split; [| done]. by constructor; simpl; rewrite ?zlen_insert.
  - destruct Hc as [-> _]. apply Forall_cons in Hr as [Hyb Hr].
    decide_false (y <? 0). split; [| done].
    constructor; simpl; rewrite ?zlen_insert; try done; try by constructor.
Qed.

(** ** Removal of any element *)

(** The cell that designates the element after [xs]. *)
Definition cell_after (xs : list Z) : cell :=
  match last xs with None => CHead | Some x => CNext x end.

Definition but_last (xs : list Z) : list Z := take (length xs - 1) xs.

Lemma but_last_snoc xs x : but_last (xs ++ [x]) = xs.
Proof.
  unfold but_last. rewrite length_app. simpl. rewrite take_app_length'; [done | lia].
Qed.

Lemma rd_after l pre rest : nr_list_repr l (pre ++ rest) →
  rd l (cell_after pre) = Ok (default (-1) (list.head rest)).
Proof.
  intros H. destruct (chain_app _ _ _ _ (nl_chain l _ H)) as (w & Hw & Hc).
  assert (Hv : w = default (-1) (list.head rest)) by (destruct rest; [done | apply Hc]).
  subst w. unfold link_after in Hw. unfold cell_after. destruct (last pre) as [x |] eqn:E; simpl.
  - apply last_Some in E as [l' ->].
    destruct (repr_bound l _ x H) as [? _]; [set_solver |].
    by rewrite znth_lookup, Hw by lia.
  - by injection Hw as ->.
Qed.

Lemma remove_loop l id pre1 pre2 post fuel :
  nr_list_repr l (pre1 ++ pre2 ++ id :: post) → (length pre2 < fuel)%nat →
  remove_nr_list_loop fuel l (cell_after (but_last pre1)) (cell_after pre1) id =
    Ok (cell_after (but_last (pre1 ++ pre2)), cell_after (pre1 ++ pre2)).
Proof.
  revert pre1 fuel. induction pre2 as [| x pre2 IH]; intros pre1 [| fuel] H Hf; simpl in Hf; try lia;
    cbn [remove_nr_list_loop]; rewrite (rd_after l pre1 _ H); simpl.
  - rewrite Z.eqb_refl, andb_false_r, !app_nil_r. done.
  - assert (Hx : 0 <= x < len l) by (eapply repr_bound; [done | set_solver]).
    assert (Hne : x ≠ id).
    { pose proof (nl_nodup l _ H) as Hnd. apply NoDup_app in Hnd as (_ & _ & Hnd).
      simpl in Hnd. apply NoDup_cons in Hnd as [Hnd _]. set_solver. }
    decide_false (x =? -1). decide_false (x =? id). simpl.
    specialize (IH (pre1 ++ [x]) fuel). rewrite <- !app_assoc in IH. simpl in IH.
    rewrite but_last_snoc in IH. unfold cell_after in IH at 2. rewrite last_snoc in IH.
    rewrite IH; [done | done | lia].
Qed.

Lemma bounded_length xs n :
  NoDup xs → Forall (λ x, 0 <= x < n) xs → (length xs <= Z.to_nat n)%nat.
Proof.
  intros Hnd Hr. rewrite <- (length_seqZ 0 n). apply submseteq_length, NoDup_submseteq; [done |].
  intros x Hx. apply elem_of_seqZ. rewrite Forall_forall in Hr. specialize (Hr x Hx). lia.
Qed.

Lemma repr_length l xs : nr_list_repr l xs → (length xs <= length (next l))%nat.
Proof.
  intros [_ _ Hl Hr Hnd _]. pose proof (bounded_length xs (len l) Hnd Hr). unfold zlen in Hl. lia.
Qed.

Lemma repr_link l pre x y post : nr_list_repr l (pre ++ x :: y :: post) →
  next l !! Z.to_nat x = Some y.
Proof.
  intros H. destruct (chain_app _ _ _ _ (nl_chain l _ H)) as (w & _ & _ & (w' & Hw' & -> & _)). done.
Qed.

Lemma last_app_cons {A} (xs : list A) y ys : last (xs ++ y :: ys) = last (y :: ys).
Proof. rewrite last_app. destruct (last (y :: ys)) eqn:E; [done | by apply last_None in E]. Qed.

Section remove.
Context (l : NR_list_t) (id : Z) (post : list Z).
Let w := default (-1) (list.head post).

Lemma next_of pre : nr_list_repr l (pre ++ id :: post) → next l !! Z.to_nat id = Some w ∧
  chain (next l) w post.
Proof.
  intros H. destruct (chain_app _ _ _ _ (nl_chain l _ H)) as (v & _ & _ & (w' & Hw' & Hc)).
  subst w. destruct post as [| y post']; simpl in *; [by subst w' |].
  destruct Hc as [-> Hc]. done.
Qed.

(** Removing the head. *)
Lemma remove_first : nr_list_repr l (id :: post) →
  ∃ l', remove_nr_list l id = Ok l' ∧ nr_list_repr l' post ∧ len l' = len l.
Proof.
  intros H. destruct (next_of [] H) as [Hw Hc]. pose proof H as [[Hh _] Ht Hl Hr Hnd Hf].
  pose proof (repr_pos _ _ H) as Hpos. apply Forall_cons in Hpos as [_ Hpos].
  apply NoDup_cons in Hnd as [Hnin Hnd]. apply Forall_cons in Hr as [Hid Hr].
  unfold remove_nr_list. pose proof (remove_loop l id [] [] post (S (length (next l))) H) as E.
  simpl app in E. change (cell_after (but_last [])) with CHead in E.
  change (cell_after []) with CHead in E. rewrite E by (simpl; lia). simpl. rewrite Hh.
  decide_false (id =? -1). simpl. rewrite znth_lookup, Hw by lia. simpl.
  rewrite zset_Ok by lia. simpl.
  assert (Hc' : chain (<[Z.to_nat id := -1]> (next l)) w post)
    by (apply chain_insert; done || lia).
  assert (Hr' : ∀ t, nr_list_repr (mk_nr_list w (<[Z.to_nat id := -1]> (next l)) t (len l)) post ∨
                     t ≠ default (-1) (last post)).
  { intros t. destruct (decide (t = default (-1) (last post))) as [-> |]; [left | by right].
    constructor; simpl; rewrite ?zlen_insert; try done. intros i Hi Hni.
    destruct (decide (i = id)) as [-> |].
    - apply list_lookup_insert_eq. unfold zlen in Hl. lia.
    - rewrite list_lookup_insert_ne by lia. apply Hf; [done |]. by apply not_elem_of_cons. }
  destruct post as [| y post']; simpl in w; subst w; simpl in *.
  - eexists. split; [done |]. split; [| done]. by destruct (Hr' (-1)).
  - apply Forall_cons in Hr as [Hy Hr]. apply Forall_cons in Hpos as [_ Hpos].
    decide_true (0 <=? y). destruct Hc' as [_ (v & Hv & Hc')]. rewrite znth_lookup, Hv by lia. simpl.
    destruct post' as [| z post']; simpl in Hc'.
    + subst v. simpl. eexists. split; [done |]. split; [| done]. by destruct (Hr' y).
    + destruct Hc' as [-> _]. apply Forall_cons in Hpos as [Hz _]. decide_true (0 <=? z).
      eexists. split; [done |]. split; [| done]. destruct (Hr' (tail l)) as [| Hn]; [done |].
      destruct Hn. rewrite Ht. done.
Qed.

(** Removing an element that has a predecessor [t]. *)
Context (ys : list Z) (t : Z) (H : nr_list_repr l (ys ++ t :: id :: post)).
Let nx := <[Z.to_nat id := -1]> (<[Z.to_nat t := w]> (next l)).

Lemma inner_facts :
  nr_list_repr l ((ys ++ [t]) ++ id :: post) ∧ 0 <= id < len l ∧ 0 <= t < len l ∧ id ≠ t ∧
  (id ∉ ys ++ [t]) ∧ (id ∉ post) ∧ (t ∉ post) ∧ (t ∉ ys).
Proof using H.
  assert (Happ : ys ++ t :: id :: post = (ys ++ [t]) ++ id :: post) by (by rewrite <- app_assoc).
  pose proof H as H0. rewrite Happ in H0. split; [done |].
  assert (Hid : 0 <= id < len l) by (eapply repr_bound; [exact H | set_solver]).
  assert (Htb : 0 <= t < len l) by (eapply repr_bound; [exact H | set_solver]).
  pose proof (nl_nodup _ _ H0) as (Hnd1 & Hd & Hnd2)%NoDup_app.
  apply NoDup_cons in Hnd2 as [Hidp Hndp]. apply NoDup_app in Hnd1 as (_ & Hd1 & _).
  assert (Hne : id ≠ t) by (intros ->; apply (Hd t); set_solver).
  split_and!; try done; try lia.
  - intros Hx. apply (Hd id Hx). set_solver.
  - intros Hx. apply (Hd t); set_solver.
  - intros Hx. apply (Hd1 t Hx). set_solver.
Qed.

(** The cell before [t] is not one of those written. *)
Lemma inner_prev tl : rd (mk_nr_list (head l) nx tl (len l)) (cell_after ys) = Ok t.
Proof using H.
  destruct inner_facts as (_ & Hid & Ht & _ & Hidy & _ & _ & Hty).
  pose proof (rd_after l ys _ H) as Hp. simpl in Hp.
  unfold cell_after in *. destruct (last ys) as [u |] eqn:Eu; [| done]. simpl in *.
  apply last_Some in Eu as [zs ->].
  assert (Hu : 0 <= u) by (destruct (repr_bound l _ u H); [set_solver | done]).
  assert (u ≠ t ∧ u ≠ id) as [Hut Hui] by set_solver.
  rewrite znth_lookup in * by lia. unfold nx. by rewrite !list_lookup_insert_ne by lia.
Qed.

Lemma inner_repr tl : tl = default t (last post) →
  nr_list_repr (mk_nr_list (head l) nx tl (len l)) (ys ++ t :: post).
Proof using H.
  destruct inner_facts as (H0 & Hid & Ht & Hne & Hidy & Hidp & Htp & Hty).
  destruct (next_of _ H0) as [_ Hc]. pose proof H0 as [_ _ Hl Hr Hnd Hf].
  assert (Hr' : Forall (λ x, 0 <= x < len l) (ys ++ t :: post)).
  { rewrite Forall_forall in *. intros x Hx. apply Hr. set_solver. }
  assert (Hpos : Forall (λ x, 0 <= x) (ys ++ t :: post))
    by (eapply Forall_impl; [exact Hr' | simpl; lia]).
  intros ->. constructor; simpl; try done.
  - unfold nx. apply chain_insert; [done | lia | set_solver |].
    apply (chain_redirect _ _ _ (id :: post)); [| | unfold zlen in Hl; lia | apply H |].
    + eapply Forall_impl; [| exact (λ x h, h)]. rewrite Forall_forall in *. set_solver.
    + by apply NoDup_app in Hnd as [? _].
    + intros ? ->. apply Forall_app in Hpos as [_ [_ ?]%Forall_cons].
      apply chain_insert; done || lia.
  - rewrite last_app_cons, last_cons. by destruct (last post).
  - unfold nx. by rewrite !zlen_insert.
  - apply NoDup_app in Hnd as (Hnd1 & Hd & Hnd2). apply NoDup_cons in Hnd2 as [_ Hnd2].
    apply NoDup_app in Hnd1 as (Hn1 & _ & _). apply NoDup_app. split; [done |].
    split; [set_solver | by apply NoDup_cons].
  - intros i Hi Hni. unfold nx. destruct (decide (i = id)) as [-> |].
    + apply list_lookup_insert_eq. rewrite length_insert. unfold zlen in Hl. lia.
    + assert (i ≠ t) by set_solver. rewrite !list_lookup_insert_ne by lia.
      apply Hf; [done | set_solver].
Qed.

Lemma remove_inner :
  ∃ l', remove_nr_list l id = Ok l' ∧ nr_list_repr l' (ys ++ t :: post) ∧ len l' = len l.
Proof.
  destruct inner_facts as (H0 & Hid & Ht & Hne & _).
  destruct (next_of _ H0) as [Hw _]. pose proof H as [_ Htl Hl _ _ _].
  pose proof (repr_pos _ _ H) as Hpos. unfold remove_nr_list.
  pose proof (remove_loop l id [] (ys ++ [t]) post (S (length (next l))) H0) as E.
  change (cell_after (but_last [])) with CHead in E. change (cell_after []) with CHead in E.
  pose proof (repr_length _ _ H0) as Hlen. rewrite length_app in Hlen. simpl app in E.
  rewrite E by lia. rewrite but_last_snoc. unfold cell_after at 2. rewrite last_snoc.
  pose proof (rd_after l (ys ++ [t]) (id :: post) H0) as Hrd. unfold cell_after in Hrd.
  rewrite last_snoc in Hrd. simpl in *. rewrite Hrd. simpl.
  decide_false (id =? -1). simpl. rewrite znth_lookup, Hw by lia. simpl.
  rewrite zset_Ok by lia. simpl. rewrite zset_Ok by (simpl; rewrite zlen_insert; lia). simpl.
  fold nx. change (l <| next := _ |> <| next := nx |>)
    with (mk_nr_list (head l) nx (tail l) (len l)).
  rewrite inner_prev. simpl. decide_true (0 <=? t). rewrite znth_lookup by lia.
  assert (Hnt : nx !! Z.to_nat t = Some w).
  { unfold nx. rewrite list_lookup_insert_ne by lia. apply list_lookup_insert_eq.
    unfold zlen in Hl. lia. }
  rewrite Hnt. simpl. rewrite last_app_cons, !last_cons in Htl.
  assert (Hcase : (0 <=? w) = false ∧ last post = None ∨ (0 <=? w) = true ∧ ∃ z, last post = Some z).
  { unfold w. destruct post as [| y post'] eqn:Ep; [by left | right]. split.
    - rewrite Forall_forall in Hpos. assert (0 <= y) by (apply Hpos; set_solver). simpl. lia.
    - destruct (last (y :: post')) eqn:El; [eauto | by apply last_None in El]. }
  destruct Hcase as [[-> El] | [-> [z El]]]; (eexists; split; [done |]; split; [| done]);
    apply inner_repr; rewrite El in *; done.
Qed.
End remove.

Lemma remove_repr l pre id post : nr_list_repr l (pre ++ id :: post) →
  ∃ l', remove_nr_list l id = Ok l' ∧ nr_list_repr l' (pre ++ post) ∧ len l' = len l.
Proof.
  destruct pre as [| t ys _] using rev_ind; [by apply remove_first |].
  rewrite <- !app_assoc. apply remove_inner.
Qed.

(** An identifier that is not in the list makes the assertion fail. *)
Lemma remove_absent l xs id : nr_list_repr l xs → id ∉ xs → id ≠ -1 → remove_nr_list l id = Exit.
Proof.
  intros H Hnin Hid. unfold remove_nr_list.
  assert (Hloop : ∀ post pre prev fuel, xs = pre ++ post → (length post < fuel)%nat →
    ∃ p, remove_nr_list_loop fuel l prev (cell_after pre) id = Ok (p, cell_after xs)).
  { induction post as [| x post IH]; intros pre prev [| fuel] E Hf; simpl in Hf; try lia;
      cbn [remove_nr_list_loop]; rewrite (rd_after l pre _ ltac:(by rewrite <- E)); simpl.
    - rewrite app_nil_r in E. subst pre. eauto.
    - assert (0 <= x < len l) by (eapply repr_bound; [exact H | subst xs; set_solver]).
      assert (x ≠ id) by (subst xs; set_solver).
      decide_false (x =? -1). decide_false (x =? id). simpl.
      destruct (IH (pre ++ [x]) (cell_after pre) fuel) as [p Hp];
        [by rewrite <- app_assoc | lia |].
      unfold cell_after in Hp at 2. rewrite last_snoc in Hp. eauto. }
  pose proof (repr_length _ _ H).
  destruct (Hloop xs [] CHead (S (length (next l)))) as [p Hp]; [done | lia |].
  change (cell_after []) with CHead in Hp. rewrite Hp. simpl.
  rewrite (rd_after l xs []) by (by rewrite app_nil_r). done.
Qed.

Lemma add_front_repr l xs id :
  nr_list_repr l xs → 0 <= id < len l → id ∉ xs →
  ∃ l', add_front_nr_list l id = Ok l' ∧ nr_list_repr l' (id :: xs) ∧ len l' = len l.
Proof.
  intros H Hid Hnin. pose proof H as [Hc Ht Hl Hr Hnd Hf]. pose proof (repr_pos _ _ H) as Hpos.
  unfold add_front_nr_list. simpl. rewrite zset_Ok by lia. simpl.
  assert (Hrep : nr_list_repr (mk_nr_list id (<[Z.to_nat id := head l]> (next l))
                   (default id (last xs)) (len l)) (id :: xs)).
  { constructor; simpl.
    - split; [done |]. exists (head l). split; [apply list_lookup_insert_eq; unfold zlen in Hl; lia |].
      apply chain_insert; done || lia.
    - rewrite last_cons. by destruct (last xs).
    - by rewrite zlen_insert.
    - by constructor.
    - by apply NoDup_cons.
    - intros i Hi [Hne Hni]%not_elem_of_cons. rewrite list_lookup_insert_ne by lia. by apply Hf. }
  eexists. split; [done |]. rewrite Ht. destruct (last xs) as [z |] eqn:E; simpl in *; [| done].
  assert (0 <= z) by (apply last_Some in E as [? ->]; rewrite Forall_forall in Hpos;
    apply Hpos; set_solver).
  decide_false (z <? 0). split; [| done]. by destruct l; simpl in *; subst.
Qed.

Lemma resize_grow_repr l xs n :
  nr_list_repr l xs → len l <= n → 0 <= len l →
  ∃ l', resize_nr_list l n = Ok l' ∧ nr_list_repr l' xs ∧ len l' = n.
Proof.
  intros H Hn Hpos. pose proof H as [Hc Ht Hl Hr Hnd Hf]. unfold resize_nr_list.
  destruct (Z.eqb_spec n (len l)) as [-> | Hne]; [eauto |]. decide_true (len l <? n).
  eexists. split; [done |]. split; [| done].
  assert (Hlook : ∀ i w, next l !! i = Some w →
    (next l ++ replicate (Z.to_nat (n - len l)) (-1)) !! i = Some w)
    by (intros; by apply lookup_app_l_Some).
  constructor; simpl; try done.
  - clear -Hc Hlook. revert Hc. generalize (head l). induction xs as [| x xs IH]; intros v; [done |].
    intros [-> (w & Hw & Hc)]. split; [done |]. exists w. auto.
  - rewrite zlen_app. unfold zlen at 2. rewrite length_replicate. lia.
  - eapply Forall_impl; [exact Hr | simpl; lia].
  - intros i Hi Hni. destruct (Z.ltb_spec i (len l)); [by apply Hlook, Hf; [lia |] |].
    rewrite lookup_app_r by (unfold zlen in Hl; lia). apply lookup_replicate_2.
    unfold zlen in Hl. lia.
Qed.

(** [add_nr_list] walks the list and checks that the identifier is new. *)
Lemma add_loop l xs id :
  nr_list_repr l xs →
  ∀ post pre fuel, xs = pre ++ post → (length post < fuel)%nat →
  add_nr_list_loop fuel l (cell_after pre) id =
    if bool_decide (id ∈ post) then Exit else Ok (cell_after xs).
Proof.
  intros H. induction post as [| x post IH]; intros pre [| fuel] E Hf; simpl in Hf; try lia;
    cbn [add_nr_list_loop]; rewrite (rd_after l pre _ ltac:(by rewrite <- E)); simpl.
  - rewrite app_nil_r in E. by subst pre.
  - assert (Hx : 0 <= x < len l) by (eapply repr_bound; [exact H | subst xs; set_solver]).
    decide_true (0 <=? x). destruct (Z.eqb_spec x id) as [-> | Hne]; simpl.
    + by rewrite bool_decide_true by set_solver.
    + specialize (IH (pre ++ [x]) fuel). unfold cell_after in IH at 1. rewrite last_snoc in IH.
      rewrite IH by (by rewrite <- app_assoc || lia).
      by rewrite (bool_decide_ext (id ∈ x :: post) (id ∈ post)) by set_solver.
Qed.

(** The checked insertion is the constant-time one, or an exit if the identifier is there. *)
Lemma add_is_add_tail l xs id :
  nr_list_repr l xs → 0 <= id < len l →
  add_nr_list l id = if bool_decide (id ∈ xs) then Exit else add_tail_nr_list l id.
Proof.
  intros H Hid. unfold add_nr_list. pose proof (repr_length _ _ H).
  pose proof (add_loop l xs id H xs [] (S (length (next l)))) as E.
  change (cell_after []) with CHead in E. rewrite E by (done || lia).
  destruct (bool_decide_reflect (id ∈ xs)) as [| Hnin]; [done |]. simpl.
  pose proof H as [_ Ht Hl _ _ Hf]. pose proof (Hf id Hid Hnin) as Hfree.
  pose proof (repr_pos _ _ H) as Hpos. unfold add_tail_nr_list, cell_after. rewrite Ht.
  destruct (last xs) as [z |] eqn:El; simpl.
  - apply last_Some in El as [ys ->]. assert (Hz : 0 <= z < len l)
      by (eapply repr_bound; [exact H | set_solver]).
    assert (id ≠ z) by set_solver. decide_false (z <? 0). simpl. rewrite zset_Ok by lia. simpl.
    rewrite znth_lookup, list_lookup_insert_ne, Hfree by lia. simpl.
    rewrite zset_Ok by (rewrite zlen_insert; lia). simpl.
    by rewrite write_end by (rewrite list_lookup_insert_ne by lia; done).
  - rewrite znth_lookup, Hfree by lia. simpl. rewrite zset_Ok by lia. simpl.
    rewrite write_end by done. by destruct l.
Qed.
