(* ===== verification/MacHarq.v ===== *)
(** * HARQ processes of a UE in the gNB MAC

    Models what the gNB scheduler keeps of the HARQ processes of a connected UE: the part of
    [NR_UE_sched_ctrl_t] with the processes and the six lists they move between
    ([openair2/LAYER2/NR_MAC_gNB/nr_mac_gNB.h]), and the functions that move them, in
    [gNB_scheduler_primitives.c] (creation and reset), [gNB_scheduler_dlsch.c] and
    [gNB_scheduler_uci.c] (downlink transmissions and their feedback), and
    [gNB_scheduler_ulsch.c] (uplink).  Of the functions that do more (building FAPI messages,
    power control, link adaptation), the definitions have the part that reads or writes this
    state, in order. *)

From S2P Require Import Prelude NrList.

Definition NR_MAX_HARQ_PROCESSES : Z := 32.

(** ** Configuration of the UE *)

(** [Some] value and [true] stand for pointers that are not NULL. *)
Record NR_UE_ServingCell_Info_t := mk_sc_info {
  nrofHARQ_ProcessesForPDSCH : option Z;
  nrofHARQ_ProcessesForPDSCH_v1700 : bool;
  nrofHARQ_ProcessesForPUSCH_r17 : bool
}.

Definition get_nrofHARQ_ProcessesForPDSCH (sc : NR_UE_ServingCell_Info_t) : res Z :=
  if nrofHARQ_ProcessesForPDSCH_v1700 sc then Ok 32
  else match nrofHARQ_ProcessesForPDSCH sc with
       | None => Ok 8
       | Some i => deref (znth [2; 4; 6; 10; 12; 16] i)
       end.

Definition get_nrofHARQ_ProcessesForPUSCH (sc : NR_UE_ServingCell_Info_t) : Z :=
  if nrofHARQ_ProcessesForPUSCH_r17 sc then 32 else 16.

(** ** Timers *)

Record NR_timer_t := mk_timer {
  active : bool;
  suspended : bool;
  counter : Z;
  target : Z;
  step : Z
}.
#[export] Instance eta_timer : Settable NR_timer_t :=
  λ t, mk_timer (active t) (suspended t) (counter t) (target t) (step t).

Definition nr_timer_start (t : NR_timer_t) : NR_timer_t :=
  t <| active := true |> <| suspended := false |> <| counter := 0 |>.
Definition nr_timer_stop (t : NR_timer_t) : NR_timer_t :=
  t <| active := false |> <| suspended := false |> <| counter := 0 |>.
Definition nr_timer_setup (t : NR_timer_t) (tgt stp : Z) : NR_timer_t :=
  nr_timer_stop (t <| target := tgt |> <| step := stp |>).

(** ** State *)

(** [action]: the callback of [sched_pdsch] is [ack_reconfig] (and not NULL); [tb_size] is that
    of [sched_pdsch]. *)
Record NR_UE_harq_t := mk_harq {
  is_waiting : bool;
  ndi : Z;
  round : Z;
  feedback_frame : Z;
  feedback_slot : Z;
  start_tci_timer : bool;
  action : bool;
  tb_size : Z
}.
#[export] Instance eta_harq : Settable NR_UE_harq_t :=
  λ h, mk_harq (is_waiting h) (ndi h) (round h) (feedback_frame h) (feedback_slot h)
         (start_tci_timer h) (action h) (tb_size h).

(** [ul_harq_pid] and [ul_tb_size] are those of [sched_pusch]. *)
Record NR_UE_ul_harq_t := mk_ul_harq {
  ul_is_waiting : bool;
  ul_ndi : Z;
  ul_round : Z;
  ul_feedback_slot : Z;
  ul_harq_pid : Z;
  ul_tb_size : Z
}.
#[export] Instance eta_ul_harq : Settable NR_UE_ul_harq_t :=
  λ h, mk_ul_harq (ul_is_waiting h) (ul_ndi h) (ul_round h) (ul_feedback_slot h) (ul_harq_pid h)
         (ul_tb_size h).

Record NR_UE_sched_ctrl_t := mk_sched_ctrl {
  harq_processes : list NR_UE_harq_t;
  available_dl_harq : NR_list_t;
  feedback_dl_harq : NR_list_t;
  retrans_dl_harq : NR_list_t;
  ul_harq_processes : list NR_UE_ul_harq_t;
  available_ul_harq : NR_list_t;
  feedback_ul_harq : NR_list_t;
  retrans_ul_harq : NR_list_t;
  sched_ul_bytes : Z;
  tci_beam_switch : NR_timer_t
}.
#[export] Instance eta_sched_ctrl : Settable NR_UE_sched_ctrl_t :=
  λ s, mk_sched_ctrl (harq_processes s) (available_dl_harq s) (feedback_dl_harq s)
         (retrans_dl_harq s) (ul_harq_processes s) (available_ul_harq s) (feedback_ul_harq s)
         (retrans_ul_harq s) (sched_ul_bytes s) (tci_beam_switch s).

(** The counters of [mac_stats]: eight rounds and the errors, per direction. *)
Record NR_mac_dir_stats_t := mk_dir_stats {
  rounds : list Z;
  errors : Z
}.
#[export] Instance eta_dir_stats : Settable NR_mac_dir_stats_t :=
  λ s, mk_dir_stats (rounds s) (errors s).

(** [reconfigCellGroup]: the HARQ parameters of the configuration that waits for the UE's
    acknowledgement. *)
Record NR_UE_info_t := mk_ue {
  UE_sched_ctrl : NR_UE_sched_ctrl_t;
  dl_stats : NR_mac_dir_stats_t;
  ul_stats : NR_mac_dir_stats_t;
  sc_info : NR_UE_ServingCell_Info_t;
  reconfigCellGroup : option NR_UE_ServingCell_Info_t
}.
#[export] Instance eta_ue : Settable NR_UE_info_t :=
  λ u, mk_ue (UE_sched_ctrl u) (dl_stats u) (ul_stats u) (sc_info u) (reconfigCellGroup u).

(** An access to [processes[pid]]. *)
Definition get_proc {A} (l : list A) (pid : Z) : res A := deref (znth l pid).
Definition upd_proc {A} (l : list A) (pid : Z) (f : A → A) : res (list A) :=
  p ← get_proc l pid; zset l pid (f p).

Definition upd_dl (s : NR_UE_sched_ctrl_t) (pid : Z) (f : NR_UE_harq_t → NR_UE_harq_t)
    : res NR_UE_sched_ctrl_t :=
  l ← upd_proc (harq_processes s) pid f; Ok (s <| harq_processes := l |>).
Definition upd_ul (s : NR_UE_sched_ctrl_t) (pid : Z) (f : NR_UE_ul_harq_t → NR_UE_ul_harq_t)
    : res NR_UE_sched_ctrl_t :=
  l ← upd_proc (ul_harq_processes s) pid f; Ok (s <| ul_harq_processes := l |>).

(** [rounds[round]++] *)
Definition count_round (st : NR_mac_dir_stats_t) (r : Z) : res NR_mac_dir_stats_t :=
  l ← upd_proc (rounds st) r (λ n, u64 (n + 1)); Ok (st <| rounds := l |>).

(** ** Creation and reset *)

(** [for (int harq = from; harq < to; harq++) add_tail_nr_list(list, harq)] *)
Fixpoint add_tails (l : NR_list_t) (ids : list Z) : res NR_list_t :=
  match ids with [] => Ok l | i :: ids' => l ← add_tail_nr_list l i; add_tails l ids' end.

(** The three lists of one direction, for [nrofHARQ] processes. *)
Definition create_harq_lists (av fb rt : NR_list_t) (nrofHARQ : Z)
    : res (NR_list_t * NR_list_t * NR_list_t) :=
  if len av =? 0 then
    av ← add_tails (create_nr_list nrofHARQ) (seqZ 0 nrofHARQ);
    Ok (av, create_nr_list nrofHARQ, create_nr_list nrofHARQ)
  else if len av =? nrofHARQ then Ok (av, fb, rt)
  else
    let old := len av in
    _ ← assert_that (old <? nrofHARQ);
    av ← resize_nr_list av nrofHARQ;
    av ← add_tails av (seqZ old (nrofHARQ - old));
    fb ← resize_nr_list fb nrofHARQ;
    rt ← resize_nr_list rt nrofHARQ;
    Ok (av, fb, rt).

Definition create_dl_harq_list (s : NR_UE_sched_ctrl_t) (sc : NR_UE_ServingCell_Info_t)
    (dci_00_10 : bool) : res NR_UE_sched_ctrl_t :=
  n ← get_nrofHARQ_ProcessesForPDSCH sc;
  let n := if dci_00_10 && (16 <? n) then 16 else n in
  _ ← assert_that ((len (available_dl_harq s) =? len (feedback_dl_harq s))
                   && (len (available_dl_harq s) =? len (retrans_dl_harq s)));
  '(av, fb, rt) ← create_harq_lists (available_dl_harq s) (feedback_dl_harq s)
                    (retrans_dl_harq s) n;
  Ok (s <| available_dl_harq := av |> <| feedback_dl_harq := fb |> <| retrans_dl_harq := rt |>).

Definition create_ul_harq_list (s : NR_UE_sched_ctrl_t) (sc : NR_UE_ServingCell_Info_t)
    (dci_00_10 : bool) : res NR_UE_sched_ctrl_t :=
  let n := get_nrofHARQ_ProcessesForPUSCH sc in
  let n := if dci_00_10 && (16 <? n) then 16 else n in
  '(av, fb, rt) ← create_harq_lists (available_ul_harq s) (feedback_ul_harq s)
                    (retrans_ul_harq s) n;
  Ok (s <| available_ul_harq := av |> <| feedback_ul_harq := fb |> <| retrans_ul_harq := rt |>).

(** The HARQ lists in [configure_UE_BWP]; [dci_00_10] is whether DCI formats 0_0 and 1_0 are
    used, which is so in a common search space. *)
Definition configure_UE_BWP (u : NR_UE_info_t) (dci_00_10 : bool) : res NR_UE_info_t :=
  s ← create_dl_harq_list (UE_sched_ctrl u) (sc_info u) dci_00_10;
  s ← create_ul_harq_list s (sc_info u) dci_00_10;
  Ok (u <| UE_sched_ctrl := s |>).

Definition ack_reconfig (u : NR_UE_info_t) : res NR_UE_info_t :=
  match reconfigCellGroup u with
  | None => Ok u
  | Some sc => configure_UE_BWP (u <| sc_info := sc |> <| reconfigCellGroup := None |>) true
  end.

(** [while ((harq = from.head) >= 0)]: every process of [from] goes to the end of [av]. *)
Fixpoint drain (fuel : nat) (from av : NR_list_t) : res (NR_list_t * NR_list_t) :=
  match fuel with
  | O => NoFuel
  | S fuel' =>
      let harq := head from in
      if 0 <=? harq then
        from ← remove_front_nr_list from;
        av ← add_tail_nr_list av harq;
        drain fuel' from av
      else Ok (from, av)
  end.
Definition drain_all (from av : NR_list_t) : res (NR_list_t * NR_list_t) :=
  drain (S (length (next from))) from av.

Definition reset_dl_harq_list (s : NR_UE_sched_ctrl_t) : res NR_UE_sched_ctrl_t :=
  '(fb, av) ← drain_all (feedback_dl_harq s) (available_dl_harq s);
  '(rt, av) ← drain_all (retrans_dl_harq s) av;
  Ok (s <| available_dl_harq := av |> <| feedback_dl_harq := fb |> <| retrans_dl_harq := rt |>
        <| harq_processes ::= map (λ h, h <| feedback_slot := 65535 |> <| round := 0 |>
                                          <| is_waiting := false |>) |>).

Definition reset_ul_harq_list (s : NR_UE_sched_ctrl_t) : res NR_UE_sched_ctrl_t :=
  '(fb, av) ← drain_all (feedback_ul_harq s) (available_ul_harq s);
  '(rt, av) ← drain_all (retrans_ul_harq s) av;
  Ok (s <| available_ul_harq := av |> <| feedback_ul_harq := fb |> <| retrans_ul_harq := rt |>
        <| ul_harq_processes ::= map (λ h, h <| ul_feedback_slot := 65535 |> <| ul_round := 0 |>
                                             <| ul_is_waiting := false |>) |>).

(** ** Downlink *)

Definition finish_nr_dl_harq (s : NR_UE_sched_ctrl_t) (harq_pid : Z) : res NR_UE_sched_ctrl_t :=
  s ← upd_dl s harq_pid (λ h, h <| ndi ::= λ n, Z.lxor n 1 |> <| round := 0 |>);
  av ← add_tail_nr_list (available_dl_harq s) harq_pid;
  Ok (s <| available_dl_harq := av |>).

Definition abort_nr_dl_harq (u : NR_UE_info_t) (harq_pid : Z) : res NR_UE_info_t :=
  s ← finish_nr_dl_harq (UE_sched_ctrl u) harq_pid;
  Ok (u <| UE_sched_ctrl := s |> <| dl_stats ::= λ d, d <| errors ::= λ n, u64 (n + 1) |> |>).

(** [dl_harq_pid] is the process the scheduler chose, [pucch] the frame and slot of the feedback
    when a PUCCH is allocated.  Returns the process used. *)
Definition setup_dl_harq_process (s : NR_UE_sched_ctrl_t) (dl_harq_pid : Z)
    (pucch : option (Z * Z)) : res (Z * NR_UE_sched_ctrl_t) :=
  '(pid, s) ← (if dl_harq_pid <? 0 then
      let pid := head (available_dl_harq s) in
      _ ← assert_that (0 <=? pid);
      av ← remove_front_nr_list (available_dl_harq s);
      Ok (pid, s <| available_dl_harq := av |>)
    else
      h ← get_proc (harq_processes s) dl_harq_pid;
      if round h =? 0 then
        av ← remove_nr_list (available_dl_harq s) dl_harq_pid;
        Ok (dl_harq_pid, s <| available_dl_harq := av |>)
      else
        rt ← remove_nr_list (retrans_dl_harq s) dl_harq_pid;
        Ok (dl_harq_pid, s <| retrans_dl_harq := rt |>));
  h ← get_proc (harq_processes s) pid;
  _ ← assert_that (negb (is_waiting h));
  match pucch with
  | None => s ← finish_nr_dl_harq s pid; Ok (pid, s)
  | Some (frame, ul_slot) =>
      fb ← add_tail_nr_list (feedback_dl_harq s) pid;
      s ← upd_dl (s <| feedback_dl_harq := fb |>) pid (λ h,
            h <| feedback_frame := frame |> <| feedback_slot := ul_slot |> <| is_waiting := true |>);
      Ok (pid, s)
  end.

(** [post_process_dlsch] and [generate_dl_mac_pdu]: the process is set up and its round counted;
    a retransmission must have the size of the first transmission, a first transmission is
    remembered. *)
Definition post_process_dlsch (u : NR_UE_info_t) (dl_harq_pid : Z) (pucch : option (Z * Z))
    (tbs : Z) (act tci_is_scheduled phy_test : bool) : res (Z * NR_UE_info_t) :=
  '(pid, s) ← setup_dl_harq_process (UE_sched_ctrl u) dl_harq_pid pucch;
  h ← get_proc (harq_processes s) pid;
  d ← count_round (dl_stats u) (round h);
  s ← (if negb (round h =? 0) then
         _ ← (if phy_test then Ok tt else assert_that (tb_size h =? tbs));
         Ok s
       else upd_dl s pid (λ h, h <| start_tci_timer := tci_is_scheduled |>
                                 <| action := act |> <| tb_size := tbs |>));
  Ok (pid, u <| UE_sched_ctrl := s |> <| dl_stats := d |>).

(** Which process a downlink allocation uses ([collect_dl_candidates] and the dispatch of the
    allocations): one that waits for its retransmission, with the size of its transport block,
    else a free one; nothing is sent when there is neither. *)
Definition schedule_dl (u : NR_UE_info_t) (pucch : option (Z * Z)) (tbs : Z)
    (act tci_is_scheduled : bool) : res NR_UE_info_t :=
  let s := UE_sched_ctrl u in
  let harq_pid := head (retrans_dl_harq s) in
  if 0 <=? harq_pid then
    h ← get_proc (harq_processes s) harq_pid;
    '(_, u) ← post_process_dlsch u harq_pid pucch (tb_size h) act tci_is_scheduled false; Ok u
  else if head (available_dl_harq s) <? 0 then Ok u
  else
    '(_, u) ← post_process_dlsch u (head (available_dl_harq s)) pucch tbs
                (act && bool_decide (is_Some (reconfigCellGroup u))) tci_is_scheduled false;
    Ok u.

Definition handle_dl_harq (u : NR_UE_info_t) (harq_pid : Z) (success : bool)
    (harq_round_max : Z) : res NR_UE_info_t :=
  s ← upd_dl (UE_sched_ctrl u) harq_pid (λ h, h <| feedback_slot := 65535 |>
                                               <| is_waiting := false |>);
  let u := u <| UE_sched_ctrl := s |> in
  h ← get_proc (harq_processes s) harq_pid;
  if success then
    u ← (if action h then ack_reconfig u else Ok u);
    s ← finish_nr_dl_harq (UE_sched_ctrl u) harq_pid;
    Ok (u <| UE_sched_ctrl := s |>)
  else if harq_round_max - 1 <=? round h then abort_nr_dl_harq u harq_pid
  else
    rt ← add_tail_nr_list (retrans_dl_harq s) harq_pid;
    s ← upd_dl (s <| retrans_dl_harq := rt |>) harq_pid (λ h, h <| round ::= λ r, u8 (r + 1) |>);
    Ok (u <| UE_sched_ctrl := s |>).

(** The feedback of [h] was due before, respectively is due after, [frame].[slot]. *)
Definition feedback_past (h : NR_UE_harq_t) (frame slot : Z) : bool :=
  (512 <? Z.rem (feedback_frame h - frame + 1024) 1024)
  || ((feedback_frame h =? frame) && (feedback_slot h <? slot)).
Definition feedback_future (h : NR_UE_harq_t) (frame slot : Z) : bool :=
  (512 <? Z.rem (frame - feedback_frame h + 1024) 1024)
  || ((feedback_frame h =? frame) && (slot <? feedback_slot h)).

(** The loop over the missed feedbacks; returns the process found ([None] is NULL). *)
Fixpoint find_harq_loop (fuel : nat) (frame slot : Z) (u : NR_UE_info_t) (harq_round_max : Z)
    : res (option Z * NR_UE_info_t) :=
  match fuel with
  | O => NoFuel
  | S fuel' =>
      let s := UE_sched_ctrl u in
      let pid := head (feedback_dl_harq s) in
      if pid <? 0 then Ok (None, u)
      else
        h ← get_proc (harq_processes s) pid;
        if feedback_past h frame slot then
          fb ← remove_front_nr_list (feedback_dl_harq s);
          u ← handle_dl_harq (u <| UE_sched_ctrl := s <| feedback_dl_harq := fb |> |>) pid false
                harq_round_max;
          find_harq_loop fuel' frame slot u harq_round_max
        else if feedback_future h frame slot then Ok (None, u)
        else Ok (Some pid, u)
  end.

Definition find_harq (frame slot : Z) (u : NR_UE_info_t) (harq_round_max : Z)
    : res (option Z * NR_UE_info_t) :=
  find_harq_loop (S (length (next (feedback_dl_harq (UE_sched_ctrl u))))) frame slot u harq_round_max.

(** One HARQ bit of a UCI: the process it answers, then what is done with the answer. *)
Definition handle_harq_bit (frame slot numb_slots_frame : Z) (u : NR_UE_info_t) (success : bool)
    (harq_round_max : Z) : res (bool * NR_UE_info_t) :=
  '(found, u) ← find_harq frame slot u harq_round_max;
  match found with
  | None => Ok (false, u)
  | Some hp =>
      let s := UE_sched_ctrl u in
      h ← get_proc (harq_processes s) hp;
      _ ← assert_that (is_waiting h);
      let pid := head (feedback_dl_harq s) in
      fb ← remove_front_nr_list (feedback_dl_harq s);
      let s := s <| feedback_dl_harq := fb |> in
      s ← (if success && start_tci_timer h then
             upd_dl (s <| tci_beam_switch ::= λ t,
                            nr_timer_start (nr_timer_setup t (3 * numb_slots_frame / 10) 1) |>)
               hp (λ h, h <| start_tci_timer := false |>)
           else Ok s);
      u ← handle_dl_harq (u <| UE_sched_ctrl := s |>) pid success harq_round_max;
      Ok (true, u)
  end.

(** The loop over the bits; each answer is read when its turn comes. *)
Fixpoint handle_harq_bits (frame slot numb_slots_frame : Z) (u : NR_UE_info_t)
    (answers : list (res bool)) (harq_round_max : Z) : res NR_UE_info_t :=
  match answers with
  | [] => Ok u
  | answer :: answers' =>
      success ← answer;
      '(go, u) ← handle_harq_bit frame slot numb_slots_frame u success harq_round_max;
      if (go : bool) then handle_harq_bits frame slot numb_slots_frame u answers' harq_round_max
      else Ok u
  end.

(** [success] of bit [harq_bit] of a PUCCH format 0 or 1: [harq_list] has two entries. *)
Definition uci_0_1_answer (harq_list : list Z) (harq_confidence_level harq_bit : Z) : res bool :=
  harq_value ← deref (znth harq_list harq_bit);
  Ok ((harq_value =? 0) && (harq_confidence_level =? 0)).

(** [success] of bit [harq_bit] of a PUCCH format 2, 3 or 4; shifting an [int] by 32 or more is
    undefined. *)
Definition uci_2_3_4_answer (harq_payload : bytes) (harq_crc harq_bit : Z) : res bool :=
  b ← deref (znth harq_payload (Z.shiftr harq_bit 3));
  if harq_bit <? 32 then
    Ok (negb (harq_crc =? 1) && negb (Z.land (Z.shiftr b harq_bit) 1 =? 0))
  else UB.

Definition handle_nr_uci_pucch_0_1 (frame slot numb_slots_frame : Z) (u : NR_UE_info_t)
    (pduBitmap num_harq : Z) (harq_list : list Z) (harq_confidence_level : Z) (harq_round_max : Z)
    : res NR_UE_info_t :=
  if Z.testbit pduBitmap 1 then
    handle_harq_bits frame slot numb_slots_frame u
      (map (uci_0_1_answer harq_list harq_confidence_level) (seqZ 0 num_harq)) harq_round_max
  else Ok u.

Definition handle_nr_uci_pucch_2_3_4 (frame slot numb_slots_frame : Z) (u : NR_UE_info_t)
    (pduBitmap harq_bit_len : Z) (harq_payload : bytes) (harq_crc : Z) (harq_round_max : Z)
    : res NR_UE_info_t :=
  if Z.testbit pduBitmap 1 then
    handle_harq_bits frame slot numb_slots_frame u
      (map (uci_2_3_4_answer harq_payload harq_crc) (seqZ 0 harq_bit_len)) harq_round_max
  else Ok u.

(** ** Uplink *)

Definition finish_nr_ul_harq (s : NR_UE_sched_ctrl_t) (harq_pid : Z) : res NR_UE_sched_ctrl_t :=
  s ← upd_ul s harq_pid (λ h, h <| ul_ndi ::= λ n, Z.lxor n 1 |> <| ul_round := 0 |>);
  av ← add_tail_nr_list (available_ul_harq s) harq_pid;
  Ok (s <| available_ul_harq := av |>).

Definition abort_nr_ul_harq (u : NR_UE_info_t) (harq_pid : Z) : res NR_UE_info_t :=
  s ← finish_nr_ul_harq (UE_sched_ctrl u) harq_pid;
  h ← get_proc (ul_harq_processes s) harq_pid;
  let left := sched_ul_bytes s - ul_tb_size h in
  Ok (u <| UE_sched_ctrl := s <| sched_ul_bytes := if left <? 0 then 0 else left |> |>
        <| ul_stats ::= λ d, d <| errors ::= λ n, u64 (n + 1) |> |>).

(** The UL HARQ part of [post_process_ulsch]. *)
Definition post_process_ulsch (u : NR_UE_info_t) (req_pid pusch_slot tbs : Z)
    (disable_harq : bool) (harq_round_max : Z) : res (Z * NR_UE_info_t) :=
  let s := UE_sched_ctrl u in
  '(pid, s) ← (if req_pid <? 0 then
      let pid := head (available_ul_harq s) in
      _ ← assert_that (0 <=? pid);
      av ← remove_front_nr_list (available_ul_harq s);
      Ok (pid, s <| available_ul_harq := av |>)
    else
      h ← get_proc (ul_harq_processes s) req_pid;
      if ul_round h =? 0 then
        av ← remove_nr_list (available_ul_harq s) req_pid;
        Ok (req_pid, s <| available_ul_harq := av |>)
      else
        rt ← remove_nr_list (retrans_ul_harq s) req_pid;
        Ok (req_pid, s <| retrans_ul_harq := rt |>));
  h ← get_proc (ul_harq_processes s) pid;
  _ ← assert_that (negb (ul_is_waiting h));
  s ← (if disable_harq then finish_nr_ul_harq s pid
       else
         fb ← add_tail_nr_list (feedback_ul_harq s) pid;
         upd_ul (s <| feedback_ul_harq := fb |>) pid (λ h,
           h <| ul_feedback_slot := pusch_slot |> <| ul_is_waiting := true |>));
  h ← get_proc (ul_harq_processes s) pid;
  _ ← assert_that (ul_round h <? harq_round_max);
  d ← count_round (ul_stats u) (ul_round h);
  let s := if ul_round h =? 0 then s <| sched_ul_bytes ::= Z.add tbs |> else s in
  s ← upd_ul s pid (λ h, h <| ul_harq_pid := pid |> <| ul_tb_size := tbs |>);
  Ok (pid, u <| UE_sched_ctrl := s |> <| ul_stats := d |>).

(** Which process an uplink allocation uses: one that waits for its retransmission
    ([apply_ul_retransmission]; [retx_tbs] is the size computed when the time allocation changed),
    else a free one ([apply_ul_new_transmission]). *)
Definition schedule_ul (u : NR_UE_info_t) (pusch_slot tbs : Z) (retx_tbs : option Z)
    (disable_harq : bool) (harq_round_max : Z) : res NR_UE_info_t :=
  let s := UE_sched_ctrl u in
  let harq_pid := head (retrans_ul_harq s) in
  if 0 <=? harq_pid then
    h ← get_proc (ul_harq_processes s) harq_pid;
    _ ← assert_that (ul_harq_pid h =? harq_pid);
    '(_, u) ← post_process_ulsch u harq_pid pusch_slot (default (ul_tb_size h) retx_tbs)
                disable_harq harq_round_max;
    Ok u
  else if head (available_ul_harq s) <? 0 then Ok u
  else '(_, u) ← post_process_ulsch u (-1) pusch_slot tbs disable_harq harq_round_max; Ok u.

(** What the two failed branches of [handle_nr_ul_harq] share: a process just taken from the
    feedback list is aborted in its last round, else it waits for its retransmission. *)
Definition ul_harq_failed (u : NR_UE_info_t) (harq_pid harq_round_max : Z) : res NR_UE_info_t :=
  let s := UE_sched_ctrl u in
  h ← get_proc (ul_harq_processes s) harq_pid;
  if harq_round_max - 1 <=? ul_round h then abort_nr_ul_harq u harq_pid
  else
    s ← upd_ul s harq_pid (λ h, h <| ul_round ::= λ r, u8 (r + 1) |>);
    rt ← add_tail_nr_list (retrans_ul_harq s) harq_pid;
    Ok (u <| UE_sched_ctrl := s <| retrans_ul_harq := rt |> |>).

Fixpoint ul_harq_skip (fuel : nat) (u : NR_UE_info_t) (crc_harq_id harq_round_max : Z)
    : res (option Z * NR_UE_info_t) :=
  match fuel with
  | O => NoFuel
  | S fuel' =>
      let s := UE_sched_ctrl u in
      let pid := head (feedback_ul_harq s) in
      if negb (crc_harq_id =? pid) || (pid <? 0) then
        if pid <? 0 then Ok (None, u)
        else
          fb ← remove_front_nr_list (feedback_ul_harq s);
          s ← upd_ul (s <| feedback_ul_harq := fb |>) pid (λ h, h <| ul_is_waiting := false |>);
          u ← ul_harq_failed (u <| UE_sched_ctrl := s |>) pid harq_round_max;
          ul_harq_skip fuel' u crc_harq_id harq_round_max
      else Ok (Some pid, u)
  end.

(** [crc_status] is true when the CRC is wrong. *)
Definition handle_nr_ul_harq (u : NR_UE_info_t) (disable_harq : bool) (crc_harq_id : Z)
    (crc_status : bool) (harq_round_max : Z) : res NR_UE_info_t :=
  if disable_harq then Ok u
  else
    '(found, u) ← ul_harq_skip (S (length (next (feedback_ul_harq (UE_sched_ctrl u))))) u
                    crc_harq_id harq_round_max;
    match found with
    | None => Ok u
    | Some pid =>
        let s := UE_sched_ctrl u in
        fb ← remove_front_nr_list (feedback_ul_harq s);
        let s := s <| feedback_ul_harq := fb |> in
        h ← get_proc (ul_harq_processes s) pid;
        _ ← assert_that (ul_is_waiting h);
        s ← upd_ul s pid (λ h, h <| ul_feedback_slot := 65535 |> <| ul_is_waiting := false |>);
        let u := u <| UE_sched_ctrl := s |> in
        if crc_status then ul_harq_failed u pid harq_round_max
        else s ← finish_nr_ul_harq s pid; Ok (u <| UE_sched_ctrl := s |>)
    end.
