(* ===== verification/MacHarqInv.v ===== *)
(** * HARQ processes: where each process is

    The invariant that the two directions share, over the type of their processes: every process
    of the UE is in exactly one of the three lists, or in hand (taken from one list and not yet
    put into another, in the middle of a function), and its state agrees with the list it is in.
    The lemmas move a process from list to hand and back, as the code does. *)

From S2P Require Import Prelude NrList MacHarq.

(** ** Sequences of list operations *)

Lemma add_tails_repr ids : ∀ l xs,
  nr_list_repr l xs → NoDup ids → (∀ i, i ∈ ids → 0 <= i < len l ∧ i ∉ xs) →
  ∃ l', add_tails l ids = Ok l' ∧ nr_list_repr l' (xs ++ ids) ∧ len l' = len l.
Proof.
  induction ids as [| i ids IH]; intros l xs H Hnd Hids; simpl.
  - rewrite app_nil_r. eauto.
  - apply NoDup_cons in Hnd as [Hi Hnd]. destruct (Hids i) as [Hb Hni]; [set_solver |].
    destruct (add_tail_repr l xs i H Hb Hni) as (l1 & -> & H1 & E1). simpl.
    destruct (IH l1 (xs ++ [i])) as (l' & E & H' & E'); [done.. | |].
    + intros j Hj. destruct (Hids j) as [Hjb Hjn]; [set_solver |]. split; [lia | set_solver].
    + exists l'. rewrite <- app_assoc in H'. split_and!; [done.. | congruence].
Qed.

Lemma drain_repr_fuel fuel : ∀ from av xs ys,
  nr_list_repr av xs → nr_list_repr from ys → len av = len from → NoDup (xs ++ ys) →
  (length ys < fuel)%nat →
  ∃ from' av', drain fuel from av = Ok (from', av') ∧ nr_list_repr from' [] ∧
    nr_list_repr av' (xs ++ ys) ∧ len from' = len from ∧ len av' = len av.
Proof.
  induction fuel as [| fuel IH]; intros from av xs ys Ha Hf El Hnd Hlt; [lia |].
  cbn [drain]. destruct (repr_head _ _ Hf) as [Hh _]. rewrite Hh.
  destruct ys as [| y ys]; simpl.
  { rewrite app_nil_r. eauto 10. }
  destruct (repr_bound _ _ y Hf) as [Hy0 Hy1]; [set_solver |]. decide_true (0 <=? y).
  destruct (remove_front_repr _ _ _ Hf) as (from1 & -> & Hf1 & E1). simpl.
  pose proof Hnd as (_ & Hdis & _)%NoDup_app.
  destruct (add_tail_repr av xs y) as (av1 & -> & Ha1 & E2);
    [done | lia | intros Hc; apply (Hdis y Hc); set_solver |]. simpl.
  destruct (IH from1 av1 (xs ++ [y]) ys) as (from' & av' & E & ? & ? & ? & ?);
    [done | done | congruence | by rewrite <- app_assoc | simpl in Hlt; lia |].
  exists from', av'. rewrite <- app_assoc in *. split_and!; [done.. | congruence | congruence].
Qed.

Lemma drain_repr from av xs ys :
  nr_list_repr av xs → nr_list_repr from ys → len av = len from → NoDup (xs ++ ys) →
  ∃ from' av', drain_all from av = Ok (from', av') ∧ nr_list_repr from' [] ∧
    nr_list_repr av' (xs ++ ys) ∧ len from' = len from ∧ len av' = len av.
Proof. intros Ha Hf El Hnd. apply drain_repr_fuel; try done. pose proof (repr_length _ _ Hf). lia. Qed.

Section direction.
(** What the invariant reads of a process, and what is known of one in use ([own]). *)
Context {A : Type} (wt : A → bool) (rnd : A → Z) (own : Z → A → Prop) (rmax : Z).

Record harq_inv (procs : list A) (av fb rt : NR_list_t) (xs ys zs hs : list Z) (n : Z) : Prop := {
  hi_av : nr_list_repr av xs;
  hi_fb : nr_list_repr fb ys;
  hi_rt : nr_list_repr rt zs;
  hi_len : len av = n ∧ len fb = n ∧ len rt = n;
  hi_n : 0 < n <= 32;
  hi_procs : zlen procs = 32;
  hi_part : xs ++ ys ++ zs ++ hs ≡ₚ seqZ 0 n;
  hi_free i p : i ∈ xs → znth procs i = Some p → wt p = false ∧ rnd p = 0;
  hi_wait i p : i ∈ ys → znth procs i = Some p → wt p = true ∧ own i p;
  hi_retx i p : i ∈ zs → znth procs i = Some p → wt p = false ∧ 0 < rnd p ∧ own i p;
  hi_round i p : znth procs i = Some p → 0 <= rnd p < rmax;
  hi_beyond i p : n <= i → znth procs i = Some p → wt p = false ∧ rnd p = 0
}.

Section facts.
Context {procs : list A} {av fb rt : NR_list_t} {xs ys zs hs : list Z} {n : Z}
  (H : harq_inv procs av fb rt xs ys zs hs n).

Lemma hi_bound i : i ∈ xs ++ ys ++ zs ++ hs → 0 <= i < n.
Proof using H. rewrite (hi_part _ _ _ _ _ _ _ _ _ H), elem_of_seqZ. lia. Qed.

Lemma hi_nodup : NoDup (xs ++ ys ++ zs ++ hs).
Proof using H. rewrite (hi_part _ _ _ _ _ _ _ _ _ H). apply NoDup_seqZ. Qed.

Lemma hi_get i : i ∈ xs ++ ys ++ zs ++ hs → ∃ p, znth procs i = Some p ∧ get_proc procs i = Ok p.
Proof using H.
  intros Hi%hi_bound. pose proof (hi_n _ _ _ _ _ _ _ _ _ H). destruct (znth_is_Some procs i) as [p Hp].
  - rewrite (hi_procs _ _ _ _ _ _ _ _ _ H). lia.
  - exists p. unfold get_proc. by rewrite Hp.
Qed.

(** A process is in one place only. *)
Lemma hi_disjoint i : i ∈ hs → (i ∉ xs) ∧ (i ∉ ys) ∧ (i ∉ zs).
Proof using H.
  intros Hi. pose proof hi_nodup as Hn. apply NoDup_app in Hn as (_ & H1 & Hn).
  apply NoDup_app in Hn as (_ & H2 & Hn). apply NoDup_app in Hn as (_ & H3 & _).
  split_and!; intros Hc; [eapply H1 | eapply H2 | eapply H3]; try done; set_solver.
Qed.
End facts.

(** ** Processes in hand *)

Lemma alter_insert {B} (l : list B) (i : nat) x (f : B → B) :
  l !! i = Some x → <[i := f x]> l = alter f i l.
Proof.
  intros Hx. apply list_eq. intros j. destruct (decide (i = j)) as [<- | Hne].
  - rewrite list_lookup_alter_eq, list_lookup_insert_eq, Hx by (by eapply lookup_lt_Some). done.
  - by rewrite list_lookup_alter_ne, list_lookup_insert_ne.
Qed.

(** The code reads and updates a process in hand. *)
Lemma hand_upd procs av fb rt xs ys zs hs n i f :
  harq_inv procs av fb rt xs ys zs hs n → i ∈ hs →
  (∀ p, znth procs i = Some p → 0 <= rnd (f p) < rmax) →
  ∃ p, znth procs i = Some p ∧ get_proc procs i = Ok p ∧
    upd_proc procs i f = Ok (alter f (Z.to_nat i) procs) ∧
    znth (alter f (Z.to_nat i) procs) i = Some (f p) ∧
    harq_inv (alter f (Z.to_nat i) procs) av fb rt xs ys zs hs n.
Proof.
  intros H Hi Hf. destruct (hi_get H i) as (p & Hp & Hg); [set_solver |].
  assert (Hb : 0 <= i < n) by (apply (hi_bound H); set_solver).
  destruct (hi_disjoint H i Hi) as (Hx & Hy & Hz).
  pose proof H as [? ? ? ? ? Hl ? Hfr Hwt Hre Hro Hbe].
  assert (Hl' : 0 <= i < zlen procs) by lia.
  rewrite <- (alter_insert procs _ p) by (by rewrite <- znth_lookup by lia).
  pose proof (znth_insert procs i i (f p) Hl' ltac:(lia)) as Hi'. rewrite Z.eqb_refl in Hi'.
  assert (Hoth : ∀ j q, j ≠ i → znth (<[Z.to_nat i:=f p]> procs) j = Some q → znth procs j = Some q).
  { intros j q Hne Hj. pose proof (znth_Some _ _ _ Hj) as [? _].
    rewrite znth_insert in Hj by lia. by destruct (Z.eqb_spec j i). }
  exists p. split_and!; try done.
  - unfold upd_proc. rewrite Hg. simpl. by apply zset_Ok.
  - constructor; try done.
    + by rewrite zlen_insert.
    + intros j q Hj Hq%Hoth; [eauto | by intros ->].
    + intros j q Hj Hq%Hoth; [eauto | by intros ->].
    + intros j q Hj Hq%Hoth; [eauto | by intros ->].
    + intros j q Hq. destruct (decide (j = i)) as [-> | Hne]; [| eauto using Hoth].
      rewrite Hi' in Hq. simplify_eq. eauto.
    + intros j q Hj Hq%Hoth; [eauto | lia].
Qed.

(** An update that changes nothing the invariant is about is allowed anywhere. *)
Lemma keep_upd procs av fb rt xs ys zs hs n i f :
  harq_inv procs av fb rt xs ys zs hs n → 0 <= i < n →
  (∀ p, wt (f p) = wt p ∧ rnd (f p) = rnd p ∧ (own i p → own i (f p))) →
  upd_proc procs i f = Ok (alter f (Z.to_nat i) procs) ∧
  harq_inv (alter f (Z.to_nat i) procs) av fb rt xs ys zs hs n.
Proof.
  intros H Hi Hf. pose proof H as [? ? ? ? ? Hl ? Hfr Hwt Hre Hro Hbe].
  destruct (znth_is_Some procs i) as [p Hp]; [lia |].
  assert (Hl' : 0 <= i < zlen procs) by lia.
  rewrite <- (alter_insert procs _ p) by (by rewrite <- znth_lookup by lia).
  assert (Hoth : ∀ j q, znth (<[Z.to_nat i:=f p]> procs) j = Some q →
    ∃ q', znth procs j = Some q' ∧ wt q = wt q' ∧ rnd q = rnd q' ∧ (own j q' → own j q)).
  { intros j q Hj. pose proof (znth_Some _ _ _ Hj) as [? _].
    rewrite znth_insert in Hj by lia. destruct (Z.eqb_spec j i) as [-> | _]; [| eauto]. simplify_eq.
    exists p. destruct (Hf p) as (-> & -> & ?). done. }
  split; [unfold upd_proc, get_proc; rewrite Hp; simpl; by apply zset_Ok |].
  constructor; try done; [by rewrite zlen_insert |..].
  - intros j q Hj Hq. apply Hoth in Hq as (q' & Hq & -> & -> & _). eauto.
  - intros j q Hj Hq. apply Hoth in Hq as (q' & Hq & -> & _ & Ho). destruct (Hwt j q'); eauto.
  - intros j q Hj Hq. apply Hoth in Hq as (q' & Hq & -> & -> & Ho).
    destruct (Hre j q') as (? & ? & ?); eauto.
  - intros j q Hq. apply Hoth in Hq as (q' & Hq & _ & -> & _). eauto.
  - intros j q Hj Hq. apply Hoth in Hq as (q' & Hq & -> & -> & _). eauto.
Qed.

(** ** From a list to the hand *)

Lemma take_av_front procs av fb rt x xs ys zs hs n :
  harq_inv procs av fb rt (x :: xs) ys zs hs n →
  ∃ av', remove_front_nr_list av = Ok av' ∧ harq_inv procs av' fb rt xs ys zs (x :: hs) n.
Proof.
  intros [Ha ? ? [<- ?] ? ? Hp Hfr ? ? ? ?]. destruct (remove_front_repr _ _ _ Ha) as (av' & E & ? & ?).
  exists av'. split; [done |]. constructor; try done.
  - rewrite <- Hp. simpl. solve_Permutation.
  - intros i p Hi. apply Hfr. set_solver.
Qed.

Lemma take_fb_front procs av fb rt xs y ys zs hs n :
  harq_inv procs av fb rt xs (y :: ys) zs hs n →
  ∃ fb', remove_front_nr_list fb = Ok fb' ∧ harq_inv procs av fb' rt xs ys zs (y :: hs) n.
Proof.
  intros [? Ha ? (? & <- & ?) ? ? Hp ? Hwt ? ? ?]. destruct (remove_front_repr _ _ _ Ha) as (fb' & E & ? & ?).
  exists fb'. split; [done |]. constructor; try done.
  - rewrite <- Hp. simpl. solve_Permutation.
  - intros i p Hi. apply Hwt. set_solver.
Qed.

Lemma take_av procs av fb rt pre x post ys zs hs n :
  harq_inv procs av fb rt (pre ++ x :: post) ys zs hs n →
  ∃ av', remove_nr_list av x = Ok av' ∧ harq_inv procs av' fb rt (pre ++ post) ys zs (x :: hs) n.
Proof.
  intros [Ha ? ? [<- ?] ? ? Hp Hfr ? ? ? ?]. destruct (remove_repr _ _ _ _ Ha) as (av' & E & ? & ?).
  exists av'. split; [done |]. constructor; try done.
  - rewrite <- Hp. solve_Permutation.
  - intros i p Hi. apply Hfr. set_solver.
Qed.

Lemma take_rt procs av fb rt xs ys pre x post hs n :
  harq_inv procs av fb rt xs ys (pre ++ x :: post) hs n →
  ∃ rt', remove_nr_list rt x = Ok rt' ∧ harq_inv procs av fb rt' xs ys (pre ++ post) (x :: hs) n.
Proof.
  intros [? ? Ha (? & ? & <-) ? ? Hp ? ? Hre ? ?]. destruct (remove_repr _ _ _ _ Ha) as (rt' & E & ? & ?).
  exists rt'. split; [done |]. constructor; try done.
  - rewrite <- Hp. solve_Permutation.
  - intros i p Hi. apply Hre. set_solver.
Qed.

(** ** From the hand to a list *)

Lemma put_av procs av fb rt xs ys zs i hs n :
  harq_inv procs av fb rt xs ys zs (i :: hs) n →
  (∀ p, znth procs i = Some p → wt p = false ∧ rnd p = 0) →
  ∃ av', add_tail_nr_list av i = Ok av' ∧ harq_inv procs av' fb rt (xs ++ [i]) ys zs hs n.
Proof.
  intros H Hi. destruct (hi_disjoint H i) as (Hx & _ & _); [set_solver |].
  pose proof (hi_bound H i ltac:(set_solver)). destruct H as [Ha ? ? [<- ?] ? ? Hp Hfr ? ? ? ?].
  destruct (add_tail_repr av xs i) as (av' & E & ? & ?); [done.. |].
  exists av'. split; [done |]. constructor; try done.
  - rewrite <- Hp. solve_Permutation.
  - intros j p [Hj | ->%list_elem_of_singleton]%elem_of_app; eauto.
Qed.

Lemma put_fb procs av fb rt xs ys zs i hs n :
  harq_inv procs av fb rt xs ys zs (i :: hs) n →
  (∀ p, znth procs i = Some p → wt p = true ∧ own i p) →
  ∃ fb', add_tail_nr_list fb i = Ok fb' ∧ harq_inv procs av fb' rt xs (ys ++ [i]) zs hs n.
Proof.
  intros H Hi. destruct (hi_disjoint H i) as (_ & Hx & _); [set_solver |].
  pose proof (hi_bound H i ltac:(set_solver)). destruct H as [? Ha ? (? & <- & ?) ? ? Hp ? Hwt ? ? ?].
  destruct (add_tail_repr fb ys i) as (fb' & E & ? & ?); [done.. |].
  exists fb'. split; [done |]. constructor; try done.
  - rewrite <- Hp. solve_Permutation.
  - intros j p [Hj | ->%list_elem_of_singleton]%elem_of_app; eauto.
Qed.

Lemma put_rt procs av fb rt xs ys zs i hs n :
  harq_inv procs av fb rt xs ys zs (i :: hs) n →
  (∀ p, znth procs i = Some p → wt p = false ∧ 0 < rnd p ∧ own i p) →
  ∃ rt', add_tail_nr_list rt i = Ok rt' ∧ harq_inv procs av fb rt' xs ys (zs ++ [i]) hs n.
Proof.
  intros H Hi. destruct (hi_disjoint H i) as (_ & _ & Hx); [set_solver |].
  pose proof (hi_bound H i ltac:(set_solver)). destruct H as [? ? Ha (? & ? & <-) ? ? Hp ? ? Hre ? ?].
  destruct (add_tail_repr rt zs i) as (rt' & E & ? & ?); [done.. |].
  exists rt'. split; [done |]. constructor; try done.
  - rewrite <- Hp. solve_Permutation.
  - intros j p [Hj | ->%list_elem_of_singleton]%elem_of_app; eauto.
Qed.
(** ** Creation, growth and reset *)

Lemma create_lists procs av fb rt n :
  len av = 0 → 0 < n <= 32 → zlen procs = 32 → 0 < rmax →
  (∀ i p, znth procs i = Some p → wt p = false ∧ rnd p = 0) →
  ∃ av' fb' rt', create_harq_lists av fb rt n = Ok (av', fb', rt') ∧
    harq_inv procs av' fb' rt' (seqZ 0 n) [] [] [] n.
Proof.
  intros Hl Hn Hp Hr Hz. unfold create_harq_lists. rewrite Hl. simpl.
  pose proof (create_repr n ltac:(lia)) as Hc.
  destruct (add_tails_repr (seqZ 0 n) (create_nr_list n) []) as (av' & E & Hav & Hlen).
  - done.
  - apply NoDup_seqZ.
  - intros i Hi%elem_of_seqZ. simpl. split; [lia | set_solver].
  - rewrite E. simpl. do 3 eexists. split; [done |]. constructor; try done.
    + by rewrite !app_nil_r.
    + eauto.
    + set_solver.
    + set_solver.
    + intros i p Hi%Hz. lia.
    + eauto.
Qed.

Lemma grow_lists procs av fb rt xs ys zs hs n n' :
  harq_inv procs av fb rt xs ys zs hs n → n <= n' <= 32 →
  ∃ av' fb' rt', create_harq_lists av fb rt n' = Ok (av', fb', rt') ∧
    harq_inv procs av' fb' rt' (xs ++ seqZ n (n' - n)) ys zs hs n'.
Proof.
  intros H Hn'. pose proof H as [Ha Hf Ht (El & Ef & Et) Hn Hl Hp Hfr ? ? ? Hbe]. unfold create_harq_lists.
  rewrite El. decide_false (n =? 0). destruct (Z.eqb_spec n n') as [-> | Hne].
  { rewrite Z.sub_diag, app_nil_r. eauto. }
  decide_true (n <? n'). simpl.
  destruct (resize_grow_repr av xs n') as (av1 & -> & Ha1 & El1); [done | lia.. |]. simpl.
  destruct (add_tails_repr (seqZ n (n' - n)) av1 xs) as (av2 & -> & Ha2 & El2); [done | apply NoDup_seqZ | |].
  { intros i Hi%elem_of_seqZ. split; [lia |]. intros Hc.
    destruct (hi_bound H i); [set_solver | lia]. }
  destruct (resize_grow_repr fb ys n') as (fb1 & E1 & Hf1 & Ef1); [done | lia.. |].
  destruct (resize_grow_repr rt zs n') as (rt1 & E2 & Ht1 & Et1); [done | lia.. |].
  simpl. rewrite E1. simpl. rewrite E2. simpl. do 3 eexists. split; [done |]. constructor; try done.
  - split_and!; [lia | done | done].
  - lia.
  - replace n' with (n + (n' - n)) at 2 by lia. rewrite seqZ_app, Z.add_0_l, <- Hp by lia. solve_Permutation.
  - intros i p [Hi | Hi%elem_of_seqZ]%elem_of_app; [eauto |]. apply Hbe. lia.
  - intros i p Hi. apply Hbe. lia.
Qed.

Lemma reset_lists procs av fb rt xs ys zs n f :
  harq_inv procs av fb rt xs ys zs [] n → 0 < rmax →
  (∀ p, wt (f p) = false ∧ rnd (f p) = 0) →
  ∃ fb' av1 rt' av', drain_all fb av = Ok (fb', av1) ∧ drain_all rt av1 = Ok (rt', av') ∧
    harq_inv (map f procs) av' fb' rt' (xs ++ ys ++ zs) [] [] [] n.
Proof.
  intros H Hr Hf. pose proof (hi_nodup H) as Hnd. rewrite app_nil_r in Hnd.
  destruct H as [Ha Hb Ht (El & Ef & Et) Hn Hl Hp _ _ _ _ _].
  destruct (drain_repr fb av xs ys) as (fb' & av1 & E1 & Hf1 & Ha1 & El1 & El2); [done.. | congruence | |].
  { rewrite app_assoc in Hnd. by apply NoDup_app in Hnd as [Hnd _]. }
  destruct (drain_repr rt av1 (xs ++ ys) zs) as (rt' & av' & E2 & Ht1 & Ha2 & El3 & El4);
    [done.. | congruence | by rewrite <- app_assoc |].
  assert (Hq : ∀ i p, znth (map f procs) i = Some p → wt p = false ∧ rnd p = 0).
  { intros i p Hi. unfold znth in Hi. case_match; [done |].
    rewrite list_lookup_fmap in Hi. destruct (procs !! _); [| done]. simpl in Hi. by simplify_eq. }
  exists fb', av1, rt', av'. split_and!; [done.. |]. constructor; try done.
  - by rewrite <- app_assoc in Ha2.
  - split_and!; congruence.
  - unfold zlen in *. by rewrite length_map.
  - rewrite !app_nil_r in *. done.
  - eauto.
  - set_solver.
  - set_solver.
  - intros i p Hi%Hq. lia.
  - eauto.
Qed.
End direction.
