(* ===== verification/MacHarqSim.v ===== *)
(** * HARQ processes: the queues they move between

    An abstract machine for the HARQ of one UE: the processes that are free, that wait for
    feedback, and that wait for their retransmission are three queues; there are no links, no
    assertions and no fuel.  [a_exec] is what the operations of [MacHarq] do to them.

    Then: HARQ processes: the downlink implements the queues.
    [dl_sim] relates the downlink part of the scheduler's state of a UE to these
    queues, with the processes in hand; the lemmas show that each downlink function
    returns, and does to the queues what the abstract operation does. *)

From S2P Require Import Prelude MacHarq NrList MacHarqInv.

(** ** One direction *)

Record pool (A : Type) := mk_pool {
  free : list Z;
  await : list Z;
  retx : list Z;
  procs : list A;
  limit : Z
}.
Arguments mk_pool {A} free await retx procs limit.
Arguments free {A} p.
Arguments await {A} p.
Arguments retx {A} p.
Arguments procs {A} p.
Arguments limit {A} p.
#[export] Instance eta_pool A : Settable (pool A) :=
  λ p, mk_pool (free p) (await p) (retx p) (procs p) (limit p).

Section pool.
Context {A : Type}.
Implicit Types V : pool A.

(** The process [i] of the pool changes. *)
Definition a_upd (i : Z) (f : A → A) V : pool A := V <| procs ::= alter f (Z.to_nat i) |>.

(** What holds of process [i]. *)
Definition of_proc V (i : Z) (f : A → bool) : bool := from_option f false (znth (procs V) i).

Definition a_grow (n : Z) V : pool A :=
  V <| free := free V ++ seqZ (limit V) (n - limit V) |> <| limit := n |>.

Definition a_reset (f : A → A) V : pool A :=
  V <| free := free V ++ await V ++ retx V |> <| await := [] |> <| retx := [] |>
    <| procs ::= map f |>.
End pool.

(** ** Downlink *)

Abbreviation dl_pool := (pool NR_UE_harq_t).

(** The next transport block of the process is a new one. *)
Definition a_release (i : Z) (V : dl_pool) : dl_pool :=
  a_upd i (λ h, h <| ndi ::= λ n, Z.lxor n 1 |> <| round := 0 |>) V <| free ::= λ q, q ++ [i] |>.

(** A transmission of process [i], just taken from its queue: without feedback it is over at
    once. *)
Definition a_start (i : Z) (pucch : option (Z * Z)) (V : dl_pool) : dl_pool :=
  match pucch with
  | None => a_release i V
  | Some (frame, ul_slot) =>
      a_upd i (λ h, h <| feedback_frame := frame |> <| feedback_slot := ul_slot |>
                      <| is_waiting := true |>) V <| await ::= λ q, q ++ [i] |>
  end.

(** A first transmission is remembered. *)
Definition a_transmit (i : Z) (pucch : option (Z * Z)) (tbs : Z) (act tci : bool) (V : dl_pool)
    : dl_pool :=
  let V := a_start i pucch V in
  if of_proc V i (λ h, round h =? 0) then
    a_upd i (λ h, h <| start_tci_timer := tci |> <| action := act |> <| tb_size := tbs |>) V
  else V.

(** The processes that wait for their retransmission come first. *)
Definition a_schedule_dl (pucch : option (Z * Z)) (tbs : Z) (act tci pending : bool) (V : dl_pool)
    : dl_pool :=
  match retx V, free V with
  | i :: q, _ =>
      let size := from_option tb_size 0 (znth (procs V) i) in
      a_transmit i pucch size act tci (V <| retx := q |>)
  | [], i :: q => a_transmit i pucch tbs (act && pending) tci (V <| free := q |>)
  | [], [] => V
  end.

(** A negative answer: one more round, if there is one left. *)
Definition a_nack (rmax i : Z) (V : dl_pool) : dl_pool :=
  if of_proc V i (λ h, rmax - 1 <=? round h) then a_release i V
  else a_upd i (λ h, h <| round ::= λ r, u8 (r + 1) |>) V <| retx ::= λ q, q ++ [i] |>.

(** ** Uplink *)

Abbreviation ul_pool := (pool NR_UE_ul_harq_t).

Definition a_ul_release (i : Z) (V : ul_pool) : ul_pool :=
  a_upd i (λ h, h <| ul_ndi ::= λ n, Z.lxor n 1 |> <| ul_round := 0 |>) V
    <| free ::= λ q, q ++ [i] |>.

Definition a_ul_transmit (i pusch_slot tbs : Z) (disable_harq : bool) (V : ul_pool) : ul_pool :=
  let V := if disable_harq then a_ul_release i V
    else a_upd i (λ h, h <| ul_feedback_slot := pusch_slot |> <| ul_is_waiting := true |>) V
           <| await ::= λ q, q ++ [i] |> in
  a_upd i (λ h, h <| ul_harq_pid := i |> <| ul_tb_size := tbs |>) V.

Definition a_schedule_ul (pusch_slot tbs : Z) (retx_tbs : option Z) (disable_harq : bool)
    (V : ul_pool) : ul_pool :=
  match retx V, free V with
  | i :: q, _ =>
      let size := from_option ul_tb_size 0 (znth (procs V) i) in
      a_ul_transmit i pusch_slot (default size retx_tbs) disable_harq (V <| retx := q |>)
  | [], i :: q => a_ul_transmit i pusch_slot tbs disable_harq (V <| free := q |>)
  | [], [] => V
  end.

Definition a_ul_nack (rmax i : Z) (V : ul_pool) : ul_pool :=
  if of_proc V i (λ h, rmax - 1 <=? ul_round h) then a_ul_release i V
  else a_upd i (λ h, h <| ul_round ::= λ r, u8 (r + 1) |>) V <| retx ::= λ q, q ++ [i] |>.

(** The CRC of process [id] arrives: those that wait before it were missed, all of them when it
    does not wait. *)
Fixpoint a_crc (rmax id : Z) (crc_ok : bool) (ps : list Z) (V : ul_pool) : ul_pool :=
  match ps with
  | [] => V
  | i :: ps' =>
      let V := V <| await := ps' |> in
      if id =? i then
        let V := a_upd i (λ h, h <| ul_feedback_slot := 65535 |> <| ul_is_waiting := false |>) V in
        if crc_ok then a_ul_release i V else a_ul_nack rmax i V
      else
        a_crc rmax id crc_ok ps'
          (a_ul_nack rmax i (a_upd i (λ h, h <| ul_is_waiting := false |>) V))
  end.

(** ** The UE *)

Record a_ue := mk_a_ue {
  a_dl : dl_pool;
  a_ul : ul_pool;
  a_sc : NR_UE_ServingCell_Info_t;
  a_pending : option NR_UE_ServingCell_Info_t
}.
#[export] Instance eta_a_ue : Settable a_ue :=
  λ u, mk_a_ue (a_dl u) (a_ul u) (a_sc u) (a_pending u).

(** How many processes a configuration gives. *)
Definition dl_count (sc : NR_UE_ServingCell_Info_t) (dci_00_10 : bool) : Z :=
  let n := if nrofHARQ_ProcessesForPDSCH_v1700 sc then 32
           else match nrofHARQ_ProcessesForPDSCH sc with
                | None => 8
                | Some i => default 0 (znth [2; 4; 6; 10; 12; 16] i)
                end in
  if dci_00_10 then Z.min n 16 else n.
Definition ul_count (sc : NR_UE_ServingCell_Info_t) (dci_00_10 : bool) : Z :=
  if nrofHARQ_ProcessesForPUSCH_r17 sc && negb dci_00_10 then 32 else 16.

Definition a_configure (dci_00_10 : bool) (a : a_ue) : a_ue :=
  a <| a_dl ::= a_grow (dl_count (a_sc a) dci_00_10) |>
    <| a_ul ::= a_grow (ul_count (a_sc a) dci_00_10) |>.

(** The answer to a downlink transmission of process [i], just taken from its queue.  A positive
    one may complete a reconfiguration. *)
Definition a_answer (rmax i : Z) (success : bool) (a : a_ue) : a_ue :=
  let a := a <| a_dl ::= a_upd i (λ h, h <| feedback_slot := 65535 |> <| is_waiting := false |>) |> in
  if success then
    let a := match a_pending a with
      | Some sc =>
          if of_proc (a_dl a) i action
          then a_configure true (a <| a_sc := sc |> <| a_pending := None |>) else a
      | None => a
      end in
    a <| a_dl ::= a_release i |>
  else a <| a_dl ::= a_nack rmax i |>.

(** The answers that were due before [frame].[slot] are missed: as if negative. *)
Fixpoint a_expire (rmax frame slot : Z) (ps : list Z) (a : a_ue) : a_ue :=
  match ps with
  | [] => a
  | i :: ps' =>
      if of_proc (a_dl a) i (λ h, feedback_past h frame slot) then
        a_expire rmax frame slot ps'
          (a_answer rmax i false (a <| a_dl ::= λ V, V <| await := ps' |> |>))
      else a
  end.

(** The answers of one UCI, each to the process that waits first, while one is due. *)
Fixpoint a_answers (rmax frame slot : Z) (answers : list bool) (a : a_ue) : a_ue :=
  match answers with
  | [] => a
  | success :: answers' =>
      let a := a_expire rmax frame slot (await (a_dl a)) a in
      match await (a_dl a) with
      | [] => a
      | i :: ps =>
          if of_proc (a_dl a) i (λ h, feedback_future h frame slot) then a
          else
            let V := (a_dl a) <| await := ps |> in
            let V := if success && of_proc V i start_tci_timer
                     then a_upd i (λ h, h <| start_tci_timer := false |>) V else V in
            a_answers rmax frame slot answers' (a_answer rmax i success (a <| a_dl := V |>))
      end
  end.

(** ** Operations *)

(** What the gNB does to the HARQ of a UE: configurations, scheduled transmissions, and what the
    PHY reports.  [Reconfigure] is a configuration being sent to the UE, to be applied when the
    UE acknowledges it. *)
Inductive harq_op :=
| Configure (dci_00_10 : bool)
| Reconfigure (sc : NR_UE_ServingCell_Info_t)
| ScheduleDl (pucch : option (Z * Z)) (tbs : Z) (act tci : bool)
| Uci01 (frame slot numb_slots_frame pduBitmap num_harq : Z) (harq_list : list Z) (confidence : Z)
| Uci234 (frame slot numb_slots_frame pduBitmap harq_bit_len : Z) (harq_payload : bytes) (crc : Z)
| ScheduleUl (pusch_slot tbs : Z) (retx_tbs : option Z) (disable_harq : bool)
| UlCrc (disable_harq : bool) (crc_harq_id : Z) (crc_status : bool)
| ResetDl
| ResetUl.

Section exec.
Context (dl_max ul_max : Z).

Definition harq_exec (u : NR_UE_info_t) (op : harq_op) : res NR_UE_info_t :=
  match op with
  | Configure dci => configure_UE_BWP u dci
  | Reconfigure sc => Ok (u <| reconfigCellGroup := Some sc |>)
  | ScheduleDl pucch tbs act tci => schedule_dl u pucch tbs act tci
  | Uci01 frame slot nsf bitmap num l conf =>
      handle_nr_uci_pucch_0_1 frame slot nsf u bitmap num l conf dl_max
  | Uci234 frame slot nsf bitmap blen payload crc =>
      handle_nr_uci_pucch_2_3_4 frame slot nsf u bitmap blen payload crc dl_max
  | ScheduleUl slot tbs retx_tbs dis => schedule_ul u slot tbs retx_tbs dis ul_max
  | UlCrc dis id status => handle_nr_ul_harq u dis id status ul_max
  | ResetDl => s ← reset_dl_harq_list (UE_sched_ctrl u); Ok (u <| UE_sched_ctrl := s |>)
  | ResetUl => s ← reset_ul_harq_list (UE_sched_ctrl u); Ok (u <| UE_sched_ctrl := s |>)
  end.

(** The answers in a UCI. *)
Definition answers_0_1 (num : Z) (l : list Z) (conf : Z) : list bool :=
  map (λ v, (v =? 0) && (conf =? 0)) (take (Z.to_nat num) l).
Definition answers_2_3_4 (blen : Z) (payload : bytes) (crc : Z) : list bool :=
  map (λ i, negb (crc =? 1) && Z.testbit (default 0 (znth payload (i / 8))) i) (seqZ 0 blen).

Definition a_exec (a : a_ue) (op : harq_op) : a_ue :=
  match op with
  | Configure dci => a_configure dci a
  | Reconfigure sc => a <| a_pending := Some sc |>
  | ScheduleDl pucch tbs act tci =>
      a <| a_dl ::= a_schedule_dl pucch tbs act tci (bool_decide (is_Some (a_pending a))) |>
  | Uci01 frame slot _ bitmap num l conf =>
      if Z.testbit bitmap 1 then a_answers dl_max frame slot (answers_0_1 num l conf) a else a
  | Uci234 frame slot _ bitmap blen payload crc =>
      if Z.testbit bitmap 1
      then a_answers dl_max frame slot (answers_2_3_4 blen payload crc) a else a
  | ScheduleUl slot tbs retx_tbs dis => a <| a_ul ::= a_schedule_ul slot tbs retx_tbs dis |>
  | UlCrc dis id status =>
      if dis then a
      else a <| a_ul ::= λ V, a_crc ul_max id (negb status) (await V) V |>
  | ResetDl => a <| a_dl ::= a_reset (λ h, h <| feedback_slot := 65535 |> <| round := 0 |>
                                               <| is_waiting := false |>) |>
  | ResetUl => a <| a_ul ::= a_reset (λ h, h <| ul_feedback_slot := 65535 |> <| ul_round := 0 |>
                                               <| ul_is_waiting := false |>) |>
  end.
End exec.

(** What the callers keep to: no configuration with fewer processes than the UE has, none while
    one waits for its acknowledgement, and UCI payloads as long as they say (the loop of formats
    2, 3 and 4 shifts by the number of the bit). *)
Definition sc_ok (sc : NR_UE_ServingCell_Info_t) : bool :=
  match nrofHARQ_ProcessesForPDSCH sc with None => true | Some i => (0 <=? i) && (i <? 6) end.

Definition not_fewer (a : a_ue) (sc : NR_UE_ServingCell_Info_t) (dci_00_10 : bool) : bool :=
  (limit (a_dl a) <=? dl_count sc dci_00_10) && (limit (a_ul a) <=? ul_count sc dci_00_10).

Definition permitted (a : a_ue) (op : harq_op) : bool :=
  match op with
  | Configure dci => bool_decide (a_pending a = None) && not_fewer a (a_sc a) dci
  | Reconfigure sc => sc_ok sc && not_fewer a sc true
  | Uci01 _ _ _ _ num l _ => num <=? zlen l
  | Uci234 _ _ _ _ blen payload _ => (blen <=? 8 * zlen payload) && (blen <=? 32)
  | _ => true
  end.

(** ** HARQ processes: the downlink implements the queues *)

Section dl.
Context (dl_max : Z).

Definition dl_sim (s : NR_UE_sched_ctrl_t) (V : dl_pool) (hs : list Z) : Prop :=
  harq_processes s = procs V ∧
  harq_inv is_waiting round (λ _ _, True) dl_max (procs V) (available_dl_harq s)
    (feedback_dl_harq s) (retrans_dl_harq s) (free V) (await V) (retx V) hs (limit V).

(** The functions of one direction leave the other alone. *)
Definition same_ul (s s' : NR_UE_sched_ctrl_t) : Prop :=
  ul_harq_processes s' = ul_harq_processes s ∧ available_ul_harq s' = available_ul_harq s ∧
  feedback_ul_harq s' = feedback_ul_harq s ∧ retrans_ul_harq s' = retrans_ul_harq s.

Lemma same_ul_trans s1 s2 s3 : same_ul s1 s2 → same_ul s2 s3 → same_ul s1 s3.
Proof. unfold same_ul. intuition congruence. Qed.

Lemma dl_get s V hs i : dl_sim s V hs → i ∈ free V ++ await V ++ retx V ++ hs →
  ∃ h, znth (procs V) i = Some h ∧ get_proc (harq_processes s) i = Ok h.
Proof. intros [-> H] Hi. by apply (hi_get _ _ _ _ H). Qed.

Lemma dl_upd s V hs i f :
  dl_sim s V hs → i ∈ hs → (∀ h, znth (procs V) i = Some h → 0 <= round (f h) < dl_max) →
  ∃ h, znth (procs V) i = Some h ∧ znth (procs (a_upd i f V)) i = Some (f h) ∧
    upd_dl s i f = Ok (s <| harq_processes := procs (a_upd i f V) |>) ∧
    dl_sim (s <| harq_processes := procs (a_upd i f V) |>) (a_upd i f V) hs.
Proof.
  intros [E H] Hi Hf. destruct (hand_upd _ _ _ _ _ _ _ _ _ _ _ _ _ _ f H Hi Hf)
    as (h & Hh & _ & Hu & Hh' & H').
  exists h. split_and!; try done. unfold upd_dl. by rewrite E, Hu.
Qed.

(** Reading what the abstract machine reads. *)
Lemma of_proc_eq {A} (V : pool A) i h f : znth (procs V) i = Some h → of_proc V i f = f h.
Proof. intros E. unfold of_proc. by rewrite E. Qed.

Lemma dl_round_pos s V hs i h : dl_sim s V hs → znth (procs V) i = Some h → 0 <= round h < dl_max.
Proof. intros [_ H] Hh. by eapply (hi_round _ _ _ _ _ _ _ _ _ _ _ _ _ H). Qed.

Lemma finish_dl_sim s V i hs h :
  dl_sim s V (i :: hs) → znth (procs V) i = Some h → is_waiting h = false → 0 < dl_max →
  ∃ s', finish_nr_dl_harq s i = Ok s' ∧ dl_sim s' (a_release i V) hs ∧ same_ul s s'.
Proof.
  intros H Hh Hw Hm. unfold finish_nr_dl_harq.
  destruct (dl_upd s V (i :: hs) i (λ h, h <| ndi ::= λ n, Z.lxor n 1 |> <| round := 0 |>))
    as (h' & Hh' & Hz & -> & [_ H']); [done | set_solver | simpl; lia |].
  rewrite Hh in Hh'. injection Hh' as <-. simpl.
  destruct (put_av _ _ _ _ _ _ _ _ _ _ _ _ _ _ H') as (av & Eav & Hav).
  { intros p Hp. rewrite Hz in Hp. by injection Hp as <-. }
  simpl in Eav. rewrite Eav. simpl. eexists. split; [done |]. done.
Qed.

(** The process that a transmission uses is taken from its queue. *)
Inductive taken (i : Z) (V : dl_pool) : dl_pool → Prop :=
| taken_retx q : retx V = i :: q → taken i V (V <| retx := q |>)
| taken_free q : free V = i :: q → taken i V (V <| free := q |>).

Lemma setup_dl_sim s V W i pucch :
  dl_sim s V [] → taken i V W → 0 < dl_max →
  ∃ s', setup_dl_harq_process s i pucch = Ok (i, s') ∧ dl_sim s' (a_start i pucch W) [] ∧ same_ul s s'.
Proof.
  intros H Ht Hm.
  destruct (dl_get s V [] i H) as (h & Hh & Hg); [destruct Ht as [q E | q E]; rewrite E; set_solver |].
  assert (0 <= i) as Hi by (by apply znth_Some in Hh as [? _]).
  assert (∃ s1, (if round h =? 0 then
        av ← remove_nr_list (available_dl_harq s) i; Ok (i, s <| available_dl_harq := av |>)
      else rt ← remove_nr_list (retrans_dl_harq s) i; Ok (i, s <| retrans_dl_harq := rt |>)) = Ok (i, s1) ∧
    dl_sim s1 W [i] ∧ same_ul s s1 ∧ is_waiting h = false ∧ procs W = procs V) as (s1 & E1 & H1 & Hs1 & Hw & HW).
  { destruct H as [Ep H], Ht as [q E | q E]; rewrite E in H.
    - destruct (hi_retx _ _ _ _ _ _ _ _ _ _ _ _ _ H i h) as (Hw & Hr & _); [set_solver | done |].
      decide_false (round h =? 0). destruct (take_rt _ _ _ _ _ _ _ _ _ _ [] _ _ _ _ H) as (rt & -> & H').
      eexists. split; [done |]. done.
    - destruct (hi_free _ _ _ _ _ _ _ _ _ _ _ _ _ H i h) as [Hw Hr]; [set_solver | done |].
      decide_true (round h =? 0). destruct (take_av _ _ _ _ _ _ _ _ [] _ _ _ _ _ _ H) as (av & -> & H').
      eexists. split; [done |]. done. }
  unfold setup_dl_harq_process. decide_false (i <? 0). rewrite Hg. simpl mbind. cbv zeta.
  rewrite E1. simpl.
  destruct (dl_get s1 W [i] i H1) as (h' & Hh' & ->); [set_solver |].
  rewrite HW, Hh in Hh'. injection Hh' as <-. simpl. rewrite Hw. simpl.
  destruct pucch as [[frame ul_slot] |]; simpl.
  - destruct (dl_upd s1 W [i] i (λ h, h <| feedback_frame := frame |> <| feedback_slot := ul_slot |>
                                        <| is_waiting := true |>)) as (h' & Hh' & Hz & Eu & [_ H']);
      [done | set_solver | intros p Hp; exact (dl_round_pos s1 W [i] i p H1 Hp) |].
    destruct (put_fb _ _ _ _ _ _ _ _ _ _ _ _ _ _ H') as (fb & Hfb & Hav).
    { intros p Hp. rewrite Hz in Hp. by injection Hp as <-. }
    simpl in Hfb. rewrite Hfb. simpl. unfold upd_dl in *. simpl.
    destruct (upd_proc (harq_processes s1) i _) as [ps | | |] eqn:Ep; try discriminate.
    simpl in *. injection Eu as Eu. eexists. split; [done |]. split; [| done].
    split; [exact Eu | done].
  - destruct (finish_dl_sim s1 W i [] h) as (s' & -> & H' & Hs'); [done | by rewrite HW | done | done |].
    eexists. split; [done |]. split; [done | by eapply same_ul_trans].
Qed.

Lemma count_round_ok st r : zlen (rounds st) = 8 → 0 <= r < 8 →
  ∃ st', count_round st r = Ok st' ∧ zlen (rounds st') = 8.
Proof.
  intros Hl Hr. destruct (znth_is_Some (rounds st) r) as [v Hv]; [lia |].
  unfold count_round, upd_proc, get_proc. rewrite Hv. simpl. rewrite zset_Ok by lia. simpl.
  eexists. split; [done |]. simpl. by rewrite zlen_insert.
Qed.

(** Outside of the HARQ lists and processes, a UE keeps counters and its configuration. *)
Definition same_config (u u' : NR_UE_info_t) : Prop :=
  sc_info u' = sc_info u ∧ reconfigCellGroup u' = reconfigCellGroup u ∧
  zlen (rounds (dl_stats u')) = zlen (rounds (dl_stats u)) ∧
  zlen (rounds (ul_stats u')) = zlen (rounds (ul_stats u)).

Definition post_size (V : dl_pool) (i tbs : Z) : Prop :=
  ∀ h, znth (procs V) i = Some h → round h ≠ 0 → tb_size h = tbs.

Lemma a_start_size V W i pucch tbs :
  taken i V W → 0 <= i → post_size V i tbs → post_size (a_start i pucch W) i tbs.
Proof.
  intros Ht Hi Hs h Hh Hr. assert (HW : procs W = procs V) by (by destruct Ht).
  assert (E : ∀ f, znth (alter f (Z.to_nat i) (procs V)) i = Some h →
    ∃ h0, znth (procs V) i = Some h0 ∧ h = f h0).
  { intros f. rewrite !znth_lookup, list_lookup_alter_eq by done.
    destruct (procs V !! Z.to_nat i) as [h0 |]; [| done]. intros [= <-]. eauto. }
  unfold a_start in Hh. destruct pucch as [[frame ul_slot] |]; simpl in Hh;
    rewrite HW in Hh; apply E in Hh as (h0 & Hh0 & ->); [| done].
  by apply (Hs h0).
Qed.

Lemma post_dl_sim u V W i pucch tbs act tci :
  dl_sim (UE_sched_ctrl u) V [] → zlen (rounds (dl_stats u)) = 8 → 1 <= dl_max <= 8 →
  taken i V W → post_size V i tbs →
  ∃ u', post_process_dlsch u i pucch tbs act tci false = Ok (i, u') ∧
    dl_sim (UE_sched_ctrl u') (a_transmit i pucch tbs act tci W) [] ∧
    same_ul (UE_sched_ctrl u) (UE_sched_ctrl u') ∧ same_config u u'.
Proof.
  intros H Hl Hm Ht Hs. unfold post_process_dlsch.
  destruct (setup_dl_sim _ V W i pucch H Ht ltac:(lia)) as (s & -> & H1 & Hul). simpl.
  assert (Hin : i ∈ free (a_start i pucch W) ++ await (a_start i pucch W) ++ retx (a_start i pucch W) ++ []).
  { destruct pucch as [[] |]; simpl; set_solver. }
  destruct (dl_get s _ [] i H1 Hin) as (h & Hh & ->). simpl.
  pose proof (dl_round_pos _ _ _ _ _ H1 Hh) as Hr.
  destruct (count_round_ok (dl_stats u) (round h)) as (d & -> & Hd); [done | lia |]. simpl.
  unfold a_transmit. cbv zeta. rewrite (of_proc_eq _ _ h) by done.
  assert (Hi : 0 <= i) by (by apply znth_Some in Hh as [? _]).
  destruct (Z.eqb_spec (round h) 0) as [E | E]; simpl.
  - destruct H1 as [Ep H1]. destruct (keep_upd _ _ _ _ _ _ _ _ _ _ _ _ _ i
      (λ h, h <| start_tci_timer := tci |> <| action := act |> <| tb_size := tbs |>) H1) as [Eu H2];
      [by apply (hi_bound _ _ _ _ H1) | done |].
    unfold upd_dl. rewrite Ep, Eu. simpl. eexists. split; [done |]. split; [done |].
    split; [done |]. split_and!; simpl; congruence.
  - rewrite (a_start_size V W i pucch tbs Ht Hi Hs h Hh E), Z.eqb_refl. simpl.
    eexists. split; [done |]. split; [done |]. split; [done |]. split_and!; simpl; congruence.
Qed.

Lemma schedule_dl_sim u V pucch tbs act tci :
  dl_sim (UE_sched_ctrl u) V [] → zlen (rounds (dl_stats u)) = 8 → 1 <= dl_max <= 8 →
  ∃ u', schedule_dl u pucch tbs act tci = Ok u' ∧
    dl_sim (UE_sched_ctrl u')
      (a_schedule_dl pucch tbs act tci (bool_decide (is_Some (reconfigCellGroup u))) V) [] ∧
    same_ul (UE_sched_ctrl u) (UE_sched_ctrl u') ∧ same_config u u'.
Proof.
  intros H Hl Hm. unfold schedule_dl, a_schedule_dl. pose proof H as [Ep Hi].
  destruct (repr_head _ _ (hi_rt _ _ _ _ _ _ _ _ _ _ _ _ _ Hi)) as [-> _].
  destruct (repr_head _ _ (hi_av _ _ _ _ _ _ _ _ _ _ _ _ _ Hi)) as [-> _].
  destruct (retx V) as [| i q] eqn:Er; simpl.
  - destruct (free V) as [| i q] eqn:Ef; simpl; [by eexists |].
    destruct (dl_get _ V [] i H) as (h & Hh & Hg); [rewrite Ef; set_solver |].
    assert (0 <= i) by (by apply znth_Some in Hh as [? _]). decide_false (i <? 0).
    destruct (post_dl_sim u V (V <| free := q |>) i pucch tbs
      (act && bool_decide (is_Some (reconfigCellGroup u))) tci) as (u' & -> & Hu); try done; [by constructor | |].
    + intros h' Hh' Hr. destruct (hi_free _ _ _ _ _ _ _ _ _ _ _ _ _ Hi i h') as [_ ?]; [set_solver | done.. ].
    + simpl. eauto.
  - destruct (dl_get _ V [] i H) as (h & Hh & Hg); [rewrite Er; set_solver |].
    assert (0 <= i) by (by apply znth_Some in Hh as [? _]). decide_true (0 <=? i).
    rewrite Hg. simpl. rewrite Hh. simpl.
    destruct (post_dl_sim u V (V <| retx := q |>) i pucch (tb_size h) act tci)
      as (u' & -> & Hu); try done; [by constructor | |].
    + intros h' Hh' Hr. by simplify_eq.
    + simpl. eauto.
Qed.
End dl.
