(* ===== verification/MacHarqUlSim.v ===== *)
(** * HARQ processes: the uplink implements the queues

    The uplink counterpart of [MacHarqSim].  A process that waits for its CRC or for its
    retransmission remembers its own number, which the scheduler asserts. *)

From S2P Require Import Prelude NrList MacHarq MacHarqInv MacHarqSim.

Section ul.
Context (ul_max : Z).

Definition ul_own (i : Z) (h : NR_UE_ul_harq_t) : Prop := ul_harq_pid h = i.

Definition ul_sim (s : NR_UE_sched_ctrl_t) (V : ul_pool) (hs : list Z) : Prop :=
  ul_harq_processes s = procs V ∧
  harq_inv ul_is_waiting ul_round ul_own ul_max (procs V) (available_ul_harq s)
    (feedback_ul_harq s) (retrans_ul_harq s) (free V) (await V) (retx V) hs (limit V).

Definition same_dl (s s' : NR_UE_sched_ctrl_t) : Prop :=
  harq_processes s' = harq_processes s ∧ available_dl_harq s' = available_dl_harq s ∧
  feedback_dl_harq s' = feedback_dl_harq s ∧ retrans_dl_harq s' = retrans_dl_harq s.

Lemma same_dl_trans s1 s2 s3 : same_dl s1 s2 → same_dl s2 s3 → same_dl s1 s3.
Proof. unfold same_dl. intuition congruence. Qed.

Lemma ul_get s V hs i : ul_sim s V hs → i ∈ free V ++ await V ++ retx V ++ hs →
  ∃ h, znth (procs V) i = Some h ∧ get_proc (ul_harq_processes s) i = Ok h.
Proof. intros [-> H] Hi. by apply (hi_get _ _ _ _ H). Qed.

Lemma ul_upd s V hs i f :
  ul_sim s V hs → i ∈ hs → (∀ h, znth (procs V) i = Some h → 0 <= ul_round (f h) < ul_max) →
  ∃ h, znth (procs V) i = Some h ∧ znth (procs (a_upd i f V)) i = Some (f h) ∧
    upd_ul s i f = Ok (s <| ul_harq_processes := procs (a_upd i f V) |>) ∧
    ul_sim (s <| ul_harq_processes := procs (a_upd i f V) |>) (a_upd i f V) hs.
Proof.
  intros [E H] Hi Hf. destruct (hand_upd _ _ _ _ _ _ _ _ _ _ _ _ _ _ f H Hi Hf)
    as (h & Hh & _ & Hu & Hh' & H').
  exists h. split_and!; try done. unfold upd_ul. by rewrite E, Hu.
Qed.

Lemma ul_round_pos s V hs i h : ul_sim s V hs → znth (procs V) i = Some h → 0 <= ul_round h < ul_max.
Proof. intros [_ H] Hh. by eapply (hi_round _ _ _ _ _ _ _ _ _ _ _ _ _ H). Qed.

Lemma finish_ul_sim s V i hs h :
  ul_sim s V (i :: hs) → znth (procs V) i = Some h → ul_is_waiting h = false → 0 < ul_max →
  ∃ s', finish_nr_ul_harq s i = Ok s' ∧ ul_sim s' (a_ul_release i V) hs ∧ same_dl s s'.
Proof.
  intros H Hh Hw Hm. unfold finish_nr_ul_harq.
  destruct (ul_upd s V (i :: hs) i (λ h, h <| ul_ndi ::= λ n, Z.lxor n 1 |> <| ul_round := 0 |>))
    as (h' & Hh' & Hz & -> & [_ H']); [done | set_solver | simpl; lia |].
  rewrite Hh in Hh'. injection Hh' as <-. simpl.
  destruct (put_av _ _ _ _ _ _ _ _ _ _ _ _ _ _ H') as (av & Eav & Hav).
  { intros p Hp. rewrite Hz in Hp. by injection Hp as <-. }
  simpl in Eav. rewrite Eav. simpl. eexists. split; [done |]. done.
Qed.

(** ** Scheduling *)

(** How [post_process_ulsch] takes the process from its queue. *)
Definition ul_take (s : NR_UE_sched_ctrl_t) (req_pid : Z) : res (Z * NR_UE_sched_ctrl_t) :=
  if req_pid <? 0 then
    let pid := head (available_ul_harq s) in
    _ ← assert_that (0 <=? pid);
    av ← remove_front_nr_list (available_ul_harq s);
    Ok (pid, s <| available_ul_harq := av |>)
  else
    h ← get_proc (ul_harq_processes s) req_pid;
    if ul_round h =? 0 then
      av ← remove_nr_list (available_ul_harq s) req_pid;
      Ok (req_pid, s <| available_ul_harq := av |>)
    else
      rt ← remove_nr_list (retrans_ul_harq s) req_pid;
      Ok (req_pid, s <| retrans_ul_harq := rt |>).

Lemma ul_take_retx s V i q : ul_sim s V [] → retx V = i :: q →
  ∃ s', ul_take s i = Ok (i, s') ∧ ul_sim s' (V <| retx := q |>) [i] ∧ same_dl s s' ∧
    ∃ h, znth (procs V) i = Some h ∧ ul_is_waiting h = false.
Proof.
  intros H E. destruct (ul_get s V [] i H) as (h & Hh & Hg); [rewrite E; set_solver |].
  destruct H as [Ep H]. rewrite E in H.
  destruct (hi_retx _ _ _ _ _ _ _ _ _ _ _ _ _ H i h) as (Hw & Hr & _); [set_solver | done |].
  assert (0 <= i) by (by apply znth_Some in Hh as [? _]).
  unfold ul_take. decide_false (i <? 0). rewrite Hg. simpl. decide_false (ul_round h =? 0).
  destruct (take_rt _ _ _ _ _ _ _ _ _ _ [] _ _ _ _ H) as (rt & -> & H').
  eexists. split; [done |]. split; [done |]. split; [done |]. eauto.
Qed.

Lemma ul_take_free s V i q : ul_sim s V [] → free V = i :: q →
  ∃ s', ul_take s (-1) = Ok (i, s') ∧ ul_sim s' (V <| free := q |>) [i] ∧ same_dl s s' ∧
    ∃ h, znth (procs V) i = Some h ∧ ul_is_waiting h = false.
Proof.
  intros H E. destruct (ul_get s V [] i H) as (h & Hh & Hg); [rewrite E; set_solver |].
  destruct H as [Ep H]. rewrite E in H.
  destruct (hi_free _ _ _ _ _ _ _ _ _ _ _ _ _ H i h) as [Hw _]; [set_solver | done |].
  destruct (repr_head _ _ (hi_av _ _ _ _ _ _ _ _ _ _ _ _ _ H)) as [Hhd _].
  assert (0 <= i) by (by apply znth_Some in Hh as [? _]).
  unfold ul_take. cbv zeta. rewrite Hhd. simpl. decide_true (0 <=? i). simpl.
  destruct (take_av_front _ _ _ _ _ _ _ _ _ _ _ _ _ _ H) as (av & -> & H').
  eexists. split; [done |]. split; [done |]. split; [done |]. eauto.
Qed.

(** Without HARQ the transmission is over at once. *)
Lemma ul_start_over s W i tbs h :
  ul_sim s W [i] → znth (procs W) i = Some h → ul_is_waiting h = false → 0 < ul_max →
  ∃ s' h', finish_nr_ul_harq s i = Ok s' ∧ get_proc (ul_harq_processes s') i = Ok h' ∧
    ul_round h' = 0 ∧ ∀ b, ∃ s'',
      upd_ul (s' <| sched_ul_bytes := b |>) i (λ h, h <| ul_harq_pid := i |> <| ul_tb_size := tbs |>) = Ok s'' ∧
      ul_sim s'' (a_ul_transmit i 0 tbs true W) [] ∧ same_dl s s''.
Proof.
  intros H Hh Hw Hm. destruct (finish_ul_sim s W i [] h H Hh Hw Hm) as (s' & E & H1 & Hd).
  destruct (ul_get s' _ [] i H1) as (h' & Hh' & Hg); [simpl; set_solver |].
  exists s', h'. split; [done |]. split; [done |]. destruct H1 as [Ep H1]. split.
  { by destruct (hi_free _ _ _ _ _ _ _ _ _ _ _ _ _ H1 i h') as [_ ->]; [simpl; set_solver | done |]. }
  intros b. destruct (keep_upd _ _ _ _ _ _ _ _ _ _ _ _ _ i
    (λ h, h <| ul_harq_pid := i |> <| ul_tb_size := tbs |>) H1) as [Eu H2];
    [apply (hi_bound _ _ _ _ H1); simpl; set_solver | done |].
  unfold upd_ul. simpl. rewrite Ep, Eu. simpl. eexists. split; [done |]. done.
Qed.

(** With HARQ the process waits for the CRC. *)
Lemma ul_start_wait s W i pusch_slot tbs h :
  ul_sim s W [i] → znth (procs W) i = Some h →
  ∃ fb s' h', add_tail_nr_list (feedback_ul_harq s) i = Ok fb ∧
    upd_ul (s <| feedback_ul_harq := fb |>) i
      (λ h, h <| ul_feedback_slot := pusch_slot |> <| ul_is_waiting := true |>) = Ok s' ∧
    get_proc (ul_harq_processes s') i = Ok h' ∧ ul_round h' = ul_round h ∧ ∀ b, ∃ s'',
      upd_ul (s' <| sched_ul_bytes := b |>) i (λ h, h <| ul_harq_pid := i |> <| ul_tb_size := tbs |>) = Ok s'' ∧
      ul_sim s'' (a_ul_transmit i pusch_slot tbs false W) [] ∧ same_dl s s''.
Proof.
  intros [Ep H] Hh. set (f1 := λ h, h <| ul_feedback_slot := pusch_slot |> <| ul_is_waiting := true |>).
  set (f2 := λ h, h <| ul_harq_pid := i |> <| ul_tb_size := tbs |>).
  destruct (hand_upd _ _ _ _ _ _ _ _ _ _ _ _ _ i f1 H) as (h1 & Hh1 & _ & E1 & Hz1 & H1);
    [set_solver | intros p Hp; exact (hi_round _ _ _ _ _ _ _ _ _ _ _ _ _ H i p Hp) |].
  rewrite Hh in Hh1. injection Hh1 as <-.
  destruct (hand_upd _ _ _ _ _ _ _ _ _ _ _ _ _ i f2 H1) as (h2 & Hh2 & Hg2 & E2 & Hz2 & H2);
    [set_solver | intros p Hp; exact (hi_round _ _ _ _ _ _ _ _ _ _ _ _ _ H1 i p Hp) |].
  rewrite Hz1 in Hh2. injection Hh2 as <-.
  destruct (put_fb _ _ _ _ _ _ _ _ _ _ _ _ _ _ H2) as (fb & Efb & H3).
  { intros p Hp. rewrite Hz2 in Hp. by injection Hp as <-. }
  exists fb. unfold upd_ul at 1. simpl. rewrite Ep, E1. simpl.
  eexists _, _. split; [done |]. split; [done |]. split; [simpl; exact Hg2 |]. split; [done |].
  intros b. unfold upd_ul. simpl. rewrite E2. simpl. eexists. split; [done |]. done.
Qed.

Lemma post_ul_sim u V W s1 i req pusch_slot tbs dis h :
  ul_take (UE_sched_ctrl u) req = Ok (i, s1) → ul_sim s1 W [i] → same_dl (UE_sched_ctrl u) s1 →
  procs W = procs V → znth (procs V) i = Some h → ul_is_waiting h = false →
  zlen (rounds (ul_stats u)) = 8 → 1 <= ul_max <= 8 →
  ∃ u', post_process_ulsch u req pusch_slot tbs dis ul_max = Ok (i, u') ∧
    ul_sim (UE_sched_ctrl u') (a_ul_transmit i pusch_slot tbs dis W) [] ∧
    same_dl (UE_sched_ctrl u) (UE_sched_ctrl u') ∧ same_config u u'.
Proof.
  intros Et H Hd HW Hh Hw Hl Hm. unfold post_process_ulsch. cbv zeta.
  change (if req <? 0 then _ else _) with (ul_take (UE_sched_ctrl u) req). rewrite Et. simpl.
  rewrite <- HW in Hh. destruct (ul_get s1 W [i] i H) as (h' & Hh' & ->); [set_solver |].
  rewrite Hh in Hh'. injection Hh' as <-. simpl. rewrite Hw. simpl.
  pose proof (ul_round_pos _ _ _ _ _ H Hh) as Hr.
  assert (Htail : ∀ s' h' V', get_proc (ul_harq_processes s') i = Ok h' → 0 <= ul_round h' < ul_max →
    (∀ b, ∃ s'', upd_ul (s' <| sched_ul_bytes := b |>) i
        (λ h, h <| ul_harq_pid := i |> <| ul_tb_size := tbs |>) = Ok s'' ∧ ul_sim s'' V' [] ∧ same_dl s1 s'') →
    ∃ u', (h ← get_proc (ul_harq_processes s') i; _ ← assert_that (ul_round h <? ul_max);
       d ← count_round (ul_stats u) (ul_round h);
       s ← upd_ul (if ul_round h =? 0 then s' <| sched_ul_bytes ::= Z.add tbs |> else s') i
             (λ h, h <| ul_harq_pid := i |> <| ul_tb_size := tbs |>);
       Ok (i, u <| UE_sched_ctrl := s |> <| ul_stats := d |>)) = Ok (i, u') ∧
     ul_sim (UE_sched_ctrl u') V' [] ∧ same_dl (UE_sched_ctrl u) (UE_sched_ctrl u') ∧ same_config u u').
  { intros s' h' V' -> Hr' Hb. simpl. decide_true (ul_round h' <? ul_max). simpl.
    destruct (count_round_ok (ul_stats u) (ul_round h')) as (d & -> & Hd'); [done | lia |]. simpl.
    destruct (Hb (if ul_round h' =? 0 then tbs + sched_ul_bytes s' else sched_ul_bytes s'))
      as (s'' & Eu & Hs & Hd2).
    assert (Es : (if ul_round h' =? 0 then s' <| sched_ul_bytes ::= Z.add tbs |> else s') =
      s' <| sched_ul_bytes := if ul_round h' =? 0 then tbs + sched_ul_bytes s' else sched_ul_bytes s' |>)
      by (destruct s'; by destruct (ul_round h' =? 0)).
    rewrite Es, Eu. simpl. eexists. split; [done |]. split; [done |].
    split; [by eapply same_dl_trans |]. split_and!; simpl; congruence. }
  destruct dis.
  - destruct (ul_start_over s1 W i tbs h) as (s' & h' & -> & Hg & Hr0 & Hb); [done.. | lia |]. simpl.
    apply (Htail s' h'); [done | lia | done].
  - destruct (ul_start_wait s1 W i pusch_slot tbs h) as (fb & s' & h' & -> & Eu & Hg & Hr0 & Hb); [done.. |].
    simpl. rewrite Eu. simpl. apply (Htail s' h'); [done | lia | done].
Qed.

Lemma schedule_ul_sim u V pusch_slot tbs retx_tbs dis :
  ul_sim (UE_sched_ctrl u) V [] → zlen (rounds (ul_stats u)) = 8 → 1 <= ul_max <= 8 →
  ∃ u', schedule_ul u pusch_slot tbs retx_tbs dis ul_max = Ok u' ∧
    ul_sim (UE_sched_ctrl u') (a_schedule_ul pusch_slot tbs retx_tbs dis V) [] ∧
    same_dl (UE_sched_ctrl u) (UE_sched_ctrl u') ∧ same_config u u'.
Proof.
  intros H Hl Hm. unfold schedule_ul, a_schedule_ul. pose proof H as [Ep Hi].
  destruct (repr_head _ _ (hi_rt _ _ _ _ _ _ _ _ _ _ _ _ _ Hi)) as [-> _].
  destruct (repr_head _ _ (hi_av _ _ _ _ _ _ _ _ _ _ _ _ _ Hi)) as [-> _].
  destruct (retx V) as [| i q] eqn:Er; simpl.
  - destruct (free V) as [| i q] eqn:Ef; simpl; [by eexists |].
    destruct (ul_take_free _ V i q H Ef) as (s1 & Et & H1 & Hd & h & Hh & Hw).
    assert (0 <= i) by (by apply znth_Some in Hh as [? _]). decide_false (i <? 0).
    destruct (post_ul_sim u V (V <| free := q |>) s1 i (-1) pusch_slot tbs dis h) as (u' & -> & Hu); try done.
    simpl. eauto.
  - destruct (ul_take_retx _ V i q H Er) as (s1 & Et & H1 & Hd & h & Hh & Hw).
    destruct (hi_retx _ _ _ _ _ _ _ _ _ _ _ _ _ Hi i h) as (_ & _ & Ho); [try rewrite Er; set_solver | done |].
    assert (0 <= i) by (by apply znth_Some in Hh as [? _]). decide_true (0 <=? i).
    destruct (ul_get _ V [] i H) as (h' & Hh' & ->); [rewrite Er; set_solver |].
    rewrite Hh in Hh'. injection Hh' as <-. simpl. rewrite Ho, Z.eqb_refl, Hh. simpl.
    destruct (post_ul_sim u V (V <| retx := q |>) s1 i i pusch_slot (default (ul_tb_size h) retx_tbs) dis h)
      as (u' & -> & Hu); try done.
    simpl. eauto.
Qed.

(** ** Reception *)

Lemma abort_ul_sim u V i hs h :
  ul_sim (UE_sched_ctrl u) V (i :: hs) → znth (procs V) i = Some h → ul_is_waiting h = false →
  0 < ul_max →
  ∃ u', abort_nr_ul_harq u i = Ok u' ∧ ul_sim (UE_sched_ctrl u') (a_ul_release i V) hs ∧
    same_dl (UE_sched_ctrl u) (UE_sched_ctrl u') ∧ same_config u u'.
Proof.
  intros H Hh Hw Hm. unfold abort_nr_ul_harq.
  destruct (finish_ul_sim _ V i hs h H Hh Hw Hm) as (s & -> & H1 & Hd). simpl.
  destruct (ul_get s _ hs i H1) as (h' & _ & ->); [simpl; set_solver |]. simpl.
  eexists. split; [done |]. done.
Qed.

Lemma ul_failed_sim u V i hs h :
  ul_sim (UE_sched_ctrl u) V (i :: hs) → znth (procs V) i = Some h → ul_is_waiting h = false →
  ul_own i h → 1 <= ul_max <= 8 →
  ∃ u', ul_harq_failed u i ul_max = Ok u' ∧ ul_sim (UE_sched_ctrl u') (a_ul_nack ul_max i V) hs ∧
    same_dl (UE_sched_ctrl u) (UE_sched_ctrl u') ∧ same_config u u'.
Proof.
  intros H Hh Hw Ho Hm. unfold ul_harq_failed, a_ul_nack. cbv zeta.
  destruct (ul_get _ V (i :: hs) i H) as (h' & Hh' & ->); [set_solver |].
  rewrite Hh in Hh'. injection Hh' as <-. simpl. rewrite (of_proc_eq _ _ h) by done.
  pose proof (ul_round_pos _ _ _ _ _ H Hh) as Hr.
  destruct (Z.leb_spec (ul_max - 1) (ul_round h)).
  { apply (abort_ul_sim u V i hs h); [done.. | lia]. }
  destruct (ul_upd _ V (i :: hs) i (λ h, h <| ul_round ::= λ r, u8 (r + 1) |>) H)
    as (h' & Hh' & Hz & -> & [_ H']); [set_solver | |].
  { intros p Hp. rewrite Hh in Hp. injection Hp as <-. simpl. rewrite u8_small; lia. }
  rewrite Hh in Hh'. injection Hh' as <-. simpl.
  destruct (put_rt _ _ _ _ _ _ _ _ _ _ _ _ _ _ H') as (rt & Ert & H2).
  { intros p Hp. rewrite Hz in Hp. injection Hp as <-. simpl. rewrite u8_small by lia.
    split_and!; [done | lia | done]. }
  simpl in Ert. rewrite Ert. simpl. eexists. split; [done |]. done.
Qed.

Lemma ul_failed_with u s V i hs h :
  ul_sim s V (i :: hs) → znth (procs V) i = Some h → ul_is_waiting h = false →
  ul_own i h → 1 <= ul_max <= 8 →
  ∃ u', ul_harq_failed (u <| UE_sched_ctrl := s |>) i ul_max = Ok u' ∧
    ul_sim (UE_sched_ctrl u') (a_ul_nack ul_max i V) hs ∧ same_dl s (UE_sched_ctrl u') ∧ same_config u u'.
Proof. exact (ul_failed_sim (u <| UE_sched_ctrl := s |>) V i hs h). Qed.

(** The first process that waits is taken. *)
Lemma ul_wait_front s V i ps :
  ul_sim s V [] → await V = i :: ps →
  ∃ h fb, head (feedback_ul_harq s) = i ∧ 0 <= i ∧ znth (procs V) i = Some h ∧
    ul_is_waiting h = true ∧ ul_own i h ∧ remove_front_nr_list (feedback_ul_harq s) = Ok fb ∧
    ul_sim (s <| feedback_ul_harq := fb |>) (V <| await := ps |>) [i].
Proof.
  intros H E. destruct (ul_get s V [] i H) as (h & Hh & Hg); [rewrite E; set_solver |].
  destruct H as [Ep H]. rewrite E in H.
  destruct (hi_wait _ _ _ _ _ _ _ _ _ _ _ _ _ H i h) as [Hw Ho]; [set_solver | done |].
  destruct (repr_head _ _ (hi_fb _ _ _ _ _ _ _ _ _ _ _ _ _ H)) as [Hhd _].
  destruct (take_fb_front _ _ _ _ _ _ _ _ _ _ _ _ _ _ H) as (fb & Efb & H').
  exists h, fb. split_and!; try done. by apply znth_Some in Hh as [? _].
Qed.

Lemma ul_wait_none s V : ul_sim s V [] → await V = [] → head (feedback_ul_harq s) = -1.
Proof.
  intros [_ H] E. destruct (repr_head _ _ (hi_fb _ _ _ _ _ _ _ _ _ _ _ _ _ H)) as [-> _]. by rewrite E.
Qed.

Lemma same_config_trans u1 u2 u3 : same_config u1 u2 → same_config u2 u3 → same_config u1 u3.
Proof. unfold same_config. intuition congruence. Qed.

(** What [handle_nr_ul_harq] does once the skipped processes are out of the way. *)
Definition ul_answer (u : NR_UE_info_t) (found : option Z) (crc_status : bool) : res NR_UE_info_t :=
  match found with
  | None => Ok u
  | Some pid =>
      let s := UE_sched_ctrl u in
      fb ← remove_front_nr_list (feedback_ul_harq s);
      let s := s <| feedback_ul_harq := fb |> in
      h ← get_proc (ul_harq_processes s) pid;
      _ ← assert_that (ul_is_waiting h);
      s ← upd_ul s pid (λ h, h <| ul_feedback_slot := 65535 |> <| ul_is_waiting := false |>);
      let u := u <| UE_sched_ctrl := s |> in
      if crc_status then ul_harq_failed u pid ul_max
      else s ← finish_nr_ul_harq s pid; Ok (u <| UE_sched_ctrl := s |>)
  end.

Lemma ul_answer_sim u V i ps crc_status :
  ul_sim (UE_sched_ctrl u) V [] → await V = i :: ps → 1 <= ul_max <= 8 →
  ∃ u', ul_answer u (Some i) crc_status = Ok u' ∧
    ul_sim (UE_sched_ctrl u') (a_crc ul_max i (negb crc_status) (i :: ps) V) [] ∧
    same_dl (UE_sched_ctrl u) (UE_sched_ctrl u') ∧ same_config u u'.
Proof.
  intros H E Hm. destruct (ul_wait_front _ V i ps H E) as (h & fb & _ & _ & Hh & Hw & Ho & Efb & H1).
  unfold ul_answer. cbv zeta. rewrite Efb. cbn [a_crc]. rewrite Z.eqb_refl. cbv zeta. cbn [mbind res_bind].
  destruct (ul_get _ _ [i] i H1) as (h' & Hh' & Hg); [set_solver |]. simpl in Hh'. rewrite Hh in Hh'.
  injection Hh' as <-. rewrite Hg. cbn [mbind res_bind]. rewrite Hw. cbn [mbind res_bind].
  destruct (ul_upd _ _ [i] i (λ h, h <| ul_feedback_slot := 65535 |> <| ul_is_waiting := false |>) H1)
    as (h' & Hh' & Hz & -> & H2);
    [set_solver | intros p Hp; exact (ul_round_pos _ _ _ _ _ H1 Hp) |].
  simpl in Hh'. rewrite Hh in Hh'. injection Hh' as <-. cbn [mbind res_bind]. destruct crc_status; simpl negb.
  - destruct (ul_failed_with u _ _ i [] _ H2 Hz) as (u' & -> & H3 & Hd & Hc); [done.. |]. eexists. split; [done |]. done.
  - destruct (finish_ul_sim _ _ i [] _ H2 Hz) as (s' & -> & H3 & Hd); [done | lia |]. simpl.
    eexists. split; [done |]. done.
Qed.

Lemma ul_skip_sim fuel id crc_status : ∀ u V,
  ul_sim (UE_sched_ctrl u) V [] → 1 <= ul_max <= 8 → (length (await V) < fuel)%nat →
  ∃ found u1 u', ul_harq_skip fuel u id ul_max = Ok (found, u1) ∧
    ul_answer u1 found crc_status = Ok u' ∧
    ul_sim (UE_sched_ctrl u') (a_crc ul_max id (negb crc_status) (await V) V) [] ∧
    same_dl (UE_sched_ctrl u) (UE_sched_ctrl u') ∧ same_config u u'.
Proof.
  induction fuel as [| fuel IH]; intros u V H Hm Hf; [lia |]. cbn [ul_harq_skip]. cbv zeta.
  destruct (await V) as [| i ps] eqn:E.
  { rewrite (ul_wait_none _ _ H E). simpl. rewrite orb_true_r. do 3 eexists. done. }
  destruct (ul_wait_front _ V i ps H E) as (h & fb & -> & Hi & Hh & Hw & Ho & Efb & H1).
  decide_false (i <? 0). rewrite orb_false_r. destruct (Z.eqb_spec id i) as [-> | Hne].
  { simpl. destruct (ul_answer_sim u V i ps crc_status H E Hm) as (u' & Ea & Hu).
    eexists _, _, u'. split; [done |]. done. }
  simpl negb. cbn iota. rewrite Efb. cbn [mbind res_bind].
  destruct (ul_upd _ _ [i] i (λ h, h <| ul_is_waiting := false |>) H1) as (h' & Hh' & Hz & -> & H2);
    [set_solver | intros p Hp; exact (ul_round_pos _ _ _ _ _ H1 Hp) |].
  simpl in Hh'. rewrite Hh in Hh'. injection Hh' as <-. cbn [mbind res_bind].
  destruct (ul_failed_with u _ _ i [] _ H2 Hz) as (u1 & -> & H3 & Hd & Hc); [done.. |]. cbn [mbind res_bind].
  cbn [a_crc]. decide_false (id =? i). cbv zeta.
  assert (Ew : await (a_ul_nack ul_max i (a_upd i (λ h, h <| ul_is_waiting := false |>) (V <| await := ps |>))) = ps).
  { unfold a_ul_nack. by destruct (of_proc _ _ _). }
  destruct (IH u1 _ H3 Hm) as (found & u2 & u' & Es & Ea & H4 & Hd4 & Hc4); [rewrite Ew; simpl in Hf; lia |].
  rewrite Ew in H4. exists found, u2, u'. split; [done |]. split; [done |]. split; [done |].
  split; [by eapply same_dl_trans | by eapply same_config_trans].
Qed.

Lemma handle_ul_sim u V dis id crc_status :
  ul_sim (UE_sched_ctrl u) V [] → 1 <= ul_max <= 8 →
  ∃ u', handle_nr_ul_harq u dis id crc_status ul_max = Ok u' ∧
    ul_sim (UE_sched_ctrl u') (if dis then V else a_crc ul_max id (negb crc_status) (await V) V) [] ∧
    same_dl (UE_sched_ctrl u) (UE_sched_ctrl u') ∧ same_config u u'.
Proof.
  intros H Hm. unfold handle_nr_ul_harq. destruct dis; [by eexists |].
  pose proof (repr_length _ _ (hi_fb _ _ _ _ _ _ _ _ _ _ _ _ _ (proj2 H))).
  destruct (ul_skip_sim (S (length (next (feedback_ul_harq (UE_sched_ctrl u))))) id crc_status u V)
    as (found & u1 & u' & -> & Ea & Hu); [done | done | lia |].
  exists u'. split; [exact Ea | done].
Qed.
End ul.
