(* ===== verification/MacHarqRun.v ===== *)
(** * HARQ processes: the UE implements the queues

    Configuration, and the answers of the UE in a UCI, which may complete a reconfiguration and
    so concern both directions: [ue_sim] relates the state of the UE to the abstract machine.

    Then: HARQ processes: sequences of operations.
    Any sequence of operations on the HARQ of a UE, from its creation on, against the abstract
    machine; what holds of the lists and the processes at any time; and the defects found. *)

From S2P Require Import Prelude NrList MacHarq MacHarqInv MacHarqSim MacHarqUlSim.

(** ** How many processes a configuration gives *)

Lemma dl_count_eq sc dci : sc_ok sc = true →
  ∃ n, get_nrofHARQ_ProcessesForPDSCH sc = Ok n ∧
    (if dci && (16 <? n) then 16 else n) = dl_count sc dci ∧ 0 < dl_count sc dci <= 32.
Proof.
  unfold sc_ok, get_nrofHARQ_ProcessesForPDSCH, dl_count. intros H.
  destruct (nrofHARQ_ProcessesForPDSCH_v1700 sc); [by exists 32; destruct dci |].
  destruct (nrofHARQ_ProcessesForPDSCH sc) as [i |]; [| by exists 8; destruct dci].
  apply andb_true_iff in H as [H1%Z.leb_le H2%Z.ltb_lt].
  assert (i = 0 ∨ i = 1 ∨ i = 2 ∨ i = 3 ∨ i = 4 ∨ i = 5) as [-> | [-> | [-> | [-> | [-> | ->]]]]] by lia;
    eexists; (split; [reflexivity |]); destruct dci; vm_compute; auto using conj; split; intuition discriminate.
Qed.

Lemma ul_count_eq sc dci :
  (if dci && (16 <? get_nrofHARQ_ProcessesForPUSCH sc) then 16 else get_nrofHARQ_ProcessesForPUSCH sc) =
    ul_count sc dci ∧ 0 < ul_count sc dci <= 32.
Proof.
  unfold ul_count, get_nrofHARQ_ProcessesForPUSCH.
  destruct (nrofHARQ_ProcessesForPUSCH_r17 sc), dci; vm_compute; intuition discriminate.
Qed.

Section ue.
Context (dl_max ul_max : Z) (Hdl : 1 <= dl_max <= 8) (Hul : 1 <= ul_max <= 8).

Record ue_sim (u : NR_UE_info_t) (a : a_ue) (hs : list Z) : Prop := {
  us_dl : dl_sim dl_max (UE_sched_ctrl u) (a_dl a) hs;
  us_ul : ul_sim ul_max (UE_sched_ctrl u) (a_ul a) [];
  us_sc : sc_info u = a_sc a;
  us_pending : reconfigCellGroup u = a_pending a;
  us_sc_ok : sc_ok (a_sc a) = true;
  us_next sc : a_pending a = Some sc → sc_ok sc = true ∧ not_fewer a sc true = true;
  us_dl_rounds : zlen (rounds (dl_stats u)) = 8;
  us_ul_rounds : zlen (rounds (ul_stats u)) = 8
}.

(** A function of one direction. *)
Lemma dl_step u u' a hs hs' V :
  ue_sim u a hs → dl_sim dl_max (UE_sched_ctrl u') V hs' → limit V = limit (a_dl a) →
  same_ul (UE_sched_ctrl u) (UE_sched_ctrl u') → same_config u u' →
  ue_sim u' (a <| a_dl := V |>) hs'.
Proof.
  intros [? [Hp Hi] ? ? ? Hn ? ?] HV El (Ep & Ea & Ef & Er) (E1 & E2 & E3 & E4).
  constructor; simpl; try congruence.
  - split; [congruence |]. by rewrite Ea, Ef, Er.
  - intros sc Hsc. destruct (Hn sc Hsc) as [? Hnf]. split; [done |]. unfold not_fewer in *. simpl.
    by rewrite El.
Qed.

Lemma ul_step u u' a V :
  ue_sim u a [] → ul_sim ul_max (UE_sched_ctrl u') V [] → limit V = limit (a_ul a) →
  same_dl (UE_sched_ctrl u) (UE_sched_ctrl u') → same_config u u' →
  ue_sim u' (a <| a_ul := V |>) [].
Proof.
  intros [[Hp Hi] ? ? ? ? Hn ? ?] HV El (Ep & Ea & Ef & Er) (E1 & E2 & E3 & E4).
  constructor; simpl; try congruence.
  - split; [congruence |]. by rewrite Ea, Ef, Er.
  - intros sc Hsc. destruct (Hn sc Hsc) as [? Hnf]. split; [done |]. unfold not_fewer in *. simpl.
    by rewrite El.
Qed.

(** ** Configuration *)

Lemma configure_sim u a hs dci :
  ue_sim u a hs → a_pending a = None → not_fewer a (a_sc a) dci = true →
  ∃ u', configure_UE_BWP u dci = Ok u' ∧ ue_sim u' (a_configure dci a) hs.
Proof.
  intros [[Ed Hd] [Eu Hu] Hsc Hp Hok Hn Hr1 Hr2] Hnone Hnf.
  apply andb_true_iff in Hnf as [Hnd%Z.leb_le Hnu%Z.leb_le].
  destruct (dl_count_eq (a_sc a) dci Hok) as (n & En & Ec & Hb).
  destruct (ul_count_eq (a_sc a) dci) as [Ec' Hb'].
  destruct (grow_lists _ _ _ _ _ _ _ _ _ _ _ _ _ _ Hd (conj Hnd (proj2 Hb))) as (av & fb & rt & E & Hd').
  destruct (grow_lists _ _ _ _ _ _ _ _ _ _ _ _ _ _ Hu (conj Hnu (proj2 Hb'))) as (av' & fb' & rt' & E' & Hu').
  destruct (hi_len _ _ _ _ _ _ _ _ _ _ _ _ _ Hd) as (L1 & L2 & L3).
  unfold configure_UE_BWP, create_dl_harq_list. rewrite Hsc, En. simpl.
  rewrite Ec, L1, L2, L3, Z.eqb_refl, E. simpl. unfold create_ul_harq_list. cbv zeta. rewrite Ec'.
  simpl. rewrite E'. simpl. eexists. split; [done |]. constructor; simpl; try done.
  intros sc Hsc'. congruence.
Qed.

Lemma ack_reconfig_sim u a hs :
  ue_sim u a hs →
  ∃ u', ack_reconfig u = Ok u' ∧
    ue_sim u' (match a_pending a with
               | Some sc => a_configure true (a <| a_sc := sc |> <| a_pending := None |>)
               | None => a
               end) hs.
Proof.
  intros H. unfold ack_reconfig. rewrite (us_pending _ _ _ H).
  destruct (a_pending a) as [sc |] eqn:E; [| by eexists].
  destruct (us_next _ _ _ H sc E) as [Hsc Hnf].
  apply (configure_sim _ (a <| a_sc := sc |> <| a_pending := None |>)); [| done..].
  destruct H. constructor; simpl; done.
Qed.

(** ** Answers *)

Lemma a_nack_limit i V : limit (a_nack dl_max i V) = limit V.
Proof. unfold a_nack. by destruct (of_proc _ _ _). Qed.

Lemma release_sim u a i h :
  ue_sim u a [i] → znth (procs (a_dl a)) i = Some h → is_waiting h = false →
  ∃ s, finish_nr_dl_harq (UE_sched_ctrl u) i = Ok s ∧
    ue_sim (u <| UE_sched_ctrl := s |>) (a <| a_dl ::= a_release i |>) [].
Proof.
  intros H Hh Hw.
  destruct (finish_dl_sim dl_max _ _ i [] h (us_dl _ _ _ H) Hh Hw) as (s & -> & H1 & Hs); [lia |].
  eexists. split; [done |]. by eapply (dl_step u _ a [i]).
Qed.

Lemma nack_sim u a i h :
  ue_sim u a [i] → znth (procs (a_dl a)) i = Some h → is_waiting h = false →
  ∃ u', (if dl_max - 1 <=? round h then abort_nr_dl_harq u i
         else
           rt ← add_tail_nr_list (retrans_dl_harq (UE_sched_ctrl u)) i;
           s ← upd_dl ((UE_sched_ctrl u) <| retrans_dl_harq := rt |>) i
                 (λ h, h <| round ::= λ r, u8 (r + 1) |>);
           Ok (u <| UE_sched_ctrl := s |>)) = Ok u' ∧
    ue_sim u' (a <| a_dl ::= a_nack dl_max i |>) [].
Proof.
  intros H Hh Hw. pose proof (us_dl _ _ _ H) as [Ep Hd].
  pose proof (dl_round_pos dl_max _ _ _ _ _ (us_dl _ _ _ H) Hh) as Hr.
  assert (Hna : a_nack dl_max i (a_dl a) = if dl_max - 1 <=? round h then a_release i (a_dl a)
    else a_upd i (λ h, h <| round ::= λ r, u8 (r + 1) |>) (a_dl a) <| retx ::= λ q, q ++ [i] |>).
  { unfold a_nack. by rewrite (of_proc_eq _ _ h) by done. }
  change (a <| a_dl ::= a_nack dl_max i |>) with (a <| a_dl := a_nack dl_max i (a_dl a) |>).
  rewrite Hna. destruct (Z.leb_spec (dl_max - 1) (round h)).
  - unfold abort_nr_dl_harq. destruct (release_sim u a i h H Hh Hw) as (s & -> & [? ? ? ? ? ? ? ?]).
    simpl. eexists. split; [done |]. by constructor.
  - destruct (hand_upd _ _ _ _ _ _ _ _ _ _ _ _ _ i (λ h, h <| round ::= λ r, u8 (r + 1) |>) Hd)
      as (h' & Hh' & _ & Eu & Hz & H1); [set_solver | |].
    { intros p Hp. rewrite Hh in Hp. injection Hp as <-. simpl. rewrite u8_small; lia. }
    rewrite Hh in Hh'. injection Hh' as <-.
    destruct (put_rt _ _ _ _ _ _ _ _ _ _ _ _ _ _ H1) as (rt & -> & H2).
    { intros p Hp. rewrite Hz in Hp. injection Hp as <-. simpl. rewrite u8_small by lia.
      split_and!; [done | lia | done]. }
    simpl. unfold upd_dl. simpl. rewrite Ep, Eu. simpl. eexists. split; [done |].
    by eapply (dl_step u _ a [i]).
Qed.

(** The part of [handle_dl_harq] after the process is marked as answered. *)
Definition dl_answer (u : NR_UE_info_t) (i : Z) (success : bool) : res NR_UE_info_t :=
  let s := UE_sched_ctrl u in
  h ← get_proc (harq_processes s) i;
  if success then
    u ← (if action h then ack_reconfig u else Ok u);
    s ← finish_nr_dl_harq (UE_sched_ctrl u) i;
    Ok (u <| UE_sched_ctrl := s |>)
  else if dl_max - 1 <=? round h then abort_nr_dl_harq u i
  else
    rt ← add_tail_nr_list (retrans_dl_harq s) i;
    s ← upd_dl (s <| retrans_dl_harq := rt |>) i (λ h, h <| round ::= λ r, u8 (r + 1) |>);
    Ok (u <| UE_sched_ctrl := s |>).

Lemma dl_answer_sim u a i success h :
  ue_sim u a [i] → znth (procs (a_dl a)) i = Some h → is_waiting h = false →
  ∃ u', dl_answer u i success = Ok u' ∧
    ue_sim u' (if success then
        (match a_pending a with
         | Some sc => if of_proc (a_dl a) i action
                      then a_configure true (a <| a_sc := sc |> <| a_pending := None |>) else a
         | None => a
         end) <| a_dl ::= a_release i |>
      else a <| a_dl ::= a_nack dl_max i |>) [].
Proof.
  intros H Hh Hw. unfold dl_answer. cbv zeta.
  destruct (dl_get dl_max _ _ [i] i (us_dl _ _ _ H)) as (h' & Hh' & ->); [set_solver |].
  rewrite Hh in Hh'. injection Hh' as <-. cbn [mbind res_bind]. destruct success.
  - rewrite (of_proc_eq _ _ h) by done. destruct (action h).
    + destruct (ack_reconfig_sim u a [i] H) as (u1 & -> & H1). cbn [mbind res_bind].
      destruct (release_sim u1 _ i h H1) as (s & -> & H2); [by destruct (a_pending a) | done |].
      eexists. split; [done |]. by destruct (a_pending a).
    + cbn [mbind res_bind]. destruct (release_sim u a i h H Hh Hw) as (s & -> & H2).
      eexists. split; [done |]. by destruct (a_pending a).
  - by apply (nack_sim u a i h).
Qed.

Lemma handle_dl_sim u a i success :
  ue_sim u a [i] →
  ∃ u', handle_dl_harq u i success dl_max = Ok u' ∧ ue_sim u' (a_answer dl_max i success a) [].
Proof.
  intros H. unfold handle_dl_harq. cbv zeta.
  destruct (dl_upd dl_max _ _ [i] i (λ h, h <| feedback_slot := 65535 |> <| is_waiting := false |>)
    (us_dl _ _ _ H)) as (h & Hh & Hz & -> & H1);
    [set_solver | intros p Hp; exact (dl_round_pos dl_max _ _ _ _ _ (us_dl _ _ _ H) Hp) |].
  cbn [mbind res_bind].
  set (s1 := (UE_sched_ctrl u) <| harq_processes := _ |>) in *.
  assert (Hu1 : ue_sim (u <| UE_sched_ctrl := s1 |>)
    (a <| a_dl := a_upd i (λ h, h <| feedback_slot := 65535 |> <| is_waiting := false |>) (a_dl a) |>) [i])
    by (by eapply (dl_step u _ a [i])).
  exact (dl_answer_sim _ _ i success _ Hu1 Hz eq_refl).
Qed.

(** The first process that waits is taken. *)
Lemma dl_wait_front u a i ps :
  ue_sim u a [] → await (a_dl a) = i :: ps →
  ∃ h fb, head (feedback_dl_harq (UE_sched_ctrl u)) = i ∧ 0 <= i ∧ znth (procs (a_dl a)) i = Some h ∧
    get_proc (harq_processes (UE_sched_ctrl u)) i = Ok h ∧ is_waiting h = true ∧
    remove_front_nr_list (feedback_dl_harq (UE_sched_ctrl u)) = Ok fb ∧
    ue_sim (u <| UE_sched_ctrl ::= λ s, s <| feedback_dl_harq := fb |> |>)
      (a <| a_dl ::= λ V, V <| await := ps |> |>) [i].
Proof.
  intros Hu E. pose proof (us_dl _ _ _ Hu) as H.
  destruct (dl_get dl_max _ _ [] i H) as (h & Hh & Hg); [rewrite E; set_solver |].
  destruct H as [Ep H]. rewrite E in H.
  destruct (hi_wait _ _ _ _ _ _ _ _ _ _ _ _ _ H i h) as [Hw _]; [set_solver | done |].
  destruct (repr_head _ _ (hi_fb _ _ _ _ _ _ _ _ _ _ _ _ _ H)) as [Hhd _].
  destruct (take_fb_front _ _ _ _ _ _ _ _ _ _ _ _ _ _ H) as (fb & Efb & H').
  exists h, fb. split_and!; try done; [by apply znth_Some in Hh as [? _] |].
  by eapply (dl_step u _ a []).
Qed.

Lemma dl_wait_none u a : ue_sim u a [] → await (a_dl a) = [] → head (feedback_dl_harq (UE_sched_ctrl u)) = -1.
Proof.
  intros H E. destruct (us_dl _ _ _ H) as [_ Hi].
  destruct (repr_head _ _ (hi_fb _ _ _ _ _ _ _ _ _ _ _ _ _ Hi)) as [-> _]. by rewrite E.
Qed.

Lemma a_answer_await i success a : await (a_dl (a_answer dl_max i success a)) = await (a_dl a).
Proof.
  unfold a_answer. cbv zeta. destruct success; simpl.
  - destruct (a_pending a); [| done]. by destruct (of_proc _ _ _).
  - unfold a_nack. by destruct (of_proc _ _ _).
Qed.

Lemma find_harq_sim frame slot fuel : ∀ u a,
  ue_sim u a [] → (length (await (a_dl a)) < fuel)%nat →
  ∃ found u', find_harq_loop fuel frame slot u dl_max = Ok (found, u') ∧
    let a' := a_expire dl_max frame slot (await (a_dl a)) a in
    ue_sim u' a' [] ∧
    found = match await (a_dl a') with
            | [] => None
            | i :: _ => if of_proc (a_dl a') i (λ h, feedback_future h frame slot) then None else Some i
            end.
Proof.
  induction fuel as [| fuel IH]; intros u a H Hf; [lia |]. cbn [find_harq_loop]. cbv zeta.
  destruct (await (a_dl a)) as [| i ps] eqn:E.
  { rewrite (dl_wait_none _ _ H E). simpl. do 2 eexists. split; [done |]. by rewrite E. }
  destruct (dl_wait_front u a i ps H E) as (h & fb & -> & Hi & Hh & Hg & Hw & Efb & H1).
  decide_false (i <? 0). rewrite Hg. cbn [mbind res_bind a_expire].
  rewrite (of_proc_eq _ _ h) by done. destruct (feedback_past h frame slot).
  - rewrite Efb. cbn [mbind res_bind].
    destruct (handle_dl_sim _ _ i false H1) as (u1 & Eh & H2).
    change (u <| UE_sched_ctrl := (UE_sched_ctrl u) <| feedback_dl_harq := fb |> |>)
      with (u <| UE_sched_ctrl ::= λ s, s <| feedback_dl_harq := fb |> |>). rewrite Eh. cbn [mbind res_bind].
    assert (Ew : await (a_dl (a_answer dl_max i false (a <| a_dl ::= λ V, V <| await := ps |> |>))) = ps)
      by (by rewrite a_answer_await).
    destruct (IH u1 _ H2) as (found & u' & Ef & H3); [rewrite Ew; simpl in Hf; lia |].
    rewrite Ew in H3. eauto.
  - rewrite E, (of_proc_eq _ _ h) by done. destruct (feedback_future h frame slot); eauto.
Qed.

(** The beam switch timer. *)
Lemma start_tci_sim u a i h b t :
  ue_sim u a [i] → znth (procs (a_dl a)) i = Some h →
  ∃ s, (if b && start_tci_timer h
        then upd_dl ((UE_sched_ctrl u) <| tci_beam_switch ::= t |>) i (λ h, h <| start_tci_timer := false |>)
        else Ok (UE_sched_ctrl u)) = Ok s ∧
    ue_sim (u <| UE_sched_ctrl := s |>)
      (a <| a_dl := if b && of_proc (a_dl a) i start_tci_timer
                    then a_upd i (λ h, h <| start_tci_timer := false |>) (a_dl a) else a_dl a |>) [i].
Proof.
  intros H Hh. rewrite (of_proc_eq _ _ h) by done. destruct (b && start_tci_timer h).
  - destruct (us_dl _ _ _ H) as [Ep Hd].
    destruct (hand_upd _ _ _ _ _ _ _ _ _ _ _ _ _ i (λ h, h <| start_tci_timer := false |>) Hd)
      as (_ & _ & _ & Eu & _ & H1);
      [set_solver | intros p Hp; exact (dl_round_pos dl_max _ _ _ _ _ (us_dl _ _ _ H) Hp) |].
    unfold upd_dl. simpl. rewrite Ep, Eu. simpl. eexists. split; [done |].
    by eapply (dl_step u _ a [i]).
  - eexists. split; [done |]. destruct H. by constructor.
Qed.

Lemma handle_bits_sim frame slot nsf answers : ∀ u a bs,
  ue_sim u a [] → answers = map Ok bs →
  ∃ u', handle_harq_bits frame slot nsf u answers dl_max = Ok u' ∧
    ue_sim u' (a_answers dl_max frame slot bs a) [].
Proof.
  induction answers as [| ans answers IH]; intros u a bs H Eb; destruct bs as [| b bs]; try discriminate.
  { eexists. done. }
  injection Eb as -> Eb. cbn [handle_harq_bits a_answers mbind res_bind]. cbv zeta.
  unfold handle_harq_bit, find_harq.
  pose proof (repr_length _ _ (hi_fb _ _ _ _ _ _ _ _ _ _ _ _ _ (proj2 (us_dl _ _ _ H)))).
  destruct (find_harq_sim frame slot (S (length (next (feedback_dl_harq (UE_sched_ctrl u))))) u a H)
    as (found & u1 & -> & H1 & Efound); [lia |]. cbn [mbind res_bind].
  set (a1 := a_expire dl_max frame slot (await (a_dl a)) a) in *. clearbody a1.
  destruct (await (a_dl a1)) as [| i ps] eqn:E; subst found; [by eexists |].
  destruct (of_proc (a_dl a1) i (λ h, feedback_future h frame slot)); [by eexists |].
  destruct (dl_wait_front u1 a1 i ps H1 E) as (h & fb & -> & Hi & Hh & Hg & Hw & Efb & H2).
  cbv zeta. rewrite Hg. cbn [mbind res_bind]. rewrite Hw. cbn [assert_that mbind res_bind].
  rewrite Efb. cbn [mbind res_bind].
  destruct (start_tci_sim _ _ i h b (λ t, nr_timer_start (nr_timer_setup t (3 * nsf / 10) 1)) H2 Hh)
    as (s & Es & H3). simpl UE_sched_ctrl in Es. rewrite Es. cbn [mbind res_bind].
  destruct (handle_dl_sim _ _ i b H3) as (u2 & Eh & H4).
  change (u1 <| UE_sched_ctrl := s |>) with
    (u1 <| UE_sched_ctrl ::= λ s, s <| feedback_dl_harq := fb |> |> <| UE_sched_ctrl := s |>).
  rewrite Eh. cbn [mbind res_bind]. by apply IH.
Qed.
End ue.

(** ** HARQ processes: sequences of operations *)

(** ** A new UE *)

(** The context of a UE is allocated with zeroes. *)
Definition new_ue (sc : NR_UE_ServingCell_Info_t) : NR_UE_info_t :=
  let none := mk_nr_list 0 [] 0 0 in
  mk_ue
    (mk_sched_ctrl (replicate 32 (mk_harq false 0 0 0 0 false false 0)) none none none
       (replicate 32 (mk_ul_harq false 0 0 0 0 0)) none none none 0 (mk_timer false false 0 0 0))
    (mk_dir_stats (replicate 8 0) 0) (mk_dir_stats (replicate 8 0) 0) sc None.

(** Its configuration, then the operations. *)
Fixpoint harq_run (dl_max ul_max : Z) (u : NR_UE_info_t) (ops : list harq_op) : res NR_UE_info_t :=
  match ops with
  | [] => Ok u
  | op :: ops' => u ← harq_exec dl_max ul_max u op; harq_run dl_max ul_max u ops'
  end.

Definition harq_start (dl_max ul_max : Z) (sc : NR_UE_ServingCell_Info_t) (dci_00_10 : bool)
    (ops : list harq_op) : res NR_UE_info_t :=
  u ← configure_UE_BWP (new_ue sc) dci_00_10; harq_run dl_max ul_max u ops.

(** The same on the queues. *)
Definition a_new (sc : NR_UE_ServingCell_Info_t) (dci_00_10 : bool) : a_ue :=
  let n := dl_count sc dci_00_10 in
  let m := ul_count sc dci_00_10 in
  mk_a_ue (mk_pool (seqZ 0 n) [] [] (replicate 32 (mk_harq false 0 0 0 0 false false 0)) n)
    (mk_pool (seqZ 0 m) [] [] (replicate 32 (mk_ul_harq false 0 0 0 0 0)) m) sc None.

Definition a_run (dl_max ul_max : Z) (a : a_ue) (ops : list harq_op) : a_ue :=
  foldl (a_exec dl_max ul_max) a ops.

Fixpoint all_permitted (dl_max ul_max : Z) (a : a_ue) (ops : list harq_op) : bool :=
  match ops with
  | [] => true
  | op :: ops' => permitted a op && all_permitted dl_max ul_max (a_exec dl_max ul_max a op) ops'
  end.

(** ** The answers in a UCI *)

Lemma answers_0_1_ok num l conf : num <= zlen l →
  map (uci_0_1_answer l conf) (seqZ 0 num) = map Ok (answers_0_1 num l conf).
Proof.
  intros Hn. unfold answers_0_1. apply list_eq. intros k.
  rewrite !list_lookup_fmap. destruct (decide (Z.of_nat k < num)) as [Hk | Hk].
  - rewrite lookup_seqZ_lt, lookup_take_lt by lia. simpl.
    destruct (lookup_lt_is_Some_2 l k) as [v Hv]; [unfold zlen in Hn; lia |]. rewrite Hv. simpl.
    unfold uci_0_1_answer. rewrite znth_lookup by lia.
    match goal with |- context [l !! ?x] => replace x with k by lia end. by rewrite Hv.
  - rewrite lookup_seqZ_ge, lookup_take_ge by lia. done.
Qed.

Lemma testbit_shiftr b i : 0 <= i → negb (Z.land (Z.shiftr b i) 1 =? 0) = Z.testbit b i.
Proof.
  intros Hi. change 1 with (Z.ones 1). rewrite Z.land_ones by lia. change (2 ^ 1) with 2.
  rewrite Zmod_odd, <- Z.bit0_odd, Z.shiftr_spec, Z.add_0_l by lia. by destruct (Z.testbit b i).
Qed.

Lemma answers_2_3_4_ok blen payload crc : blen <= 8 * zlen payload → blen <= 32 →
  map (uci_2_3_4_answer payload crc) (seqZ 0 blen) = map Ok (answers_2_3_4 blen payload crc).
Proof.
  intros Hl H32. unfold answers_2_3_4. rewrite map_map. apply map_ext_in. intros i Hi.
  apply list_elem_of_In, elem_of_seqZ in Hi. unfold uci_2_3_4_answer.
  rewrite Z.shiftr_div_pow2 by lia. change (2 ^ 3) with 8.
  destruct (znth_is_Some payload (i / 8)) as [b ->]; [zdiv_lia |]. simpl.
  decide_true (i <? 32). by rewrite testbit_shiftr by lia.
Qed.

(** ** One operation *)

Lemma a_schedule_dl_limit pucch tbs act tci pend V : limit (a_schedule_dl pucch tbs act tci pend V) = limit V.
Proof.
  unfold a_schedule_dl, a_transmit, a_start. cbv zeta.
  destruct (retx V) as [|], (free V) as [|], pucch as [[] |]; try done; by destruct (of_proc _ _ _).
Qed.

Lemma a_schedule_ul_limit slot tbs retx_tbs dis V : limit (a_schedule_ul slot tbs retx_tbs dis V) = limit V.
Proof.
  unfold a_schedule_ul, a_ul_transmit. cbv zeta. by destruct (retx V) as [|], (free V) as [|], dis.
Qed.

Lemma a_ul_nack_limit rmax i V : limit (a_ul_nack rmax i V) = limit V.
Proof. unfold a_ul_nack. by destruct (of_proc _ _ _). Qed.

Lemma a_crc_limit rmax id ok ps : ∀ V, limit (a_crc rmax id ok ps V) = limit V.
Proof.
  induction ps as [| i ps IH]; intros V; cbn [a_crc]; [done |]. cbv zeta.
  destruct (id =? i); [destruct ok; [done |] | rewrite IH]; by rewrite a_ul_nack_limit.
Qed.

Section run.
Context (dl_max ul_max : Z) (Hdl : 1 <= dl_max <= 8) (Hul : 1 <= ul_max <= 8).

Lemma reset_dl_sim u a : ue_sim dl_max ul_max u a [] →
  ∃ u', harq_exec dl_max ul_max u ResetDl = Ok u' ∧
    ue_sim dl_max ul_max u' (a_exec dl_max ul_max a ResetDl) [].
Proof.
  intros H. destruct (us_dl _ _ _ _ _ H) as [Ep Hi]. cbn [harq_exec a_exec]. unfold reset_dl_harq_list.
  destruct (reset_lists _ _ _ _ _ _ _ _ _ _ _ _
    (λ h, h <| feedback_slot := 65535 |> <| round := 0 |> <| is_waiting := false |>) Hi)
    as (fb & av1 & rt & av & -> & E2 & H1); [lia | done |]. simpl. rewrite E2. simpl.
  eexists. split; [done |]. eapply (dl_step dl_max ul_max u _ a []); try done.
  split; [simpl; by rewrite Ep | done].
Qed.

Lemma reset_ul_sim u a : ue_sim dl_max ul_max u a [] →
  ∃ u', harq_exec dl_max ul_max u ResetUl = Ok u' ∧
    ue_sim dl_max ul_max u' (a_exec dl_max ul_max a ResetUl) [].
Proof.
  intros H. destruct (us_ul _ _ _ _ _ H) as [Ep Hi]. cbn [harq_exec a_exec]. unfold reset_ul_harq_list.
  destruct (reset_lists _ _ _ _ _ _ _ _ _ _ _ _
    (λ h, h <| ul_feedback_slot := 65535 |> <| ul_round := 0 |> <| ul_is_waiting := false |>) Hi)
    as (fb & av1 & rt & av & -> & E2 & H1); [lia | done |]. simpl. rewrite E2. simpl.
  eexists. split; [done |]. eapply (ul_step dl_max ul_max u _ a); try done.
  split; [simpl; by rewrite Ep | done].
Qed.

Lemma harq_exec_sim u a op :
  ue_sim dl_max ul_max u a [] → permitted a op = true →
  ∃ u', harq_exec dl_max ul_max u op = Ok u' ∧
    ue_sim dl_max ul_max u' (a_exec dl_max ul_max a op) [].
Proof.
  intros H Hp. destruct op as [dci | sc | pucch tbs act tci | frame slot nsf bitmap num l conf
    | frame slot nsf bitmap blen payload crc | slot tbs retx_tbs dis | dis id status | |].
  - apply andb_true_iff in Hp as [Hp%bool_decide_eq_true Hn]. by apply configure_sim.
  - apply andb_true_iff in Hp as [Hsc Hn]. eexists. split; [done |]. destruct H.
    constructor; simpl; try done. intros sc' [= <-]. done.
  - destruct (schedule_dl_sim dl_max u (a_dl a) pucch tbs act tci) as (u' & E & H1 & Hs & Hc);
      [apply H.. | done |]. exists u'. split; [done |]. rewrite (us_pending _ _ _ _ _ H) in H1.
    eapply (dl_step dl_max ul_max u _ a []); try done. apply a_schedule_dl_limit.
  - cbn [harq_exec a_exec]. unfold handle_nr_uci_pucch_0_1. destruct (Z.testbit bitmap 1); [| eauto].
    apply (handle_bits_sim dl_max ul_max Hdl Hul); [done |]. apply answers_0_1_ok. by apply Z.leb_le.
  - apply andb_true_iff in Hp as [Hb%Z.leb_le Hb2%Z.leb_le].
    cbn [harq_exec a_exec]. unfold handle_nr_uci_pucch_2_3_4. destruct (Z.testbit bitmap 1); [| eauto].
    apply (handle_bits_sim dl_max ul_max Hdl Hul); [done |]. by apply answers_2_3_4_ok.
  - destruct (schedule_ul_sim ul_max u (a_ul a) slot tbs retx_tbs dis) as (u' & E & H1 & Hs & Hc);
      [apply H.. | done |]. exists u'. split; [done |].
    eapply (ul_step dl_max ul_max u _ a); try done. apply a_schedule_ul_limit.
  - destruct (handle_ul_sim ul_max u (a_ul a) dis id status) as (u' & E & H1 & Hs & Hc);
      [apply H | done |]. exists u'. split; [done |]. cbn [a_exec]. destruct dis.
    + replace a with (a <| a_ul := a_ul a |>) by (by destruct a). by eapply (ul_step dl_max ul_max u _ a).
    + eapply (ul_step dl_max ul_max u _ a); try done. apply a_crc_limit.
  - by apply reset_dl_sim.
  - by apply reset_ul_sim.
Qed.

Lemma harq_run_sim ops : ∀ u a,
  ue_sim dl_max ul_max u a [] → all_permitted dl_max ul_max a ops = true →
  ∃ u', harq_run dl_max ul_max u ops = Ok u' ∧
    ue_sim dl_max ul_max u' (a_run dl_max ul_max a ops) [].
Proof.
  induction ops as [| op ops IH]; intros u a H Hp; simpl in *; [eauto |].
  apply andb_true_iff in Hp as [Hp Hps].
  destruct (harq_exec_sim u a op H Hp) as (u1 & -> & H1). by apply IH.
Qed.

Lemma zeroed {A} (x : A) i p : znth (replicate 32 x) i = Some p → p = x.
Proof. unfold znth. case_match; [done |]. by intros [-> _]%lookup_replicate. Qed.

Lemma new_ue_sim sc dci : sc_ok sc = true →
  ∃ u, configure_UE_BWP (new_ue sc) dci = Ok u ∧ ue_sim dl_max ul_max u (a_new sc dci) [].
Proof.
  intros Hok. destruct (dl_count_eq sc dci Hok) as (n & En & Ec & Hb).
  destruct (ul_count_eq sc dci) as [Ec' Hb'].
  unfold configure_UE_BWP, create_dl_harq_list. simpl. rewrite En. simpl. rewrite Ec.
  destruct (create_lists is_waiting round (λ _ _, True) dl_max
    (replicate 32 (mk_harq false 0 0 0 0 false false 0)) (mk_nr_list 0 [] 0 0) (mk_nr_list 0 [] 0 0)
    (mk_nr_list 0 [] 0 0) (dl_count sc dci)) as (av & fb & rt & -> & H1); [done | done | done | lia | |].
  { intros i p ->%zeroed. done. }
  simpl. unfold create_ul_harq_list. cbv zeta. rewrite Ec'. simpl.
  destruct (create_lists ul_is_waiting ul_round ul_own ul_max
    (replicate 32 (mk_ul_harq false 0 0 0 0 0)) (mk_nr_list 0 [] 0 0) (mk_nr_list 0 [] 0 0)
    (mk_nr_list 0 [] 0 0) (ul_count sc dci)) as (av' & fb' & rt' & -> & H2); [done | done | done | lia | |].
  { intros i p ->%zeroed. done. }
  simpl. eexists. split; [done |]. by constructor.
Qed.
End run.
