(* ===== verification/MacHarqProps.v ===== *)
(** * HARQ processes: theorems *)

From S2P Require Import Prelude NrList MacHarq MacHarqInv MacHarqSim MacHarqUlSim MacHarqRun.

(** ** Statements *)

(** The state of a UE holds the queues of [a]. *)
Record ue_represents (u : NR_UE_info_t) (a : a_ue) : Prop := {
  rep_dl_free : nr_list_repr (available_dl_harq (UE_sched_ctrl u)) (free (a_dl a));
  rep_dl_await : nr_list_repr (feedback_dl_harq (UE_sched_ctrl u)) (await (a_dl a));
  rep_dl_retx : nr_list_repr (retrans_dl_harq (UE_sched_ctrl u)) (retx (a_dl a));
  rep_dl_procs : harq_processes (UE_sched_ctrl u) = procs (a_dl a);
  rep_ul_free : nr_list_repr (available_ul_harq (UE_sched_ctrl u)) (free (a_ul a));
  rep_ul_await : nr_list_repr (feedback_ul_harq (UE_sched_ctrl u)) (await (a_ul a));
  rep_ul_retx : nr_list_repr (retrans_ul_harq (UE_sched_ctrl u)) (retx (a_ul a));
  rep_ul_procs : ul_harq_processes (UE_sched_ctrl u) = procs (a_ul a);
  rep_sc : sc_info u = a_sc a;
  rep_pending : reconfigCellGroup u = a_pending a
}.

(** The [n] processes of one direction are each in one of the three lists, in a state that fits:
    [xs] the free ones, [ys] those that wait for an answer, [zs] those to be retransmitted. *)
Definition conserved {A} (wt : A → bool) (rnd : A → Z) (rmax : Z) (ps : list A)
    (av fb rt : NR_list_t) : Prop :=
  ∃ xs ys zs, nr_list_repr av xs ∧ nr_list_repr fb ys ∧ nr_list_repr rt zs ∧
    xs ++ ys ++ zs ≡ₚ seqZ 0 (len av) ∧
    ∀ i p, znth ps i = Some p → 0 <= rnd p < rmax ∧
      (i ∈ xs → wt p = false ∧ rnd p = 0) ∧ (i ∈ ys → wt p = true) ∧
      (i ∈ zs → wt p = false ∧ 0 < rnd p).

Lemma inv_conserved {A} wt rnd own rmax (ps : list A) av fb rt xs ys zs n :
  harq_inv wt rnd own rmax ps av fb rt xs ys zs [] n → conserved wt rnd rmax ps av fb rt.
Proof.
  intros [? ? ? (E & _) ? ? Hp Hf Hw Hr Hro ?]. exists xs, ys, zs. split_and!; [done.. | |].
  - by rewrite app_nil_r, <- E in Hp.
  - intros i p Hi. split_and!; [eapply Hro; eassumption.. | eauto | |].
    + intros Hy. by destruct (Hw i p).
    + intros Hz. by destruct (Hr i p) as (? & ? & _).
Qed.

Lemma sim_represents dl_max ul_max u a : ue_sim dl_max ul_max u a [] → ue_represents u a.
Proof. intros [[? []] [? []] ? ? ? ? ? ?]. by constructor. Qed.

Lemma harq_start_sim dl_max ul_max sc dci ops :
  1 <= dl_max <= 8 → 1 <= ul_max <= 8 → sc_ok sc = true →
  all_permitted dl_max ul_max (a_new sc dci) ops = true →
  ∃ u, harq_start dl_max ul_max sc dci ops = Ok u ∧
    ue_sim dl_max ul_max u (a_run dl_max ul_max (a_new sc dci) ops) [].
Proof.
  intros Hd Hu Hsc Hp. unfold harq_start.
  destruct (new_ue_sim dl_max ul_max Hd Hu sc dci Hsc) as (u0 & -> & H0). by apply harq_run_sim.
Qed.

(** ** One transport block *)

Lemma znth_alter {A} (f : A → A) (l : list A) i : 0 <= i →
  znth (alter f (Z.to_nat i) l) i = f <$> znth l i.
Proof. intros Hi. by rewrite !znth_lookup, list_lookup_alter_eq by done. Qed.

(** A downlink allocation with feedback at [frame].[slot], and the answer then. *)
Definition exchange (tbs : Z) (act tci : bool) (at_ : Z * Z) (success : bool) : list harq_op :=
  [ScheduleDl (Some at_) tbs act tci; Uci01 at_.1 at_.2 20 2 1 [if success then 0 else 1] 0].

Section block.
Context (dl_max ul_max : Z) (i : Z) (q : list Z) (d : Z).
Context (Hi : 0 <= i) (Hmax : 1 <= dl_max <= 8).

(** The block has failed [k] times. *)
Definition failed (k : Z) (a : a_ue) : Prop :=
  a_pending a = None ∧ await (a_dl a) = [] ∧
  (if k =? 0 then retx (a_dl a) = [] ∧ free (a_dl a) = i :: q
   else retx (a_dl a) = [i] ∧ free (a_dl a) = q) ∧
  ∃ h, znth (procs (a_dl a)) i = Some h ∧ round h = k ∧ ndi h = d.

(** It is being sent. *)
Definition sent (k : Z) (at_ : Z * Z) (a : a_ue) : Prop :=
  a_pending a = None ∧ await (a_dl a) = [i] ∧ retx (a_dl a) = [] ∧ free (a_dl a) = q ∧
  ∃ h, znth (procs (a_dl a)) i = Some h ∧ round h = k ∧ ndi h = d ∧
    feedback_frame h = at_.1 ∧ feedback_slot h = at_.2.

(** It was delivered or given up. *)
Definition over (a : a_ue) : Prop :=
  a_pending a = None ∧ await (a_dl a) = [] ∧ retx (a_dl a) = [] ∧ free (a_dl a) = q ++ [i] ∧
  ∃ h, znth (procs (a_dl a)) i = Some h ∧ round h = 0 ∧ ndi h = Z.lxor d 1.

Lemma transmit_sent k at_ tbs act tci V :
  await V = [] → retx V = [] → free V = q →
  (∃ h, znth (procs V) i = Some h ∧ round h = k ∧ ndi h = d) →
  let V' := a_transmit i (Some at_) tbs act tci V in
  await V' = [i] ∧ retx V' = [] ∧ free V' = q ∧
  ∃ h, znth (procs V') i = Some h ∧ round h = k ∧ ndi h = d ∧
    feedback_frame h = at_.1 ∧ feedback_slot h = at_.2.
Proof using Hi.
  intros Hw Hr Hf (h & Hh & Hk & Hd). destruct at_ as [frame slot].
  unfold a_transmit, a_start. cbv zeta. destruct (of_proc _ _ _); simpl.
  - rewrite Hw, Hr, Hf, !znth_alter, Hh by done. simpl. eauto 10.
  - rewrite Hw, Hr, Hf, znth_alter, Hh by done. simpl. eauto 10.
Qed.

Lemma exec_send k at_ tbs act tci a :
  failed k a → 0 <= k → sent k at_ (a_exec dl_max ul_max a (ScheduleDl (Some at_) tbs act tci)).
Proof using Hi.
  intros (Hp & Hw & Hq & Hh) Hk. split; [done |]. cbn [a_exec]. simpl a_dl.
  unfold a_schedule_dl. destruct (Z.eqb_spec k 0) as [-> | Hne]; destruct Hq as [Er Hf];
    rewrite Er, ?Hf; by apply transmit_sent.
Qed.

Lemma not_past_not_future h at_ : feedback_frame h = at_.1 → feedback_slot h = at_.2 →
  feedback_past h at_.1 at_.2 = false ∧ feedback_future h at_.1 at_.2 = false.
Proof using.
  intros <- <-. unfold feedback_past, feedback_future.
  rewrite Z.sub_diag, Z.eqb_refl, Z.ltb_irrefl. done.
Qed.

Lemma exec_answer k at_ (success : bool) a : sent k at_ a →
  let a' := a_exec dl_max ul_max a (Uci01 at_.1 at_.2 20 2 1 [if success then 0 else 1] 0) in
  if success || (k =? dl_max - 1) then over a' else 0 <= k < dl_max - 1 → failed (k + 1) a'.
Proof using Hi Hmax.
  intros (Hp & Hw & Hr & Hf & h & Hh & Hk & Hd & H1 & H2).
  destruct (not_past_not_future h at_ H1 H2) as [Hpast Hfut].
  assert (E : a_exec dl_max ul_max a (Uci01 at_.1 at_.2 20 2 1 [if success then 0 else 1] 0) =
    a_answer dl_max i success (a <| a_dl :=
      let V := (a_dl a) <| await := [] |> in
      if success && start_tci_timer h then a_upd i (λ h, h <| start_tci_timer := false |>) V else V |>)).
  { destruct success; cbn [a_exec answers_0_1 Z.testbit Pos.testbit Z.to_nat Pos.to_nat Pos.iter_op map take];
      simpl; rewrite Hw; cbn [a_expire]; rewrite (of_proc_eq _ _ h), Hpast, Hw, (of_proc_eq _ _ h), Hfut by done;
      [by rewrite (of_proc_eq _ _ h start_tci_timer) by done | done]. }
  cbv zeta. rewrite E. clear E. unfold a_answer. cbv zeta. destruct success; simpl orb.
  - simpl. rewrite Hp. unfold over. simpl. destruct (start_tci_timer h); simpl.
    + rewrite Hr, Hf, !znth_alter, Hh by done. simpl. subst d. eauto 10.
    + rewrite Hr, Hf, !znth_alter, Hh by done. simpl. subst d. eauto 10.
  - set (V := a_upd i (λ h, h <| feedback_slot := 65535 |> <| is_waiting := false |>)
        ((a_dl a) <| await := [] |>)).
    change (_ <| a_dl ::= a_nack dl_max i |>) with (a <| a_dl := a_nack dl_max i V |>). unfold a_nack.
    assert (HV : znth (procs V) i = Some (h <| feedback_slot := 65535 |> <| is_waiting := false |>)).
    { subst V. simpl. by rewrite znth_alter, Hh. }
    rewrite (of_proc_eq _ _ _ _ HV). simpl. rewrite Hk.
    destruct (Z.eqb_spec k (dl_max - 1)) as [-> | Hne].
    + rewrite Z.leb_refl. unfold over. simpl. rewrite Hr, Hf, !znth_alter, Hh by done.
      simpl. subst d. eauto 10.
    + intros Hlt. decide_false (dl_max - 1 <=? k). unfold failed. simpl. decide_false (k + 1 =? 0).
      rewrite Hr, Hf, !znth_alter, Hh by done. simpl. subst d. split_and!; try done.
      eexists. split; [done |]. simpl. rewrite Hk, u8_small by lia. done.
Qed.

Lemma run_exchange k tbs act tci at_ (success : bool) a :
  failed k a → 0 <= k <= dl_max - 1 →
  let a' := a_run dl_max ul_max a (exchange tbs act tci at_ success) in
  if success || (k =? dl_max - 1) then over a' else failed (k + 1) a'.
Proof using Hi Hmax.
  intros H Hk. pose proof (exec_answer k at_ success _ (exec_send k at_ tbs act tci a H ltac:(lia))) as E.
  cbv zeta in *. simpl. destruct (Z.eqb_spec k (dl_max - 1)); destruct success; simpl in *; try done.
  apply E. lia.
Qed.

Lemma run_nacks tbs act tci slots : ∀ k a,
  failed k a → 0 <= k → k + zlen slots <= dl_max - 1 →
  failed (k + zlen slots)
    (a_run dl_max ul_max a (slots ≫= λ at_, exchange tbs act tci at_ false)).
Proof using Hi Hmax.
  induction slots as [| at_ slots IH]; intros k a H Hk Hl; autorewrite with zlen in *;
    [by rewrite Z.add_0_r |].
  pose proof (zlen_nonneg slots).
  pose proof (run_exchange k tbs act tci at_ false a H ltac:(lia)) as H1. cbv zeta in H1.
  assert (Ek : (k =? dl_max - 1) = false) by bool_lia. rewrite Ek in H1.
  replace (k + (1 + zlen slots)) with (k + 1 + zlen slots) by lia.
  rewrite bind_cons. unfold a_run. rewrite foldl_app. apply IH; [exact H1 | lia..].
Qed.
End block.

Lemma all_permitted_app dl_max ul_max ops ops' : ∀ a,
  all_permitted dl_max ul_max a (ops ++ ops') =
    all_permitted dl_max ul_max a ops && all_permitted dl_max ul_max (a_run dl_max ul_max a ops) ops'.
Proof.
  induction ops as [| op ops IH]; intros a; simpl; [done |]. by rewrite IH, andb_assoc.
Qed.

Lemma exchange_permitted dl_max ul_max tbs act tci at_ success a :
  all_permitted dl_max ul_max a (exchange tbs act tci at_ success) = true.
Proof. done. Qed.

Lemma nacks_permitted dl_max ul_max tbs act tci slots : ∀ a,
  all_permitted dl_max ul_max a (slots ≫= λ at_, exchange tbs act tci at_ false) = true.
Proof.
  induction slots as [| at_ slots IH]; intros a; [done |].
  by rewrite bind_cons, all_permitted_app, IH, exchange_permitted.
Qed.

(** ** Theorems *)

(** C31: an [NR_list_t] is a list of distinct identifiers: each function that changes one does
    what its name says, adding an identifier that is there or removing one that is not makes
    the process exit, and [add_nr_list] (which walks the list) and [add_tail_nr_list] (which does
    not) are the same on an identifier that is not there. *)
Theorem nr_list_refines_list (l : NR_list_t) (xs : list Z) (id : Z) :
  nr_list_repr l xs → 0 <= id < len l →
  (id ∉ xs →
     (∃ l', add_tail_nr_list l id = Ok l' ∧ add_nr_list l id = Ok l' ∧ nr_list_repr l' (xs ++ [id])) ∧
     (∃ l', add_front_nr_list l id = Ok l' ∧ nr_list_repr l' (id :: xs)) ∧
     remove_nr_list l id = Exit) ∧
  (∀ pre post, xs = pre ++ id :: post →
     add_nr_list l id = Exit ∧
     ∃ l', remove_nr_list l id = Ok l' ∧ nr_list_repr l' (pre ++ post)) ∧
  (∀ x xs', xs = x :: xs' →
     head l = x ∧ ∃ l', remove_front_nr_list l = Ok l' ∧ nr_list_repr l' xs') ∧
  (∀ n, len l <= n → ∃ l', resize_nr_list l n = Ok l' ∧ nr_list_repr l' xs ∧ len l' = n).
Proof.
  intros H Hid. pose proof (add_is_add_tail l xs id H Hid) as Ea. split_and!.
  - intros Hn. rewrite bool_decide_eq_false_2 in Ea by done.
    destruct (add_tail_repr l xs id H Hid Hn) as (l1 & E1 & H1 & _).
    destruct (add_front_repr l xs id H Hid Hn) as (l2 & E2 & H2 & _).
    rewrite E1 in Ea. split_and!; [eauto 10.. |]. eapply remove_absent; [done.. | lia].
  - intros pre post ->. rewrite bool_decide_eq_true_2 in Ea by set_solver.
    destruct (remove_repr l pre id post H) as (l1 & E1 & H1 & _). eauto.
  - intros x xs' ->. destruct (repr_head l _ H) as [-> _].
    destruct (remove_front_repr l x xs' H) as (l1 & E1 & H1 & _). eauto.
  - intros n Hn. apply resize_grow_repr; [done.. | lia].
Qed.

Lemma nr_list_refines_list_witness :
  ∃ l, add_tail_nr_list (create_nr_list 4) 2 = Ok l ∧ nr_list_repr l [2].
Proof.
  destruct (proj1 (nr_list_refines_list (create_nr_list 4) [] 2 (create_repr 4 ltac:(lia)) ltac:(simpl; lia))
    ltac:(set_solver)) as [(l & E & _ & H) _].
  exists l. split; [exact E | exact H].
Defined.

(** C9: from the creation of the UE on, with at most eight rounds, whatever the gNB does to its HARQ
    within what its callers keep to ([permitted]: configurations with no fewer processes than
    before, none while one awaits its acknowledgement, UCI payloads as long as they say), in any
    order (configuration, allocations in both directions with or without feedback, UCIs and CRCs
    that answer, are late or are missing, resets), every function returns, so no assertion of the
    scheduler fails, no array is left and the loops end, and the lists and processes are those of
    the abstract queues. Outside of these conditions the code fails: [harq_reconfiguration_aborts],
    [harq_rounds_overflow]. *)
Theorem harq_refines_queues (dl_max ul_max : Z) (sc : NR_UE_ServingCell_Info_t) (dci_00_10 : bool)
    (ops : list harq_op) :
  1 <= dl_max <= 8 → 1 <= ul_max <= 8 → sc_ok sc = true →
  all_permitted dl_max ul_max (a_new sc dci_00_10) ops = true →
  ∃ u, harq_start dl_max ul_max sc dci_00_10 ops = Ok u ∧
    ue_represents u (a_run dl_max ul_max (a_new sc dci_00_10) ops).
Proof.
  intros Hd Hu Hsc Hp. destruct (harq_start_sim dl_max ul_max sc dci_00_10 ops Hd Hu Hsc Hp) as (u & E & H).
  exists u. split; [done |]. by eapply sim_represents.
Qed.

Definition demo_sc : NR_UE_ServingCell_Info_t := mk_sc_info (Some 5) false false.
Definition demo_ops : list harq_op :=
  [ScheduleDl (Some (10, 3)) 100 false false; ScheduleDl (Some (10, 4)) 200 false false;
   ScheduleUl 5 300 None false; ScheduleUl 6 400 None false;
   Uci234 10 4 20 2 2 [1] 0; UlCrc false 1 true; ScheduleDl None 0 false false; ResetUl;
   Reconfigure (mk_sc_info None true true); ResetDl].

Lemma harq_refines_queues_witness :
  all_permitted 4 4 (a_new demo_sc true) (take 8 demo_ops) = true ∧
  ∃ u, harq_start 4 4 demo_sc true (take 8 demo_ops) = Ok u ∧
    ue_represents u (a_run 4 4 (a_new demo_sc true) (take 8 demo_ops)).
Proof.
  split; [vm_compute; reflexivity |].
  apply (harq_refines_queues 4 4 demo_sc true (take 8 demo_ops)); [lia | lia | reflexivity | vm_compute; reflexivity].
Defined.

(** C10: at any time each HARQ process of a UE is in exactly one of the three lists of its
    direction: a free one does not wait and is in its first round, one in the feedback list
    waits, one in the retransmission list does not and has been sent before; no process is past
    the last round. *)
Theorem harq_processes_conserved (dl_max ul_max : Z) (sc : NR_UE_ServingCell_Info_t)
    (dci_00_10 : bool) (ops : list harq_op) (u : NR_UE_info_t) :
  1 <= dl_max <= 8 → 1 <= ul_max <= 8 → sc_ok sc = true →
  all_permitted dl_max ul_max (a_new sc dci_00_10) ops = true →
  harq_start dl_max ul_max sc dci_00_10 ops = Ok u →
  let s := UE_sched_ctrl u in
  conserved is_waiting round dl_max (harq_processes s)
    (available_dl_harq s) (feedback_dl_harq s) (retrans_dl_harq s) ∧
  conserved ul_is_waiting ul_round ul_max (ul_harq_processes s)
    (available_ul_harq s) (feedback_ul_harq s) (retrans_ul_harq s).
Proof.
  intros Hd Hu Hsc Hp E. destruct (harq_start_sim dl_max ul_max sc dci_00_10 ops Hd Hu Hsc Hp) as (u' & E' & H).
  rewrite E in E'. injection E' as <-. destruct (us_dl _ _ _ _ _ H) as [Ed H1], (us_ul _ _ _ _ _ H) as [Eu H2].
  cbv zeta. rewrite Ed, Eu. split; by eapply inv_conserved.
Qed.

Lemma harq_processes_conserved_witness :
  ∃ u, harq_start 4 4 demo_sc true (take 7 demo_ops) = Ok u ∧
    conserved is_waiting round 4 (harq_processes (UE_sched_ctrl u)) (available_dl_harq (UE_sched_ctrl u))
      (feedback_dl_harq (UE_sched_ctrl u)) (retrans_dl_harq (UE_sched_ctrl u)).
Proof.
  destruct (harq_start 4 4 demo_sc true (take 7 demo_ops)) as [u | | |] eqn:E; [| vm_compute in E; discriminate E..].
  exists u. split; [reflexivity |].
  apply (harq_processes_conserved 4 4 demo_sc true (take 7 demo_ops) u);
    [lia | lia | reflexivity | vm_compute; reflexivity | exact E].
Defined.

(** C11: the life of a downlink transport block.  When nothing waits, the first free process is
    used; as long as the answers are negative the block is sent again, in the next round and
    with the same NDI; with the first positive answer, or the last round's answer, the process is
    free again and its NDI is toggled, after at most [dl_max] transmissions. *)
Theorem dl_block_rounds (dl_max ul_max : Z) (sc : NR_UE_ServingCell_Info_t) (dci_00_10 : bool)
    (ops : list harq_op) (i : Z) (q : list Z) (h : NR_UE_harq_t) (tbs : Z) (act tci : bool)
    (slots : list (Z * Z)) (at_ : Z * Z) (success : bool) :
  1 <= dl_max <= 8 → 1 <= ul_max <= 8 → sc_ok sc = true →
  all_permitted dl_max ul_max (a_new sc dci_00_10) ops = true →
  let a := a_run dl_max ul_max (a_new sc dci_00_10) ops in
  a_pending a = None → await (a_dl a) = [] → retx (a_dl a) = [] → free (a_dl a) = i :: q →
  znth (procs (a_dl a)) i = Some h →
  zlen slots <= dl_max - 1 → success = true ∨ zlen slots = dl_max - 1 →
  let nacks := slots ≫= λ at_, exchange tbs act tci at_ false in
  ∃ u1 u2 h1 h2,
    harq_start dl_max ul_max sc dci_00_10 (ops ++ nacks) = Ok u1 ∧
    get_proc (harq_processes (UE_sched_ctrl u1)) i = Ok h1 ∧
    round h1 = zlen slots ∧ ndi h1 = ndi h ∧
    harq_start dl_max ul_max sc dci_00_10 (ops ++ nacks ++ exchange tbs act tci at_ success) = Ok u2 ∧
    get_proc (harq_processes (UE_sched_ctrl u2)) i = Ok h2 ∧
    round h2 = 0 ∧ ndi h2 = Z.lxor (ndi h) 1 ∧
    nr_list_repr (available_dl_harq (UE_sched_ctrl u2)) (q ++ [i]) ∧
    nr_list_repr (feedback_dl_harq (UE_sched_ctrl u2)) [] ∧
    nr_list_repr (retrans_dl_harq (UE_sched_ctrl u2)) [].
Proof.
  intros Hd Hu Hsc Hp a Hpe Hw Hr Hf Hh Hk Hlast nacks.
  destruct (harq_start_sim dl_max ul_max sc dci_00_10 ops Hd Hu Hsc Hp) as (u0 & _ & H0).
  destruct (us_dl _ _ _ _ _ H0) as [_ Hi0].
  destruct (hi_free _ _ _ _ _ _ _ _ _ _ _ _ _ Hi0 i h) as [_ Hr0]; [fold a; rewrite Hf; set_solver | done |].
  assert (Hi : 0 <= i) by (by apply znth_Some in Hh as [? _]).
  assert (F0 : failed i q (ndi h) 0 a) by (split; [done |]; split; [done |]; split; [done |]; eauto).
  pose proof (run_nacks dl_max ul_max i q (ndi h) Hi Hd tbs act tci slots 0 a F0 ltac:(lia) Hk) as F1.
  pose proof (zlen_nonneg slots).
  pose proof (run_exchange dl_max ul_max i q (ndi h) Hi Hd _ tbs act tci at_ success _ F1 ltac:(lia)) as F2.
  assert (Eo : success || (0 + zlen slots =? dl_max - 1) = true).
  { apply orb_true_iff. destruct Hlast; [by left | right; bool_lia]. }
  cbv zeta in F2. rewrite Eo in F2.
  subst nacks.
  destruct F1 as (_ & _ & _ & h1 & Hh1 & Hr1 & Hn1).
  destruct F2 as (_ & Hw2 & Hx2 & Hf2 & h2 & Hh2 & Hr2 & Hn2).
  destruct (harq_start_sim dl_max ul_max sc dci_00_10
    (ops ++ (slots ≫= λ at_, exchange tbs act tci at_ false)) Hd Hu Hsc) as (u1 & E1 & H1).
  { rewrite all_permitted_app, Hp. apply nacks_permitted. }
  destruct (harq_start_sim dl_max ul_max sc dci_00_10 (ops ++ (slots ≫= λ at_, exchange tbs act tci at_ false)
    ++ exchange tbs act tci at_ success) Hd Hu Hsc) as (u2 & E2 & H2).
  { rewrite !all_permitted_app, Hp, nacks_permitted. apply exchange_permitted. }
  apply sim_represents in H1, H2. destruct H1 as [_ _ _ P1 _ _ _ _ _ _], H2 as [A2 B2 C2 P2 _ _ _ _ _ _].
  unfold a_run in *. rewrite !foldl_app in *. fold a in A2, B2, C2, P1, P2.
  exists u1, u2, h1, h2. unfold get_proc. rewrite P1, P2.
  rewrite Hh1, Hh2. rewrite Hf2 in A2. rewrite Hw2 in B2. rewrite Hx2 in C2.
  split_and!; try done.
Qed.

Lemma dl_block_rounds_witness :
  ∃ u1 u2 h1 h2,
    harq_start 4 4 demo_sc true ([] ++ exchange 100 true false (10, 3) false) = Ok u1 ∧
    get_proc (harq_processes (UE_sched_ctrl u1)) 0 = Ok h1 ∧ round h1 = 1 ∧ ndi h1 = 0 ∧
    harq_start 4 4 demo_sc true ([] ++ exchange 100 true false (10, 3) false
      ++ exchange 100 true false (11, 3) true) = Ok u2 ∧
    get_proc (harq_processes (UE_sched_ctrl u2)) 0 = Ok h2 ∧ ndi h2 = 1.
Proof.
  destruct (dl_block_rounds 4 4 demo_sc true [] 0 (seqZ 1 15) (mk_harq false 0 0 0 0 false false 0)
    100 true false [(10, 3)] (11, 3) true) as (u1 & u2 & h1 & h2 & H1 & H2 & H3 & H4 & H5 & H6 & _ & H8 & _);
    [lia | lia | reflexivity | reflexivity | reflexivity | reflexivity | reflexivity
    | vm_compute; reflexivity | vm_compute; reflexivity | vm_compute; discriminate | by left |].
  exists u1, u2, h1, h2. exact (conj H1 (conj H2 (conj H3 (conj H4 (conj H5 (conj H6 H8)))))).
Defined.

(** Bits 8 and up of the HARQ payload of a PUCCH of format 2, 3 or 4 are never read: the
    octet of the bit is shifted by the number of the bit in the payload and not in the octet, so
    every transmission that they answer is taken for not received, whatever the UE sent. *)
Theorem uci_high_bits_are_nacks (harq_payload : bytes) (harq_crc harq_bit b : Z) :
  8 <= harq_bit < 32 → znth harq_payload (harq_bit / 8) = Some b → 0 <= b < 256 →
  uci_2_3_4_answer harq_payload harq_crc harq_bit = Ok false.
Proof.
  intros Hb Hn Hr. unfold uci_2_3_4_answer. rewrite Z.shiftr_div_pow2 by lia.
  change (2 ^ 3) with 8. rewrite Hn. simpl. decide_true (harq_bit <? 32).
  rewrite testbit_shiftr, (bits_high b 8) by lia. by rewrite andb_false_r.
Qed.

Lemma uci_high_bits_are_nacks_witness : uci_2_3_4_answer [255; 255] 0 9 = Ok false.
Proof. apply (uci_high_bits_are_nacks [255; 255] 0 9 255); [lia | reflexivity | lia]. Defined.

(** a UE that has 32 downlink processes cannot be reconfigured: the acknowledgement of any
    configuration, even of the one it has, makes the gNB exit, since the configuration is applied
    for the common search space first, with 16 processes at most. *)
Theorem harq_reconfiguration_aborts (u : NR_UE_info_t) (sc : NR_UE_ServingCell_Info_t) :
  reconfigCellGroup u = Some sc → sc_ok sc = true →
  let s := UE_sched_ctrl u in
  len (available_dl_harq s) = 32 → len (feedback_dl_harq s) = 32 → len (retrans_dl_harq s) = 32 →
  ack_reconfig u = Exit.
Proof.
  intros Hp Hsc s H1 H2 H3. unfold ack_reconfig. rewrite Hp.
  unfold configure_UE_BWP, create_dl_harq_list. simpl.
  destruct (dl_count_eq sc true Hsc) as (n & En & Ec & _). rewrite En. simpl. simpl in Ec.
  assert (Hn : (if 16 <? n then 16 else n) < 32) by (destruct (Z.ltb_spec 16 n); lia).
  fold s. rewrite H1, H2, H3. simpl. unfold create_harq_lists. cbv zeta. rewrite H1.
  change (32 =? 0) with false. cbv iota.
  set (m := if 16 <? n then 16 else n) in *. clearbody m.
  decide_false (32 =? m). by decide_false (32 <? m).
Qed.

Definition full_sc : NR_UE_ServingCell_Info_t := mk_sc_info None true true.

Lemma harq_reconfiguration_aborts_witness :
  ∃ u, harq_start 4 4 full_sc false [Reconfigure full_sc] = Ok u ∧ ack_reconfig u = Exit.
Proof.
  destruct (harq_start 4 4 full_sc false [Reconfigure full_sc]) as [u | | |] eqn:E;
    [| vm_compute in E; discriminate E..].
  exists u. split; [reflexivity |]. vm_compute in E. injection E as <-.
  eapply harq_reconfiguration_aborts; reflexivity.
Defined.

(** The number of rounds is an option of the configuration file that is not checked, and the
    counters of the rounds are an array of eight: with nine rounds, the ninth transmission of a
    block writes behind the array. *)
Theorem harq_rounds_overflow (at_ : Z * Z) :
  harq_start 9 4 demo_sc true
    ((seqZ 0 8 ≫= λ frame, exchange 100 false false (frame, 3) false)
     ++ [ScheduleDl (Some at_) 100 false false]) = UB.
Proof. destruct at_. vm_compute. reflexivity. Qed.
