(* ===== verification/RlcApi.v ===== *)
(** * NR RLC: the interface to MAC

    openair2/LAYER2/nr_rlc/nr_rlc_oai_api.c and nr_rlc_ue_manager.c: the radio bearers of a UE,
    how a logical channel finds its entity, and the requests of MAC.  The class [RlcEntity] is
    the function table of an entity (nr_rlc_entity.h), [RlcEntityLaws] what MAC relies on; the
    three modes and their sum ([nr_rlc_entity_t]) are instances.  Locks are left out. *)

From S2P Require Import Prelude RlcPdu RlcEntity RlcUm RlcUmTx RlcUmRx RlcUmProps RlcTm.
From S2P Require Import RlcAm RlcAmControl RlcAmStatus RlcAmTx.

(** ** The function table *)

Class RlcEntity (E : Type) := {
  rb_recv_pdu : E → bytes → res E;
  rb_recv_sdu : E → bytes → Z → Z → res E;
  rb_buffer_status : E → Z → res nr_rlc_entity_buffer_status_t;
  rb_generate_pdu : E → bytes → Z → Z → res (Z * bytes * E);
  rb_set_time : E → Z → res E
}.

#[export] Instance um_entity : RlcEntity nr_rlc_entity_um_t := {
  rb_recv_pdu := nr_rlc_entity_um_recv_pdu;
  rb_recv_sdu := nr_rlc_entity_um_recv_sdu;
  rb_buffer_status := λ e _, Ok (nr_rlc_entity_um_buffer_status e);
  rb_generate_pdu := nr_rlc_entity_um_generate_pdu;
  rb_set_time := nr_rlc_entity_um_set_time
}.

#[export] Instance tm_entity : RlcEntity nr_rlc_entity_tm_t := {
  rb_recv_pdu := λ e buffer, Ok (nr_rlc_entity_tm_recv_pdu e buffer);
  rb_recv_sdu := nr_rlc_entity_tm_recv_sdu;
  rb_buffer_status := λ e _, Ok (nr_rlc_entity_tm_buffer_status e);
  rb_generate_pdu := nr_rlc_entity_tm_generate_pdu;
  rb_set_time := λ e now, Ok (nr_rlc_entity_tm_set_time e now)
}.

#[export] Instance am_entity : RlcEntity nr_rlc_entity_am_t := {
  rb_recv_pdu := nr_rlc_entity_am_recv_pdu;
  rb_recv_sdu := nr_rlc_entity_am_recv_sdu;
  rb_buffer_status := nr_rlc_entity_am_buffer_status;
  rb_generate_pdu := nr_rlc_entity_am_generate_pdu;
  rb_set_time := nr_rlc_entity_am_set_time
}.

(** An entity of any mode: the table of the mode it was created in. *)
Inductive nr_rlc_entity_t :=
| RlcTmEntity (e : nr_rlc_entity_tm_t)
| RlcUmEntity (e : nr_rlc_entity_um_t)
| RlcAmEntity (e : nr_rlc_entity_am_t).

Definition by_mode (tm : nr_rlc_entity_tm_t → res nr_rlc_entity_tm_t)
    (um : nr_rlc_entity_um_t → res nr_rlc_entity_um_t)
    (am : nr_rlc_entity_am_t → res nr_rlc_entity_am_t) (e : nr_rlc_entity_t) : res nr_rlc_entity_t :=
  match e with
  | RlcTmEntity e => e ← tm e; Ok (RlcTmEntity e)
  | RlcUmEntity e => e ← um e; Ok (RlcUmEntity e)
  | RlcAmEntity e => e ← am e; Ok (RlcAmEntity e)
  end.

#[export] Instance any_entity : RlcEntity nr_rlc_entity_t := {
  rb_recv_pdu := λ e b, by_mode (λ e, rb_recv_pdu e b) (λ e, rb_recv_pdu e b) (λ e, rb_recv_pdu e b) e;
  rb_recv_sdu := λ e b id now_us, by_mode (λ e, rb_recv_sdu e b id now_us)
    (λ e, rb_recv_sdu e b id now_us) (λ e, rb_recv_sdu e b id now_us) e;
  rb_buffer_status := λ e maxsize, match e with
    | RlcTmEntity e => rb_buffer_status e maxsize
    | RlcUmEntity e => rb_buffer_status e maxsize
    | RlcAmEntity e => rb_buffer_status e maxsize
    end;
  rb_generate_pdu := λ e b size now_us, match e with
    | RlcTmEntity e => '(n, b, e) ← rb_generate_pdu e b size now_us; Ok (n, b, RlcTmEntity e)
    | RlcUmEntity e => '(n, b, e) ← rb_generate_pdu e b size now_us; Ok (n, b, RlcUmEntity e)
    | RlcAmEntity e => '(n, b, e) ← rb_generate_pdu e b size now_us; Ok (n, b, RlcAmEntity e)
    end;
  rb_set_time := λ e now, by_mode (λ e, rb_set_time e now) (λ e, rb_set_time e now) (λ e, rb_set_time e now) e
}.

(** ** What MAC relies on

    In a state with the invariant an entity accepts the clock if [rlc_tick_ok], and fills a
    buffer of [size] bytes with a PDU of at most [size] bytes, whose length fits in the L field
    of a MAC subheader if [rlc_size_ok size]. *)
Class RlcEntityLaws (E : Type) `{RlcEntity E} := {
  rlc_inv : E → Prop;
  rlc_tick_ok : E → Z → Prop;
  rlc_size_ok : Z → Prop;
  rlc_size_mono : ∀ m n, m <= n → rlc_size_ok n → rlc_size_ok m;
  rlc_set_time : ∀ e now, rlc_inv e → rlc_tick_ok e now → ∃ e', rb_set_time e now = Ok e' ∧ rlc_inv e';
  rlc_generate : ∀ e buffer size now_us, rlc_inv e → 0 <= size <= zlen buffer → rlc_size_ok size →
    ∃ n buf e', rb_generate_pdu e buffer size now_us = Ok (n, buf, e') ∧ rlc_inv e' ∧
      0 <= n <= size ∧ n <= 65535 ∧ zlen buf = zlen buffer
}.

(** ** The bearers of a UE *)

Inductive nr_lcid_rb_t := NR_LCID_NONE | NR_LCID_SRB (srb_id : Z) | NR_LCID_DRB (drb_id : Z).

Record nr_rlc_ue_t (E : Type) := mk_rlc_ue {
  ue_id : Z;
  srb0 : option E;
  srb : list (option E);
  drb : list (option E);
  lcid2rb : list nr_lcid_rb_t
}.
Arguments mk_rlc_ue {E} _ _ _ _ _.
Arguments ue_id {E} _.
Arguments srb0 {E} _.
Arguments srb {E} _.
Arguments drb {E} _.
Arguments lcid2rb {E} _.

#[export] Instance eta_rlc_ue {E} : Settable (nr_rlc_ue_t E) :=
  λ u, mk_rlc_ue (ue_id u) (srb0 u) (srb u) (drb u) (lcid2rb u).

(** A pointer variable that holds an entity. *)
Inductive rb_slot := Srb0 | Srb (i : Z) | Drb (i : Z).

Section ue.
Context {E : Type} `{RlcEntity E}.
Implicit Types u : nr_rlc_ue_t E.

Definition rb_get u (s : rb_slot) : res (option E) :=
  match s with
  | Srb0 => Ok (srb0 u)
  | Srb i => deref (znth (srb u) i)
  | Drb i => deref (znth (drb u) i)
  end.

Definition rb_put u (s : rb_slot) (e : E) : nr_rlc_ue_t E :=
  match s with
  | Srb0 => u <| srb0 := Some e |>
  | Srb i => u <| srb ::= <[Z.to_nat i := Some e]> |>
  | Drb i => u <| drb ::= <[Z.to_nat i := Some e]> |>
  end.

(** The pointer variable of a logical channel; [None] if it has no bearer. *)
Definition lcid_slot u (channel_id : Z) : res (option rb_slot) :=
  if channel_id =? 0 then Ok (Some Srb0)
  else
    rb ← deref (znth (lcid2rb u) (channel_id - 1));
    match rb with
    | NR_LCID_NONE => Ok None
    | NR_LCID_SRB srb_id => _ ← assert_that (0 <? srb_id); Ok (Some (Srb (srb_id - 1)))
    | NR_LCID_DRB drb_id => Ok (Some (Drb (drb_id - 1)))
    end.

(** The variable and the entity in it; [None] where the C function returns NULL. *)
Definition get_rlc_entity_from_lcid u (channel_id : Z) : res (option (rb_slot * E)) :=
  s ← lcid_slot u channel_id;
  match s with
  | None => Ok None
  | Some s => o ← rb_get u s; Ok (e ← o; Some (s, e))
  end.

(** ** From MAC: received PDUs *)

(** [nr_rlc_data_ind_t]: the PDU is the [len] octets at [buf] of the transport block. *)
Record nr_rlc_data_ind_t := mk_ind { ind_ch : Z; ind_buf : Z; ind_len : Z }.

Definition rlc_data_ind_one (now : Z) (mem : bytes) u (d : nr_rlc_data_ind_t) : res (nr_rlc_ue_t E) :=
  rb ← get_rlc_entity_from_lcid u (ind_ch d);
  match rb with
  | None => Ok u
  | Some (s, e) =>
      e ← rb_set_time e now;
      pdu ← deref (slice mem (ind_buf d) (ind_len d));
      e ← rb_recv_pdu e pdu;
      Ok (rb_put u s e)
  end.

Fixpoint nr_mac_rlc_data_ind (now : Z) (mem : bytes) u (data : list nr_rlc_data_ind_t) : res (nr_rlc_ue_t E) :=
  match data with
  | [] => Ok u
  | d :: data => u ← rlc_data_ind_one now mem u d; nr_mac_rlc_data_ind now mem u data
  end.

(** ** From MAC: PDUs to send *)

(** The loop: [pos] is [buffer_pP], [n] is [pdu_siz_len]; returns the sizes written to [pdu_siz]. *)
Fixpoint multi_data_loop (now_us : Z) (n : nat) (e : E) (buf : bytes) (pos tb_size : Z)
    : res (list Z * bytes * E) :=
  match n with
  | O => Ok ([], buf, e)
  | S n =>
      if 0 <? tb_size - 3 then
        '(siz, b, e) ← rb_generate_pdu e (drop (Z.to_nat (pos + 3)) buf) (tb_size - 3) now_us;
        let buf := take (Z.to_nat (pos + 3)) buf ++ b in
        if siz =? 0 then Ok ([], buf, e)
        else
          '(l, buf, e) ← multi_data_loop now_us n e buf (pos + (3 + siz)) (tb_size - (3 + siz));
          Ok (siz :: l, buf, e)
      else Ok ([], buf, e)
  end.

Definition nr_mac_rlc_multi_data_req (now now_us : Z) u (channel_id tb_size : Z) (buf : bytes) (pos pdu_siz_len : Z)
    : res (list Z * bytes * nr_rlc_ue_t E) :=
  rb ← get_rlc_entity_from_lcid u channel_id;
  match rb with
  | None => Ok ([], buf, u)
  | Some (s, e) =>
      e ← rb_set_time e now;
      '(l, buf, e) ← multi_data_loop now_us (Z.to_nat pdu_siz_len) e buf pos tb_size;
      Ok (l, buf, rb_put u s e)
  end.

Definition nr_mac_rlc_data_req (now now_us : Z) u (channel_id tb_size : Z) (buf : bytes) (pos : Z)
    : res (Z * bytes * nr_rlc_ue_t E) :=
  rb ← get_rlc_entity_from_lcid u channel_id;
  match rb with
  | None => Ok (0, buf, u)
  | Some (s, e) =>
      e ← rb_set_time e now;
      '(n, b, e) ← rb_generate_pdu e (drop (Z.to_nat pos) buf) tb_size now_us;
      Ok (n, take (Z.to_nat pos) buf ++ b, rb_put u s e)
  end.

(** ** Buffer status *)

(** [bytes_in_buffer] of the response; its other fields are 0. *)
Definition nr_rlc_status_ind_one (now : Z) u (channel_id : Z) : res (Z * nr_rlc_ue_t E) :=
  rb ← get_rlc_entity_from_lcid u channel_id;
  match rb with
  | None => Ok (0, u)
  | Some (s, e) =>
      e ← rb_set_time e now;
      st ← rb_buffer_status e (1000 * 1000);
      Ok (RlcEntity.status_size st + bs_retx_size st + bs_tx_size st, rb_put u s e)
  end.

Fixpoint nr_mac_rlc_status_ind (now : Z) u (chs : list Z) : res (list Z * nr_rlc_ue_t E) :=
  match chs with
  | [] => Ok ([], u)
  | ch :: chs =>
      '(n, u) ← nr_rlc_status_ind_one now u ch;
      '(l, u) ← nr_mac_rlc_status_ind now u chs;
      Ok (n :: l, u)
  end.

(** ** From PDCP: SDUs to send *)

Definition nr_rlc_data_req (now now_us : Z) u (srb_flag : bool) (rb_id mui : Z) (sdu : bytes) : res (nr_rlc_ue_t E) :=
  let slot := if srb_flag then (if (1 <=? rb_id) && (rb_id <=? 2) then Some (Srb (rb_id - 1)) else None)
              else (if (1 <=? rb_id) && (rb_id <=? 32) then Some (Drb (rb_id - 1)) else None) in
  match slot with
  | None => Ok u
  | Some s =>
      o ← rb_get u s;
      match o with
      | None => Ok u
      | Some e => e ← rb_set_time e now; e ← rb_recv_sdu e sdu mui now_us; Ok (rb_put u s e)
      end
  end.

(** ** The manager *)

Definition new_rlc_ue (id : Z) : nr_rlc_ue_t E :=
  mk_rlc_ue id None (replicate 3 None) (replicate 32 None) (replicate 32 NR_LCID_NONE).

(** The position of the UE in [ue_list], created if there is none. *)
Fixpoint nr_rlc_manager_get_ue (m : list (nr_rlc_ue_t E)) (id : Z) : nat * list (nr_rlc_ue_t E) :=
  match m with
  | [] => (O, [new_rlc_ue id])
  | u :: m => if ue_id u =? id then (O, u :: m)
              else let '(i, m) := nr_rlc_manager_get_ue m id in (S i, u :: m)
  end.

(** ** Lemmas *)

Lemma slot_put u s e ch : lcid_slot (rb_put u s e) ch = lcid_slot u ch.
Proof. by destruct s. Qed.

Lemma get_put_ne u s s' e : s' ≠ s → (∃ o, rb_get u s = Ok o) → rb_get (rb_put u s e) s' = rb_get u s'.
Proof.
  intros Hne [o Ho]. destruct s as [| i | i], s' as [| j | j]; try done; simpl in *.
  all: unfold deref in *; destruct (znth _ i) eqn:Ei; [| done]; apply znth_Some in Ei as [Hi _].
  all: unfold znth; destruct (Z.ltb_spec j 0); [done |]; rewrite list_lookup_insert_ne; [done |].
  all: intros Heq; apply Hne; f_equal; lia.
Qed.

Lemma get_put_eq u s e : (∃ o, rb_get u s = Ok o) → rb_get (rb_put u s e) s = Ok (Some e).
Proof.
  intros [o Ho]. destruct s as [| i | i]; try done; simpl in *.
  all: unfold deref in *; destruct (znth _ i) eqn:Ei; [| done]; apply znth_Some in Ei as [Hi Hlt].
  all: unfold znth, zlen in *; destruct (Z.ltb_spec i 0); [lia |].
  all: by rewrite list_lookup_insert_eq by lia.
Qed.

Lemma get_entity_inv u ch s e : get_rlc_entity_from_lcid u ch = Ok (Some (s, e)) →
  lcid_slot u ch = Ok (Some s) ∧ rb_get u s = Ok (Some e).
Proof.
  unfold get_rlc_entity_from_lcid. intros Hg. inv_bind Hg. destruct a as [s' |]; [| done]. inv_bind Hg.
  destruct a as [e' |]; simplify_eq/=. done.
Qed.

Lemma get_entity_intro u ch s e : lcid_slot u ch = Ok (Some s) → rb_get u s = Ok (Some e) →
  get_rlc_entity_from_lcid u ch = Ok (Some (s, e)).
Proof. intros H1 H2. unfold get_rlc_entity_from_lcid. rewrite H1. cbn [mbind res_bind]. by rewrite H2. Qed.
End ue.
