(* ===== verification/RlcApiLaws.v ===== *)
(** * NR RLC: the three modes keep the promises of the interface

    Instances of [RlcEntityLaws]: UM and TM for every grant, AM for grants of up to 65535 bytes
    (a STATUS PDU can be as long as its grant), and an entity of any mode.

    Then: NR RLC: repeated requests at the same time.
    The MAC of the UE may ask the same entity for PDUs several times while it builds a transport
    block, and every request sets the clock again.  The law for this ([RlcTickLaws]) and its instances
    for the three modes. *)

From S2P Require Import Prelude RlcPdu RlcEntity RlcUm RlcUmTx RlcUmRx RlcUmProps RlcTm RlcAm RlcAmControl RlcAmStatus RlcAmTx RlcAmTxInv RlcAmRxInv RlcAmRun RlcApi.

(** ** UM *)

Lemma um_generate_bounds e buffer size now_us : um_inv e → 0 <= size <= zlen buffer →
  ∃ n buf e', nr_rlc_entity_um_generate_pdu e buffer size now_us = Ok (n, buf, e') ∧ um_inv e' ∧
    0 <= n <= size ∧ n <= 65535 ∧ zlen buf = zlen buffer.
Proof.
  intros [Ht Hr] Hsize. unfold nr_rlc_entity_um_generate_pdu. destruct (um_lossy e size) eqn:Hloss.
  - destruct (generate_lost e buffer size now_us Ht Hloss) as (s & l & e' & _ & _ & -> & Hi & _ & _ & _ & Hrx & Hp & _).
    exists 0, buffer, e'. split; [done |]. split; [| split_and!; (done || lia)]. split; [done |]. by eapply um_rx_state_inv.
  - destruct (generate_spec e buffer size now_us Ht) as [[-> _] | (n & buf & e' & pl & -> & Hres)]; [lia | done | |].
    + exists 0, buffer, e. split_and!; (done || lia).
    + destruct Hres as (Hi & _ & _ & Hrx & Hp & _ & Hn & Hl & s & u & _ & Hin & Hmax & _ & Hret & _ & _ & Hsz & _).
      exists n, buf, e'. split; [done |]. split; [split; [done |]; by eapply um_rx_state_inv |].
      split_and!; [lia | lia | | done]. rewrite Hret, header_cases by apply Ht. destruct Hin as (_ & H1 & H2 & H3 & _).
      unfold NR_SDU_MAX in Hmax. repeat case_match; lia.
Qed.

Lemma um_set_time_law e now : um_inv e → True → ∃ e', nr_rlc_entity_um_set_time e now = Ok e' ∧ um_inv e'.
Proof. intros Hi _. destruct (set_time_inv e now Hi) as (e' & E & Hi' & _). by exists e'. Qed.

#[export] Instance um_laws : RlcEntityLaws nr_rlc_entity_um_t := {
  rlc_inv := um_inv;
  rlc_tick_ok := λ _ _, True;
  rlc_size_ok := λ _, True;
  rlc_size_mono := λ _ _ _ H, H;
  rlc_set_time := um_set_time_law;
  rlc_generate := λ e buffer size now_us Hi Hs _, um_generate_bounds e buffer size now_us Hi Hs
}.

(** ** TM *)

(** The entity is a FIFO of SDUs of at most [NR_SDU_MAX] bytes. *)
Definition tm_inv (e : nr_rlc_entity_tm_t) : Prop := ∃ s, tm_rep e s ∧ Forall (λ d, zlen d <= NR_SDU_MAX) (sp_queue s).

Lemma tm_generate_bounds e buffer size now_us : tm_inv e → 0 <= size <= zlen buffer →
  ∃ n buf e', nr_rlc_entity_tm_generate_pdu e buffer size now_us = Ok (n, buf, e') ∧ tm_inv e' ∧
    0 <= n <= size ∧ n <= 65535 ∧ zlen buf = zlen buffer.
Proof.
  intros (s & Hrep & Hq) Hsize. destruct (tm_generate_rep e s buffer size now_us Hrep) as (n & buf & e' & E & Hrep' & Hres); [lia |].
  exists n, buf, e'. split; [exact E |]. unfold sp_generate in *. destruct (sp_queue s) as [| d q] eqn:Eq.
  - destruct Hres as [-> ->]. split; [exists s; by rewrite Eq | split_and!; (done || lia)].
  - apply Forall_cons in Hq as [Hd Hq]. unfold NR_SDU_MAX in Hd. pose proof (zlen_nonneg d).
    destruct (Z.ltb_spec size (zlen d)); simpl in *.
    + destruct Hres as [-> ->]. split; [exists s; rewrite Eq; split; [done | by constructor] | split_and!; (done || lia)].
    + destruct Hres as (-> & _ & Hl). split; [by eexists | split_and!; (done || lia)].
Qed.

Lemma tm_set_time_law e now : tm_inv e → True → ∃ e', Ok (nr_rlc_entity_tm_set_time e now) = Ok e' ∧ tm_inv e'.
Proof. intros (s & Hrep & Hq) _. eexists. split; [done |]. exists s. split; [| done]. destruct Hrep. by constructor. Qed.

#[export] Instance tm_laws : RlcEntityLaws nr_rlc_entity_tm_t := {
  rlc_inv := tm_inv;
  rlc_tick_ok := λ _ _, True;
  rlc_size_ok := λ _, True;
  rlc_size_mono := λ _ _ _ H, H;
  rlc_set_time := tm_set_time_law;
  rlc_generate := λ e buffer size now_us Hi Hs _, tm_generate_bounds e buffer size now_us Hi Hs
}.

(** ** AM *)

Lemma am_generate_bounds e buffer size now_us : am_inv e → 0 <= size <= zlen buffer → size <= 65535 →
  ∃ n buf e', nr_rlc_entity_am_generate_pdu e buffer size now_us = Ok (n, buf, e') ∧ am_inv e' ∧
    0 <= n <= size ∧ n <= 65535 ∧ zlen buf = zlen buffer.
Proof.
  intros Hi Hs Hmax. destruct (am_generate_safe e buffer size now_us Hi) as (n & buf & e' & E & Hi' & Hn & Hl); [lia |].
  exists n, buf, e'. split_and!; (done || lia).
Qed.

Lemma short_mono m n : m <= n → n <= 65535 → m <= 65535.
Proof. lia. Qed.

#[export] Instance am_laws : RlcEntityLaws nr_rlc_entity_am_t := {
  rlc_inv := am_inv;
  rlc_tick_ok := λ e now, poll_null (e <| t_current := now |>) = false;
  rlc_size_ok := λ size, size <= 65535;
  rlc_size_mono := short_mono;
  rlc_set_time := am_set_time_safe;
  rlc_generate := am_generate_bounds
}.

(** ** Any mode *)

Definition any_inv (e : nr_rlc_entity_t) : Prop :=
  match e with RlcTmEntity e => tm_inv e | RlcUmEntity e => um_inv e | RlcAmEntity e => am_inv e end.
Definition any_tick_ok (e : nr_rlc_entity_t) (now : Z) : Prop :=
  match e with RlcAmEntity e => rlc_tick_ok e now | _ => True end.

Lemma any_set_time e now : any_inv e → any_tick_ok e now → ∃ e', rb_set_time e now = Ok e' ∧ any_inv e'.
Proof.
  intros Hi Hn. destruct e as [e | e | e]; simpl.
  - destruct (tm_set_time_law e now Hi I) as (e' & E & Hi'). eexists. split; [done |]. injection E as <-. exact Hi'.
  - destruct (um_set_time_law e now Hi I) as (e' & E & Hi'). rewrite E. eexists. split; [done | exact Hi'].
  - destruct (am_set_time_safe e now Hi Hn) as (e' & E & Hi'). rewrite E. eexists. split; [done | exact Hi'].
Qed.

Lemma any_generate e buffer size now_us : any_inv e → 0 <= size <= zlen buffer → size <= 65535 →
  ∃ n buf e', rb_generate_pdu e buffer size now_us = Ok (n, buf, e') ∧ any_inv e' ∧
    0 <= n <= size ∧ n <= 65535 ∧ zlen buf = zlen buffer.
Proof.
  intros Hi Hs Hmax. destruct e as [e | e | e]; simpl.
  - destruct (tm_generate_bounds e buffer size now_us Hi Hs) as (n & buf & e' & E & Hi' & Hr). rewrite E.
    eexists n, buf, _. split; [done |]. by split.
  - destruct (um_generate_bounds e buffer size now_us Hi Hs) as (n & buf & e' & E & Hi' & Hr). rewrite E.
    eexists n, buf, _. split; [done |]. by split.
  - destruct (am_generate_bounds e buffer size now_us Hi Hs Hmax) as (n & buf & e' & E & Hi' & Hr). rewrite E.
    eexists n, buf, _. split; [done |]. by split.
Qed.

#[export] Instance any_laws : RlcEntityLaws nr_rlc_entity_t := {
  rlc_inv := any_inv;
  rlc_tick_ok := any_tick_ok;
  rlc_size_ok := λ size, size <= 65535;
  rlc_size_mono := short_mono;
  rlc_set_time := any_set_time;
  rlc_generate := any_generate
}.

(** ** NR RLC: repeated requests at the same time *)

(** [rlc_ticked e now]: the entity has seen the clock [now]; it accepts it again. *)
Class RlcTickLaws (E : Type) `{RlcEntityLaws E} := {
  rlc_ticked : E → Z → Prop;
  rlc_ticked_set : ∀ e now e', rlc_inv e → rlc_tick_ok e now → rb_set_time e now = Ok e' → rlc_ticked e' now;
  rlc_ticked_generate : ∀ e now buffer size now_us n buf e', rlc_inv e → rlc_ticked e now → 0 <= size <= zlen buffer →
    rb_generate_pdu e buffer size now_us = Ok (n, buf, e') → rlc_ticked e' now;
  rlc_ticked_ok : ∀ e now, rlc_ticked e now → rlc_tick_ok e now
}.

#[export] Instance um_tick_laws : RlcTickLaws nr_rlc_entity_um_t.
Proof. by apply (Build_RlcTickLaws _ _ _ (λ _ _, True)). Defined.

#[export] Instance tm_tick_laws : RlcTickLaws nr_rlc_entity_tm_t.
Proof. by apply (Build_RlcTickLaws _ _ _ (λ _ _, True)). Defined.

(** ** AM: the poll timer and the wait list *)

(** The poll timer is stopped, or has not expired at [now], or a PDU waits for its acknowledgement. *)
Definition am_ticked (e : nr_rlc_entity_am_t) (now : Z) : Prop :=
  t_poll_retransmit_start e = 0 ∨ now <= u64 (t_poll_retransmit_start e + t_poll_retransmit e) ∨
  wait_list e ≠ [] ∨ check_poll_after_pdu_assembly e = false.

Lemma ticked_iff e now : am_ticked e now ↔ poll_null (e <| t_current := now |>) = false.
Proof.
  unfold poll_null, am_ticked. simpl. destruct (Z.eqb_spec (t_poll_retransmit_start e) 0); simpl; [by split; auto |].
  change (check_poll_after_pdu_assembly (e <| t_current := now |> <| t_poll_retransmit_start := 0 |> <| force_poll := true |>))
    with (check_poll_after_pdu_assembly e).
  destruct (Z.ltb_spec (u64 (t_poll_retransmit_start e + t_poll_retransmit e)) now); simpl; [| split; [done | intros _; right; left; lia]].
  destruct (check_poll_after_pdu_assembly e); simpl; [| by split; auto]. destruct (wait_list e); simpl; [| split; [done | auto]].
  split; [| done]. intros [? | [? | [? | ?]]]; (done || lia).
Qed.

(** The fields on which [am_ticked] depends. *)
Definition poll_view (e : nr_rlc_entity_am_t) :=
  (t_poll_retransmit_start e, t_poll_retransmit e, wait_list e, tx_list e, retransmit_list e, tx_next e, tx_next_ack e,
   sn_modulus e, window_size e).

Lemma ticked_view e e' now : poll_view e' = poll_view e → am_ticked e now → am_ticked e' now.
Proof.
  unfold poll_view. intros [= E1 E2 E3 E4 E5 E6 E7 E8 E9].
  unfold am_ticked, check_poll_after_pdu_assembly, is_window_stalling, sn_compare_tx, modulus_tx.
  by rewrite E1, E2, E3, E4, E5, E6, E7, E8, E9.
Qed.

(** ** AM: the clock *)

Definition poll_timer (e : nr_rlc_entity_am_t) := (t_poll_retransmit_start e, t_poll_retransmit e).

Lemma retransmit_head_timer l : ∀ e n e', retransmit_head e l n = Ok e' → poll_timer e' = poll_timer e.
Proof.
  induction l as [| s l IH]; intros e n e' H; simpl in H; [by simplify_eq |]. inv_bind H. destruct (_ =? _); [| by simplify_eq].
  inv_bind H. apply IH in H. rewrite H. by destruct l.
Qed.

Lemma poll_retransmit_ticked e e' : check_t_poll_retransmit e = Ok e' →
  t_poll_retransmit_start e' = 0 ∨ t_current e <= u64 (t_poll_retransmit_start e' + t_poll_retransmit e').
Proof.
  unfold check_t_poll_retransmit. intros H. destruct (_ || _) eqn:Hb.
  { simplify_eq. apply orb_true_iff in Hb as [Hb%Z.eqb_eq | Hb%Z.leb_le]; [by left | by right]. }
  left. destruct (negb _); [by simplify_eq |]. simpl wait_list in H. destruct (wait_list e) as [| s l]; [done |].
  inv_bind H. inv_bind H. inv_bind H. apply retransmit_head_timer in E1. unfold poll_timer in E1. simpl in E1. injection E1 as E1 _.
  case_match; simplify_eq; simpl; done.
Qed.

Lemma reassembly_timer e e' : check_t_reassembly e = Ok e' → poll_timer e' = poll_timer e.
Proof.
  unfold check_t_reassembly. destruct (_ || _); [by intros [= <-] |]. intros H. inv_bind H. inv_bind H. case_match; by simplify_eq.
Qed.

Lemma am_ticked_set e now e' : nr_rlc_entity_am_set_time e now = Ok e' → am_ticked e' now.
Proof.
  intros H. unfold nr_rlc_entity_am_set_time in H. inv_bind H. apply poll_retransmit_ticked in E. apply reassembly_timer in H.
  injection H as H1 H2. unfold am_ticked. rewrite H1, H2. destruct E; auto.
Qed.

(** ** AM: PDUs *)

Lemma link_after_some a s l l' : deref (link_after a s l) = Ok l' → l' ≠ [].
Proof.
  destruct l as [| y l]; [done |]. simpl. destruct (Nat.eqb _ _); [intros [= <-] Hn; discriminate Hn |]. destruct (link_after a s l); [| done].
  intros [= <-] Hn. discriminate Hn.
Qed.

Lemma put_waits e s e' : put_in_wait_list e s = Ok e' → wait_list e' ≠ [].
Proof.
  unfold put_in_wait_list. intros H. inv_bind H. inv_bind H. destruct a0.
  - inv_bind H. destruct a0 as [l x]. simplify_eq. simpl. unfold nr_rlc_sdu_segment_list_append in E1.
    destruct (wait_list e) as [| y l']; [by simplify_eq |]. inv_bind E1. inv_bind E1. simplify_eq. by apply link_after_some in E3.
  - inv_bind H. assert (Hne : a0 ≠ []).
    { intros ->. destruct (wait_list e) as [| y l']; simpl in E1; [discriminate E1 |]. inv_bind E1. inv_bind E1.
      destruct (_ || _); [discriminate E1 |]. inv_bind E1. discriminate E1. }
    simplify_eq. by destruct a0 as [| y [|]].
Qed.

Lemma serialize_waits e s buffer size p n buf e' : serialize_sdu e s buffer size p = Ok (n, buf, e') → wait_list e' = wait_list e.
Proof.
  unfold serialize_sdu. intros H. inv_bind H. do 5 inv_bind H. do 2 inv_bind H. inv_bind H. inv_bind H. destruct a8 as [b e1]. simplify_eq.
  destruct p; [| by simplify_eq]. unfold include_poll in E8. inv_bind E8. inv_bind E8. by simplify_eq.
Qed.

Lemma retx_waits e buffer size n buf e' : generate_retx_pdu e buffer size = Ok (n, buf, e') → e' = e ∨ wait_list e' ≠ [].
Proof.
  unfold generate_retx_pdu. intros H. destruct (retransmit_list e); [done |]. case_match; [left; by simplify_eq |].
  right. inv_bind H. destruct a as [e1 s1]. inv_bind H. apply put_waits in E0. unfold poll_decision in H.
  destruct (force_poll a); inv_bind H; destruct a0 as [[n1 b1] e2]; simplify_eq; apply serialize_waits in E1; simpl in *; congruence.
Qed.

Lemma tx_waits e buffer size now_us n buf e' : generate_tx_pdu e buffer size now_us = Ok (n, buf, e') → e' = e ∨ wait_list e' ≠ [].
Proof.
  unfold generate_tx_pdu. intros H. destruct (is_window_stalling e); [left; by simplify_eq |].
  destruct (tx_list e); [left; by simplify_eq |]. case_match; [left; by simplify_eq |].
  right. inv_bind H. inv_bind H. destruct a0 as [e1 s1]. inv_bind H. apply put_waits in E1. unfold poll_for_new_pdu, poll_decision in H.
  destruct (force_poll _); inv_bind H; destruct a1 as [[n1 b1] e2]; inv_bind H; simplify_eq; apply serialize_waits in E2; simpl in *; congruence.
Qed.

Lemma status_view e buffer size n buf e' : generate_status e buffer size = Ok (n, buf, e') → poll_view e' = poll_view e.
Proof.
  unfold generate_status. case_match; [by intros [= <- <- <-] |]. intros H'. inv_bind H'. inv_bind H'. inv_bind H'. destruct a1 as [st ln].
  inv_bind H'. by simplify_eq.
Qed.

Lemma am_ticked_generate e now buffer size now_us n buf e' :
  am_ticked e now → nr_rlc_entity_am_generate_pdu e buffer size now_us = Ok (n, buf, e') → am_ticked e' now.
Proof.
  unfold nr_rlc_entity_am_generate_pdu. intros Ht H. inv_bind H. destruct a as [[r1 b1] e1].
  assert (H1 : am_ticked e1 now).
  { destruct (status_to_report e); [| by simplify_eq]. apply status_view in E. by eapply ticked_view. }
  destruct (negb _); [by simplify_eq |]. clear E Ht. inv_bind H. destruct a as [[r2 b2] e2].
  assert (H2 : am_ticked e2 now).
  { destruct (retransmit_list e1); [by simplify_eq |]. apply retx_waits in E as [-> | ?]; [done |]. right; right; by left. }
  destruct (negb _); [by simplify_eq |]. apply tx_waits in H as [-> | ?]; [done |]. right; right; by left.
Qed.

#[export] Instance am_tick_laws : RlcTickLaws nr_rlc_entity_am_t.
Proof.
  apply (Build_RlcTickLaws _ _ _ am_ticked).
  - intros e now e' _ _ H. by eapply am_ticked_set.
  - intros e now buffer size now_us n buf e' _ Ht _ H. by eapply am_ticked_generate.
  - intros e now Ht. by apply ticked_iff.
Defined.

(** ** Any mode *)

Definition any_ticked (e : nr_rlc_entity_t) (now : Z) : Prop :=
  match e with RlcAmEntity e => am_ticked e now | _ => True end.

#[export] Instance any_tick_laws : RlcTickLaws nr_rlc_entity_t.
Proof.
  apply (Build_RlcTickLaws _ _ _ any_ticked).
  - intros [e | e | e] now e' _ _ H; simpl in H.
    + by simplify_eq.
    + inv_bind H. by simplify_eq.
    + inv_bind H. simplify_eq. by eapply am_ticked_set.
  - intros [e | e | e] now buffer size now_us n buf e' _ Ht _ H; simpl in H; inv_bind H; destruct a as [[n1 b1] e1]; simplify_eq; try done.
    simpl in *. by eapply am_ticked_generate.
  - intros [e | e | e] now Ht; try done. by apply ticked_iff.
Defined.
