(* ===== verification/MacPdu.v ===== *)
(** * NR MAC: subheaders

    openair2/LAYER2/NR_MAC_COMMON/nr_mac.h: the logical channel identities, the three forms of
    MAC subheader, [get_mac_len]; writing octets at a position of a buffer; the octets of a
    sequence of subPDUs and what the decoder makes of them. *)

From S2P Require Import Prelude.

(** ** Octets *)

Definition octet (b : Z) : Prop := 0 <= b < 256.
Abbreviation octets := (Forall octet).

(** Writes the octets [l] at [pos]; returns the position after them. *)
Definition put_octets (buf : bytes) (pos : Z) (l : bytes) : res (bytes * Z) :=
  buf ← memcpy buf pos l 0 (zlen l); Ok (buf, pos + zlen l).

(** ** Logical channel identities *)

Definition DL_SCH_LCID_CCCH : Z := 0.
Definition DL_SCH_LCID_RECOMMENDED_BITRATE : Z := 47.
Definition DL_SCH_LCID_SP_ZP_CSI_RS_RES_SET_ACT : Z := 48.
Definition DL_SCH_LCID_PUCCH_SPATIAL_RELATION_ACT : Z := 49.
Definition DL_SCH_LCID_SP_SRS_ACTIVATION : Z := 50.
Definition DL_SCH_LCID_SP_CSI_REP_PUCCH_ACT : Z := 51.
Definition DL_SCH_LCID_TCI_STATE_IND_UE_SPEC_PDCCH : Z := 52.
Definition DL_SCH_LCID_TCI_STATE_ACT_UE_SPEC_PDSCH : Z := 53.
Definition DL_SCH_LCID_APERIODIC_CSI_TRI_STATE_SUBSEL : Z := 54.
Definition DL_SCH_LCID_SP_CSI_RS_CSI_IM_RES_SET_ACT : Z := 55.
Definition DL_SCH_LCID_DUPLICATION_ACT : Z := 56.
Definition DL_SCH_LCID_SCell_ACT_4_OCT : Z := 57.
Definition DL_SCH_LCID_SCell_ACT_1_OCT : Z := 58.
Definition DL_SCH_LCID_L_DRX : Z := 59.
Definition DL_SCH_LCID_DRX : Z := 60.
Definition DL_SCH_LCID_TA_COMMAND : Z := 61.
Definition DL_SCH_LCID_CON_RES_ID : Z := 62.
Definition DL_SCH_LCID_PADDING : Z := 63.

Definition UL_SCH_LCID_CCCH_64_BITS : Z := 0.
Definition UL_SCH_LCID_SRB1 : Z := 1.
Definition UL_SCH_LCID_SRB2 : Z := 2.
Definition UL_SCH_LCID_DTCH : Z := 4.
Definition UL_SCH_LCID_CCCH_48_BITS_REDCAP : Z := 35.
Definition UL_SCH_LCID_CCCH_48_BITS : Z := 52.
Definition UL_SCH_LCID_RECOMMENDED_BITRATE_QUERY : Z := 53.
Definition UL_SCH_LCID_MULTI_ENTRY_PHR_4_OCT : Z := 54.
Definition UL_SCH_LCID_CONFIGURED_GRANT_CONFIRMATION : Z := 55.
Definition UL_SCH_LCID_MULTI_ENTRY_PHR_1_OCT : Z := 56.
Definition UL_SCH_LCID_SINGLE_ENTRY_PHR : Z := 57.
Definition UL_SCH_LCID_C_RNTI : Z := 58.
Definition UL_SCH_LCID_S_TRUNCATED_BSR : Z := 59.
Definition UL_SCH_LCID_L_TRUNCATED_BSR : Z := 60.
Definition UL_SCH_LCID_S_BSR : Z := 61.
Definition UL_SCH_LCID_L_BSR : Z := 62.
Definition UL_SCH_LCID_PADDING : Z := 63.

Definition MAX_NUM_DATA_REQ : Z := 1024.
Definition MAX_NUM_DATA_IND : Z := 1024.

(** [autounfold with lcid] gives the numbers. *)
Create HintDb lcid.
#[export] Hint Unfold
  DL_SCH_LCID_CCCH DL_SCH_LCID_RECOMMENDED_BITRATE DL_SCH_LCID_SP_ZP_CSI_RS_RES_SET_ACT DL_SCH_LCID_PUCCH_SPATIAL_RELATION_ACT
  DL_SCH_LCID_SP_SRS_ACTIVATION DL_SCH_LCID_SP_CSI_REP_PUCCH_ACT DL_SCH_LCID_TCI_STATE_IND_UE_SPEC_PDCCH DL_SCH_LCID_TCI_STATE_ACT_UE_SPEC_PDSCH
  DL_SCH_LCID_APERIODIC_CSI_TRI_STATE_SUBSEL DL_SCH_LCID_SP_CSI_RS_CSI_IM_RES_SET_ACT DL_SCH_LCID_DUPLICATION_ACT DL_SCH_LCID_SCell_ACT_4_OCT
  DL_SCH_LCID_SCell_ACT_1_OCT DL_SCH_LCID_L_DRX DL_SCH_LCID_DRX DL_SCH_LCID_TA_COMMAND
  DL_SCH_LCID_CON_RES_ID DL_SCH_LCID_PADDING UL_SCH_LCID_CCCH_64_BITS UL_SCH_LCID_SRB1
  UL_SCH_LCID_SRB2 UL_SCH_LCID_DTCH UL_SCH_LCID_CCCH_48_BITS_REDCAP UL_SCH_LCID_CCCH_48_BITS
  UL_SCH_LCID_RECOMMENDED_BITRATE_QUERY UL_SCH_LCID_MULTI_ENTRY_PHR_4_OCT UL_SCH_LCID_CONFIGURED_GRANT_CONFIRMATION UL_SCH_LCID_MULTI_ENTRY_PHR_1_OCT
  UL_SCH_LCID_SINGLE_ENTRY_PHR UL_SCH_LCID_C_RNTI UL_SCH_LCID_S_TRUNCATED_BSR UL_SCH_LCID_L_TRUNCATED_BSR
  UL_SCH_LCID_S_BSR UL_SCH_LCID_L_BSR UL_SCH_LCID_PADDING MAX_NUM_DATA_REQ
  MAX_NUM_DATA_IND : lcid.

(** ** Subheaders

    The octets of a subheader whose bit-fields are all assigned. *)
Definition NR_MAC_SUBHEADER_FIXED (LCID : Z) : bytes := [LCID mod 64].
Definition NR_MAC_SUBHEADER_SHORT (LCID L : Z) : bytes := [LCID mod 64; L mod 256].
Definition NR_MAC_SUBHEADER_LONG (LCID L : Z) : bytes :=
  [64 + LCID mod 64; (L mod 65536) / 256; L mod 256].

(** The LCID and F fields of a first octet. *)
Definition sub_lcid (b : Z) : Z := Z.land b 63.
Definition sub_F (b : Z) : bool := Z.testbit b 6.

(** [get_mac_len] on the [pdu_len] octets at [pos]; the last two arguments are the values of
    its output parameters at the call.  Returns the C result and the output parameters. *)
Definition get_mac_len (mem : bytes) (pos pdu_len mac_ce_len mac_subheader_len : Z) : res (bool * Z * Z) :=
  if pdu_len <? 2 then Ok (false, mac_ce_len, mac_subheader_len)
  else
    b0 ← deref (znth mem pos);
    if sub_F b0 && (pdu_len <? 3) then Ok (false, mac_ce_len, mac_subheader_len)
    else
      '(len, hdr) ← (if sub_F b0 then
                       h ← deref (znth mem (pos + 1)); l ← deref (znth mem (pos + 2)); Ok (256 * h + l, 3)
                     else l ← deref (znth mem (pos + 1)); Ok (l, 2));
      Ok (negb (pdu_len <? len), len, hdr).

(** Whether the [n] octets at [pos] are all 0: reads up to the first that is not. *)
Fixpoint all_zero (mem : bytes) (pos : Z) (n : nat) : res bool :=
  match n with
  | O => Ok true
  | S n => b ← deref (znth mem pos); if b =? 0 then all_zero mem (pos + 1) n else Ok false
  end.

(** ** A segment in the middle of a buffer *)

Section middle.
Context {A : Type}.
Implicit Types pre l post : list A.

Lemma znth_mid pre l post i : 0 <= i < zlen l → znth (pre ++ l ++ post) (zlen pre + i) = znth l i.
Proof.
  intros Hi. unfold znth, zlen in *. decide_false (Z.of_nat (length pre) + i <? 0). decide_false (i <? 0).
  rewrite lookup_app_r by lia. rewrite lookup_app_l by lia. f_equal. lia.
Qed.

Lemma znth_head pre x l post : znth (pre ++ (x :: l) ++ post) (zlen pre) = Some x.
Proof.
  replace (zlen pre) with (zlen pre + 0) by lia. rewrite znth_mid; [done |].
  rewrite zlen_cons. pose proof (zlen_nonneg l). lia.
Qed.

Lemma slice_mid pre l post : slice (pre ++ l ++ post) (zlen pre) (zlen l) = Some l.
Proof.
  pose proof (zlen_nonneg pre). pose proof (zlen_nonneg l). pose proof (zlen_nonneg post).
  rewrite slice_Some by (rewrite ?zlen_app; lia). f_equal. unfold zlen. rewrite !Nat2Z.id.
  by rewrite drop_app_length, take_app_length.
Qed.
End middle.

Lemma put_octets_mid (pre old post l : bytes) :
  zlen old = zlen l → put_octets (pre ++ old ++ post) (zlen pre) l = Ok (pre ++ l ++ post, zlen pre + zlen l).
Proof.
  intros Hl. pose proof (zlen_nonneg pre). pose proof (zlen_nonneg l). pose proof (zlen_nonneg post).
  unfold put_octets. rewrite memcpy_Ok; rewrite ?zlen_app; try lia. cbn [mbind res_bind].
  unfold zlen in *. rewrite !Nat2Z.id, take_app_length. change (Z.to_nat 0) with O. rewrite drop_0, firstn_all.
  replace (Z.to_nat _) with (length pre + length old)%nat by lia.
  by rewrite <- drop_drop, drop_app_length, drop_app_length.
Qed.

(** A buffer is what is before [pos], then [n] elements, then the rest. *)
Lemma split_mid {A} (l : list A) pos n : 0 <= pos → 0 <= n → pos + n <= zlen l →
  ∃ pre old post, l = pre ++ old ++ post ∧ zlen pre = pos ∧ zlen old = n.
Proof.
  intros H1 H2 H3. exists (take (Z.to_nat pos) l), (take (Z.to_nat n) (drop (Z.to_nat pos) l)),
    (drop (Z.to_nat n) (drop (Z.to_nat pos) l)).
  rewrite !take_drop. unfold zlen in *. rewrite !length_take, length_drop. split_and!; [done | lia | lia].
Qed.

Lemma split_front {A} (l : list A) n : 0 <= n <= zlen l → ∃ old post, l = old ++ post ∧ zlen old = n.
Proof.
  intros Hn. exists (take (Z.to_nat n) l), (drop (Z.to_nat n) l). rewrite take_drop. split; [done |].
  unfold zlen in *. rewrite length_take. lia.
Qed.

(** ** Reading a subheader *)

Lemma sub_lcid_mod b : sub_lcid b = b mod 64.
Proof. apply (Z.land_ones b 6). lia. Qed.

Lemma fixed_lcid b : 0 <= b < 64 → sub_lcid b = b ∧ sub_F b = false.
Proof.
  intros Hb. rewrite sub_lcid_mod, Z.mod_small by lia. split; [done |]. by apply (bits_high b 6 6).
Qed.

Lemma long_lcid b : 0 <= b < 64 → sub_lcid (64 + b) = b ∧ sub_F (64 + b) = true.
Proof.
  intros Hb. rewrite sub_lcid_mod. split; [zdiv_lia |]. apply Z.testbit_true; [lia |].
  change (2 ^ 6) with 64. zdiv_lia.
Qed.

Lemma long_length n : 0 <= n <= 65535 → 256 * ((n mod 65536) / 256) + n mod 256 = n.
Proof. intros. rewrite (Z.mod_small n 65536) by lia. zdiv_lia. Qed.

Lemma znth_long pre post lcid n : 0 <= lcid < 64 →
  znth (pre ++ NR_MAC_SUBHEADER_LONG lcid n ++ post) (zlen pre) = Some (64 + lcid).
Proof. intros. unfold NR_MAC_SUBHEADER_LONG. by rewrite znth_head, Z.mod_small. Qed.

Lemma get_mac_len_long pre post lcid n pdu_len len0 hdr0 :
  0 <= lcid < 64 → 0 <= n <= 65535 → n + 3 <= pdu_len →
  get_mac_len (pre ++ NR_MAC_SUBHEADER_LONG lcid n ++ post) (zlen pre) pdu_len len0 hdr0 = Ok (true, n, 3).
Proof.
  intros Hl Hn Hlen. unfold get_mac_len. decide_false (pdu_len <? 2).
  unfold NR_MAC_SUBHEADER_LONG. rewrite znth_head. cbn [deref mbind res_bind].
  rewrite Z.mod_small by lia. destruct (long_lcid lcid Hl) as [_ ->]. decide_false (pdu_len <? 3).
  rewrite !znth_mid by (unfold zlen; simpl; lia).
  change (znth _ 1) with (Some ((n mod 65536) / 256)). change (znth _ 2) with (Some (n mod 256)). cbn [deref mbind res_bind andb]. rewrite long_length by done. by decide_false (pdu_len <? n).
Qed.

Lemma get_mac_len_short pre post lcid n pdu_len len0 hdr0 :
  0 <= lcid < 64 → 0 <= n < 256 → n + 2 <= pdu_len →
  get_mac_len (pre ++ NR_MAC_SUBHEADER_SHORT lcid n ++ post) (zlen pre) pdu_len len0 hdr0 = Ok (true, n, 2).
Proof.
  intros Hl Hn Hlen. unfold get_mac_len. decide_false (pdu_len <? 2).
  unfold NR_MAC_SUBHEADER_SHORT. rewrite znth_head. cbn [deref mbind res_bind].
  rewrite !Z.mod_small by lia. destruct (fixed_lcid lcid Hl) as [_ ->].
  rewrite znth_mid by (unfold zlen; simpl; lia). change (znth (lcid :: [n]) 1) with (Some n).
  cbn [deref mbind res_bind andb]. by decide_false (pdu_len <? n).
Qed.
