(* ===== verification/MacDl.v ===== *)
(** * gNB MAC: the downlink MAC PDU

    openair2/LAYER2/NR_MAC_gNB/gNB_scheduler_dlsch.c: the control elements
    ([nr_write_ce_dlsch_pdu]) and the MAC PDU of a transmission ([generate_dl_mac_pdu]), with
    [allocate_transportBlock_buffer] of gNB_scheduler_primitives.c.  What RLC returns comes from
    the interface [RlcEntity]. *)

From S2P Require Import Prelude RlcEntity RlcApi MacPdu.

(** ** Control elements to send *)

Record sp_zp_csirs_t := mk_zp {
  zp_is_scheduled : bool;
  zp_act_deact : bool;
  zp_serv_cell_id : Z;
  zp_bwpid : Z;
  zp_rsc_id : Z
}.

Record csi_rs_im_t := mk_im {
  im_is_scheduled : bool;
  im_act_deact : bool;
  im_serv_cellid : Z;
  im_bwp_id : Z;
  im_im : bool;
  im_csi_im_rsc_id : Z;
  im_nzp_csi_rsc_id : Z;
  im_nb_tci_resource_set_id : Z;
  im_tci_state_id : list Z
}.

Record tciStateInd_t := mk_tci {
  tci_is_scheduled : bool;
  tci_coresetId : Z;
  tci_tciStateId : Z
}.

Record SPCSIReportingpucch_t := mk_spc {
  spc_is_scheduled : bool;
  spc_servingCellId : Z;
  spc_bwpId : Z;
  spc_s0tos3_actDeact : list bool
}.

(** [aperiodicCSI_triggerStateSelection_t] and [pdschTciStatesActDeact_t] have the same fields. *)
Record tci_states_t := mk_states {
  ts_is_scheduled : bool;
  ts_servingCellId : Z;
  ts_bwpId : Z;
  ts_highest : Z;
  ts_selection : list bool
}.

Record NR_UE_mac_ce_ctrl_t := mk_ce {
  sp_zp_csi_rs : sp_zp_csirs_t;
  csi_im : csi_rs_im_t;
  tci_state_ind : tciStateInd_t;
  SP_CSI_reporting_pucch : SPCSIReportingpucch_t;
  aperi_CSI_trigger : tci_states_t;
  pdsch_TCI_States_ActDeact : tci_states_t
}.

(** [nr_lc_config_t]: the fields the MAC PDU depends on. *)
Record nr_lc_config_t := mk_lc { lc_lcid : Z; lc_suspended : bool }.

(** [NR_UE_sched_ctrl_t]: the fields the MAC PDU depends on. *)
Record dl_sched_ctrl_t := mk_dlctrl {
  lc_config : list nr_lc_config_t;
  num_total_bytes : Z;
  ta_frame : Z;
  ta_update : Z;
  ta_apply : bool;
  UE_mac_ce_ctrl : NR_UE_mac_ce_ctrl_t
}.

#[export] Instance eta_tci : Settable tciStateInd_t :=
  λ t, mk_tci (tci_is_scheduled t) (tci_coresetId t) (tci_tciStateId t).
#[export] Instance eta_ce : Settable NR_UE_mac_ce_ctrl_t :=
  λ c, mk_ce (sp_zp_csi_rs c) (csi_im c) (tci_state_ind c) (SP_CSI_reporting_pucch c) (aperi_CSI_trigger c)
         (pdsch_TCI_States_ActDeact c).
#[export] Instance eta_dlctrl : Settable dl_sched_ctrl_t :=
  λ s, mk_dlctrl (lc_config s) (num_total_bytes s) (ta_frame s) (ta_update s) (ta_apply s) (UE_mac_ce_ctrl s).

(** ** Their octets *)

(** [NR_MAC_CE_TA]. *)
Definition ta_ce (timing_advance_cmd tag_id : Z) : res bytes :=
  _ ← assert_that (timing_advance_cmd <? 64);
  Ok (NR_MAC_SUBHEADER_FIXED DL_SCH_LCID_TA_COMMAND ++ [timing_advance_cmd mod 64 + 64 * (tag_id mod 4)]).

Definition con_res_ce (ue_cont_res_id : bytes) : res bytes :=
  id ← deref (slice ue_cont_res_id 0 6); Ok (NR_MAC_SUBHEADER_FIXED DL_SCH_LCID_CON_RES_ID ++ id).

(** [NR_TCI_PDCCH]. *)
Definition tci_ind_ce (t : tciStateInd_t) : bytes :=
  NR_MAC_SUBHEADER_FIXED DL_SCH_LCID_TCI_STATE_IND_UE_SPEC_PDCCH ++
  [Z.shiftr (Z.land (tci_coresetId t) 15) 1; Z.land (tci_tciStateId t) 127 + 128 * Z.land (tci_coresetId t) 1].

(** [NR_PUCCH_CSI_REPORTING]; its bit R1, in the stack frame, is never assigned: [r1]. *)
Definition sp_csi_ce (r1 : bool) (c : SPCSIReportingpucch_t) : res bytes :=
  s0 ← deref (znth (spc_s0tos3_actDeact c) 0);
  s1 ← deref (znth (spc_s0tos3_actDeact c) 1);
  s2 ← deref (znth (spc_s0tos3_actDeact c) 2);
  s3 ← deref (znth (spc_s0tos3_actDeact c) 3);
  Ok (NR_MAC_SUBHEADER_FIXED DL_SCH_LCID_SP_CSI_REP_PUCCH_ACT ++
      [Z.land (spc_bwpId c) 3 + 4 * Z.land (spc_servingCellId c) 31 + 128 * b2z r1;
       b2z s0 + 2 * b2z s1 + 4 * b2z s2 + 8 * b2z s3]).

(** One turn of the loop that sets the bits of T. *)
Definition set_state_bit (act : list bool) (T : bytes) (i : Z) : res bytes :=
  b ← deref (znth act i);
  if (b : bool) then x ← deref (znth T (i / 8)); zset T (i / 8) (Z.lor x (Z.shiftl 1 (i mod 8))) else Ok T.

Fixpoint set_state_bits (act : list bool) (T : bytes) (js : list Z) : res bytes :=
  match js with [] => Ok T | i :: js => T ← set_state_bit act T i; set_state_bits act T js end.

(** [NR_TCI_PDSCH_APERIODIC_CSI], used by two control elements. *)
Definition states_ce (lcid : Z) (t : tci_states_t) : res bytes :=
  let num_octects := ts_highest t / 8 + 1 in
  T ← set_state_bits (ts_selection t) (replicate (Z.to_nat num_octects) 0) (seqZ 0 (num_octects * 8));
  Ok (NR_MAC_SUBHEADER_SHORT lcid (1 + num_octects) ++
      (Z.land (ts_bwpId t) 3 + 4 * Z.land (ts_servingCellId t) 31) :: T).

(** [NR_MAC_CE_SP_ZP_CSI_RS_RES_SET]. *)
Definition zp_ce (c : sp_zp_csirs_t) : bytes :=
  NR_MAC_SUBHEADER_FIXED DL_SCH_LCID_SP_ZP_CSI_RS_RES_SET_ACT ++
  [Z.land (zp_bwpid c) 3 + 4 * Z.land (zp_serv_cell_id c) 31 + 128 * b2z (zp_act_deact c); Z.land (zp_rsc_id c) 15].

(** [CSI_RS_CSI_IM_ACT_DEACT_MAC_CE]: SCID has 5 bits, TCI_STATE_ID 6. *)
Definition csi_im_ce (c : csi_rs_im_t) : res bytes :=
  tci ← (if im_act_deact c then deref (slice (im_tci_state_id c) 0 (im_nb_tci_resource_set_id c)) else Ok []);
  Ok (NR_MAC_SUBHEADER_FIXED DL_SCH_LCID_SP_CSI_RS_CSI_IM_RES_SET_ACT ++
      [im_bwp_id c mod 4 + 4 * (Z.land (im_serv_cellid c) 63 mod 32) + 128 * b2z (im_act_deact c);
       im_nzp_csi_rsc_id c mod 64 + 64 * b2z (im_im c)] ++
      (if im_im c then [im_csi_im_rsc_id c mod 64] else []) ++ map (λ x, Z.land x 127 mod 64) tci).

(** [if (scheduled) { ... write ce, advance ... }]. *)
Definition put_ce (scheduled : bool) (ce : res bytes) (st : bytes * Z) : res (bytes * Z) :=
  if scheduled then l ← ce; put_octets st.1 st.2 l else Ok st.

(** Returns the buffer and the number of octets written. *)
Definition nr_write_ce_dlsch_pdu (tag_id : Z) (r1 : bool) (s : dl_sched_ctrl_t) (mac_pdu : bytes) (drx_cmd : Z)
    (ue_cont_res_id : option bytes) : res (bytes * Z) :=
  let c := UE_mac_ce_ctrl s in
  st ← put_ce (negb (drx_cmd =? 255)) (Ok (NR_MAC_SUBHEADER_FIXED DL_SCH_LCID_DRX)) (mac_pdu, 0);
  st ← put_ce (ta_apply s) (ta_ce (ta_update s) tag_id) st;
  st ← match ue_cont_res_id with Some id => put_ce true (con_res_ce id) st | None => Ok st end;
  st ← put_ce (tci_is_scheduled (tci_state_ind c)) (Ok (tci_ind_ce (tci_state_ind c))) st;
  st ← put_ce (spc_is_scheduled (SP_CSI_reporting_pucch c)) (sp_csi_ce r1 (SP_CSI_reporting_pucch c)) st;
  st ← put_ce (ts_is_scheduled (pdsch_TCI_States_ActDeact c))
         (states_ce DL_SCH_LCID_TCI_STATE_ACT_UE_SPEC_PDSCH (pdsch_TCI_States_ActDeact c)) st;
  st ← put_ce (ts_is_scheduled (aperi_CSI_trigger c))
         (states_ce DL_SCH_LCID_APERIODIC_CSI_TRI_STATE_SUBSEL (aperi_CSI_trigger c)) st;
  st ← put_ce (zp_is_scheduled (sp_zp_csi_rs c)) (Ok (zp_ce (sp_zp_csi_rs c))) st;
  put_ce (im_is_scheduled (csi_im c)) (csi_im_ce (csi_im c)) st.

(** ** The transport block of a HARQ process *)

Definition TB_SINGLE_LAYER : Z := 32 * 1024.

Fixpoint tb_alloc_size (fuel : nat) (needed size : Z) : res Z :=
  match fuel with
  | O => NoFuel
  | S fuel => if size <? needed then tb_alloc_size fuel needed (u32 (size * 2)) else Ok size
  end.

(** [malloc n] are the octets of newly allocated memory. *)
Definition allocate_transportBlock_buffer (malloc : Z → bytes) (tb : option bytes) (needed : Z) : res bytes :=
  _ ← assert_that (0 <? needed);
  match tb with
  | Some b => if needed <=? zlen b then Ok b else size ← tb_alloc_size 32 needed TB_SINGLE_LAYER; Ok (malloc size)
  | None => size ← tb_alloc_size 32 needed TB_SINGLE_LAYER; Ok (malloc size)
  end.

(** [NR_mac_dir_stats_t]: the counters of the downlink. *)
Record NR_mac_dir_stats_t := mk_stats {
  lc_bytes : list Z;
  total_bytes : Z;
  current_bytes : Z;
  total_sdu_bytes : Z;
  total_rbs : Z;
  total_rbs_retx : Z;
  num_mac_sdu : Z;
  current_rbs : Z
}.
#[export] Instance eta_stats : Settable NR_mac_dir_stats_t :=
  λ s, mk_stats (lc_bytes s) (total_bytes s) (current_bytes s) (total_sdu_bytes s) (total_rbs s) (total_rbs_retx s)
         (num_mac_sdu s) (current_rbs s).

(** The HARQ process and the UE: what [generate_dl_mac_pdu] reads and writes of them. *)
Record dl_harq_t := mk_dlharq {
  hq_round : Z;
  hq_start_tci_timer : bool;
  hq_transportBlock : option bytes;
  hq_tb_size : Z
}.
#[export] Instance eta_dlharq : Settable dl_harq_t :=
  λ h, mk_dlharq (hq_round h) (hq_start_tci_timer h) (hq_transportBlock h) (hq_tb_size h).

Record dl_ue_t (E : Type) := mk_dlue {
  dl_ctrl : dl_sched_ctrl_t;
  dl_stats : NR_mac_dir_stats_t;
  dl_used_prb_aggregate : Z;
  dl_rlc : nr_rlc_ue_t E
}.
Arguments mk_dlue {E} _ _ _ _.
Arguments dl_ctrl {E} _.
Arguments dl_stats {E} _.
Arguments dl_used_prb_aggregate {E} _.
Arguments dl_rlc {E} _.
#[export] Instance eta_dlue {E} : Settable (dl_ue_t E) :=
  λ u, mk_dlue (dl_ctrl u) (dl_stats u) (dl_used_prb_aggregate u) (dl_rlc u).

(** ** The MAC PDU *)

Definition MAX_FRAME_NUMBER : Z := 1024.

(** What the function takes from the rest of the gNB: the mode flag [phy_test || do_ra], the flag
    [phy_test], the TAG, the LCID allocation policy ([mac->dl_lcid_alloc]), the two clocks of
    RLC, random octets ([lrand48]), new memory, and the bit of the stack frame of [sp_csi_ce]. *)
Record dl_env := mk_dlenv {
  ev_phy_test : bool;
  ev_do_ra : bool;
  ev_tag_id : Z;
  ev_dl_lcid_alloc : Z → list Z;
  ev_now : Z;
  ev_now_us : Z;
  ev_random : nat → Z;
  ev_malloc : Z → bytes;
  ev_stack_bit : bool
}.

Section gnb.
Context {E : Type} `{RlcEntity E}.

(** The subheaders of the [sizes] PDUs that RLC wrote from [pos] on. *)
Fixpoint put_long_headers (lcid : Z) (sizes : list Z) (buf : bytes) (pos : Z) : res (bytes * Z) :=
  match sizes with
  | [] => Ok (buf, pos)
  | n :: sizes =>
      '(buf, _) ← put_octets buf pos (NR_MAC_SUBHEADER_LONG lcid n);
      put_long_headers lcid sizes buf (pos + (n + 3))
  end.

Definition zsum (l : list Z) : Z := foldr Z.add 0 l.

(** The state of the loop over the logical channels: buffer, [buf - harq buffer], RLC, the counter
    of octets per channel, [sdus], [dlsch_total_bytes]. *)
Record lc_loop_t := mk_lcloop {
  ll_buf : bytes;
  ll_pos : Z;
  ll_rlc : nr_rlc_ue_t E;
  ll_lc_bytes : list Z;
  ll_sdus : Z;
  ll_total : Z
}.

Definition dl_logical_channel (ev : dl_env) (lcid_alloc : list Z) (bufEnd lcid : Z) (st : lc_loop_t) : res lc_loop_t :=
  a ← deref (znth lcid_alloc lcid);
  if a =? 0 then Ok st
  else
    '(sizes, buf, rlc) ← nr_mac_rlc_multi_data_req (ev_now ev) (ev_now_us ev) (ll_rlc st) lcid (bufEnd - ll_pos st)
                           (ll_buf st) (ll_pos st) MAX_NUM_DATA_REQ;
    _ ← assert_that (zlen sizes <=? MAX_NUM_DATA_REQ);
    '(buf, pos) ← put_long_headers lcid sizes buf (ll_pos st);
    n ← deref (znth (ll_lc_bytes st) lcid);
    counters ← zset (ll_lc_bytes st) lcid (u64 (n + zsum sizes));
    Ok (mk_lcloop buf pos rlc counters (ll_sdus st + zlen sizes) (ll_total st + zsum sizes)).

Fixpoint dl_logical_channels (ev : dl_env) (lcid_alloc : list Z) (bufEnd : Z) (cs : list nr_lc_config_t)
    (st : lc_loop_t) : res lc_loop_t :=
  match cs with
  | [] => Ok st
  | c :: cs => st ← dl_logical_channel ev lcid_alloc bufEnd (lc_lcid c) st; dl_logical_channels ev lcid_alloc bufEnd cs st
  end.

(** Data for tests: a padding subheader with a length, and random octets. *)
Definition dl_random_data (ev : dl_env) (bufEnd : Z) (st : lc_loop_t) : res lc_loop_t :=
  if 3 <? bufEnd - ll_pos st then
    let n := bufEnd - ll_pos st - 3 in
    '(buf, pos) ← put_octets (ll_buf st) (ll_pos st) (NR_MAC_SUBHEADER_LONG DL_SCH_LCID_PADDING n);
    '(buf, pos) ← put_octets buf pos (map (λ i, u8 (ev_random ev i)) (seq 0 (Z.to_nat n)));
    Ok (mk_lcloop buf pos (ll_rlc st) (ll_lc_bytes st) (ll_sdus st + 1) (ll_total st))
  else Ok st.

Definition dl_padding (buf : bytes) (pos bufEnd : Z) : res bytes :=
  if 0 <? bufEnd - pos then
    '(buf, pos) ← put_octets buf pos (NR_MAC_SUBHEADER_FIXED DL_SCH_LCID_PADDING);
    '(buf, _) ← put_octets buf pos (replicate (Z.to_nat (bufEnd - pos)) 0);
    Ok buf
  else Ok buf.

Definition generate_dl_mac_pdu (ev : dl_env) (frame rbSize TBS : Z) (ue : dl_ue_t E) (harq : dl_harq_t)
    : res (dl_ue_t E * dl_harq_t) :=
  let s := dl_ctrl ue in
  let stats := dl_stats ue in
  if negb (hq_round harq =? 0) then
    _ ← assert_that (ev_phy_test ev || (hq_tb_size harq =? TBS));
    Ok (ue <| dl_stats ::= λ x, x <| total_rbs_retx := u32 (total_rbs_retx x + rbSize) |> |>
           <| dl_used_prb_aggregate ::= λ n, u64 (n + rbSize) |>, harq)
  else
    let harq := harq <| hq_start_tci_timer := tci_is_scheduled (tci_state_ind (UE_mac_ce_ctrl s)) |> in
    tb ← allocate_transportBlock_buffer (ev_malloc ev) (hq_transportBlock harq) TBS;
    '(buf, written) ← nr_write_ce_dlsch_pdu (ev_tag_id ev) (ev_stack_bit ev) s tb 255 None;
    _ ← assert_that (written <? TBS);
    let st := mk_lcloop buf written (dl_rlc ue) (lc_bytes stats) 0 0 in
    st ← (if 0 <? num_total_bytes s then
            dl_logical_channels ev (ev_dl_lcid_alloc ev (TBS - written)) TBS (lc_config s) st
          else if ev_phy_test ev || ev_do_ra ev then dl_random_data ev TBS st
          else Ok st);
    buf ← dl_padding (ll_buf st) (ll_pos st) TBS;
    let stats := mk_stats (ll_lc_bytes st) (u64 (total_bytes stats + TBS)) (u32 TBS)
                   (u64 (total_sdu_bytes stats + ll_total st)) (u32 (total_rbs stats + rbSize))
                   (total_rbs_retx stats) (u32 (num_mac_sdu stats + ll_sdus st)) (u32 rbSize) in
    let s := s <| UE_mac_ce_ctrl ::= λ c, c <| tci_state_ind ::= λ t, t <| tci_is_scheduled := false |> |> |> in
    let s := if ta_apply s then s <| ta_apply := false |> <| ta_update := 31 |>
                                  <| ta_frame := Z.rem (frame + 100) MAX_FRAME_NUMBER |> else s in
    Ok (mk_dlue s stats (u64 (dl_used_prb_aggregate ue + rbSize)) (ll_rlc st),
        harq <| hq_transportBlock := Some buf |> <| hq_tb_size := TBS |>).
End gnb.
Arguments lc_loop_t : clear implicits.
