(* ===== verification/MacUeRx.v ===== *)
(** * UE MAC: reception of a downlink MAC PDU

    openair2/LAYER2/NR_MAC_UE/nr_ue_procedures.c: [nr_ue_process_mac_pdu] and what it calls
    (contention resolution, the successRAR of two-step random access, timing advance), with
    [nr_ra_succeeded] and [nr_ra_contention_resolution_failed] of nr_ra_procedures.c.  The octets
    that can be read at the PDU are [mem]; reading after them is undefined behaviour.

    Then: downlink MAC PDU: what the UE makes of well-formed subPDUs.
    The subPDUs of a downlink MAC PDU as data ([dl_sub]), their octets, and the proof that the
    UE's parser takes them apart: it acts on timing advance commands, skips the other control
    elements and hands every SDU, unchanged and in order, to RLC. *)

From S2P Require Import Prelude RlcEntity RlcApi MacPdu.

(** ** State *)

Inductive nrRA_UE_state_t :=
| nrRA_UE_IDLE
| nrRA_GENERATE_PREAMBLE
| nrRA_WAIT_RAR
| nrRA_WAIT_MSGB
| nrRA_WAIT_CONTENTION_RESOLUTION
| nrRA_SUCCEEDED
| nrRA_FAILED.
#[export] Instance nrRA_UE_state_eq_dec : EqDecision nrRA_UE_state_t.
Proof. solve_decision. Defined.

Inductive ta_type_t := no_ta | adjustment_ta | rar_ta.

Record NR_UL_TIME_ALIGNMENT_t := mk_ta {
  al_ta_apply : ta_type_t;
  al_ta_command : Z;
  al_frame : Z;
  al_slot : Z
}.

(** Timers started and stopped, and indications to RRC. *)
Inductive ue_event :=
| StartTimeAlignmentTimer
| StopContentionResolutionTimer
| StopResponseWindowTimer
| StartBackoffTimer
| nr_mac_rrc_ra_ind (success : bool)
| nr_mac_rrc_msg3_ind (prepare : bool).

(** [RA_config_t]: the fields used here. *)
Record RA_config_t := mk_ra {
  ra_state : nrRA_UE_state_t;
  ra_cfra : bool;
  ra_2_step : bool;
  RA_active : bool;
  t_crnti : Z;
  cont_res_id : bytes;
  rach_ConfigDedicated : bool;
  Msg3_buffer : bool;
  preamble_tx_counter : Z;
  preambleTransMax : Z;
  RA_backoff_limit : Z;
  scaling_factor_bi : Z;
  MsgB_CH_ACESS_CPEXT : Z;
  MsgB_TPC : Z;
  MsgB_HARQ_FTI : Z;
  PUCCH_RI : Z;
  timing_advance_command : Z
}.
#[export] Instance eta_ra : Settable RA_config_t :=
  λ r, mk_ra (ra_state r) (ra_cfra r) (ra_2_step r) (RA_active r) (t_crnti r) (cont_res_id r)
         (rach_ConfigDedicated r) (Msg3_buffer r) (preamble_tx_counter r) (preambleTransMax r) (RA_backoff_limit r)
         (scaling_factor_bi r) (MsgB_CH_ACESS_CPEXT r) (MsgB_TPC r) (MsgB_HARQ_FTI r) (PUCCH_RI r)
         (timing_advance_command r).

(** [nr_lcordered_info_t]: identity and suspension. *)
Record lc_info := mk_lcinfo { li_lcid : Z; li_rb_suspended : bool }.

(** [NR_UE_MAC_INST_t]: the fields used here.  [ue_connected]: [state == UE_CONNECTED]. *)
Record ue_mac_t := mk_uemac {
  um_ra : RA_config_t;
  tag_Id : Z;
  crnti : Z;
  msg3_C_RNTI : bool;
  ue_connected : bool;
  ul_time_alignment : NR_UL_TIME_ALIGNMENT_t;
  ntn_ue_koffset : Z;
  numb_slots_frame : Z;
  lc_ordered_list : list lc_info;
  um_events : list ue_event
}.
#[export] Instance eta_uemac : Settable ue_mac_t :=
  λ m, mk_uemac (um_ra m) (tag_Id m) (crnti m) (msg3_C_RNTI m) (ue_connected m) (ul_time_alignment m)
         (ntn_ue_koffset m) (numb_slots_frame m) (lc_ordered_list m) (um_events m).

Definition log_event (ev : ue_event) (m : ue_mac_t) : ue_mac_t := m <| um_events ::= λ l, l ++ [ev] |>.

(** ** What control elements do *)

Definition set_time_alignment (m : ue_mac_t) (ta : Z) (type : ta_type_t) (frame slot : Z) : ue_mac_t :=
  let k := slot + ntn_ue_koffset m in
  let n := numb_slots_frame m in
  log_event StartTimeAlignmentTimer
    (m <| ul_time_alignment := mk_ta type ta (Z.rem (frame + Z.quot k n) 1024) (Z.rem k n) |>).

Definition nr_ra_succeeded (m : ue_mac_t) : ue_mac_t :=
  let m := if ra_cfra (um_ra m) then m
           else log_event StopContentionResolutionTimer
                  (m <| crnti := t_crnti (um_ra m) |> <| um_ra ::= λ r, r <| t_crnti := 0 |> |>) in
  let m := m <| um_ra ::= λ r, r <| rach_ConfigDedicated := false |> <| RA_active := false |>
                                 <| ra_state := nrRA_SUCCEEDED |> <| Msg3_buffer := false |> |>
             <| msg3_C_RNTI := false |> <| ue_connected := true |> in
  log_event (nr_mac_rrc_ra_ind true) m.

Definition nr_ra_contention_resolution_failed (m : ue_mac_t) : ue_mac_t :=
  let m := m <| um_ra ::= λ r, r <| t_crnti := 0 |> <| Msg3_buffer := false |> |> in
  let m := if msg3_C_RNTI m then m else log_event (nr_mac_rrc_msg3_ind true) m in
  let m := m <| um_ra ::= λ r, r <| preamble_tx_counter := u8 (preamble_tx_counter r + 1) |> |> in
  if preamble_tx_counter (um_ra m) =? preambleTransMax (um_ra m) + 1 then log_event (nr_mac_rrc_ra_ind false) m
  else log_event StartBackoffTimer m.

(** Compares up to the first difference. *)
Fixpoint same_octets (n : nat) (pdu cont_res : bytes) (i : Z) : res bool :=
  match n with
  | O => Ok true
  | S n =>
      p ← deref (znth pdu i); c ← deref (znth cont_res i);
      if negb (p =? c) then Ok false else same_octets n pdu cont_res (i + 1)
  end.

(** [iq]: [IS_SOFTMODEM_IQPLAYER]. *)
Definition check_ra_contention_resolution (iq : bool) (pdu cont_res : bytes) : res bool :=
  if iq then Ok true else same_octets 6 pdu cont_res 0.

Fixpoint is_lcid_suspended (l : list lc_info) (lcid : Z) : bool :=
  match l with
  | [] => false
  | lc :: l => if li_lcid lc =? lcid then li_rb_suspended lc else is_lcid_suspended l lcid
  end.

(** ** The successRAR of two-step random access *)

Definition table_7_2_1 : list Z := [5; 10; 20; 30; 40; 60; 80; 120; 160; 240; 320; 480; 960; 1920; 0; 0].

(** The fields of a successRAR at [n]; returns the position after it. *)
Definition read_successrar (iq : bool) (mem : bytes) (n : Z) (m : ue_mac_t) : res (Z * ue_mac_t) :=
  id ← deref (slice mem n 6);
  b7 ← deref (znth mem (n + 6));
  b8 ← deref (znth mem (n + 7));
  b9 ← deref (znth mem (n + 8));
  b10 ← deref (znth mem (n + 9));
  b11 ← deref (znth mem (n + 10));
  let m := m <| um_ra ::= λ r, r
    <| MsgB_CH_ACESS_CPEXT := Z.land (Z.shiftr b7 5) 3 |> <| MsgB_TPC := Z.land (Z.shiftr b7 3) 3 |>
    <| MsgB_HARQ_FTI := Z.land b7 7 |> <| PUCCH_RI := Z.land (Z.shiftr b8 4) 15 |>
    <| timing_advance_command := Z.lor (Z.shiftl (Z.land b8 15) 8) b9 |>
    <| t_crnti := Z.lor (Z.shiftl b10 8) b11 |> |> in
  ra_success ← check_ra_contention_resolution iq id (cont_res_id (um_ra m));
  Ok (n + 11,
      if RA_active (um_ra m) && ra_success then nr_ra_succeeded (log_event StopResponseWindowTimer m)
      else if negb ra_success then log_event StartBackoffTimer m else m).

(** The loop over the subheaders, while [E]. *)
Fixpoint successrar_loop (fuel : nat) (iq : bool) (mem : bytes) (pdu_len n : Z) (E : bool) (m : ue_mac_t)
    : res (Z * ue_mac_t) :=
  if (n <? pdu_len) && E then
    match fuel with
    | O => NoFuel
    | S fuel =>
        b ← deref (znth mem n);
        let E := Z.testbit b 7 in
        if Z.testbit b 6 then Exit
        else if Z.testbit b 5 then
          '(n, m) ← read_successrar iq mem (n + 1) m;
          successrar_loop fuel iq mem pdu_len n E m
        else
          bi ← deref (znth table_7_2_1 (Z.land b 15));
          let limit := bi * scaling_factor_bi (um_ra m) * Z.quot (numb_slots_frame m) 10 in
          successrar_loop fuel iq mem pdu_len (n + 1) E (m <| um_ra ::= λ r, r <| RA_backoff_limit := limit |> |>)
    end
  else Ok (n, m).

(** The timing advance applied is read at octet 1 of the PDU. *)
Definition nr_ue_validate_successrar (iq : bool) (mem : bytes) (pdu_len : Z) (m : ue_mac_t) (frame slot : Z)
    : res (Z * ue_mac_t) :=
  let m := m <| um_ra ::= λ r, r <| RA_backoff_limit := 0 |> |> in
  '(n, m) ← successrar_loop (Z.to_nat pdu_len) iq mem pdu_len 0 true m;
  b ← deref (znth mem 1);
  Ok (n, set_time_alignment m (Z.land b 63) adjustment_ta frame slot).

(** ** The subPDUs *)

(** What one turn of the loop decided: the state, [mac_len], [mac_subheader_len], [done], the
    data indication it added, and whether the whole function returns. *)
Record ue_turn := mk_turn {
  tn_mac : ue_mac_t;
  tn_len : Z;
  tn_hdr : Z;
  tn_done : bool;
  tn_ind : list nr_rlc_data_ind_t;
  tn_return : bool
}.

(** The lengths of the control elements that are skipped. *)
Definition dl_skipped_len (lcid : Z) : option Z :=
  if lcid =? DL_SCH_LCID_RECOMMENDED_BITRATE then Some 2
  else if lcid =? DL_SCH_LCID_SP_ZP_CSI_RS_RES_SET_ACT then Some 2
  else if lcid =? DL_SCH_LCID_PUCCH_SPATIAL_RELATION_ACT then Some 3
  else if lcid =? DL_SCH_LCID_SP_CSI_REP_PUCCH_ACT then Some 2
  else if lcid =? DL_SCH_LCID_TCI_STATE_IND_UE_SPEC_PDCCH then Some 2
  else if lcid =? DL_SCH_LCID_DUPLICATION_ACT then Some 1
  else if lcid =? DL_SCH_LCID_SCell_ACT_4_OCT then Some 4
  else if lcid =? DL_SCH_LCID_SCell_ACT_1_OCT then Some 1
  else if lcid =? DL_SCH_LCID_L_DRX then Some 0
  else if lcid =? DL_SCH_LCID_DRX then Some 0
  else None.

Definition dl_variable_ce (lcid : Z) : bool :=
  (lcid =? DL_SCH_LCID_TCI_STATE_ACT_UE_SPEC_PDSCH) || (lcid =? DL_SCH_LCID_APERIODIC_CSI_TRI_STATE_SUBSEL)
  || (lcid =? DL_SCH_LCID_SP_CSI_RS_CSI_IM_RES_SET_ACT) || (lcid =? DL_SCH_LCID_SP_SRS_ACTIVATION).

Definition ue_ccch (mem : bytes) (pos pdu_len : Z) (m : ue_mac_t) : res ue_turn :=
  '(ret, mac_len, hdr) ← get_mac_len mem pos pdu_len 0 1;
  _ ← assert_that ret;
  z ← all_zero mem pos (Z.to_nat (hdr + mac_len));
  if (z : bool) then Ok (mk_turn m mac_len hdr true [] false)
  else Ok (mk_turn m mac_len hdr false (if 0 <? mac_len then [mk_ind DL_SCH_LCID_CCCH (pos + hdr) mac_len] else []) false).

Definition ue_ta_command (frame slot : Z) (mem : bytes) (pos : Z) (m : ue_mac_t) : res ue_turn :=
  b ← deref (znth mem (pos + 1));
  let ta := Z.land b 63 in
  let tag := Z.shiftr b 6 in
  if negb (tag =? tag_Id m) then Ok (mk_turn m 1 1 true [] false)
  else Ok (mk_turn (set_time_alignment m ta adjustment_ta frame slot) 1 1 false [] false).

Definition ue_con_res_id (iq : bool) (mem : bytes) (pos : Z) (m : ue_mac_t) : res ue_turn :=
  if bool_decide (ra_state (um_ra m) = nrRA_WAIT_CONTENTION_RESOLUTION) then
    let m := log_event StopContentionResolutionTimer m in
    ra_success ← check_ra_contention_resolution iq (drop (Z.to_nat (pos + 1)) mem) (cont_res_id (um_ra m));
    if RA_active (um_ra m) && ra_success then Ok (mk_turn (nr_ra_succeeded m) 6 1 false [] false)
    else if negb ra_success then Ok (mk_turn (nr_ra_contention_resolution_failed m) 6 1 false [] true)
    else Ok (mk_turn m 6 1 false [] false)
  else Ok (mk_turn m 6 1 false [] false).

Definition ue_sdu (mem : bytes) (pos pdu_len rx_lcid : Z) (m : ue_mac_t) : res ue_turn :=
  '(ret, mac_len, hdr) ← get_mac_len mem pos pdu_len 0 1;
  if negb ret then Ok (mk_turn m mac_len hdr true [] false)
  else if is_lcid_suspended (lc_ordered_list m) rx_lcid then Ok (mk_turn m mac_len hdr false [] false)
  else Ok (mk_turn m mac_len hdr false [mk_ind rx_lcid (pos + hdr) mac_len] false).

Definition ue_subpdu (iq : bool) (frame slot : Z) (mem : bytes) (pos pdu_len : Z) (m : ue_mac_t) : res ue_turn :=
  b ← deref (znth mem pos);
  let rx_lcid := sub_lcid b in
  if rx_lcid =? DL_SCH_LCID_CCCH then ue_ccch mem pos pdu_len m
  else if dl_variable_ce rx_lcid then
    '(_, mac_len, hdr) ← get_mac_len mem pos pdu_len 0 1; Ok (mk_turn m mac_len hdr false [] false)
  else match dl_skipped_len rx_lcid with
  | Some n => Ok (mk_turn m n 1 false [] false)
  | None =>
      if rx_lcid =? DL_SCH_LCID_TA_COMMAND then ue_ta_command frame slot mem pos m
      else if rx_lcid =? DL_SCH_LCID_CON_RES_ID then ue_con_res_id iq mem pos m
      else if rx_lcid =? DL_SCH_LCID_PADDING then Ok (mk_turn m 0 1 true [] false)
      else if (1 <=? rx_lcid) && (rx_lcid <=? 32) then ue_sdu mem pos pdu_len rx_lcid m
      else Ok (mk_turn m 0 1 false [] false)
  end.

(** The loop; [data_ind] are the indications so far.  [None]: the function returned. *)
Fixpoint ue_parse (fuel : nat) (iq : bool) (frame slot : Z) (mem : bytes) (pos pdu_len : Z) (m : ue_mac_t)
    (data_ind : list nr_rlc_data_ind_t) : res (ue_mac_t * option (list nr_rlc_data_ind_t)) :=
  if 0 <? pdu_len then
    match fuel with
    | O => NoFuel
    | S fuel =>
        t ← ue_subpdu iq frame slot mem pos pdu_len m;
        let data_ind := data_ind ++ tn_ind t in
        _ ← assert_that (match tn_ind t with [] => true | _ => zlen data_ind <? MAX_NUM_DATA_IND end);
        if tn_return t then Ok (tn_mac t, None)
        else
          let n := tn_hdr t + tn_len t in
          if tn_done t || (pdu_len - n <? 0) then Ok (tn_mac t, Some data_ind)
          else ue_parse fuel iq frame slot mem (pos + n) (pdu_len - n) (tn_mac t) data_ind
    end
  else Ok (m, Some data_ind).

(** The PDU is the first [pdu_len] octets of [mem]; [now] is the clock of RLC. *)
Definition nr_ue_process_mac_pdu {E} `{RlcEntity E} (iq : bool) (now frame slot : Z) (mem : bytes) (pdu_len : Z)
    (m : ue_mac_t) (rlc : nr_rlc_ue_t E) : res (ue_mac_t * nr_rlc_ue_t E) :=
  '(n, m) ← (if ra_2_step (um_ra m) && bool_decide (ra_state (um_ra m) = nrRA_WAIT_MSGB)
             then nr_ue_validate_successrar iq mem pdu_len m frame slot else Ok (0, m));
  '(m, data_ind) ← ue_parse (Z.to_nat (pdu_len - n)) iq frame slot mem n (pdu_len - n) m [];
  match data_ind with
  | None => Ok (m, rlc)
  | Some l => rlc ← nr_mac_rlc_data_ind now mem rlc l; Ok (m, rlc)
  end.

(** ** Downlink MAC PDU: what the UE makes of well-formed subPDUs *)

(** ** SubPDUs *)

Inductive dl_sub :=
| DlSdu (lcid : Z) (d : bytes)
| DlTa (ta : Z)
| DlCe (l : bytes).

Definition dl_sub_octets (tag : Z) (x : dl_sub) : bytes :=
  match x with
  | DlSdu lcid d => NR_MAC_SUBHEADER_LONG lcid (zlen d) ++ d
  | DlTa ta => [DL_SCH_LCID_TA_COMMAND; ta + 64 * tag]
  | DlCe l => l
  end.

Definition dl_octets (tag : Z) (xs : list dl_sub) : bytes := concat (map (dl_sub_octets tag) xs).

(** A control element the UE skips: of the length it expects for its LCID, or with a length. *)
Definition dl_ce_ok (l : bytes) : Prop :=
  ∃ b body, l = b :: body ∧ 0 < b < 64 ∧
    ((dl_variable_ce b = false ∧ dl_skipped_len b = Some (zlen body)) ∨
     (dl_variable_ce b = true ∧ ∃ T, body = zlen T :: T ∧ zlen T < 256)).

Definition dl_sub_ok (x : dl_sub) : Prop :=
  match x with
  | DlSdu lcid d => 1 <= lcid <= 32 ∧ zlen d <= 65535
  | DlTa ta => 0 <= ta < 64
  | DlCe l => dl_ce_ok l
  end.

(** What a subPDU does to the UE, and the SDUs for RLC. *)
Definition dl_sub_effect (frame slot : Z) (x : dl_sub) (m : ue_mac_t) : ue_mac_t :=
  match x with DlTa ta => set_time_alignment m ta adjustment_ta frame slot | _ => m end.

Definition dl_effect (frame slot : Z) (xs : list dl_sub) (m : ue_mac_t) : ue_mac_t :=
  foldl (λ m x, dl_sub_effect frame slot x m) m xs.

Definition dl_sub_sdus (lcs : list lc_info) (x : dl_sub) : list (Z * bytes) :=
  match x with DlSdu lcid d => if is_lcid_suspended lcs lcid then [] else [(lcid, d)] | _ => [] end.

Definition dl_sdus (lcs : list lc_info) (xs : list dl_sub) : list (Z * bytes) := concat (map (dl_sub_sdus lcs) xs).

(** The indication [i] is for the octets [q.2] on channel [q.1]. *)
Definition ind_reads (mem : bytes) (i : nr_rlc_data_ind_t) (q : Z * bytes) : Prop :=
  ind_ch i = q.1 ∧ slice mem (ind_buf i) (ind_len i) = Some q.2.

(** ** One subPDU *)

Section parse.
Context (iq : bool) (frame slot tag : Z) (Htag : 0 <= tag < 4).

Lemma ue_subpdu_sdu pre post lcid d pdu_len m :
  1 <= lcid <= 32 → zlen d <= 65535 → zlen d + 3 <= pdu_len →
  let mem := pre ++ dl_sub_octets tag (DlSdu lcid d) ++ post in
  ∃ inds, ue_subpdu iq frame slot mem (zlen pre) pdu_len m = Ok (mk_turn m (zlen d) 3 false inds false) ∧
    Forall2 (ind_reads mem) inds (dl_sub_sdus (lc_ordered_list m) (DlSdu lcid d)).
Proof.
  intros Hl Hd Hlen mem. unfold mem, ue_subpdu.
  change (dl_sub_octets tag (DlSdu lcid d)) with (NR_MAC_SUBHEADER_LONG lcid (zlen d) ++ d). rewrite <- (app_assoc _ d post).
  rewrite znth_long by lia. cbn [deref mbind res_bind]. destruct (long_lcid lcid ltac:(lia)) as [-> _].
  unfold dl_variable_ce, dl_skipped_len. autounfold with lcid. repeat match goal with
  | |- context [lcid =? ?c] => decide_false (lcid =? c) end.
  decide_true ((1 <=? lcid) && (lcid <=? 32)). simpl orb. cbn iota.
  pose proof (zlen_nonneg d). unfold ue_sdu. rewrite get_mac_len_long by lia. cbn [mbind res_bind negb].
  simpl (dl_sub_sdus _ _). destruct (is_lcid_suspended _ _); [by exists [] |].
  eexists. split; [done |]. constructor; [split; [done |] | done]. cbn [ind_buf ind_len].
  rewrite (app_assoc pre). change 3 with (zlen (NR_MAC_SUBHEADER_LONG lcid (zlen d))).
  rewrite <- zlen_app. apply slice_mid.
Qed.

Lemma ue_subpdu_ta pre post ta pdu_len m :
  0 <= ta < 64 → tag_Id m = tag →
  ue_subpdu iq frame slot (pre ++ dl_sub_octets tag (DlTa ta) ++ post) (zlen pre) pdu_len m =
    Ok (mk_turn (set_time_alignment m ta adjustment_ta frame slot) 1 1 false [] false).
Proof using Htag.
  intros Hta Hm. change (dl_sub_octets tag (DlTa ta)) with [DL_SCH_LCID_TA_COMMAND; ta + 64 * tag].
  trans (ue_ta_command frame slot (pre ++ [DL_SCH_LCID_TA_COMMAND; ta + 64 * tag] ++ post) (zlen pre) m).
  { unfold ue_subpdu. by rewrite znth_head. }
  unfold ue_ta_command. rewrite znth_mid by (unfold zlen; simpl; lia).
  change (znth _ 1) with (Some (ta + 64 * tag)). cbn [deref mbind res_bind].
  rewrite (Z.land_ones _ 6), Z.shiftr_div_pow2 by lia. change (2 ^ 6) with 64.
  replace ((ta + 64 * tag) mod 64) with ta by zdiv_lia. replace ((ta + 64 * tag) / 64) with tag by zdiv_lia.
  by rewrite Hm, Z.eqb_refl.
Qed.

Lemma ue_subpdu_ce pre post l pdu_len m :
  dl_ce_ok l → zlen l <= pdu_len →
  ∃ n h, ue_subpdu iq frame slot (pre ++ l ++ post) (zlen pre) pdu_len m = Ok (mk_turn m n h false [] false) ∧
    h + n = zlen l.
Proof.
  intros (b & body & -> & Hb & Hc) Hlen. rewrite zlen_cons in Hlen. unfold ue_subpdu.
  rewrite znth_head. cbn [deref mbind res_bind]. destruct (fixed_lcid b ltac:(lia)) as [-> _].
  change DL_SCH_LCID_CCCH with 0. decide_false (b =? 0). rewrite zlen_cons.
  destruct Hc as [[-> ->] | [-> (T & -> & HT)]]; [by exists (zlen body), 1 |].
  pose proof (zlen_nonneg T). rewrite zlen_cons in Hlen |- *.
  replace ((b :: zlen T :: T) ++ post) with (NR_MAC_SUBHEADER_SHORT b (zlen T) ++ T ++ post)
    by (unfold NR_MAC_SUBHEADER_SHORT; rewrite !Z.mod_small by lia; done).
  rewrite get_mac_len_short by lia. cbn [mbind res_bind]. exists (zlen T), 2. split; [done | lia].
Qed.

Lemma ue_subpdu_ok x pre post pdu_len m :
  dl_sub_ok x → tag_Id m = tag → zlen (dl_sub_octets tag x) <= pdu_len →
  let mem := pre ++ dl_sub_octets tag x ++ post in
  ∃ n h inds, ue_subpdu iq frame slot mem (zlen pre) pdu_len m =
      Ok (mk_turn (dl_sub_effect frame slot x m) n h false inds false) ∧
    h + n = zlen (dl_sub_octets tag x) ∧ 0 < h + n ∧
    Forall2 (ind_reads mem) inds (dl_sub_sdus (lc_ordered_list m) x).
Proof using Htag.
  intros Hok Hm Hlen. destruct x as [lcid d | ta | l]; simpl in Hok.
  - assert (Hz : zlen (dl_sub_octets tag (DlSdu lcid d)) = 3 + zlen d) by (simpl; by rewrite !zlen_cons, Z.add_assoc, Z.add_assoc).
    rewrite Hz in *. pose proof (zlen_nonneg d).
    destruct (ue_subpdu_sdu pre post lcid d pdu_len m) as (inds & E & Hi); [lia.. |].
    exists (zlen d), 3, inds. split_and!; [exact E | lia | lia | exact Hi].
  - exists 1, 1, []. rewrite ue_subpdu_ta by done. by split_and!.
  - destruct (ue_subpdu_ce pre post l pdu_len m Hok Hlen) as (n & h & E & Hz). exists n, h, [].
    split_and!; [exact E | done | | done]. destruct Hok as (b & body & -> & _). rewrite zlen_cons in Hz.
    pose proof (zlen_nonneg body). lia.
Qed.

(** ** The whole PDU *)

Lemma effect_frame x m :
  tag_Id (dl_sub_effect frame slot x m) = tag_Id m ∧
  lc_ordered_list (dl_sub_effect frame slot x m) = lc_ordered_list m.
Proof. by destruct x. Qed.

(** Padding: nothing, or octets of which the first has the LCID of padding. *)
Definition dl_pad_ok (l : bytes) : Prop := match l with [] => True | b :: _ => sub_lcid b = DL_SCH_LCID_PADDING end.

(** The number of data indications: the [MAX_NUM_DATA_IND]-th aborts the UE. *)
Definition ue_parsed (mem : bytes) (m : ue_mac_t) (acc : list nr_rlc_data_ind_t) (xs : list dl_sub)
    (r : res (ue_mac_t * option (list nr_rlc_data_ind_t))) : Prop :=
  if zlen acc + zlen (dl_sdus (lc_ordered_list m) xs) <? MAX_NUM_DATA_IND then
    ∃ inds, r = Ok (dl_effect frame slot xs m, Some (acc ++ inds)) ∧
      Forall2 (ind_reads mem) inds (dl_sdus (lc_ordered_list m) xs)
  else r = Exit.

Lemma ue_parse_ok xs : ∀ fuel pre pad post m acc,
  Forall dl_sub_ok xs → dl_pad_ok pad → tag_Id m = tag →
  zlen (dl_octets tag xs) + zlen pad <= Z.of_nat fuel → zlen acc < MAX_NUM_DATA_IND →
  let mem := pre ++ dl_octets tag xs ++ pad ++ post in
  ue_parsed mem m acc xs
    (ue_parse fuel iq frame slot mem (zlen pre) (zlen (dl_octets tag xs) + zlen pad) m acc).
Proof using Htag.
  induction xs as [| x xs IH]; intros fuel pre pad post m acc Hok Hpad Hm Hfuel Hcnt mem; unfold ue_parsed.
  - change (dl_sdus (lc_ordered_list m) []) with (@nil (Z * bytes)). rewrite zlen_nil, Z.add_0_r.
    decide_true (zlen acc <? MAX_NUM_DATA_IND).
    exists []. split; [| constructor]. rewrite app_nil_r. change (dl_octets tag []) with (@nil Z) in *.
    rewrite zlen_nil, Z.add_0_l in *. destruct pad as [| b pad]; [by destruct fuel |].
    rewrite zlen_cons in *. pose proof (zlen_nonneg pad). destruct fuel as [| fuel]; [lia |]. simpl ue_parse.
    decide_true (0 <? 1 + zlen pad). unfold mem, ue_subpdu. rewrite app_nil_l, znth_head. cbn [deref mbind res_bind].
    simpl in Hpad. rewrite Hpad. simpl. by rewrite app_nil_r.
  - apply Forall_cons in Hok as [Hx Hok]. change (dl_octets tag (x :: xs)) with (dl_sub_octets tag x ++ dl_octets tag xs) in *.
    change (dl_sdus (lc_ordered_list m) (x :: xs)) with (dl_sub_sdus (lc_ordered_list m) x ++ dl_sdus (lc_ordered_list m) xs).
    rewrite !zlen_app in *.
    pose proof (zlen_nonneg (dl_octets tag xs)). pose proof (zlen_nonneg pad). pose proof (zlen_nonneg acc).
    pose proof (zlen_nonneg (dl_sdus (lc_ordered_list m) xs)).
    destruct (ue_subpdu_ok x pre (dl_octets tag xs ++ pad ++ post) (zlen (dl_sub_octets tag x) + zlen (dl_octets tag xs) + zlen pad) m)
      as (n & h & inds & E & Hn & Hpos & Hi); [done | done | lia |].
    destruct fuel as [| fuel]; [lia |]. simpl ue_parse.
    decide_true (0 <? zlen (dl_sub_octets tag x) + zlen (dl_octets tag xs) + zlen pad).
    unfold mem. rewrite <- app_assoc, E. cbn [mbind res_bind tn_ind tn_return tn_done tn_mac tn_hdr tn_len].
    apply Forall2_length in Hi as Hil.
    assert (Hzi : zlen inds = zlen (dl_sub_sdus (lc_ordered_list m) x)) by (unfold zlen; by rewrite Hil).
    match goal with |- context [assert_that ?b] => assert (Ha : b = (zlen acc + zlen inds <? MAX_NUM_DATA_IND)) end.
    { destruct inds; [rewrite zlen_nil, Z.add_0_r; symmetry; by apply Z.ltb_lt | by rewrite zlen_app]. }
    rewrite Ha. unfold assert_that. destruct (Z.ltb_spec (zlen acc + zlen inds) MAX_NUM_DATA_IND) as [Hlt | Hge]; cbn [mbind res_bind orb].
    2: { by decide_false (zlen acc + (zlen (dl_sub_sdus (lc_ordered_list m) x) + zlen (dl_sdus (lc_ordered_list m) xs)) <? MAX_NUM_DATA_IND). }
    rewrite Hn. decide_false (zlen (dl_sub_octets tag x) + zlen (dl_octets tag xs) + zlen pad - zlen (dl_sub_octets tag x) <? 0).
    destruct (effect_frame x m) as [Ht Hlc].
    specialize (IH fuel (pre ++ dl_sub_octets tag x) pad post (dl_sub_effect frame slot x m) (acc ++ inds) Hok Hpad).
    unfold ue_parsed in IH. rewrite Hlc, !zlen_app, <- app_assoc in IH. cbv zeta in IH.
    replace (zlen (dl_sub_octets tag x) + zlen (dl_octets tag xs) + zlen pad - zlen (dl_sub_octets tag x))
      with (zlen (dl_octets tag xs) + zlen pad) by lia.
    rewrite Hzi, <- Z.add_assoc in IH.
    specialize (IH ltac:(by rewrite Ht) ltac:(lia) ltac:(lia)).
    destruct (_ <? MAX_NUM_DATA_IND); [| done].
    destruct IH as (inds' & E' & Hi'). exists (inds ++ inds'). rewrite E'. split; [by rewrite app_assoc | by apply Forall2_app].
Qed.
End parse.

(** ** To RLC *)

Section deliver.
Context {E : Type} `{RlcEntity E}.

(** RLC receives the PDUs [l], each with its channel. *)
Fixpoint rlc_receive (now : Z) (u : nr_rlc_ue_t E) (l : list (Z * bytes)) : res (nr_rlc_ue_t E) :=
  match l with
  | [] => Ok u
  | (lcid, d) :: l =>
      rb ← get_rlc_entity_from_lcid u lcid;
      u ← match rb with
          | None => Ok u
          | Some (s, e) => e ← rb_set_time e now; e ← rb_recv_pdu e d; Ok (rb_put u s e)
          end;
      rlc_receive now u l
  end.

Lemma data_ind_receive now mem inds l : ∀ u,
  Forall2 (ind_reads mem) inds l → nr_mac_rlc_data_ind now mem u inds = rlc_receive now u l.
Proof.
  revert l. induction inds as [| i inds IH]; intros l u Hi; inversion Hi as [| ? [ch d] ? l' [Hch Hd] Hi' E1 E2]; subst; [done |].
  simpl in *. unfold rlc_data_ind_one. rewrite Hch.
  destruct (get_rlc_entity_from_lcid u ch) as [[[s e] |] | | |]; cbn [mbind res_bind]; try done; [| by apply IH].
  rewrite Hd. destruct (rb_set_time e now) as [e1 | | |]; cbn [mbind res_bind deref]; [| done..].
  destruct (rb_recv_pdu e1 d) as [e2 | | |]; cbn [mbind res_bind]; [| done..]. by apply IH.
Qed.

(** The UE gives RLC the SDUs of the PDU, unless there are too many of them. *)
Lemma ue_process_ok iq now frame slot tag xs pad post m (v : nr_rlc_ue_t E) :
  0 <= tag < 4 → Forall dl_sub_ok xs → dl_pad_ok pad → tag_Id m = tag → ra_state (um_ra m) ≠ nrRA_WAIT_MSGB →
  nr_ue_process_mac_pdu iq now frame slot (dl_octets tag xs ++ pad ++ post) (zlen (dl_octets tag xs) + zlen pad) m v =
    if zlen (dl_sdus (lc_ordered_list m) xs) <? MAX_NUM_DATA_IND then
      v' ← rlc_receive now v (dl_sdus (lc_ordered_list m) xs); Ok (dl_effect frame slot xs m, v')
    else Exit.
Proof.
  intros Htag Hok Hpad Hm Hra. unfold nr_ue_process_mac_pdu.
  rewrite bool_decide_eq_false_2, andb_false_r by done. cbn [mbind res_bind]. rewrite Z.sub_0_r.
  pose proof (zlen_nonneg (dl_octets tag xs)). pose proof (zlen_nonneg pad).
  pose proof (ue_parse_ok iq frame slot tag Htag xs (Z.to_nat (zlen (dl_octets tag xs) + zlen pad)) [] pad post m []
    Hok Hpad Hm ltac:(lia) ltac:(done)) as Hp. cbv zeta in Hp. unfold ue_parsed in Hp.
  change (zlen (A:=Z) []) with 0 in Hp. rewrite zlen_nil, Z.add_0_l, app_nil_l in Hp.
  destruct (_ <? MAX_NUM_DATA_IND); [| by rewrite Hp].
  destruct Hp as (inds & -> & Hi). cbn [mbind res_bind]. by rewrite app_nil_l, (data_ind_receive now _ _ _ v Hi).
Qed.
End deliver.
