(* ===== verification/MacDlGnb.v ===== *)
(** * Downlink MAC PDU: what the gNB writes

    Against the laws of [RlcEntityLaws]: the control elements, the PDUs that RLC generates
    ([rlc_sends]) and the padding are the subPDUs ([dl_sub]) of the transport block.

    Then: downlink MAC PDU: the transport block.
    The PDU that [generate_dl_mac_pdu] builds, subPDU by subPDU, and what the UE does with it. *)

From S2P Require Import Prelude RlcEntity RlcApi MacPdu MacDl MacUeRx.

(** ** Control elements *)

(** The configurations whose control elements the UE can take apart: everything but the SP CSI-RS /
    CSI-IM element, indices in the arrays, a timing advance of 6 bits. *)
Record ce_ctrl_ok (s : dl_sched_ctrl_t) : Prop := {
  co_ta : ta_apply s = true → 0 <= ta_update s < 64;
  co_spc : zlen (spc_s0tos3_actDeact (SP_CSI_reporting_pucch (UE_mac_ce_ctrl s))) = 4;
  co_pdsch : 0 <= ts_highest (pdsch_TCI_States_ActDeact (UE_mac_ce_ctrl s)) < 128;
  co_pdsch_len : zlen (ts_selection (pdsch_TCI_States_ActDeact (UE_mac_ce_ctrl s))) = 128;
  co_aper : 0 <= ts_highest (aperi_CSI_trigger (UE_mac_ce_ctrl s)) < 128;
  co_aper_len : zlen (ts_selection (aperi_CSI_trigger (UE_mac_ce_ctrl s))) = 128;
  co_im : im_is_scheduled (csi_im (UE_mac_ce_ctrl s)) = false
}.

Lemma state_bits_ok act js : ∀ T,
  Forall (λ i, 0 <= i < zlen act ∧ i / 8 < zlen T) js → ∃ T', set_state_bits act T js = Ok T' ∧ zlen T' = zlen T.
Proof.
  induction js as [| i js IH]; intros T Hj; [by exists T |]. apply Forall_cons in Hj as [[Hi HT] Hj]. simpl.
  unfold set_state_bit. destruct (znth_is_Some act i Hi) as [b ->]. cbn [deref mbind res_bind].
  destruct b; [| by apply IH]. destruct (znth_is_Some T (i / 8)) as [x ->]; [zdiv_lia |]. cbn [deref mbind res_bind].
  rewrite zset_Ok by zdiv_lia. cbn [mbind res_bind].
  destruct (IH (<[Z.to_nat (i / 8) := Z.lor x (Z.shiftl 1 (i mod 8))]> T)) as (T' & E & HT').
  - by rewrite zlen_insert.
  - exists T'. by rewrite zlen_insert in HT'.
Qed.

(** A control element of [n] octets that the UE skips. *)
Definition ce_of_size (n : Z) (l : bytes) : Prop := dl_ce_ok l ∧ zlen l = n.

(** The octets of all control elements. *)
Definition states_size (t : tci_states_t) : Z := ts_highest t / 8 + 4.
Definition size_if (b : bool) (n : Z) : Z := if b then n else 0.
Definition ce_size (s : dl_sched_ctrl_t) : Z :=
  let c := UE_mac_ce_ctrl s in
  size_if (ta_apply s) 2 + size_if (tci_is_scheduled (tci_state_ind c)) 3
  + size_if (spc_is_scheduled (SP_CSI_reporting_pucch c)) 3
  + size_if (ts_is_scheduled (pdsch_TCI_States_ActDeact c)) (states_size (pdsch_TCI_States_ActDeact c))
  + size_if (ts_is_scheduled (aperi_CSI_trigger c)) (states_size (aperi_CSI_trigger c))
  + size_if (zp_is_scheduled (sp_zp_csi_rs c)) 3.

Lemma ce_size_bound s : ce_ctrl_ok s → 0 <= ce_size s <= 60.
Proof.
  intros [_ _ H1 _ H2 _ _]. unfold ce_size, size_if, states_size. cbv zeta. repeat case_match; zdiv_lia.
Qed.

Lemma states_ce_ok lcid t :
  0 < lcid < 64 → dl_variable_ce lcid = true → 0 <= ts_highest t < 128 → zlen (ts_selection t) = 128 →
  ∃ l, states_ce lcid t = Ok l ∧ ce_of_size (states_size t) l.
Proof.
  intros Hl Hv Hh Hs. unfold states_ce. cbv zeta.
  set (n := ts_highest t / 8 + 1). assert (Hn : 1 <= n <= 16) by (unfold n; zdiv_lia).
  assert (Hz : zlen (replicate (Z.to_nat n) 0) = n) by (unfold zlen; rewrite length_replicate; lia).
  destruct (state_bits_ok (ts_selection t) (seqZ 0 (n * 8)) (replicate (Z.to_nat n) 0)) as (T & -> & HT).
  { apply Forall_forall. intros i Hi%elem_of_seqZ. rewrite Hs, Hz. split; [lia | zdiv_lia]. }
  cbn [mbind res_bind]. eexists. split; [done |]. rewrite Hz in HT. unfold NR_MAC_SUBHEADER_SHORT.
  rewrite !Z.mod_small by lia. simpl app. split.
  - eexists _, _. split; [done |]. split; [lia |]. right. split; [done |].
    match goal with |- context [_ :: ?x :: T] => exists (x :: T) end. rewrite zlen_cons. split; [f_equal; lia | lia].
  - rewrite !zlen_cons. unfold states_size. lia.
Qed.

Lemma fixed_ce b body : 0 < b < 64 → dl_variable_ce b = false → dl_skipped_len b = Some (zlen body) →
  ce_of_size (1 + zlen body) (b :: body).
Proof. intros. split; [| by rewrite zlen_cons]. exists b, body. split_and!; [done | lia | lia |]. by left. Qed.

Lemma sp_csi_ce_ok r1 c : zlen (spc_s0tos3_actDeact c) = 4 → ∃ l, sp_csi_ce r1 c = Ok l ∧ ce_of_size 3 l.
Proof.
  intros Hz. unfold sp_csi_ce. destruct (spc_s0tos3_actDeact c) as [| s0 [| s1 [| s2 [| s3 [|]]]]]; try done.
  - eexists. split; [done |]. by apply fixed_ce.
  - exfalso. rewrite !zlen_cons in Hz. pose proof (zlen_nonneg l). lia.
Qed.

Section write.
Context (tag : Z) (Htag : 0 <= tag < 4).

(** The octets of [xs] are written at the start of the buffer. *)
Definition written (n : Z) (xs : list dl_sub) (st : bytes * Z) : Prop :=
  ∃ rest, st = (dl_octets tag xs ++ rest, zlen (dl_octets tag xs)) ∧ zlen (dl_octets tag xs) + zlen rest = n.

Lemma dl_octets_snoc xs x : dl_octets tag (xs ++ [x]) = dl_octets tag xs ++ dl_sub_octets tag x.
Proof. unfold dl_octets. rewrite map_app, concat_app. simpl. by rewrite app_nil_r. Qed.

Definition ce_item (n : Z) (x : dl_sub) : Prop := dl_sub_ok x ∧ zlen (dl_sub_octets tag x) = n.

Definition opt_sub (b : bool) (x : dl_sub) : list dl_sub := if b then [x] else [].

(** The [k] octets of the control elements [xs] are written. *)
Definition ce_prefix (n k : Z) (xs : list dl_sub) (st : bytes * Z) : Prop :=
  written n xs st ∧ Forall dl_sub_ok xs ∧ zlen (dl_octets tag xs) = k.

Lemma put_ce_step n k xs st x (b : bool) ce z :
  ce_prefix n k xs st → k + z <= n → (b = true → ce = Ok (dl_sub_octets tag x) ∧ ce_item z x) →
  ∃ st', put_ce b ce st = Ok st' ∧ ce_prefix n (k + size_if b z) (xs ++ opt_sub b x) st'.
Proof.
  intros ((rest & -> & Hn) & Hxs & Hk) Hroom Hce. destruct b; simpl.
  2: { eexists. split; [done |]. rewrite app_nil_r. split; [by exists rest | split; [done | lia]]. }
  destruct (Hce eq_refl) as [-> Hx]. pose proof Hx as (Hxo & Hl). cbn [mbind res_bind].
  pose proof (zlen_nonneg (dl_sub_octets tag x)).
  destruct (split_front rest (zlen (dl_sub_octets tag x))) as (old & post & -> & Ho); [lia |].
  rewrite put_octets_mid by done. eexists. split; [done |]. split; [exists post | split].
  - rewrite dl_octets_snoc, <- app_assoc, zlen_app. split; [done |]. rewrite !zlen_app in Hn. lia.
  - apply Forall_app. split; [done | by constructor].
  - rewrite dl_octets_snoc, zlen_app. lia.
Qed.

Lemma ta_item s : 0 <= ta_update s < 64 →
  ta_ce (ta_update s) tag = Ok (dl_sub_octets tag (DlTa (ta_update s))) ∧ ce_item 2 (DlTa (ta_update s)).
Proof using Htag.
  intros Ht. unfold ta_ce. decide_true (ta_update s <? 64). simpl. rewrite !Z.mod_small by (autounfold with lcid; lia). done.
Qed.

#[local] Ltac bound := unfold size_if in *; repeat case_match; lia.

Lemma write_ce_ok r1 s mac_pdu n :
  ce_ctrl_ok s → zlen mac_pdu = n → 100 <= n →
  ∃ ces st, nr_write_ce_dlsch_pdu tag r1 s mac_pdu 255 None = Ok st ∧
    let xs := opt_sub (ta_apply s) (DlTa (ta_update s)) ++ map DlCe ces in ce_prefix n (ce_size s) xs st.
Proof using Htag.
  intros Hok Hlen Hn. pose proof (ce_size_bound s Hok) as Hsz. pose proof Hok as [Hta Hspc Hpd Hpdl Hap Hapl Him].
  unfold nr_write_ce_dlsch_pdu. cbv zeta. simpl (negb _).
  unfold ce_size in *. cbv zeta in Hsz. set (c := UE_mac_ce_ctrl s) in *. change (put_ce false _ ?st) with (Ok st). cbn [mbind res_bind].
  assert (H0 : ce_prefix n 0 [] (mac_pdu, 0)) by (split; [exists mac_pdu; split; [done | rewrite Hlen; done] | done]).
  destruct (sp_csi_ce_ok r1 _ Hspc) as (l2 & E2 & Hs2).
  destruct (states_ce_ok DL_SCH_LCID_TCI_STATE_ACT_UE_SPEC_PDSCH _ ltac:(done) eq_refl Hpd Hpdl) as (l3 & E3 & Hs3).
  destruct (states_ce_ok DL_SCH_LCID_APERIODIC_CSI_TRI_STATE_SUBSEL _ ltac:(done) eq_refl Hap Hapl) as (l4 & E4 & Hs4).
  set (l1 := tci_ind_ce (tci_state_ind c)). set (l5 := zp_ce (sp_zp_csi_rs c)).
  assert (Hs1 : ce_of_size 3 l1) by by apply fixed_ce. assert (Hs5 : ce_of_size 3 l5) by by apply fixed_ce.
  assert (Hstep : ∀ k b ce l xs st z, ce_prefix n k xs st → ce = Ok l → ce_of_size z l → k <= 60 → z <= 20 →
    ∃ st', put_ce b ce st = Ok st' ∧ ce_prefix n (k + size_if b z) (xs ++ opt_sub b (DlCe l)) st').
  { intros k b ce l xs st z Hp Hce [Hl Hz] Hk Hz20. apply put_ce_step; [done | lia |]. intros _. by split. }
  assert (Hst : ∀ t, 0 <= ts_highest t < 128 → 0 <= states_size t <= 20) by (intros t Ht; unfold states_size; zdiv_lia).
  pose proof (Hst _ Hpd) as Hb3. pose proof (Hst _ Hap) as Hb4.
  assert (Hif : ∀ b z, 0 <= z → 0 <= size_if b z) by (intros [] z Hz; simpl; lia).
  destruct (put_ce_step n 0 [] (mac_pdu, 0) (DlTa (ta_update s)) (ta_apply s) (ta_ce (ta_update s) tag) 2 H0) as (st1 & -> & H1);
    [lia | by intros Ht; apply ta_item, Hta |]. cbn [mbind res_bind].
  destruct (Hstep _ (tci_is_scheduled (tci_state_ind c)) _ l1 _ _ _ H1 eq_refl Hs1 ltac:(bound) ltac:(lia)) as (st2 & -> & H2). cbn [mbind res_bind].
  destruct (Hstep _ (spc_is_scheduled (SP_CSI_reporting_pucch c)) _ l2 _ _ _ H2 E2 Hs2 ltac:(bound) ltac:(lia)) as (st3 & -> & H3). cbn [mbind res_bind].
  destruct (Hstep _ (ts_is_scheduled (pdsch_TCI_States_ActDeact c)) _ l3 _ _ _ H3 E3 Hs3 ltac:(bound) ltac:(lia)) as (st4 & -> & H4). cbn [mbind res_bind].
  destruct (Hstep _ (ts_is_scheduled (aperi_CSI_trigger c)) _ l4 _ _ _ H4 E4 Hs4 ltac:(bound) ltac:(lia)) as (st5 & -> & H5). cbn [mbind res_bind].
  destruct (Hstep _ (zp_is_scheduled (sp_zp_csi_rs c)) _ l5 _ _ _ H5 eq_refl Hs5 ltac:(bound) ltac:(lia)) as (st6 & -> & H6). cbn [mbind res_bind].
  rewrite Him. rewrite <- !app_assoc in H6.
  assert (Hopt : ∀ b l, ∃ ls, opt_sub b (DlCe l) = map DlCe ls) by (intros [] l; [by exists [l] | by exists []]).
  destruct (Hopt (tci_is_scheduled (tci_state_ind c)) l1) as [o1 R1], (Hopt (spc_is_scheduled (SP_CSI_reporting_pucch c)) l2) as [o2 R2],
    (Hopt (ts_is_scheduled (pdsch_TCI_States_ActDeact c)) l3) as [o3 R3], (Hopt (ts_is_scheduled (aperi_CSI_trigger c)) l4) as [o4 R4],
    (Hopt (zp_is_scheduled (sp_zp_csi_rs c)) l5) as [o5 R5]. rewrite R1, R2, R3, R4, R5, <- !map_app in H6.
  eexists _, st6. split; [done | exact H6].
Qed.
End write.

(** ** PDUs from RLC *)

Section rlc.
Context {E : Type} `{RlcEntityLaws E}.

(** The entity is asked for PDUs while there is room: [tb] octets at first, of which 3 are reserved
    for each subheader; [tb'] octets are left at the end. *)
Inductive rlc_generates (now_us : Z) : E → Z → list bytes → E → Z → Prop :=
| gen_stop e tb : rlc_generates now_us e tb [] e tb
| gen_none e tb buffer buf e' :
    3 < tb → tb - 3 <= zlen buffer → rb_generate_pdu e buffer (tb - 3) now_us = Ok (0, buf, e') →
    rlc_generates now_us e tb [] e' tb
| gen_pdu e tb buffer n buf e1 ds e' tb' :
    3 < tb → tb - 3 <= zlen buffer → 0 < n <= tb - 3 → rb_generate_pdu e buffer (tb - 3) now_us = Ok (n, buf, e1) →
    rlc_generates now_us e1 (tb - (3 + n)) ds e' tb' →
    rlc_generates now_us e tb (take (Z.to_nat n) buf :: ds) e' tb'.

(** Every PDU takes at least four octets of the transport block. *)
Lemma generates_room now_us e tb ds e' tb' : rlc_generates now_us e tb ds e' tb' → 0 <= tb → 0 <= tb' ∧ 4 * zlen ds + tb' <= tb.
Proof.
  induction 1 as [e tb | e tb buffer buf e' Htb Hbuf Hg | e tb buffer n buf e1 ds e' tb' Htb Hbuf Hn Hg Hgen IH];
    intros Ht0; unfold zlen in *; simpl length; [lia | lia |]. destruct IH; lia.
Qed.

(** The raw output of RLC: three octets for the subheader, then the PDU. *)
Definition raw_octets (gds : list (bytes * bytes)) : bytes := concat (map (λ p, p.1 ++ p.2) gds).
Definition raw_sizes (gds : list (bytes * bytes)) : list Z := map (λ p, zlen p.2) gds.
Definition raw_ok (p : bytes * bytes) : Prop := zlen p.1 = 3 ∧ 0 < zlen p.2 <= 65535.

Definition multi_data_post now_us e (buf : bytes) (pos tb : Z) (k : nat) (r : res (list Z * bytes * E)) : Prop :=
  ∃ gds e' rest tb', r = Ok (raw_sizes gds, take (Z.to_nat pos) buf ++ raw_octets gds ++ rest, e') ∧
    rlc_generates now_us e tb (map snd gds) e' tb' ∧ Forall raw_ok gds ∧ rlc_inv e' ∧ (length gds <= k)%nat ∧
    0 <= tb' ∧ zlen (raw_octets gds) = tb - tb' ∧ pos + zlen (raw_octets gds) + zlen rest = zlen buf.

Lemma multi_data_stop now_us e buf pos tb k :
  rlc_inv e → 0 <= pos → 0 <= tb → pos + tb <= zlen buf → multi_data_post now_us e buf pos tb k (Ok ([], buf, e)).
Proof.
  intros He Hp Ht Hb. exists [], e, (drop (Z.to_nat pos) buf), tb. unfold raw_octets, raw_sizes. simpl. rewrite take_drop.
  unfold zlen in *. rewrite length_drop. simpl. split_and!; try done; try lia; constructor.
Qed.

Lemma multi_data_ok now_us k : ∀ e buf pos tb,
  rlc_inv e → 0 <= pos → 0 <= tb → pos + tb <= zlen buf → rlc_size_ok tb →
  multi_data_post now_us e buf pos tb k (multi_data_loop now_us k e buf pos tb).
Proof.
  induction k as [| k IH]; intros e buf pos tb He Hp Ht Hb Hs; simpl; [by apply multi_data_stop |].
  destruct (Z.ltb_spec 0 (tb - 3)) as [Hroom |]; [| by apply multi_data_stop].
  destruct (split_mid buf pos 3) as (pre & g & post & -> & Hpre & Hg); [lia.. |].
  assert (Hdrop : drop (Z.to_nat (pos + 3)) (pre ++ g ++ post) = post).
  { unfold zlen in *. rewrite app_assoc. apply drop_app_length'. rewrite length_app. lia. }
  assert (Htake : take (Z.to_nat (pos + 3)) (pre ++ g ++ post) = pre ++ g).
  { unfold zlen in *. rewrite app_assoc. apply take_app_length'. rewrite length_app. lia. }
  assert (Htake0 : ∀ l, take (Z.to_nat pos) (pre ++ l) = pre) by (intros l; apply take_app_length'; unfold zlen in *; lia).
  rewrite Hdrop, Htake. rewrite !zlen_app in Hb.
  destruct (rlc_generate e post (tb - 3) now_us) as (n & b & e1 & Eg & He1 & Hn & Hn2 & Hlb);
    [done | lia | by apply (rlc_size_mono _ tb); [lia |] |].
  rewrite Eg. cbn [mbind res_bind]. unfold multi_data_post. rewrite Htake0.
  destruct (Z.eqb_spec n 0) as [-> | Hn0].
  { exists [], e1, (g ++ b), tb. unfold raw_octets, raw_sizes. simpl. change (zlen (A:=Z) []) with 0. rewrite <- (app_assoc pre), !zlen_app, Hlb.
    split_and!; try done; try lia. eapply gen_none; [lia | | exact Eg]. lia. }
  destruct (split_front b n) as (d & r & -> & Hd); [lia |].
  assert (Hpd : zlen (pre ++ g ++ d) = pos + (3 + n)) by (rewrite !zlen_app; lia).
  rewrite zlen_app in Hlb. destruct (IH e1 ((pre ++ g) ++ d ++ r) (pos + (3 + n)) (tb - (3 + n))) as
    (gds & e' & rest & tb' & El & Hgen & Hok & He' & Hlen & Ht' & Hraw & Htot);
    [done | lia | lia | rewrite !zlen_app; lia | by apply (rlc_size_mono _ tb); [lia |] |].
  rewrite El. cbn [mbind res_bind].
  assert (Htake1 : take (Z.to_nat (pos + (3 + n))) ((pre ++ g) ++ d ++ r) = pre ++ g ++ d).
  { rewrite <- Hpd. replace ((pre ++ g) ++ d ++ r) with ((pre ++ g ++ d) ++ r) by by rewrite <- !app_assoc.
    apply take_app_length'. unfold zlen. lia. }
  rewrite Htake1. exists ((g, d) :: gds), e', rest, tb'.
  change (raw_octets ((g, d) :: gds)) with ((g ++ d) ++ raw_octets gds). change (raw_sizes ((g, d) :: gds)) with (zlen d :: raw_sizes gds).
  rewrite !zlen_app in Htot |- *. rewrite Hd, <- !app_assoc. split_and!; try done; simpl; try lia.
  - replace d with (take (Z.to_nat n) (d ++ r)) at 1 by (apply take_app_length'; unfold zlen in *; lia).
    eapply gen_pdu; [lia | | lia | exact Eg | exact Hgen]. lia.
  - constructor; [| done]. unfold raw_ok. simpl. lia.
  - rewrite ?zlen_app in *. lia.
Qed.

(** The subheaders complete the raw output to subPDUs. *)
Lemma put_headers_ok tag lcid gds : ∀ pre rest,
  Forall raw_ok gds →
  put_long_headers lcid (raw_sizes gds) (pre ++ raw_octets gds ++ rest) (zlen pre) =
    Ok (pre ++ dl_octets tag (map (λ p, DlSdu lcid p.2) gds) ++ rest, zlen pre + zlen (raw_octets gds)) ∧
  zlen (dl_octets tag (map (λ p, DlSdu lcid p.2) gds)) = zlen (raw_octets gds).
Proof.
  induction gds as [| [g d] gds IH]; intros pre rest Hok; [by change (zlen (raw_octets [])) with 0; rewrite Z.add_0_r |].
  apply Forall_cons in Hok as [[Hg Hd] Hok]. simpl in Hg, Hd.
  change (raw_octets ((g, d) :: gds)) with ((g ++ d) ++ raw_octets gds). change (raw_sizes ((g, d) :: gds)) with (zlen d :: raw_sizes gds).
  change (dl_octets tag (map _ ((g, d) :: gds))) with
    ((NR_MAC_SUBHEADER_LONG lcid (zlen d) ++ d) ++ dl_octets tag (map (λ p, DlSdu lcid p.2) gds)).
  cbn [put_long_headers]. rewrite <- !app_assoc. rewrite put_octets_mid by done. cbn [mbind res_bind].
  set (hd := NR_MAC_SUBHEADER_LONG lcid (zlen d)). assert (Hhd : zlen hd = 3) by done.
  replace (pre ++ hd ++ d ++ raw_octets gds ++ rest) with ((pre ++ hd ++ d) ++ raw_octets gds ++ rest) by by rewrite <- !app_assoc.
  destruct (IH (pre ++ hd ++ d) rest Hok) as [E1 E2].
  replace (zlen pre + (zlen d + 3)) with (zlen (pre ++ hd ++ d)) by (rewrite !zlen_app; lia).
  rewrite E1. rewrite !zlen_app, E2, Hhd, Hg, <- !app_assoc. split; [f_equal; f_equal; lia | lia].
Qed.

(** ** The channels of a UE *)

(** RLC is asked, for the channels [cs] in order or for some of them, for PDUs: [l] is what it sent,
    with the channels. *)
Inductive rlc_sends (now now_us : Z) : list Z → nr_rlc_ue_t E → Z → list (Z * bytes) → nr_rlc_ue_t E → Z → Prop :=
| sends_nil u tb : rlc_sends now now_us [] u tb [] u tb
| sends_skip c cs u tb l u' tb' : rlc_sends now now_us cs u tb l u' tb' → rlc_sends now now_us (c :: cs) u tb l u' tb'
| sends_lc c cs u tb s e e1 ds e2 tb1 l u' tb' :
    get_rlc_entity_from_lcid u c = Ok (Some (s, e)) → rb_set_time e now = Ok e1 →
    rlc_generates now_us e1 tb ds e2 tb1 → rlc_sends now now_us cs (rb_put u s e2) tb1 l u' tb' →
    rlc_sends now now_us (c :: cs) u tb (map (pair c) ds ++ l) u' tb'.

(** The entity of a channel, if there is one, is well and accepts the clock. *)
Definition lc_ready (now : Z) (u : nr_rlc_ue_t E) (c : Z) : Prop :=
  ∃ o, lcid_slot u c = Ok o ∧
    match o with
    | None => True
    | Some s => ∃ oe, rb_get u s = Ok oe ∧ match oe with None => True | Some e => rlc_inv e ∧ rlc_tick_ok e now end
    end.

(** ... for all channels, which have different bearers. *)
Fixpoint rlc_ready (now : Z) (u : nr_rlc_ue_t E) (cs : list Z) : Prop :=
  match cs with
  | [] => True
  | c :: cs => lc_ready now u c ∧ rlc_ready now u cs ∧
      Forall (λ c', ∀ s, lcid_slot u c = Ok (Some s) → lcid_slot u c' ≠ Ok (Some s)) cs
  end.

Lemma ready_put now u s e cs :
  (∃ o, rb_get u s = Ok o) → Forall (λ c', lcid_slot u c' ≠ Ok (Some s)) cs → rlc_ready now u cs → rlc_ready now (rb_put u s e) cs.
Proof.
  intros Hs. induction cs as [| c cs IH]; intros Hne Hr; [done |]. apply Forall_cons in Hne as [Hc Hne].
  destruct Hr as ((o & Ho & Hm) & Hr & Hd). split_and!; [| by apply IH |].
  - exists o. rewrite slot_put. split; [done |]. destruct o as [s' |]; [| done].
    rewrite get_put_ne; [done | congruence | done].
  - eapply Forall_impl; [exact Hd |]. intros c' Hc'. by rewrite !slot_put.
Qed.
Lemma sends_app now now_us cs cs' u tb l u1 tb1 l' u2 tb2 :
  rlc_sends now now_us cs u tb l u1 tb1 → rlc_sends now now_us cs' u1 tb1 l' u2 tb2 →
  rlc_sends now now_us (cs ++ cs') u tb (l ++ l') u2 tb2.
Proof.
  induction 1 as [| c cs u tb l u' tb' Hr IH | c cs u tb s e e1 ds e2 tb1 l u' tb' Hg Hs Hd Hr IH]; intros H2; [done | |].
  - apply sends_skip. by apply IH.
  - rewrite <- app_assoc. eapply sends_lc; eauto.
Qed.

Lemma sends_none now now_us cs u tb : rlc_sends now now_us cs u tb [] u tb.
Proof. induction cs; by constructor. Qed.

(** ** The loop over the logical channels *)

Definition to_sub (q : Z * bytes) : dl_sub := DlSdu q.1 q.2.
Definition sent_ok (q : Z * bytes) : Prop := 1 <= q.1 <= 32 ∧ zlen q.2 <= 65535.

(** The subPDUs [xs] are written, within the transport block of [TBS] octets. *)
Definition tb_state (tag n TBS : Z) (xs : list dl_sub) (st : lc_loop_t E) : Prop :=
  written tag n xs (ll_buf st, ll_pos st) ∧ ll_pos st <= TBS <= n ∧ zlen (ll_lc_bytes st) = 64.

Lemma dl_octets_app tag xs ys : dl_octets tag (xs ++ ys) = dl_octets tag xs ++ dl_octets tag ys.
Proof. unfold dl_octets. by rewrite map_app, concat_app. Qed.

Definition channel_post ev all tag n TBS xs (st : lc_loop_t E) (cs : list Z) (r : res (lc_loop_t E)) : Prop :=
  ∃ l st', r = Ok st' ∧
    rlc_sends (ev_now ev) (ev_now_us ev) all (ll_rlc st) (TBS - ll_pos st) l (ll_rlc st') (TBS - ll_pos st') ∧
    tb_state tag n TBS (xs ++ map to_sub l) st' ∧ rlc_ready (ev_now ev) (ll_rlc st') cs ∧ Forall sent_ok l.

Lemma channel_none ev all tag n TBS xs st cs :
  tb_state tag n TBS xs st → rlc_ready (ev_now ev) (ll_rlc st) cs → channel_post ev all tag n TBS xs st cs (Ok st).
Proof.
  intros Hst Hr. exists [], st. split; [done |]. split; [apply sends_none |]. rewrite app_nil_r. by split_and!.
Qed.

Lemma dl_channel_ok ev tag n TBS alloc lcid cs xs st :
  tb_state tag n TBS xs st → zlen alloc = 32 → 1 <= lcid < 32 → rlc_size_ok TBS →
  rlc_ready (ev_now ev) (ll_rlc st) (lcid :: cs) →
  channel_post ev [lcid] tag n TBS xs st cs (dl_logical_channel ev alloc TBS lcid st).
Proof.
  intros Hst Ha Hl Hs (Hc & Hr & Hne). pose proof Hst as ((rest & Hw & Hn) & Hpos & Hlb). injection Hw as Hbuf Hp.
  unfold dl_logical_channel. assert (HK : 0 <= MAX_NUM_DATA_REQ) by done. revert HK.
  generalize MAX_NUM_DATA_REQ as K. intros K HK. destruct (znth_is_Some alloc lcid ltac:(lia)) as [a ->]. cbn [deref mbind res_bind].
  destruct (a =? 0); [by apply channel_none |].
  destruct (znth_is_Some (ll_lc_bytes st) lcid ltac:(lia)) as [c0 Ec0].
  pose proof (zlen_nonneg (dl_octets tag xs)). pose proof (zlen_nonneg rest).
  assert (Hnone : get_rlc_entity_from_lcid (ll_rlc st) lcid = Ok None →
    channel_post ev [lcid] tag n TBS xs st cs ('(sizes, buf, rlc) ← nr_mac_rlc_multi_data_req (ev_now ev) (ev_now_us ev) (ll_rlc st) lcid
      (TBS - ll_pos st) (ll_buf st) (ll_pos st) K;
    _ ← assert_that (zlen sizes <=? K);
    '(buf, pos) ← put_long_headers lcid sizes buf (ll_pos st);
    n ← deref (znth (ll_lc_bytes st) lcid);
    counters ← zset (ll_lc_bytes st) lcid (u64 (n + zsum sizes));
    Ok (mk_lcloop buf pos rlc counters (ll_sdus st + zlen sizes) (ll_total st + zsum sizes)))).
  { intros Eg. unfold nr_mac_rlc_multi_data_req. rewrite Eg. cbn [mbind res_bind].
    rewrite zlen_nil. unfold assert_that. decide_true (0 <=? K). simpl put_long_headers. cbn [mbind res_bind]. rewrite Ec0. cbn [deref mbind res_bind].
    rewrite zset_Ok by lia. cbn [mbind res_bind]. exists [], (mk_lcloop (ll_buf st) (ll_pos st) (ll_rlc st)
      (<[Z.to_nat lcid := u64 (c0 + zsum [])]> (ll_lc_bytes st)) (ll_sdus st + zlen (A:=Z) []) (ll_total st + zsum [])).
    split; [done |]. split; [apply sends_none |]. rewrite app_nil_r. split_and!; [| done | constructor].
    split_and!; [apply Hst | simpl; lia | simpl; lia |]. simpl. by rewrite zlen_insert. }
  destruct Hc as (o & Ho & Hc). destruct o as [s |].
  2: { apply Hnone. unfold get_rlc_entity_from_lcid. by rewrite Ho. }
  destruct Hc as (oe & Eoe & He). destruct oe as [e |].
  2: { apply Hnone. unfold get_rlc_entity_from_lcid. rewrite Ho. cbn [mbind res_bind]. by rewrite Eoe. }
  clear Hnone. pose proof (get_entity_intro _ _ _ _ Ho Eoe) as Eg. destruct He as [He Htick].
  destruct (rlc_set_time e (ev_now ev) He Htick) as (e1 & Et & He1).
  unfold nr_mac_rlc_multi_data_req. rewrite Eg. cbn [mbind res_bind]. rewrite Et. cbn [mbind res_bind].
  destruct (multi_data_ok (ev_now_us ev) (Z.to_nat K) e1 (ll_buf st) (ll_pos st) (TBS - ll_pos st))
    as (gds & e2 & rest' & tb' & El & Hgen & Hok & He2 & Hlen & Ht' & Hraw & Htot);
    [done | lia | lia | rewrite Hbuf, zlen_app; lia | apply (rlc_size_mono _ TBS); [lia | done] |].
  rewrite El. cbn [mbind res_bind].
  assert (Hsz : zlen (raw_sizes gds) = zlen gds) by (unfold raw_sizes, zlen; by rewrite length_map).
  assert (zlen gds <= K) by (unfold zlen in *; lia).
  rewrite Hsz. unfold assert_that. decide_true (zlen gds <=? K). cbn [mbind res_bind].
  assert (Htk : take (Z.to_nat (ll_pos st)) (ll_buf st) = dl_octets tag xs).
  { rewrite Hbuf, Hp. apply take_app_length'. unfold zlen. lia. }
  rewrite Htk. destruct (put_headers_ok tag lcid gds (dl_octets tag xs) rest' Hok) as [Eh Hz].
  rewrite <- Hp in Eh. rewrite Eh. cbn [mbind res_bind]. rewrite Ec0. cbn [deref mbind res_bind].
  rewrite zset_Ok by lia. cbn [mbind res_bind]. rewrite Hraw.
  set (l := map (λ p, (lcid, p.2)) gds).
  assert (Hsub : map to_sub l = map (λ p, DlSdu lcid p.2) gds) by (unfold l; rewrite map_map; done).
  assert (Hlp : map (pair lcid) (map snd gds) = l) by (unfold l; rewrite map_map; done).
  rewrite <- Hsub in Hz |- *. exists l. eexists. split; [done |]. split_and!; simpl.
  - rewrite <- Hlp, <- (app_nil_r (map (pair lcid) _)). eapply sends_lc; [exact Eg | exact Et | exact Hgen |].
    replace (TBS - (ll_pos st + (TBS - ll_pos st - tb'))) with tb' by lia. constructor.
  - split_and!; [| simpl; lia | simpl; lia | simpl; by rewrite zlen_insert].
    exists rest'. rewrite dl_octets_app, <- app_assoc, zlen_app, Hz, Hraw, Hp. split; [done |].
    rewrite Hbuf, zlen_app in Htot. lia.
  - apply ready_put; [by exists (Some e) | | done]. eapply Forall_impl; [exact Hne |]. intros c' Hc'. by apply Hc'.
  - unfold l. apply Forall_map. eapply Forall_impl; [exact Hok |]. intros p [_ Hp2]. split; simpl; lia.
Qed.

Lemma dl_channels_ok ev tag n TBS alloc cs : ∀ xs st,
  tb_state tag n TBS xs st → zlen alloc = 32 → Forall (λ c, 1 <= lc_lcid c < 32) cs → rlc_size_ok TBS →
  rlc_ready (ev_now ev) (ll_rlc st) (map lc_lcid cs) →
  channel_post ev (map lc_lcid cs) tag n TBS xs st [] (dl_logical_channels ev alloc TBS cs st).
Proof.
  induction cs as [| c cs IH]; intros xs st Hst Ha Hc Hs Hr; simpl; [by apply channel_none |].
  apply Forall_cons in Hc as [Hc1 Hc].
  destruct (dl_channel_ok ev tag n TBS alloc (lc_lcid c) (map lc_lcid cs) xs st Hst Ha Hc1 Hs Hr)
    as (l & st1 & -> & Hsend & Hst1 & Hr1 & Hl). cbn [mbind res_bind].
  destruct (IH _ st1 Hst1 Ha Hc Hs Hr1) as (l' & st2 & -> & Hsend' & Hst2 & Hr2 & Hl').
  exists (l ++ l'), st2. split; [done |]. split; [by apply (sends_app _ _ [lc_lcid c] _ _ _ _ _ _ _ _ _ Hsend) |].
  rewrite map_app, app_assoc. split_and!; try done. by apply Forall_app.
Qed.
End rlc.

(** ** Downlink MAC PDU: the transport block *)

(** ** The buffer *)

Lemma tb_alloc_ok k : ∀ j needed, needed <= 2 ^ 31 → (15 <= j <= 31)%nat → (31 - j <= k)%nat →
  ∃ size, tb_alloc_size (S k) needed (2 ^ Z.of_nat j) = Ok size ∧ needed <= size ∧ 2 ^ 15 <= size.
Proof.
  induction k as [| k IH]; intros j needed Hn Hj Hk;
    cbn [tb_alloc_size]; assert (Hp : 2 ^ 15 <= 2 ^ Z.of_nat j) by (apply Z.pow_le_mono_r; lia).
  - assert (j = 31%nat) as -> by lia. change (2 ^ Z.of_nat 31) with (2 ^ 31) in *. decide_false (2 ^ 31 <? needed).
    eauto.
  - destruct (Z.ltb_spec (2 ^ Z.of_nat j) needed) as [Hlt |]; [| eauto].
    assert (Hj31 : (j < 31)%nat).
    { destruct (decide (j = 31)%nat) as [-> |]; [change (2 ^ Z.of_nat 31) with (2 ^ 31) in Hlt |]; lia. }
    replace (u32 (2 ^ Z.of_nat j * 2)) with (2 ^ Z.of_nat (S j)).
    + apply IH; lia.
    + assert (2 ^ Z.of_nat j <= 2 ^ 30) by (apply Z.pow_le_mono_r; lia).
      unfold u32. rewrite Z.mod_small, Nat2Z.inj_succ, Z.pow_succ_r by lia. lia.
Qed.

(** Memory as the allocator gives it; the buffer of a process is never smaller than its first size. *)
Definition tb_ok (ev : dl_env) (tb : option bytes) : Prop :=
  (∀ n, 0 <= n → zlen (ev_malloc ev n) = n) ∧ match tb with Some b => TB_SINGLE_LAYER <= zlen b | None => True end.

Lemma allocate_ok ev tb needed : tb_ok ev tb → 0 < needed <= 2 ^ 31 →
  ∃ b, allocate_transportBlock_buffer (ev_malloc ev) tb needed = Ok b ∧ needed <= zlen b ∧ TB_SINGLE_LAYER <= zlen b.
Proof.
  intros [Hm Ht] Hn. unfold allocate_transportBlock_buffer, assert_that. decide_true (0 <? needed). cbn [mbind res_bind].
  destruct (tb_alloc_ok 31 15 needed) as (size & E & H1 & H2); [lia.. |].
  change (2 ^ Z.of_nat 15) with TB_SINGLE_LAYER in E. change (2 ^ 15) with TB_SINGLE_LAYER in H2.
  assert (Hz : zlen (ev_malloc ev size) = size) by (apply Hm; lia).
  destruct tb as [b |]; [destruct (Z.leb_spec needed (zlen b)); [by exists b |] |]; rewrite E; cbn [mbind res_bind];
    eexists; (split; [done | rewrite Hz; done]).
Qed.

(** ** Padding *)

Section padding.
Context {E : Type} `{RlcEntity E}.
Context (tag : Z).

(** The first [TBS] octets of [buf] are the subPDUs [xs] and padding. *)
Definition tb_octets (TBS : Z) (xs : list dl_sub) (buf : bytes) : Prop :=
  ∃ pad, take (Z.to_nat TBS) buf = dl_octets tag xs ++ pad ∧ dl_pad_ok pad ∧ zlen (dl_octets tag xs) + zlen pad = TBS.

Lemma padding_ok n TBS xs buf pos :
  written tag n xs (buf, pos) → pos <= TBS <= n →
  ∃ buf', dl_padding buf pos TBS = Ok buf' ∧ tb_octets TBS xs buf' ∧ zlen buf' = n.
Proof.
  intros (rest & [= -> ->] & Hn) Hp. pose proof (zlen_nonneg (dl_octets tag xs)). unfold dl_padding.
  destruct (Z.ltb_spec 0 (TBS - zlen (dl_octets tag xs))) as [Hlt | Hge].
  2: { assert (TBS = zlen (dl_octets tag xs)) as -> by lia. eexists. split; [done |]. rewrite zlen_app. split; [| done].
       exists []. rewrite app_nil_r, zlen_nil. split_and!; [| done | lia]. apply take_app_length'. unfold zlen. lia. }
  set (k := TBS - zlen (dl_octets tag xs) - 1).
  destruct (split_front rest 1) as (o1 & r1 & -> & Ho1); [lia |]. rewrite zlen_app in Hn.
  rewrite put_octets_mid by done. cbn [mbind res_bind].
  destruct (split_front r1 k) as (o2 & r2 & -> & Ho2); [lia |].
  assert (Hk : zlen (replicate (Z.to_nat k) 0) = k) by (unfold zlen; rewrite length_replicate; lia).
  set (hd := NR_MAC_SUBHEADER_FIXED DL_SCH_LCID_PADDING).
  replace (TBS - (zlen (dl_octets tag xs) + zlen hd)) with k by (unfold k; change (zlen hd) with 1; lia).
  replace (dl_octets tag xs ++ hd ++ o2 ++ r2) with ((dl_octets tag xs ++ hd) ++ o2 ++ r2) by by rewrite <- app_assoc.
  rewrite <- zlen_app, put_octets_mid by lia. cbn [mbind res_bind]. eexists. split; [done |].
  change (zlen hd) with 1 in *. rewrite !zlen_app in *. split; [| change (zlen hd) with 1; lia].
  exists (hd ++ replicate (Z.to_nat k) 0). rewrite zlen_app, Hk. change (zlen hd) with 1. split_and!; [| done | lia].
  rewrite <- !app_assoc, (app_assoc hd), (app_assoc (dl_octets tag xs)). apply take_app_length'.
  rewrite !length_app. unfold zlen in *. simpl. lia.
Qed.

(** Data for tests is padding as well. *)
Lemma random_data_ok ev n TBS xs (st : lc_loop_t E) :
  written tag n xs (ll_buf st, ll_pos st) → ll_pos st <= TBS <= n → 3 < TBS - ll_pos st →
  ∃ st', dl_random_data ev TBS st = Ok st' ∧ ll_rlc st' = ll_rlc st ∧ ll_pos st' = TBS ∧ ll_lc_bytes st' = ll_lc_bytes st ∧
    tb_octets TBS xs (ll_buf st') ∧ zlen (ll_buf st') = n.
Proof.
  intros (rest & [= Hb Hp] & Hn) HT H3. pose proof (zlen_nonneg (dl_octets tag xs)). unfold dl_random_data.
  decide_true (3 <? TBS - ll_pos st). rewrite Hb, Hp in *. set (k := TBS - zlen (dl_octets tag xs) - 3).
  destruct (split_front rest 3) as (o1 & r1 & -> & Ho1); [lia |]. rewrite zlen_app in Hn.
  rewrite put_octets_mid by done. cbn [mbind res_bind].
  destruct (split_front r1 k) as (o2 & r2 & -> & Ho2); [lia |].
  set (data := map _ (seq 0 (Z.to_nat k))).
  assert (Hk : zlen data = k) by (unfold data, zlen; rewrite length_map, length_seq; lia).
  set (hd := NR_MAC_SUBHEADER_LONG DL_SCH_LCID_PADDING k). assert (Hhd : zlen hd = 3) by done.
  replace (dl_octets tag xs ++ hd ++ o2 ++ r2) with ((dl_octets tag xs ++ hd) ++ o2 ++ r2) by by rewrite <- app_assoc.
  rewrite <- zlen_app, put_octets_mid by lia. cbn [mbind res_bind]. eexists. split; [done |]. simpl.
  rewrite !zlen_app, Hhd, Hk. rewrite !zlen_app in Hn. split_and!; [done | lia | done | | lia].
  exists (hd ++ data). rewrite zlen_app, Hhd, Hk. split_and!; [| done | lia].
  rewrite <- !app_assoc, (app_assoc hd), (app_assoc (dl_octets tag xs)). apply take_app_length'.
  rewrite !length_app. unfold zlen in *. lia.
Qed.
End padding.

(** ** The whole block *)

Section block.
Context {E : Type} `{RlcEntityLaws E}.

(** What the gNB needs to build the block of a new transmission. *)
Record dl_block_ready (ev : dl_env) (TBS : Z) (ue : dl_ue_t E) (harq : dl_harq_t) : Prop := {
  br_round : hq_round harq = 0;
  br_tag : 0 <= ev_tag_id ev < 4;
  br_ce : ce_ctrl_ok (dl_ctrl ue);
  br_size : ce_size (dl_ctrl ue) < TBS <= 2 ^ 31;
  br_tb : tb_ok ev (hq_transportBlock harq);
  br_alloc : ∀ n, zlen (ev_dl_lcid_alloc ev n) = 32;
  br_lc : Forall (λ c, 1 <= lc_lcid c < 32) (lc_config (dl_ctrl ue));
  br_rlc : rlc_ready (ev_now ev) (dl_rlc ue) (map lc_lcid (lc_config (dl_ctrl ue)));
  br_grant : rlc_size_ok TBS;
  br_stats : zlen (lc_bytes (dl_stats ue)) = 64
}.

(** The control elements, then the SDUs [l]. *)
Definition block_subs (s : dl_sched_ctrl_t) (ces : list bytes) (l : list (Z * bytes)) : list dl_sub :=
  (opt_sub (ta_apply s) (DlTa (ta_update s)) ++ map DlCe ces) ++ map to_sub l.

Lemma generate_block_ok ev frame rbSize TBS ue harq :
  dl_block_ready ev TBS ue harq →
  ∃ ces l ue' harq' tb left, generate_dl_mac_pdu ev frame rbSize TBS ue harq = Ok (ue', harq') ∧
    hq_round harq' = 0 ∧ hq_transportBlock harq' = Some tb ∧ TB_SINGLE_LAYER <= zlen tb ∧ hq_tb_size harq' = TBS ∧
    zlen (lc_bytes (dl_stats ue')) = 64 ∧
    rlc_sends (ev_now ev) (ev_now_us ev) (map lc_lcid (lc_config (dl_ctrl ue))) (dl_rlc ue) (TBS - ce_size (dl_ctrl ue)) l (dl_rlc ue') left ∧
    Forall dl_sub_ok (block_subs (dl_ctrl ue) ces l) ∧
    tb_octets (ev_tag_id ev) TBS (block_subs (dl_ctrl ue) ces l) tb.
Proof.
  intros [Hr Htag Hce Hsize Htb Halloc Hlc Hrlc Hgrant Hstats]. unfold generate_dl_mac_pdu. cbv zeta.
  rewrite Hr. simpl (negb _). pose proof (ce_size_bound _ Hce) as Hcb.
  destruct (allocate_ok ev (hq_transportBlock harq) TBS Htb) as (b & Eb & Hb1 & Hb2); [lia |].
  change (hq_transportBlock (harq <| hq_start_tci_timer := _ |>)) with (hq_transportBlock harq). rewrite Eb. cbn [mbind res_bind].
  destruct (write_ce_ok (ev_tag_id ev) Htag (ev_stack_bit ev) (dl_ctrl ue) b (zlen b) Hce eq_refl) as (ces & [buf pos] & -> & Hp).
  { etrans; [| exact Hb2]. by vm_compute. }
  cbv zeta in Hp. destruct Hp as (Hw & Hok & Hz). cbn [mbind res_bind]. set (xs := opt_sub _ _ ++ map DlCe ces) in *.
  pose proof Hw as (rest & [= Hbuf Hpos] & Hn). rewrite Hz in Hpos. unfold assert_that. decide_true (pos <? TBS). cbn [mbind res_bind].
  set (st0 := mk_lcloop buf pos (dl_rlc ue) (lc_bytes (dl_stats ue)) 0 0).
  assert (Hst0 : tb_state (ev_tag_id ev) (zlen b) TBS xs st0) by (split_and!; simpl; [done | lia | lia | done]).
  assert (Hbody : ∃ l st, (if 0 <? num_total_bytes (dl_ctrl ue) then
      dl_logical_channels ev (ev_dl_lcid_alloc ev (TBS - pos)) TBS (lc_config (dl_ctrl ue)) st0
    else if ev_phy_test ev || ev_do_ra ev then dl_random_data ev TBS st0 else Ok st0) = Ok st ∧
    (∃ left, rlc_sends (ev_now ev) (ev_now_us ev) (map lc_lcid (lc_config (dl_ctrl ue))) (dl_rlc ue) (TBS - pos) l (ll_rlc st) left) ∧
    Forall sent_ok l ∧ zlen (ll_lc_bytes st) = 64 ∧
    ∃ buf', dl_padding (ll_buf st) (ll_pos st) TBS = Ok buf' ∧ tb_octets (ev_tag_id ev) TBS (xs ++ map to_sub l) buf' ∧
      zlen buf' = zlen b).
  { destruct (0 <? num_total_bytes (dl_ctrl ue)).
    - destruct (dl_channels_ok ev (ev_tag_id ev) (zlen b) TBS (ev_dl_lcid_alloc ev (TBS - pos)) (lc_config (dl_ctrl ue)) xs st0)
        as (l & st & -> & Hs & (Hw' & Hp' & Hlb) & _ & Hl); try done.
      exists l, st. split; [done |]. split; [by eexists |]. split; [done |]. split; [done |]. apply (padding_ok _ (zlen b)); [done | lia].
    - assert (Hnone : ∃ left, rlc_sends (ev_now ev) (ev_now_us ev) (map lc_lcid (lc_config (dl_ctrl ue))) (dl_rlc ue) (TBS - pos) []
        (ll_rlc st0) left) by (eexists; apply sends_none).
      destruct (ev_phy_test ev || ev_do_ra ev).
      + destruct (Z.ltb_spec 3 (TBS - pos)) as [H3 |].
        * destruct (random_data_ok (ev_tag_id ev) ev (zlen b) TBS xs st0) as (st & -> & Hrl & Hps & Hlb & Hto & Hzb); [done | simpl; lia | simpl; lia |].
          exists [], st. rewrite Hrl. split_and!; [done | done | constructor | by rewrite Hlb |]. exists (ll_buf st). rewrite Hps, app_nil_r.
          unfold dl_padding. rewrite Z.sub_diag. done.
        * exists [], st0. unfold dl_random_data. simpl (ll_pos st0). decide_false (3 <? TBS - pos). split_and!; [done | done | constructor | done |].
          rewrite app_nil_r. apply (padding_ok _ (zlen b)); [done | simpl; lia].
      + exists [], st0. split_and!; [done | done | constructor | done |]. rewrite app_nil_r. apply (padding_ok _ (zlen b)); [done | simpl; lia]. }
  destruct Hbody as (l & st & -> & (left & Hs) & Hl & Hlb & buf' & Ep & Hto & Hzb). cbn [mbind res_bind]. rewrite Ep. cbn [mbind res_bind].
  exists ces, l. eexists _, _, buf', left. split; [done |]. rewrite <- Hpos. unfold block_subs. fold xs. rewrite Hzb.
  split_and!; try done. apply Forall_app. split; [done |]. apply Forall_map. eapply Forall_impl; [exact Hl |]. by intros [c d].
Qed.

(** ** What the UE does with it *)

Lemma effect_ces frame slot ces m : dl_effect frame slot (map DlCe ces) m = m.
Proof. by induction ces. Qed.

Lemma effect_sdus frame slot l m : dl_effect frame slot (map to_sub l) m = m.
Proof. by induction l. Qed.

Lemma block_effect frame slot s ces l m :
  dl_effect frame slot (block_subs s ces l) m =
    if ta_apply s then set_time_alignment m (ta_update s) adjustment_ta frame slot else m.
Proof.
  assert (Happ : ∀ xs ys m, dl_effect frame slot (xs ++ ys) m = dl_effect frame slot ys (dl_effect frame slot xs m))
    by (intros; apply foldl_app).
  unfold block_subs. rewrite !Happ. rewrite effect_sdus, effect_ces. unfold opt_sub. by case_match.
Qed.

(** The SDUs of the channels that are not suspended. *)
Definition unsuspended (lcs : list lc_info) (l : list (Z * bytes)) : list (Z * bytes) :=
  List.filter (λ q, negb (is_lcid_suspended lcs q.1)) l.

Lemma block_sdus lcs s ces l : dl_sdus lcs (block_subs s ces l) = unsuspended lcs l.
Proof.
  unfold block_subs, dl_sdus. rewrite !map_app, !concat_app.
  assert (concat (map (dl_sub_sdus lcs) (opt_sub (ta_apply s) (DlTa (ta_update s)))) = []) as -> by (unfold opt_sub; by case_match).
  assert (concat (map (dl_sub_sdus lcs) (map DlCe ces)) = []) as -> by (by induction ces).
  simpl. induction l as [| [c d] l IH]; [done |]. simpl. rewrite IH. by destruct (is_lcid_suspended lcs c).
Qed.

Lemma ue_receives_block iq now frame slot tag TBS s ces l tb post m (v : nr_rlc_ue_t E) :
  0 <= tag < 4 → Forall dl_sub_ok (block_subs s ces l) → tb_octets tag TBS (block_subs s ces l) tb → tag_Id m = tag →
  ra_state (um_ra m) ≠ nrRA_WAIT_MSGB →
  nr_ue_process_mac_pdu iq now frame slot (take (Z.to_nat TBS) tb ++ post) TBS m v =
    if zlen (unsuspended (lc_ordered_list m) l) <? MAX_NUM_DATA_IND then
      v' ← rlc_receive now v (unsuspended (lc_ordered_list m) l);
      Ok (if ta_apply s then set_time_alignment m (ta_update s) adjustment_ta frame slot else m, v')
    else Exit.
Proof.
  intros Htag Hok (pad & Htk & Hpad & Hz) Hm Hra. rewrite Htk, <- Hz, <- app_assoc.
  rewrite ue_process_ok by done. by rewrite block_sdus, block_effect.
Qed.
End block.
