(* ===== verification/MacUmTransfer.v ===== *)
(** * UM bearer over MAC: from the RLC of the gNB to the RLC of the UE

    A UM bearer whose PDUs travel in the transport blocks of [generate_dl_mac_pdu] to
    [nr_ue_process_mac_pdu]: the composition of the MAC PDU ([MacDlGnb]) with the transfer between
    two UM entities ([RlcUmTransfer]). *)

From S2P Require Import Prelude RlcPdu RlcEntity RlcUm RlcUmTx RlcUmRx RlcUmProps RlcUmLink RlcUmTransfer.
From S2P Require Import RlcApi RlcApiLaws MacPdu MacDl MacUeRx MacDlGnb.

Abbreviation um_ue := (nr_rlc_ue_t nr_rlc_entity_um_t).

(** ** One bearer at both ends *)

(** Channel [c] of [u] is the bearer in [s], whose entity is [e]. *)
Definition bearer (u : um_ue) (c : Z) (s : rb_slot) (e : nr_rlc_entity_um_t) : Prop :=
  lcid_slot u c = Ok (Some s) ∧ rb_get u s = Ok (Some e).

Lemma bearer_entity u c s e : bearer u c s e → get_rlc_entity_from_lcid u c = Ok (Some (s, e)).
Proof. intros [H1 H2]. by apply get_entity_intro. Qed.

Lemma bearer_put u c s e e' : bearer u c s e → bearer (rb_put u s e') c s e'.
Proof. intros [H1 H2]. split; [by rewrite slot_put | apply get_put_eq; eauto]. Qed.

(** ** The PDUs of one visit *)

Section visit.
Context (snlen c now' now_us : Z) (sent : list bytes).

(** The receiver has [b'] after the PDUs [l], and the link is in order again. *)
Definition delivered_to (v : um_ue) (s : rb_slot) (l : list (Z * bytes)) (a' : nr_rlc_entity_um_t) : Prop :=
  ∃ v' b' done ds pos, rlc_receive now' v l = Ok v' ∧ bearer v' c s b' ∧ link_inv snlen (mk_link a' b' sent) done ds pos.

Lemma generates_deliver a tb ds a' tb' : rlc_generates now_us a tb ds a' tb' → (snlen = 12 → tb' ≠ 5) →
  ∀ v s b done ws pos, bearer v c s b → link_inv snlen (mk_link a b sent) done ws pos →
  delivered_to v s (map (pair c) ds) a'.
Proof.
  induction 1 as [a tb | a tb buffer buf a' Htb Hbuf Hg | a tb buffer n buf a1 ds a' tb' Htb Hbuf Hn Hg Hgen IH];
    intros H5 v s b done ws pos Hv Hi.
  - by exists v, b, done, ws, pos.
  - assert (Hloss : um_lossy a (tb - 3) = false).
    { apply not_lossy. rewrite (li_len _ _ _ _ _ Hi : sn_field_length a = snlen). intros H12. specialize (H5 H12). lia. }
    destruct (grant_safe snlen (mk_link a b sent) buffer (tb - 3) now_us done ws pos Hi Hbuf Hloss)
      as (k' & done' & ws' & pos' & E & Hi' & _). simpl in E. simpl in Hg. rewrite Hg in E. simpl in E. injection E as <-.
    by exists v, b, done', ws', pos'.
  - destruct (tick_rx_ok snlen (mk_link a b sent) now' done ws pos Hi) as (k1 & E1 & Hi1). simpl in E1. inv_bind E1.
    injection E1 as <-. rename a0 into b0.
    assert (Hloss : um_lossy a (tb - 3) = false).
    { destruct (um_lossy a (tb - 3)) eqn:El; [| done]. exfalso.
      destruct (generate_lost a buffer (tb - 3) now_us (proj1 (li_tx _ _ _ _ _ Hi)) El) as (? & ? & ? & _ & _ & Ez & _).
      simpl in Hg. unfold nr_rlc_entity_um_generate_pdu in Hg. rewrite Ez in Hg. simplify_eq. lia. }
    destruct (grant_safe snlen (mk_link a b0 sent) buffer (tb - 3) now_us done ws pos Hi1 Hbuf Hloss)
      as (k2 & done2 & ws2 & pos2 & E2 & Hi2 & _). simpl in E2. simpl in Hg. rewrite Hg in E2. cbn [mbind res_bind] in E2.
    revert E2. decide_false (n =? 0). intros E2. inv_bind E2. injection E2 as <-. rename a0 into b1.
    destruct (IH H5 (rb_put v s b1) s b1 done2 ws2 pos2) as (v' & b' & done3 & ws3 & pos3 & E3 & Hb3 & Hi3);
      [by eapply bearer_put | done |].
    exists v', b', done3, ws3, pos3. split; [| done]. simpl. rewrite (bearer_entity _ _ _ _ Hv). cbn [mbind res_bind].
    simpl (rb_set_time _ _). rewrite E. cbn [mbind res_bind]. simpl (rb_recv_pdu _ _). rewrite E0. cbn [mbind res_bind]. exact E3.
Qed.

(** The visit of the only channel in a transport block. *)
Lemma sends_deliver now u tb l u' tb' : rlc_sends now now_us [c] u tb l u' tb' → (snlen = 12 → tb' ≠ 5) →
  ∀ sa a v s b done ws pos, bearer u c sa a → bearer v c s b → link_inv snlen (mk_link a b sent) done ws pos →
  ∃ a', bearer u' c sa a' ∧ delivered_to v s l a'.
Proof.
  intros Hs H5 sa a v s b done ws pos Hu Hv Hi.
  inversion Hs as [| ? ? ? ? ? ? ? Hr | ? ? ? ? s0 e e1 ds e2 tb1 l0 ? ? Hg Ht Hgen Hr]; subst.
  { inversion Hr; subst. exists a. split; [done |]. by exists v, b, done, ws, pos. }
  inversion Hr; subst. rewrite (bearer_entity _ _ _ _ Hu) in Hg. injection Hg as <- <-.
  destruct (tick_tx_ok snlen (mk_link a b sent) now done ws pos Hi) as (k1 & E1 & Hi1). simpl in E1, Ht. rewrite Ht in E1.
  injection E1 as <-. rewrite app_nil_r. exists e2. split; [by eapply bearer_put |].
  by apply (generates_deliver _ _ _ _ _ Hgen H5 v s b done ws pos).
Qed.
End visit.

(** ** A run *)

Record mac_link := mk_ml {
  ml_gnb : dl_ue_t nr_rlc_entity_um_t;
  ml_harq : dl_harq_t;
  ml_mac : ue_mac_t;
  ml_rlc : um_ue;
  ml_sent : list bytes
}.

(** An SDU of PDCP; a new transmission, with the control information that the scheduler has by then,
    received by the UE (whose memory goes on with [post] after the block). *)
Inductive mac_op :=
| MacSubmit (sdu : bytes) (mui now now_us : Z)
| MacBlock (ev : dl_env) (s : dl_sched_ctrl_t) (frame rbSize TBS : Z) (iq : bool) (now' frame' slot' : Z) (post : bytes).

Definition mac_exec (d : Z) (k : mac_link) (op : mac_op) : res mac_link :=
  match op with
  | MacSubmit sdu mui now now_us =>
      rlc ← nr_rlc_data_req now now_us (dl_rlc (ml_gnb k)) false d mui sdu;
      o ← rb_get (dl_rlc (ml_gnb k)) (Drb (d - 1));
      accepted ← match o with
                 | None => Ok false
                 | Some e => e ← rb_set_time e now; Ok (zlen sdu <=? nr_rlc_entity_um_available_tx_space e)
                 end;
      Ok (mk_ml ((ml_gnb k) <| dl_rlc := rlc |>) (ml_harq k) (ml_mac k) (ml_rlc k)
            (if accepted : bool then ml_sent k ++ [sdu] else ml_sent k))
  | MacBlock ev s frame rbSize TBS iq now' frame' slot' post =>
      '(gnb, harq) ← generate_dl_mac_pdu ev frame rbSize TBS ((ml_gnb k) <| dl_ctrl := s |>) (ml_harq k);
      tb ← deref (hq_transportBlock harq);
      '(m, rlc) ← nr_ue_process_mac_pdu iq now' frame' slot' (take (Z.to_nat TBS) tb ++ post) TBS (ml_mac k) (ml_rlc k);
      Ok (mk_ml gnb harq m rlc (ml_sent k))
  end.

Fixpoint mac_run (d : Z) (k : mac_link) (ops : list mac_op) : res mac_link :=
  match ops with [] => Ok k | op :: ops => k ← mac_exec d k op; mac_run d k ops end.

(** What the rest of the gNB guarantees. *)
Definition mac_op_ok (c tag : Z) (op : mac_op) : Prop :=
  match op with
  | MacSubmit sdu _ _ _ => sdu_ok sdu
  | MacBlock ev s frame rbSize TBS _ _ _ _ _ =>
      ev_tag_id ev = tag ∧ ce_ctrl_ok s ∧ ce_size s < TBS <= 2 ^ 31 ∧ (∀ n, 0 <= n → zlen (ev_malloc ev n) = n) ∧
      (∀ n, zlen (ev_dl_lcid_alloc ev n) = 32) ∧ map lc_lcid (lc_config s) = [c]
  end.

Definition big_block (op : mac_op) : Prop := match op with MacBlock _ _ _ _ TBS _ _ _ _ _ => 4096 <= TBS | _ => False end.

Section run.
Context (snlen c d tag : Z) (Hc : 1 <= c < 32) (Hd : 1 <= d <= 32) (Htag : 0 <= tag < 4).

Record ml_static (k : mac_link) : Prop := {
  ms_round : hq_round (ml_harq k) = 0;
  ms_tb : match hq_transportBlock (ml_harq k) with Some b => TB_SINGLE_LAYER <= zlen b | None => True end;
  ms_stats : zlen (lc_bytes (dl_stats (ml_gnb k))) = 64;
  ms_tag : tag_Id (ml_mac k) = tag;
  ms_ra : ra_state (um_ra (ml_mac k)) ≠ nrRA_WAIT_MSGB;
  ms_active : is_lcid_suspended (lc_ordered_list (ml_mac k)) c = false
}.

Definition ml_inv (k : mac_link) : Prop :=
  ml_static k ∧ ∃ a s b done ds pos, bearer (dl_rlc (ml_gnb k)) c (Drb (d - 1)) a ∧ bearer (ml_rlc k) c s b ∧
    link_inv snlen (mk_link a b (ml_sent k)) done ds pos.

Lemma mac_submit_ok k sdu mui now now_us :
  ml_inv k → sdu_ok sdu → ∃ k', mac_exec d k (MacSubmit sdu mui now now_us) = Ok k' ∧ ml_inv k'.
Proof using Hd.
  intros [Hst (a & s & b & done & ds & pos & Ha & Hb & Hi)] Hsdu. simpl. unfold nr_rlc_data_req.
  decide_true ((1 <=? d) && (d <=? 32)). pose proof Ha as [_ Hget]. rewrite Hget. cbn [mbind res_bind].
  destruct (tick_tx_ok snlen _ now done ds pos Hi) as (k1 & E1 & Hi1). simpl in E1. inv_bind E1. injection E1 as <-. rename a0 into a1.
  simpl (rb_set_time _ _). rewrite E. cbn [mbind res_bind].
  destruct (submit_ok snlen _ sdu mui now_us done ds pos Hi1 Hsdu) as (k2 & ds2 & E2 & Hi2). simpl in E2. inv_bind E2.
  injection E2 as <-. rename a0 into a2. simpl (rb_recv_sdu _ _ _ _). rewrite E0. cbn [mbind res_bind]. simpl in Hget. rewrite Hget. cbn [mbind res_bind]. rewrite E. cbn [mbind res_bind].
  eexists. split; [done |]. split; [by destruct Hst; constructor |].
  exists a2, s, b, done, ds2, pos. split; [by eapply bearer_put |]. split; [done |]. exact Hi2.
Qed.

Lemma sends_channel now now_us u tb l u' tb' : rlc_sends (E:=nr_rlc_entity_um_t) now now_us [c] u tb l u' tb' → 0 <= tb →
  Forall (λ q, q.1 = c) l ∧ 4 * zlen l <= tb.
Proof using.
  clear. intros Hs H0. inversion Hs as [| ? ? ? ? ? ? ? Hr | ? ? ? ? s0 e e1 ds e2 tb1 l0 ? ? Hg Ht Hgen Hr]; subst;
    inversion Hr; subst; [split; [constructor | unfold zlen; simpl; lia] |].
  rewrite app_nil_r. destruct (generates_room _ _ _ _ _ _ Hgen H0). split.
  - apply Forall_map, Forall_true. done.
  - unfold zlen in *. rewrite length_map. lia.
Qed.

Lemma unsuspended_all lcs l : Forall (λ q, q.1 = c) l → is_lcid_suspended lcs c = false → unsuspended lcs l = l.
Proof using.
  clear. intros Hl Hs. unfold unsuspended. induction Hl as [| q l Hq Hl IH]; [done |]. simpl. rewrite Hq, Hs. simpl. by rewrite IH.
Qed.

Lemma mac_block_ok k ev s frame rbSize TBS iq now' frame' slot' post :
  ml_inv k → snlen = 6 → let op := MacBlock ev s frame rbSize TBS iq now' frame' slot' post in mac_op_ok c tag op →
  (∃ k', mac_exec d k op = Ok k' ∧ ml_inv k') ∨ (mac_exec d k op = Exit ∧ big_block op).
Proof using Hc Htag.
  intros [Hst (a & sb & b & done & ds & pos & Ha & Hb & Hi)] H6 op (Htg & Hce & Hsz & Hmal & Hall & Hlc).
  pose proof Hst as [Hr Htb Hs64 Htm Hra Hact]. subst op. simpl. set (ue := (ml_gnb k) <| dl_ctrl := s |>).
  assert (Hready : dl_block_ready ev TBS ue (ml_harq k)).
  { constructor; [done | by rewrite Htg | done | done | by split | done | | | done | done]; simpl; rewrite ?Hlc.
    - destruct (lc_config s) as [| x [|]]; simplify_eq/=. repeat constructor; lia.
    - split_and!; [| done | done]. destruct Ha as [Hs1 Hs2]. exists (Some (Drb (d - 1))). split; [done |].
      exists (Some a). split; [done |]. split; [apply (li_tx _ _ _ _ _ Hi) | done]. }
  destruct (generate_block_ok ev frame rbSize TBS ue (ml_harq k) Hready)
    as (ces & l & ue' & harq' & tb & left & -> & Hr' & Htb' & Hztb & _ & Hst64 & Hsend & Hok & Hto).
  cbn [mbind res_bind]. rewrite Htb'. cbn [deref mbind res_bind]. simpl (dl_ctrl ue) in *. rewrite Hlc in Hsend.
  pose proof (ce_size_bound s Hce) as Hcb.
  destruct (sends_channel _ _ _ _ _ _ _ Hsend ltac:(lia)) as [Hlc1 Hcnt].
  rewrite (ue_receives_block iq now' frame' slot' (ev_tag_id ev) TBS s ces l tb post); try done; try (by rewrite Htg).
  rewrite unsuspended_all by done. destruct (Z.ltb_spec (zlen l) MAX_NUM_DATA_IND) as [Hlt | Hge].
  2: { right. split; [done |]. simpl. unfold MAX_NUM_DATA_IND in Hge. lia. }
  left. destruct (sends_deliver snlen c now' (ev_now_us ev) (ml_sent k) _ _ _ _ _ _ Hsend ltac:(lia) _ a (ml_rlc k) sb b done ds pos Ha Hb Hi)
    as (a' & Ha' & v' & b' & done' & ds' & pos' & E & Hb' & Hi').
  rewrite E. cbn [mbind res_bind]. eexists. split; [done |]. split.
  - constructor; simpl; try done; try (by rewrite Htb'); by destruct (ta_apply s).
  - exists a', sb, b', done', ds', pos'. done.
Qed.

Lemma mac_run_ok ops : ∀ k, ml_inv k → snlen = 6 → Forall (mac_op_ok c tag) ops →
  (∃ k', mac_run d k ops = Ok k' ∧ ml_inv k') ∨ (mac_run d k ops = Exit ∧ Exists big_block ops).
Proof using Hc Hd Htag.
  induction ops as [| op ops IH]; intros k Hi H6 Hops; simpl; [left; by exists k |].
  apply Forall_cons in Hops as [Hop Hops].
  assert (H : (∃ k', mac_exec d k op = Ok k' ∧ ml_inv k') ∨ (mac_exec d k op = Exit ∧ big_block op)).
  { destruct op as [sdu mui now now_us | ev s frame rbSize TBS iq now' frame' slot' post];
      [left; by apply mac_submit_ok | by apply mac_block_ok]. }
  destruct H as [(k1 & -> & Hi1) | [-> Hbig]]; cbn [mbind res_bind]; [| right; split; [done | by left]].
  destruct (IH k1 Hi1 H6 Hops) as [? | [? ?]]; [by left | right; split; [done | by right]].
Qed.
End run.
