(* ===== verification/MacDlProps.v ===== *)
(** * Downlink MAC PDU: theorems

    The transfer of SDUs from the RLC of the gNB to the RLC of the UE, over one transport block and
    over a run, and what goes wrong outside of the conditions of these theorems. *)

From S2P Require Import Prelude RlcPdu RlcEntity RlcUm RlcUmTx RlcUmRx RlcUmProps RlcUmLink RlcUmTransfer.
From S2P Require Import RlcApi RlcApiLaws MacPdu MacDl MacUeRx MacDlGnb MacUmTransfer.

(** ** Concrete states *)

Definition um6 (rx tx : Z) : nr_rlc_entity_um_t :=
  match new_nr_rlc_entity_um rx tx 35 6 with Ok e => e | _ => um12 end.

(** A UE with one DRB on channel 4. *)
Definition rlc_ue_of {E} (e : E) : nr_rlc_ue_t E :=
  mk_rlc_ue 1 None (replicate 3 None) (Some e :: replicate 31 None)
    ([NR_LCID_NONE; NR_LCID_NONE; NR_LCID_NONE; NR_LCID_DRB 1] ++ replicate 28 NR_LCID_NONE).

Definition no_states : tci_states_t := mk_states false 0 0 0 (replicate 128 false).
Definition ce_none : NR_UE_mac_ce_ctrl_t :=
  mk_ce (mk_zp false false 0 0 0) (mk_im false false 0 0 false 0 0 0 []) (mk_tci false 0 0)
    (mk_spc false 0 0 [false; false; false; false]) no_states no_states.
(** A timing advance, a TCI state, an aperiodic CSI selection and channel 4. *)
Definition ce_some : NR_UE_mac_ce_ctrl_t :=
  ce_none <| tci_state_ind := mk_tci true 5 9 |>
          <| aperi_CSI_trigger := mk_states true 1 2 17 (replicate 128 true) |>.
Definition ctrl_of (c : NR_UE_mac_ce_ctrl_t) (ta : bool) : dl_sched_ctrl_t := mk_dlctrl [mk_lc 4 false] 100 0 40 ta c.

Definition stats0 : NR_mac_dir_stats_t := mk_stats (replicate 64 0) 0 0 0 0 0 0 0.
Definition gnb_of {E} (c : dl_sched_ctrl_t) (e : E) : dl_ue_t E := mk_dlue c stats0 0 (rlc_ue_of e).
Definition harq0 : dl_harq_t := mk_dlharq 0 false None 0.
Definition env0 : dl_env :=
  mk_dlenv false false 1 (λ _, replicate 32 1) 5 7 (λ _, 0) (λ n, replicate (Z.to_nat n) 170) false.
Definition ra0 : RA_config_t := mk_ra nrRA_SUCCEEDED false false false 0 [1; 2; 3; 4; 5; 6] false false 0 10 0 1 0 0 0 0 0.
Definition ue0 : ue_mac_t := mk_uemac ra0 1 0 false true (mk_ta no_ta 0 0 0) 0 20 [mk_lcinfo 4 false] [].

Lemma ctrl_ok c ta : c = ce_none ∨ c = ce_some → ce_ctrl_ok (ctrl_of c ta).
Proof. intros [-> | ->]; by constructor. Qed.

Lemma malloc_ok n : 0 <= n → zlen (ev_malloc env0 n) = n.
Proof. intros. simpl. unfold zlen. rewrite length_replicate. lia. Qed.

(** ** One transport block *)


(** Two SDUs in a block of 60 octets, with three control elements. *)
Definition um_loaded1 : nr_rlc_entity_um_t :=
  match nr_rlc_entity_um_recv_sdu (um6 1000 1000) [1; 2; 3] 1 0 with Ok e => e | _ => um12 end.
Definition um_loaded : nr_rlc_entity_um_t :=
  match nr_rlc_entity_um_recv_sdu um_loaded1 [4; 5; 6; 7] 2 0 with Ok e => e | _ => um12 end.

Lemma um_loaded_inv : um_inv um_loaded.
Proof.
  apply um_reachable_inv, (um_reach_step um_loaded1); [apply (um_reach_step (um6 1000 1000)) |].
  - by apply (um_reach_new 1000 1000 35 6).
  - apply (um_step_op _ (UmRecvSdu [1; 2; 3] 1 0)); [by vm_compute | vm_compute; reflexivity].
  - apply (um_step_op _ (UmRecvSdu [4; 5; 6; 7] 2 0)); [by vm_compute | vm_compute; reflexivity].
Qed.


(** ** A run of a UM bearer *)

(** C3: (refinement) UM bearer over MAC: a UM bearer with 6-bit SNs, the only logical channel of its
    UE, from the RLC entity of the gNB through the transport blocks of its MAC to the RLC entity of
    the UE, which has room for [NR_SDU_MAX] octets, is a FIFO of SDUs. The UE has the channel in
    service and is not waiting for a MsgB, both ends agree on the TAG ([ml_static]). For any
    sequence of SDUs of 1 to [NR_SDU_MAX] octets from PDCP and of first transmissions of any size up
    to 2^31 that hold their control elements, and any control elements but the SP CSI-RS / CSI-IM
    one (which the UE misparses, [dl_csi_im_misparsed]), every step returns, and the SDUs that the
    UE delivered, followed by those waiting at the gNB, are exactly the SDUs that the gNB accepted,
    unchanged and in order; or the UE aborts, which needs a transport block of 4096 octets or more.
    *)
Theorem mac_um_transfer c d tag a b rxa txa ta rxb txb tb k ops :
  1 <= c < 32 → 1 <= d <= 32 → 0 <= tag < 4 →
  new_nr_rlc_entity_um rxa txa ta 6 = Ok a → new_nr_rlc_entity_um rxb txb tb 6 = Ok b → NR_SDU_MAX <= rxb →
  ml_static c tag k → ml_sent k = [] → bearer (dl_rlc (ml_gnb k)) c (Drb (d - 1)) a → (∃ s, bearer (ml_rlc k) c s b) →
  Forall (mac_op_ok c tag) ops →
  (∃ k' a' s b' done waiting pos, mac_run d k ops = Ok k' ∧
     bearer (dl_rlc (ml_gnb k')) c (Drb (d - 1)) a' ∧ bearer (ml_rlc k') c s b' ∧
     out (common b') = delivered done ∧ um_waiting a' pos waiting ∧ ml_sent k' = done ++ waiting) ∨
  (mac_run d k ops = Exit ∧ Exists big_block ops).
Proof.
  intros Hc Hd Htag Ha Hb Hroom Hst Hsent Hba (s & Hbb) Hops.
  assert (Hi : ml_inv 6 c d tag k).
  { split; [done |]. exists a, s, b, [], [], 0. rewrite Hsent. split_and!; [done.. |]. by eapply link_init. }
  destruct (mac_run_ok 6 c d tag Hc Hd Htag ops k Hi eq_refl Hops) as [(k' & Hrun & _ & a' & s' & b' & done & ds & pos & H1 & H2 & H3) | ?];
    [left | by right].
  exists k', a', s', b', done, ds, pos. destruct H3 as [_ _ _ _ Hw _ Ho Hs]. by split_and!.
Qed.

Definition mac0 (a b : nr_rlc_entity_um_t) : mac_link := mk_ml (gnb_of (ctrl_of ce_none false) a) harq0 ue0 (rlc_ue_of b) [].
Definition block (c : NR_UE_mac_ce_ctrl_t) (ta : bool) (TBS : Z) : mac_op :=
  MacBlock env0 (ctrl_of c ta) 3 10 TBS false 9 3 4 [].

(** Three SDUs over blocks of 12, 8, 60 and 9 octets, with control elements in between. *)
Definition mac_demo_ops : list mac_op :=
  [MacSubmit [1; 2; 3; 4; 5] 1 0 0; MacSubmit [6] 2 0 0; block ce_none true 12; block ce_none false 8;
   MacSubmit [7; 8; 9] 3 1 1; block ce_some true 60; block ce_none false 9].

Lemma block_op_ok c ta TBS : c = ce_none ∨ c = ce_some → 14 < TBS <= 2 ^ 31 ∨ (c = ce_none ∧ 2 < TBS <= 2 ^ 31) →
  mac_op_ok 4 1 (block c ta TBS).
Proof.
  intros Hc Hs. split_and!; [done | by apply ctrl_ok | | | exact malloc_ok | done | done].
  - destruct Hc as [-> | ->], ta, Hs as [? | [? ?]]; try done; vm_compute (ce_size _); lia.
  - destruct Hs as [? | [? ?]]; lia.
Qed.

Lemma mac_um_transfer_witness :
  (∃ k' a' s b' done waiting pos, mac_run 1 (mac0 (um6 100000 100000) (um6 100000 100000)) mac_demo_ops = Ok k' ∧
     bearer (dl_rlc (ml_gnb k')) 4 (Drb 0) a' ∧ bearer (ml_rlc k') 4 s b' ∧
     out (common b') = delivered done ∧ um_waiting a' pos waiting ∧ ml_sent k' = done ++ waiting) ∨
  (mac_run 1 (mac0 (um6 100000 100000) (um6 100000 100000)) mac_demo_ops = Exit ∧ Exists big_block mac_demo_ops).
Proof.
  apply (mac_um_transfer 4 1 1 (um6 100000 100000) (um6 100000 100000) 100000 100000 35 100000 100000 35
           (mac0 (um6 100000 100000) (um6 100000 100000)) mac_demo_ops);
    [done | done | done | reflexivity | reflexivity | done | by constructor | done | done | by exists (Drb 0) |].
  unfold mac_demo_ops. repeat (apply List.Forall_cons;
    [first [by split | apply block_op_ok; [(by left) || (by right) | (left; lia) || (right; split; [done | lia])]] |]).
  constructor.
Defined.

(** ** Where it goes wrong *)

(** The clock does not touch the transmission side. *)
Lemma set_time_tx e now : um_inv e →
  ∃ e', nr_rlc_entity_um_set_time e now = Ok e' ∧ um_tx_inv e' ∧ um_tx_state e' = um_tx_state e.
Proof.
  intros [Ht Hr]. unfold nr_rlc_entity_um_set_time. set (e0 := e <| t_current := now |>).
  assert (Hr0 : um_rx_inv e0) by (destruct Hr as [[[] ? ? ? ? ? ? ?] ?]; split; [by constructor | done]).
  destruct (check_t_reassembly_ok e0 Hr0) as (e' & -> & _ & Htx). change (um_tx_state e0) with (um_tx_state e) in Htx.
  exists e'. split_and!; [done | | done]. by apply (um_tx_state_inv e e').
Qed.

Lemma multi_data_lossy e buf pos now_us n :
  um_tx_inv e → um_lossy e 2 = true → 0 <= pos → pos + 3 <= zlen buf →
  ∃ s l e', tx_list e = s :: l ∧ tx_list e' = l ∧ tx_size e' = tx_size e ∧
    multi_data_loop now_us (S n) e buf pos 5 = Ok ([], buf, e').
Proof.
  intros Hinv Hloss Hp Hb.
  destruct (generate_lost e (drop (Z.to_nat (pos + 3)) buf) 2 now_us Hinv Hloss) as (s & l & e' & Hl & _ & Hg & _ & Hl' & Hs & _).
  exists s, l, e'. split_and!; [done.. |]. cbn [multi_data_loop]. change (0 <? 5 - 3) with true. cbv iota.
  change (5 - 3) with 2. cbn [rb_generate_pdu um_entity]. unfold nr_rlc_entity_um_generate_pdu. rewrite Hg. cbn [mbind res_bind].
  by rewrite Z.eqb_refl, take_drop.
Qed.

Lemma multi_req_lossy now now_us u c s e x l buf pos n :
  bearer u c s e → um_inv e → sn_field_length e = 12 →
  tx_list e = x :: l → seg_is_first x = true → seg_is_last x = true → 2 <= seg_size x →
  0 <= pos → pos + 5 <= zlen buf → 0 < n →
  ∃ e', nr_mac_rlc_multi_data_req now now_us u c 5 buf pos n = Ok ([], buf, rb_put u s e') ∧
    tx_list e' = l ∧ tx_size e' = tx_size e.
Proof.
  intros Hb Hi H12 Hl Hf Hla Hsz Hp Hlen Hn.
  destruct (set_time_tx e now Hi) as (e1 & E1 & Hi1 & Htx).
  assert (Hl1 : tx_list e1 = x :: l ∧ tx_size e1 = tx_size e ∧ sn_field_length e1 = 12)
    by (unfold um_tx_state, um_params in Htx; injection Htx as _ ? _ ? _ _ _ ? _ _ _; split_and!; congruence).
  destruct Hl1 as (Hl1 & Hs1 & H121).
  assert (Hloss : um_lossy e1 2 = true) by (unfold um_lossy; rewrite Hl1, Hf, Hla, H121; simpl; by apply Z.leb_le).
  destruct (multi_data_lossy e1 buf pos now_us (Z.to_nat (n - 1)) Hi1 Hloss Hp ltac:(lia)) as (s' & l' & e' & Hs' & Hl' & Hts & Hm).
  rewrite Hl1 in Hs'. simplify_eq. exists e'. split; [| split; [done | congruence]].
  unfold nr_mac_rlc_multi_data_req. rewrite (bearer_entity _ _ _ _ Hb). cbn [mbind res_bind].
  change (rb_set_time e now) with (nr_rlc_entity_um_set_time e now). rewrite E1. cbn [mbind res_bind].
  replace (Z.to_nat n) with (S (Z.to_nat (n - 1))) by lia. by rewrite Hm.
Qed.

(** C37: (error) Five octets lose an SDU.  When the downlink scheduler comes to a logical channel with
    five octets left in the transport block, and the channel is a UM bearer with 12-bit SNs whose
    first SDU waiting has two octets or more and is not yet segmented, [nr_mac_rlc_multi_data_req]
    keeps three octets for the subheader and asks for a PDU of two, and the entity drops the SDU:
    nothing is written to the block, the SDU is gone from the queue, and its octets stay counted in
    [tx_size]. *)
Theorem dl_five_octets_lose_sdu ev alloc c amount bytes st s e x l :
  bearer (ll_rlc st) c s e → um_inv e → sn_field_length e = 12 →
  tx_list e = x :: l → seg_is_first x = true → seg_is_last x = true → 2 <= seg_size x →
  znth alloc c = Some amount → amount ≠ 0 → znth (ll_lc_bytes st) c = Some bytes →
  0 <= ll_pos st → ll_pos st + 5 <= zlen (ll_buf st) →
  ∃ e' counters,
    dl_logical_channel ev alloc (ll_pos st + 5) c st =
      Ok (mk_lcloop (ll_buf st) (ll_pos st) (rb_put (ll_rlc st) s e') counters (ll_sdus st + 0) (ll_total st + 0)) ∧
    bearer (rb_put (ll_rlc st) s e') c s e' ∧ tx_list e' = l ∧ tx_size e' = tx_size e.
Proof.
  intros Hb Hi H12 Hl Hf Hla Hsz Ha Hne Hby Hp Hlen.
  unfold dl_logical_channel. assert (HK : 0 < MAX_NUM_DATA_REQ) by done. revert HK. generalize MAX_NUM_DATA_REQ as K. intros K HK.
  destruct (multi_req_lossy (ev_now ev) (ev_now_us ev) _ c s e x l _ _ K Hb Hi H12 Hl Hf Hla Hsz Hp Hlen HK) as (e' & Hm & Hl' & Hs').
  eexists e', _. split; [| split; [exact (bearer_put _ _ _ _ e' Hb) | done]].
  rewrite Ha. cbn [deref mbind res_bind]. decide_false (amount =? 0). replace (ll_pos st + 5 - ll_pos st) with 5 by lia.
  rewrite Hm. cbn [mbind res_bind]. change (zlen []) with 0. decide_true (0 <=? K).
  rewrite Hby. cbn [assert_that put_long_headers deref mbind res_bind].
  by rewrite zset_Ok by by apply znth_Some in Hby.
Qed.

Definition five_left : lc_loop_t nr_rlc_entity_um_t :=
  mk_lcloop (replicate 8 0) 3 (rlc_ue_of um12_sdu) (replicate 64 0) 0 0.

Lemma dl_five_octets_lose_sdu_witness :
  ∃ e' counters, dl_logical_channel env0 (replicate 32 1) 8 4 five_left =
      Ok (mk_lcloop (ll_buf five_left) 3 (rb_put (ll_rlc five_left) (Drb 0) e') counters (0 + 0) (0 + 0)) ∧
    bearer (rb_put (ll_rlc five_left) (Drb 0) e') 4 (Drb 0) e' ∧ tx_list e' = [] ∧ tx_size e' = tx_size um12_sdu.
Proof.
  by apply (dl_five_octets_lose_sdu env0 (replicate 32 1) 4 1 0 five_left (Drb 0) um12_sdu (mk_segment 1 0 5 0 true true) []);
    [| apply um_reachable_inv, um12_sdu_reachable | ..].
Defined.

(** (functional) The byte budgets of the LCID policy have no effect: [dl_lcid_alloc] says how many
    bytes each channel gets, and the loop over the channels uses only whether that is zero.  Two
    policies that agree on which channels get nothing give the same block. *)
Theorem dl_lcid_budget_ignored {E} `{RlcEntity E} ev alloc alloc' bufEnd cs (st : lc_loop_t E) :
  zlen alloc = zlen alloc' →
  (∀ lcid a a', znth alloc lcid = Some a → znth alloc' lcid = Some a' → a = 0 ↔ a' = 0) →
  dl_logical_channels ev alloc bufEnd cs st = dl_logical_channels ev alloc' bufEnd cs st.
Proof.
  intros Hz Ha. revert st. induction cs as [| c cs IH]; intros st; simpl; [done |].
  assert (Hone : dl_logical_channel ev alloc bufEnd (lc_lcid c) st = dl_logical_channel ev alloc' bufEnd (lc_lcid c) st).
  { unfold dl_logical_channel. destruct (znth alloc (lc_lcid c)) as [x |] eqn:E1.
    - destruct (znth_is_Some alloc' (lc_lcid c)) as [y E2]; [rewrite <- Hz; by eapply znth_Some |].
      rewrite E2. cbn [deref mbind res_bind]. specialize (Ha _ _ _ E1 E2).
      destruct (Z.eqb_spec x 0), (Z.eqb_spec y 0); naive_solver.
    - destruct (znth alloc' (lc_lcid c)) as [y |] eqn:E2; [| done]. exfalso.
      destruct (znth_is_Some alloc (lc_lcid c)) as [? ?]; [rewrite Hz; by eapply znth_Some | congruence]. }
  rewrite Hone. destruct (dl_logical_channel ev alloc' bufEnd (lc_lcid c) st); [apply IH | done..].
Qed.

(** Budgets of one byte and of 1000 bytes for the two SDUs of channel 4. *)
Lemma dl_lcid_budget_ignored_witness :
  dl_logical_channels env0 (replicate 32 1) 60 [mk_lc 4 false]
    (mk_lcloop (replicate 60 0) 0 (rlc_ue_of um_loaded) (replicate 64 0) 0 0) =
  dl_logical_channels env0 (replicate 32 1000) 60 [mk_lc 4 false]
    (mk_lcloop (replicate 60 0) 0 (rlc_ue_of um_loaded) (replicate 64 0) 0 0).
Proof.
  apply (dl_lcid_budget_ignored env0 (replicate 32 1) (replicate 32 1000)); [done |].
  intros lcid x y H1 H2. unfold znth in *. destruct (lcid <? 0); [done |].
  apply lookup_replicate in H1 as [-> _], H2 as [-> _]. done.
Defined.

(** C38: (safety) The UE gives RLC octets that are not of the PDU: [get_mac_len] compares the length of
    an SDU with what is left of the PDU without its subheader.  An SDU whose length field is one or
    two octets too long for the PDU ([data] are all octets of the PDU after the subheader, [post]
    is what follows in memory) is accepted and RLC gets octets of [post]. *)
Theorem ue_sdu_past_end {E} `{RlcEntity E} iq now frame slot lcid L data post m (v : nr_rlc_ue_t E) :
  1 <= lcid <= 32 → is_lcid_suspended (lc_ordered_list m) lcid = false → ra_state (um_ra m) ≠ nrRA_WAIT_MSGB →
  zlen data < L <= zlen data + 2 → L < 256 → L <= zlen data + zlen post →
  nr_ue_process_mac_pdu iq now frame slot ([lcid; L] ++ data ++ post) (2 + zlen data) m v =
    (v' ← rlc_receive now v [(lcid, take (Z.to_nat L) (data ++ post))]; Ok (m, v')).
Proof.
  intros Hl Hs Hra HL HL2 Hpost. pose proof (zlen_nonneg data). unfold nr_ue_process_mac_pdu.
  rewrite bool_decide_eq_false_2, andb_false_r by done. cbn [mbind res_bind]. rewrite Z.sub_0_r.
  destruct (Z.to_nat (2 + zlen data)) as [| fuel] eqn:Ef; [lia |]. cbn [ue_parse]. decide_true (0 <? 2 + zlen data).
  assert (Hmem : [lcid; L] ++ data ++ post = [] ++ NR_MAC_SUBHEADER_SHORT lcid L ++ data ++ post).
  { unfold NR_MAC_SUBHEADER_SHORT. by rewrite !Z.mod_small by lia. }
  assert (Hlen : get_mac_len ([lcid; L] ++ data ++ post) 0 (2 + zlen data) 0 1 = Ok (true, L, 2)).
  { unfold get_mac_len. decide_false (2 + zlen data <? 2). change (znth ([lcid; L] ++ data ++ post) 0) with (Some lcid).
    change (znth ([lcid; L] ++ data ++ post) (0 + 1)) with (Some L). cbn [deref mbind res_bind].
    destruct (fixed_lcid lcid ltac:(lia)) as [_ ->]. cbn [andb mbind res_bind]. by decide_false (2 + zlen data <? L). }
  assert (Esub : ue_subpdu iq frame slot ([lcid; L] ++ data ++ post) 0 (2 + zlen data) m =
                 Ok (mk_turn m L 2 false [mk_ind lcid 2 L] false)).
  { unfold ue_subpdu. change (znth ([lcid; L] ++ data ++ post) 0) with (Some lcid). cbn [deref mbind res_bind].
    destruct (fixed_lcid lcid ltac:(lia)) as [-> _]. unfold dl_variable_ce, dl_skipped_len. autounfold with lcid.
    repeat match goal with |- context [lcid =? ?c] => decide_false (lcid =? c) end.
    decide_true ((1 <=? lcid) && (lcid <=? 32)). simpl orb. cbn iota. unfold ue_sdu. rewrite Hlen. cbn [mbind res_bind negb].
    by rewrite Hs. }
  rewrite Esub. cbn [mbind res_bind tn_ind tn_return tn_done tn_mac tn_hdr tn_len app].
  change (assert_that (zlen [mk_ind lcid 2 L] <? MAX_NUM_DATA_IND)) with (Ok tt). cbn [mbind res_bind orb].
  decide_true (2 + zlen data - (2 + L) <? 0). cbn [mbind res_bind].
  rewrite (data_ind_receive now _ _ [(lcid, take (Z.to_nat L) (data ++ post))]); [done |].
  constructor; [| done]. split; [done |]. cbn [ind_buf ind_len snd]. rewrite slice_Some; [done | lia | lia |].
  simpl app. rewrite !zlen_cons, zlen_app. lia.
Qed.

(** A PDU of three octets; the two octets 98 and 99 after it reach RLC. *)
Lemma ue_sdu_past_end_witness :
  nr_ue_process_mac_pdu false 9 3 4 ([4; 3] ++ [10] ++ [98; 99]) 3 ue0 (rlc_ue_of (um6 1000 1000)) =
    (v' ← rlc_receive 9 (rlc_ue_of (um6 1000 1000)) [(4, [10; 98; 99])]; Ok (ue0, v')).
Proof. apply (ue_sdu_past_end false 9 3 4 4 3 [10] [98; 99] ue0 (rlc_ue_of (um6 1000 1000))); (done || lia). Defined.

(** (error) The SP CSI-RS / CSI-IM element is written with a subheader without length and read with one:
    in this block of two SDUs the UE takes the first octet of the element for its length, and then a
    part of the next subheader for a CCCH message that is too long, which ends the process. *)
Theorem dl_csi_im_misparsed :
  mac_exec 1 (mac0 um_loaded (um6 1000 1000))
    (block (ce_none <| csi_im := mk_im true false 0 0 false 0 0 0 [] |>) false 30) = Exit.
Proof. vm_compute. reflexivity. Qed.

(** (error) Two-step random access applies a wrong timing advance: the command in the successRAR is
    stored, but the UE applies the low bits of octet 1 of the PDU, the first octet of the contention
    resolution identity. *)
Theorem successrar_wrong_timing_advance iq mem pdu_len m frame slot n m' :
  nr_ue_validate_successrar iq mem pdu_len m frame slot = Ok (n, m') →
  ∃ b, znth mem 1 = Some b ∧ al_ta_command (ul_time_alignment m') = Z.land b 63.
Proof.
  unfold nr_ue_validate_successrar. intros Hv. inv_bind Hv. destruct a as [n0 m0]. inv_bind Hv. simplify_eq.
  unfold deref in E0. destruct (znth mem 1) as [b |] eqn:Eb; simplify_eq. by exists a.
Qed.

(** A successRAR with identity 10 20 30 40 50 60 and timing advance command 0x123. *)
Lemma successrar_wrong_timing_advance_witness :
  ∃ b, znth [32; 10; 20; 30; 40; 50; 60; 0; 1; 35; 70; 1] 1 = Some b ∧
    al_ta_command (ul_time_alignment
      match nr_ue_validate_successrar true [32; 10; 20; 30; 40; 50; 60; 0; 1; 35; 70; 1] 12 ue0 3 4 with
      | Ok (_, m) => m | _ => ue0 end) = Z.land b 63.
Proof.
  apply (successrar_wrong_timing_advance true [32; 10; 20; 30; 40; 50; 60; 0; 1; 35; 70; 1] 12 ue0 3 4 12).
  vm_compute. reflexivity.
Defined.
