(* ===== verification/MacBsr.v ===== *)
(** * NR MAC: buffer status reports

    The tables of openair2/LAYER2/NR_MAC_COMMON/nr_mac_common.c (38.321 table 6.1.3.1), the index a
    UE reports for a number of bytes ([nr_locate_BsrIndexByBufferSize] of nr_ue_scheduler.c) and the
    number of bytes the gNB makes of it (gNB_scheduler_ulsch.c). *)

From S2P Require Import Prelude MacPdu.

(** ** Tables *)

Definition NR_SHORT_BSR_TABLE : list Z := [
  0; 10; 14; 20; 28; 38; 53; 74; 102; 142; 198; 276; 384; 535; 745; 1038; 1446; 2014; 2806; 3909;
  5446; 7587; 10570; 14726; 20516; 28581; 39818; 55474; 77284; 107669; 150000; 300000].

Definition NR_LONG_BSR_TABLE : list Z := [
  0; 10; 11; 12; 13; 14; 15; 16; 17; 18; 19; 20; 22; 23; 25; 26; 28; 30; 32; 34; 36; 38; 40; 43; 46;
  49; 52; 55; 59; 62; 66; 71; 75; 80; 85; 91; 97; 103; 110; 117; 124; 132; 141; 150; 160; 170; 181;
  193; 205; 218; 233; 248; 264; 281; 299; 318; 339; 361; 384; 409; 436; 464; 494; 526; 560; 597; 635;
  677; 720; 767; 817; 870; 926; 987; 1051; 1119; 1191; 1269; 1351; 1439; 1532; 1631; 1737; 1850; 1970;
  2098; 2234; 2379; 2533; 2698; 2873; 3059; 3258; 3469; 3694; 3934; 4189; 4461; 4751; 5059; 5387;
  5737; 6109; 6506; 6928; 7378; 7857; 8367; 8910; 9488; 10104; 10760; 11458; 12202; 12994; 13838;
  14736; 15692; 16711; 17795; 18951; 20181; 21491; 22885; 24371; 25953; 27638; 29431; 31342; 33376;
  35543; 37850; 40307; 42923; 45709; 48676; 51836; 55200; 58784; 62599; 66663; 70990; 75598; 80505;
  85730; 91295; 97221; 103532; 110252; 117409; 125030; 133146; 141789; 150992; 160793; 171231; 182345;
  194182; 206786; 220209; 234503; 249725; 265935; 283197; 301579; 321155; 342002; 364202; 387842;
  413018; 439827; 468377; 498780; 531156; 565634; 602350; 641449; 683087; 727427; 774645; 824928;
  878475; 935498; 996222; 1060888; 1129752; 1203085; 1281179; 1364342; 1452903; 1547213; 1647644;
  1754595; 1868488; 1989774; 2118933; 2256475; 2402946; 2558924; 2725027; 2901912; 3090279; 3290873;
  3504487; 3731968; 3974215; 4232186; 4506902; 4799451; 5110989; 5442750; 5796046; 6172275; 6572925;
  6999582; 7453933; 7937777; 8453028; 9001725; 9586039; 10208280; 10870913; 11576557; 12328006;
  13128233; 13980403; 14887889; 15854280; 16883401; 17979324; 19146385; 20389201; 21712690; 23122088;
  24622972; 26221280; 27923336; 29735875; 31666069; 33721553; 35910462; 38241455; 40723756; 43367187;
  46182206; 49179951; 52372284; 55771835; 59392055; 63247269; 67352729; 71724679; 76380419; 81338368;
  162676736; 4294967295].

Definition NR_SHORT_BSR_TABLE_SIZE : Z := 32.
Definition NR_LONG_BSR_TABLE_SIZE : Z := 256.

(** The assertion does not check for a negative index. *)
Definition get_short_bsr_value (idx : Z) : res Z :=
  _ ← assert_that (idx <? NR_SHORT_BSR_TABLE_SIZE); deref (znth NR_SHORT_BSR_TABLE idx).
Definition get_long_bsr_value (idx : Z) : res Z :=
  _ ← assert_that (idx <? NR_LONG_BSR_TABLE_SIZE); deref (znth NR_LONG_BSR_TABLE idx).

(** ** The UE: from bytes to an index *)

(** The bisection; [value] is compared as a [uint32_t]. *)
Fixpoint bsr_bisect (fuel : nat) (get_bsr_value : Z → res Z) (ascend : bool) (value jl ju : Z) : res Z :=
  if 1 <? ju - jl then
    match fuel with
    | O => NoFuel
    | S fuel =>
        let jm := Z.quot (ju + jl) 2 in
        x ← get_bsr_value jm;
        if eqb (x <=? u32 value) ascend then bsr_bisect fuel get_bsr_value ascend value jm ju
        else bsr_bisect fuel get_bsr_value ascend value jl jm
    end
  else Ok jl.

Definition nr_locate_BsrIndexByBufferSize (size value : Z) : res Z :=
  if value =? 0 then Ok 0
  else
    let get_bsr_value := if size =? NR_SHORT_BSR_TABLE_SIZE then get_short_bsr_value else get_long_bsr_value in
    hi ← get_bsr_value (size - 1);
    lo ← get_bsr_value 0;
    jl ← bsr_bisect 9 get_bsr_value (lo <=? hi) value 0 (size - 1);
    x ← get_bsr_value jl;
    Ok (u8 (if u32 value =? x then jl else jl + 1)).

(** ** The gNB: from an index to bytes *)

Definition overestim_bsr_index (real_index : Z) : Z := if 0 <? real_index then real_index + 1 else real_index.

(** [x] as an [int]. *)
Definition as_int (x : Z) : Z := if u32 x <? 2 ^ 31 then u32 x else u32 x - 2 ^ 32.

(** [b] is the octet of the [NR_BSR_SHORT]. *)
Definition estimate_ul_buffer_short_bsr (b : Z) : res Z :=
  let rep_idx := Z.land b 31 in
  let idx := Z.min (overestim_bsr_index rep_idx) (NR_SHORT_BSR_TABLE_SIZE - 1) in
  x ← get_short_bsr_value idx;
  Ok (as_int x).

(** The loop over the LCGs from [n] on; [m] is the index of the next level in the payload. *)
Fixpoint long_bsr_loop (k : nat) (flags : Z) (mem : bytes) (payload n m estim_size : Z) : res Z :=
  match k with
  | O => Ok estim_size
  | S k =>
      if negb (Z.testbit flags n) then long_bsr_loop k flags mem payload (n + 1) m estim_size
      else
        rep_idx ← deref (znth mem (payload + m));
        x ← get_long_bsr_value (Z.min (overestim_bsr_index rep_idx) (NR_LONG_BSR_TABLE_SIZE - 1));
        long_bsr_loop k flags mem payload (n + 1) (m + 1) (as_int (estim_size + x))
  end.

(** The [NR_BSR_LONG] at [pos], and the levels after it. *)
Definition estimate_ul_buffer_long_bsr (mem : bytes) (pos : Z) : res Z :=
  flags ← deref (znth mem pos);
  long_bsr_loop 8 flags mem (pos + 1) 0 0 0.

(** ** Facts *)

(** The level of an index: what the tables hold. *)
Definition short_level (i : Z) : Z := default 0 (znth NR_SHORT_BSR_TABLE i).
Definition long_level (i : Z) : Z := default 0 (znth NR_LONG_BSR_TABLE i).

(** A table as a strictly increasing function of the index. *)
Definition increasing (level : Z → Z) (size : Z) : Prop := ∀ i j, 0 <= i < j → j < size → level i < level j.

Definition increasingb (l : list Z) : bool := forallb (λ p, p.1 <? p.2) (zip l (tail l)).

Lemma increasingb_ok l : increasingb l = true → ∀ i j, (i < j < length l)%nat → nth i l 0 < nth j l 0.
Proof.
  unfold increasingb. intros Hb i j [Hij Hj]. induction Hij as [| j Hij IH].
  - revert i Hj. induction l as [| x l IH]; intros i Hj; [simpl in Hj; lia |]. destruct l as [| y l]; [simpl in Hj; lia |].
    simpl in Hb. apply andb_true_iff in Hb as [H1 H2]. apply Z.ltb_lt in H1.
    destruct i as [| i]; [done |]. apply (IH H2 i). simpl in *. lia.
  - assert (Hs : nth j l 0 < nth (S j) l 0); [| pose proof (IH ltac:(lia)); lia].
    clear -Hb Hj. revert j Hj. induction l as [| x l IH]; intros j Hj; [simpl in Hj; lia |].
    destruct l as [| y l]; [simpl in Hj; lia |]. simpl in Hb. apply andb_true_iff in Hb as [H1 H2]. apply Z.ltb_lt in H1.
    destruct j as [| j]; [done |]. apply (IH H2 j). simpl in *. lia.
Qed.

Lemma level_nth l i : 0 <= i → default 0 (znth l i) = nth (Z.to_nat i) l 0.
Proof. intros Hi. rewrite znth_lookup by done. symmetry. apply nth_lookup. Qed.

Lemma levels_increasing l : increasingb l = true → increasing (λ i, default 0 (znth l i)) (zlen l).
Proof.
  intros Hb i j Hi Hj. rewrite !level_nth by lia. apply (increasingb_ok l Hb). unfold zlen in Hj. lia.
Qed.

Lemma short_increasing : increasing short_level 32.
Proof. apply (levels_increasing NR_SHORT_BSR_TABLE). by vm_compute. Qed.

Lemma long_increasing : increasing long_level 256.
Proof. apply (levels_increasing NR_LONG_BSR_TABLE). by vm_compute. Qed.

Lemma get_short_ok i : 0 <= i < 32 → get_short_bsr_value i = Ok (short_level i).
Proof.
  intros Hi. unfold get_short_bsr_value, assert_that, short_level, NR_SHORT_BSR_TABLE_SIZE. decide_true (i <? 32). cbn [mbind res_bind].
  destruct (znth_is_Some NR_SHORT_BSR_TABLE i) as [x ->]; [by change (zlen NR_SHORT_BSR_TABLE) with 32 | done].
Qed.

Lemma get_long_ok i : 0 <= i < 256 → get_long_bsr_value i = Ok (long_level i).
Proof.
  intros Hi. unfold get_long_bsr_value, assert_that, long_level, NR_LONG_BSR_TABLE_SIZE. decide_true (i <? 256). cbn [mbind res_bind].
  destruct (znth_is_Some NR_LONG_BSR_TABLE i) as [x ->]; [by change (zlen NR_LONG_BSR_TABLE) with 256 | done].
Qed.

Section search.
Context (get : Z → res Z) (level : Z → Z) (size : Z).
Context (Hget : ∀ i, 0 <= i < size → get i = Ok (level i)) (Hinc : increasing level size).

Lemma level_mono i j : 0 <= i <= j → j < size → level i <= level j.
Proof using Hinc. intros Hi Hj. destruct (decide (i = j)) as [-> |]; [lia |]. pose proof (Hinc i j). lia. Qed.

(** The bisection ends between two neighbours. *)
Lemma bisect_ok fuel : ∀ jl ju value, 0 <= jl < ju → ju < size → 0 <= value < 2 ^ 32 → ju - jl <= 2 ^ Z.of_nat fuel →
  level jl <= value → (ju = size - 1 ∨ value < level ju) →
  ∃ j, bsr_bisect fuel get true value jl ju = Ok j ∧ 0 <= j < size - 1 ∧ level j <= value ∧
    (j + 1 = size - 1 ∨ value < level (j + 1)).
Proof using Hget.
  induction fuel as [| fuel IH]; intros jl ju value Hj Hju Hv Hf Hl Hu; simpl bsr_bisect.
  - decide_false (1 <? ju - jl). exists jl. replace (jl + 1) with ju by lia. split_and!; try done; lia.
  - destruct (Z.ltb_spec 1 (ju - jl)) as [Hgt | Hle].
    2: { exists jl. replace (jl + 1) with ju by lia. split_and!; try done; lia. }
    rewrite Nat2Z.inj_succ, Z.pow_succ_r in Hf by lia. rewrite Z.quot_div_nonneg by lia.
    assert (jl < (ju + jl) / 2 < ju ∧ (ju + jl) / 2 - jl <= 2 ^ Z.of_nat fuel ∧ ju - (ju + jl) / 2 <= 2 ^ Z.of_nat fuel)
      as (Hm & Hm1 & Hm2) by (split_and!; zdiv_lia).
    rewrite Hget by lia. cbn [mbind res_bind]. unfold u32. rewrite Z.mod_small by lia.
    destruct (Z.leb_spec (level ((ju + jl) / 2)) value); simpl (eqb _ _).
    + apply IH; try done; lia.
    + apply IH; try done; lia.
Qed.

(** The least index whose level is not below [value], or the last one. *)
Definition index_of (value i : Z) : Prop :=
  0 < i < size ∧ (value <= level i ∨ i = size - 1) ∧ level (i - 1) < value.

Lemma locate_ok value : 2 <= size <= 256 → 0 < value < 2 ^ 32 → level 0 = 0 →
  ∃ j, bsr_bisect 9 get true value 0 (size - 1) = Ok j ∧ 0 <= j < size - 1 ∧
    let i := u8 (if u32 value =? level j then j else j + 1) in index_of value i.
Proof using Hget Hinc.
  intros Hs Hv H0. destruct (bisect_ok 9 0 (size - 1) value) as (j & E & Hj & Hl & Hu); [lia | lia | lia | simpl; lia | lia | by left |].
  exists j. split; [done |]. split; [done |]. cbv zeta. unfold u32. rewrite (Z.mod_small value) by lia.
  destruct (Z.eqb_spec value (level j)) as [Heq | Hne]; rewrite u8_small by lia.
  - assert (j ≠ 0) by (intros ->; lia). split; [lia |]. split; [left; lia |]. rewrite Heq. apply Hinc; lia.
  - split; [lia |]. split; [| replace (j + 1 - 1) with j by lia; lia]. destruct Hu; [right; lia | left; lia].
Qed.
End search.

(** What the UE reports. *)
Lemma locate_short value : 0 < value < 2 ^ 32 →
  ∃ i, nr_locate_BsrIndexByBufferSize NR_SHORT_BSR_TABLE_SIZE value = Ok i ∧ index_of short_level 32 value i.
Proof.
  intros Hv. unfold nr_locate_BsrIndexByBufferSize. decide_false (value =? 0). rewrite Z.eqb_refl. cbv zeta.
  change (get_short_bsr_value (NR_SHORT_BSR_TABLE_SIZE - 1)) with (Ok 300000). change (get_short_bsr_value 0) with (Ok 0).
  cbn [mbind res_bind]. change (0 <=? 300000) with true. change (NR_SHORT_BSR_TABLE_SIZE - 1) with (32 - 1).
  destruct (locate_ok get_short_bsr_value short_level 32 get_short_ok short_increasing value) as (j & -> & Hj & Hi); [lia | lia | done |].
  cbn [mbind res_bind]. rewrite get_short_ok by lia. cbn [mbind res_bind]. by eexists.
Qed.

Lemma locate_long value : 0 < value < 2 ^ 32 →
  ∃ i, nr_locate_BsrIndexByBufferSize NR_LONG_BSR_TABLE_SIZE value = Ok i ∧ index_of long_level 256 value i.
Proof.
  intros Hv. unfold nr_locate_BsrIndexByBufferSize. decide_false (value =? 0).
  change (NR_LONG_BSR_TABLE_SIZE =? NR_SHORT_BSR_TABLE_SIZE) with false. cbv zeta iota.
  change (get_long_bsr_value (NR_LONG_BSR_TABLE_SIZE - 1)) with (Ok 4294967295). change (get_long_bsr_value 0) with (Ok 0).
  cbn [mbind res_bind]. change (0 <=? 4294967295) with true. change (NR_LONG_BSR_TABLE_SIZE - 1) with (256 - 1).
  destruct (locate_ok get_long_bsr_value long_level 256 get_long_ok long_increasing value) as (j & -> & Hj & Hi); [lia | lia | done |].
  cbn [mbind res_bind]. rewrite get_long_ok by lia. cbn [mbind res_bind]. by eexists.
Qed.
