(* ===== verification/MacUlRx.v ===== *)
(** * gNB MAC: reception of an uplink MAC PDU

    openair2/LAYER2/NR_MAC_gNB/gNB_scheduler_ulsch.c: [nr_process_mac_pdu] and what it calls
    ([decode_ul_mac_sub_pdu_header], the power headroom report, the buffer status reports of
    [MacBsr]), and [lcid_crnti_lookahead].  The octets that can be read at the PDU are [mem];
    reading after them is undefined behaviour. *)

From S2P Require Import Prelude RlcEntity RlcApi MacPdu MacDl MacBsr.

Definition uint16 (x : Z) : Z := x mod 2 ^ 16.

(** ** State *)

Inductive RA_gNB_state_t :=
| nrRA_gNB_IDLE
| nrRA_Msg2
| nrRA_WAIT_MsgA_PUSCH
| nrRA_WAIT_Msg3
| nrRA_Msg3_retransmission
| nrRA_Msg4
| nrRA_MsgB
| nrRA_WAIT_Msg4_MsgB_ACK.
#[export] Instance RA_gNB_state_eq_dec : EqDecision RA_gNB_state_t.
Proof. solve_decision. Defined.

(** [NR_UE_info_t] and its [NR_UE_sched_ctrl_t]: what the reception of a PDU reads and writes. *)
Record ul_ue_t (E : Type) := mk_ulue {
  gu_CellGroup : bool;
  gu_is_redcap : bool;
  gu_ra : option RA_gNB_state_t;
  gu_lc_config : list nr_lc_config_t;
  estimated_ul_buffer : Z;
  sched_ul_bytes : Z;
  gu_ph : Z;
  gu_pcmax : Z;
  gu_stats : NR_mac_dir_stats_t;
  gu_rlc : nr_rlc_ue_t E
}.
Arguments mk_ulue {E} _ _ _ _ _ _ _ _ _ _.
Arguments gu_CellGroup {E} _.
Arguments gu_is_redcap {E} _.
Arguments gu_ra {E} _.
Arguments gu_lc_config {E} _.
Arguments estimated_ul_buffer {E} _.
Arguments sched_ul_bytes {E} _.
Arguments gu_ph {E} _.
Arguments gu_pcmax {E} _.
Arguments gu_stats {E} _.
Arguments gu_rlc {E} _.
#[export] Instance eta_ulue {E} : Settable (ul_ue_t E) :=
  λ u, mk_ulue (gu_CellGroup u) (gu_is_redcap u) (gu_ra u) (gu_lc_config u) (estimated_ul_buffer u) (sched_ul_bytes u)
         (gu_ph u) (gu_pcmax u) (gu_stats u) (gu_rlc u).

(** ** Subheaders *)

(** The LCIDs whose subheader has a length. *)
Definition ul_has_length (lcid : Z) : bool :=
  (lcid =? UL_SCH_LCID_SRB1) || (lcid =? UL_SCH_LCID_SRB2)
  || ((UL_SCH_LCID_DTCH <=? lcid) && (lcid <=? UL_SCH_LCID_DTCH + 28))
  || (lcid =? UL_SCH_LCID_L_TRUNCATED_BSR) || (lcid =? UL_SCH_LCID_L_BSR).

(** The lengths that are known from the LCID; [*length] is 0 at the call and stays 0 otherwise. *)
Definition ul_fixed_length (lcid : Z) : Z :=
  if lcid =? UL_SCH_LCID_CCCH_64_BITS then 8
  else if (lcid =? UL_SCH_LCID_CCCH_48_BITS_REDCAP) || (lcid =? UL_SCH_LCID_CCCH_48_BITS) then 6
  else if (lcid =? UL_SCH_LCID_SINGLE_ENTRY_PHR) || (lcid =? UL_SCH_LCID_C_RNTI) then 2
  else if (lcid =? UL_SCH_LCID_S_TRUNCATED_BSR) || (lcid =? UL_SCH_LCID_S_BSR) then 1
  else 0.

(** The LCID, the length of the subheader and the length of the payload. *)
Definition decode_ul_mac_sub_pdu_header (mem : bytes) (pos : Z) : res (Z * Z * Z) :=
  b0 ← deref (znth mem pos);
  let lcid := sub_lcid b0 in
  if ul_has_length lcid then
    if sub_F b0 then
      h ← deref (znth mem (pos + 1)); l ← deref (znth mem (pos + 2)); Ok (lcid, 3, 256 * h + l)
    else l ← deref (znth mem (pos + 1)); Ok (lcid, 2, l)
  else Ok (lcid, 1, ul_fixed_length lcid).

(** The C-RNTI of the first control element that has one, 0 if there is none. *)
Fixpoint lcid_crnti_lookahead (fuel : nat) (mem : bytes) (pos pdu_len : Z) : res Z :=
  if 0 <? pdu_len then
    match fuel with
    | O => NoFuel
    | S fuel =>
        '(lcid, hdr, len) ← decode_ul_mac_sub_pdu_header mem pos;
        if pdu_len <? hdr + len then Ok 0
        else if lcid =? UL_SCH_LCID_C_RNTI then
          h ← deref (znth mem (pos + 1)); l ← deref (znth mem (pos + 2)); Ok (256 * h + l)
        else if lcid =? UL_SCH_LCID_PADDING then Ok 0
        else lcid_crnti_lookahead fuel mem (pos + (len + hdr)) (pdu_len - (len + hdr))
    end
  else Ok 0.

(** ** Control elements *)

Section gnb.
Context {E : Type} `{RlcEntity E}.
Implicit Types ue : ul_ue_t E.

(** What the function takes from the rest of the gNB: [prepare_initial_ul_rrc_message] (which asks
    RRC code for the configuration of a new UE), the clock of RLC, and for the power headroom report,
    which is in floating point, [compute_ph_rb_factor] and the sum with [compute_ph_mcs_factor] of the
    HARQ process, the latter if [deltaMCS] is configured. *)
Record ul_env := mk_ulenv {
  uv_prepare : ul_ue_t E → res (bool * ul_ue_t E);
  uv_now : Z;
  uv_rb_factor : Z → Z;
  uv_add_mcs_factor : Z → Z → Z;
  uv_hasDeltaMCS : bool
}.

Fixpoint nr_mac_get_lc_config (l : list nr_lc_config_t) (lcid : Z) : option nr_lc_config_t :=
  match l with
  | [] => None
  | c :: l => if lc_lcid c =? lcid then Some c else nr_mac_get_lc_config l lcid
  end.

(** 38.133 table 10.1.17.1-1. *)
Definition power_headroom (PH : Z) : Z :=
  if PH <? 55 then PH - 32 else if PH <? 63 then 24 + (PH - 55) * 2 else 38.

(** [b1], [b2]: the octets of the [NR_SINGLE_ENTRY_PHR_MAC_CE]. *)
Definition handle_single_entry_phr (ev : ul_env) (harq_pid b1 b2 : Z) ue : ul_ue_t E :=
  if harq_pid <? 0 then ue
  else
    let ph := power_headroom (Z.land b1 63) + uv_rb_factor ev harq_pid in
    ue <| gu_ph := if uv_hasDeltaMCS ev then uv_add_mcs_factor ev harq_pid ph else ph |>
       <| gu_pcmax := Z.land b2 63 - 29 |>.

(** ** The subPDUs *)

(** What one turn of the loop decided: the state, [mac_len], the data indication it added, what it adds
    to [sdus], and whether the whole function returns. *)
Record gnb_turn := mk_gturn {
  gt_ue : ul_ue_t E;
  gt_len : Z;
  gt_ind : list nr_rlc_data_ind_t;
  gt_sdus : Z;
  gt_return : bool
}.

Definition ul_ccch (ev : ul_env) (mem : bytes) (pos lcid hdr mac_len : Z) ue : res gnb_turn :=
  z ← (if lcid =? UL_SCH_LCID_CCCH_64_BITS then all_zero mem pos (Z.to_nat (hdr + mac_len)) else Ok false);
  if (z : bool) then Ok (mk_gturn ue mac_len [] 0 true)
  else
    let ue := if lcid =? UL_SCH_LCID_CCCH_48_BITS_REDCAP then ue <| gu_is_redcap := true |> else ue in
    '(ok, ue) ← uv_prepare ev ue;
    Ok (mk_gturn ue mac_len (if ok : bool then [mk_ind 0 (pos + hdr) mac_len] else []) 0 false).

(** The counters of received SDUs. *)
Definition count_sdu (lcid mac_len : Z) ue : res (ul_ue_t E) :=
  n ← deref (znth (lc_bytes (gu_stats ue)) lcid);
  counters ← zset (lc_bytes (gu_stats ue)) lcid (u64 (n + mac_len));
  Ok (ue <| gu_stats ::= λ s, s <| total_sdu_bytes := u64 (total_sdu_bytes s + mac_len) |> <| lc_bytes := counters |> |>).

(** Whether data of this channel is ignored. *)
Definition lc_ignored ue (lcid : Z) : bool :=
  match nr_mac_get_lc_config (gu_lc_config ue) lcid with None => true | Some c => lc_suspended c end.

Definition ul_srb (pos lcid hdr mac_len : Z) ue : res gnb_turn :=
  _ ← assert_that (gu_CellGroup ue);
  if lc_ignored ue lcid then Ok (mk_gturn ue mac_len [] 0 false)
  else
    ue ← count_sdu lcid mac_len ue;
    Ok (mk_gturn ue mac_len [mk_ind lcid (pos + hdr) mac_len] 0 false).

Definition ul_dtch (pos lcid hdr mac_len : Z) ue : res gnb_turn :=
  if lc_ignored ue lcid then Ok (mk_gturn ue mac_len [] 0 false)
  else
    ue ← count_sdu lcid mac_len ue;
    let left := if mac_len <=? estimated_ul_buffer ue then estimated_ul_buffer ue - mac_len else 0 in
    Ok (mk_gturn (ue <| estimated_ul_buffer := left |>) mac_len [mk_ind lcid (pos + hdr) mac_len] 1 false).

Definition ul_bsr (estim : Z) ue : ul_ue_t E := ue <| estimated_ul_buffer := estim |> <| sched_ul_bytes := 0 |>.

(** The [switch] on the LCID. *)
Definition ul_subpdu (ev : ul_env) (harq_pid : Z) (mem : bytes) (pos pdu_len lcid hdr mac_len : Z) ue : res gnb_turn :=
  if (lcid =? UL_SCH_LCID_CCCH_64_BITS) || (lcid =? UL_SCH_LCID_CCCH_48_BITS_REDCAP) || (lcid =? UL_SCH_LCID_CCCH_48_BITS) then
    ul_ccch ev mem pos lcid hdr mac_len ue
  else if (lcid =? UL_SCH_LCID_SRB1) || (lcid =? UL_SCH_LCID_SRB2) then ul_srb pos lcid hdr mac_len ue
  else if (UL_SCH_LCID_DTCH <=? lcid) && (lcid <=? UL_SCH_LCID_DTCH + 28) then ul_dtch pos lcid hdr mac_len ue
  else if (lcid =? UL_SCH_LCID_RECOMMENDED_BITRATE_QUERY) || (lcid =? UL_SCH_LCID_MULTI_ENTRY_PHR_4_OCT)
       || (lcid =? UL_SCH_LCID_CONFIGURED_GRANT_CONFIRMATION) || (lcid =? UL_SCH_LCID_MULTI_ENTRY_PHR_1_OCT) then
    Ok (mk_gturn ue mac_len [] 0 false)
  else if lcid =? UL_SCH_LCID_SINGLE_ENTRY_PHR then
    b1 ← deref (znth mem (pos + hdr)); b2 ← deref (znth mem (pos + hdr + 1));
    Ok (mk_gturn (handle_single_entry_phr ev harq_pid b1 b2 ue) mac_len [] 0 false)
  else if lcid =? UL_SCH_LCID_C_RNTI then
    _ ← assert_that (negb (bool_decide (gu_ra ue = Some nrRA_gNB_IDLE)));
    Ok (mk_gturn ue mac_len [] 0 false)
  else if (lcid =? UL_SCH_LCID_S_TRUNCATED_BSR) || (lcid =? UL_SCH_LCID_S_BSR) then
    b ← deref (znth mem (pos + hdr));
    estim ← estimate_ul_buffer_short_bsr b;
    Ok (mk_gturn (ul_bsr estim ue) mac_len [] 0 false)
  else if (lcid =? UL_SCH_LCID_L_TRUNCATED_BSR) || (lcid =? UL_SCH_LCID_L_BSR) then
    estim ← estimate_ul_buffer_long_bsr mem (pos + hdr);
    Ok (mk_gturn (ul_bsr estim ue) mac_len [] 0 false)
  else (* padding, and all others *)
    Ok (mk_gturn ue (uint16 (pdu_len - hdr)) [] 0 false).

(** The loop; [data_ind] and [sdus] so far.  [None]: the function returned. *)
Fixpoint ul_parse (fuel : nat) (ev : ul_env) (harq_pid : Z) (mem : bytes) (pos pdu_len : Z) ue
    (data_ind : list nr_rlc_data_ind_t) (sdus : Z) : res (ul_ue_t E * option (list nr_rlc_data_ind_t * Z)) :=
  if 0 <? pdu_len then
    match fuel with
    | O => NoFuel
    | S fuel =>
        '(lcid, hdr, mac_len) ← decode_ul_mac_sub_pdu_header mem pos;
        if pdu_len <? hdr + mac_len then Ok (ue, Some (data_ind, sdus))
        else
          t ← ul_subpdu ev harq_pid mem pos pdu_len lcid hdr mac_len ue;
          let data_ind := data_ind ++ gt_ind t in
          _ ← assert_that (match gt_ind t with [] => true | _ => zlen data_ind <? MAX_NUM_DATA_IND end);
          if gt_return t then Ok (gt_ue t, None)
          else ul_parse fuel ev harq_pid mem (pos + (hdr + gt_len t)) (pdu_len - (hdr + gt_len t)) (gt_ue t) data_ind
                 (sdus + gt_sdus t)
    end
  else Ok (ue, Some (data_ind, sdus)).

(** The PDU is the first [pdu_len] octets of [mem]. *)
Definition nr_process_mac_pdu (ev : ul_env) (harq_pid : Z) (mem : bytes) (pdu_len : Z) ue : res (ul_ue_t E) :=
  _ ← deref (znth mem 0);
  '(ue, r) ← ul_parse (Z.to_nat pdu_len) ev harq_pid mem 0 pdu_len ue [] 0;
  match r with
  | None => Ok ue
  | Some (data_ind, sdus) =>
      rlc ← nr_mac_rlc_data_ind (uv_now ev) mem (gu_rlc ue) data_ind;
      Ok (ue <| gu_rlc := rlc |> <| gu_stats ::= λ s, s <| num_mac_sdu := u32 (num_mac_sdu s + sdus) |> |>)
  end.
End gnb.
Arguments ul_env : clear implicits.
Arguments gnb_turn : clear implicits.
