(* ===== verification/MacUlLcp.v ===== *)
(** * UE MAC: logical channel prioritisation and the uplink MAC PDU

    openair2/LAYER2/NR_MAC_UE/nr_ue_scheduler.c: [nr_ue_get_sdu] and what it calls (buffer status,
    power headroom, the bytes a channel may request, the subPDUs), the token buckets, and
    [nr_write_ce_ulsch_pdu] of nr_ue_procedures.c; the timers are those of common/utils/nr/nr_common.c.
    Pointers into the transport block are offsets from its start.

    Then: UE MAC: the rounds of logical channel prioritisation.
    openair2/LAYER2/NR_MAC_UE/nr_ue_scheduler.c: [get_num_bytes_to_reqlc], [fill_mac_sdu] and the
    loops of [nr_ue_get_sdu]. *)

From S2P Require Import Prelude RlcEntity RlcApi MacPdu MacBsr MacUeRx MacUlRx.

(** ** Timers *)

Record NR_timer_t := mk_timer {
  tm_active : bool;
  tm_suspended : bool;
  tm_counter : Z;
  tm_target : Z;
  tm_step : Z
}.
#[export] Instance eta_timer : Settable NR_timer_t :=
  λ t, mk_timer (tm_active t) (tm_suspended t) (tm_counter t) (tm_target t) (tm_step t).

Definition UINT_MAX : Z := 2 ^ 32 - 1.

Definition nr_timer_start (t : NR_timer_t) : NR_timer_t :=
  t <| tm_active := true |> <| tm_suspended := false |> <| tm_counter := 0 |>.
Definition nr_timer_stop (t : NR_timer_t) : NR_timer_t :=
  t <| tm_active := false |> <| tm_suspended := false |> <| tm_counter := 0 |>.
Definition nr_timer_expired (t : NR_timer_t) : bool :=
  if (tm_target t =? UINT_MAX) || tm_suspended t then false else tm_target t <=? tm_counter t.
Definition nr_timer_tick (t : NR_timer_t) : bool * NR_timer_t :=
  if tm_active t then
    let t := t <| tm_counter := u32 (tm_counter t + tm_step t) |> in
    if (tm_target t =? UINT_MAX) || tm_suspended t then (false, t)
    else if nr_timer_expired t then (true, t <| tm_active := false |>) else (false, t)
  else (false, t).
Definition nr_timer_elapsed_time (t : NR_timer_t) : Z := tm_counter t.

(** ** State *)

Definition NR_MAX_NUM_LCGID : Z := 8.
Definition NR_INVALID_LCGID : Z := NR_MAX_NUM_LCGID.
Definition NR_MAX_NUM_LCID : Z := 32.
Definition NR_MAX_SR_ID : Z := 8.

(** [nr_lcordered_info_t]; [lo_info] has its identity and suspension. *)
Record nr_lcordered_info_t := mk_lo {
  lo_info : lc_info;
  lo_sr_id : Z;
  lo_priority : Z;
  lo_pbr : Z;
  lo_bucket_size : Z;
  lo_sr_DelayTimerApplied : bool
}.
Definition lo_lcid (x : nr_lcordered_info_t) : Z := li_lcid (lo_info x).
Definition lo_suspended (x : nr_lcordered_info_t) : bool := li_rb_suspended (lo_info x).

Record NR_LC_SCHEDULING_INFO := mk_lcsched {
  LCID_buffer_remain : Z;
  LCGID : Z;
  Bj : Z;
  Bj_timer : NR_timer_t
}.
#[export] Instance eta_lcsched : Settable NR_LC_SCHEDULING_INFO :=
  λ s, mk_lcsched (LCID_buffer_remain s) (LCGID s) (Bj s) (Bj_timer s).

Record nr_sr_info_t := mk_sr {
  active_SR_ID : bool;
  sr_pending : bool;
  sr_counter : Z;
  prohibitTimer : NR_timer_t;
  maxTransmissions : Z
}.
#[export] Instance eta_sr : Settable nr_sr_info_t :=
  λ s, mk_sr (active_SR_ID s) (sr_pending s) (sr_counter s) (prohibitTimer s) (maxTransmissions s).

(** [nr_phr_info_t]: the fields used here. *)
Record nr_phr_info_t := mk_phr {
  phr_is_configured : bool;
  phr_reporting : Z;
  periodicPHR_Timer : NR_timer_t;
  prohibitPHR_Timer : NR_timer_t;
  PathlossLastValue : Z
}.
#[export] Instance eta_phr : Settable nr_phr_info_t :=
  λ p, mk_phr (phr_is_configured p) (phr_reporting p) (periodicPHR_Timer p) (prohibitPHR_Timer p) (PathlossLastValue p).

(** [lc_ordered_list] and [NR_UE_SCHEDULING_INFO]. *)
Record ue_ul_t := mk_ueul {
  lcs : list nr_lcordered_info_t;
  lc_sched_info : list NR_LC_SCHEDULING_INFO;
  sr_info : list nr_sr_info_t;
  BSR_reporting_active : Z;
  regularBSR_trigger_lcid : Z;
  sr_DelayTimer : NR_timer_t;
  retxBSR_Timer : NR_timer_t;
  periodicBSR_Timer : NR_timer_t;
  phr_info : nr_phr_info_t
}.
#[export] Instance eta_ueul : Settable ue_ul_t :=
  λ m, mk_ueul (lcs m) (lc_sched_info m) (sr_info m) (BSR_reporting_active m) (regularBSR_trigger_lcid m) (sr_DelayTimer m)
         (retxBSR_Timer m) (periodicBSR_Timer m) (phr_info m).

Definition NR_BSR_TRIGGER_REGULAR : Z := 1.
Definition NR_BSR_TRIGGER_PERIODIC : Z := 2.

(** ** Logical channels *)

Fixpoint get_lc_info_from_lcid (l : list nr_lcordered_info_t) (lcid : Z) : option nr_lcordered_info_t :=
  match l with
  | [] => None
  | x :: l => if lo_lcid x =? lcid then Some x else get_lc_info_from_lcid l lcid
  end.

Definition lcid_buffer_index (lcid : Z) : res Z :=
  _ ← assert_that ((0 <? lcid) && (lcid <=? NR_MAX_NUM_LCID)); Ok (lcid - 1).

Definition get_scheduling_info_from_lcid (m : ue_ul_t) (lcid : Z) : res NR_LC_SCHEDULING_INFO :=
  idx ← lcid_buffer_index lcid; deref (znth (lc_sched_info m) idx).

(** Assigns to the structure the function returns a pointer to. *)
Definition set_scheduling_info (m : ue_ul_t) (lcid : Z) (s : NR_LC_SCHEDULING_INFO) : res ue_ul_t :=
  idx ← lcid_buffer_index lcid; l ← zset (lc_sched_info m) idx s; Ok (m <| lc_sched_info := l |>).

(** ** Token buckets *)

(** The enumerations of 38.331, as their indices. *)
Definition nr_get_pbr (prioritizedbitrate : Z) : res Z :=
  if (0 <=? prioritizedbitrate) && (prioritizedbitrate <=? 15) then
    kbps ← deref (znth [0; 8; 16; 32; 64; 128; 256; 512; 1024; 2048; 4096; 8192; 16384; 32768; 65536; UINT_MAX] prioritizedbitrate);
    Ok (if prioritizedbitrate <? 15 then u32 (kbps * 1000) else kbps)
  else Exit.

Definition nr_get_ms_bucketsizeduration (bucketsizeduration : Z) : res Z :=
  if (0 <=? bucketsizeduration) && (bucketsizeduration <=? 8) then
    deref (znth [5; 10; 20; 50; 100; 150; 300; 500; 1000] bucketsizeduration)
  else Exit.

Definition get_lc_bucket_size (prioritisedBitRate bucketSizeDuration : Z) : res Z :=
  pbr ← nr_get_pbr prioritisedBitRate;
  bsd ← (if prioritisedBitRate =? 15 then Ok 1 else nr_get_ms_bucketsizeduration bucketSizeDuration);
  Ok (u32 (pbr * bsd)).

(** [min] of an [int32_t] and a [uint32_t]. *)
Definition min_mixed (a b : Z) : Z := if u32 a <? u32 b then u32 a else u32 b.

(** One turn of the loop at the end of [nr_ue_ul_scheduler]; [scs] is that of the active BWP. *)
Definition update_bj (scs : Z) (x : nr_lcordered_info_t) (s : NR_LC_SCHEDULING_INFO) : NR_LC_SCHEDULING_INFO :=
  let bj := if lo_pbr x <? UINT_MAX then
              let pbr_ms := lo_pbr x / 1000 in
              as_int (Bj s + Z.shiftr (u32 (pbr_ms * nr_timer_elapsed_time (Bj_timer s))) scs)
            else 2 ^ 31 - 1 in
  s <| Bj := as_int (min_mixed bj (lo_bucket_size x)) |> <| Bj_timer ::= nr_timer_start |>.

Fixpoint update_bj_all (scs : Z) (l : list nr_lcordered_info_t) (m : ue_ul_t) : res ue_ul_t :=
  match l with
  | [] => Ok m
  | x :: l =>
      s ← get_scheduling_info_from_lcid m (lo_lcid x);
      m ← set_scheduling_info m (lo_lcid x) (update_bj scs x s);
      update_bj_all scs l m
  end.

(** ** Buffer status *)

Definition trigger_regular_bsr (m : ue_ul_t) (lcid : Z) (sr_DelayTimerApplied : bool) : ue_ul_t :=
  m <| BSR_reporting_active ::= Z.lor NR_BSR_TRIGGER_REGULAR |> <| regularBSR_trigger_lcid := lcid |>
    <| sr_DelayTimer ::= if sr_DelayTimerApplied then nr_timer_start else nr_timer_stop |>.

Section rlc.
Context {E : Type} `{RlcEntity E}.

Fixpoint store_buffer_status (m : ue_ul_t) (l : list (Z * Z)) : res ue_ul_t :=
  match l with
  | [] => Ok m
  | (lcid, b) :: l =>
      s ← get_scheduling_info_from_lcid m lcid;
      m ← set_scheduling_info m lcid (s <| LCID_buffer_remain := b |>);
      store_buffer_status m l
  end.

Definition nr_update_rlc_buffers_status (now : Z) (m : ue_ul_t) (rlc : nr_rlc_ue_t E) : res (ue_ul_t * nr_rlc_ue_t E) :=
  let ch := map lo_lcid (List.filter (λ x, negb (lo_suspended x)) (lcs m)) in
  '(ret, rlc) ← nr_mac_rlc_status_ind now rlc ch;
  m ← store_buffer_status m (zip ch ret);
  Ok (m, rlc).

(** The loop of [nr_update_bsr]; [triggered] is [bsr_regular_triggered]. *)
Fixpoint update_bsr_loop (l : list nr_lcordered_info_t) (triggered : bool) (m : ue_ul_t) (LCG_bytes : list Z)
    : res (ue_ul_t * list Z) :=
  match l with
  | [] => Ok (m, LCG_bytes)
  | x :: l =>
      if lo_suspended x then update_bsr_loop l triggered m LCG_bytes
      else
        s ← get_scheduling_info_from_lcid m (lo_lcid x);
        if LCGID s =? NR_INVALID_LCGID then update_bsr_loop l triggered m LCG_bytes
        else
          n ← deref (znth LCG_bytes (LCGID s));
          LCG_bytes ← zset LCG_bytes (LCGID s) (u32 (n + LCID_buffer_remain s));
          update_bsr_loop l true
            (if triggered then m else trigger_regular_bsr m (lo_lcid x) (lo_sr_DelayTimerApplied x)) LCG_bytes
  end.

Definition nr_update_bsr (m : ue_ul_t) (LCG_bytes : list Z) : res (ue_ul_t * list Z) :=
  update_bsr_loop (lcs m) (Z.testbit (BSR_reporting_active m) 0) m LCG_bytes.

(** ** Power headroom

    [P_CMAX] and [tx_power] are integers at the call, so that the floating-point arithmetic is exact;
    [pathloss] is [compute_nr_SSB_PL].  Returns the two octets of the [NR_SINGLE_ENTRY_PHR_MAC_CE]. *)
Definition phr_PH (headroom : Z) : Z :=
  if headroom <? 22 then Z.max 0 (headroom + 32) mod 64 else Z.min 63 (55 + Z.quot (headroom - 22) 2) mod 64.

Definition nr_ue_fill_phr (P_CMAX tx_power pathloss : Z) (m : ue_ul_t) : bytes * ue_ul_t :=
  ([phr_PH (P_CMAX - tx_power); Z.land (Z.max 0 (P_CMAX + 29)) 63],
   m <| phr_info ::= λ p, p <| PathlossLastValue := pathloss mod 2 ^ 16 |> <| periodicPHR_Timer ::= nr_timer_start |>
                            <| prohibitPHR_Timer ::= nr_timer_start |> <| phr_reporting := 0 |> |>).

(** ** The control elements *)

Inductive type_bsr_t :=
| b_none
| b_long (lcg_bsr : list Z)
| b_short (s : Z)
| b_short_trunc (s : Z)
| b_long_trunc (lcg_bsr : list Z).

(** The levels from group [i] on, with [room] octets left: the bits of the groups and the octets. *)
Fixpoint long_levels (lcg_bsr : list Z) (i room : Z) : Z * bytes :=
  match lcg_bsr with
  | [] => (0, [])
  | x :: l =>
      if negb (x =? 0) && (0 <? room) then
        let '(flags, o) := long_levels l (i + 1) (room - 1) in (2 ^ i + flags, x :: o)
      else long_levels l (i + 1) room
  end.

(** The octets of a Long (Truncated) BSR at [pos]. *)
Definition long_bsr_ce (lcid : Z) (lcg_bsr : list Z) (pos mac_ce_end : Z) : bytes :=
  let '(flags, o) := long_levels lcg_bsr 0 (mac_ce_end - (pos + 3)) in
  NR_MAC_SUBHEADER_SHORT lcid (1 + zlen o) ++ flags :: o.

Definition phr_ce (power_headroom : option bytes) : bytes :=
  match power_headroom with Some l => NR_MAC_SUBHEADER_FIXED UL_SCH_LCID_SINGLE_ENTRY_PHR ++ l | None => [] end.

Definition bsr_ce (bsr : type_bsr_t) (pos mac_ce_end : Z) : bytes :=
  match bsr with
  | b_none => []
  | b_short s => NR_MAC_SUBHEADER_FIXED UL_SCH_LCID_S_BSR ++ [s]
  | b_short_trunc s => NR_MAC_SUBHEADER_FIXED UL_SCH_LCID_S_TRUNCATED_BSR ++ [s]
  | b_long l => long_bsr_ce UL_SCH_LCID_L_BSR l pos mac_ce_end
  | b_long_trunc l => long_bsr_ce UL_SCH_LCID_L_TRUNCATED_BSR l pos mac_ce_end
  end.

(** Returns the buffer and the position after the control elements. *)
Definition nr_write_ce_ulsch_pdu (buf : bytes) (mac_ce : Z) (power_headroom : option bytes) (bsr : type_bsr_t) (mac_ce_end : Z)
    : res (bytes * Z) :=
  '(buf, pos) ← put_octets buf mac_ce (phr_ce power_headroom);
  put_octets buf pos (bsr_ce bsr pos mac_ce_end).

(** ** Around the SDUs *)

(** What the UE takes from elsewhere: the two clocks of RLC, power, [phy_test || do_ra], random octets. *)
Record ue_env := mk_ueenv {
  ue_now : Z;
  ue_now_us : Z;
  ue_tx_power : Z;
  ue_P_CMAX : Z;
  ue_pathloss : Z;
  ue_test : bool;
  ue_random : nat → Z
}.

Definition lcgs_with_data (LCG_bytes : list Z) : Z := zlen (List.filter (λ x, 0 <? x) LCG_bytes).

(** The octets to keep free for a BSR. *)
Definition reserved_bsr_len (m : ue_ul_t) (buflen : Z) (LCG_bytes : list Z) : Z :=
  if BSR_reporting_active m =? 0 then 0
  else
    let n := lcgs_with_data LCG_bytes in
    if (1 <? n) && (n + 3 <=? buflen) then n + 3
    else if ((0 <? n) && (2 <=? buflen)) || Z.testbit (BSR_reporting_active m) 1 then 2
    else 0.

(** Returns [end_for_tailer] and the power headroom report. *)
Definition nr_ue_get_sdu_mac_ce_pre (ev : ue_env) (m : ue_ul_t) (buflen : Z) (LCG_bytes : list Z)
    : Z * option bytes * ue_ul_t :=
  let bsr_len := reserved_bsr_len m buflen LCG_bytes in
  if phr_is_configured (phr_info m) && (0 <? phr_reporting (phr_info m)) && (bsr_len + 3 <=? buflen) then
    let '(phr, m) := nr_ue_fill_phr (ue_P_CMAX ev) (ue_tx_power ev) (ue_pathloss ev) m in
    (buflen - bsr_len - 3, Some phr, m)
  else (buflen - bsr_len, None, m).

(** The group of the first channel with data left. *)
Fixpoint highest_lcg (m : ue_ul_t) (l : list nr_lcordered_info_t) : res Z :=
  match l with
  | [] => Ok 0
  | x :: l =>
      s ← get_scheduling_info_from_lcid m (lo_lcid x);
      if negb (LCID_buffer_remain s =? 0) then Ok (LCGID s) else highest_lcg m l
  end.

Fixpoint long_indices (LCG_bytes : list Z) : res (list Z) :=
  match LCG_bytes with
  | [] => Ok []
  | n :: l =>
      i ← nr_locate_BsrIndexByBufferSize NR_LONG_BSR_TABLE_SIZE (as_int n);
      l ← long_indices l;
      Ok (i :: l)
  end.

(** The [NR_BSR_SHORT] of group [lcg]. *)
Definition short_bsr_octet (LCG_bytes : list Z) (lcg : Z) : res Z :=
  n ← deref (znth LCG_bytes lcg);
  i ← nr_locate_BsrIndexByBufferSize NR_SHORT_BSR_TABLE_SIZE (as_int n);
  Ok (i mod 32 + 32 * (lcg mod 8)).

Definition choose_bsr (padding_len lcg_id_bsr_max : Z) (LCG_bytes : list Z) : res type_bsr_t :=
  let n := lcgs_with_data LCG_bytes in
  if (n <? 2) && (2 <=? padding_len) then s ← short_bsr_octet LCG_bytes lcg_id_bsr_max; Ok (b_short s)
  else if n + 3 <=? padding_len then l ← long_indices LCG_bytes; Ok (b_long l)
  else if padding_len =? 2 then s ← short_bsr_octet LCG_bytes lcg_id_bsr_max; Ok (b_short_trunc s)
  else if 3 <=? padding_len then l ← long_indices LCG_bytes; Ok (b_long_trunc l)
  else Ok b_none.

(** Timers and scheduling requests when a BSR is sent. *)
Definition bsr_actions (bsr : type_bsr_t) (m : ue_ul_t) : res ue_ul_t :=
  match bsr with
  | b_none => Ok m
  | _ =>
      let m := m <| retxBSR_Timer ::= nr_timer_start |> in
      let m := match bsr with b_long _ | b_short _ => m <| periodicBSR_Timer ::= nr_timer_start |> | _ => m end in
      if 0 <? regularBSR_trigger_lcid m then
        match get_lc_info_from_lcid (lcs m) (regularBSR_trigger_lcid m) with
        | None => Exit
        | Some x =>
            if (0 <=? lo_sr_id x) && (lo_sr_id x <? NR_MAX_SR_ID) then
              s ← deref (znth (sr_info m) (lo_sr_id x));
              l ← zset (sr_info m) (lo_sr_id x)
                    (s <| sr_pending := false |> <| sr_counter := 0 |> <| prohibitTimer ::= nr_timer_stop |>);
              Ok (m <| sr_info := l |>)
            else Ok m
        end
      else Ok m
  end.

(** Returns the BSR, the buffer and the position after the control elements, and [BSRsent]. *)
Definition nr_ue_get_sdu_mac_ce_post (m : ue_ul_t) (buf : bytes) (cur pdu_end : Z) (phr : option bytes) (LCG_bytes : list Z)
    : res (bool * type_bsr_t * bytes * Z * ue_ul_t) :=
  lcg ← highest_lcg m (lcs m);
  let phr_len := match phr with Some _ => 3 | None => 0 end in
  bsr ← choose_bsr (u32 (pdu_end - cur - phr_len)) lcg LCG_bytes;
  m ← bsr_actions bsr m;
  '(buf, cur) ← nr_write_ce_ulsch_pdu buf cur phr bsr pdu_end;
  Ok (match bsr with b_none => false | _ => true end, bsr, buf, cur, m).
End rlc.

(** ** UE MAC: the rounds of logical channel prioritisation *)

Section lcp.
Context {E : Type} `{RlcEntity E}.

(** The number of channels of the same priority as the first of the list. *)
Definition get_count_lcids_same_priority (l : list nr_lcordered_info_t) : Z :=
  match l with [] => 0 | x :: _ => zlen (List.filter (λ y, lo_priority x =? lo_priority y) l) end.

(** The number of bytes to request from RLC, and the target of the first round. *)
Definition get_num_bytes_to_reqlc (m : ue_ul_t) (same_priority_count lc_num buflen_remain_ep buflen_remain round_id : Z)
    (bytes_read_fromlc : list Z) : res (Z * Z) :=
  match get_lc_info_from_lcid (lcs m) lc_num with
  | None => Exit
  | Some x =>
      let pbr := lo_pbr x in
      s ← get_scheduling_info_from_lcid m lc_num;
      let remain := LCID_buffer_remain s in
      let target := if 1 <? same_priority_count then Z.min buflen_remain_ep pbr else pbr in
      r ← deref (znth bytes_read_fromlc (lc_num - 1));
      let '(num_remaining_bytes, num_bytes_requested) :=
        if round_id =? 0 then
          let pdu_remain := if 1 <? same_priority_count then buflen_remain_ep else u32 buflen_remain in
          let req := if pdu_remain <? pbr then min_mixed remain pdu_remain else min_mixed remain pbr in
          (target - r, Z.min req (target - r))
        else if 1 <? same_priority_count then
          (u32 (buflen_remain_ep - r), Z.min (min_mixed remain buflen_remain_ep) (u32 (buflen_remain_ep - r)))
        else (0, Z.min buflen_remain remain) in
      _ ← assert_that ((0 <=? num_remaining_bytes) && (num_bytes_requested <=? buflen_remain));
      Ok (num_bytes_requested, target)
  end.

Fixpoint get_dataavailability_buffers (l : list nr_lcordered_info_t) (status : list bool) : res bool :=
  match l with
  | [] => Ok false
  | x :: l =>
      i ← lcid_buffer_index (lo_lcid x);
      b ← deref (znth status i);
      if (b : bool) then Ok true else get_dataavailability_buffers l status
  end.

Fixpoint select_logical_channels (m : ue_ul_t) (l : list nr_lcordered_info_t) : res (list nr_lcordered_info_t) :=
  match l with
  | [] => Ok []
  | x :: l =>
      if lo_suspended x then select_logical_channels m l
      else
        s ← get_scheduling_info_from_lcid m (lo_lcid x);
        a ← select_logical_channels m l;
        Ok (if 0 <? Bj s then x :: a else a)
  end.

(** The state of the loops: the transport block, [cur_ptr], [num_sdus], [lcids_data_status], the UE,
    RLC, [LCG_bytes], [num_lcids_same_priority], [lcids_bytes_tot]. *)
Record lcp_t := mk_lcp {
  lp_buf : bytes;
  lp_cur : Z;
  lp_num_sdus : Z;
  lp_status : list bool;
  lp_ue : ue_ul_t;
  lp_rlc : nr_rlc_ue_t E;
  lp_LCG_bytes : list Z;
  lp_num : Z;
  lp_tot : list Z
}.
#[export] Instance eta_lcp : Settable lcp_t :=
  λ s, mk_lcp (lp_buf s) (lp_cur s) (lp_num_sdus s) (lp_status s) (lp_ue s) (lp_rlc s) (lp_LCG_bytes s) (lp_num s) (lp_tot s).

Definition sdu_header (lcid header_sz sdu_length : Z) : bytes :=
  if header_sz =? 2 then NR_MAC_SUBHEADER_SHORT lcid sdu_length else NR_MAC_SUBHEADER_LONG lcid sdu_length.

(** [tail] is [end_for_tailer]. *)
Definition fill_mac_sdu (ev : ue_env) (tail lcp_allocation_counter lcid count_same_priority_lcids buflen_ep : Z) (st : lcp_t)
    : res (bool * lcp_t) :=
  let m := lp_ue st in
  s ← get_scheduling_info_from_lcid m lcid;
  let usable := u32 (tail - lp_cur st) in
  if is_lcid_suspended (map lo_info (lcs m)) lcid then Ok (false, st)
  else if u64 (tail - lp_cur st) <? 3 then Ok (false, st)
  else
    let header_sz := if usable <? 256 then 2 else 3 in
    '(bytes_requested, target) ← get_num_bytes_to_reqlc m count_same_priority_lcids lcid buflen_ep (as_int (usable - header_sz))
                                   (u8 lcp_allocation_counter) (lp_tot st);
    let header_sz := if bytes_requested <? 256 then 2 else 3 in
    '(n, buf, rlc) ← nr_mac_rlc_data_req (ue_now ev) (ue_now_us ev) (lp_rlc st) lcid (as_int bytes_requested) (lp_buf st)
                       (lp_cur st + header_sz);
    let sdu_length := uint16 n in
    _ ← assert_that (sdu_length <=? bytes_requested);
    let s := s <| Bj := as_int (Bj s - sdu_length) |> in
    m ← set_scheduling_info m lcid s;
    lc_idx ← lcid_buffer_index lcid;
    if 0 <? sdu_length then
      '(buf, _) ← put_octets buf (lp_cur st) (sdu_header lcid header_sz sdu_length);
      m ← set_scheduling_info m lcid (s <| LCID_buffer_remain := as_int (LCID_buffer_remain s - sdu_length) |>);
      g ← deref (znth (lp_LCG_bytes st) (LCGID s));
      LCG_bytes ← zset (lp_LCG_bytes st) (LCGID s) (u32 (g - sdu_length));
      t ← deref (znth (lp_tot st) lc_idx);
      let t := u32 (t + (sdu_length + (if 1 <? count_same_priority_lcids then 3 else 0))) in
      tot ← zset (lp_tot st) lc_idx t;
      let last := ((lcp_allocation_counter =? 0) && (target <=? t))
                  || ((1 <? count_same_priority_lcids) && (buflen_ep <=? t)) in
      Ok (negb last, mk_lcp buf (lp_cur st + (header_sz + sdu_length)) (lp_num_sdus st + 1) (lp_status st) m rlc LCG_bytes
                       (if last then u32 (lp_num st - 1) else lp_num st) tot)
    else
      status ← zset (lp_status st) lc_idx false;
      Ok (false, st <| lp_buf := buf |> <| lp_ue := m |> <| lp_rlc := rlc |> <| lp_status := status |>
                    <| lp_num := u32 (lp_num st - 1) |>).

Fixpoint fill_while (fuel : nat) (ev : ue_env) (tail counter lcid count buflen_ep : Z) (st : lcp_t) : res lcp_t :=
  if 0 <? tail - lp_cur st then
    match fuel with
    | O => NoFuel
    | S fuel =>
        '(more, st) ← fill_mac_sdu ev tail counter lcid count buflen_ep st;
        if (more : bool) then fill_while fuel ev tail counter lcid count buflen_ep st else Ok st
    end
  else Ok st.

(** The share of each channel when [count] channels have the same priority. *)
Definition equal_share (remain count : Z) : Z :=
  if u64 remain <? count * 3 then 0 else u32 (u64 (remain - count * 3) / count).

(** One turn of the loop over the channels, [l] are the channels from this one on; [count] and
    [buflen_ep] live on from turn to turn. *)
Definition lcp_channel (ev : ue_env) (tail counter : Z) (x : nr_lcordered_info_t) (l : list nr_lcordered_info_t)
    (a : lcp_t * Z * Z) : res (lcp_t * Z * Z) :=
  let '(st, count, buflen_ep) := a in
  idx ← lcid_buffer_index (lo_lcid x);
  b ← deref (znth (lp_status st) idx);
  if negb b then Ok a
  else
    let c := get_count_lcids_same_priority (x :: l) in
    let '(st, count) := if lp_num st =? 0 then (st <| lp_num := c |>, c) else (st, count) in
    let buflen_ep := if lp_num st =? count then equal_share (tail - lp_cur st) count else buflen_ep in
    st ← fill_while (Z.to_nat (tail - lp_cur st)) ev tail counter (lo_lcid x) count buflen_ep st;
    Ok (st, count, buflen_ep).

Fixpoint lcp_channels (ev : ue_env) (tail counter : Z) (l : list nr_lcordered_info_t) (a : lcp_t * Z * Z) : res (lcp_t * Z * Z) :=
  match l with
  | [] => Ok a
  | x :: l => a ← lcp_channel ev tail counter x l a; lcp_channels ev tail counter l a
  end.

(** The [do ... while]. *)
Fixpoint lcp_rounds (fuel : nat) (ev : ue_env) (tail counter : Z) (active : list nr_lcordered_info_t) (buflen_ep : Z) (st : lcp_t)
    : res lcp_t :=
  match fuel with
  | O => NoFuel
  | S fuel =>
      '(st, _, buflen_ep) ← lcp_channels ev tail counter active
                              (st <| lp_num := 0 |> <| lp_tot := replicate 32 0 |>, 0, buflen_ep);
      if 3 <? u64 (tail - lp_cur st) then
        more ← get_dataavailability_buffers active (lp_status st);
        if (more : bool) then lcp_rounds fuel ev tail (u32 (counter + 1)) active buflen_ep st else Ok st
      else Ok st
  end.

(** What is left of the block: padding, or random octets for tests. *)
Definition ul_padding (ev : ue_env) (buf : bytes) (cur pdu_end : Z) : res bytes :=
  if pdu_end - cur =? 0 then Ok buf
  else
    '(buf, cur) ← put_octets buf cur (NR_MAC_SUBHEADER_FIXED UL_SCH_LCID_PADDING);
    let n := Z.to_nat (pdu_end - cur) in
    '(buf, _) ← put_octets buf cur (if ue_test ev then map (λ i, u8 (ue_random ev i)) (seq 0 n) else replicate n 0);
    Ok buf.

(** Returns the result, [BSRsent] (false at the call), the transport block, the UE and RLC. *)
Definition nr_ue_get_sdu (ev : ue_env) (m : ue_ul_t) (rlc : nr_rlc_ue_t E) (ulsch_buffer : bytes) (buflen : Z)
    : res (bool * bool * bytes * ue_ul_t * nr_rlc_ue_t E) :=
  '(m, LCG_bytes) ← nr_update_bsr m (replicate 8 0);
  let '(tail, phr, m) := nr_ue_get_sdu_mac_ce_pre ev m buflen LCG_bytes in
  match lcs m with
  | [] => Ok (false, false, ulsch_buffer, m, rlc)
  | _ =>
      active ← select_logical_channels m (lcs m);
      st ← lcp_rounds (Z.to_nat (buflen + 34)) ev tail 0 active 0
             (mk_lcp ulsch_buffer 0 0 (replicate 32 true) m rlc LCG_bytes 0 []);
      '(sent, _, buf, cur, m) ← nr_ue_get_sdu_mac_ce_post (lp_ue st) (lp_buf st) (lp_cur st) buflen phr (lp_LCG_bytes st);
      buf ← ul_padding ev buf cur buflen;
      Ok (0 <? lp_num_sdus st, sent, buf, m, lp_rlc st)
  end.
End lcp.
Arguments lcp_t : clear implicits.
