(* ===== verification/MacUlGnb.v ===== *)
(** * Uplink MAC PDU: what the gNB makes of well-formed subPDUs

    The subPDUs of an uplink MAC PDU as data ([ul_sub]), their octets, and the proof that the gNB's
    parser takes them apart: it acts on the control elements and hands every SDU of a channel in
    service, unchanged and in order, to RLC.

    Then: gNB: arbitrary octets in an uplink MAC PDU.
    The parser of the gNB on a PDU that is not well-formed: it reads at most nine octets after the PDU,
    comes to an end, and what it gives to RLC is inside the PDU. *)

From S2P Require Import Prelude RlcEntity RlcApi MacPdu MacDl MacBsr MacUeRx MacUlRx MacUlLcp.

(** ** SubPDUs *)

Inductive ul_sub :=
| UlSdu (header_sz lcid : Z) (d : bytes)
| UlBsrShort (lcid b : Z)
| UlBsrLong (lcid : Z) (l : bytes)
| UlPhr (b1 b2 : Z).

Definition ul_sub_octets (x : ul_sub) : bytes :=
  match x with
  | UlSdu header_sz lcid d => sdu_header lcid header_sz (zlen d) ++ d
  | UlBsrShort lcid b => [lcid; b]
  | UlBsrLong lcid l => NR_MAC_SUBHEADER_SHORT lcid (zlen l) ++ l
  | UlPhr b1 b2 => [UL_SCH_LCID_SINGLE_ENTRY_PHR; b1; b2]
  end.

Definition ul_octets (xs : list ul_sub) : bytes := concat (map ul_sub_octets xs).

Definition ul_sub_ok (x : ul_sub) : Prop :=
  match x with
  | UlSdu header_sz lcid d =>
      1 <= lcid <= 32 ∧ lcid ≠ 3 ∧ (header_sz = 2 ∧ zlen d < 256 ∨ header_sz = 3 ∧ zlen d <= 65535)
  | UlBsrShort lcid b => (lcid = UL_SCH_LCID_S_BSR ∨ lcid = UL_SCH_LCID_S_TRUNCATED_BSR)
  | UlBsrLong lcid l => (lcid = UL_SCH_LCID_L_BSR ∨ lcid = UL_SCH_LCID_L_TRUNCATED_BSR) ∧ zlen l < 256 ∧
      ∃ estim, estimate_ul_buffer_long_bsr l 0 = Ok estim
  | UlPhr b1 b2 => True
  end.

Definition ok_or {A} (r : res A) (a : A) : A := match r with Ok x => x | _ => a end.

(** ** Reading a long BSR in a larger memory *)

Lemma znth_embed {A} (pre l post : list A) i x : znth l i = Some x → znth (pre ++ l ++ post) (zlen pre + i) = Some x.
Proof. intros Hi. rewrite znth_mid; [done |]. by eapply znth_Some. Qed.

Lemma long_loop_embed pre l post k flags : ∀ payload n m e r,
  long_bsr_loop k flags l payload n m e = Ok r →
  long_bsr_loop k flags (pre ++ l ++ post) (zlen pre + payload) n m e = Ok r.
Proof.
  induction k as [| k IH]; intros payload n m e r; [done |]. simpl. destruct (negb _); [apply IH |].
  intros Hr. inv_bind Hr. destruct (znth l (payload + m)) as [x |] eqn:Ex; simplify_eq/=.
  replace (zlen pre + payload + m) with (zlen pre + (payload + m)) by lia. rewrite (znth_embed _ _ _ _ _ Ex). cbn [deref mbind res_bind].
  inv_bind Hr. rewrite E. cbn [mbind res_bind]. by apply IH.
Qed.

Lemma long_bsr_embed pre l post r :
  estimate_ul_buffer_long_bsr l 0 = Ok r → estimate_ul_buffer_long_bsr (pre ++ l ++ post) (zlen pre) = Ok r.
Proof.
  unfold estimate_ul_buffer_long_bsr. generalize 8%nat as k. intros k Hr.
  destruct (znth l 0) as [x |] eqn:Ex; [| done]. cbn [deref mbind res_bind] in Hr.
  pose proof (znth_embed pre l post 0 x Ex) as Hx. rewrite Z.add_0_r in Hx. rewrite Hx.
  cbn [deref mbind res_bind]. by apply (long_loop_embed pre l post k x (0 + 1)).
Qed.

Lemma short_bsr_total b : ∃ r, estimate_ul_buffer_short_bsr b = Ok r.
Proof.
  unfold estimate_ul_buffer_short_bsr. cbv zeta.
  assert (0 <= Z.land b 31 < 32) by (change 31 with (Z.ones 5); rewrite Z.land_ones by lia; by apply Z.mod_pos_bound).
  unfold overestim_bsr_index, NR_SHORT_BSR_TABLE_SIZE. rewrite get_short_ok; [cbn [mbind res_bind]; by eexists |].
  case_match; lia.
Qed.

(** ** Headers *)

Section header.
Context (pre post : bytes).

Lemma decode_short lcid n : 0 <= lcid < 64 → 0 <= n < 256 → ul_has_length lcid = true →
  decode_ul_mac_sub_pdu_header (pre ++ NR_MAC_SUBHEADER_SHORT lcid n ++ post) (zlen pre) = Ok (lcid, 2, n).
Proof.
  intros Hl Hn Hh. unfold decode_ul_mac_sub_pdu_header, NR_MAC_SUBHEADER_SHORT. rewrite znth_head. cbn [deref mbind res_bind]. cbv zeta.
  rewrite !Z.mod_small by lia. destruct (fixed_lcid lcid Hl) as [-> ->]. rewrite Hh.
  rewrite znth_mid by (unfold zlen; simpl; lia). by change (znth (lcid :: [n]) 1) with (Some n).
Qed.

Lemma decode_long lcid n : 0 <= lcid < 64 → 0 <= n <= 65535 → ul_has_length lcid = true →
  decode_ul_mac_sub_pdu_header (pre ++ NR_MAC_SUBHEADER_LONG lcid n ++ post) (zlen pre) = Ok (lcid, 3, n).
Proof.
  intros Hl Hn Hh. unfold decode_ul_mac_sub_pdu_header. rewrite znth_long by done. cbn [deref mbind res_bind]. cbv zeta.
  destruct (long_lcid lcid Hl) as [-> ->]. rewrite Hh. unfold NR_MAC_SUBHEADER_LONG.
  rewrite !znth_mid by (unfold zlen; simpl; lia).
  change (znth _ 1) with (Some ((n mod 65536) / 256)). change (znth _ 2) with (Some (n mod 256)). cbn [deref mbind res_bind].
  by rewrite long_length by done.
Qed.

Lemma decode_fixed b l : 0 <= b < 64 → ul_has_length b = false →
  decode_ul_mac_sub_pdu_header (pre ++ (b :: l) ++ post) (zlen pre) = Ok (b, 1, ul_fixed_length b).
Proof.
  intros Hb Hh. unfold decode_ul_mac_sub_pdu_header. rewrite znth_head. cbn [deref mbind res_bind]. cbv zeta.
  destruct (fixed_lcid b Hb) as [-> _]. by rewrite Hh.
Qed.

Lemma decode_sdu hd lcid d : ul_sub_ok (UlSdu hd lcid d) →
  decode_ul_mac_sub_pdu_header (pre ++ sdu_header lcid hd (zlen d) ++ post) (zlen pre) = Ok (lcid, hd, zlen d).
Proof.
  intros (Hl & H3 & Hd). pose proof (zlen_nonneg d).
  assert (Hh : ul_has_length lcid = true).
  { unfold ul_has_length. autounfold with lcid. destruct (Z.eqb_spec lcid 1); [done |]. destruct (Z.eqb_spec lcid 2); [done |].
    decide_true ((4 <=? lcid) && (lcid <=? 4 + 28)). done. }
  destruct Hd as [[-> Hd] | [-> Hd]]; unfold sdu_header; simpl; [apply decode_short | apply decode_long]; (done || lia).
Qed.
End header.

(** ** What a subPDU does *)

Section parse.
Context {E : Type} `{RlcEntity E}.
Context (ev : ul_env E) (harq_pid : Z).
Implicit Types ue : ul_ue_t E.

Definition ul_sub_effect ue (x : ul_sub) : ul_ue_t E :=
  match x with
  | UlSdu _ lcid d =>
      if lc_ignored ue lcid then ue
      else
        let ue := ok_or (count_sdu lcid (zlen d) ue) ue in
        if lcid <? 4 then ue
        else ue <| estimated_ul_buffer := if zlen d <=? estimated_ul_buffer ue then estimated_ul_buffer ue - zlen d else 0 |>
  | UlBsrShort _ b => ul_bsr (ok_or (estimate_ul_buffer_short_bsr b) 0) ue
  | UlBsrLong _ l => ul_bsr (ok_or (estimate_ul_buffer_long_bsr l 0) 0) ue
  | UlPhr b1 b2 => handle_single_entry_phr ev harq_pid b1 b2 ue
  end.

Definition ul_effect ue (xs : list ul_sub) : ul_ue_t E := foldl ul_sub_effect ue xs.

(** The SDUs for RLC. *)
Definition ul_sub_sdus ue (x : ul_sub) : list (Z * bytes) :=
  match x with UlSdu _ lcid d => if lc_ignored ue lcid then [] else [(lcid, d)] | _ => [] end.

Definition ul_sdus ue (xs : list ul_sub) : list (Z * bytes) := concat (map (ul_sub_sdus ue) xs).

(** What the parser relies on and keeps. *)
Record ul_ue_ok ue : Prop := { uo_cg : gu_CellGroup ue = true; uo_stats : zlen (lc_bytes (gu_stats ue)) = 64 }.

Lemma count_sdu_ok lcid n ue : 0 <= lcid < 64 → ul_ue_ok ue →
  ∃ ue', count_sdu lcid n ue = Ok ue' ∧ ul_ue_ok ue' ∧ gu_lc_config ue' = gu_lc_config ue ∧ gu_rlc ue' = gu_rlc ue ∧
    estimated_ul_buffer ue' = estimated_ul_buffer ue.
Proof.
  intros Hl [Hcg Hz]. unfold count_sdu. destruct (znth_is_Some (lc_bytes (gu_stats ue)) lcid) as [x ->]; [lia |].
  cbn [deref mbind res_bind]. rewrite zset_Ok by lia. cbn [mbind res_bind]. eexists. split; [done |].
  split_and!; try done. constructor; [done |]. simpl. by rewrite zlen_insert.
Qed.

Lemma effect_keeps x ue : ul_sub_ok x → ul_ue_ok ue →
  ul_ue_ok (ul_sub_effect ue x) ∧ gu_lc_config (ul_sub_effect ue x) = gu_lc_config ue ∧ gu_rlc (ul_sub_effect ue x) = gu_rlc ue.
Proof.
  intros Hx Hu. destruct x as [hd lcid d | lcid b | lcid l | b1 b2]; simpl in *.
  - destruct (lc_ignored ue lcid); [done |]. destruct (count_sdu_ok lcid (zlen d) ue) as (ue' & -> & Hu' & H2 & H3 & _); [lia | done |].
    simpl. destruct (lcid <? 4); [done |]. destruct Hu'. by split_and!.
  - by destruct Hu.
  - by destruct Hu.
  - unfold handle_single_entry_phr. destruct (harq_pid <? 0); [done |]. cbv zeta. by destruct Hu.
Qed.

Lemma sdus_config ue ue' xs : gu_lc_config ue' = gu_lc_config ue → ul_sdus ue' xs = ul_sdus ue xs.
Proof.
  intros Hc. unfold ul_sdus. induction xs as [| x xs IH]; [done |]. simpl. rewrite IH. f_equal. destruct x; try done.
  simpl. unfold lc_ignored. by rewrite Hc.
Qed.

(** One turn of the loop. *)
Definition turn_ok (mem : bytes) (x : ul_sub) ue (lcid hdr n pos pdu_len : Z) : Prop :=
  decode_ul_mac_sub_pdu_header mem pos = Ok (lcid, hdr, n) ∧ hdr + n = zlen (ul_sub_octets x) ∧ 0 < hdr + n ∧
  ∃ inds k, ul_subpdu ev harq_pid mem pos pdu_len lcid hdr n ue = Ok (mk_gturn (ul_sub_effect ue x) n inds k false) ∧
    Forall2 (ind_reads mem) inds (ul_sub_sdus ue x) ∧ k = zlen (List.filter (λ q, 4 <=? q.1) (ul_sub_sdus ue x)).

Lemma turn_sdu pre post hd lcid d pdu_len ue : ul_sub_ok (UlSdu hd lcid d) → ul_ue_ok ue →
  turn_ok (pre ++ ul_sub_octets (UlSdu hd lcid d) ++ post) (UlSdu hd lcid d) ue lcid hd (zlen d) (zlen pre) pdu_len.
Proof.
  intros Hok Hu. pose proof Hok as (Hl & H3 & Hd). pose proof (zlen_nonneg d). unfold turn_ok.
  change (ul_sub_octets (UlSdu hd lcid d)) with (sdu_header lcid hd (zlen d) ++ d). rewrite <- (app_assoc _ d post).
  assert (Hhd : zlen (sdu_header lcid hd (zlen d)) = hd) by (destruct Hd as [[-> _] | [-> _]]; done).
  split; [by apply decode_sdu |]. rewrite zlen_app, Hhd. split; [done |]. split; [destruct Hd as [[-> _] | [-> _]]; lia |].
  assert (Hrd : ind_reads (pre ++ sdu_header lcid hd (zlen d) ++ d ++ post) (mk_ind lcid (zlen pre + hd) (zlen d)) (lcid, d)).
  { split; [done |]. simpl. rewrite <- Hhd at 2. rewrite <- zlen_app, (app_assoc pre). apply slice_mid. }
  destruct (count_sdu_ok lcid (zlen d) ue) as (ue' & Ec & _ & _ & _ & He); [lia | done |].
  unfold ul_subpdu. autounfold with lcid. decide_false (lcid =? 0). decide_false (lcid =? 35). decide_false (lcid =? 52). simpl orb. cbv iota.
  simpl ul_sub_sdus. simpl ul_sub_effect. rewrite Ec. simpl ok_or. destruct (Z.ltb_spec lcid 4) as [Hlt | Hge].
  - decide_true ((lcid =? 1) || (lcid =? 2)). unfold ul_srb. rewrite (uo_cg _ Hu). simpl assert_that. cbn [mbind res_bind].
    destruct (lc_ignored ue lcid); [by exists [], 0 |]. rewrite Ec. cbn [mbind res_bind]. eexists _, _. split; [done |].
    split; [by constructor |]. simpl. by decide_false (4 <=? lcid).
  - decide_false ((lcid =? 1) || (lcid =? 2)). decide_true ((4 <=? lcid) && (lcid <=? 4 + 28)). unfold ul_dtch.
    destruct (lc_ignored ue lcid); [by exists [], 0 |]. rewrite Ec. cbn [mbind res_bind]. eexists _, _. split; [done |].
    split; [by constructor |]. simpl. by decide_true (4 <=? lcid).
Qed.

Lemma turn_ce x pre post pdu_len ue : ul_sub_ok x → ul_ue_ok ue → match x with UlSdu _ _ _ => False | _ => True end →
  ∃ lcid hdr n, turn_ok (pre ++ ul_sub_octets x ++ post) x ue lcid hdr n (zlen pre) pdu_len.
Proof.
  intros Hok Hu Hx. destruct x as [hd lcid d | lcid b | lcid l | b1 b2]; [done | ..]; simpl in Hok; unfold turn_ok.
  - exists lcid, 1, 1. simpl ul_sub_octets. assert (Hl : 0 <= lcid < 64) by (destruct Hok as [-> | ->]; done).
    rewrite decode_fixed; [| done | destruct Hok as [-> | ->]; done].
    split; [destruct Hok as [-> | ->]; done |]. split; [done |]. split; [done |]. exists [], 0.
    split; [| done]. assert (Hb : znth (pre ++ [lcid; b] ++ post) (zlen pre + 1) = Some b)
      by (rewrite znth_mid by (unfold zlen; simpl; lia); done).
    simpl ul_sub_effect. destruct (short_bsr_total b) as [r Er]. rewrite Er. simpl ok_or.
    destruct Hok as [-> | ->]; unfold ul_subpdu; simpl orb; simpl andb; cbv iota; rewrite Hb; cbn [deref mbind res_bind];
      rewrite Er; done.
  - destruct Hok as (Hl & Hz & r & Er). exists lcid, 2, (zlen l). pose proof (zlen_nonneg l).
    change (ul_sub_octets (UlBsrLong lcid l)) with (NR_MAC_SUBHEADER_SHORT lcid (zlen l) ++ l).
    rewrite <- app_assoc. rewrite decode_short; [| destruct Hl as [-> | ->]; done | lia | destruct Hl as [-> | ->]; done].
    split; [done |]. split; [by rewrite zlen_app |]. split; [lia |]. exists [], 0. split; [| done].
    assert (Eb : estimate_ul_buffer_long_bsr (pre ++ NR_MAC_SUBHEADER_SHORT lcid (zlen l) ++ l ++ post) (zlen pre + 2) = Ok r).
    { rewrite (app_assoc pre). change 2 with (zlen (NR_MAC_SUBHEADER_SHORT lcid (zlen l))). rewrite <- zlen_app. by apply long_bsr_embed. }
    simpl ul_sub_effect. rewrite Er. simpl ok_or.
    destruct Hl as [-> | ->]; unfold ul_subpdu; simpl orb; simpl andb; cbv iota; rewrite Eb; done.
  - exists UL_SCH_LCID_SINGLE_ENTRY_PHR, 1, 2. simpl ul_sub_octets. rewrite decode_fixed by done.
    split; [done |]. split; [done |]. split; [done |]. exists [], 0. split; [| done].
    unfold ul_subpdu. simpl orb. simpl andb. cbv iota. change (_ =? UL_SCH_LCID_SINGLE_ENTRY_PHR) with true. cbv iota.
    rewrite <- (Z.add_assoc (zlen pre) 1 1), !znth_mid by (unfold zlen; simpl; lia). done.
Qed.

Lemma turn_any x pre post pdu_len ue : ul_sub_ok x → ul_ue_ok ue →
  ∃ lcid hdr n, turn_ok (pre ++ ul_sub_octets x ++ post) x ue lcid hdr n (zlen pre) pdu_len.
Proof.
  intros Hok Hu. destruct x; try by apply turn_ce. eexists _, _, _. by apply turn_sdu.
Qed.

(** ** The whole PDU *)

(** Padding: nothing, or a padding subheader and up to 65535 octets. *)
Definition ul_pad_ok (l : bytes) : Prop := match l with [] => True | b :: l => b = UL_SCH_LCID_PADDING ∧ zlen l <= 65535 end.

Definition dtch_count (l : list (Z * bytes)) : Z := zlen (List.filter (λ q, 4 <=? q.1) l).

Lemma subpdu_padding mem pos len ue :
  ul_subpdu ev harq_pid mem pos len UL_SCH_LCID_PADDING 1 0 ue = Ok (mk_gturn ue (uint16 (len - 1)) [] 0 false).
Proof. reflexivity. Qed.

Lemma subpdu_zero mem pos len ue : all_zero mem pos 9 = Ok true →
  ul_subpdu ev harq_pid mem pos len 0 1 8 ue = Ok (mk_gturn ue 8 [] 0 true).
Proof.
  intros Hz. change (ul_subpdu ev harq_pid mem pos len 0 1 8 ue) with (ul_ccch ev mem pos 0 1 8 ue). unfold ul_ccch.
  change (0 =? UL_SCH_LCID_CCCH_64_BITS) with true. cbv iota. by change (Z.to_nat (1 + 8)) with 9%nat; rewrite Hz.
Qed.

Lemma parse_padding fuel pre pad post ue acc k :
  ul_pad_ok pad → zlen pad <= Z.of_nat fuel →
  ul_parse fuel ev harq_pid (pre ++ pad ++ post) (zlen pre) (zlen pad) ue acc k = Ok (ue, Some (acc, k)).
Proof.
  intros Hp Hf. destruct pad as [| b pad]; [by destruct fuel |]. destruct Hp as [-> Hp]. rewrite zlen_cons in *.
  pose proof (zlen_nonneg pad). destruct fuel as [| fuel]; [lia |]. cbn [ul_parse]. decide_true (0 <? 1 + zlen pad).
  rewrite (decode_fixed pre post UL_SCH_LCID_PADDING pad) by done. cbn [mbind res_bind].
  change (ul_fixed_length UL_SCH_LCID_PADDING) with 0. decide_false (1 + zlen pad <? 1 + 0).
  rewrite subpdu_padding.
  cbn [mbind res_bind gt_ind gt_return gt_ue gt_len gt_sdus]. rewrite app_nil_r. simpl assert_that. cbn [mbind res_bind].
  unfold uint16. rewrite Z.mod_small by lia. replace (1 + zlen pad - (1 + (1 + zlen pad - 1))) with 0 by lia.
  rewrite Z.add_0_r. by destruct fuel.
Qed.

(** The number of data indications: the [MAX_NUM_DATA_IND]-th aborts the gNB.  Otherwise the parser
    comes to what is after the subPDUs. *)
Definition ul_parsed (mem : bytes) ue (acc : list nr_rlc_data_ind_t) (k : Z) (xs : list ul_sub) (pos len : Z)
    (r : res (ul_ue_t E * option (list nr_rlc_data_ind_t * Z))) : Prop :=
  if zlen acc + zlen (ul_sdus ue xs) <? MAX_NUM_DATA_IND then
    ∃ inds fuel, len <= Z.of_nat fuel ∧
      r = ul_parse fuel ev harq_pid mem pos len (ul_effect ue xs) (acc ++ inds) (k + dtch_count (ul_sdus ue xs)) ∧
      Forall2 (ind_reads mem) inds (ul_sdus ue xs)
  else r = Exit.

Lemma ul_parse_prefix xs : ∀ fuel pre pad post ue acc k,
  Forall ul_sub_ok xs → ul_ue_ok ue →
  zlen (ul_octets xs) + zlen pad <= Z.of_nat fuel → zlen acc < MAX_NUM_DATA_IND →
  let mem := pre ++ ul_octets xs ++ pad ++ post in
  ul_parsed mem ue acc k xs (zlen (pre ++ ul_octets xs)) (zlen pad)
    (ul_parse fuel ev harq_pid mem (zlen pre) (zlen (ul_octets xs) + zlen pad) ue acc k).
Proof.
  induction xs as [| x xs IH]; intros fuel pre pad post ue acc k Hok Hu Hfuel Hcnt mem; unfold ul_parsed.
  - change (ul_sdus ue []) with (@nil (Z * bytes)). rewrite zlen_nil, Z.add_0_r. decide_true (zlen acc <? MAX_NUM_DATA_IND).
    unfold mem. change (ul_octets []) with (@nil Z) in *. rewrite zlen_nil, Z.add_0_l in *. rewrite app_nil_l, app_nil_r.
    exists [], fuel. unfold dtch_count. rewrite app_nil_r. change (zlen (List.filter _ [])) with 0. rewrite Z.add_0_r.
    split_and!; [done | done | constructor].
  - apply Forall_cons in Hok as [Hx Hok]. change (ul_octets (x :: xs)) with (ul_sub_octets x ++ ul_octets xs) in *.
    change (ul_sdus ue (x :: xs)) with (ul_sub_sdus ue x ++ ul_sdus ue xs). rewrite !zlen_app in *.
    pose proof (zlen_nonneg (ul_octets xs)). pose proof (zlen_nonneg pad). pose proof (zlen_nonneg acc).
    pose proof (zlen_nonneg (ul_sdus ue xs)).
    set (len := zlen (ul_sub_octets x) + zlen (ul_octets xs) + zlen pad) in *.
    destruct (turn_any x pre (ul_octets xs ++ pad ++ post) len ue Hx Hu) as (lcid & hdr & n & Ed & Hn & Hpos & inds & j & Es & Hi & Hj).
    destruct fuel as [| fuel]; [lia |]. cbn [ul_parse]. decide_true (0 <? len).
    unfold mem. rewrite <- app_assoc, Ed. cbn [mbind res_bind]. decide_false (len <? hdr + n). rewrite Es.
    cbn [mbind res_bind gt_ind gt_return gt_ue gt_len gt_sdus].
    apply Forall2_length in Hi as Hil.
    assert (Hzi : zlen inds = zlen (ul_sub_sdus ue x)) by (unfold zlen; by rewrite Hil).
    match goal with |- context [assert_that ?b] => assert (Ha : b = (zlen acc + zlen inds <? MAX_NUM_DATA_IND)) end.
    { destruct inds; [rewrite zlen_nil, Z.add_0_r; symmetry; by apply Z.ltb_lt | by rewrite zlen_app]. }
    rewrite Ha. unfold assert_that. destruct (Z.ltb_spec (zlen acc + zlen inds) MAX_NUM_DATA_IND) as [Hlt | Hge]; cbn [mbind res_bind].
    2: { by decide_false (zlen acc + (zlen (ul_sub_sdus ue x) + zlen (ul_sdus ue xs)) <? MAX_NUM_DATA_IND). }
    destruct (effect_keeps x ue Hx Hu) as (Hu' & Hc & _).
    specialize (IH fuel (pre ++ ul_sub_octets x) pad post (ul_sub_effect ue x) (acc ++ inds) (k + j) Hok Hu').
    unfold ul_parsed in IH. rewrite (sdus_config _ _ xs Hc), !zlen_app, <- app_assoc in IH. cbv zeta in IH.
    rewrite Hn. replace (len - zlen (ul_sub_octets x)) with (zlen (ul_octets xs) + zlen pad) by (unfold len; lia).
    rewrite Hzi, <- !Z.add_assoc in IH. specialize (IH ltac:(lia) ltac:(lia)).
    destruct (_ <? MAX_NUM_DATA_IND); [| done].
    destruct IH as (inds' & fuel' & Hf' & E' & Hi'). exists (inds ++ inds'), fuel'. rewrite E'. split_and!; [done | | by apply Forall2_app].
    unfold dtch_count. by rewrite List.filter_app, zlen_app, Hj, <- (app_assoc acc).
Qed.

Lemma effect_rlc xs ue : Forall ul_sub_ok xs → ul_ue_ok ue → gu_rlc (ul_effect ue xs) = gu_rlc ue.
Proof.
  intros Hok. revert ue. induction Hok as [| x xs Hx Hok IH]; intros ue Hu; [done |].
  destruct (effect_keeps x ue Hx Hu) as (Hu' & _ & <-). by apply IH.
Qed.

(** The first octet is there. *)
Lemma first_octet (l : bytes) : 0 < zlen l → ∃ b, znth l 0 = Some b.
Proof. intros Hl. apply znth_is_Some. lia. Qed.

(** The gNB gives RLC the SDUs of the PDU, unless there are too many of them. *)
Lemma ul_process_ok xs pad post ue :
  Forall ul_sub_ok xs → ul_pad_ok pad → ul_ue_ok ue → 0 < zlen (ul_octets xs) + zlen pad →
  nr_process_mac_pdu ev harq_pid (ul_octets xs ++ pad ++ post) (zlen (ul_octets xs) + zlen pad) ue =
    let sdus := ul_sdus ue xs in
    if zlen sdus <? MAX_NUM_DATA_IND then
      rlc ← rlc_receive (uv_now ev) (gu_rlc ue) sdus;
      Ok ((ul_effect ue xs) <| gu_rlc := rlc |>
            <| gu_stats ::= λ s, s <| num_mac_sdu := u32 (num_mac_sdu s + dtch_count sdus) |> |>)
    else Exit.
Proof.
  intros Hok Hpad Hu Hpos. unfold nr_process_mac_pdu. pose proof (zlen_nonneg post).
  destruct (first_octet (ul_octets xs ++ pad ++ post)) as [b ->]; [rewrite !zlen_app; lia |].
  cbn [deref mbind res_bind]. pose proof (zlen_nonneg (ul_octets xs)). pose proof (zlen_nonneg pad).
  pose proof (ul_parse_prefix xs (Z.to_nat (zlen (ul_octets xs) + zlen pad)) [] pad post ue [] 0 Hok Hu ltac:(lia) ltac:(done)) as Hp.
  cbv zeta in Hp |- *. unfold ul_parsed in Hp. change (zlen (A:=Z) []) with 0 in Hp. rewrite zlen_nil, !Z.add_0_l, !app_nil_l in Hp.
  destruct (_ <? MAX_NUM_DATA_IND); [| by rewrite Hp].
  destruct Hp as (inds & fuel & Hf & -> & Hi). rewrite parse_padding by done. cbn [mbind res_bind]. rewrite ?app_nil_l.
  by rewrite (effect_rlc xs ue Hok Hu), (data_ind_receive _ _ _ _ _ Hi).
Qed.

(** More than 65535 octets of padding: the gNB takes octets of it for a subheader.  If they are zero it
    drops everything. *)
Lemma big_padding xs n post ue :
  Forall ul_sub_ok xs → ul_ue_ok ue → zlen (ul_sdus ue xs) < MAX_NUM_DATA_IND → 65536 <= n →
  nr_process_mac_pdu ev harq_pid (ul_octets xs ++ (UL_SCH_LCID_PADDING :: replicate (Z.to_nat n) 0) ++ post)
    (zlen (ul_octets xs) + (1 + n)) ue = Ok (ul_effect ue xs).
Proof.
  intros Hok Hu Hcnt Hn. set (pad := UL_SCH_LCID_PADDING :: replicate (Z.to_nat n) 0).
  assert (Hz : zlen pad = 1 + n) by (unfold pad; rewrite zlen_cons; unfold zlen; rewrite length_replicate; lia).
  rewrite <- Hz. unfold nr_process_mac_pdu. pose proof (zlen_nonneg (ul_octets xs)). pose proof (zlen_nonneg post).
  destruct (first_octet (ul_octets xs ++ pad ++ post)) as [b ->]; [rewrite !zlen_app; lia |]. cbn [deref mbind res_bind].
  pose proof (ul_parse_prefix xs (Z.to_nat (zlen (ul_octets xs) + zlen pad)) [] pad post ue [] 0 Hok Hu ltac:(lia) ltac:(done)) as Hp.
  cbv zeta in Hp |- *. unfold ul_parsed in Hp. change (zlen (A:=Z) []) with 0 in Hp. rewrite zlen_nil, !Z.add_0_l, !app_nil_l in Hp.
  rewrite (proj2 (Z.ltb_lt _ _) Hcnt) in Hp. destruct Hp as (inds & fuel & Hf & -> & _). rewrite ?app_nil_l.
  destruct fuel as [| [| fuel]]; [lia | lia |]. cbn [ul_parse]. rewrite Hz. decide_true (0 <? 1 + n).
  assert (Hd := decode_fixed (ul_octets xs) post UL_SCH_LCID_PADDING (replicate (Z.to_nat n) 0) ltac:(done) ltac:(done)).
  fold pad in Hd. rewrite Hd. cbn [mbind res_bind].
  change (ul_fixed_length UL_SCH_LCID_PADDING) with 0. decide_false (1 + n <? 1 + 0).
  rewrite subpdu_padding.
  cbn [mbind res_bind gt_ind gt_return gt_ue gt_len gt_sdus]. rewrite app_nil_r. simpl assert_that. cbn [mbind res_bind].
  set (k := uint16 (1 + n - 1)). assert (Hk : 0 <= k < 65536 ∧ k + 65536 <= n).
  { unfold k, uint16. replace (1 + n - 1) with n by lia. change (2 ^ 16) with 65536. zdiv_lia. }
  assert (Hsplit : ul_octets xs ++ pad ++ post =
    (ul_octets xs ++ UL_SCH_LCID_PADDING :: replicate (Z.to_nat k) 0) ++ (0 :: replicate (Z.to_nat (n - k - 1)) 0) ++ post).
  { unfold pad. rewrite <- app_assoc. f_equal. simpl app. f_equal. rewrite !app_comm_cons, (app_assoc _ _ post). f_equal.
    change (0 :: replicate (Z.to_nat (n - k - 1)) 0) with (replicate (S (Z.to_nat (n - k - 1))) 0). rewrite <- replicate_add. f_equal. lia. }
  set (pre := ul_octets xs ++ UL_SCH_LCID_PADDING :: replicate (Z.to_nat k) 0).
  assert (Hpre : zlen pre = zlen (ul_octets xs) + (1 + k)).
  { unfold pre. rewrite zlen_app, zlen_cons. unfold zlen. rewrite length_replicate. lia. }
  fold pre in Hsplit. rewrite Hsplit, <- Hpre. decide_true (0 <? 1 + n - (1 + k)). rewrite decode_fixed by done. cbn [mbind res_bind].
  change (ul_fixed_length 0) with 8. decide_false (1 + n - (1 + k) <? 1 + 8).
  assert (Hzero : ∀ j p q, (j <= q)%nat → all_zero (p ++ replicate q 0 ++ post) (zlen p) j = Ok true).
  { clear. induction j as [| j IH]; intros p q Hq; [done |]. destruct q as [| q]; [lia |]. cbn [all_zero replicate].
    rewrite znth_head. cbn [deref mbind res_bind]. simpl (0 =? 0). cbv iota.
    replace (p ++ (0 :: replicate q 0) ++ post) with ((p ++ [0]) ++ replicate q 0 ++ post) by by rewrite <- app_assoc.
    replace (zlen p + 1) with (zlen (p ++ [0])) by by rewrite zlen_app. apply IH. lia. }
  change (0 :: replicate (Z.to_nat (n - k - 1)) 0) with (replicate (S (Z.to_nat (n - k - 1))) 0).
  rewrite subpdu_zero; [done |]. apply Hzero. lia.
Qed.
End parse.

(** ** gNB: arbitrary octets in an uplink MAC PDU *)

Definition is_octet (x : Z) : Prop := 0 <= x < 256.

Section octets.
Context (mem : bytes) (Hmem : Forall is_octet mem).

Lemma readable i : 0 <= i < zlen mem → ∃ b, znth mem i = Some b ∧ is_octet b.
Proof using Hmem.
  intros Hi. destruct (znth_is_Some mem i Hi) as [b E]. exists b. split; [done |]. rewrite znth_lookup in E by lia.
  rewrite Forall_lookup in Hmem. by eapply Hmem.
Qed.

Lemma fixed_length_range lcid : 0 <= ul_fixed_length lcid <= 8.
Proof. unfold ul_fixed_length. repeat case_match; lia. Qed.

(** A subheader. *)
Lemma decode_safe pos : 0 <= pos → pos + 2 < zlen mem →
  ∃ lcid hdr len, decode_ul_mac_sub_pdu_header mem pos = Ok (lcid, hdr, len) ∧ 0 <= lcid < 64 ∧ 1 <= hdr <= 3 ∧ 0 <= len ∧
    (ul_has_length lcid = false → hdr = 1 ∧ len = ul_fixed_length lcid).
Proof using Hmem.
  intros H0 Hlen. unfold decode_ul_mac_sub_pdu_header. destruct (readable pos) as (b & -> & Hb); [lia |]. cbn [deref mbind res_bind]. cbv zeta.
  destruct (readable (pos + 1)) as (b1 & -> & Hb1); [lia |]. destruct (readable (pos + 2)) as (b2 & -> & Hb2); [lia |].
  cbn [deref mbind res_bind]. unfold is_octet in *. assert (0 <= sub_lcid b < 64) by (rewrite sub_lcid_mod; by apply Z.mod_pos_bound).
  destruct (ul_has_length (sub_lcid b)) eqn:El; [destruct (sub_F b) |]; eexists _, _, _; (split; [done |]).
  1, 2: split_and!; [lia | lia | lia | lia | lia | by rewrite El].
  pose proof (fixed_length_range (sub_lcid b)). split_and!; (lia || done).
Qed.

Lemma all_zero_safe n : ∀ pos, 0 <= pos → pos + Z.of_nat n <= zlen mem → ∃ z, all_zero mem pos n = Ok z.
Proof using Hmem.
  induction n as [| n IH]; intros pos H0 Hn; [by exists true |]. simpl. destruct (readable pos) as (b & -> & _); [lia |].
  cbn [deref mbind res_bind]. destruct (b =? 0); [apply IH; lia | by exists false].
Qed.

(** A long BSR whose levels need not be in the PDU. *)
Lemma long_loop_safe k : ∀ flags payload n m e, 0 <= payload + m → payload + m + Z.of_nat k <= zlen mem →
  ∃ r, long_bsr_loop k flags mem payload n m e = Ok r.
Proof using Hmem.
  induction k as [| k IH]; intros flags payload n m e H0 Hk; [by exists e |]. cbn [long_bsr_loop].
  destruct (negb _); [apply IH; lia |]. destruct (readable (payload + m)) as (b & -> & Hb); [lia |]. cbn [deref mbind res_bind].
  unfold is_octet in Hb. rewrite get_long_ok; [cbn [mbind res_bind]; apply IH; lia |].
  unfold overestim_bsr_index, NR_LONG_BSR_TABLE_SIZE. case_match; lia.
Qed.

Lemma long_bsr_safe pos : 0 <= pos → pos + 9 <= zlen mem → ∃ r, estimate_ul_buffer_long_bsr mem pos = Ok r.
Proof using Hmem.
  intros H0 Hn. unfold estimate_ul_buffer_long_bsr. destruct (readable pos) as (b & -> & _); [lia |]. cbn [deref mbind res_bind].
  apply (long_loop_safe 8); lia.
Qed.

(** The C-RNTI of a PDU with any octets: found or not, within two octets after the PDU. *)
Lemma lookahead_safe fuel : ∀ pos pdu_len, 0 <= pos → pdu_len <= Z.of_nat fuel → pos + pdu_len + 2 <= zlen mem →
  ∃ r, lcid_crnti_lookahead fuel mem pos pdu_len = Ok r.
Proof using Hmem.
  induction fuel as [| fuel IH]; intros pos len H0 Hf Hn; cbn [lcid_crnti_lookahead].
  { decide_false (0 <? len). by exists 0. }
  destruct (Z.ltb_spec 0 len); [| by exists 0].
  destruct (decode_safe pos) as (lcid & hdr & n & -> & _ & Hh & Hn0 & _); [lia | lia |]. cbn [mbind res_bind].
  destruct (len <? hdr + n); [by exists 0 |]. destruct (lcid =? UL_SCH_LCID_C_RNTI).
  - destruct (readable (pos + 1)) as (b1 & -> & _); [lia |]. destruct (readable (pos + 2)) as (b2 & -> & _); [lia |]. by eexists.
  - destruct (lcid =? UL_SCH_LCID_PADDING); [by exists 0 |]. apply IH; lia.
Qed.
End octets.

(** ** The whole parser *)

Section parse.
Context {E : Type} `{RlcEntity E}.
Context (ev : ul_env E) (harq_pid : Z) (mem : bytes) (Hmem : Forall is_octet mem).
Context (Hprep : ∀ ue, ul_ue_ok ue → uv_prepare ev ue = Exit ∨ ∃ b ue', uv_prepare ev ue = Ok (b, ue') ∧ ul_ue_ok ue').

(** The indication is of octets of the PDU, which ends at [pdu_end]. *)
Definition ind_inside (pdu_end : Z) (x : nr_rlc_data_ind_t) : Prop :=
  0 <= ind_buf x ∧ 0 <= ind_len x ∧ ind_buf x + ind_len x <= pdu_end.

Definition turn_safe (pos pdu_len hdr : Z) (r : res (gnb_turn E)) : Prop :=
  r = Exit ∨ ∃ t, r = Ok t ∧ ul_ue_ok (gt_ue t) ∧ 0 <= gt_len t ∧ hdr + gt_len t <= pdu_len ∧ Forall (ind_inside (pos + pdu_len)) (gt_ind t).

Lemma turn_safe_plain pos pdu_len hdr n ue k ret : ul_ue_ok ue → 0 <= n → hdr + n <= pdu_len →
  turn_safe pos pdu_len hdr (Ok (mk_gturn ue n [] k ret)).
Proof using. clear. intros Hu Hn Hl. right. eexists. split; [done |]. split_and!; (done || constructor). Qed.

Lemma turn_safe_ind pos pdu_len hdr n lcid ue k ret : ul_ue_ok ue → 0 <= pos → 0 <= hdr → 0 <= n → hdr + n <= pdu_len →
  turn_safe pos pdu_len hdr (Ok (mk_gturn ue n [mk_ind lcid (pos + hdr) n] k ret)).
Proof using.
  clear. intros Hu Hp Hh Hn Hl. right. eexists. split; [done |]. split_and!; [done | done | done |].
  repeat constructor; simpl; lia.
Qed.

#[local] Ltac branch H := match goal with |- turn_safe _ _ _ (if ?b then _ else _) => destruct b eqn:H; [| clear H] end.

Lemma subpdu_safe pos pdu_len lcid hdr n ue :
  ul_ue_ok ue → 0 <= pos → pos + pdu_len + 9 <= zlen mem → 0 <= lcid < 64 → 1 <= hdr <= 3 → 0 <= n → hdr + n <= pdu_len →
  (ul_has_length lcid = false → hdr = 1 ∧ n = ul_fixed_length lcid) →
  turn_safe pos pdu_len hdr (ul_subpdu ev harq_pid mem pos pdu_len lcid hdr n ue).
Proof using Hmem Hprep.
  intros Hu Hpos Hz Hl Hh Hn Hfit Hlen. unfold ul_subpdu.
  branch Hccch.
  { unfold ul_ccch.
    assert (Hz1 : ∃ z, (if lcid =? UL_SCH_LCID_CCCH_64_BITS then all_zero mem pos (Z.to_nat (hdr + n)) else Ok false) = Ok z).
    { destruct (lcid =? _); [apply (all_zero_safe mem Hmem); lia | by exists false]. }
    destruct Hz1 as [z ->]. cbn [mbind res_bind]. destruct z; [by apply turn_safe_plain |].
    set (ue1 := if lcid =? UL_SCH_LCID_CCCH_48_BITS_REDCAP then _ else ue). assert (Hu1 : ul_ue_ok ue1) by (unfold ue1; case_match; [by destruct Hu | done]).
    destruct (Hprep ue1 Hu1) as [-> | (ok & ue2 & -> & Hu2)]; [by left |]. cbn [mbind res_bind].
    destruct ok; [apply turn_safe_ind | apply turn_safe_plain]; (done || lia). }
  destruct (count_sdu_ok lcid n ue Hl Hu) as (ue1 & Ec & Hu1 & _).
  branch Hsrb.
  { unfold ul_srb. rewrite (uo_cg _ Hu). simpl assert_that. cbn [mbind res_bind]. destruct (lc_ignored ue lcid); [by apply turn_safe_plain |].
    rewrite Ec. cbn [mbind res_bind]. apply turn_safe_ind; (done || lia). }
  branch Hd.
  { unfold ul_dtch. destruct (lc_ignored ue lcid); [by apply turn_safe_plain |]. rewrite Ec. cbn [mbind res_bind].
    apply turn_safe_ind; try lia. by destruct Hu1. }
  branch Hother; [by apply turn_safe_plain |].
  branch Hphr.
  { apply Z.eqb_eq in Hphr as ->. destruct Hlen as [-> ->]; [done |]. change (ul_fixed_length UL_SCH_LCID_SINGLE_ENTRY_PHR) with 2 in *.
    destruct (readable mem Hmem (pos + 1)) as (b1 & -> & _); [lia |]. destruct (readable mem Hmem (pos + 1 + 1)) as (b2 & -> & _); [lia |].
    cbn [deref mbind res_bind]. apply turn_safe_plain; [| lia | lia]. unfold handle_single_entry_phr. case_match; [done | by destruct Hu]. }
  branch Hc.
  { unfold assert_that. destruct (negb _); [by apply turn_safe_plain | by left]. }
  branch Hs.
  { assert (Hn1 : hdr = 1 ∧ n = 1).
    { destruct Hlen as [-> ->]; [| split; [done |]]; apply orb_true_iff in Hs as [->%Z.eqb_eq | ->%Z.eqb_eq]; done. }
    destruct (readable mem Hmem (pos + hdr)) as (b & -> & _); [lia |]. cbn [deref mbind res_bind].
    destruct (short_bsr_total b) as [r ->]. cbn [mbind res_bind]. apply turn_safe_plain; [by destruct Hu | lia | lia]. }
  branch Hb.
  { destruct (long_bsr_safe mem Hmem (pos + hdr)) as [r ->]; [lia | lia |]. cbn [mbind res_bind].
    apply turn_safe_plain; [by destruct Hu | lia | lia]. }
  assert (0 <= uint16 (pdu_len - hdr) <= pdu_len - hdr).
  { unfold uint16. split; [by apply Z.mod_pos_bound | by apply Z.mod_le; [lia |]]. }
  apply turn_safe_plain; [done | lia | lia].
Qed.

Lemma parse_safe fuel : ∀ pos pdu_len ue acc k,
  ul_ue_ok ue → 0 <= pos → pdu_len <= Z.of_nat fuel → pos + pdu_len + 9 <= zlen mem → Forall (ind_inside (pos + Z.max 0 pdu_len)) acc →
  ul_parse fuel ev harq_pid mem pos pdu_len ue acc k = Exit ∨
  ∃ ue' r, ul_parse fuel ev harq_pid mem pos pdu_len ue acc k = Ok (ue', r) ∧ ul_ue_ok ue' ∧
    match r with Some (inds, _) => Forall (ind_inside (pos + Z.max 0 pdu_len)) inds | None => True end.
Proof using Hmem Hprep.
  induction fuel as [| fuel IH]; intros pos pdu_len ue acc k Hu Hpos Hf Hz Hacc; cbn [ul_parse].
  { decide_false (0 <? pdu_len). right. by eexists _, _. }
  destruct (Z.ltb_spec 0 pdu_len); [| right; by eexists _, _].
  destruct (decode_safe mem Hmem pos) as (lcid & hdr & n & -> & Hl & Hh & Hn & Hlen); [lia | lia |]. cbn [mbind res_bind].
  destruct (Z.ltb_spec pdu_len (hdr + n)); [right; by eexists _, _ |].
  destruct (subpdu_safe pos pdu_len lcid hdr n ue) as [-> | (t & -> & Hu' & Ht & Hfit & Hinds)]; try (done || lia); [by left |].
  cbn [mbind res_bind]. unfold assert_that. destruct (match gt_ind t with [] => true | _ => _ end); cbn [mbind res_bind]; [| by left].
  rewrite Z.max_r in * by lia. destruct (gt_return t); [right; by eexists _, _ |].
  destruct (IH (pos + (hdr + gt_len t)) (pdu_len - (hdr + gt_len t)) (gt_ue t) (acc ++ gt_ind t) (k + gt_sdus t)) as [? | (ue' & r & E' & Hu2 & Hr)];
    [done | lia | lia | lia | | by left |].
  - rewrite Z.max_r by lia. replace (pos + (hdr + gt_len t) + (pdu_len - (hdr + gt_len t))) with (pos + pdu_len) by lia. by apply Forall_app.
  - right. exists ue', r. split; [done |]. split; [done |]. rewrite Z.max_r in Hr by lia.
    by replace (pos + (hdr + gt_len t) + (pdu_len - (hdr + gt_len t))) with (pos + pdu_len) in Hr by lia.
Qed.
End parse.
