(* ===== verification/MacUlFill.v ===== *)
(** * Uplink MAC PDU: one request to RLC

    The state of the UE that the prioritisation relies on ([ul_wf]), the bytes of the logical channel
    groups, and what [fill_mac_sdu] asks RLC for: the request stays within the block, and the
    assertions of [get_num_bytes_to_reqlc] hold.

    Then: uplink MAC PDU: one SDU.
    The invariant of the loops of [nr_ue_get_sdu] ([lcp_inv]) and its preservation by [fill_mac_sdu]. *)

From S2P Require Import Prelude RlcEntity RlcApi RlcApiLaws MacPdu MacDl MacBsr MacUeRx MacDlGnb MacUlRx MacUlLcp MacUlGnb.

#[export] Instance rb_slot_eq_dec : EqDecision rb_slot.
Proof. solve_decision. Defined.

(** ** The state of the UE *)

Definition sched_ok (s : NR_LC_SCHEDULING_INFO) : Prop := 0 <= LCID_buffer_remain s < 2 ^ 31 ∧ 0 <= LCGID s < 8.

(** Channels 1 to 32 but 3, each once, each in a group. *)
Record ul_wf (m : ue_ul_t) : Prop := {
  wf_sched : zlen (lc_sched_info m) = 32;
  wf_lcs : ∀ x, x ∈ lcs m → 1 <= lo_lcid x <= 32 ∧ lo_lcid x ≠ 3 ∧ 0 <= lo_pbr x < 2 ^ 32 ∧
    ∃ s, znth (lc_sched_info m) (lo_lcid x - 1) = Some s ∧ sched_ok s;
  wf_nodup : NoDup (map lo_lcid (lcs m));
  wf_sr : zlen (sr_info m) = 8;
  wf_trigger : 0 < regularBSR_trigger_lcid m → ∃ x, x ∈ lcs m ∧ lo_lcid x = regularBSR_trigger_lcid m
}.

Lemma get_lc_info_In x l : NoDup (map lo_lcid l) → x ∈ l → get_lc_info_from_lcid l (lo_lcid x) = Some x.
Proof.
  induction l as [| y l IH]; intros Hn Hx; [by apply elem_of_nil in Hx |]. simpl in *. apply NoDup_cons in Hn as [Hy Hn].
  apply elem_of_cons in Hx as [-> | Hx]; [by rewrite Z.eqb_refl |].
  destruct (Z.eqb_spec (lo_lcid y) (lo_lcid x)) as [Heq |]; [| by apply IH]. destruct Hy. rewrite Heq. by apply list_elem_of_fmap_2.
Qed.

Lemma suspended_In x l : NoDup (map lo_lcid l) → x ∈ l → is_lcid_suspended (map lo_info l) (lo_lcid x) = lo_suspended x.
Proof.
  induction l as [| y l IH]; intros Hn Hx; [by apply elem_of_nil in Hx |]. simpl in *. apply NoDup_cons in Hn as [Hy Hn].
  change (li_lcid (lo_info y)) with (lo_lcid y). apply elem_of_cons in Hx as [-> | Hx]; [by rewrite Z.eqb_refl |].
  destruct (Z.eqb_spec (lo_lcid y) (lo_lcid x)) as [Heq |]; [| by apply IH]. destruct Hy. rewrite Heq. by apply list_elem_of_fmap_2.
Qed.

Lemma buffer_index_ok lcid : 1 <= lcid <= 32 → lcid_buffer_index lcid = Ok (lcid - 1).
Proof. intros. unfold lcid_buffer_index, NR_MAX_NUM_LCID, assert_that. by decide_true ((0 <? lcid) && (lcid <=? 32)). Qed.

Lemma sched_get m x : ul_wf m → x ∈ lcs m → ∃ s, get_scheduling_info_from_lcid m (lo_lcid x) = Ok s ∧ sched_ok s.
Proof.
  intros Hw Hx. destruct (wf_lcs _ Hw x Hx) as (Hl & _ & _ & s & Es & Hs). exists s.
  unfold get_scheduling_info_from_lcid. rewrite buffer_index_ok by done. cbn [mbind res_bind]. by rewrite Es.
Qed.

Lemma sched_lookup m x s : ul_wf m → x ∈ lcs m → get_scheduling_info_from_lcid m (lo_lcid x) = Ok s →
  znth (lc_sched_info m) (lo_lcid x - 1) = Some s.
Proof.
  intros Hw Hx. destruct (wf_lcs _ Hw x Hx) as (Hl & _ & _ & s' & Es & _). unfold get_scheduling_info_from_lcid.
  rewrite buffer_index_ok by done. cbn [mbind res_bind]. rewrite Es. by intros [= ->].
Qed.

Definition with_sched (m : ue_ul_t) (lcid : Z) (s : NR_LC_SCHEDULING_INFO) : ue_ul_t :=
  m <| lc_sched_info ::= <[Z.to_nat (lcid - 1) := s]> |>.

Lemma sched_set m lcid s : ul_wf m → 1 <= lcid <= 32 → sched_ok s →
  set_scheduling_info m lcid s = Ok (with_sched m lcid s) ∧ ul_wf (with_sched m lcid s).
Proof.
  intros Hw Hl Hs. unfold set_scheduling_info. rewrite buffer_index_ok by done. cbn [mbind res_bind].
  rewrite zset_Ok by (rewrite (wf_sched _ Hw); lia). split; [done |]. destruct Hw as [H1 H2 H3 H4 H5].
  constructor; try done; simpl; [by rewrite zlen_insert |]. intros x Hx. destruct (H2 x Hx) as (Hx1 & Hx3 & Hp & s0 & E0 & Hs0).
  split_and!; try done; try lia. destruct (decide (lo_lcid x = lcid)) as [-> | Hne].
  - exists s. split; [| done]. unfold znth. destruct (Z.ltb_spec (lcid - 1) 0); [lia |].
    rewrite list_lookup_insert_eq; [done |]. unfold zlen in H1. lia.
  - exists s0. split; [| done]. revert E0. unfold znth. destruct (Z.ltb_spec (lo_lcid x - 1) 0); [lia |].
    intros E0. rewrite list_lookup_insert_ne by lia. done.
Qed.

(** ** The bytes of a group *)

(** The bytes that channel [x] has in group [g]. *)
Definition chan_bytes (m : ue_ul_t) (g : Z) (x : nr_lcordered_info_t) : Z :=
  if lo_suspended x then 0
  else match znth (lc_sched_info m) (lo_lcid x - 1) with
       | Some s => if LCGID s =? g then LCID_buffer_remain s else 0
       | None => 0
       end.

Definition group_bytes (m : ue_ul_t) (g : Z) : Z := zsum (map (chan_bytes m g) (lcs m)).

Lemma chan_bytes_set m g x c s : ul_wf m → x ∈ lcs m → 1 <= c <= 32 →
  chan_bytes (with_sched m c s) g x =
    if lo_lcid x =? c then (if lo_suspended x then 0 else if LCGID s =? g then LCID_buffer_remain s else 0) else chan_bytes m g x.
Proof.
  intros Hw Hx Hc. unfold chan_bytes. destruct (wf_lcs _ Hw x Hx) as (Hl & _). simpl.
  assert (Hz : znth (<[Z.to_nat (c - 1) := s]> (lc_sched_info m)) (lo_lcid x - 1) =
    if lo_lcid x =? c then Some s else znth (lc_sched_info m) (lo_lcid x - 1)).
  { unfold znth. destruct (Z.ltb_spec (lo_lcid x - 1) 0); [lia |]. destruct (Z.eqb_spec (lo_lcid x) c) as [-> | Hne].
    - apply list_lookup_insert_eq. pose proof (wf_sched _ Hw) as H32. unfold zlen in H32. lia.
    - apply list_lookup_insert_ne. lia. }
  rewrite Hz. by destruct (lo_lcid x =? c).
Qed.

(** A change of one channel. *)
Lemma group_bytes_set m g x s s' : ul_wf m → x ∈ lcs m → lo_suspended x = false →
  znth (lc_sched_info m) (lo_lcid x - 1) = Some s → LCGID s' = LCGID s →
  group_bytes (with_sched m (lo_lcid x) s') g =
    group_bytes m g + (if LCGID s =? g then LCID_buffer_remain s' - LCID_buffer_remain s else 0).
Proof.
  intros Hw Hx Hs Es Hg. destruct (wf_lcs _ Hw x Hx) as (Hl & _). unfold group_bytes. change (lcs (with_sched m (lo_lcid x) s')) with (lcs m).
  assert (Haux : ∀ l, NoDup (map lo_lcid l) → (∀ y, y ∈ l → y ∈ lcs m) → x ∈ l →
    zsum (map (chan_bytes (with_sched m (lo_lcid x) s') g) l) =
      zsum (map (chan_bytes m g) l) + (if LCGID s =? g then LCID_buffer_remain s' - LCID_buffer_remain s else 0));
    [clear Hx | by apply Haux; [apply (wf_nodup _ Hw) | |]].
  induction l as [| y l IH]; intros Hnd Hsub Hx; [by apply elem_of_nil in Hx |]. simpl in Hnd |- *. apply NoDup_cons in Hnd as [Hny Hnd].
  rewrite chan_bytes_set by (try done; apply Hsub; by left). apply elem_of_cons in Hx as [<- | Hx].
  - rewrite Z.eqb_refl, Hs, Hg. unfold chan_bytes at 2. rewrite Hs, Es.
    assert (map (chan_bytes (with_sched m (lo_lcid x) s') g) l = map (chan_bytes m g) l) as ->.
    { apply List.map_ext_in. intros z Hz%list_elem_of_In. rewrite chan_bytes_set by (try done; apply Hsub; by right).
      destruct (Z.eqb_spec (lo_lcid z) (lo_lcid x)) as [Heq |]; [| done]. destruct Hny. rewrite <- Heq. by apply list_elem_of_fmap_2. }
    destruct (LCGID s =? g); lia.
  - destruct (Z.eqb_spec (lo_lcid y) (lo_lcid x)) as [Heq |]; [destruct Hny; rewrite Heq; by apply list_elem_of_fmap_2 |].
    rewrite IH by (try done; intros z Hz; apply Hsub; by right). lia.
Qed.

(** The channels that are not suspended. *)
Definition open_lcids (l : list nr_lcordered_info_t) : list Z := map lo_lcid (List.filter (λ x, negb (lo_suspended x)) l).

Lemma open_In x l : x ∈ l → lo_suspended x = false → lo_lcid x ∈ open_lcids l.
Proof.
  intros Hx Hs. apply list_elem_of_fmap_2, list_elem_of_In, List.filter_In. split; [by apply list_elem_of_In | by rewrite Hs].
Qed.

(** ** Requests *)

Section rlc.
Context {E : Type} `{RlcTickLaws E}.

(** The PDUs that a sequence of requests for the channels [cs] gets from RLC. *)
Inductive rlc_pulls (cs : list Z) (now now_us : Z) : nr_rlc_ue_t E → list (Z * bytes) → nr_rlc_ue_t E → Prop :=
| pulls_none u : rlc_pulls cs now now_us u [] u
| pulls_nothing u c size buf pos buf' u1 l u2 :
    c ∈ cs → 0 <= size → 0 <= pos → pos + size <= zlen buf → nr_mac_rlc_data_req now now_us u c size buf pos = Ok (0, buf', u1) →
    rlc_pulls cs now now_us u1 l u2 → rlc_pulls cs now now_us u l u2
| pulls_pdu u c size buf pos d rest u1 l u2 :
    c ∈ cs → 0 < zlen d <= size → 0 <= pos → pos + size <= zlen buf →
    nr_mac_rlc_data_req now now_us u c size buf pos = Ok (zlen d, take (Z.to_nat pos) buf ++ d ++ rest, u1) →
    rlc_pulls cs now now_us u1 l u2 → rlc_pulls cs now now_us u ((c, d) :: l) u2.

Lemma pulls_app cs now now_us u l u1 l' u2 :
  rlc_pulls cs now now_us u l u1 → rlc_pulls cs now now_us u1 l' u2 → rlc_pulls cs now now_us u (l ++ l') u2.
Proof.
  intros Hu Hl. induction Hu as [| u c size buf pos buf' u2' k u3 A0 A1 A2 A3 A4 Hu IH | u c size buf pos d rest u2' k u3 A0 A1 A2 A3 A4 Hu IH]; [done | |].
  - by eapply pulls_nothing; [exact A0 | exact A1 | exact A2 | exact A3 | exact A4 | apply IH].
  - by eapply pulls_pdu; [exact A0 | exact A1 | exact A2 | exact A3 | exact A4 | apply IH].
Qed.

Lemma ready_put1 now u s e c :
  (∃ o, rb_get u s = Ok o) → rlc_inv e → rlc_tick_ok e now → lc_ready now u c → lc_ready now (rb_put u s e) c.
Proof.
  intros Hs He Ht (o & Ho & Hm). exists o. rewrite slot_put. split; [done |]. destruct o as [s' |]; [| done].
  destruct (decide (s' = s)) as [-> | Hne]; [rewrite get_put_eq by done; by exists (Some e) |].
  rewrite get_put_ne; done.
Qed.

(** What a request does, within the buffer. *)
Definition req_post now now_us u c size buf pos (n : Z) (d rest : bytes) (u' : nr_rlc_ue_t E) : Prop :=
  nr_mac_rlc_data_req now now_us u c size buf pos = Ok (n, take (Z.to_nat pos) buf ++ d ++ rest, u') ∧
  zlen d = n ∧ 0 <= n <= size ∧ n <= 65535 ∧ pos + n + zlen rest = zlen buf ∧
  ∀ c', lc_ready now u c' → lc_ready now u' c'.

Lemma data_req_ok now now_us u c size buf pos :
  lc_ready now u c → 0 <= size → 0 <= pos → pos + size <= zlen buf → rlc_size_ok size →
  ∃ n d rest u', req_post now now_us u c size buf pos n d rest u'.
Proof.
  intros (o & Ho & Hc) Hsz Hpos Hb Hok. unfold req_post.
  assert (Hnone : get_rlc_entity_from_lcid u c = Ok None → ∃ n d rest u',
    nr_mac_rlc_data_req now now_us u c size buf pos = Ok (n, take (Z.to_nat pos) buf ++ d ++ rest, u') ∧
    zlen d = n ∧ 0 <= n <= size ∧ n <= 65535 ∧ pos + n + zlen rest = zlen buf ∧ (∀ c', lc_ready now u c' → lc_ready now u' c')).
  { intros Eg. exists 0, [], (drop (Z.to_nat pos) buf), u. unfold nr_mac_rlc_data_req. rewrite Eg. cbn [mbind res_bind].
    rewrite app_nil_l, take_drop. unfold zlen in *. rewrite length_drop. split_and!; (done || lia). }
  destruct o as [s |].
  2: { apply Hnone. unfold get_rlc_entity_from_lcid. by rewrite Ho. }
  destruct Hc as (oe & Eoe & He). destruct oe as [e |].
  2: { apply Hnone. unfold get_rlc_entity_from_lcid. rewrite Ho. cbn [mbind res_bind]. by rewrite Eoe. }
  clear Hnone. pose proof (get_entity_intro _ _ _ _ Ho Eoe) as Eg. destruct He as [He Htick].
  destruct (rlc_set_time e now He Htick) as (e1 & Et & He1).
  pose proof (rlc_ticked_set e now e1 He Htick Et) as Htk.
  assert (Hd : zlen (drop (Z.to_nat pos) buf) = zlen buf - pos) by (unfold zlen in *; rewrite length_drop; lia).
  destruct (rlc_generate e1 (drop (Z.to_nat pos) buf) size now_us) as (n & b & e2 & El & He2 & Hn & Hn2 & Hlb); [done | rewrite Hd; lia | done |]; rewrite Hd in Hlb.
  pose proof (rlc_ticked_generate e1 now _ size now_us n b e2 He1 Htk ltac:(rewrite Hd; lia) El) as Htk2.
  destruct (split_front b n) as (d & rest & -> & Hdl); [lia |]. rewrite zlen_app in Hlb.
  exists n, d, rest, (rb_put u s e2). unfold nr_mac_rlc_data_req. rewrite Eg. cbn [mbind res_bind]. rewrite Et. cbn [mbind res_bind].
  rewrite El. cbn [mbind res_bind]. split_and!; try done; try lia.
  intros c' Hc'. apply ready_put1; [by exists (Some e) | done | by apply rlc_ticked_ok | done].
Qed.

(** ** How much is requested *)

(** The limit for the requests of a turn: [t] bytes are read, [space] octets are left. *)
Definition turn_limit (count counter ep pbr num t space : Z) : Prop :=
  0 <= t ∧ 0 <= ep ∧ 1 <= num ∧
  (1 < count → t <= ep ∧ (ep = 0 ∨ num * (ep + 3) <= space + t) ∧ (counter = 0 → t <= pbr) ∧ (counter ≠ 0 → ep <= pbr)) ∧
  (count <= 1 → counter mod 256 = 0 → t <= pbr).

Lemma min_mixed_small a b : 0 <= a < 2 ^ 32 → 0 <= b < 2 ^ 32 → min_mixed a b = Z.min a b.
Proof. intros Ha Hb. unfold min_mixed, u32. rewrite !Z.mod_small by done. destruct (Z.ltb_spec a b); lia. Qed.

#[local] Ltac requested :=
  eexists; split;
  [unfold assert_that; match goal with |- context [(0 <=? ?a) && (?b <=? ?c)] => decide_true ((0 <=? a) && (b <=? c)) end; reflexivity
  | split_and!; [lia | lia | intros ? [= <-]; lia | lia | lia]].

Lemma num_bytes_ok m x count counter ep tot t num space hdr :
  ul_wf m → x ∈ lcs m → znth tot (lo_lcid x - 1) = Some t → turn_limit count counter ep (lo_pbr x) num t space →
  3 <= space <= 2 ^ 28 → (hdr = 2 ∨ hdr = 3) → ep <= 2 ^ 28 → 0 <= counter →
  ∃ req, get_num_bytes_to_reqlc m count (lo_lcid x) ep (space - hdr) (u8 counter) tot =
      Ok (req, if 1 <? count then Z.min ep (lo_pbr x) else lo_pbr x) ∧
    0 <= req <= space - hdr ∧ (∀ s, get_scheduling_info_from_lcid m (lo_lcid x) = Ok s → req <= LCID_buffer_remain s) ∧ (1 < count → req <= ep - t) ∧ (count <= 1 → counter mod 256 = 0 → req <= lo_pbr x - t).
Proof.
  intros Hw Hx Et (Ht0 & Hep & Hnum & Hc1 & Hc2) Hsp Hh He28 Hc0. unfold get_num_bytes_to_reqlc.
  rewrite (get_lc_info_In _ _ (wf_nodup _ Hw) Hx). destruct (sched_get m x Hw Hx) as (s & -> & Hr & _). cbn [mbind res_bind]. cbv zeta.
  rewrite Et. cbn [deref mbind res_bind]. destruct (wf_lcs _ Hw x Hx) as (_ & _ & Hp & _).
  change (u8 counter) with (counter mod 256). assert (Hu : u32 (space - hdr) = space - hdr) by (unfold u32; rewrite Z.mod_small; lia).
  rewrite Hu. assert (Hmod : counter ≠ 0 ∨ counter mod 256 = 0) by (destruct (decide (counter = 0)) as [-> |]; [by right | by left]).
  destruct (Z.ltb_spec 1 count) as [Hc | Hc].
  - destruct (Hc1 Hc) as (Hte & Hspace & Hcz & Hcn). clear Hc1 Hc2.
    assert (Hfit : ep - t + 3 <= space ∨ ep = 0) by (destruct Hspace as [-> | Hs]; [by right | left; nia]).
    destruct (Z.eqb_spec (counter mod 256) 0) as [Hz | Hz].
    + assert (Htp : t <= Z.min ep (lo_pbr x)) by (destruct (decide (counter = 0)); [specialize (Hcz e) | specialize (Hcn n)]; lia).
      destruct (Z.ltb_spec ep (lo_pbr x)); rewrite min_mixed_small by lia; requested.
    + rewrite min_mixed_small by lia. assert (u32 (ep - t) = ep - t) as -> by (unfold u32; rewrite Z.mod_small; lia). requested.
  - clear Hc1. destruct (Z.eqb_spec (counter mod 256) 0) as [Hz | Hz]; [| requested].
    specialize (Hc2 Hc Hz). destruct (Z.ltb_spec (space - hdr) (lo_pbr x)); rewrite min_mixed_small by lia; requested.
Qed.
End rlc.

(** ** Uplink MAC PDU: one SDU *)

(** ** SDUs as subPDUs *)

Definition is_sdu (x : ul_sub) : Prop := ul_sub_ok x ∧ match x with UlSdu _ _ _ => True | _ => False end.
Definition sub_pdu (x : ul_sub) : Z * bytes := match x with UlSdu _ c d => (c, d) | _ => (0, []) end.

Lemma ul_octets_app xs ys : ul_octets (xs ++ ys) = ul_octets xs ++ ul_octets ys.
Proof. unfold ul_octets. by rewrite map_app, concat_app. Qed.

Lemma ul_octets_one x : ul_octets [x] = ul_sub_octets x.
Proof. unfold ul_octets. simpl. apply app_nil_r. Qed.

Definition is_u32 (x : Z) : Prop := 0 <= x < 2 ^ 32.

Lemma u32_range x : is_u32 (u32 x).
Proof. by apply Z.mod_pos_bound. Qed.

Lemma as_int_small x : 0 <= x < 2 ^ 31 → as_int x = x.
Proof. intros Hx. unfold as_int, u32. rewrite Z.mod_small by lia. by decide_true (x <? 2 ^ 31). Qed.

Section fill.
Context {E : Type} `{TL : RlcTickLaws E}.
Context (ev : ue_env) (tail n : Z) (L : list nr_lcordered_info_t) (u0 : nr_rlc_ue_t E) (B : Z → Z).
Context (Htail : 0 <= tail <= 2 ^ 24) (Hn : tail <= n) (Hsize : rlc_size_ok tail).

(** The SDUs [l] of the subPDUs [xs] are in the block, up to [cur_ptr]; group [g] has at most [B g] bytes. *)
Record lcp_inv (l : list (Z * bytes)) (xs : list ul_sub) (st : lcp_t E) : Prop := {
  lv_wf : ul_wf (lp_ue st);
  lv_lcs : lcs (lp_ue st) = L;
  lv_buf : ∃ rest, lp_buf st = ul_octets xs ++ rest;
  lv_len : zlen (lp_buf st) = n;
  lv_cur : lp_cur st = zlen (ul_octets xs);
  lv_tail : lp_cur st <= tail;
  lv_sdus : Forall is_sdu xs;
  lv_pdus : map sub_pdu xs = l;
  lv_count : lp_num_sdus st = zlen xs;
  lv_status : zlen (lp_status st) = 32;
  lv_lcg : zlen (lp_LCG_bytes st) = 8;
  lv_lcg32 : Forall is_u32 (lp_LCG_bytes st);
  lv_groups : ∀ g, 0 <= g < 8 → znth (lp_LCG_bytes st) g = Some (u32 (group_bytes (lp_ue st) g));
  lv_mono : ∀ g, group_bytes (lp_ue st) g <= B g;
  lv_tot : zlen (lp_tot st) = 32;
  lv_totb : Forall (λ t, 0 <= t <= 4 * lp_cur st) (lp_tot st);
  lv_rlc : ∀ x, x ∈ L → lc_ready (ue_now ev) (lp_rlc st) (lo_lcid x);
  lv_pulls : rlc_pulls (open_lcids L) (ue_now ev) (ue_now_us ev) u0 l (lp_rlc st)
}.

Lemma inv_cur0 l xs st : lcp_inv l xs st → 0 <= lp_cur st.
Proof using. clear. intros Hi. rewrite (lv_cur _ _ _ Hi). apply zlen_nonneg. Qed.

(** The group of channels of the same priority keeps its share. *)
Definition share_ok (count ep num space : Z) : Prop := count <= 1 ∨ ep = 0 ∨ num * (ep + 3) <= space.

(** How [fill_mac_sdu] ends. *)
Definition fill_end (x : nr_lcordered_info_t) (count counter ep : Z) (st st' : lcp_t E) (b : bool) : Prop :=
  (b = false ∧ st' = st ∧ tail - lp_cur st < 3) ∨
  (b = true ∧ lp_cur st + 3 <= lp_cur st' ∧ lp_num st' = lp_num st ∧ lp_status st' = lp_status st ∧
     ∃ t', znth (lp_tot st') (lo_lcid x - 1) = Some t' ∧
       turn_limit count counter ep (lo_pbr x) (lp_num st) t' (tail - lp_cur st')) ∨
  (b = false ∧ lp_num st' = lp_num st - 1 ∧ share_ok count ep (lp_num st - 1) (tail - lp_cur st') ∧
     ((lp_cur st + 3 <= lp_cur st' ∧ lp_status st' = lp_status st) ∨
      (lp_cur st' = lp_cur st ∧ lp_status st' = <[Z.to_nat (lo_lcid x - 1) := false]> (lp_status st)))).

Definition fill_post (x : nr_lcordered_info_t) (count counter ep : Z) (st : lcp_t E) (r : res (bool * lcp_t E)) : Prop :=
  ∃ b st' l' xs', r = Ok (b, st') ∧ lcp_inv l' xs' st' ∧ fill_end x count counter ep st st' b ∧
    ∀ j, 0 <= j → j ≠ lo_lcid x - 1 → znth (lp_tot st') j = znth (lp_tot st) j.

Lemma turn_next count counter ep pbr num t space d hd :
  turn_limit count counter ep pbr num t space → 0 < d → (hd = 2 ∨ hd = 3) → (1 < count → d <= ep - t) →
  (count <= 1 → counter mod 256 = 0 → d <= pbr - t) →
  let t' := t + (d + (if 1 <? count then 3 else 0)) in
  let target := if 1 <? count then Z.min ep pbr else pbr in
  if ((counter =? 0) && (target <=? t')) || ((1 <? count) && (ep <=? t'))
  then share_ok count ep (num - 1) (space - (hd + d))
  else turn_limit count counter ep pbr num t' (space - (hd + d)).
Proof using.
  clear. intros (Ht0 & Hep & Hnum & Hc1 & Hc2) Hd Hhd Hr1 Hr2. cbv zeta. unfold share_ok.
  destruct (Z.ltb_spec 1 count) as [Hc | Hc].
  - destruct (Hc1 Hc) as (Hte & Hspace & Hcz & Hcn). specialize (Hr1 Hc). clear Hc1 Hc2 Hr2. simpl andb.
    assert (Hsp : num * (ep + 3) <= space + t) by (destruct Hspace as [-> | ?]; [lia | done]).
    destruct (_ || _) eqn:Hb.
    + right. destruct (Z.leb_spec ep (t + (d + 3))) as [He | He]; [right; nia |].
      right. nia.
    + apply orb_false_iff in Hb as [Hb1 Hb2]. apply Z.leb_gt in Hb2. split_and!; [lia | lia | lia | | lia].
      intros _. split_and!; [lia | right; lia | | done]. intros ->. simpl in Hb1. apply Z.leb_gt in Hb1. lia.
  - simpl andb. rewrite orb_false_r. specialize (Hr2 Hc). destruct (_ && _) eqn:Hb; [by left |].
    split_and!; [lia | lia | lia | lia |]. intros _ Hm. specialize (Hc2 Hc Hm). specialize (Hr2 Hm). lia.
Qed.

Lemma fill_ok l xs st x t count counter ep :
  lcp_inv l xs st → x ∈ L → lo_suspended x = false → znth (lp_tot st) (lo_lcid x - 1) = Some t →
  turn_limit count counter ep (lo_pbr x) (lp_num st) t (tail - lp_cur st) → lp_num st <= 32 → ep <= tail → 0 <= counter →
  fill_post x count counter ep st (fill_mac_sdu ev tail counter (lo_lcid x) count ep st).
Proof using TL Htail Hn Hsize.
  intros Hi Hx Hs Et Hlim Hnum Hep Hc0. pose proof (lv_wf _ _ _ Hi) as Hw. pose proof (lv_lcs _ _ _ Hi) as HL.
  pose proof (open_In x L Hx Hs) as Hopen. rewrite <- HL in Hx. pose proof (inv_cur0 _ _ _ Hi) as H0c. pose proof (lv_tail _ _ _ Hi) as Hct.
  unfold fill_mac_sdu. destruct (sched_get _ _ Hw Hx) as (s & Es & Hrem & Hlcg). pose proof (sched_lookup _ _ _ Hw Hx Es) as Esl. rewrite Es. cbn [mbind res_bind]. cbv zeta.
  rewrite (suspended_In _ _ (wf_nodup _ Hw) Hx), Hs.
  assert (H64 : u64 (tail - lp_cur st) = tail - lp_cur st) by (unfold u64; rewrite Z.mod_small; lia).
  assert (H32 : u32 (tail - lp_cur st) = tail - lp_cur st) by (unfold u32; rewrite Z.mod_small; lia).
  rewrite H64, H32. destruct (Z.ltb_spec (tail - lp_cur st) 3) as [Hlt | Hge].
  { exists false, st, l, xs. split_and!; [done | done | by left | done]. }
  set (space := tail - lp_cur st) in *. set (hd0 := if space <? 256 then 2 else 3).
  assert (Hhd0 : hd0 = 2 ∨ hd0 = 3) by (unfold hd0; case_match; lia).
  rewrite (as_int_small (space - hd0)) by lia.
  destruct (num_bytes_ok (lp_ue st) x count counter ep (lp_tot st) t (lp_num st) space hd0 Hw Hx Et Hlim) as (req & -> & Hreq & Hrs & Hr1 & Hr2);
    [lia | done | lia | done |]. specialize (Hrs s Es). cbn [mbind res_bind].
  set (hd := if req <? 256 then 2 else 3).
  assert (Hhd : hd = 2 ∨ hd = 3) by (unfold hd; case_match; lia).
  assert (Hfit : hd + req <= space).
  { unfold hd, hd0 in *. destruct (Z.ltb_spec req 256), (Z.ltb_spec space 256); lia. }
  rewrite (as_int_small req) by lia.
  destruct (wf_lcs _ Hw x Hx) as (Hlcid & Hl3 & Hpbr & _).
  assert (Hready : lc_ready (ue_now ev) (lp_rlc st) (lo_lcid x)) by (apply (lv_rlc _ _ _ Hi); by rewrite <- HL).
  destruct (data_req_ok (ue_now ev) (ue_now_us ev) (lp_rlc st) (lo_lcid x) req (lp_buf st) (lp_cur st + hd) Hready)
    as (k & d & rest & u' & Eq & Hd & Hk & Hk2 & Hlen & Hrdy);
    [lia | lia | rewrite (lv_len _ _ _ Hi); lia | by apply (rlc_size_mono _ tail); [lia |] |].
  rewrite Eq. cbn [mbind res_bind]. unfold uint16. rewrite (Z.mod_small k (2 ^ 16)) by lia.
  unfold assert_that. decide_true (k <=? req). cbn [mbind res_bind].
  set (s1 := s <| Bj := as_int (Bj s - k) |>).
  destruct (sched_set (lp_ue st) (lo_lcid x) s1 Hw Hlcid) as [E1 Hw1]; [done |]. rewrite E1. cbn [mbind res_bind].
  rewrite buffer_index_ok by done. cbn [mbind res_bind]. pose proof (lv_status _ _ _ Hi) as Hst. pose proof (lv_lcg _ _ _ Hi) as Hg8.
  destruct (lv_buf _ _ _ Hi) as [r Hr]. pose proof (lv_cur _ _ _ Hi) as Hcur. pose proof (lv_len _ _ _ Hi) as Hbl.
  rewrite Hr, zlen_app in Hbl, Hlen. destruct (split_front r hd) as (old & r' & -> & Hold); [lia |].
  assert (Htk : take (Z.to_nat (lp_cur st + hd)) (lp_buf st) = ul_octets xs ++ old).
  { rewrite Hr, app_assoc. apply take_app_length'. rewrite length_app. unfold zlen in *. lia. }
  destruct (Z.ltb_spec 0 k) as [Hkpos | Hk0].
  2: { (* nothing *)
    assert (k = 0) as -> by lia. rewrite zset_Ok by lia. cbn [mbind res_bind].
    destruct d; [| rewrite zlen_cons in Hd; pose proof (zlen_nonneg d); lia].
    eexists false, _, l, xs. split; [done |]. rewrite Htk in *. destruct Hi as [A1 A2 A3 A4 A5 A6 A7 A8 A9 A10 A11 A12 AG AM A13 A14 A15 A16]. split_and!.
    - constructor; simpl; try done; try (by rewrite zlen_insert).
      + exists (old ++ rest). by rewrite <- app_assoc.
      + rewrite !zlen_app. lia.
      + intros g Hg. rewrite AG by done. do 2 f_equal. symmetry.
        rewrite (group_bytes_set _ g x s s1) by done. change (LCID_buffer_remain s1) with (LCID_buffer_remain s). case_match; lia.
      + intros g. etrans; [| apply (AM g)]. rewrite (group_bytes_set _ g x s s1) by done. change (LCID_buffer_remain s1) with (LCID_buffer_remain s).
        case_match; lia.
      + intros y Hy. apply Hrdy. by apply A15.
      + rewrite <- (app_nil_r l). eapply pulls_app; [exact A16 |].
        eapply pulls_nothing; [exact Hopen | | | | exact Eq | constructor]; lia.
    - right; right. simpl. assert (u32 (lp_num st - 1) = lp_num st - 1) as -> by (destruct Hlim as (_ & _ & ? & _); unfold u32; rewrite Z.mod_small; lia).
      split_and!; [done | done | | by right]. unfold share_ok. destruct Hlim as (Ht0 & Hep0 & Hnum0 & Hc1 & _).
      destruct (Z.le_gt_cases count 1) as [| Hc]; [by left |]. right. destruct (Hc1 ltac:(lia)) as (Hte & [-> | Hsp] & _); [by left | right; nia].
    - done. }
  (* an SDU *)
  set (s2 := s1 <| LCID_buffer_remain := as_int (LCID_buffer_remain s1 - k) |>). set (sub := UlSdu hd (lo_lcid x) d).
  assert (Hsub : is_sdu sub).
  { split; [| done]. split_and!; [lia | lia | done |]. unfold hd. rewrite Hd. destruct (Z.ltb_spec req 256); [left | right]; lia. }
  assert (Hhz : zlen (sdu_header (lo_lcid x) hd k) = hd) by (destruct Hhd as [-> | ->]; done).
  assert (Hput : put_octets (take (Z.to_nat (lp_cur st + hd)) (lp_buf st) ++ d ++ rest) (lp_cur st) (sdu_header (lo_lcid x) hd k) =
    Ok (ul_octets (xs ++ [sub]) ++ rest, lp_cur st + hd)).
  { rewrite Htk, Hcur, <- app_assoc, put_octets_mid, Hhz by congruence. rewrite ul_octets_app, ul_octets_one. simpl ul_sub_octets.
    by rewrite Hd, <- !app_assoc. }
  rewrite Hput. cbn [mbind res_bind].
  assert (Hs2 : sched_ok s2) by (split; [simpl; rewrite as_int_small by lia; lia | done]).
  destruct (sched_set (with_sched (lp_ue st) (lo_lcid x) s1) (lo_lcid x) s2 Hw1 Hlcid Hs2) as [E2 Hw2]. rewrite E2. cbn [mbind res_bind].
  change (LCGID s1) with (LCGID s). destruct (znth_is_Some (lp_LCG_bytes st) (LCGID s)) as [g Eg]; [lia |]. rewrite Eg. cbn [deref mbind res_bind].
  rewrite zset_Ok by lia. cbn [mbind res_bind]. rewrite Et. cbn [deref mbind res_bind].
  assert (Htb : 0 <= t <= 4 * lp_cur st).
  { pose proof (lv_totb _ _ _ Hi) as Hb. rewrite Forall_forall in Hb. apply Hb. eapply list_elem_of_lookup_2.
    rewrite <- znth_lookup; [exact Et | lia]. }
  set (t' := t + (k + (if 1 <? count then 3 else 0))).
  assert (Ht' : t <= t' <= t + k + 3) by (unfold t'; case_match; lia).
  assert (u32 t' = t') as -> by (unfold u32; rewrite Z.mod_small; lia).
  rewrite zset_Ok by (rewrite (lv_tot _ _ _ Hi); lia). cbn [mbind res_bind].
  pose proof (turn_next count counter ep (lo_pbr x) (lp_num st) t space k hd Hlim Hkpos Hhd ltac:(lia) ltac:(lia)) as Hnext.
  cbv zeta in Hnext. fold t' in Hnext. set (target := if 1 <? count then Z.min ep (lo_pbr x) else lo_pbr x) in *.
  set (last := _ || _) in *.
  assert (Hinv : ∀ num, lcp_inv (l ++ [(lo_lcid x, d)]) (xs ++ [sub])
    (mk_lcp (ul_octets (xs ++ [sub]) ++ rest) (lp_cur st + (hd + k)) (lp_num_sdus st + 1) (lp_status st)
       (with_sched (with_sched (lp_ue st) (lo_lcid x) s1) (lo_lcid x) s2) u' (<[Z.to_nat (LCGID s) := u32 (g - k)]> (lp_LCG_bytes st))
       num (<[Z.to_nat (lo_lcid x - 1) := t']> (lp_tot st)))).
  { intros num. destruct Hi as [A1 A2 A3 A4 A5 A6 A7 A8 A9 A10 A11 A12 AG AM A13 A14 A15 A16].
    assert (Hz : zlen (ul_octets (xs ++ [sub])) = lp_cur st + (hd + k)).
    { rewrite ul_octets_app, ul_octets_one, zlen_app. simpl ul_sub_octets. rewrite zlen_app, Hd, Hhz. lia. }
    assert (Esl1 : znth (lc_sched_info (with_sched (lp_ue st) (lo_lcid x) s1)) (lo_lcid x - 1) = Some s1).
    { simpl. rewrite znth_insert by (rewrite ?(wf_sched _ Hw); lia). by rewrite Z.eqb_refl. }
    constructor; simpl; try done; try (by rewrite zlen_insert); try lia.
    - by exists rest.
    - rewrite zlen_app. lia.
    - apply Forall_app. split; [done | by constructor].
    - by rewrite map_app, A8.
    - rewrite zlen_app. change (zlen [sub]) with 1. lia.
    - apply Forall_insert; [done | apply u32_range].
    - intros j Hj. rewrite znth_insert by lia. rewrite (group_bytes_set (with_sched (lp_ue st) (lo_lcid x) s1) j x s1 s2) by done.
      rewrite (group_bytes_set (lp_ue st) j x s s1) by done. change (LCID_buffer_remain s1) with (LCID_buffer_remain s).
      change (LCID_buffer_remain s2) with (as_int (LCID_buffer_remain s - k)). rewrite as_int_small by lia. change (LCGID s1) with (LCGID s).
      rewrite (AG j Hj), Z.eqb_sym. destruct (Z.eqb_spec (LCGID s) j) as [<- |]; [| do 2 f_equal; lia].
      rewrite (AG _ Hj) in Eg. injection Eg as <-. f_equal. unfold u32. rewrite Zminus_mod_idemp_l. f_equal. lia.
    - intros g'. etrans; [| apply (AM g')]. rewrite (group_bytes_set (with_sched (lp_ue st) (lo_lcid x) s1) g' x s1 s2) by done.
      rewrite (group_bytes_set (lp_ue st) g' x s s1) by done. change (LCID_buffer_remain s1) with (LCID_buffer_remain s).
      change (LCID_buffer_remain s2) with (as_int (LCID_buffer_remain s - k)). rewrite as_int_small by lia. repeat case_match; lia.
    - apply Forall_insert; [| lia]. eapply Forall_impl; [exact A14 |]. simpl. lia.
    - intros y Hy. apply Hrdy. by apply A15.
    - eapply pulls_app; [exact A16 |]. rewrite <- Hd in Eq. eapply pulls_pdu; [exact Hopen | | | | exact Eq | constructor]; lia. }
  assert (Hnum32 : u32 (lp_num st - 1) = lp_num st - 1) by (destruct Hlim as (_ & _ & ? & _); unfold u32; rewrite Z.mod_small; lia).
  assert (Hspace : tail - (lp_cur st + (hd + k)) = space - (hd + k)) by (unfold space; lia).
  assert (Hfr : ∀ j, 0 <= j → j ≠ lo_lcid x - 1 → znth (<[Z.to_nat (lo_lcid x - 1) := t']> (lp_tot st)) j = znth (lp_tot st) j).
  { intros j Hj Hne. rewrite znth_insert by (rewrite ?(lv_tot _ _ _ Hi); lia). by decide_false (j =? lo_lcid x - 1). }
  destruct last.
  - eexists false, _, _, _. split; [done |]. split; [apply Hinv |]. split; [| exact Hfr]. right; right. simpl. rewrite Hspace.
    split_and!; [done | done | done | left; split; [lia | done]].
  - eexists true, _, _, _. split; [done |]. split; [apply Hinv |]. split; [| exact Hfr]. right; left. simpl. rewrite Hspace.
    split_and!; [done | lia | done | done |]. exists t'. split; [| done].
    rewrite znth_insert by (rewrite ?(lv_tot _ _ _ Hi); lia). by rewrite Z.eqb_refl.
Qed.
End fill.
