(* ===== verification/MacUlRounds.v ===== *)
(** * Uplink MAC PDU: the loops of the prioritisation

    The loops of [nr_ue_get_sdu] end, whatever RLC returns: every turn either fills the block or finds
    a channel without data; and they keep the invariant of the block. *)

From S2P Require Import Prelude RlcEntity RlcApi RlcApiLaws.
From S2P Require Import MacPdu MacDl MacBsr MacUeRx MacDlGnb MacUlRx MacUlLcp MacUlGnb MacUlFill.

(** ** Measures *)

Definition trues (l : list bool) : Z := zlen (List.filter id l).

Lemma trues_bound l : 0 <= trues l <= zlen l.
Proof. unfold trues, zlen. pose proof (List.filter_length_le id l). lia. Qed.

Lemma trues_insert l i : znth l i = Some true → trues (<[Z.to_nat i := false]> l) = trues l - 1.
Proof.
  intros Hi. pose proof Hi as Hb%znth_Some. destruct Hb as [Hb _]. rewrite znth_lookup in Hi by done.
  revert Hi. generalize (Z.to_nat i) as k. clear i Hb. intros k. revert l.
  induction k as [| k IH]; intros [| b l] Hi; try done; simpl in *.
  - injection Hi as ->. unfold trues. simpl. rewrite zlen_cons. lia.
  - specialize (IH l Hi). unfold trues in *. simpl. destruct b; simpl; rewrite ?zlen_cons; lia.
Qed.

Lemma equal_share_ok remain count : 0 <= remain <= 2 ^ 24 → 1 <= count <= 32 →
  let ep := equal_share remain count in 0 <= ep <= remain ∧ (ep = 0 ∨ count * (ep + 3) <= remain) ∧ (1 < count → 2 * ep <= remain).
Proof.
  intros Hr Hc. cbv zeta. unfold equal_share. assert (u64 remain = remain) as -> by (unfold u64; rewrite Z.mod_small; lia).
  destruct (Z.ltb_spec remain (count * 3)); [split_and!; lia |].
  assert (u64 (remain - count * 3) = remain - count * 3) as -> by (unfold u64; rewrite Z.mod_small; lia).
  pose proof (Z.div_mod (remain - count * 3) count ltac:(lia)) as Hd.
  pose proof (Z.mod_pos_bound (remain - count * 3) count ltac:(lia)).
  set (q := (remain - count * 3) / count) in *.
  assert (0 <= q) by (apply Z.div_pos; lia). assert (q <= remain) by nia.
  assert (u32 q = q) as -> by (unfold u32; rewrite Z.mod_small; lia).
  split_and!; [lia | lia | right; nia | nia].
Qed.

Lemma same_priority_count x l : 1 <= get_count_lcids_same_priority (x :: l) <= zlen (x :: l).
Proof.
  unfold get_count_lcids_same_priority. simpl List.filter. rewrite Z.eqb_refl, !zlen_cons.
  pose proof (List.filter_length_le (λ y, lo_priority x =? lo_priority y) l). unfold zlen. lia.
Qed.

Lemma distinct_priority_count x l : NoDup (map lo_priority (x :: l)) → get_count_lcids_same_priority (x :: l) = 1.
Proof.
  simpl. intros [Hx _]%NoDup_cons. rewrite Z.eqb_refl, zlen_cons.
  assert (List.filter (λ y, lo_priority x =? lo_priority y) l = []) as ->; [| done].
  induction l as [| y l IH]; [done |]. simpl in *. destruct (Z.eqb_spec (lo_priority x) (lo_priority y)) as [Heq |].
  - destruct Hx. rewrite Heq. by left.
  - apply IH. intros Hin. apply Hx. by right.
Qed.

Section rounds.
Context {E : Type} `{TL : RlcTickLaws E}.
Context (ev : ue_env) (tail n : Z) (L : list nr_lcordered_info_t) (u0 : nr_rlc_ue_t E) (B : Z → Z).
Context (Htail : 0 <= tail <= 2 ^ 24) (Hn : tail <= n) (Hsize : rlc_size_ok tail).
(** Channels of equal priority have a bit rate of at least half of the block. *)
Context (Hprio : NoDup (map lo_priority L) ∨ ∀ x, x ∈ L → tail <= 2 * lo_pbr x).

Abbreviation inv := (lcp_inv ev tail n L u0 B).

Definition mu (st : lcp_t E) : Z := tail - lp_cur st + trues (lp_status st).

Lemma mu_nonneg l xs st : inv l xs st → 0 <= mu st.
Proof using. clear. intros Hi. unfold mu. pose proof (trues_bound (lp_status st)). pose proof (lv_tail _ _ _ _ _ _ _ _ _ Hi). lia. Qed.

(** ** The requests of one channel *)

Definition while_post (x : nr_lcordered_info_t) (count ep : Z) (st : lcp_t E) (r : res (lcp_t E)) : Prop :=
  ∃ st' l' xs', r = Ok st' ∧ inv l' xs' st' ∧
    (∀ j, 0 <= j → j ≠ lo_lcid x - 1 → znth (lp_tot st') j = znth (lp_tot st) j) ∧
    lp_num st - 1 <= lp_num st' <= lp_num st ∧ share_ok count ep (lp_num st') (tail - lp_cur st') ∧
    mu st' <= mu st ∧ (3 <= tail - lp_cur st → mu st' < mu st).

Lemma limit_share count counter ep pbr num t space : turn_limit count counter ep pbr num t space → space < 3 → share_ok count ep num space.
Proof using.
  clear. intros (Ht0 & Hep & Hnum & Hc & _) Hs. unfold share_ok. destruct (Z.le_gt_cases count 1) as [| H1]; [by left |].
  destruct (Hc ltac:(lia)) as (Hte & [-> | Hsp] & _); right; [by left | left; nia].
Qed.

Lemma while_ok fuel : ∀ l xs st x t count counter ep,
  inv l xs st → x ∈ L → lo_suspended x = false → znth (lp_tot st) (lo_lcid x - 1) = Some t →
  znth (lp_status st) (lo_lcid x - 1) = Some true →
  turn_limit count counter ep (lo_pbr x) (lp_num st) t (tail - lp_cur st) → lp_num st <= 32 → ep <= tail → 0 <= counter →
  tail - lp_cur st <= Z.of_nat fuel →
  while_post x count ep st (fill_while fuel ev tail counter (lo_lcid x) count ep st).
Proof using TL Htail Hn Hsize.
  induction fuel as [| fuel IH]; intros l xs st x t count counter ep Hi Hx Hs Et Est Hlim Hnum Hep Hc0 Hf; simpl fill_while;
    (destruct (Z.ltb_spec 0 (tail - lp_cur st)) as [Hsp | Hsp];
     [| exists st, l, xs; split_and!; [done | done | done | lia | lia | by apply (limit_share _ _ _ _ _ _ _ Hlim); lia | lia | lia]]).
  { lia. }
  destruct (fill_ok ev tail n L u0 B Htail Hn Hsize l xs st x t count counter ep Hi Hx Hs Et Hlim Hnum Hep Hc0)
    as (b & st1 & l1 & xs1 & -> & Hi1 & Hend & Hfr). cbn [mbind res_bind].
  destruct Hend as [(-> & -> & Hlt) | [(-> & Hcur & Hnm & Hst & t' & Et' & Hlim') | (-> & Hnm & Hsh & Hend)]].
  - exists st, l, xs. split_and!; try done; try lia. by apply (limit_share _ _ _ _ _ _ _ Hlim).
  - rewrite <- Hnm in Hlim'. destruct (IH l1 xs1 st1 x t' count counter ep) as (st2 & l2 & xs2 & -> & Hi2 & Hfr2 & Hnm2 & Hsh2 & Hmu2 & _);
      try done; [by rewrite Hst | lia | lia |].
    assert (mu st1 < mu st) by (unfold mu; rewrite Hst; lia).
    exists st2, l2, xs2. split_and!; try done; try lia. intros j Hj Hne. rewrite Hfr2 by done. by apply Hfr.
  - assert (mu st1 < mu st).
    { unfold mu. destruct Hend as [[Hcur ->] | [-> ->]]; [lia |]. rewrite trues_insert by done. lia. }
    exists st1, l1, xs1. rewrite Hnm. split_and!; try done; lia.
Qed.

(** ** One round *)

Definition group_ok (st : lcp_t E) (count ep : Z) : Prop :=
  0 <= lp_num st <= count ∧ count <= 32 ∧ 0 <= ep <= tail ∧ share_ok count ep (lp_num st) (tail - lp_cur st) ∧
  (1 < count → 2 * ep <= tail ∧ ∀ x, x ∈ L → tail <= 2 * lo_pbr x).

Definition is_true_at (st : lcp_t E) (x : nr_lcordered_info_t) : Prop := znth (lp_status st) (lo_lcid x - 1) = Some true.

(** After a channel: the state, the group, the channels not visited yet. *)
Definition channel_ok_post (l : list nr_lcordered_info_t) (st : lcp_t E) (r : res (lcp_t E * Z * Z)) : Prop :=
  ∃ st' count' ep' k xs, r = Ok (st', count', ep') ∧ inv k xs st' ∧ group_ok st' count' ep' ∧
    (∀ x, x ∈ l → znth (lp_tot st') (lo_lcid x - 1) = Some 0) ∧ mu st' <= mu st.

Lemma lcs_length m : ul_wf m → zlen (lcs m) <= 32.
Proof using.
  clear. intros Hw. assert (Hl : (length (map lo_lcid (lcs m)) <= length (seqZ 1 32))%nat).
  { apply List.NoDup_incl_length; [apply NoDup_ListNoDup, (wf_nodup _ Hw) |]. intros c Hc. apply list_elem_of_In in Hc. apply list_elem_of_In.
    apply list_elem_of_fmap in Hc as (x & -> & Hx). apply elem_of_seqZ. destruct (wf_lcs _ Hw x Hx). lia. }
  rewrite length_map in Hl. unfold zlen. simpl in Hl. lia.
Qed.

Lemma group_start x l st count ep counter :
  zlen (x :: l) <= 32 → x ∈ L → 0 <= lo_pbr x → (x :: l) `sublist_of` L → 0 <= lp_cur st <= tail → group_ok st count ep →
  let c := get_count_lcids_same_priority (x :: l) in
  let p := if lp_num st =? 0 then (st <| lp_num := c |>, c) else (st, count) in
  let ep' := if lp_num p.1 =? p.2 then equal_share (tail - lp_cur p.1) p.2 else ep in
  group_ok p.1 p.2 ep' ∧ turn_limit p.2 counter ep' (lo_pbr x) (lp_num p.1) 0 (tail - lp_cur p.1).
Proof using Htail Hprio.
  intros Hl Hx Hpbr Hsub Hcur (Hnum & Hc32 & Hep & Hsh & Hp) c p ep'.
  pose proof (same_priority_count x l) as Hc. fold c in Hc.
  assert (Hpc : lp_cur p.1 = lp_cur st) by (unfold p; by case_match).
  assert (Hc1 : 1 < c → ∀ y, y ∈ L → tail <= 2 * lo_pbr y).
  { intros H1. destruct Hprio as [Hnd | Hall]; [| done]. exfalso.
    assert (Hd : NoDup (map lo_priority (x :: l))) by (eapply sublist_NoDup; [exact Hnd | by apply (fmap_sublist lo_priority)]).
    apply distinct_priority_count in Hd. fold c in Hd. lia. }
  assert (Hg : 1 <= lp_num p.1 <= p.2 ∧ p.2 <= 32 ∧ (1 < p.2 → ∀ y, y ∈ L → tail <= 2 * lo_pbr y) ∧
    (lp_num p.1 ≠ p.2 → p.2 = count ∧ lp_num p.1 = lp_num st)).
  { unfold p. destruct (Z.eqb_spec (lp_num st) 0); simpl; split_and!; try lia; try done; intros H1; by apply Hp. }
  destruct Hg as (Hn1 & Hp32 & Hcase & Hold). unfold ep'. rewrite Hpc.
  pose proof (equal_share_ok (tail - lp_cur st) (p.2) ltac:(lia) ltac:(lia)) as (Hes & Hes2 & Hes3). cbv zeta in *.
  assert (Hfin : ∀ e, 0 <= e <= tail → share_ok p.2 e (lp_num p.1) (tail - lp_cur st) → (1 < p.2 → 2 * e <= tail) →
    group_ok p.1 p.2 e ∧ turn_limit p.2 counter e (lo_pbr x) (lp_num p.1) 0 (tail - lp_cur st)).
  { intros e He Hse H2. split.
    - split_and!; try lia; [by rewrite Hpc |]. intros H1. split; [by apply H2 | by apply Hcase].
    - split_and!; try lia. intros H1. pose proof (Hcase H1 x Hx). specialize (H2 H1). split_and!; try lia.
      destruct Hse as [? | [? | ?]]; [lia | by left | right; lia]. }
  destruct (Z.eqb_spec (lp_num p.1) p.2) as [Heq | Hne]; apply Hfin; try lia.
  - rewrite Heq. unfold share_ok. destruct Hes2; [by right; left | by right; right].
  - destruct (Hold Hne) as [-> ->]. done.
Qed.

Lemma inv_num l xs st num : inv l xs st → inv l xs (st <| lp_num := num |>).
Proof using. clear. intros []. by constructor. Qed.

Lemma channel_ok l k xs st count ep counter x :
  inv k xs st → group_ok st count ep → (x :: l) `sublist_of` L → NoDup (map lo_lcid (x :: l)) → lo_suspended x = false →
  (∀ y, y ∈ x :: l → znth (lp_tot st) (lo_lcid y - 1) = Some 0) → 0 <= counter →
  channel_ok_post l st (lcp_channel ev tail counter x l (st, count, ep)) ∧
  (is_true_at st x → 3 <= tail - lp_cur st →
   ∃ st' count' ep', lcp_channel ev tail counter x l (st, count, ep) = Ok (st', count', ep') ∧ mu st' < mu st) ∧
  (¬ is_true_at st x → lcp_channel ev tail counter x l (st, count, ep) = Ok (st, count, ep)).
Proof using TL Htail Hn Hsize Hprio.
  intros Hi Hg Hsub Hnd Hs Htot Hc0. pose proof (lv_wf _ _ _ _ _ _ _ _ _ Hi) as Hw. pose proof (lv_lcs _ _ _ _ _ _ _ _ _ Hi) as HL.
  assert (Hx : x ∈ L) by (eapply elem_of_submseteq; [by left | by apply sublist_submseteq]).
  assert (Hx' : x ∈ lcs (lp_ue st)) by by rewrite HL. destruct (wf_lcs _ Hw x Hx') as (Hlcid & _ & Hpbr & _).
  pose proof (lcs_length _ Hw) as H32. rewrite HL in H32. pose proof (sublist_length _ _ Hsub) as Hlen.
  unfold lcp_channel. rewrite buffer_index_ok by done. cbn [mbind res_bind].
  destruct (znth_is_Some (lp_status st) (lo_lcid x - 1)) as [b Eb]; [rewrite (lv_status _ _ _ _ _ _ _ _ _ Hi); lia |].
  rewrite Eb. cbn [deref mbind res_bind]. unfold is_true_at. rewrite Eb. destruct b; simpl negb; cbv iota.
  2: { split; [| split; [intros [=] | done]]. exists st, count, ep, k, xs. split_and!; try done. intros y Hy. apply Htot. by right. }
  pose proof (group_start x l st count ep counter ltac:(unfold zlen in *; lia) Hx ltac:(lia) Hsub
    (conj (inv_cur0 _ _ _ _ _ _ _ _ _ Hi) (lv_tail _ _ _ _ _ _ _ _ _ Hi)) Hg) as Hst. cbv zeta in Hst.
  set (p := if lp_num st =? 0 then _ else _) in *.
  assert (Hp1 : inv k xs p.1 ∧ lp_tot p.1 = lp_tot st ∧ lp_status p.1 = lp_status st ∧ lp_cur p.1 = lp_cur st ∧ mu p.1 = mu st).
  { unfold p. destruct (lp_num st =? 0); [split; [by apply inv_num | done] | done]. }
  destruct p as [st1 count1]. simpl in Hst, Hp1. set (ep1 := if lp_num st1 =? count1 then _ else ep) in *.
  destruct Hst as [(Hg1 & Hg2 & Hg3 & Hg4 & Hg5) Hlim]. destruct Hp1 as (Hi1 & Ht1 & Hst1 & Hcur1 & Hmu1).
  pose proof Hlim as (_ & _ & Hnum1 & _).
  destruct (while_ok (Z.to_nat (tail - lp_cur st1)) k xs st1 x 0 count1 counter ep1) as (st2 & k2 & xs2 & Ew & Hi2 & Hfr & Hnum2 & Hsh2 & Hmu2 & Hlt);
    [done | done | done | rewrite Ht1; apply Htot; by left | by rewrite Hst1 | done | lia | lia | done | lia |].
  assert (Hnew : ∀ y, y ∈ l → znth (lp_tot st2) (lo_lcid y - 1) = Some 0).
  { intros y Hy. assert (Hy' : y ∈ lcs (lp_ue st)) by (rewrite HL; eapply elem_of_submseteq; [by right | by apply sublist_submseteq]).
    destruct (wf_lcs _ Hw y Hy') as (Hly & _). simpl in Hnd. apply NoDup_cons in Hnd as [Hnx _].
    rewrite Hfr, Ht1; [apply Htot; by right | lia |]. intros Heq. apply Hnx. apply list_elem_of_fmap. exists y. split; [lia | done]. }
  rewrite Ew. cbn [mbind res_bind]. split; [| split; [| intros []; done]].
  - exists st2, count1, ep1, k2, xs2. split_and!; try done; try lia. split_and!; try done; lia.
  - intros _ H3. exists st2, count1, ep1. split; [done |]. rewrite <- Hmu1. apply Hlt. lia.
Qed.

(** The round makes progress if a channel is expected to have data and there is room. *)
Lemma channels_ok l : ∀ k xs st count ep counter,
  inv k xs st → group_ok st count ep → l `sublist_of` L → NoDup (map lo_lcid l) → Forall (λ x, lo_suspended x = false) l →
  (∀ y, y ∈ l → znth (lp_tot st) (lo_lcid y - 1) = Some 0) → 0 <= counter →
  channel_ok_post [] st (lcp_channels ev tail counter l (st, count, ep)) ∧
  ((∃ x, x ∈ l ∧ is_true_at st x) → 3 <= tail - lp_cur st →
   ∃ st' count' ep', lcp_channels ev tail counter l (st, count, ep) = Ok (st', count', ep') ∧ mu st' < mu st).
Proof using TL Htail Hn Hsize Hprio.
  induction l as [| x l IH]; intros k xs st count ep counter Hi Hg Hsub Hnd Hs Htot Hc0; cbn [lcp_channels].
  { split; [exists st, count, ep, k, xs; split_and!; (done || intros ? []%elem_of_nil) | intros (x & []%elem_of_nil & _)]. }
  apply Forall_cons in Hs as [Hs1 Hs].
  destruct (channel_ok l k xs st count ep counter x Hi Hg Hsub Hnd Hs1 Htot Hc0)
    as ((st1 & count1 & ep1 & k1 & xs1 & E1 & Hi1 & Hg1 & Htot1 & Hmu1) & Hlt & Hskip).
  assert (Hsub' : l `sublist_of` L) by (etrans; [| exact Hsub]; by apply sublist_cons).
  assert (Hnd' : NoDup (map lo_lcid l)) by (simpl in Hnd; by apply NoDup_cons in Hnd as [_ ?]).
  rewrite E1. cbn [mbind res_bind].
  destruct (IH k1 xs1 st1 count1 ep1 counter Hi1 Hg1 Hsub' Hnd' Hs Htot1 Hc0)
    as ((st2 & count2 & ep2 & k2 & xs2 & E2 & Hi2 & Hg2 & _ & Hmu2) & Hlt2).
  rewrite E2. split; [exists st2, count2, ep2, k2, xs2; split_and!; try done; [intros ? []%elem_of_nil | lia] |].
  intros (y & Hy & Hty) H3. exists st2, count2, ep2. split; [done |].
  destruct (decide (znth (lp_status st) (lo_lcid x - 1) = Some true)) as [Htx | Hfx].
  - destruct (Hlt Htx H3) as (st1' & ? & ? & E1' & ?). rewrite E1 in E1'. simplify_eq. lia.
  - pose proof (Hskip Hfx) as E1'. rewrite E1 in E1'. simplify_eq. apply elem_of_cons in Hy as [-> | Hy]; [done |].
    destruct (Hlt2 (ex_intro _ y (conj Hy Hty)) H3) as (st2' & ? & ? & E2' & ?). rewrite E2 in E2'. by simplify_eq.
Qed.

(** ** All rounds *)

Section all.
Context (active : list nr_lcordered_info_t).
Context (Hsub : active `sublist_of` L) (Hact : Forall (λ x, lo_suspended x = false) active).

Definition round_start (st : lcp_t E) : lcp_t E := st <| lp_num := 0 |> <| lp_tot := replicate 32 0 |>.

Lemma round_inv k xs st : lcp_inv ev tail n L u0 B k xs (st <| lp_tot := replicate 32 0 |>) → inv k xs (round_start st).
Proof using. clear. intros []. by constructor. Qed.

Lemma tot_inv k xs st : inv k xs st → inv k xs (st <| lp_tot := replicate 32 0 |>).
Proof using.
  clear. intros Hi. pose proof (inv_cur0 _ _ _ _ _ _ _ _ _ Hi). destruct Hi. constructor; try done. apply (Forall_replicate _ 32 0). simpl. lia.
Qed.

Lemma availability_ok k xs st : inv k xs st →
  ∃ b, get_dataavailability_buffers active (lp_status st) = Ok b ∧ (b = true → ∃ x, x ∈ active ∧ is_true_at st x).
Proof using Hsub.
  intros Hi. pose proof (lv_wf _ _ _ _ _ _ _ _ _ Hi) as Hw. pose proof (lv_lcs _ _ _ _ _ _ _ _ _ Hi) as HL.
  assert (Hin : ∀ x, x ∈ active → 1 <= lo_lcid x <= 32).
  { intros x Hx. eapply (wf_lcs _ Hw). rewrite HL. eapply elem_of_submseteq; [exact Hx | by apply sublist_submseteq]. }
  clear -Hi Hin. induction active as [| x l IH]; [by exists false |]. simpl. rewrite buffer_index_ok by (apply Hin; by left).
  cbn [mbind res_bind]. destruct (znth_is_Some (lp_status st) (lo_lcid x - 1)) as [b Eb].
  { rewrite (lv_status _ _ _ _ _ _ _ _ _ Hi). specialize (Hin x ltac:(by left)). lia. }
  rewrite Eb. cbn [deref mbind res_bind]. destruct b.
  - exists true. split; [done |]. intros _. exists x. split; [by left | exact Eb].
  - destruct IH as (b & -> & Hb); [intros y Hy; apply Hin; by right |]. exists b. split; [done |].
    intros Ht. destruct (Hb Ht) as (y & Hy & ?). exists y. split; [by right | done].
Qed.

Lemma round_ok k xs st ep counter : inv k xs (st <| lp_tot := replicate 32 0 |>) → 0 <= ep <= tail → 0 <= counter →
  ∃ st' count' ep' k' xs', lcp_channels ev tail counter active (round_start st, 0, ep) = Ok (st', count', ep') ∧ inv k' xs' st' ∧
    0 <= ep' <= tail ∧ mu st' <= mu st ∧
    ((∃ x, x ∈ active ∧ is_true_at st x) → 3 <= tail - lp_cur st → mu st' < mu st).
Proof using TL Htail Hn Hsize Hprio Hsub Hact.
  intros Hi Hep Hc0. pose proof (round_inv _ _ _ Hi) as Hi'. pose proof (lv_wf _ _ _ _ _ _ _ _ _ Hi') as Hw.
  pose proof (lv_lcs _ _ _ _ _ _ _ _ _ Hi') as HL.
  assert (Hnd : NoDup (map lo_lcid active)).
  { eapply sublist_NoDup; [exact (wf_nodup _ Hw) | rewrite HL; by apply (fmap_sublist lo_lcid)]. }
  assert (Htot : ∀ y, y ∈ active → znth (lp_tot (round_start st)) (lo_lcid y - 1) = Some 0).
  { intros y Hy. destruct (wf_lcs _ Hw y) as (Hl & _); [rewrite HL; eapply elem_of_submseteq; [exact Hy | by apply sublist_submseteq] |].
    simpl. rewrite znth_lookup by lia. apply (lookup_replicate_2 32 0). lia. }
  assert (Hg : group_ok (round_start st) 0 ep) by (split_and!; simpl; try lia; by left).
  destruct (channels_ok active k xs (round_start st) 0 ep counter Hi' Hg Hsub Hnd Hact Htot Hc0)
    as ((st1 & count1 & ep1 & k1 & xs1 & E1 & Hi1 & Hg1 & _ & Hmu) & Hlt).
  exists st1, count1, ep1, k1, xs1. split_and!; try done; try apply Hg1.
  intros Hx H3. destruct (Hlt Hx H3) as (st2 & ? & ? & E2 & Hm). rewrite E1 in E2. by simplify_eq.
Qed.

Lemma rounds_strict fuel : ∀ k xs st ep counter,
  inv k xs st → 0 <= ep <= tail → 0 <= counter → (∃ x, x ∈ active ∧ is_true_at st x) → 3 <= tail - lp_cur st → mu st <= Z.of_nat fuel →
  ∃ st' k' xs', lcp_rounds fuel ev tail counter active ep st = Ok st' ∧ inv k' xs' st'.
Proof using TL Htail Hn Hsize Hprio Hsub Hact.
  induction fuel as [| fuel IH]; intros k xs st ep counter Hi Hep Hc0 Hx H3 Hf; cbn [lcp_rounds].
  { pose proof (trues_bound (lp_status st)). unfold mu in Hf. lia. }
  destruct (round_ok k xs st ep counter (tot_inv _ _ _ Hi) Hep Hc0) as (st1 & count1 & ep1 & k1 & xs1 & E1 & Hi1 & Hep1 & _ & Hlt).
  unfold round_start in E1. rewrite E1. cbn [mbind res_bind]. specialize (Hlt Hx H3).
  pose proof (inv_cur0 _ _ _ _ _ _ _ _ _ Hi1). pose proof (lv_tail _ _ _ _ _ _ _ _ _ Hi1).
  assert (u64 (tail - lp_cur st1) = tail - lp_cur st1) as -> by (unfold u64; rewrite Z.mod_small; lia).
  destruct (Z.ltb_spec 3 (tail - lp_cur st1)); [| by exists st1, k1, xs1].
  destruct (availability_ok k1 xs1 st1 Hi1) as (b & -> & Hb). cbn [mbind res_bind]. destruct b; [| by exists st1, k1, xs1].
  apply (IH k1 xs1); try done; try lia; [by apply Z.mod_pos_bound | by apply Hb].
Qed.

Lemma rounds_ok fuel k xs st :
  inv k xs (st <| lp_tot := replicate 32 0 |>) → mu st < Z.of_nat fuel →
  ∃ st' k' xs', lcp_rounds fuel ev tail 0 active 0 st = Ok st' ∧ inv k' xs' st'.
Proof using TL Htail Hn Hsize Hprio Hsub Hact.
  intros Hi Hf. pose proof (mu_nonneg _ _ _ Hi) as Hm0. change (mu (st <| lp_tot := replicate 32 0 |>)) with (mu st) in Hm0.
  destruct fuel as [| fuel]; [lia |]. cbn [lcp_rounds].
  destruct (round_ok k xs st 0 0 Hi ltac:(lia) ltac:(lia)) as (st1 & count1 & ep1 & k1 & xs1 & E1 & Hi1 & Hep1 & Hmu & _).
  unfold round_start in E1. rewrite E1. cbn [mbind res_bind].
  pose proof (inv_cur0 _ _ _ _ _ _ _ _ _ Hi1). pose proof (lv_tail _ _ _ _ _ _ _ _ _ Hi1).
  assert (u64 (tail - lp_cur st1) = tail - lp_cur st1) as -> by (unfold u64; rewrite Z.mod_small; lia).
  destruct (Z.ltb_spec 3 (tail - lp_cur st1)); [| by exists st1, k1, xs1].
  destruct (availability_ok k1 xs1 st1 Hi1) as (b & -> & Hb). cbn [mbind res_bind]. destruct b; [| by exists st1, k1, xs1].
  apply (rounds_strict fuel k1 xs1); try done; try lia. by apply Hb.
Qed.
End all.
End rounds.
