(* ===== verification/MacUlBlock.v ===== *)
(** * Uplink MAC PDU: the buffer status report

    What the UE writes into a BSR and what the gNB reads out of it.

    Then: uplink MAC PDU: the block that the UE builds.
    Buffer status before and after the SDUs, the control elements and the padding; then the whole of
    [nr_ue_get_sdu]. *)

From S2P Require Import Prelude RlcEntity RlcApi MacPdu MacDl MacBsr MacUeRx MacUlRx MacUlLcp MacUlGnb MacUlFill RlcApiLaws MacDlGnb MacUlRounds.

(** ** The index of a number of bytes *)

Lemma u32_as_int g : is_u32 g → u32 (as_int g) = g.
Proof.
  intros Hg. unfold as_int, u32. unfold is_u32 in Hg. rewrite (Z.mod_small g) by lia.
  destruct (g <? 2 ^ 31); [by apply Z.mod_small |]. rewrite Zminus_mod, Z_mod_same_full, Z.sub_0_r, Z.mod_mod by lia. by apply Z.mod_small.
Qed.

Lemma u32_u32 x : u32 (u32 x) = u32 x.
Proof. unfold u32. by rewrite Z.mod_mod. Qed.

Lemma bisect_u32 fuel get asc value : ∀ jl ju, bsr_bisect fuel get asc (u32 value) jl ju = bsr_bisect fuel get asc value jl ju.
Proof.
  induction fuel as [| fuel IH]; intros jl ju; simpl; [done |]. destruct (1 <? ju - jl); [| done]. rewrite u32_u32.
  destruct (get _) as [x | | |]; simpl; try done. by destruct (eqb _ _); rewrite IH.
Qed.

Lemma locate_u32 size value : value ≠ 0 → u32 value ≠ 0 →
  nr_locate_BsrIndexByBufferSize size value = nr_locate_BsrIndexByBufferSize size (u32 value).
Proof.
  intros H1 H2. unfold nr_locate_BsrIndexByBufferSize. destruct (Z.eqb_spec value 0); [done |]. destruct (Z.eqb_spec (u32 value) 0); [done |].
  cbv zeta. generalize (if size =? NR_SHORT_BSR_TABLE_SIZE then get_short_bsr_value else get_long_bsr_value) as get. intros get.
  destruct (get (size - 1)); cbn [mbind res_bind]; [| reflexivity..]. destruct (get 0); cbn [mbind res_bind]; [| reflexivity..].
  rewrite bisect_u32, u32_u32. reflexivity.
Qed.

(** The index for [g] bytes: 0 for none, and otherwise the first level that is not too low. *)
Definition bsr_index (level : Z → Z) (size g i : Z) : Prop :=
  0 <= i < size ∧ (g = 0 → i = 0) ∧ (0 < g → index_of level size g i).

Lemma locate_int_short g : is_u32 g →
  ∃ i, nr_locate_BsrIndexByBufferSize NR_SHORT_BSR_TABLE_SIZE (as_int g) = Ok i ∧ bsr_index short_level 32 g i.
Proof.
  intros Hg. destruct (decide (g = 0)) as [-> | Hne]; [exists 0; split; [done |]; split_and!; lia |].
  pose proof (u32_as_int g Hg) as Hu. rewrite locate_u32; [| intros H0; rewrite H0 in Hu; done | lia]. rewrite Hu.
  unfold is_u32 in Hg. destruct (locate_short g) as (i & E & Hi); [lia |]. exists i. split; [done |].
  split; [destruct Hi; lia |]. by split.
Qed.

Lemma locate_int_long g : is_u32 g →
  ∃ i, nr_locate_BsrIndexByBufferSize NR_LONG_BSR_TABLE_SIZE (as_int g) = Ok i ∧ bsr_index long_level 256 g i.
Proof.
  intros Hg. destruct (decide (g = 0)) as [-> | Hne]; [exists 0; split; [done |]; split_and!; lia |].
  pose proof (u32_as_int g Hg) as Hu. rewrite locate_u32; [| intros H0; rewrite H0 in Hu; done | lia]. rewrite Hu.
  unfold is_u32 in Hg. destruct (locate_long g) as (i & E & Hi); [lia |]. exists i. split; [done |].
  split; [destruct Hi; lia |]. by split.
Qed.

Lemma long_indices_ok l : Forall is_u32 l → ∃ idx, long_indices l = Ok idx ∧ Forall2 (bsr_index long_level 256) l idx.
Proof.
  induction 1 as [| g l Hg Hl (idx & E & IH)]; [by exists [] |]. destruct (locate_int_long g Hg) as (i & Ei & Hi).
  exists (i :: idx). cbn [long_indices]. rewrite Ei. cbn [mbind res_bind]. rewrite E. split; [done | by constructor].
Qed.

(** ** The long BSR *)

(** What the gNB adds up. *)
Definition level_estim (x : Z) : Z := long_level (Z.min (overestim_bsr_index x) 255).
Definition estim_sum (e : Z) (o : list Z) : Z := foldl (λ e x, as_int (e + level_estim x)) e o.

Lemma overestim_range x size : 0 <= x → 0 < size → 0 <= Z.min (overestim_bsr_index x) (size - 1) < size.
Proof. intros. unfold overestim_bsr_index. destruct (0 <? x); lia. Qed.

Lemma long_levels_ok l : ∀ i room f o, Forall (λ x, 0 <= x < 256) l → 0 <= i → long_levels l i room = (f, o) →
  (∃ g, f = 2 ^ i * g) ∧ zlen o <= Z.max 0 room ∧ zlen o <= zlen l ∧
  (zlen (List.filter (λ x, negb (x =? 0)) l) <= room → o = List.filter (λ x, negb (x =? 0)) l) ∧
  ∀ F pre payload m e, (∀ j, i <= j < i + zlen l → Z.testbit F j = Z.testbit f j) → zlen pre = payload + m →
    long_bsr_loop (length l) F (pre ++ o) payload i m e = Ok (estim_sum e o).
Proof.
  induction l as [| x l IH]; intros i room f o Hl Hi E.
  { injection E as <- <-. split; [exists 0; lia |]. change (zlen []) with 0. split_and!; [lia | lia | done | done]. }
  apply Forall_cons in Hl as [Hx Hl]. cbn [long_levels] in E. rewrite zlen_cons.
  assert (Hbit : ∀ g, Z.testbit (2 ^ (i + 1) * g) i = false).
  { intros g. rewrite Z.mul_comm. apply Z.mul_pow2_bits_low. lia. }
  destruct (negb (x =? 0) && (0 <? room)) eqn:Hb.
  - destruct (long_levels l (i + 1) (room - 1)) as [f' o'] eqn:E'. injection E as <- <-.
    apply andb_true_iff in Hb as [Hb1 Hb2]. apply negb_true_iff, Z.eqb_neq in Hb1. apply Z.ltb_lt in Hb2.
    destruct (IH (i + 1) (room - 1) f' o' Hl ltac:(lia) E') as ((g & Hg) & Hz & Hzl & Hall & Hloop). split.
    { exists (1 + 2 * g). rewrite Hg, Z.pow_add_r, Z.pow_1_r by lia. ring. }
    rewrite zlen_cons. split; [lia |]. split; [lia |]. split.
    { simpl List.filter. destruct (Z.eqb_spec x 0); [lia |]. simpl negb. cbv iota. rewrite zlen_cons. intros Hr. f_equal. apply Hall. lia. }
    intros F pre payload m es HF Hpre. simpl long_bsr_loop.
    assert (Hadd : ∀ j, i <= j → Z.testbit (2 ^ i + f') j = if j =? i then true else Z.testbit f' j).
    { intros j Hj. assert (Hlor : 2 ^ i + f' = Z.lor (2 ^ i) f').
      { rewrite Z.add_nocarry_lxor by (apply Z.bits_inj'; intros q Hq; rewrite Z.land_spec, Z.bits_0, Z.pow2_bits_eqb by lia;
          destruct (Z.eqb_spec i q) as [<- |]; [by rewrite Hg, Hbit | done]).
        apply Z.bits_inj'. intros q Hq. rewrite Z.lxor_spec, Z.lor_spec, Z.pow2_bits_eqb by lia.
        destruct (Z.eqb_spec i q) as [<- |]; [rewrite Hg, Hbit; done | by destruct (Z.testbit f' q)]. }
      rewrite Hlor, Z.lor_spec, Z.pow2_bits_eqb by lia. destruct (Z.eqb_spec i j), (Z.eqb_spec j i); try lia; done. }
    pose proof (zlen_nonneg l). rewrite (HF i), Hadd, Z.eqb_refl by lia. simpl negb. cbv iota.
    assert (Hz0 : znth (pre ++ x :: o') (payload + m) = Some x).
    { rewrite <- Hpre. pose proof (znth_head pre x o' []) as Hh. by rewrite app_nil_r in Hh. }
    rewrite Hz0. cbn [deref mbind res_bind]. change (NR_LONG_BSR_TABLE_SIZE - 1) with (256 - 1).
    rewrite get_long_ok by (apply overestim_range; lia). cbn [mbind res_bind].
    replace (pre ++ x :: o') with ((pre ++ [x]) ++ o') by by rewrite <- app_assoc.
    apply (Hloop F (pre ++ [x]) payload (m + 1)); [| rewrite zlen_app; change (zlen [x]) with 1; lia].
    intros j Hj. rewrite HF, Hadd by lia. by decide_false (j =? i).
  - destruct (IH (i + 1) room f o Hl ltac:(lia) E) as ((g & Hg) & Hz & Hzl & Hall & Hloop). split.
    { exists (2 * g). rewrite Hg, Z.pow_add_r, Z.pow_1_r by lia. ring. }
    split; [done |]. split; [lia |]. split.
    { simpl List.filter. destruct (Z.eqb_spec x 0); simpl negb in *; cbv iota; [exact Hall |]. simpl in Hb. apply Z.ltb_ge in Hb.
      rewrite zlen_cons. pose proof (zlen_nonneg (List.filter (λ x, negb (x =? 0)) l)). lia. }
    intros F pre payload m es HF Hpre. simpl long_bsr_loop. pose proof (zlen_nonneg l).
    rewrite (HF i), Hg, Hbit by lia. simpl negb. cbv iota. apply Hloop; [| done]. intros j Hj. apply HF. lia.
Qed.

(** The octets of a long BSR are read as they were written. *)
Lemma long_bsr_read l room f o : zlen l = 8 → Forall (λ x, 0 <= x < 256) l → long_levels l 0 room = (f, o) →
  estimate_ul_buffer_long_bsr (f :: o) 0 = Ok (estim_sum 0 o).
Proof.
  intros Hz Hl E. destruct (long_levels_ok l 0 room f o Hl ltac:(lia) E) as (_ & _ & _ & _ & Hloop).
  unfold estimate_ul_buffer_long_bsr. change (znth (f :: o) 0) with (Some f). cbn [deref mbind res_bind].
  assert (length l = 8%nat) as Hlen by (unfold zlen in Hz; lia). rewrite Hlen in Hloop. by apply (Hloop f [f] (0 + 1) 0 0).
Qed.

(** ** The estimate covers what was reported *)

(** The largest number of bytes with a level of its own. *)
Definition max_reported : Z := 81338368.

Lemma level_estim_covers g i : bsr_index long_level 256 g i → 0 <= g <= max_reported →
  g <= level_estim i <= 162676736 ∧ (i = 0 → g = 0).
Proof.
  intros (Hi & H0 & Hpos) Hg. unfold level_estim, max_reported in *.
  destruct (decide (g = 0)) as [-> | Hne]; [rewrite H0 by done; by vm_compute |].
  destruct (Hpos ltac:(lia)) as (Hr & Hcov & Hlow).
  assert (Hle : i <= 253).
  { destruct (Z.le_gt_cases i 253); [done |]. exfalso. assert (Hl : long_level 253 <= long_level (i - 1)).
    { destruct (decide (i - 1 = 253)) as [-> |]; [done |]. pose proof (long_increasing 253 (i - 1) ltac:(lia) ltac:(lia)). lia. }
    change (long_level 253) with 81338368 in Hl. lia. }
  unfold overestim_bsr_index. decide_true (0 <? i). rewrite Z.min_l by lia.
  pose proof (long_increasing i (i + 1) ltac:(lia) ltac:(lia)).
  assert (long_level (i + 1) <= long_level 254).
  { destruct (decide (i + 1 = 254)) as [-> |]; [done |]. pose proof (long_increasing (i + 1) 254 ltac:(lia) ltac:(lia)). lia. }
  change (long_level 254) with 162676736 in *. split; [| lia]. destruct Hcov; lia.
Qed.

Lemma short_estim_covers g i b : bsr_index short_level 32 g i → 0 <= g <= 300000 → Z.land b 31 = i →
  ∃ e, estimate_ul_buffer_short_bsr b = Ok e ∧ g <= e.
Proof.
  intros (Hi & H0 & Hpos) Hg Hb. unfold estimate_ul_buffer_short_bsr. cbv zeta. rewrite Hb.
  pose proof (overestim_range i 32 ltac:(lia) ltac:(lia)) as Hr. change (NR_SHORT_BSR_TABLE_SIZE - 1) with (32 - 1).
  rewrite get_short_ok by lia. cbn [mbind res_bind]. eexists. split; [done |].
  set (j := Z.min (overestim_bsr_index i) (32 - 1)) in *.
  assert (Hmax : short_level j <= 300000).
  { destruct (decide (j = 31)) as [-> |]; [done |]. pose proof (short_increasing j 31 ltac:(lia) ltac:(lia)) as Hl.
    change (short_level 31) with 300000 in Hl. lia. }
  assert (Hlow : g <= short_level j).
  { destruct (decide (g = 0)) as [-> | Hne].
    - destruct (decide (j = 0)) as [-> |]; [done |]. pose proof (short_increasing 0 j ltac:(lia) ltac:(lia)) as Hl.
      change (short_level 0) with 0 in Hl. lia.
    - destruct (Hpos ltac:(lia)) as (Hr2 & Hcov & Hprev). unfold j, overestim_bsr_index. decide_true (0 <? i).
      destruct (decide (i = 31)) as [-> |]; [rewrite Z.min_r by lia; change (short_level (32 - 1)) with 300000; lia |].
      rewrite Z.min_l by lia. pose proof (short_increasing i (i + 1) ltac:(lia) ltac:(lia)). destruct Hcov; lia. }
  rewrite as_int_small; lia.
Qed.

(** No overflow, and nothing is missing, with the levels of all groups with data. *)
Lemma estim_sum_covers gs idx : ∀ e, Forall2 (bsr_index long_level 256) gs idx → Forall (λ g, 0 <= g <= max_reported) gs →
  0 <= e → e + zlen gs * 162676736 < 2 ^ 31 →
  e + zsum gs <= estim_sum e (List.filter (λ x, negb (x =? 0)) idx).
Proof.
  intros e Hg. revert e. induction Hg as [| g i gs idx Hgi Hg IH]; intros e Hm He Hsum; [simpl; lia |].
  apply Forall_cons in Hm as [Hm1 Hm]. rewrite zlen_cons in Hsum. pose proof (zlen_nonneg gs).
  destruct (level_estim_covers g i Hgi Hm1) as (Hc & Hz). simpl. destruct (Z.eqb_spec i 0) as [-> | Hne]; simpl negb; cbv iota.
  - rewrite Hz by done. rewrite Z.add_0_l. apply IH; (done || lia).
  - simpl. rewrite as_int_small by lia. specialize (IH (e + level_estim i) Hm ltac:(lia) ltac:(lia)). lia.
Qed.

(** ** Uplink MAC PDU: the block that the UE builds *)

(** ** Before the SDUs *)

(** [LCG_bytes] has the bytes of the groups. *)
Definition lcg_ok (m : ue_ul_t) (LCG_bytes : list Z) : Prop :=
  zlen LCG_bytes = 8 ∧ Forall is_u32 LCG_bytes ∧ ∀ g, 0 <= g < 8 → znth LCG_bytes g = Some (u32 (group_bytes m g)).

(** The same channels, with the same buffers. *)
Definition same_channels (m m' : ue_ul_t) : Prop := lcs m' = lcs m ∧ lc_sched_info m' = lc_sched_info m.

Lemma chan_bytes_frame m m' g x : lc_sched_info m' = lc_sched_info m → chan_bytes m' g x = chan_bytes m g x.
Proof. intros E. unfold chan_bytes. by rewrite E. Qed.

Lemma group_bytes_frame m m' g : same_channels m m' → group_bytes m' g = group_bytes m g.
Proof.
  intros [E1 E2]. unfold group_bytes. rewrite E1. f_equal. apply List.map_ext. intros x. by apply chan_bytes_frame.
Qed.

Lemma trigger_wf m x : ul_wf m → x ∈ lcs m → ul_wf (trigger_regular_bsr m (lo_lcid x) (lo_sr_DelayTimerApplied x)).
Proof. intros [H1 H2 H3 H4 H5] Hx. constructor; try done. simpl. intros _. by exists x. Qed.

(** A BSR is triggered by any channel that is not suspended. *)
Fixpoint bsr_flag (trig : bool) (active : Z) (l : list nr_lcordered_info_t) : Z :=
  match l with
  | [] => active
  | x :: l => if lo_suspended x then bsr_flag trig active l
              else bsr_flag true (if trig then active else Z.lor NR_BSR_TRIGGER_REGULAR active) l
  end.

Lemma bsr_flag_odd l : ∀ trig active, Z.testbit active 0 = trig → trig = true ∨ Exists (λ x, lo_suspended x = false) l →
  bsr_flag trig active l ≠ 0.
Proof.
  induction l as [| x l IH]; intros trig active Ht Hl; simpl.
  - destruct Hl as [-> | Hl]; [intros -> ; done | by apply Exists_nil in Hl].
  - destruct (lo_suspended x) eqn:Hs.
    + apply IH; [done |]. destruct Hl as [-> | Hl]; [by left |]. apply Exists_cons in Hl as [Hx | Hl]; [congruence | by right].
    + apply IH; [| by left]. destruct trig; [done |]. by rewrite Z.lor_spec.
Qed.

Lemma update_bsr_ok l : ∀ trig m LCG, ul_wf m → (∀ x, x ∈ l → x ∈ lcs m) → zlen LCG = 8 → Forall is_u32 LCG →
  ∃ m' LCG', update_bsr_loop l trig m LCG = Ok (m', LCG') ∧ ul_wf m' ∧ same_channels m m' ∧ phr_info m' = phr_info m ∧
    zlen LCG' = 8 ∧ Forall is_u32 LCG' ∧ BSR_reporting_active m' = bsr_flag trig (BSR_reporting_active m) l ∧
    ∀ g v, 0 <= g < 8 → znth LCG g = Some v → znth LCG' g = Some (u32 (v + zsum (map (chan_bytes m g) l))).
Proof.
  induction l as [| x l IH]; intros trig m LCG Hw Hsub Hz Hu; cbn [update_bsr_loop].
  { exists m, LCG. split_and!; try done. intros g v Hg Hv. simpl. rewrite Z.add_0_r. rewrite Hv. f_equal. unfold u32. symmetry.
    rewrite znth_lookup in Hv by lia. rewrite Forall_lookup in Hu. specialize (Hu _ _ Hv). by apply Z.mod_small. }
  assert (Hx : x ∈ lcs m) by (apply Hsub; by left).
  assert (Hskip : (∀ g, chan_bytes m g x = 0) → ∃ m' LCG', update_bsr_loop l trig m LCG = Ok (m', LCG') ∧ ul_wf m' ∧ same_channels m m' ∧
    phr_info m' = phr_info m ∧ zlen LCG' = 8 ∧ Forall is_u32 LCG' ∧ BSR_reporting_active m' = bsr_flag trig (BSR_reporting_active m) l ∧
    ∀ g v, 0 <= g < 8 → znth LCG g = Some v → znth LCG' g = Some (u32 (v + zsum (map (chan_bytes m g) (x :: l))))).
  { intros H0. destruct (IH trig m LCG Hw ltac:(intros y Hy; apply Hsub; by right) Hz Hu) as (m' & LCG' & -> & H1 & H2 & H3 & H4 & H5 & H5b & H6).
    exists m', LCG'. split_and!; try done. intros g v Hg Hv. simpl. rewrite H0, Z.add_0_l. by apply H6. }
  cbn [bsr_flag]. destruct (lo_suspended x) eqn:Hs; [apply Hskip; intros g; unfold chan_bytes; by rewrite Hs |]. clear Hskip.
  destruct (sched_get m x Hw Hx) as (s & Es & Hrem & Hlcg). pose proof (sched_lookup m x s Hw Hx Es) as Esl. rewrite Es. cbn [mbind res_bind].
  unfold NR_INVALID_LCGID, NR_MAX_NUM_LCGID. decide_false (LCGID s =? 8).
  destruct (znth_is_Some LCG (LCGID s)) as [w Ew]; [lia |]. rewrite Ew. cbn [deref mbind res_bind]. rewrite zset_Ok by lia. cbn [mbind res_bind].
  set (m1 := if trig then m else _). assert (Hm1 : ul_wf m1 ∧ same_channels m m1 ∧ phr_info m1 = phr_info m).
  { unfold m1. destruct trig; [by split_and! | split; [by apply trigger_wf | by split_and!]]. }
  destruct Hm1 as (Hw1 & Hsame & Hphr). destruct Hsame as [Hl1 Hs1].
  destruct (IH true m1 (<[Z.to_nat (LCGID s) := u32 (w + LCID_buffer_remain s)]> LCG)) as (m' & LCG' & -> & H1 & [H2a H2b] & H3 & H4 & H5 & H5b & H6);
    [done | intros y Hy; rewrite Hl1; apply Hsub; by right | by rewrite zlen_insert | apply Forall_insert; [done | apply u32_range] |].
  exists m', LCG'. split_and!; try done; try congruence; [split; congruence | rewrite H5b; unfold m1; by destruct trig |]. intros g v Hg Hv. simpl.
  assert (Hch : map (chan_bytes m1 g) l = map (chan_bytes m g) l) by (apply List.map_ext; intros y; by apply chan_bytes_frame).
  assert (Hx0 : chan_bytes m g x = if LCGID s =? g then LCID_buffer_remain s else 0) by (unfold chan_bytes; by rewrite Hs, Esl).
  rewrite Hx0. destruct (Z.eqb_spec (LCGID s) g) as [<- | Hne].
  - rewrite Ew in Hv. injection Hv as ->. rewrite (H6 _ (u32 (v + LCID_buffer_remain s)) Hg).
    + rewrite Hch. f_equal. unfold u32. rewrite Zplus_mod_idemp_l. f_equal. lia.
    + rewrite znth_insert by lia. by rewrite Z.eqb_refl.
  - rewrite (H6 g v Hg); [rewrite Hch; do 2 f_equal; lia |]. rewrite znth_insert by lia. decide_false (g =? LCGID s). done.
Qed.

(** The octets that are kept free. *)
Definition phr_len (phr : option bytes) : Z := match phr with Some _ => 3 | None => 0 end.
Definition phr_ok (phr : option bytes) : Prop := match phr with Some l => zlen l = 2 | None => True end.

Lemma reserved_ok m buflen LCG : 2 <= buflen → 0 <= reserved_bsr_len m buflen LCG <= buflen.
Proof.
  intros Hb. unfold reserved_bsr_len. destruct (_ =? 0); [lia |]. cbv zeta. pose proof (zlen_nonneg (List.filter (λ x, 0 <? x) LCG)) as Hn.
  change (zlen (List.filter (λ x, 0 <? x) LCG)) with (lcgs_with_data LCG) in Hn.
  destruct ((1 <? lcgs_with_data LCG) && (lcgs_with_data LCG + 3 <=? buflen)) eqn:Hc; [bool_lia |]. case_match; lia.
Qed.

Lemma pre_ok ev m buflen LCG : ul_wf m → 2 <= buflen →
  ∃ tail phr m', nr_ue_get_sdu_mac_ce_pre ev m buflen LCG = (tail, phr, m') ∧ ul_wf m' ∧ same_channels m m' ∧
    phr_ok phr ∧ 0 <= tail ∧ tail + phr_len phr + reserved_bsr_len m buflen LCG = buflen.
Proof.
  intros Hw Hb. unfold nr_ue_get_sdu_mac_ce_pre. cbv zeta. pose proof (reserved_ok m buflen LCG Hb).
  destruct (_ && _) eqn:Hc.
  - eexists _, _, _. split; [done |]. destruct Hw. split_and!; try done; simpl phr_len; bool_lia.
  - exists (buflen - reserved_bsr_len m buflen LCG), None, m. simpl phr_len. split_and!; (done || lia).
Qed.

(** ** After the SDUs *)

Lemma highest_lcg_ok m l : ul_wf m → (∀ x, x ∈ l → x ∈ lcs m) → ∃ g, highest_lcg m l = Ok g ∧ 0 <= g < 8.
Proof.
  intros Hw. induction l as [| x l IH]; intros Hsub; [exists 0; split; [done | lia] |]. cbn [highest_lcg].
  destruct (sched_get m x Hw ltac:(apply Hsub; by left)) as (s & -> & _ & Hg). cbn [mbind res_bind].
  destruct (negb _); [by exists (LCGID s) |]. apply IH. intros y Hy. apply Hsub. by right.
Qed.

(** What a BSR says of the bytes of the groups. *)
Definition bsr_says (LCG_bytes : list Z) (lcg : Z) (bsr : type_bsr_t) : Prop :=
  match bsr with
  | b_none => True
  | b_short s | b_short_trunc s => ∃ n i, znth LCG_bytes lcg = Some n ∧ bsr_index short_level 32 n i ∧ s = i mod 32 + 32 * (lcg mod 8)
  | b_long l | b_long_trunc l => Forall2 (bsr_index long_level 256) LCG_bytes l
  end.

(** When it is the one to send. *)
Definition bsr_fits (LCG_bytes : list Z) (padding_len : Z) (bsr : type_bsr_t) : Prop :=
  match bsr with
  | b_none => padding_len < 2
  | b_short _ => lcgs_with_data LCG_bytes < 2 ∧ 2 <= padding_len
  | b_short_trunc _ => 2 <= lcgs_with_data LCG_bytes ∧ padding_len = 2
  | b_long _ => 2 <= lcgs_with_data LCG_bytes ∧ lcgs_with_data LCG_bytes + 3 <= padding_len
  | b_long_trunc _ => 2 <= lcgs_with_data LCG_bytes ∧ 3 <= padding_len < lcgs_with_data LCG_bytes + 3
  end.

Lemma short_octet_ok LCG lcg : zlen LCG = 8 → Forall is_u32 LCG → 0 <= lcg < 8 →
  ∃ s, short_bsr_octet LCG lcg = Ok s ∧ ∃ n i, znth LCG lcg = Some n ∧ bsr_index short_level 32 n i ∧ s = i mod 32 + 32 * (lcg mod 8).
Proof.
  intros Hz Hu Hl. unfold short_bsr_octet. destruct (znth_is_Some LCG lcg) as [n En]; [lia |]. rewrite En. cbn [deref mbind res_bind].
  assert (Hn : is_u32 n) by (rewrite znth_lookup in En by lia; rewrite Forall_lookup in Hu; by eapply Hu).
  destruct (locate_int_short n Hn) as (i & -> & Hi). cbn [mbind res_bind]. eexists. split; [done |]. by exists n, i.
Qed.

Lemma choose_bsr_ok LCG lcg padding : zlen LCG = 8 → Forall is_u32 LCG → 0 <= lcg < 8 → 0 <= padding →
  ∃ bsr, choose_bsr padding lcg LCG = Ok bsr ∧ bsr_says LCG lcg bsr ∧ bsr_fits LCG padding bsr.
Proof.
  intros Hz Hu Hl Hp. unfold choose_bsr. cbv zeta. destruct (short_octet_ok LCG lcg Hz Hu Hl) as (s & -> & Hs).
  destruct (long_indices_ok LCG Hu) as (idx & -> & Hidx). cbn [mbind res_bind].
  pose proof (zlen_nonneg (List.filter (λ x, 0 <? x) LCG)) as Hn. change (zlen (List.filter (λ x, 0 <? x) LCG)) with (lcgs_with_data LCG) in Hn.
  destruct ((lcgs_with_data LCG <? 2) && (2 <=? padding)) eqn:H1; [exists (b_short s); split_and!; [done | done | split; bool_lia] |].
  assert (Hno : 2 <= lcgs_with_data LCG ∨ padding < 2) by (apply andb_false_iff in H1 as [?%Z.ltb_ge | ?%Z.leb_gt]; auto).
  destruct (Z.leb_spec (lcgs_with_data LCG + 3) padding) as [H2 |]; [exists (b_long idx); split_and!; [done | done | split; lia] |].
  destruct (Z.eqb_spec padding 2) as [-> |]; [exists (b_short_trunc s); split_and!; [done | done | split; lia] |].
  destruct (Z.leb_spec 3 padding); [exists (b_long_trunc idx) | exists b_none]; split_and!; (done || (simpl; lia)).
Qed.

Lemma bsr_actions_ok bsr m : ul_wf m → ∃ m', bsr_actions bsr m = Ok m' ∧ ul_wf m' ∧ same_channels m m'.
Proof.
  intros Hw. assert (H : ∀ m1, ul_wf m1 → same_channels m m1 → ∃ m',
    (if 0 <? regularBSR_trigger_lcid m1 then
       match get_lc_info_from_lcid (lcs m1) (regularBSR_trigger_lcid m1) with
       | None => Exit
       | Some x =>
           if (0 <=? lo_sr_id x) && (lo_sr_id x <? NR_MAX_SR_ID) then
             s ← deref (znth (sr_info m1) (lo_sr_id x));
             l ← zset (sr_info m1) (lo_sr_id x)
                   (s <| sr_pending := false |> <| sr_counter := 0 |> <| prohibitTimer ::= nr_timer_stop |>);
             Ok (m1 <| sr_info := l |>)
           else Ok m1
       end
     else Ok m1) = Ok m' ∧ ul_wf m' ∧ same_channels m m').
  { intros m1 Hw1 Hsame. destruct (Z.ltb_spec 0 (regularBSR_trigger_lcid m1)) as [Ht |]; [| by exists m1].
    destruct (wf_trigger _ Hw1 Ht) as (x & Hx & <-). rewrite (get_lc_info_In _ _ (wf_nodup _ Hw1) Hx). unfold NR_MAX_SR_ID.
    destruct ((0 <=? lo_sr_id x) && (lo_sr_id x <? 8)) eqn:Hb; [| by exists m1]. apply andb_true_iff in Hb as [Hb1%Z.leb_le Hb2%Z.ltb_lt].
    pose proof (wf_sr _ Hw1) as H8. destruct (znth_is_Some (sr_info m1) (lo_sr_id x)) as [s ->]; [lia |]. cbn [deref mbind res_bind].
    rewrite zset_Ok by lia. cbn [mbind res_bind]. eexists. split; [done |]. destruct Hw1. split; [| done]. constructor; try done. simpl. by rewrite zlen_insert. }
  destruct bsr; cbn [bsr_actions]; cbv zeta; [by exists m | apply H..]; destruct Hw; try by constructor; done.
Qed.

(** The control elements as subPDUs. *)
Definition phr_sub (phr : option bytes) : list ul_sub :=
  match phr with Some [b1; b2] => [UlPhr b1 b2] | _ => [] end.

Definition long_sub (lcid : Z) (l : list Z) (room : Z) : list ul_sub :=
  let '(f, o) := long_levels l 0 room in [UlBsrLong lcid (f :: o)].

Definition bsr_sub (bsr : type_bsr_t) (pos mac_ce_end : Z) : list ul_sub :=
  match bsr with
  | b_none => []
  | b_short s => [UlBsrShort UL_SCH_LCID_S_BSR s]
  | b_short_trunc s => [UlBsrShort UL_SCH_LCID_S_TRUNCATED_BSR s]
  | b_long l => long_sub UL_SCH_LCID_L_BSR l (mac_ce_end - (pos + 3))
  | b_long_trunc l => long_sub UL_SCH_LCID_L_TRUNCATED_BSR l (mac_ce_end - (pos + 3))
  end.

Lemma phr_sub_ok phr : phr_ok phr → phr_ce phr = ul_octets (phr_sub phr) ∧ Forall ul_sub_ok (phr_sub phr) ∧ zlen (phr_ce phr) = phr_len phr.
Proof.
  intros Hp. destruct phr as [l |]; [| by split_and!]. destruct l as [| b1 [| b2 [|]]]; simpl in Hp; try done.
  - split_and!; [done | by repeat constructor | done].
  - exfalso. rewrite !zlen_cons in Hp. pose proof (zlen_nonneg l). lia.
Qed.

Lemma indices_range LCG l : Forall2 (bsr_index long_level 256) LCG l → Forall (λ x, 0 <= x < 256) l.
Proof. induction 1 as [| g i gs l (Hi & _) Hl IH]; constructor; [lia | done]. Qed.

Lemma long_sub_ok lcid l room LCG : lcid = UL_SCH_LCID_L_BSR ∨ lcid = UL_SCH_LCID_L_TRUNCATED_BSR → zlen LCG = 8 →
  Forall2 (bsr_index long_level 256) LCG l → 0 <= room →
  Forall ul_sub_ok (long_sub lcid l room) ∧ zlen (ul_octets (long_sub lcid l room)) <= 3 + room ∧
  ∀ pos e, room = e - (pos + 3) → long_bsr_ce lcid l pos e = ul_octets (long_sub lcid l room).
Proof.
  intros Hl Hz HL Hroom. pose proof (indices_range _ _ HL) as Hr. apply Forall2_length in HL as Hlen.
  assert (Hz8 : zlen l = 8) by (unfold zlen in *; lia). unfold long_sub, long_bsr_ce.
  destruct (long_levels l 0 room) as [f o] eqn:E. destruct (long_levels_ok l 0 room f o Hr ltac:(lia) E) as (_ & Hzo & Hzl & _ & _).
  pose proof (zlen_nonneg o). split_and!.
  - constructor; [| done]. split_and!; [done | rewrite zlen_cons; lia |]. exists (estim_sum 0 o). by apply (long_bsr_read l room).
  - rewrite ul_octets_one. change (ul_sub_octets (UlBsrLong lcid (f :: o))) with (NR_MAC_SUBHEADER_SHORT lcid (zlen (f :: o)) ++ f :: o).
    rewrite zlen_app, zlen_cons. change (zlen (NR_MAC_SUBHEADER_SHORT _ _)) with 2. lia.
  - intros pos e <-. rewrite E. rewrite ul_octets_one. change (ul_sub_octets (UlBsrLong lcid (f :: o))) with (NR_MAC_SUBHEADER_SHORT lcid (zlen (f :: o)) ++ f :: o).
    by rewrite zlen_cons.
Qed.

Lemma bsr_sub_ok bsr LCG lcg pos e padding : zlen LCG = 8 → bsr_says LCG lcg bsr → bsr_fits LCG padding bsr → padding = e - pos → 0 <= padding →
  bsr_ce bsr pos e = ul_octets (bsr_sub bsr pos e) ∧ Forall ul_sub_ok (bsr_sub bsr pos e) ∧ zlen (ul_octets (bsr_sub bsr pos e)) <= padding.
Proof.
  intros Hz Hs Hf Hp H0. pose proof (zlen_nonneg (List.filter (λ x, 0 <? x) LCG)) as Hn.
  change (zlen (List.filter (λ x, 0 <? x) LCG)) with (lcgs_with_data LCG) in Hn. destruct bsr as [| l | s | s | l]; simpl in Hs, Hf.
  - split_and!; [done | constructor | done].
  - destruct (long_sub_ok UL_SCH_LCID_L_BSR l (e - (pos + 3)) LCG) as (H1 & H2 & H3); [by left | done | done | lia |].
    split_and!; [by apply H3 | done | simpl; lia].
  - split_and!; [done | constructor; [by left | done] | change (zlen (ul_octets _)) with 2; lia].
  - split_and!; [done | constructor; [by right | done] | change (zlen (ul_octets _)) with 2; lia].
  - destruct (long_sub_ok UL_SCH_LCID_L_TRUNCATED_BSR l (e - (pos + 3)) LCG) as (H1 & H2 & H3); [by right | done | done | lia |].
    split_and!; [by apply H3 | done | simpl; lia].
Qed.

Lemma put_sub xs rest o ys : o = ul_octets ys → zlen o <= zlen rest →
  ∃ rest', put_octets (ul_octets xs ++ rest) (zlen (ul_octets xs)) o = Ok (ul_octets (xs ++ ys) ++ rest', zlen (ul_octets (xs ++ ys))) ∧
    zlen (ul_octets (xs ++ ys)) = zlen (ul_octets xs) + zlen o ∧ zlen o + zlen rest' = zlen rest.
Proof.
  intros -> Hl. destruct (split_front rest (zlen (ul_octets ys))) as (old & post & -> & Ho); [pose proof (zlen_nonneg (ul_octets ys)); lia |].
  exists post. rewrite put_octets_mid by done. rewrite ul_octets_app, <- app_assoc, !zlen_app. split_and!; [done | done | lia].
Qed.

Definition bsr_sent (bsr : type_bsr_t) : bool := match bsr with b_none => false | _ => true end.

Lemma post_ok m xs rest buflen phr LCG :
  ul_wf m → lcg_ok m LCG → phr_ok phr → zlen (ul_octets xs) + phr_len phr <= buflen < 2 ^ 32 → buflen <= zlen (ul_octets xs) + zlen rest →
  ∃ lcg bsr pos rest' m',
    nr_ue_get_sdu_mac_ce_post m (ul_octets xs ++ rest) (zlen (ul_octets xs)) buflen phr LCG =
      Ok (bsr_sent bsr, bsr, ul_octets (xs ++ phr_sub phr ++ bsr_sub bsr pos buflen) ++ rest',
          zlen (ul_octets (xs ++ phr_sub phr ++ bsr_sub bsr pos buflen)), m') ∧
    ul_wf m' ∧ same_channels m m' ∧ highest_lcg m (lcs m) = Ok lcg ∧ 0 <= lcg < 8 ∧
    pos = zlen (ul_octets xs) + phr_len phr ∧
    bsr_says LCG lcg bsr ∧ bsr_fits LCG (buflen - pos) bsr ∧ Forall ul_sub_ok (phr_sub phr ++ bsr_sub bsr pos buflen) ∧
    zlen (ul_octets (xs ++ phr_sub phr ++ bsr_sub bsr pos buflen)) <= buflen ∧
    zlen (ul_octets (xs ++ phr_sub phr ++ bsr_sub bsr pos buflen)) + zlen rest' = zlen (ul_octets xs) + zlen rest.
Proof.
  intros Hw (Hz & Hu & _) Hphr Hlen Hrest. pose proof (zlen_nonneg (ul_octets xs)) as H0.
  destruct (highest_lcg_ok m (lcs m) Hw) as (lcg & Eg & Hg); [done |].
  set (pos := zlen (ul_octets xs) + phr_len phr). assert (Hp0 : 0 <= buflen - pos) by (unfold pos; lia).
  destruct (choose_bsr_ok LCG lcg (buflen - pos) Hz Hu Hg Hp0) as (bsr & Eb & Hsays & Hfits).
  destruct (bsr_actions_ok bsr m Hw) as (m' & Em & Hw' & Hsame).
  destruct (phr_sub_ok phr Hphr) as (Hpo & Hpok & Hpl).
  assert (Hpl0 : 0 <= phr_len phr) by (destruct phr; simpl; lia).
  destruct (put_sub xs rest (phr_ce phr) (phr_sub phr) Hpo) as (rest1 & E1 & Hz1 & Hr1); [lia |].
  destruct (bsr_sub_ok bsr LCG lcg pos buflen (buflen - pos) Hz Hsays Hfits eq_refl Hp0) as (Hbo & Hbok & Hbl).
  destruct (put_sub (xs ++ phr_sub phr) rest1 (bsr_ce bsr pos buflen) (bsr_sub bsr pos buflen) Hbo) as (rest2 & E2 & Hz2 & Hr2);
    [rewrite Hbo; lia |]. rewrite <- app_assoc in E2, Hz2.
  exists lcg, bsr, pos, rest2, m'. split.
  { unfold nr_ue_get_sdu_mac_ce_post. rewrite Eg. cbn [mbind res_bind]. cbv zeta.
    change (match phr with Some _ => 3 | None => 0 end) with (phr_len phr).
    assert (u32 (buflen - zlen (ul_octets xs) - phr_len phr) = buflen - pos) as ->.
    { unfold pos in *. unfold u32. rewrite Z.mod_small by lia. lia. }
    rewrite Eb. cbn [mbind res_bind]. rewrite Em. cbn [mbind res_bind]. unfold nr_write_ce_ulsch_pdu. rewrite E1. cbn [mbind res_bind].
    assert (Hpos : zlen (ul_octets (xs ++ phr_sub phr)) = pos) by (unfold pos; lia). rewrite Hpos in E2 |- *. rewrite E2. done. }
  split_and!; try done; try (apply Forall_app; by split); rewrite ?Hbo in *; lia.
Qed.

(** ** The padding *)

Lemma ul_padding_ok ev xs rest buflen :
  zlen (ul_octets xs) <= buflen <= zlen (ul_octets xs) + zlen rest → buflen <= 65536 →
  ∃ buf pad, ul_padding ev (ul_octets xs ++ rest) (zlen (ul_octets xs)) buflen = Ok buf ∧
    take (Z.to_nat buflen) buf = ul_octets xs ++ pad ∧ ul_pad_ok pad ∧ zlen (ul_octets xs) + zlen pad = buflen ∧
    zlen buf = zlen (ul_octets xs) + zlen rest.
Proof.
  intros Hb Hmax. pose proof (zlen_nonneg (ul_octets xs)). unfold ul_padding.
  destruct (Z.eqb_spec (buflen - zlen (ul_octets xs)) 0) as [He | Hne].
  { eexists _, []. split; [done |]. rewrite app_nil_r, zlen_app, zlen_nil. split_and!; try done; try lia.
    apply take_app_length'. unfold zlen in *. lia. }
  set (k := buflen - zlen (ul_octets xs) - 1). destruct (split_front rest 1) as (o1 & r1 & -> & Ho1); [lia |]. rewrite zlen_app in *.
  rewrite put_octets_mid by done. cbn [mbind res_bind]. set (hd := NR_MAC_SUBHEADER_FIXED UL_SCH_LCID_PADDING).
  change (zlen hd) with 1. replace (buflen - (zlen (ul_octets xs) + 1)) with k by (unfold k; lia).
  set (data := if ue_test ev then _ else _). assert (Hk : zlen data = k).
  { unfold data, zlen. destruct (ue_test ev); rewrite ?length_map, ?length_seq, ?length_replicate; lia. }
  destruct (split_front r1 k) as (o2 & r2 & -> & Ho2); [lia |]. rewrite zlen_app in *.
  replace (ul_octets xs ++ hd ++ o2 ++ r2) with ((ul_octets xs ++ hd) ++ o2 ++ r2) by by rewrite <- app_assoc.
  assert (Hz1 : zlen (ul_octets xs ++ hd) = zlen (ul_octets xs) + 1) by by rewrite zlen_app. rewrite <- Hz1.
  rewrite put_octets_mid by lia. cbn [mbind res_bind]. exists ((ul_octets xs ++ hd) ++ data ++ r2), (hd ++ data). split; [done |].
  rewrite !zlen_app. change (zlen hd) with 1. split_and!; [| | lia | lia].
  - rewrite <- !app_assoc, (app_assoc hd), (app_assoc (ul_octets xs)). apply take_app_length'. rewrite !length_app. unfold zlen in *. simpl. lia.
  - split; [done |]. change (zlen data <= 65535). lia.
Qed.

(** ** The whole block *)

Lemma select_ok m l : ul_wf m → (∀ x, x ∈ l → x ∈ lcs m) →
  ∃ a, select_logical_channels m l = Ok a ∧ a `sublist_of` l ∧ Forall (λ x, lo_suspended x = false) a.
Proof.
  intros Hw. induction l as [| x l IH]; intros Hsub; [by exists [] |]. cbn [select_logical_channels].
  destruct IH as (a & -> & Ha & Hf); [intros y Hy; apply Hsub; by right |].
  destruct (lo_suspended x) eqn:Hs; [exists a; split_and!; [done | by apply sublist_cons | done] |].
  destruct (sched_get m x Hw ltac:(apply Hsub; by left)) as (s & -> & _). cbn [mbind res_bind]. eexists. split; [done |].
  destruct (0 <? Bj s); split_and!; [by apply sublist_skip | by constructor | by apply sublist_cons | done].
Qed.

Section block.
Context {E : Type} `{TL : RlcTickLaws E}.

(** What the UE needs to build a block: equal priorities only with a bit rate of at least half of it. *)
Record ul_ready (ev : ue_env) (m : ue_ul_t) (rlc : nr_rlc_ue_t E) (buffer : bytes) (buflen : Z) : Prop := {
  ur_wf : ul_wf m;
  ur_some : lcs m ≠ [];
  ur_prio : NoDup (map lo_priority (lcs m)) ∨ ∀ x, x ∈ lcs m → buflen <= 2 * lo_pbr x;
  ur_len : 2 <= buflen <= 65535;
  ur_buf : buflen <= zlen buffer;
  ur_rlc : ∀ x, x ∈ lcs m → lc_ready (ue_now ev) rlc (lo_lcid x);
  ur_size : rlc_size_ok buflen
}.

(** The block: SDUs, then control elements, then padding. *)
Record ul_block (ev : ue_env) (m : ue_ul_t) (rlc : nr_rlc_ue_t E) (buflen : Z) (buf : bytes) (m' : ue_ul_t) (rlc' : nr_rlc_ue_t E)
    (sdus : list ul_sub) (phr : option bytes) (bsr : type_bsr_t) (pad : bytes) : Prop := {
  ub_octets : take (Z.to_nat buflen) buf =
    ul_octets (sdus ++ phr_sub phr ++ bsr_sub bsr (zlen (ul_octets sdus) + phr_len phr) buflen) ++ pad;
  ub_len : zlen (ul_octets (sdus ++ phr_sub phr ++ bsr_sub bsr (zlen (ul_octets sdus) + phr_len phr) buflen)) + zlen pad = buflen;
  ub_pad : ul_pad_ok pad;
  ub_sdus : Forall is_sdu sdus;
  ub_ces : Forall ul_sub_ok (phr_sub phr ++ bsr_sub bsr (zlen (ul_octets sdus) + phr_len phr) buflen);
  ub_pulls : rlc_pulls (open_lcids (lcs m)) (ue_now ev) (ue_now_us ev) rlc (map sub_pdu sdus) rlc';
  ub_wf : ul_wf m';
  ub_mono : ∀ g, group_bytes m' g <= group_bytes m g;
  ub_room : ∃ m1 LCG1, lcg_ok m LCG1 ∧ ((∃ x, x ∈ lcs m ∧ lo_suspended x = false) → BSR_reporting_active m1 ≠ 0) ∧
    zlen (ul_octets sdus) + phr_len phr + reserved_bsr_len m1 buflen LCG1 <= buflen;
  ub_bsr : ∃ LCG lcg, lcg_ok m' LCG ∧ highest_lcg m' (lcs m') = Ok lcg ∧ 0 <= lcg < 8 ∧ bsr_says LCG lcg bsr ∧
    bsr_fits LCG (buflen - (zlen (ul_octets sdus) + phr_len phr)) bsr
}.

Lemma highest_lcg_frame m m' l : lc_sched_info m' = lc_sched_info m → highest_lcg m' l = highest_lcg m l.
Proof using.
  clear. intros E0. induction l as [| x l IH]; [done |]. cbn [highest_lcg]. unfold get_scheduling_info_from_lcid. rewrite E0, IH. done.
Qed.

Lemma get_sdu_ok ev m rlc buffer buflen : ul_ready ev m rlc buffer buflen →
  ∃ buf m' rlc' sdus phr bsr pad,
    nr_ue_get_sdu ev m rlc buffer buflen = Ok (0 <? zlen sdus, bsr_sent bsr, buf, m', rlc') ∧
    ul_block ev m rlc buflen buf m' rlc' sdus phr bsr pad ∧ zlen buf = zlen buffer ∧ lcs m' = lcs m.
Proof using TL.
  intros [Hw Hsome Hprio Hlen Hbuf Hrlc Hsize]. unfold nr_ue_get_sdu, nr_update_bsr.
  destruct (update_bsr_ok (lcs m) (Z.testbit (BSR_reporting_active m) 0) m (replicate 8 0) Hw) as (m1 & LCG & -> & Hw1 & Hs1 & _ & Hz & Hu & Hflag & Hgr);
    [done | done | by apply (Forall_replicate _ 8 0) |]. cbn [mbind res_bind].
  assert (Hlcg1 : lcg_ok m1 LCG).
  { split_and!; [done | done |]. intros g Hg. rewrite (group_bytes_frame m m1 g Hs1). rewrite (Hgr g 0 Hg); [done |].
    rewrite znth_lookup by lia. apply (lookup_replicate_2 8 0). lia. }
  destruct (pre_ok ev m1 buflen LCG Hw1) as (tail & phr & m2 & -> & Hw2 & Hs2 & Hphr & Ht0 & Ht); [lia |]. pose proof (reserved_ok m1 buflen LCG ltac:(lia)) as Hres.
  destruct Hs1 as [Hs1a Hs1b], Hs2 as [Hs2a Hs2b]. assert (HL : lcs m2 = lcs m) by congruence.
  assert (Hmatch : ∀ {A} (a b : A), match lcs m2 with [] => a | _ => b end = b).
  { intros A a b. destruct (lcs m2); [congruence | done]. }
  rewrite Hmatch. clear Hmatch.
  destruct (select_ok m2 (lcs m2) Hw2) as (active & -> & Hsub & Hact); [done |]. cbn [mbind res_bind].
  set (st0 := mk_lcp buffer 0 0 (replicate 32 true) m2 rlc LCG 0 []).
  assert (Hpl : 0 <= phr_len phr) by (destruct phr; simpl; lia).
  assert (Hi0 : lcp_inv ev tail (zlen buffer) (lcs m2) rlc (group_bytes m2) [] [] (st0 <| lp_tot := replicate 32 0 |>)).
  { constructor; try done; try lia.
    - by exists buffer.
    - simpl. intros g Hg. rewrite (group_bytes_frame m1 m2 g) by done. by apply Hlcg1.
    - apply (Forall_replicate _ 32 0). simpl. lia.
    - intros x Hx. apply Hrlc. by rewrite <- HL.
    - constructor. }
  destruct (rounds_ok ev tail (zlen buffer) (lcs m2) rlc (group_bytes m2) ltac:(lia) ltac:(lia) ltac:(apply (rlc_size_mono _ buflen); [lia | done])) with
    (active := active) (fuel := Z.to_nat (buflen + 34)) (k := @nil (Z * bytes)) (xs := @nil ul_sub) (st := st0) as (st & l & sdus & -> & Hi); try done.
  { destruct Hprio as [Hp | Hp]; [left; by rewrite HL | right; rewrite HL; intros x Hx; specialize (Hp x Hx); lia]. }
  { unfold mu, st0. simpl lp_cur. simpl lp_status. pose proof (trues_bound (replicate 32 true)) as Htb. change (zlen (replicate 32 true)) with 32 in Htb.
    simpl replicate in Htb. lia. }
  cbn [mbind res_bind]. destruct Hi as [A1 A2 [rest A3] A4 A5 A6 A7 A8 A9 A10 A11 A12 AG AM A13 A14 A15 A16].
  rewrite A3, zlen_app in A4. rewrite A3, A5.
  destruct (post_ok (lp_ue st) sdus rest buflen phr (lp_LCG_bytes st) A1) as (lcg & bsr & pos & rest' & m3 & -> & Hw3 & Hs3 & Ehl & Hlcg & -> & Hsays & Hfits & Hces & Hend & Htot);
    [done | done | lia | lia |]. cbn [mbind res_bind].
  destruct (ul_padding_ok ev (sdus ++ phr_sub phr ++ bsr_sub bsr (zlen (ul_octets sdus) + phr_len phr) buflen) rest' buflen)
    as (buf & pad & -> & Htk & Hpad & Hpz & Hbz); [lia | lia |]. cbn [mbind res_bind].
  exists buf, m3, (lp_rlc st), sdus, phr, bsr, pad. rewrite A9. destruct Hs3 as [Hs3a Hs3b]. split_and!; [done | | lia | congruence].
  assert (Hm2 : ∀ g, group_bytes m2 g = group_bytes m g) by (intros g; apply group_bytes_frame; split; congruence).
  constructor; try done; [by rewrite A8, <- HL | | |].
  { intros g. rewrite (group_bytes_frame (lp_ue st) m3 g) by done. rewrite <- Hm2. apply AM. }
  { exists m1, LCG. split; [| split; [| lia]].
    - destruct Hlcg1 as (? & ? & Hg1). split_and!; [done | done |]. intros g Hg. rewrite Hg1 by done. by rewrite (group_bytes_frame m m1) by done.
    - intros (x & Hx & Hsx). rewrite Hflag. apply bsr_flag_odd; [done |]. right. apply Exists_exists. by exists x. }
  exists (lp_LCG_bytes st), lcg. split_and!; try done; try lia.
  - split; [done | split; [done |]]. intros g Hg. rewrite (group_bytes_frame (lp_ue st) m3 g) by done. by apply AG.
  - rewrite Hs3a, (highest_lcg_frame (lp_ue st) m3) by done. exact Ehl.
Qed.
End block.
