(* ===== verification/MacUmUplink.v ===== *)
(** * UM bearer over MAC, uplink: from the RLC of the UE to the RLC of the gNB

    The composition of the uplink MAC PDU ([MacUlBlock], [MacUlGnb]) with the transfer between two
    UM entities ([RlcUmTransfer]). *)

From S2P Require Import Prelude RlcPdu RlcEntity RlcUm RlcUmTx RlcUmRx RlcUmProps RlcUmLink RlcUmTransfer.
From S2P Require Import RlcApi RlcApiLaws MacPdu MacDl MacBsr MacUeRx MacDlGnb MacUmTransfer.
From S2P Require Import MacUlRx MacUlLcp MacUlGnb MacUlFill MacUlRounds MacUlBlock.

(** ** The requests of one block *)

Section pulls.
Context (c now now_us now' : Z) (sent : list bytes).

(** A request gives the SDUs of the link to the block, from where they reach the receiver. *)
Lemma request_deliver u sa a v s b done ws pos size buf p n buf' u1 :
  bearer u c sa a → bearer v c s b → link_inv 6 (mk_link a b sent) done ws pos → 0 <= size → 0 <= p → p + size <= zlen buf →
  nr_mac_rlc_data_req now now_us u c size buf p = Ok (n, buf', u1) →
  ∃ a' done' ws' pos', bearer u1 c sa a' ∧
    if n =? 0 then link_inv 6 (mk_link a' b sent) done' ws' pos'
    else ∃ o b', buf' = take (Z.to_nat p) buf ++ o ∧ link_inv 6 (mk_link a' b' sent) done' ws' pos' ∧
      ∀ l, rlc_receive now' v ((c, take (Z.to_nat n) o) :: l) = rlc_receive now' (rb_put v s b') l.
Proof.
  intros Hu Hv Hi Hs0 Hp Hroom Hreq. unfold nr_mac_rlc_data_req in Hreq. rewrite (bearer_entity _ _ _ _ Hu) in Hreq.
  cbn [mbind res_bind] in Hreq. simpl (rb_set_time _ _) in Hreq. simpl (rb_generate_pdu _ _ _ _) in Hreq. inv_bind Hreq.
  inv_bind Hreq. destruct a1 as [[n1 o] a2]. injection Hreq as <- <- <-. rename a0 into a1.
  destruct (tick_tx_ok 6 _ now done ws pos Hi) as (k1 & E1 & Hi1). simpl in E1. rewrite E in E1. injection E1 as <-.
  destruct (tick_rx_ok 6 _ now' done ws pos Hi1) as (k2 & E2 & Hi2). simpl in E2. inv_bind E2. injection E2 as <-. rename a0 into b1.
  assert (Hd : size <= zlen (drop (Z.to_nat p) buf)) by (unfold zlen in *; rewrite length_drop; lia).
  assert (Hloss : um_lossy a1 size = false).
  { apply not_lossy. intros H12. pose proof (li_len _ _ _ _ _ Hi1) as H6. simpl in H6. lia. }
  destruct (Z.eqb_spec n1 0) as [-> | Hne].
  - destruct (grant_safe 6 _ (drop (Z.to_nat p) buf) size now_us done ws pos Hi1 Hd Hloss) as (k3 & done' & ws' & pos' & E3 & Hi3 & _).
    simpl in E3. rewrite E0 in E3. simpl in E3. injection E3 as <-. exists a2, done', ws', pos'. split; [by eapply bearer_put | done].
  - destruct (grant_safe 6 _ (drop (Z.to_nat p) buf) size now_us done ws pos Hi2 Hd Hloss) as (k3 & done' & ws' & pos' & E3 & Hi3 & _).
    simpl in E3. rewrite E0 in E3. cbn [mbind res_bind] in E3. revert E3. decide_false (n1 =? 0). intros E3. inv_bind E3. injection E3 as <-.
    exists a2, done', ws', pos'. split; [by eapply bearer_put |]. exists o, a0. split_and!; [done | done |]. intros l. simpl.
    rewrite (bearer_entity _ _ _ _ Hv). cbn [mbind res_bind]. simpl (rb_set_time _ _). rewrite E1. cbn [mbind res_bind].
    simpl (rb_recv_pdu _ _). rewrite E2. done.
Qed.

Lemma pulls_deliver u l u' : rlc_pulls [c] now now_us u l u' →
  ∀ sa a v s b done ws pos, bearer u c sa a → bearer v c s b → link_inv 6 (mk_link a b sent) done ws pos →
  ∃ a', bearer u' c sa a' ∧ delivered_to 6 c now' sent v s l a'.
Proof.
  induction 1 as [u | u c0 size buf p buf' u1 l u2 Hc Hs Hp Hroom Hreq Hpull IH | u c0 size buf p d rest u1 l u2 Hc Hs Hp Hroom Hreq Hpull IH];
    intros sa a v s b done ws pos Hu Hv Hi.
  - exists a. split; [done |]. by exists v, b, done, ws, pos.
  - apply list_elem_of_singleton in Hc as ->.
    destruct (request_deliver u sa a v s b done ws pos _ _ _ _ _ _ Hu Hv Hi Hs Hp Hroom Hreq) as (a' & done' & ws' & pos' & Hu' & Hi').
    by apply (IH sa a' v s b done' ws' pos').
  - apply list_elem_of_singleton in Hc as ->. assert (Hs0 : 0 <= size) by lia.
    destruct (request_deliver u sa a v s b done ws pos _ _ _ _ _ _ Hu Hv Hi Hs0 Hp Hroom Hreq) as (a' & done' & ws' & pos' & Hu' & Hi').
    revert Hi'. decide_false (zlen d =? 0). intros (o & b' & Ho & Hi' & Hrecv). apply app_inv_head in Ho as <-.
    assert (take (Z.to_nat (zlen d)) (d ++ rest) = d) as Hd by (apply take_app_length'; unfold zlen; lia). rewrite Hd in Hrecv.
    destruct (IH sa a' (rb_put v s b') s b' done' ws' pos') as (a3 & Hu3 & v' & b3 & done3 & ws3 & pos3 & E3 & Hv3 & Hi3);
      [done | by eapply bearer_put | done |].
    exists a3. split; [done |]. exists v', b3, done3, ws3, pos3. rewrite Hrecv. done.
Qed.
End pulls.

(** ** A run *)

(** The RLC of the UE, the gNB's side, and the SDUs that the UE accepted. *)
Record ul_link := mk_ul {
  ul_rlc : um_ue;
  ul_gnb : ul_ue_t nr_rlc_entity_um_t;
  ul_sent : list bytes
}.

(** An SDU of PDCP; a transport block that the UE builds, with the state that its MAC has by then,
    received by the gNB (whose memory goes on with [post] after the block). *)
Inductive ul_op :=
| UlSubmit (sdu : bytes) (mui now now_us : Z)
| UlBlock (ev : ue_env) (m : ue_ul_t) (buffer : bytes) (buflen : Z) (gev : ul_env nr_rlc_entity_um_t) (harq_pid : Z) (post : bytes).

Definition ul_exec (d : Z) (k : ul_link) (op : ul_op) : res ul_link :=
  match op with
  | UlSubmit sdu mui now now_us =>
      rlc ← nr_rlc_data_req now now_us (ul_rlc k) false d mui sdu;
      o ← rb_get (ul_rlc k) (Drb (d - 1));
      accepted ← match o with
                 | None => Ok false
                 | Some e => e ← rb_set_time e now; Ok (zlen sdu <=? nr_rlc_entity_um_available_tx_space e)
                 end;
      Ok (mk_ul rlc (ul_gnb k) (if accepted : bool then ul_sent k ++ [sdu] else ul_sent k))
  | UlBlock ev m buffer buflen gev harq_pid post =>
      '(_, _, tb, _, rlc) ← nr_ue_get_sdu ev m (ul_rlc k) buffer buflen;
      gnb ← nr_process_mac_pdu gev harq_pid (take (Z.to_nat buflen) tb ++ post) buflen (ul_gnb k);
      Ok (mk_ul rlc gnb (ul_sent k))
  end.

Fixpoint ul_run (d : Z) (k : ul_link) (ops : list ul_op) : res ul_link :=
  match ops with [] => Ok k | op :: ops => k ← ul_exec d k op; ul_run d k ops end.

(** What the rest of the UE guarantees: one channel, in service, in a group, and a buffer for the block. *)
Definition ul_op_ok (c : Z) (op : ul_op) : Prop :=
  match op with
  | UlSubmit sdu _ _ _ => sdu_ok sdu
  | UlBlock _ m buffer buflen _ _ _ =>
      ul_wf m ∧ (∃ x, lcs m = [x] ∧ lo_lcid x = c ∧ lo_suspended x = false) ∧ 2 <= buflen <= 65535 ∧ buflen <= zlen buffer
  end.

Definition big_ul_block (op : ul_op) : Prop := match op with UlBlock _ _ _ buflen _ _ _ => 2048 <= buflen | _ => False end.

Section run.
Context (c d : Z) (Hc : 1 <= c <= 32) (Hd : 1 <= d <= 32).

Definition ul_inv (k : ul_link) : Prop :=
  ul_ue_ok (ul_gnb k) ∧ lc_ignored (ul_gnb k) c = false ∧
  ∃ a s b done ds pos, bearer (ul_rlc k) c (Drb (d - 1)) a ∧ bearer (gu_rlc (ul_gnb k)) c s b ∧
    link_inv 6 (mk_link a b (ul_sent k)) done ds pos.

Lemma ul_submit_ok k sdu mui now now_us :
  ul_inv k → sdu_ok sdu → ∃ k', ul_exec d k (UlSubmit sdu mui now now_us) = Ok k' ∧ ul_inv k'.
Proof using Hd.
  intros (Hg & Hact & a & s & b & done & ds & pos & Ha & Hb & Hi) Hsdu. simpl. unfold nr_rlc_data_req.
  decide_true ((1 <=? d) && (d <=? 32)). pose proof Ha as [_ Hget]. rewrite Hget. cbn [mbind res_bind].
  destruct (tick_tx_ok 6 _ now done ds pos Hi) as (k1 & E1 & Hi1). simpl in E1. inv_bind E1. injection E1 as <-. rename a0 into a1.
  simpl (rb_set_time _ _). rewrite E. cbn [mbind res_bind].
  destruct (submit_ok 6 _ sdu mui now_us done ds pos Hi1 Hsdu) as (k2 & ds2 & E2 & Hi2). simpl in E2. inv_bind E2.
  injection E2 as <-. rename a0 into a2. simpl (rb_recv_sdu _ _ _ _). rewrite E0. cbn [mbind res_bind]. simpl in Hget. rewrite Hget. cbn [mbind res_bind]. rewrite E. cbn [mbind res_bind].
  eexists. split; [done |]. split; [done |]. split; [done |].
  exists a2, s, b, done, ds2, pos. split; [by eapply bearer_put |]. split; [done |]. exact Hi2.
Qed.

(** What the gNB keeps. *)
Lemma ul_effect_keeps {F} `{RlcEntity F} gev harq xs (ue : ul_ue_t F) : Forall ul_sub_ok xs → ul_ue_ok ue →
  ul_ue_ok (ul_effect gev harq ue xs) ∧ gu_lc_config (ul_effect gev harq ue xs) = gu_lc_config ue.
Proof using.
  clear. intros Hok. revert ue. induction Hok as [| x xs Hx Hok IH]; intros ue Hu; [done |].
  destruct (effect_keeps gev harq x ue Hx Hu) as (Hu' & Hcfg & _). destruct (IH _ Hu') as [H1 H2]. split; [done |].
  change (gu_lc_config (ul_effect gev harq (ul_sub_effect gev harq ue x) xs) = gu_lc_config ue). congruence.
Qed.

(** The SDUs for RLC are those of the SDU subPDUs. *)
Lemma ul_sdus_of {F} (ue : ul_ue_t F) sdus ces : Forall is_sdu sdus → Forall (λ x, match x with UlSdu _ _ _ => False | _ => True end) ces →
  ul_sdus ue (sdus ++ ces) = List.filter (λ q, negb (lc_ignored ue q.1)) (map sub_pdu sdus).
Proof using.
  clear. intros Hs Hces. unfold ul_sdus. rewrite map_app, concat_app.
  assert (concat (map (ul_sub_sdus ue) ces) = []) as ->.
  { induction Hces as [| x ces Hx Hces IH]; [done |]. simpl. rewrite IH. by destruct x. }
  rewrite app_nil_r. induction Hs as [| x sdus [_ Hx] Hs IH]; [done |]. destruct x as [hd lcid o | | |]; [| done..]. simpl. rewrite IH.
  by destruct (lc_ignored ue lcid).
Qed.

Lemma ces_no_sdu phr bsr pos e : Forall (λ x, match x with UlSdu _ _ _ => False | _ => True end) (phr_sub phr ++ bsr_sub bsr pos e).
Proof using.
  clear. apply Forall_app. split.
  - destruct phr as [l |]; [| constructor]. destruct l as [| ? [| ? [|]]]; by repeat constructor.
  - destruct bsr; simpl; unfold long_sub; try (by repeat constructor); destruct (long_levels _ _ _); by repeat constructor.
Qed.

Lemma sdus_room xs : Forall is_sdu xs → 2 * zlen xs <= zlen (ul_octets xs).
Proof using.
  clear. induction 1 as [| x xs [Hx Hs] Hxs IH]; [done |]. change (ul_octets (x :: xs)) with (ul_sub_octets x ++ ul_octets xs).
  rewrite zlen_cons, zlen_app. destruct x as [hd lcid o | | |]; [| done..]. simpl ul_sub_octets. rewrite zlen_app.
  pose proof (zlen_nonneg o). assert (2 <= zlen (sdu_header lcid hd (zlen o))) by (unfold sdu_header; by destruct (hd =? 2)). lia.
Qed.

Lemma pulls_channels u l u' now now_us : rlc_pulls (E:=nr_rlc_entity_um_t) [c] now now_us u l u' → Forall (λ q, q.1 = c) l.
Proof using.
  clear. induction 1 as [| u c0 size buf p buf' u1 l u2 Hc Hs Hp Hroom Hreq Hpull IH | u c0 size buf p d rest u1 l u2 Hc Hs Hp Hroom Hreq Hpull IH];
    [constructor | done |]. apply list_elem_of_singleton in Hc as ->. by constructor.
Qed.

Lemma ul_block_ok k ev m buffer buflen gev harq post :
  ul_inv k → let op := UlBlock ev m buffer buflen gev harq post in ul_op_ok c op →
  (∃ k', ul_exec d k op = Ok k' ∧ ul_inv k') ∨ (ul_exec d k op = Exit ∧ big_ul_block op).
Proof using Hc.
  intros (Hg & Hact & a & sb & b & done & ds & pos & Ha & Hb & Hi) op (Hw & (x & Hlcs & Hxc & Hxs) & Hlen & Hbuf).
  subst op. simpl.
  assert (Hready : ul_ready ev m (ul_rlc k) buffer buflen).
  { constructor; try done; rewrite ?Hlcs; [done | left; repeat constructor; apply not_elem_of_nil |].
    intros y ->%list_elem_of_singleton. rewrite Hxc. destruct Ha as [Hs1 Hs2]. exists (Some (Drb (d - 1))). split; [done |].
    exists (Some a). split; [done |]. split; [apply (li_tx _ _ _ _ _ Hi) | done]. }
  destruct (get_sdu_ok ev m (ul_rlc k) buffer buflen Hready) as (buf & m' & rlc' & sdus & phr & bsr & pad & -> & Hblk & Hzb & _).
  cbn [mbind res_bind]. destruct Hblk as [B1 B2 B3 B4 B5 B6 B7 B8 _ _]. set (ces := phr_sub phr ++ _) in *.
  assert (Hsubs : Forall ul_sub_ok (sdus ++ ces)).
  { apply Forall_app. split; [| done]. eapply Forall_impl; [exact B4 | by intros y [? _]]. }
  pose proof (ul_process_ok gev harq (sdus ++ ces) pad post (ul_gnb k) Hsubs B3 Hg ltac:(lia)) as Hp. cbv zeta in Hp.
  rewrite B2, app_assoc, <- B1 in Hp. rewrite Hp. clear Hp. unfold ces. rewrite ul_sdus_of by (done || apply ces_no_sdu). fold ces.
  assert (Hopen : open_lcids (lcs m) = [c]) by (rewrite Hlcs; unfold open_lcids; simpl; by rewrite Hxs, <- Hxc).
  rewrite Hopen in B6. pose proof (pulls_channels _ _ _ _ _ B6) as Hch.
  assert (Hall : List.filter (λ q, negb (lc_ignored (ul_gnb k) q.1)) (map sub_pdu sdus) = map sub_pdu sdus).
  { clear -Hch Hact. induction Hch as [| q l Hq Hl IH]; [done |]. simpl. rewrite Hq, Hact. simpl. by rewrite IH. }
  rewrite Hall. assert (Hz : zlen (map sub_pdu sdus) = zlen sdus) by (unfold zlen; by rewrite length_map). rewrite Hz.
  pose proof (sdus_room sdus B4) as Hroom. rewrite ul_octets_app, zlen_app in B2. pose proof (zlen_nonneg (ul_octets ces)). pose proof (zlen_nonneg pad).
  destruct (Z.ltb_spec (zlen sdus) MAX_NUM_DATA_IND) as [Hlt | Hge].
  2: { right. split; [done |]. unfold MAX_NUM_DATA_IND in Hge. lia. }
  left. destruct (pulls_deliver c (ue_now ev) (ue_now_us ev) (uv_now gev) (ul_sent k) _ _ _ B6 _ a (gu_rlc (ul_gnb k)) sb b done ds pos Ha Hb Hi)
    as (a' & Ha' & v' & b' & done' & ds' & pos' & E & Hb' & Hi').
  rewrite E. cbn [mbind res_bind]. eexists. split; [done |].
  destruct (ul_effect_keeps gev harq (sdus ++ ces) (ul_gnb k) Hsubs Hg) as [Hg' Hcfg].
  split; [by destruct Hg' |]. split; [unfold lc_ignored in *; simpl; by rewrite Hcfg |].
  exists a', sb, b', done', ds', pos'. done.
Qed.

Lemma ul_run_ok ops : ∀ k, ul_inv k → Forall (ul_op_ok c) ops →
  (∃ k', ul_run d k ops = Ok k' ∧ ul_inv k') ∨ (ul_run d k ops = Exit ∧ Exists big_ul_block ops).
Proof using Hc Hd.
  induction ops as [| op ops IH]; intros k Hi Hops; simpl; [left; by exists k |].
  apply Forall_cons in Hops as [Hop Hops].
  assert (H : (∃ k', ul_exec d k op = Ok k' ∧ ul_inv k') ∨ (ul_exec d k op = Exit ∧ big_ul_block op)).
  { destruct op as [sdu mui now now_us | ev m buffer buflen gev harq post]; [left; by apply ul_submit_ok | by apply ul_block_ok]. }
  destruct H as [(k1 & -> & Hi1) | [-> Hbig]]; cbn [mbind res_bind]; [| right; split; [done | by left]].
  destruct (IH k1 Hi1 Hops) as [? | [? ?]]; [by left | right; split; [done | by right]].
Qed.
End run.
