(* ===== verification/MacUlReport.v ===== *)
(** * Uplink MAC PDU: the buffer status that the gNB learns

    With enough room in the block, the BSR that the UE chooses makes the gNB's estimate at least what
    the channels of the UE still have to send. *)

From S2P Require Import Prelude RlcEntity RlcApi RlcApiLaws.
From S2P Require Import MacPdu MacDl MacBsr MacUeRx MacDlGnb MacUlRx MacUlLcp MacUlGnb MacUlFill MacUlRounds MacUlBlock.

(** ** Sums over the groups *)

(** What the channels of the eight groups have to send. *)
Definition all_bytes (m : ue_ul_t) : Z := zsum (map (group_bytes m) (seqZ 0 8)).

Lemma zsum_nonneg l : Forall (λ x, 0 <= x) l → 0 <= zsum l.
Proof. induction 1; simpl; lia. Qed.

Lemma zsum_zero {A} (f : A → Z) l : (∀ x, x ∈ l → f x = 0) → zsum (map f l) = 0.
Proof.
  induction l as [| x l IH]; intros Hf; [done |]. simpl. rewrite (Hf x) by by left. apply IH. intros y Hy. apply Hf. by right.
Qed.

Lemma chan_bytes_nonneg m g x : ul_wf m → x ∈ lcs m → 0 <= chan_bytes m g x.
Proof.
  intros Hw Hx. destruct (wf_lcs _ Hw x Hx) as (_ & _ & _ & s & E & Hs & _). unfold chan_bytes. rewrite E.
  repeat case_match; lia.
Qed.

Lemma group_bytes_nonneg m g : ul_wf m → 0 <= group_bytes m g.
Proof.
  intros Hw. apply zsum_nonneg, Forall_map, Forall_forall. intros x Hx. by apply chan_bytes_nonneg.
Qed.

Lemma zsum_member l x : Forall (λ x, 0 <= x) l → x ∈ l → x <= zsum l.
Proof.
  induction 1 as [| y l Hy Hl IH]; [by intros ?%elem_of_nil |]. simpl. apply zsum_nonneg in Hl.
  intros [-> | Hx]%elem_of_cons; [lia | specialize (IH Hx); lia].
Qed.

Lemma lcgs_cons x l : lcgs_with_data (x :: l) = (if 0 <? x then 1 else 0) + lcgs_with_data l.
Proof. unfold lcgs_with_data. simpl. destruct (0 <? x); [by rewrite zlen_cons | done]. Qed.

Lemma lcgs_nonneg l : 0 <= lcgs_with_data l.
Proof. apply zlen_nonneg. Qed.

Lemma lcgs_none l : Forall (λ x, 0 <= x) l → lcgs_with_data l = 0 ↔ zsum l = 0.
Proof.
  induction 1 as [| x l Hx Hl IH]; [done |]. rewrite lcgs_cons. simpl. pose proof (lcgs_nonneg l).
  apply zsum_nonneg in Hl. destruct (Z.ltb_spec 0 x); lia.
Qed.

(** One group with data: it has all of it. *)
Lemma lcgs_one l x : Forall (λ x, 0 <= x) l → lcgs_with_data l < 2 → x ∈ l → 0 < x → zsum l = x.
Proof.
  induction 1 as [| y l Hy Hl IH]; [by intros _ ?%elem_of_nil |]. rewrite lcgs_cons. intros Hn Hx Hpos. simpl.
  pose proof (lcgs_nonneg l). pose proof (lcgs_none l Hl) as Hz. pose proof (zsum_nonneg l Hl).
  apply elem_of_cons in Hx as [-> | Hx].
  - revert Hn. decide_true (0 <? y). intros Hn. lia.
  - pose proof (zsum_member l x Hl Hx). destruct (Z.ltb_spec 0 y); [lia |]. rewrite IH; (done || lia).
Qed.

(** A group with less to send. *)
Lemma lcgs_mono l l' : Forall2 Z.le l l' → lcgs_with_data l <= lcgs_with_data l'.
Proof.
  induction 1 as [| x y l l' Hxy Hl IH]; [done |]. rewrite !lcgs_cons. destruct (Z.ltb_spec 0 x), (Z.ltb_spec 0 y); lia.
Qed.

(** [LCG_bytes] without overflow. *)
Lemma lcg_list m LCG : ul_wf m → lcg_ok m LCG → (∀ g, group_bytes m g <= 300000) →
  LCG = map (group_bytes m) (seqZ 0 8).
Proof.
  intros Hw (Hz & _ & Hg) Hmax. apply list_eq_same_length with 8%nat; [by rewrite length_map, length_seqZ | unfold zlen in Hz; lia |].
  intros i x y Hi Hx Hy. specialize (Hg (Z.of_nat i) ltac:(lia)). rewrite znth_lookup in Hg by lia. rewrite Nat2Z.id, Hx in Hg.
  pose proof (group_bytes_nonneg m (Z.of_nat i) Hw). specialize (Hmax (Z.of_nat i)).
  unfold u32 in Hg. rewrite Z.mod_small in Hg by lia. injection Hg as ->.
  revert Hy. clear -Hi. do 8 (destruct i as [| i]; [by intros [= <-] |]). lia.
Qed.

(** ** The group of a short BSR *)

(** All channels in service: the group of the first channel with data, if there is one. *)
Lemma highest_lcg_data m g : ul_wf m → (∀ x, x ∈ lcs m → lo_suspended x = false) → highest_lcg m (lcs m) = Ok g → 0 <= g < 8 →
  0 < group_bytes m g ∨ all_bytes m = 0.
Proof.
  intros Hw Hopen Hg Hr.
  assert (H : ∀ l, (∀ x, x ∈ l → x ∈ lcs m) → highest_lcg m l = Ok g →
    (∃ x, x ∈ l ∧ 0 < chan_bytes m g x) ∨ ∀ g' x, x ∈ l → chan_bytes m g' x = 0).
  { clear Hg. induction l as [| x l IH]; intros Hsub Hg; [by right; intros ? ? ?%elem_of_nil |].
    assert (Hx : x ∈ lcs m) by (apply Hsub; by left). cbn [highest_lcg] in Hg.
    destruct (sched_get m x Hw Hx) as (s & Es & Hrem & _). pose proof (sched_lookup m x s Hw Hx Es) as Esl. rewrite Es in Hg.
    cbn [mbind res_bind] in Hg. assert (Hc : ∀ g', chan_bytes m g' x = if LCGID s =? g' then LCID_buffer_remain s else 0).
    { intros g'. unfold chan_bytes. by rewrite (Hopen x Hx), Esl. }
    destruct (Z.eqb_spec (LCID_buffer_remain s) 0) as [H0 | Hne]; simpl in Hg.
    - destruct IH as [(y & Hy & Hyc) | Hall]; [intros y Hy; apply Hsub; by right | done | left; exists y; split; [by right | done] | right].
      intros g' y [-> | Hy]%elem_of_cons; [rewrite Hc, H0; by destruct (_ =? _) | by apply Hall].
    - injection Hg as <-. left. exists x. split; [by left |]. rewrite Hc, Z.eqb_refl. lia. }
  destruct (H (lcs m)) as [(x & Hx & Hpos) | Hall]; [done | done | left | right].
  - unfold group_bytes. pose proof (zsum_member (map (chan_bytes m g) (lcs m)) (chan_bytes m g x)) as Hm.
    assert (chan_bytes m g x <= zsum (map (chan_bytes m g) (lcs m))); [| lia].
    apply Hm; [| by apply list_elem_of_fmap_2]. apply Forall_map, Forall_forall. intros y Hy. by apply chan_bytes_nonneg.
  - apply zsum_zero. intros g' _. apply zsum_zero. intros x Hx. by apply Hall.
Qed.

(** ** The estimate *)

Lemma nonzero_levels gs idx : Forall2 (bsr_index long_level 256) gs idx → Forall (λ x, 0 <= x) gs →
  zlen (List.filter (λ x, negb (x =? 0)) idx) <= lcgs_with_data gs.
Proof.
  induction 1 as [| g i gs idx (Hi & H0 & Hp) Hl IH]; [done |]. intros [Hg Hgs]%Forall_cons. specialize (IH Hgs). rewrite lcgs_cons. simpl.
  destruct (Z.eqb_spec i 0) as [-> | Hne]; simpl.
  - destruct (0 <? g); lia.
  - rewrite zlen_cons. destruct (Z.ltb_spec 0 g); [lia |]. exfalso. apply Hne. apply H0.
    destruct (Z.eq_dec g 0); [done |]. lia.
Qed.

Lemma short_octet_index i lcg : 0 <= i < 32 → 0 <= lcg < 8 → Z.land (i mod 32 + 32 * (lcg mod 8)) 31 = i.
Proof.
  intros Hi Hl. change 31 with (Z.ones 5). rewrite Z.land_ones by lia. rewrite (Z.mod_small i), (Z.mod_small lcg) by lia. change (2 ^ 5) with 32.
  rewrite (Z.mul_comm 32), Z.mod_add by lia. by apply Z.mod_small.
Qed.

Section gnb.
Context {F : Type} `{RlcEntity F}.
Context (gev : ul_env F) (harq_pid : Z).

(** The BSR of a state [m] of the UE covers everything, unless it is truncated or absent. *)
Lemma bsr_covers m LCG lcg bsr pos e (ue : ul_ue_t F) :
  ul_wf m → (∀ x, x ∈ lcs m → lo_suspended x = false) → LCG = map (group_bytes m) (seqZ 0 8) → (∀ g, group_bytes m g <= 300000) →
  highest_lcg m (lcs m) = Ok lcg → 0 <= lcg < 8 → bsr_says LCG lcg bsr → bsr_fits LCG (e - pos) bsr →
  (lcgs_with_data LCG < 2 ∨ lcgs_with_data LCG + 3 <= e - pos) → (bsr = b_none → all_bytes m = 0 ∧ 0 <= estimated_ul_buffer ue) →
  all_bytes m <= estimated_ul_buffer (ul_effect gev harq_pid ue (bsr_sub bsr pos e)).
Proof.
  intros Hw Hopen HL Hmax Hhi Hlcg Hsays Hfits Hroom Hnone.
  assert (Hall : all_bytes m = zsum LCG) by by rewrite HL.
  assert (H0 : Forall (λ x, 0 <= x <= 300000) LCG).
  { rewrite HL. apply Forall_map, Forall_true. intros g. split; [by apply group_bytes_nonneg | done]. }
  assert (Hnn : Forall (λ x, 0 <= x) LCG) by (eapply Forall_impl; [exact H0 | simpl; lia]).
  destruct bsr as [| l | s | s | l]; simpl in Hsays, Hfits.
  - destruct (Hnone eq_refl). simpl. lia.
  - destruct Hfits as [Hn Hfit]. change (bsr_sub (b_long l) pos e) with (long_sub UL_SCH_LCID_L_BSR l (e - (pos + 3))).
    unfold long_sub. destruct (long_levels l 0 (e - (pos + 3))) as [f o] eqn:El.
    pose proof (indices_range _ _ Hsays) as Hr. apply Forall2_length in Hsays as Hlen.
    assert (Hz8 : zlen LCG = 8) by by rewrite HL. assert (Hl8 : zlen l = 8) by (unfold zlen in *; lia).
    destruct (long_levels_ok l 0 _ f o Hr ltac:(lia) El) as (_ & _ & _ & Ho & _).
    pose proof (nonzero_levels _ _ Hsays Hnn) as Hnz. rewrite Ho in El by lia.
    change (ul_effect gev harq_pid ue [UlBsrLong UL_SCH_LCID_L_BSR (f :: o)]) with (ul_bsr (ok_or (estimate_ul_buffer_long_bsr (f :: o) 0) 0) ue).
    rewrite Ho by lia. rewrite (long_bsr_read l _ f _ Hl8 Hr El). simpl.
    pose proof (estim_sum_covers LCG l 0 Hsays) as Hc. rewrite Z.add_0_l, Hz8 in Hc. rewrite Hall. apply Hc; [| lia | lia].
    eapply Forall_impl; [exact H0 |]. unfold max_reported. simpl. lia.
  - destruct Hsays as (n & i & En & Hi & ->). destruct Hfits as [Hn _].
    assert (Hg : n = group_bytes m lcg).
    { rewrite HL in En. unfold znth in En. destruct (lcg <? 0); [done |]. rewrite list_lookup_fmap in En.
      rewrite lookup_seqZ_lt in En by lia. simpl in En. injection En as <-. f_equal. lia. }
    assert (Hn0 : 0 <= n <= 300000) by (rewrite Hg; split; [by apply group_bytes_nonneg | done]).
    destruct (short_estim_covers n i _ Hi Hn0 (short_octet_index i lcg ltac:(by destruct Hi) Hlcg)) as (est & Ee & Hle).
    change (ul_effect gev harq_pid ue (bsr_sub (b_short (i mod 32 + 32 * (lcg mod 8))) pos e))
      with (ul_bsr (ok_or (estimate_ul_buffer_short_bsr (i mod 32 + 32 * (lcg mod 8))) 0) ue). rewrite Ee. simpl.
    destruct (highest_lcg_data m lcg Hw Hopen Hhi Hlcg) as [Hpos | ->]; [| lia].
    rewrite Hall, (lcgs_one LCG n); [done | done | done | | lia].
    unfold znth in En. destruct (lcg <? 0); [done |]. by eapply list_elem_of_lookup_2.
  - lia.
  - lia.
Qed.

(** SDUs and a power headroom report leave an estimate that is not negative. *)
Lemma effect_estimate xs (ue : ul_ue_t F) :
  Forall ul_sub_ok xs → Forall (λ x, match x with UlSdu _ _ _ | UlPhr _ _ => True | _ => False end) xs → ul_ue_ok ue →
  0 <= estimated_ul_buffer ue → 0 <= estimated_ul_buffer (ul_effect gev harq_pid ue xs).
Proof.
  intros Hok. revert ue. induction Hok as [| x xs Hx Hok IH]; intros ue Hk Hu He; [done |]. apply Forall_cons in Hk as [Hk Hks].
  change (ul_effect gev harq_pid ue (x :: xs)) with (ul_effect gev harq_pid (ul_sub_effect gev harq_pid ue x) xs).
  destruct (effect_keeps gev harq_pid x ue Hx Hu) as (Hu' & _). apply IH; [done | done |].
  destruct x as [hd lcid d | | | b1 b2]; [| done.. |].
  - simpl. destruct (lc_ignored ue lcid); [done |]. destruct Hx as (Hl & _).
    destruct (count_sdu_ok lcid (zlen d) ue ltac:(lia) Hu) as (ue1 & -> & _ & _ & _ & He1). simpl.
    destruct (lcid <? 4); [by rewrite He1 |]. simpl. destruct (Z.leb_spec (zlen d) (estimated_ul_buffer ue1)); lia.
  - simpl. unfold handle_single_entry_phr. by destruct (harq_pid <? 0).
Qed.
End gnb.

(** ** The block *)

Section block.
Context {E F : Type} `{TL : RlcTickLaws E} `{RF : RlcEntity F}.

Lemma lcgs_max l : lcgs_with_data l <= zlen l.
Proof using. clear. induction l as [| x l IH]; [done |]. rewrite lcgs_cons, zlen_cons. destruct (0 <? x); lia. Qed.

Lemma block_reports ev m rlc buflen buf m' rlc' sdus phr bsr pad gev harq_pid (gue : ul_ue_t F) :
  ul_block (E:=E) ev m rlc buflen buf m' rlc' sdus phr bsr pad → lcs m' = lcs m → lcs m ≠ [] → ul_wf m →
  (∀ x, x ∈ lcs m → lo_suspended x = false) → (∀ g, group_bytes m g <= 300000) → 11 <= buflen →
  ul_ue_ok gue → 0 <= estimated_ul_buffer gue →
  all_bytes m' <= estimated_ul_buffer (ul_effect gev harq_pid gue (sdus ++ phr_sub phr ++ bsr_sub bsr (zlen (ul_octets sdus) + phr_len phr) buflen)).
Proof using.
  intros [B1 B2 B3 B4 B5 B6 B7 B8 (m1 & LCG1 & Hl1 & Hact & Hroom) (LCG & lcg & Hlcg & Hhi & Hr & Hsays & Hfits)] Hlcs Hsome Hw Hopen Hmax Hlen Hg He.
  assert (Hmax' : ∀ g, group_bytes m' g <= 300000) by (intros g; specialize (B8 g); specialize (Hmax g); lia).
  pose proof (lcg_list m LCG1 Hw Hl1 Hmax) as HL1. pose proof (lcg_list m' LCG B7 Hlcg Hmax') as HL.
  assert (Hle : Forall2 Z.le LCG LCG1).
  { rewrite HL, HL1. clear -B8. induction (seqZ 0 8) as [| g l IH]; constructor; [apply B8 | done]. }
  assert (Hn1 : Forall (λ x, 0 <= x) LCG1) by (rewrite HL1; apply Forall_map, Forall_true; intros g; by apply group_bytes_nonneg).
  assert (Hn : Forall (λ x, 0 <= x) LCG) by (rewrite HL; apply Forall_map, Forall_true; intros g; by apply group_bytes_nonneg).
  pose proof (lcgs_mono _ _ Hle) as Hmono. pose proof (lcgs_nonneg LCG) as Hnn. pose proof (lcgs_max LCG1) as H8.
  assert (Hz8 : zlen LCG1 = 8) by by rewrite HL1. rewrite Hz8 in H8.
  assert (Hactive : BSR_reporting_active m1 ≠ 0).
  { apply Hact. destruct (lcs m) as [| x l] eqn:El; [done |]. exists x. split; [by left | apply Hopen; by left]. }
  unfold reserved_bsr_len in Hroom. revert Hroom. decide_false (BSR_reporting_active m1 =? 0). cbv zeta. intros Hroom.
  set (pos := zlen (ul_octets sdus) + phr_len phr) in *.
  assert (Hcase : lcgs_with_data LCG1 = 0 ∨ lcgs_with_data LCG1 = 1 ∧ 2 <= buflen - pos ∨ lcgs_with_data LCG1 + 3 <= buflen - pos).
  { pose proof (lcgs_nonneg LCG1). destruct (Z.ltb_spec 1 (lcgs_with_data LCG1)).
    - right; right. revert Hroom. decide_true (lcgs_with_data LCG1 + 3 <=? buflen). simpl. lia.
    - destruct (Z.ltb_spec 0 (lcgs_with_data LCG1)); [| left; lia]. right; left. revert Hroom. decide_true (2 <=? buflen). simpl. lia. }
  rewrite app_assoc. unfold ul_effect. rewrite foldl_app. fold (ul_effect gev harq_pid gue (sdus ++ phr_sub phr)).
  match goal with |- _ <= estimated_ul_buffer (foldl _ ?u ?l) => change (foldl _ u l) with (ul_effect gev harq_pid u l) end.
  apply (bsr_covers gev harq_pid m' LCG lcg); try done; [by rewrite Hlcs | lia |].
  intros ->. simpl in Hfits. split.
  - assert (lcgs_with_data LCG1 = 0) as Hz1 by lia. assert (lcgs_with_data LCG = 0) as Hz0 by lia.
    apply lcgs_none in Hz0; [| done]. unfold all_bytes. by rewrite <- HL.
  - apply Forall_app in B5 as [Hpok _]. apply effect_estimate; [| | done | done].
    + apply Forall_app. split; [| done]. eapply Forall_impl; [exact B4 | by intros y [? _]].
    + apply Forall_app. split; [eapply Forall_impl; [exact B4 |]; by intros [] [_ ?] |].
      destruct phr as [l |]; [| constructor]. destruct l as [| ? [| ? [|]]]; by repeat constructor.
Qed.
End block.
