(* ===== verification/MacUlProps.v ===== *)
(** * Uplink MAC PDU: theorems

    The transfer of SDUs from the RLC of the UE to the RLC of the gNB, over one transport block and
    over a run; what the gNB learns from the reports of the UE; and where it goes wrong. *)

From S2P Require Import Prelude RlcPdu RlcEntity RlcUm RlcUmTx RlcUmRx RlcUmProps RlcUmLink RlcUmTransfer.
From S2P Require Import RlcApi RlcApiLaws MacPdu MacDl MacBsr MacUeRx MacDlGnb MacUmTransfer MacDlProps.
From S2P Require Import MacUlRx MacUlLcp MacUlGnb MacUlFill MacUlRounds MacUlBlock MacUmUplink MacUlReport.

(** ** Concrete states *)

Definition timer0 : NR_timer_t := mk_timer false false 0 10 1.
Definition lc4 : nr_lcordered_info_t := mk_lo (mk_lcinfo 4 false) 0 5 8000 800000 false.
Definition sched_idle : NR_LC_SCHEDULING_INFO := mk_lcsched 0 0 0 timer0.

(** A UE with channel 4 in group 1, [n] bytes in its buffer and a power headroom report to send. *)
Definition ul_of (n : Z) : ue_ul_t :=
  mk_ueul [lc4] (replicate 3 sched_idle ++ [mk_lcsched n 1 1000 timer0] ++ replicate 28 sched_idle)
    (replicate 8 (mk_sr false false 0 timer0 0)) 0 0 timer0 timer0 timer0 (mk_phr true 1 timer0 timer0 0).
Definition uev0 : ue_env := mk_ueenv 5 7 3 23 0 false (λ _, 0).
Definition gev0 : ul_env nr_rlc_entity_um_t := mk_ulenv (λ u, Ok (true, u)) 9 (λ _, 0) (λ _ x, x) false.
Definition gue_of {E} (e : E) : ul_ue_t E := mk_ulue true false None [mk_lc 4 false] 0 0 0 0 stats0 (rlc_ue_of e).

Lemma ul_of_wf n : 0 <= n < 2 ^ 31 → ul_wf (ul_of n).
Proof.
  intros Hn. constructor; [done | | by repeat constructor; apply not_elem_of_nil | done | done].
  intros x ->%list_elem_of_singleton. split; [done |]. split; [done |]. split; [done |].
  exists (mk_lcsched n 1 1000 timer0). split; [done |]. by split.
Qed.

Lemma ul_of_ready n (e : nr_rlc_entity_um_t) k buflen : 0 <= n < 2 ^ 31 → um_inv e → 2 <= buflen <= 65535 → buflen <= Z.of_nat k →
  ul_ready uev0 (ul_of n) (rlc_ue_of e) (replicate k 170) buflen.
Proof.
  intros Hn He Hb Hk. constructor; try done; [by apply ul_of_wf | left; repeat constructor; apply not_elem_of_nil | | ].
  - unfold zlen. by rewrite length_replicate.
  - intros x ->%list_elem_of_singleton. exists (Some (Drb 0)). split; [done |]. exists (Some e). by split.
Qed.

Lemma gue_ok {E} (e : E) : ul_ue_ok (gue_of e).
Proof. done. Qed.

(** ** One transport block *)

(** C5: (termination) Uplink MAC transfer: [nr_ue_get_sdu] returns. The block has 2 to 65535 octets;
    the logical channels, at least one, have distinct identities from 1 to 32 except 3, each is in a
    logical channel group and has less than 2^31 octets waiting, the channel that triggered a BSR,
    if any, is one of them, and either no two have the same priority or all have a prioritised bit
    rate of at least half the block (without this the assertion on the remaining bytes can fail in
    round 256, where the number of the round wraps). Then, whatever the buffers, the token buckets
    and the reports to send, the rounds of logical channel prioritisation end, no assertion fails,
    and nothing is written outside the transport block. The gNB that receives this block, wherever
    it is in memory, gives its RLC exactly the PDUs that the RLC of the UE generated for it, each
    with its channel, in order and unchanged (those of channels that it does not know or has
    suspended dropped); with 1024 PDUs or more it aborts. *)
Theorem ul_mac_transfer {E F} `{RlcTickLaws E} `{RlcEntity F} ev m (rlc : nr_rlc_ue_t E) buffer buflen
    gev harq_pid post (gue : ul_ue_t F) :
  ul_ready ev m rlc buffer buflen → ul_ue_ok gue →
  ∃ bsr_sent tb m' rlc' l gue',
    nr_ue_get_sdu ev m rlc buffer buflen = Ok (0 <? zlen l, bsr_sent, tb, m', rlc') ∧
    zlen tb = zlen buffer ∧ ul_wf m' ∧ lcs m' = lcs m ∧
    rlc_pulls (open_lcids (lcs m)) (ue_now ev) (ue_now_us ev) rlc l rlc' ∧
    ul_ue_ok gue' ∧ gu_lc_config gue' = gu_lc_config gue ∧
    nr_process_mac_pdu gev harq_pid (take (Z.to_nat buflen) tb ++ post) buflen gue =
      let sdus := List.filter (λ q, negb (lc_ignored gue q.1)) l in
      if zlen sdus <? MAX_NUM_DATA_IND then
        v ← rlc_receive (uv_now gev) (gu_rlc gue) sdus;
        Ok (gue' <| gu_rlc := v |>
                 <| gu_stats ::= λ s, s <| num_mac_sdu := u32 (num_mac_sdu s + dtch_count sdus) |> |>)
      else Exit.
Proof.
  intros Hready Hg. pose proof (ur_len _ _ _ _ _ Hready) as Hlen.
  destruct (get_sdu_ok ev m rlc buffer buflen Hready) as (buf & m' & rlc' & sdus & phr & bsr & pad & E1 & [B1 B2 B3 B4 B5 B6 B7 _ _ _] & Hz & Hl).
  set (ces := phr_sub phr ++ _) in *.
  assert (Hsubs : Forall ul_sub_ok (sdus ++ ces)).
  { apply Forall_app. split; [| done]. eapply Forall_impl; [exact B4 | by intros y [? _]]. }
  destruct (ul_effect_keeps gev harq_pid (sdus ++ ces) gue Hsubs Hg) as [Hg' Hcfg].
  assert (Hn : zlen (map sub_pdu sdus) = zlen sdus) by (unfold zlen; by rewrite length_map).
  exists (bsr_sent bsr), buf, m', rlc', (map sub_pdu sdus), (ul_effect gev harq_pid gue (sdus ++ ces)).
  rewrite Hn. split_and!; try done.
  pose proof (ul_process_ok gev harq_pid (sdus ++ ces) pad post gue Hsubs B3 Hg ltac:(lia)) as Hp. cbv zeta in Hp.
  rewrite B2, app_assoc, <- B1 in Hp. rewrite Hp. unfold ces. rewrite ul_sdus_of by (done || apply ces_no_sdu). done.
Qed.

(** Two SDUs waiting in UM, a block of 30 octets. *)
Lemma ul_mac_transfer_witness :
  ∃ bsr_sent tb m' rlc' l gue',
    nr_ue_get_sdu uev0 (ul_of 20) (rlc_ue_of um_loaded) (replicate 40 170) 30 = Ok (0 <? zlen l, bsr_sent, tb, m', rlc') ∧
    zlen tb = 40 ∧ ul_wf m' ∧ lcs m' = [lc4] ∧
    rlc_pulls [4] 5 7 (rlc_ue_of um_loaded) l rlc' ∧
    ul_ue_ok gue' ∧ gu_lc_config gue' = [mk_lc 4 false] ∧
    nr_process_mac_pdu gev0 0 (take (Z.to_nat 30) tb ++ [1; 2]) 30 (gue_of (um6 1000 1000)) =
      let sdus := List.filter (λ q, negb (lc_ignored (gue_of (um6 1000 1000)) q.1)) l in
      if zlen sdus <? MAX_NUM_DATA_IND then
        v ← rlc_receive 9 (rlc_ue_of (um6 1000 1000)) sdus;
        Ok (gue' <| gu_rlc := v |>
                 <| gu_stats ::= λ s, s <| num_mac_sdu := u32 (num_mac_sdu s + dtch_count sdus) |> |>)
      else Exit.
Proof.
  apply (ul_mac_transfer uev0 (ul_of 20) (rlc_ue_of um_loaded) (replicate 40 170) 30 gev0 0 [1; 2] (gue_of (um6 1000 1000))); [| apply gue_ok].
  apply ul_of_ready; [done | exact um_loaded_inv | done | done].
Defined.

(** ** A run of a UM bearer *)

(** C4: (refinement) UM bearer over MAC, uplink: a UM bearer with 6-bit SNs, the only logical
    channel of its UE, in service at both ends and assigned to a logical channel group, from the RLC
    entity of the UE through [nr_ue_get_sdu] and [nr_process_mac_pdu] to the RLC entity of the gNB,
    which has room for [NR_SDU_MAX] octets, is a FIFO of SDUs. For any sequence of SDUs of 1 to
    [NR_SDU_MAX] octets from PDCP and of transport blocks of 2 to 65535 octets (a larger one can
    lose its SDUs, [ul_big_padding_loses_sdus]), with any buffer status, token bucket and reports of
    the UE at every block ([ul_wf]), every step returns, and the SDUs that the gNB delivered,
    followed by those waiting at the UE, are exactly the SDUs that the UE accepted, unchanged and in
    order; or the gNB aborts, which needs a block of 2048 octets or more. *)
Theorem mac_um_uplink c d a b rxa txa ta rxb txb tb k s ops :
  1 <= c <= 32 → 1 <= d <= 32 →
  new_nr_rlc_entity_um rxa txa ta 6 = Ok a → new_nr_rlc_entity_um rxb txb tb 6 = Ok b → NR_SDU_MAX <= rxb →
  ul_ue_ok (ul_gnb k) → lc_ignored (ul_gnb k) c = false → ul_sent k = [] →
  bearer (ul_rlc k) c (Drb (d - 1)) a → bearer (gu_rlc (ul_gnb k)) c s b → Forall (ul_op_ok c) ops →
  (∃ k' a' s' b' done waiting pos, ul_run d k ops = Ok k' ∧
     bearer (ul_rlc k') c (Drb (d - 1)) a' ∧ bearer (gu_rlc (ul_gnb k')) c s' b' ∧
     out (common b') = delivered done ∧ um_waiting a' pos waiting ∧ ul_sent k' = done ++ waiting) ∨
  (ul_run d k ops = Exit ∧ Exists big_ul_block ops).
Proof.
  intros Hc Hd Ha Hb Hroom Hg Hact Hsent Hba Hbb Hops.
  assert (Hi : ul_inv c d k).
  { split; [done |]. split; [done |]. exists a, s, b, [], [], 0. rewrite Hsent. split_and!; [done.. |]. by eapply link_init. }
  destruct (ul_run_ok c d Hc Hd ops k Hi Hops) as [(k' & Hrun & _ & _ & a' & s' & b' & done & ds & pos & H1 & H2 & H3) | ?]; [left | by right].
  exists k', a', s', b', done, ds, pos. destruct H3 as [_ _ _ _ Hw _ Ho Hs]. by split_and!.
Qed.

Definition ul_blk (n buflen : Z) : ul_op := UlBlock uev0 (ul_of n) (replicate 100 170) buflen gev0 0 [].
Definition ul_demo_ops : list ul_op :=
  [UlSubmit [1; 2; 3; 4; 5] 1 0 0; UlSubmit [6] 2 0 0; ul_blk 14 12; ul_blk 5 8; UlSubmit [7; 8; 9] 3 1 1; ul_blk 20 60; ul_blk 0 9].
Definition ul_link0 : ul_link := mk_ul (rlc_ue_of (um6 100000 100000)) (gue_of (um6 100000 100000)) [].

Lemma ul_blk_ok n buflen : 0 <= n < 2 ^ 31 → 2 <= buflen <= 100 → ul_op_ok 4 (ul_blk n buflen).
Proof.
  intros Hn Hb. split; [by apply ul_of_wf |]. split; [by exists lc4 |]. split; [lia |]. change (buflen <= 100). lia.
Qed.

Lemma mac_um_uplink_witness :
  (∃ k' a' s' b' done waiting pos, ul_run 1 ul_link0 ul_demo_ops = Ok k' ∧
     bearer (ul_rlc k') 4 (Drb 0) a' ∧ bearer (gu_rlc (ul_gnb k')) 4 s' b' ∧
     out (common b') = delivered done ∧ um_waiting a' pos waiting ∧ ul_sent k' = done ++ waiting) ∨
  (ul_run 1 ul_link0 ul_demo_ops = Exit ∧ Exists big_ul_block ul_demo_ops).
Proof.
  apply (mac_um_uplink 4 1 (um6 100000 100000) (um6 100000 100000) 100000 100000 35 100000 100000 35 ul_link0 (Drb 0) ul_demo_ops);
    [done | done | reflexivity | reflexivity | done | apply gue_ok | done | done | done | done |].
  unfold ul_demo_ops. repeat (apply List.Forall_cons; [first [by split | by apply ul_blk_ok] |]). constructor.
Defined.

(** In this run the gNB delivers all three SDUs. *)
Example ul_demo_delivers :
  (k ← ul_run 1 ul_link0 ul_demo_ops; o ← rb_get (gu_rlc (ul_gnb k)) (Drb 0); b ← deref o; Ok (out (common b))) =
    Ok (delivered [[1; 2; 3; 4; 5]; [6]; [7; 8; 9]]).
Proof. vm_compute. reflexivity. Qed.

(** ** What the gNB learns *)

(** C13: (functional) Buffer status: in a block of at least 11 octets, with all channels in service
    and at most 300000 bytes in each group (more does not fit into a short BSR), the BSR is never
    missing and never truncated when there is something to report: after the gNB has processed the
    block, its estimate is at least the number of bytes that the UE still has to send, those of all
    groups together. *)
Theorem ul_bsr_complete {E F} `{RlcTickLaws E} `{RlcEntity F} ev m (rlc : nr_rlc_ue_t E) buffer buflen
    gev harq_pid post (gue : ul_ue_t F) :
  ul_ready ev m rlc buffer buflen → ul_ue_ok gue → 0 <= estimated_ul_buffer gue → 11 <= buflen →
  (∀ x, x ∈ lcs m → lo_suspended x = false) → (∀ g, group_bytes m g <= 300000) →
  ∃ more bsr_sent tb m' rlc', nr_ue_get_sdu ev m rlc buffer buflen = Ok (more, bsr_sent, tb, m', rlc') ∧
    ∀ gue', nr_process_mac_pdu gev harq_pid (take (Z.to_nat buflen) tb ++ post) buflen gue = Ok gue' →
      all_bytes m' <= estimated_ul_buffer gue'.
Proof.
  intros Hready Hg He Hlen Hopen Hmax.
  destruct (get_sdu_ok ev m rlc buffer buflen Hready) as (buf & m' & rlc' & sdus & phr & bsr & pad & E1 & Hblk & Hz & Hl).
  exists (0 <? zlen sdus), (bsr_sent bsr), buf, m', rlc'. split; [done |]. intros gue' Hp.
  pose proof (block_reports ev m rlc buflen buf m' rlc' sdus phr bsr pad gev harq_pid gue Hblk Hl (ur_some _ _ _ _ _ Hready)
    (ur_wf _ _ _ _ _ Hready) Hopen Hmax Hlen Hg He) as Hrep.
  destruct Hblk as [B1 B2 B3 B4 B5 _ _ _ _ _]. set (ces := phr_sub phr ++ _) in *.
  assert (Hsubs : Forall ul_sub_ok (sdus ++ ces)).
  { apply Forall_app. split; [| done]. eapply Forall_impl; [exact B4 | by intros y [? _]]. }
  pose proof (ul_process_ok gev harq_pid (sdus ++ ces) pad post gue Hsubs B3 Hg ltac:(lia)) as Hq. cbv zeta in Hq.
  rewrite B2, app_assoc, <- B1, Hp in Hq.
  destruct (zlen _ <? MAX_NUM_DATA_IND) in Hq; [| discriminate Hq]. symmetry in Hq. inv_bind Hq. injection Hq as <-. exact Hrep.
Qed.

(** 200 bytes waiting; after a block of 12 octets. *)
Lemma ul_bsr_complete_witness :
  ∃ more bsr_sent tb m' rlc',
    nr_ue_get_sdu uev0 (ul_of 200) (rlc_ue_of um_loaded) (replicate 40 170) 12 = Ok (more, bsr_sent, tb, m', rlc') ∧
    ∀ gue', nr_process_mac_pdu gev0 0 (take (Z.to_nat 12) tb ++ []) 12 (gue_of (um6 1000 1000)) = Ok gue' →
      all_bytes m' <= estimated_ul_buffer gue'.
Proof.
  apply (ul_bsr_complete uev0 (ul_of 200) (rlc_ue_of um_loaded) (replicate 40 170) 12 gev0 0 [] (gue_of (um6 1000 1000)));
    [| apply gue_ok | done | done | |].
  - apply ul_of_ready; [done | exact um_loaded_inv | done | done].
  - by intros x ->%list_elem_of_singleton.
  - intros g. change (group_bytes (ul_of 200) g) with (zsum [if 1 =? g then 200 else 0]). destruct (1 =? g); simpl; lia.
Defined.

(** C36: (bounds) Power headroom: the gNB reads the maximum power of the UE and a power headroom that
    is exact below 22 dB and 1 or 2 dB too high from there to 38 dB (the table of 38.133 has steps of
    2 dB there; the gNB takes the upper end).  [uv_rb_factor] is what the gNB adds for the bandwidth. *)
Theorem ul_power_headroom {E} (gev : ul_env E) harq_pid P_CMAX tx_power pathloss m b1 b2 (ue : ul_ue_t E) :
  (nr_ue_fill_phr P_CMAX tx_power pathloss m).1 = [b1; b2] → -29 <= P_CMAX <= 34 → -32 <= P_CMAX - tx_power < 38 →
  0 <= harq_pid → uv_hasDeltaMCS gev = false →
  let ue' := handle_single_entry_phr gev harq_pid b1 b2 ue in
  let excess := gu_ph ue' - uv_rb_factor gev harq_pid - (P_CMAX - tx_power) in
  gu_pcmax ue' = P_CMAX ∧ (if P_CMAX - tx_power <? 22 then excess = 0 else 1 <= excess <= 2).
Proof.
  intros [= <- <-] HP Hh Hpid Hmcs. unfold handle_single_entry_phr. decide_false (harq_pid <? 0). rewrite Hmcs. cbv zeta. simpl.
  change 63 with (Z.ones 6). rewrite !Z.land_ones by lia. change (2 ^ 6) with 64. split; [zdiv_lia |].
  set (h := P_CMAX - tx_power) in *. assert (HPH : 0 <= phr_PH h < 64).
  { unfold phr_PH. destruct (h <? 22); zdiv_lia. }
  rewrite (Z.mod_small (phr_PH h)) by done. unfold phr_PH, power_headroom. destruct (Z.ltb_spec h 22).
  - rewrite Z.mod_small by lia. decide_true (Z.max 0 (h + 32) <? 55). lia.
  - assert (Z.quot (h - 22) 2 = (h - 22) / 2) as -> by (apply Z.quot_div_nonneg; lia).
    assert (0 <= (h - 22) / 2 < 8) by zdiv_lia. rewrite !Z.mod_small by lia.
    decide_false (Z.min 63 (55 + (h - 22) / 2) <? 55). decide_true (Z.min 63 (55 + (h - 22) / 2) <? 63). zdiv_lia.
Qed.

(** 23 dBm, transmitting with -2 dBm: a headroom of 25 dB is taken for 26 dB. *)
Lemma ul_power_headroom_witness :
  (nr_ue_fill_phr 23 (-2) 80 (ul_of 0)).1 = [56; 52] ∧
  let ue' := handle_single_entry_phr gev0 0 56 52 (gue_of (um6 1000 1000)) in
  let excess := gu_ph ue' - uv_rb_factor gev0 0 - (23 - -2) in
  gu_pcmax ue' = 23 ∧ (if 23 - -2 <? 22 then excess = 0 else 1 <= excess <= 2).
Proof.
  split; [reflexivity |]. by apply (ul_power_headroom gev0 0 23 (-2) 80 (ul_of 0) 56 52 (gue_of (um6 1000 1000))).
Defined.

(** ** Any octets *)

(** C12: (safety) The gNB on arbitrary octets: [nr_process_mac_pdu] ends, keeps the invariants of the
    UE context, reads at most nine octets after the PDU, and everything it hands to RLC lies inside the
    PDU; it aborts only in an assertion.  [lcid_crnti_lookahead], which runs before it, always returns.
    ([prepare_initial_ul_rrc_message], outside of MAC, is assumed to abort or to keep the context.) *)
Theorem ul_gnb_safe {E} `{RlcEntity E} (ev : ul_env E) harq_pid mem pdu_len (ue : ul_ue_t E) :
  Forall is_octet mem → 0 < pdu_len → pdu_len + 9 <= zlen mem → ul_ue_ok ue →
  (∀ ue, ul_ue_ok ue → uv_prepare ev ue = Exit ∨ ∃ b ue', uv_prepare ev ue = Ok (b, ue') ∧ ul_ue_ok ue') →
  (∃ rnti, lcid_crnti_lookahead (Z.to_nat pdu_len) mem 0 pdu_len = Ok rnti) ∧
  (nr_process_mac_pdu ev harq_pid mem pdu_len ue = Exit ∨
   (∃ ue', nr_process_mac_pdu ev harq_pid mem pdu_len ue = Ok ue' ∧ ul_ue_ok ue') ∨
   ∃ ue' inds sdus n, ul_ue_ok ue' ∧ Forall (ind_inside pdu_len) inds ∧ Forall2 (ind_reads mem) inds sdus ∧
     nr_process_mac_pdu ev harq_pid mem pdu_len ue =
       (v ← rlc_receive (uv_now ev) (gu_rlc ue') sdus;
        Ok (ue' <| gu_rlc := v |> <| gu_stats ::= λ s, s <| num_mac_sdu := u32 (num_mac_sdu s + n) |> |>))).
Proof.
  intros Hmem Hpos Hz Hu Hprep. split; [apply (lookahead_safe mem Hmem); lia |]. unfold nr_process_mac_pdu.
  destruct (readable mem Hmem 0) as (b & -> & _); [lia |]. cbn [deref mbind res_bind].
  destruct (parse_safe ev harq_pid mem Hmem Hprep (Z.to_nat pdu_len) 0 pdu_len ue [] 0) as [-> | (ue' & r & -> & Hu' & Hr)];
    [done | lia | lia | lia | constructor | by left |]. cbn [mbind res_bind]. right. destruct r as [[inds n] |]; [right | left; by exists ue'].
  rewrite Z.add_0_l, Z.max_r in Hr by lia.
  assert (Hs : ∃ sdus, Forall2 (ind_reads mem) inds sdus).
  { clear -Hr Hz. induction Hr as [| i inds (H1 & H2 & H3) Hr (sdus & IH)]; [by exists [] |].
    eexists ((ind_ch i, _) :: sdus). constructor; [| done]. split; [done |]. apply slice_Some; lia. }
  destruct Hs as [sdus Hs]. exists ue', inds, sdus, n. split_and!; try done. by rewrite (data_ind_receive _ _ _ _ _ Hs).
Qed.

(** A long BSR that claims eight levels and has none, then a padding subheader. *)
Lemma ul_gnb_safe_witness :
  (∃ rnti, lcid_crnti_lookahead (Z.to_nat 4) ([62; 1; 255; 63] ++ replicate 9 7) 0 4 = Ok rnti) ∧
  (nr_process_mac_pdu gev0 0 ([62; 1; 255; 63] ++ replicate 9 7) 4 (gue_of (um6 1000 1000)) = Exit ∨
   (∃ ue', nr_process_mac_pdu gev0 0 ([62; 1; 255; 63] ++ replicate 9 7) 4 (gue_of (um6 1000 1000)) = Ok ue' ∧ ul_ue_ok ue') ∨
   ∃ ue' inds sdus n, ul_ue_ok ue' ∧ Forall (ind_inside 4) inds ∧ Forall2 (ind_reads ([62; 1; 255; 63] ++ replicate 9 7)) inds sdus ∧
     nr_process_mac_pdu gev0 0 ([62; 1; 255; 63] ++ replicate 9 7) 4 (gue_of (um6 1000 1000)) =
       (v ← rlc_receive 9 (gu_rlc ue') sdus;
        Ok (ue' <| gu_rlc := v |> <| gu_stats ::= λ s, s <| num_mac_sdu := u32 (num_mac_sdu s + n) |> |>))).
Proof.
  apply (ul_gnb_safe gev0 0 ([62; 1; 255; 63] ++ replicate 9 7) 4 (gue_of (um6 1000 1000))); [| done | done | apply gue_ok |].
  - by repeat constructor.
  - intros ue Hu. right. by exists true, ue.
Defined.

(** ** Where it goes wrong *)

(** C39: (error) Padding of more than 65535 octets: the gNB keeps the length of the padding in 16 bits
    and takes octets of it for subheaders.  With the zeros that the UE sends this ends the processing
    of the PDU before the data indication: none of its SDUs reaches RLC, although the PDU is counted
    in the statistics and the UE will not send them again. *)
Theorem ul_big_padding_loses_sdus {E} `{RlcEntity E} (ev : ul_env E) harq_pid xs n post (ue : ul_ue_t E) :
  Forall ul_sub_ok xs → ul_ue_ok ue → zlen (ul_sdus ue xs) < MAX_NUM_DATA_IND → 65536 <= n →
  ∃ ue', nr_process_mac_pdu ev harq_pid (ul_octets xs ++ (UL_SCH_LCID_PADDING :: replicate (Z.to_nat n) 0) ++ post)
      (zlen (ul_octets xs) + (1 + n)) ue = Ok ue' ∧ gu_rlc ue' = gu_rlc ue.
Proof.
  intros Hok Hu Hcnt Hn. exists (ul_effect ev harq_pid ue xs). split; [by apply big_padding | by apply effect_rlc].
Qed.

Lemma ul_big_padding_loses_sdus_witness :
  ∃ ue', nr_process_mac_pdu gev0 0 (ul_octets [UlSdu 2 4 [0; 1; 2]] ++ (UL_SCH_LCID_PADDING :: replicate (Z.to_nat 65536) 0) ++ [])
      (zlen (ul_octets [UlSdu 2 4 [0; 1; 2]]) + (1 + 65536)) (gue_of (um6 1000 1000)) = Ok ue' ∧
    gu_rlc ue' = gu_rlc (gue_of (um6 1000 1000)).
Proof.
  apply (ul_big_padding_loses_sdus gev0 0 [UlSdu 2 4 [0; 1; 2]] 65536 [] (gue_of (um6 1000 1000))); [| apply gue_ok | done | done].
  constructor; [| done]. split; [done |]. split; [done |]. by left.
Defined.



(** (error) A channel without a group ([NR_INVALID_LCGID]) that has data: [fill_mac_sdu] accesses
    [LCG_bytes] after its end. *)
Theorem lcgid_out_of_bounds :
  nr_ue_get_sdu uev0
    (mk_ueul [lc4] (replicate 3 sched_idle ++ [mk_lcsched 20 NR_INVALID_LCGID 1000 timer0] ++ replicate 28 sched_idle)
      (replicate 8 (mk_sr false false 0 timer0 0)) 0 0 timer0 timer0 timer0 (mk_phr true 1 timer0 timer0 0))
    (rlc_ue_of um_loaded) (replicate 40 170) 30 = UB.
Proof. vm_compute. reflexivity. Qed.

(** (error) More than 81338368 bytes in a group: the UE reports index 254, for which the gNB computes
    an estimate of -1, or, above 162676736 bytes, the index 255, which is reserved. *)
Theorem bsr_254_negative :
  nr_locate_BsrIndexByBufferSize NR_LONG_BSR_TABLE_SIZE 81338369 = Ok 254 ∧
  estimate_ul_buffer_long_bsr [1; 254] 0 = Ok (-1) ∧
  nr_locate_BsrIndexByBufferSize NR_LONG_BSR_TABLE_SIZE 162676737 = Ok 255.
Proof. split_and!; vm_compute; reflexivity. Qed.
